(* ===== verification/_CoqProject ===== *)
-Q . S2P
Prelude.v
PyStr.v
PyInt.v
PyDict.v
Sql.v
Catalogue.v
Staging.v
Wire.v
Push.v
Json.v
PyTime.v
AuditLog.v
AuditStore.v
PosixPath.v
Walk.v
Feed.v
Supervisor.v
WinPath.v
Ingest.v
Rbac.v
Jobs.v
Signing.v
Envelope.v
JobQueue.v
Fs.v
Actor.v
Orchestrator.v
Coordinator.v
Leases.v
Dedup.v
Scan.v
Fullbit.v
Scanners.v
Runner.v
DedupStore.v
Rollup.v
Query.v
Charts.v
Visible.v
Finalize.v
Organize.v
Reconcile.v
Settings.v
SettingsStore.v
PreviewPull.v
Preview.v
PreviewRoute.v
Browse.v
Notify.v
Watch.v
Auth.v
AuthRoutes.v
AuthHistory.v
PyUrl.v
Bundle.v
WinBundle.v
Enroll.v
Deploy.v
DeployRoutes.v
DeployBrowse.v
RiskClass.v
PlanStore.v
Remediation.v
JobRoutes.v
ReadRoutes.v
OrganizeRoutes.v
Inference.v
ConciergeQueries.v
Concierge.v
Embedding.v
ScanRoutes.v
Adapters.v
TrueNas.v
AgentConf.v
Backends.v
Remote.v
SettingsRoutes.v
AgentRoutes.v
Suitability.v
Workers.v
