(* ===== verification/Prelude.v ===== *)
(** * Fathomline: a verification library of the [fathom] package

    Fathomline catalogues the files of many machines, finds duplicates, and reclaims space under an
    audited, signed write path.  An agent on each host walks its file systems, stages what changed and
    pushes it over mTLS; the core catalogues it, reports, and issues signed jobs that the agent's
    actor verifies and executes.  Paths below are relative to [src/src/fathom/].

    ** Layers, from the leaves up

    Shared ground, with no state of the program:
    - [Prelude]: the [result] error type and its monad, a state monad, stable sorting, list lemmas, keyset
      pagination, the tactic [to_prop].
    - [PyStr], [PyInt], [PyDict], [PyTime], [Json]: what the code uses of Python: [str] and its
      methods, [int()], grouping and ranking, [datetime], and [json.dumps] with sorted keys, which is
      injective.
    - [Sql]: the statements of the stores: [UPDATE ... WHERE], [INSERT ... ON CONFLICT DO UPDATE], with
      what they leave under each key.
    - [PosixPath] (security/paths.py, the scope checks of agent/config.py), [WinPath]
      (security/winpaths.py): normal forms and containment of paths.
    - [Catalogue] (core/catalogue/models.py, core/query.py): rows of the tables and LIKE patterns.
    - [Fs]: the POSIX calls of the actor, with interference by other processes and refused calls; an inode goes with its
      last name.

    The agent's reader:
    - [Walk] (backends/posix.py, backends/zfs.py): the walk with its worker pool, over the methods that a
      backend overrides.
    - [Backends] (backends/posix.py, zfs.py, ntfs.py, windows.py, winattrs.py, registry.py): the other
      operations of the local backends, what they override, and which backend a path gets.
    - [Remote] (backends/remote.py, sftp.py, smb.py, rclone.py): the remote backends over their transports.
    - [Staging] (agent/staging/store.py): the local queue, keyed by host, volume, device and inode.
    - [Feed] (agent/reader/feed.py), [Scan] (agent/reader/walker.py, incremental.py), [Fullbit]
      (agent/reader/fullbit.py): change events and their net effect, the scanners that stage what a
      walk or a feed yields, and the content-hashing pass.
    - [Scanners]: the same scans as calls of a store and a backend that may raise at each of them.
    - [Supervisor] (agent/reader/supervisor.py): when a scan has to wait or is refused.
    - [AgentConf] (agent/config.py, _apply_config_override of agent/__main__.py): the configuration with its
      validators, the override from the core, the mount points of remote targets.
    - [Adapters] (adapters/base.py, discovery.py, config.py, registry.py, resync.py, generic_linux.py): the frames
      of a platform adapter, the endpoint policy, and the parsers of the generic one.
    - [TrueNas] (adapters/truenas.py, jsonrpc.py): one adapter over a persistent session with its reconnects.
    - [Runner] (agent/runner.py): one run over the configured scopes, and the full-bit pass of each.
    - [Wire], [Push] (api/schemas.py, agent/transport/push.py): the frames and the drain of the queue to
      the core, with its retries.

    Cataloguing:
    - [Ingest] (core/ingest.py, core/incremental.py): one pushed batch as a transaction.
    - [Rollup], [Finalize] (core/rollup.py, core/finalize.py): totals per directory, and what follows
      the last batch of a run.
    - [Coordinator], [Leases] (core/agent_runs.py, core/scan_coordinator.py): run reports and the leases that
      bound how many heavy scans run at once, as whole transactions and as their interleaved statements.

    Duplicates and the organizer:
    - [Dedup] (core/dedup.py, agent/reader/hasher.py): the progressive funnel.
    - [DedupStore] (core/dedup_service.py, core/provider_dedup.py): the rebuild of the report tables.
    - [Organize] (core/organize/service.py): proposals of a language model, clamped to a root.

    The write path:
    - [AuditLog], [AuditStore] (core/audit.py, core/audit_store.py): the hash chain, in memory and in
      a table with concurrent writers.
    - [Rbac] (auth/principal.py, auth/scope.py): who may act on what.
    - [Jobs], [Signing] (core/remediation/plan.py, job.py, signing.py, nonce_store.py): plans, the
      signed jobs and their single use.
    - [Orchestrator], [JobQueue] (core/remediation/orchestrator.py, job_queue.py): issuing jobs and
      carrying them to the agent.
    - [Actor] (agent/actor/): verification and execution on the agent.
    - [RiskClass], [PlanStore], [Remediation] (core/riskclass.py, the plan tables of
      core/catalogue/models.py, api/routers/remediation.py): the routes that build, check and execute a
      plan, the tables they keep it in, and the audit rows of their session.
    - [JobRoutes] (api/routers/agent_jobs.py, api/remediation_runtime.py): how an agent fetches a
      dispatched job and posts its result.

    Reads:
    - [Query], [Charts] (core/query.py, core/query_charts.py): the read queries over the catalogue and the
      duplicate tables, each with its scope.
    - [ReadRoutes] (api/routers/read.py, charts.py, duplicates.py): the routes over them.
    - [Reconcile] (core/reconcile/service.py): the comparison of two folders by relative path.
    - [ScanRoutes] (api/routers/scans.py): the history of scans, the full-bit request, the dispatch of a scan.
    - [OrganizeRoutes] (api/routers/organize.py, reconcile.py): suggestions, activity, stored move plans
      and the comparison as requests.
    - [AgentRoutes] (api/routers/agents.py): the fleet, and the configuration an operator sets for a host.
    - [Suitability] (core/suitability.py, api/routers/suitability.py): which language models a host can run.

    - [Visible]: the part of a catalogue that a scope sees, and that the read queries see nothing else.

    The concierge:
    - [Inference] (inference/): the providers behind the egress gate, their requests and responses.
    - [ConciergeQueries], [Concierge] (core/concierge/, api/routers/concierge.py): the scoped
      queries, the fixed texts, and a question from its routing to its answer.
    - [Embedding] (core/concierge/embeddings.py): the vectors of the semantic search.

    Users and settings:
    - [Auth], [AuthRoutes], [AuthHistory] (auth/, api/auth_deps.py, api/routers/auth.py, admin_users.py,
      admin/bootstrap.py): sessions, step-up, grants and the provider chain; every route that changes
      them; and what holds over the histories of such requests.
    - [Settings], [SettingsStore] (core/settings.py, core/settings_store.py): the settings with their
      bounds, and the overrides that an operator persists over them.
    - [SettingsRoutes] (api/routers/settings_admin.py): who may read, change and reveal them.
    - [Workers] (workers/retention.py, settings_refresh.py): the periodic tasks that cap the change log and reload
      the settings.

    Files and directories on demand:
    - [Envelope] (preview/grant.py, preview/pull.py): signed single-use requests to an agent, and the
      rendezvous that carries them and their answers, over the interface of an envelope;
      core/browse.py has the same two mechanisms again.
    - [PreviewPull] (preview/, agent/preview_serve.py, api/routers/preview_pull.py): the pull of one
      file, from the core's fetcher to the agent that reads it and back.
    - [Preview], [PreviewRoute] (preview/cache.py, service.py, types.py, remote_driver.py,
      api/routers/preview.py): the type of a file, the encrypted cache, the render pipeline, the route.
    - [Browse] (core/browse.py, agent/browse_lister.py, browse_serve.py, api/routers/agent_browse.py):
      the listing of one directory of a host, with bounded sizes.

    Notifications:
    - [Notify] (core/notifications.py, core/notify/, api/routers/notifications.py): the bell and the
      channels it fans out to.
    - [Watch] (core/watch.py, workers/watch.py): the watch rules, the growth forecast and the tick.

    Deployment of agents:
    - [PyUrl]: what the code uses of [urllib.parse].
    - [Bundle], [WinBundle] (core/deploy/bundle.py, winbundle.py): the files of a configured agent, with
      the validation of what is written into them.
    - [Enroll] (core/deploy/enrollment.py, credentials.py): single-use tokens and the store of them.
    - [Deploy] (core/deploy/engine.py): the steps of a push to one host, over a record of the calls of
      the SSH transport, and the registry of the runs.
    - [DeployBrowse] (core/deploy/engine.py): what it reads of the output of [find] and [df] on a target.
    - [DeployRoutes] (api/routers/deployment.py, api/deploy_runtime.py): the routes over all of these.

    ** Correspondence

    A definition has the name of the function or class it translates, in the module that its file names; a loop
    body or a query that has no name of its own has a descriptive one.  State is explicit: a component's state
    is a record, an operation maps it to a result and a new state, and an operation that raises returns [Err].
    A database transaction is a function on the tables; [Err] rolls it back.  Transactions are taken one after
    the other, except where a claim depends on what comes in between: [Leases] interleaves the statements of the
    coordinator, [AuditStore] the readers and writers of the audit chain's head, and [Remediation], [ScanRoutes]
    and [AuthRoutes] let others extend the chain inside a request.  Coroutines interleave only at their awaits,
    so what runs between two awaits is one step.  Integers of Python are unbounded and so is [Z]; sizes, ids and
    counters of the tables are [Z].

    ** What is outside the source is a parameter

    BLAKE3, Ed25519 and HMAC, the language model, the kernel's path resolution, a storage backend, the random
    nonces and every clock reading are arguments of the definitions.  The theorems about cryptography are
    reductions (they exhibit a collision) or assume exactly the documented property (unforgeability), and come
    with a concrete instance.

    ** What the theorems show

    - Audit: the chain never breaks or forks, and tampering means a hash collision.
    - Write path: a job is accepted exactly if it is signed, fresh and for this host; whatever other processes
      do, the actor changes nothing before it saw the approved file and logged the intent, and if none
      interferes, what it changes is that file, and a quarantined one can be put back; a dispatch is claimed and
      resolved once, by its host.
    - Remediation routes: a plan is exactly the operator's choice of copies; what a request executes is gated by
      capability, scope, step-up and setting; a scan is dispatched only for a mount point in scope; a request
      that succeeds leaves the whole trail of what it did; a dispatch is answered only by the certificate of its
      host.
    - Paths: joins and clamps stay inside their base; scopes only narrow.
    - Duplicates: the reports hold exactly the classes of equal content.
    - Agent: a walk delivers the tree within its scope whatever the schedule of its workers; a delta is the net
      effect of its events; a cycle stages exactly what changed; a drain marks exactly what the core
      acknowledged, and ends; an override from the core reaches the scopes alone.
    - Backends: every directory has a backend; a placeholder is never opened; a remote scan stays in its own
      part of the catalogue.
    - Adapters: an adapter only reads; an answer belongs to its request; a pool is healthy only if the appliance
      said so.
    - Catalogue: a batch stays in its volume, the tables reflect it, a replay changes nothing, and the churn
      feed accounts for the live size; on POSIX volumes the rollups are the totals of the live files below.
    - A run of the agent: what a scan raises stays with its own root, whatever raises: backend, feed or SQLite.
    - Coordination: at most as many heavy scans run as the limit says, and with k overlapping requests at most k
      minus one more.
    - Reads: what no grant covers has no influence on a reply; the listing of a directory of a POSIX tree adds
      up to its rollup, the pages of the duplicate list tile it, a search is literal and largest first; a
      comparison gives each path the classes of its live rows, one if it is live once on each side; a stored
      move plan is the approved one.
    - Concierge: what no grant covers reaches neither the model nor the answer, but for one figure of a
      duplicate group, which counts its hidden copies too; no prompt reaches a server that is not local while
      the egress gate is closed; the vectors become complete and stay so.
    - Users: a step-up needs a TOTP code, a committed logout is final, a request is authorised only by a live
      session or a trusted proxy; overrides win over the environment and keep their types; secrets and changes
      of an egress endpoint need a fresh step-up; a failed tick of a worker is retried, and the change log is
      capped.
    - Fleet: an override reaches the agent of its host exactly as it was set, and no other; more memory never
      worsens a rating, and a closed egress gate is respected where a local model fits.
    - Previews: a file leaves its host only under a verified grant and reaches only the pull that asked for it;
      a pull that its host answers in time completes; what the cache gives is the last result stored for that
      content; a preview leaves an audit row.  The sizes of a browse are exact or flagged, and never too large.
    - Watches: an event has one unread row; a tick raises every alert of its sweep, or none if one does not fit
      its columns; the forecast of a steady growth is exact.
    - Deployment: a bundle with a private key is only built for an administrator, and its configuration has
      exactly the intended keys whatever the fields contain, but for NEL in two of them; a push does the steps
      of its script in order, and nothing after a refused preflight; every host of a run gets its result; an
      enrollment is redeemable until it expires, and once.

    ** Fuel and bounds

    No loop has fuel that can run out silently: [append_durable] retries at most [_MAX_APPEND_RETRIES] times as
    the code does and then raises; the full-content read of [Dedup] has one more step than the content is long;
    the loops of a drain return [None] when they run out, and [drain_complete] gives a number of rounds that is
    enough; [wait_if_paused] likewise returns [None] while the host stays busy, and [wait_hysteresis] gives the
    fuel for the first calm sample.  The walk is a step relation, and [walk_delivers_tree] counts its steps.
    The sizing walk of a browse has one more step than its entry cap allows directories
    ([bounded_subtree_refines]), and the reads of a pull one more than the file has bytes ([read_loop_spec]).
    The walk of a remote share ends on a finite tree, with the steps of the tree for fuel
    ([remote_walk_delivers]).  Other recursions are structural.

    ** Not modelled, and why

    The HTTP surface, command lines and the start-up of the processes are wiring; the sandbox of a preview, the
    SSH transport of a deployment and the minting of its certificates call containers, asyncssh and X.509 code;
    a language model is any function of its prompts.  The case folding of [ILIKE] and the cancelling of a slow
    statement are the database's, and parameters.  Posting the result of a job ([JobRoutes]) is one step, though
    the route awaits between its checks and the commit of the nonce; a job is issued without the length checks
    of its fields ([Orchestrator]), so the model issues at least the jobs that the code does.  Strings are
    Latin-1 (the line breaks LS and PS of YAML, which the checks of [Bundle] let pass, are beyond it); floats
    are kept as the integers they encode and only compared, or as exact quotients ([Watch], [Charts]). *)

From Stdlib Require Export Ascii.
From Stdlib Require String.
From stdpp Require Export prelude strings list sorting.

(** ** Results: a value or an exception *)

(** Python code that raises is modelled by a function into [result E A]: [Ok] is a normal return,
    [Err e] the exception [e].  The monad operations are stdpp's, so [x ← m; k] sequences calls. *)
Inductive result (E A : Type) : Type :=
| Ok (a : A)
| Err (e : E).
Arguments Ok {E A} a.
Arguments Err {E A} e.

#[export] Instance result_ret {E} : MRet (result E) := λ A a, Ok a.
#[export] Instance result_bind {E} : MBind (result E) := λ A B f m,
  match m with Ok a => f a | Err e => Err e end.
#[export] Instance result_fmap {E} : FMap (result E) := λ A B f m,
  match m with Ok a => Ok (f a) | Err e => Err e end.

Definition is_ok {E A} (r : result E A) : bool :=
  match r with Ok _ => true | Err _ => false end.

(** [raise_if b e]: a guard clause, [if b: raise e]. *)
Definition raise_if {E} (b : bool) (e : E) : result E unit :=
  if b then Err e else Ok tt.

Lemma raise_if_ok {E} (b : bool) (e : E) u : raise_if b e = Ok u ↔ b = false.
Proof. destruct b, u; simpl; split; congruence. Qed.

Lemma bind_ok {E A B} (m : result E A) (f : A → result E B) b :
  (m ≫= f) = Ok b ↔ ∃ a, m = Ok a ∧ f a = Ok b.
Proof.
  destruct m as [a|e]; simpl; (split; [intros H|intros (a' & Ha' & H'); congruence]).
  - eauto.
  - done.
Qed.

Lemma bind_err {E A B} (m : result E A) (f : A → result E B) e :
  (m ≫= f) = Err e ↔ m = Err e ∨ ∃ a, m = Ok a ∧ f a = Err e.
Proof.
  destruct m as [a|e']; simpl; split; intros H.
  - right. eauto.
  - destruct H as [?|(a' & ? & ?)]; congruence.
  - left. congruence.
  - destruct H as [?|(a' & ? & ?)]; congruence.
Qed.

(** ** State: a computation that reads and changes a state *)

Definition stM (S A : Type) : Type := S → A * S.

#[export] Instance stM_ret {S} : MRet (stM S) := λ A a s, (a, s).
#[export] Instance stM_bind {S} : MBind (stM S) := λ A B f m s, let '(a, s') := m s in f a s'.

(** A run of [x ← m; f x] is a run of [m] and one of [f] from where it ended. *)
Lemma bind_run {S A B} (m : stM S A) (f : A → stM S B) s b s' :
  (m ≫= f) s = (b, s') ↔ ∃ a s1, m s = (a, s1) ∧ f a s1 = (b, s').
Proof.
  unfold mbind, stM_bind. destruct (m s) as [a s1]. split; [eauto|].
  by intros (a' & s1' & [= <- <-] & ?).
Qed.

Lemma ret_run {S A} (a b : A) (s s' : S) : (mret a : stM S A) s = (b, s') ↔ a = b ∧ s = s'.
Proof. split; [by intros [= -> ->]|by intros [-> ->]]. Qed.

(** ** Stable sorting *)

(** [sorted] of Python, and the [ORDER BY] of the model: elements that compare equal stay in their order. *)
Section StableSort.
Context {A : Type} (R : A → A → Prop) `{!∀ x y, Decision (R x y)}.

Fixpoint insert_before (x : A) (l : list A) : list A :=
  match l with [] => [x] | y :: l' => if decide (R x y) then x :: l else y :: insert_before x l' end.

Definition stable_sort (l : list A) : list A := foldr insert_before [] l.

Lemma insert_before_Permutation x l : insert_before x l ≡ₚ x :: l.
Proof.
  induction l as [|y l IH]; [done|]. simpl. destruct (decide (R x y)); [done|]. rewrite IH. apply Permutation_swap.
Qed.

Lemma stable_sort_Permutation l : stable_sort l ≡ₚ l.
Proof. induction l as [|x l IH]; [done|]. simpl. by rewrite insert_before_Permutation, IH. Qed.

Lemma StronglySorted_stable_sort `{!Transitive R, !Total R} l : StronglySorted R (stable_sort l).
Proof.
  induction l as [|x l IH]; [constructor|]. simpl. induction (stable_sort l) as [|y k IHk]; simpl; [repeat constructor|].
  apply StronglySorted_inv in IH as [Hk Hy]. destruct (decide (R x y)) as [Hxy|Hxy].
  - constructor; [by constructor|]. constructor; [done|]. eapply Forall_impl; [exact Hy|]. intros z ?. by transitivity y.
  - constructor; [auto|]. rewrite insert_before_Permutation. constructor; [|done]. by destruct (total R x y).
Qed.

(** The elements of one place in the order keep theirs. *)
Lemma stable_sort_stable `{!Transitive R} (k : A) l :
  filter (λ y, R k y ∧ R y k) (stable_sort l) = filter (λ y, R k y ∧ R y k) l.
Proof.
  set (P := λ y, R k y ∧ R y k).
  assert (∀ x y, P x → P y → R x y) as HR by (intros x y [_ ?] [? _]; by transitivity k).
  assert (∀ x s, filter P (insert_before x s) = filter P (x :: s)) as Hi.
  { intros x s. induction s as [|y s IH]; [done|]. simpl. destruct (decide (R x y)) as [Hxy|Hxy]; [done|].
    rewrite !filter_cons, IH, filter_cons. destruct (decide (P x)), (decide (P y)); try done. exfalso. auto. }
  induction l as [|x l IH]; [done|]. simpl. by rewrite Hi, !filter_cons, IH.
Qed.
End StableSort.

(** Sorting commutes with a map that keeps the order of the elements. *)
Lemma stable_sort_fmap {A B} (R : A → A → Prop) `{!∀ x y, Decision (R x y)} (S : B → B → Prop) `{!∀ x y, Decision (S x y)} (g : B → A) l :
  (∀ x y, x ∈ l → y ∈ l → R (g x) (g y) ↔ S x y) → stable_sort R (g <$> l) = g <$> stable_sort S l.
Proof.
  intros Hg. assert (∀ k, (∀ x, x ∈ k → x ∈ l) → stable_sort R (g <$> k) = g <$> stable_sort S k) as Hk; [|by apply Hk].
  induction k as [|x k IH]; intros Hl; [done|].
  change (insert_before R (g x) (stable_sort R (g <$> k)) = g <$> insert_before S x (stable_sort S k)). rewrite IH by (intros y Hy; apply Hl; by right).
  assert (∀ y, y ∈ stable_sort S k → y ∈ l) as Hs by (intros y Hy; apply Hl; right; by rewrite stable_sort_Permutation in Hy).
  clear IH. induction (stable_sort S k) as [|y m IH]; [done|]. simpl.
  pose proof (Hg x y (Hl x (list_elem_of_here _ _)) (Hs y (list_elem_of_here _ _))) as Hxy.
  destruct (decide (R (g x) (g y))), (decide (S x y)); try tauto. simpl. f_equal. apply IH. intros z Hz. apply Hs. by right.
Qed.

(** ** Automation *)

Create HintDb fathom.
Create Rewrite HintDb str.

(** Split the guards of a model function: every [match]/[if] of a hypothesis or the goal. *)
Ltac split_guards :=
  repeat (case_match; simplify_eq/=).

(** Turn boolean tests into propositions, in hypotheses and goal. *)
Ltac to_prop :=
  repeat match goal with
  | H : andb _ _ = true |- _ => apply andb_true_iff in H as [? ?]
  | H : andb _ _ = false |- _ => apply andb_false_iff in H
  | H : orb _ _ = false |- _ => apply orb_false_iff in H as [? ?]
  | H : orb _ _ = true |- _ => apply orb_true_iff in H
  | H : negb _ = true |- _ => apply negb_true_iff in H
  | H : negb _ = false |- _ => apply negb_false_iff in H
  | H : bool_decide _ = true |- _ => apply bool_decide_eq_true in H
  | H : bool_decide _ = false |- _ => apply bool_decide_eq_false in H
  | H : (_ <? _)%Z = true |- _ => apply Z.ltb_lt in H
  | H : (_ <? _)%Z = false |- _ => apply Z.ltb_ge in H
  | H : (_ <=? _)%Z = true |- _ => apply Z.leb_le in H
  | H : (_ <=? _)%Z = false |- _ => apply Z.leb_gt in H
  | H : (_ =? _)%Z = true |- _ => apply Z.eqb_eq in H
  | H : (_ =? _)%Z = false |- _ => apply Z.eqb_neq in H
  | H : Is_true _ |- _ => apply Is_true_true in H
  end.

(** Linear arithmetic over nat, N and Z with division and remainder by constants. *)
Ltac div_lia := zify; Z.div_mod_to_equations; lia.

(** ** Lists *)

Lemma filter_all {A} (P : A → Prop) `{!∀ x, Decision (P x)} (l : list A) :
  Forall P l → filter P l = l.
Proof. induction 1; [done|]. rewrite filter_cons_True by done. by f_equal. Qed.

Lemma filter_none {A} (P : A → Prop) `{!∀ x, Decision (P x)} (l : list A) :
  Forall (λ x, ¬ P x) l → filter P l = [].
Proof. induction 1; [done|]. by rewrite filter_cons_False. Qed.

Lemma length_filter_le {A} (P : A → Prop) `{!∀ x, Decision (P x)} (l : list A) :
  length (filter P l) ≤ length l.
Proof. induction l as [|x l IH]; [done|]. rewrite filter_cons. case_decide; simpl; lia. Qed.

Lemma forallb_false_exists {A} (P : A → bool) l : forallb P l = false → ∃ x, x ∈ l ∧ P x = false.
Proof.
  induction l as [|x l IH]; simpl; [done|]. intros [H|H]%andb_false_iff.
  - exists x. split; [left|done].
  - destruct (IH H) as (y & Hy & H'). exists y. split; [by right|done].
Qed.

Lemma cons_inj {A} (x y : A) l k : x :: l = y :: k → x = y ∧ l = k.
Proof. by intros [= -> ->]. Qed.

Lemma NoDup_snoc {A} (l : list A) x : NoDup l → x ∉ l → NoDup (l ++ [x]).
Proof.
  intros Hl Hx. apply NoDup_app. split_and!; [done| |apply NoDup_singleton].
  by intros y Hy ->%list_elem_of_singleton.
Qed.

Lemma filter_sublist_mono {A} (P : A → bool) (l k : list A) :
  l `sublist_of` k → filter (λ x, P x) l `sublist_of` filter (λ x, P x) k.
Proof.
  induction 1 as [|x l k _ IH|x l k _ IH]; [done|..].
  - rewrite !filter_cons. case_decide; [by constructor|done].
  - rewrite filter_cons. case_decide; [by constructor|done].
Qed.

Lemma sublist_map {A B} (f : A → B) l k : l `sublist_of` k → f <$> l `sublist_of` f <$> k.
Proof. induction 1; rewrite ?fmap_cons; by constructor. Qed.

Lemma filter_sublist_b {A} (p : A → bool) (l : list A) : filter (λ x, p x) l `sublist_of` l.
Proof. induction l as [|x l IH]; [done|]. rewrite filter_cons. destruct (p x); by constructor. Qed.

Lemma Forall_sublist_of {A} (P : A → Prop) (l k : list A) : Forall P k → l `sublist_of` k → Forall P l.
Proof.
  intros Hk. induction 1 as [|x l k _ IH|x l k _ IH]; [done|..]; inversion_clear Hk; auto.
Qed.

(** Filters by boolean tests. *)
Lemma filter_and {A} (p q : A → bool) (l : list A) :
  filter (λ x, p x) (filter (λ x, q x) l) = filter (λ x, q x && p x) l.
Proof.
  induction l as [|x l IH]; [done|]. rewrite !filter_cons. destruct (q x) eqn:Hq; simpl.
  - rewrite filter_cons. destruct (p x); simpl; by rewrite IH.
  - done.
Qed.

Lemma filter_ext_elem {A} (P Q : A → Prop) `{!∀ x, Decision (P x)} `{!∀ x, Decision (Q x)} (l : list A) :
  (∀ x, x ∈ l → P x ↔ Q x) → filter P l = filter Q l.
Proof.
  induction l as [|x l IH]; intros Hx; [done|]. rewrite !filter_cons, IH by (intros; apply Hx; by right).
  specialize (Hx x (list_elem_of_here _ _)). case_decide; case_decide; naive_solver.
Qed.

Lemma filter_cons_b {A} (p : A → bool) x (l : list A) :
  filter (λ x, p x) (x :: l) = if p x then x :: filter (λ x, p x) l else filter (λ x, p x) l.
Proof. rewrite filter_cons. by destruct (p x). Qed.

Lemma filter_ext_b {A} (p q : A → bool) (l : list A) :
  (∀ x, p x = q x) → filter (λ x, p x) l = filter (λ x, q x) l.
Proof. intros H. induction l as [|x l IH]; [done|]. rewrite !filter_cons, IH. by rewrite (H x). Qed.

Lemma length_filter_impl {A} (P Q : A → Prop) `{!∀ x, Decision (P x), !∀ x, Decision (Q x)} (l : list A) :
  (∀ x, x ∈ l → P x → Q x) → length (filter P l) ≤ length (filter Q l).
Proof.
  induction l as [|x l IH]; intros Himp; [done|]. rewrite !filter_cons.
  assert (length (filter P l) ≤ length (filter Q l)) by (apply IH; intros; apply Himp; [by right|done]).
  destruct (decide (P x)) as [Hp|Hp].
  - rewrite decide_True by (apply Himp; [left|done]). simpl. lia.
  - case_decide; simpl; lia.
Qed.

Lemma filter_filter_iff {A} (P Q R : A → Prop) `{!∀ x, Decision (P x), !∀ x, Decision (Q x), !∀ x, Decision (R x)}
    (l : list A) :
  (∀ x, x ∈ l → R x ↔ P x ∧ Q x) → filter P (filter Q l) = filter R l.
Proof.
  intros Hiff. induction l as [|x l IH]; [done|]. rewrite !filter_cons.
  rewrite <- IH by (intros; apply Hiff; by right). pose proof (Hiff x ltac:(left)) as Hx.
  destruct (decide (Q x)).
  - rewrite filter_cons. repeat case_decide; naive_solver.
  - rewrite (decide_False (P := R x)); [done|]. naive_solver.
Qed.

(** Sum of a list of integers, as Python's [sum]. *)
Definition sumZ (l : list Z) : Z := foldr Z.add 0%Z l.

Lemma sumZ_cons x l : sumZ (x :: l) = (x + sumZ l)%Z.
Proof. done. Qed.

Lemma sumZ_app l k : sumZ (l ++ k) = (sumZ l + sumZ k)%Z.
Proof. induction l; simpl; [done|]. unfold sumZ in *. simpl. lia. Qed.

Lemma sumZ_nonneg l : Forall (λ x, 0 ≤ x)%Z l → (0 ≤ sumZ l)%Z.
Proof. induction 1; simpl; [done|]. unfold sumZ in *. simpl. lia. Qed.

(** [xs[:n]]: a negative [n] counts from the end. *)
Definition takeZ {A} (n : Z) (l : list A) : list A :=
  take (Z.to_nat (if (n <? 0)%Z then n + Z.of_nat (length l) else n)) l.

(** [xs[i]], [None] for an IndexError: a negative [i] counts from the end. *)
Definition index {A} (l : list A) (i : Z) : option A :=
  let j := if (i <? 0)%Z then (i + Z.of_nat (length l))%Z else i in
  if (j <? 0)%Z then None else l !! Z.to_nat j.

Lemma takeZ_nonneg {A} n (l : list A) : (0 ≤ n)%Z → takeZ n l = take (Z.to_nat n) l.
Proof. intros H. unfold takeZ. by destruct (Z.ltb_spec n 0); [lia|]. Qed.

Lemma index_nonneg {A} (l : list A) i : (0 ≤ i)%Z → index l i = l !! Z.to_nat i.
Proof. intros H. unfold index. by do 2 (destruct (Z.ltb_spec i 0); [lia|]). Qed.

(** ** Keyset pagination *)

(** [WHERE key < cursor], with no cursor for the first page. *)
Definition below (cursor : option Z) (key : Z) : bool :=
  match cursor with None => true | Some c => (key <? c)%Z end.

(** On a list in strictly descending key order, the rows below a cursor taken from the list are the
    rows after it. *)
Lemma below_suffix {A} (key : A → Z) l x k :
  StronglySorted Z.gt (key <$> l ++ x :: k) →
  filter (λ y, below (Some (key x)) (key y)) (l ++ x :: k) = k.
Proof.
  intros H. rewrite filter_app, filter_cons_False by (simpl; rewrite Z.ltb_irrefl; auto).
  rewrite fmap_app in H. simpl in H.
  assert (Forall (λ y, ¬ below (Some (key x)) (key y)) l) as Hl.
  { apply Forall_forall. intros y Hy. apply StronglySorted_app_1_elem_of with (x1 := key y)
      (x2 := key x) in H; [|by apply list_elem_of_fmap_2|left].
    simpl. rewrite (proj2 (Z.ltb_ge _ _)) by lia. auto. }
  rewrite (filter_none _ _ Hl). simpl. apply filter_all.
  apply StronglySorted_app_1_r in H. inversion_clear H as [|? ? _ Hk].
  rewrite Forall_fmap in Hk. eapply Forall_impl; [exact Hk|]. intros y Hy. simpl in *.
  rewrite (proj2 (Z.ltb_lt _ _)) by lia. done.
Qed.

Lemma StronglySorted_mono {A} (R S : relation A) l :
  (∀ x y, R x y → S x y) → StronglySorted R l → StronglySorted S l.
Proof. intros HRS. induction 1; constructor; [done|]. eapply Forall_impl; [done|]. auto. Qed.

Lemma StronglySorted_reverse {A} (R : relation A) l :
  StronglySorted R l → StronglySorted (flip R) (reverse l).
Proof.
  induction 1 as [|x l Hl IH Hx]; [constructor|]. rewrite reverse_cons.
  apply StronglySorted_app_2; [|done|repeat constructor].
  intros y z Hy ->%list_elem_of_singleton. rewrite Forall_forall in Hx. apply Hx. by apply elem_of_reverse.
Qed.

(** The rows that remain at a cursor: all, or those after the row that the cursor names. *)
Definition cursor_at {A} (key : A → Z) (all : list A) (cursor : option Z) (k : list A) : Prop :=
  match cursor with
  | None => k = all
  | Some c => ∃ l x, all = l ++ x :: k ∧ c = key x
  end.

Lemma filter_cursor {A} (key : A → Z) all cursor k :
  StronglySorted Z.gt (key <$> all) → cursor_at key all cursor k →
  filter (λ y, below cursor (key y)) all = k.
Proof.
  intros Hs. destruct cursor as [c|]; simpl.
  - intros (l & x & -> & ->). by apply below_suffix.
  - intros ->. by apply filter_all, Forall_forall.
Qed.

(** The cursor left by a full page [take n k], when more rows follow. *)
Lemma cursor_next {A} (key : A → Z) all cursor k n :
  cursor_at key all cursor k → 0 < n < length k →
  ∃ x, last (take n k) = Some x ∧ cursor_at key all (Some (key x)) (drop n k).
Proof.
  intros Hc Hn. destruct (last (take n k)) as [x|] eqn:E.
  2:{ apply last_None in E. apply (f_equal length) in E. rewrite length_take in E. simpl in E. lia. }
  exists x. split; [done|]. apply last_Some in E as [k0 E].
  assert (k = k0 ++ x :: drop n k) as Ek.
  { rewrite <- (take_drop n k) at 1. by rewrite E, <- app_assoc. }
  destruct cursor as [c|]; simpl in *.
  - destruct Hc as (l & y & -> & ->). exists (l ++ y :: k0), x. split; [|done].
    by rewrite <- app_assoc, Ek at 1.
  - subst. by exists k0, x.
Qed.

#[export] Hint Resolve Forall_nil_2 Forall_cons_2 : fathom.

(** Closed goals. *)
Ltac by_compute := first [vm_compute; reflexivity | refine (bool_decide_unpack _ _); vm_compute; exact I].
