(* ===== verification/PyStr.v ===== *)
(** Python [str] and the string methods the [fathom] package uses.

    A Python [str] is a [string] whose characters stand for the code points 0-255 (Latin-1); code
    points above 255 are outside the model.  Order on strings is by code point, as in Python. *)

From S2P Require Import Prelude.


#[global] Arguments String.append !_ _ : simpl nomatch.

(** ** Characters *)

Definition code (c : ascii) : Z := Z.of_N (N_of_ascii c).

Lemma code_range c : (0 ≤ code c < 256)%Z.
Proof. unfold code. pose proof (N_ascii_bounded c). lia. Qed.

(** [str.lower] on one code point below 256: A-Z and the Latin-1 capitals (not U+00D7). *)
Definition lower_char (c : ascii) : ascii :=
  let n := N_of_ascii c in
  if ((65 <=? n) && (n <=? 90) || (192 <=? n) && (n <=? 222) && negb (n =? 215))%N
  then ascii_of_N (n + 32) else c.

(** [str.isspace] on one code point below 256: what [str.strip()] removes. *)
Definition is_space (c : ascii) : bool :=
  let n := N_of_ascii c in
  ((9 <=? n) && (n <=? 13) || (28 <=? n) && (n <=? 32) || (n =? 133) || (n =? 160))%N.

(** ASCII letters and digits, for the regular expressions that name them. *)
Definition is_digit (c : ascii) : bool := (48 <=? code c)%Z && (code c <=? 57)%Z.
Definition is_alpha (c : ascii) : bool :=
  (65 <=? code c)%Z && (code c <=? 90)%Z || (97 <=? code c)%Z && (code c <=? 122)%Z.
Definition is_alnum (c : ascii) : bool := is_alpha c || is_digit c.

(** ** Characters of a string *)

Fixpoint s_all (P : ascii → bool) (s : string) : bool :=
  match s with
  | "" => true
  | String c s' => P c && s_all P s'
  end.

Definition s_any (P : ascii → bool) (s : string) : bool := negb (s_all (λ c, negb (P c)) s).

(** [c in s] for a one-character [c]. *)
Definition has_char (c : ascii) (s : string) : bool := s_any (Ascii.eqb c) s.

Lemma s_all_app P s t : s_all P (s +:+ t) = s_all P s && s_all P t.
Proof. induction s as [|c s IH]; simpl; [done|]. rewrite IH. apply andb_assoc. Qed.

Lemma s_all_impl (P Q : ascii → bool) s :
  (∀ c, P c = true → Q c = true) → s_all P s = true → s_all Q s = true.
Proof.
  intros H. induction s as [|c s IH]; simpl; [done|]. intros [? ?]%andb_true_iff.
  rewrite H, IH by done. done.
Qed.

Lemma has_char_app c s t : has_char c (s +:+ t) = has_char c s || has_char c t.
Proof. unfold has_char, s_any. rewrite s_all_app. apply negb_andb. Qed.

Lemma has_char_cons c d s : has_char c (String d s) = Ascii.eqb c d || has_char c s.
Proof. unfold has_char, s_any. simpl. rewrite negb_andb, negb_involutive. done. Qed.

Lemma app_empty_r (s : string) : s +:+ "" = s.
Proof. induction s as [|c s IH]; [done|]. change (String c (s +:+ "") = String c s). by rewrite IH. Qed.

Lemma app_assoc_s (s t u : string) : (s +:+ t) +:+ u = s +:+ (t +:+ u).
Proof.
  induction s as [|c s IH]; [done|].
  change (String c ((s +:+ t) +:+ u) = String c (s +:+ (t +:+ u))). by rewrite IH.
Qed.

Lemma app_cons_s c (s t : string) : String c s +:+ t = String c (s +:+ t).
Proof. reflexivity. Qed.

Lemma app_nil_s (t : string) : "" +:+ t = t.
Proof. reflexivity. Qed.

#[export] Hint Rewrite app_cons_s app_nil_s app_empty_r app_assoc_s : str.

Lemma String_inj c d s t : String c s = String d t → c = d ∧ s = t.
Proof. by intros [= -> ->]. Qed.

Lemma app_inv_head_s (s t u : string) : s +:+ t = s +:+ u → t = u.
Proof. intros H. by apply (inj (String.app s)). Qed.

Lemma length_app_s s t : String.length (s +:+ t) = String.length s + String.length t.
Proof. induction s; simpl; congruence. Qed.

Lemma app_eq_empty_s s t : s +:+ t = "" → s = "" ∧ t = "".
Proof. destruct s; [done|discriminate]. Qed.

Lemma app_inj_tail_char s t c d : s +:+ String c "" = t +:+ String d "" → s = t ∧ c = d.
Proof.
  revert t. induction s as [|a s IH]; intros [|b t]; simpl.
  - by intros [= ->].
  - intros [= -> H]. by destruct t.
  - intros [= -> H]. by destruct s.
  - intros [= -> H]. by apply IH in H as [-> ->].
Qed.

(** The part of a string over a character class is determined by what follows it. *)
Lemma span_inj (P : ascii → bool) a b r1 r2 :
  s_all P a = true → s_all P b = true →
  match r1 with "" => true | String c _ => negb (P c) end = true →
  match r2 with "" => true | String c _ => negb (P c) end = true →
  a +:+ r1 = b +:+ r2 → a = b ∧ r1 = r2.
Proof.
  revert b. induction a as [|c a IH]; intros [|d b]; simpl; intros Ha Hb H1 H2.
  - done.
  - intros ->. to_prop. congruence.
  - intros <-. to_prop. congruence.
  - intros [= -> H]. to_prop. by destruct (IH b) as [-> ->].
Qed.

(** ** Methods *)

(** [s.startswith(p)], [s.endswith(p)] and [p in s]. *)
Definition startswith (p s : string) : bool := String.prefix p s.

Fixpoint endswith (p s : string) : bool :=
  if bool_decide (s = p) then true
  else match s with "" => false | String _ s' => endswith p s' end.

Fixpoint contains (p s : string) : bool :=
  startswith p s || match s with "" => false | String _ s' => contains p s' end.

(** [s[n:]] for [n ≥ 0]. *)
Fixpoint drop_s (n : nat) (s : string) : string :=
  match n, s with
  | O, _ => s
  | S n', String _ s' => drop_s n' s'
  | S _, "" => ""
  end.

Fixpoint count_char (c : ascii) (s : string) : nat :=
  match s with
  | "" => 0
  | String d s' => (if Ascii.eqb c d then 1 else 0) + count_char c s'
  end.

(** [s.lower()]. *)
Fixpoint lower (s : string) : string :=
  match s with "" => "" | String c s' => String (lower_char c) (lower s') end.

(** [s.lstrip(...)], [s.rstrip(...)] and [s.strip(...)] for a class of characters. *)
Fixpoint lstrip_by (P : ascii → bool) (s : string) : string :=
  match s with
  | String c s' => if P c then lstrip_by P s' else s
  | "" => ""
  end.

Fixpoint rstrip_by (P : ascii → bool) (s : string) : string :=
  match s with
  | "" => ""
  | String c s' =>
      match rstrip_by P s' with
      | "" => if P c then "" else String c ""
      | r => String c r
      end
  end.

Definition strip_by (P : ascii → bool) (s : string) : string := lstrip_by P (rstrip_by P s).
Definition strip (s : string) : string := strip_by is_space s.

(** [s.split(c)] for a one-character separator, and [c.join(parts)] for any separator. *)
Fixpoint split_char (c : ascii) (s : string) : list string :=
  match s with
  | "" => [""]
  | String d s' =>
      if Ascii.eqb c d then "" :: split_char c s'
      else match split_char c s' with
           | w :: ws => String d w :: ws
           | [] => [String d ""]
           end
  end.

Definition join (sep : string) (parts : list string) : string := String.concat sep parts.


(** ** Properties *)

Lemma startswith_app p s : startswith p (p +:+ s) = true.
Proof.
  unfold startswith. induction p as [|c p IH]; [by destruct s|].
  simpl. by destruct (ascii_dec c c).
Qed.

Lemma startswith_cons_eqb c d p s : startswith (String c p) (String d s) = Ascii.eqb c d && startswith p s.
Proof.
  unfold startswith. cbn [String.prefix]. destruct (ascii_dec c d) as [->|Hc].
  - by rewrite Ascii.eqb_refl.
  - by apply Ascii.eqb_neq in Hc as ->.
Qed.

Lemma startswith_spec p s : startswith p s = true ↔ ∃ t, s = p +:+ t.
Proof.
  split; [|intros [t ->]; apply startswith_app].
  unfold startswith. revert s. induction p as [|c p IH]; intros s; simpl; [by eauto|].
  destruct s as [|d s]; [done|]. simpl. destruct (ascii_dec c d) as [->|]; [|done].
  intros [t ->]%IH. by exists t.
Qed.

Lemma drop_s_app p s : drop_s (String.length p) (p +:+ s) = s.
Proof. induction p; simpl; [by destruct s|done]. Qed.

Lemma startswith_drop p s : startswith p s = true → s = p +:+ drop_s (String.length p) s.
Proof. intros [t ->]%startswith_spec. by rewrite drop_s_app. Qed.

Lemma endswith_spec p s : endswith p s = true ↔ ∃ t, s = t +:+ p.
Proof.
  induction s as [|c s IH]; simpl; case_bool_decide as H.
  - split; [intros _; by exists ""|done].
  - split; [done|]. intros [t Ht]. symmetry in Ht. apply app_eq_empty_s in Ht as [_ ->]. done.
  - split; [|done]. intros _. exists "". done.
  - rewrite IH. split.
    + intros [t ->]. by exists (String c t).
    + intros [[|d t] Ht]; simpl in Ht; [done|]. injection Ht as -> ->. by exists t.
Qed.

Lemma join_cons sep x y l : join sep (x :: y :: l) = x +:+ sep +:+ join sep (y :: l).
Proof. done. Qed.

Lemma join_one sep x : join sep [x] = x.
Proof. done. Qed.

Lemma join_app sep a b : a ≠ [] → b ≠ [] → join sep (a ++ b) = join sep a +:+ sep +:+ join sep b.
Proof.
  intros Ha Hb. induction a as [|x a IH]; [done|]. destruct a as [|y a].
  - destruct b as [|z b]; [done|]. apply join_cons.
  - cbn [app]. rewrite !join_cons. cbn [app] in IH. by rewrite IH, !app_assoc_s.
Qed.

Lemma split_char_nonempty c s : split_char c s ≠ [].
Proof. destruct s as [|d s]; simpl; [done|]. destruct (Ascii.eqb c d); [done|]. by destruct (split_char c s). Qed.

Lemma join_split c s : join (String c "") (split_char c s) = s.
Proof.
  induction s as [|d s IH]; [done|]. cbn [split_char].
  pose proof (split_char_nonempty c s) as Hne.
  destruct (Ascii.eqb c d) eqn:E.
  - apply Ascii.eqb_eq in E as ->. destruct (split_char d s) as [|w ws] eqn:Es; [done|].
    rewrite join_cons, IH. done.
  - destruct (split_char c s) as [|w [|w' ws]] eqn:Es; [done| |].
    + rewrite join_one in IH. subst. done.
    + rewrite join_cons in IH |- *. rewrite <- IH. done.
Qed.

Lemma split_char_none c s : has_char c s = false → split_char c s = [s].
Proof.
  induction s as [|d s IH]; [done|]. rewrite has_char_cons. intros [H1 H2]%orb_false_iff.
  simpl. rewrite H1, IH by done. done.
Qed.

Lemma split_char_app c s t :
  has_char c s = false → split_char c (s +:+ String c t) = s :: split_char c t.
Proof.
  induction s as [|d s IH]; simpl.
  - rewrite Ascii.eqb_refl. done.
  - rewrite has_char_cons. intros [H1 H2]%orb_false_iff. rewrite H1, IH by done. done.
Qed.

Lemma split_char_concat c s t : split_char c (s +:+ String c t) = split_char c s ++ split_char c t.
Proof.
  induction s as [|d s IH]; simpl; [by rewrite Ascii.eqb_refl|].
  rewrite IH. destruct (Ascii.eqb c d); [done|].
  destruct (split_char c s) as [|w ws] eqn:E; [by apply split_char_nonempty in E|done].
Qed.

Lemma split_join c l :
  l ≠ [] → Forall (λ w, has_char c w = false) l → split_char c (join (String c "") l) = l.
Proof.
  intros Hne Hl. induction Hl as [|w l Hw Hl IH]; [done|].
  destruct l as [|w' l].
  - rewrite join_one. by apply split_char_none.
  - rewrite join_cons. change (String c "" +:+ ?t) with (String c t).
    rewrite split_char_app by done. by rewrite IH.
Qed.

Lemma split_char_no_sep c s : Forall (λ w, has_char c w = false) (split_char c s).
Proof.
  induction s as [|d s IH]; simpl; [by repeat constructor|].
  destruct (Ascii.eqb c d) eqn:E; [by constructor|].
  destruct (split_char c s) as [|w ws]; inversion_clear IH; constructor; try done.
  all: rewrite has_char_cons, E; done.
Qed.

(** [rstrip] keeps a prefix and drops only characters of the class. *)
Lemma rstrip_spec P s : ∃ t, s = rstrip_by P s +:+ t ∧ s_all P t = true.
Proof.
  induction s as [|c s (t & IH & Ht)]; [by exists ""|]. cbn [rstrip_by].
  destruct (rstrip_by P s) as [|d r] eqn:E.
  - simpl in IH. subst t. destruct (P c) eqn:Ec.
    + exists (String c s). simpl. rewrite Ec. done.
    + exists s. done.
  - exists t. split; [|done]. rewrite IH at 1. done.
Qed.

Lemma rstrip_idem P s : rstrip_by P (rstrip_by P s) = rstrip_by P s.
Proof.
  induction s as [|c s IH]; [done|]. cbn [rstrip_by].
  destruct (rstrip_by P s) as [|d r] eqn:E.
  - destruct (P c) eqn:Ec; [done|]. simpl. by rewrite Ec.
  - change (match rstrip_by P (String d r) with
            | "" => if P c then "" else String c "" | r0 => String c r0 end = String c (String d r)).
    by rewrite IH.
Qed.

(** ** Hexadecimal *)

Definition hex_digit (n : N) : ascii := ascii_of_N (if (n <? 10)%N then 48 + n else 87 + n).

(** [bytes.hex()]. *)
Fixpoint hex (s : string) : string :=
  match s with
  | "" => ""
  | String c s' =>
      let n := N_of_ascii c in
      String (hex_digit (n / 16)) (String (hex_digit (n mod 16)) (hex s'))
  end.

Definition hex_value (c : ascii) : option N :=
  let n := N_of_ascii c in
  if ((48 <=? n) && (n <=? 57))%N then Some (n - 48)%N
  else if ((97 <=? n) && (n <=? 102))%N then Some (n - 87)%N
  else if ((65 <=? n) && (n <=? 70))%N then Some (n - 55)%N
  else None.

(** [bytes.fromhex]: [None] for its ValueError; white space may stand between bytes. *)
Fixpoint fromhex (s : string) : option string :=
  match s with
  | "" => Some ""
  | String c s' =>
      if is_space c then fromhex s'
      else match s' with
           | "" => None
           | String d s'' =>
               h ← hex_value c; l ← hex_value d; r ← fromhex s'';
               Some (String (ascii_of_N (16 * h + l)) r)
           end
  end.

Lemma fromhex_hex s : fromhex (hex s) = Some s.
Proof.
  induction s as [|c s IH]; [done|].
  destruct c as [[] [] [] [] [] [] [] []]; simpl; by rewrite IH.
Qed.

(** ** UTF-8 *)

(** [str.encode("utf-8")], for code points below 256. *)
Fixpoint utf8 (s : string) : string :=
  match s with
  | "" => ""
  | String c s' =>
      let n := N_of_ascii c in
      if (n <? 128)%N then String c (utf8 s')
      else String (ascii_of_N (192 + n / 64)) (String (ascii_of_N (128 + n mod 64)) (utf8 s'))
  end.

Definition utf8_head (s : string) : option (ascii * string) :=
  match s with
  | String c s' =>
      let n := N_of_ascii c in
      if (n <? 128)%N then Some (c, s')
      else match s' with
           | String d s'' => Some (ascii_of_N ((n - 192) * 64 + (N_of_ascii d - 128)), s'')
           | "" => None
           end
  | "" => None
  end.

Lemma utf8_head_cons c s : utf8_head (utf8 (String c s)) = Some (c, utf8 s).
Proof. destruct c as [[] [] [] [] [] [] [] []]; reflexivity. Qed.

Lemma utf8_inj s t : utf8 s = utf8 t → s = t.
Proof.
  revert t. induction s as [|c s IH]; intros [|d t] H; apply (f_equal utf8_head) in H;
    rewrite ?utf8_head_cons in H; try discriminate H; [done|].
  injection H as -> H. by apply IH in H as ->.
Qed.

Lemma split_char_other c d s : has_char d s = false → Forall (λ w, has_char d w = false) (split_char c s).
Proof.
  induction s as [|x s IH]; [by repeat constructor|]. rewrite has_char_cons. intros [H1 H2]%orb_false_iff.
  specialize (IH H2). cbn [split_char]. destruct (Ascii.eqb c x); [by constructor|].
  destruct (split_char c s) as [|w ws]; inversion_clear IH; constructor; try done.
  all: by rewrite has_char_cons, H1.
Qed.

Lemma join_no_char c sep l :
  has_char c sep = false → Forall (λ w, has_char c w = false) l → has_char c (join sep l) = false.
Proof.
  intros Hsep H. induction H as [|w l Hw Hl IH]; [done|]. destruct l; [by rewrite join_one|].
  by rewrite join_cons, !has_char_app, Hw, Hsep, IH.
Qed.

(** ** Lines and words *)

(** The characters [str.splitlines] ends a line at. *)
Definition line_break (c : ascii) : bool :=
  let n := code c in ((10 <=? n) && (n <=? 13) || (28 <=? n) && (n <=? 30) || (n =? 133))%Z.

Definition carriage_return (c : ascii) : bool := (code c =? 13)%Z.

Fixpoint splitlines (s : string) : list string :=
  match s with
  | "" => []
  | String c s' =>
      if line_break c then
        "" :: match s' with
              | String d s'' => if carriage_return c && Ascii.eqb d "010"%char then splitlines s'' else splitlines s'
              | "" => []
              end
      else match splitlines s' with
           | w :: ws => String c w :: ws
           | [] => [String c ""]
           end
  end.

(** [s.split()]. *)
Fixpoint words (s : string) : list string :=
  match s with
  | "" => []
  | String c s' =>
      if is_space c then words s'
      else match s' with
           | String d _ => if is_space d then String c "" :: words s'
                           else match words s' with w :: ws => String c w :: ws | [] => [String c ""] end
           | "" => [String c ""]
           end
  end.
