(* ===== verification/PyInt.v ===== *)
(** [int(s)] of a decimal text and [str(n)] of an integer: the texts that it accepts, and the round trip. *)

From stdpp Require Import pretty.
From S2P Require Import Prelude PyStr.

Local Open Scope Z_scope.


(** [int(s)] for a string of digits. *)
Definition int_of_digits (s : string) : Z := 
  (fix go (acc : Z) (s : string) : Z := match s with "" => acc | String c s' => go (acc * 10 + (code c - 48)) s' end) 0 s.

(** [int(s)]; None is a ValueError.  One underscore may stand between two digits. *)
Fixpoint digits_of (s : string) : option string :=
  match s with
  | "" => Some ""
  | String c s' =>
      if is_digit c then
        String c <$> match s' with
                     | String "_" (String d _ as s'') => if is_digit d then digits_of s'' else None
                     | _ => digits_of s'
                     end
      else None
  end.

Definition unsigned (s : string) : option Z := match s with "" => None | _ => int_of_digits <$> digits_of s end.

Definition py_int (s : string) : option Z :=
  match strip s with
  | String "-" s' => Z.opp <$> unsigned s'
  | String "+" s' => unsigned s'
  | s' => unsigned s'
  end.

(** ** Lemmas *)

Lemma rstrip_spaceless P s : s_all (λ c, negb (P c)) s = true → rstrip_by P s = s.
Proof.
  induction s as [|c s IH]; [done|]. intros [Hc Hs]%andb_true_iff. apply negb_true_iff in Hc. cbn [rstrip_by]. rewrite IH by done.
  destruct s; [by rewrite Hc|done].
Qed.

Lemma strip_spaceless s : s_all (λ c, negb (is_space c)) s = true → strip s = s.
Proof.
  intros H. unfold strip, strip_by. rewrite rstrip_spaceless by done. destruct s as [|c s]; [done|]. apply andb_true_iff in H as [Hc _].
  apply negb_true_iff in Hc. cbn [lstrip_by]. by rewrite Hc.
Qed.

Definition digits_value (acc : Z) (s : string) : Z :=
  (fix go (acc : Z) (s : string) : Z := match s with "" => acc | String c s' => go (acc * 10 + (code c - 48)) s' end) acc s.

Lemma pretty_char_value n : (n < 10)%N → is_digit (pretty_N_char n) = true ∧ code (pretty_N_char n) - 48 = Z.of_N n.
Proof.
  intros H. assert (n ∈ N.of_nat <$> seq 0 10) as Hin.
  { apply list_elem_of_fmap. exists (N.to_nat n). split; [lia|]. apply elem_of_seq. lia. }
  revert Hin. cbn. rewrite !elem_of_cons. intros H'. repeat destruct H' as [->|H']; [split; reflexivity..|]. by apply not_elem_of_nil in H'.
Qed.

Lemma pretty_go_value n s : s_all is_digit s = true →
  s_all is_digit (pretty_N_go n s) = true ∧ digits_value 0 (pretty_N_go n s) = digits_value (Z.of_N n) s.
Proof.
  revert s. induction (N.lt_wf_0 n) as [n _ IH]; intros s Hs.
  destruct (decide (n = 0)%N) as [->|]; [by rewrite pretty_N_go_0|].
  rewrite pretty_N_go_step by lia. pose proof (N.mod_lt n 10 ltac:(lia)) as Hm. destruct (pretty_char_value _ Hm) as [Hd Hv].
  destruct (IH (n `div` 10)%N) with (s := String (pretty_N_char (n `mod` 10)) s) as [H1 H2]; [apply N.div_lt; lia|cbn; by rewrite Hd|].
  split; [done|]. rewrite H2. unfold digits_value at 1. fold digits_value. f_equal. rewrite Hv. pose proof (N.div_mod n 10 ltac:(lia)). lia.
Qed.

(** [int(str(n))]. *)
Lemma int_of_pretty z : 0 <= z → s_all is_digit (pretty z) = true ∧ int_of_digits (pretty z) = z ∧ pretty z ≠ "".
Proof.
  intros Hz. destruct z as [|p|p]; [done| |lia]. change (pretty (Zpos p)) with (pretty (Npos p)). unfold pretty, pretty_N.
  rewrite decide_False by done. destruct (pretty_go_value (Npos p) "" eq_refl) as [Hd Hv]. split; [done|]. split; [exact Hv|].
  intros E. rewrite E in Hv. discriminate Hv.
Qed.

Lemma digits_value_nonneg acc s : 0 <= acc → s_all is_digit s = true → 0 <= digits_value acc s.
Proof.
  revert acc. induction s as [|c s IH]; intros acc Ha; [done|]. intros [Hc Hs]%andb_true_iff. unfold digits_value. fold digits_value.
  apply IH; [|done]. unfold is_digit in Hc. to_prop. lia.
Qed.

Lemma digits_of_digits s : s_all is_digit s = true → digits_of s = Some s.
Proof.
  induction s as [|c s IH]; [done|]. intros [Hc Hs]%andb_true_iff. specialize (IH Hs). cbn [digits_of]. rewrite Hc, IH.
  destruct s as [|d s]; [done|]. apply andb_true_iff in Hs as [Hd _]. destruct d as [[] [] [] [] [] [] [] []]; try done; discriminate Hd.
Qed.

Lemma digit_no_space c : is_digit c = true → negb (is_space c) = true.
Proof. destruct c as [[] [] [] [] [] [] [] []]; vm_compute; intros H; try discriminate H; done. Qed.

Lemma unsigned_pretty z : 0 <= z → unsigned (pretty z) = Some z.
Proof.
  intros Hz. destruct (int_of_pretty z Hz) as (Hd & Hv & Hne). unfold unsigned. destruct (pretty z) eqn:E; [done|]. rewrite <- E in *.
  rewrite digits_of_digits by done. cbn. by rewrite Hv.
Qed.

(** [int(str(n))] is [n]. *)
Lemma py_int_pretty z : py_int (pretty z) = Some z.
Proof.
  assert (∀ n, 0 <= n → s_all (λ c, negb (is_space c)) (pretty n) = true) as Hsp.
  { intros n Hn. destruct (int_of_pretty n Hn) as (Hd & _). revert Hd. apply s_all_impl, digit_no_space. }
  unfold py_int. destruct (Z.le_gt_cases 0 z) as [Hz|Hz].
  - rewrite strip_spaceless by auto. pose proof (unsigned_pretty z Hz) as Hu. destruct (int_of_pretty z Hz) as (Hd & _).
    destruct (pretty z) as [|c s]; [done|]. apply andb_true_iff in Hd as [Hc _]. destruct c as [[] [] [] [] [] [] [] []]; try done; discriminate Hc.
  - destruct z as [|p|p]; [lia..|]. change (pretty (Zneg p)) with (String "-" (pretty (Zpos p))). rewrite strip_spaceless by (apply (Hsp (Zpos p)); lia).
    by rewrite unsigned_pretty by lia.
Qed.
