(* ===== verification/PyDict.v ===== *)
(** Python's [defaultdict(list)] in insertion order, [min] with a key, and the order of strings and
    tuples, as the grouping and ranking code uses them. *)

From S2P Require Import Prelude PyStr.

(** ** Grouping: [d[k].append(x)] *)

Section Group.
Context {K A : Type} `{!EqDecision K}.

Fixpoint dict_append (k : K) (x : A) (d : list (K * list A)) : list (K * list A) :=
  match d with
  | [] => [(k, [x])]
  | (k', xs) :: d' => if decide (k = k') then (k', xs ++ [x]) :: d' else (k', xs) :: dict_append k x d'
  end.

(** [for x in l: d[key(x)].append(x)], over the pairs of a key and a value. *)
Definition group_by (l : list (K * A)) : list (K * list A) :=
  foldl (λ d kx, dict_append kx.1 kx.2 d) [] l.

(** The values of one key, in order. *)
Definition class (k : K) (l : list (K * A)) : list A := (filter (λ kx, kx.1 = k) l).*2.

Lemma class_snoc k l k' x : class k (l ++ [(k', x)]) = class k l ++ (if decide (k' = k) then [x] else []).
Proof. unfold class. rewrite filter_app, fmap_app. f_equal. rewrite filter_cons. simpl. by case_decide. Qed.

Lemma dict_append_keys k x d :
  (dict_append k x d).*1 = d.*1 ∧ k ∈ d.*1 ∨ (dict_append k x d).*1 = d.*1 ++ [k] ∧ k ∉ d.*1.
Proof.
  induction d as [|[k' xs] d IH]; csimpl.
  - right. split; [done|]. apply not_elem_of_nil.
  - destruct (decide (k = k')) as [->|Hne]; csimpl; [left; split; [done|left]|].
    destruct IH as [[-> Hin]|[-> Hni]]; [left; split; [done|by right]|].
    right. split; [done|]. intros [?|?]%elem_of_cons; done.
Qed.

Lemma elem_of_dict_append k x d k' xs :
  NoDup d.*1 →
  (k', xs) ∈ dict_append k x d ↔
  k' ≠ k ∧ (k', xs) ∈ d ∨
  k' = k ∧ ((∃ ys, (k, ys) ∈ d ∧ xs = ys ++ [x]) ∨ k ∉ d.*1 ∧ xs = [x]).
Proof.
  induction d as [|[k0 ys] d IH]; simpl; intros Hnd.
  - rewrite list_elem_of_singleton. split.
    + intros [= -> ->]. right. split; [done|]. right. split; [apply not_elem_of_nil|done].
    + intros [[_ []%elem_of_nil]|(-> & [(? & []%elem_of_nil & _)|[_ ->]])]; done.
  - apply NoDup_cons in Hnd as [Hni Hnd]. destruct (decide (k = k0)) as [->|Hne].
    + rewrite elem_of_cons. split.
      * intros [[= -> ->]|Hin]; [right; split; [done|]; left; exists ys; split; [left|done]|].
        left. split; [|by right]. intros ->. apply Hni. by apply (list_elem_of_fmap_2 fst _ (k0, xs)).
      * intros [[Hne [[= -> ->]|Hin]%elem_of_cons]|(-> & [(zs & [[= ->]|Hin]%elem_of_cons & ->)|[Hn _]])].
        -- done.
        -- by right.
        -- by left.
        -- destruct Hni. by apply (list_elem_of_fmap_2 fst _ (k0, zs)).
        -- destruct Hn. left.
    + rewrite elem_of_cons, IH by done. split.
      * intros [[= -> ->]|[[Hn Hin]|(-> & [(zs & Hin & ->)|[Hn ->]])]].
        -- left. split; [done|left].
        -- left. split; [done|by right].
        -- right. split; [done|]. left. exists zs. split; [by right|done].
        -- right. split; [done|]. right. split; [|done]. intros [?|?]%elem_of_cons; done.
      * intros [[Hn [[= -> ->]|Hin]%elem_of_cons]|(-> & [(zs & [[= -> ->]|Hin]%elem_of_cons & ->)|[Hn ->]])].
        -- by left.
        -- right. by left.
        -- done.
        -- right. right. split; [done|]. left. by exists zs.
        -- right. right. split; [done|]. right. split; [|done]. intros ?. apply Hn. by right.
Qed.

Lemma group_by_spec (l : list (K * A)) :
  NoDup (group_by l).*1 ∧ ∀ k xs, (k, xs) ∈ group_by l ↔ xs = class k l ∧ xs ≠ [].
Proof.
  unfold group_by. induction l as [|[k x] l [Hnd Hin]] using rev_ind.
  - split; [constructor|]. intros k xs. split; [by intros ?%elem_of_nil|by intros [-> []]].
  - rewrite foldl_app. simpl. set (d := foldl _ [] l) in *. split.
    + destruct (dict_append_keys k x d) as [[-> _]|[-> ?]]; [done|by apply NoDup_snoc].
    + intros k' xs. rewrite elem_of_dict_append by done. rewrite class_snoc. split.
      * intros [[Hne [-> Hx]%Hin]|(-> & [(ys & [-> _]%Hin & ->)|[Hn ->]])].
        -- by rewrite decide_False, app_nil_r.
        -- rewrite decide_True by done. split; [done|]. by intros []%app_eq_nil.
        -- rewrite decide_True by done. split; [|done].
           destruct (class k l) as [|y ys] eqn:E; [done|]. destruct Hn.
           apply (list_elem_of_fmap_2 fst d (k, y :: ys)). apply Hin. by rewrite E.
      * intros [-> Hne]. destruct (decide (k = k')) as [->|Hk].
        -- right. split; [done|]. destruct (class k' l) as [|y ys] eqn:E.
           ++ right. split; [|done]. intros ([k0 zs] & -> & Hz)%list_elem_of_fmap.
              apply Hin in Hz as [-> Hz]. simpl in E; by rewrite E in Hz.
           ++ left. exists (y :: ys). split; [|done]. apply Hin. by rewrite E.
        -- left. rewrite app_nil_r in *. split; [done|]. by apply Hin.
Qed.

Lemma NoDup_group_by l : NoDup (group_by l).*1.
Proof. apply group_by_spec. Qed.

Lemma elem_of_group_by l k xs : (k, xs) ∈ group_by l ↔ xs = class k l ∧ xs ≠ [].
Proof. apply group_by_spec. Qed.

(** A key computed from the value. *)
Lemma class_fmap (f : A → K) k (l : list A) :
  class k ((λ x, (f x, x)) <$> l) = filter (λ x, f x = k) l.
Proof.
  unfold class. induction l as [|x l IH]; [done|]. csimpl. rewrite !filter_cons. csimpl.
  case_decide; csimpl; by rewrite IH.
Qed.
End Group.

(** ** Keys *)

(** A comparison of keys: total, transitive, decided by a boolean. *)
Class KeyOrder {A} (le : A → A → bool) : Prop := {
  key_total x y : le x y = true ∨ le y x = true;
  key_trans x y z : le x y = true → le y z = true → le x z = true;
}.

(** The order of strings, by code points. *)
Fixpoint str_le (s t : string) : bool :=
  match s, t with
  | "", _ => true
  | String _ _, "" => false
  | String c s', String d t' => (code c <? code d)%Z || ((code c =? code d)%Z && str_le s' t')
  end.

#[export] Instance str_le_order : KeyOrder str_le.
Proof.
  split.
  - intros s. induction s as [|c s IH]; intros [|d t]; simpl; [by left|by left|by right|].
    destruct (Z.lt_total (code c) (code d)) as [H|[H|H]].
    + left. by rewrite (proj2 (Z.ltb_lt _ _) H).
    + rewrite H, Z.ltb_irrefl, Z.eqb_refl. apply IH.
    + right. by rewrite (proj2 (Z.ltb_lt _ _) H).
  - intros s. induction s as [|c s IH]; intros [|d t] [|e u]; simpl; try done.
    intros H1%orb_true_iff H2%orb_true_iff. apply orb_true_iff.
    destruct H1 as [H1|H1], H2 as [H2|H2]; to_prop; [left; lia..|].
    right. apply andb_true_iff. split; [lia|]. by eapply IH.
Qed.

Lemma code_inj c d : code c = code d → c = d.
Proof.
  unfold code. intros H. rewrite <- (ascii_N_embedding c), <- (ascii_N_embedding d). f_equal. lia.
Qed.

Lemma str_le_antisym s t : str_le s t = true → str_le t s = true → s = t.
Proof.
  revert t. induction s as [|c s IH]; intros [|d t]; simpl; try done.
  intros H1%orb_true_iff H2%orb_true_iff. destruct H1 as [H1|H1], H2 as [H2|H2]; to_prop; [lia..|].
  f_equal; [by apply code_inj|by apply IH].
Qed.

(** Pairs compare by their first component, then by the second. *)
Definition lex_le {B} (le : B → B → bool) (x y : Z * B) : bool :=
  (x.1 <? y.1)%Z || ((x.1 =? y.1)%Z && le x.2 y.2).

#[export] Instance lex_le_order {B} (le : B → B → bool) : KeyOrder le → KeyOrder (lex_le le).
Proof.
  intros H. split; unfold lex_le.
  - intros x y. rewrite !orb_true_iff, !andb_true_iff, !Z.ltb_lt, !Z.eqb_eq.
    destruct (Z.lt_total x.1 y.1) as [?|[?|?]]; [left; by left| |right; by left].
    destruct (key_total x.2 y.2); [left|right]; right; auto.
  - intros x y z. rewrite !orb_true_iff, !andb_true_iff, !Z.ltb_lt, !Z.eqb_eq.
    intros [?|[? ?]] [?|[? ?]]; [left; lia..|]. right. split; [lia|]. by eapply key_trans.
Qed.

(** [min(x, *l, key=key)]: the first of the least. *)
Fixpoint min_by {A B} (le : B → B → bool) (key : A → B) (x : A) (l : list A) : A :=
  match l with
  | [] => x
  | y :: l' => min_by le key (if le (key x) (key y) then x else y) l'
  end.

Lemma min_by_elem {A B} (le : B → B → bool) (key : A → B) x l : min_by le key x l ∈ x :: l.
Proof.
  revert x. induction l as [|y l IH]; intros x; simpl; [left|].
  specialize (IH (if le (key x) (key y) then x else y)). apply elem_of_cons in IH as [->|IH].
  - destruct (le _ _); [left|right; left].
  - by do 2 right.
Qed.

Lemma min_by_least {A B} (le : B → B → bool) `{!KeyOrder le} (key : A → B) x l y :
  y ∈ x :: l → le (key (min_by le key x l)) (key y) = true.
Proof.
  revert x y. induction l as [|z l IH]; intros x y; simpl.
  - intros ->%list_elem_of_singleton. destruct (key_total (key x) (key x)); done.
  - destruct (le (key x) (key z)) eqn:E; intros [->|[->|Hy]%elem_of_cons]%elem_of_cons.
    + apply IH. left.
    + eapply key_trans; [|exact E]. apply IH. left.
    + apply IH. by right.
    + destruct (key_total (key x) (key z)) as [H|H]; [congruence|].
      eapply key_trans; [|exact H]. apply IH. left.
    + apply IH. left.
    + apply IH. by right.
Qed.

(** ** A dict in insertion order: [d[k] = v], [d.get(k)], [d.pop(k, None)] *)

Section Dict.
Context {K V : Type} `{!EqDecision K}.
Implicit Types d : list (K * V).

Fixpoint dict_set (k : K) (v : V) d : list (K * V) :=
  match d with
  | [] => [(k, v)]
  | (k', v') :: d' => if decide (k' = k) then (k', v) :: d' else (k', v') :: dict_set k v d'
  end.

Fixpoint dict_get (k : K) d : option V :=
  match d with
  | [] => None
  | (k', v') :: d' => if decide (k' = k) then Some v' else dict_get k d'
  end.

Definition dict_pop (k : K) d : list (K * V) := filter (λ x, x.1 ≠ k) d.

Lemma dict_get_set k k' v d : dict_get k (dict_set k' v d) = if decide (k' = k) then Some v else dict_get k d.
Proof.
  induction d as [|[k0 v0] d IH]; cbn [dict_set dict_get]; [by case_decide|].
  destruct (decide (k0 = k')) as [->|Hn]; cbn [dict_get]; [by case_decide|]. rewrite IH.
  repeat case_decide; congruence.
Qed.

Lemma dict_get_pop k k' d : dict_get k (dict_pop k' d) = if decide (k' = k) then None else dict_get k d.
Proof.
  unfold dict_pop. induction d as [|[k0 v0] d IH]; [by case_decide|]. rewrite filter_cons. cbn [fst].
  destruct (decide (k0 ≠ k')) as [Hn|Hn]; cbn [dict_get]; rewrite IH; repeat case_decide; try congruence.
  destruct Hn. congruence.
Qed.

Lemma dict_set_keys k v d : (dict_set k v d).*1 = d.*1 ++ (if decide (k ∈ d.*1) then [] else [k]).
Proof.
  induction d as [|[k0 v0] d IH]; [by rewrite decide_False by apply not_elem_of_nil|]. cbn [dict_set].
  destruct (decide (k0 = k)) as [->|Hn].
  - rewrite decide_True by left. cbn. by rewrite app_nil_r.
  - rewrite !fmap_cons, IH. cbn [app]. f_equal. f_equal. cbn [fst].
    destruct (decide (k ∈ d.*1)); [rewrite decide_True by (by right)|rewrite decide_False]; [done|done|].
    intros [?|?]%elem_of_cons; congruence.
Qed.

Lemma dict_set_NoDup k v d : NoDup d.*1 → NoDup (dict_set k v d).*1.
Proof. rewrite dict_set_keys. intros H. case_decide; [by rewrite app_nil_r|by apply NoDup_snoc]. Qed.

Lemma dict_pop_NoDup k d : NoDup d.*1 → NoDup (dict_pop k d).*1.
Proof. intros H. eapply sublist_NoDup; [exact H|]. apply fmap_sublist, sublist_filter. Qed.

Lemma dict_get_elem k v d : NoDup d.*1 → (k, v) ∈ d ↔ dict_get k d = Some v.
Proof.
  induction d as [|[k0 v0] d IH]; cbn; [by intros _; split; [intros ?%elem_of_nil|]|]. intros [Hn H]%NoDup_cons.
  rewrite elem_of_cons, IH by done. case_decide as E; [subst|naive_solver]. split.
  - intros [[= ->]|Hg]; [done|]. destruct Hn. apply IH in Hg; [|done]. by apply (list_elem_of_fmap_2 fst d (k, v)).
  - intros [= ->]. by left.
Qed.

Lemma dict_get_none k d : dict_get k d = None ↔ k ∉ d.*1.
Proof.
  induction d as [|[k0 v0] d IH]; [split; [intros _; apply not_elem_of_nil|done]|]. cbn [dict_get].
  rewrite fmap_cons, elem_of_cons. case_decide; [naive_solver|]. rewrite IH. naive_solver.
Qed.
End Dict.
