(* ===== verification/Sql.v ===== *)
(** SQL statements over a table: a list of rows in id (rowid) order.

    [UPDATE ... WHERE], [LIMIT], [INSERT ... ON CONFLICT(key) DO UPDATE SET ... WHERE guard] and its
    execution for many rows, with what they do to the row of each key. *)

From stdpp Require Import fin_maps.
From S2P Require Import Prelude PyStr PyDict.

(** The id the next row of a table gets. *)
Definition next_id {A} (id : A → Z) (l : list A) : Z := foldr (λ x m, Z.max (id x + 1) m) 1%Z l.

Definition update_where {A} (p : A → bool) (f : A → A) (l : list A) : list A :=
  (λ x, if p x then f x else x) <$> l.

(** [LIMIT n]: a negative limit is none (SQLite). *)
Definition sql_limit {A} (n : Z) (l : list A) : list A := if (n <? 0)%Z then l else take (Z.to_nat n) l.

(** ** [ORDER BY]

    Rows with equal keys come in an order of the engine's choice; the model keeps that of the table. *)
Definition desc {K} (le : K → K → bool) (x y : K) : bool := le y x.

Lemma desc_order {K} (le : K → K → bool) : KeyOrder le → KeyOrder (desc le).
Proof.
  intros H. split; unfold desc.
  - intros x y. apply key_total.
  - intros x y z ? ?. by eapply key_trans.
Qed.

(** Only for a comparison that is [desc] already. *)
#[export] Hint Extern 0 (KeyOrder (desc _)) => apply desc_order : typeclass_instances.

Lemma leb_order : KeyOrder Z.leb.
Proof.
  split.
  - intros x y. rewrite !Z.leb_le. lia.
  - intros x y z. rewrite !Z.leb_le. lia.
Qed.
#[export] Hint Extern 0 (KeyOrder Z.leb) => apply leb_order : typeclass_instances.

Section OrderBy.
Context {A K : Type} (le : K → K → bool) (key : A → K).

Definition order_le (x y : A) : Prop := Is_true (le (key x) (key y)).
Definition order_by (l : list A) : list A := stable_sort order_le l.

Lemma order_by_perm l : order_by l ≡ₚ l.
Proof. apply stable_sort_Permutation. Qed.

Lemma elem_of_order_by l x : x ∈ order_by l ↔ x ∈ l.
Proof. by rewrite order_by_perm. Qed.

Context `{!KeyOrder le}.

Lemma order_by_sorted l : StronglySorted order_le (order_by l).
Proof.
  apply StronglySorted_stable_sort; unfold order_le.
  - intros x y z. rewrite !Is_true_true. apply key_trans.
  - intros x y. rewrite !Is_true_true. apply key_total.
Qed.

(** The first [n] rows of an ordered query: no row left out comes before one of them. *)
Lemma top_spec n l :
  let k := take n (order_by l) in
  length k = n `min` length l ∧ StronglySorted order_le k ∧
  ∃ rest, l ≡ₚ k ++ rest ∧ ∀ x y, x ∈ k → y ∈ rest → le (key x) (key y) = true.
Proof.
  pose proof (order_by_sorted l) as Hs. pose proof (order_by_perm l) as Hp. rewrite <- (take_drop n (order_by l)) in Hs.
  split; [by rewrite length_take, (Permutation_length Hp)|]. split; [by eapply StronglySorted_app_1_l|].
  exists (drop n (order_by l)). split; [by rewrite take_drop|]. intros x y Hx Hy. apply Is_true_true.
  by eapply (StronglySorted_app_1_elem_of order_le) in Hs.
Qed.
End OrderBy.

(** A table in the order of its ids is ordered by them already. *)
Lemma order_by_id {A} (id : A → Z) l : StronglySorted Z.lt (id <$> l) → order_by Z.leb id l = l.
Proof.
  intros Hs. apply (StronglySorted_unique_strong (order_le Z.leb id)); [|apply order_by_sorted; apply _| |apply order_by_perm].
  - intros x y Hx%elem_of_order_by Hy. unfold order_le. rewrite !Is_true_true, !Z.leb_le. intros H1 H2.
    apply list_elem_of_split in Hx as (l1 & l2 & ->). rewrite fmap_app, fmap_cons in Hs.
    apply elem_of_app in Hy as [Hy|[->|Hy]%elem_of_cons]; [|done|].
    + apply (StronglySorted_app_1_elem_of Z.lt) with (x1 := id y) (x2 := id x) in Hs; [lia|by apply list_elem_of_fmap_2|left].
    + apply StronglySorted_app_1_r in Hs. apply StronglySorted_inv in Hs as [_ Hs]. rewrite Forall_fmap, Forall_forall in Hs.
      specialize (Hs y Hy). simpl in Hs. lia.
  - induction l as [|x l IH]; [constructor|]. inversion_clear Hs as [|? ? Hl Hx]. constructor; [by apply IH|].
    rewrite Forall_fmap in Hx. eapply Forall_impl; [exact Hx|]. intros y Hy. simpl in Hy. apply Is_true_true, Z.leb_le. lia.
Qed.

(** Descending ids of a key are strictly descending. *)
Lemma order_by_newest {A} (id : A → Z) l :
  NoDup (id <$> l) → StronglySorted (λ a b, id b < id a)%Z (order_by (desc Z.leb) id l).
Proof.
  intros Hn. assert (NoDup (id <$> order_by (desc Z.leb) id l)) as Hn' by (by rewrite order_by_perm). clear Hn.
  pose proof (order_by_sorted (desc Z.leb) id l) as Hs. induction Hs as [|x k _ IH Hx]; [constructor|].
  apply NoDup_cons in Hn' as [Hni Hn]. constructor; [by apply IH|]. rewrite Forall_forall in Hx |- *.
  intros y Hy. specialize (Hx y Hy). unfold order_le, desc in Hx. apply Is_true_true, Z.leb_le in Hx.
  assert (id y ≠ id x); [|lia]. intros E. apply Hni. rewrite <- E. by apply list_elem_of_fmap_2.
Qed.

Lemma update_where_none {A} (p : A → bool) f (l : list A) :
  (∀ x, x ∈ l → p x = false) → update_where p f l = l.
Proof.
  intros H. unfold update_where. rewrite <- (list_fmap_id l) at 2. apply list_fmap_ext.
  intros i x Hx%list_elem_of_lookup_2. by rewrite H.
Qed.

(** Rows whose update takes them out of a selection. *)
Lemma filter_unmarked {A} (p q : A → bool) (Q : A → Prop) `{!∀ x, Decision (Q x)} f (l : list A) :
  (∀ x, q x = true ↔ Q x) → (∀ x, p (f x) = false) →
  filter (λ x, p x) (update_where q f l) = filter (λ x, ¬ Q x) (filter (λ x, p x) l).
Proof.
  intros Hq Hf. unfold update_where. induction l as [|x l IH]; [done|].
  rewrite fmap_cons, !filter_cons, IH. destruct (q x) eqn:E.
  - rewrite Hf, decide_False by auto. destruct (p x); [|done].
    rewrite decide_True, filter_cons_False by naive_solver. done.
  - destruct (p x); [|done]. rewrite !decide_True, filter_cons_True; try done. rewrite <- Hq. congruence.
Qed.

(** Two passes that make one change are one pass. *)
Lemma update_where_twice {A} (p q r : A → bool) f (l : list A) :
  (∀ x, p x || q x = r x) → (∀ x, q (f x) = q x) → (∀ x, f (f x) = f x) →
  update_where q f (update_where p f l) = update_where r f l.
Proof.
  intros Hr Hq Hf. unfold update_where. rewrite <- list_fmap_compose. apply list_fmap_ext. intros i x _. cbn.
  rewrite <- Hr. destruct (p x) eqn:Ep; cbn; [|done]. rewrite Hq. by destruct (q x); rewrite ?Hf.
Qed.

Lemma filter_none_b {A} (p : A → bool) (l : list A) : (∀ x, x ∈ l → p x = false) → filter (λ x, p x) l = [].
Proof. intros H. apply filter_none, Forall_forall. intros x Hx. rewrite H by done. auto. Qed.

Section Upsert.
Context {K A : Type} `{!EqDecision K} (key : A → K).

(** The row of a key. *)
Definition at_key (k : K) (l : list A) : option A := head (filter (λ x, key x = k) l).

(** The rows after the upsert of [new], and how many changed (0 or 1). *)
Fixpoint upsert (guard : A → bool) (update : A → A) (new : A) (l : list A) : Z * list A :=
  match l with
  | [] => (1%Z, [new])
  | x :: l' =>
      if bool_decide (key x = key new) then
        if guard x then (1%Z, update x :: l') else (0%Z, x :: l')
      else let '(n, l') := upsert guard update new l' in (n, x :: l')
  end.

(** The columns of the key are unique. *)
Definition unique (l : list A) : Prop := NoDup (key <$> l).

Lemma at_key_some k l x : at_key k l = Some x → x ∈ l ∧ key x = k.
Proof.
  unfold at_key. intros H%head_Some_elem_of. by apply list_elem_of_filter in H as [? ?].
Qed.

Lemma at_key_cons k x l : at_key k (x :: l) = if bool_decide (key x = k) then Some x else at_key k l.
Proof. unfold at_key. rewrite filter_cons. case_bool_decide; [by rewrite decide_True|by rewrite decide_False]. Qed.

Lemma at_key_elem l x : unique l → x ∈ l → at_key (key x) l = Some x.
Proof.
  unfold unique. induction l as [|y l IH]; intros Hu Hx; [by apply elem_of_nil in Hx|].
  rewrite fmap_cons in Hu. apply NoDup_cons in Hu as [Hn Hu]. rewrite at_key_cons.
  apply elem_of_cons in Hx as [->|Hx]; [by rewrite bool_decide_true|].
  rewrite bool_decide_false; [by apply IH|]. intros E. apply Hn. rewrite E. by apply list_elem_of_fmap_2.
Qed.

Lemma at_key_none k l : at_key k l = None ↔ k ∉ key <$> l.
Proof.
  induction l as [|x l IH]; [split; [by intros _ ?%elem_of_nil|done]|].
  rewrite at_key_cons, fmap_cons, elem_of_cons. case_bool_decide as E; [naive_solver|].
  rewrite IH. naive_solver.
Qed.

Lemma at_key_app k l l' : at_key k (l ++ l') = match at_key k l with Some x => Some x | None => at_key k l' end.
Proof.
  induction l as [|x l IH]; [done|]. cbn [app]. rewrite !at_key_cons, IH. by case_bool_decide.
Qed.

Lemma at_key_snoc k l x : at_key k l = None → key x = k → at_key k (l ++ [x]) = Some x.
Proof.
  intros Hl Hx. induction l as [|y l IH]; cbn [app]; rewrite at_key_cons; [by rewrite bool_decide_true|].
  rewrite at_key_cons in Hl. case_bool_decide; [done|]. by apply IH.
Qed.

Lemma at_key_update_where k p f l :
  (∀ x, key (f x) = key x) →
  at_key k (update_where p f l) = (λ x, if p x then f x else x) <$> at_key k l.
Proof.
  intros Hf. induction l as [|x l IH]; [done|]. unfold update_where in *. rewrite fmap_cons, !at_key_cons.
  assert (key (if p x then f x else x) = key x) as -> by (destruct (p x); [apply Hf|done]).
  by case_bool_decide.
Qed.

Lemma update_where_keys p f l : (∀ x, key (f x) = key x) → key <$> update_where p f l = key <$> l.
Proof.
  intros Hf. unfold update_where. rewrite <- list_fmap_compose. apply list_fmap_ext. intros i x _. simpl.
  destruct (p x); [apply Hf|done].
Qed.

Lemma update_where_sum (weight : A → Z) (p : A → bool) f l :
  sumZ (weight <$> update_where p f l) =
  (sumZ (weight <$> l) + sumZ ((λ x, weight (f x) - weight x) <$> filter (λ x, p x) l))%Z.
Proof.
  induction l as [|x l IH]; [done|]. unfold update_where in *. rewrite filter_cons, !fmap_cons.
  case_decide; destruct (p x); try done; rewrite ?fmap_cons, ?sumZ_cons; lia.
Qed.

(** [for x in rows: d[key(x)] = value(x)]. *)
Lemma foldl_insert_lookup `{FinMap K M} {V} (value : A → V) k (l : list A) (m : M V) :
  NoDup (key <$> l) →
  foldl (λ m x, <[key x := value x]> m) m l !! k =
  match at_key k l with Some x => Some (value x) | None => m !! k end.
Proof.
  revert m. induction l as [|x l IH]; intros m Hn; [done|]. rewrite fmap_cons in Hn.
  apply NoDup_cons in Hn as [Hx Hn]. cbn [foldl]. rewrite IH, at_key_cons by done.
  case_bool_decide as E.
  - subst k. destruct (at_key (key x) l) as [y|] eqn:Ey; [|by rewrite lookup_insert_eq].
    apply at_key_some in Ey as [Hy Hk]. destruct Hx. rewrite <- Hk. by apply list_elem_of_fmap_2.
  - destruct (at_key k l); [done|]. by rewrite lookup_insert_ne.
Qed.

(** One statement. *)
Section One.
Context (guard : A → bool) (update : A → A) (new : A) (Hup : ∀ x, key (update x) = key x).

Lemma at_key_upsert k l :
  at_key k (upsert guard update new l).2 =
  if bool_decide (k = key new)
  then Some (match at_key k l with Some x => if guard x then update x else x | None => new end)
  else at_key k l.
Proof.
  induction l as [|x l IH]; cbn [upsert].
  - cbn [snd]. rewrite at_key_cons. change (at_key k []) with (@None A).
    case_bool_decide as E; case_bool_decide; naive_solver.
  - destruct (decide (key x = key new)) as [Ex|Ex].
    + rewrite (bool_decide_true (key x = key new)) by done.
      destruct (guard x) eqn:Eg; cbn [snd]; rewrite !at_key_cons, ?Hup, Ex;
        rewrite (bool_decide_ext (key new = k) (k = key new)) by done;
        destruct (bool_decide (k = key new)); by rewrite ?Eg.
    + rewrite (bool_decide_false (key x = key new)) by done.
      destruct (upsert guard update new l) as [n l']. cbn [snd] in *. rewrite !at_key_cons, IH.
      destruct (decide (k = key new)) as [->|Hk]; [by rewrite (bool_decide_false (key x = key new))|].
      by rewrite !(bool_decide_false (k = key new)).
Qed.

Lemma upsert_keys l :
  key <$> (upsert guard update new l).2 = (key <$> l) ++ (if bool_decide (key new ∈ key <$> l) then [] else [key new]).
Proof.
  induction l as [|x l IH]; cbn [upsert]; [done|].
  destruct (decide (key x = key new)) as [Ex|Ex];
    [rewrite (bool_decide_true (key x = key new)) by done|rewrite (bool_decide_false (key x = key new)) by done].
  - rewrite (bool_decide_true (key new ∈ _)) by (rewrite fmap_cons, Ex; left). rewrite app_nil_r.
    destruct (guard x); cbn [snd]; by rewrite !fmap_cons, ?Hup.
  - destruct (upsert guard update new l) as [n l']. cbn [snd] in *. rewrite !fmap_cons, IH.
    destruct (decide (key new ∈ key <$> l)) as [Hin|Hin].
    + rewrite (bool_decide_true (key new ∈ key <$> l)), bool_decide_true by (by try right). done.
    + rewrite (bool_decide_false (key new ∈ key <$> l)), bool_decide_false; [done| |done].
      intros [?|?]%elem_of_cons; [congruence|done].
Qed.

Lemma upsert_unique l : unique l → unique (upsert guard update new l).2.
Proof.
  unfold unique. intros Hu. rewrite upsert_keys. case_bool_decide as E; [by rewrite app_nil_r|].
  by apply NoDup_snoc.
Qed.

Lemma upsert_count l :
  (upsert guard update new l).1 =
  match at_key (key new) l with Some x => if guard x then 1%Z else 0%Z | None => 1%Z end.
Proof.
  induction l as [|x l IH]; [done|]. cbn [upsert]. rewrite at_key_cons.
  case_bool_decide; [by destruct (guard x)|]. by destruct (upsert guard update new l).
Qed.

Lemma upsert_noop x l :
  at_key (key new) l = Some x → guard x = false → upsert guard update new l = (0%Z, l).
Proof.
  induction l as [|y l IH]; [done|]. rewrite at_key_cons. cbn [upsert].
  case_bool_decide as E; [by intros [= ->] ->|]. intros Hx Hg. by rewrite IH.
Qed.

(** A sum over the table changes by what the one row gains. *)
Definition gain (weight : A → Z) (o : option A) : Z :=
  match o with
  | Some x => if guard x then (weight (update x) - weight x)%Z else 0%Z
  | None => weight new
  end.

Lemma upsert_sum weight l :
  sumZ (weight <$> (upsert guard update new l).2) = (sumZ (weight <$> l) + gain weight (at_key (key new) l))%Z.
Proof.
  induction l as [|x l IH]; cbn [upsert].
  - unfold at_key. simpl. lia.
  - rewrite at_key_cons. case_bool_decide as E.
    + unfold gain. destruct (guard x); cbn [snd]; rewrite !fmap_cons, !sumZ_cons; lia.
    + destruct (upsert guard update new l) as [n l']. cbn [snd] in *. rewrite !fmap_cons, !sumZ_cons. lia.
Qed.

Lemma elem_of_upsert x l :
  x ∈ (upsert guard update new l).2 → x ∈ l ∨ x = new ∨ ∃ y, y ∈ l ∧ guard y = true ∧ key y = key new ∧ x = update y.
Proof.
  induction l as [|y l IH]; cbn [upsert]; [intros ->%list_elem_of_singleton; auto|].
  case_bool_decide as E.
  - destruct (guard y) eqn:Eg; cbn [snd]; [|by auto].
    intros [->|Hx]%elem_of_cons; [|by left; right]. right. right. exists y. split_and!; [left|done..].
  - destruct (upsert guard update new l) as [n l']. cbn [snd] in *.
    intros [->|[Hx|[->|(z & Hz & ? & ? & ->)]]%IH]%elem_of_cons;
      [by left; left|by left; right|by auto|]. right. right. exists z. split_and!; [by right|done..].
Qed.
End One.

(** Many rows in one statement ([executemany], multi-row [VALUES]): [mk] builds the row to insert,
    which may take an id from the table. *)
Section Many.
Context {B : Type} (bkey : B → K) (guard : B → A → bool) (update : B → A → A) (mk : B → list A → A).
Context (Hup : ∀ b x, key (update b x) = key x) (Hmk : ∀ b l, key (mk b l) = bkey b).

Fixpoint upsert_all (bs : list B) (l : list A) : Z * list A :=
  match bs with
  | [] => (0%Z, l)
  | b :: bs =>
      let '(n, l1) := upsert (guard b) (update b) (mk b l) l in
      let '(m, l2) := upsert_all bs l1 in ((n + m)%Z, l2)
  end.

Lemma upsert_all_cons b bs l :
  (upsert_all (b :: bs) l).2 = (upsert_all bs (upsert (guard b) (update b) (mk b l) l).2).2.
Proof. cbn [upsert_all]. destruct (upsert _ _ _ l) as [n l1]. cbn [snd]. by destruct (upsert_all bs l1). Qed.

Lemma upsert_all_app bs cs l :
  upsert_all (bs ++ cs) l =
  let '(n, l1) := upsert_all bs l in let '(m, l2) := upsert_all cs l1 in ((n + m)%Z, l2).
Proof.
  revert l. induction bs as [|b bs IH]; intros l; cbn [app upsert_all]; [by destruct (upsert_all cs l)|].
  destruct (upsert _ _ _ l) as [n l1]. rewrite IH. destruct (upsert_all bs l1) as [m l2].
  destruct (upsert_all cs l2) as [k l3]. f_equal. lia.
Qed.

Lemma upsert_all_unique bs l : unique l → unique (upsert_all bs l).2.
Proof.
  revert l. induction bs as [|b bs IH]; intros l Hl; [done|]. rewrite upsert_all_cons.
  by apply IH, upsert_unique.
Qed.

Lemma at_key_upsert_all_other k bs l : k ∉ bkey <$> bs → at_key k (upsert_all bs l).2 = at_key k l.
Proof.
  revert l. induction bs as [|b bs IH]; intros l Hk; [done|].
  rewrite fmap_cons, not_elem_of_cons in Hk. rewrite upsert_all_cons, IH, at_key_upsert by naive_solver.
  rewrite bool_decide_false; [done|]. rewrite Hmk. naive_solver.
Qed.

(** The row that one of the upserted rows leaves under its key. *)
Lemma at_key_upsert_all b bs l :
  NoDup (bkey <$> bs) → b ∈ bs →
  match at_key (bkey b) l with
  | Some x => at_key (bkey b) (upsert_all bs l).2 = Some (if guard b x then update b x else x)
  | None => ∃ l', at_key (bkey b) (upsert_all bs l).2 = Some (mk b l')
  end.
Proof.
  revert l. induction bs as [|b' bs IH]; intros l Hn Hb; [by apply elem_of_nil in Hb|].
  rewrite fmap_cons in Hn. apply NoDup_cons in Hn as [Hn1 Hn2]. rewrite upsert_all_cons.
  apply elem_of_cons in Hb as [->|Hb].
  - rewrite at_key_upsert_all_other, at_key_upsert by done. rewrite bool_decide_true by by rewrite Hmk.
    destruct (at_key (bkey b') l); eauto.
  - assert (bkey b ≠ bkey b') as Hne by (intros E; apply Hn1; rewrite <- E; by apply list_elem_of_fmap_2).
    specialize (IH (upsert (guard b') (update b') (mk b' l) l).2 Hn2 Hb).
    rewrite at_key_upsert in IH by done. rewrite bool_decide_false in IH by by rewrite Hmk. done.
Qed.

Lemma upsert_all_noop bs l :
  (∀ b, b ∈ bs → ∃ x, at_key (bkey b) l = Some x ∧ guard b x = false) → upsert_all bs l = (0%Z, l).
Proof.
  induction bs as [|b bs IH]; intros H; [done|]. cbn [upsert_all].
  destruct (H b) as (x & Hx & Hg); [left|].
  rewrite (upsert_noop (guard b) (update b) (mk b l) x) by (by rewrite ?Hmk).
  rewrite IH by (intros; apply H; by right). done.
Qed.

Lemma upsert_all_sum (weight : A → Z) (fresh : B → Z) bs l :
  NoDup (bkey <$> bs) → (∀ b l', weight (mk b l') = fresh b) →
  sumZ (weight <$> (upsert_all bs l).2) =
  (sumZ (weight <$> l) +
   sumZ ((λ b, match at_key (bkey b) l with
               | Some x => if guard b x then weight (update b x) - weight x else 0
               | None => fresh b
               end) <$> bs))%Z.
Proof.
  intros Hn Hw. revert l. induction bs as [|b bs IH]; intros l; [simpl; lia|].
  rewrite fmap_cons in Hn. apply NoDup_cons in Hn as [Hb Hn]. rewrite upsert_all_cons, IH, upsert_sum by done.
  rewrite Hmk. rewrite fmap_cons, sumZ_cons.
  assert (∀ b', b' ∈ bs → at_key (bkey b') (upsert (guard b) (update b) (mk b l) l).2 = at_key (bkey b') l) as Hsame.
  { intros b' Hb'. rewrite at_key_upsert by done. rewrite bool_decide_false; [done|]. rewrite Hmk. intros E.
    apply Hb. rewrite <- E. by apply list_elem_of_fmap_2. }
  unfold gain. rewrite <- Hw with (l' := l).
  rewrite <- Z.add_assoc. do 3 f_equal.
  apply list_fmap_ext. intros i b' Hi%list_elem_of_lookup_2. by rewrite Hsame.
Qed.

(** Every row afterwards was there, was built from an upserted one, or was updated by one. *)
Lemma elem_of_upsert_all (Q : A → Prop) bs l :
  (∀ x, x ∈ l → Q x) → (∀ b l', b ∈ bs → Q (mk b l')) → (∀ b y, b ∈ bs → Q y → key y = bkey b → Q (update b y)) →
  ∀ x, x ∈ (upsert_all bs l).2 → Q x.
Proof.
  revert l. induction bs as [|b bs IH]; intros l Hl Hnew Hu; [done|]. rewrite upsert_all_cons. apply IH.
  - intros x [Hx|[->|(y & Hy & _ & Hk & ->)]]%elem_of_upsert; [by apply Hl|apply Hnew; left|].
    rewrite Hmk in Hk. apply Hu; [left|by apply Hl|done].
  - intros b' l' Hb'. apply Hnew. by right.
  - intros b' y Hb'. apply Hu. by right.
Qed.
End Many.
End Upsert.

(** Rows that the statement does not concern stay, in order. *)
Lemma filter_upsert {K A} `{!EqDecision K} (key : A → K) (P : A → bool) guard update new l :
  (∀ x, key x = key new → P x = false ∧ P (update x) = false) → P new = false →
  filter (λ x, P x) (upsert key guard update new l).2 = filter (λ x, P x) l.
Proof.
  intros Hk Hnew. assert (∀ x k, P x = false → filter (λ x, P x) (x :: k) = filter (λ x, P x) k) as Hdrop.
  { intros x k Hx. apply filter_cons_False. rewrite Hx. auto. }
  induction l as [|x l IH]; cbn [upsert]; [by apply Hdrop|]. case_bool_decide as E.
  - destruct (Hk x E) as [H1 H2]. destruct (guard x); cbn [snd]; by rewrite !Hdrop.
  - destruct (upsert key guard update new l) as [n l']. cbn [snd] in *. by rewrite !filter_cons, IH.
Qed.

Lemma filter_upsert_all {K A B} `{!EqDecision K} (key : A → K) (bkey : B → K) (P : A → bool) guard update mk bs l :
  (∀ b l, key (mk b l) = bkey b) →
  (∀ b x, key x = bkey b → P x = false ∧ P (update b x) = false) → (∀ b l, P (mk b l) = false) →
  filter (λ x, P x) (upsert_all key guard update mk bs l).2 = filter (λ x, P x) l.
Proof.
  intros Hmk Hk Hnew. revert l. induction bs as [|b bs IH]; intros l; [done|].
  rewrite upsert_all_cons, IH. apply filter_upsert; [|done]. intros x. rewrite Hmk. apply Hk.
Qed.

Lemma filter_update_where {A} (P p : A → bool) f (l : list A) :
  (∀ x, p x = true → P x = false ∧ P (f x) = false) →
  filter (λ x, P x) (update_where p f l) = filter (λ x, P x) l.
Proof.
  intros H. induction l as [|x l IH]; [done|]. unfold update_where in *. rewrite fmap_cons, !filter_cons, IH.
  destruct (p x) eqn:E; [|done]. destruct (H x E) as [-> ->]. done.
Qed.

(** The rows an update has just marked are the updated ones. *)
Lemma filter_marked {A} (p q : A → bool) f (l : list A) :
  (∀ x, x ∈ l → q x = false) → (∀ x, p x = true → q (f x) = true) →
  filter (λ x, q x) (update_where p f l) = f <$> filter (λ x, p x) l.
Proof.
  intros Hq Hf. induction l as [|x l IH]; [done|]. unfold update_where in *. rewrite fmap_cons, !filter_cons.
  rewrite IH by (intros; apply Hq; by right). pose proof (Hq x ltac:(left)) as Hx.
  destruct (p x) eqn:E; [by rewrite (Hf x E)|by rewrite Hx].
Qed.

Lemma sumZ_omap {A B} (f : A → option B) (g : B → Z) (l : list A) :
  sumZ (g <$> omap f l) = sumZ ((λ x, match f x with Some y => g y | None => 0%Z end) <$> l).
Proof.
  induction l as [|x l IH]; [done|]. rewrite fmap_cons, sumZ_cons, <- IH.
  change (omap f (x :: l)) with (match f x with Some y => y :: omap f l | None => omap f l end).
  destruct (f x); [by rewrite fmap_cons, sumZ_cons|lia].
Qed.

Lemma sumZ_ext {A} (f g : A → Z) (l : list A) : (∀ x, x ∈ l → f x = g x) → sumZ (f <$> l) = sumZ (g <$> l).
Proof. intros H. f_equal. apply list_fmap_ext. intros i x Hx%list_elem_of_lookup_2. auto. Qed.
