(* ===== verification/Catalogue.v ===== *)
(** The catalogue tables ([src/fathom/core/catalogue/models.py]) and the LIKE patterns of the prefix
    queries ([core/query.py]).

    A table is a list of rows in id order.  A timestamp of a file is a finite double, which is an
    integer multiple of 2^-1074: the model keeps that integer, so comparison is exact.  Any other
    timestamp is its instant, and a JSON column is its text.
    [LIKE] is the standard's (as PostgreSQL implements it, case-sensitive). *)

From S2P Require Import Prelude PyStr.

(** ** Rows *)

Record Host := mk_host {
  h_id : Z; h_name : string; h_os : option string; h_agent_version : option string;
  cert_fingerprint : string; last_seen : option Z; h_reported_config : option string;
  desired_config : option string; facts : option string;
}.

Record Volume := mk_volume {
  v_id : Z; v_host_id : Z; mountpoint : string; v_display_name : option string; v_kind : string;
  v_fs_type : string; v_device : string; v_transport : string; v_raid_role : option string;
  v_pool : option string; v_dataset : option string; v_total : Z; v_used : Z; v_free : Z;
  change_log_enabled : bool; updated_at : Z;
}.

Record FsEntryRow := mk_entry {
  e_id : Z; host_id : Z; volume_id : Z; parent_id : option Z; name : string; path : string;
  depth : Z; is_dir : bool; is_symlink : bool; size_logical : Z; size_on_disk : Z; mtime : Z; ctime : Z;
  uid : Z; gid : Z; inode : Z; dev : Z; flags : string; last_seen_snapshot_id : option Z;
  present : bool; removed_at : option Z; partial_hash : option string; full_hash : option string;
  hashed_at : option Z; provider_hash : option string; provider_hash_algo : option string;
}.

Record Snapshot := mk_snapshot {
  sn_id : Z; sn_host_id : Z; sn_volume_id : Z; sn_mode : string; sn_started : Z; sn_finished : option Z;
  sn_total_size : Z; sn_file_count : Z;
}.

Record SubtreeRollup := mk_rollup {
  ro_volume_id : Z; ro_path : string; ro_depth : Z; ro_size_logical : Z; ro_size_on_disk : Z;
  ro_file_count : Z; ro_dir_count : Z; ro_computed_at : Z;
}.

Record SizeHistory := mk_history {
  hi_volume_id : Z; hi_path : string; hi_ts : Z; hi_size_logical : Z; hi_size_on_disk : Z; hi_file_count : Z;
}.

Inductive ChangeType := Create | Modify | Delete.

#[export] Instance ChangeType_eq_dec : EqDecision ChangeType.
Proof. solve_decision. Defined.

Record ChangeLog := mk_change {
  c_volume_id : Z; c_path : string; c_change_type : ChangeType; c_size_delta : Z; c_ts : Z;
}.

(** The tables that ingest and finalize write. *)
Record catalogue := mk_catalogue {
  hosts : list Host; volumes : list Volume; snapshots : list Snapshot; fs_entry : list FsEntryRow;
  change_log : list ChangeLog; rollups : list SubtreeRollup; size_history : list SizeHistory;
}.

(** The identity columns of an entry. *)
Definition identity : Type := Z * Z * Z * Z.
Definition entry_identity (e : FsEntryRow) : identity := (host_id e, volume_id e, dev e, inode e).

(** ** [LIKE ... ESCAPE '\'] *)

Definition _LIKE_ESCAPE : ascii := "\"%char.

Fixpoint like (pat s : string) : bool :=
  match pat with
  | "" => match s with "" => true | _ => false end
  | String c p =>
      if Ascii.eqb c _LIKE_ESCAPE then
        match p with
        | "" => false
        | String d p' => match s with String e s' => Ascii.eqb d e && like p' s' | "" => false end
        end
      else if Ascii.eqb c "%" then
        (fix any (s : string) : bool :=
           like p s || match s with "" => false | String _ s' => any s' end) s
      else if Ascii.eqb c "_" then
        match s with String _ s' => like p s' | "" => false end
      else match s with String e s' => Ascii.eqb c e && like p s' | "" => false end
  end.

(** [s.replace(c, t)] for a single character [c]. *)
Fixpoint replace_char (c : ascii) (t s : string) : string :=
  match s with
  | "" => ""
  | String d s' => if Ascii.eqb c d then t +:+ replace_char c t s' else String d (replace_char c t s')
  end.

Definition escape_like (prefix : string) : string :=
  replace_char "_" (String _LIKE_ESCAPE "_")
    (replace_char "%" (String _LIKE_ESCAPE "%")
       (replace_char _LIKE_ESCAPE (String _LIKE_ESCAPE (String _LIKE_ESCAPE "")) prefix)).

(** The pattern of a subtree: [escape_like(path.rstrip("/")) + "/%"]. *)
Definition rstrip_slash (s : string) : string := rstrip_by (Ascii.eqb "/") s.
Definition subtree_like (p : string) : string := escape_like (rstrip_slash p) +:+ "/%".

(** ** An escaped prefix matches itself and nothing else *)

Lemma replace_char_app c t a b : replace_char c t (a +:+ b) = replace_char c t a +:+ replace_char c t b.
Proof.
  induction a as [|d a IH]; [done|]. rewrite app_cons_s. simpl. destruct (Ascii.eqb c d).
  - by rewrite IH, app_assoc_s.
  - by rewrite IH.
Qed.

Definition esc1 (c : ascii) : string :=
  if Ascii.eqb c _LIKE_ESCAPE || Ascii.eqb c "%" || Ascii.eqb c "_" then String _LIKE_ESCAPE (String c "")
  else String c "".

Lemma escape_like_cons c s : escape_like (String c s) = esc1 c +:+ escape_like s.
Proof.
  change (String c s) with (String c "" +:+ s). unfold escape_like. rewrite !replace_char_app.
  f_equal. unfold esc1. destruct (Ascii.eqb c _LIKE_ESCAPE) eqn:E1.
  { apply Ascii.eqb_eq in E1 as ->. done. }
  destruct (Ascii.eqb c "%") eqn:E2. { apply Ascii.eqb_eq in E2 as ->. done. }
  destruct (Ascii.eqb c "_") eqn:E3. { apply Ascii.eqb_eq in E3 as ->. done. }
  cbn [replace_char orb]. rewrite (Ascii.eqb_sym _LIKE_ESCAPE c), E1.
  cbn [replace_char]. rewrite (Ascii.eqb_sym "%" c), E2.
  cbn [replace_char]. by rewrite (Ascii.eqb_sym "_" c), E3.
Qed.

Lemma like_esc1 c p s :
  like (esc1 c +:+ p) s = match s with String e s' => Ascii.eqb c e && like p s' | "" => false end.
Proof.
  unfold esc1. destruct (Ascii.eqb c _LIKE_ESCAPE) eqn:E1; [by destruct s|].
  destruct (Ascii.eqb c "%") eqn:E2; [by destruct s|].
  destruct (Ascii.eqb c "_") eqn:E3; [by destruct s|].
  cbn [orb]. rewrite app_cons_s, app_nil_s. cbn [like]. by rewrite E1, E2, E3.
Qed.

Lemma like_any s : like "%" s = true.
Proof. induction s as [|c s IH]; [done|]. simpl in *. by rewrite IH. Qed.

Lemma like_escaped p q s :
  like (escape_like p +:+ q) s = true ↔ ∃ t, s = p +:+ t ∧ like q t = true.
Proof.
  revert s. induction p as [|c p IH]; intros s.
  - change (escape_like "") with "". rewrite app_nil_s. split; [by exists s|].
    intros (t & -> & H). by rewrite app_nil_s.
  - rewrite escape_like_cons, app_assoc_s, like_esc1. destruct s as [|e s].
    + split; [done|]. by intros (t & H & _).
    + rewrite andb_true_iff, Ascii.eqb_eq, IH. split.
      * intros [-> (t & -> & H)]. exists t. by rewrite app_cons_s.
      * intros (t & H & Ht). rewrite app_cons_s in H. apply String_inj in H as [-> ->]. eauto.
Qed.

Lemma like_slash_any s : like "/%" s = true ↔ ∃ t, s = String "/" t.
Proof.
  destruct s as [|c s]; [split; [done|by intros [? ?]]|].
  change (like "/%" (String c s)) with (Ascii.eqb "/" c && like "%" s).
  rewrite like_any, andb_true_r, Ascii.eqb_eq. split; [intros <-; eauto|].
  intros (t & H). by apply String_inj in H as [-> _].
Qed.

Lemma subtree_like_spec p s :
  like (subtree_like p) s = true ↔ ∃ t, s = rstrip_slash p +:+ String "/" t.
Proof.
  unfold subtree_like. rewrite like_escaped. split.
  - intros (u & -> & (t & ->)%like_slash_any). eauto.
  - intros (t & ->). eexists. split; [done|]. apply like_slash_any. eauto.
Qed.
