(* ===== verification/Staging.v ===== *)
(** The agent's staging queue ([src/fathom/agent/staging/store.py], [schema.sql]).

    The three SQLite tables, in rowid order; each operation is one statement under the lock.  A JSON
    column holds the value it encodes.  A timestamp of a file is the integer of its double (as in
    Catalogue). *)

From S2P Require Import Prelude PyStr Sql.

(** ** Entries as a backend yields them ([backends/base.py]) *)

Record FsEntry := mk_fs {
  f_path : string; f_name : string; f_is_dir : bool; f_is_symlink : bool; f_size_logical : Z;
  f_size_on_disk : Z; f_mtime : Z; f_ctime : Z; f_uid : Z; f_gid : Z; f_inode : Z; f_dev : Z;
  f_flags : string; f_provider_hash : option string; f_provider_hash_algo : option string;
}.

Record VolumeInfo := mk_vinfo {
  vi_mountpoint : string; vi_display_name : option string; vi_fs_type : string; vi_device : string;
  vi_transport : string; vi_raid_role : option string; vi_dataset : option string;
  vi_total : Z; vi_used : Z; vi_free : Z;
}.

Inductive ScanMode := METADATA | FULLBIT.

#[export] Instance ScanMode_eq_dec : EqDecision ScanMode.
Proof. solve_decision. Defined.

(** ** The tables *)

Record scan_run := mk_run {
  run_id : Z; run_host : string; run_volume : string; run_mode : ScanMode; run_root : string;
  started_at : Z; finished_at : option Z; entry_count : Z; warning_ack : option string;
  volume_json : option VolumeInfo;
}.

Record staged_entry := mk_staged {
  s_host : string; s_volume : string; s_dev : Z; s_inode : Z; s_path : string; s_name : string;
  s_is_dir : bool; s_is_symlink : bool; s_size_logical : Z; s_size_on_disk : Z; s_mtime : Z;
  s_ctime : Z; s_uid : Z; s_gid : Z; s_flags : string; s_partial_hash : option string;
  s_full_hash : option string; s_run : Z; s_pushed : bool;
}.

Record staged_removal := mk_removal {
  r_host : string; r_volume : string; r_dev : Z; r_inode : Z; r_path : string; r_run : Z; r_pushed : bool;
}.

Record StagingStore := mk_store {
  runs : list scan_run; entries : list staged_entry; removals : list staged_removal; next_run : Z;
}.

Definition empty_store : StagingStore := mk_store [] [] [] 1.

(** The primary keys. *)
Definition key : Type := string * string * Z * Z.
Definition entry_key (e : staged_entry) : key := (s_host e, s_volume e, s_dev e, s_inode e).
Definition removal_key (r : staged_removal) : key := (r_host r, r_volume r, r_dev r, r_inode r).

Definition set_entries (l : list staged_entry) (s : StagingStore) : StagingStore :=
  mk_store (runs s) l (removals s) (next_run s).
Definition set_removals (l : list staged_removal) (s : StagingStore) : StagingStore :=
  mk_store (runs s) (entries s) l (next_run s).

(** ** Runs *)

Definition start_run (host vol : string) (mode : ScanMode) (root : string) (started : Z)
    (ack : option string) (volume : option VolumeInfo) (s : StagingStore) : Z * StagingStore :=
  (next_run s,
   mk_store (runs s ++ [mk_run (next_run s) host vol mode root started None 0 ack volume])
     (entries s) (removals s) (next_run s + 1)).

Definition finish_run (id finished count : Z) (s : StagingStore) : StagingStore :=
  mk_store ((λ r, if bool_decide (run_id r = id)
                  then mk_run (run_id r) (run_host r) (run_volume r) (run_mode r) (run_root r) (started_at r)
                         (Some finished) count (warning_ack r) (volume_json r)
                  else r) <$> runs s) (entries s) (removals s) (next_run s).

Definition has_baseline_run (host vol : string) (s : StagingStore) : bool :=
  existsb (λ r, bool_decide (run_host r = host) && bool_decide (run_volume r = vol)
                && bool_decide (run_mode r = METADATA) && bool_decide (finished_at r ≠ None)) (runs s).

(** ** Upserts *)

Definition to_row (run : Z) (host vol : string) (e : FsEntry) : staged_entry :=
  mk_staged host vol (f_dev e) (f_inode e) (f_path e) (f_name e) (f_is_dir e) (f_is_symlink e)
    (f_size_logical e) (f_size_on_disk e) (f_mtime e) (f_ctime e) (f_uid e) (f_gid e) (f_flags e)
    None None run false.

(** The SET list of [_UPSERT]: the hash columns stay. *)
Definition update_row (new old : staged_entry) : staged_entry :=
  mk_staged (s_host old) (s_volume old) (s_dev old) (s_inode old) (s_path new) (s_name new)
    (s_is_dir new) (s_is_symlink new) (s_size_logical new) (s_size_on_disk new) (s_mtime new)
    (s_ctime new) (s_uid new) (s_gid new) (s_flags new) (s_partial_hash old) (s_full_hash old)
    (s_run new) false.

Definition row_changed (new old : staged_entry) : bool :=
  negb (s_mtime new =? s_mtime old)%Z || negb (s_size_logical new =? s_size_logical old)%Z.

(** [executemany(_UPSERT, rows)]: how many rows changed, and the table. *)
Definition _UPSERT (rows : list staged_entry) (l : list staged_entry) : Z * list staged_entry :=
  upsert_all entry_key row_changed update_row (λ new _, new) rows l.

Definition stage_batch (run : Z) (host vol : string) (batch : list FsEntry) (s : StagingStore)
    : Z * StagingStore :=
  let '(n, l) := _UPSERT (to_row run host vol <$> batch) (entries s) in (n, set_entries l s).

Definition removal_row (run : Z) (host vol : string) (r : Z * Z * string) : staged_removal :=
  mk_removal host vol r.1.1 r.1.2 r.2 run false.

Definition update_removal (new old : staged_removal) : staged_removal :=
  mk_removal (r_host old) (r_volume old) (r_dev old) (r_inode old) (r_path new) (r_run new) false.

(** The statement of [stage_removals]: every row is written. *)
Definition upsert_removals (rows : list staged_removal) (l : list staged_removal) : Z * list staged_removal :=
  upsert_all removal_key (λ _ _, true) update_removal (λ new _, new) rows l.

Definition stage_removals (run : Z) (host vol : string) (rs : list (Z * Z * string)) (s : StagingStore)
    : Z * StagingStore :=
  let '(n, l) := upsert_removals (removal_row run host vol <$> rs) (removals s) in (n, set_removals l s).

Definition hash_row (partial full : string) (run : Z) (e : staged_entry) : staged_entry :=
  mk_staged (s_host e) (s_volume e) (s_dev e) (s_inode e) (s_path e) (s_name e) (s_is_dir e) (s_is_symlink e)
    (s_size_logical e) (s_size_on_disk e) (s_mtime e) (s_ctime e) (s_uid e) (s_gid e) (s_flags e)
    (Some partial) (Some full) run false.

Definition stage_hash (host vol : string) (inode : Z) (partial full : string) (run dev : Z)
    (s : StagingStore) : StagingStore :=
  set_entries (update_where (λ e, bool_decide (entry_key e = (host, vol, dev, inode)))
                 (hash_row partial full run) (entries s)) s.

(** ** The queue *)

Definition unpushed_of (run : Z) (s : StagingStore) : list staged_entry :=
  filter (λ e, bool_decide (s_run e = run) && negb (s_pushed e)) (entries s).
Definition unpushed_removals_of (run : Z) (s : StagingStore) : list staged_removal :=
  filter (λ r, bool_decide (r_run r = run) && negb (r_pushed r)) (removals s).

Definition unpushed_for_run (run limit : Z) (s : StagingStore) : list staged_entry :=
  sql_limit limit (unpushed_of run s).
Definition unpushed_removals_for_run (run limit : Z) (s : StagingStore) : list staged_removal :=
  sql_limit limit (unpushed_removals_of run s).

Definition push_entry (e : staged_entry) : staged_entry :=
  mk_staged (s_host e) (s_volume e) (s_dev e) (s_inode e) (s_path e) (s_name e) (s_is_dir e)
    (s_is_symlink e) (s_size_logical e) (s_size_on_disk e) (s_mtime e) (s_ctime e) (s_uid e) (s_gid e)
    (s_flags e) (s_partial_hash e) (s_full_hash e) (s_run e) true.
Definition push_removal (r : staged_removal) : staged_removal :=
  mk_removal (r_host r) (r_volume r) (r_dev r) (r_inode r) (r_path r) (r_run r) true.

(** [UPDATE ... SET pushed = 1] per key; the keys are primary keys, so one pass marks them all. *)
Definition mark_pushed (keys : list key) (s : StagingStore) : StagingStore :=
  set_entries (update_where (λ e, bool_decide (entry_key e ∈ keys)) push_entry (entries s)) s.
Definition mark_removals_pushed (keys : list key) (s : StagingStore) : StagingStore :=
  set_removals (update_where (λ r, bool_decide (removal_key r ∈ keys)) push_removal (removals s)) s.

Definition count_unpushed (s : StagingStore) : Z :=
  Z.of_nat (length (filter (λ e, negb (s_pushed e)) (entries s))).

(** A run is pending when one of its queues holds a row. *)
Definition pending (s : StagingStore) (run : scan_run) : bool :=
  existsb (λ e, negb (s_pushed e) && bool_decide (s_run e = run_id run)) (entries s)
  || existsb (λ x, negb (r_pushed x) && bool_decide (r_run x = run_id run)) (removals s).

(** Runs with something unpushed; ids are assigned in order, so the table is in id order. *)
Definition pending_runs (s : StagingStore) : list scan_run :=
  filter (λ r, pending s r) (runs s).

(** [ORDER BY scan_run_id LIMIT n]; SQLite visits the index in (run, rowid) order. *)
#[export] Instance run_le_dec : RelDecision (λ a b : staged_entry, (s_run a ≤ s_run b)%Z).
Proof. intros a b. apply _. Defined.
Definition by_run : list staged_entry → list staged_entry := stable_sort (λ a b, (s_run a ≤ s_run b)%Z).

Definition iter_unpushed_hashes (limit : Z) (s : StagingStore) : list staged_entry :=
  sql_limit limit (by_run (filter (λ e, negb (s_pushed e) && bool_decide (s_full_hash e ≠ None)) (entries s))).
Definition iter_unpushed (limit : Z) (s : StagingStore) : list staged_entry :=
  sql_limit limit (by_run (filter (λ e, negb (s_pushed e)) (entries s))).

(** ** Baseline and candidates *)

(** [{(dev, inode): (mtime, path)}], in table order. *)
Definition load_baseline (host vol : string) (s : StagingStore) : list (Z * Z * (Z * string)) :=
  (λ e, (s_dev e, s_inode e, (s_mtime e, s_path e))) <$>
  filter (λ e, bool_decide (s_host e = host) && bool_decide (s_volume e = vol)) (entries s).

(** SQLite's LIKE without ESCAPE: [%], [_], and letters without regard to case. *)
Fixpoint like_nocase (pat s : string) : bool :=
  match pat with
  | "" => match s with "" => true | _ => false end
  | String c p =>
      if Ascii.eqb c "%" then
        (fix any (s : string) : bool :=
           like_nocase p s || match s with "" => false | String _ s' => any s' end) s
      else if Ascii.eqb c "_" then match s with String _ s' => like_nocase p s' | "" => false end
      else match s with
           | String e s' => Ascii.eqb (lower_char c) (lower_char e) && like_nocase p s'
           | "" => false
           end
  end.

Definition under_scope (prefix p : string) : bool :=
  bool_decide (p = prefix) || like_nocase (rstrip_by (Ascii.eqb "/") prefix +:+ "/%") p.

Definition iter_candidates (host vol prefix : string) (s : StagingStore) : list staged_entry :=
  filter (λ e, bool_decide (s_host e = host) && bool_decide (s_volume e = vol) && negb (s_is_dir e)
               && negb (s_is_symlink e) && under_scope prefix (s_path e)) (entries s).

Definition candidates_of_size (host vol prefix : string) (size : Z) (s : StagingStore) : list staged_entry :=
  filter (λ e, (s_size_logical e =? size)%Z) (iter_candidates host vol prefix s).

(** [GROUP BY size HAVING COUNT( * ) >= 2 ORDER BY size]. *)
Definition collision_sizes (host vol prefix : string) (s : StagingStore) : list Z :=
  let sizes := s_size_logical <$> filter (λ e, (0 <? s_size_logical e)%Z) (iter_candidates host vol prefix s) in
  stable_sort Z.le (filter (λ z, 2 ≤ length (filter (λ y, y = z) sizes)) (remove_dups sizes)).

(** ** Marking rows as pushed *)

(** The rows come in batches from the front of the queue of a run. *)
Definition batch_len {A} (limit : Z) (l : list A) : nat := if (limit <? 0)%Z then length l else Z.to_nat limit.

Lemma sql_limit_take {A} (n : Z) (l : list A) : sql_limit n l = take (batch_len n l) l.
Proof. unfold sql_limit, batch_len. destruct (n <? 0)%Z; [by rewrite firstn_all|done]. Qed.

Lemma filter_not_taken {A B} `{!EqDecision B} (f : A → B) (k : nat) (l : list A) :
  NoDup (f <$> l) → filter (λ x, f x ∉ f <$> take k l) l = drop k l.
Proof.
  intros Hn. assert (∀ x, x ∈ drop k l → f x ∉ f <$> take k l) as Hd.
  { intros x Hx Hin. rewrite <- (take_drop k l), fmap_app in Hn.
    apply NoDup_app in Hn as (_ & Hn & _). apply (Hn (f x)); [done|]. by apply list_elem_of_fmap_2. }
  assert (∀ x, x ∈ take k l → ¬ (f x ∉ f <$> take k l)) as Ht.
  { intros x Hx Hin. apply Hin. by apply list_elem_of_fmap_2. }
  revert Hd Ht. generalize (f <$> take k l). intros ks Hd Ht. rewrite <- (take_drop k l) at 1.
  rewrite filter_app, filter_none, filter_all; [done|by apply Forall_forall..].
Qed.

Lemma in_either {A} `{!EqDecision A} (x : A) (a b : list A) :
  bool_decide (x ∈ a) || bool_decide (x ∈ b) = bool_decide (x ∈ a ++ b).
Proof. rewrite <- bool_decide_or. apply bool_decide_ext. by rewrite elem_of_app. Qed.

Lemma mark_pushed_nil s : mark_pushed [] s = s.
Proof.
  unfold mark_pushed. rewrite update_where_none; [by destruct s|]. intros e _.
  apply bool_decide_eq_false. apply not_elem_of_nil.
Qed.

Lemma mark_pushed_app a b s : mark_pushed b (mark_pushed a s) = mark_pushed (a ++ b) s.
Proof.
  unfold mark_pushed, set_entries. cbn. f_equal. apply update_where_twice; [|done..]. intros e. by rewrite in_either.
Qed.

Lemma mark_pushed_unique ks s : unique entry_key (entries s) → unique entry_key (entries (mark_pushed ks s)).
Proof. unfold unique. cbn. by rewrite update_where_keys. Qed.

(** The queue of a run after some keys were marked. *)
Lemma unpushed_of_mark run ks s :
  unpushed_of run (mark_pushed ks s) = filter (λ e, entry_key e ∉ ks) (unpushed_of run s).
Proof.
  unfold unpushed_of. cbn. apply (filter_unmarked (λ e, bool_decide (s_run e = run) && negb (s_pushed e)));
    intros e; [apply bool_decide_eq_true|apply andb_false_r].
Qed.

Lemma unpushed_of_keys run s : unique entry_key (entries s) → NoDup (entry_key <$> unpushed_of run s).
Proof. intros H. eapply sublist_NoDup; [exact H|]. apply fmap_sublist, sublist_filter. Qed.

Lemma unpushed_of_advance run k s :
  unique entry_key (entries s) →
  unpushed_of run (mark_pushed (entry_key <$> take k (unpushed_of run s)) s) = drop k (unpushed_of run s).
Proof. intros H. rewrite unpushed_of_mark. by apply filter_not_taken, unpushed_of_keys. Qed.

(** The same of removals. *)
Lemma mark_removals_pushed_nil s : mark_removals_pushed [] s = s.
Proof.
  unfold mark_removals_pushed. rewrite update_where_none; [by destruct s|]. intros e _.
  apply bool_decide_eq_false. apply not_elem_of_nil.
Qed.

Lemma mark_removals_pushed_app a b s : mark_removals_pushed b (mark_removals_pushed a s) = mark_removals_pushed (a ++ b) s.
Proof.
  unfold mark_removals_pushed, set_removals. cbn. f_equal. apply update_where_twice; [|done..].
  intros e. by rewrite in_either.
Qed.

Lemma unpushed_removals_of_mark run ks s :
  unpushed_removals_of run (mark_removals_pushed ks s) = filter (λ e, removal_key e ∉ ks) (unpushed_removals_of run s).
Proof.
  unfold unpushed_removals_of. cbn.
  apply (filter_unmarked (λ r, bool_decide (r_run r = run) && negb (r_pushed r)));
    intros e; [apply bool_decide_eq_true|apply andb_false_r].
Qed.

Lemma unpushed_removals_of_advance run k s :
  unique removal_key (removals s) →
  unpushed_removals_of run (mark_removals_pushed (removal_key <$> take k (unpushed_removals_of run s)) s) =
  drop k (unpushed_removals_of run s).
Proof.
  intros H. rewrite unpushed_removals_of_mark. apply filter_not_taken.
  eapply sublist_NoDup; [exact H|]. apply fmap_sublist, sublist_filter.
Qed.

(** A row still unpushed was not among the marked ones. *)
Lemma mark_pushed_kept ks s e :
  e ∈ entries (mark_pushed ks s) → s_pushed e = false → e ∈ entries s ∧ entry_key e ∉ ks.
Proof.
  cbn. intros (x & -> & Hx)%list_elem_of_fmap. destruct (decide (entry_key x ∈ ks)) as [Hk|Hk];
    [by rewrite (bool_decide_true (entry_key x ∈ ks))|by rewrite (bool_decide_false (entry_key x ∈ ks))].
Qed.

Lemma mark_removals_pushed_kept ks s r :
  r ∈ removals (mark_removals_pushed ks s) → r_pushed r = false → r ∈ removals s ∧ removal_key r ∉ ks.
Proof.
  cbn. intros (x & -> & Hx)%list_elem_of_fmap. destruct (decide (removal_key x ∈ ks)) as [Hk|Hk];
    [by rewrite (bool_decide_true (removal_key x ∈ ks))|by rewrite (bool_decide_false (removal_key x ∈ ks))].
Qed.

(** A batch from the front of a run's queue. *)
Lemma unpushed_for_run_spec run limit s :
  unique entry_key (entries s) →
  NoDup (entry_key <$> unpushed_for_run run limit s) ∧
  Forall (λ e, e ∈ entries s ∧ s_pushed e = false) (unpushed_for_run run limit s).
Proof.
  intros Hu. unfold unpushed_for_run. rewrite sql_limit_take. split.
  - eapply sublist_NoDup; [by apply (unpushed_of_keys run)|]. apply fmap_sublist, sublist_take.
  - apply Forall_forall. intros e He%elem_of_take. destruct He as (i & He%list_elem_of_lookup_2 & _).
    apply list_elem_of_filter in He as [[_ Hp]%andb_prop_elim He]. split; [done|]. by destruct (s_pushed e).
Qed.

Lemma unpushed_removals_for_run_spec run limit s :
  unique removal_key (removals s) →
  NoDup (removal_key <$> unpushed_removals_for_run run limit s) ∧
  Forall (λ r, r ∈ removals s ∧ r_pushed r = false) (unpushed_removals_for_run run limit s).
Proof.
  intros Hu. unfold unpushed_removals_for_run. rewrite sql_limit_take. split.
  - eapply sublist_NoDup; [exact Hu|]. apply fmap_sublist.
    etransitivity; [apply sublist_take|apply sublist_filter].
  - apply Forall_forall. intros e He%elem_of_take. destruct He as (i & He%list_elem_of_lookup_2 & _).
    apply list_elem_of_filter in He as [[_ Hp]%andb_prop_elim He]. split; [done|]. by destruct (r_pushed e).
Qed.

(** A row marked in a batch leaves the queue. *)
Lemma advance_shrinks {A} (limit : Z) (l : list A) :
  sql_limit limit l ≠ [] → length (drop (batch_len limit l) l) < length l.
Proof.
  rewrite sql_limit_take, length_drop. destruct l; [by rewrite take_nil|].
  destruct (batch_len limit (a :: l)); [done|]. cbn [length]. lia.
Qed.

Lemma queue_empty {A} (limit : Z) (l : list A) : limit ≠ 0%Z → sql_limit limit l = [] → l = [].
Proof.
  unfold sql_limit. intros Hn. destruct (limit <? 0)%Z eqn:E; [done|]. destruct l; [done|].
  destruct (Z.to_nat limit) eqn:En; [lia|done].
Qed.

Lemma existsb_filter {A} (p q : A → bool) (l : list A) :
  (∀ x, p x = q x) → existsb p l = false ↔ filter (λ x, q x) l = [].
Proof.
  intros Hq. induction l as [|x l IH]; [done|]. cbn [existsb]. rewrite filter_cons, orb_false_iff, IH, Hq.
  destruct (q x); naive_solver.
Qed.

Lemma not_pending run s :
  pending s run = false ↔ unpushed_of (run_id run) s = [] ∧ unpushed_removals_of (run_id run) s = [].
Proof. unfold pending. rewrite orb_false_iff, !existsb_filter by (intros; apply andb_comm). done. Qed.

Lemma pending_runs_none s : (∀ run, run ∈ runs s → pending s run = false) → pending_runs s = [].
Proof. apply filter_none_b. Qed.
