(* ===== verification/Wire.v ===== *)
(** The frames an agent pushes and their validation at construction
    ([src/fathom/api/schemas.py]).  A flags object and the hardware facts are their JSON text. *)

From S2P Require Import Prelude PyStr Staging.

Record HostFrame := mk_host_frame {
  ho_name : string; ho_os : option string; ho_agent_version : option string; ho_facts : option string;
}.

Record VolumeFrame := mk_volume_frame {
  vo_mountpoint : string; vo_fs_type : string; vo_device : string; vo_transport : string;
  vo_raid_role : option string; vo_pool : option string; vo_dataset : option string; vo_total : Z;
  vo_used : Z; vo_free : Z; vo_display_name : option string;
}.

Record EntryFrame := mk_entry_frame {
  en_path : string; en_name : string; en_is_dir : bool; en_is_symlink : bool; en_size_logical : Z;
  en_size_on_disk : Z; en_mtime : Z; en_ctime : Z; en_uid : Z; en_gid : Z; en_inode : Z; en_dev : Z;
  en_flags : string; en_partial_hash : option string; en_full_hash : option string;
  en_provider_hash : option string; en_provider_hash_algo : option string;
}.

Record RemovedEntryIn := mk_removed { rm_dev : Z; rm_inode : Z }.

Record IngestBatch := mk_batch {
  b_host : HostFrame; b_volume : VolumeFrame; b_mode : ScanMode; b_snapshot_id : option Z;
  b_entries : list EntryFrame; b_removed : list RemovedEntryIn; b_removed_inodes : list Z;
}.

Record IngestResult := mk_result {
  res_snapshot_id : Z; res_host_id : Z; res_volume_id : Z; res_entries_received : Z;
  res_entries_rejected : Z; res_entries_removed : Z; res_changes_logged : Z;
}.

#[export] Instance EntryFrame_eq_dec : EqDecision EntryFrame.
Proof. solve_decision. Defined.

(** ** Validation *)

Inductive ValidationError := Invalid (field : string).

Definition len_ok (lo hi : nat) (s : string) : bool :=
  (lo <=? String.length s)%nat && (String.length s <=? hi)%nat.
Definition opt_ok {A} (p : A → bool) (o : option A) : bool := match o with Some x => p x | None => true end.
Definition nonneg (z : Z) : bool := (0 <=? z)%Z.

(** [_BLAKE3_HEX], [_PROVIDER_HASH], [_PROVIDER_ALGO]. *)
Definition is_lower_hex (c : ascii) : bool := is_digit c || (97 <=? code c)%Z && (code c <=? 102)%Z.
Definition _BLAKE3_HEX (s : string) : bool := len_ok 64 64 s && s_all is_lower_hex s.
Definition _PROVIDER_HASH (s : string) : bool :=
  len_ok 1 128 s && s_all (λ c, is_alnum c || bool_decide (c ∈ ["+"; "/"; "="; "_"; "-"]%char)) s.
Definition _PROVIDER_ALGO (s : string) : bool :=
  len_ok 1 32 s &&
  s_all (λ c, is_digit c || (97 <=? code c)%Z && (code c <=? 122)%Z || bool_decide (c ∈ ["."; "_"; "-"]%char)) s.

Definition host_frame_ok (f : HostFrame) : bool :=
  len_ok 1 255 (ho_name f) && opt_ok (len_ok 0 255) (ho_os f) && opt_ok (len_ok 0 64) (ho_agent_version f).

Definition volume_frame_ok (f : VolumeFrame) : bool :=
  len_ok 1 4096 (vo_mountpoint f) && len_ok 0 64 (vo_fs_type f) && len_ok 0 255 (vo_device f) &&
  len_ok 0 32 (vo_transport f) && opt_ok (len_ok 0 255) (vo_raid_role f) && opt_ok (len_ok 0 255) (vo_pool f) &&
  opt_ok (len_ok 0 255) (vo_dataset f) && nonneg (vo_total f) && nonneg (vo_used f) && nonneg (vo_free f) &&
  opt_ok (len_ok 0 4096) (vo_display_name f).

Definition _provider_hash_pairing (f : EntryFrame) : bool :=
  bool_decide (en_provider_hash f = None) && bool_decide (en_provider_hash_algo f = None) ||
  negb (bool_decide (en_provider_hash f = None)) && negb (bool_decide (en_provider_hash_algo f = None)).

Definition entry_frame_ok (f : EntryFrame) : bool :=
  len_ok 1 4096 (en_path f) && len_ok 0 1024 (en_name f) && nonneg (en_size_logical f) &&
  nonneg (en_size_on_disk f) && opt_ok _BLAKE3_HEX (en_partial_hash f) && opt_ok _BLAKE3_HEX (en_full_hash f) &&
  opt_ok _PROVIDER_HASH (en_provider_hash f) && opt_ok _PROVIDER_ALGO (en_provider_hash_algo f) &&
  _provider_hash_pairing f.

(** Construction: the frame, or a ValidationError. *)
Definition validated {A} (ok : A → bool) (field : string) (x : A) : result ValidationError A :=
  if ok x then Ok x else Err (Invalid field).

Definition batch_ok (b : IngestBatch) : bool :=
  host_frame_ok (b_host b) && volume_frame_ok (b_volume b) && forallb entry_frame_ok (b_entries b).
