(* ===== verification/Push.v ===== *)
(** The push client ([src/fathom/agent/transport/push.py]).

    The world outside the agent (the network, the server, the sleeper, the random source) is a type
    [W] with three operations; one POST either is acknowledged, is refused (a transport error or a
    status code), or comes back with an answer that does not validate.  Building the TLS context is
    not modelled. *)

From Stdlib Require Import QArith Qminmax Lqa.
From S2P Require Import Prelude PyStr Sql Staging Wire.

Inductive reply := Acked (r : IngestResult) | Refused | Garbled.

Inductive PushFailure :=
  | PushError
  | BadFrame (e : ValidationError)
  | BadReply
  | Diverges.

(** ** Retries *)

Record RetryPolicy := mk_policy { max_attempts : Z; base_delay : Q; max_delay : Q }.

(** [u] is what [random.random()] returns, in [0, 1). *)
Definition delay_for (p : RetryPolicy) (attempt : Z) (u : Q) : Q :=
  (Qmin (max_delay p) (base_delay p * inject_Z (2 ^ (attempt - 1))) * ((1#2) + u / 2))%Q.

(** ** Frames *)

Definition frame_of (r : staged_entry) : EntryFrame :=
  mk_entry_frame (s_path r) (s_name r) (s_is_dir r) (s_is_symlink r) (s_size_logical r) (s_size_on_disk r)
    (s_mtime r) (s_ctime r) (s_uid r) (s_gid r) (s_inode r) (s_dev r) (s_flags r) (s_partial_hash r)
    (s_full_hash r) None None.

Definition _row_to_entry (r : staged_entry) : result ValidationError EntryFrame :=
  validated entry_frame_ok "entry" (frame_of r).

Definition _volume_frame (run : scan_run) : result ValidationError VolumeFrame :=
  validated volume_frame_ok "volume"
    match volume_json run with
    | Some v =>
        mk_volume_frame (vi_mountpoint v) (vi_fs_type v) (vi_device v) (vi_transport v) (vi_raid_role v) None
          (vi_dataset v) (vi_total v) (vi_used v) (vi_free v) (vi_display_name v)
    | None => mk_volume_frame (run_volume run) "unknown" "unknown" "unknown" None None None 0 0 0 None
    end.

Definition host_frame (run : scan_run) (facts : option string) : result ValidationError HostFrame :=
  validated host_frame_ok "host" (mk_host_frame (run_host run) None None facts).

Definition lift {A} (r : result ValidationError A) : result PushFailure A :=
  match r with Ok x => Ok x | Err e => Err (BadFrame e) end.

Section Client.
Context {W : Type}.
Context (post : IngestBatch → W → reply * W) (sleep : Q → W → W) (random : W → Q * W).
Context (retry : RetryPolicy) (chunk_size : Z).

Fixpoint push_loop (n : nat) (attempt : Z) (b : IngestBatch) (w : W) : result PushFailure IngestResult * W :=
  match n with
  | O => (Err PushError, w)
  | S n =>
      match post b w with
      | (Acked r, w) => (Ok r, w)
      | (Garbled, w) => (Err BadReply, w)
      | (Refused, w) =>
          if (max_attempts retry <=? attempt)%Z then (Err PushError, w)
          else let '(u, w) := random w in
               push_loop n (attempt + 1) b (sleep (delay_for retry attempt u) w)
      end
  end.

Definition push (b : IngestBatch) (w : W) : result PushFailure IngestResult * W :=
  push_loop (Z.to_nat (max_attempts retry)) 1 b w.

(** ** Draining one run *)

Definition outcome (A : Type) : Type := result PushFailure A * StagingStore * W.

Definition entry_batch (run : scan_run) (host : HostFrame) (vol : VolumeFrame) (snap : option Z)
    (entries : list EntryFrame) : IngestBatch := mk_batch host vol (run_mode run) snap entries [] [].

Fixpoint drain_entries (fuel : nat) (run : scan_run) (host : HostFrame) (vol : VolumeFrame)
    (snap : option Z) (total : Z) (s : StagingStore) (w : W) : outcome (option Z * Z) :=
  match fuel with
  | O => (Err Diverges, s, w)
  | S fuel =>
      match unpushed_for_run (run_id run) chunk_size s with
      | [] => (Ok (snap, total), s, w)
      | rows =>
          match mapM _row_to_entry rows with
          | Err e => (Err (BadFrame e), s, w)
          | Ok entries =>
              match push (entry_batch run host vol snap entries) w with
              | (Err e, w) => (Err e, s, w)
              | (Ok res, w) =>
                  drain_entries fuel run host vol (Some (res_snapshot_id res)) (total + Z.of_nat (length rows))
                    (mark_pushed (entry_key <$> rows) s) w
              end
          end
      end
  end.

Definition removal_batch (host : HostFrame) (vol : VolumeFrame) (snap : option Z) (rows : list staged_removal)
    : IngestBatch :=
  mk_batch host vol METADATA snap [] ((λ r, mk_removed (r_dev r) (r_inode r)) <$> rows) (r_inode <$> rows).

Fixpoint removal_loop (fuel : nat) (run : scan_run) (host : HostFrame) (vol : VolumeFrame) (snap : option Z)
    (s : StagingStore) (w : W) : outcome () :=
  match fuel with
  | O => (Err Diverges, s, w)
  | S fuel =>
      match unpushed_removals_for_run (run_id run) chunk_size s with
      | [] => (Ok (), s, w)
      | rows =>
          match push (removal_batch host vol snap rows) w with
          | (Err e, w) => (Err e, s, w)
          | (Ok _, w) => removal_loop fuel run host vol snap (mark_removals_pushed (removal_key <$> rows) s) w
          end
      end
  end.

Definition _drain_removals (run : scan_run) (snap : option Z) (s : StagingStore) (w : W) : outcome () :=
  match lift (host_frame run None), lift (_volume_frame run) with
  | Ok host, Ok vol => removal_loop (S (length (removals s))) run host vol snap s w
  | Err e, _ | _, Err e => (Err e, s, w)
  end.

Definition drain_run (facts : option string) (run : scan_run) (total : Z) (s : StagingStore) (w : W) : outcome Z :=
  match lift (host_frame run facts), lift (_volume_frame run) with
  | Ok host, Ok vol =>
      match drain_entries (S (length (entries s))) run host vol None total s w with
      | (Err e, s, w) => (Err e, s, w)
      | (Ok (snap, total), s, w) =>
          match _drain_removals run snap s w with
          | (Err e, s, w) => (Err e, s, w)
          | (Ok _, s, w) => (Ok total, s, w)
          end
      end
  | Err e, _ | _, Err e => (Err e, s, w)
  end.

Fixpoint drain_runs (facts : option string) (runs : list scan_run) (total : Z) (s : StagingStore) (w : W) : outcome Z :=
  match runs with
  | [] => (Ok total, s, w)
  | run :: runs =>
      match drain_run facts run total s w with
      | (Err e, s, w) => (Err e, s, w)
      | (Ok total, s, w) => drain_runs facts runs total s w
      end
  end.

(** [facts] is what [_probe_facts] returned. *)
Definition drain (facts : option string) (s : StagingStore) (w : W) : outcome Z :=
  drain_runs facts (pending_runs s) 0 s w.
End Client.

(** ** What a drain tells the server

    The world is extended with the batches the server acknowledged, in order. *)

Section Log.
Context {W : Type} (post : IngestBatch → W → reply * W) (sleep : Q → W → W) (random : W → Q * W).
Context (retry : RetryPolicy) (chunk_size : Z).

Definition logged (b : IngestBatch) (w : W * list IngestBatch) : reply * (W * list IngestBatch) :=
  let '(r, w') := post b w.1 in
  (r, (w', match r with Acked _ => w.2 ++ [b] | _ => w.2 end)).
Definition sleep_logged (d : Q) (w : W * list IngestBatch) : W * list IngestBatch := (sleep d w.1, w.2).
Definition random_logged (w : W * list IngestBatch) : Q * (W * list IngestBatch) :=
  let '(u, w') := random w.1 in (u, (w', w.2)).

(** [s'] is [s] with exactly the rows marked that the batches [log] carry; each row once, and none
    that was pushed before. *)
Definition removed_of (r : staged_removal) : RemovedEntryIn := mk_removed (r_dev r) (r_inode r).

Definition acknowledged (log : list IngestBatch) (s s' : StagingStore) : Prop :=
  ∃ rows gone,
    s' = mark_removals_pushed (removal_key <$> gone) (mark_pushed (entry_key <$> rows) s) ∧
    concat (b_entries <$> log) = frame_of <$> rows ∧
    concat (b_removed <$> log) = removed_of <$> gone ∧
    NoDup (entry_key <$> rows) ∧ NoDup (removal_key <$> gone) ∧
    Forall (λ e, e ∈ entries s ∧ s_pushed e = false) rows ∧
    Forall (λ r, r ∈ removals s ∧ r_pushed r = false) gone.

Lemma acknowledged_refl s : acknowledged [] s s.
Proof. exists [], []. cbn. rewrite mark_pushed_nil, mark_removals_pushed_nil. repeat split; constructor. Qed.

Lemma acknowledged_trans l1 l2 s1 s2 s3 :
  acknowledged l1 s1 s2 → acknowledged l2 s2 s3 → acknowledged (l1 ++ l2) s1 s3.
Proof.
  intros (r1 & g1 & -> & He1 & Hr1 & Hn1 & Hm1 & Hf1 & Hg1) (r2 & g2 & -> & He2 & Hr2 & Hn2 & Hm2 & Hf2 & Hg2).
  assert (∀ e, e ∈ r2 → (e ∈ entries s1 ∧ s_pushed e = false) ∧ entry_key e ∉ entry_key <$> r1) as Hr.
  { rewrite Forall_forall in Hf2. intros e He. destruct (Hf2 e He) as [H Hp].
    by destruct (mark_pushed_kept _ s1 e H Hp). }
  assert (∀ r, r ∈ g2 → (r ∈ removals s1 ∧ r_pushed r = false) ∧ removal_key r ∉ removal_key <$> g1) as Hg.
  { rewrite Forall_forall in Hg2. intros e He. destruct (Hg2 e He) as [H Hp].
    by destruct (mark_removals_pushed_kept _ (mark_pushed (entry_key <$> r1) s1) e H Hp). }
  exists (r1 ++ r2), (g1 ++ g2). rewrite !fmap_app, !concat_app, He1, Hr1, He2, Hr2.
  split_and!; try done.
  - rewrite <- mark_removals_pushed_app, <- mark_pushed_app. done.
  - apply NoDup_app. split_and!; [done| |done]. intros k Hk (e & -> & He)%list_elem_of_fmap. by apply (Hr e He).
  - apply NoDup_app. split_and!; [done| |done]. intros k Hk (e & -> & He)%list_elem_of_fmap. by apply (Hg e He).
  - apply Forall_app. split; [done|]. apply Forall_forall. apply Hr.
  - apply Forall_app. split; [done|]. apply Forall_forall. apply Hg.
Qed.

Lemma acknowledged_unique log s s' :
  acknowledged log s s' → unique entry_key (entries s) ∧ unique removal_key (removals s) →
  unique entry_key (entries s') ∧ unique removal_key (removals s').
Proof.
  intros (r & g & -> & _) [He Hr]. unfold mark_removals_pushed, mark_pushed, set_entries, set_removals, unique in *.
  cbn [entries removals]. by rewrite !update_where_keys.
Qed.

(** A drain keeps the queues that are empty empty. *)
Lemma acknowledged_queue log s s' run :
  acknowledged log s s' →
  (unpushed_of run s = [] → unpushed_of run s' = []) ∧
  (unpushed_removals_of run s = [] → unpushed_removals_of run s' = []).
Proof.
  intros (r & g & -> & _). split; intros H.
  - change (unpushed_of run (mark_pushed (entry_key <$> r) s) = []). by rewrite unpushed_of_mark, H.
  - rewrite unpushed_removals_of_mark. change (unpushed_removals_of run (mark_pushed _ s)) with (unpushed_removals_of run s).
    by rewrite H.
Qed.

Lemma acknowledged_runs log s s' : acknowledged log s s' → runs s' = runs s ∧ next_run s' = next_run s.
Proof. by intros (r & g & -> & _). Qed.

(** A push that returns has been acknowledged once; one that fails has not. *)
Lemma push_logged b w log out w' log' :
  push logged sleep_logged random_logged retry b (w, log) = (out, (w', log')) →
  (∃ res, out = Ok res ∧ log' = log ++ [b]) ∨ ((out = Err PushError ∨ out = Err BadReply) ∧ log' = log).
Proof.
  unfold push. generalize (Z.to_nat (max_attempts retry)) at 1; intros n. generalize 1%Z.
  revert w. induction n as [|n IH]; intros w a; cbn [push_loop]; [naive_solver|].
  unfold logged at 1. cbn [fst snd]. destruct (post b w) as [[r| |] w1]; [naive_solver| |naive_solver].
  destruct (max_attempts retry <=? a)%Z; [naive_solver|].
  unfold random_logged at 1. cbn [fst snd]. destruct (random w1) as [u w2].
  unfold sleep_logged at 1. cbn [fst snd]. apply IH.
Qed.

Lemma rows_to_entries rows fs : mapM _row_to_entry rows = Ok fs → fs = frame_of <$> rows.
Proof.
  revert fs. induction rows as [|r rows IH]; intros fs; [by intros [= <-]|]. cbn.
  intros (f & Hf & (gs & Hg & [= <-])%bind_ok)%bind_ok. apply IH in Hg as ->. f_equal.
  unfold _row_to_entry, validated in Hf. destruct (entry_frame_ok _); naive_solver.
Qed.

(** One acknowledged batch and the marks that follow it. *)
Lemma acknowledged_entries run host vol snap s :
  let rows := unpushed_for_run (run_id run) chunk_size s in
  unique entry_key (entries s) →
  acknowledged [entry_batch run host vol snap (frame_of <$> rows)] s (mark_pushed (entry_key <$> rows) s).
Proof.
  intros rows Hu. destruct (unpushed_for_run_spec (run_id run) chunk_size s Hu) as [Hn Hf].
  exists rows, []. cbn. rewrite mark_removals_pushed_nil, app_nil_r. repeat split; (done || constructor).
Qed.

Lemma acknowledged_removals run host vol snap s :
  let rows := unpushed_removals_for_run (run_id run) chunk_size s in
  unique removal_key (removals s) →
  acknowledged [removal_batch host vol snap rows] s (mark_removals_pushed (removal_key <$> rows) s).
Proof.
  intros rows Hu. destruct (unpushed_removals_for_run_spec (run_id run) chunk_size s Hu) as [Hn Hf].
  exists [], rows. cbn. rewrite mark_pushed_nil, app_nil_r. repeat split; (done || constructor).
Qed.

Definition keys_unique (s : StagingStore) : Prop := unique entry_key (entries s) ∧ unique removal_key (removals s).

(** What a loop that sends batches promises: the batches it logged and the rows it marked agree, and
    it stops before its fuel does. *)
Definition sends (sent : list IngestBatch) (s s' : StagingStore) {A} (out : result PushFailure A) (ok : A → Prop) : Prop :=
  acknowledged sent s s' ∧ match out with Ok x => ok x | Err e => e ≠ Diverges end.

Lemma drain_entries_sends fuel run host vol snap total s w log out s' w' log' :
  keys_unique s → length (unpushed_of (run_id run) s) < fuel →
  drain_entries logged sleep_logged random_logged retry chunk_size fuel run host vol snap total s (w, log)
    = (out, s', (w', log')) →
  ∃ sent, log' = log ++ sent ∧
    sends sent s s' out (λ '(_, n), n = total + Z.of_nat (length (concat (b_entries <$> sent))) ∧
                                    (chunk_size ≠ 0 → unpushed_of (run_id run) s' = []))%Z.
Proof.
  revert snap total s w log. induction fuel as [|fuel IH]; intros snap total s w log Hu Hl; [lia|].
  cbn [drain_entries]. destruct (unpushed_for_run (run_id run) chunk_size s) as [|x l] eqn:Er.
  { intros [= <- <- <- <-]. exists []. rewrite app_nil_r. split; [done|].
    split; [apply acknowledged_refl|]. cbn. split; [lia|]. intros Hc. by apply (queue_empty chunk_size). }
  rewrite <- Er. destruct (mapM _row_to_entry _) as [fs|e] eqn:Ef.
  2:{ intros [= <- <- <- <-]. exists []. rewrite app_nil_r. by repeat split; [apply acknowledged_refl|]. }
  apply rows_to_entries in Ef as ->.
  destruct (push _ _ _ _ _ (w, log)) as [o [w1 log1]] eqn:Ep.
  apply push_logged in Ep as [(res & -> & ->)|[Ho ->]].
  2:{ destruct o as [|e]; [naive_solver|]. intros [= <- <- <- <-]. exists []. rewrite app_nil_r.
      split; [done|]. split; [apply acknowledged_refl|naive_solver]. }
  intros H. pose proof (acknowledged_entries run host vol snap s (proj1 Hu)) as Ha.
  apply IH in H as (sent & -> & Hs & Ho).
  - rewrite <- app_assoc. eexists. split; [done|]. split; [by eapply acknowledged_trans|].
    destruct out as [[sn n]|]; [|done]. destruct Ho as [-> Ho]. split; [|done].
    cbn. rewrite length_app, length_fmap. lia.
  - by eapply acknowledged_unique.
  - unfold unpushed_for_run in *. pose proof (advance_shrinks chunk_size (unpushed_of (run_id run) s)) as Hd.
    rewrite Er in Hd. rewrite sql_limit_take, unpushed_of_advance by apply Hu. specialize (Hd ltac:(done)). lia.
Qed.

Lemma removal_loop_sends fuel run host vol snap s w log out s' w' log' :
  keys_unique s → length (unpushed_removals_of (run_id run) s) < fuel →
  removal_loop logged sleep_logged random_logged retry chunk_size fuel run host vol snap s (w, log)
    = (out, s', (w', log')) →
  ∃ sent, log' = log ++ sent ∧
    sends sent s s' out (λ _, concat (b_entries <$> sent) = [] ∧
                              (chunk_size ≠ 0%Z → unpushed_removals_of (run_id run) s' = [])).
Proof.
  revert s w log. induction fuel as [|fuel IH]; intros s w log Hu Hl; [lia|].
  cbn [removal_loop]. destruct (unpushed_removals_for_run (run_id run) chunk_size s) as [|x l] eqn:Er.
  { intros [= <- <- <- <-]. exists []. rewrite app_nil_r. split; [done|].
    split; [apply acknowledged_refl|]. cbn. split; [done|]. intros Hc. by apply (queue_empty chunk_size). }
  rewrite <- Er. destruct (push _ _ _ _ _ (w, log)) as [o [w1 log1]] eqn:Ep.
  apply push_logged in Ep as [(res & -> & ->)|[Ho ->]].
  2:{ destruct o as [|e]; [naive_solver|]. intros [= <- <- <- <-]. exists []. rewrite app_nil_r.
      split; [done|]. split; [apply acknowledged_refl|naive_solver]. }
  intros H. pose proof (acknowledged_removals run host vol snap s (proj2 Hu)) as Ha.
  apply IH in H as (sent & -> & Hs & Ho).
  - rewrite <- app_assoc. eexists. split; [done|]. split; [by eapply acknowledged_trans|]. by destruct out.
  - by eapply acknowledged_unique.
  - unfold unpushed_removals_for_run in *.
    pose proof (advance_shrinks chunk_size (unpushed_removals_of (run_id run) s)) as Hd.
    rewrite Er in Hd. rewrite sql_limit_take, unpushed_removals_of_advance by apply Hu. specialize (Hd ltac:(done)). lia.
Qed.

(** Neither queue of a run holds a row. *)
Definition drained (s : StagingStore) (run : scan_run) : Prop :=
  unpushed_of (run_id run) s = [] ∧ unpushed_removals_of (run_id run) s = [].

Lemma acknowledged_drained log s s' run : acknowledged log s s' → drained s run → drained s' run.
Proof. intros Ha [He Hr]. destruct (acknowledged_queue _ _ _ (run_id run) Ha). split; auto. Qed.

Lemma queue_bound run s : length (unpushed_of run s) < S (length (entries s)).
Proof. apply Nat.lt_succ_r, length_filter. Qed.
Lemma removal_queue_bound run s : length (unpushed_removals_of run s) < S (length (removals s)).
Proof. apply Nat.lt_succ_r, length_filter. Qed.

Definition count (sent : list IngestBatch) : Z := Z.of_nat (length (concat (b_entries <$> sent))).

Lemma count_app a b : count (a ++ b) = (count a + count b)%Z.
Proof. unfold count. rewrite fmap_app, concat_app, length_app. lia. Qed.

Lemma drain_run_sends facts run total s w log out s' w' log' :
  keys_unique s →
  drain_run logged sleep_logged random_logged retry chunk_size facts run total s (w, log) = (out, s', (w', log')) →
  ∃ sent, log' = log ++ sent ∧
    sends sent s s' out (λ n, n = (total + count sent)%Z ∧ (chunk_size ≠ 0%Z → drained s' run)).
Proof.
  intros Hu. unfold drain_run, _drain_removals.
  assert (∀ e, ∃ sent, log = log ++ sent ∧
    sends sent s s (Err (BadFrame e)) (λ n, n = (total + count sent)%Z ∧ (chunk_size ≠ 0%Z → drained s run))) as Hbad.
  { intros e. exists []. rewrite app_nil_r. repeat split; [apply acknowledged_refl|done]. }
  unfold lift. destruct (host_frame run facts) as [host|]; [|by intros [= <- <- <- <-]].
  destruct (_volume_frame run) as [vol|]; [|by intros [= <- <- <- <-]].
  destruct (drain_entries _ _ _ _ _ _ _ _ _ _ _ s (w, log)) as [[o s1] [w1 log1]] eqn:Ee.
  apply drain_entries_sends in Ee as (sent1 & -> & Ha1 & Ho1); [|done|apply queue_bound].
  destruct o as [[sn n]|e]; [|by intros [= <- <- <- <-]; exists sent1].
  destruct Ho1 as [-> Hd1]. destruct (host_frame run None) as [host'|e].
  2:{ intros [= <- <- <- <-]. by exists sent1. }
  destruct (removal_loop _ _ _ _ _ _ _ _ _ _ s1 (w1, _)) as [[o2 s2] [w2 log2]] eqn:Er.
  apply removal_loop_sends in Er as (sent2 & -> & Ha2 & Ho2);
    [|by eapply acknowledged_unique|apply removal_queue_bound].
  rewrite <- app_assoc. pose proof (acknowledged_trans _ _ _ _ _ Ha1 Ha2) as Ha.
  destruct o2 as [[]|e]; intros [= <- <- <- <-]; exists (sent1 ++ sent2); repeat split; [done| | | |done..].
  - destruct Ho2 as [Hz _]. rewrite count_app. unfold count. rewrite Hz. cbn. lia.
  - by apply (acknowledged_queue _ _ _ (run_id run) Ha2), Hd1.
  - by apply Ho2.
Qed.

Lemma drain_runs_sends facts rs total s w log out s' w' log' :
  keys_unique s →
  drain_runs logged sleep_logged random_logged retry chunk_size facts rs total s (w, log) = (out, s', (w', log')) →
  ∃ sent, log' = log ++ sent ∧
    sends sent s s' out (λ n, n = (total + count sent)%Z ∧ (chunk_size ≠ 0%Z → Forall (drained s') rs)).
Proof.
  revert total s w log. induction rs as [|run rs IH]; intros total s w log Hu; cbn [drain_runs].
  { intros [= <- <- <- <-]. exists []. rewrite app_nil_r. split; [done|]. split; [apply acknowledged_refl|].
    cbn. split; [unfold count; cbn; lia|]. by constructor. }
  destruct (drain_run _ _ _ _ _ _ _ _ s (w, log)) as [[o s1] [w1 log1]] eqn:Ee.
  apply drain_run_sends in Ee as (sent1 & -> & Ha1 & Ho1); [|done].
  destruct o as [n|e]; [|by intros [= <- <- <- <-]; exists sent1]. destruct Ho1 as [-> Hd1].
  intros H. apply IH in H as (sent2 & -> & Ha2 & Ho2); [|by eapply acknowledged_unique].
  rewrite <- app_assoc. exists (sent1 ++ sent2). split; [done|]. split; [by eapply acknowledged_trans|].
  destruct out as [n|]; [|done]. destruct Ho2 as [-> Hd2]. split; [rewrite count_app; lia|].
  intros Hc. constructor; [|by apply Hd2]. by eapply acknowledged_drained; [exact Ha2|apply Hd1].
Qed.

(** What a drain changes is exactly what the server acknowledged: the rows whose mark it sets are the
    rows the acknowledged batches carry, each of them once and none that was pushed before, whether the
    drain ends well, gives up, or stops at a bad frame. *)
Theorem drain_marks_acknowledged facts s w out s' w' log :
  keys_unique s →
  drain logged sleep_logged random_logged retry chunk_size facts s (w, []) = (out, s', (w', log)) →
  acknowledged log s s'.
Proof. intros Hu H. by apply drain_runs_sends in H as (sent & -> & Ha & _). Qed.

(** C26: A drain ends: with the chunk size the agent uses each loop stops, and a drain that returns has left
    no run pending and counts the entries it sent. *)
Theorem drain_complete facts s w out s' w' log :
  keys_unique s → chunk_size ≠ 0%Z →
  drain logged sleep_logged random_logged retry chunk_size facts s (w, []) = (out, s', (w', log)) →
  match out with
  | Ok n => n = count log ∧ pending_runs s' = []
  | Err e => e ≠ Diverges
  end.
Proof.
  intros Hu Hc H. apply drain_runs_sends in H as (sent & -> & Ha & Ho); [|done].
  destruct out as [n|e]; [|done]. destruct Ho as [-> Ho]. split; [done|]. specialize (Ho Hc).
  rewrite Forall_forall in Ho. apply pending_runs_none. intros run Hr. apply not_pending. rewrite (proj1 (acknowledged_runs _ _ _ Ha)) in Hr.
  destruct (pending s run) eqn:Hp; [|by eapply acknowledged_drained; [exact Ha|apply not_pending]].
  apply Ho, list_elem_of_filter. by rewrite Hp.
Qed.
End Log.

(** ** How long a push tries *)

Section Bounded.
Context {W : Type} (post : IngestBatch → W → reply * W) (sleep : Q → W → W) (random : W → Q * W).
Context (retry : RetryPolicy).

Inductive effect := Posted | Slept (d : Q).

Definition post_traced (b : IngestBatch) (w : W * list effect) : reply * (W * list effect) :=
  let '(r, w') := post b w.1 in (r, (w', w.2 ++ [Posted])).
Definition sleep_traced (d : Q) (w : W * list effect) : W * list effect := (sleep d w.1, w.2 ++ [Slept d]).
Definition random_traced (w : W * list effect) : Q * (W * list effect) :=
  let '(u, w') := random w.1 in (u, (w', w.2)).

(** A POST, then a pause and a POST for each retry. *)
Definition tries (ds : list Q) : list effect := Posted :: concat ((λ d, [Slept d; Posted]) <$> ds).

Definition backoff (attempt : Z) : Q := Qmin (max_delay retry) (base_delay retry * inject_Z (2 ^ (attempt - 1))).

Context (unit_interval : ∀ w, (0 <= (random w).1)%Q ∧ ((random w).1 < 1)%Q).
Context (delays_nonneg : (0 <= base_delay retry)%Q ∧ (0 <= max_delay retry)%Q).

Definition delay_ok (attempt : Z) (d : Q) : Prop := (backoff attempt * (1#2) <= d)%Q ∧ (d <= backoff attempt)%Q.

Lemma backoff_nonneg a : (0 <= backoff a)%Q.
Proof.
  unfold backoff. destruct delays_nonneg as [Hb Hm]. apply Q.min_glb; [done|].
  apply Qmult_le_0_compat; [done|]. change 0%Q with (inject_Z 0). rewrite <- Zle_Qle. apply Z.pow_nonneg. lia.
Qed.

Lemma delay_for_ok a u : (0 <= u)%Q → (u < 1)%Q → delay_ok a (delay_for retry a u).
Proof.
  intros H0 H1. pose proof (backoff_nonneg a) as Hr. unfold delay_ok, delay_for. fold (backoff a).
  generalize dependent (backoff a). intros r Hr. split.
  - assert (0 <= r * u)%Q by (by apply Qmult_le_0_compat). unfold Qdiv. change (/ 2)%Q with (1#2)%Q. lra.
  - assert (0 <= r * (1 - u))%Q by (apply Qmult_le_0_compat; lra). unfold Qdiv. change (/ 2)%Q with (1#2)%Q. lra.
Qed.

Lemma push_loop_bounded n a b w l out w' l' :
  (1 ≤ a)%Z → (a + Z.of_nat (S n) = max_attempts retry + 1)%Z →
  push_loop post_traced sleep_traced random_traced retry (S n) a b (w, l) = (out, (w', l')) →
  ∃ ds, l' = l ++ tries ds ∧ length ds ≤ n ∧ (out = Err PushError → length ds = n) ∧
        ∀ i d, ds !! i = Some d → delay_ok (a + Z.of_nat i) d.
Proof.
  revert a w l. induction n as [|n IH]; intros a w l Ha Hn; cbn [push_loop];
    unfold post_traced at 1; cbn [fst snd]; destruct (post b w) as [[r| |] w1];
    try (intros [= <- <- <-]; exists []; split_and!; [done|cbn; lia|done|done]).
  - destruct (Z.leb_spec (max_attempts retry) a); [|lia]. intros [= <- <- <-]. by exists [].
  - destruct (Z.leb_spec (max_attempts retry) a); [lia|]. unfold random_traced at 1. cbn [fst snd].
    pose proof (unit_interval w1) as [H0 H1]. destruct (random w1) as [u w2]. cbn [fst] in H0, H1.
    unfold sleep_traced at 1. cbn [fst snd]. intros Hp. apply IH in Hp as (ds & -> & Hl & He & Hd); [|lia|lia].
    exists (delay_for retry a u :: ds). split_and!; [by rewrite <- !app_assoc|cbn; lia| |].
    + intros ->. cbn. by rewrite He.
    + intros [|i] d; [|by intros Hi; replace (a + Z.of_nat (S i))%Z with (a + 1 + Z.of_nat i)%Z by lia; apply Hd].
      cbn. intros [= <-]. rewrite Z.add_0_r. by apply delay_for_ok.
Qed.

(** A push POSTs between one and [max_attempts] times and pauses between two POSTs, the i-th pause
    between half of and all of min(max_delay, base_delay * 2^i); it gives up only after the last attempt. *)
Theorem push_bounded b w out w' l :
  (1 ≤ max_attempts retry)%Z →
  push post_traced sleep_traced random_traced retry b (w, []) = (out, (w', l)) →
  ∃ ds, l = tries ds ∧ (Z.of_nat (length ds) < max_attempts retry)%Z ∧
        (out = Err PushError → Z.of_nat (length ds) = max_attempts retry - 1)%Z ∧
        ∀ i d, ds !! i = Some d → delay_ok (1 + Z.of_nat i) d.
Proof.
  intros Hm. unfold push. destruct (Z.to_nat (max_attempts retry)) as [|n] eqn:En; [lia|].
  intros H. apply push_loop_bounded in H as (ds & -> & Hl & He & Hd); [|lia..].
  exists ds. split_and!; [done|lia| |done]. intros E. specialize (He E). lia.
Qed.
End Bounded.

(** ** Examples *)

Definition demo_fs (path name : string) (inode : Z) : FsEntry :=
  mk_fs path name false false 10 10 100 100 0 0 inode 5 "{}" None None.

(** Two files and a removal staged in one run. *)
Definition demo_queue : StagingStore :=
  let '(r, s) := start_run "h" "/v" METADATA "/v" 1 None None empty_store in
  let '(_, s) := stage_batch r "h" "/v" [demo_fs "/v/a" "a" 1; demo_fs "/v/b" "b" 2] s in
  (stage_removals r "h" "/v" [(5%Z, 9%Z, "/v/old")] s).2.

(** A server that acknowledges the first [w] requests. *)
Definition demo_server (b : IngestBatch) (w : nat) : reply * nat :=
  match w with O => (Refused, O) | S w => (Acked (mk_result 7 1 1 0 0 0 0), w) end.
Definition demo_sleep (_ : Q) (w : nat) : nat := w.
Definition demo_random (w : nat) : Q * nat := (1#2, w)%Q.
Definition demo_retry : RetryPolicy := mk_policy 3 1 30.

Definition demo_drain (w : nat) : outcome Z :=
  drain (logged demo_server) (sleep_logged demo_sleep) (random_logged demo_random) demo_retry 1 None demo_queue (w, []).

Lemma demo_keys : keys_unique demo_queue.
Proof. split; unfold unique; by_compute. Qed.

(** The server takes one batch and goes away: one row is marked. *)
Lemma drain_marks_acknowledged_witness :
  (demo_drain 1).1.1 = Err PushError ∧ length (demo_drain 1).2.2 = 1 ∧
  acknowledged (demo_drain 1).2.2 demo_queue (demo_drain 1).1.2.
Proof.
  split; [by_compute|]. split; [by_compute|].
  refine (drain_marks_acknowledged demo_server demo_sleep demo_random demo_retry 1 None demo_queue 1
            (demo_drain 1).1.1 (demo_drain 1).1.2 (demo_drain 1).2.1 (demo_drain 1).2.2 demo_keys _).
  by_compute.
Defined.

Lemma drain_complete_witness :
  (demo_drain 3).1.1 = Ok 2%Z ∧ pending_runs (demo_drain 3).1.2 = [].
Proof.
  split; [by_compute|].
  refine (proj2 (drain_complete demo_server demo_sleep demo_random demo_retry 1 None demo_queue 3
            (Ok 2%Z) (demo_drain 3).1.2 (demo_drain 3).2.1 (demo_drain 3).2.2 demo_keys _ _)); [discriminate|].
  by_compute.
Defined.

Lemma push_bounded_witness :
  let b := mk_batch (mk_host_frame "h" None None None) (mk_volume_frame "/v" "x" "x" "x" None None None 0 0 0 None)
             METADATA None [] [] [] in
  let o := push (post_traced demo_server) (sleep_traced demo_sleep) (random_traced demo_random) demo_retry b (0, []) in
  o.1 = Err PushError ∧ ∃ ds, o.2.2 = tries ds ∧ Z.of_nat (length ds) = 2%Z.
Proof.
  intros b o. split; [by_compute|].
  destruct (push_bounded demo_server demo_sleep demo_random demo_retry
              ltac:(intros w; split; vm_compute; [discriminate|reflexivity])
              ltac:(split; vm_compute; discriminate) b 0 (Err PushError) 0 o.2.2
              ltac:(vm_compute; discriminate) ltac:(vm_compute; reflexivity)) as (ds & H & _ & He & _).
  exists ds. split; [exact H|]. rewrite (He eq_refl). reflexivity.
Defined.
