(* ===== verification/Json.v ===== *)
(** JSON values and [json.dumps(..., sort_keys=True, separators=(",", ":"))].

    The canonical serialisations of the code (audit payloads, signed jobs, file grants) are this
    function applied to a dict.  The main result, [dumps_inj], is that it is injective up to the
    order of dict items: the bytes determine the value, so signing or hashing the bytes covers
    every field.  Floats are outside the model (no canonical payload of the code contains one). *)

From stdpp Require Export pretty.
From S2P Require Import Prelude PyStr.

Set Warnings "-register-all".

(** ** Values *)

Inductive json :=
| JNull
| JBool (b : bool)
| JInt (z : Z)
| JStr (s : string)
| JList (l : list json)
| JObj (fields : list (string * json)).

#[export] Instance json_eq_dec (x y : json) : Decision (x = y).
Proof.
  unfold Decision. revert x y. fix go 1. intros x y. decide equality.
  - apply Bool.bool_dec.
  - apply Z.eq_dec.
  - apply String.string_dec.
  - apply (List.list_eq_dec go).
  - apply (List.list_eq_dec (λ a b : string * json,
      match a, b with
      | (s, v), (t, w) =>
          match String.string_dec s t, go v w with
          | left Hs, left Hv => left (f_equal2 pair Hs Hv)
          | right Hs, _ => right (λ H : (s, v) = (t, w), Hs (f_equal fst H))
          | _, right Hv => right (λ H : (s, v) = (t, w), Hv (f_equal snd H))
          end
      end)).
Defined.

(** The induction principle that reaches under the lists. *)
Section json_ind.
Context (P : json → Prop).
Context (Hnull : P JNull) (Hbool : ∀ b, P (JBool b)) (Hint : ∀ z, P (JInt z))
        (Hstr : ∀ s, P (JStr s)) (Hlist : ∀ l, Forall P l → P (JList l))
        (Hobj : ∀ kvs, Forall (λ kv, P kv.2) kvs → P (JObj kvs)).

Fixpoint json_ind' (v : json) : P v :=
  match v with
  | JNull => Hnull
  | JBool b => Hbool b
  | JInt z => Hint z
  | JStr s => Hstr s
  | JList l => Hlist l ((fix go l : Forall P l :=
      match l with
      | [] => Forall_nil_2 _
      | x :: l' => Forall_cons_2 _ _ _ (json_ind' x) (go l')
      end) l)
  | JObj kvs => Hobj kvs ((fix go l : Forall (λ kv, P kv.2) l :=
      match l with
      | [] => Forall_nil_2 _
      | x :: l' => Forall_cons_2 _ _ _ (json_ind' x.2) (go l')
      end) kvs)
  end.
End json_ind.

(** ** Strings: [json.encoder.py_encode_basestring_ascii] *)

(** One character inside quotes: the two-character escapes, then [\u00XX] for whatever is not
    printable ASCII, then the character itself. *)
Definition esc_char (c : ascii) : string :=
  let n := N_of_ascii c in
  if (n =? 34)%N then "\" +:+ String c ""
  else if (n =? 92)%N then "\\"
  else if (n =? 10)%N then "\n"
  else if (n =? 13)%N then "\r"
  else if (n =? 9)%N then "\t"
  else if (n =? 12)%N then "\f"
  else if (n =? 8)%N then "\b"
  else if ((32 <=? n) && (n <=? 126))%N then String c ""
  else "\u00" +:+ String (hex_digit (n / 16)) (String (hex_digit (n mod 16)) "").

Fixpoint esc (s : string) : string :=
  match s with "" => "" | String c s' => esc_char c +:+ esc s' end.

Definition quote_char : ascii := ascii_of_N 34.
Definition quote (s : string) : string := String quote_char (esc s +:+ String quote_char "").
#[global] Arguments quote : simpl never.

(** ** Serialisation *)

Fixpoint enc (v : json) : string :=
  match v with
  | JNull => "null"
  | JBool true => "true"
  | JBool false => "false"
  | JInt z => pretty z
  | JStr s => quote s
  | JList l => "[" +:+ join "," (enc <$> l) +:+ "]"
  | JObj kvs => "{" +:+ join "," ((λ kv, quote kv.1 +:+ ":" +:+ enc kv.2) <$> kvs) +:+ "}"
  end.

(** [sort_keys=True]: the items of every dict, recursively, in key order. *)
Fixpoint insert_item (x : string * json) (l : list (string * json)) : list (string * json) :=
  match l with
  | [] => [x]
  | y :: l' => if bool_decide (String.le x.1 y.1) then x :: l else y :: insert_item x l'
  end.

Definition sort_items (l : list (string * json)) : list (string * json) := foldr insert_item [] l.

Fixpoint sort_json (v : json) : json :=
  match v with
  | JList l => JList (sort_json <$> l)
  | JObj kvs => JObj (sort_items ((λ kv, (kv.1, sort_json kv.2)) <$> kvs))
  | _ => v
  end.

Definition dumps (v : json) : string := enc (sort_json v).

(** ** Injectivity *)

(** *** Escaping: every character can be read back off the front *)

Definition hex_val (c : ascii) : N :=
  let n := N_of_ascii c in if (n <? 58)%N then (n - 48)%N else (n - 87)%N.

(** The reader used in the proofs: the first escaped character and the rest. *)
Definition unesc (s : string) : option (ascii * string) :=
  match s with
  | String c r =>
      if (N_of_ascii c =? 92)%N then
        match r with
        | String d r' =>
            let n := N_of_ascii d in
            if (n =? 34)%N then Some (d, r') else if (n =? 92)%N then Some (d, r')
            else if (n =? 110)%N then Some (ascii_of_N 10, r')
            else if (n =? 114)%N then Some (ascii_of_N 13, r')
            else if (n =? 116)%N then Some (ascii_of_N 9, r')
            else if (n =? 102)%N then Some (ascii_of_N 12, r')
            else if (n =? 98)%N then Some (ascii_of_N 8, r')
            else match r' with
                 | String _ (String _ (String h (String l r''))) =>
                     Some (ascii_of_N (hex_val h * 16 + hex_val l), r'')
                 | _ => None
                 end
        | "" => None
        end
      else Some (c, r)
  | "" => None
  end.

Lemma unesc_esc_char c r : unesc (esc_char c +:+ r) = Some (c, r).
Proof. destruct c as [[] [] [] [] [] [] [] []]; reflexivity. Qed.

(** An escaped character never starts with a quote and holds no control character. *)
Lemma esc_char_head c r : ∃ d t, esc_char c +:+ r = String d t ∧ d ≠ quote_char.
Proof. destruct c as [[] [] [] [] [] [] [] []]; (do 2 eexists; split; [reflexivity|discriminate]). Qed.

Definition printable (c : ascii) : bool := ((32 <=? N_of_ascii c) && (N_of_ascii c <=? 126))%N.

Lemma esc_char_printable c : s_all printable (esc_char c) = true.
Proof. destruct c as [[] [] [] [] [] [] [] []]; reflexivity. Qed.

Lemma esc_inj s t r1 r2 :
  esc s +:+ String quote_char r1 = esc t +:+ String quote_char r2 → s = t ∧ r1 = r2.
Proof.
  revert t. induction s as [|c s IH]; intros [|d t]; cbn [esc]; rewrite ?app_assoc_s; intros H.
  - by simplify_eq/=.
  - destruct (esc_char_head d (esc t +:+ String quote_char r2)) as (e & u & E & ?).
    rewrite E in H. simplify_eq/=.
  - destruct (esc_char_head c (esc s +:+ String quote_char r1)) as (e & u & E & ?).
    rewrite E in H. simplify_eq/=.
  - apply (f_equal unesc) in H. rewrite !unesc_esc_char in H. injection H as -> H.
    by apply IH in H as [-> ->].
Qed.

Lemma quote_app s r : quote s +:+ r = String quote_char (esc s +:+ String quote_char r).
Proof. unfold quote. simpl. by rewrite app_assoc_s. Qed.

Lemma quote_inj s t r1 r2 : quote s +:+ r1 = quote t +:+ r2 → s = t ∧ r1 = r2.
Proof. rewrite !quote_app. intros [= H]. by apply esc_inj in H. Qed.

(** *** Integers *)

Definition int_char (c : ascii) : bool := is_digit c || Ascii.eqb c "-".

Lemma pretty_N_char_digit n : int_char (pretty_N_char n) = true.
Proof. unfold pretty_N_char. repeat case_match; reflexivity. Qed.

Lemma pretty_N_go_int n s : s_all int_char s = true → s_all int_char (pretty_N_go n s) = true.
Proof.
  revert s. induction (N.lt_wf_0 n) as [n _ IH]; intros s Hs.
  destruct (decide (n = 0)%N) as [->|]; [by rewrite pretty_N_go_0|].
  rewrite pretty_N_go_step by lia. apply IH.
  - apply N.div_lt; lia.
  - simpl. by rewrite pretty_N_char_digit.
Qed.

Lemma pretty_N_go_nonempty n s : s ≠ "" → pretty_N_go n s ≠ "".
Proof.
  revert s. induction (N.lt_wf_0 n) as [n _ IH]; intros s Hs.
  destruct (decide (n = 0)%N) as [->|]; [by rewrite pretty_N_go_0|].
  rewrite pretty_N_go_step by lia. apply IH; [apply N.div_lt; lia|done].
Qed.

Lemma pretty_N_int (n : N) : s_all int_char (pretty n) = true.
Proof. unfold pretty, pretty_N. case_decide; [done|]. by apply pretty_N_go_int. Qed.

Lemma pretty_N_nonempty (n : N) : pretty n ≠ "".
Proof.
  unfold pretty, pretty_N. case_decide; [done|].
  rewrite pretty_N_go_step by lia. by apply pretty_N_go_nonempty.
Qed.

Lemma pretty_Z_int (z : Z) : s_all int_char (pretty z) = true.
Proof.
  destruct z as [|p|p]; [done|apply (pretty_N_int (Npos p))|].
  change (pretty (Zneg p)) with ("-" +:+ pretty (Npos p)). rewrite s_all_app. by rewrite pretty_N_int.
Qed.

Lemma pretty_Z_head (z : Z) : ∃ c s, pretty z = String c s ∧ int_char c = true.
Proof.
  pose proof (pretty_Z_int z) as H.
  assert (pretty z ≠ "") as Hne.
  { destruct z as [|p|p]; [done|apply (pretty_N_nonempty (Npos p))|done]. }
  destruct (pretty z) as [|c s]; [done|]. simpl in H. to_prop. eauto.
Qed.

(** *** Values *)

(** What may follow an encoded value: nothing, or a character that closes or separates. *)
Definition is_stop (c : ascii) : bool := Ascii.eqb c "," || Ascii.eqb c "]" || Ascii.eqb c "}".
Definition stop (r : string) : bool := match r with "" => true | String c _ => is_stop c end.

(** The first character of an encoding tells which kind of value it is. *)
Definition kind (v : json) : nat :=
  match v with
  | JNull => 0 | JBool true => 1 | JBool false => 2 | JInt _ => 3 | JStr _ => 4
  | JList _ => 5 | JObj _ => 6
  end.

Definition kind_of_char (c : ascii) : nat :=
  if Ascii.eqb c "n" then 0 else if Ascii.eqb c "t" then 1 else if Ascii.eqb c "f" then 2
  else if int_char c then 3 else if Ascii.eqb c quote_char then 4
  else if Ascii.eqb c "[" then 5 else if Ascii.eqb c "{" then 6 else 7.

Lemma int_char_kind c : int_char c = true → kind_of_char c = 3.
Proof. destruct c as [[] [] [] [] [] [] [] []]; (discriminate || reflexivity). Qed.

Lemma stop_kind c : is_stop c = true → kind_of_char c = 7.
Proof. destruct c as [[] [] [] [] [] [] [] []]; (discriminate || reflexivity). Qed.

Lemma stop_not_int c : is_stop c = true → int_char c = false.
Proof. destruct c as [[] [] [] [] [] [] [] []]; (discriminate || reflexivity). Qed.

Lemma enc_head v : ∃ c s, enc v = String c s ∧ kind_of_char c = kind v.
Proof.
  destruct v as [|[]|z|s|l|kvs]; try (do 2 eexists; split; [reflexivity|reflexivity]).
  destruct (pretty_Z_head z) as (c & s & E & Hc). exists c, s. split; [done|].
  by apply int_char_kind.
Qed.

(** A prefix-code encoder: reading one element back off the front is unambiguous. *)
Definition prefix_code {A} (f : A → string) (x : A) : Prop :=
  ∀ y r1 r2, stop r1 = true → stop r2 = true → f x +:+ r1 = f y +:+ r2 → x = y ∧ r1 = r2.

Lemma join_prefix_code {A} (f : A → string) (close : ascii) l1 l2 r1 r2 :
  is_stop close = true → close ≠ ","%char →
  (∀ x, ∃ c s, f x = String c s ∧ kind_of_char c ≠ 7) →
  Forall (prefix_code f) l1 →
  join "," (f <$> l1) +:+ String close r1 = join "," (f <$> l2) +:+ String close r2 →
  l1 = l2 ∧ r1 = r2.
Proof.
  intros Hstop Hcomma Hhead Hl. pose proof (stop_kind _ Hstop) as Hk.
  assert (∀ x l r, ∃ c s, join "," (f <$> x :: l) +:+ String close r = String c s ∧
                          kind_of_char c ≠ 7) as Hcons.
  { intros x [|y l] r; destruct (Hhead x) as (c & s & E & ?); exists c;
      [exists (s +:+ String close r)|
       exists (s +:+ "," +:+ join "," (f <$> y :: l) +:+ String close r)]; split; try done;
      rewrite ?fmap_cons, ?join_cons; simpl; rewrite E, ?app_assoc_s; done. }
  revert l2. induction Hl as [|x l1 Hx Hl IH]; intros [|y l2] H.
  - by simplify_eq/=.
  - destruct (Hcons y l2 r2) as (c & s & E & ?). rewrite E in H. simplify_eq/=.
  - destruct (Hcons x l1 r1) as (c & s & E & ?). rewrite E in H. simplify_eq/=.
  - set (rest := λ (l : list A) r, match l with [] => String close r
                  | _ => String ","%char (join "," (f <$> l) +:+ String close r) end).
    assert (∀ z l r, join "," (f <$> z :: l) +:+ String close r = f z +:+ rest l r) as Erest.
    { intros z [|z' l] r; [done|]. rewrite !fmap_cons, join_cons, !app_assoc_s. done. }
    rewrite !Erest in H.
    apply Hx in H as [-> H]; [|by destruct l1|by destruct l2].
    destruct l1, l2; unfold rest in H.
    + by apply String_inj in H as [_ ->].
    + by apply String_inj in H as [? _].
    + by apply String_inj in H as [? _].
    + apply String_inj in H as [_ H]. by apply IH in H as [-> ->].
Qed.

Definition enc_item (kv : string * json) : string := quote kv.1 +:+ ":" +:+ enc kv.2.

Lemma enc_item_code kv : prefix_code enc kv.2 → prefix_code enc_item kv.
Proof.
  destruct kv as [k v]. cbn [snd]. intros Hv [k' v'] r1 r2 H1 H2. unfold enc_item. cbn [fst snd].
  rewrite !app_assoc_s. intros H. apply quote_inj in H as [-> H]. apply String_inj in H as [_ H].
  apply Hv in H as [-> ->]; done.
Qed.

Lemma enc_item_head kv : ∃ c s, enc_item kv = String c s ∧ kind_of_char c ≠ 7.
Proof. unfold enc_item. rewrite quote_app. eauto. Qed.

Lemma enc_kind v w r1 r2 : enc v +:+ r1 = enc w +:+ r2 → kind v = kind w.
Proof.
  destruct (enc_head v) as (c & s & -> & <-), (enc_head w) as (d & t & -> & <-).
  intros [-> _]%String_inj. done.
Qed.

Lemma enc_list_app l r : enc (JList l) +:+ r = String "[" (join "," (enc <$> l) +:+ String "]" r).
Proof. change (enc (JList l)) with ("[" +:+ join "," (enc <$> l) +:+ "]"). by rewrite !app_assoc_s. Qed.

Lemma enc_obj_app kvs r :
  enc (JObj kvs) +:+ r = String "{" (join "," (enc_item <$> kvs) +:+ String "}" r).
Proof.
  change (enc (JObj kvs)) with ("{" +:+ join "," (enc_item <$> kvs) +:+ "}"). by rewrite !app_assoc_s.
Qed.

Lemma enc_int_code z : prefix_code enc (JInt z).
Proof.
  intros w r1 r2 H1 H2 H. pose proof (enc_kind _ _ _ _ H) as Hk.
  destruct w as [|[]|z'| | |]; try discriminate Hk.
  apply (span_inj int_char) in H as [?%pretty_Z_inj ->];
    [by subst|apply pretty_Z_int|apply pretty_Z_int|..].
  - destruct r1; [done|]. by rewrite stop_not_int.
  - destruct r2; [done|]. by rewrite stop_not_int.
Qed.

Lemma enc_prefix_code v : prefix_code enc v.
Proof.
  induction v as [|b|z|s|l IH|kvs IH] using json_ind'; try apply enc_int_code;
    intros w r1 r2 H1 H2 H; pose proof (enc_kind _ _ _ _ H) as Hk.
  - destruct w as [|[]| | | |]; try discriminate Hk. by apply (app_inv_head_s "null") in H as ->.
  - destruct b, w as [|[]| | | |]; try discriminate Hk.
    + by apply (app_inv_head_s "true") in H as ->.
    + by apply (app_inv_head_s "false") in H as ->.
  - destruct w as [|[]| | | |]; try discriminate Hk. by apply quote_inj in H as [-> ->].
  - destruct w as [|[]| | | |]; try discriminate Hk. rewrite !enc_list_app in H.
    apply String_inj in H as [_ H]. apply join_prefix_code in H as [-> ->]; try done.
    intros x. destruct (enc_head x) as (c & t & E & Hc). exists c, t. split; [done|].
    rewrite Hc. by destruct x as [|[]| | | |].
  - destruct w as [|[]| | | |]; try discriminate Hk. rewrite !enc_obj_app in H.
    apply String_inj in H as [_ H]. apply join_prefix_code in H as [-> ->]; try done.
    + apply enc_item_head.
    + eapply Forall_impl; [exact IH|]. intros kv. apply enc_item_code.
Qed.

Lemma enc_inj v w : enc v = enc w → v = w.
Proof.
  intros H. apply (enc_prefix_code v w "" ""); [done|done|]. by rewrite !app_empty_r.
Qed.

(** The text of [dumps] determines the value up to the order of dict items. *)
Lemma dumps_inj v w : dumps v = dumps w → sort_json v = sort_json w.
Proof. apply enc_inj. Qed.

(** *** The text is printable ASCII: no control character, no NUL *)

Lemma esc_printable s : s_all printable (esc s) = true.
Proof. induction s; simpl; [done|]. by rewrite s_all_app, esc_char_printable. Qed.

Lemma quote_printable s : s_all printable (quote s) = true.
Proof. unfold quote. simpl. by rewrite s_all_app, esc_printable. Qed.

Lemma join_printable l :
  Forall (λ s, s_all printable s = true) l → s_all printable (join "," l) = true.
Proof.
  induction 1 as [|x l Hx Hl IH]; [done|]. destruct l as [|y l]; [done|].
  rewrite join_cons, !s_all_app, Hx, IH. done.
Qed.

Lemma int_char_printable c : int_char c = true → printable c = true.
Proof. destruct c as [[] [] [] [] [] [] [] []]; done. Qed.

Lemma enc_printable v : s_all printable (enc v) = true.
Proof.
  induction v as [|[]|z|s|l IH|kvs IH] using json_ind'; try done.
  - eapply s_all_impl; [apply int_char_printable|apply pretty_Z_int].
  - apply quote_printable.
  - rewrite <- (app_empty_r (enc _)), enc_list_app. simpl. rewrite s_all_app, join_printable; [done|].
    by apply Forall_fmap.
  - rewrite <- (app_empty_r (enc _)), enc_obj_app. simpl. rewrite s_all_app, join_printable; [done|].
    apply Forall_fmap. eapply Forall_impl; [exact IH|]. intros kv Hkv. unfold compose. cbv beta in Hkv |- *.
    unfold enc_item. rewrite !s_all_app, quote_printable, Hkv. done.
Qed.

Lemma dumps_printable v : s_all printable (dumps v) = true.
Proof. apply enc_printable. Qed.

(** The canonical text is ASCII: encoding it changes nothing. *)
Lemma utf8_printable s : s_all printable s = true → utf8 s = s.
Proof.
  induction s as [|c s IH]; [done|]. intros H. simpl in H. to_prop.
  assert (utf8 (String c s) = String c (utf8 s)) as ->; [|by rewrite IH].
  destruct c as [[] [] [] [] [] [] [] []]; (done || reflexivity).
Qed.

Lemma utf8_dumps v : utf8 (dumps v) = dumps v.
Proof. apply utf8_printable, dumps_printable. Qed.

(** ** Reading an equation of values, one field at a time *)

Lemma JObj_cons_inj k v l k' v' l' :
  JObj ((k, v) :: l) = JObj ((k', v') :: l') → k = k' ∧ v = v' ∧ JObj l = JObj l'.
Proof. by intros [= -> -> ->]. Qed.

Lemma JStr_inj s t : JStr s = JStr t → s = t.
Proof. by intros [= ->]. Qed.

Lemma JInt_inj z w : JInt z = JInt w → z = w.
Proof. by intros [= ->]. Qed.

Lemma JBool_inj b c : JBool b = JBool c → b = c.
Proof. by intros [= ->]. Qed.

Lemma JList_inj l k : JList l = JList k → l = k.
Proof. by intros [= ->]. Qed.

Ltac json_inv :=
  repeat match goal with
  | H : JObj (_ :: _) = JObj (_ :: _) |- _ =>
      let Hk := fresh in apply JObj_cons_inj in H as (Hk & ? & H); try discriminate Hk; clear Hk
  | H : JObj [] = JObj [] |- _ => clear H
  | H : JStr _ = JStr _ |- _ => apply JStr_inj in H
  | H : JInt _ = JInt _ |- _ => apply JInt_inj in H
  | H : JBool _ = JBool _ |- _ => apply JBool_inj in H
  | H : JList _ = JList _ |- _ => apply JList_inj in H
  end.
