(* ===== verification/PyTime.v ===== *)
(** Python [datetime.datetime] and [timedelta], as far as the [fathom] package uses them.

    A datetime is its wall clock in microseconds since 1970-01-01 plus its UTC offset ([None] for a
    naive one).  Comparison and arithmetic are on the instant; [isoformat] prints the proleptic
    Gregorian date, and is injective on valid datetimes ([isoformat_inj]), which is what lets a
    signature over the text cover the timestamps of a job. *)

From S2P Require Import Prelude PyStr.

Local Open Scope Z_scope.

(** ** Values *)

Record datetime := mk_datetime { dt_wall : Z; dt_offset : option Z }.

#[export] Instance datetime_eq_dec : EqDecision datetime.
Proof. solve_decision. Defined.

(** Microseconds in [timedelta(seconds=n)], and [timedelta(days=n)]. *)
Definition seconds (n : Z) : Z := n * 1000000.
Definition days (n : Z) : Z := n * 86400000000.

(** The instant an aware datetime denotes. *)
Definition instant (d : datetime) : Z := dt_wall d - default 0 (dt_offset d).

(** [datetime.now(tz=UTC)] at instant [t], and [d + timedelta]. *)
Definition utc (t : Z) : datetime := mk_datetime t (Some 0).
Definition dt_add (d : datetime) (delta : Z) : datetime := mk_datetime (dt_wall d + delta) (dt_offset d).

(** [value if value.tzinfo is not None else value.replace(tzinfo=UTC)]. *)
Definition as_utc (d : datetime) : datetime :=
  match dt_offset d with
  | Some _ => d
  | None => mk_datetime (dt_wall d) (Some 0)
  end.

Lemma instant_utc t : instant (utc t) = t.
Proof. unfold instant. simpl. lia. Qed.

Lemma instant_add d delta : instant (dt_add d delta) = instant d + delta.
Proof. unfold instant. simpl. lia. Qed.

Lemma instant_as_utc d : instant (as_utc d) = instant d.
Proof. unfold instant, as_utc. by destruct d as [w [o|]]. Qed.

(** ** The calendar *)

(** Days since 1970-01-01 to (year, month, day), and back. *)
Definition civil_from_days (n : Z) : Z * Z * Z :=
  let z := n + 719468 in
  let era := z / 146097 in
  let doe := z - era * 146097 in
  let yoe := (doe - doe / 1460 + doe / 36524 - doe / 146096) / 365 in
  let doy := doe - (365 * yoe + yoe / 4 - yoe / 100) in
  let mp := (5 * doy + 2) / 153 in
  let d := doy - (153 * mp + 2) / 5 + 1 in
  let m := if mp <? 10 then mp + 3 else mp - 9 in
  (yoe + era * 400 + (if m <=? 2 then 1 else 0), m, d).

Definition days_from_civil (ymd : Z * Z * Z) : Z :=
  let '(y0, m, d) := ymd in
  let y := if m <=? 2 then y0 - 1 else y0 in
  let era := y / 400 in
  let yoe := y - era * 400 in
  let doy := (153 * (if m >? 2 then m - 3 else m + 9) + 2) / 5 + d - 1 in
  let doe := yoe * 365 + yoe / 4 - yoe / 100 + doy in
  era * 146097 + doe - 719468.

Example civil_epoch : civil_from_days 0 = (1970, 1, 1).
Proof. reflexivity. Qed.
Example civil_leap : civil_from_days 19782 = (2024, 2, 29).
Proof. reflexivity. Qed.

(** The two halves of the inverse: day-of-era to (year-of-era, day-of-year), and day-of-year to
    (month, day). *)
Lemma yoe_bounds doe :
  0 <= doe < 146097 →
  let yoe := (doe - doe / 1460 + doe / 36524 - doe / 146096) / 365 in
  0 <= yoe < 400 ∧ 0 <= doe - (365 * yoe + yoe / 4 - yoe / 100) <= 365.
Proof. intros H yoe. subst yoe. Z.div_mod_to_equations; lia. Qed.

Lemma month_day doy :
  0 <= doy <= 365 →
  let mp := (5 * doy + 2) / 153 in
  0 <= mp <= 11 ∧ 1 <= doy - (153 * mp + 2) / 5 + 1 <= 31.
Proof. intros H mp. subst mp. Z.div_mod_to_equations; lia. Qed.

Lemma days_civil n : days_from_civil (civil_from_days n) = n.
Proof.
  unfold civil_from_days. set (era := (n + 719468) / 146097).
  set (doe := n + 719468 - era * 146097).
  assert (0 <= doe < 146097) as Hdoe by (unfold doe, era; Z.div_mod_to_equations; lia).
  pose proof (yoe_bounds doe Hdoe) as [Hyoe Hdoy].
  set (yoe := (doe - doe / 1460 + doe / 36524 - doe / 146096) / 365) in *.
  set (doy := doe - (365 * yoe + yoe / 4 - yoe / 100)) in *.
  pose proof (month_day doy Hdoy) as [Hmp _].
  set (mp := (5 * doy + 2) / 153) in *.
  unfold days_from_civil.
  assert (((if mp <? 10 then mp + 3 else mp - 9) <=? 2) = negb (mp <? 10)) as ->.
  { destruct (Z.ltb_spec mp 10); simpl; [apply Z.leb_gt|apply Z.leb_le]; lia. }
  assert (((if mp <? 10 then mp + 3 else mp - 9) >? 2) = (mp <? 10)) as ->.
  { rewrite Z.gtb_ltb. destruct (Z.ltb_spec mp 10); [apply Z.ltb_lt|apply Z.ltb_ge]; lia. }
  assert ((if negb (mp <? 10) then yoe + era * 400 + (if negb (mp <? 10) then 1 else 0) - 1
           else yoe + era * 400 + (if negb (mp <? 10) then 1 else 0)) = yoe + era * 400) as ->.
  { destruct (mp <? 10); simpl; lia. }
  assert ((yoe + era * 400) / 400 = era) as -> by (Z.div_mod_to_equations; lia).
  replace (yoe + era * 400 - era * 400) with yoe by lia.
  assert ((if mp <? 10 then (if mp <? 10 then mp + 3 else mp - 9) - 3
           else (if mp <? 10 then mp + 3 else mp - 9) + 9) = mp) as -> by (destruct (mp <? 10); lia).
  unfold doy, doe. lia.
Qed.

Lemma civil_inj n m : civil_from_days n = civil_from_days m → n = m.
Proof. intros H. by rewrite <- (days_civil n), H, days_civil. Qed.

Lemma civil_bounds n : 1 <= (civil_from_days n).1.2 <= 12 ∧ 1 <= (civil_from_days n).2 <= 31.
Proof.
  unfold civil_from_days. set (doe := n + 719468 - _ * 146097).
  assert (0 <= doe < 146097) as Hdoe by (unfold doe; Z.div_mod_to_equations; lia).
  pose proof (yoe_bounds doe Hdoe) as [Hyoe Hdoy].
  set (yoe := (doe - doe / 1460 + doe / 36524 - doe / 146096) / 365) in *.
  set (doy := doe - (365 * yoe + yoe / 4 - yoe / 100)) in *.
  pose proof (month_day doy Hdoy) as [Hmp Hd]. cbn [fst snd]. split; [|exact Hd].
  destruct (Z.ltb_spec ((5 * doy + 2) / 153) 10); lia.
Qed.

(** ** Fixed-width decimals *)

Definition digit (n : Z) : ascii := ascii_of_N (Z.to_N (48 + n)).

(** ["%0kd" % n]: the last [k] digits of [n], most significant first. *)
Fixpoint pad (k : nat) (n : Z) : string :=
  match k with
  | O => ""
  | S k' => pad k' (n / 10) +:+ String (digit (n mod 10)) ""
  end.

Lemma digit_code n : 0 <= n < 10 → code (digit n) = 48 + n.
Proof. intros H. unfold code, digit. rewrite N_ascii_embedding; lia. Qed.

Lemma length_pad k n : String.length (pad k n) = k.
Proof. revert n. induction k as [|k IH]; intros n; simpl; [done|]. rewrite length_app_s, IH. simpl. lia. Qed.

Lemma pad_inj k n m : 0 <= n < 10 ^ Z.of_nat k → 0 <= m < 10 ^ Z.of_nat k → pad k n = pad k m → n = m.
Proof.
  revert n m. induction k as [|k IH]; intros n m Hn Hm H; [simpl in *; lia|].
  simpl in H. apply app_inj_tail_char in H as [H Hd].
  apply (f_equal code) in Hd. rewrite !digit_code in Hd by (apply Z.mod_pos_bound; lia).
  rewrite Nat2Z.inj_succ, Z.pow_succ_r in Hn, Hm by lia.
  apply IH in H; [|split; [apply Z.div_pos|apply Z.div_lt_upper_bound]; lia..].
  rewrite (Z.div_mod n 10), (Z.div_mod m 10) by lia. lia.
Qed.

Lemma app_inj_length a b r s :
  String.length a = String.length b → a +:+ r = b +:+ s → a = b ∧ r = s.
Proof.
  revert b. induction a as [|c a IH]; intros [|d b]; simpl; intros Hl H; try lia; [done|].
  apply String_inj in H as [-> H]. by apply IH in H as [-> ->]; [|lia].
Qed.

Lemma pad_app_inj k n m r s :
  0 <= n < 10 ^ Z.of_nat k → 0 <= m < 10 ^ Z.of_nat k →
  pad k n +:+ r = pad k m +:+ s → n = m ∧ r = s.
Proof.
  intros Hn Hm H. apply app_inj_length in H as [H ->]; [|by rewrite !length_pad].
  by apply pad_inj in H as ->.
Qed.

#[global] Arguments pad : simpl never.

(** ** [datetime.isoformat()] *)

Definition us_per_day : Z := 86400000000.

Definition iso_date (day : Z) : string :=
  let '(y, m, d) := civil_from_days day in
  pad 4 y +:+ String "-" (pad 2 m +:+ String "-" (pad 2 d)).

(** [HH:MM:SS[.ffffff]] of a number of microseconds below a day. *)
Definition iso_hms (us : Z) : string :=
  pad 2 (us / 3600000000) +:+ String ":" (pad 2 (us / 60000000 mod 60) +:+ String ":"
    (pad 2 (us / 1000000 mod 60))).
Definition iso_frac (us : Z) : string :=
  if us mod 1000000 =? 0 then "" else String "." (pad 6 (us mod 1000000)).

(** The UTC offset: [+HH:MM[:SS[.ffffff]]], the seconds only when there are any. *)
Definition iso_offset (off : option Z) : string :=
  match off with
  | None => ""
  | Some o =>
      let a := Z.abs o in
      String (if (o <? 0)%Z then "-" else "+")%char
        (if a mod 60000000 =? 0
         then pad 2 (a / 3600000000) +:+ String ":" (pad 2 (a / 60000000 mod 60))
         else iso_hms a +:+ iso_frac a)
  end.

Definition isoformat (d : datetime) : string :=
  let w := dt_wall d in
  iso_date (w / us_per_day) +:+ String "T"
    (iso_hms (w mod us_per_day) +:+ iso_frac (w mod us_per_day) +:+ iso_offset (dt_offset d)).

(** [datetime] and [timezone] keep the year in 1..9999 and the offset within a day. *)
Definition dt_valid (d : datetime) : Prop :=
  1 <= (civil_from_days (dt_wall d / us_per_day)).1.1 <= 9999 ∧
  match dt_offset d with None => True | Some o => Z.abs o < us_per_day end.

#[export] Instance dt_valid_dec d : Decision (dt_valid d).
Proof. unfold dt_valid. destruct (dt_offset d); apply _. Defined.

Example iso_example :
  isoformat (utc 1700000000123456) = "2023-11-14T22:13:20.123456+00:00".
Proof. reflexivity. Qed.
Example iso_naive : isoformat (mk_datetime 0 None) = "1970-01-01T00:00:00".
Proof. reflexivity. Qed.

Lemma iso_date_inj a b r s :
  1 <= (civil_from_days a).1.1 <= 9999 → 1 <= (civil_from_days b).1.1 <= 9999 →
  iso_date a +:+ r = iso_date b +:+ s → a = b ∧ r = s.
Proof.
  unfold iso_date. pose proof (civil_bounds a) as [Ham Had]. pose proof (civil_bounds b) as [Hbm Hbd].
  pose proof (civil_inj a b) as Hinj.
  destruct (civil_from_days a) as [[y m] d], (civil_from_days b) as [[y' m'] d']. cbn [fst snd] in *.
  intros Hy Hy' H. rewrite !app_assoc_s in H. apply pad_app_inj in H as [-> H]; [|lia..].
  apply String_inj in H as [_ H]. rewrite !app_assoc_s in H.
  apply pad_app_inj in H as [-> H]; [|lia..]. apply String_inj in H as [_ H].
  apply pad_app_inj in H as [-> ->]; [|lia..]. auto.
Qed.

Lemma iso_hms_inj a b r s :
  0 <= a < us_per_day → 0 <= b < us_per_day →
  iso_hms a +:+ r = iso_hms b +:+ s → a / 1000000 = b / 1000000 ∧ r = s.
Proof.
  unfold iso_hms, us_per_day. intros Ha Hb H. rewrite !app_assoc_s in H.
  apply pad_app_inj in H as [H1 H];
    [|split; [apply Z.div_pos|apply Z.div_lt_upper_bound]; lia..].
  apply String_inj in H as [_ H]. rewrite !app_assoc_s in H.
  apply pad_app_inj in H as [H2 H]; [|pose proof (Z.mod_pos_bound (a / 60000000) 60);
    pose proof (Z.mod_pos_bound (b / 60000000) 60); lia..].
  apply String_inj in H as [_ H].
  apply pad_app_inj in H as [H3 ->]; [|pose proof (Z.mod_pos_bound (a / 1000000) 60);
    pose proof (Z.mod_pos_bound (b / 1000000) 60); lia..].
  split; [|done]. Z.div_mod_to_equations; lia.
Qed.

Definition no_dot (r : string) : bool :=
  match r with "" => true | String c _ => negb (Ascii.eqb c ".") end.

Lemma iso_frac_inj a b r s :
  no_dot r = true → no_dot s = true →
  iso_frac a +:+ r = iso_frac b +:+ s → a mod 1000000 = b mod 1000000 ∧ r = s.
Proof.
  unfold iso_frac. intros Hr Hs.
  pose proof (Z.mod_pos_bound a 1000000). pose proof (Z.mod_pos_bound b 1000000).
  destruct (Z.eqb_spec (a mod 1000000) 0), (Z.eqb_spec (b mod 1000000) 0);
    autorewrite with str; intros Heq.
  - split; [lia|done].
  - subst. done.
  - subst. done.
  - apply String_inj in Heq as [_ Heq]. apply pad_app_inj in Heq as [? ->]; [done|lia..].
Qed.

Lemma iso_offset_head off : no_dot (iso_offset off) = true.
Proof. destruct off as [o|]; [|done]. simpl. by destruct (o <? 0). Qed.

(** The clock part of an offset, which prints seconds only when there are any. *)
Definition iso_clock (a : Z) : string :=
  if a mod 60000000 =? 0
  then pad 2 (a / 3600000000) +:+ String ":" (pad 2 (a / 60000000 mod 60))
  else iso_hms a +:+ iso_frac a.

Lemma iso_clock_spec a :
  iso_clock a = pad 2 (a / 3600000000) +:+ String ":" (pad 2 (a / 60000000 mod 60) +:+
    (if a mod 60000000 =? 0 then ""
     else String ":" (pad 2 (a / 1000000 mod 60) +:+ iso_frac a))).
Proof.
  unfold iso_clock, iso_hms. destruct (a mod 60000000 =? 0); by autorewrite with str.
Qed.

Lemma iso_clock_inj a b :
  0 <= a < us_per_day → 0 <= b < us_per_day → iso_clock a = iso_clock b → a = b.
Proof.
  unfold us_per_day. intros Ha Hb. rewrite !iso_clock_spec. intros H.
  apply pad_app_inj in H as [H1 H];
    [|split; [apply Z.div_pos|apply Z.div_lt_upper_bound]; lia..].
  apply String_inj in H as [_ H].
  apply pad_app_inj in H as [H2 H]; [|pose proof (Z.mod_pos_bound (a / 60000000) 60);
    pose proof (Z.mod_pos_bound (b / 60000000) 60); lia..].
  destruct (Z.eqb_spec (a mod 60000000) 0), (Z.eqb_spec (b mod 60000000) 0); try done.
  - Z.div_mod_to_equations; lia.
  - apply String_inj in H as [_ H]. rewrite <- (app_empty_r (iso_frac a)), <- (app_empty_r (iso_frac b)) in H.
    apply pad_app_inj in H as [H3 H]; [|pose proof (Z.mod_pos_bound (a / 1000000) 60);
      pose proof (Z.mod_pos_bound (b / 1000000) 60); lia..].
    apply iso_frac_inj in H as [H4 _]; [|done..]. Z.div_mod_to_equations; lia.
Qed.

Lemma iso_offset_inj o p :
  match o with None => True | Some z => Z.abs z < us_per_day end →
  match p with None => True | Some z => Z.abs z < us_per_day end →
  iso_offset o = iso_offset p → o = p.
Proof.
  destruct o as [o|], p as [p|]; simpl; intros Ho Hp H; try done.
  apply String_inj in H as [Hsign H]. apply iso_clock_inj in H; [|lia..].
  destruct (Z.ltb_spec o 0), (Z.ltb_spec p 0); try done; f_equal; lia.
Qed.

(** [isoformat] determines a valid datetime. *)
Lemma isoformat_inj a b : dt_valid a → dt_valid b → isoformat a = isoformat b → a = b.
Proof.
  destruct a as [w o], b as [w' o']. unfold dt_valid, isoformat. cbn [dt_wall dt_offset].
  intros [Hy Ho] [Hy' Ho'] H. apply iso_date_inj in H as [Hday H]; [|done..].
  apply String_inj in H as [_ H].
  assert (0 < us_per_day) as Hpos by done.
  pose proof (Z.mod_pos_bound w _ Hpos). pose proof (Z.mod_pos_bound w' _ Hpos).
  apply iso_hms_inj in H as [Hsec H]; [|done..].
  apply iso_frac_inj in H as [Hus H]; [|apply iso_offset_head..].
  apply iso_offset_inj in H as ->; [|done..]. f_equal.
  rewrite (Z.div_mod w us_per_day), (Z.div_mod w' us_per_day), Hday by done. f_equal.
  rewrite (Z.div_mod (w mod us_per_day) 1000000), Hsec, Hus by done. symmetry. by apply Z.div_mod.
Qed.
