(* ===== verification/AuditLog.v ===== *)
(** The hash-chained audit log ([src/fathom/core/audit.py]).

    [AuditRecord], [_canonical], [compute_row_hash], [rechain], [AuditChain] with its sink, and
    [verify_chain].  BLAKE3 is a third-party package: it is the parameter [blake3_hex], and no
    theorem assumes anything of it.  Tamper evidence is stated as a reduction: two verified chains
    with one head hold the same records, or their rows exhibit a collision. *)

From S2P Require Import Prelude PyStr Json PyTime.

(** ** Records *)

(** A Python [dict[str, object]] in insertion order. *)
Abbreviation pydict := (list (string * json)).

Record AuditRecord := mk_record {
  ts : string;
  actor : string;
  action : string;
  target : string;
  before_state : pydict;
  result_ : string;
  prev_hash : string;
  row_hash : string;
}.

Definition GENESIS_HASH : string :=
  "0000000000000000000000000000000000000000000000000000000000000000".

(** The content of a record: what [_canonical] serialises. *)
Record content := mk_content {
  c_ts : string; c_actor : string; c_action : string; c_target : string;
  c_before : pydict; c_result : string;
}.

Definition content_of (r : AuditRecord) : content :=
  mk_content (ts r) (actor r) (action r) (target r) (before_state r) (result_ r).

Definition canonical_json (c : content) : json :=
  JObj [("ts", JStr (c_ts c)); ("actor", JStr (c_actor c)); ("action", JStr (c_action c));
        ("target", JStr (c_target c)); ("before_state", JObj (c_before c));
        ("result", JStr (c_result c))].

Definition _canonical (c : content) : string := dumps (canonical_json c).

Definition NUL : ascii := ascii_of_N 0.

(** The bytes hashed into a row: previous hash, a NUL byte, the payload. *)
Definition row_input (prev : string) (payload : string) : string :=
  utf8 prev +:+ String NUL (utf8 payload).

Section Chain.
Context (blake3_hex : string → string).

Definition compute_row_hash (prev payload : string) : string := blake3_hex (row_input prev payload).

Definition record_payload (r : AuditRecord) : string := _canonical (content_of r).

(** The record of content [c] chained onto [prev]. *)
Definition chained (c : content) (prev : string) : AuditRecord :=
  mk_record (c_ts c) (c_actor c) (c_action c) (c_target c) (c_before c) (c_result c)
    prev (compute_row_hash prev (_canonical c)).

Definition rechain (r : AuditRecord) (prev : string) : AuditRecord :=
  mk_record (ts r) (actor r) (action r) (target r) (before_state r) (result_ r)
    prev (compute_row_hash prev (record_payload r)).

(** ** [AuditChain]: the head, and whatever the sink keeps

    [sink] may raise; then the exception leaves [append] before the head moves. *)
Section WithSink.
Context {W Exn : Type} (sink : AuditRecord → W → result Exn W).

Record AuditChain := mk_chain { head : string; sunk : W }.

Definition append (now : datetime) (actor action target : string) (before : pydict)
    (res : string) (ch : AuditChain) : result Exn (AuditRecord * AuditChain) :=
  let c := mk_content (isoformat now) actor action target before res in
  let record := chained c (head ch) in
  w ← sink record (sunk ch);
  Ok (record, mk_chain (row_hash record) w).

Definition splice (r : AuditRecord) (ch : AuditChain) : result Exn (AuditRecord * AuditChain) :=
  let rechained := rechain r (head ch) in
  w ← sink rechained (sunk ch);
  Ok (rechained, mk_chain (row_hash rechained) w).

(** [append_preview_access]: the preview audit, on the same chain. *)
Definition append_preview_access (now : datetime) (actor role : string) (entry_id : Z)
    (preview_type sandbox_job_id : string) (cache_hit : bool) (ch : AuditChain)
    : result Exn (AuditRecord * AuditChain) :=
  append now actor "preview.access" (pretty entry_id)
    [("role", JStr role); ("type", JStr preview_type);
     ("sandbox_job_id", JStr sandbox_job_id); ("cache_hit", JBool cache_hit)]
    "served" ch.
End WithSink.

(** ** Verification *)

Fixpoint verify_chain (genesis : string) (records : list AuditRecord) : bool :=
  match records with
  | [] => true
  | r :: rest =>
      bool_decide (prev_hash r = genesis)
      && bool_decide (compute_row_hash genesis (_canonical (content_of r)) = row_hash r)
      && verify_chain (row_hash r) rest
  end.

(** The head a list of records leaves behind. *)
Definition head_after (genesis : string) (records : list AuditRecord) : string :=
  default genesis (row_hash <$> last records).

(** ** Lemmas *)

Lemma head_after_nil g : head_after g [] = g.
Proof. done. Qed.

Lemma head_after_cons g r l : head_after g (r :: l) = head_after (row_hash r) l.
Proof. unfold head_after. destruct l as [|x l]; [done|]. rewrite last_cons_cons. by destruct (last (x :: l)) eqn:E; [|apply last_None in E]. Qed.

Lemma head_after_snoc g l r : head_after g (l ++ [r]) = row_hash r.
Proof. unfold head_after. by rewrite last_snoc. Qed.

Lemma verify_chain_app g l k :
  verify_chain g (l ++ k) = verify_chain g l && verify_chain (head_after g l) k.
Proof.
  revert g. induction l as [|r l IH]; intros g; simpl; [done|].
  rewrite IH, head_after_cons. by rewrite !andb_assoc.
Qed.

Lemma verify_chain_take g l n : verify_chain g l = true → verify_chain g (take n l) = true.
Proof.
  intros H. rewrite <- (take_drop n l), verify_chain_app in H. by to_prop.
Qed.

(** A record is correctly linked when appending it keeps a chain verified. *)
Lemma verify_chain_snoc g l r :
  verify_chain g l = true → prev_hash r = head_after g l →
  row_hash r = compute_row_hash (prev_hash r) (record_payload r) →
  verify_chain g (l ++ [r]) = true.
Proof.
  unfold record_payload. intros Hl Hp Hr. rewrite verify_chain_app, Hl. simpl.
  rewrite <- Hp, <- Hr. by rewrite !bool_decide_true.
Qed.

Lemma chained_row c prev : row_hash (chained c prev) =
  compute_row_hash (prev_hash (chained c prev)) (record_payload (chained c prev)).
Proof. by destruct c. Qed.

Lemma rechain_chained r prev : rechain r prev = chained (content_of r) prev.
Proof. by destruct r. Qed.

Lemma verify_chain_chained g l c :
  verify_chain g l = true → verify_chain g (l ++ [chained c (head_after g l)]) = true.
Proof. intros H. apply verify_chain_snoc; [done|done|apply chained_row]. Qed.
End Chain.

#[export] Hint Resolve verify_chain_chained verify_chain_take chained_row : fathom.

(** ** The hashed bytes determine the content *)

(** Same Python value: dicts are compared up to the order of their items. *)
Definition same_content (c d : content) : Prop :=
  c_ts c = c_ts d ∧ c_actor c = c_actor d ∧ c_action c = c_action d ∧ c_target c = c_target d ∧
  sort_json (JObj (c_before c)) = sort_json (JObj (c_before d)) ∧ c_result c = c_result d.

Definition same_record (r s : AuditRecord) : Prop :=
  same_content (content_of r) (content_of s) ∧ prev_hash r = prev_hash s ∧ row_hash r = row_hash s.

Lemma canonical_sorted c :
  sort_json (canonical_json c) =
  JObj [("action", JStr (c_action c)); ("actor", JStr (c_actor c));
        ("before_state", sort_json (JObj (c_before c))); ("result", JStr (c_result c));
        ("target", JStr (c_target c)); ("ts", JStr (c_ts c))].
Proof. reflexivity. Qed.

Lemma canonical_inj c d : _canonical c = _canonical d → same_content c d.
Proof.
  intros H%dumps_inj. rewrite !canonical_sorted in H. unfold same_content.
  injection H as ? ? ? ? ? ?. split_and!; simpl; congruence.
Qed.

Lemma last_nul_inj a b p q :
  s_all printable p = true → s_all printable q = true →
  a +:+ String NUL p = b +:+ String NUL q → a = b ∧ p = q.
Proof.
  intros Hp Hq. assert (∀ x t, s_all printable (x +:+ String NUL t) = false) as Hno.
  { intros x t. rewrite s_all_app. by apply andb_false_r. }
  revert b. induction a as [|c a IH]; intros [|d b]; autorewrite with str; intros H;
    apply String_inj in H as [Hc H].
  - done.
  - rewrite H, Hno in Hp. done.
  - rewrite <- H, Hno in Hq. done.
  - apply IH in H as [-> ->]. by subst.
Qed.

Lemma row_input_inj p q c d :
  row_input p (_canonical c) = row_input q (_canonical d) → p = q ∧ same_content c d.
Proof.
  pose proof (dumps_printable (canonical_json c)) as Hc.
  pose proof (dumps_printable (canonical_json d)) as Hd. unfold row_input, _canonical.
  rewrite (utf8_printable _ Hc), (utf8_printable _ Hd). intros H.
  apply (last_nul_inj _ _ _ _ Hc Hd) in H as [H1%utf8_inj H2%canonical_inj]. done.
Qed.

(** ** Properties *)

Section Properties.
Context (blake3_hex : string → string).

(** The operations of a chain whose sink keeps a list, and may refuse a record. *)
Inductive chain_op :=
| OpAppend (now : datetime) (actor action target : string) (before : pydict) (res : string)
| OpSplice (r : AuditRecord).

Definition list_sink (refuses : AuditRecord → bool) (r : AuditRecord) (w : list AuditRecord)
    : result unit (list AuditRecord) :=
  if refuses r then Err tt else Ok (w ++ [r]).

(** One call; when it raises, the chain object is as it was before. *)
Definition chain_step (refuses : AuditRecord → bool) (ch : AuditChain) (op : chain_op) : AuditChain :=
  match (match op with
         | OpAppend now a b t bs res => append blake3_hex (list_sink refuses) now a b t bs res ch
         | OpSplice r => splice blake3_hex (list_sink refuses) r ch
         end) with
  | Ok (_, ch') => ch'
  | Err _ => ch
  end.

Definition run_chain (refuses : AuditRecord → bool) (ops : list chain_op) : AuditChain :=
  foldl (chain_step refuses) (mk_chain GENESIS_HASH []) ops.

Definition chain_inv (ch : AuditChain) : Prop :=
  verify_chain blake3_hex GENESIS_HASH (sunk ch) = true ∧
  head ch = head_after GENESIS_HASH (sunk ch).

Lemma chain_step_inv refuses ch op : chain_inv ch → chain_inv (chain_step refuses ch op).
Proof.
  intros [Hv Hh]. unfold chain_step, append, splice.
  destruct op as [now a b t bs res|r]; rewrite ?rechain_chained, Hh; unfold list_sink; simpl.
  all: destruct (refuses _); [done|]; simpl; split; simpl;
    [by apply verify_chain_chained|by rewrite head_after_snoc].
Qed.

(** every sequence of [append] and [splice] calls, from genesis, with a sink that may refuse
    any of the records, leaves an unbroken chain in the sink and its last hash as the head. *)
Theorem chain_always_verifies refuses ops :
  let ch := run_chain refuses ops in
  verify_chain blake3_hex GENESIS_HASH (sunk ch) = true ∧ head ch = head_after GENESIS_HASH (sunk ch).
Proof.
  change (chain_inv (run_chain refuses ops)). unfold run_chain.
  assert (chain_inv (mk_chain GENESIS_HASH [])) as Hinit by done. revert Hinit.
  generalize (mk_chain GENESIS_HASH (@nil AuditRecord)) as ch.
  induction ops as [|op ops IH]; intros ch Hch; [done|]. simpl. by apply IH, chain_step_inv.
Qed.

Definition chain_inputs (l : list AuditRecord) : list string :=
  (λ r, row_input (prev_hash r) (record_payload r)) <$> l.

(** What an attacker who rewrites a chain under a fixed head must exhibit. *)
Definition collision (l1 l2 : list AuditRecord) : Prop :=
  (∃ x y, x ∈ chain_inputs l1 ∧ y ∈ chain_inputs l2 ∧ x ≠ y ∧ blake3_hex x = blake3_hex y) ∨
  (∃ x, x ∈ chain_inputs (l1 ++ l2) ∧ blake3_hex x = GENESIS_HASH).

Lemma verify_chain_last l r :
  verify_chain blake3_hex GENESIS_HASH (l ++ [r]) = true →
  verify_chain blake3_hex GENESIS_HASH l = true ∧ prev_hash r = head_after GENESIS_HASH l ∧
  row_hash r = blake3_hex (row_input (prev_hash r) (record_payload r)).
Proof.
  rewrite verify_chain_app. intros H. simpl in H. to_prop. split_and!; [done..|].
  unfold compute_row_hash, record_payload in *. congruence.
Qed.

Lemma row_in_inputs l r : r ∈ l → row_input (prev_hash r) (record_payload r) ∈ chain_inputs l.
Proof. intros Hr. apply list_elem_of_fmap. by exists r. Qed.

Lemma collision_mono l1 l2 k1 k2 : collision l1 l2 → collision (l1 ++ k1) (l2 ++ k2).
Proof.
  unfold collision, chain_inputs. rewrite !fmap_app.
  intros [(x & y & Hx & Hy & H)|(x & Hx & H)]; [left|right].
  - exists x, y. rewrite !elem_of_app. tauto.
  - exists x. rewrite !elem_of_app in *. tauto.
Qed.

Lemma tamper_evident_gen l1 l2 :
  verify_chain blake3_hex GENESIS_HASH l1 = true →
  verify_chain blake3_hex GENESIS_HASH l2 = true →
  head_after GENESIS_HASH l1 = head_after GENESIS_HASH l2 →
  Forall2 same_record l1 l2 ∨ collision l1 l2.
Proof.
  revert l2. induction l1 as [|r l1 IH] using rev_ind; intros l2 H1 H2 Hh;
    destruct l2 as [|s l2 _] using rev_ind; [by left|..].
  - apply verify_chain_last in H2 as (_ & _ & Hs). rewrite head_after_snoc, Hs in Hh.
    right; right. eexists; split; [apply (row_in_inputs _ s); set_solver|done].
  - apply verify_chain_last in H1 as (_ & _ & Hr). rewrite head_after_snoc, Hr in Hh.
    right; right. eexists; split; [apply (row_in_inputs _ r); set_solver|done].
  - apply verify_chain_last in H1 as (H1 & Hp1 & Hr), H2 as (H2 & Hp2 & Hs).
    rewrite !head_after_snoc in Hh.
    destruct (decide (row_input (prev_hash r) (record_payload r) =
                      row_input (prev_hash s) (record_payload s))) as [E|Hne].
    + apply row_input_inj in E as [Hp Hc].
      destruct (IH l2 H1 H2) as [Hsame|Hcol]; [congruence|left|right; by apply collision_mono].
      by apply Forall2_app; [|constructor].
    + right; left. do 2 eexists. split_and!; [apply (row_in_inputs _ r); set_solver
        |apply (row_in_inputs _ s); set_solver|done|congruence].
Qed.

(** C1: two chains that verify from genesis and end in the same head hold the same records, up
    to the order of dict items; otherwise their rows exhibit a BLAKE3 collision or a preimage of the
    genesis constant.  Edits, deletions, insertions and reorderings are all covered. *)
Theorem tamper_evident l1 l2 :
  verify_chain blake3_hex GENESIS_HASH l1 = true →
  verify_chain blake3_hex GENESIS_HASH l2 = true →
  head_after GENESIS_HASH l1 = head_after GENESIS_HASH l2 →
  Forall2 same_record l1 l2 ∨ collision l1 l2.
Proof. intros H1 H2 Hh. by apply tamper_evident_gen. Qed.
End Properties.

(** ** Witnesses *)

Definition demo_hash (s : string) : string := "#" +:+ s.

Definition demo_record (before : pydict) : AuditRecord :=
  chained demo_hash (mk_content "2026-01-01T00:00:00+00:00" "alice" "quarantine" "/srv/a" before "ok")
    GENESIS_HASH.

Definition demo_before : pydict := [("size", JInt 3); ("mode", JInt 420)].

(** Two rows whose before-state dicts list their items in different orders. *)
Lemma tamper_evident_witness :
  let l1 := [demo_record demo_before] in let l2 := [demo_record (rev demo_before)] in
  Forall2 same_record l1 l2 ∨ collision demo_hash l1 l2.
Proof. apply tamper_evident; vm_compute; reflexivity. Defined.
