(* ===== verification/AuditStore.v ===== *)
(** The persisted audit chain ([src/fathom/core/audit_store.py]).

    The table [remediation_audit] with its two UNIQUE constraints, the appends with their retry
    loop, the checkpoints and the paged read.  Other writers are modelled twice: as a step relation
    over interleaved reads and inserts ([astep]), and as arbitrary interference between the read and
    the insert of one append ([append_durable]).  BLAKE3 and the checkpoint's signature scheme are
    parameters. *)

From S2P Require Import Prelude PyStr Json PyTime AuditLog.

(** ** The tables *)

Record CheckpointRow := mk_cp {
  cp_seq : Z; cp_row_hash : string; cp_signature : string; cp_key_id : string;
}.

Record audit_db := mk_db {
  rows : list (Z * AuditRecord);      (** [remediation_audit] by ascending [seq] *)
  next_seq : Z;                       (** the autoincrement of [seq] *)
  checkpoints : list CheckpointRow;   (** by ascending id *)
}.

Definition empty_db : audit_db := mk_db [] 1 [].

Definition persisted_records (d : audit_db) : list AuditRecord := (rows d).*2.

Definition load_head (d : audit_db) : string :=
  default GENESIS_HASH ((λ row, row_hash row.2) <$> last (rows d)).

(** UNIQUE [prev_hash] and UNIQUE [row_hash]. *)
Definition unique_ok (r : AuditRecord) (d : audit_db) : bool :=
  forallb (λ row, negb (bool_decide (prev_hash row.2 = prev_hash r)) &&
                  negb (bool_decide (row_hash row.2 = row_hash r))) (rows d).

(** [load_head] of two dbs with the same rows. *)
Definition last_row (d : audit_db) : option (Z * string) :=
  (λ row, (row.1, row_hash row.2)) <$> last (rows d).

(** Whether a rejected INSERT consumes a value of [seq]'s generator: a PostgreSQL sequence does (it
    is not rolled back with the savepoint), an SQLite rowid does not. *)
Class Backend := burns_seq : bool.

Section Store.
Context {B : Backend} (blake3_hex : string → string).

(** [session.add(row); session.flush()] in a savepoint; [false] for an IntegrityError. *)
Definition insert_row (r : AuditRecord) (d : audit_db) : bool * audit_db :=
  if unique_ok r d then
    (true, mk_db (rows d ++ [(next_seq d, r)]) (next_seq d + 1) (checkpoints d))
  else (false, mk_db (rows d) (if burns_seq then next_seq d + 1 else next_seq d) (checkpoints d)).

Definition _MAX_APPEND_RETRIES : nat := 8.

(** The loop of [append_durable] and [_splice_record_durable]: [build i head] is the record of the
    attempt with [i] attempts left after it, [others i] what other writers commit between its
    [load_head] and its flush. *)
Fixpoint append_loop (build : nat → string → AuditRecord) (others : nat → audit_db → audit_db)
    (attempts : nat) (d : audit_db) : result string AuditRecord * audit_db :=
  match attempts with
  | 0 => (Err "RuntimeError", d)
  | S i =>
      let record := build i (load_head d) in
      let '(ok, d') := insert_row record (others i d) in
      if ok then (Ok record, d') else append_loop build others i d'
  end.

Definition append_durable (now : nat → datetime) (actor action target : string)
    (before : pydict) (res : string) (others : nat → audit_db → audit_db)
    : audit_db → result string AuditRecord * audit_db :=
  append_loop
    (λ i h, chained blake3_hex (mk_content (isoformat (now i)) actor action target before res) h)
    others _MAX_APPEND_RETRIES.

Definition _splice_record_durable (r : AuditRecord) (others : nat → audit_db → audit_db)
    : audit_db → result string AuditRecord * audit_db :=
  append_loop (λ _ h, rechain blake3_hex r h) others _MAX_APPEND_RETRIES.

Fixpoint append_records_durable (records : list AuditRecord) (others : nat → audit_db → audit_db)
    (d : audit_db) : result string (list AuditRecord) * audit_db :=
  match records with
  | [] => (Ok [], d)
  | r :: rest =>
      match _splice_record_durable r others d with
      | (Ok r', d') =>
          match append_records_durable rest others d' with
          | (Ok rs, d'') => (Ok (r' :: rs), d'')
          | (Err e, d'') => (Err e, d'')
          end
      | (Err e, d') => (Err e, d')
      end
  end.

(** [build_persistent_chain] over a session whose rows are flushed as they are added: the chain's
    sink raises on an IntegrityError. *)
Definition session_sink (r : AuditRecord) (d : audit_db) : result string audit_db :=
  match insert_row r d with (true, d') => Ok d' | (false, _) => Err "IntegrityError" end.

Definition build_persistent_chain (d : audit_db) : AuditChain := mk_chain (load_head d) d.

(** ** Checkpoints *)

Definition _checkpoint_message (seq : Z) (h : string) : string := pretty seq +:+ ":" +:+ h.

Definition write_checkpoint (sign : string → string) (key_id : string) (d : audit_db)
    : option CheckpointRow * audit_db :=
  match last_row d with
  | None => (None, d)
  | Some (seq, h) =>
      let cp := mk_cp seq h (hex (sign (_checkpoint_message seq h))) key_id in
      (Some cp, mk_db (rows d) (next_seq d) (checkpoints d ++ [cp]))
  end.

Definition latest_checkpoint (d : audit_db) : option CheckpointRow := last (checkpoints d).

(** The checks against one checkpoint, in the code's order; [Err] for an exception. *)
Definition verify_checkpoint (verify : string → string → bool) (cp : CheckpointRow) (d : audit_db)
    : result string bool :=
  match fromhex (cp_signature cp) with
  | None => Err "ValueError"
  | Some signature =>
      if negb (verify (_checkpoint_message (cp_seq cp) (cp_row_hash cp)) signature) then Ok false
      else
        let records := persisted_records d in
        if (Z.of_nat (length records) <? cp_seq cp)%Z then Ok false
        else match index records (cp_seq cp - 1) with
             | None => Err "IndexError"
             | Some anchored =>
                 if negb (bool_decide (row_hash anchored = cp_row_hash cp)) then Ok false
                 else Ok (verify_chain blake3_hex GENESIS_HASH (takeZ (cp_seq cp) records))
             end
  end.

Definition verify_latest_checkpoint (verify : string → string → bool) (d : audit_db)
    : result string bool :=
  match latest_checkpoint d with
  | None => Ok true
  | Some cp => verify_checkpoint verify cp d
  end.

(** ** The paged read: newest first, [cursor] the last [seq] of the previous page *)

Definition persisted_records_page (cursor : option Z) (limit : nat) (d : audit_db)
    : result string (list (Z * AuditRecord) * option Z) :=
  let older := filter (λ row, below cursor row.1) (reverse (rows d)) in
  let fetched := take (limit + 1) older in
  let page := take limit fetched in
  if decide (limit < length fetched)
  then match last page with Some row => Ok (page, Some row.1) | None => Err "IndexError" end
  else Ok (page, None).
End Store.

(** ** The invariant of the table *)

Record audit_inv (blake3_hex : string → string) (d : audit_db) : Prop := {
  inv_chain : verify_chain blake3_hex GENESIS_HASH (persisted_records d) = true;
  inv_sorted : StronglySorted Z.lt (rows d).*1;
  inv_range : Forall (λ s, 1 ≤ s < next_seq d)%Z (rows d).*1;
  inv_next : (1 ≤ next_seq d)%Z;
  inv_unique_prev : NoDup (prev_hash <$> persisted_records d);
  inv_unique_row : NoDup (row_hash <$> persisted_records d);
}.

Lemma load_head_after d : load_head d = head_after GENESIS_HASH (persisted_records d).
Proof.
  unfold load_head, head_after, persisted_records. rewrite fmap_last. by destruct (last (rows d)).
Qed.

(** A head that no row continues is the last one. *)
Lemma unused_head_is_last H g l h :
  verify_chain H g l = true → h = g ∨ h ∈ row_hash <$> l → h ∉ prev_hash <$> l → h = head_after g l.
Proof.
  revert g. induction l as [|r l IH]; intros g Hv Hh Hn; [by destruct Hh as [?|?%elem_of_nil]|].
  simpl in Hv. to_prop. rewrite fmap_cons, not_elem_of_cons in Hn. rewrite head_after_cons.
  destruct Hn as [Hn1 Hn2]. rewrite fmap_cons, elem_of_cons in Hh.
  apply IH; [done| |done]. destruct Hh as [Hg|Hh]; [congruence|done].
Qed.

Lemma head_after_in g l : head_after g l ∈ g :: (row_hash <$> l).
Proof.
  revert g. induction l as [|r l IH]; intros g; [by left|]. rewrite head_after_cons, fmap_cons. by right.
Qed.

Lemma head_not_continued H g l :
  verify_chain H g l = true → NoDup (g :: (row_hash <$> l)) → head_after g l ∉ prev_hash <$> l.
Proof.
  revert g. induction l as [|r l IH]; intros g Hv Hnd; [by intros ?%elem_of_nil|]. simpl in Hv. to_prop.
  rewrite head_after_cons, fmap_cons in *. apply NoDup_cons in Hnd as [Hg Hnd].
  apply not_elem_of_cons. split; [|by apply IH].
  intros E. apply Hg. match goal with H : prev_hash r = g |- _ => rewrite <- H, <- E end.
  apply head_after_in.
Qed.

Lemma unique_ok_spec r d :
  unique_ok r d = true ↔
  (prev_hash r ∉ prev_hash <$> persisted_records d) ∧ (row_hash r ∉ row_hash <$> persisted_records d).
Proof.
  unfold unique_ok, persisted_records. rewrite forallb_forall. split.
  - intros H. split; intros (y & E & ([? ?] & -> & Hy)%list_elem_of_fmap)%list_elem_of_fmap;
      apply list_elem_of_In, H in Hy; to_prop; by simpl in *.
  - intros [H1 H2] [s x] Hx%list_elem_of_In. apply andb_true_iff. simpl.
    apply (list_elem_of_fmap_2 snd) in Hx. simpl in Hx.
    split; apply negb_true_iff, bool_decide_eq_false_2; intros E; [apply H1|apply H2];
      rewrite <- E; by apply list_elem_of_fmap_2.
Qed.

(** What a writer inserts: a record hashed onto a head that it has read. *)
Definition built_on (blake3_hex : string → string) (r : AuditRecord) : Prop :=
  row_hash r = compute_row_hash blake3_hex (prev_hash r) (record_payload r).

Definition seen_head (d : audit_db) (h : string) : Prop :=
  h = GENESIS_HASH ∨ h ∈ row_hash <$> persisted_records d.

Section StoreLemmas.
Context {B : Backend} (blake3_hex : string → string).
Abbreviation audit_inv := (audit_inv blake3_hex).
Abbreviation built_on := (built_on blake3_hex).

Lemma load_head_seen d : seen_head d (load_head d).
Proof.
  unfold seen_head, load_head, persisted_records. destruct (last (rows d)) as [row|] eqn:E; [|by left].
  right. simpl. apply list_elem_of_fmap_2, list_elem_of_fmap_2. by apply last_Some_elem_of.
Qed.

Lemma seen_head_prefix d d' h :
  rows d `prefix_of` rows d' → seen_head d h → seen_head d' h.
Proof.
  intros [k E] [H|H]; [by left|right]. unfold persisted_records in *. rewrite E, !fmap_app, elem_of_app. auto.
Qed.

Lemma insert_row_rejects r d d' : insert_row r d = (false, d') → rows d' = rows d ∧ checkpoints d' = checkpoints d.
Proof. unfold insert_row. case_match; intros [= <-]; done. Qed.

Lemma insert_row_accepts r d d' :
  audit_inv d → seen_head d (prev_hash r) → insert_row r d = (true, d') →
  prev_hash r = load_head d ∧ d' = mk_db (rows d ++ [(next_seq d, r)]) (next_seq d + 1) (checkpoints d).
Proof.
  unfold insert_row. intros [Hv _ _ _ _ _] Hs. case_match eqn:E; intros [= <-]. split; [|done].
  apply unique_ok_spec in E as [E _]. rewrite load_head_after. by apply (unused_head_is_last blake3_hex).
Qed.

Lemma insert_row_inv r d :
  audit_inv d → built_on r → seen_head d (prev_hash r) → audit_inv (insert_row r d).2.
Proof.
  intros Hinv Hb Hs. destruct (insert_row r d) as [[] d'] eqn:E.
  - assert (unique_ok r d = true) as Hu by (unfold insert_row in E; by case_match).
    apply unique_ok_spec in Hu as [Hu1 Hu2].
    apply insert_row_accepts in E as [Hp ->]; [|done..]. destruct Hinv as [Hv Hss Hr Hn Hnp Hnr].
    split; simpl; unfold persisted_records in *; simpl; rewrite ?fmap_app; simpl.
    + apply verify_chain_snoc; [done| |done]. by rewrite Hp, load_head_after.
    + apply StronglySorted_app_2; [|done|by repeat constructor].
      intros x y Hx ->%list_elem_of_singleton. rewrite Forall_forall in Hr. apply Hr in Hx. lia.
    + apply Forall_app. split; [|repeat constructor; lia].
      eapply Forall_impl; [done|]. simpl. lia.
    + lia.
    + by apply NoDup_snoc.
    + by apply NoDup_snoc.
  - unfold insert_row in E. case_match; simplify_eq. destruct Hinv as [Hv Hss Hr Hn Hnp Hnr]. split; simpl; [done|done| | |done|done].
    + eapply Forall_impl; [done|]. simpl. destruct burns_seq; lia.
    + destruct burns_seq; lia.
Qed.

Lemma insert_row_prefix r d : rows d `prefix_of` rows (insert_row r d).2.
Proof. unfold insert_row. case_match; simpl; [by eexists|done]. Qed.

Lemma chained_built c h : built_on (chained blake3_hex c h).
Proof. by destruct c. Qed.

Lemma rechain_built r h : built_on (rechain blake3_hex r h).
Proof. by destruct r. Qed.

(** What the other writers may do between a read and an insert: extend the table, correctly. *)
Definition rely (f : audit_db → audit_db) : Prop :=
  ∀ d, audit_inv d → audit_inv (f d) ∧ rows d `prefix_of` rows (f d).

Lemma append_loop_spec build others n d res d' :
  (∀ i h, built_on (build i h) ∧ prev_hash (build i h) = h) →
  (∀ i, rely (others i)) → audit_inv d → append_loop build others n d = (res, d') →
  audit_inv d' ∧ rows d `prefix_of` rows d' ∧
  match res with
  | Ok r => ∃ i h d1, i < n ∧ r = build i h ∧ h = load_head d1 ∧ audit_inv d1 ∧
                      rows d `prefix_of` rows d1 ∧ rows d' = rows d1 ++ [(next_seq d1, r)]
  | Err e => e = "RuntimeError"
  end.
Proof.
  intros Hb Ho. revert d. induction n as [|n IH]; intros d Hd Hrun; simpl in Hrun; [by simplify_eq|].
  destruct (Ho n d Hd) as [Hd1 Hp1]. destruct (Hb n (load_head d)) as [Hbuilt Hprev].
  assert (seen_head (others n d) (prev_hash (build n (load_head d)))) as Hseen.
  { rewrite Hprev. eapply seen_head_prefix; [done|]. apply load_head_seen. }
  pose proof (insert_row_inv _ _ Hd1 Hbuilt Hseen) as Hd2.
  pose proof (insert_row_prefix (build n (load_head d)) (others n d)) as Hp2.
  destruct (insert_row _ _) as [[] d2] eqn:E.
  - injection Hrun as <- <-. apply insert_row_accepts in E as [Hh ->]; [|done..].
    split_and!; [done|by etrans|]. exists n, (load_head d), (others n d).
    rewrite Hprev in Hh. split_and!; auto.
  - apply IH in Hrun as (H1 & H2 & H3); [|done]. simpl in *.
    assert (rows d `prefix_of` rows d2) by (by etrans).
    split_and!; [done|by etrans|]. destruct res as [r|e]; [|done].
    destruct H3 as (i & h & d3 & ? & ? & ? & ? & ? & ?). exists i, h, d3. split_and!; auto. by etrans.
Qed.
End StoreLemmas.

(** ** Properties *)

Section StoreProperties.
Context {B : Backend} (blake3_hex : string → string).

(** Interleaved writers: each reads the head, and inserts a record built on a head that it has read
    at some time; checkpoints are written in between. *)
Record aworld := mk_world { w_db : audit_db; w_read : list string }.

Inductive astep : aworld → aworld → Prop :=
| SRead d hs : astep (mk_world d hs) (mk_world d (load_head d :: hs))
| SInsert d hs h c : h ∈ hs →
    astep (mk_world d hs) (mk_world (insert_row (chained blake3_hex c h) d).2 hs)
| SCheckpoint d hs sign key_id :
    astep (mk_world d hs) (mk_world (write_checkpoint sign key_id d).2 hs).

Definition areachable (w : aworld) : Prop := rtc astep (mk_world empty_db []) w.

Lemma write_checkpoint_rows sign key_id d : rows (write_checkpoint sign key_id d).2 = rows d ∧
  next_seq (write_checkpoint sign key_id d).2 = next_seq d.
Proof. unfold write_checkpoint. by destruct (last_row d) as [[? ?]|]. Qed.

Lemma audit_inv_rows d d' : rows d' = rows d → next_seq d' = next_seq d →
  audit_inv blake3_hex d → audit_inv blake3_hex d'.
Proof. intros E1 E2 []. split; unfold persisted_records in *; by rewrite ?E1, ?E2. Qed.

Lemma write_checkpoint_inv sign key_id d :
  audit_inv blake3_hex d → audit_inv blake3_hex (write_checkpoint sign key_id d).2.
Proof. intros Hd. destruct (write_checkpoint_rows sign key_id d). by apply (audit_inv_rows d). Qed.

Lemma areachable_inv w :
  areachable w → audit_inv blake3_hex (w_db w) ∧ Forall (seen_head (w_db w)) (w_read w).
Proof.
  unfold areachable. intros H. remember (mk_world empty_db []) as w0 eqn:E0.
  assert (audit_inv blake3_hex (w_db w0) ∧ Forall (seen_head (w_db w0)) (w_read w0)) as H0.
  { subst. split; [|constructor]. by split; simpl; repeat constructor. }
  clear E0. induction H as [|w w' w'' Hstep _ IH]; [done|]. apply IH. clear IH.
  destruct H0 as [Hi Hs]. destruct Hstep as [d hs|d hs h c Hh|d hs sign k]; simpl in *.
  - split; [done|]. constructor; [apply load_head_seen|done].
  - rewrite Forall_forall in Hs. pose proof (Hs _ Hh) as Hseen. split.
    + apply insert_row_inv; [done|apply chained_built|done].
    + apply Forall_forall. intros x Hx. eapply seen_head_prefix; [apply insert_row_prefix|]. auto.
  - destruct (write_checkpoint_rows sign k d) as [E1 E2]. split.
    + by apply write_checkpoint_inv.
    + eapply Forall_impl; [exact Hs|]. intros x Hx. eapply seen_head_prefix; [|done]. by rewrite E1.
Qed.

Lemma areachable_db_inv d hs : areachable (mk_world d hs) → audit_inv blake3_hex d.
Proof. intros H. by destruct (areachable_inv _ H). Qed.

(** C2: however writers interleave their head reads and their inserts, the UNIQUE constraints keep
    the table one unbroken chain in [seq] order: no two rows continue one head. *)
Theorem audit_never_forks w :
  areachable w →
  verify_chain blake3_hex GENESIS_HASH (persisted_records (w_db w)) = true ∧
  NoDup (prev_hash <$> persisted_records (w_db w)) ∧ StronglySorted Z.lt (rows (w_db w)).*1.
Proof. intros [[] _]%areachable_inv. by split_and!. Qed.

(** [append_durable] under interference: it keeps the table one chain and never drops a row;
    a record it returns carries the caller's content and is the last row, hashed onto the row
    before it; otherwise it raises RuntimeError. *)
Theorem append_durable_spec now actor action target before res others d r d' :
  (∀ i, rely blake3_hex (others i)) → audit_inv blake3_hex d →
  append_durable blake3_hex now actor action target before res others d = (r, d') →
  audit_inv blake3_hex d' ∧ rows d `prefix_of` rows d' ∧
  match r with
  | Ok rec => ∃ i k s, i < 8 ∧ rows d' = rows d ++ k ++ [(s, rec)] ∧
      content_of rec = mk_content (isoformat (now i)) actor action target before res
  | Err e => e = "RuntimeError"
  end.
Proof.
  intros Ho Hd Hrun. apply (append_loop_spec blake3_hex) in Hrun as (H1 & H2 & H3); [|done..].
  split_and!; [done..|]. destruct r as [rec|e]; [|done].
  destruct H3 as (i & h & d1 & Hi & -> & _ & _ & [k Hk] & E). exists i, k, (next_seq d1).
  rewrite E, Hk, <- app_assoc. by split_and!.
Qed.

(** Without interference and without a hash collision, the first attempt wins. *)
Theorem append_uncontended now actor action target before res others d :
  let c := mk_content (isoformat (now 7)) actor action target before res in
  let rec := chained blake3_hex c (load_head d) in
  others 7 d = d → audit_inv blake3_hex d →
  NoDup (GENESIS_HASH :: (row_hash <$> persisted_records d ++ [rec])) →
  append_durable blake3_hex now actor action target before res others d =
  (Ok rec, mk_db (rows d ++ [(next_seq d, rec)]) (next_seq d + 1) (checkpoints d)).
Proof.
  intros c rec Ho Hd Hnd. unfold append_durable. simpl. rewrite Ho. fold c. fold rec.
  assert (unique_ok rec d = true) as Hu.
  { apply unique_ok_spec. rewrite fmap_app in Hnd.
    apply (NoDup_app (GENESIS_HASH :: _)) in Hnd as (Hnd & Hrec & _). split.
    - change (prev_hash rec) with (load_head d). rewrite load_head_after.
      by apply (head_not_continued blake3_hex); [destruct Hd|].
    - intros Hin. apply (Hrec (row_hash rec)); [by right|by left]. }
  unfold insert_row. by rewrite Hu.
Qed.

(** The seq values are 1..n: no INSERT was ever rejected on a backend that burns values. *)
Definition gap_free (d : audit_db) : Prop :=
  ∀ i row, rows d !! i = Some row → row.1 = (Z.of_nat i + 1)%Z.

Lemma last_row_spec d seq h :
  last_row d = Some (seq, h) → ∃ k r, rows d = k ++ [(seq, r)] ∧ row_hash r = h.
Proof.
  unfold last_row. destruct (last (rows d)) as [[s r]|] eqn:E; [|done]. simpl. intros [= -> <-].
  apply last_Some in E as [k E]. eauto.
Qed.

(** a checkpoint written over a table without gaps stays accepted while rows are only added
    after it, whoever adds them. *)
Theorem checkpoint_accepts_extension sign verify key_id d cp d1 d2 :
  (∀ m, verify m (sign m) = true) →
  audit_inv blake3_hex d → gap_free d → write_checkpoint sign key_id d = (Some cp, d1) →
  audit_inv blake3_hex d2 → rows d1 `prefix_of` rows d2 → latest_checkpoint d2 = Some cp →
  verify_latest_checkpoint blake3_hex verify d2 = Ok true.
Proof.
  intros Hsv Hd Hgap Hw Hd2 [k Hk] Hl. unfold verify_latest_checkpoint. rewrite Hl.
  unfold write_checkpoint in Hw. destruct (last_row d) as [[seq h]|] eqn:E; simplify_eq/=.
  apply last_row_spec in E as (l & r & El & <-).
  assert (seq = Z.of_nat (length l) + 1)%Z as ->.
  { apply (Hgap _ (seq, r)). by rewrite El, list_lookup_middle. }
  unfold verify_checkpoint. simpl. rewrite fromhex_hex, Hsv. simpl.
  assert (persisted_records d2 = l.*2 ++ r :: k.*2) as E2.
  { unfold persisted_records. by rewrite Hk, El, !fmap_app, <- app_assoc. }
  rewrite E2. rewrite (proj2 (Z.ltb_ge _ _)) by (rewrite length_app, length_fmap; simpl; lia).
  rewrite index_nonneg by lia. replace (Z.to_nat _) with (length l.*2) by (rewrite length_fmap; lia).
  rewrite list_lookup_middle by done. rewrite bool_decide_true by done. simpl.
  rewrite takeZ_nonneg by lia. f_equal. apply verify_chain_take. rewrite <- E2. apply Hd2.
Qed.

(** two tables that pass the check of one checkpoint hold the same records up to the anchor:
    rewriting, dropping or inserting rows there needs a hash collision. *)
Theorem checkpoint_anchors_prefix verify cp d1 d2 :
  (1 ≤ cp_seq cp)%Z →
  verify_checkpoint blake3_hex verify cp d1 = Ok true →
  verify_checkpoint blake3_hex verify cp d2 = Ok true →
  let anchored d := take (Z.to_nat (cp_seq cp)) (persisted_records d) in
  Forall2 same_record (anchored d1) (anchored d2) ∨ collision blake3_hex (anchored d1) (anchored d2).
Proof.
  intros Hseq H1 H2 anchored.
  assert (∀ d, verify_checkpoint blake3_hex verify cp d = Ok true →
    verify_chain blake3_hex GENESIS_HASH (anchored d) = true ∧
    head_after GENESIS_HASH (anchored d) = cp_row_hash cp) as Hcp; [|].
  { intros d H. unfold verify_checkpoint in H. rewrite index_nonneg, takeZ_nonneg in H by lia.
    repeat case_match; simplify_eq. fold (anchored d) in H. to_prop. split; [congruence|].
    unfold anchored. replace (Z.to_nat (cp_seq cp)) with (S (Z.to_nat (cp_seq cp - 1))) by lia.
    erewrite take_S_r by done. by rewrite head_after_snoc. }
  apply Hcp in H1 as [], H2 as []. apply (tamper_evident_gen blake3_hex); congruence.
Qed.

(** Reading every page, from the newest; [None] when a page raises. *)
Fixpoint read_pages (fuel limit : nat) (cursor : option Z) (d : audit_db)
    : option (list (Z * AuditRecord)) :=
  match fuel with
  | 0 => None
  | S n =>
      match persisted_records_page cursor limit d with
      | Ok (page, None) => Some page
      | Ok (page, Some c) => (app page) <$> read_pages n limit (Some c) d
      | Err _ => None
      end
  end.

Lemma read_pages_from limit d fuel cursor k :
  0 < limit → audit_inv blake3_hex d → length k < fuel →
  cursor_at fst (reverse (rows d)) cursor k → read_pages fuel limit cursor d = Some k.
Proof.
  intros Hl Hd. revert cursor k. induction fuel as [|n IH]; intros cursor k Hk Hc; [lia|]. simpl.
  assert (StronglySorted Z.gt (reverse (rows d)).*1) as Hs.
  { rewrite fmap_reverse. eapply StronglySorted_mono; [|apply StronglySorted_reverse, Hd].
    intros x y. unfold flip. lia. }
  unfold persisted_records_page. rewrite (filter_cursor fst _ _ _ Hs Hc).
  rewrite take_take, (Nat.min_l limit (limit + 1)), length_take by lia.
  destruct (decide _) as [Hlt|Hge].
  - destruct (cursor_next fst _ _ _ limit Hc) as (x & -> & Hc'); [lia|].
    rewrite (IH _ (drop limit k)); [|rewrite length_drop; lia|done]. simpl. by rewrite take_drop.
  - by rewrite take_ge by lia.
Qed.

(** following the cursors reads every row exactly once, newest first, in as many steps as
    there are rows at most. *)
Theorem audit_pages_tile limit d :
  0 < limit → audit_inv blake3_hex d →
  read_pages (S (length (rows d))) limit None d = Some (reverse (rows d)).
Proof. intros Hl Hd. apply read_pages_from; [done|done| |done]. rewrite length_reverse. lia. Qed.
End StoreProperties.

(** ** Witnesses and a counterexample *)

Definition sqlite : Backend := false.
Definition postgresql : Backend := true.

Definition demo_content (action : string) : content :=
  mk_content "2026-01-01T00:00:00+00:00" "alice" action "/srv/a" demo_before "ok".

(** Short hashes, so that the demonstrations evaluate quickly. *)
Definition short_hash (s : string) : string := "#" +:+ String.substring 0 1 s +:+ pretty (Z.of_nat (String.length s)).

Definition demo_append (b : Backend) (action : string) (d : audit_db) : audit_db :=
  (@insert_row b (chained short_hash (demo_content action) (load_head d)) d).2.

Definition demo_db (b : Backend) : audit_db := demo_append b "move" (demo_append b "quarantine" empty_db).

Lemma demo_db_reachable b : areachable (B := b) short_hash (mk_world (demo_db b)
  [load_head (demo_append b "quarantine" empty_db); GENESIS_HASH]).
Proof.
  eapply rtc_l; [apply SRead|]. eapply rtc_l; [apply (SInsert _ _ _ GENESIS_HASH (demo_content "quarantine")); left|].
  eapply rtc_l; [apply SRead|]. eapply rtc_l; [|apply rtc_refl].
  apply (SInsert (B := b) short_hash (demo_append b "quarantine" empty_db) _ _ (demo_content "move")). left.
Qed.

Lemma demo_db_inv b : audit_inv short_hash (demo_db b).
Proof. eapply (areachable_db_inv (B := b)). apply demo_db_reachable. Qed.

Lemma audit_never_forks_witness :
  verify_chain short_hash GENESIS_HASH (persisted_records (w_db (mk_world (demo_db sqlite)
    [load_head (demo_append sqlite "quarantine" empty_db); GENESIS_HASH]))) = true.
Proof. exact (proj1 (audit_never_forks (B := sqlite) short_hash _ (demo_db_reachable sqlite))). Defined.

(** A writer that commits a row of its own before each of the first two flushes. *)
Definition demo_other (i : nat) (d : audit_db) : audit_db :=
  if bool_decide (6 ≤ i) then demo_append sqlite "grant" d else d.

Lemma demo_other_rely i : rely short_hash (demo_other i).
Proof.
  intros d Hd. unfold demo_other. case_bool_decide; [|done].
  split; [|apply insert_row_prefix]. apply insert_row_inv; [done|apply chained_built|apply load_head_seen].
Qed.

Definition demo_now (i : nat) : datetime := utc (seconds (Z.of_nat i)).

Definition demo_run : result string AuditRecord * audit_db :=
  append_durable (B := sqlite) short_hash demo_now "bob" "move" "/srv/b" demo_before "ok" demo_other
    empty_db.

Lemma empty_db_inv : audit_inv short_hash empty_db.
Proof. by split; simpl; repeat constructor. Qed.

(** The third attempt wins, after the other writer has added two rows. *)
Lemma append_durable_spec_witness :
  audit_inv short_hash demo_run.2 ∧ length (rows demo_run.2) = 3 ∧ is_ok demo_run.1 = true.
Proof.
  assert (length (rows demo_run.2) = 3 ∧ is_ok demo_run.1 = true) as H by (vm_compute; done).
  refine (conj _ H). clear H.
  exact (proj1 (append_durable_spec short_hash demo_now "bob" "move" "/srv/b" demo_before "ok" demo_other
    empty_db demo_run.1 demo_run.2 demo_other_rely empty_db_inv (surjective_pairing _))).
Defined.

Lemma append_uncontended_witness :
  is_ok (append_durable (B := sqlite) short_hash demo_now "bob" "move" "/srv/b" demo_before "ok"
           (λ _ d, d) (demo_db sqlite)).1 = true.
Proof.
  rewrite (append_uncontended (B := sqlite) short_hash demo_now "bob" "move" "/srv/b" demo_before "ok"
    (λ _ d, d) (demo_db sqlite)); [exact eq_refl|exact eq_refl|apply demo_db_inv|].
  apply (bool_decide_unpack _). vm_compute. exact I.
Defined.

(** A symbolic signature scheme: the tag is a prefix. *)
Definition demo_sign (m : string) : string := "sig:" +:+ m.
Definition demo_verify (m s : string) : bool := bool_decide (s = demo_sign m).

Definition demo_cp_db : audit_db := (write_checkpoint demo_sign "k1" (demo_db sqlite)).2.

Lemma demo_cp_inv : audit_inv short_hash (demo_append sqlite "late" demo_cp_db).
Proof.
  apply insert_row_inv; [|apply chained_built|apply load_head_seen].
  apply write_checkpoint_inv, demo_db_inv.
Qed.

Lemma gap_free_seqs d : (rows d).*1 = Z.of_nat <$> seq 1 (length (rows d)) → gap_free d.
Proof.
  intros E i row Hi. assert ((rows d).*1 !! i = Some row.1) as H by by rewrite list_lookup_fmap, Hi.
  rewrite E, list_lookup_fmap in H. apply fmap_Some in H as (j & [Hj ?]%lookup_seq & ->). lia.
Qed.

Lemma demo_gap_free : gap_free (demo_db sqlite).
Proof. apply gap_free_seqs. vm_compute. reflexivity. Qed.

Lemma demo_append_prefix b action d : rows d `prefix_of` rows (demo_append b action d).
Proof. unfold demo_append. apply insert_row_prefix. Qed.

Lemma demo_verify_sign m : demo_verify m (demo_sign m) = true.
Proof. by apply bool_decide_eq_true_2. Qed.

Definition demo_cp : CheckpointRow := default (mk_cp 0 "" "" "") (latest_checkpoint demo_cp_db).

Lemma checkpoint_accepts_extension_witness :
  verify_latest_checkpoint short_hash demo_verify (demo_append sqlite "late" demo_cp_db) = Ok true.
Proof.
  refine (checkpoint_accepts_extension short_hash demo_sign demo_verify "k1" (demo_db sqlite) demo_cp
    demo_cp_db _ demo_verify_sign (demo_db_inv sqlite) demo_gap_free _ demo_cp_inv
    (demo_append_prefix sqlite "late" demo_cp_db) _); vm_compute; reflexivity.
Defined.

Lemma checkpoint_anchors_prefix_witness :
  let anchored d := take (Z.to_nat (cp_seq demo_cp)) (persisted_records d) in
  let d2 := demo_append sqlite "late" demo_cp_db in
  Forall2 same_record (anchored demo_cp_db) (anchored d2)
  ∨ collision short_hash (anchored demo_cp_db) (anchored d2).
Proof.
  apply (checkpoint_anchors_prefix short_hash demo_verify demo_cp); vm_compute; congruence.
Defined.

Lemma audit_pages_tile_witness :
  read_pages 3 1 None (demo_db sqlite) = Some (reverse (rows (demo_db sqlite))).
Proof. apply (audit_pages_tile short_hash 1 (demo_db sqlite)); [lia|apply demo_db_inv]. Defined.

(** On PostgreSQL an append that loses the head once leaves a gap in [seq]; the next checkpoint is
    then rejected, although the table is intact: [records[cp.seq - 1]] takes [seq] for a position. *)
Definition gap_db : audit_db :=
  let d1 := demo_append postgresql "quarantine" empty_db in
  let lost := (@insert_row postgresql (chained short_hash (demo_content "grant") GENESIS_HASH) d1).2 in
  (write_checkpoint demo_sign "k1" (demo_append postgresql "move" lost)).2.

Theorem burned_seq_fails_intact_log :
  verify_chain short_hash GENESIS_HASH (persisted_records gap_db) = true ∧
  verify_latest_checkpoint short_hash demo_verify gap_db = Ok false.
Proof. split; vm_compute; reflexivity. Qed.
