(* ===== verification/PosixPath.v ===== *)
(** POSIX paths: [posixpath.normpath] and [pathlib.PurePosixPath] of the Python standard library, as
    [src/fathom/security/paths.py] and the organiser use them, and the path checks of
    [security/paths.py] themselves. *)

From S2P Require Import Prelude PyStr.

(** ** The standard library *)

Definition SLASH : ascii := "/"%char.
Definition NULCH : ascii := ascii_of_N 0.

(** Leading slashes that POSIX keeps: exactly two stay two, three or more are one. *)
Definition initial_slashes (s : string) : nat :=
  if startswith "///" s then 1 else if startswith "//" s then 2 else if startswith "/" s then 1 else 0.

Definition slashes (n : nat) : string := match n with 0 => "" | 1 => "/" | _ => "//" end.

(** One step of [normpath]'s loop over the components; the stack is in reverse order. *)
Definition push (abs : bool) (stack : list string) (comp : string) : list string :=
  if bool_decide (comp = "") || bool_decide (comp = ".") then stack
  else if negb (bool_decide (comp = "..")) || (negb abs && bool_decide (stack = []))
          || bool_decide (head stack = Some "..")
  then comp :: stack
  else tail stack.

Definition resolve (abs : bool) (comps : list string) : list string :=
  reverse (foldl (push abs) [] comps).

Definition is_abs (s : string) : bool := bool_decide (0 < initial_slashes s).

(** [... or '.']. *)
Definition or_dot (s : string) : string := if bool_decide (s = "") then "." else s.

Definition normpath (s : string) : string :=
  or_dot (slashes (initial_slashes s) +:+ join "/" (resolve (is_abs s) (split_char SLASH s))).

Record PurePosixPath := mk_path { p_root : nat; p_parts : list string }.

#[export] Instance PurePosixPath_eq_dec : EqDecision PurePosixPath.
Proof. solve_decision. Defined.

Definition kept (comp : string) : Prop := comp ≠ "" ∧ comp ≠ ".".

#[export] Instance kept_dec comp : Decision (kept comp).
Proof. unfold kept. solve_decision. Defined.

Definition parse_path (s : string) : PurePosixPath :=
  mk_path (initial_slashes s) (filter kept (split_char SLASH s)).

Definition path_str (p : PurePosixPath) : string :=
  or_dot (slashes (p_root p) +:+ join "/" (p_parts p)).

Definition is_absolute (p : PurePosixPath) : bool := bool_decide (0 < p_root p).

(** [p / q]: an absolute right operand replaces the left one. *)
Definition path_join (p q : PurePosixPath) : PurePosixPath :=
  if is_absolute q then q else mk_path (p_root p) (p_parts p ++ p_parts q).

(** [p.parents]: the proper ancestors. *)
Definition parents (p : PurePosixPath) : list PurePosixPath :=
  (λ n, mk_path (p_root p) (take n (p_parts p))) <$> reverse (seq 0 (length (p_parts p))).

(** [p.parent] and [p.name]. *)
Definition path_parent (p : PurePosixPath) : PurePosixPath :=
  mk_path (p_root p) (take (length (p_parts p) - 1) (p_parts p)).
Definition path_name (p : PurePosixPath) : string := default "" (last (p_parts p)).

(** [posixpath.join(a, b)] and [posixpath.basename]. *)
Definition posix_join (a b : string) : string :=
  if startswith "/" b then b
  else if bool_decide (a = "") || endswith "/" a then a +:+ b else a +:+ "/" +:+ b.

Definition basename (s : string) : string := default "" (last (split_char SLASH s)).

(** ** [security/paths.py] *)

Inductive PathSafetyError := PathSafety (msg : string).

(** The file system, as far as the existence checks look at it. *)
Record path_kinds := mk_kinds { exists_ : string → bool; is_dir : string → bool; is_file : string → bool }.

Definition validate_config_path (fs : path_kinds) (must_exist must_be_dir must_be_file : bool)
    (text : string) : result PathSafetyError PurePosixPath :=
  _ ← raise_if (bool_decide (text = "")) (PathSafety "path is empty");
  _ ← raise_if (has_char NULCH text) (PathSafety "path contains a NUL byte");
  _ ← raise_if (negb (is_absolute (parse_path text))) (PathSafety "path must be absolute");
  let normalised := parse_path (normpath text) in
  let must_exist := must_exist || must_be_dir || must_be_file in
  _ ← raise_if (must_exist && negb (exists_ fs (path_str normalised))) (PathSafety "path does not exist");
  _ ← raise_if (must_be_dir && negb (is_dir fs (path_str normalised))) (PathSafety "path is not a directory");
  _ ← raise_if (must_be_file && negb (is_file fs (path_str normalised))) (PathSafety "path is not a regular file");
  Ok normalised.

Definition safe_path_join (base candidate : string) : result PathSafetyError PurePosixPath :=
  _ ← raise_if (has_char NULCH base || has_char NULCH candidate) (PathSafety "path contains a NUL byte");
  let base_norm := parse_path (normpath base) in
  _ ← raise_if (negb (is_absolute base_norm)) (PathSafety "base must be absolute");
  let joined := parse_path (normpath (path_str (path_join base_norm (parse_path candidate)))) in
  _ ← raise_if (negb (bool_decide (joined = base_norm)) && negb (bool_decide (base_norm ∈ parents joined)))
        (PathSafety "path escapes base");
  Ok joined.

(** ** The scopes of [agent/config.py] *)

(** [validate_config_path] without existence checks never looks at the file system. *)
Definition no_fs : path_kinds := mk_kinds (λ _, false) (λ _, false) (λ _, false).

Definition config_path (text : string) : option PurePosixPath :=
  match validate_config_path no_fs false false false text with Ok p => Some p | Err _ => None end.

Definition is_within (root candidate : PurePosixPath) : bool :=
  bool_decide (candidate = root) || bool_decide (root ∈ parents candidate).

(** [AgentConfig.in_scope]; the configured roots were validated when the config was loaded, a root
    that does not validate would raise ([None] here) and grants nothing. *)
Definition in_scope (scan_scope : list string) (target : string) : bool :=
  match config_path target with
  | None => false
  | Some candidate =>
      existsb (λ root, match config_path root with Some r => is_within r candidate | None => false end) scan_scope
  end.

Definition in_fullbit_scope (fullbit_scope : list string) (target : string) : bool :=
  match fullbit_scope with [] => false | _ => in_scope fullbit_scope target end.

(** [AgentConfig.is_excluded]: an unsafe target counts as excluded. *)
Definition is_excluded (exclude_scope : list string) (target : string) : bool :=
  match exclude_scope with
  | [] => false
  | _ =>
      match config_path target with
      | None => true
      | Some _ => in_scope exclude_scope target
      end
  end.

(** The validator [_fullbit_within_scan_scope]. *)
Definition _fullbit_within_scan_scope (scan_scope fullbit_scope : list string) : bool :=
  forallb (in_scope scan_scope) fullbit_scope.

Example normpath_ex1 : normpath "/srv/../etc//./x/" = "/etc/x". Proof. reflexivity. Qed.
Example normpath_ex2 : normpath "///a/.." = "/". Proof. reflexivity. Qed.
Example normpath_ex3 : normpath "../a/../../b" = "../../b". Proof. reflexivity. Qed.
Example normpath_ex4 : normpath "//a/../.." = "//". Proof. reflexivity. Qed.
Example join_ex1 : is_ok (safe_path_join "/srv/data" "../data/x") = true. Proof. reflexivity. Qed.
Example join_ex2 : is_ok (safe_path_join "/srv/data" "/etc/passwd") = false. Proof. reflexivity. Qed.

(** ** Components of a normalised path *)

(** A component that can occur in a parsed path. *)
Definition component (c : string) : Prop := kept c ∧ has_char SLASH c = false.

(** A stack (innermost first) of a normal path: names, then [..] entries if the path is relative. *)
Fixpoint normal_stack (abs : bool) (stack : list string) : Prop :=
  match stack with
  | [] => True
  | c :: rest => component c ∧ normal_stack abs rest ∧ (c = ".." → abs = false ∧ Forall (eq "..") rest)
  end.

Lemma push_normal abs stack comp :
  has_char SLASH comp = false → normal_stack abs stack → normal_stack abs (push abs stack comp).
Proof.
  intros Hc Hs. unfold push. destruct (bool_decide (comp = "")) eqn:E1; [done|].
  destruct (bool_decide (comp = ".")) eqn:E2; [done|]. simpl. to_prop.
  destruct (decide (comp = "..")) as [->|Hne].
  - simpl. destruct stack as [|c rest]; simpl.
    + destruct abs; simpl; [done|]. split_and!; [done|done|]. split; [done|constructor].
    + rewrite andb_false_r. simpl. destruct Hs as (H1 & H2 & H3). case_bool_decide as Hh; [|done].
      injection Hh as ->. destruct (H3 eq_refl) as [-> Hf]. split; [done|]. split; [done|].
      intros _. split; [done|]. by constructor.
  - rewrite bool_decide_false by done. simpl. split; [done|]. split; [done|]. done.
Qed.

Lemma foldl_push_normal abs l stack :
  Forall (λ c, has_char SLASH c = false) l → normal_stack abs stack →
  normal_stack abs (foldl (push abs) stack l).
Proof.
  intros Hl. revert stack. induction Hl as [|c l Hc _ IH]; intros stack Hs; [done|].
  simpl. by apply IH, push_normal.
Qed.

Lemma foldl_push_filter abs l stack :
  foldl (push abs) stack (filter kept l) = foldl (push abs) stack l.
Proof.
  revert stack. induction l as [|c l IH]; intros stack; [done|]. rewrite filter_cons.
  case_decide as H; simpl; [done|]. rewrite IH. f_equal. unfold push.
  destruct (decide (c = "")) as [->|]; [done|]. destruct (decide (c = ".")) as [->|]; [done|].
  exfalso. by apply H.
Qed.

Lemma normal_stack_component abs stack : normal_stack abs stack → Forall component stack.
Proof. induction stack as [|c l IH]; constructor; naive_solver. Qed.

Lemma normal_stack_abs stack : normal_stack true stack → Forall (λ c, c ≠ "..") stack.
Proof. induction stack as [|c l IH]; constructor; naive_solver. Qed.

(** Pushing the entries of a normal stack, outermost first, rebuilds it. *)
Lemma foldl_push_rebuild abs stack : normal_stack abs stack → foldl (push abs) [] (reverse stack) = stack.
Proof.
  induction stack as [|c l IH]; [done|]. intros (Hc & Hl & Hdd). rewrite reverse_cons, foldl_app. simpl.
  rewrite IH by done. destruct Hc as [[Hc1 Hc2] _]. unfold push.
  rewrite !bool_decide_false by done. simpl. destruct (decide (c = "..")) as [->|Hne].
  - destruct (Hdd eq_refl) as [-> Hf]. destruct Hf as [|x l' <- _]; done.
  - by rewrite bool_decide_false.
Qed.

Lemma resolve_idem abs l :
  Forall (λ c, has_char SLASH c = false) l → resolve abs (resolve abs l) = resolve abs l.
Proof.
  intros Hl. unfold resolve. f_equal. apply foldl_push_rebuild.
  by apply foldl_push_normal.
Qed.

(** Names appended to a resolved path stay as they are. *)
Lemma resolve_app_names abs l names :
  Forall component names → Forall (λ c, c ≠ "..") names →
  resolve abs (l ++ names) = resolve abs l ++ names.
Proof.
  intros Hc Hn. unfold resolve. rewrite foldl_app. generalize (foldl (push abs) [] l) as st.
  induction Hc as [|c names [[Hc1 Hc2] _] _ IH]; intros st; simpl; [by rewrite app_nil_r|].
  inversion_clear Hn. rewrite IH by done. unfold push. rewrite !bool_decide_false by done. simpl.
  by rewrite reverse_cons, <- app_assoc.
Qed.

Lemma resolve_component abs l :
  Forall (λ c, has_char SLASH c = false) l → Forall component (resolve abs l).
Proof.
  intros Hl. unfold resolve. apply Forall_reverse, (normal_stack_component abs).
  by apply foldl_push_normal.
Qed.

Lemma resolve_no_dotdot l :
  Forall (λ c, has_char SLASH c = false) l → Forall (λ c, c ≠ "..") (resolve true l).
Proof. intros Hl. apply Forall_reverse, normal_stack_abs. by apply foldl_push_normal. Qed.

Lemma foldl_push_Forall (P : string → Prop) abs l st :
  Forall P l → Forall P st → Forall P (foldl (push abs) st l).
Proof.
  intros Hl. revert st. induction Hl as [|c l Hc _ IH]; intros st Hst; [done|]. cbn [foldl]. apply IH.
  unfold push. destruct (_ || _); [done|]. destruct (_ || _); [by constructor|]. by apply Forall_tail.
Qed.

Lemma resolve_Forall (P : string → Prop) abs l : Forall P l → Forall P (resolve abs l).
Proof. intros H. by apply Forall_reverse, foldl_push_Forall. Qed.

(** ** Printing and parsing *)

Definition no_lead (w : string) : Prop := match w with "" => True | String c _ => c ≠ SLASH end.

Lemma startswith_cons c p t : startswith (String c p) (String c t) = startswith p t.
Proof. unfold startswith. cbn [String.prefix]. by destruct (ascii_dec c c). Qed.

Lemma startswith_ne c d p t : c ≠ d → startswith (String c p) (String d t) = false.
Proof. unfold startswith. cbn [String.prefix]. by destruct (ascii_dec c d). Qed.

Lemma startswith_nil t : startswith "" t = true.
Proof. by destruct t. Qed.

Lemma initial_slashes_app n w : n ≤ 2 → no_lead w → initial_slashes (slashes n +:+ w) = n.
Proof.
  intros Hn Hw. assert (∀ t, startswith (String "/" t) w = false) as Hs.
  { intros t. destruct w as [|c w]; [done|]. by apply startswith_ne, not_eq_sym. }
  destruct n as [|[|[|n]]]; [| | |lia]; unfold initial_slashes; simpl;
    by rewrite ?startswith_cons, ?Hs, ?startswith_nil.
Qed.

Lemma component_no_lead c w : component c → no_lead (c +:+ w).
Proof.
  intros [[Hc1 _] Hc2]. destruct c as [|a c]; [done|]. simpl. rewrite has_char_cons in Hc2. to_prop.
  intros ->. done.
Qed.

Lemma join_no_lead comps : Forall component comps → no_lead (join "/" comps).
Proof.
  destruct 1 as [|c l Hc Hl]; [done|]. destruct l as [|c' l].
  - rewrite join_one, <- (app_empty_r c). by apply component_no_lead.
  - rewrite join_cons. by apply component_no_lead.
Qed.

Lemma initial_slashes_le s : initial_slashes s ≤ 2.
Proof. unfold initial_slashes. repeat case_match; lia. Qed.

Lemma filter_split_slashes n w : n ≤ 2 →
  filter kept (split_char SLASH (slashes n +:+ w)) = filter kept (split_char SLASH w).
Proof. intros Hn. destruct n as [|[|[|n]]]; [done| | |lia]; simpl; by rewrite !filter_cons_False by (by intros []). Qed.

Lemma filter_split_join comps : Forall component comps → filter kept (split_char SLASH (join "/" comps)) = comps.
Proof.
  intros Hc. destruct (decide (comps = [])) as [->|Hne]; [done|].
  rewrite (split_join SLASH) by (done || (eapply Forall_impl; [done|]; by intros ? [])).
  apply filter_all. eapply Forall_impl; [done|]. by intros ? [].
Qed.

(** [str] followed by parsing, for a path in normal form. *)
Lemma parse_path_str n comps : n ≤ 2 → Forall component comps →
  parse_path (or_dot (slashes n +:+ join "/" comps)) = mk_path n comps.
Proof.
  intros Hn Hc. unfold or_dot. case_bool_decide as E.
  - apply app_eq_empty_s in E as [E1 E2]. destruct n as [|[|n]]; [|done..].
    destruct Hc as [|c l [[Hc _] _] _]; [done|]. exfalso. apply Hc. destruct l; [done|].
    rewrite join_cons in E2. by apply app_eq_empty_s in E2 as [-> _].
  - unfold parse_path. rewrite initial_slashes_app by auto using join_no_lead.
    by rewrite filter_split_slashes, filter_split_join.
Qed.

Lemma split_components s : Forall (λ c, has_char SLASH c = false) (split_char SLASH s).
Proof. apply split_char_no_sep. Qed.

#[local] Hint Resolve split_components initial_slashes_le resolve_component : core.

Lemma parse_normpath s :
  parse_path (normpath s) = mk_path (initial_slashes s) (resolve (is_abs s) (split_char SLASH s)).
Proof. unfold normpath. apply parse_path_str; auto. Qed.

Lemma parse_path_components s : Forall component (p_parts (parse_path s)).
Proof.
  simpl. apply Forall_forall. intros c [Hk Hc]%list_elem_of_filter. split; [done|].
  pose proof (split_components s) as Hs. rewrite Forall_forall in Hs. by apply Hs.
Qed.

Lemma initial_slashes_normpath s : initial_slashes (normpath s) = initial_slashes s.
Proof. change (initial_slashes (normpath s)) with (p_root (parse_path (normpath s))). by rewrite parse_normpath. Qed.

Lemma resolve_split s abs : resolve abs (split_char SLASH s) = resolve abs (p_parts (parse_path s)).
Proof. unfold resolve. simpl. by rewrite foldl_push_filter. Qed.

(** [normpath] of the string of a path resolves its parts. *)
Lemma parse_normpath_str p : p_root p ≤ 2 → Forall component (p_parts p) →
  parse_path (normpath (path_str p)) = mk_path (p_root p) (resolve (is_absolute p) (p_parts p)).
Proof.
  intros Hn Hc. rewrite parse_normpath, resolve_split. unfold path_str.
  assert (initial_slashes (or_dot (slashes (p_root p) +:+ join "/" (p_parts p))) = p_root p) as E.
  { change (p_root (parse_path (or_dot (slashes (p_root p) +:+ join "/" (p_parts p)))) = p_root p).
    by rewrite parse_path_str. }
  unfold is_abs. rewrite E. by rewrite parse_path_str.
Qed.

Lemma elem_of_parents p q : q ∈ parents p ↔
  p_root q = p_root p ∧ ∃ c k, p_parts p = p_parts q ++ c :: k.
Proof.
  unfold parents. rewrite list_elem_of_fmap. split.
  - intros (n & -> & Hn). rewrite elem_of_reverse, elem_of_seq in Hn. simpl. split; [done|].
    destruct (drop n (p_parts p)) as [|c k] eqn:E.
    + apply (f_equal length) in E. rewrite length_drop in E. simpl in E. lia.
    + exists c, k. by rewrite <- E, take_drop.
  - intros [Hr (c & k & E)]. exists (length (p_parts q)). rewrite E, take_app_length. split.
    + destruct q; simpl in *; congruence.
    + rewrite elem_of_reverse, elem_of_seq, length_app. simpl. lia.
Qed.

(** Lexically inside: the same root, and the parts of [base] first. *)
Definition within (base p : PurePosixPath) : Prop :=
  p_root p = p_root base ∧ p_parts base `prefix_of` p_parts p.

Lemma within_parents base p : within base p ↔ p = base ∨ base ∈ parents p.
Proof.
  rewrite elem_of_parents. unfold within. split.
  - intros [Hr [[|c k] E]]; [left|right; eauto]. rewrite app_nil_r in E. destruct p, base; simpl in *; congruence.
  - intros [->|[Hr (c & k & E)]]; [done|]. split; [done|]. by exists (c :: k).
Qed.

(** A validated path is in normal form: its text validates to the path itself. *)
Lemma config_path_spec s p :
  config_path s = Some p → p = parse_path (normpath s) ∧ is_absolute p = true ∧ has_char NULCH s = false.
Proof.
  unfold config_path, validate_config_path. destruct (bool_decide (s = "")); [done|]. simpl. destruct (has_char NULCH s) eqn:En; [done|]. simpl.
  destruct (is_absolute (parse_path s)) eqn:Ea; [|done]. simpl. intros [= <-]. split_and!; [done| |done].
  rewrite parse_normpath. exact Ea.
Qed.

Lemma config_path_str s p : config_path s = Some p → config_path (path_str p) = Some p.
Proof.
  intros (-> & Ha & Hn)%config_path_spec.
  assert (Forall component (p_parts (parse_path (normpath s)))) as Hc by apply parse_path_components.
  assert (parse_path (path_str (parse_path (normpath s))) = parse_path (normpath s)) as Hp.
  { unfold path_str. rewrite parse_path_str; [by destruct (parse_path (normpath s))|simpl; auto|done]. }
  assert (parse_path (normpath (path_str (parse_path (normpath s)))) = parse_path (normpath s)) as Hr.
  { rewrite parse_normpath_str by (simpl; auto). rewrite Ha. rewrite (parse_normpath s) in Ha |- *. cbn [p_root p_parts] in *. f_equal.
    change (is_abs s = true) in Ha. rewrite Ha. by apply resolve_idem. }
  unfold config_path, validate_config_path. rewrite Hp, Ha, Hr.
  assert (has_char NULCH (path_str (parse_path (normpath s))) = false) as ->.
  { rewrite parse_normpath. unfold path_str, or_dot. cbn [p_root p_parts]. case_bool_decide; [done|].
    rewrite has_char_app. apply orb_false_iff. split; [by destruct (initial_slashes s) as [|[|[|]]]|].
    apply join_no_char; [done|]. by apply resolve_Forall, split_char_other. }
  rewrite bool_decide_false; [done|]. intros E. rewrite E in Hp. rewrite <- Hp in Ha. done.
Qed.

(** ** Properties *)

(** [normpath] is idempotent. *)
Theorem normpath_idem s : normpath (normpath s) = normpath s.
Proof.
  unfold normpath at 1. rewrite initial_slashes_normpath. unfold is_abs. rewrite initial_slashes_normpath.
  fold (is_abs s). rewrite resolve_split, parse_normpath. simpl. by rewrite resolve_idem.
Qed.

Lemma parse_path_good s : p_root (parse_path s) ≤ 2 ∧ Forall component (p_parts (parse_path s)).
Proof. split; [apply initial_slashes_le|apply parse_path_components]. Qed.

Lemma path_join_good p q :
  p_root p ≤ 2 ∧ Forall component (p_parts p) → p_root q ≤ 2 ∧ Forall component (p_parts q) →
  p_root (path_join p q) ≤ 2 ∧ Forall component (p_parts (path_join p q)).
Proof. intros [] []. unfold path_join. destruct (is_absolute q); simpl; auto using Forall_app_2. Qed.

(** What [safe_path_join] resolves: the join with its [..] entries applied. *)
Definition resolved (p : PurePosixPath) : PurePosixPath :=
  mk_path (p_root p) (resolve (is_absolute p) (p_parts p)).

Lemma safe_path_join_spec base candidate p :
  let b := parse_path (normpath base) in
  safe_path_join base candidate = Ok p ↔
  has_char NULCH base = false ∧ has_char NULCH candidate = false ∧ is_absolute b = true ∧
  p = resolved (path_join b (parse_path candidate)) ∧ within b p.
Proof.
  intros b. unfold safe_path_join. fold b.
  destruct (path_join_good b (parse_path candidate)) as [Hj1 Hj2]; [apply parse_path_good..|].
  rewrite (parse_normpath_str _ Hj1 Hj2). fold (resolved (path_join b (parse_path candidate))).
  rewrite within_parents. split.
  - intros (? & H1%raise_if_ok & (? & H2%raise_if_ok & (? & H3%raise_if_ok & [= <-])%bind_ok)%bind_ok)%bind_ok.
    to_prop. split_and!; [done..|]. destruct H3; to_prop; auto.
  - intros (-> & -> & -> & -> & Hw). simpl.
    destruct Hw as [Hw|Hw]; [by rewrite (bool_decide_true (_ = b))|].
    rewrite (bool_decide_true (b ∈ _)) by done. by rewrite andb_false_r.
Qed.

(** a path that [safe_path_join] returns is absolute, holds no [..], and lies lexically
    inside the normalised base. *)
Theorem safe_path_join_contained base candidate p :
  safe_path_join base candidate = Ok p →
  within (parse_path (normpath base)) p ∧ is_absolute p = true ∧ Forall (λ c, c ≠ "..") (p_parts p).
Proof.
  intros (_ & _ & Hb & -> & Hw)%safe_path_join_spec. split; [done|].
  assert (is_absolute (path_join (parse_path (normpath base)) (parse_path candidate)) = true) as Hj.
  { unfold path_join. by destruct (is_absolute (parse_path candidate)) eqn:E. }
  split; [done|]. unfold resolved. rewrite Hj. simpl. apply resolve_no_dotdot.
  destruct (path_join_good (parse_path (normpath base)) (parse_path candidate)) as [_ Hc];
    [apply parse_path_good..|]. eapply Forall_impl; [done|]. by intros ? [].
Qed.

(** A relative candidate made of names is accepted, and the result is the base with exactly
    those names below it: the check refuses nothing that it need not. *)
Theorem safe_path_join_names base candidate :
  has_char NULCH base = false → has_char NULCH candidate = false →
  is_abs base = true → is_abs candidate = false →
  Forall (λ c, c ≠ "..") (p_parts (parse_path candidate)) →
  safe_path_join base candidate =
  Ok (mk_path (initial_slashes base)
        (p_parts (parse_path (normpath base)) ++ p_parts (parse_path candidate))).
Proof.
  intros H1 H2 H3 H4 H5. apply safe_path_join_spec. rewrite parse_normpath. unfold is_abs in H3, H4.
  unfold path_join, resolved, is_absolute. simpl. rewrite H4. unfold is_abs. rewrite H3. simpl.
  split_and!; [done..| |split; [done|by eexists]]. f_equal. rewrite H3.
  rewrite resolve_app_names by (apply (parse_path_components candidate) || done).
  by rewrite resolve_idem.
Qed.

Lemma is_within_spec root p : is_within root p = true ↔ within root p.
Proof. unfold is_within. rewrite orb_true_iff, !bool_decide_eq_true, within_parents. done. Qed.

Lemma in_scope_spec scope target :
  in_scope scope target = true ↔
  ∃ c root r, config_path target = Some c ∧ root ∈ scope ∧ config_path root = Some r ∧ within r c.
Proof.
  unfold in_scope. destruct (config_path target) as [c|]; [|naive_solver].
  rewrite existsb_exists. split.
  - intros (root & Hin%list_elem_of_In & H). destruct (config_path root) as [r|] eqn:E; [|done].
    apply is_within_spec in H. eauto 10.
  - intros (c' & root & r & [= <-] & Hin & E & H). exists root. split; [by apply list_elem_of_In|].
    rewrite E. by apply is_within_spec.
Qed.

Lemma within_trans p q r : within p q → within q r → within p r.
Proof. intros [E1 H1] [E2 H2]. split; [congruence|by etrans]. Qed.

(** in a validated configuration the full-bit scope only narrows the scan scope: whatever may
    be read in full may be scanned. *)
Theorem fullbit_narrows_scan scan_scope fullbit_scope target :
  _fullbit_within_scan_scope scan_scope fullbit_scope = true →
  in_fullbit_scope fullbit_scope target = true → in_scope scan_scope target = true.
Proof.
  unfold _fullbit_within_scan_scope, in_fullbit_scope. rewrite forallb_forall. intros Hval Hin.
  assert (in_scope fullbit_scope target = true) as (c & root & r & Hc & Hroot & Hr & Hw)%in_scope_spec
    by by destruct fullbit_scope.
  apply list_elem_of_In, Hval, in_scope_spec in Hroot as (r' & root' & s & Hr' & Hroot' & Hs & Hw').
  apply in_scope_spec. exists c, root', s. split_and!; [done..|]. apply (within_trans _ r); congruence.
Qed.

Lemma fullbit_narrows_scan_witness : in_scope ["/srv"; "/tank/a"] "/tank/a/x/f" = true.
Proof. apply (fullbit_narrows_scan _ ["/tank/a/x"]); vm_compute; reflexivity. Defined.

Lemma safe_path_join_contained_witness :
  ∃ p, safe_path_join "/srv/data" "sub/../../data/x" = Ok p ∧ within (parse_path "/srv/data") p.
Proof.
  eexists. split; [vm_compute; reflexivity|].
  eapply (safe_path_join_contained "/srv/data" "sub/../../data/x"). vm_compute. reflexivity.
Defined.

Lemma safe_path_join_names_witness :
  safe_path_join "/srv/./data/" "a//b" = Ok (mk_path 1 ["srv"; "data"; "a"; "b"]).
Proof. apply safe_path_join_names; vm_compute; repeat constructor; discriminate. Defined.
