(* ===== verification/Walk.v ===== *)
(** The metadata walk of a local file system ([src/fathom/backends/posix.py]) and its ZFS variant
    ([backends/zfs.py]).

    The operating system is a section parameter: what [os.scandir] lists for a directory (up to the
    first error), what [os.lstat] and [os.path.realpath] return.  An [OSError] of one call is [None].
    The worker pool is a step relation: which worker runs next is any choice. *)

From Stdlib Require Import Permutation.
From S2P Require Import Prelude PyStr PosixPath Staging.

(** ** What the operating system reports *)

Inductive file_kind := KDir | KLink | KOther.

#[export] Instance file_kind_eq_dec : EqDecision file_kind.
Proof. solve_decision. Defined.

Record stat_result := mk_stat {
  st_kind : file_kind; st_size : Z; st_blocks : option Z; st_mtime : Z; st_ctime : Z; st_uid : Z; st_gid : Z;
  st_ino : Z; st_dev : Z;
}.

(** [de_stat] without following a link, [de_target] following it. *)
Record DirEntry := mk_dirent {
  de_path : string; de_name : string; de_stat : option stat_result; de_target : option stat_result;
}.

Definition de_is_dir (follow : bool) (de : DirEntry) : bool :=
  match (if follow then de_target de else de_stat de) with
  | Some st => bool_decide (st_kind st = KDir)
  | None => false
  end.
Definition de_is_symlink (de : DirEntry) : bool :=
  match de_stat de with Some st => bool_decide (st_kind st = KLink) | None => false end.

(** ** Excluded subtrees *)

Definition normalise_excludes (exclude : list string) : list string :=
  normpath <$> filter (λ e, e ≠ "") exclude.

Definition is_excluded_path (path : string) (excluded : list string) : bool :=
  match excluded with
  | [] => false
  | _ => let p := normpath path in existsb (λ e, bool_decide (p = e) || startswith (e +:+ "/") p) excluded
  end.

(** ** Entries *)

Definition _U64 : Z := Z.shiftl 1 64.
Definition _I64_MAX : Z := Z.shiftl 1 63 - 1.

Definition _to_signed64 (value : Z) : Z := if (_I64_MAX <? value)%Z then (value - _U64)%Z else value.

(** A flags object in key order of insertion, and its JSON text as it is staged. *)
Definition flags_dict : Type := list (string * bool).
Definition quoted (s : string) : string := String "034" (s +:+ String "034" "").
Definition flags_text (f : flags_dict) : string :=
  "{" +:+ join "," ((λ '(k, b), quoted k +:+ ":" +:+ (if b : bool then "true" else "false")) <$> f) +:+ "}".

(** The methods that a backend overrides: which directory is left out, the flags of a file system's own; [_owner], what an override of
    [_entry] ([false]: also of the root) or of [_entry_from_dirent] ([true]) makes of flags, uid and gid; [_may_descend], what an override
    of [_should_descend] asks before. *)
Record hooks := mk_hooks {
  _skip_subdir : string → string → bool;
  _annotate_flags : flags_dict → string → string → stat_result → bool → bool → flags_dict;
  _owner : bool → stat_result → flags_dict → flags_dict * Z * Z;
  _may_descend : DirEntry → bool;
}.

(** The uid and gid of the stat. *)
Definition stat_owner (_ : bool) (st : stat_result) (flags : flags_dict) : flags_dict * Z * Z := (flags, st_uid st, st_gid st).

Definition posix_hooks : hooks := mk_hooks (λ _ _, false) (λ flags _ _ _ _ _, flags) stat_owner (λ _, true).

Definition _ZFS_CONTROL_DIR : string := ".zfs".
Definition _SNAPSHOT_DIR : string := "snapshot".

Definition _is_snapshot_dir (path name : string) : bool :=
  bool_decide (name = _SNAPSHOT_DIR) &&
    match reverse (p_parts (parse_path path)) with _ :: parent :: _ => bool_decide (parent = _ZFS_CONTROL_DIR) | _ => false end
  || bool_decide (name = _ZFS_CONTROL_DIR).

(** A ZFS host reports the blocks of a file. *)
Definition zfs_annotate (flags : flags_dict) (path name : string) (st : stat_result) (is_dir is_symlink : bool) : flags_dict :=
  if is_dir && _is_snapshot_dir path name then flags ++ [("snapshot_skipped", true)]
  else if is_dir || is_symlink then flags
  else
    let size_on_disk := (default 0 (st_blocks st) * 512)%Z in
    if (0 <? size_on_disk)%Z && (size_on_disk <? st_size st)%Z
    then flags ++ [("compressed", true); ("reflink", true)] else flags.

Definition zfs_hooks : hooks := mk_hooks _is_snapshot_dir zfs_annotate stat_owner (λ _, true).

Section Backend.
Context (h : hooks).

Definition _entry (from_dirent : bool) (path name : string) (st : stat_result) : FsEntry :=
  let is_symlink := bool_decide (st_kind st = KLink) in
  let is_dir := bool_decide (st_kind st = KDir) in
  let size_logical := st_size st in
  let size_on_disk := match st_blocks st with Some blocks => (blocks * 512)%Z | None => size_logical end in
  let flags := if negb is_dir && negb is_symlink && (size_on_disk <? size_logical)%Z then [("sparse", true)] else [] in
  let flags := _annotate_flags h flags path name st is_dir is_symlink in
  let '(flags, uid, gid) := _owner h from_dirent st flags in
  mk_fs path name is_dir is_symlink size_logical size_on_disk (st_mtime st) (st_ctime st) uid gid
    (_to_signed64 (st_ino st)) (_to_signed64 (st_dev st)) (flags_text flags) None None.

Definition _entry_from_dirent (de : DirEntry) : option FsEntry := _entry true (de_path de) (de_name de) <$> de_stat de.

Definition _should_descend (de : DirEntry) (root_dev : Z) (follow_symlinks one_filesystem : bool) : bool :=
  if negb (de_is_dir follow_symlinks de) then false
  else if de_is_symlink de && negb follow_symlinks then false
  else if one_filesystem then
    match (if follow_symlinks then de_target de else de_stat de) with
    | Some st => (st_dev st =? root_dev)%Z
    | None => false
    end
  else true.

(** The loop over the directory's entries. *)
Fixpoint scan_loop (root_dev : Z) (follow_symlinks one_filesystem : bool) (excluded : list string)
    (des : list DirEntry) (entries : list FsEntry) (subdirs : list string) : list FsEntry * list string :=
  match des with
  | [] => (entries, subdirs)
  | de :: des =>
      let continue := scan_loop root_dev follow_symlinks one_filesystem excluded des in
      if is_excluded_path (de_path de) excluded then continue entries subdirs else
      match _entry_from_dirent de with
      | None => continue entries subdirs
      | Some entry =>
          let entries := entries ++ [entry] in
          if _skip_subdir h (de_path de) (de_name de) then continue entries subdirs
          else if _may_descend h de && _should_descend de root_dev follow_symlinks one_filesystem
          then continue entries (subdirs ++ [de_path de]) else continue entries subdirs
      end
  end.

Context (scandir : string → list DirEntry).

Definition _scan_dir (path : string) (root_dev : Z) (follow_symlinks one_filesystem : bool)
    (excluded : list string) : list FsEntry * list string :=
  scan_loop root_dev follow_symlinks one_filesystem excluded (scandir path) [] [].
End Backend.

(** ** The worker pool *)

(** The queue of directories, the busy workers (entries still to put, subdirectories to queue at the
    end), and the entries put so far in order. *)
Record walk_state := mk_walk { work : list string; busy : list (list FsEntry * list string); results : list FsEntry }.

Section Pool.
Context (scan : string → list FsEntry * list string) (walk_concurrency : nat).

Inductive walk_step : walk_state → walk_state → Prop :=
  | step_take path w b1 b2 r :
      length (b1 ++ b2) < walk_concurrency →
      walk_step (mk_walk (path :: w) (b1 ++ b2) r) (mk_walk w (b1 ++ scan path :: b2) r)
  | step_put w b1 b2 e es subdirs r :
      walk_step (mk_walk w (b1 ++ (e :: es, subdirs) :: b2) r) (mk_walk w (b1 ++ (es, subdirs) :: b2) (r ++ [e]))
  | step_done w b1 b2 subdirs r :
      walk_step (mk_walk w (b1 ++ ([], subdirs) :: b2) r) (mk_walk (w ++ subdirs) (b1 ++ b2) r).

(** [work.join()] returns. *)
Definition joined (s : walk_state) : Prop := work s = [] ∧ busy s = [].
End Pool.

(** The call: nothing for an excluded or unreadable root, else a run of the pool from the root. *)
Section Walk.
Context (h : hooks) (scandir : string → list DirEntry) (lstat : string → option stat_result).
Context (realpath : string → string) (walk_concurrency : nat).

Definition root_name (p : string) : string :=
  let n := path_name (parse_path p) in if bool_decide (n = "") then p else n.

Definition walk_start (root : string) (exclude : list string) : option (stat_result * walk_state) :=
  let root_real := realpath root in
  if is_excluded_path root_real (normalise_excludes exclude) then None else
  st ← lstat root_real;
  Some (st, mk_walk [root_real] [] [_entry h false root_real (root_name root_real) st]).

Definition walk_scan (st : stat_result) (follow_symlinks one_filesystem : bool) (exclude : list string)
    (path : string) : list FsEntry * list string :=
  _scan_dir h scandir path (st_dev st) follow_symlinks one_filesystem (normalise_excludes exclude).

(** [walks root ... out]: a run of the generator yields [out]. *)
Definition walks (root : string) (follow_symlinks one_filesystem : bool) (exclude : list string) (out : list FsEntry) : Prop :=
  match walk_start root exclude with
  | None => out = []
  | Some (st, s0) =>
      ∃ s, rtc (walk_step (walk_scan st follow_symlinks one_filesystem exclude) walk_concurrency) s0 s ∧
           joined s ∧ out = results s
  end.
End Walk.

(** ** What the pool delivers does not depend on the schedule *)

Section Tree.
Context (scan : string → list FsEntry * list string).

(** The tree below a directory, to depth [n]: all its entries, and the steps a walk of it takes. *)
Fixpoint tree (n : nat) (p : string) : list FsEntry :=
  match n with O => [] | S n => (scan p).1 ++ ((scan p).2 ≫= tree n) end.
Fixpoint steps (n : nat) (p : string) : nat :=
  match n with O => 0 | S n => 2 + length (scan p).1 + sum_list (steps n <$> (scan p).2) end.

(** The tree is finite, of depth less than [n]. *)
Fixpoint fits (n : nat) (p : string) : bool :=
  match n with O => false | S n => forallb (fits n) (scan p).2 end.

Lemma fits_all n l : forallb (fits n) l = true ↔ Forall (λ q, fits n q = true) l.
Proof. rewrite forallb_forall, Forall_forall. setoid_rewrite list_elem_of_In. done. Qed.

(** More fuel changes nothing. *)
Lemma fits_more n p : fits n p = true → fits (S n) p = true ∧ tree (S n) p = tree n p ∧ steps (S n) p = steps n p.
Proof.
  revert p. induction n as [|n IH]; intros p H; [done|]. change (forallb (fits n) (scan p).2 = true) in H.
  rewrite fits_all, Forall_forall in H. split_and!.
  - change (forallb (fits (S n)) (scan p).2 = true). apply fits_all, Forall_forall. intros q Hq. apply (IH q), H, Hq.
  - change (tree (S (S n)) p) with ((scan p).1 ++ ((scan p).2 ≫= tree (S n))).
    change (tree (S n) p) with ((scan p).1 ++ ((scan p).2 ≫= tree n)). f_equal.
    induction (scan p).2 as [|q l IHl]; [done|]. rewrite !bind_cons. f_equal; [apply (IH q), H; left|].
    apply IHl. intros x Hx. apply H. by right.
  - change (steps (S (S n)) p) with (2 + length (scan p).1 + sum_list (steps (S n) <$> (scan p).2)).
    change (steps (S n) p) with (2 + length (scan p).1 + sum_list (steps n <$> (scan p).2)). f_equal. f_equal.
    apply list_fmap_ext. intros i q Hq%list_elem_of_lookup_2. by apply (IH q), H.
Qed.

Context (N : nat).

Lemma tree_unfold p :
  fits N p = true →
  tree N p = (scan p).1 ++ ((scan p).2 ≫= tree N) ∧
  steps N p = 2 + length (scan p).1 + sum_list (steps N <$> (scan p).2) ∧
  Forall (λ q, fits N q = true) (scan p).2.
Proof.
  intros H. destruct (fits_more N p H) as (Hf & Ht & Hs). rewrite <- Ht at 1. rewrite <- Hs at 1.
  split; [done|]. split; [done|]. by apply fits_all.
Qed.

(** What a state still owes, and how many steps it needs for it. *)
Definition owed (s : walk_state) : list FsEntry :=
  results s ++ (busy s ≫= λ b, b.1 ++ (b.2 ≫= tree N)) ++ (work s ≫= tree N).
Definition left_over (s : walk_state) : nat :=
  sum_list ((λ b : list FsEntry * list string, 1 + length b.1 + sum_list (steps N <$> b.2)) <$> busy s)
  + sum_list (steps N <$> work s).
Definition bounded (s : walk_state) : Prop :=
  Forall (λ q, fits N q = true) (work s) ∧ Forall (λ b, Forall (λ q, fits N q = true) b.2) (busy s).

Lemma sum_list_app' (a b : list nat) : sum_list (a ++ b) = sum_list a + sum_list b.
Proof. apply sum_list_with_app. Qed.

Lemma walk_step_owed wc s s' :
  walk_step scan wc s s' → bounded s →
  bounded s' ∧ Permutation (owed s') (owed s) ∧ left_over s = S (left_over s').
Proof.
  intros Hstep [Hw Hb]. unfold owed, left_over, bounded in *.
  destruct Hstep as [p w b1 b2 r Hc|w b1 b2 e es subs r|w b1 b2 subs r]; cbn [work busy results] in *.
  - apply Forall_cons in Hw as [Hp Hw]. destruct (tree_unfold p Hp) as (Ht & Hs & Hsub).
    apply Forall_app in Hb as [Hb1 Hb2]. split; [split; [done|]|split].
    + apply Forall_app. split; [done|]. by constructor.
    + rewrite !bind_app, !bind_cons, Ht. rewrite <- !app_assoc. apply Permutation_app_head, Permutation_app_head.
      rewrite !app_assoc. solve_Permutation.
    + rewrite !fmap_app, !fmap_cons, !sum_list_app'. cbn [sum_list sum_list_with foldr fmap list_fmap].
      rewrite Hs. cbn. lia.
  - apply Forall_app in Hb as [Hb1 Hb2]. apply Forall_cons in Hb2 as [Hbe Hb2]. split; [split; [done|]|split].
    + apply Forall_app. split; [done|]. by constructor.
    + rewrite !bind_app, !bind_cons. cbn [fst snd]. rewrite <- !app_assoc. apply Permutation_app_head. solve_Permutation.
    + rewrite !fmap_app, !fmap_cons, !sum_list_app'. cbn. lia.
  - apply Forall_app in Hb as [Hb1 Hb2]. apply Forall_cons in Hb2 as [Hbe Hb2]. split; [split|split].
    + by apply Forall_app.
    + by apply Forall_app.
    + rewrite !bind_app, !bind_cons. cbn [fst snd]. rewrite <- !app_assoc. apply Permutation_app_head. solve_Permutation.
    + rewrite !fmap_app, !fmap_cons, !sum_list_app'. cbn. lia.
Qed.
End Tree.

Section Runs.
Context (scan : string → list FsEntry * list string) (wc : nat).

Lemma walk_progress s : 0 < wc → ¬ joined s → ∃ s', walk_step scan wc s s'.
Proof.
  intros Hc Hj. destruct s as [w b r]. destruct b as [|[[|e es] subs] b].
  - destruct w as [|p w]; [by destruct Hj|]. exists (mk_walk w [scan p] r). exact (step_take scan wc p w [] [] r Hc).
  - eexists. exact (step_done scan wc w [] b subs r).
  - eexists. exact (step_put scan wc w [] b e es subs r).
Qed.

Lemma walk_run N k s0 s :
  nsteps (walk_step scan wc) k s0 s → bounded scan N s0 →
  bounded scan N s ∧ Permutation (owed scan N s) (owed scan N s0) ∧ left_over scan N s0 = k + left_over scan N s.
Proof.
  intros Hr. induction Hr as [s|k s1 s2 s3 Hs Hr IH]; intros Hb; [done|].
  destruct (walk_step_owed scan N wc s1 s2 Hs Hb) as (Hb2 & Ho & Hl). destruct (IH Hb2) as (Hb3 & Ho3 & Hl3).
  split; [done|]. split; [by etransitivity|]. lia.
Qed.

(** A property of every listed directory and of every reported entry. *)
Lemma walk_keeps (D : string → Prop) (E : FsEntry → Prop) s0 s :
  (∀ p, Forall E (scan p).1 ∧ Forall D (scan p).2) →
  rtc (walk_step scan wc) s0 s → Forall D (work s0) ∧ Forall (λ b, Forall E b.1 ∧ Forall D b.2) (busy s0) ∧ Forall E (results s0) →
  Forall D (work s) ∧ Forall (λ b, Forall E b.1 ∧ Forall D b.2) (busy s) ∧ Forall E (results s).
Proof.
  intros Hscan Hr. induction Hr as [s|s1 s2 s3 Hs Hr IH]; [done|]. intros H. apply IH. clear IH Hr.
  destruct Hs as [p w b1 b2 r Hc|w b1 b2 e es subs r|w b1 b2 subs r]; cbn [work busy results] in *;
    rewrite ?Forall_app, ?Forall_cons in *; cbn [fst snd] in *; rewrite ?Forall_app, ?Forall_cons in *.
  - pose proof (Hscan p). naive_solver.
  - naive_solver.
  - naive_solver.
Qed.
End Runs.

(** ** One directory *)

Lemma entry_path h b path name st : f_path (_entry h b path name st) = path.
Proof. unfold _entry. by destruct (_owner _ _ _ _) as [[? ?] ?]. Qed.

Section Scan.
Context (h : hooks) (root_dev : Z) (follow_symlinks one_filesystem : bool) (excluded : list string).

Definition visited (de : DirEntry) : bool :=
  negb (is_excluded_path (de_path de) excluded) && bool_decide (de_stat de ≠ None) &&
  negb (_skip_subdir h (de_path de) (de_name de)) && (_may_descend h de && _should_descend de root_dev follow_symlinks one_filesystem).

Definition reported (de : DirEntry) : option FsEntry :=
  if is_excluded_path (de_path de) excluded then None else _entry_from_dirent h de.

Lemma scan_dir_spec des entries subdirs :
  scan_loop h root_dev follow_symlinks one_filesystem excluded des entries subdirs =
  (entries ++ omap reported des, subdirs ++ (de_path <$> filter (λ de, visited de) des)).
Proof.
  revert entries subdirs. induction des as [|de des IH]; intros entries subdirs; cbn [scan_loop omap list_omap].
  { by rewrite !app_nil_r. }
  rewrite filter_cons_b. unfold visited at 1, reported at 1. destruct (is_excluded_path (de_path de) excluded); [by rewrite IH|].
  unfold _entry_from_dirent. destruct (de_stat de) as [st|]; cbn [fmap option_fmap option_map]; [|by rewrite IH].
  rewrite bool_decide_true by done. cbn [negb andb].
  destruct (_skip_subdir h (de_path de) (de_name de)); cbn [negb andb]; [by rewrite IH, <- app_assoc|].
  destruct (_may_descend h de && _should_descend _ _ _ _); [|by rewrite IH, <- app_assoc].
  by rewrite IH, fmap_cons, <- !app_assoc.
Qed.
End Scan.

Section Spec.
Context (h : hooks) (scandir : string → list DirEntry) (lstat : string → option stat_result).
Context (realpath : string → string) (wc : nat) (root : string) (follow one_fs : bool) (exclude : list string).

Let excluded := normalise_excludes exclude.

(** Why a directory is listed: it is the root, or an entry of some directory that the rules let in. *)
Definition listed (st : stat_result) (p : string) : Prop :=
  p = realpath root ∨
  ∃ de, p = de_path de ∧ is_excluded_path p excluded = false ∧ _skip_subdir h p (de_name de) = false ∧
    _may_descend h de = true ∧ de_is_dir follow de = true ∧ (follow = false → de_is_symlink de = false) ∧
    (one_fs = true → ∃ t, (if follow then de_target de else de_stat de) = Some t ∧ st_dev t = st_dev st).

Lemma listed_subdirs st p :
  Forall (λ e, is_excluded_path (f_path e) excluded = false) (walk_scan h scandir st follow one_fs exclude p).1 ∧
  Forall (listed st) (walk_scan h scandir st follow one_fs exclude p).2.
Proof.
  unfold walk_scan, _scan_dir. rewrite scan_dir_spec. cbn [fst snd app]. split; apply Forall_forall.
  - intros e (de & He & Hr)%list_elem_of_omap. unfold reported in Hr. destruct (is_excluded_path _ _) eqn:Ex; [done|].
    unfold _entry_from_dirent in Hr. apply fmap_Some in Hr as (st' & _ & ->). by rewrite entry_path.
  - intros q (de & -> & [Hv _]%list_elem_of_filter)%list_elem_of_fmap. right. exists de. unfold visited in Hv.
    apply Is_true_true in Hv. rewrite !andb_true_iff, !negb_true_iff in Hv. destruct Hv as [[[Hx _] Hs] [Hm Hd]].
    unfold _should_descend in Hd. destruct (de_is_dir follow de); [|done]. cbn [negb] in Hd.
    split_and!; try done.
    + intros ->. by destruct (de_is_symlink de).
    + intros ->. destruct (de_is_symlink de && negb follow); [done|].
      destruct (if follow then de_target de else de_stat de) as [t|]; [|done]. exists t. split; [done|lia].
Qed.

(** However the workers interleave, a walk stays in bounds: it reports nothing that is excluded, and it
    lists only the root and directories that are not excluded or skipped, not reached through a link
    unless links are followed, and on the root's device unless mounts are crossed. *)
Theorem walk_stays_in_scope st s0 s :
  walk_start h lstat realpath root exclude = Some (st, s0) →
  rtc (walk_step (walk_scan h scandir st follow one_fs exclude) wc) s0 s →
  Forall (λ e, is_excluded_path (f_path e) excluded = false) (results s) ∧ Forall (listed st) (work s).
Proof.
  intros H Hr. unfold walk_start in H. destruct (is_excluded_path (realpath root) _) eqn:Ex; [done|].
  destruct (lstat (realpath root)) as [st'|]; [|done]. cbn in H. injection H as <- <-.
  destruct (walk_keeps _ wc (listed st') (λ e, is_excluded_path (f_path e) excluded = false) _ s (listed_subdirs st') Hr)
    as (Hw & _ & He); [|done].
  cbn [work busy results]. split; [|split]; repeat constructor. by rewrite entry_path.
Qed.

(** C17: A walk of a finite tree ends, and every schedule of the workers delivers the same entries: the root
    and everything below it, each once.  A run takes the same number of steps whatever the schedule. *)
Theorem walk_delivers_tree st s0 n :
  walk_start h lstat realpath root exclude = Some (st, s0) → 0 < wc →
  let scan := walk_scan h scandir st follow one_fs exclude in
  fits scan n (realpath root) = true →
  let root_entry := _entry h false (realpath root) (root_name (realpath root)) st in
  ∀ k s, nsteps (walk_step scan wc) k s0 s →
    k ≤ steps scan n (realpath root) ∧
    (¬ joined s → ∃ s', walk_step scan wc s s') ∧
    (joined s → k = steps scan n (realpath root) ∧
                Permutation (results s) (root_entry :: tree scan n (realpath root))).
Proof.
  intros H Hc scan Hf root_entry k s Hr. unfold walk_start in H.
  destruct (is_excluded_path (realpath root) _) eqn:Ex; [done|].
  destruct (lstat (realpath root)) as [st'|]; [|done]. cbn in H. injection H as <- <-. fold scan in Hr.
  apply (walk_run scan wc n) in Hr as (_ & Ho & Hl); [|split; repeat constructor; done].
  unfold left_over in Hl. unfold owed in Ho. cbn [work busy results mbind list_bind fmap list_fmap] in Hl, Ho.
  cbn [sum_list sum_list_with] in Hl. rewrite !Nat.add_0_r in Hl. cbn in Hl.
  split; [lia|]. split; [by apply walk_progress|]. intros [Hw Hb]. rewrite Hw, Hb in *. cbn in Ho, Hl.
  rewrite !app_nil_r in Ho. split; [lia|exact Ho].
Qed.
End Spec.

(** The identity of a file in a signed column: in range, and no two unsigned values meet. *)
Lemma to_signed64_range v : (0 ≤ v < 2 ^ 64)%Z → (- 2 ^ 63 ≤ _to_signed64 v < 2 ^ 63 ∧ _to_signed64 v mod 2 ^ 64 = v)%Z.
Proof.
  intros H. unfold _to_signed64. change _I64_MAX with (2 ^ 63 - 1)%Z. change _U64 with (2 ^ 64)%Z.
  destruct (Z.ltb_spec (2 ^ 63 - 1) v); split; try lia.
  - rewrite <- (Z_mod_plus_full (v - 2 ^ 64) 1), Z.mod_small; lia.
  - apply Z.mod_small. lia.
Qed.

Lemma to_signed64_inj v w : (0 ≤ v < 2 ^ 64)%Z → (0 ≤ w < 2 ^ 64)%Z → _to_signed64 v = _to_signed64 w → v = w.
Proof. intros Hv Hw E. rewrite <- (proj2 (to_signed64_range v Hv)), <- (proj2 (to_signed64_range w Hw)). by rewrite E. Qed.

(** ** A small tree *)

Definition demo_stat (k : file_kind) (ino dev : Z) : stat_result := mk_stat k 10 (Some 1%Z) 5 5 0 0 ino dev.
Definition demo_de (p n : string) (k : file_kind) (ino dev : Z) : DirEntry :=
  mk_dirent p n (Some (demo_stat k ino dev)) (Some (demo_stat k ino dev)).

(** A file, a directory, another mount, an excluded directory. *)
Definition demo_scandir (p : string) : list DirEntry :=
  if bool_decide (p = "/t") then
    [demo_de "/t/f" "f" KOther 2 7; demo_de "/t/d" "d" KDir 3 7; demo_de "/t/m" "m" KDir 4 8; demo_de "/t/x" "x" KDir 5 7]
  else if bool_decide (p = "/t/d") then [demo_de "/t/d/g" "g" KLink 6 7] else [].
Definition demo_lstat (p : string) : option stat_result := Some (demo_stat KDir 1 7).
Definition demo_scan := walk_scan posix_hooks demo_scandir (demo_stat KDir 1 7) false true ["/t/x"].
Definition demo_entry (p n : string) (k : file_kind) (ino dev : Z) : FsEntry := _entry posix_hooks true p n (demo_stat k ino dev).

Definition demo_root : FsEntry := demo_entry "/t" "t" KDir 1 7.
Definition demo_f : FsEntry := demo_entry "/t/f" "f" KOther 2 7.
Definition demo_d : FsEntry := demo_entry "/t/d" "d" KDir 3 7.
Definition demo_m : FsEntry := demo_entry "/t/m" "m" KDir 4 8.
Definition demo_g : FsEntry := demo_entry "/t/d/g" "g" KLink 6 7.

Definition demo_end : walk_state := mk_walk [] [] [demo_root; demo_f; demo_d; demo_m; demo_g].

Lemma demo_run : nsteps (walk_step demo_scan 2) 8 (mk_walk ["/t"] [] [demo_root]) demo_end.
Proof.
  refine (nsteps_l _ _ _ _ _ (step_take demo_scan 2 "/t" [] [] [] [demo_root] ltac:(cbn; lia)) _).
  refine (nsteps_l _ _ _ _ _ (step_put demo_scan 2 [] [] [] demo_f [demo_d; demo_m] ["/t/d"] _) _).
  refine (nsteps_l _ _ _ _ _ (step_put demo_scan 2 [] [] [] demo_d [demo_m] ["/t/d"] _) _).
  refine (nsteps_l _ _ _ _ _ (step_put demo_scan 2 [] [] [] demo_m [] ["/t/d"] _) _).
  refine (nsteps_l _ _ _ _ _ (step_done demo_scan 2 [] [] [] ["/t/d"] _) _).
  refine (nsteps_l _ _ _ _ _ (step_take demo_scan 2 "/t/d" [] [] [] _ ltac:(cbn; lia)) _).
  refine (nsteps_l _ _ _ _ _ (step_put demo_scan 2 [] [] [] demo_g [] [] _) _).
  refine (nsteps_l _ _ _ _ _ (step_done demo_scan 2 [] [] [] [] _) _).
  apply nsteps_O.
Qed.

Lemma walk_delivers_tree_witness :
  steps demo_scan 3 "/t" = 8 ∧ Permutation (results demo_end) (demo_root :: tree demo_scan 3 "/t").
Proof.
  split; [by_compute|].
  destruct (walk_delivers_tree posix_hooks demo_scandir demo_lstat Datatypes.id 2 "/t" false true ["/t/x"]
              (demo_stat KDir 1 7) (mk_walk ["/t"] [] [demo_root]) 3
              ltac:(by_compute) ltac:(lia) ltac:(by_compute) 8 demo_end demo_run) as (_ & _ & H).
  exact (proj2 (H (conj eq_refl eq_refl))).
Defined.

Lemma walk_stays_in_scope_witness :
  length (results demo_end) = 5 ∧ Forall (λ e, is_excluded_path (f_path e) ["/t/x"] = false) (results demo_end).
Proof.
  split; [by_compute|].
  destruct (walk_stays_in_scope posix_hooks demo_scandir demo_lstat Datatypes.id 2 "/t" false true ["/t/x"]
              (demo_stat KDir 1 7) (mk_walk ["/t"] [] [demo_root]) demo_end
              ltac:(by_compute) (rtc_nsteps_2 8 _ _ demo_run)) as [H _].
  exact H.
Defined.
