(* ===== verification/Feed.v ===== *)
(** The change feeds of the agent ([src/fathom/agent/reader/feed.py]).

    A feed is the list of the events it yields.  [ChangeEvent] refuses a create or modify without its
    entry, so here an upsert event has one.  The backend's walk is the list of the entries it reports. *)

From stdpp Require Import gmap.
From S2P Require Import Prelude PyStr PyDict Sql PosixPath Staging Walk.

Notation key := (Z * Z)%type.

Inductive ChangeKind := create | modify.

#[export] Instance ChangeKind_eq_dec : EqDecision ChangeKind.
Proof. solve_decision. Defined.

Inductive ChangeEvent :=
  | Upsert (kind : ChangeKind) (path : string) (inode : Z) (entry : FsEntry) (dev : Z)
  | Delete (path : string) (inode dev : Z).

Definition ev_key (ev : ChangeEvent) : key :=
  match ev with Upsert _ _ inode _ dev => (dev, inode) | Delete _ inode dev => (dev, inode) end.

Record ChangeDelta := mk_delta { upserts : list FsEntry; delta_removals : list (Z * Z * string) }.

Definition removed (d : ChangeDelta) : list (Z * Z) := fst <$> delta_removals d.
Definition removed_inodes (d : ChangeDelta) : list Z := (λ r, r.1.2) <$> delta_removals d.
Definition is_empty (d : ChangeDelta) : bool := bool_decide (upserts d = []) && bool_decide (delta_removals d = []).

(** ** [collect_delta] *)

Record collecting := mk_collecting {
  c_upserts : list (key * FsEntry); c_removed : list (key * string); c_created : list key;
}.

Definition collect_event (c : collecting) (ev : ChangeEvent) : collecting :=
  match ev with
  | Delete path inode dev =>
      let key := (dev, inode) in
      let had_pending := bool_decide (dict_get key (c_upserts c) ≠ None) in
      let u := dict_pop key (c_upserts c) in
      if had_pending && bool_decide (key ∈ c_created c)
      then mk_collecting u (c_removed c) (filter (λ k, k ≠ key) (c_created c))
      else mk_collecting u (dict_set key path (c_removed c)) (c_created c)
  | Upsert kind path inode entry dev =>
      let key := (dev, inode) in
      mk_collecting (dict_set key entry (c_upserts c)) (dict_pop key (c_removed c))
        (if bool_decide (kind = create) then key :: c_created c else c_created c)
  end.

(** [sorted(removed.items())]. *)
Definition removal_le (x y : key * string) : Prop :=
  Is_true (lex_le (lex_le str_le) (x.1.1, (x.1.2, x.2)) (y.1.1, (y.1.2, y.2))).

#[export] Instance removal_le_dec : RelDecision removal_le.
Proof. intros x y. unfold removal_le. apply _. Defined.

Definition collect_delta (events : list ChangeEvent) : ChangeDelta :=
  let c := foldl collect_event (mk_collecting [] [] []) events in
  mk_delta (c_upserts c).*2 (stable_sort removal_le (c_removed c)).

(** ** [RestatFeed] *)

Definition fs_key (e : FsEntry) : key := (f_dev e, f_inode e).

(** [{(dev, inode): (mtime, path)}]. *)
Notation Baseline := (list (key * (Z * string))).

Definition restat_event (baseline : Baseline) (e : FsEntry) : option ChangeEvent :=
  match dict_get (fs_key e) baseline with
  | None => Some (Upsert create (f_path e) (f_inode e) e (f_dev e))
  | Some (mtime, path) =>
      if negb (bool_decide (mtime = f_mtime e)) || negb (bool_decide (path = f_path e))
      then Some (Upsert modify (f_path e) (f_inode e) e (f_dev e)) else None
  end.

Definition missing (seen : list key) (baseline : Baseline) : Baseline := filter (λ x, x.1 ∉ seen) baseline.

Definition restat_deletes (seen : list key) (baseline : Baseline) : list ChangeEvent :=
  (λ '((dev, inode), (_, path)), Delete path inode dev) <$> missing seen baseline.

Definition restat_changes (baseline : Baseline) (walk : list FsEntry) : list ChangeEvent :=
  omap (restat_event baseline) walk ++ restat_deletes (fs_key <$> walk) baseline.

(** ** [ZfsDiffFeed] *)

(** [line.split()]. *)
Fixpoint split_ws (s : string) : list string :=
  match s with
  | "" => []
  | String c s' =>
      if is_space c then split_ws s'
      else match s' with
           | "" => [String c ""]
           | String d _ => if is_space d then String c "" :: split_ws s'
                           else match split_ws s' with w :: ws => String c w :: ws | [] => [String c ""] end
           end
  end.

Definition TAB : ascii := ascii_of_N 9.

Section Zfs.
Context (walk_of : string → list FsEntry) (baseline_paths : list (string * Z)) (excluded : list string).

(** The first entry of a walk from the path that has this path. *)
Definition _stat_one (path : string) : option FsEntry := head (filter (λ e, f_path e = path) (walk_of path)).

Definition delete_known (path : string) : option ChangeEvent :=
  inode ← dict_get path baseline_paths; Some (Delete path inode 0).

Definition _rename_event (old new root : string) : option ChangeEvent :=
  if negb (startswith root new) || is_excluded_path new excluded then delete_known old
  else entry ← _stat_one new; Some (Upsert modify new (f_inode entry) entry (f_dev entry)).

Definition _parse_line (line root : string) : option ChangeEvent :=
  let parts := if has_char TAB line then split_char TAB line else split_ws line in
  match parts with
  | change :: path :: rest =>
      if negb (startswith root path) then None else
      if is_excluded_path path excluded then None else
      if bool_decide (change = "-") then delete_known path else
      if bool_decide (change = "+") || bool_decide (change = "M") then
        entry ← _stat_one path;
        Some (Upsert (if bool_decide (change = "+") then create else modify) path (f_inode entry) entry (f_dev entry))
      else match rest with
           | new :: _ => if bool_decide (change = "R") then _rename_event path new root else None
           | [] => None
           end
  | _ => None
  end.

Definition changes_between (lines : list string) (root : string) : list ChangeEvent := omap (λ l, _parse_line l root) lines.
End Zfs.

(** ** A delta has the effect of its events, one by one *)

Definition apply_event (m : gmap key FsEntry) (ev : ChangeEvent) : gmap key FsEntry :=
  match ev with Upsert _ _ inode e dev => <[(dev, inode) := e]> m | Delete _ inode dev => delete (dev, inode) m end.

Definition apply_delta (d : ChangeDelta) (m : gmap key FsEntry) : gmap key FsEntry :=
  foldl (λ m k, delete k m) (foldl (λ m e, <[fs_key e := e]> m) m (upserts d)) (removed d).

(** The event carries the entry of its key. *)
Definition keyed (ev : ChangeEvent) : Prop :=
  match ev with Upsert _ _ _ e _ => fs_key e = ev_key ev | Delete _ _ _ => True end.
Definition is_delete (ev : ChangeEvent) : bool := match ev with Delete _ _ _ => true | _ => false end.
Definition created_key (ev : ChangeEvent) : option key :=
  match ev with Upsert create _ _ _ _ => Some (ev_key ev) | _ => None end.

(** What was there before the cycle is not deleted again after the feed has re-created it. *)
Definition settles (m : gmap key FsEntry) (evs : list ChangeEvent) : Prop :=
  ∀ pre ev post, evs = pre ++ ev :: post → is_delete ev = true → ev_key ev ∈ omap created_key pre → m !! ev_key ev = None.

Definition collected (m : gmap key FsEntry) (pre : list ChangeEvent) (c : collecting) : Prop :=
  NoDup (c_upserts c).*1 ∧ NoDup (c_removed c).*1 ∧
  (∀ k e, dict_get k (c_upserts c) = Some e → fs_key e = k ∧ dict_get k (c_removed c) = None) ∧
  (∀ k, k ∈ c_created c → k ∈ omap created_key pre) ∧
  ∀ k, foldl apply_event m pre !! k =
    match dict_get k (c_upserts c) with
    | Some e => Some e
    | None => if decide (dict_get k (c_removed c) = None) then m !! k else None
    end.

Lemma collect_event_spec m pre ev post c :
  settles m (pre ++ ev :: post) → keyed ev → collected m pre c → collected m (pre ++ [ev]) (collect_event c ev).
Proof.
  intros Hs Hk (Hu & Hr & Hd & Hc & Hm). unfold collected. rewrite omap_app, foldl_app.
  destruct ev as [kind p i e d|p i d]; cbn [collect_event foldl apply_event ev_key] in *.
  - cbn [c_upserts c_removed c_created]. split_and!.
    + by apply dict_set_NoDup.
    + by apply dict_pop_NoDup.
    + intros k x. rewrite dict_get_set, dict_get_pop. case_decide as E; [|apply Hd]. intros [= <-]. by rewrite <- E.
    + intros k Hin. apply elem_of_app. destruct kind; [|left; by apply Hc].
      apply elem_of_cons in Hin as [->|Hin]; [right; left|left; by apply Hc].
    + intros k. rewrite dict_get_set, dict_get_pop. destruct (decide ((d, i) = k)) as [<-|Hne].
      * by rewrite lookup_insert_eq.
      * rewrite lookup_insert_ne by done. apply Hm.
  - set (k0 := (d, i)) in *.
    assert (m !! k0 = None ∨ k0 ∉ c_created c) as Hcr.
    { destruct (decide (k0 ∈ c_created c)) as [Hin|]; [left|by right].
      apply (Hs pre (Delete p i d) post); [done|done|by apply Hc]. }
    destruct (bool_decide (dict_get k0 (c_upserts c) ≠ None) && bool_decide (k0 ∈ c_created c)) eqn:E;
      cbn [c_upserts c_removed c_created].
    + apply andb_true_iff in E as [E1%bool_decide_eq_true E2%bool_decide_eq_true].
      destruct (dict_get k0 (c_upserts c)) as [e0|] eqn:Ee; [|done]. destruct (Hd k0 e0 Ee) as [_ Hr0].
      split_and!; [by apply dict_pop_NoDup|done| | |].
      * intros k x. rewrite dict_get_pop. case_decide; [done|apply Hd].
      * intros k [_ Hin]%list_elem_of_filter. apply elem_of_app. left. by apply Hc.
      * intros k. rewrite dict_get_pop. destruct (decide (k0 = k)) as [<-|Hne].
        -- rewrite lookup_delete_eq, Hr0. by destruct Hcr.
        -- rewrite lookup_delete_ne by done. apply Hm.
    + split_and!; [by apply dict_pop_NoDup|by apply dict_set_NoDup| | |].
      * intros k x. rewrite dict_get_pop, dict_get_set.
        destruct (decide (k0 = k)); [done|apply Hd].
      * intros k Hin. apply elem_of_app. left. by apply Hc.
      * intros k. rewrite dict_get_pop, dict_get_set. destruct (decide (k0 = k)) as [<-|Hne].
        -- by rewrite lookup_delete_eq.
        -- rewrite lookup_delete_ne by done. apply Hm.
Qed.

Lemma collect_spec m evs : settles m evs → Forall keyed evs → collected m evs (foldl collect_event (mk_collecting [] [] []) evs).
Proof.
  intros Hs Hk. assert (∀ pre post, evs = pre ++ post → collected m pre (foldl collect_event (mk_collecting [] [] []) pre)) as H;
    [|by apply (H evs []); rewrite app_nil_r].
  intros pre. induction pre as [|ev pre IH] using rev_ind; intros post E.
  - repeat split; cbn; try constructor; done.
  - rewrite foldl_app. rewrite <- app_assoc in E. cbn in E. subst evs.
    apply (collect_event_spec m pre ev post); [done| |by eapply IH].
    apply Forall_app in Hk as [_ Hk]. by apply Forall_cons in Hk as [? _].
Qed.

Lemma foldl_insert_entries (l : list (key * FsEntry)) (m : gmap key FsEntry) k :
  NoDup l.*1 → (∀ k e, (k, e) ∈ l → fs_key e = k) →
  foldl (λ m e, <[fs_key e := e]> m) m l.*2 !! k = match dict_get k l with Some e => Some e | None => m !! k end.
Proof.
  revert m. induction l as [|[k0 e0] l IH]; intros m Hn Hk; [done|]. cbn [fmap list_fmap foldl snd].
  rewrite fmap_cons in Hn. apply NoDup_cons in Hn as [Hni Hn]. change (list_fmap _ _ snd l) with l.*2. rewrite IH.
  - cbn [dict_get]. rewrite (Hk k0 e0) by left. destruct (decide (k0 = k)) as [->|Hne].
    + cbn in Hni. apply dict_get_none in Hni as ->. by rewrite lookup_insert_eq.
    + by rewrite lookup_insert_ne.
  - done.
  - intros. apply Hk. by right.
Qed.

Lemma foldl_delete_keys (ks : list key) (m : gmap key FsEntry) k :
  foldl (λ m k, delete k m) m ks !! k = if decide (k ∈ ks) then None else m !! k.
Proof.
  revert m. induction ks as [|k0 ks IH]; intros m; [by rewrite decide_False by apply not_elem_of_nil|]. cbn [foldl].
  rewrite IH. destruct (decide (k ∈ ks)); [by rewrite decide_True by (by right)|].
  destruct (decide (k0 = k)) as [->|Hne]; [by rewrite lookup_delete_eq, decide_True by left|].
  rewrite lookup_delete_ne, decide_False; [done| |done]. intros [?|?]%elem_of_cons; congruence.
Qed.

Lemma removals_sorted l : StronglySorted removal_le (stable_sort removal_le l).
Proof.
  apply StronglySorted_stable_sort.
  - intros x y z H1%Is_true_true H2%Is_true_true. unfold removal_le. apply Is_true_true. by eapply key_trans.
  - intros x y. unfold removal_le. rewrite !Is_true_true. apply key_total.
Qed.

(** A feed that supposes what was there: no key is both upserted and removed, none appears twice, the removals are in order, and
    applying the delta is applying the events in order. *)
Lemma settled_net_effect m evs :
  settles m evs → Forall keyed evs →
  let d := collect_delta evs in
  NoDup (fs_key <$> upserts d) ∧ NoDup (removed d) ∧ Forall (λ e, fs_key e ∉ removed d) (upserts d) ∧
  StronglySorted removal_le (delta_removals d) ∧
  apply_delta d m = foldl apply_event m evs.
Proof.
  intros Hs Hk d. destruct (collect_spec m evs Hs Hk) as (Hu & Hr & Hd & _ & Hm).
  unfold d, collect_delta. set (c := foldl collect_event _ evs) in *. cbn [upserts delta_removals].
  assert (∀ k e, (k, e) ∈ c_upserts c → fs_key e = k) as Hkey.
  { intros k e Hin. apply dict_get_elem in Hin; [|done]. by apply Hd. }
  assert (fs_key <$> (c_upserts c).*2 = (c_upserts c).*1) as Hkeys.
  { rewrite <- list_fmap_compose. apply list_fmap_ext. intros i [k e] Hin%list_elem_of_lookup_2. by apply Hkey. }
  assert (∀ k, k ∈ (stable_sort removal_le (c_removed c)).*1 ↔ dict_get k (c_removed c) ≠ None) as Hrem.
  { intros k. rewrite stable_sort_Permutation. rewrite dict_get_none. split; [auto|]. apply dec_stable. }
  unfold removed. cbn [delta_removals]. split_and!.
  - by rewrite Hkeys.
  - by rewrite stable_sort_Permutation.
  - apply Forall_forall. intros e ([k e'] & -> & Hin)%list_elem_of_fmap. cbn [snd]. rewrite Hrem.
    rewrite (Hkey k e' Hin). apply dict_get_elem in Hin; [|done]. apply Hd in Hin as [_ ->]. auto.
  - apply removals_sorted.
  - apply map_eq. intros k. rewrite Hm. unfold apply_delta, removed. cbn [upserts delta_removals].
    rewrite foldl_delete_keys, foldl_insert_entries by done.
    destruct (dict_get k (c_upserts c)) as [e|] eqn:Ee.
    + rewrite decide_False; [done|]. rewrite Hrem. apply Hd in Ee as [_ ->]. auto.
    + destruct (decide (dict_get k (c_removed c) = None)) as [E|E]; [rewrite decide_False|rewrite decide_True]; try done.
      * rewrite Hrem. auto.
      * by apply Hrem.
Qed.

(** A key that the feed creates and deletes after. *)
Fixpoint redeleted (k : key) (created : bool) (evs : list ChangeEvent) : bool :=
  match evs with
  | [] => false
  | ev :: evs => is_delete ev && bool_decide (ev_key ev = k) && created ||
                 redeleted k (created || bool_decide (created_key ev = Some k)) evs
  end.

Lemma not_redeleted k created pre ev post :
  redeleted k created (pre ++ ev :: post) = false → is_delete ev = true → ev_key ev = k → k ∉ omap created_key pre ∧ created = false.
Proof.
  revert created. induction pre as [|ev0 pre IH]; intros created; cbn [app redeleted]; intros [H1 H2]%orb_false_iff Hd Hk.
  - rewrite Hd, bool_decide_true in H1 by done. split; [apply not_elem_of_nil|done].
  - destruct (IH _ H2 Hd Hk) as [Hn [-> Hc%bool_decide_eq_false]%orb_false_iff]. split; [|done]. cbn [omap list_omap].
    destruct (created_key ev0) as [k0|] eqn:E; [|done]. intros [->|?]%elem_of_cons; [|done]. by rewrite <- E in Hc.
Qed.

Lemma redeleted_event k created evs : redeleted k created evs = true → k ∈ ev_key <$> evs.
Proof.
  revert created. induction evs as [|ev evs IH]; intros created; [done|]. cbn [redeleted]. rewrite fmap_cons.
  intros [[[_ Hk%bool_decide_eq_true]%andb_true_iff _]%andb_true_iff|H]%orb_true_iff; [subst; left|right; by eapply IH].
Qed.

(** Events and deltas act on each key by itself. *)
Lemma events_local m m' evs k : m !! k = m' !! k ∨ k ∈ ev_key <$> evs → foldl apply_event m evs !! k = foldl apply_event m' evs !! k.
Proof.
  revert m m'. induction evs as [|ev evs IH]; intros m m' [H|H]; cbn [foldl]; [done|by apply not_elem_of_nil in H| |].
  - apply IH. left. destruct ev as [? ? i ? dv|? i dv]; cbn; destruct (decide ((dv, i) = k)) as [->|];
      by rewrite ?lookup_insert_eq, ?lookup_delete_eq, ?lookup_insert_ne, ?lookup_delete_ne.
  - apply IH. rewrite fmap_cons in H. apply elem_of_cons in H as [->|H]; [left|by right].
    destruct ev as [? ? i ? dv|? i dv]; cbn; by rewrite ?lookup_insert_eq, ?lookup_delete_eq.
Qed.

Lemma upserts_local (m m' : gmap key FsEntry) (l : list FsEntry) k :
  foldl (λ m e, <[fs_key e := e]> m) m l !! k = foldl (λ m e, <[fs_key e := e]> m) m' l !! k ∨
  foldl (λ m e, <[fs_key e := e]> m) m l !! k = m !! k ∧ foldl (λ m e, <[fs_key e := e]> m) m' l !! k = m' !! k.
Proof.
  induction l as [|e l IH] using rev_ind; [by right|]. rewrite !foldl_app. cbn [foldl].
  destruct (decide (fs_key e = k)) as [->|]; [left; by rewrite !lookup_insert_eq|]. by rewrite !lookup_insert_ne.
Qed.

Lemma delta_local d m m' k :
  apply_delta d m !! k = apply_delta d m' !! k ∨ apply_delta d m !! k = m !! k ∧ apply_delta d m' !! k = m' !! k.
Proof. unfold apply_delta. rewrite !foldl_delete_keys. destruct (decide _); [by left|]. apply upserts_local. Qed.

(** The collected keys are those of events. *)
Lemma collect_touched evs k :
  let c := foldl collect_event (mk_collecting [] [] []) evs in
  dict_get k (c_upserts c) ≠ None ∨ dict_get k (c_removed c) ≠ None → k ∈ ev_key <$> evs.
Proof.
  cbv zeta. induction evs as [|ev evs IH] using rev_ind; [by intros [?|?]|]. rewrite foldl_app, fmap_app. change (ev_key <$> [ev]) with [ev_key ev]. rewrite elem_of_app, list_elem_of_singleton.
  cbn [foldl]. set (c := foldl _ _ evs) in *. destruct (decide (k = ev_key ev)) as [->|Hne]; [by right|]. intros H. left. apply IH. revert H.
  destruct ev as [kind p i e d|p i d]; cbn [collect_event ev_key] in *; [|destruct (_ && _)]; cbn [c_upserts c_removed];
    rewrite ?dict_get_set, ?dict_get_pop; repeat case_decide; try congruence; tauto.
Qed.

(** C18: The delta of a cycle is consistent and has the effect of its events applied in order, whatever was known before: no key is both
    upserted and removed, none appears twice, each is of some event, the removals are in order, and applying the delta leaves under each
    key what the events leave there, with one exception: a known key that the feed creates and deletes after may keep what it had. *)
Theorem delta_is_net_effect m evs :
  Forall keyed evs →
  let d := collect_delta evs in
  NoDup (fs_key <$> upserts d) ∧ NoDup (removed d) ∧ Forall (λ e, fs_key e ∉ removed d) (upserts d) ∧
  Forall (λ k, k ∈ ev_key <$> evs) ((fs_key <$> upserts d) ++ removed d) ∧ StronglySorted removal_le (delta_removals d) ∧
  ∀ k, apply_delta d m !! k = foldl apply_event m evs !! k ∨
       redeleted k false evs = true ∧ apply_delta d m !! k = m !! k ∧ foldl apply_event m evs !! k = None.
Proof.
  intros Hk d. destruct (settled_net_effect ∅ evs) as (Hu & Hr & Hd & Hs & He); [by intros pre ev post _ _ _|done|]. fold d in Hu, Hr, Hd, Hs, He.
  split_and!; [done..| |done|].
  - apply Forall_forall. intros k Hin. apply (collect_touched evs). set (c := foldl _ _ evs). rewrite !dict_get_none.
    apply elem_of_app in Hin as [Hin|Hin].
    + left. destruct (collect_spec ∅ evs) as (Hnd & _ & Hkey & _); [by intros pre ev post _ _ _|done|]. fold c in Hnd, Hkey.
      apply list_elem_of_fmap in Hin as (e & -> & ([k' e'] & -> & Hin)%list_elem_of_fmap). fold c in Hin. cbn [snd].
      pose proof Hin as Hg%dict_get_elem%Hkey; [|done]. destruct Hg as [-> _]. intros Hno. apply Hno. by apply (list_elem_of_fmap_2 fst) in Hin.
    + right. unfold removed, d, collect_delta in Hin. cbn [delta_removals] in Hin. rewrite stable_sort_Permutation in Hin. auto.
  - intros k. destruct (redeleted k false evs) eqn:E.
    + rewrite (events_local m ∅ evs k) by (right; by eapply redeleted_event). rewrite <- He.
      destruct (delta_local d m ∅ k) as [->|[-> ->]]; [by left|]. right. by rewrite lookup_empty.
    + left. destruct (m !! k) as [x|] eqn:Ex.
      * destruct (settled_net_effect {[k := x]} evs) as (_ & _ & _ & _ & He'); [|done|].
        { intros pre ev post -> Hdel Hin. apply lookup_singleton_ne. intros Hkk. by destruct (not_redeleted _ _ _ _ _ E Hdel (eq_sym Hkk)) as [[] _]; rewrite Hkk. }
        fold d in He'. rewrite (events_local m {[k := x]}) by (left; by rewrite lookup_singleton_eq). rewrite <- He'.
        destruct (delta_local d m {[k := x]} k) as [|[-> ->]]; [done|by rewrite lookup_singleton_eq].
      * rewrite (events_local m ∅) by (left; by rewrite lookup_empty). rewrite <- He.
        destruct (delta_local d m ∅ k) as [|[-> ->]]; [done|by rewrite lookup_empty].
Qed.

(** ** The fallback feed reports exactly the difference *)

Definition changed (baseline : Baseline) (e : FsEntry) : bool := bool_decide (restat_event baseline e ≠ None).

(** The baseline entries that are gone, as removals. *)
Definition gone (baseline : Baseline) (walk : list FsEntry) : list (key * string) :=
  (λ x, (x.1, x.2.2)) <$> missing (fs_key <$> walk) baseline.

Lemma dict_set_new {K V} `{!EqDecision K} (k : K) (v : V) d : k ∉ d.*1 → dict_set k v d = d ++ [(k, v)].
Proof.
  induction d as [|[k0 v0] d IH]; [done|]. cbn. intros H. rewrite decide_False, IH; [done| |].
  - intros Hin. apply H. by right.
  - intros ->. apply H. by left.
Qed.

Lemma dict_pop_absent {K V} `{!EqDecision K} (k : K) (d : list (K * V)) : k ∉ d.*1 → dict_pop k d = d.
Proof.
  intros H. apply filter_all, Forall_forall. intros x Hx Hk. apply H. rewrite <- Hk. by apply list_elem_of_fmap_2.
Qed.

Definition keyed_entries (l : list FsEntry) : list (key * FsEntry) := (λ e, (fs_key e, e)) <$> l.

Lemma keyed_entries_keys l : (keyed_entries l).*1 = fs_key <$> l.
Proof. unfold keyed_entries. by rewrite <- list_fmap_compose. Qed.

Lemma collect_upserts baseline walk u cr :
  NoDup (u.*1 ++ (fs_key <$> walk)) →
  ∃ cr', foldl collect_event (mk_collecting u [] cr) (omap (restat_event baseline) walk) =
         mk_collecting (u ++ keyed_entries (filter (λ e, changed baseline e) walk)) [] cr'.
Proof.
  revert u cr. induction walk as [|e walk IH]; intros u cr Hn; [exists cr; by rewrite app_nil_r|].
  rewrite filter_cons_b. unfold changed at 1. cbn [omap list_omap].
  destruct (restat_event baseline e) as [ev|] eqn:E.
  - assert (∃ kind, ev = Upsert kind (f_path e) (f_inode e) e (f_dev e)) as [kind ->].
    { unfold restat_event in E. destruct (dict_get _ _) as [[t p]|]; [case_match; [|done]|]; injection E as <-; eauto. }
    rewrite bool_decide_true by done. cbn [foldl collect_event c_upserts c_removed c_created].
    change (f_dev e, f_inode e) with (fs_key e). rewrite dict_set_new.
    + edestruct (IH (u ++ [(fs_key e, e)])) as [cr' ->]; [by rewrite fmap_app, <- app_assoc|].
      exists cr'. by rewrite <- app_assoc.
    + rewrite fmap_cons in Hn. apply NoDup_app in Hn as (_ & Hn & _). intros Hin. apply (Hn _ Hin). left.
  - apply IH. rewrite fmap_cons in Hn. apply NoDup_app in Hn as (Hu & Hd & Hw).
    apply NoDup_cons in Hw as [_ Hw]. apply NoDup_app. split_and!; [done| |done]. intros k Hk Hin. apply (Hd k Hk). by right.
Qed.

Lemma missing_cons seen x baseline :
  missing seen (x :: baseline) = if bool_decide (x.1 ∈ seen) then missing seen baseline else x :: missing seen baseline.
Proof. unfold missing. rewrite filter_cons. case_bool_decide; case_decide; done. Qed.

Lemma collect_deletes baseline seen u rm cr :
  NoDup (rm.*1 ++ baseline.*1) → (∀ k, k ∈ u.*1 → k ∈ seen) →
  foldl collect_event (mk_collecting u rm cr) (restat_deletes seen baseline) =
  mk_collecting u (rm ++ ((λ x : key * (Z * string), (x.1, x.2.2)) <$> missing seen baseline)) cr.
Proof.
  unfold restat_deletes. intros Hn Hu. revert rm Hn.
  induction baseline as [|[k [t p]] baseline IH]; intros rm Hn; [by rewrite app_nil_r|].
  rewrite missing_cons. cbn [fst]. rewrite fmap_cons in Hn. apply NoDup_app in Hn as (Hr & Hd & Hb).
  apply NoDup_cons in Hb as [Hk Hb]. cbn [fst] in *. destruct (decide (k ∉ seen)) as [Hs|Hs];
    [rewrite (bool_decide_false (k ∈ seen)) by done|rewrite (bool_decide_true (k ∈ seen)) by (by apply dec_stable)].
  - destruct k as [d i]. cbn [fmap list_fmap foldl collect_event c_upserts c_removed c_created].
    rewrite (proj2 (dict_get_none (d, i) u)) by auto. rewrite bool_decide_false by auto. cbn [andb].
    rewrite dict_pop_absent, dict_set_new by (intros Hin; try (by apply Hs, Hu); apply (Hd _ Hin); left).
    rewrite IH, <- app_assoc; [done|]. rewrite fmap_app. apply NoDup_app. split_and!; [|intros k' Hin Hk'|done].
    + apply NoDup_app. split_and!; [done| |apply NoDup_singleton].
      intros k' Hin ->%list_elem_of_singleton. apply (Hd _ Hin). left.
    + apply elem_of_app in Hin as [Hin| ->%list_elem_of_singleton]; [|done]. apply (Hd _ Hin). by right.
  - apply IH. apply NoDup_app. split_and!; [done| |done]. intros k' Hin Hk'. apply (Hd _ Hin). by right.
Qed.

Lemma restat_delta (baseline : Baseline) (walk : list FsEntry) :
  NoDup baseline.*1 → NoDup (fs_key <$> walk) →
  collect_delta (restat_changes baseline walk) =
  mk_delta (filter (λ e, changed baseline e) walk) (stable_sort removal_le (gone baseline walk)).
Proof.
  intros Hb Hw. unfold collect_delta, restat_changes. rewrite foldl_app.
  destruct (collect_upserts baseline walk [] [] Hw) as [cr ->]. cbn [app].
  rewrite collect_deletes; [|done|].
  2:{ intros k. rewrite keyed_entries_keys. intros (e & -> & [_ He]%list_elem_of_filter)%list_elem_of_fmap.
      by apply list_elem_of_fmap_2. }
  cbn [app c_upserts c_removed]. f_equal. unfold keyed_entries. rewrite <- list_fmap_compose. apply list_fmap_id.
Qed.

(** A cycle of the fallback feed, over a walk that meets each file once: the upserts are the entries that
    are new or whose time or path differ, in walk order; the removals are the baseline files the walk did
    not meet; and a catalogue of the baseline's files, once the delta is applied, has the files of the walk
    and no other, the changed ones with the new entry. *)
Theorem restat_synchronises (baseline : Baseline) (walk : list FsEntry) (m : gmap key FsEntry) :
  NoDup baseline.*1 → NoDup (fs_key <$> walk) → (∀ k, k ∈ baseline.*1 ↔ is_Some (m !! k)) →
  let d := collect_delta (restat_changes baseline walk) in
  upserts d = filter (λ e, changed baseline e) walk ∧
  Permutation (delta_removals d) (gone baseline walk) ∧ StronglySorted removal_le (delta_removals d) ∧
  (∀ e, e ∈ walk → apply_delta d m !! fs_key e = if changed baseline e then Some e else m !! fs_key e) ∧
  (∀ k, is_Some (apply_delta d m !! k) ↔ k ∈ fs_key <$> walk).
Proof.
  intros Hb Hw Hm d. unfold d. rewrite restat_delta by done. set (l := filter (λ e, changed baseline e) walk).
  assert (l = (keyed_entries l).*2) as Hl.
  { unfold keyed_entries. rewrite <- list_fmap_compose. symmetry. apply list_fmap_id. }
  rewrite Hl.
  assert (NoDup (keyed_entries l).*1) as Hn.
  { rewrite keyed_entries_keys. eapply sublist_NoDup; [exact Hw|]. apply fmap_sublist, sublist_filter. }
  assert (∀ k, apply_delta (mk_delta (keyed_entries l).*2 (stable_sort removal_le (gone baseline walk))) m !! k =
    if decide (k ∈ (gone baseline walk).*1) then None else
    match dict_get k (keyed_entries l) with Some e => Some e | None => m !! k end) as Happ.
  { intros k. unfold apply_delta, removed. cbn [upserts delta_removals]. rewrite foldl_delete_keys, foldl_insert_entries.
    - destruct (decide (k ∈ (gone baseline walk).*1)); [rewrite decide_True|rewrite decide_False]; try done;
        by rewrite stable_sort_Permutation.
    - done.
    - by intros k' e (e' & [= -> ->] & _)%list_elem_of_fmap. }
  assert (∀ k, k ∈ (gone baseline walk).*1 ↔ k ∈ baseline.*1 ∧ k ∉ fs_key <$> walk) as Hg.
  { intros k. unfold gone. rewrite <- list_fmap_compose, list_elem_of_fmap. unfold missing.
    setoid_rewrite list_elem_of_filter. split.
    - intros (x & -> & Hx & Hin). split; [by apply list_elem_of_fmap_2|exact Hx].
    - intros [(x & -> & Hin)%list_elem_of_fmap Hx]. by exists x. }
  assert (∀ e, e ∈ walk → apply_delta (mk_delta (keyed_entries l).*2 (stable_sort removal_le (gone baseline walk))) m !! fs_key e
            = if changed baseline e then Some e else m !! fs_key e) as Hwalk.
  { intros e He. rewrite Happ, decide_False by (rewrite Hg; intros [_ Hx]; apply Hx; by apply list_elem_of_fmap_2).
    destruct (changed baseline e) eqn:Ec.
    - rewrite (proj1 (dict_get_elem (fs_key e) e (keyed_entries l) Hn)); [done|].
      apply list_elem_of_fmap. exists e. split; [done|]. apply list_elem_of_filter. by rewrite Ec.
    - rewrite (proj2 (dict_get_none (fs_key e) (keyed_entries l))); [done|]. rewrite keyed_entries_keys.
      intros (e' & Hk & [Hc He']%list_elem_of_filter)%list_elem_of_fmap.
      assert (e = e') as ->; [|by rewrite Ec in Hc]. pose proof (at_key_elem fs_key walk e Hw He) as H1.
      rewrite Hk, (at_key_elem fs_key walk e' Hw He') in H1. by injection H1. }
  cbn [upserts delta_removals]. split_and!.
  - done.
  - apply stable_sort_Permutation.
  - apply removals_sorted.
  - exact Hwalk.
  - intros k. split.
    + rewrite Happ. case_decide as Hd; [by intros [? ?]|]. rewrite Hg in Hd. intros Hs.
      destruct (decide (k ∈ fs_key <$> walk)); [done|]. destruct Hd. split; [|done]. apply Hm.
      rewrite (proj2 (dict_get_none k (keyed_entries l))) in Hs; [done|]. rewrite keyed_entries_keys.
      intros (e & -> & [_ He]%list_elem_of_filter)%list_elem_of_fmap. destruct n. by apply list_elem_of_fmap_2.
    + intros (e & -> & He)%list_elem_of_fmap. rewrite (Hwalk e He). destruct (changed baseline e) eqn:Ec; [done|].
      apply Hm. unfold changed in Ec. apply bool_decide_eq_false in Ec. apply dec_stable.
      intros Hni%dict_get_none. apply Ec. unfold restat_event. by rewrite Hni.
Qed.

(** ** Small cycles *)

Definition demo_file (p : string) (inode mtime : Z) : FsEntry :=
  mk_fs p p false false 10 10 mtime mtime 0 0 inode 5 "{}" None None.

(** A rename split in two, and a file that came and went. *)
Definition demo_events : list ChangeEvent :=
  [Delete "/a" 1 5; Upsert create "/b" 1 (demo_file "/b" 1 9) 5; Upsert create "/t" 2 (demo_file "/t" 2 9) 5; Delete "/t" 2 5].
Definition demo_known : gmap key FsEntry := {[ (5%Z, 1%Z) := demo_file "/a" 1 9 ]}.

Lemma delta_is_net_effect_witness :
  upserts (collect_delta demo_events) = [demo_file "/b" 1 9] ∧ delta_removals (collect_delta demo_events) = [] ∧
  apply_delta (collect_delta demo_events) demo_known !! (5, 1)%Z = foldl apply_event demo_known demo_events !! (5, 1)%Z.
Proof.
  split; [by_compute|]. split; [by_compute|].
  destruct (delta_is_net_effect demo_known demo_events ltac:(repeat constructor)) as (_ & _ & _ & _ & _ & H).
  destruct (H (5, 1)%Z) as [Hk|(Hr & _)]; [exact Hk|]. exfalso. revert Hr. vm_compute. discriminate.
Defined.

Definition demo_baseline : Baseline := [((5, 1)%Z, (9%Z, "/a")); ((5, 2)%Z, (9%Z, "/b")); ((5, 3)%Z, (9%Z, "/c"))].
Definition demo_walk : list FsEntry := [demo_file "/a" 1 9; demo_file "/b" 2 12; demo_file "/new" 4 12].
Definition demo_catalogue : gmap key FsEntry :=
  {[ (5%Z, 1%Z) := demo_file "/a" 1 9; (5%Z, 2%Z) := demo_file "/b" 2 9; (5%Z, 3%Z) := demo_file "/c" 3 9 ]}.

Lemma restat_synchronises_witness :
  let d := collect_delta (restat_changes demo_baseline demo_walk) in
  upserts d = [demo_file "/b" 2 12; demo_file "/new" 4 12] ∧ Permutation (delta_removals d) [((5, 3)%Z, "/c")].
Proof.
  intros d. edestruct (restat_synchronises demo_baseline demo_walk demo_catalogue) as (H1 & H2 & _).
  - by_compute.
  - by_compute.
  - intros k. unfold demo_catalogue. rewrite !lookup_insert_is_Some, lookup_singleton_is_Some.
    cbn. rewrite !elem_of_cons, elem_of_nil. destruct (decide (k = (5, 1)%Z)), (decide (k = (5, 2)%Z)); naive_solver.
  - split; [etransitivity; [exact H1|]; by_compute|exact H2].
Defined.

(** A file that is deleted, re-created and deleted again in one cycle is not reported as removed. *)
Lemma redeleted_not_removed :
  let evs := [Delete "/a" 1 5; Upsert create "/a" 1 (demo_file "/a" 1 9) 5; Delete "/a" 1 5] in
  is_empty (collect_delta evs) = true ∧ foldl apply_event demo_known evs = ∅.
Proof. split; [by_compute|]. by_compute. Qed.

(** A sibling whose name extends the root's is taken for inside, and a removal has device 0. *)
Lemma zfs_scope_is_textual :
  changes_between (λ _, []) [("/tank/data2/f", 7%Z)] [] [String "-" (String TAB "/tank/data2/f")] "/tank/data"
  = [Delete "/tank/data2/f" 7 0].
Proof. by_compute. Qed.

(** A pool with a child data set: the full walk of a [cross_mounts] scope descends into it, the feed's walk
    does not, so every file of the child is reported as removed. *)
Definition demo_pool (p : string) : list DirEntry :=
  if bool_decide (p = "/t") then [demo_de "/t/m" "m" KDir 4 8]
  else if bool_decide (p = "/t/m") then [demo_de "/t/m/f" "f" KOther 9 8] else [].

Lemma nested_mount_reported_removed :
  let walked one_fs := tree (walk_scan posix_hooks demo_pool (demo_stat KDir 1 7) false one_fs []) 3 "/t" in
  let staged := (stage_batch 1 "h" "/t" (walked false) empty_store).2 in
  restat_changes (load_baseline "h" "/t" staged) (walked true) = [Delete "/t/m/f" 9 8].
Proof. vm_compute. reflexivity. Qed.
