(* ===== verification/Supervisor.v ===== *)
(** The load supervisor ([src/fathom/agent/reader/supervisor.py]) and its profile ([agent/config.py]).

    The providers are functions of a time that only sleeping advances, one sample interval at a time; a
    load or a percentage is a finite double, kept as the integer it is a multiple of. *)

From S2P Require Import Prelude PyStr.

Record PauseRules := mk_pause { load1_above : Z; iowait_above_percent : Z }.
Record ResumeRules := mk_resume { load1_below : Z }.
Record HardRules := mk_hard { block_fullbit_during_raid_resync : bool }.
Record ThrottleProfile := mk_throttle { pause_when : PauseRules; resume_when : ResumeRules; hard_rules : HardRules }.

(** The validator of [resume_when], and the bounds of the fields; [hundred] is the double 100.0. *)
Definition _resume_below_pause (t : ThrottleProfile) : bool := (load1_below (resume_when t) <? load1_above (pause_when t))%Z.
Definition throttle_ok (hundred : Z) (t : ThrottleProfile) : bool :=
  (0 <? load1_above (pause_when t))%Z && (0 <=? iowait_above_percent (pause_when t))%Z
  && (iowait_above_percent (pause_when t) <=? hundred)%Z && (0 <? load1_below (resume_when t))%Z && _resume_below_pause t.

Definition _RESYNC_MARKERS : list string := ["resync"; "recovery"; "rebuild"; "reshape"; "check"].

(** [/proc/mdstat]: [None] when it cannot be read. *)
Definition _default_resync (mdstat : option string) : bool :=
  match mdstat with
  | None => true
  | Some text => existsb (λ marker, contains marker (lower text)) _RESYNC_MARKERS
  end.

(** A resync provider: synchronous or not, and what it answers. *)
Inductive ResyncProvider := SyncResync (b : bool) | AsyncResync (b : bool).

Section Supervisor.
Context (throttle : ThrottleProfile) (load1 iowait : nat → Z).

Definition should_block_fullbit (resync : ResyncProvider) : result string bool :=
  if negb (block_fullbit_during_raid_resync (hard_rules throttle)) then Ok false
  else match resync with AsyncResync _ => Err "resync provider is async" | SyncResync b => Ok b end.

Definition should_block_fullbit_async (resync : ResyncProvider) : bool :=
  if negb (block_fullbit_during_raid_resync (hard_rules throttle)) then false
  else match resync with SyncResync b | AsyncResync b => b end.

Definition _over_ceiling (paused : bool) (t : nat) : bool :=
  if (iowait_above_percent (pause_when throttle) <? iowait t)%Z then true
  else if paused then (load1_below (resume_when throttle) <=? load1 t)%Z
  else (load1_above (pause_when throttle) <? load1 t)%Z.

(** The loop: the flag and the time when it returns, [None] when the fuel is out. *)
Fixpoint wait_if_paused (fuel : nat) (paused : bool) (t : nat) : option (bool * nat) :=
  match fuel with
  | O => None
  | S fuel => if _over_ceiling paused t then wait_if_paused fuel true (S t) else Some (false, t)
  end.

(** The host is fit for a scan that has been paused, or has not. *)
Definition calm (paused : bool) (t : nat) : Prop :=
  (iowait t ≤ iowait_above_percent (pause_when throttle) ∧
   if paused then load1 t < load1_below (resume_when throttle) else load1 t ≤ load1_above (pause_when throttle))%Z.

Lemma over_ceiling_calm paused t : _over_ceiling paused t = false ↔ calm paused t.
Proof.
  unfold _over_ceiling, calm. destruct (Z.ltb_spec (iowait_above_percent (pause_when throttle)) (iowait t)); [split; [done|lia]|].
  destruct paused; [rewrite Z.leb_gt|rewrite Z.ltb_ge]; naive_solver lia.
Qed.

Lemma wait_from_paused fuel t p t' :
  wait_if_paused fuel true t = Some (p, t') → p = false ∧ t ≤ t' ∧ calm true t' ∧ ∀ u, t ≤ u < t' → ¬ calm true u.
Proof.
  revert t. induction fuel as [|fuel IH]; intros t; cbn [wait_if_paused]; [done|].
  destruct (_over_ceiling true t) eqn:E.
  - intros (-> & Hle & Hc & Hu)%IH. split_and!; [done|lia|done|]. intros u Hr. destruct (decide (u = t)) as [->|].
    + rewrite <- over_ceiling_calm. by rewrite E.
    + apply Hu. lia.
  - intros [= <- <-]. split_and!; [done|lia|by apply over_ceiling_calm|lia].
Qed.

Lemma wait_returns fuel t t' : t ≤ t' → calm true t' → t' - t < fuel → is_Some (wait_if_paused fuel true t).
Proof.
  revert t. induction fuel as [|fuel IH]; intros t Hle Hc Hf; [lia|]. cbn [wait_if_paused].
  destruct (_over_ceiling true t) eqn:E; [|done]. apply IH; [|done|].
  all: destruct (decide (t = t')) as [->|]; [|lia]; apply over_ceiling_calm in Hc; congruence.
Qed.

(** Hysteresis: a call returns at once when the host is below the ceilings; otherwise at the first sample
    where the load is under the lower resume threshold and the I/O wait under its ceiling, and not before;
    it does return if there is such a sample.  A host fit to resume is below the ceilings. *)
Theorem wait_hysteresis t :
  (calm false t → ∀ fuel, wait_if_paused (S fuel) false t = Some (false, t)) ∧
  (¬ calm false t → ∀ fuel p t', wait_if_paused fuel false t = Some (p, t') →
     p = false ∧ t < t' ∧ calm true t' ∧ ∀ u, t < u < t' → ¬ calm true u) ∧
  (∀ t', t < t' → calm true t' → is_Some (wait_if_paused (S (t' - t)) false t)) ∧
  (_resume_below_pause throttle = true → ∀ t', calm true t' → calm false t').
Proof.
  split_and!.
  - intros Hc%over_ceiling_calm fuel. cbn [wait_if_paused]. by rewrite Hc.
  - intros Hc [|fuel] p t'; cbn [wait_if_paused]; [done|]. rewrite <- over_ceiling_calm in Hc.
    destruct (_over_ceiling false t); [|done]. intros (-> & Hle & Hc' & Hu)%wait_from_paused.
    split_and!; [done|lia|done|]. intros u Hr. apply Hu. lia.
  - intros t' Hlt Hc. cbn [wait_if_paused]. destruct (_over_ceiling false t); [|done].
    apply (wait_returns _ _ t'); [lia|done|lia].
  - unfold _resume_below_pause, calm. lia.
Qed.
End Supervisor.
