(* ===== verification/WinPath.v ===== *)
(** Windows paths: [ntpath] and [pathlib.PureWindowsPath] of the Python standard library (3.12), and
    the checks of [src/fathom/security/winpaths.py] over them. *)

From S2P Require Import Prelude PyStr PosixPath.

(** ** The standard library *)

Definition BSLASH : ascii := "\"%char.
Definition is_sep (c : ascii) : bool := Ascii.eqb c BSLASH || Ascii.eqb c SLASH.

(** [s.replace("/", "\")]. *)
Fixpoint to_bs (s : string) : string :=
  match s with "" => "" | String c s' => String (if Ascii.eqb c SLASH then BSLASH else c) (to_bs s') end.

(** [s[:n]] for [n ≥ 0]. *)
Fixpoint take_s (n : nat) (s : string) : string :=
  match n, s with
  | S n', String c s' => String c (take_s n' s')
  | _, _ => ""
  end.

(** The text before the first separator, and the text from it on. *)
Fixpoint break_sep (s : string) : string * string :=
  match s with
  | "" => ("", "")
  | String c s' => if is_sep c then ("", s) else let '(a, b) := break_sep s' in (String c a, b)
  end.

(** Equality to a text of capitals and signs after [upper()]. *)
Fixpoint upper_is (pat s : string) : bool :=
  match pat, s with
  | "", "" => true
  | String c p, String d s' => (Ascii.eqb c d || is_alpha d && Ascii.eqb (lower_char c) d) && upper_is p s'
  | _, _ => false
  end.

Definition UNC_PREFIX : string := "\\?\UNC\".

(** [ntpath.splitroot]: drive, root, rest. *)
Definition split_unc (p pre rest : string) : string * string * string :=
  let '(server, r1) := break_sep rest in
  match r1 with
  | "" => (p, "", "")
  | String s1 r2 =>
      let '(share, r3) := break_sep r2 in
      match r3 with
      | "" => (p, "", "")
      | String s2 r4 => (pre +:+ server +:+ String s1 share, String s2 "", r4)
      end
  end.

Definition splitroot (p : string) : string * string * string :=
  match p with
  | "" => ("", "", "")
  | String a p1 =>
      if is_sep a then
        match p1 with
        | String b p2 =>
            if is_sep b then
              if upper_is UNC_PREFIX (to_bs (take_s 8 p)) then split_unc p (take_s 8 p) (drop_s 8 p)
              else split_unc p (take_s 2 p) p2
            else ("", String a "", p1)
        | "" => ("", String a "", p1)
        end
      else
        match p1 with
        | String ":" p2 =>
            match p2 with
            | String c p3 => if is_sep c then (String a ":", String c "", p3) else (String a ":", "", p2)
            | "" => (String a ":", "", p2)
            end
        | _ => ("", "", p)
        end
  end.

Definition splitdrive (p : string) : string * string :=
  let '(d, r, t) := splitroot p in (d, r +:+ t).

Definition nt_isabs (s : string) : bool :=
  let s := to_bs (take_s 3 s) in startswith "\" s || startswith ":\" (drop_s 1 s).

Definition nt_normpath (path : string) : string :=
  let '(drive, root, rest) := splitroot (to_bs path) in
  let comps := resolve (negb (bool_decide (root = ""))) (split_char BSLASH rest) in
  or_dot (drive +:+ root +:+ join "\" comps).

(** [ntpath.join(path, p)]. *)
Definition ends_with_sep (s : string) : bool := endswith "\" s || endswith "/" s.

Definition nt_join (path p : string) : string :=
  let '(d0, r0, t0) := splitroot path in
  let '(d1, r1, t1) := splitroot p in
  let '(d, r, t) :=
    if negb (bool_decide (r1 = "")) then
      ((if negb (bool_decide (d1 = "")) || bool_decide (d0 = "") then d1 else d0), r1, t1)
    else if negb (bool_decide (d1 = "")) && negb (bool_decide (lower d1 = lower d0)) then (d1, r1, t1)
    else (if bool_decide (d1 = "") then d0 else d1, r0,
          (if negb (bool_decide (t0 = "")) && negb (ends_with_sep t0) then t0 +:+ "\" else t0) +:+ t1) in
  if negb (bool_decide (t = "")) && bool_decide (r = "") && negb (bool_decide (d = "")) &&
     negb (endswith ":" d || ends_with_sep d)
  then d +:+ "\" +:+ t else d +:+ r +:+ t.

Record PureWindowsPath := mk_win { w_drive : string; w_root : string; w_tail : list string }.

#[export] Instance PureWindowsPath_eq_dec : EqDecision PureWindowsPath.
Proof. solve_decision. Defined.

(** A UNC share without a root gets one. *)
Definition implied_root (drv : string) : bool :=
  startswith "\" drv && negb (endswith "\" drv) &&
  match split_char BSLASH drv with
  | [_; _; x; _] => negb (bool_decide (x ∈ [""; "?"; "."; "?."]))
  | [_; _; _; _; _; _] => true
  | _ => false
  end.

Definition parse_win (path : string) : PureWindowsPath :=
  let '(drv, root, rel) := splitroot (to_bs path) in
  let root := if bool_decide (root = "") && implied_root drv then "\" else root in
  mk_win drv root (filter kept (split_char BSLASH rel)).

Definition win_str (p : PureWindowsPath) : string :=
  if negb (bool_decide (w_drive p = "")) || negb (bool_decide (w_root p = ""))
  then w_drive p +:+ w_root p +:+ join "\" (w_tail p)
  else match w_tail p with
       | [] => "."
       | c :: _ => let t := if bool_decide ((splitdrive c).1 = "") then w_tail p else "." :: w_tail p in
                   join "\" t
       end.

(** [len(p.parts)], [p.parents], and [==], which compares the text without regard to case. *)
Definition win_parts (p : PureWindowsPath) : nat :=
  (if bool_decide (w_drive p = "") && bool_decide (w_root p = "") then 0 else 1) + length (w_tail p).
Definition win_parents (p : PureWindowsPath) : list PureWindowsPath :=
  (λ n, mk_win (w_drive p) (w_root p) (take n (w_tail p))) <$> reverse (seq 0 (length (w_tail p))).
Definition win_eqb (p q : PureWindowsPath) : bool := bool_decide (lower (win_str p) = lower (win_str q)).

(** [str.casefold] below U+0100: [lower], and the sharp s becomes two letters.  (U+00B5 goes to a
    code point of its own outside the range; it stays here, which changes no comparison.) *)
Fixpoint casefold (s : string) : string :=
  match s with
  | "" => ""
  | String c s' => (if (code c =? 223)%Z then "ss" else String (lower_char c) "") +:+ casefold s'
  end.

(** ** [security/winpaths.py] *)

Definition _LONG_PREFIX : string := "\\?\".
Definition _LONG_UNC_PREFIX : string := "\\?\UNC\".

Definition strip_long_path_prefix (text : string) : string :=
  if startswith _LONG_UNC_PREFIX text then "\\" +:+ drop_s (String.length _LONG_UNC_PREFIX) text
  else if startswith _LONG_PREFIX text then drop_s (String.length _LONG_PREFIX) text
  else text.

(** [_RESERVED]: a device name, then a dot or the end ([$] also matches before a last newline). *)
Definition device_names : list string :=
  ["CON"; "PRN"; "AUX"; "NUL"] ++
  ((λ d, "COM" +:+ String d "") <$> ["1"; "2"; "3"; "4"; "5"; "6"; "7"; "8"; "9"]%char) ++
  ((λ d, "LPT" +:+ String d "") <$> ["1"; "2"; "3"; "4"; "5"; "6"; "7"; "8"; "9"]%char).

Definition is_reserved_component (name : string) : bool :=
  existsb (λ dev, let n := String.length dev in
             upper_is dev (take_s n name) &&
             (bool_decide (drop_s n name = "") || startswith "." (drop_s n name) ||
              bool_decide (drop_s n name = String (ascii_of_N 10) ""))) device_names.

Definition _FORBIDDEN_CHARS : list ascii := ["<"; ">"; "034"; "|"; "?"; "*"]%char.

Definition _check_component (comp : string) : result PathSafetyError () :=
  _ ← raise_if (s_any (λ c, bool_decide (c ∈ _FORBIDDEN_CHARS)) comp || s_any (λ c, code c <? 32)%Z comp)
        (PathSafety "forbidden character in path component");
  _ ← raise_if (has_char ":" comp) (PathSafety "alternate data stream not allowed");
  _ ← raise_if (is_reserved_component comp) (PathSafety "reserved device name in path");
  raise_if (negb (bool_decide (comp = rstrip_by (λ c, Ascii.eqb c " " || Ascii.eqb c ".") comp)))
    (PathSafety "path component ends with dot/space").

Fixpoint check_all (comps : list string) : result PathSafetyError () :=
  match comps with
  | [] => Ok ()
  | c :: comps => _ ← _check_component c; check_all comps
  end.

(** Drive, normal form, components. *)
Definition _normalise (text : string) : result PathSafetyError (string * string * list string) :=
  _ ← raise_if (bool_decide (text = "")) (PathSafety "path is empty");
  _ ← raise_if (has_char NULCH text) (PathSafety "path contains a NUL byte");
  let norm := nt_normpath (strip_long_path_prefix text) in
  let '(drive, rest) := splitdrive norm in
  _ ← raise_if (bool_decide (drive = "") || negb (nt_isabs norm)) (PathSafety "path must be drive-rooted or UNC");
  let components := filter (λ c, c ≠ "") (split_char BSLASH rest) in
  _ ← check_all components;
  Ok (drive, norm, components).

Definition validate_windows_config_path (value : string) : result PathSafetyError PureWindowsPath :=
  n ← _normalise value;
  Ok (parse_win n.1.2).

Definition safe_windows_path_join (base candidate : string) : result PathSafetyError PureWindowsPath :=
  b ← _normalise base;
  _ ← raise_if (bool_decide (candidate = "")) (PathSafety "candidate path is empty");
  _ ← raise_if (has_char NULCH candidate) (PathSafety "path contains a NUL byte");
  let cand := to_bs (strip_long_path_prefix candidate) in
  _ ← raise_if (negb (bool_decide ((splitdrive cand).1 = "")) || startswith "\" cand)
        (PathSafety "candidate must be relative");
  j ← _normalise (nt_join b.1.2 cand);
  let base_key := casefold <$> b.2 in
  let joined_key := casefold <$> j.2 in
  _ ← raise_if (negb (bool_decide (take (length base_key) joined_key = base_key)))
        (PathSafety "path escapes base");
  Ok (parse_win j.1.2).

Definition win_text (r : result PathSafetyError PureWindowsPath) : option string :=
  match r with Ok p => Some (win_str p) | Err _ => None end.

Example val_ex1 : win_text (validate_windows_config_path "c:/data/sub") = Some "c:\data\sub". Proof. reflexivity. Qed.
Example val_ex2 : win_text (validate_windows_config_path "C:\Data\sub\..\other") = Some "C:\Data\other". Proof. reflexivity. Qed.
Example val_ex3 : win_text (validate_windows_config_path "\\?\UNC\nas-1\share\x") = Some "\\nas-1\share\x". Proof. reflexivity. Qed.
Example val_ex4 : win_text (validate_windows_config_path "\\nas-1\share") = Some "\\nas-1\share\". Proof. reflexivity. Qed.
Example val_ex5 : forallb (λ s, negb (is_ok (validate_windows_config_path s)))
  [""; "relative\path"; "C:data"; "\data"; "C:\bad<name>\x"; "C:\report.txt:hidden"; "C:\CON\logs";
   "C:\logs\NUL.txt"; "C:\logs\com7"; "C:\data.\x"; "C:\data \x"] = true. Proof. vm_compute. reflexivity. Qed.
Example join_win_ex1 : win_text (safe_windows_path_join "C:\Data" "Sub\..\OTHER") = Some "C:\Data\OTHER". Proof. reflexivity. Qed.
Example join_win_ex2 : win_text (safe_windows_path_join "\\nas-1\share\data" "x\y") = Some "\\nas-1\share\data\x\y". Proof. reflexivity. Qed.
Example join_win_ex3 : forallb (λ s, negb (is_ok (safe_windows_path_join "C:\Data" s)))
  ["..\escape"; ".."; "a\..\..\b"; "D:\absolute"; "D:relative"; "\rooted"; "\\evil\share"; "ok\report.txt:ads";
   "ok\NUL"; "trailing. \x"; ""] = true. Proof. vm_compute. reflexivity. Qed.

(** Texts that the checks let through although their drive part names no drive and no share. *)
Lemma device_namespace_accepted :
  win_text (validate_windows_config_path "\\.\PhysicalDrive0") = Some "\\.\PhysicalDrive0".
Proof. reflexivity. Qed.
Lemma slash_long_prefix_kept :
  win_text (validate_windows_config_path "//?/C:/x") = Some "\\?\C:\x" ∧
  win_text (validate_windows_config_path "\\?\C:\x") = Some "C:\x".
Proof. done. Qed.
Lemma relative_drive_accepted : win_text (validate_windows_config_path ".\C:\x") = Some "C:\x".
Proof. reflexivity. Qed.
Lemma share_escaped : win_text (safe_windows_path_join "\\server" "..") = Some "\\server\..\".
Proof. reflexivity. Qed.

(** ** The split is determined by the drive and the root *)

Definition no_sep (s : string) : Prop := s_all (λ c, negb (is_sep c)) s = true.

Lemma break_sep_spec s a b :
  break_sep s = (a, b) → s = a +:+ b ∧ no_sep a ∧ (b = "" ∨ ∃ c b', b = String c b' ∧ is_sep c = true).
Proof.
  unfold no_sep. revert a b. induction s as [|c s IH]; intros a b; cbn [break_sep].
  - intros [= <- <-]. auto.
  - destruct (is_sep c) eqn:E.
    + intros [= <- <-]. split_and!; [done..|]. right. eauto.
    + destruct (break_sep s) as [a' b'] eqn:Eb. intros [= <- <-].
      destruct (IH _ _ eq_refl) as (-> & Ha & Hb). split_and!; [done| |done].
      cbn [s_all]. by rewrite E, Ha.
Qed.

Lemma break_sep_app a c u : no_sep a → is_sep c = true → break_sep (a +:+ String c u) = (a, String c u).
Proof.
  unfold no_sep. intros Ha Hc. induction a as [|d a IH].
  - rewrite app_nil_s. cbn [break_sep]. by rewrite Hc.
  - cbn [s_all] in Ha. to_prop. rewrite app_cons_s. cbn [break_sep]. destruct (is_sep d); [done|].
    by rewrite IH.
Qed.

Lemma split_unc_spec p pre rest d r t :
  split_unc p pre rest = (d, r, t) → r ≠ "" →
  ∃ server s1 share s2, rest = server +:+ String s1 (share +:+ String s2 t) ∧ no_sep server ∧ no_sep share ∧
    is_sep s1 = true ∧ is_sep s2 = true ∧ d = pre +:+ server +:+ String s1 share ∧ r = String s2 "".
Proof.
  unfold split_unc. destruct (break_sep rest) as [server r1] eqn:E1.
  destruct (break_sep_spec _ _ _ E1) as (-> & Hs & [-> | (s1 & r2 & -> & H1)]); [congruence|].
  destruct (break_sep r2) as [share r3] eqn:E2.
  destruct (break_sep_spec _ _ _ E2) as (-> & Hh & [-> | (s2 & r4 & -> & H3)]); [congruence|].
  intros [= <- <- <-] _. by exists server, s1, share, s2.
Qed.

Lemma split_unc_app p pre server s1 share s2 u :
  no_sep server → no_sep share → is_sep s1 = true → is_sep s2 = true →
  split_unc p pre (server +:+ String s1 (share +:+ String s2 u)) =
  (pre +:+ server +:+ String s1 share, String s2 "", u).
Proof. intros. unfold split_unc. rewrite break_sep_app by done. by rewrite break_sep_app by done. Qed.

Lemma take_drop_s n s : take_s n s +:+ drop_s n s = s.
Proof. revert s. induction n as [|n IH]; intros [|c s]; try done. cbn [take_s drop_s]. by rewrite app_cons_s, IH. Qed.

Lemma take_s_app p s : take_s (String.length p) (p +:+ s) = p.
Proof. induction p as [|c p IH]; [by destruct s|]. rewrite app_cons_s. cbn. by rewrite IH. Qed.

Lemma upper_is_length pat s : upper_is pat s = true → String.length s = String.length pat.
Proof.
  revert s. induction pat as [|c p IH]; intros [|d s]; try done. cbn [upper_is String.length].
  intros [_ ?%IH]%andb_true_iff. congruence.
Qed.

Lemma length_to_bs s : String.length (to_bs s) = String.length s.
Proof. induction s; simpl; congruence. Qed.

Lemma is_sep_to_bs c : Ascii.eqb (if Ascii.eqb c SLASH then BSLASH else c) BSLASH = is_sep c.
Proof. unfold is_sep. destruct (Ascii.eqb c SLASH) eqn:E; [|by rewrite orb_false_r]. by rewrite orb_true_r. Qed.

(** A separator of the pattern stands for a separator of the text, and nothing else does. *)
Lemma upper_is_sep pat c s :
  upper_is pat (to_bs (String c s)) = true →
  ∃ d p, pat = String d p ∧ Ascii.eqb d BSLASH = is_sep c ∧ upper_is p (to_bs s) = true.
Proof.
  destruct pat as [|d p]; [done|]. cbn [to_bs upper_is]. intros [H1 H2]%andb_true_iff.
  exists d, p. split_and!; [done| |done]. rewrite <- is_sep_to_bs.
  set (e := if Ascii.eqb c SLASH then BSLASH else c) in *. clearbody e. clear -H1.
  apply orb_true_iff in H1 as [->%Ascii.eqb_eq | [Ha H1]%andb_true_iff]; [done|].
  apply Ascii.eqb_eq in H1 as <-. destruct (Ascii.eqb d BSLASH) eqn:E.
  - apply Ascii.eqb_eq in E as ->. by vm_compute in Ha.
  - symmetry. apply Ascii.eqb_neq. intros H. rewrite H in Ha. by vm_compute in Ha.
Qed.

(** The long UNC prefix cannot appear by replacing what follows the second separator. *)
Ltac next_char H := apply upper_is_sep in H as (? & ? & [= <- <-] & ?H & H).

Lemma unc_prefix_stable a b server s1 share s2 t u :
  no_sep server → no_sep share → is_sep s1 = true → is_sep s2 = true →
  upper_is UNC_PREFIX (to_bs (take_s 8 (String a (String b (server +:+ String s1 (share +:+ String s2 u)))))) = true →
  upper_is UNC_PREFIX (to_bs (take_s 8 (String a (String b (server +:+ String s1 (share +:+ String s2 t)))))) = true.
Proof.
  unfold no_sep, UNC_PREFIX. intros Hs Hh H1 H2 Hu. pose proof Hu as H. cbn [take_s] in H.
  next_char H. next_char H. destruct server as [|x [|y server]].
  - rewrite app_nil_s in H. next_char H. rewrite H1 in *. done.
  - rewrite app_cons_s, app_nil_s in H. next_char H. next_char H.
    destruct share as [|z1 [|z2 [|z3 [|z4 share]]]]; rewrite ?app_cons_s, ?app_nil_s in H.
    1-3: do 3 try next_char H; rewrite H2 in *; done.
    + done.
    + next_char H. next_char H. next_char H. next_char H. cbn [s_all] in Hh.
      match goal with E : _ = is_sep z4 |- _ => rewrite <- E in Hh end.
      cbn [negb Ascii.eqb Bool.eqb BSLASH andb] in Hh. by rewrite !andb_false_r in Hh.
  - rewrite !app_cons_s in H. next_char H. next_char H. cbn [s_all] in Hs.
    match goal with E : _ = is_sep y |- _ => rewrite <- E in Hs end.
    cbn [negb Ascii.eqb Bool.eqb BSLASH andb] in Hs. by rewrite !andb_false_r in Hs.
Qed.

Lemma splitroot_unc a b s :
  is_sep a = true → is_sep b = true →
  splitroot (String a (String b s)) =
  if upper_is UNC_PREFIX (to_bs (take_s 8 (String a (String b s))))
  then split_unc (String a (String b s)) (take_s 8 (String a (String b s))) (drop_s 8 (String a (String b s)))
  else split_unc (String a (String b s)) (String a (String b "")) s.
Proof. intros Ha Hb. unfold splitroot. by rewrite Ha, Hb. Qed.

Lemma unc_flat pre server s1 share s2 v :
  (pre +:+ server +:+ String s1 share) +:+ String s2 "" +:+ v =
  pre +:+ server +:+ String s1 (share +:+ String s2 v).
Proof. rewrite !app_assoc_s, app_cons_s. done. Qed.

Lemma splitroot_spec s d r t :
  splitroot s = (d, r, t) → d ≠ "" → r ≠ "" →
  (∃ c, r = String c "" ∧ is_sep c = true) ∧ ∀ u, splitroot (d +:+ r +:+ u) = (d, r, u).
Proof.
  intros H Hd Hr. destruct s as [|a s]; [cbn in H; congruence|]. destruct (is_sep a) eqn:Ea.
  - destruct s as [|b s]; [cbn [splitroot] in H; rewrite Ea in H; congruence|].
    destruct (is_sep b) eqn:Eb; [|cbn [splitroot] in H; rewrite Ea, Eb in H; congruence].
    rewrite (splitroot_unc a b s Ea Eb) in H. set (w := String a (String b s)) in *.
    destruct (upper_is UNC_PREFIX (to_bs (take_s 8 w))) eqn:Eu;
      apply split_unc_spec in H as (server & s1 & share & s2 & Hw & ? & ? & ? & ? & -> & ->); try done;
      setoid_rewrite unc_flat.
    + split; [by eauto|]. intros u.
      assert (String.length (take_s 8 w) = 8) as Hl.
      { apply upper_is_length in Eu. by rewrite length_to_bs in Eu. }
      assert (∃ pre, take_s 8 w = String a (String b pre)) as [pre Hpre] by (unfold w; cbn [take_s]; eauto).
      set (z := server +:+ _). rewrite Hpre, !app_cons_s, (splitroot_unc a b _ Ea Eb), <- !app_cons_s, <- Hpre.
      pose proof (take_s_app (take_s 8 w) z) as H8. pose proof (drop_s_app (take_s 8 w) z) as H9.
      rewrite Hl in H8, H9. rewrite H8, H9, Eu. by apply split_unc_app.
    + split; [by eauto|]. intros u. rewrite !app_cons_s, app_nil_s, (splitroot_unc a b _ Ea Eb).
      assert (upper_is UNC_PREFIX (to_bs (take_s 8 (String a (String b (server +:+ String s1 (share +:+ String s2 u)))))) = false) as ->.
      { apply not_true_iff_false. intros H3%(unc_prefix_stable a b server s1 share s2 t u); [|done..].
        unfold w in Eu. rewrite Hw in Eu. congruence. }
      by apply (split_unc_app _ (String a (String b ""))).
  - cbn [splitroot] in H. rewrite Ea in H. destruct s as [|c s]; [congruence|].
    destruct (decide (c = ":"%char)) as [->|Hc].
    + destruct s as [|e s]; [congruence|]. destruct (is_sep e) eqn:Ee; [|congruence].
      injection H as <- <- <-. split; [by eauto|]. intros u. cbn [splitroot String.append]. by rewrite Ea, Ee.
    + exfalso. clear -H Hc Hd Hr. destruct c as [[] [] [] [] [] [] [] []]; congruence.
Qed.

Lemma split_unc_flat p pre rest d r t : p = pre +:+ rest → split_unc p pre rest = (d, r, t) → p = d +:+ r +:+ t.
Proof.
  intros -> H. destruct (decide (r = "")) as [->|Hr].
  - unfold split_unc in H. destruct (break_sep rest) as [server [|s1 r2]]; [injection H as <- <-; by rewrite !app_empty_r|].
    destruct (break_sep r2) as [share [|s2 r4]]; [injection H as <- <-; by rewrite !app_empty_r|congruence].
  - apply split_unc_spec in H as (server & s1 & share & s2 & -> & _ & _ & _ & _ & -> & ->); [|done].
    by rewrite unc_flat.
Qed.

Lemma splitroot_flat s d r t : splitroot s = (d, r, t) → s = d +:+ r +:+ t.
Proof.
  destruct s as [|a s]; [by intros [= <- <- <-]|]. destruct (is_sep a) eqn:Ea.
  - destruct s as [|b s]; [cbn [splitroot]; rewrite Ea; by intros [= <- <- <-]|].
    destruct (is_sep b) eqn:Eb; [|cbn [splitroot]; rewrite Ea, Eb; by intros [= <- <- <-]].
    rewrite (splitroot_unc a b s Ea Eb). destruct (upper_is _ _); intros H;
      refine (split_unc_flat _ _ _ _ _ _ _ H); [by rewrite take_drop_s|done].
  - cbn [splitroot]. rewrite Ea. destruct s as [|c s]; [by intros [= <- <- <-]|].
    destruct (decide (c = ":"%char)) as [->|Hc].
    + destruct s as [|e s]; [by intros [= <- <- <-]|]. by destruct (is_sep e); intros [= <- <- <-].
    + destruct c as [[] [] [] [] [] [] [] []]; try congruence; by intros [= <- <- <-].
Qed.

(** Without a root the split leaves nothing behind a share, and a drive letter is relative. *)
Lemma splitroot_noroot s d t :
  splitroot s = (d, "", t) → d ≠ "" → (t = "" ∧ d = s ∧ drop_s 1 d ≠ ":") ∨ nt_isabs s = false.
Proof.
  destruct s as [|a s]; [intros [= <- <-]; done|]. destruct (is_sep a) eqn:Ea.
  - destruct s as [|b s]; [cbn [splitroot]; rewrite Ea; congruence|].
    destruct (is_sep b) eqn:Eb; [|cbn [splitroot]; rewrite Ea, Eb; congruence].
    rewrite (splitroot_unc a b s Ea Eb). intros H _. left.
    assert (∀ p pre rest, split_unc p pre rest = (d, "", t) → t = "" ∧ d = p) as Hu.
    { intros p pre rest. unfold split_unc. destruct (break_sep rest) as [server [|s1 r2]]; [by intros [= <- <-]|].
      destruct (break_sep r2) as [share [|s2 r4]]; [by intros [= <- <-]|congruence]. }
    assert (t = "" ∧ d = String a (String b s)) as [-> ->] by (destruct (upper_is _ _) in H; by eapply Hu).
    split_and!; [done..|]. intros [= -> _]. done.
  - cbn [splitroot]. rewrite Ea. destruct s as [|c s]; [congruence|].
    assert (Ascii.eqb (if Ascii.eqb a SLASH then BSLASH else a) BSLASH = false) as Ha by by rewrite is_sep_to_bs.
    destruct (decide (c = ":"%char)) as [->|Hc].
    2: { destruct c as [[] [] [] [] [] [] [] []]; congruence. }
    destruct s as [|e s].
    + intros [= <- <-] _. right. unfold nt_isabs. cbn [take_s to_bs drop_s].
      rewrite !startswith_cons_eqb, (Ascii.eqb_sym BSLASH), Ha. done.
    + destruct (is_sep e) eqn:Ee; [congruence|]. intros [= <- <-] _. right.
      assert (Ascii.eqb (if Ascii.eqb e SLASH then BSLASH else e) BSLASH = false) as He by by rewrite is_sep_to_bs.
      unfold nt_isabs. cbn [take_s to_bs drop_s]. rewrite !startswith_cons_eqb.
      by rewrite !(Ascii.eqb_sym BSLASH), Ha, He.
Qed.

(** ** The normal form *)

Lemma to_bs_no_slash s : has_char SLASH (to_bs s) = false.
Proof.
  induction s as [|c s IH]; [done|]. cbn [to_bs]. rewrite has_char_cons, IH, orb_false_r.
  destruct (Ascii.eqb c SLASH) eqn:E; [done|]. by rewrite Ascii.eqb_sym.
Qed.

Lemma to_bs_id s : has_char SLASH s = false → to_bs s = s.
Proof.
  induction s as [|c s IH]; [done|]. rewrite has_char_cons. intros [H1 H2]%orb_false_iff. cbn [to_bs].
  rewrite Ascii.eqb_sym, H1. by rewrite IH.
Qed.

(** Components of a normal form: as names of a path, without a backslash. *)
Definition win_comp (c : string) : Prop := component c ∧ has_char BSLASH c = false.

Lemma resolve_win_comp abs t : has_char SLASH t = false → Forall win_comp (resolve abs (split_char BSLASH t)).
Proof.
  intros Ht. apply Forall_and. split.
  - apply resolve_component. by apply split_char_other.
  - apply resolve_Forall, split_char_no_sep.
Qed.

Lemma split_join_comps (P : string → Prop) `{∀ c, Decision (P c)} cs :
  ¬ P "" → Forall win_comp cs → Forall P cs → filter P (split_char BSLASH (join "\" cs)) = cs.
Proof.
  intros Hnil Hc HP. destruct cs as [|c cs].
  - cbn. by rewrite decide_False.
  - rewrite split_join; [by apply filter_all|done|]. eapply Forall_impl; [exact Hc|]. by intros ? [].
Qed.

Lemma normpath_rooted d t :
  d ≠ "" → has_char SLASH (d +:+ t) = false → (∀ u, splitroot (d +:+ "\" +:+ u) = (d, "\", u)) →
  nt_normpath (d +:+ "\" +:+ t) = d +:+ "\" +:+ join "\" (resolve true (split_char BSLASH t)).
Proof.
  intros Hd Hs H. unfold nt_normpath. rewrite to_bs_id, H.
  2: { rewrite has_char_app in Hs |- *. by rewrite has_char_app. }
  cbn [bool_decide]. rewrite (bool_decide_false ("\" = "")) by done. cbn [negb]. unfold or_dot.
  rewrite bool_decide_false; [done|]. intros [? _]%app_eq_empty_s. done.
Qed.

Lemma splitdrive_rooted d t :
  (∀ u, splitroot (d +:+ "\" +:+ u) = (d, "\", u)) → splitdrive (d +:+ "\" +:+ t) = (d, "\" +:+ t).
Proof. intros H. unfold splitdrive. by rewrite H. Qed.

Definition clean (c : string) : Prop := _check_component c = Ok ().

Lemma check_all_spec cs : check_all cs = Ok () ↔ Forall clean cs.
Proof.
  induction cs as [|c cs IH]; cbn [check_all]; [by split|]. rewrite Forall_cons. unfold clean at 1.
  destruct (_check_component c) as [[]|]; cbn; [rewrite IH; naive_solver|naive_solver].
Qed.

Lemma clean_kept c : clean c → c ≠ "" → kept c.
Proof. intros H Hne. split; [done|]. intros ->. by vm_compute in H. Qed.

(** What [_normalise] returns, read off the normal form. *)
Lemma normalise_spec text drive norm comps :
  _normalise text = Ok (drive, norm, comps) →
  norm = nt_normpath (strip_long_path_prefix text) ∧ drive ≠ "" ∧ nt_isabs norm = true ∧
  ∃ rest, splitdrive norm = (drive, rest) ∧ comps = filter (λ c, c ≠ "") (split_char BSLASH rest) ∧ Forall clean comps.
Proof.
  unfold _normalise. intros H. apply bind_ok in H as (? & _ & H). apply bind_ok in H as (? & _ & H).
  destruct (splitdrive _) as [dr rest] eqn:E. apply bind_ok in H as (? & H1%raise_if_ok & H).
  apply bind_ok in H as ([] & H2%check_all_spec & H). injection H as <- <- <-.
  to_prop. split_and!; [done|done|by destruct (nt_isabs _)|]. by exists rest.
Qed.

Lemma nt_normpath_no_slash s : has_char SLASH (nt_normpath s) = false.
Proof.
  unfold nt_normpath. destruct (splitroot (to_bs s)) as [[d r] t] eqn:E. apply splitroot_flat in E.
  pose proof (to_bs_no_slash s) as H. rewrite E, !has_char_app in H.
  apply orb_false_iff in H as [Hd [Hr Ht]%orb_false_iff].
  assert (has_char SLASH (d +:+ r +:+ join "\" (resolve (negb (bool_decide (r = ""))) (split_char BSLASH t))) = false) as Hn.
  { rewrite !has_char_app, Hd, Hr, join_no_char; [done|done|].
    apply resolve_Forall. by apply split_char_other. }
  unfold or_dot. by destruct (bool_decide (d +:+ _ = "")).
Qed.

(** A drive letter, or a server with its share (and nothing that Win32 reads otherwise). *)
Definition plain_drive (d : string) : bool :=
  bool_decide (splitroot (d +:+ "\") = (d, "\", "")) && negb (startswith "\\?" d) &&
  (bool_decide (drop_s 1 d = ":") || negb (endswith ":" d || ends_with_sep d)).

Lemma plain_drive_stable d u : plain_drive d = true → d ≠ "" → splitroot (d +:+ "\" +:+ u) = (d, "\", u).
Proof.
  intros [[H _]%andb_true_iff _]%andb_true_iff Hd. apply bool_decide_eq_true in H.
  by apply (splitroot_spec _ _ _ _ H).
Qed.

Lemma strip_none s : startswith "\\?\" s = false → strip_long_path_prefix s = s.
Proof.
  unfold strip_long_path_prefix, _LONG_UNC_PREFIX, _LONG_PREFIX. intros H. rewrite H.
  destruct (startswith "\\?\UNC\" s) eqn:E; [|done]. apply startswith_spec in E as [t ->].
  by rewrite !app_cons_s, !startswith_cons_eqb in H.
Qed.

Lemma plain_drive_no_prefix d u :
  plain_drive d = true → d ≠ "" → (u = "" ∨ ∃ v, u = "\" +:+ v) → strip_long_path_prefix (d +:+ u) = d +:+ u.
Proof.
  intros [[H1 H2]%andb_true_iff _]%andb_true_iff Hd Hu. apply bool_decide_eq_true in H1. apply strip_none.
  apply not_true_iff_false. intros Hp.
  destruct d as [|a [|b [|c d]]]; [done| | |].
  - destruct Hu as [-> | [v ->]]; rewrite ?app_cons_s, ?app_nil_s, !startswith_cons_eqb in Hp; [by rewrite andb_false_r in Hp|].
    apply andb_true_iff in Hp as [<-%Ascii.eqb_eq _]. by vm_compute in H1.
  - rewrite !app_cons_s, !startswith_cons_eqb in Hp. to_prop.
    repeat match goal with E : Ascii.eqb _ _ = true |- _ => apply Ascii.eqb_eq in E as <- end.
    by vm_compute in H1.
  - rewrite !app_cons_s, !startswith_cons_eqb in Hp. rewrite !startswith_cons_eqb in H2.
    destruct (Ascii.eqb "\" a), (Ascii.eqb "\" b), (Ascii.eqb "?" c); cbn in Hp, H2; try done.
    by destruct d.
Qed.

(** ** Containment *)

(** The join below a plain drive keeps the drive. *)
Lemma nt_join_plain norm d r t cand :
  splitroot norm = (d, r, t) → d ≠ "" → plain_drive d = true → nt_isabs norm = true → has_char SLASH norm = false →
  splitroot cand = ("", "", cand) →
  (r = "" ∧ t = "" ∧ d = norm ∧ nt_join norm cand = d) ∨
  ((r = "" ∧ t = "" ∨ r = "\") ∧ ∃ v, nt_join norm cand = d +:+ "\" +:+ v ∧ ∃ v', v = v' +:+ cand ∧ has_char SLASH v' = false).
Proof.
  intros E Hd Hp Ha Hs Hc. unfold nt_join. rewrite E, Hc.
  rewrite !(bool_decide_true ("" = "")) by done. cbn [negb andb].
  destruct (decide (r = "")) as [->|Hr].
  - destruct (splitroot_noroot norm d t E Hd) as [(-> & -> & Hcol) | ?]; [|congruence].
    rewrite !(bool_decide_true ("" = "")) by done. cbn [negb andb]. rewrite app_nil_s, (bool_decide_false (norm = "")) by done.
    cbn [negb andb]. destruct (decide (cand = "")) as [->|Hne].
    + left. rewrite bool_decide_true by done. cbn. by rewrite app_empty_r.
    + right. split; [by left|]. exists cand. rewrite bool_decide_false by done. cbn [negb andb].
      unfold plain_drive in Hp. rewrite (bool_decide_false (drop_s 1 norm = ":")) in Hp by done.
      apply andb_true_iff in Hp as [_ Hp]. cbn [orb] in Hp. rewrite Hp. split; [done|]. by exists "".
  - right. pose proof (splitroot_flat _ _ _ _ E) as Hn.
    assert (r = "\") as ->.
    { destruct (splitroot_spec _ _ _ _ E Hd Hr) as [(c & -> & Hsep) _]. unfold is_sep in Hsep.
      rewrite Hn, !has_char_app, has_char_cons in Hs. apply orb_false_iff in Hs as [_ [[Hs _]%orb_false_iff _]%orb_false_iff].
      rewrite (Ascii.eqb_sym c SLASH), Hs, orb_false_r in Hsep. by apply Ascii.eqb_eq in Hsep as ->. }
    split; [by right|]. rewrite (bool_decide_false ("\" = "")), andb_false_r by done. cbn [andb].
    eexists. split; [done|]. eexists. split; [done|].
    rewrite Hn, !has_char_app in Hs. apply orb_false_iff in Hs as [_ [_ Ht]%orb_false_iff].
    destruct (_ && _); [by rewrite has_char_app, Ht|done].
Qed.

(** What [_normalise] makes of a text below a plain drive, and how [PureWindowsPath] reads it. *)
Lemma normal_below d v text drive norm comps :
  (∀ u, splitroot (d +:+ "\" +:+ u) = (d, "\", u)) → d ≠ "" → has_char SLASH (d +:+ v) = false →
  strip_long_path_prefix text = d +:+ "\" +:+ v → _normalise text = Ok (drive, norm, comps) →
  comps = resolve true (split_char BSLASH v) ∧ parse_win norm = mk_win d "\" comps ∧ Forall clean comps.
Proof.
  intros Hd Hne Hs Ht (Hn & _ & _ & rest & Hsp & Hcomps & Hcl)%normalise_spec.
  assert (has_char SLASH norm = false) as Hsl by (rewrite Hn; apply nt_normpath_no_slash).
  rewrite Ht, (normpath_rooted d v Hne Hs Hd) in Hn.
  assert (has_char SLASH v = false) as Hv by (rewrite has_char_app in Hs; by apply orb_false_iff in Hs as [_ ?]).
  pose proof (resolve_win_comp true v Hv) as Hw. set (cs := resolve _ _) in *.
  rewrite Hn, (splitdrive_rooted d _ Hd) in Hsp. injection Hsp as <- <-.
  assert (comps = cs) as ->.
  { rewrite Hcomps. change ("\" +:+ ?x) with (String BSLASH x). cbn [split_char]. rewrite Ascii.eqb_refl.
    rewrite filter_cons_False by naive_solver. apply split_join_comps; [naive_solver|done|].
    eapply Forall_impl; [exact Hw|]. by intros ? [[[]]]. }
  split_and!; [done| |done]. unfold parse_win. rewrite Hn, to_bs_id, Hd.
  - rewrite (bool_decide_false ("\" = "")) by done. cbn [andb]. f_equal.
    apply split_join_comps; [intros []; done|done|]. eapply Forall_impl; [exact Hw|]. by intros ? [[]].
  - by rewrite <- Hn.
Qed.

Lemma filter_kept_clean l :
  Forall clean (filter (λ c, c ≠ "") l) → filter kept l = filter (λ c, c ≠ "") l.
Proof.
  induction l as [|c l IH]; [done|]. intros H. destruct (decide (c = "")) as [->|Hc].
  - rewrite filter_cons_False in H by naive_solver. rewrite !filter_cons_False by (intros [] || naive_solver; done).
    by apply IH.
  - rewrite filter_cons_True in H by done. apply Forall_cons in H as [H1 H2].
    rewrite !filter_cons_True by (done || by apply clean_kept). f_equal. by apply IH.
Qed.

(** The components of a validated base are what [PureWindowsPath] reads. *)
Lemma base_tail text drive norm comps d r t :
  _normalise text = Ok (drive, norm, comps) → splitroot norm = (d, r, t) → r = "" ∧ t = "" ∨ r = "\" →
  drive = d ∧ w_drive (parse_win norm) = d ∧ w_tail (parse_win norm) = comps ∧ Forall clean comps.
Proof.
  intros (Hn & _ & _ & rest & Hsp & -> & Hcl)%normalise_spec E Hr. unfold splitdrive in Hsp. rewrite E in Hsp.
  injection Hsp as <- <-. unfold parse_win.
  rewrite to_bs_id, E by (rewrite Hn; apply nt_normpath_no_slash). cbn [w_drive w_tail].
  split_and!; [done|done| |done].
  assert (filter (λ c, c ≠ "") (split_char BSLASH (r +:+ t)) = filter (λ c, c ≠ "") (split_char BSLASH t)) as Hf.
  { destruct Hr as [[-> ->] | ->]; [done|]. change ("\" +:+ ?x) with (String BSLASH x). cbn [split_char].
    rewrite Ascii.eqb_refl. rewrite filter_cons_False by naive_solver. done. }
  rewrite Hf in *. by apply filter_kept_clean.
Qed.

Lemma splitroot_relative s : (splitdrive s).1 = "" → startswith "\" s = false → has_char SLASH s = false →
  splitroot s = ("", "", s).
Proof.
  unfold splitdrive. intros Hd Hs Hsl. destruct (splitroot s) as [[d r] t] eqn:E. cbn in Hd. subst d.
  pose proof (splitroot_flat _ _ _ _ E) as Hf. rewrite app_nil_s in Hf.
  destruct (decide (r = "")) as [->|Hr]; [by rewrite app_nil_s in Hf; subst t|]. exfalso.
  destruct s as [|a s]; [by injection E as <- <-|]. cbn [splitroot] in E. destruct (is_sep a) eqn:Ea.
  - unfold is_sep in Ea. rewrite has_char_cons in Hsl. apply orb_false_iff in Hsl as [H1 _].
    rewrite (Ascii.eqb_sym a SLASH), H1, orb_false_r in Ea. apply Ascii.eqb_eq in Ea as ->.
    rewrite startswith_cons_eqb in Hs. unfold startswith in Hs. cbn in Hs. by destruct s.
  - destruct s as [|c s]; [congruence|]. destruct (decide (c = ":"%char)) as [->|Hc].
    + destruct s as [|e s]; [congruence|]. destruct (is_sep e); congruence.
    + destruct c as [[] [] [] [] [] [] [] []]; congruence.
Qed.

(** what [safe_windows_path_join] returns is on the drive (or share) of the validated base, its
    components start with those of the base up to case, and every component is a name Win32 takes as
    it stands.  A base that names a server without a share is outside: see [share_escaped]. *)
Theorem windows_join_contained base candidate b p :
  validate_windows_config_path base = Ok b → plain_drive (w_drive b) = true →
  safe_windows_path_join base candidate = Ok p →
  w_drive p = w_drive b ∧ (∃ below, casefold <$> w_tail p = (casefold <$> w_tail b) ++ below) ∧
  Forall clean (w_tail p).
Proof.
  unfold validate_windows_config_path, safe_windows_path_join.
  intros Hb Hp H. apply bind_ok in Hb as ([[d0 norm] comps] & Hb & [= <-]). rewrite Hb in H. cbn [fst snd] in Hp.
  apply bind_ok in H as (? & [= <-] & H).
  apply bind_ok in H as (? & _ & H). apply bind_ok in H as (? & _ & H).
  apply bind_ok in H as (? & Hc%raise_if_ok & H). apply bind_ok in H as ([[dj normj] j] & Hj & H).
  apply bind_ok in H as (? & Hk%raise_if_ok & [= <-]). cbn [fst snd] in *. to_prop.
  set (cand := to_bs _) in *. destruct (splitroot norm) as [[d r] t] eqn:E.
  destruct (normalise_spec _ _ _ _ Hb) as (Hn & Hd0 & Ha & rest & Hsp & _ & _).
  assert (has_char SLASH norm = false) as Hsl by (rewrite Hn; apply nt_normpath_no_slash).
  assert (d0 = d ∧ w_drive (parse_win norm) = d) as [-> Hwd].
  { unfold splitdrive in Hsp. rewrite E in Hsp. injection Hsp as -> _. unfold parse_win. by rewrite to_bs_id, E. }
  rewrite Hwd in Hp. pose proof (to_bs_no_slash (strip_long_path_prefix candidate)) as Hcs. fold cand in Hcs.
  destruct (nt_join_plain norm d r t cand E Hd0 Hp Ha Hsl) as [(-> & -> & -> & HJ) | [Hr (v & HJ & v' & -> & Hv')]].
  { by apply splitroot_relative. }
  - destruct (base_tail _ _ _ _ _ _ _ Hb E) as (_ & _ & Hbt & _); [by left|].
    rewrite HJ in Hj. destruct (normalise_spec _ _ _ _ Hj) as (Hnj & _).
    assert (strip_long_path_prefix norm = norm) as Hst.
    { pose proof (plain_drive_no_prefix norm "" Hp Hd0) as Hx. rewrite app_empty_r in Hx. auto. }
    assert (normj = norm) as ->.
    { rewrite Hnj, Hst. unfold nt_normpath. rewrite to_bs_id, E by done. cbn. rewrite app_empty_r.
      unfold or_dot. by rewrite bool_decide_false. }
    destruct (base_tail _ _ _ _ _ _ _ Hj E) as (_ & _ & Hjt & Hcl); [by left|].
    rewrite Hjt, Hbt in *. split_and!; [done|by exists []; rewrite app_nil_r|done].
  - destruct (base_tail _ _ _ _ _ _ _ Hb E Hr) as (_ & _ & Hbt & _).
    rewrite HJ in Hj. edestruct (normal_below d (v' +:+ cand)) as (_ & Hpj & Hcl); [| | | |exact Hj|].
    + intros u. by apply plain_drive_stable.
    + done.
    + rewrite !has_char_app, Hv', Hcs, orb_false_r. rewrite (splitroot_flat _ _ _ _ E), has_char_app in Hsl.
      by apply orb_false_iff in Hsl as [-> _].
    + apply plain_drive_no_prefix; eauto.
    + rewrite Hpj, Hwd, Hbt. cbn [w_drive w_tail]. split_and!; [done| |done].
      exists (drop (length (casefold <$> comps)) (casefold <$> j)). rewrite <- Hk at 1. by rewrite take_drop.
Qed.

Lemma windows_join_contained_witness : ∃ p,
  safe_windows_path_join "//nas/share\Data" "Sub\..\x.txt" = Ok p ∧ w_drive p = "\\nas\share" ∧ Forall clean (w_tail p).
Proof.
  eexists. split; [vm_compute; reflexivity|].
  edestruct (windows_join_contained "//nas/share\Data" "Sub\..\x.txt") as (H1 & _ & H2);
    [vm_compute; reflexivity..|]. split; [exact H1|exact H2].
Defined.
