(* ===== verification/Ingest.v ===== *)
(** The ingest of the core ([src/fathom/core/ingest.py], [core/incremental.py], the route of
    [api/routers/ingest.py]).

    One batch is one transaction on the catalogue; [Err] rolls it back.  The clock readings of a
    request are its argument, one field each.  On PostgreSQL a statement may not touch a row twice. *)

From stdpp Require Import gmap.
From S2P Require Import Prelude PyStr Sql PosixPath WinPath Staging Wire Catalogue.

(** ** Paths of an agent *)

Inductive AgentPath := Posix (p : PurePosixPath) | Windows (p : PureWindowsPath).

Definition _WINDOWS_PATH (s : string) : bool :=
  startswith "\\" s ||
  match s with
  | String a (String b (String c _)) => is_alpha a && Ascii.eqb b ":" && is_sep c
  | _ => false
  end.

Definition _validate_agent_path (text : string) : result PathSafetyError AgentPath :=
  if _WINDOWS_PATH text then Windows <$> validate_windows_config_path text
  else Posix <$> validate_config_path no_fs false false false text.

(** [str(p)], [len(p.parts)], [p == q], and [p in q.parents]. *)
Definition agent_str (p : AgentPath) : string :=
  match p with Posix p => path_str p | Windows p => win_str p end.
Definition agent_parts (p : AgentPath) : nat :=
  match p with
  | Posix p => (if is_absolute p then 1 else 0) + length (p_parts p)
  | Windows p => win_parts p
  end.
Definition agent_eqb (p q : AgentPath) : bool :=
  match p, q with
  | Posix p, Posix q => bool_decide (p = q)
  | Windows p, Windows q => win_eqb p q
  | _, _ => false
  end.
Definition agent_parents (p : AgentPath) : list AgentPath :=
  match p with Posix p => Posix <$> parents p | Windows p => Windows <$> win_parents p end.

Definition _path_depth (mount candidate : AgentPath) : Z :=
  (Z.of_nat (agent_parts candidate) - Z.of_nat (agent_parts mount))%Z.

(** The volume root or strictly within it. *)
Definition agent_within (mount candidate : AgentPath) : bool :=
  agent_eqb candidate mount || existsb (agent_eqb mount) (agent_parents candidate).

(** ** Vetting *)

(** A row to write: the frame with its canonical path and depth; [hashed_at] on a full-bit batch only. *)
Record vetted := mk_vetted { ve_path : string; ve_depth : Z; ve_frame : EntryFrame; ve_hashed_at : option Z }.

Record _Accepted := mk_accepted { rows : list vetted; rejected : Z }.

Definition vet_entry (mount : AgentPath) (hashed_at : option Z) (e : EntryFrame) : option vetted :=
  match _validate_agent_path (en_path e) with
  | Err _ => None
  | Ok candidate =>
      if agent_within mount candidate
      then Some (mk_vetted (agent_str candidate) (_path_depth mount candidate) e hashed_at)
      else None
  end.

Fixpoint vet_loop (mount : AgentPath) (hashed_at : option Z) (entries : list EntryFrame) : _Accepted :=
  match entries with
  | [] => mk_accepted [] 0
  | e :: entries =>
      let a := vet_loop mount hashed_at entries in
      match vet_entry mount hashed_at e with
      | Some r => mk_accepted (r :: rows a) (rejected a)
      | None => mk_accepted (rows a) (rejected a + 1)
      end
  end.

Definition _vet_entries (mountpoint : string) (entries : list EntryFrame) (hashed_at : option Z)
    : result PathSafetyError _Accepted :=
  mount ← _validate_agent_path mountpoint;
  Ok (vet_loop mount hashed_at entries).

(** ** Reconciliation ([core/incremental.py]) *)

(** [(dev, inode)], or [(None, inode)] from an agent without devices. *)
Definition removal_key : Type := option Z * Z.

Definition _removal_filter (removed_keys : list removal_key) : option (FsEntryRow → bool) :=
  let precise := omap (λ k : removal_key, match k.1 with Some d => Some (d, k.2) | None => None end) removed_keys in
  let legacy := omap (λ k : removal_key, match k.1 with Some _ => None | None => Some k.2 end) removed_keys in
  match precise, legacy with
  | [], [] => None
  | _, _ => Some (λ e, bool_decide ((dev e, inode e) ∈ precise) || bool_decide (inode e ∈ legacy))
  end.

Record PriorState := mk_prior { pr_present : bool; pr_mtime : Z; pr_size_logical : Z; pr_path : string }.

Definition of_volume (h v : Z) (e : FsEntryRow) : bool :=
  bool_decide (host_id e = h) && bool_decide (volume_id e = v).

Definition snapshot_prior (h v : Z) (inodes : list Z) (tbl : list FsEntryRow) : gmap (Z * Z) PriorState :=
  foldl (λ m e, <[(dev e, inode e) := mk_prior (present e) (mtime e) (size_logical e) (path e)]> m) ∅
    (filter (λ e, of_volume h v e && bool_decide (inode e ∈ inodes)) tbl).

Definition _classify (before : option PriorState) (new_size new_mtime : Z) : option ChangeType :=
  match before with
  | None => Some Create
  | Some p =>
      if negb (pr_present p) then Some Create
      else if negb (pr_size_logical p =? new_size)%Z || negb (pr_mtime p =? new_mtime)%Z then Some Modify
      else None
  end.

(** The churn row of one upserted entry. *)
Definition row_churn (v ts : Z) (prior : gmap (Z * Z) PriorState) (r : vetted) : option ChangeLog :=
  let f := ve_frame r in
  let before := prior !! (en_dev f, en_inode f) in
  change ← _classify before (en_size_logical f) (en_mtime f);
  let old_size := match before with Some p => pr_size_logical p | None => 0%Z end in
  Some (mk_change v (ve_path r) change (en_size_logical f - old_size)%Z ts).

Definition set_presence (p : bool) (removed : option Z) (e : FsEntryRow) : FsEntryRow :=
  mk_entry (e_id e) (host_id e) (volume_id e) (parent_id e) (name e) (path e) (depth e) (is_dir e)
    (is_symlink e) (size_logical e) (size_on_disk e) (mtime e) (ctime e) (uid e) (gid e) (inode e) (dev e)
    (flags e) (last_seen_snapshot_id e) p removed (partial_hash e) (full_hash e) (hashed_at e)
    (provider_hash e) (provider_hash_algo e).

Definition _mark_removed (h v : Z) (removed_keys : list removal_key) (when : Z) (tbl : list FsEntryRow)
    : Z * list FsEntryRow :=
  match _removal_filter removed_keys with
  | None => (0%Z, tbl)
  | Some matches =>
      let p e := of_volume h v e && matches e && present e in
      (Z.of_nat (length (filter p tbl)), update_where p (set_presence false (Some when)) tbl)
  end.

Definition _removal_churn (h v : Z) (removed_keys : list removal_key) (when ts : Z) (tbl : list FsEntryRow)
    : list ChangeLog :=
  match _removal_filter removed_keys with
  | None => []
  | Some matches =>
      (λ e, mk_change v (path e) Delete (- size_logical e)%Z ts) <$>
      filter (λ e, of_volume h v e && matches e && bool_decide (removed_at e = Some when)) tbl
  end.

(** The rows flipped, the churn rows written, and the tables. *)
Definition reconcile (h v : Z) (rs : list vetted) (prior : gmap (Z * Z) PriorState)
    (removed_keys : list removal_key) (log_changes : bool) (when ts : Z)
    (tbl : list FsEntryRow) (log : list ChangeLog) : Z * Z * list FsEntryRow * list ChangeLog :=
  let churn := omap (row_churn v ts prior) rs in
  let '(removed, tbl) := _mark_removed h v removed_keys when tbl in
  let churn := if log_changes then churn ++ _removal_churn h v removed_keys when ts tbl else churn in
  if log_changes then (removed, Z.of_nat (length churn), tbl, log ++ churn) else (removed, 0%Z, tbl, log).

(** ** The service ([core/ingest.py]) *)

Inductive Dialect := Sqlite | Postgresql.

#[export] Instance Dialect_eq_dec : EqDecision Dialect.
Proof. solve_decision. Defined.

(** [IngestError] becomes a 422; the others are errors of the database. *)
Inductive IngestFailure :=
  | IngestError (msg : string)
  | UnsafePath (e : PathSafetyError)
  | IntegrityError
  | CardinalityViolation.

(** The clock readings of one request. *)
Record clock := mk_clock { t_host : Z; t_volume : Z; t_snapshot : Z; t_hashed : Z; t_when : Z; t_change : Z }.

Definition mode_str (m : ScanMode) : string := match m with METADATA => "metadata" | FULLBIT => "fullbit" end.

Definition describe_host (f : HostFrame) (now : Z) (h : Host) : Host :=
  mk_host (h_id h) (h_name h) (ho_os f) (ho_agent_version f) (cert_fingerprint h) (Some now)
    (h_reported_config h) (desired_config h)
    (match ho_facts f with Some x => Some x | None => facts h end).

(** Name and fingerprint are UNIQUE. *)
Definition _upsert_host (fp : string) (f : HostFrame) (now : Z) (hs : list Host)
    : result IngestFailure (Host * list Host) :=
  match at_key cert_fingerprint fp hs with
  | Some h => Ok (describe_host f now h, update_where (λ x, bool_decide (cert_fingerprint x = fp)) (describe_host f now) hs)
  | None =>
      _ ← raise_if (bool_decide (ho_name f ∈ h_name <$> hs)) IntegrityError;
      let h := describe_host f now (mk_host (next_id h_id hs) (ho_name f) None None fp None None None None) in
      Ok (h, hs ++ [h])
  end.

Definition describe_volume (f : VolumeFrame) (now : Z) (v : Volume) : Volume :=
  mk_volume (v_id v) (v_host_id v) (mountpoint v) (vo_display_name f) (v_kind v) (vo_fs_type f) (vo_device f)
    (vo_transport f) (vo_raid_role f) (vo_pool f) (vo_dataset f) (vo_total f) (vo_used f) (vo_free f)
    (change_log_enabled v) now.

Definition volume_key (v : Volume) : Z * string := (v_host_id v, mountpoint v).

Definition _upsert_volume (host : Z) (f : VolumeFrame) (now : Z) (vs : list Volume) : Volume * list Volume :=
  match at_key volume_key (host, vo_mountpoint f) vs with
  | Some v =>
      (describe_volume f now v,
       update_where (λ x, bool_decide (volume_key x = (host, vo_mountpoint f))) (describe_volume f now) vs)
  | None =>
      let v := describe_volume f now
                 (mk_volume (next_id v_id vs) host (vo_mountpoint f) None "data" "" "" "" None None None 0 0 0 true now) in
      (v, vs ++ [v])
  end.

Definition _resolve_snapshot (host volume : Z) (b : IngestBatch) (now : Z) (ss : list Snapshot)
    : result IngestFailure (Snapshot * list Snapshot) :=
  match b_snapshot_id b with
  | Some id =>
      match at_key sn_id id ss with
      | Some s =>
          if bool_decide (sn_host_id s = host) && bool_decide (sn_volume_id s = volume) then Ok (s, ss)
          else Err (IngestError "snapshot_id does not belong to this host/volume")
      | None => Err (IngestError "snapshot_id does not belong to this host/volume")
      end
  | None =>
      let s := mk_snapshot (next_id sn_id ss) host volume (mode_str (b_mode b)) now None 0 0 in
      Ok (s, ss ++ [s])
  end.

(** The row an upsert inserts, its SET list, and the WHERE of the conflict branch. *)
Definition new_row (h v snap : Z) (fullbit : bool) (r : vetted) (tbl : list FsEntryRow) : FsEntryRow :=
  let f := ve_frame r in
  mk_entry (next_id e_id tbl) h v None (en_name f) (ve_path r) (ve_depth r) (en_is_dir f) (en_is_symlink f)
    (en_size_logical f) (en_size_on_disk f) (en_mtime f) (en_ctime f) (en_uid f) (en_gid f) (en_inode f)
    (en_dev f) (en_flags f) (Some snap) true None
    (if fullbit then en_partial_hash f else None) (if fullbit then en_full_hash f else None)
    (if fullbit then ve_hashed_at r else None) (en_provider_hash f) (en_provider_hash_algo f).

Definition set_row (snap : Z) (fullbit : bool) (r : vetted) (old : FsEntryRow) : FsEntryRow :=
  let f := ve_frame r in
  mk_entry (e_id old) (host_id old) (volume_id old) (parent_id old) (en_name f) (ve_path r) (ve_depth r)
    (en_is_dir f) (en_is_symlink f) (en_size_logical f) (en_size_on_disk f) (en_mtime f) (en_ctime f)
    (en_uid f) (en_gid f) (inode old) (dev old) (en_flags f) (Some snap)
    (if fullbit then present old else true) (if fullbit then removed_at old else None)
    (if fullbit then en_partial_hash f else partial_hash old) (if fullbit then en_full_hash f else full_hash old)
    (if fullbit then ve_hashed_at r else hashed_at old) (en_provider_hash f) (en_provider_hash_algo f).

Definition row_guard (fullbit : bool) (r : vetted) (old : FsEntryRow) : bool :=
  fullbit || negb (en_mtime (ve_frame r) =? mtime old)%Z ||
  negb (en_size_logical (ve_frame r) =? size_logical old)%Z || negb (present old).

Definition row_identity (h v : Z) (r : vetted) : identity := (h, v, en_dev (ve_frame r), en_inode (ve_frame r)).

(** PostgreSQL: does the statement come to a row that it has inserted or updated? *)
Fixpoint touches_twice (h v snap : Z) (fullbit : bool) (touched : list identity) (rs : list vetted)
    (tbl : list FsEntryRow) : bool :=
  match rs with
  | [] => false
  | r :: rs =>
      bool_decide (row_identity h v r ∈ touched) ||
      let '(n, tbl) := upsert entry_identity (row_guard fullbit r) (set_row snap fullbit r) (new_row h v snap fullbit r tbl) tbl in
      touches_twice h v snap fullbit (if (n =? 0)%Z then touched else row_identity h v r :: touched) rs tbl
  end.

Definition _upsert_entries (d : Dialect) (h v snap : Z) (fullbit : bool) (rs : list vetted)
    (tbl : list FsEntryRow) : result IngestFailure (list FsEntryRow) :=
  _ ← raise_if (bool_decide (d = Postgresql) && touches_twice h v snap fullbit [] rs tbl) CardinalityViolation;
  Ok (upsert_all entry_identity (row_guard fullbit) (set_row snap fullbit) (new_row h v snap fullbit) rs tbl).2.

Definition volume_feed_enabled (v : Volume) : bool := change_log_enabled v.

Definition removed_keys_of (b : IngestBatch) : list removal_key :=
  match b_removed b with
  | [] => (λ i, (None, i)) <$> b_removed_inodes b
  | l => (λ r, (Some (rm_dev r), rm_inode r)) <$> l
  end.

(** The guards before anything is written. *)
Definition check_batch (max_batch : Z) (b : IngestBatch) : result IngestFailure () :=
  _ ← raise_if (max_batch <? Z.of_nat (length (b_entries b)))%Z (IngestError "batch exceeds max");
  let removed_count := Nat.max (length (b_removed b)) (length (b_removed_inodes b)) in
  _ ← raise_if (max_batch <? Z.of_nat removed_count)%Z (IngestError "removals exceed max");
  match _validate_agent_path (vo_mountpoint (b_volume b)) with
  | Err _ => Err (IngestError "unsafe volume mountpoint")
  | Ok m => raise_if (negb (bool_decide (agent_str m = vo_mountpoint (b_volume b)))) (IngestError "non-canonical volume mountpoint")
  end.

Definition is_fullbit (b : IngestBatch) : bool := bool_decide (b_mode b = FULLBIT).

(** The entries of the batch against the table: reconciliation reads before the upsert and writes
    after it, and only on a metadata batch. *)
Definition apply_batch (d : Dialect) (c : clock) (h : Z) (v : Volume) (snap : Z) (b : IngestBatch)
    (rs : list vetted) (tbl : list FsEntryRow) (log : list ChangeLog)
    : result IngestFailure (Z * Z * list FsEntryRow * list ChangeLog) :=
  let prior := snapshot_prior h (v_id v) ((λ r, en_inode (ve_frame r)) <$> rs) tbl in
  tbl ← match rs with [] => Ok tbl | _ => _upsert_entries d h (v_id v) snap (is_fullbit b) rs tbl end;
  Ok (if is_fullbit b then (0%Z, 0%Z, tbl, log)
      else reconcile h (v_id v) rs prior (removed_keys_of b) (volume_feed_enabled v) (t_when c) (t_change c) tbl log).

Definition ingest (d : Dialect) (max_batch : Z) (c : clock) (fp : string) (b : IngestBatch) (db : catalogue)
    : result IngestFailure (IngestResult * catalogue) :=
  _ ← check_batch max_batch b;
  hr ← _upsert_host fp (b_host b) (t_host c) (hosts db);
  let host := h_id hr.1 in
  let vr := _upsert_volume host (b_volume b) (t_volume c) (volumes db) in
  let volume := vr.1 in
  sr ← _resolve_snapshot host (v_id volume) b (t_snapshot c) (snapshots db);
  accepted ← match _vet_entries (mountpoint volume) (b_entries b) (if is_fullbit b then Some (t_hashed c) else None) with
             | Ok a => Ok a
             | Err e => Err (UnsafePath e)
             end;
  out ← apply_batch d c host volume (sn_id sr.1) b (rows accepted) (fs_entry db) (change_log db);
  let '(removed, logged, tbl, log) := out in
  Ok (mk_result (sn_id sr.1) host (v_id volume) (Z.of_nat (length (rows accepted))) (rejected accepted) removed logged,
      mk_catalogue hr.2 vr.2 sr.2 tbl log (rollups db) (size_history db)).

(** [core/incremental.py]: retention of the change log. *)
Definition CHANGE_LOG_RETENTION_DAYS : Z := 90.
Definition day : Z := 86400000000.

Definition prune_change_log (retention_days now : Z) (log : list ChangeLog) : result string (Z * list ChangeLog) :=
  _ ← raise_if (retention_days <? 1)%Z "retention_days must be >= 1";
  let cutoff := (now - retention_days * day)%Z in
  Ok (Z.of_nat (length (filter (λ c, (c_ts c <? cutoff)%Z) log)), filter (λ c, negb (c_ts c <? cutoff)%Z) log).

(** ** What an accepted batch did *)

Lemma _upsert_host_ok fp f now hs host hs' :
  _upsert_host fp f now hs = Ok (host, hs') →
  cert_fingerprint host = fp ∧ ((∃ h, at_key cert_fingerprint fp hs = Some h ∧ h_id host = h_id h) ∨
    at_key cert_fingerprint fp hs = None ∧ h_id host = next_id h_id hs).
Proof.
  unfold _upsert_host. destruct (at_key cert_fingerprint fp hs) as [h|] eqn:E.
  - intros [= <- <-]. apply at_key_some in E as Hk. split; [apply Hk|left; by exists h].
  - intros (? & _ & [= <- <-])%bind_ok. auto.
Qed.

Lemma _upsert_volume_key h f now vs :
  volume_key (_upsert_volume h f now vs).1 = (h, vo_mountpoint f).
Proof.
  unfold _upsert_volume. destruct (at_key volume_key (h, vo_mountpoint f) vs) as [v|] eqn:E; [|done].
  apply at_key_some in E as [_ E]. exact E.
Qed.

Definition hashed_of (c : clock) (b : IngestBatch) : option Z := if is_fullbit b then Some (t_hashed c) else None.

(** The rows of a batch that the server accepts on a mount. *)
Definition accepted_rows (c : clock) (b : IngestBatch) (mount : AgentPath) : list vetted :=
  rows (vet_loop mount (hashed_of c b) (b_entries b)).

Lemma ingest_inv d mb c fp b db res db' :
  ingest d mb c fp b db = Ok (res, db') →
  ∃ mount host vol snap removed logged,
    check_batch mb b = Ok () ∧
    _validate_agent_path (vo_mountpoint (b_volume b)) = Ok mount ∧
    _upsert_host fp (b_host b) (t_host c) (hosts db) = Ok (host, hosts db') ∧
    _upsert_volume (h_id host) (b_volume b) (t_volume c) (volumes db) = (vol, volumes db') ∧
    _resolve_snapshot (h_id host) (v_id vol) b (t_snapshot c) (snapshots db) = Ok (snap, snapshots db') ∧
    apply_batch d c (h_id host) vol (sn_id snap) b (accepted_rows c b mount) (fs_entry db) (change_log db) =
      Ok (removed, logged, fs_entry db', change_log db') ∧
    rollups db' = rollups db ∧ size_history db' = size_history db ∧
    res = mk_result (sn_id snap) (h_id host) (v_id vol) (Z.of_nat (length (accepted_rows c b mount)))
            (rejected (vet_loop mount (hashed_of c b) (b_entries b))) removed logged.
Proof.
  unfold ingest. intros H. apply bind_ok in H as ([] & Hc & H). apply bind_ok in H as ([host hs'] & Hh & H).
  cbn [fst snd] in H. destruct (_upsert_volume _ _ _ _) as [vol vs'] eqn:Hv. cbn [fst snd] in H.
  apply bind_ok in H as ([snap ss'] & Hs & H). cbn [fst snd] in H.
  pose proof (_upsert_volume_key (h_id host) (b_volume b) (t_volume c) (volumes db)) as Hk. rewrite Hv in Hk.
  injection Hk as _ Hm. rewrite Hm in H.
  unfold _vet_entries in H. destruct (_validate_agent_path (vo_mountpoint (b_volume b))) as [mount|e] eqn:Em; [|done].
  cbn in H. apply bind_ok in H as ([[[removed logged] tbl] log] & Ha & [= <- <-]).
  exists mount, host, vol, snap, removed, logged. split_and!; done.
Qed.

(** ** The entries after a batch *)

Section Entries.
Context (h v snap : Z) (fullbit : bool).

#[local] Notation upserted := (upsert_all entry_identity (row_guard fullbit) (set_row snap fullbit) (new_row h v snap fullbit)).

Lemma set_row_identity r e : entry_identity (set_row snap fullbit r e) = entry_identity e.
Proof. done. Qed.
Lemma new_row_identity r l : entry_identity (new_row h v snap fullbit r l) = row_identity h v r.
Proof. done. Qed.

(** The WHERE of the conflict branch applied or not. *)
Definition merge_row (r : vetted) (e : FsEntryRow) : FsEntryRow :=
  if row_guard fullbit r e then set_row snap fullbit r e else e.

Lemma upserted_at rs tbl r :
  NoDup (row_identity h v <$> rs) → r ∈ rs →
  match at_key entry_identity (row_identity h v r) tbl with
  | Some e => at_key entry_identity (row_identity h v r) (upserted rs tbl).2 = Some (merge_row r e)
  | None => ∃ l, at_key entry_identity (row_identity h v r) (upserted rs tbl).2 = Some (new_row h v snap fullbit r l)
  end.
Proof. intros. by apply (at_key_upsert_all entry_identity (row_identity h v)). Qed.

Lemma upserted_other k rs tbl :
  k ∉ row_identity h v <$> rs → at_key entry_identity k (upserted rs tbl).2 = at_key entry_identity k tbl.
Proof. intros. by apply (at_key_upsert_all_other entry_identity (row_identity h v)). Qed.
End Entries.

(** The removal keys of a batch, on a row. *)
Definition removed_by (b : IngestBatch) (e : FsEntryRow) : bool :=
  match _removal_filter (removed_keys_of b) with Some m => m e | None => false end.

(** What the removals of a metadata batch leave of a row. *)
Definition after_removal (h v when : Z) (b : IngestBatch) (e : FsEntryRow) : FsEntryRow :=
  if of_volume h v e && removed_by b e && present e then set_presence false (Some when) e else e.

Lemma after_removal_identity h v when b e : entry_identity (after_removal h v when b e) = entry_identity e.
Proof. unfold after_removal. by destruct (_ && _). Qed.

Lemma after_removal_unique h v when b tbl :
  unique entry_identity tbl → unique entry_identity (after_removal h v when b <$> tbl).
Proof.
  unfold unique. rewrite <- list_fmap_compose. intros Hu.
  replace (_ <$> tbl) with (entry_identity <$> tbl); [done|].
  apply list_fmap_ext. intros i e _. symmetry. apply after_removal_identity.
Qed.

Lemma mark_removed_eq h v b when tbl :
  (_mark_removed h v (removed_keys_of b) when tbl).2 = after_removal h v when b <$> tbl.
Proof.
  unfold _mark_removed, after_removal, removed_by. destruct (_removal_filter _) as [m|]; [done|].
  cbn [snd]. symmetry. rewrite <- (list_fmap_id tbl) at 2. apply list_fmap_ext. intros i e _.
  by rewrite andb_false_r.
Qed.

Lemma at_key_after_removal h v when b k tbl :
  at_key entry_identity k (after_removal h v when b <$> tbl) = after_removal h v when b <$> at_key entry_identity k tbl.
Proof. apply (at_key_update_where entry_identity k (λ e, of_volume h v e && removed_by b e && present e)). done. Qed.

Lemma apply_batch_entries d c h vol snap b rs tbl log out :
  apply_batch d c h vol snap b rs tbl log = Ok out →
  let tbl1 := (upsert_all entry_identity (row_guard (is_fullbit b)) (set_row snap (is_fullbit b))
                 (new_row h (v_id vol) snap (is_fullbit b)) rs tbl).2 in
  out.1.2 = if is_fullbit b then tbl1 else after_removal h (v_id vol) (t_when c) b <$> tbl1.
Proof.
  unfold apply_batch. intros H. apply bind_ok in H as (tbl1 & H1 & [= <-]).
  assert (tbl1 = (upsert_all entry_identity (row_guard (is_fullbit b)) (set_row snap (is_fullbit b))
                 (new_row h (v_id vol) snap (is_fullbit b)) rs tbl).2) as <-.
  { destruct rs; [by injection H1|]. unfold _upsert_entries in H1. by apply bind_ok in H1 as (? & _ & [= <-]). }
  destruct (is_fullbit b); [done|]. rewrite <- mark_removed_eq. unfold reconcile.
  destruct (_mark_removed _ _ _ _ _) as [n t]. by destruct (volume_feed_enabled vol).
Qed.

(** The prior state read before the upsert is the row of the table. *)
Definition prior_of (e : FsEntryRow) : PriorState := mk_prior (present e) (mtime e) (size_logical e) (path e).

Lemma snapshot_prior_at h v inodes tbl d i :
  unique entry_identity tbl → i ∈ inodes →
  snapshot_prior h v inodes tbl !! (d, i) = prior_of <$> at_key entry_identity (h, v, d, i) tbl.
Proof.
  intros Hu Hi. unfold snapshot_prior. set (l := filter _ tbl).
  assert (Forall (λ e, host_id e = h ∧ volume_id e = v) l) as Hl.
  { apply Forall_forall. intros e [He _]%list_elem_of_filter. unfold of_volume in He. by to_prop. }
  rewrite (foldl_insert_lookup (λ e, (dev e, inode e)) prior_of).
  - assert (at_key (λ e, (dev e, inode e)) (d, i) l = at_key entry_identity (h, v, d, i) tbl) as ->.
    { unfold at_key, l. f_equal. apply filter_filter_iff. intros e _. unfold of_volume, entry_identity.
      rewrite <- !bool_decide_and, bool_decide_spec. naive_solver. }
    by destruct (at_key _ _ tbl).
  - assert (NoDup (entry_identity <$> l)) as Hn.
    { eapply sublist_NoDup; [exact Hu|]. apply fmap_sublist, sublist_filter. }
    assert (entry_identity <$> l = (λ k : Z * Z, (h, v, k.1, k.2)) <$> ((λ e, (dev e, inode e)) <$> l)) as E.
    { rewrite <- list_fmap_compose. clear -Hl. induction Hl as [|e l [<- <-] _ IH]; [done|].
      rewrite !fmap_cons, IH. done. }
    rewrite E in Hn. by apply NoDup_fmap_1 in Hn.
Qed.

(** ** A batch is reflected by the catalogue *)

Definition hashes (e : FsEntryRow) : option string * option string * option Z := (partial_hash e, full_hash e, hashed_at e).

(** The row carries everything the frame says. *)
Definition carries (snap : Z) (r : vetted) (e : FsEntryRow) : Prop :=
  let f := ve_frame r in
  name e = en_name f ∧ path e = ve_path r ∧ depth e = ve_depth r ∧ is_dir e = en_is_dir f ∧
  is_symlink e = en_is_symlink f ∧ size_on_disk e = en_size_on_disk f ∧ ctime e = en_ctime f ∧
  uid e = en_uid f ∧ gid e = en_gid f ∧ flags e = en_flags f ∧ last_seen_snapshot_id e = Some snap ∧
  provider_hash e = en_provider_hash f ∧ provider_hash_algo e = en_provider_hash_algo f ∧ removed_at e = None.

Lemma merge_row_metadata snap r e :
  let e' := merge_row snap false r e in
  present e' = true ∧ mtime e' = en_mtime (ve_frame r) ∧ size_logical e' = en_size_logical (ve_frame r) ∧
  hashes e' = hashes e ∧ (e' = e ∨ carries snap r e').
Proof.
  unfold merge_row, row_guard. destruct (_ || _ || _ || _) eqn:E; cbn zeta.
  - split_and!; try done. right. unfold carries. split_and!; done.
  - to_prop. auto 6.
Qed.

(** The row of an accepted entry of a metadata batch, before the removals of the batch. *)
Lemma ingested_row h v snap when b rs tbl r :
  NoDup (row_identity h v <$> rs) → r ∈ rs → ∃ e,
    at_key entry_identity (row_identity h v r)
      (after_removal h v when b <$>
       (upsert_all entry_identity (row_guard false) (set_row snap false) (new_row h v snap false) rs tbl).2) =
      Some (after_removal h v when b e) ∧
    entry_identity e = row_identity h v r ∧ present e = true ∧
    mtime e = en_mtime (ve_frame r) ∧ size_logical e = en_size_logical (ve_frame r) ∧
    (at_key entry_identity (row_identity h v r) tbl = Some e ∨ carries snap r e) ∧
    hashes e = match at_key entry_identity (row_identity h v r) tbl with Some o => hashes o | None => (None, None, None) end.
Proof.
  intros Hn Hr. pose proof (upserted_at h v snap false rs tbl r Hn Hr) as Hup. rewrite at_key_after_removal.
  destruct (at_key entry_identity (row_identity h v r) tbl) as [o|] eqn:Eo.
  - exists (merge_row snap false r o). rewrite Hup. apply at_key_some in Eo as [_ Eo].
    destruct (merge_row_metadata snap r o) as (H1 & H2 & H3 & H4 & H5).
    split_and!; try done; [unfold merge_row; by destruct (row_guard false r o)|].
    destruct H5 as [-> | ?]; auto.
  - destruct Hup as [l Hup]. exists (new_row h v snap false r l). rewrite Hup.
    split_and!; try done. right. unfold carries. split_and!; done.
Qed.

(** C23: after an accepted metadata batch every accepted entry has its row, present unless the same
    batch removes it, with the entry's time and size; the row is the old one when nothing had changed
    and carries the whole frame otherwise; stored content hashes survive.  Rows of other keys change
    only by the removals, and identities stay unique. *)
Theorem ingest_reflects_batch d mb c fp b db res db' mount :
  ingest d mb c fp b db = Ok (res, db') → b_mode b = METADATA → unique entry_identity (fs_entry db) →
  _validate_agent_path (vo_mountpoint (b_volume b)) = Ok mount →
  let h := res_host_id res in
  let v := res_volume_id res in
  let at_ k db := at_key entry_identity k (fs_entry db) in
  let gone := after_removal h v (t_when c) b in
  NoDup (row_identity h v <$> accepted_rows c b mount) →
  unique entry_identity (fs_entry db') ∧
  (∀ r, r ∈ accepted_rows c b mount → ∃ e,
     at_ (row_identity h v r) db' = Some (gone e) ∧ present e = true ∧
     mtime e = en_mtime (ve_frame r) ∧ size_logical e = en_size_logical (ve_frame r) ∧
     (at_ (row_identity h v r) db = Some e ∨ carries (res_snapshot_id res) r e) ∧
     hashes e = match at_ (row_identity h v r) db with Some o => hashes o | None => (None, None, None) end) ∧
  (∀ k, k ∉ row_identity h v <$> accepted_rows c b mount → at_ k db' = gone <$> at_ k db).
Proof.
  intros H Hm Hu Hmount h v at_ gone Hn. subst at_ gone. cbn beta.
  apply ingest_inv in H as (mount' & host & vol & snap & removed & logged & _ & Hmount' & _ & _ & _ & Ha & _ & _ & ->).
  rewrite Hmount in Hmount'. injection Hmount' as <-. cbn [res_host_id res_volume_id res_snapshot_id] in *.
  apply apply_batch_entries in Ha. cbn [fst snd] in Ha.
  assert (is_fullbit b = false) as Hf by (unfold is_fullbit; by rewrite Hm). rewrite Hf in Ha.
  rewrite Ha. fold h v in Ha |- *. setoid_rewrite at_key_after_removal. split_and!.
  - by apply after_removal_unique, upsert_all_unique.
  - intros r Hr.
    destruct (ingested_row h v (sn_id snap) (t_when c) b _ (fs_entry db) r Hn Hr) as (e & H1 & _ & ?).
    exists e. rewrite at_key_after_removal in H1. by split.
  - intros k Hk. f_equal. by apply (upserted_other h v).
Qed.

(** ** A second delivery changes nothing *)

Lemma list_omap_nil {A B} (f : A → option B) l : (∀ x, x ∈ l → f x = None) → omap f l = [].
Proof.
  induction l as [|x l IH]; intros H; [done|]. cbn. rewrite H by left. apply IH. intros. apply H. by right.
Qed.

(** The batch removes the entry of this device and inode (of any device, from an agent without). *)
Definition in_removed (b : IngestBatch) (d i : Z) : Prop :=
  (Some d, i) ∈ removed_keys_of b ∨ (None, i) ∈ removed_keys_of b.

#[export] Instance in_removed_dec b d i : Decision (in_removed b d i).
Proof. unfold in_removed. apply _. Defined.

Lemma removed_by_iff b e : removed_by b e = true ↔ in_removed b (dev e) (inode e).
Proof.
  unfold removed_by, _removal_filter, in_removed. set (ks := removed_keys_of b).
  set (precise := omap _ ks). set (legacy := omap _ ks).
  assert (∀ d i, (d, i) ∈ precise ↔ (Some d, i) ∈ ks) as Hp.
  { intros d i. unfold precise. rewrite list_elem_of_omap. split.
    - intros ([[d'|] i'] & Hin & [= <- <-]). done.
    - intros Hin. by exists (Some d, i). }
  assert (∀ i, i ∈ legacy ↔ (None, i) ∈ ks) as Hl.
  { intros i. unfold legacy. rewrite list_elem_of_omap. split.
    - intros ([[d'|] i'] & Hin & [= <-]). done.
    - intros Hin. by exists (None, i). }
  rewrite <- Hp, <- Hl. clearbody precise legacy. destruct precise as [|p precise], legacy as [|l legacy].
  - split; [done|]. by intros [[]%elem_of_nil|[]%elem_of_nil].
  - rewrite orb_true_iff, !bool_decide_eq_true. done.
  - rewrite orb_true_iff, !bool_decide_eq_true. done.
  - rewrite orb_true_iff, !bool_decide_eq_true. done.
Qed.

Lemma _upsert_host_again fp f now now' hs host hs' :
  _upsert_host fp f now hs = Ok (host, hs') →
  ∃ host2 hs2, _upsert_host fp f now' hs' = Ok (host2, hs2) ∧ h_id host2 = h_id host.
Proof.
  intros H. assert (∃ h, at_key cert_fingerprint fp hs' = Some h ∧ h_id h = h_id host) as (h & Hh & Hid).
  { unfold _upsert_host in H. destruct (at_key cert_fingerprint fp hs) as [h|] eqn:E.
    - injection H as <- <-. rewrite at_key_update_where, E by done. cbn. eexists. split; [done|].
      by destruct (bool_decide _).
    - apply bind_ok in H as (? & _ & [= <- <-]). eexists. split; [by apply at_key_snoc|done]. }
  unfold _upsert_host. rewrite Hh. eauto.
Qed.

Lemma _upsert_volume_again h f now now' vs vol vs' :
  _upsert_volume h f now vs = (vol, vs') →
  let '(vol2, _) := _upsert_volume h f now' vs' in
  v_id vol2 = v_id vol ∧ change_log_enabled vol2 = change_log_enabled vol.
Proof.
  intros H. assert (∃ v, at_key volume_key (h, vo_mountpoint f) vs' = Some v ∧ v_id v = v_id vol ∧
                     change_log_enabled v = change_log_enabled vol) as (v & Hv & Hid & Hc).
  { unfold _upsert_volume in H. destruct (at_key volume_key (h, vo_mountpoint f) vs) as [v|] eqn:E.
    - injection H as <- <-. rewrite at_key_update_where, E by done. cbn. eexists. split; [done|].
      by destruct (bool_decide _).
    - injection H as <- <-. eexists. split; [by apply at_key_snoc|done]. }
  unfold _upsert_volume. by rewrite Hv.
Qed.

Lemma _resolve_snapshot_again h v b now now' ss s ss' :
  _resolve_snapshot h v b now ss = Ok (s, ss') → ∃ s2 ss2, _resolve_snapshot h v b now' ss' = Ok (s2, ss2).
Proof.
  unfold _resolve_snapshot. destruct (b_snapshot_id b) as [id|]; [|eauto].
  destruct (at_key sn_id id ss) as [s0|] eqn:E; [|done]. case_match eqn:Hc; [|done].
  intros [= <- <-]. rewrite E, Hc. eauto.
Qed.

(** A batch that finds every row already as it says, and every removal already done. *)
Lemma apply_batch_noop d c h vol snap b rs tbl log :
  is_fullbit b = false → unique entry_identity tbl →
  (∀ r, r ∈ rs → ∃ e, at_key entry_identity (row_identity h (v_id vol) r) tbl = Some e ∧ present e = true ∧
     mtime e = en_mtime (ve_frame r) ∧ size_logical e = en_size_logical (ve_frame r)) →
  (∀ e, e ∈ tbl → of_volume h (v_id vol) e = true → removed_by b e = true → present e = false) →
  (∀ e, e ∈ tbl → removed_at e ≠ Some (t_when c)) →
  apply_batch d c h vol snap b rs tbl log = Ok (0%Z, 0%Z, tbl, log).
Proof.
  intros Hf Hu Hrows Hrem Hfresh. unfold apply_batch. rewrite Hf.
  assert (∀ r, r ∈ rs → ∃ e, at_key entry_identity (row_identity h (v_id vol) r) tbl = Some e ∧ row_guard false r e = false) as Hg.
  { intros r (e & He & Hp & Hm & Hs)%Hrows. exists e. split; [done|]. unfold row_guard. rewrite Hp, Hm, Hs, !Z.eqb_refl. done. }
  assert (touches_twice h (v_id vol) snap false [] rs tbl = false) as Htw.
  { clear Hrows. induction rs as [|r rs IH]; [done|]. cbn [touches_twice].
    destruct (Hg r) as (e & He & Hge); [left|]. rewrite (upsert_noop entry_identity _ _ _ e) by done. cbn.
    apply IH. intros. apply Hg. by right. }
  assert ((match rs with [] => Ok tbl | _ => _upsert_entries d h (v_id vol) snap false rs tbl end) = Ok tbl) as ->.
  { destruct rs; [done|]. unfold _upsert_entries. rewrite Htw, andb_false_r. cbn [mbind result_bind raise_if].
    by rewrite (upsert_all_noop entry_identity (row_identity h (v_id vol))). }
  cbn [mbind result_bind]. f_equal. unfold reconcile.
  assert (omap (row_churn (v_id vol) (t_change c) (snapshot_prior h (v_id vol) ((λ r, en_inode (ve_frame r)) <$> rs) tbl)) rs = []) as ->.
  { apply list_omap_nil. intros r Hr. unfold row_churn. rewrite snapshot_prior_at; [|done|by apply (list_elem_of_fmap_2 (λ r, en_inode (ve_frame r)))].
    destruct (Hrows r Hr) as (e & He & Hp & Hm & Hs). unfold row_identity in He. rewrite He. cbn.
    by rewrite Hp, Hm, Hs, !Z.eqb_refl. }
  unfold _mark_removed, _removal_churn. unfold removed_by in Hrem.
  destruct (_removal_filter (removed_keys_of b)) as [m|].
  2: { by destruct (volume_feed_enabled vol); rewrite ?app_nil_r. }
  rewrite update_where_none, filter_none_b.
  - rewrite filter_none_b; [by destruct (volume_feed_enabled vol); rewrite ?app_nil_r|].
    intros e He. rewrite (bool_decide_false (removed_at e = _)) by by apply Hfresh. apply andb_false_r.
  - intros e He. destruct (of_volume h (v_id vol) e) eqn:E1; [|done]. destruct (m e) eqn:E2; [|done]. by apply Hrem.
  - intros e He. destruct (of_volume h (v_id vol) e) eqn:E1; [|done]. destruct (m e) eqn:E2; [|done]. by apply Hrem.
Qed.

Lemma accepted_rows_metadata c c' b mount :
  b_mode b = METADATA → accepted_rows c b mount = accepted_rows c' b mount.
Proof. intros H. unfold accepted_rows, hashed_of, is_fullbit. by rewrite H. Qed.

(** delivering an accepted metadata batch a second time (the agent that crashed before it marked
    the rows) is accepted and changes no entry and logs nothing, provided the batch lists an entry
    once, removes none of its own entries, and the clock has moved on. *)
Theorem ingest_replay_noop d mb c c' fp b db res db' mount :
  ingest d mb c fp b db = Ok (res, db') → b_mode b = METADATA → unique entry_identity (fs_entry db) →
  _validate_agent_path (vo_mountpoint (b_volume b)) = Ok mount →
  NoDup (row_identity (res_host_id res) (res_volume_id res) <$> accepted_rows c b mount) →
  Forall (λ r, ¬ in_removed b (en_dev (ve_frame r)) (en_inode (ve_frame r))) (accepted_rows c b mount) →
  Forall (λ e, removed_at e ≠ Some (t_when c')) (fs_entry db') →
  ∃ res' db'', ingest d mb c' fp b db' = Ok (res', db'') ∧
    fs_entry db'' = fs_entry db' ∧ change_log db'' = change_log db' ∧
    res_entries_removed res' = 0%Z ∧ res_changes_logged res' = 0%Z.
Proof.
  intros H Hm Hu Hmount Hn Hnr Hfresh.
  apply ingest_inv in H as (mount' & host & vol & snap & removed & logged & Hc & Hmount' & Hh & Hv & Hs & Ha & _ & _ & ->).
  rewrite Hmount in Hmount'. injection Hmount' as <-. cbn [res_host_id res_volume_id] in *.
  assert (is_fullbit b = false) as Hf by (unfold is_fullbit; by rewrite Hm).
  apply apply_batch_entries in Ha as Ht. rewrite Hf in Ht. cbn [fst snd] in Ht.
  destruct (_upsert_host_again fp (b_host b) (t_host c) (t_host c') _ _ _ Hh) as (host2 & hs2 & Hh2 & Hid).
  pose proof (_upsert_volume_again (h_id host) (b_volume b) (t_volume c) (t_volume c') _ _ _ Hv) as Hv2.
  pose proof (_upsert_volume_key (h_id host) (b_volume b) (t_volume c') (volumes db')) as Hk2.
  destruct (_upsert_volume (h_id host) (b_volume b) (t_volume c') (volumes db')) as [vol2 vs2] eqn:Ev2.
  destruct Hv2 as [Hvid _]. injection Hk2 as _ Hmp.
  destruct (_resolve_snapshot_again _ _ _ _ (t_snapshot c') _ _ _ Hs) as (snap2 & ss2 & Hs2).
  set (rs := accepted_rows c b mount) in *.
  assert (apply_batch d c' (h_id host) vol2 (sn_id snap2) b rs (fs_entry db') (change_log db') =
          Ok (0%Z, 0%Z, fs_entry db', change_log db')) as Ha2.
  { apply apply_batch_noop; rewrite ?Hvid; [done|..].
    - rewrite Ht. by apply after_removal_unique, upsert_all_unique.
    - intros r Hr. rewrite Ht.
      destruct (ingested_row (h_id host) (v_id vol) (sn_id snap) (t_when c) b rs (fs_entry db) r Hn Hr)
        as (e & He & Hie & Hp & Hmt & Hsz & _).
      exists e. rewrite He. split_and!; try done. f_equal. unfold after_removal.
      destruct (removed_by b e) eqn:Er; [|by rewrite andb_false_r]. exfalso.
      apply removed_by_iff in Er. injection Hie as _ _ Hd Hi. rewrite Hd, Hi in Er.
      rewrite Forall_forall in Hnr. by apply (Hnr r).
    - intros e. rewrite Ht. intros (e0 & -> & _)%list_elem_of_fmap. unfold after_removal.
      destruct (_ && _) eqn:E; [done|]. intros H1 H2. rewrite H1, H2 in E. by destruct (present e0).
    - by apply Forall_forall. }
  eexists _, _. split.
  { unfold ingest. rewrite Hc. cbn [mbind result_bind]. rewrite Hh2. cbn [mbind result_bind fst snd]. rewrite Hid, Ev2. cbn [fst snd].
    rewrite Hvid, Hs2. cbn [mbind result_bind fst snd]. unfold _vet_entries. rewrite Hmp, Hmount. cbn [mbind result_bind].
    fold (hashed_of c' b). fold (accepted_rows c' b mount). rewrite <- (accepted_rows_metadata c) by done.
    fold rs. rewrite Ha2. cbn [mbind result_bind]. reflexivity. }
  done.
Qed.

(** ** Rows stay inside their volume, and a host writes only its own *)

(** A path of the text [path] lies in the tree of the mount: below its components, without [..], or
    (Windows, without regard to case) with the mount among its ancestors. *)
Inductive inside (mount path : string) : Prop :=
  | inside_posix m p :
      _validate_agent_path mount = Ok (Posix m) → path = path_str p → within m p →
      Forall (λ c, c ≠ "..") (p_parts p) → inside mount path
  | inside_windows m p n :
      _validate_agent_path mount = Ok (Windows m) → path = win_str p → n ≤ length (w_tail p) →
      lower (win_str (mk_win (w_drive p) (w_root p) (take n (w_tail p)))) = lower (win_str m) → inside mount path.

Lemma validate_no_dotdot text p :
  validate_config_path no_fs false false false text = Ok p → Forall (λ c, c ≠ "..") (p_parts p).
Proof.
  unfold validate_config_path. intros (? & _ & (? & _ & (? & Ha%raise_if_ok & H)%bind_ok)%bind_ok)%bind_ok.
  assert (p = parse_path (normpath text)) as ->.
  { by do 3 (apply bind_ok in H as (? & _ & H)); injection H. }
  rewrite parse_normpath. cbn [p_parts].
  assert (is_abs text = true) as -> by (unfold is_abs; unfold is_absolute in Ha; cbn in Ha; by destruct (bool_decide _)).
  apply resolve_no_dotdot, split_components.
Qed.

Lemma agent_within_inside mtext m text c :
  _validate_agent_path mtext = Ok m → _validate_agent_path text = Ok c → agent_within m c = true →
  inside mtext (agent_str c).
Proof.
  intros Hm Hc Hw. unfold agent_within in Hw. destruct m as [m|m], c as [c|c]; cbn in Hw.
  - apply (inside_posix _ _ m c); [done|done| |].
    + apply within_parents. apply orb_true_iff in Hw as [Hw|Hw]; [left; by to_prop|right].
      apply existsb_exists in Hw as ([q|q] & Hq%list_elem_of_In & E); [|done].
      cbn in E. apply bool_decide_eq_true in E as <-. by apply list_elem_of_fmap in Hq as (? & [= <-] & ?).
    + unfold _validate_agent_path in Hc. destruct (_WINDOWS_PATH text).
      * by destruct (validate_windows_config_path text).
      * destruct (validate_config_path _ _ _ _ text) eqn:E; [|done]. injection Hc as ->. by eapply validate_no_dotdot.
  - apply existsb_exists in Hw as (q & Hq%list_elem_of_In & E). by apply list_elem_of_fmap in Hq as (? & -> & _).
  - apply existsb_exists in Hw as (q & Hq%list_elem_of_In & E). by apply list_elem_of_fmap in Hq as (? & -> & _).
  - apply orb_true_iff in Hw as [Hw|Hw].
    + apply (inside_windows _ _ m c (length (w_tail c))); [done|done|done|].
      unfold win_eqb in Hw. apply bool_decide_eq_true in Hw. rewrite firstn_all. by destruct c.
    + apply existsb_exists in Hw as ([q|q] & Hq%list_elem_of_In & E); [done|].
      apply list_elem_of_fmap in Hq as (? & [= <-] & Hq). unfold win_parents in Hq.
      apply list_elem_of_fmap in Hq as (n & -> & Hn). apply elem_of_reverse, elem_of_seq in Hn.
      cbn in E. unfold win_eqb in E. apply bool_decide_eq_true in E.
      apply (inside_windows _ _ m c n); [done|done|lia|done].
Qed.

Lemma vet_loop_inside mtext m t entries r :
  _validate_agent_path mtext = Ok m → r ∈ rows (vet_loop m t entries) → inside mtext (ve_path r).
Proof.
  intros Hm. induction entries as [|e es IH]; cbn [vet_loop]; [by intros ?%elem_of_nil|].
  destruct (vet_entry m t e) as [r'|] eqn:E; cbn [rows]; [|done].
  intros [->|Hr]%elem_of_cons; [|by apply IH]. unfold vet_entry in E.
  destruct (_validate_agent_path (en_path e)) as [c|] eqn:Ec; [|done].
  destruct (agent_within m c) eqn:Ew; [|done]. injection E as <-. by eapply agent_within_inside.
Qed.

(** The row is inside the volume it belongs to. *)
Definition row_inside (db : catalogue) (e : FsEntryRow) : Prop :=
  ∃ v, v ∈ volumes db ∧ v_id v = volume_id e ∧ v_host_id v = host_id e ∧ inside (mountpoint v) (path e).

Definition volume_core (v : Volume) : Z * Z * string := (v_id v, v_host_id v, mountpoint v).

Lemma _upsert_volume_core h f now vs vol vs' :
  _upsert_volume h f now vs = (vol, vs') →
  (∀ k, k ∈ volume_core <$> vs → k ∈ volume_core <$> vs') ∧ volume_core vol ∈ volume_core <$> vs'.
Proof.
  unfold _upsert_volume. destruct (at_key volume_key (h, vo_mountpoint f) vs) as [v|] eqn:E; intros [= <- <-].
  - assert (volume_core <$> update_where (λ x, bool_decide (volume_key x = (h, vo_mountpoint f))) (describe_volume f now) vs =
            volume_core <$> vs) as Heq.
    { unfold update_where. rewrite <- list_fmap_compose. apply list_fmap_ext. intros i x _. cbn. by case_bool_decide. }
    rewrite Heq. split; [done|]. apply at_key_some in E as [Hv _]. by apply (list_elem_of_fmap_2 volume_core _ v).
  - rewrite fmap_app. split; [intros k Hk; apply elem_of_app; by left|]. apply elem_of_app. right. by left.
Qed.

Lemma row_inside_core db e :
  row_inside db e ↔ ∃ m, (volume_id e, host_id e, m) ∈ volume_core <$> volumes db ∧ inside m (path e).
Proof.
  split.
  - intros (v & Hv & Hid & Hh & Hi). exists (mountpoint v). split; [|done]. rewrite <- Hid, <- Hh.
    by apply (list_elem_of_fmap_2 volume_core).
  - intros (m & (v & [= ? ? ->] & Hv)%list_elem_of_fmap & Hi). by exists v.
Qed.

Lemma at_key_in_hosts fp f now hs host hs' :
  _upsert_host fp f now hs = Ok (host, hs') → host ∈ hs'.
Proof.
  unfold _upsert_host. destruct (at_key cert_fingerprint fp hs) as [h|] eqn:E.
  - intros [= <- <-]. apply at_key_some in E as [Hin Hfp]. unfold update_where.
    apply list_elem_of_fmap. exists h. by rewrite bool_decide_true.
  - intros (? & _ & [= <- <-])%bind_ok. apply elem_of_app. right. by left.
Qed.

(** C22: whatever an agent sends, every row of the catalogue stays inside the mount of its volume, and
    the batch touches only rows of the host that the certificate names. *)
Theorem ingest_contained d mb c fp b db res db' :
  ingest d mb c fp b db = Ok (res, db') → Forall (row_inside db) (fs_entry db) →
  Forall (row_inside db') (fs_entry db') ∧
  filter (λ e, negb (bool_decide (host_id e = res_host_id res))) (fs_entry db') =
  filter (λ e, negb (bool_decide (host_id e = res_host_id res))) (fs_entry db) ∧
  ∃ host, host ∈ hosts db' ∧ h_id host = res_host_id res ∧ cert_fingerprint host = fp.
Proof.
  intros H Hin. apply ingest_inv in H as (mount & host & vol & snap & removed & logged & _ & Hm & Hh & Hv & _ & Ha & _ & _ & ->).
  cbn [res_host_id]. apply apply_batch_entries in Ha. cbn [fst snd] in Ha.
  pose proof (_upsert_volume_core _ _ _ _ _ _ Hv) as [Hmono Hvol].
  pose proof (_upsert_volume_key (h_id host) (b_volume b) (t_volume c) (volumes db)) as Hk. rewrite Hv in Hk.
  injection Hk as Hvh Hvm. unfold volume_core in Hvol at 1. rewrite Hvh, Hvm in Hvol.
  set (tbl1 := (upsert_all _ _ _ _ _ _).2) in Ha. split_and!.
  - assert (∀ e, e ∈ tbl1 → row_inside db' e) as Ht.
    { unfold tbl1. apply (elem_of_upsert_all entry_identity (row_identity (h_id host) (v_id vol))); [done|..].
      - intros e He. rewrite Forall_forall in Hin. apply Hin, row_inside_core in He as (m & Hm' & Hi).
        apply row_inside_core. eauto.
      - intros r l Hr. apply row_inside_core. exists (vo_mountpoint (b_volume b)). split; [done|].
        by eapply vet_loop_inside.
      - intros r e Hr _ [= Eh Ev _ _]. apply row_inside_core. exists (vo_mountpoint (b_volume b)).
        cbn [set_row volume_id host_id path]. rewrite Eh, Ev. split; [done|]. by eapply vet_loop_inside. }
    rewrite Ha. apply Forall_forall. intros e. destruct (is_fullbit b); [apply Ht|].
    intros (e0 & -> & He)%list_elem_of_fmap. apply Ht in He. unfold after_removal. by destruct (_ && _).
  - assert (filter (λ e, negb (bool_decide (host_id e = h_id host))) tbl1 =
            filter (λ e, negb (bool_decide (host_id e = h_id host))) (fs_entry db)) as Ht.
    { apply (filter_upsert_all entry_identity (row_identity (h_id host) (v_id vol))); [done|..].
      - intros r e [= E _ _ _]. cbn [set_row host_id]. by rewrite E, bool_decide_true.
      - intros r l. cbn [new_row host_id]. by rewrite bool_decide_true. }
    rewrite Ha. destruct (is_fullbit b); [done|]. rewrite <- Ht.
    apply (filter_update_where _ (λ e, of_volume (h_id host) (v_id vol) e && removed_by b e && present e)).
    intros e He. unfold of_volume in He. to_prop. cbn [set_presence host_id]. by rewrite bool_decide_true.
  - exists host. split_and!; [by eapply at_key_in_hosts|done|]. by apply _upsert_host_ok in Hh as [? _].
Qed.

(** ** The change log accounts for the size of a volume *)

Definition live_size (h v : Z) (e : FsEntryRow) : Z := if of_volume h v e && present e then size_logical e else 0%Z.
Definition live_total (h v : Z) (tbl : list FsEntryRow) : Z := sumZ (live_size h v <$> tbl).

(** What one accepted entry changes: its churn row says the same. *)
Lemma row_churn_gain h v snap ts tbl inodes r :
  unique entry_identity tbl → en_inode (ve_frame r) ∈ inodes →
  (∀ e, at_key entry_identity (row_identity h v r) tbl = Some e → present e = true) →
  match row_churn v ts (snapshot_prior h v inodes tbl) r with Some c => c_size_delta c | None => 0%Z end =
  match at_key entry_identity (row_identity h v r) tbl with
  | Some e => if row_guard false r e then (live_size h v (set_row snap false r e) - live_size h v e)%Z else 0%Z
  | None => en_size_logical (ve_frame r)
  end.
Proof.
  intros Hu Hi Hp. unfold row_churn. rewrite snapshot_prior_at by done. unfold row_identity in *.
  destruct (at_key _ _ tbl) as [e|] eqn:E; [|cbn; lia].
  specialize (Hp e eq_refl). apply at_key_some in E as [_ [= Eh Ev _ _]].
  assert (of_volume h v e = true) as Hv by (unfold of_volume; by rewrite Eh, Ev, !bool_decide_true).
  unfold live_size. change (of_volume h v (set_row snap false r e)) with (of_volume h v e).
  rewrite Hv, Hp. cbn [fmap option_fmap option_map _classify prior_of pr_present negb pr_size_logical pr_mtime andb].
  unfold row_guard. rewrite Hp, orb_false_r. cbn [orb negb].
  rewrite (Z.eqb_sym (size_logical e)), (Z.eqb_sym (mtime e)).
  destruct (en_size_logical (ve_frame r) =? size_logical e)%Z, (en_mtime (ve_frame r) =? mtime e)%Z; done.
Qed.

Lemma live_total_upserted h v snap rs tbl :
  NoDup (row_identity h v <$> rs) →
  live_total h v (upsert_all entry_identity (row_guard false) (set_row snap false) (new_row h v snap false) rs tbl).2 =
  (live_total h v tbl + sumZ ((λ r,
     match at_key entry_identity (row_identity h v r) tbl with
     | Some e => if row_guard false r e then (live_size h v (set_row snap false r e) - live_size h v e)%Z else 0%Z
     | None => en_size_logical (ve_frame r)
     end) <$> rs))%Z.
Proof.
  intros Hn. apply (upsert_all_sum entry_identity (row_identity h v)); [done|done|done|].
  intros r l. unfold live_size, of_volume. cbn [new_row host_id volume_id present]. by rewrite !bool_decide_true.
Qed.

(** The rows a removal flips are the ones it logs. *)
Lemma removal_accounts h v b when ts tbl :
  Forall (λ e, removed_at e ≠ Some when) tbl →
  sumZ (c_size_delta <$> _removal_churn h v (removed_keys_of b) when ts (after_removal h v when b <$> tbl)) =
  (live_total h v (after_removal h v when b <$> tbl) - live_total h v tbl)%Z.
Proof.
  intros Hf. rewrite Forall_forall in Hf. unfold _removal_churn. destruct (_removal_filter (removed_keys_of b)) as [m|] eqn:E.
  - set (p e := of_volume h v e && removed_by b e && present e).
    change (after_removal h v when b <$> tbl) with (update_where p (set_presence false (Some when)) tbl).
    unfold live_total. rewrite update_where_sum, filter_marked.
    + rewrite <- !list_fmap_compose. rewrite Z.add_simpl_l. apply sumZ_ext. intros e [He _]%list_elem_of_filter.
      unfold p, live_size in *. cbn. destruct (of_volume h v e) eqn:Ev; [|done].
      destruct (present e); [|by rewrite andb_false_r in He].
      change (of_volume h v (set_presence false (Some when) e)) with (of_volume h v e). rewrite Ev. cbn. lia.
    + intros e He. rewrite (bool_decide_false (removed_at e = _)) by by apply Hf. apply andb_false_r.
    + intros e He. unfold p in He. apply andb_true_iff in He as [He _].
      change (of_volume h v (set_presence false (Some when) e)) with (of_volume h v e). apply andb_true_iff in He as [-> Hm].
      assert (m (set_presence false (Some when) e) = true) as ->; [|by rewrite bool_decide_true].
      apply removed_by_iff in Hm. assert (removed_by b (set_presence false (Some when) e) = true) as Hr by by apply removed_by_iff.
      unfold removed_by in Hr. by rewrite E in Hr.
  - assert (after_removal h v when b <$> tbl = tbl) as ->.
    { rewrite <- (list_fmap_id tbl) at 2. apply list_fmap_ext. intros i e _. unfold after_removal, removed_by.
      by rewrite E, andb_false_r. }
    cbn. lia.
Qed.

Lemma apply_batch_log d c h vol snap b rs tbl log removed logged tbl' log' :
  apply_batch d c h vol snap b rs tbl log = Ok (removed, logged, tbl', log') →
  is_fullbit b = false → change_log_enabled vol = true →
  let new := omap (row_churn (v_id vol) (t_change c) (snapshot_prior h (v_id vol) ((λ r, en_inode (ve_frame r)) <$> rs) tbl)) rs ++
             _removal_churn h (v_id vol) (removed_keys_of b) (t_when c) (t_change c) tbl' in
  log' = log ++ new ∧ logged = Z.of_nat (length new).
Proof.
  intros H Hf Hfeed. pose proof (apply_batch_entries _ _ _ _ _ _ _ _ _ _ H) as Ht. rewrite Hf in Ht.
  cbn [fst snd] in Ht. unfold apply_batch in H. apply bind_ok in H as (tbl1 & _ & H). rewrite Hf in H.
  unfold reconcile, volume_feed_enabled in H. rewrite Hfeed in H.
  destruct (_mark_removed _ _ _ _ tbl1) as [n t]. by injection H as _ <- <- <-.
Qed.

Lemma _upsert_volume_in h f now vs vol vs' : _upsert_volume h f now vs = (vol, vs') → vol ∈ vs'.
Proof.
  unfold _upsert_volume. destruct (at_key volume_key (h, vo_mountpoint f) vs) as [v|] eqn:E; intros [= <- <-].
  - apply at_key_some in E as [Hv E]. apply list_elem_of_fmap. exists v. by rewrite bool_decide_true.
  - apply elem_of_app. right. by left.
Qed.

Lemma churn_of_volume h v ts b when prior rs tbl :
  Forall (λ x, c_volume_id x = v) (omap (row_churn v ts prior) rs ++ _removal_churn h v (removed_keys_of b) when ts tbl).
Proof.
  apply Forall_app. split; apply Forall_forall; intros x Hx.
  - apply list_elem_of_omap in Hx as (r & _ & Hx). unfold row_churn in Hx. by apply bind_Some in Hx as (? & _ & [= <-]).
  - unfold _removal_churn in Hx. destruct (_removal_filter _); [|by apply elem_of_nil in Hx].
    by apply list_elem_of_fmap in Hx as (e & -> & _).
Qed.

(** with the change feed of the volume on, the rows that an accepted metadata batch appends to the
    change log are of its volume, as many as reported, and their size deltas add up to the change of
    the volume's live size, provided the batch lists an entry once, brings none back that had been
    removed (see [resurrection_unaccounted]), and the clock has moved on since the last removal. *)
Theorem churn_accounts_for_live_size d mb c fp b db res db' mount :
  ingest d mb c fp b db = Ok (res, db') → b_mode b = METADATA → unique entry_identity (fs_entry db) →
  _validate_agent_path (vo_mountpoint (b_volume b)) = Ok mount →
  let h := res_host_id res in
  let v := res_volume_id res in
  NoDup (row_identity h v <$> accepted_rows c b mount) →
  Forall (λ w, v_id w = v → change_log_enabled w = true) (volumes db') →
  Forall (λ r, default true (present <$> at_key entry_identity (row_identity h v r) (fs_entry db)) = true)
    (accepted_rows c b mount) →
  Forall (λ e, removed_at e ≠ Some (t_when c)) (fs_entry db) →
  ∃ new, change_log db' = change_log db ++ new ∧ Forall (λ x, c_volume_id x = v) new ∧
    res_changes_logged res = Z.of_nat (length new) ∧
    sumZ (c_size_delta <$> new) = (live_total h v (fs_entry db') - live_total h v (fs_entry db))%Z.
Proof.
  intros H Hm Hu Hmount h v Hn Hfeed Hpres Hfresh.
  apply ingest_inv in H as (mount' & host & vol & snap & removed & logged & _ & Hmount' & _ & Hv & _ & Ha & _ & _ & ->).
  rewrite Hmount in Hmount'. injection Hmount' as <-. cbn [res_host_id res_volume_id res_changes_logged] in *.
  assert (is_fullbit b = false) as Hf by (unfold is_fullbit; by rewrite Hm).
  pose proof (apply_batch_entries _ _ _ _ _ _ _ _ _ _ Ha) as Ht. rewrite Hf in Ht. cbn [fst snd] in Ht.
  rewrite Forall_forall in Hfeed.
  destruct (apply_batch_log _ _ _ _ _ _ _ _ _ _ _ _ _ Ha Hf) as [Hlog Hlen].
  { apply Hfeed; [by eapply _upsert_volume_in|done]. }
  set (rs := accepted_rows c b mount) in *. set (tbl1 := (upsert_all _ _ _ _ _ _).2) in Ht.
  eexists. split_and!; [exact Hlog|apply churn_of_volume|exact Hlen|].
  rewrite fmap_app, sumZ_app, Ht, removal_accounts, sumZ_omap.
  - unfold tbl1. fold h v. rewrite live_total_upserted by done.
    rewrite (sumZ_ext _ (λ r, match at_key entry_identity (row_identity h v r) (fs_entry db) with
       | Some e => if row_guard false r e then (live_size h v (set_row (sn_id snap) false r e) - live_size h v e)%Z else 0%Z
       | None => en_size_logical (ve_frame r) end)); [lia|].
    intros r Hr. apply row_churn_gain; [done|by apply (list_elem_of_fmap_2 (λ r, en_inode (ve_frame r)))|].
    intros e He. rewrite Forall_forall in Hpres. specialize (Hpres r Hr). by rewrite He in Hpres.
  - apply Forall_forall. unfold tbl1. apply (elem_of_upsert_all entry_identity (row_identity h v)); [done|..].
    + intros e. rewrite Forall_forall in Hfresh. apply Hfresh.
    + done.
    + done.
Qed.

(** ** On a small catalogue *)

Definition ex_row (id inode_ : Z) (p : string) (size mt : Z) (pres : bool) : FsEntryRow :=
  mk_entry id 1 1 None p p 1 false false size size mt 0 0 0 inode_ 0 "{}" (Some 1%Z) pres
    (if pres then None else Some 5%Z) None None None None None.
Definition ex_frame (inode_ : Z) (p : string) (size mt : Z) : EntryFrame :=
  mk_entry_frame p p false false size size mt 0 0 0 inode_ 0 "{}" None None None None.
Definition ex_db : catalogue :=
  mk_catalogue [mk_host 1 "nas" None None "fp" None None None None]
    [mk_volume 1 1 "/srv" None "data" "zfs" "tank" "nvme" None None None 100 50 50 true 0]
    [mk_snapshot 1 1 1 "metadata" 0 None 0 0]
    [ex_row 1 1 "/srv/a" 10 1 true; ex_row 2 2 "/srv/b" 20 1 true; ex_row 3 3 "/srv/old" 30 1 false] [] [] [].
Definition ex_batch (entries : list EntryFrame) (removed : list RemovedEntryIn) : IngestBatch :=
  mk_batch (mk_host_frame "nas" None None None)
    (mk_volume_frame "/srv" "zfs" "tank" "nvme" None None None 100 50 50 None) METADATA None entries removed [].
Definition ex_clock (t : Z) : clock := mk_clock t t t t t t.
Definition ex_b : IngestBatch :=
  ex_batch [ex_frame 1 "/srv/a" 15 2; ex_frame 4 "/srv/x/../c" 7 2; ex_frame 5 "/srv/../etc/passwd" 1 1] [mk_removed 0 2].

(** The row brought back logs its size minus the size it had, not its full size. *)
Lemma resurrection_unaccounted : ∃ res db' x,
  ingest Sqlite 10 (ex_clock 9) "fp" (ex_batch [ex_frame 3 "/srv/old" 30 1] []) ex_db = Ok (res, db') ∧
  change_log db' = [x] ∧ c_change_type x = Create ∧ c_size_delta x = 0%Z ∧
  (live_total 1 1 (fs_entry db') - live_total 1 1 (fs_entry ex_db) = 30)%Z.
Proof. eexists _, _, _. split; [vm_compute; reflexivity|]. split; [vm_compute; reflexivity|]. done. Qed.

(** A new certificate for a host whose name is known is not accepted. *)
Lemma reissued_certificate_refused :
  ingest Sqlite 10 (ex_clock 9) "fp2" (ex_batch [] []) ex_db = Err IntegrityError.
Proof. reflexivity. Qed.


Lemma ingest_reflects_batch_witness : ∃ res db',
  ingest Postgresql 10 (ex_clock 9) "fp" ex_b ex_db = Ok (res, db') ∧ unique entry_identity (fs_entry db').
Proof.
  eexists _, _. split; [vm_compute; reflexivity|].
  eapply (ingest_reflects_batch Postgresql 10 (ex_clock 9) "fp" ex_b ex_db);
    [vm_compute; reflexivity|reflexivity|unfold unique; by_compute|vm_compute; reflexivity|unfold unique; by_compute].
Defined.

Lemma ingest_replay_noop_witness : ∃ res db' res' db'',
  ingest Postgresql 10 (ex_clock 9) "fp" ex_b ex_db = Ok (res, db') ∧
  ingest Postgresql 10 (ex_clock 11) "fp" ex_b db' = Ok (res', db'') ∧ fs_entry db'' = fs_entry db'.
Proof.
  eexists _, _. edestruct (ingest_replay_noop Postgresql 10 (ex_clock 9) (ex_clock 11) "fp" ex_b ex_db)
    as (res' & db'' & H1 & H2 & _);
    [vm_compute; reflexivity|reflexivity|unfold unique; by_compute|vm_compute; reflexivity|by_compute..|].
  exists res', db''. split; [vm_compute; reflexivity|]. split; [exact H1|exact H2].
Defined.

Lemma ingest_contained_witness : ∃ res db',
  ingest Sqlite 10 (ex_clock 9) "fp" ex_b ex_db = Ok (res, db') ∧ Forall (row_inside db') (fs_entry db').
Proof.
  eexists _, _. split; [vm_compute; reflexivity|].
  eapply (ingest_contained Sqlite 10 (ex_clock 9) "fp" ex_b ex_db); [vm_compute; reflexivity|].
  assert (∀ e p, host_id e = 1%Z → volume_id e = 1%Z → path e = path_str (mk_path 1 ["srv"; p]) → p ≠ ".." → row_inside ex_db e) as Hi.
  { intros e p Hh Hv Hp Hd. eexists. split; [left|]. split_and!; [done..|].
    apply (inside_posix _ _ (mk_path 1 ["srv"]) (mk_path 1 ["srv"; p])); [reflexivity|done|split; [done|by exists [p]]|].
    by repeat constructor. }
  repeat constructor; eapply Hi; done.
Defined.

Lemma churn_accounts_for_live_size_witness : ∃ res db' new,
  ingest Sqlite 10 (ex_clock 9) "fp" ex_b ex_db = Ok (res, db') ∧ change_log db' = change_log ex_db ++ new ∧
  (sumZ (c_size_delta <$> new) = -8)%Z.
Proof.
  eexists _, _. edestruct (churn_accounts_for_live_size Sqlite 10 (ex_clock 9) "fp" ex_b ex_db) as (new & H1 & _ & _ & H2);
    [vm_compute; reflexivity|reflexivity|unfold unique; by_compute|vm_compute; reflexivity|by_compute| |by_compute|by_compute|].
  - repeat constructor.
  - exists new. split; [vm_compute; reflexivity|]. split; [exact H1|]. rewrite H2. reflexivity.
Defined.
