(* ===== verification/Rbac.v ===== *)
(** Roles, capabilities and scopes ([src/fathom/auth/principal.py], [auth/scope.py]).

    [ScopeFilter.apply] pushes predicates into an SQL statement: it is modelled by the row predicate
    it adds, over rows with the columns the caller names.  [check_target] raises an HTTP 403. *)

From stdpp Require Import gmap.
From S2P Require Import Prelude PyStr PyTime.

(** ** [auth/principal.py] *)

Inductive Role := VIEWER | OPERATOR | REMEDIATOR | AUDITOR | ADMIN.

Inductive Capability :=
| VIEW_METADATA | PREVIEW | VIEW_DEDUP | TRIGGER_METADATA_SCAN | TRIGGER_FULLBIT_SCAN
| BUILD_REMEDIATION | EXECUTE_REMEDIATION | QUARANTINE_MANAGE | READ_AUDIT | READ_CONFIG
| MANAGE_USERS | MANAGE_AGENTS | DEPLOY_AGENT | MANAGE_SETTINGS.

#[export] Instance Role_eq_dec : EqDecision Role.
Proof. solve_decision. Defined.
#[export] Instance Capability_eq_dec : EqDecision Capability.
Proof. solve_decision. Defined.

Definition all_capabilities : list Capability :=
  [VIEW_METADATA; PREVIEW; VIEW_DEDUP; TRIGGER_METADATA_SCAN; TRIGGER_FULLBIT_SCAN;
   BUILD_REMEDIATION; EXECUTE_REMEDIATION; QUARANTINE_MANAGE; READ_AUDIT; READ_CONFIG;
   MANAGE_USERS; MANAGE_AGENTS; DEPLOY_AGENT; MANAGE_SETTINGS].

(** Sets of capabilities, as lists: only membership is used. *)
Definition _VIEWER : list Capability := [VIEW_METADATA; PREVIEW; VIEW_DEDUP].
Definition _OPERATOR_OWN : list Capability := [TRIGGER_METADATA_SCAN; TRIGGER_FULLBIT_SCAN].
Definition _REMEDIATOR_OWN : list Capability :=
  [BUILD_REMEDIATION; EXECUTE_REMEDIATION; QUARANTINE_MANAGE].
Definition _AUDITOR : list Capability :=
  [VIEW_METADATA; PREVIEW; VIEW_DEDUP; READ_AUDIT; READ_CONFIG].
Definition _OPERATOR : list Capability := _VIEWER ++ _OPERATOR_OWN.
Definition _REMEDIATOR : list Capability := _OPERATOR ++ _REMEDIATOR_OWN.
Definition _ADMIN : list Capability := all_capabilities ++ _REMEDIATOR ++ _AUDITOR.

Definition _ROLE_CAPS (role : Role) : list Capability :=
  match role with
  | VIEWER => _VIEWER | OPERATOR => _OPERATOR | REMEDIATOR => _REMEDIATOR
  | AUDITOR => _AUDITOR | ADMIN => _ADMIN
  end.

Definition STEP_UP_CAPABILITIES : list Capability :=
  [EXECUTE_REMEDIATION; QUARANTINE_MANAGE; DEPLOY_AGENT].

Definition role_has (role : Role) (cap : Capability) : bool := bool_decide (cap ∈ _ROLE_CAPS role).

Definition role_capabilities (role : Role) : list Capability := _ROLE_CAPS role.

Inductive PrincipalSource := SrcLocal | SrcForward | SrcOidc.

Definition coerce_source (value : string) : PrincipalSource :=
  if bool_decide (value = "forward") then SrcForward
  else if bool_decide (value = "oidc") then SrcOidc else SrcLocal.

Inductive ScopeKind := KGlobal | KHost | KVolume.

#[export] Instance ScopeKind_eq_dec : EqDecision ScopeKind.
Proof. solve_decision. Defined.

Record Grant := mk_grant {
  g_role : Role; g_scope_kind : ScopeKind; g_host_id : option Z; g_volume_id : option Z;
}.

Record Principal := mk_principal {
  subject : string; source : PrincipalSource; user_id : Z; groups : list string;
  grants : list Grant; mfa_authenticated_at : option datetime; session_id : option Z;
}.

Definition has_capability (p : Principal) (cap : Capability) : bool :=
  existsb (λ g, role_has (g_role g) cap) (grants p).

(** ** [auth/scope.py] *)

Definition SYSTEM_VOLUME_KIND : string := "system".
Definition DATA_VOLUME_KIND : string := "data".

Record ScopeFilter := mk_scope { is_global : bool; host_ids : gset Z; volume_ids : gset Z }.

(** The ids of a kind among the grants, those that are not None. *)
Definition grant_ids (kind : ScopeKind) (id : Grant → option Z) (gs : list Grant) : gset Z :=
  list_to_set (omap (λ g, if bool_decide (g_scope_kind g = kind) then id g else None) gs).

Definition from_grants (gs : list Grant) (capability : Capability) : ScopeFilter :=
  let relevant := filter (λ g, role_has (g_role g) capability) gs in
  match relevant with
  | [] => mk_scope false ∅ ∅
  | _ :: _ =>
      if existsb (λ g, bool_decide (g_scope_kind g = KGlobal)) relevant then mk_scope true ∅ ∅
      else mk_scope false (grant_ids KHost g_host_id relevant) (grant_ids KVolume g_volume_id relevant)
  end.

Definition is_empty (f : ScopeFilter) : bool :=
  negb (is_global f) && bool_decide (host_ids f = ∅) && bool_decide (volume_ids f = ∅).

Definition covers_system_volume (f : ScopeFilter) (volume_id : option Z) : bool :=
  is_global f || match volume_id with Some v => bool_decide (v ∈ volume_ids f) | None => false end.

(** The predicates that [apply] adds to a statement over [Row]. *)
Section Apply.
Context {Row : Type}.

Definition apply (f : ScopeFilter) (host_col volume_col : option (Row → Z))
    (kind_col : option (Row → string)) (row : Row) : bool :=
  if is_global f then true
  else
    let predicates :=
      (match host_col with
       | Some h => if bool_decide (host_ids f = ∅) then [] else [bool_decide (h row ∈ host_ids f)]
       | None => [] end) ++
      (match volume_col with
       | Some v => if bool_decide (volume_ids f = ∅) then [] else [bool_decide (v row ∈ volume_ids f)]
       | None => [] end) in
    match predicates with
    | [] => false
    | _ :: _ =>
        existsb id predicates &&
        match kind_col with
        | None => true
        | Some k =>
            let system_ok := negb (bool_decide (k row = SYSTEM_VOLUME_KIND)) in
            match volume_col with
            | Some v => if bool_decide (volume_ids f = ∅) then system_ok
                        else system_ok || bool_decide (v row ∈ volume_ids f)
            | None => system_ok
            end
        end
    end.
End Apply.

Record HTTPException := mk_http { status_code : Z; detail : string }.

Definition check_target (f : ScopeFilter) (host_id : Z) (volume_id : option Z)
    (volume_kind : option string) : result HTTPException unit :=
  if is_global f then Ok tt
  else if bool_decide (volume_kind = Some SYSTEM_VOLUME_KIND) && negb (covers_system_volume f volume_id)
  then Err (mk_http 403 "system volume out of scope")
  else if match volume_id with Some v => bool_decide (v ∈ volume_ids f) | None => false end then Ok tt
  else if bool_decide (host_id ∈ host_ids f) then Ok tt
  else Err (mk_http 403 "target out of scope").

(** ** The policy, grant by grant *)

(** Does one grant cover a target, by the documented policy?  A host grant never reaches a system
    volume; a volume grant names its volume. *)
Definition grant_covers (g : Grant) (host_id : Z) (volume_id : option Z) (kind : option string) : bool :=
  match g_scope_kind g with
  | KGlobal => true
  | KHost => bool_decide (g_host_id g = Some host_id) && negb (bool_decide (kind = Some SYSTEM_VOLUME_KIND))
  | KVolume => match g_volume_id g with Some v => bool_decide (volume_id = Some v) | None => false end
  end.

Lemma elem_of_grant_ids kind id gs x :
  x ∈ grant_ids kind id gs ↔ ∃ g, g ∈ gs ∧ g_scope_kind g = kind ∧ id g = Some x.
Proof.
  unfold grant_ids. rewrite elem_of_list_to_set, list_elem_of_omap. split.
  - intros (g & Hg & H). case_bool_decide; [|done]. eauto.
  - intros (g & Hg & <- & H). exists g. by rewrite bool_decide_true.
Qed.

Definition scope_allows (f : ScopeFilter) (host_id : Z) (volume_id : option Z) (kind : option string) : Prop :=
  is_global f = true ∨ (∃ v, volume_id = Some v ∧ v ∈ volume_ids f) ∨
  (host_id ∈ host_ids f ∧ kind ≠ Some SYSTEM_VOLUME_KIND).

Lemma check_target_allows f host_id volume_id kind :
  check_target f host_id volume_id kind = Ok tt ↔ scope_allows f host_id volume_id kind.
Proof.
  unfold check_target, covers_system_volume, scope_allows. destruct (is_global f); simpl; [tauto|].
  destruct volume_id as [v|]; simpl; repeat case_bool_decide; simpl; naive_solver.
Qed.

Lemma filter_existsb {A} (P Q : A → bool) l : existsb Q (filter P l) = true ↔ ∃ x, x ∈ l ∧ P x = true ∧ Q x = true.
Proof.
  rewrite existsb_exists. split.
  - intros (x & [Hp Hx]%list_elem_of_In%list_elem_of_filter & Hq). to_prop. eauto.
  - intros (x & Hx & Hp & Hq). exists x. split; [|done]. apply list_elem_of_In, list_elem_of_filter. by rewrite Hp.
Qed.

Lemma from_grants_allows gs cap host_id volume_id kind :
  scope_allows (from_grants gs cap) host_id volume_id kind ↔
  ∃ g, g ∈ gs ∧ role_has (g_role g) cap = true ∧ grant_covers g host_id volume_id kind = true.
Proof.
  unfold from_grants. set (rel := filter _ gs).
  assert (∀ g, g ∈ rel ↔ g ∈ gs ∧ role_has (g_role g) cap = true) as Hrel.
  { intros g. unfold rel. rewrite list_elem_of_filter, Is_true_true. tauto. }
  clearbody rel. destruct rel as [|g0 rel'] eqn:E; [|rewrite <- E in *; clear g0 rel' E].
  - split; [unfold scope_allows; simpl; set_solver|]. intros (g & Hg & Hr & _).
    assert (g ∈ []) as [] % elem_of_nil by (apply Hrel; done).
  - destruct (existsb _ rel) eqn:Eg.
    + apply existsb_exists in Eg as (g & Hg%list_elem_of_In%Hrel & Hk). to_prop.
      split; [|by left]. intros _. exists g. destruct Hg. split_and!; [done..|]. unfold grant_covers. by rewrite Hk.
    + assert (∀ g, g ∈ rel → g_scope_kind g ≠ KGlobal) as Hng.
      { intros g Hg Hk. apply not_true_iff_false in Eg. apply Eg, existsb_exists. exists g.
        split; [by apply list_elem_of_In|by apply bool_decide_eq_true]. }
      unfold scope_allows. simpl. setoid_rewrite elem_of_grant_ids. split.
      * intros [|[(v & -> & g & Hg & Hk & Hv)|((g & Hg & Hk & Hh) & Hs)]]; [done|..];
          apply Hrel in Hg as [? ?]; exists g; split_and!; [done..| |done|done|];
          unfold grant_covers; rewrite Hk.
        -- rewrite Hv. by apply bool_decide_eq_true.
        -- apply andb_true_iff. split; [by apply bool_decide_eq_true|].
           by apply negb_true_iff, bool_decide_eq_false.
      * intros (g & Hg & Hr & Hc). assert (g ∈ rel) as Hin by (by apply Hrel).
        pose proof (Hng g Hin). unfold grant_covers in Hc. destruct (g_scope_kind g) eqn:Hk; [done|..].
        -- to_prop. right; right. eauto.
        -- destruct (g_volume_id g) as [v|] eqn:Hv; [|done]. to_prop. right; left. eauto 10.
Qed.

(** ** Properties *)

(** C15: the check of a target accepts exactly when some grant of the principal has a role with
    the capability and covers the target; a system volume is covered only by a global grant or by a
    volume grant that names it. *)
Theorem check_target_sound_complete gs cap host_id volume_id kind :
  check_target (from_grants gs cap) host_id volume_id kind = Ok tt ↔
  ∃ g, g ∈ gs ∧ role_has (g_role g) cap = true ∧ grant_covers g host_id volume_id kind = true.
Proof. rewrite check_target_allows. apply from_grants_allows. Qed.

(** the read filter shows a row exactly when the write check accepts that row as a target. *)
Theorem apply_agrees_with_check {Row} f (host_col volume_col : Row → Z) kind_col row :
  apply f (Some host_col) (Some volume_col) (Some kind_col) row = true ↔
  check_target f (host_col row) (Some (volume_col row)) (Some (kind_col row)) = Ok tt.
Proof.
  rewrite check_target_allows. unfold apply, scope_allows. destruct (is_global f); simpl; [tauto|].
  repeat case_bool_decide; simpl; try set_solver.
  all: split; [done|intros [?|[(v & ? & ?)|[_ Hk]]]; [done|set_solver|congruence]].
Qed.
