(* ===== verification/Jobs.v ===== *)
(** Remediation plans and the signed jobs built from them ([src/fathom/core/remediation/plan.py],
    [job.py]): the plan builder, the two job types, and their canonical bytes, which determine every
    signed field. *)

From S2P Require Import Prelude PyStr Json PyTime.

(** ** [plan.py] *)

Inductive PlanAction := QUARANTINE | HARDLINK | HARD_DELETE | MOVE.

#[export] Instance PlanAction_eq_dec : EqDecision PlanAction.
Proof. solve_decision. Defined.

Definition action_value (a : PlanAction) : string :=
  match a with
  | QUARANTINE => "quarantine" | HARDLINK => "hardlink" | HARD_DELETE => "hard_delete" | MOVE => "move"
  end.

#[export] Instance action_value_inj : Inj (=) (=) action_value.
Proof. by intros [] []. Qed.

(** [int | str]. *)
Inductive EntryId := EInt (z : Z) | EStr (s : string).

#[export] Instance EntryId_eq_dec : EqDecision EntryId.
Proof. solve_decision. Defined.

Definition entry_str (e : EntryId) : string := match e with EInt z => pretty z | EStr s => s end.

Record Member := mk_member { m_entry_id : EntryId; m_path : string; m_inode : Z; m_size : Z }.

Record PlanItem := mk_item {
  entry_id : EntryId;
  path : string;
  prior_inode : Z;
  prior_size : Z;
  prior_hash : option string;
  action : PlanAction;
  dest_rel : option string;
}.

#[export] Instance PlanItem_eq_dec : EqDecision PlanItem.
Proof. solve_decision. Defined.

Record RemediationPlan := mk_plan {
  plan_id : string;
  created_by : string;
  keeper_path : string;
  items : list PlanItem;
  move_root : option string;
}.

(** The field constraints of the two models ([min_length=1], [ge=0]). *)
Definition plan_valid (p : RemediationPlan) : bool :=
  negb (bool_decide (plan_id p = "")) && negb (bool_decide (created_by p = ""))
  && negb (bool_decide (items p = [])) && forallb (λ i, 0 <=? prior_size i)%Z (items p).

Inductive PlanError := ValueError (msg : string) | ValidationError.

Definition build_plan (pid by_ : string) (members : list Member) (keep_id : EntryId)
    (full_hash : string) (act : PlanAction) : result PlanError RemediationPlan :=
  match list_find (λ m, m_entry_id m = keep_id) members with
  | None => Err (ValueError "keep_id is not a member of the group")
  | Some (_, keeper) =>
      let its := (λ m, mk_item (m_entry_id m) (m_path m) (m_inode m) (m_size m) (Some full_hash) act None)
                   <$> filter (λ m, m_entry_id m ≠ keep_id) members in
      if bool_decide (its = []) then Err (ValueError "plan has no actionable items")
      else
        let plan := mk_plan pid by_ (m_path keeper) its None in
        if plan_valid plan then Ok plan else Err ValidationError
  end.

(** ** [job.py] *)

Inductive JobMode := DRY_RUN | EXECUTE.
Inductive ScanMode := METADATA | FULLBIT.

#[export] Instance JobMode_eq_dec : EqDecision JobMode.
Proof. solve_decision. Defined.
#[export] Instance ScanMode_eq_dec : EqDecision ScanMode.
Proof. solve_decision. Defined.

Definition mode_value (m : JobMode) : string := match m with DRY_RUN => "dry_run" | EXECUTE => "execute" end.
Definition scan_mode_value (m : ScanMode) : string := match m with METADATA => "metadata" | FULLBIT => "fullbit" end.

Record ActionJob := mk_action_job {
  a_plan_id : string; a_mode : JobMode; a_nonce : string;
  a_issued_at : datetime; a_expires_at : datetime; a_host_id : string;
  a_keeper_path : string; a_items : list PlanItem; a_move_root : option string;
}.

Record ScanJob := mk_scan_job {
  s_nonce : string; s_issued_at : datetime; s_expires_at : datetime; s_host_id : string;
  s_root : string; s_mode : ScanMode;
}.

Inductive DispatchJob := DAction (j : ActionJob) | DScan (j : ScanJob).

#[export] Instance ActionJob_eq_dec : EqDecision ActionJob.
Proof. solve_decision. Defined.
#[export] Instance ScanJob_eq_dec : EqDecision ScanJob.
Proof. solve_decision. Defined.
#[export] Instance DispatchJob_eq_dec : EqDecision DispatchJob.
Proof. solve_decision. Defined.

Definition opt_str (o : option string) : json := match o with Some s => JStr s | None => JNull end.

Definition item_json (i : PlanItem) : json :=
  JObj [("entry_id", JStr (entry_str (entry_id i))); ("path", JStr (path i));
        ("prior_inode", JInt (prior_inode i)); ("prior_size", JInt (prior_size i));
        ("prior_hash", opt_str (prior_hash i)); ("action", JStr (action_value (action i)));
        ("dest_rel", opt_str (dest_rel i))].

Definition action_payload (j : ActionJob) : json :=
  JObj [("plan_id", JStr (a_plan_id j)); ("mode", JStr (mode_value (a_mode j)));
        ("nonce", JStr (a_nonce j)); ("issued_at", JStr (isoformat (a_issued_at j)));
        ("expires_at", JStr (isoformat (a_expires_at j))); ("host_id", JStr (a_host_id j));
        ("keeper_path", JStr (a_keeper_path j)); ("move_root", opt_str (a_move_root j));
        ("items", JList (item_json <$> a_items j))].

Definition scan_payload (j : ScanJob) : json :=
  JObj [("kind", JStr "scan_now"); ("nonce", JStr (s_nonce j));
        ("issued_at", JStr (isoformat (s_issued_at j)));
        ("expires_at", JStr (isoformat (s_expires_at j))); ("host_id", JStr (s_host_id j));
        ("root", JStr (s_root j)); ("mode", JStr (scan_mode_value (s_mode j)))].

Definition payload (j : DispatchJob) : json :=
  match j with DAction a => action_payload a | DScan s => scan_payload s end.

Definition canonical_bytes (j : DispatchJob) : string := utf8 (dumps (payload j)).

Definition ledger_ref (j : DispatchJob) : string :=
  match j with
  | DAction a => a_plan_id a
  | DScan s => "scan:" +:+ s_host_id s +:+ ":" +:+ s_root s
  end.

(** The fields the two job types share. *)
Definition nonce (j : DispatchJob) : string := match j with DAction a => a_nonce a | DScan s => s_nonce s end.
Definition issued_at (j : DispatchJob) : datetime :=
  match j with DAction a => a_issued_at a | DScan s => s_issued_at s end.
Definition expires_at (j : DispatchJob) : datetime :=
  match j with DAction a => a_expires_at a | DScan s => s_expires_at s end.
Definition host_id (j : DispatchJob) : string := match j with DAction a => a_host_id a | DScan s => s_host_id s end.

(** [model_validate]'s constraints that the proofs use: representable timestamps. *)
Definition job_valid (j : DispatchJob) : Prop := dt_valid (issued_at j) ∧ dt_valid (expires_at j).

#[export] Instance job_valid_dec j : Decision (job_valid j).
Proof. unfold job_valid. apply _. Defined.

(** ** The bytes determine the job *)

(** The identity a signature covers: entry ids as text. *)
Definition norm_item (i : PlanItem) : PlanItem :=
  mk_item (EStr (entry_str (entry_id i))) (path i) (prior_inode i) (prior_size i) (prior_hash i)
    (action i) (dest_rel i).

Definition norm_job (j : DispatchJob) : DispatchJob :=
  match j with
  | DAction a => DAction (mk_action_job (a_plan_id a) (a_mode a) (a_nonce a) (a_issued_at a)
      (a_expires_at a) (a_host_id a) (a_keeper_path a) (norm_item <$> a_items a) (a_move_root a))
  | DScan s => DScan s
  end.

Lemma norm_job_fields j k : norm_job j = norm_job k →
  host_id j = host_id k ∧ issued_at j = issued_at k ∧ expires_at j = expires_at k ∧ nonce j = nonce k.
Proof.
  intros Hn. split_and!.
  - apply (f_equal host_id) in Hn. by destruct j, k.
  - apply (f_equal issued_at) in Hn. by destruct j, k.
  - apply (f_equal expires_at) in Hn. by destruct j, k.
  - apply (f_equal nonce) in Hn. by destruct j, k.
Qed.

Lemma opt_str_inj o p : sort_json (opt_str o) = sort_json (opt_str p) → o = p.
Proof. destruct o, p; simpl; congruence. Qed.

Lemma mode_value_inj m n : mode_value m = mode_value n → m = n.
Proof. by destruct m, n. Qed.

Lemma scan_mode_value_inj m n : scan_mode_value m = scan_mode_value n → m = n.
Proof. by destruct m, n. Qed.

Lemma item_sorted i :
  sort_json (item_json i) =
  JObj [("action", JStr (action_value (action i))); ("dest_rel", sort_json (opt_str (dest_rel i)));
        ("entry_id", JStr (entry_str (entry_id i))); ("path", JStr (path i));
        ("prior_hash", sort_json (opt_str (prior_hash i))); ("prior_inode", JInt (prior_inode i));
        ("prior_size", JInt (prior_size i))].
Proof. reflexivity. Qed.

Lemma item_json_inj i k : sort_json (item_json i) = sort_json (item_json k) → norm_item i = norm_item k.
Proof.
  rewrite !item_sorted. intros H. json_inv.
  repeat match goal with
  | H : action_value _ = action_value _ |- _ => apply (inj action_value) in H
  | H : sort_json (opt_str _) = _ |- _ => apply opt_str_inj in H
  end. unfold norm_item. congruence.
Qed.

Lemma items_json_inj (l k : list PlanItem) :
  sort_json <$> (item_json <$> l) = sort_json <$> (item_json <$> k) → norm_item <$> l = norm_item <$> k.
Proof.
  revert k. induction l as [|i l IH]; intros [|i' k] H; try done.
  rewrite !fmap_cons in H. apply cons_inj in H as [H1%item_json_inj H2%IH]. by rewrite !fmap_cons, H1, H2.
Qed.

Lemma action_sorted j :
  sort_json (action_payload j) =
  JObj [("expires_at", JStr (isoformat (a_expires_at j))); ("host_id", JStr (a_host_id j));
        ("issued_at", JStr (isoformat (a_issued_at j)));
        ("items", JList (sort_json <$> (item_json <$> a_items j)));
        ("keeper_path", JStr (a_keeper_path j)); ("mode", JStr (mode_value (a_mode j)));
        ("move_root", sort_json (opt_str (a_move_root j))); ("nonce", JStr (a_nonce j));
        ("plan_id", JStr (a_plan_id j))].
Proof. reflexivity. Qed.

Lemma scan_sorted j :
  sort_json (scan_payload j) =
  JObj [("expires_at", JStr (isoformat (s_expires_at j))); ("host_id", JStr (s_host_id j));
        ("issued_at", JStr (isoformat (s_issued_at j))); ("kind", JStr "scan_now");
        ("mode", JStr (scan_mode_value (s_mode j))); ("nonce", JStr (s_nonce j));
        ("root", JStr (s_root j))].
Proof. reflexivity. Qed.

Lemma payload_inj j k :
  job_valid j → job_valid k → sort_json (payload j) = sort_json (payload k) → norm_job j = norm_job k.
Proof.
  intros [Hj1 Hj2] [Hk1 Hk2]. destruct j as [a|s], k as [b|t]; unfold payload;
    rewrite ?action_sorted, ?scan_sorted; intros H; json_inv; simpl issued_at in *; simpl expires_at in *;
    repeat match goal with
    | H : isoformat _ = isoformat _ |- _ => apply isoformat_inj in H; [|done..]
    | H : mode_value _ = _ |- _ => apply mode_value_inj in H
    | H : scan_mode_value _ = _ |- _ => apply scan_mode_value_inj in H
    | H : sort_json (opt_str _) = _ |- _ => apply opt_str_inj in H
    | H : sort_json <$> _ = _ |- _ => apply items_json_inj in H
    end.
  - simpl. congruence.
  - destruct s, t. simpl in *. congruence.
Qed.

Lemma canonical_bytes_inj_gen j k :
  job_valid j → job_valid k → canonical_bytes j = canonical_bytes k → norm_job j = norm_job k.
Proof. intros Hj Hk H. apply utf8_inj, dumps_inj in H. by apply payload_inj. Qed.

(** ** Properties *)

(** a plan acts on every member but the chosen keeper, in order, each with the state it was
    planned against, and never on the keeper; the builder fails exactly when the keeper is not a
    member, nothing is left to do, or a field is out of range. *)
Theorem build_plan_spec pid by_ members keep_id full_hash act :
  let others := filter (λ m, m_entry_id m ≠ keep_id) members in
  match build_plan pid by_ members keep_id full_hash act with
  | Ok plan =>
      (∃ keeper, keeper ∈ members ∧ m_entry_id keeper = keep_id ∧ keeper_path plan = m_path keeper) ∧
      (λ i, (entry_id i, path i, prior_inode i, prior_size i)) <$> items plan =
      (λ m, (m_entry_id m, m_path m, m_inode m, m_size m)) <$> others ∧
      Forall (λ i, prior_hash i = Some full_hash ∧ action i = act ∧ entry_id i ≠ keep_id) (items plan) ∧
      items plan ≠ []
  | Err _ =>
      keep_id ∉ m_entry_id <$> members ∨ others = [] ∨ pid = "" ∨ by_ = "" ∨
      ∃ m, m ∈ members ∧ (m_size m < 0)%Z
  end.
Proof.
  intros others. unfold build_plan. destruct (list_find _ members) as [[n keeper]|] eqn:Ef.
  2:{ left. apply list_find_None in Ef. rewrite Forall_forall in Ef.
      intros (m & -> & Hm)%list_elem_of_fmap. by apply (Ef m). }
  fold others. set (its := _ <$> others).
  destruct (bool_decide_reflect (its = [])) as [Hn|Hn].
  { right; left. by apply fmap_nil_inv in Hn. }
  destruct (plan_valid _) eqn:Hv.
  - simpl. apply list_find_Some in Ef as (Ek & Hk & _). split_and!.
    + exists keeper. split_and!; [by eapply list_elem_of_lookup_2|done|done].
    + unfold its. by rewrite <- list_fmap_compose.
    + apply Forall_fmap, Forall_forall. intros m [Hm _]%list_elem_of_filter. by split_and!.
    + done.
  - do 2 right. unfold plan_valid in Hv. simpl in Hv. rewrite (bool_decide_false (its = [])) in Hv by done.
    apply andb_false_iff in Hv as [Hv|Hv]; to_prop; [destruct Hv as [Hv|Hv]; [|done]; to_prop;
      destruct Hv; to_prop; auto|].
    do 2 right. apply forallb_false_exists in Hv as (i & (m & -> & [_ Hm]%list_elem_of_filter)%list_elem_of_fmap & Hs).
    exists m. to_prop. split; [done|exact Hs].
Qed.

(** the canonical bytes determine the job, of either type, up to the text form of entry ids:
    no two different jobs are signed by one signature, and a scan job is never a remediation job. *)
Theorem canonical_bytes_inj j k :
  job_valid j → job_valid k → canonical_bytes j = canonical_bytes k → norm_job j = norm_job k.
Proof. intros Hj Hk H. by apply canonical_bytes_inj_gen. Qed.

(** ** Witnesses *)

Definition demo_item (e : EntryId) : PlanItem :=
  mk_item e "/srv/a" 42 10 (Some "ff") QUARANTINE None.

Definition demo_job (e : EntryId) : ActionJob :=
  mk_action_job "p1" EXECUTE "0123456789abcdef" (utc 0) (utc (seconds 300)) "host-1" "/srv/k" [demo_item e] None.

(** An integer entry id and its text are the one thing the bytes do not tell apart. *)
Lemma canonical_bytes_inj_witness :
  norm_job (DAction (demo_job (EInt 7))) = norm_job (DAction (demo_job (EStr "7"))).
Proof.
  apply canonical_bytes_inj; [apply (bool_decide_unpack _); vm_compute; exact I..|vm_compute; reflexivity].
Defined.
