(* ===== verification/Signing.v ===== *)
(** Signing and fail-closed verification of jobs ([src/fathom/core/remediation/signing.py]) and the
    single-use nonce ledgers ([nonce_store.py]).

    Ed25519 and HMAC-SHA256 are parameters.  [NonceStore] is the interface [verify_job] needs; the
    in-memory set, the actor's SQLite file and the server's table implement it. *)

From Stdlib Require Import ZifyN.
From stdpp Require Import gmap.
From S2P Require Import Prelude PyStr Json PyTime Jobs.

(** ** base64 *)

Definition b64_char (n : N) : ascii :=
  if (n <? 26)%N then ascii_of_N (65 + n)
  else if (n <? 52)%N then ascii_of_N (71 + n)
  else if (n <? 62)%N then ascii_of_N (n - 4)
  else if (n =? 62)%N then "+"%char else "/"%char.

Definition b64_value (c : ascii) : option N :=
  let n := N_of_ascii c in
  if ((65 <=? n) && (n <=? 90))%N then Some (n - 65)%N
  else if ((97 <=? n) && (n <=? 122))%N then Some (n - 71)%N
  else if ((48 <=? n) && (n <=? 57))%N then Some (n + 4)%N
  else if (n =? 43)%N then Some 62%N else if (n =? 47)%N then Some 63%N else None.

Fixpoint b64encode (s : string) : string :=
  match s with
  | "" => ""
  | String a "" =>
      let x := N_of_ascii a in
      String (b64_char (x / 4)) (String (b64_char (x mod 4 * 16)) "==")
  | String a (String b "") =>
      let x := N_of_ascii a in let y := N_of_ascii b in
      String (b64_char (x / 4)) (String (b64_char (x mod 4 * 16 + y / 16))
        (String (b64_char (y mod 16 * 4)) "="))
  | String a (String b (String c r)) =>
      let x := N_of_ascii a in let y := N_of_ascii b in let z := N_of_ascii c in
      String (b64_char (x / 4)) (String (b64_char (x mod 4 * 16 + y / 16))
        (String (b64_char (y mod 16 * 4 + z / 64)) (String (b64_char (z mod 64)) (b64encode r))))
  end.

(** [binascii.a2b_base64], not strict: characters outside the alphabet are skipped, enough padding
    ends the input, a dangling quad is an error ([None], a ValueError).  [quad] is the position in
    the current group, [left] its pending bits. *)
Fixpoint a2b (quad pads : nat) (left : N) (s : string) : option string :=
  match s with
  | "" => if bool_decide (quad = 0) then Some "" else None
  | String c r =>
      if Ascii.eqb c "=" then
        if bool_decide (2 ≤ quad ∧ 4 ≤ quad + S pads) then Some ""
        else a2b quad (if bool_decide (2 ≤ quad) then S pads else pads) left r
      else match b64_value c with
           | None => a2b quad pads left r
           | Some v =>
               match quad with
               | 0 => a2b 1 0 v r
               | 1 => String (ascii_of_N (left * 4 + v / 16)) <$> a2b 2 0 (v mod 16) r
               | 2 => String (ascii_of_N (left * 16 + v / 4)) <$> a2b 3 0 (v mod 4) r
               | _ => String (ascii_of_N (left * 64 + v)) <$> a2b 0 0 0 r
               end
           end
  end.

Definition b64decode (s : string) : option string := a2b 0 0 0 s.

Example b64_ex1 : b64encode "Man" = "TWFu". Proof. reflexivity. Qed.
Example b64_ex2 : b64decode "TWE=" = Some "Ma". Proof. reflexivity. Qed.
Example b64_ex3 : b64decode "T-WE" = None. Proof. reflexivity. Qed.

Lemma b64_value_char n : (n < 64)%N → b64_value (b64_char n) = Some n ∧ Ascii.eqb (b64_char n) "=" = false.
Proof.
  intros H. assert (forallb (λ m, bool_decide (b64_value (b64_char m) = Some m)
    && negb (Ascii.eqb (b64_char m) "=")) (N.of_nat <$> seq 0 64) = true) as Hall by (vm_compute; done).
  rewrite forallb_forall in Hall. specialize (Hall n).
  assert (In n (N.of_nat <$> seq 0 64)) as Hin.
  { apply list_elem_of_In, list_elem_of_fmap. exists (N.to_nat n).
    split; [by rewrite N2Nat.id|]. apply elem_of_seq. lia. }
  apply Hall in Hin. by to_prop.
Qed.

Section a2b_char.
Context (pads : nat) (left n : N) (r : string) (Hn : (n < 64)%N).

Lemma a2b_char0 : a2b 0 pads left (String (b64_char n) r) = a2b 1 0 n r.
Proof. apply b64_value_char in Hn as [H1 H2]. cbn [a2b]. by rewrite H2, H1. Qed.

Lemma a2b_char1 : a2b 1 pads left (String (b64_char n) r) =
  String (ascii_of_N (left * 4 + n / 16)) <$> a2b 2 0 (n mod 16) r.
Proof. apply b64_value_char in Hn as [H1 H2]. cbn [a2b]. by rewrite H2, H1. Qed.

Lemma a2b_char2 : a2b 2 pads left (String (b64_char n) r) =
  String (ascii_of_N (left * 16 + n / 4)) <$> a2b 3 0 (n mod 4) r.
Proof. apply b64_value_char in Hn as [H1 H2]. cbn [a2b]. by rewrite H2, H1. Qed.

Lemma a2b_char3 : a2b 3 pads left (String (b64_char n) r) =
  String (ascii_of_N (left * 64 + n)) <$> a2b 0 0 0 r.
Proof. apply b64_value_char in Hn as [H1 H2]. cbn [a2b]. by rewrite H2, H1. Qed.
End a2b_char.

Ltac a2b_step := rewrite ?a2b_char0, ?a2b_char1, ?a2b_char2, ?a2b_char3 by div_lia.

Lemma N_of_ascii_bound c : (N_of_ascii c < 256)%N.
Proof. apply N_ascii_bounded. Qed.

Lemma ascii_of_N_eq n c : n = N_of_ascii c → ascii_of_N n = c.
Proof. intros ->. apply ascii_N_embedding. Qed.

Lemma b64_roundtrip_gen k : ∀ s, String.length s ≤ k → b64decode (b64encode s) = Some s.
Proof.
  unfold b64decode. induction k as [|k IH]; intros s Hs.
  - by destruct s; [|simpl in Hs; lia].
  - destruct s as [|a [|b [|c r]]]; [done|..]; cbn [b64encode].
    + pose proof (N_of_ascii_bound a). a2b_step.
      simpl. f_equal. f_equal. apply ascii_of_N_eq. div_lia.
    + pose proof (N_of_ascii_bound a). pose proof (N_of_ascii_bound b).
      a2b_step.
      simpl. f_equal. f_equal; [|f_equal]; apply ascii_of_N_eq; div_lia.
    + pose proof (N_of_ascii_bound a). pose proof (N_of_ascii_bound b). pose proof (N_of_ascii_bound c).
      a2b_step. rewrite IH by (simpl in Hs; lia).
      simpl. f_equal. f_equal; [|f_equal; [|f_equal]]; apply ascii_of_N_eq; div_lia.
Qed.

Lemma b64_roundtrip s : b64decode (b64encode s) = Some s.
Proof. by apply (b64_roundtrip_gen (String.length s)). Qed.

(** ** The nonce ledger: interface and implementations *)

Class NonceStore (St : Type) := {
  consume : string → string → St → result string bool * St;
  seen : St → gset string;   (** the consumed nonces *)
}.

(** What [verify_job] relies on: insert-or-fail, and a failed call consumes nothing. *)
Class NonceStoreLaws (St : Type) `{NonceStore St} := {
  consume_ok n j (s s' : St) b :
    consume n j s = (Ok b, s') → b = bool_decide (n ∉ seen s) ∧ seen s' = {[n]} ∪ seen s;
  consume_err n j (s s' : St) e : consume n j s = (Err e, s') → seen s' = seen s;
}.

(** [InMemoryNonceStore]: a set under a lock. *)
Record InMemoryNonceStore := mk_mem { _seen : gset string }.

Definition mem_consume (n _job : string) (s : InMemoryNonceStore) : result string bool * InMemoryNonceStore :=
  if bool_decide (n ∈ _seen s) then (Ok false, s) else (Ok true, mk_mem ({[n]} ∪ _seen s)).

#[export] Instance mem_store : NonceStore InMemoryNonceStore := {| consume := mem_consume; seen := _seen |}.

#[export] Instance mem_laws : NonceStoreLaws InMemoryNonceStore.
Proof.
  split; intros n j s s' b; simpl; unfold mem_consume; case_bool_decide as H; intros [= <- <-].
  - rewrite bool_decide_false by tauto. split; [done|]. set_solver.
  - by rewrite bool_decide_true.
Qed.

(** [SqliteNonceStore]: a table with primary key [nonce]; [sq_locked] says which of the coming calls
    find the file locked beyond the busy timeout. *)
Record SqliteNonceStore := mk_sqlite { sq_rows : gmap string string; sq_locked : list bool }.

Definition _consume_sync (n job : string) (s : SqliteNonceStore) : result string bool * SqliteNonceStore :=
  let rest := tail (sq_locked s) in
  if default false (head (sq_locked s)) then (Err "nonce ledger temporarily locked", mk_sqlite (sq_rows s) rest)
  else match sq_rows s !! n with
       | Some _ => (Ok false, mk_sqlite (sq_rows s) rest)
       | None => (Ok true, mk_sqlite (<[n := job]> (sq_rows s)) rest)
       end.

#[export] Instance sqlite_store : NonceStore SqliteNonceStore :=
  {| consume := _consume_sync; seen s := dom (sq_rows s) |}.

#[export] Instance sqlite_laws : NonceStoreLaws SqliteNonceStore.
Proof.
  split; intros n j s s' b; simpl; unfold _consume_sync; case_match; try done.
  - destruct (sq_rows s !! n) as [x|] eqn:E; intros [= <- <-]; simpl.
    + apply elem_of_dom_2 in E. rewrite bool_decide_false by tauto. split; [done|]. set_solver.
    + apply not_elem_of_dom in E. rewrite bool_decide_true by done. split; [done|]. set_solver.
  - by intros [= <- <-].
  - by destruct (sq_rows s !! n).
Qed.

(** [DbNonceStore]: the [used_nonce] table, UNIQUE [nonce], the insert in a savepoint. *)
Record DbNonceStore := mk_dbnonce { used_nonce : list (string * string) }.

Definition db_consume (n job : string) (s : DbNonceStore) : result string bool * DbNonceStore :=
  if bool_decide (n ∈ (used_nonce s).*1) then (Ok false, s)
  else (Ok true, mk_dbnonce (used_nonce s ++ [(n, job)])).

#[export] Instance db_store : NonceStore DbNonceStore :=
  {| consume := db_consume; seen s := list_to_set (used_nonce s).*1 |}.

#[export] Instance db_laws : NonceStoreLaws DbNonceStore.
Proof.
  split; intros n j s s' b; simpl; unfold db_consume; case_bool_decide as H; intros [= <- <-]; simpl.
  - rewrite bool_decide_false by set_solver. split; [done|]. set_solver.
  - rewrite bool_decide_true by set_solver. split; [done|]. rewrite fmap_app. set_solver.
Qed.

(** ** Signed jobs *)

Inductive Algorithm := ED25519 | HMAC_SHA256.

#[export] Instance Algorithm_eq_dec : EqDecision Algorithm.
Proof. solve_decision. Defined.

Record SignedJob := mk_signed { job : DispatchJob; key_id : string; algorithm : Algorithm; signature : string }.

(** A verifier is what [verify_job] sees of it. *)
Record Verifier := mk_verifier { verify_signature : SignedJob → bool }.

Section Schemes.
Context (ed_sign : string → string) (ed_verify : string → string → bool).
Context (hmac_sha256 : string → string → string).

(** [Ed25519Signer.sign], [Ed25519Verifier.verify_signature]; [ed_verify signature message]. *)
Definition ed25519_sign (kid : string) (j : DispatchJob) : SignedJob :=
  mk_signed j kid ED25519 (b64encode (ed_sign (canonical_bytes j))).

Definition ed25519_verify (kid : string) (signed : SignedJob) : bool :=
  if negb (bool_decide (algorithm signed = ED25519)) || negb (bool_decide (key_id signed = kid)) then false
  else match b64decode (signature signed) with
       | Some s => ed_verify s (canonical_bytes (job signed))
       | None => false
       end.

Definition Ed25519Verifier (kid : string) : Verifier := mk_verifier (ed25519_verify kid).

(** [HmacSigner.sign], [HmacVerifier.verify_signature]. *)
Definition hmac_sign (secret kid : string) (j : DispatchJob) : SignedJob :=
  mk_signed j kid HMAC_SHA256 (b64encode (hmac_sha256 secret (canonical_bytes j))).

Definition hmac_verify (secret kid : string) (signed : SignedJob) : bool :=
  if negb (bool_decide (algorithm signed = HMAC_SHA256)) || negb (bool_decide (key_id signed = kid)) then false
  else
    let expected := hmac_sha256 secret (canonical_bytes (job signed)) in
    match b64decode (signature signed) with
    | Some provided => bool_decide (expected = provided)
    | None => false
    end.

Definition HmacVerifier (secret kid : string) : Verifier := mk_verifier (hmac_verify secret kid).
End Schemes.

(** ** [verify_job] *)

Inductive JobError :=
| JobVerificationError (msg : string)
| NonceReuseError
| LedgerError (msg : string).   (** a RuntimeError out of the ledger *)

Definition verify_job {St} `{NonceStore St} (v : Verifier) (expected_host_id : string) (now : datetime)
    (signed : SignedJob) (store : St) : result JobError DispatchJob * St :=
  if negb (verify_signature v signed) then (Err (JobVerificationError "signature verification failed"), store)
  else
    let j := job signed in
    if (instant (as_utc (expires_at j)) <=? instant now)%Z then (Err (JobVerificationError "job has expired"), store)
    else if (instant now <? instant (as_utc (issued_at j)))%Z
    then (Err (JobVerificationError "job is not yet valid"), store)
    else if negb (bool_decide (host_id j = expected_host_id))
    then (Err (JobVerificationError "job host scope does not match this agent"), store)
    else match consume (nonce j) (ledger_ref j) store with
         | (Ok true, store') => (Ok j, store')
         | (Ok false, store') => (Err NonceReuseError, store')
         | (Err e, store') => (Err (LedgerError e), store')
         end.

(** ** Properties *)

Section SigningLemmas.
Context {St : Type} `{NonceStoreLaws St}.

Lemma verify_job_cases v host now signed (st st' : St) r :
  verify_job v host now signed st = (r, st') →
  match r with
  | Ok j => j = job signed ∧ verify_signature v signed = true ∧
      (instant (as_utc (issued_at j)) <= instant now < instant (as_utc (expires_at j)))%Z ∧
      host_id j = host ∧ nonce j ∉ seen st ∧ seen st' = {[nonce j]} ∪ seen st
  | Err (JobVerificationError _) => st' = st
  | Err NonceReuseError => nonce (job signed) ∈ seen st ∧ seen st' = seen st
  | Err (LedgerError _) => seen st' = seen st
  end.
Proof.
  unfold verify_job. destruct (verify_signature v signed) eqn:Es; simpl; [|by intros [= <- <-]].
  destruct (Z.leb_spec (instant (as_utc (expires_at (job signed)))) (instant now)); [by intros [= <- <-]|].
  destruct (Z.ltb_spec (instant now) (instant (as_utc (issued_at (job signed))))); [by intros [= <- <-]|].
  destruct (bool_decide_reflect (host_id (job signed) = host)); simpl; [|by intros [= <- <-]].
  destruct (consume _ _ st) as [[[]|le] s] eqn:Ec; intros [= <- <-].
  - apply consume_ok in Ec as [E1 E2]. symmetry in E1. to_prop. by split_and!.
  - apply consume_ok in Ec as [E1 E2]. symmetry in E1. to_prop. apply dec_stable in E1. set_solver.
  - by apply consume_err in Ec.
Qed.

Lemma verify_job_accepts v host now signed (st : St) :
  verify_signature v signed = true →
  (instant (as_utc (issued_at (job signed))) <= instant now < instant (as_utc (expires_at (job signed))))%Z →
  host_id (job signed) = host →
  verify_job v host now signed st =
  match consume (nonce (job signed)) (ledger_ref (job signed)) st with
  | (Ok true, st') => (Ok (job signed), st')
  | (Ok false, st') => (Err NonceReuseError, st')
  | (Err e, st') => (Err (LedgerError e), st')
  end.
Proof.
  intros Hs Ht Hh. unfold verify_job. rewrite Hs, bool_decide_true by done. simpl.
  rewrite (proj2 (Z.leb_gt _ _)), (proj2 (Z.ltb_ge _ _)) by lia. done.
Qed.

(** A run of the verifier over any arrivals; the accepted jobs, in order. *)
Fixpoint verify_all (v : Verifier) (host : string) (arrivals : list (datetime * SignedJob)) (st : St)
    : list DispatchJob * St :=
  match arrivals with
  | [] => ([], st)
  | (now, signed) :: rest =>
      match verify_job v host now signed st with
      | (Ok j, st') => let '(js, st'') := verify_all v host rest st' in (j :: js, st'')
      | (Err _, st') => verify_all v host rest st'
      end
  end.

Lemma verify_all_fresh v host arrivals (st st' : St) js :
  verify_all v host arrivals st = (js, st') →
  NoDup (nonce <$> js) ∧ Forall (λ j, nonce j ∉ seen st) js ∧ seen st ⊆ seen st'.
Proof.
  revert st js. induction arrivals as [|[now signed] rest IH]; intros st js Hrun; simpl in Hrun.
  - injection Hrun as <- <-. repeat constructor. done.
  - destruct (verify_job v host now signed st) as [r st1] eqn:Ev.
    apply verify_job_cases in Ev. destruct r as [j|e].
    + destruct (verify_all v host rest st1) as [js' st2] eqn:Er. injection Hrun as <- <-.
      apply IH in Er as (Hn & Hf & Hsub). destruct Ev as (_ & _ & _ & _ & Hj & Hseen).
      split_and!; [|constructor; [done|]|set_solver].
      * rewrite fmap_cons. apply NoDup_cons. split; [|done].
        intros (k & Hk & Hin)%list_elem_of_fmap. rewrite Forall_forall in Hf.
        apply (Hf k Hin). rewrite Hseen, <- Hk. set_solver.
      * eapply Forall_impl; [exact Hf|]. intros k Hk. simpl in *. set_solver.
    + assert (seen st1 = seen st) as Es by (destruct e; naive_solver).
      apply IH in Hrun as (Hn & Hf & Hsub). rewrite Es in Hf, Hsub. done.
Qed.
End SigningLemmas.

Section SigningProperties.
Context {St : Type} `{NonceStoreLaws St}.

(** C6: [verify_job] returns a job exactly when the signature verifies, the clock is inside the
    window, the job is addressed to this host and the ledger accepts its nonce as new.  Its errors say
    which failed: a refusal means that signature, time or host was wrong, and leaves the ledger
    untouched; a reuse that only the nonce was not new; anything else is the ledger's own error. *)
Theorem verify_job_spec v host now signed (st st' : St) r :
  verify_job v host now signed st = (r, st') →
  let j := job signed in
  let checked := verify_signature v signed = true ∧
    (instant (as_utc (issued_at j)) <= instant now < instant (as_utc (expires_at j)))%Z ∧ host_id j = host in
  match r with
  | Ok j' => j' = j ∧ checked ∧ nonce j ∉ seen st ∧ seen st' = {[nonce j]} ∪ seen st
  | Err (JobVerificationError _) => ¬ checked ∧ st' = st
  | Err NonceReuseError => checked ∧ nonce j ∈ seen st ∧ seen st' = seen st
  | Err (LedgerError e) => checked ∧ consume (nonce j) (ledger_ref j) st = (Err e, st') ∧ seen st' = seen st
  end.
Proof.
  intros Hv j checked. pose proof (verify_job_cases _ _ _ _ _ _ _ Hv) as Hc.
  assert (checked → match r with Err (JobVerificationError _) => False
                     | Err (LedgerError e) => consume (nonce j) (ledger_ref j) st = (Err e, st') | _ => True end) as Hacc.
  { intros (Hs & Ht & Hh). rewrite (verify_job_accepts v host now signed st Hs Ht Hh) in Hv.
    by destruct (consume _ _ st) as [[[]|e] s]; injection Hv as <- <-. }
  assert (checked ∨ ¬ checked ∧ ∃ msg, r = Err (JobVerificationError msg)) as Hdec.
  { unfold verify_job in Hv. fold j in Hv. unfold checked. destruct (verify_signature v signed); [|right; naive_solver].
    destruct (Z.leb_spec (instant (as_utc (expires_at j))) (instant now)); [right; split; [lia|naive_solver]|].
    destruct (Z.ltb_spec (instant now) (instant (as_utc (issued_at j)))); [right; split; [lia|naive_solver]|].
    destruct (bool_decide_reflect (host_id j = host)); [by left|right; naive_solver]. }
  destruct r as [j'|[msg| |e]]; naive_solver.
Qed.

(** whatever arrives, in any order, with any clock, each nonce is accepted at most once, and
    never one that the ledger already holds. *)
Theorem verified_at_most_once v host arrivals (st st' : St) js :
  verify_all v host arrivals st = (js, st') →
  NoDup (nonce <$> js) ∧ Forall (λ j, nonce j ∉ seen st) js.
Proof. intros Hrun. by destruct (verify_all_fresh _ _ _ _ _ _ Hrun) as (? & ? & _). Qed.

Context (ed_sign : string → string) (ed_verify : string → string → bool).

(** a job signed by the orchestrator verifies within its window on its own host, and is
    rejected as a replay the second time. *)
Theorem signed_job_verifies_once kid now j (st : St) :
  (∀ m, ed_verify (ed_sign m) m = true) →
  (∀ n jid (s : St), is_ok (consume n jid s).1 = true) →
  (instant (as_utc (issued_at j)) <= instant now < instant (as_utc (expires_at j)))%Z →
  nonce j ∉ seen st →
  let v := Ed25519Verifier ed_verify kid in
  let signed := ed25519_sign ed_sign kid j in
  ∃ st1 st2, verify_job v (host_id j) now signed st = (Ok j, st1) ∧
             verify_job v (host_id j) now signed st1 = (Err NonceReuseError, st2).
Proof.
  intros Hsv Hup Ht Hfresh v signed.
  assert (verify_signature v signed = true) as Hs.
  { simpl. unfold ed25519_verify. simpl. rewrite !bool_decide_true, b64_roundtrip by done. apply Hsv. }
  setoid_rewrite (verify_job_accepts v (host_id j) now signed _ Hs Ht eq_refl). simpl.
  pose proof (Hup (nonce j) (ledger_ref j) st) as Hup1.
  destruct (consume (nonce j) (ledger_ref j) st) as [[b|] st1] eqn:E1; [|done].
  destruct (consume_ok _ _ _ _ _ E1) as [-> Hseen]. rewrite bool_decide_true by done.
  pose proof (Hup (nonce j) (ledger_ref j) st1) as Hup2.
  destruct (consume (nonce j) (ledger_ref j) st1) as [[b|] st2] eqn:E2; [|done].
  destruct (consume_ok _ _ _ _ _ E2) as [-> _]. exists st1, st2. split; [done|].
  rewrite E2, bool_decide_false by set_solver. done.
Qed.

(** if the only messages with a valid signature are those the orchestrator signed, an accepted
    job is one that it issued, field for field (entry ids as text). *)
Theorem accepted_job_was_issued kid host now signed (issued : list DispatchJob) (st st' : St) j :
  (∀ s m, ed_verify s m = true → m ∈ canonical_bytes <$> issued) →
  Forall job_valid issued → job_valid (job signed) →
  verify_job (Ed25519Verifier ed_verify kid) host now signed st = (Ok j, st') →
  ∃ j', j' ∈ issued ∧ norm_job j = norm_job j' ∧ host_id j' = host ∧
        (instant (as_utc (issued_at j')) <= instant now < instant (as_utc (expires_at j')))%Z.
Proof.
  intros Hunf Hval Hvalid Hv. apply verify_job_cases in Hv as (-> & Hs & Ht & Hh & _).
  simpl in Hs. unfold ed25519_verify in Hs. repeat case_match; try done.
  apply Hunf, list_elem_of_fmap in Hs as (j' & Hb & Hj'). rewrite Forall_forall in Hval.
  apply canonical_bytes_inj_gen in Hb; [|done|auto]. exists j'. split; [done|]. split; [done|].
  apply norm_job_fields in Hb as (<- & <- & <- & _). done.
Qed.
End SigningProperties.

(** ** Witnesses *)

(** A symbolic scheme: the signature is the tagged message. *)
Definition toy_sign (m : string) : string := "ed:" +:+ m.
Definition toy_verify (s m : string) : bool := bool_decide (s = toy_sign m).

Lemma toy_verify_sign m : toy_verify (toy_sign m) m = true.
Proof. by apply bool_decide_eq_true_2. Qed.

Definition demo_dispatch : DispatchJob := DAction (demo_job (EInt 7)).
Definition demo_signed : SignedJob := ed25519_sign toy_sign "k1" demo_dispatch.
Definition demo_verifier : Verifier := Ed25519Verifier toy_verify "k1".
Definition at_second (n : Z) : datetime := utc (seconds n).

Lemma verify_job_spec_witness :
  let run := verify_job demo_verifier "host-1" (at_second 1) demo_signed (mk_mem ∅) in
  nonce demo_dispatch ∉ seen (mk_mem ∅) ∧ run.1 = Ok demo_dispatch.
Proof.
  assert (verify_job demo_verifier "host-1" (at_second 1) demo_signed (mk_mem ∅) =
          (Ok demo_dispatch, mk_mem ({[nonce demo_dispatch]} ∪ ∅))) as Hrun by (vm_compute; reflexivity).
  pose proof (verify_job_spec demo_verifier "host-1" (at_second 1) demo_signed (mk_mem ∅) _ _ Hrun)
    as (_ & _ & Hfresh & _).
  split; [exact Hfresh|]. exact (f_equal fst Hrun).
Defined.

(** Three arrivals of one job: before its window closes twice, and once for another ledger state. *)
Lemma verified_at_most_once_witness :
  let run := verify_all demo_verifier "host-1"
    [(at_second 1, demo_signed); (at_second 2, demo_signed); (at_second 900, demo_signed)] (mk_mem ∅) in
  length run.1 = 1 ∧ NoDup (nonce <$> run.1).
Proof.
  split; [vm_compute; reflexivity|].
  exact (proj1 (verified_at_most_once _ _ _ _ _ _ (surjective_pairing _))).
Defined.

Lemma mem_consume_total n jid (s : InMemoryNonceStore) : is_ok (consume n jid s).1 = true.
Proof. simpl. unfold mem_consume. by case_bool_decide. Qed.

Lemma signed_job_verifies_once_witness :
  ∃ st1 st2, verify_job demo_verifier "host-1" (at_second 1) demo_signed (mk_mem ∅) = (Ok demo_dispatch, st1) ∧
             verify_job demo_verifier "host-1" (at_second 1) demo_signed st1 = (Err NonceReuseError, st2).
Proof.
  refine (signed_job_verifies_once toy_sign toy_verify "k1" (at_second 1) demo_dispatch (mk_mem ∅)
    toy_verify_sign mem_consume_total _ _).
  - vm_compute. split; [discriminate|reflexivity].
  - simpl. set_solver.
Defined.

Definition picky_verify (s m : string) : bool :=
  bool_decide (s = toy_sign m) && bool_decide (m = canonical_bytes demo_dispatch).

Lemma picky_verify_issued s m : picky_verify s m = true → m ∈ canonical_bytes <$> [demo_dispatch].
Proof. unfold picky_verify. intros H. to_prop. subst. left. Qed.

Lemma accepted_job_was_issued_witness :
  ∃ j', j' ∈ [demo_dispatch] ∧ norm_job demo_dispatch = norm_job j' ∧ host_id j' = "host-1" ∧
    (instant (as_utc (issued_at j')) <= instant (at_second 1) < instant (as_utc (expires_at j')))%Z.
Proof.
  refine (accepted_job_was_issued picky_verify "k1" "host-1" (at_second 1) demo_signed [demo_dispatch]
    (mk_mem ∅) (mk_mem ({[nonce demo_dispatch]} ∪ ∅)) demo_dispatch picky_verify_issued _ _ _).
  - apply (bool_decide_unpack _). vm_compute. exact I.
  - apply (bool_decide_unpack _). vm_compute. exact I.
  - vm_compute. reflexivity.
Defined.
