(* ===== verification/Envelope.v ===== *)
(** Signed, single-use requests to an agent and the rendezvous that answers them.

    [preview/grant.py] and [core/browse.py] hold the same two mechanisms, each for its own envelope: signing and
    fail-closed verification, and the per-host queue of [preview/pull.py] and [core/browse.py].  Here they are written
    once, over an interface ([Envelope]: what an envelope has, [EnvelopeLaws]: that its bytes determine it); [Preview]
    and [Browse] instantiate it. *)

From stdpp Require Import gmap.
From S2P Require Import Prelude PyStr PyTime Signing.

Local Open Scope Z_scope.


(** ** Envelopes *)

Class Envelope (G : Type) := {
  en_ref : G → string; en_host : G → string; en_nonce : G → string;
  en_issued : G → datetime; en_expires : G → datetime; en_bytes : G → string;
}.

Class EnvelopeLaws (G : Type) `{Envelope G} := {
  (** [model_validate]: the timestamps can be printed. *)
  en_valid : G → Prop;
  en_bytes_inj g h : en_valid g → en_valid h → en_bytes g = en_bytes h → g = h;
}.

Record Sealed (G : Type) := mk_sealed { body : G; sd_key_id : string; sd_algorithm : string; sd_signature : string }.
Arguments mk_sealed {G}. Arguments body {G}. Arguments sd_key_id {G}. Arguments sd_algorithm {G}. Arguments sd_signature {G}.

Inductive SealError := BadSignature | Expired | NotYetValid | WrongHost | Replay | LedgerFailed (msg : string).

#[export] Instance SealError_eq_dec : EqDecision SealError.
Proof. solve_decision. Defined.

Section Seal.
Context {G : Type} `{Envelope G}.
Context (ed_sign : string → string) (ed_verify : string → string → bool).

Definition sign (kid : string) (g : G) : Sealed G := mk_sealed g kid "ed25519" (b64encode (ed_sign (en_bytes g))).

Definition verify_signature (kid : string) (s : Sealed G) : bool :=
  if negb (bool_decide (sd_algorithm s = "ed25519")) || negb (bool_decide (sd_key_id s = kid)) then false
  else match b64decode (sd_signature s) with
       | Some sig => ed_verify sig (en_bytes (body s))
       | None => false
       end.

(** The nonce is consumed last. *)
Definition verify {St} `{NonceStore St} (kid expected_host_id : string) (now : datetime) (s : Sealed G) (store : St)
    : result SealError G * St :=
  if negb (verify_signature kid s) then (Err BadSignature, store) else
  let g := body s in
  if instant (as_utc (en_expires g)) <=? instant now then (Err Expired, store) else
  if instant now <? instant (as_utc (en_issued g)) then (Err NotYetValid, store) else
  if negb (bool_decide (en_host g = expected_host_id)) then (Err WrongHost, store) else
  match consume (en_nonce g) (en_ref g) store with
  | (Ok true, store) => (Ok g, store)
  | (Ok false, store) => (Err Replay, store)
  | (Err e, store) => (Err (LedgerFailed e), store)
  end.
End Seal.

(** ** The rendezvous *)

(** What waits in the queue of a host: its id and its expiry. *)
Class Queued (I : Type) := { qi_id : I → string; qi_expires : I → datetime }.

Inductive awaited (R : Type) := Waiting | Answered (r : R) | Refused (reason : string).
Arguments Waiting {R}. Arguments Answered {R}. Arguments Refused {R}.

Inductive CorrelationError := DuplicateId | UnknownId | OtherHost | AlreadyAnswered.

Section Rendezvous.
Context {I R : Type} `{Queued I}.

Record PullQueue := mk_pull { _queues : gmap string (list I); _results : gmap string (awaited R); _issued_to : gmap string string }.

Definition empty_pull : PullQueue := mk_pull ∅ ∅ ∅.

Definition _queue_for (host : string) (q : PullQueue) : list I := default [] (_queues q !! host).

Definition is_waiting (f : awaited R) : bool := match f with Waiting => true | _ => false end.

(** [enqueue_and_wait] up to its await. *)
Definition enqueue (host : string) (item : I) (q : PullQueue) : result CorrelationError PullQueue :=
  match _results q !! qi_id item with
  | Some _ => Err DuplicateId
  | None => Ok (mk_pull (<[host := _queue_for host q ++ [item]]> (_queues q)) (<[qi_id item := Waiting]> (_results q))
                  (<[qi_id item := host]> (_issued_to q)))
  end.

(** The rest of it, once the future is done or the wait timed out; [None]: nobody waits under this id. *)
Definition finish (id : string) (q : PullQueue) : option (result string R) * PullQueue :=
  match _results q !! id with
  | None => (None, q)
  | Some f =>
      (Some (match f with Answered r => Ok r | Refused reason => Err reason | Waiting => Err "timed out" end),
       mk_pull (_queues q) (delete id (_results q)) (delete id (_issued_to q)))
  end.

Definition _expired (item : I) (now : datetime) : bool := instant (as_utc (qi_expires item)) <=? instant now.

Definition _expire_waiter (id reason : string) (q : PullQueue) : PullQueue :=
  match _results q !! id with
  | Some Waiting => mk_pull (_queues q) (<[id := Refused reason]> (_results q)) (_issued_to q)
  | _ => q
  end.

(** [poll], with the most entries it takes before its deadline. *)
Fixpoint poll (gets : nat) (host reason : string) (now : datetime) (q : PullQueue) : option I * PullQueue :=
  match gets with
  | O => (None, q)
  | S n =>
      match _queue_for host q with
      | [] => (None, q)
      | item :: rest =>
          let q := mk_pull (<[host := rest]> (_queues q)) (_results q) (_issued_to q) in
          if _expired item now then poll n host reason now (_expire_waiter (qi_id item) reason q) else (Some item, q)
      end
  end.

(** [_resolve], with the result or the reason of a failure. *)
Definition resolve (id host : string) (outcome : R + string) (q : PullQueue) : result CorrelationError PullQueue :=
  match _results q !! id, _issued_to q !! id with
  | Some f, Some issued_to =>
      if negb (bool_decide (issued_to = host)) then Err OtherHost
      else if negb (is_waiting f) then Err AlreadyAnswered
      else Ok (mk_pull (_queues q) (<[id := match outcome with inl r => Answered r | inr reason => Refused reason end]> (_results q))
                 (_issued_to q))
  | _, _ => Err UnknownId
  end.

(** *** Runs *)

Inductive pull_op :=
  | PEnqueue (host : string) (item : I)
  | PPoll (gets : nat) (host reason : string) (now : datetime)
  | PResolve (id host : string) (outcome : R + string)
  | PFinish (id : string).

Inductive pull_event :=
  | EAsked (host : string) (item : I)
  | EClaimed (host : string) (item : I) (now : datetime)
  | EAnswered (id host : string) (r : R)
  | EReturned (id : string) (r : result string R).

Definition pull_step (op : pull_op) (q : PullQueue) : list pull_event * PullQueue :=
  match op with
  | PEnqueue host item => match enqueue host item q with Ok q => ([EAsked host item], q) | Err _ => ([], q) end
  | PPoll gets host reason now =>
      match poll gets host reason now q with
      | (Some item, q) => ([EClaimed host item now], q)
      | (None, q) => ([], q)
      end
  | PResolve id host outcome =>
      match resolve id host outcome q with
      | Ok q => (match outcome with inl r => [EAnswered id host r] | inr _ => [] end, q)
      | Err _ => ([], q)
      end
  | PFinish id => match finish id q with (Some r, q) => ([EReturned id r], q) | (None, q) => ([], q) end
  end.

Fixpoint pull_run (ops : list pull_op) (evs : list pull_event) (q : PullQueue) : list pull_event * PullQueue :=
  match ops with
  | [] => (evs, q)
  | op :: ops => let '(es, q) := pull_step op q in pull_run ops (evs ++ es) q
  end.

(** What ties the state to the events so far. *)
Record pull_inv (evs : list pull_event) (q : PullQueue) : Prop := {
  pi_queue host item : item ∈ _queue_for host q → EAsked host item ∈ evs;
  pi_issued id host : _issued_to q !! id = Some host → ∃ item, qi_id item = id ∧ EAsked host item ∈ evs;
  pi_answered id r : _results q !! id = Some (Answered r) →
    ∃ host item, EAnswered id host r ∈ evs ∧ qi_id item = id ∧ EAsked host item ∈ evs;
}.

(** What every event stands for. *)
Definition event_ok (evs : list pull_event) (e : pull_event) : Prop :=
  match e with
  | EAsked _ _ => True
  | EClaimed host item now => EAsked host item ∈ evs ∧ instant now < instant (as_utc (qi_expires item))
  | EAnswered id host r => ∃ item, qi_id item = id ∧ EAsked host item ∈ evs
  | EReturned id (Ok r) => ∃ host item, EAnswered id host r ∈ evs ∧ qi_id item = id ∧ EAsked host item ∈ evs
  | EReturned _ (Err _) => True
  end.
End Rendezvous.
Arguments PullQueue : clear implicits.
Arguments pull_op : clear implicits.
Arguments pull_event : clear implicits.

(** ** Laws of sealed envelopes *)

Section SealLaws.
Context {G St : Type} `{Envelope G} `{NonceStoreLaws St}.
Context (ed_verify : string → string → bool).

Lemma verify_cases kid host now (s : Sealed G) (st st' : St) r :
  verify ed_verify kid host now s st = (r, st') →
  match r with
  | Ok g => g = body s ∧ verify_signature ed_verify kid s = true ∧
      instant (as_utc (en_issued g)) <= instant now < instant (as_utc (en_expires g)) ∧
      en_host g = host ∧ en_nonce g ∉ seen st ∧ seen st' = {[en_nonce g]} ∪ seen st
  | Err Replay => en_nonce (body s) ∈ seen st ∧ seen st' = seen st
  | Err (LedgerFailed _) => seen st' = seen st
  | Err _ => st' = st
  end.
Proof.
  unfold verify. destruct (verify_signature _ kid s) eqn:Es; simpl; [|by intros [= <- <-]].
  destruct (Z.leb_spec (instant (as_utc (en_expires (body s)))) (instant now)); [by intros [= <- <-]|].
  destruct (Z.ltb_spec (instant now) (instant (as_utc (en_issued (body s))))); [by intros [= <- <-]|].
  destruct (bool_decide_reflect (en_host (body s) = host)); simpl; [|by intros [= <- <-]].
  destruct (consume _ _ st) as [[[]|le] st1] eqn:Ec; intros [= <- <-].
  - apply consume_ok in Ec as [E1 E2]. symmetry in E1. to_prop. by split_and!.
  - apply consume_ok in Ec as [E1 E2]. symmetry in E1. to_prop. apply dec_stable in E1. set_solver.
  - by apply consume_err in Ec.
Qed.

Lemma sign_verifies (ed_sign : string → string) kid g : (∀ m, ed_verify (ed_sign m) m = true) → verify_signature ed_verify kid (sign ed_sign kid g) = true.
Proof.
  intros Hs. unfold verify_signature, sign. cbn [sd_algorithm sd_key_id sd_signature body].
  rewrite !bool_decide_true by done. cbn. rewrite b64_roundtrip. apply Hs.
Qed.

Lemma verify_signed (ed_sign : string → string) kid now g (st : St) :
  (∀ m, ed_verify (ed_sign m) m = true) →
  instant (as_utc (en_issued g)) <= instant now < instant (as_utc (en_expires g)) →
  verify ed_verify kid (en_host g) now (sign ed_sign kid g) st =
  match consume (en_nonce g) (en_ref g) st with
  | (Ok true, st) => (Ok g, st) | (Ok false, st) => (Err Replay, st) | (Err e, st) => (Err (LedgerFailed e), st)
  end.
Proof.
  intros Hs Ht. unfold verify. rewrite sign_verifies by done. cbn [negb body sign].
  rewrite (proj2 (Z.leb_gt _ _)), (proj2 (Z.ltb_ge _ _)), bool_decide_true by (done || lia). done.
Qed.

(** The signature covers every field: what verifies was issued, when no other message has a valid signature. *)
Lemma verified_was_issued `{!EnvelopeLaws G} kid host now (s : Sealed G) (issued : list G) (st st' : St) g :
  (∀ sig m, ed_verify sig m = true → m ∈ en_bytes <$> issued) → Forall en_valid issued → en_valid (body s) →
  verify ed_verify kid host now s st = (Ok g, st') → g ∈ issued.
Proof.
  intros Hunf Hval Hv Hs. apply verify_cases in Hs as (-> & Hs & _). unfold verify_signature in Hs.
  destruct (_ || _); [done|]. destruct (b64decode _) as [sig|]; [|done].
  apply Hunf, list_elem_of_fmap in Hs as (g & Hb & Hg). rewrite Forall_forall in Hval.
  by apply en_bytes_inj in Hb as ->; [| |auto].
Qed.

(** A run of the verifier over any arrivals; the accepted envelopes, in order. *)
Fixpoint verify_each (kid host : string) (arrivals : list (datetime * Sealed G)) (st : St) : list G * St :=
  match arrivals with
  | [] => ([], st)
  | (now, s) :: rest =>
      match verify ed_verify kid host now s st with
      | (Ok g, st) => let '(gs, st) := verify_each kid host rest st in (g :: gs, st)
      | (Err _, st) => verify_each kid host rest st
      end
  end.

Lemma verify_each_fresh kid host arrivals (st st' : St) gs :
  verify_each kid host arrivals st = (gs, st') →
  NoDup (en_nonce <$> gs) ∧ Forall (λ g, en_nonce g ∉ seen st) gs ∧ seen st ⊆ seen st'.
Proof.
  revert st gs. induction arrivals as [|[now s] rest IH]; intros st gs Hrun; cbn [verify_each] in Hrun.
  - injection Hrun as <- <-. repeat constructor. done.
  - destruct (verify _ kid host now s st) as [r st1] eqn:Ev. apply verify_cases in Ev. destruct r as [g|e].
    + destruct (verify_each kid host rest st1) as [gs' st2] eqn:Er. injection Hrun as <- <-.
      apply IH in Er as (Hn & Hf & Hsub). destruct Ev as (_ & _ & _ & _ & Hg & Hseen). split_and!; [|constructor; [done|]|set_solver].
      * rewrite fmap_cons. apply NoDup_cons. split; [|done].
        intros (k & Hk & Hin)%list_elem_of_fmap. rewrite Forall_forall in Hf.
        apply (Hf k Hin). rewrite Hseen, <- Hk. set_solver.
      * eapply Forall_impl; [exact Hf|]. intros k Hk. simpl in *. set_solver.
    + assert (seen st1 = seen st) as Es by (destruct e; naive_solver).
      apply IH in Hrun as (Hn & Hf & Hsub). by rewrite Es in Hf, Hsub.
Qed.
End SealLaws.

(** ** Laws of the rendezvous *)

Section RendezvousLaws.
Context {I R : Type} `{Queued I}.
Implicit Types (q : PullQueue I R) (evs es : list (pull_event I R)).

Lemma pull_inv_grow evs es q : pull_inv evs q → pull_inv (evs ++ es) q.
Proof.
  intros [Hq Hi Ha]. split.
  - intros host item Hin. apply elem_of_app. left. by apply Hq.
  - intros id host Hid. destruct (Hi id host Hid) as (item & ? & ?). exists item. split; [done|]. apply elem_of_app. by left.
  - intros id r Hr. destruct (Ha id r Hr) as (host & item & ? & ? & ?). exists host, item.
    split_and!; [apply elem_of_app; by left|done|apply elem_of_app; by left].
Qed.

Lemma expire_waiter_inv evs id reason q : pull_inv evs q → pull_inv evs (_expire_waiter id reason q).
Proof.
  intros [Hq Hi Ha]. unfold _expire_waiter. destruct (_results q !! id) as [[|?|?]|] eqn:E; try done. split; [done|done|].
  intros id' r. cbn. destruct (decide (id = id')) as [<-|Hn]; [by rewrite lookup_insert_eq|]. rewrite lookup_insert_ne by done. apply Ha.
Qed.

Lemma pq_poll_inv gets host reason now evs q item q' :
  pull_inv evs q → poll gets host reason now q = (item, q') →
  pull_inv evs q' ∧ match item with Some i => EAsked host i ∈ evs ∧ instant now < instant (as_utc (qi_expires i)) | None => True end.
Proof.
  revert q. induction gets as [|n IH]; intros q Hinv Hp; cbn [poll] in Hp; [by injection Hp as <- <-|].
  destruct (_queue_for host q) as [|i rest] eqn:Eq; [by injection Hp as <- <-|].
  set (q1 := mk_pull _ _ _) in Hp. assert (pull_inv evs q1) as Hinv1.
  { destruct Hinv as [Hq Hi Ha]. split; [|done|done]. intros h j. unfold _queue_for, q1. cbn.
    destruct (decide (host = h)) as [<-|Hn]; [rewrite lookup_insert_eq|rewrite lookup_insert_ne by done; apply Hq].
    cbn. intros Hj. apply Hq. rewrite Eq. by right. }
  destruct (_expired i now) eqn:Ex.
  - apply IH in Hp; [done|]. by apply expire_waiter_inv.
  - injection Hp as <- <-. split; [done|]. split; [|unfold _expired in Ex; by apply Z.leb_gt in Ex].
    destruct Hinv as [Hq _ _]. apply Hq. rewrite Eq. left.
Qed.

Lemma pq_enqueue_inv evs host item q q' :
  pull_inv evs q → enqueue host item q = Ok q' → pull_inv (evs ++ [EAsked host item]) q'.
Proof.
  intros Hinv. unfold enqueue. destruct (_results q !! qi_id item) eqn:E; [done|]. intros [= <-].
  assert (EAsked host item ∈ evs ++ [EAsked host item]) as Hnew by (apply elem_of_app; right; left).
  apply (pull_inv_grow _ [EAsked host item]) in Hinv as [Hq Hi Ha]. split.
  - intros h j. unfold _queue_for. cbn. destruct (decide (host = h)) as [<-|Hn]; [rewrite lookup_insert_eq|rewrite lookup_insert_ne by done; apply Hq].
    cbn. intros [Hj| ->%list_elem_of_singleton]%elem_of_app; [by apply Hq|done].
  - intros id h. cbn. destruct (decide (qi_id item = id)) as [<-|Hn]; [rewrite lookup_insert_eq|rewrite lookup_insert_ne by done; apply Hi].
    intros [= <-]. by exists item.
  - intros id r. cbn. destruct (decide (qi_id item = id)) as [<-|Hn]; [by rewrite lookup_insert_eq|rewrite lookup_insert_ne by done; apply Ha].
Qed.

Lemma pq_resolve_inv evs id host outcome q q' :
  pull_inv evs q → resolve id host outcome q = Ok q' →
  (∃ item, qi_id item = id ∧ EAsked host item ∈ evs) ∧
  pull_inv (evs ++ match outcome with inl r => [EAnswered id host r] | inr _ => [] end) q'.
Proof.
  intros Hinv. unfold resolve. destruct (_results q !! id) as [f|] eqn:Ef; [|done]. destruct (_issued_to q !! id) as [h|] eqn:Eh; [|done].
  destruct (bool_decide_reflect (h = host)) as [->|]; cbn; [|done]. destruct f; try done. cbn. intros [= <-].
  pose proof (pi_issued _ _ Hinv id host Eh) as (item & Hid & Hask). split; [by exists item|].
  assert (pull_inv (evs ++ match outcome with inl r => [EAnswered id host r] | inr _ => [] end) q) as [Hq Hi Ha] by by apply pull_inv_grow.
  split; [done|done|]. intros id' r. cbn.
  destruct (decide (id = id')) as [<-|Hn]; [rewrite lookup_insert_eq|rewrite lookup_insert_ne by done; apply Ha].
  destruct outcome as [r'|]; [|done]. intros [= ->]. exists host, item.
  split_and!; [apply elem_of_app; right; left|done|apply elem_of_app; by left].
Qed.

Lemma pq_finish_inv evs id q r q' :
  pull_inv evs q → finish id q = (r, q') →
  pull_inv evs q' ∧ match r with Some r => event_ok evs (EReturned id r) | None => True end.
Proof.
  intros [Hq Hi Ha]. unfold finish. destruct (_results q !! id) as [f|] eqn:E; [|by intros [= <- <-]]. intros [= <- <-]. split.
  - split; [done| |].
    + intros id' h. cbn. destruct (decide (id = id')) as [<-|Hn]; [by rewrite lookup_delete_eq|rewrite lookup_delete_ne by done; apply Hi].
    + intros id' r'. cbn. destruct (decide (id = id')) as [<-|Hn]; [by rewrite lookup_delete_eq|rewrite lookup_delete_ne by done; apply Ha].
  - destruct f as [|r|reason]; [done| |done]. cbn. destruct (Ha id r E) as (h & item & ? & ? & ?). by exists h, item.
Qed.

Lemma event_ok_grow evs es e : event_ok evs e → event_ok (evs ++ es) e.
Proof.
  destruct e as [host item|host item now|id host r|id [r|reason]]; cbn; [done| | | |done].
  - intros [? ?]. split; [apply elem_of_app; by left|done].
  - intros (item & ? & ?). exists item. split; [done|]. apply elem_of_app. by left.
  - intros (host & item & ? & ? & ?). exists host, item. split_and!; [apply elem_of_app; by left|done|apply elem_of_app; by left].
Qed.

Lemma pull_step_inv op evs q es q' :
  pull_inv evs q → pull_step op q = (es, q') → pull_inv (evs ++ es) q' ∧ ∀ e, e ∈ es → event_ok evs e.
Proof.
  intros Hinv. destruct op as [host item|gets host reason now|id host outcome|id]; cbn [pull_step].
  - destruct (enqueue host item q) as [q1|] eqn:E; intros [= <- <-].
    + split; [by eapply pq_enqueue_inv|]. by intros ? ->%list_elem_of_singleton.
    + split; [by rewrite app_nil_r|]. by intros ? ?%elem_of_nil.
  - destruct (poll gets host reason now q) as [[item|] q1] eqn:E; intros [= <- <-]; apply pq_poll_inv with (evs := evs) in E as [Hq1 Hi]; try done.
    + split; [by apply pull_inv_grow|]. by intros ? ->%list_elem_of_singleton.
    + split; [by rewrite app_nil_r|]. by intros ? ?%elem_of_nil.
  - destruct (resolve id host outcome q) as [q1|] eqn:E; intros [= <- <-].
    + destruct (pq_resolve_inv evs id host outcome q q1 Hinv E) as [Ha Hq1]. split; [done|].
      destruct outcome; [by intros ? ->%list_elem_of_singleton|by intros ? ?%elem_of_nil].
    + split; [by rewrite app_nil_r|]. by intros ? ?%elem_of_nil.
  - destruct (finish id q) as [[r|] q1] eqn:E; intros [= <- <-]; apply pq_finish_inv with (evs := evs) in E as [Hq1 Hr]; try done.
    + split; [by apply pull_inv_grow|]. by intros ? ->%list_elem_of_singleton.
    + split; [by rewrite app_nil_r|]. by intros ? ?%elem_of_nil.
Qed.

Lemma pull_run_inv ops evs q evs' q' :
  pull_inv evs q → (∀ e, e ∈ evs → event_ok evs e) → pull_run ops evs q = (evs', q') →
  pull_inv evs' q' ∧ ∀ e, e ∈ evs' → event_ok evs' e.
Proof.
  revert evs q. induction ops as [|op ops IH]; intros evs q Hinv He Hrun; cbn [pull_run] in Hrun; [by injection Hrun as <- <-|].
  destruct (pull_step op q) as [es q1] eqn:E. destruct (pull_step_inv op evs q es q1 Hinv E) as [Hq1 Hes].
  apply IH in Hrun; [done|done|]. intros e [Hin|Hin]%elem_of_app; apply event_ok_grow; auto.
Qed.

(** Every event of every run of the queue is accounted for. *)
Lemma pull_runs_ok ops evs q :
  pull_run ops [] empty_pull = (evs, q) → ∀ e, e ∈ evs → event_ok evs e.
Proof.
  intros Hrun. eapply pull_run_inv; [|by intros ? ?%elem_of_nil|exact Hrun].
  split; cbn; [|by intros id host; rewrite lookup_empty|by intros id r; rewrite lookup_empty].
  intros host item. unfold _queue_for. cbn. rewrite lookup_empty. by intros ?%elem_of_nil.
Qed.

(** A waiting call ends: whatever the state, finishing it returns something and forgets its id. *)
Lemma finish_total id q : is_Some (_results q !! id) → ∃ r q', finish id q = (Some r, q') ∧ _results q' !! id = None.
Proof. intros [f E]. unfold finish. rewrite E. do 2 eexists. split; [done|]. cbn. apply lookup_delete_eq. Qed.

(** A poll passes over what expired and reaches the first entry that did not. *)
Lemma poll_reaches stale gets host reason now q item rest :
  _queue_for host q = stale ++ item :: rest → Forall (λ i, _expired i now = true ∧ qi_id i ≠ qi_id item) stale →
  _expired item now = false → (length stale < gets)%nat →
  ∃ q', poll gets host reason now q = (Some item, q') ∧
    _results q' !! qi_id item = _results q !! qi_id item ∧ _issued_to q' = _issued_to q.
Proof.
  revert gets q. induction stale as [|i stale IH]; intros gets q Hq Hst Hx Hg; (destruct gets as [|gets]; [cbn in Hg; lia|]);
    cbn [poll]; rewrite Hq; cbn [app].
  - rewrite Hx. eexists. split; [done|]. done.
  - apply Forall_cons in Hst as [[-> Hi] Hst].
    set (q1 := _expire_waiter _ _ _).
    assert (_queue_for host q1 = stale ++ item :: rest ∧ _results q1 !! qi_id item = _results q !! qi_id item ∧ _issued_to q1 = _issued_to q)
      as (H1 & H2 & H3).
    { subst q1. unfold _expire_waiter, _queue_for. cbn. destruct (_results q !! qi_id i) as [[| |]|]; cbn;
        rewrite lookup_insert_eq, ?(lookup_insert_ne (_results q)) by done; done. }
    destruct (IH gets q1) as (q' & ? & ? & ?); [done..|cbn in Hg; lia|]. exists q'. split_and!; congruence.
Qed.

(** The reply of the right host to a waiting call is what the call returns. *)
Lemma resolve_finish id host r q :
  _results q !! id = Some Waiting → _issued_to q !! id = Some host →
  ∃ q1 q2, resolve id host (inl r) q = Ok q1 ∧ finish id q1 = (Some (Ok r), q2).
Proof.
  intros Hr Hi. unfold resolve. rewrite Hr, Hi, bool_decide_true by done. cbn. do 2 eexists. split; [done|].
  unfold finish. cbn. by rewrite lookup_insert_eq.
Qed.
End RendezvousLaws.
