(* ===== verification/JobQueue.v ===== *)
(** The in-memory dispatch channel ([src/fathom/core/remediation/job_queue.py]).

    Coroutines interleave at their awaits: each operation below is what runs between two awaits, so
    a run of the queue is a list of operations ([run]), and every claim is about every such list.
    The future of a dispatch is a tagged value; [secrets.token_hex] supplies the job ids. *)

From stdpp Require Import gmap.
From S2P Require Import Prelude PyStr Json PyTime AuditLog Jobs Signing.

(** ** Payloads *)

Definition _MAX_RESULT_ITEMS : nat := 10000.
Definition _MAX_AUDIT_RECORDS : nat := 20000.
Definition _MAX_FIELD_CHARS : nat := 4096.

Record ExecResultPayload := mk_exec_payload {
  e_entry_id : string; e_action : string; e_status : string; e_detail : string;
}.

Record JobResultPayload := mk_payload {
  job_id : string; p_plan_id : string; p_mode : JobMode; drift : list (string * string);
  results : list ExecResultPayload; audit : list AuditRecord;
}.

Definition str_between (lo hi : nat) (s : string) : bool :=
  (lo <=? String.length s) && (String.length s <=? hi).

(** The field constraints of the three models: what the route accepts. *)
Definition exec_payload_ok (e : ExecResultPayload) : bool :=
  str_between 0 _MAX_FIELD_CHARS (e_entry_id e) && str_between 0 64 (e_action e)
  && str_between 0 64 (e_status e) && str_between 0 _MAX_FIELD_CHARS (e_detail e).

Definition audit_payload_ok (r : AuditRecord) : bool :=
  str_between 0 64 (ts r) && str_between 0 255 (actor r) && str_between 0 64 (AuditLog.action r)
  && str_between 0 _MAX_FIELD_CHARS (target r) && str_between 0 64 (result_ r)
  && str_between 0 128 (prev_hash r) && str_between 0 128 (row_hash r).

Definition payload_ok (p : JobResultPayload) : bool :=
  str_between 1 _MAX_FIELD_CHARS (job_id p) && str_between 1 _MAX_FIELD_CHARS (p_plan_id p)
  && (length (results p) <=? _MAX_RESULT_ITEMS) && (length (audit p) <=? _MAX_AUDIT_RECORDS)
  && forallb exec_payload_ok (results p) && forallb audit_payload_ok (audit p).

(** ** The queue *)

Inductive future := Pending | Resolved (p : JobResultPayload) | Failed (reason : string).

Definition done_ (f : future) : bool := match f with Pending => false | _ => true end.

Record JobQueue := mk_queue {
  _queues : gmap string (list (string * SignedJob));
  _results : gmap string future;
  _job_host : gmap string string;
  _job_nonce : gmap string string;
}.

Definition empty_queue : JobQueue := mk_queue ∅ ∅ ∅ ∅.

Definition _queue_for (host : string) (q : JobQueue) : list (string * SignedJob) :=
  default [] (_queues q !! host).

Definition set_queue (host : string) (l : list (string * SignedJob)) (q : JobQueue) : JobQueue :=
  mk_queue (<[host := l]> (_queues q)) (_results q) (_job_host q) (_job_nonce q).

Definition _expired (signed : SignedJob) (now : datetime) : bool :=
  (instant (as_utc (expires_at (job signed))) <=? instant now)%Z.

Definition _fail (jid reason : string) (q : JobQueue) : JobQueue :=
  match _results q !! jid with
  | Some Pending => mk_queue (_queues q) (<[jid := Failed reason]> (_results q)) (_job_host q) (_job_nonce q)
  | _ => q
  end.

(** The part of [enqueue_and_wait] before its await; [jid] is the fresh token. *)
Definition enqueue (jid : string) (signed : SignedJob) (host : string) (q : JobQueue) : JobQueue :=
  set_queue host (_queue_for host q ++ [(jid, signed)])
    (mk_queue (_queues q) (<[jid := Pending]> (_results q)) (<[jid := host]> (_job_host q))
       (<[jid := nonce (job signed)]> (_job_nonce q))).

(** The part after: the result, or [DispatchTimeoutError] (also when the wait timed out, the future
    still pending), and the cleanup of its [finally]. *)
Definition finish (jid : string) (q : JobQueue) : option (result string JobResultPayload) * JobQueue :=
  match _results q !! jid with
  | None => (None, q)
  | Some f =>
      (Some (match f with
             | Resolved p => Ok p
             | _ => Err "DispatchTimeoutError"
             end),
       mk_queue (_queues q) (delete jid (_results q)) (delete jid (_job_host q)) (delete jid (_job_nonce q)))
  end.

(** [poll]: [gets] bounds how many queue entries are taken before the deadline. *)
Fixpoint poll (gets : nat) (host : string) (now : datetime) (q : JobQueue)
    : option (string * SignedJob) * JobQueue :=
  match gets with
  | 0 => (None, q)
  | S n =>
      match _queue_for host q with
      | [] => (None, q)
      | (jid, signed) :: rest =>
          let q' := set_queue host rest q in
          if _expired signed now
          then poll n host now (_fail jid "job expired before an agent claimed it" q')
          else (Some (jid, signed), q')
      end
  end.

Definition owner_of (jid : string) (q : JobQueue) : option string := _job_host q !! jid.
Definition nonce_of (jid : string) (q : JobQueue) : option string := _job_nonce q !! jid.

Inductive JobCorrelationError := NoDispatch | WrongHost | AlreadyResolved.

Definition resolve (host : string) (p : JobResultPayload) (q : JobQueue) : result JobCorrelationError JobQueue :=
  match _job_host q !! job_id p with
  | None => Err NoDispatch
  | Some expected =>
      if negb (bool_decide (expected = host)) then Err WrongHost
      else match _results q !! job_id p with
           | None => Err AlreadyResolved
           | Some f =>
               if done_ f then Err AlreadyResolved
               else Ok (mk_queue (_queues q) (<[job_id p := Resolved p]> (_results q)) (_job_host q) (_job_nonce q))
           end
  end.

(** ** Runs and their events *)

Inductive qop :=
| OpEnqueue (jid host : string) (signed : SignedJob)
| OpPoll (host : string) (now : datetime) (gets : nat)
| OpResolve (host : string) (p : JobResultPayload)
| OpFinish (jid : string).

Inductive event :=
| EvEnqueue (jid host : string) (signed : SignedJob)
| EvClaim (jid host : string) (signed : SignedJob) (now : datetime)
| EvResolve (jid host : string) (p : JobResultPayload)
| EvReturn (jid : string) (r : result string JobResultPayload).

Definition qstep (op : qop) (q : JobQueue) : list event * JobQueue :=
  match op with
  | OpEnqueue jid host signed => ([EvEnqueue jid host signed], enqueue jid signed host q)
  | OpPoll host now gets =>
      match poll gets host now q with
      | (Some (jid, signed), q') => ([EvClaim jid host signed now], q')
      | (None, q') => ([], q')
      end
  | OpResolve host p =>
      match resolve host p q with
      | Ok q' => ([EvResolve (job_id p) host p], q')
      | Err _ => ([], q)
      end
  | OpFinish jid =>
      match finish jid q with
      | (Some r, q') => ([EvReturn jid r], q')
      | (None, q') => ([], q')
      end
  end.

Fixpoint run (ops : list qop) (evs : list event) (q : JobQueue) : list event * JobQueue :=
  match ops with
  | [] => (evs, q)
  | op :: rest => let '(es, q') := qstep op q in run rest (evs ++ es) q'
  end.

Definition enqueued (op : qop) : option string := match op with OpEnqueue jid _ _ => Some jid | _ => None end.
Definition ev_enqueue (e : event) : option string := match e with EvEnqueue jid _ _ => Some jid | _ => None end.
Definition ev_claim (e : event) : option string := match e with EvClaim jid _ _ _ => Some jid | _ => None end.
Definition ev_resolve (e : event) : option string := match e with EvResolve jid _ _ => Some jid | _ => None end.

(** What holds between the events so far and the state. *)
Record qinv (evs : list event) (q : JobQueue) : Prop := {
  q_queue h jid s : (jid, s) ∈ _queue_for h q →
    EvEnqueue jid h s ∈ evs ∧ jid ∉ omap ev_claim evs;
  q_nodup h : NoDup (_queue_for h q).*1;
  q_claims : NoDup (omap ev_claim evs);
  q_claim_ok jid h s now : EvClaim jid h s now ∈ evs →
    EvEnqueue jid h s ∈ evs ∧ (instant now < instant (as_utc (expires_at (job s))))%Z;
  q_host jid h : _job_host q !! jid = Some h → ∃ s, EvEnqueue jid h s ∈ evs;
  q_resolved : NoDup (omap ev_resolve evs);
  q_resolve_ok jid h p : EvResolve jid h p ∈ evs →
    job_id p = jid ∧ (∃ s, EvEnqueue jid h s ∈ evs) ∧ _results q !! jid ≠ Some Pending;
  q_future jid p : _results q !! jid = Some (Resolved p) → ∃ h, EvResolve jid h p ∈ evs;
  q_return jid p : EvReturn jid (Ok p) ∈ evs → ∃ h, EvResolve jid h p ∈ evs;
  q_enqueue_once jid h s h' s' : EvEnqueue jid h s ∈ evs → EvEnqueue jid h' s' ∈ evs → h = h' ∧ s = s';
}.

(** ** The invariant is inductive *)

Lemma queue_for_set host h l q :
  _queue_for h (set_queue host l q) = if decide (h = host) then l else _queue_for h q.
Proof.
  unfold _queue_for, set_queue. simpl. case_decide as E; [subst; by rewrite lookup_insert_eq|].
  by rewrite lookup_insert_ne by done.
Qed.

Lemma elem_of_omap_claim jid (evs : list event) : jid ∈ omap ev_claim evs ↔ ∃ h s now, EvClaim jid h s now ∈ evs.
Proof.
  rewrite list_elem_of_omap. split; [|naive_solver]. intros (e & He & E). destruct e; simplify_eq/=. eauto.
Qed.

Lemma elem_of_omap_resolve jid (evs : list event) : jid ∈ omap ev_resolve evs ↔ ∃ h p, EvResolve jid h p ∈ evs.
Proof.
  rewrite list_elem_of_omap. split; [|naive_solver]. intros (e & He & E). destruct e; simplify_eq/=. eauto.
Qed.

Lemma elem_of_omap_enqueue jid (evs : list event) : jid ∈ omap ev_enqueue evs ↔ ∃ h s, EvEnqueue jid h s ∈ evs.
Proof.
  rewrite list_elem_of_omap. split; [|naive_solver]. intros (e & He & E). destruct e; simplify_eq/=. eauto.
Qed.

(** Membership in a list of events extended by one. *)
Lemma elem_of_snoc {A} (x y : A) (l : list A) : x ∈ l ++ [y] ↔ x ∈ l ∨ x = y.
Proof. by rewrite elem_of_app, list_elem_of_singleton. Qed.

Lemma fail_queues jid r q h : _queue_for h (_fail jid r q) = _queue_for h q.
Proof. unfold _fail. by repeat case_match. Qed.

Lemma fail_results jid r q k : _results (_fail jid r q) !! k = _results q !! k ∨
  (_results q !! k = Some Pending ∧ _results (_fail jid r q) !! k = Some (Failed r)).
Proof.
  unfold _fail. repeat case_match; auto. simpl. destruct (decide (k = jid)) as [->|].
  - rewrite lookup_insert_eq. auto.
  - rewrite lookup_insert_ne by done. auto.
Qed.

Lemma fail_host jid r q : _job_host (_fail jid r q) = _job_host q.
Proof. unfold _fail. by repeat case_match. Qed.

Lemma fail_inv jid r evs q : qinv evs q → qinv evs (_fail jid r q).
Proof.
  intros []. split; try done; intros *; rewrite ?fail_queues, ?fail_host; auto.
  - intros H. destruct (q_resolve_ok0 _ _ _ H) as (? & ? & ?). split_and!; [done..|].
    destruct (fail_results jid r q jid0) as [->|[_ ->]]; done.
  - destruct (fail_results jid r q jid0) as [->|[_ ->]]; [auto|done].
Qed.

(** Taking the first entry of a host's queue. *)
Lemma pop_inv evs q host jid s rest :
  qinv evs q → _queue_for host q = (jid, s) :: rest →
  qinv evs (set_queue host rest q) ∧ EvEnqueue jid host s ∈ evs ∧ jid ∉ omap ev_claim evs ∧
  ∀ h s', (jid, s') ∉ _queue_for h (set_queue host rest q).
Proof.
  intros Hinv Hq. pose proof Hinv as []. assert ((jid, s) ∈ _queue_for host q) as Hin by (rewrite Hq; left).
  destruct (q_queue0 _ _ _ Hin) as [He Hc]. pose proof (q_nodup0 host) as Hnd. rewrite Hq in Hnd.
  apply NoDup_cons in Hnd as [Hjid Hrest]. split_and!; [|done|done|].
  - split; try done; intros *; rewrite queue_for_set; case_decide; subst; auto.
    intros Hr. apply q_queue0. rewrite Hq. by right.
  - intros h s'. rewrite queue_for_set. case_decide as E; subst.
    + intros Hr. apply Hjid. by apply list_elem_of_fmap_2 with (f := fst) in Hr.
    + intros Hr. apply q_queue0 in Hr as [He' _]. by destruct (q_enqueue_once0 _ _ _ _ _ He He').
Qed.

(** Events that change no list of the invariant extend it. *)
Lemma claim_inv evs q host jid s now :
  qinv evs q → EvEnqueue jid host s ∈ evs → jid ∉ omap ev_claim evs →
  (∀ h s', (jid, s') ∉ _queue_for h q) →
  (instant now < instant (as_utc (expires_at (job s))))%Z →
  qinv (evs ++ [EvClaim jid host s now]) q.
Proof.
  intros [] He Hc Hno Hnow. split; intros *; rewrite ?omap_app, ?elem_of_snoc; simpl; rewrite ?app_nil_r; auto.
  - intros Hin. destruct (q_queue0 _ _ _ Hin) as [H1 H2]. split; [by left|].
    apply not_elem_of_app. split; [done|]. intros ->%list_elem_of_singleton. by apply Hno in Hin.
  - by apply NoDup_snoc.
  - intros [H|H]; [destruct (q_claim_ok0 _ _ _ _ H); auto|]. simplify_eq. auto.
  - intros H. destruct (q_host0 _ _ H) as [s' H']. exists s'. rewrite elem_of_snoc. auto.
  - intros [H|H]; [|done]. destruct (q_resolve_ok0 _ _ _ H) as (? & (s' & ?) & ?).
    split_and!; [done| |done]. exists s'. rewrite elem_of_snoc. auto.
  - intros H. destruct (q_future0 _ _ H) as [h H']. exists h. rewrite elem_of_snoc. auto.
  - intros [H|H]; [|done]. destruct (q_return0 _ _ H) as [h H']. exists h. rewrite elem_of_snoc. auto.
  - intros [H1|?] [H2|?]; [eauto|done..].
Qed.

Lemma poll_inv gets host now evs q r q' :
  qinv evs q → poll gets host now q = (r, q') →
  match r with
  | None => qinv evs q'
  | Some (jid, s) => qinv (evs ++ [EvClaim jid host s now]) q'
  end.
Proof.
  revert q. induction gets as [|n IH]; intros q Hinv Hp; simpl in Hp; [by simplify_eq|].
  destruct (_queue_for host q) as [|[jid s] rest] eqn:Eq; [by simplify_eq|].
  destruct (pop_inv _ _ _ _ _ _ Hinv Eq) as (Hpop & He & Hc & Hno).
  destruct (_expired s now) eqn:Ex.
  - by apply IH in Hp; [|apply fail_inv].
  - simplify_eq. apply claim_inv; [done..|]. unfold _expired in Ex. to_prop. lia.
Qed.

Lemma enqueue_inv evs q jid s host :
  qinv evs q → jid ∉ omap ev_enqueue evs → qinv (evs ++ [EvEnqueue jid host s]) (enqueue jid s host q).
Proof.
  intros [] Hf. rewrite elem_of_omap_enqueue in Hf.
  assert (∀ h k, EvEnqueue jid h k ∉ evs) as Hf' by naive_solver.
  split; intros *; rewrite ?omap_app, ?elem_of_snoc; simpl; rewrite ?app_nil_r; auto.
  - unfold enqueue. rewrite queue_for_set. case_decide as E; [subst; rewrite elem_of_snoc|].
    + intros [H|H].
      * destruct (q_queue0 _ _ _ H). auto.
      * simplify_eq. split; [auto|]. intros (h & k & now & Hc)%elem_of_omap_claim.
        apply q_claim_ok0 in Hc as [Hc _]. by apply Hf' in Hc.
    + intros H. destruct (q_queue0 h jid0 s0 H). auto.
  - unfold enqueue. rewrite queue_for_set. case_decide as E; [subst|by apply q_nodup0].
    rewrite fmap_app. apply NoDup_snoc; [done|]. intros ([j k] & E & H)%list_elem_of_fmap. simpl in E. subst j.
    apply q_queue0 in H as [H _]. by apply Hf' in H.
  - intros [H|H]; [|done]. destruct (q_claim_ok0 _ _ _ _ H). auto.
  - destruct (decide (jid0 = jid)) as [->|Hne].
    + rewrite lookup_insert_eq. intros [= ->]. exists s. rewrite elem_of_snoc. auto.
    + rewrite lookup_insert_ne by done. intros H. destruct (q_host0 _ _ H) as [k Hk].
      exists k. rewrite elem_of_snoc. auto.
  - intros [H|H]; [|done]. destruct (q_resolve_ok0 _ _ _ H) as (? & (k & Hk) & ?).
    split_and!; [done|exists k; rewrite elem_of_snoc; auto|].
    rewrite lookup_insert_ne; [done|]. intros <-. by apply Hf' in Hk.
  - destruct (decide (jid0 = jid)) as [->|Hne]; [by rewrite lookup_insert_eq|].
    rewrite lookup_insert_ne by done. intros H. destruct (q_future0 _ _ H) as [h Hh].
    exists h. rewrite elem_of_snoc. auto.
  - intros [H|H]; [|done]. destruct (q_return0 _ _ H) as [h Hh]. exists h. rewrite elem_of_snoc. auto.
  - intros [H1|H1] [H2|H2]; simplify_eq; eauto; by (apply Hf' in H1 || apply Hf' in H2).
Qed.

Lemma resolve_inv evs q host p q' :
  qinv evs q → resolve host p q = Ok q' → qinv (evs ++ [EvResolve (job_id p) host p]) q'.
Proof.
  unfold resolve. intros [] H.
  destruct (_job_host q !! job_id p) as [eh|] eqn:Eh; [|done].
  destruct (bool_decide_reflect (eh = host)) as [->|]; simpl in H; [|done].
  destruct (_results q !! job_id p) as [f|] eqn:Ef; [|done]. destruct f; simplify_eq/=.
  assert (job_id p ∉ omap ev_resolve evs) as Hnr.
  { intros (h & p' & Hr)%elem_of_omap_resolve. by apply q_resolve_ok0 in Hr as (_ & _ & ?). }
  split; intros *; rewrite ?omap_app, ?elem_of_snoc; simpl; rewrite ?app_nil_r; auto.
  - intros H. destruct (q_queue0 h jid s H). auto.
  - exact (q_nodup0 h).
  - intros [H|H]; [|done]. destruct (q_claim_ok0 _ _ _ _ H). auto.
  - intros H. destruct (q_host0 _ _ H) as [k Hk]. exists k. rewrite elem_of_snoc. auto.
  - by apply NoDup_snoc.
  - intros [H|H].
    + destruct (q_resolve_ok0 _ _ _ H) as (? & (k & Hk) & ?).
      split_and!; [done|exists k; rewrite elem_of_snoc; auto|].
      destruct (decide (jid = job_id p)) as [->|]; [by rewrite lookup_insert_eq|by rewrite lookup_insert_ne].
    + simplify_eq. split_and!; [done| |by rewrite lookup_insert_eq].
      destruct (q_host0 _ _ Eh) as [k Hk]. exists k. rewrite elem_of_snoc. auto.
  - destruct (decide (jid = job_id p)) as [->|].
    + rewrite lookup_insert_eq. intros [= <-]. exists host. rewrite elem_of_snoc. auto.
    + rewrite lookup_insert_ne by done. intros H. destruct (q_future0 _ _ H) as [h Hh].
      exists h. rewrite elem_of_snoc. auto.
  - intros [H|H]; [|done]. destruct (q_return0 _ _ H) as [h Hh]. exists h. rewrite elem_of_snoc. auto.
  - intros [H1|H1] [H2|H2]; simplify_eq; eauto.
Qed.

Lemma finish_inv evs q jid r q' :
  qinv evs q → finish jid q = (Some r, q') → qinv (evs ++ [EvReturn jid r]) q'.
Proof.
  unfold finish. intros [] H. destruct (_results q !! jid) as [f|] eqn:Ef; simplify_eq.
  split; intros *; rewrite ?omap_app, ?elem_of_snoc; simpl; rewrite ?app_nil_r; auto.
  - intros H. destruct (q_queue0 h jid0 s H). auto.
  - exact (q_nodup0 h).
  - intros [H|H]; [|done]. destruct (q_claim_ok0 _ _ _ _ H). auto.
  - intros [_ H]%lookup_delete_Some. destruct (q_host0 _ _ H) as [k Hk]. exists k. rewrite elem_of_snoc. auto.
  - intros [H|H]; [|done]. destruct (q_resolve_ok0 _ _ _ H) as (? & (k & Hk) & ?).
    split_and!; [done|exists k; rewrite elem_of_snoc; auto|]. by intros [_ ?]%lookup_delete_Some.
  - intros [_ H]%lookup_delete_Some. destruct (q_future0 _ _ H) as [h Hh]. exists h. rewrite elem_of_snoc. auto.
  - intros [H|H].
    + destruct (q_return0 _ _ H) as [h Hh]. exists h. rewrite elem_of_snoc. auto.
    + destruct f; simplify_eq. destruct (q_future0 _ _ Ef) as [h Hh]. exists h. rewrite elem_of_snoc. auto.
  - intros [H1|H1] [H2|H2]; simplify_eq; eauto.
Qed.

Lemma qstep_inv evs q op :
  qinv evs q → (∀ jid, enqueued op = Some jid → jid ∉ omap ev_enqueue evs) →
  qinv (evs ++ (qstep op q).1) (qstep op q).2 ∧
  omap ev_enqueue (evs ++ (qstep op q).1) = omap ev_enqueue evs ++ omap enqueued [op].
Proof.
  intros Hinv Hf. destruct op as [jid host s|host now gets|host p|jid]; simpl in *.
  - split; [apply enqueue_inv; auto|by rewrite omap_app].
  - destruct (poll gets host now q) as [[[jid s]|] q'] eqn:E; simpl; rewrite ?omap_app, ?app_nil_r; simpl;
      rewrite ?app_nil_r; (split; [|done]); by apply (poll_inv _ _ _ _ _ _ _ Hinv) in E.
  - destruct (resolve host p q) as [q'|e] eqn:E; simpl; rewrite ?omap_app, ?app_nil_r; simpl;
      rewrite ?app_nil_r; (split; [|done]); [by apply resolve_inv with q|done].
  - destruct (finish jid q) as [[r|] q'] eqn:E; simpl; rewrite ?omap_app, ?app_nil_r; simpl;
      rewrite ?app_nil_r; (split; [|done]); [by apply finish_inv with q|].
    unfold finish in E. case_match; by simplify_eq.
Qed.

Lemma run_inv ops evs q :
  qinv evs q → NoDup (omap ev_enqueue evs ++ omap enqueued ops) →
  qinv (run ops evs q).1 (run ops evs q).2.
Proof.
  revert evs q. induction ops as [|op ops IH]; intros evs q Hinv Hnd; [done|]. simpl.
  assert (∀ jid, enqueued op = Some jid → jid ∉ omap ev_enqueue evs) as Hf.
  { intros jid E Hin. apply NoDup_app in Hnd as (_ & Hnd & _). apply (Hnd jid Hin).
    apply list_elem_of_omap. exists op. split; [left|done]. }
  destruct (qstep_inv evs q op Hinv Hf) as [Hinv' E].
  destruct (qstep op q) as [es q']. simpl in *. apply IH; [done|].
  rewrite E, <- app_assoc. by destruct (enqueued op).
Qed.

Lemma empty_inv : qinv [] empty_queue.
Proof. split; intros *; simpl; rewrite ?elem_of_nil; try done. all: apply NoDup_nil_2 || done. Qed.

Lemma run_empty_inv ops :
  NoDup (omap enqueued ops) → qinv (run ops [] empty_queue).1 (run ops [] empty_queue).2.
Proof. intros H. apply run_inv; [apply empty_inv|done]. Qed.

(** ** Properties *)

(** with fresh job ids, in every run: a job is claimed at most once, only by a poll of the host
    it was enqueued for, and only before it expires. *)
Theorem claimed_once_by_its_host ops :
  NoDup (omap enqueued ops) →
  let evs := (run ops [] empty_queue).1 in
  NoDup (omap ev_claim evs) ∧
  ∀ jid h s now, EvClaim jid h s now ∈ evs →
    EvEnqueue jid h s ∈ evs ∧ (instant now < instant (as_utc (expires_at (job s))))%Z.
Proof. intros H evs. pose proof (run_empty_inv ops H) as []. by split. Qed.

(** with fresh job ids, in every run: a dispatch is resolved at most once, by the host it was
    enqueued for, and what [enqueue_and_wait] returns is the payload of that host for that job. *)
Theorem resolved_once_by_its_host ops :
  NoDup (omap enqueued ops) →
  let evs := (run ops [] empty_queue).1 in
  NoDup (omap ev_resolve evs) ∧
  ∀ jid p, EvReturn jid (Ok p) ∈ evs →
    ∃ h s, EvResolve jid h p ∈ evs ∧ EvEnqueue jid h s ∈ evs ∧ job_id p = jid.
Proof.
  intros H evs. pose proof (run_empty_inv ops H) as []. split; [done|]. intros jid p Hr.
  destruct (q_return0 _ _ Hr) as [h Hh]. destruct (q_resolve_ok0 _ _ _ Hh) as (E & [s Hs] & _).
  by exists h, s.
Qed.

Lemma poll_skips_expired gets host now q expired jid s rest :
  _queue_for host q = expired ++ (jid, s) :: rest →
  Forall (λ e, _expired e.2 now = true) expired → _expired s now = false → length expired < gets →
  ∃ q', poll gets host now q = (Some (jid, s), q') ∧ _queue_for host q' = rest.
Proof.
  revert gets q. induction expired as [|[k e] expired IH]; intros gets q Hq Hex Hs Hg;
    (destruct gets as [|n]; simpl in Hg; [lia|]); simpl; rewrite Hq; simpl.
  - rewrite Hs. eexists. split; [done|]. rewrite queue_for_set. by rewrite decide_True.
  - inversion_clear Hex as [|? ? He Hex']. simpl in He. rewrite He. apply IH; [|done..|lia].
    rewrite fail_queues, queue_for_set. by rewrite decide_True.
Qed.

(** A poll with time for enough entries delivers the oldest job of the host that has not
    expired, dropping only expired ones before it. *)
Theorem poll_delivers_oldest_live gets host now q expired jid s rest :
  _queue_for host q = expired ++ (jid, s) :: rest →
  Forall (λ e, _expired e.2 now = true) expired → _expired s now = false → length expired < gets →
  ∃ q', poll gets host now q = (Some (jid, s), q') ∧ _queue_for host q' = rest.
Proof. intros Hq Hex Hs Hg. by apply (poll_skips_expired gets host now q expired). Qed.

(** ** Witnesses *)

Definition demo_payload (jid : string) : JobResultPayload := mk_payload jid "p1" EXECUTE [] [] [].

(** A dispatch that is claimed and resolved, a spoofed result from another host, a second result. *)
Definition demo_ops : list qop :=
  [OpEnqueue "j1" "host-1" demo_signed; OpEnqueue "j2" "host-2" demo_signed;
   OpPoll "host-2" (at_second 900) 5; OpPoll "host-1" (at_second 1) 5;
   OpResolve "host-2" (demo_payload "j1"); OpResolve "host-1" (demo_payload "j1");
   OpResolve "host-1" (demo_payload "j1"); OpFinish "j1"; OpFinish "j2"].

Example demo_events : (run demo_ops [] empty_queue).1 =
  [EvEnqueue "j1" "host-1" demo_signed; EvEnqueue "j2" "host-2" demo_signed;
   EvClaim "j1" "host-1" demo_signed (at_second 1); EvResolve "j1" "host-1" (demo_payload "j1");
   EvReturn "j1" (Ok (demo_payload "j1")); EvReturn "j2" (Err "DispatchTimeoutError")].
Proof. vm_compute. reflexivity. Qed.

Lemma demo_ops_fresh : NoDup (omap enqueued demo_ops).
Proof. apply (bool_decide_unpack _). vm_compute. exact I. Qed.

Lemma claimed_once_by_its_host_witness : NoDup (omap ev_claim (run demo_ops [] empty_queue).1).
Proof. exact (proj1 (claimed_once_by_its_host demo_ops demo_ops_fresh)). Defined.

Lemma resolved_once_by_its_host_witness :
  ∃ h s, EvResolve "j1" h (demo_payload "j1") ∈ (run demo_ops [] empty_queue).1 ∧
         EvEnqueue "j1" h s ∈ (run demo_ops [] empty_queue).1 ∧ job_id (demo_payload "j1") = "j1".
Proof.
  apply (proj2 (resolved_once_by_its_host demo_ops demo_ops_fresh)). rewrite demo_events.
  do 4 right. left.
Defined.

Definition late_queue : JobQueue := enqueue "j2" (ed25519_sign toy_sign "k1"
  (DScan (mk_scan_job "fedcba9876543210" (utc 0) (utc (seconds 1000)) "host-1" "/srv" METADATA))) "host-1"
  (enqueue "j1" demo_signed "host-1" empty_queue).

Lemma poll_delivers_oldest_live_witness :
  ∃ jid s q', poll 2 "host-1" (at_second 600) late_queue = (Some (jid, s), q') ∧ jid = "j2".
Proof.
  eexists "j2", _.
  destruct (poll_delivers_oldest_live 2 "host-1" (at_second 600) late_queue [("j1", demo_signed)] "j2"
    (ed25519_sign toy_sign "k1"
      (DScan (mk_scan_job "fedcba9876543210" (utc 0) (utc (seconds 1000)) "host-1" "/srv" METADATA))) [])
    as (q' & H & _); [vm_compute; reflexivity|by repeat constructor|vm_compute; reflexivity|simpl; lia|].
  exists q'. split; [exact H|reflexivity].
Defined.
