(* ===== verification/Fs.v ===== *)
(** The file-system calls that the actor makes ([os.*] of Python over the POSIX calls they wrap).

    One file system: a map from inode numbers to nodes; directories map names to inodes, so hard
    links are two names of one inode.  Every call first takes one step of a schedule: what other
    processes do in between ([interfere]) and whether the kernel refuses the call ([fault], an
    errno such as EXDEV or EACCES).  Resolution of absolute paths is the kernel's: the parameter
    [namei] of the users of this file. *)

From stdpp Require Import gmap.
From S2P Require Import Prelude PyStr.

Inductive node :=
| NFile (bytes : string)
| NDir (entries : gmap string Z)
| NLink (text : string).

#[export] Instance node_eq_dec : EqDecision node.
Proof. solve_decision. Defined.

Abbreviation nodes_t := (gmap Z node).

Record sysstep := mk_step { interfere : nodes_t → nodes_t; fault : option Z }.

Record os := mk_os { nodes : nodes_t; sched : list sysstep }.

Definition ENOENT : Z := 2.
Definition EEXIST : Z := 17.
Definition ENOTDIR : Z := 20.
Definition EISDIR : Z := 21.
Definition EINVAL : Z := 22.
Definition ENOTEMPTY : Z := 39.
Definition ELOOP : Z := 40.
Definition EPERM : Z := 1.

(** A system call: an errno or a value. *)
Abbreviation sys A := (stM os (result Z A)).

Definition call {A} (f : nodes_t → result Z (A * nodes_t)) : sys A := λ w,
  let step := hd (mk_step id None) (sched w) in
  let ns := interfere step (nodes w) in
  match fault step with
  | Some e => (Err e, mk_os ns (tail (sched w)))
  | None => match f ns with
            | Ok (a, ns') => (Ok a, mk_os ns' (tail (sched w)))
            | Err e => (Err e, mk_os ns (tail (sched w)))
            end
  end.

Definition entries_of (ns : nodes_t) (d : Z) : option (gmap string Z) :=
  match ns !! d with Some (NDir es) => Some es | _ => None end.

(** The inode a name of a directory denotes. *)
Definition lookup_name (ns : nodes_t) (d : Z) (name : string) : option Z :=
  es ← entries_of ns d; es !! name.

Definition set_entries (ns : nodes_t) (d : Z) (f : gmap string Z → gmap string Z) : nodes_t :=
  match ns !! d with Some (NDir es) => <[d := NDir (f es)]> ns | _ => ns end.

Record stat_t := mk_stat { st_ino : Z; st_size : Z; st_islnk : bool }.

(** The size that [stat] reports: of the content, of the link text; for a directory POSIX leaves it
    open, and the number of entries stands for it. *)
Definition size_of (n : node) : Z :=
  match n with
  | NFile b => Z.of_nat (String.length b)
  | NLink t => Z.of_nat (String.length t)
  | NDir es => Z.of_nat (size es)
  end.

Definition is_link (n : node) : bool := match n with NLink _ => true | _ => false end.

(** Whether some directory has an entry for the inode. *)
Definition linkedb (ns : nodes_t) (i : Z) : bool :=
  existsb (λ e, match e.2 with
                | NDir es => existsb (λ n, bool_decide (n.2 = i)) (map_to_list es)
                | _ => false
                end) (map_to_list ns).

(** An inode whose last name went is freed: its content is gone. *)
Definition free (i : Z) (ns : nodes_t) : nodes_t := if linkedb ns i then ns else delete i ns.

Definition find_node (ns : nodes_t) (d : Z) (name : string) : result Z (Z * node) :=
  match lookup_name ns d name with
  | Some i => match ns !! i with Some n => Ok (i, n) | None => Err ENOENT end
  | None => Err ENOENT
  end.

(** [os.lstat(name, dir_fd=d)]. *)
Definition lstat (d : Z) (name : string) : sys stat_t := call (λ ns,
  '(i, n) ← find_node ns d name; Ok (mk_stat i (size_of n) (is_link n), ns)).

(** [os.open(name, O_RDONLY | O_NOFOLLOW, dir_fd=d)] and reading to the end. *)
Definition read_nofollow (d : Z) (name : string) : sys string := call (λ ns,
  '(_, n) ← find_node ns d name;
  match n with
  | NFile b => Ok (b, ns)
  | NDir _ => Err EISDIR
  | NLink _ => Err ELOOP
  end).

(** [os.open(name, O_RDONLY | O_DIRECTORY | O_NOFOLLOW, dir_fd=d)]. *)
Definition open_dir_at (d : Z) (name : string) : sys Z := call (λ ns,
  '(i, n) ← find_node ns d name;
  match n with NDir _ => Ok (i, ns) | _ => Err ENOTDIR end).

(** [os.mkdir(name, dir_fd=d)]. *)
Definition mkdir (d : Z) (name : string) : sys unit := call (λ ns,
  match entries_of ns d with
  | None => Err ENOENT
  | Some es =>
      match es !! name with
      | Some _ => Err EEXIST
      | None =>
          let i := fresh (dom ns) in
          Ok (tt, set_entries (<[i := NDir ∅]> ns) d (<[name := i]>))
      end
  end).

(** [os.unlink(name, dir_fd=d)].  No process of the model holds a file open across calls. *)
Definition unlink (d : Z) (name : string) : sys unit := call (λ ns,
  '(i, n) ← find_node ns d name;
  match n with
  | NDir _ => Err EISDIR
  | _ => Ok (tt, free i (set_entries ns d (delete name)))
  end).

(** [os.link(name, new, src_dir_fd=d, dst_dir_fd=d', follow_symlinks=False)]. *)
Definition link (d : Z) (name : string) (d' : Z) (new : string) : sys unit := call (λ ns,
  '(i, n) ← find_node ns d name;
  match n with
  | NDir _ => Err EPERM
  | _ =>
      match entries_of ns d' with
      | None => Err ENOENT
      | Some es =>
          match es !! new with
          | Some _ => Err EEXIST
          | None => Ok (tt, set_entries ns d' (<[new := i]>))
          end
      end
  end).

(** Whether directory [d] lies in the tree below [a] (or is [a]). *)
Fixpoint inside (fuel : nat) (ns : nodes_t) (a d : Z) : bool :=
  bool_decide (a = d) ||
  match fuel with
  | 0 => false
  | S n => match entries_of ns a with
           | Some es => existsb (λ e, inside n ns e.2 d) (map_to_list es)
           | None => false
           end
  end.

(** [os.rename(name, new, src_dir_fd=d, dst_dir_fd=d')]: replaces a file (whose inode is freed when that was its last
    name), does nothing when both names are links to one inode. *)
Definition rename (d : Z) (name : string) (d' : Z) (new : string) : sys unit := call (λ ns,
  '(i, n) ← find_node ns d name;
  match entries_of ns d' with
  | None => Err ENOENT
  | Some es' =>
      let move ns := set_entries (set_entries ns d (delete name)) d' (<[new := i]>) in
      let src_dir := match n with NDir _ => true | _ => false end in
      if src_dir && inside (size ns) ns i d' then Err EINVAL
      else match es' !! new with
           | None => Ok (tt, move ns)
           | Some j =>
               if bool_decide (i = j) then Ok (tt, ns)
               else match ns !! j with
                    | Some (NDir es) =>
                        if negb src_dir then Err EISDIR
                        else if bool_decide (es = ∅) then Ok (tt, free j (move ns)) else Err ENOTEMPTY
                    | _ => if src_dir then Err ENOTDIR else Ok (tt, free j (move ns))
                    end
           end
  end).

(** ** Lemmas *)

(** No other process interferes; calls may still be refused. *)
Definition quiet (w : os) : Prop := Forall (λ s, ∀ ns, interfere s ns = ns) (sched w).

Lemma quiet_head w ns : quiet w → interfere (hd (mk_step id None) (sched w)) ns = ns.
Proof. unfold quiet. destruct (sched w); simpl; [done|]. by inversion_clear 1. Qed.

Lemma quiet_tail w ns : quiet w → quiet (mk_os ns (tail (sched w))).
Proof. unfold quiet. simpl. destruct (sched w); simpl; [done|]. by inversion_clear 1. Qed.

(** What a call does on a quiet system: nothing on failure, its effect otherwise. *)
Lemma call_quiet {A} (f : nodes_t → result Z (A * nodes_t)) w r w' :
  quiet w → call f w = (r, w') →
  quiet w' ∧ match r with
             | Ok a => f (nodes w) = Ok (a, nodes w')
             | Err _ => nodes w' = nodes w
             end.
Proof.
  unfold call. intros Hq. rewrite (quiet_head w _ Hq). intros H.
  destruct (fault _); simplify_eq/=; [by split; [apply quiet_tail|]|].
  destruct (f (nodes w)) as [[a ns']|e] eqn:E; simplify_eq/=; (split; [by apply quiet_tail|done]).
Qed.

Lemma entries_of_set ns d f d' :
  entries_of (set_entries ns d f) d' = if decide (d = d') then f <$> entries_of ns d else entries_of ns d'.
Proof.
  unfold entries_of, set_entries. case_decide as E.
  - subst. destruct (ns !! d') as [[| |]|] eqn:En; rewrite ?lookup_insert_eq, ?En; done.
  - destruct (ns !! d) as [[| |]|]; rewrite ?lookup_insert_ne by done; done.
Qed.

Lemma lookup_name_set ns d f d' name :
  lookup_name (set_entries ns d f) d' name =
  if decide (d = d') then es ← entries_of ns d; f es !! name else lookup_name ns d' name.
Proof.
  unfold lookup_name. rewrite entries_of_set. case_decide; [|done]. by destruct (entries_of ns d).
Qed.

(** A file keeps its content through changes of directories. *)
Lemma file_set_entries ns d f i b : ns !! i = Some (NFile b) → set_entries ns d f !! i = Some (NFile b).
Proof.
  unfold set_entries. intros H. destruct (ns !! d) as [[| |]|] eqn:E; try done.
  destruct (decide (d = i)) as [->|]; [congruence|]. by rewrite lookup_insert_ne.
Qed.

Lemma linkedb_spec ns i : linkedb ns i = true ↔ ∃ d name, lookup_name ns d name = Some i.
Proof.
  unfold linkedb, lookup_name, entries_of. rewrite existsb_exists. split.
  - intros ([d n] & Hd%list_elem_of_In%elem_of_map_to_list & H). destruct n as [|es|]; try done. simpl in *.
    apply existsb_exists in H as ([name j] & Hn%list_elem_of_In%elem_of_map_to_list & Hj).
    apply bool_decide_eq_true in Hj. simpl in *. subst. exists d, name. by rewrite Hd.
  - intros (d & name & H). destruct (ns !! d) as [[|es|]|] eqn:E; try done. exists (d, NDir es). split.
    + by apply list_elem_of_In, elem_of_map_to_list.
    + apply existsb_exists. exists (name, i). split; [by apply list_elem_of_In, elem_of_map_to_list|].
      by apply bool_decide_eq_true.
Qed.

Lemma free_linked ns i d name : lookup_name ns d name = Some i → free i ns = ns.
Proof. intros H. unfold free. by rewrite (proj2 (linkedb_spec ns i)) by eauto. Qed.

Lemma free_ne ns i j : i ≠ j → free i ns !! j = ns !! j.
Proof. intros H. unfold free. destruct (linkedb ns i); [done|]. by rewrite lookup_delete_ne. Qed.

(** Freeing a file or an empty directory changes no name. *)
Lemma lookup_name_free ns i d name :
  (∀ es, entries_of ns i = Some es → es = ∅) → lookup_name (free i ns) d name = lookup_name ns d name.
Proof.
  intros He. unfold free. destruct (linkedb ns i); [done|].
  unfold lookup_name, entries_of in *. destruct (decide (i = d)) as [->|]; [|by rewrite lookup_delete_ne].
  rewrite lookup_delete_eq. simpl. destruct (ns !! d) as [[|es|]|]; try done. simpl.
  by rewrite (He es eq_refl).
Qed.

(** What other processes do during the next [n] calls, when the calls themselves change nothing. *)
Fixpoint idle (n : nat) (w : os) : os :=
  match n with
  | 0 => w
  | S n => idle n (mk_os (interfere (hd (mk_step id None) (sched w)) (nodes w)) (tail (sched w)))
  end.

Lemma idle_add n m w : idle n (idle m w) = idle (m + n) w.
Proof. revert w. induction m as [|m IH]; intros w; [done|]. apply IH. Qed.

Lemma idle_quiet n w : quiet w → quiet (idle n w) ∧ nodes (idle n w) = nodes w.
Proof.
  revert w. induction n as [|n IH]; intros w Hq; [done|]. simpl. rewrite (quiet_head w _ Hq).
  destruct (IH _ (quiet_tail w (nodes w) Hq)) as [? ->]. done.
Qed.

Arguments idle : simpl never.

(** A call that only reads leaves what the other processes made of the system; its answer describes
    the tree at that instant. *)
Lemma call_idle {A} (f : nodes_t → result Z (A * nodes_t)) w r w' :
  (∀ ns a ns', f ns = Ok (a, ns') → ns' = ns) → call f w = (r, w') →
  w' = idle 1 w ∧ ∀ a, r = Ok a → f (nodes w') = Ok (a, nodes w').
Proof.
  unfold call. intros Hf H. destruct (fault _); simplify_eq/=; [done|].
  destruct (f _) as [[a ns']|e] eqn:E; simplify_eq/=; [|done].
  apply Hf in E as ?. subst. split; [done|]. by intros ? [= <-].
Qed.

(** Nothing that existed is lost or redirected: contents, names, and directories stay. *)
Record preserved (ns ns' : nodes_t) : Prop := {
  pr_file i b : ns !! i = Some (NFile b) → ns' !! i = Some (NFile b);
  pr_name d n i : lookup_name ns d n = Some i → lookup_name ns' d n = Some i;
  pr_dir d : is_Some (entries_of ns d) → is_Some (entries_of ns' d);
}.

#[export] Instance preserved_refl : Reflexive preserved.
Proof. by split. Qed.
#[export] Instance preserved_trans : Transitive preserved.
Proof. intros x y z [] []. split; eauto. Qed.

Lemma preserved_set ns d f :
  (∀ es n i, entries_of ns d = Some es → es !! n = Some i → f es !! n = Some i) →
  preserved ns (set_entries ns d f).
Proof.
  intros Hf. split.
  - apply file_set_entries.
  - intros d' n i. rewrite lookup_name_set. case_decide as E; [subst|done].
    unfold lookup_name. destruct (entries_of ns d') as [es|] eqn:Ee; simpl; eauto.
  - intros d'. rewrite entries_of_set. case_decide; [subst|done]. by rewrite fmap_is_Some.
Qed.

Lemma preserved_fresh ns : preserved ns (<[fresh (dom ns) := NDir ∅]> ns).
Proof.
  assert (ns !! fresh (dom ns) = None) as Hf by apply not_elem_of_dom, is_fresh.
  assert (∀ i n, ns !! i = Some n → <[fresh (dom ns) := NDir ∅]> ns !! i = Some n) as H.
  { intros i n Hi. rewrite lookup_insert_ne; [done|]. intros <-. congruence. }
  split; [auto|..].
  - intros d n i. unfold lookup_name, entries_of. destruct (ns !! d) as [[| |]|] eqn:E; try done.
    by rewrite (H _ _ E).
  - intros d. unfold entries_of. destruct (ns !! d) as [[| |]|] eqn:E; try by intros [].
    by rewrite (H _ _ E).
Qed.

Section calls.
Context (w : os) (Hq : quiet w).

Lemma find_node_ok ns d name i n :
  find_node ns d name = Ok (i, n) ↔ lookup_name ns d name = Some i ∧ ns !! i = Some n.
Proof.
  unfold find_node. destruct (lookup_name ns d name) as [j|]; [|naive_solver].
  destruct (ns !! j) eqn:E; naive_solver.
Qed.

Lemma lstat_quiet d name r w' : lstat d name w = (r, w') →
  quiet w' ∧ nodes w' = nodes w ∧
  ∀ st, r = Ok st → ∃ n, lookup_name (nodes w) d name = Some (st_ino st) ∧ nodes w !! st_ino st = Some n ∧
                         st_size st = size_of n ∧ st_islnk st = is_link n.
Proof.
  intros [Hq' H]%call_quiet; [|done]. split; [done|]. destruct r as [st|e]; [|by split].
  apply bind_ok in H as ([i n] & Hf%find_node_ok & [= <- Hn]). split; [done|].
  intros st' [= <-]. exists n. simpl. naive_solver.
Qed.

Lemma read_quiet d name r w' : read_nofollow d name w = (r, w') →
  quiet w' ∧ nodes w' = nodes w ∧
  ∀ b, r = Ok b → ∃ i, lookup_name (nodes w) d name = Some i ∧ nodes w !! i = Some (NFile b).
Proof.
  intros [Hq' H]%call_quiet; [|done]. split; [done|]. destruct r as [b|e]; [|by split].
  apply bind_ok in H as ([i n] & Hf%find_node_ok & H). destruct n; simplify_eq. split; [congruence|].
  intros b' [= <-]. exists i. destruct Hf. split; congruence.
Qed.

Lemma open_dir_at_quiet d name r w' : open_dir_at d name w = (r, w') →
  quiet w' ∧ nodes w' = nodes w ∧
  ∀ i, r = Ok i → lookup_name (nodes w) d name = Some i ∧ is_Some (entries_of (nodes w) i).
Proof.
  intros [Hq' H]%call_quiet; [|done]. split; [done|]. destruct r as [j|e]; [|by split].
  apply bind_ok in H as ([i n] & Hf%find_node_ok & H). destruct n; simplify_eq. split; [congruence|].
  intros i' [= <-]. destruct Hf as [Hf1 Hf2]. split; [done|]. unfold entries_of. by rewrite Hf2.
Qed.

Lemma mkdir_quiet d name r w' : mkdir d name w = (r, w') → quiet w' ∧ preserved (nodes w) (nodes w').
Proof.
  intros [Hq' H]%call_quiet; [|done]. split; [done|]. destruct r as [[]|e]; [|by rewrite H].
  destruct (entries_of (nodes w) d) as [es|] eqn:E; [|done].
  destruct (es !! name) eqn:En; [done|]. injection H as H. rewrite <- H.
  etrans; [apply preserved_fresh|]. apply preserved_set.
  intros es' n i He Hi. destruct (decide (n = name)) as [->|]; [|by rewrite lookup_insert_ne].
  assert (entries_of (<[fresh (dom (nodes w)):=NDir ∅]> (nodes w)) d = Some es) as He2.
  { unfold entries_of in *. rewrite lookup_insert_ne; [done|]. intros <-.
    assert (nodes w !! fresh (dom (nodes w)) = None) as Hn by apply not_elem_of_dom, is_fresh.
    by rewrite Hn in E. }
  congruence.
Qed.

Lemma link_quiet d name d' new r w' : link d name d' new w = (r, w') →
  quiet w' ∧
  match r with
  | Err _ => nodes w' = nodes w
  | Ok _ => preserved (nodes w) (nodes w') ∧ lookup_name (nodes w) d' new = None ∧
            lookup_name (nodes w') d' new = lookup_name (nodes w) d name ∧
            nodes w' = set_entries (nodes w) d' (λ es, match lookup_name (nodes w) d name with
                                                       | Some i => <[new := i]> es | None => es end) ∧
            ∃ i, lookup_name (nodes w) d name = Some i ∧ entries_of (nodes w) i = None
  end.
Proof.
  intros [Hq' H]%call_quiet; [|done]. split; [done|]. destruct r as [[]|e]; [|done].
  apply bind_ok in H as ([i n] & [Hi Hn]%find_node_ok & H).
  assert (entries_of (nodes w) i = None) as Hfile.
  { unfold entries_of. rewrite Hn. by destruct n. }
  assert (∃ es, entries_of (nodes w) d' = Some es ∧ es !! new = None ∧
    set_entries (nodes w) d' (<[new := i]>) = nodes w') as (es & He & Hnew & <-).
  { destruct n; try done; destruct (entries_of (nodes w) d') as [es|]; try done;
      destruct (es !! new) eqn:?; simplify_eq; eauto. }
  rewrite Hi. split_and!; [| | |done|by exists i].
  - apply preserved_set. intros es' n' i' He' Hi'. destruct (decide (n' = new)) as [->|]; [congruence|].
    by rewrite lookup_insert_ne.
  - unfold lookup_name. by rewrite He.
  - rewrite lookup_name_set, decide_True, He by done. simpl. by rewrite lookup_insert_eq.
Qed.

Lemma unlink_quiet d name r w' : unlink d name w = (r, w') →
  quiet w' ∧
  match r with
  | Err _ => nodes w' = nodes w
  | Ok _ => ∃ i, lookup_name (nodes w) d name = Some i ∧ entries_of (nodes w) i = None ∧
                 nodes w' = free i (set_entries (nodes w) d (delete name))
  end.
Proof.
  intros [Hq' H]%call_quiet; [|done]. split; [done|]. destruct r as [[]|e]; [|done].
  apply bind_ok in H as ([i n] & [Hi Hn]%find_node_ok & H). exists i. unfold entries_of. rewrite Hn.
  destruct n; simplify_eq; naive_solver.
Qed.
End calls.

Lemma lstat_idle w d name r w' : lstat d name w = (r, w') →
  w' = idle 1 w ∧
  ∀ st, r = Ok st → ∃ n, lookup_name (nodes w') d name = Some (st_ino st) ∧ nodes w' !! st_ino st = Some n ∧
                         st_size st = size_of n ∧ st_islnk st = is_link n.
Proof.
  intros [E H]%call_idle; [split; [done|]|].
  - intros st Hst. apply H in Hst. apply bind_ok in Hst as ([i n] & Hf%find_node_ok & [= <-]).
    exists n. simpl. naive_solver.
  - intros ns a ns' Ha. apply bind_ok in Ha as ([i n] & _ & [= _ <-]). done.
Qed.

Lemma read_idle w d name r w' : read_nofollow d name w = (r, w') →
  w' = idle 1 w ∧
  ∀ b, r = Ok b → ∃ i, lookup_name (nodes w') d name = Some i ∧ nodes w' !! i = Some (NFile b).
Proof.
  intros [E H]%call_idle; [split; [done|]|].
  - intros b Hb. apply H in Hb. apply bind_ok in Hb as ([i n] & Hf%find_node_ok & Hn).
    destruct n; simplify_eq. by exists i.
  - intros ns a ns' Ha. apply bind_ok in Ha as ([i n] & _ & Hn). by destruct n; simplify_eq.
Qed.

Lemma entries_of_set_none ns d f i : entries_of ns i = None → entries_of (set_entries ns d f) i = None.
Proof. intros H. rewrite entries_of_set. case_decide; [subst; by rewrite H|done]. Qed.

(** Deleting one name leaves every other name and all contents. *)
Lemma delete_names ns d name d' n :
  (d', n) ≠ (d, name) → lookup_name (set_entries ns d (delete name)) d' n = lookup_name ns d' n.
Proof.
  intros H. rewrite lookup_name_set. case_decide; [subst|done].
  unfold lookup_name. destruct (entries_of ns d') as [es|]; [|done]. simpl.
  apply lookup_delete_ne. congruence.
Qed.

Lemma deleted_name ns d name : lookup_name (set_entries ns d (delete name)) d name = None.
Proof.
  rewrite lookup_name_set, decide_True by done. destruct (entries_of ns d); [|done].
  simpl. by rewrite lookup_delete_eq.
Qed.

Lemma insert_names ns d name i d' n :
  (d', n) ≠ (d, name) → lookup_name (set_entries ns d (<[name := i]>)) d' n = lookup_name ns d' n.
Proof.
  intros H. rewrite lookup_name_set. case_decide; [subst|done].
  unfold lookup_name. destruct (entries_of ns d') as [es|]; [|done]. simpl.
  apply lookup_insert_ne. congruence.
Qed.

Lemma inserted_name ns d name i :
  is_Some (entries_of ns d) → lookup_name (set_entries ns d (<[name := i]>)) d name = Some i.
Proof. intros [es He]. rewrite lookup_name_set, decide_True, He by done. simpl. by rewrite lookup_insert_eq. Qed.
