(* ===== verification/Actor.v ===== *)
(** The agent's write side ([src/fathom/agent/actor/]): the dry-run verifier ([planner.py]), the
    guarded executor ([executor.py]), the dispatcher ([dispatch.py]) and the listener
    ([listener.py]) that verifies a job before anything else happens.

    The world of the executor is the file system of [Fs] and its audit chain, whose sink may refuse
    a record.  BLAKE3 and the kernel's resolution of absolute paths are parameters. *)

From stdpp Require Import gmap.
From S2P Require Import Prelude PyStr Json PyTime AuditLog PosixPath Jobs Signing Fs.

Record world := mk_world { w_os : os; w_chain : AuditChain (W := list AuditRecord) }.

Inductive ExecError :=
| RemediationDisabledError
| DriftedPlan                 (** ValueError *)
| BlastRadiusError
| OSError (errno : Z)
| SinkError                   (** what the audit sink raised *)
| ScanScopeError
| RemediationUnavailableError
| VerificationFailed (e : JobError).

Record ExecResult := mk_result { x_entry_id : string; x_action : string; x_status : string; x_detail : string }.

Record ExecOutcome := mk_outcome { x_results : list ExecResult; x_audit : list AuditRecord }.

(** [VerifyReport.drifted]. *)
Abbreviation VerifyReport := (gmap string string).
Definition report_ok (r : VerifyReport) : bool := bool_decide (r = ∅).

Definition target_of (item : PlanItem) : string * string :=
  let p := parse_path (path item) in (path_str (path_parent p), path_name p).

Section Actor.
Context (blake3 : string → string) (namei : nodes_t → string → option Z).

(** [os.open(path, O_RDONLY | O_DIRECTORY)]. *)
Definition open_dir (p : string) : sys Z := call (λ ns,
  match namei ns p with
  | None => Err ENOENT
  | Some d => match entries_of ns d with Some _ => Ok (d, ns) | None => Err ENOTDIR end
  end).

(** ** [planner.py] *)

Definition lstat_path (item : PlanItem) : sys stat_t :=
  let '(parent, name) := target_of item in
  d ← open_dir parent;
  match d with Ok d => lstat d name | Err e => mret (Err e) end.

(** [hasher] hashes the file at a path; its exceptions propagate. *)
Definition _verify_item (hasher : option (string → sys string)) (verify_hash : bool) (item : PlanItem)
    : sys (option string) :=
  r ← lstat_path item;
  match r with
  | Err _ => mret (Ok (Some "missing"))
  | Ok st =>
      if st_islnk st then mret (Ok (Some "became_symlink"))
      else if negb (st_ino st =? prior_inode item)%Z then mret (Ok (Some "inode_changed"))
      else if negb (st_size st =? prior_size item)%Z then mret (Ok (Some "size_changed"))
      else match prior_hash item, hasher with
           | Some h, Some hash =>
               if verify_hash then
                 current ← hash (path item);
                 match current with
                 | Err e => mret (Err e)
                 | Ok c => mret (Ok (if bool_decide (c = h) then None else Some "hash_changed"))
                 end
               else mret (Ok None)
           | _, _ => mret (Ok None)
           end
  end.

Fixpoint dry_run_verify (items : list PlanItem) (hasher : option (string → sys string)) (verify_hash : bool)
    (report : VerifyReport) : sys VerifyReport :=
  match items with
  | [] => mret (Ok report)
  | item :: rest =>
      r ← _verify_item hasher verify_hash item;
      match r with
      | Err e => mret (Err e)
      | Ok None => dry_run_verify rest hasher verify_hash report
      | Ok (Some reason) =>
          dry_run_verify rest hasher verify_hash (<[entry_str (entry_id item) := reason]> report)
      end
  end.

(** ** [executor.py] *)

(** The executor's configuration.  [ensure_dir] is [Path.mkdir(parents=True, exist_ok=True)] and
    [chmod] of the quarantine directory. *)
Record Executor := mk_executor {
  quarantine_dir : string; write_enabled : bool; blast_cap : nat; allow_hard_delete : bool;
  actor_name : string; ensure_dir : sys unit;
}.

Definition _recheck (d : Z) (name : string) (item : PlanItem) : stM os (option string) :=
  r ← lstat d name;
  match r with
  | Err _ => mret (Some "missing")
  | Ok st =>
      if st_islnk st then mret (Some "became_symlink")
      else if negb (st_ino st =? prior_inode item)%Z then mret (Some "inode_changed")
      else if negb (st_size st =? prior_size item)%Z then mret (Some "size_changed")
      else match prior_hash item with
           | Some h =>
               c ← read_nofollow d name;
               match c with
               | Err _ => mret (Some "hash_unreadable")
               | Ok b => mret (if bool_decide (blake3 b = h) then None else Some "hash_changed")
               end
           | None => mret (if bool_decide (action item = HARD_DELETE) then Some "no_hash_anchor" else None)
           end
  end.

(** Walk from [cur], making each component and refusing to follow a link. *)
Fixpoint walk_dirs (cur : Z) (dirs : list string) : sys Z :=
  match dirs with
  | [] => mret (Ok cur)
  | component :: rest =>
      m ← mkdir cur component;
      match m with
      | Ok tt =>
          n ← open_dir_at cur component;
          match n with Ok nxt => walk_dirs nxt rest | Err e => mret (Err e) end
      | Err e =>
          if (e =? EEXIST)%Z then
            n ← open_dir_at cur component;
            match n with Ok nxt => walk_dirs nxt rest | Err e => mret (Err e) end
          else mret (Err e)
      end
  end.

(** [os.open(move_root, O_RDONLY | O_DIRECTORY | O_NOFOLLOW)]. *)
Definition open_root (root : string) : sys Z :=
  let p := parse_path root in
  if bool_decide (p_parts p = []) then open_dir root
  else
    d ← open_dir (path_str (path_parent p));
    match d with Ok d => open_dir_at d (path_name p) | Err e => mret (Err e) end.

Definition dest_parts (dest : string) : list string := filter (λ p, p ≠ "") (split_char SLASH dest).

Definition _move (src_d : Z) (src_name : string) (plan : RemediationPlan) (item : PlanItem)
    : stM os (string * string) :=
  match move_root plan, dest_rel item with
  | Some root, Some dest =>
      if bool_decide (root = "") || bool_decide (dest = "")
      then mret ("skipped_disabled", "move requires move_root + dest_rel")
      else
        let parts := dest_parts dest in
        match last parts with
        | None => mret ("aborted_drift", "invalid destination")
        | Some leaf =>
            if existsb (λ p, bool_decide (p = "..") || bool_decide (p = ".")) parts
            then mret ("aborted_drift", "invalid destination")
            else
              c0 ← open_root root;
              c ← match c0 with
                  | Ok cur => walk_dirs cur (take (length parts - 1) parts)
                  | Err e => mret (Err e)
                  end;
              match c with
              | Err e => mret ("aborted_drift", "move setup failed (errno " +:+ pretty e +:+ ")")
              | Ok cur =>
                  l ← link src_d src_name cur leaf;
                  match l with
                  | Err e =>
                      mret (if (e =? EEXIST)%Z
                            then ("aborted_drift", "destination already exists (no-clobber)")
                            else ("aborted_drift", "move refused (errno " +:+ pretty e +:+ ")"))
                  | Ok tt =>
                      u ← unlink src_d src_name;
                      match u with
                      | Err e =>
                          _ ← unlink cur leaf;
                          mret ("aborted_drift", "move source-unlink failed (errno " +:+ pretty e +:+ ")")
                      | Ok tt =>
                          mret ("moved", rstrip_by (Ascii.eqb SLASH) root +:+ "/" +:+ dest)
                      end
                  end
              end
        end
  | _, _ => mret ("skipped_disabled", "move requires move_root + dest_rel")
  end.

Definition dest_name (plan : RemediationPlan) (item : PlanItem) (name : string) : string :=
  plan_id plan +:+ "__" +:+ pretty (prior_inode item) +:+ "__" +:+ name.

(** [Err] for the OSError of opening the quarantine directory, which [_mutate] does not catch. *)
Definition _mutate (x : Executor) (d : Z) (name : string) (plan : RemediationPlan) (item : PlanItem)
    : sys (string * string) :=
  match action item with
  | QUARANTINE =>
      q ← open_dir (quarantine_dir x);
      match q with
      | Err e => mret (Err e)
      | Ok q =>
          r ← rename d name q (dest_name plan item name);
          mret (Ok (match r with
                    | Err e => ("aborted_drift", "quarantine refused (errno " +:+ pretty e +:+ ")")
                    | Ok _ => ("quarantined", quarantine_dir x +:+ "/" +:+ dest_name plan item name)
                    end))
      end
  | HARD_DELETE =>
      if negb (allow_hard_delete x) then mret (Ok ("skipped_disabled", "hard_delete requires allow_hard_delete"))
      else
        r ← unlink d name;
        mret (Ok (match r with
                  | Err e => ("aborted_drift", "hard_delete refused (errno " +:+ pretty e +:+ ")")
                  | Ok _ => ("deleted", "")
                  end))
  | MOVE => r ← _move d name plan item; mret (Ok r)
  | HARDLINK => mret (Ok ("skipped_disabled", "action hardlink not implemented in v1"))
  end.

Context (refuses : AuditRecord → bool) (clock : nat → datetime).

Definition on_os {A} (m : stM os A) : stM world A := λ w,
  let '(a, o) := m (w_os w) in (a, mk_world o (w_chain w)).

(** [self._audit.append(...)], [None] when the sink raises. *)
Definition audit_append (x : Executor) (item : PlanItem) (res : string) : stM world (option AuditRecord) := λ w,
  let before := [("inode", JInt (prior_inode item)); ("size", JInt (prior_size item));
                 ("hash", opt_str (prior_hash item))] in
  match append blake3 (list_sink refuses) (clock (length (sunk (w_chain w)))) (actor_name x)
          (action_value (action item)) (path item) before res (w_chain w) with
  | Ok (r, ch) => (Some r, mk_world (w_os w) ch)
  | Err _ => (None, w)
  end.

Definition _act (x : Executor) (plan : RemediationPlan) (item : PlanItem)
    : stM world (result ExecError (ExecResult * list AuditRecord)) :=
  let eid := entry_str (entry_id item) in
  let '(parent, name) := target_of item in
  d ← on_os (open_dir parent);
  match d with
  | Err e => mret (Err (OSError e))
  | Ok d =>
      drift ← on_os (_recheck d name item);
      match drift with
      | Some reason => mret (Ok (mk_result eid (action_value (action item)) "aborted_drift" reason, []))
      | None =>
          pending ← audit_append x item "pending";
          match pending with
          | None => mret (Err SinkError)
          | Some r1 =>
              m ← on_os (_mutate x d name plan item);
              match m with
              | Err e => mret (Err (OSError e))
              | Ok (status, detail) =>
                  done_ ← audit_append x item status;
                  match done_ with
                  | None => mret (Err SinkError)
                  | Some r2 => mret (Ok (mk_result eid (action_value (action item)) status detail, [r1; r2]))
                  end
              end
          end
      end
  end.

Fixpoint act_all (x : Executor) (plan : RemediationPlan) (its : list PlanItem) (acc : ExecOutcome)
    : stM world (result ExecError ExecOutcome) :=
  match its with
  | [] => mret (Ok acc)
  | item :: rest =>
      r ← _act x plan item;
      match r with
      | Err e => mret (Err e)
      | Ok (res, recs) => act_all x plan rest (mk_outcome (x_results acc ++ [res]) (x_audit acc ++ recs))
      end
  end.

Definition execute_with_audit (x : Executor) (plan : RemediationPlan) (verify : VerifyReport)
    (confirm_blast : bool) : stM world (result ExecError ExecOutcome) :=
  if negb (write_enabled x) then mret (Err RemediationDisabledError)
  else if negb (report_ok verify) then mret (Err DriftedPlan)
  else if bool_decide (blast_cap x < length (items plan)) && negb confirm_blast then mret (Err BlastRadiusError)
  else
    q ← on_os (ensure_dir x);
    match q with
    | Err e => mret (Err (OSError e))
    | Ok _ => act_all x plan (items plan) (mk_outcome [] [])
    end.

(** ** [dispatch.py] *)

Definition plan_from_job (j : ActionJob) : RemediationPlan :=
  mk_plan (a_plan_id j) "orchestrator" (a_keeper_path j) (a_items j) (a_move_root j).

Definition with_items (p : RemediationPlan) (its : list PlanItem) : RemediationPlan :=
  mk_plan (plan_id p) (created_by p) (keeper_path p) its (move_root p).

Record ActorDispatcher := mk_dispatcher { executor : Executor; hasher : option (string → sys string) }.

Definition os_errors {A} (m : sys A) : stM world (result ExecError A) :=
  r ← on_os m; mret (match r with Ok a => Ok a | Err e => Err (OSError e) end).

Definition dispatch_dry_run (disp : ActorDispatcher) (j : ActionJob) : stM world (result ExecError VerifyReport) :=
  os_errors (dry_run_verify (items (plan_from_job j)) (hasher disp) true ∅).

Definition drifted_in (report : VerifyReport) (i : PlanItem) : option string :=
  report !! entry_str (entry_id i).

Definition dispatch_execute (disp : ActorDispatcher) (j : ActionJob) (confirm_blast : bool)
    : stM world (result ExecError ExecOutcome) :=
  let plan := plan_from_job j in
  r ← os_errors (dry_run_verify (items plan) (hasher disp) true ∅);
  match r with
  | Err e => mret (Err e)
  | Ok report =>
      if report_ok report then execute_with_audit (executor disp) plan report confirm_blast
      else
        let clean := filter (λ i, drifted_in report i = None) (items plan) in
        if bool_decide (clean = []) then
          mret (Ok (mk_outcome (omap (λ i, reason ← drifted_in report i;
            Some (mk_result (entry_str (entry_id i)) (action_value (action i)) "aborted_drift" reason)) (items plan)) []))
        else
          let plan' := with_items plan clean in
          r2 ← os_errors (dry_run_verify (items plan') (hasher disp) true ∅);
          match r2 with
          | Err e => mret (Err e)
          | Ok report2 => execute_with_audit (executor disp) plan' report2 confirm_blast
          end
  end.

Record ScopeOutcome := mk_scope_outcome {
  so_root : string; entries_seen : Z; rows_changed : Z; so_error : option string;
  fullbit_hashed : Z; fullbit_error : option string;
}.

Record AgentRunSummary := mk_summary { scopes : list ScopeOutcome; pushed : Z }.

Record JobResult := mk_job_result {
  r_mode : JobMode; r_plan_id : string; r_drift : gmap string string; r_results : list ExecResult;
  r_audit : list AuditRecord;
}.

(** [scan_scope] holds the configured roots, [scan_runner] runs the scan. *)
Record ScanDispatcher := mk_scan_dispatcher { scan_scope : list string; scan_runner : ScanJob → AgentRunSummary }.

Definition scan_status (j : ScanJob) (summary : AgentRunSummary) : string * string :=
  match list_find (λ s, so_root s = s_root j) (scopes summary) with
  | None => ("failed", "scan produced no outcome for the requested root")
  | Some (_, sc) =>
      match so_error sc with
      | Some e => ("failed", "scan error: " +:+ e)
      | None =>
          ("completed",
           "mode=" +:+ scan_mode_value (s_mode j) +:+ " entries_seen=" +:+ pretty (entries_seen sc)
           +:+ " rows_changed=" +:+ pretty (rows_changed sc) +:+ " pushed=" +:+ pretty (pushed summary)
           +:+ " fullbit_hashed=" +:+ pretty (fullbit_hashed sc)
           +:+ match fullbit_error sc with Some e => " fullbit_error=" +:+ e | None => "" end)
      end
  end.

Definition dispatch_scan (sd : ScanDispatcher) (j : ScanJob) : result ExecError JobResult :=
  if negb (in_scope (scan_scope sd) (s_root j)) then Err ScanScopeError
  else
    let '(status, detail) := scan_status j (scan_runner sd j) in
    Ok (mk_job_result DRY_RUN (ledger_ref (DScan j)) ∅ [mk_result (s_root j) "scan_now" status detail] []).

(** ** [listener.py] *)

Record SignedJobListener := mk_listener {
  l_dispatcher : option ActorDispatcher; l_verifier : Verifier; l_host_id : string;
  l_scan_dispatcher : option ScanDispatcher;
}.

Definition execute_result (j : ActionJob) (o : ExecOutcome) : JobResult :=
  mk_job_result EXECUTE (a_plan_id j)
    (foldl (λ m r, if bool_decide (x_status r = "aborted_drift") then <[x_entry_id r := x_detail r]> m else m)
       ∅ (x_results o))
    (x_results o) (x_audit o).

Definition handle {St} `{NonceStore St} (l : SignedJobListener) (signed : SignedJob) (confirm_blast : bool)
    (now : datetime) : stM (world * St) (result ExecError JobResult) := λ '(w, st),
  match verify_job (l_verifier l) (l_host_id l) now signed st with
  | (Err e, st') => (Err (VerificationFailed e), (w, st'))
  | (Ok (DScan j), st') =>
      match l_scan_dispatcher l with
      | None => (Err ScanScopeError, (w, st'))
      | Some sd => (dispatch_scan sd j, (w, st'))
      end
  | (Ok (DAction j), st') =>
      match l_dispatcher l with
      | None => (Err RemediationUnavailableError, (w, st'))
      | Some disp =>
          match a_mode j with
          | DRY_RUN =>
              let '(r, w') := dispatch_dry_run disp j w in
              (report ← r; Ok (mk_job_result DRY_RUN (a_plan_id j) report [] []), (w', st'))
          | EXECUTE =>
              let '(r, w') := dispatch_execute disp j confirm_blast w in
              (o ← r; Ok (execute_result j o), (w', st'))
          end
      end
  end.
End Actor.

(** ** Lemmas *)

(** [c] is reached from [cur] through directories only, never through a link. *)
Fixpoint chain (ns : nodes_t) (cur : Z) (dirs : list string) (c : Z) : Prop :=
  match dirs with
  | [] => c = cur
  | x :: rest => ∃ n, lookup_name ns cur x = Some n ∧ is_Some (entries_of ns n) ∧ chain ns n rest c
  end.

Lemma chain_mono ns ns' cur dirs c : preserved ns ns' → chain ns cur dirs c → chain ns' cur dirs c.
Proof.
  intros Hp. revert cur. induction dirs as [|x rest IH]; intros cur; simpl; [done|].
  intros (n & Hn & Hd & Hc). exists n. split_and!; [by apply Hp|by apply Hp|by apply IH].
Qed.

Lemma chain_delete ns d name i cur dirs c :
  lookup_name ns d name = Some i → entries_of ns i = None →
  chain ns cur dirs c → chain (set_entries ns d (delete name)) cur dirs c.
Proof.
  intros Hi He. revert cur. induction dirs as [|x rest IH]; intros cur; simpl; [done|].
  intros (n & Hn & [es Hd] & Hc). exists n. split_and!; [|rewrite entries_of_set; case_decide; subst|by apply IH].
  - rewrite delete_names; [done|]. intros [= -> ->]. congruence.
  - by rewrite Hd.
  - by rewrite Hd.
Qed.

Section ActorLemmas.
Context (blake3 : string → string) (namei : nodes_t → string → option Z).

Lemma open_dir_quiet p w r w' : quiet w → open_dir namei p w = (r, w') →
  quiet w' ∧ nodes w' = nodes w ∧ ∀ d, r = Ok d → namei (nodes w) p = Some d.
Proof.
  intros Hq [Hq' H]%call_quiet; [|done]. split; [done|]. destruct r as [d|e]; [|by split].
  destruct (namei (nodes w) p) as [d'|]; [|done]. destruct (entries_of (nodes w) d'); simplify_eq.
  split; [congruence|]. by intros ? [= <-].
Qed.

Lemma open_root_quiet root w r w' : quiet w → open_root namei root w = (r, w') →
  quiet w' ∧ nodes w' = nodes w.
Proof.
  intros Hq H. unfold open_root in H. case_bool_decide.
  - by apply open_dir_quiet in H as (? & ? & _).
  - apply bind_run in H as (d & w1 & H1 & H2). apply open_dir_quiet in H1 as (Hq1 & E1 & _); [|done].
    destruct d as [d|e]; [|by apply ret_run in H2 as [<- <-]].
    apply open_dir_at_quiet in H2 as (? & ? & _); [|done]. split; congruence.
Qed.

Lemma walk_dirs_quiet dirs cur w r w' : quiet w → walk_dirs cur dirs w = (r, w') →
  quiet w' ∧ preserved (nodes w) (nodes w') ∧ ∀ c, r = Ok c → chain (nodes w') cur dirs c.
Proof.
  revert cur w. induction dirs as [|x rest IH]; intros cur w Hq H; simpl in H.
  - apply ret_run in H as [<- <-]. split_and!; [done|done|]. by intros c [= <-].
  - apply bind_run in H as (m & w1 & Hm & H). apply mkdir_quiet in Hm as [Hq1 Hp1]; [|done].
    assert ((n ← open_dir_at cur x; match n with Ok nxt => walk_dirs nxt rest | Err e => mret (Err e) end) w1
            = (r, w') →
      quiet w' ∧ preserved (nodes w) (nodes w') ∧ ∀ c, r = Ok c → chain (nodes w') cur (x :: rest) c) as Hgo.
    { intros Hn. apply bind_run in Hn as (n & w3 & Hn & Hw).
      apply open_dir_at_quiet in Hn as (Hq3 & E3 & Hn); [|done]. destruct n as [nxt|e].
      - apply IH in Hw as (Hq2 & Hp2 & Hc); [|done]. rewrite E3 in Hp2.
        split_and!; [done|by etrans|]. intros c Hr. destruct (Hn _ eq_refl) as [Hl He].
        exists nxt. split_and!; [by apply Hp2|by apply Hp2|by apply Hc].
      - apply ret_run in Hw as [<- <-]. rewrite E3. by split_and!. }
    destruct m as [[]|e]; [by apply Hgo|]. destruct (e =? EEXIST)%Z; [by apply Hgo|].
    apply ret_run in H as [<- <-]. by split_and!.
Qed.

(** What [_move] may leave behind. *)
Definition move_post (d : Z) (name : string) (plan : RemediationPlan) (item : PlanItem) (w : os)
    (status : string) (ns' : nodes_t) : Prop :=
  (∀ d' n i, (d', n) ≠ (d, name) → lookup_name (nodes w) d' n = Some i → lookup_name ns' d' n = Some i) ∧
  (∀ i b, nodes w !! i = Some (NFile b) → ns' !! i = Some (NFile b)) ∧
  (status ≠ "moved" → ∀ i, lookup_name (nodes w) d name = Some i → lookup_name ns' d name = Some i) ∧
  (status = "moved" →
     ∃ root dest dirs leaf r w1 c,
       move_root plan = Some root ∧ dest_rel item = Some dest ∧
       dest_parts dest = dirs ++ [leaf] ∧ Forall (λ p, p ≠ ".." ∧ p ≠ ".") (dirs ++ [leaf]) ∧
       open_root namei root w = (Ok r, w1) ∧ chain ns' r dirs c ∧
       lookup_name (nodes w) c leaf = None ∧
       lookup_name ns' c leaf = lookup_name (nodes w) d name ∧ is_Some (lookup_name ns' c leaf) ∧
       lookup_name ns' d name = None).

Lemma preserved_post d name plan item w status ns' :
  preserved (nodes w) ns' → status ≠ "moved" → move_post d name plan item w status ns'.
Proof. intros [] Hs. split_and!; eauto. done. Qed.

Lemma take_last {A} (l : list A) x : last l = Some x → l = take (length l - 1) l ++ [x].
Proof.
  intros [k ->]%last_Some. rewrite length_app. simpl. replace (length k + 1 - 1) with (length k) by lia.
  by rewrite take_app_length.
Qed.

Lemma existsb_false_Forall {A} (P : A → bool) l : existsb P l = false → Forall (λ x, P x = false) l.
Proof. induction l; simpl; intros; to_prop; constructor; intuition. Qed.

Lemma move_quiet d name plan item w status detail w' :
  quiet w → is_Some (lookup_name (nodes w) d name) →
  _move namei d name plan item w = ((status, detail), w') →
  quiet w' ∧ move_post d name plan item w status (nodes w').
Proof.
  intros Hq [j0 Hj0] H. unfold _move in H.
  assert (∀ w2 a b, preserved (nodes w) (nodes w2) → quiet w2 → a ≠ "moved" →
    (mret (a, b) : stM os _) w2 = ((status, detail), w') →
    quiet w' ∧ move_post d name plan item w status (nodes w')) as Hstop.
  { intros w2 a b Hp Hq2 Ha [[= <- <-] <-]%ret_run. split; [done|]. by apply preserved_post. }
  destruct (move_root plan) as [root|] eqn:Er; [|by eapply Hstop in H].
  destruct (dest_rel item) as [dest|] eqn:Ed; [|by eapply Hstop in H].
  destruct (bool_decide (root = "") || bool_decide (dest = "")); [by eapply Hstop in H|].
  destruct (last (dest_parts dest)) as [leaf|] eqn:El; [|by eapply Hstop in H].
  destruct (existsb _ _) eqn:Ex; [by eapply Hstop in H|].
  apply bind_run in H as (c0 & w1 & H0 & H). pose proof H0 as Hroot.
  apply open_root_quiet in H0 as [Hq1 E1]; [|done].
  apply bind_run in H as (c & w2 & H2 & H).
  assert (quiet w2 ∧ preserved (nodes w) (nodes w2) ∧ (∀ cur, c = Ok cur → ∃ r, c0 = Ok r ∧
    chain (nodes w2) r (take (length (dest_parts dest) - 1) (dest_parts dest)) cur)) as (Hq2 & Hp2 & Hc).
  { destruct c0 as [r|e].
    - apply walk_dirs_quiet in H2 as (? & ? & ?); [|done]. rewrite E1 in *. split_and!; eauto.
    - apply ret_run in H2 as [<- <-]. by rewrite E1. }
  destruct c as [cur|e]; [|by eapply Hstop in H].
  destruct (Hc cur eq_refl) as (r & -> & Hchain). clear Hc H2.
  apply bind_run in H as (l & w3 & H3 & H). apply link_quiet in H3 as [Hq3 H3]; [|done].
  destruct l as [[]|e]; [|rewrite <- H3 in Hp2; by destruct (e =? EEXIST)%Z; eapply Hstop in H].
  destruct H3 as (Hp3 & Hfree & Hleaf & E3 & (i & Hi & Hfile)).
  assert (j0 = i) as -> by (apply Hp2 in Hj0; congruence).
  assert (lookup_name (nodes w) cur leaf = None) as Hnew.
  { destruct (lookup_name (nodes w) cur leaf) eqn:E; [|done]. apply Hp2 in E. congruence. }
  assert ((cur, leaf) ≠ (d, name)) as Hne by (intros [= -> ->]; congruence).
  apply bind_run in H as (u & w4 & H4 & H). apply unlink_quiet in H4 as [Hq4 H4]; [|done].
  assert (preserved (nodes w) (nodes w3)) as Hp by (by etrans).
  destruct u as [[]|e].
  - (* moved *)
    destruct H4 as (i' & Hi' & _ & E4). assert (i' = i) as -> by (apply Hp in Hj0; congruence).
    rewrite (free_linked _ i cur leaf) in E4 by (rewrite delete_names; congruence).
    apply ret_run in H as [[= <- <-] <-]. split; [done|]. rewrite E4.
    split_and!; [| |done|].
    + intros d' n j Hn Hj. rewrite delete_names by done. by apply Hp.
    + intros j b Hj. by apply file_set_entries, Hp.
    + intros _. exists root, dest, (take (length (dest_parts dest) - 1) (dest_parts dest)), leaf, r, w1, cur.
      rewrite <- (take_last _ _ El), deleted_name, delete_names by done.
      split_and!; [done|done|done| |done| |done|congruence|by rewrite Hleaf, Hi|done].
      * apply existsb_false_Forall in Ex. eapply Forall_impl; [exact Ex|]. intros p Hp'. simpl in Hp'.
        to_prop. done.
      * eapply chain_delete; [by apply Hp|rewrite E3; by apply entries_of_set_none|]. by apply (chain_mono (nodes w2)).
  - (* rolled back *)
    apply bind_run in H as (u2 & w5 & H5 & H). apply unlink_quiet in H5 as [Hq5 H5]; [|done].
    apply ret_run in H as [[= <- <-] <-]. split; [done|].
    rewrite <- H4 in Hp. destruct u2 as [[]|e2]; [|rewrite <- H5 in Hp; by apply preserved_post].
    destruct H5 as (i' & Hi' & _ & E5). rewrite <- H4 in Hleaf.
    assert (i' = i) as -> by congruence.
    rewrite (free_linked _ i d name) in E5 by (rewrite delete_names by congruence; by apply Hp).
    rewrite E5. split_and!; [| | |done].
    + intros d' n j Hn Hj. rewrite delete_names; [by apply Hp|]. intros [= -> ->]. congruence.
    + intros j b Hj. by apply file_set_entries, Hp.
    + intros _ j Hj. rewrite delete_names by congruence. by apply Hp.
Qed.

(** The state an item was approved for, at a name of a directory. *)
Definition approved (ns : nodes_t) (d : Z) (name : string) (item : PlanItem) : Prop :=
  ∃ n, lookup_name ns d name = Some (prior_inode item) ∧ ns !! prior_inode item = Some n ∧
       is_link n = false ∧ size_of n = prior_size item ∧
       match prior_hash item with
       | Some h => ∃ b, n = NFile b ∧ blake3 b = h
       | None => action item ≠ HARD_DELETE
       end.

Lemma recheck_quiet d name item w r w' :
  quiet w → _recheck blake3 d name item w = (r, w') →
  quiet w' ∧ nodes w' = nodes w ∧ (r = None → approved (nodes w) d name item).
Proof.
  intros Hq H. unfold _recheck in H. apply bind_run in H as (l & w1 & H1 & H).
  apply lstat_quiet in H1 as (Hq1 & E1 & Hst); [|done].
  assert (∀ s, (mret (Some s) : stM os _) w1 = (r, w') →
    quiet w' ∧ nodes w' = nodes w ∧ (r = None → approved (nodes w) d name item)) as Hdrift.
  { intros s [<- <-]%ret_run. split_and!; [done..|]. done. }
  destruct l as [st|e]; [|by apply Hdrift in H]. destruct (Hst st eq_refl) as (n & Hl & Hn & Hsz & Hlnk).
  destruct (st_islnk st) eqn:Elnk; [by apply Hdrift in H|].
  destruct (Z.eqb_spec (st_ino st) (prior_inode item)) as [Ei|]; simpl in H; [|by apply Hdrift in H].
  destruct (Z.eqb_spec (st_size st) (prior_size item)) as [Es|]; simpl in H; [|by apply Hdrift in H].
  rewrite Ei in *. unfold approved.
  destruct (prior_hash item) as [h|] eqn:Eh.
  - apply bind_run in H as (c & w2 & H2 & H). apply read_quiet in H2 as (Hq2 & E2 & Hb); [|done].
    rewrite E1 in *. destruct c as [b|e].
    + apply ret_run in H as [<- <-]. split_and!; [done..|]. case_bool_decide as Hbh; [|done].
      intros _. destruct (Hb b eq_refl) as (i & Hi & Hib). exists n. split_and!; [done..|congruence|congruence|].
      exists b. split; congruence.
    + apply ret_run in H as [<- <-]. by split_and!.
  - apply ret_run in H as [<- <-]. split_and!; [done..|]. case_bool_decide; [done|]. intros _.
    exists n. split_and!; [done..|congruence|congruence|done].
Qed.

(** [ns'] is [ns] with the inode that a rename replaced, a file or an empty directory, freed. *)
Definition replaced (old : option Z) (ns ns' : nodes_t) : Prop :=
  match old with
  | Some j => ns' = free j ns ∧ ∀ es, entries_of ns j = Some es → es = ∅
  | None => ns' = ns
  end.

Lemma replaced_name old ns ns' d name : replaced old ns ns' → lookup_name ns' d name = lookup_name ns d name.
Proof. destruct old as [j|]; [intros [-> He]; by apply lookup_name_free|by intros ->]. Qed.

Lemma replaced_file old ns ns' i b : replaced old ns ns' → ns !! i = Some (NFile b) →
  old ≠ Some i ∨ (∃ d name, lookup_name ns' d name = Some i) → ns' !! i = Some (NFile b).
Proof.
  intros Hr Hi Hk. destruct old as [j|]; [|by simpl in Hr; subst].
  destruct (decide (j = i)) as [->|]; [|destruct Hr as [-> _]; by rewrite free_ne].
  destruct Hk as [|(d & name & Hd)]; [done|]. rewrite (replaced_name _ _ _ _ _ Hr) in Hd. destruct Hr as [-> _].
  by rewrite (free_linked _ _ _ _ Hd).
Qed.

(** An empty directory is neither end of a rename. *)
Lemma moved_empty ns d name i d' new j es :
  lookup_name ns d name = Some i → is_Some (entries_of ns d') → lookup_name ns d' new = Some j →
  (∀ es, entries_of ns j = Some es → es = ∅) →
  entries_of (set_entries (set_entries ns d (delete name)) d' (<[new := i]>)) j = Some es → es = ∅.
Proof.
  intros Hi Hd' Hj He. rewrite !entries_of_set. unfold lookup_name in *.
  assert (j ≠ d ∧ j ≠ d') as [Hd Hd''].
  { split; intros ->; [destruct (entries_of ns d) eqn:E|destruct (entries_of ns d') eqn:E]; try done;
      rewrite (He _ eq_refl) in *; done. }
  rewrite !decide_False by done. apply He.
Qed.

Lemma rename_quiet d name d' new w r w' :
  quiet w → rename d name d' new w = (r, w') →
  quiet w' ∧ match r with
             | Err _ => nodes w' = nodes w
             | Ok _ => ∃ i, lookup_name (nodes w) d name = Some i ∧
                 (nodes w' = nodes w ∧ lookup_name (nodes w) d' new = Some i ∨
                  lookup_name (nodes w) d' new ≠ Some i ∧ is_Some (entries_of (nodes w) d') ∧
                  replaced (lookup_name (nodes w) d' new)
                    (set_entries (set_entries (nodes w) d (delete name)) d' (<[new := i]>)) (nodes w'))
             end.
Proof.
  intros Hq [Hq' H]%call_quiet; [|done]. split; [done|]. destruct r as [[]|e]; [|done].
  apply bind_ok in H as ([i n] & [Hi Hn]%find_node_ok & H). exists i. split; [done|].
  destruct (entries_of (nodes w) d') as [es|] eqn:Ee; [|done].
  assert (lookup_name (nodes w) d' new = es !! new) as El by (unfold lookup_name; by rewrite Ee).
  rewrite El. cbv zeta in H. destruct (_ && inside _ _ _ _); [done|].
  destruct (es !! new) as [j|]; [destruct (bool_decide_reflect (i = j)) as [->|Hne]|].
  - left. simplify_eq. split; congruence.
  - right. split; [congruence|]. split; [by eexists|]. unfold replaced.
    assert (nodes w' = free j (set_entries (set_entries (nodes w) d (delete name)) d' (<[new := i]>)) ∧
            ∀ es', entries_of (nodes w) j = Some es' → es' = ∅) as [E He].
    { unfold entries_of. repeat case_match; simplify_eq; to_prop; split; try congruence; done. }
    split; [done|]. intros es'. by apply (moved_empty _ _ name i _ new j).
  - right. split; [done|]. split; [by eexists|]. simpl. simplify_eq. congruence.
Qed.

(** Effects of an action, by the status that [_mutate] reports. *)
Definition mutate_post (x : Executor) (d : Z) (name : string) (plan : RemediationPlan) (item : PlanItem)
    (w : os) (status : string) (ns' : nodes_t) : Prop :=
  match action item with
  | QUARANTINE => status = "quarantined" →
      ∃ q, namei (nodes w) (quarantine_dir x) = Some q ∧
        lookup_name ns' q (dest_name plan item name) = lookup_name (nodes w) d name ∧
        (lookup_name (nodes w) q (dest_name plan item name) ≠ lookup_name (nodes w) d name →
         (d, name) ≠ (q, dest_name plan item name) → lookup_name ns' d name = None) ∧
        (∀ d' n, (d', n) ≠ (d, name) → (d', n) ≠ (q, dest_name plan item name) →
           lookup_name ns' d' n = lookup_name (nodes w) d' n) ∧
        (∀ i b, nodes w !! i = Some (NFile b) →
           lookup_name (nodes w) q (dest_name plan item name) ≠ Some i ∨
             (∃ d' n, lookup_name ns' d' n = Some i) → ns' !! i = Some (NFile b))
  | HARD_DELETE => status = "deleted" → allow_hard_delete x = true ∧ lookup_name ns' d name = None ∧
        (∀ d' n, (d', n) ≠ (d, name) → lookup_name ns' d' n = lookup_name (nodes w) d' n)
  | MOVE => move_post d name plan item w status ns'
  | HARDLINK => ns' = nodes w
  end.

Lemma mutate_quiet x d name plan item w r w' :
  quiet w → is_Some (lookup_name (nodes w) d name) →
  _mutate namei x d name plan item w = (r, w') →
  quiet w' ∧ match r with
             | Err _ => nodes w' = nodes w
             | Ok (status, _) => mutate_post x d name plan item w status (nodes w') ∧
                 (status = "skipped_disabled" → action item ≠ MOVE → nodes w' = nodes w)
             end.
Proof.
  intros Hq [i0 Hi0] H. unfold _mutate in H. unfold mutate_post. destruct (action item) eqn:Ea.
  - apply bind_run in H as (q & w1 & H1 & H). apply open_dir_quiet in H1 as (Hq1 & E1 & Hn); [|done].
    destruct q as [q|e]; [|apply ret_run in H as [<- <-]; done].
    apply bind_run in H as (rn & w2 & H2 & H). apply rename_quiet in H2 as [Hq2 H2]; [|done].
    rewrite E1 in H2. apply ret_run in H as [<- <-]. split; [done|].
    destruct rn as [[]|e]; (split; [|by intros [=]]); [|by intros [=]].
    intros _. exists q. split; [by apply Hn|]. destruct H2 as (i & Hi & [[E2 Hq']|(Hne & [es He] & E2)]).
    + rewrite E2. split_and!; [congruence| |done|done]. rewrite Hi, Hq'. done.
    + split_and!.
      * rewrite Hi, (replaced_name _ _ _ _ _ E2). apply inserted_name.
        rewrite entries_of_set. case_decide; subst; rewrite He; by eexists.
      * intros _ Hdn. rewrite (replaced_name _ _ _ _ _ E2), insert_names by done. apply deleted_name.
      * intros d' n H3 H4. rewrite (replaced_name _ _ _ _ _ E2), insert_names by done. by apply delete_names.
      * intros j b Hj. by apply (replaced_file _ _ _ _ _ E2), file_set_entries, file_set_entries.
  - apply ret_run in H as [<- <-]. done.
  - destruct (allow_hard_delete x) eqn:Eal; simpl in H; [|apply ret_run in H as [<- <-]; by split_and!].
    apply bind_run in H as (u & w1 & H1 & H). apply unlink_quiet in H1 as [Hq1 H1]; [|done].
    apply ret_run in H as [<- <-]. split; [done|]. destruct u as [[]|e]; (split; [|by intros [=]]); [|by intros [=]].
    destruct H1 as (i & _ & He & E1). intros _. rewrite E1.
    assert (∀ es, entries_of (set_entries (nodes w) d (delete name)) i = Some es → es = ∅) as He'.
    { intros es. by rewrite entries_of_set_none. }
    split_and!; [done|rewrite lookup_name_free by done; apply deleted_name|].
    intros. rewrite lookup_name_free by done. by apply delete_names.
  - apply bind_run in H as ([status detail] & w1 & H1 & H). apply ret_run in H as [<- <-].
    apply move_quiet in H1 as [? ?]; [|done..]. by split_and!.
Qed.
End ActorLemmas.

Lemma on_os_run {A} (m : stM os A) w a w' :
  on_os m w = (a, w') ↔ ∃ o, m (w_os w) = (a, o) ∧ w' = mk_world o (w_chain w).
Proof.
  unfold on_os. destruct (m (w_os w)) as [a' o]. split; [intros [= <- <-]; eauto|].
  by intros (o' & [= <- <-] & ->).
Qed.

Section ActLemmas.
Context (blake3 : string → string) (namei : nodes_t → string → option Z).
Context (refuses : AuditRecord → bool) (clock : nat → datetime).
Abbreviation _act := (_act blake3 namei refuses clock).
Abbreviation audit_append := (audit_append blake3 refuses clock).

Lemma audit_append_run x item res w r w' : audit_append x item res w = (r, w') →
  w_os w' = w_os w ∧
  match r with
  | None => w' = w
  | Some rec => sunk (w_chain w') = sunk (w_chain w) ++ [rec] ∧ result_ rec = res ∧
                target rec = path item ∧ AuditLog.action rec = action_value (action item)
  end.
Proof.
  unfold Actor.audit_append, append, list_sink. destruct (refuses _); intros H'; simplify_eq/=; by split_and!.
Qed.

(** One item: either nothing happened, or it was approved and its intent logged before. *)
Inductive act_case (x : Executor) (plan : RemediationPlan) (item : PlanItem) (w : world)
    (r : result ExecError (ExecResult * list AuditRecord)) (w' : world) : Prop :=
| ActStopped :
    nodes (w_os w') = nodes (w_os w) → w_chain w' = w_chain w →
    (∀ res recs, r = Ok (res, recs) → x_status res = "aborted_drift" ∧ recs = []) →
    act_case x plan item w r w'
| ActDone d rec o :
    namei (nodes (w_os w)) (target_of item).1 = Some d →
    approved blake3 (nodes (w_os w)) d (target_of item).2 item →
    result_ rec = "pending" → target rec = path item →
    sunk (w_chain w) ++ [rec] `prefix_of` sunk (w_chain w') →
    nodes o = nodes (w_os w) →
    (∀ res recs, r = Ok (res, recs) →
       mutate_post namei x d (target_of item).2 plan item o (x_status res) (nodes (w_os w')) ∧
       ∃ rec2, recs = [rec; rec2] ∧ sunk (w_chain w') = sunk (w_chain w) ++ recs ∧ result_ rec2 = x_status res) →
    act_case x plan item w r w'.

Lemma approved_present ns d name item : approved blake3 ns d name item → is_Some (lookup_name ns d name).
Proof. intros (n & -> & _). by eexists. Qed.

Lemma act_quiet x plan item w r w' :
  quiet (w_os w) → _act x plan item w = (r, w') → quiet (w_os w') ∧ act_case x plan item w r w'.
Proof.
  intros Hq H. unfold Actor._act in H. destruct (target_of item) as [parent name] eqn:Et.
  apply bind_run in H as (d & w1 & (o1 & H1 & ->)%on_os_run & H).
  apply open_dir_quiet in H1 as (Hq1 & E1 & Hd); [|done].
  destruct d as [d|e]; [|apply ret_run in H as [<- <-]; split; [done|by apply ActStopped]].
  apply bind_run in H as (drift & w2 & (o2 & H2 & ->)%on_os_run & H). simpl in *.
  apply recheck_quiet in H2 as (Hq2 & E2 & Hap); [|done]. rewrite E1 in *.
  destruct drift as [reason|].
  { apply ret_run in H as [<- <-]. split; [done|]. apply ActStopped; [done..|]. by intros res recs [= <- <-]. }
  apply bind_run in H as (pd & w3 & [Eo3 H3]%audit_append_run & H). simpl in *.
  destruct pd as [rec|]; [|subst w3; apply ret_run in H as [<- <-]; split; [done|by apply ActStopped]].
  destruct H3 as (Hs3 & Hp & Ht & _).
  apply bind_run in H as (m & w4 & (o4 & H4 & ->)%on_os_run & H). rewrite Eo3 in H4.
  apply mutate_quiet in H4 as [Hq4 H4]; [|done|rewrite E2; by eapply approved_present, Hap].
  rewrite E2 in *.
  assert (∀ r0 w5, w_os w5 = o4 → sunk (w_chain w3) `prefix_of` sunk (w_chain w5) →
    (∀ res recs, r0 = Ok (res, recs) →
       mutate_post namei x d name plan item o2 (x_status res) (nodes (w_os w5)) ∧
       ∃ rec2, recs = [rec; rec2] ∧ sunk (w_chain w5) = sunk (w_chain w) ++ recs ∧ result_ rec2 = x_status res) →
    quiet (w_os w5) ∧ act_case x plan item w r0 w5) as Hgo.
  { intros r0 w5 Eo Hpre Hr. split; [by rewrite Eo|]. apply ActDone with d rec o2; rewrite ?Et; auto.
    by rewrite <- Hs3. }
  destruct m as [[status detail]|e]; [|apply ret_run in H as [<- <-]; apply Hgo; done].
  destruct H4 as [H4 _].
  apply bind_run in H as (dn & w5 & [Eo5 H5]%audit_append_run & H). simpl in *.
  destruct dn as [rec2|]; apply ret_run in H as [<- <-]; [|subst w5; apply Hgo; done].
  destruct H5 as (Hs5 & Hr2 & _). apply Hgo; [done|by eexists|].
  intros res recs [= <- <-]. simpl. rewrite Eo5. split; [done|]. exists rec2.
  rewrite Hs5, Hs3, <- app_assoc. done.
Qed.
End ActLemmas.

(** ** Under any schedule *)

Section AnySchedule.
Context (blake3 : string → string) (namei : nodes_t → string → option Z).

(** What [_recheck] saw on its way to no objection, other processes acting before each call: at the
    [lstat] the approved inode and size, no link; at the read, the next call, a file of the approved
    content.  [k] calls were made. *)
Definition seen_approved (d : Z) (name : string) (item : PlanItem) (w : os) (k : nat) : Prop :=
  (∃ n, lookup_name (nodes (idle 1 w)) d name = Some (prior_inode item) ∧
        nodes (idle 1 w) !! prior_inode item = Some n ∧ is_link n = false ∧ size_of n = prior_size item) ∧
  match prior_hash item with
  | Some h => k = 2 ∧ ∃ i b, lookup_name (nodes (idle 2 w)) d name = Some i ∧
                             nodes (idle 2 w) !! i = Some (NFile b) ∧ blake3 b = h
  | None => k = 1 ∧ action item ≠ HARD_DELETE
  end.

Lemma seen_quiet d name item w k :
  quiet w → seen_approved d name item w k → approved blake3 (nodes w) d name item.
Proof.
  intros Hq [(n & H1 & H2 & H3 & H4) H]. rewrite !(proj2 (idle_quiet _ _ Hq)) in *. exists n.
  split_and!; [done..|]. destruct (prior_hash item); [|by destruct H].
  destruct H as (_ & i & b & Hi & Hb & Hh). exists b. split; [congruence|done].
Qed.

Lemma open_dir_idle p w r w' : open_dir namei p w = (r, w') →
  w' = idle 1 w ∧ ∀ d, r = Ok d → namei (nodes w') p = Some d.
Proof.
  intros [E H]%call_idle; [split; [done|]|].
  - intros d Hd. apply H in Hd. by repeat case_match; simplify_eq.
  - intros ns a ns' Ha. by repeat case_match; simplify_eq.
Qed.

Lemma recheck_idle d name item w r w' : _recheck blake3 d name item w = (r, w') →
  ∃ k, w' = idle k w ∧ (r = None → seen_approved d name item w k).
Proof.
  unfold _recheck. intros H. apply bind_run in H as (l & w1 & [E1 Hst]%lstat_idle & H).
  assert (∀ s, (mret (Some s) : stM os _) w1 = (r, w') →
    ∃ k, w' = idle k w ∧ (r = None → seen_approved d name item w k)) as Hdrift.
  { intros s [<- <-]%ret_run. by exists 1. }
  destruct l as [st|e]; [|by apply Hdrift in H]. destruct (Hst st eq_refl) as (n & Hl & Hn & Hsz & Hlnk).
  destruct (st_islnk st) eqn:Elnk; [by apply Hdrift in H|].
  destruct (Z.eqb_spec (st_ino st) (prior_inode item)) as [Ei|]; simpl in H; [|by apply Hdrift in H].
  destruct (Z.eqb_spec (st_size st) (prior_size item)) as [Es|]; simpl in H; [|by apply Hdrift in H].
  rewrite Ei in *. assert (∃ n, lookup_name (nodes (idle 1 w)) d name = Some (prior_inode item) ∧
    nodes (idle 1 w) !! prior_inode item = Some n ∧ is_link n = false ∧ size_of n = prior_size item) as Hs.
  { exists n. rewrite <- E1. split_and!; congruence. }
  unfold seen_approved. destruct (prior_hash item) as [h|] eqn:Eh.
  - apply bind_run in H as (c & w2 & [E2 Hb]%read_idle & H). rewrite E1, idle_add in E2. change (1 + 1) with 2 in E2.
    exists 2. destruct c as [b|e]; apply ret_run in H as [<- <-]; (split; [done|]); [|done].
    case_bool_decide as Hh; [|done]. intros _. destruct (Hb b eq_refl) as (i & Hi & Hib).
    rewrite E2 in *. split_and!; [done|done|]. by exists i, b.
  - exists 1. apply ret_run in H as [<- <-]. split; [done|]. by case_bool_decide.
Qed.
End AnySchedule.

Lemma act_any blake3 namei refuses clock x plan item w r w' :
  _act blake3 namei refuses clock x plan item w = (r, w') →
  (w_chain w' = w_chain w ∧ ∃ n, w_os w' = idle n (w_os w)) ∨
  ∃ d k rec res,
    namei (nodes (idle 1 (w_os w))) (target_of item).1 = Some d ∧
    seen_approved blake3 d (target_of item).2 item (idle 1 (w_os w)) k ∧
    result_ rec = "pending" ∧ target rec = path item ∧
    sunk (w_chain w) ++ [rec] `prefix_of` sunk (w_chain w') ∧
    _mutate namei x d (target_of item).2 plan item (idle (1 + k) (w_os w)) = (res, w_os w').
Proof.
  unfold _act. destruct (target_of item) as [parent name]. intros H.
  apply bind_run in H as (d & w1 & (o1 & [E1 Hd]%open_dir_idle & ->)%on_os_run & H). simpl in *.
  destruct d as [d|e]; [|apply ret_run in H as [_ <-]; left; split; [done|by exists 1]].
  apply bind_run in H as (drift & w2 & (o2 & (k & E2 & Hs)%recheck_idle & ->)%on_os_run & H). simpl in *.
  rewrite E1, idle_add in E2. rewrite E1 in Hs, Hd.
  destruct drift as [reason|]; [apply ret_run in H as [_ <-]; left; split; [done|by exists (1 + k)]|].
  apply bind_run in H as (pd & w3 & [Eo3 H3]%audit_append_run & H). simpl in *.
  destruct pd as [rec|]; [|subst w3; apply ret_run in H as [_ <-]; left; split; [done|by exists (1 + k)]].
  right. destruct H3 as (Hs3 & Hp & Ht & _).
  apply bind_run in H as (m & w4 & (o4 & H4 & ->)%on_os_run & H). rewrite Eo3, E2 in H4.
  assert (w_os w' = o4 ∧ sunk (w_chain w3) `prefix_of` sunk (w_chain w')) as [<- Hpre].
  { destruct m as [[status detail]|e]; [|by apply ret_run in H as [_ <-]].
    apply bind_run in H as (dn & w5 & [Eo5 H5]%audit_append_run & H). simpl in *.
    destruct dn as [rec2|]; apply ret_run in H as [_ <-]; [|by subst w5].
    destruct H5 as [-> _]. split; [done|by eexists]. }
  exists d, k, rec, m. rewrite <- Hs3. split_and!; auto.
Qed.

(** ** The batch and the listener *)

Section BatchLemmas.
Context (blake3 : string → string) (namei : nodes_t → string → option Z).
Context (refuses : AuditRecord → bool) (clock : nat → datetime).
Abbreviation _act := (_act blake3 namei refuses clock).
Abbreviation act_all := (act_all blake3 namei refuses clock).
Abbreviation execute_with_audit := (execute_with_audit blake3 namei refuses clock).

(** The chain of a world grew by at most [n] records. *)
Definition grew (n : nat) (w w' : world) : Prop :=
  ∃ k, sunk (w_chain w') = sunk (w_chain w) ++ k ∧ length k ≤ n.

Lemma grew_0 w w' : w_chain w' = w_chain w → grew 0 w w'.
Proof. unfold grew. intros ->. exists []. by rewrite app_nil_r. Qed.

Lemma grew_trans n m w1 w2 w3 : grew n w1 w2 → grew m w2 w3 → grew (n + m) w1 w3.
Proof.
  intros (k & E & Hk) (l & E' & Hl). exists (k ++ l). rewrite E', E, <- app_assoc, length_app. split; [done|lia].
Qed.

Lemma grew_le n m w w' : n ≤ m → grew n w w' → grew m w w'.
Proof. intros Hnm (k & E & Hk). exists k. split; [done|lia]. Qed.

Lemma audit_append_grew x item res w r w' :
  audit_append blake3 refuses clock x item res w = (r, w') → grew 1 w w'.
Proof.
  intros [_ H]%audit_append_run. destruct r as [rec|]; [|subst; by apply (grew_le 0), grew_0; [lia|]].
  destruct H as [E _]. exists [rec]. split; [done|simpl; lia].
Qed.

Lemma act_grew x plan item w r w' : _act x plan item w = (r, w') → grew 2 w w'.
Proof.
  unfold Actor._act. destruct (target_of item) as [parent name]. intros H.
  apply bind_run in H as (d & w1 & (o1 & _ & ->)%on_os_run & H).
  assert (grew 0 w (mk_world o1 (w_chain w))) as G1 by by apply grew_0.
  destruct d as [d|e]; [|apply ret_run in H as [<- <-]; by eapply grew_le; [|exact G1]; lia].
  apply bind_run in H as (dr & w2 & (o2 & _ & ->)%on_os_run & H). simpl in H.
  assert (grew 0 w (mk_world o2 (w_chain w))) as G2 by by apply grew_0.
  destruct dr; [apply ret_run in H as [<- <-]; by eapply grew_le; [|exact G2]; lia|].
  apply bind_run in H as (pd & w3 & H3%audit_append_grew & H). pose proof (grew_trans _ _ _ _ _ G2 H3) as G3.
  destruct pd; [|apply ret_run in H as [<- <-]; by eapply grew_le; [|exact G3]; lia].
  apply bind_run in H as (m & w4 & (o4 & _ & ->)%on_os_run & H).
  assert (grew 1 w (mk_world o4 (w_chain w3))) as G4 by (destruct G3 as (k & ? & ?); by exists k).
  destruct m as [[s dt]|e]; [|apply ret_run in H as [<- <-]; by eapply grew_le; [|exact G4]; lia].
  apply bind_run in H as (dn & w5 & H5%audit_append_grew & H). pose proof (grew_trans _ _ _ _ _ G4 H5) as G5.
  destruct dn; apply ret_run in H as [<- <-]; exact G5.
Qed.

Lemma act_all_grew x plan its acc w r w' :
  act_all x plan its acc w = (r, w') → grew (2 * length its) w w'.
Proof.
  revert acc w. induction its as [|item rest IH]; intros acc w H; simpl in H.
  - apply ret_run in H as [<- <-]. by apply grew_0.
  - apply bind_run in H as (m & w1 & H1%act_grew & H). destruct m as [[res recs]|e].
    + apply IH in H. eapply grew_le; [|exact (grew_trans _ _ _ _ _ H1 H)]. simpl. lia.
    + apply ret_run in H as [<- <-]. eapply grew_le; [|exact H1]. simpl. lia.
Qed.

Lemma execute_gates x plan report confirm w r w' :
  execute_with_audit x plan report confirm w = (r, w') →
  w' = w ∨ (write_enabled x = true ∧ (confirm = true ∨ length (items plan) ≤ blast_cap x) ∧
            grew (2 * length (items plan)) w w').
Proof.
  unfold Actor.execute_with_audit. intros H.
  destruct (write_enabled x); simpl in H; [|apply ret_run in H as [_ <-]; by left].
  destruct (report_ok report); simpl in H; [|apply ret_run in H as [_ <-]; by left].
  destruct (_ && _) eqn:Ec; [apply ret_run in H as [_ <-]; by left|]. right.
  apply bind_run in H as (q & w1 & (o & _ & ->)%on_os_run & H).
  assert (grew 0 w (mk_world o (w_chain w))) as G by by apply grew_0.
  assert (grew (2 * length (items plan)) w w') as Hg.
  { destruct q; [|apply ret_run in H as [_ <-]; eapply grew_le; [|exact G]; lia].
    apply act_all_grew in H. exact (grew_trans _ _ _ _ _ G H). }
  split_and!; [done| |done]. to_prop. destruct Ec; to_prop; [right; lia|by left].
Qed.

(** [hash] reads: it changes no node. *)
Definition reads_only (hash : string → sys string) : Prop :=
  ∀ p w r w', quiet w → hash p w = (r, w') → quiet w' ∧ nodes w' = nodes w.

Lemma verify_item_quiet h v item w r w' :
  quiet w → (∀ hash, h = Some hash → reads_only hash) → _verify_item namei h v item w = (r, w') →
  quiet w' ∧ nodes w' = nodes w.
Proof.
  intros Hq Hh H. unfold _verify_item in H. apply bind_run in H as (l & w1 & H1 & H).
  assert (quiet w1 ∧ nodes w1 = nodes w) as [Hq1 E1].
  { unfold lstat_path in H1. destruct (target_of item) as [parent name].
    apply bind_run in H1 as (d & w2 & H2 & H1). apply open_dir_quiet in H2 as (Hq2 & E2 & _); [|done].
    destruct d as [d|e]; [|by apply ret_run in H1 as [_ <-]].
    apply lstat_quiet in H1 as (? & ? & _); [|done]. split; congruence. }
  repeat case_match; try (apply ret_run in H as [_ <-]; done).
  apply bind_run in H as (c & w2 & Hc & H). eapply Hh in Hc as [? ?]; [|done|done].
  destruct c; apply ret_run in H as [_ <-]; split; congruence.
Qed.

Lemma dry_run_quiet its h v rep w r w' :
  quiet w → (∀ hash, h = Some hash → reads_only hash) → dry_run_verify namei its h v rep w = (r, w') →
  quiet w' ∧ nodes w' = nodes w.
Proof.
  intros Hq Hh. revert rep w Hq. induction its as [|item rest IH]; intros rep w Hq H; simpl in H.
  - by apply ret_run in H as [_ <-].
  - apply bind_run in H as (m & w1 & H1 & H). apply verify_item_quiet in H1 as [Hq1 E1]; [|done..].
    rewrite <- E1. destruct m as [[s|]|e]; [by apply IH in H|by apply IH in H|by apply ret_run in H as [_ <-]].
Qed.

Lemma os_errors_run {A} (m : sys A) w r w' : os_errors m w = (r, w') →
  ∃ a o, m (w_os w) = (a, o) ∧ w' = mk_world o (w_chain w).
Proof.
  unfold os_errors. intros (a & w1 & (o & H1 & ->)%on_os_run & [_ <-]%ret_run)%bind_run. eauto.
Qed.

Lemma dispatch_execute_gates disp j confirm w r w' :
  quiet (w_os w) → (∀ hash, hasher disp = Some hash → reads_only hash) →
  dispatch_execute blake3 namei refuses clock disp j confirm w = (r, w') →
  (nodes (w_os w') = nodes (w_os w) ∧ w_chain w' = w_chain w) ∨
  (write_enabled (executor disp) = true ∧ (confirm = false → grew (2 * blast_cap (executor disp)) w w')).
Proof.
  intros Hq Hh H. unfold dispatch_execute in H.
  apply bind_run in H as (r1 & w1 & (a & o & E1 & ->)%os_errors_run & H).
  apply dry_run_quiet in E1 as [Hqo E1]; [|done|done].
  assert (∀ plan rep o' w2, nodes o' = nodes (w_os w) →
    execute_with_audit (executor disp) plan rep confirm (mk_world o' (w_chain w)) = (r, w2) →
    (nodes (w_os w2) = nodes (w_os w) ∧ w_chain w2 = w_chain w) ∨
    (write_enabled (executor disp) = true ∧ (confirm = false → grew (2 * blast_cap (executor disp)) w w2)))
    as Hex.
  { intros plan rep o' w2 Ho [->|(Hw & Hc & Hg)]%execute_gates; [by left|right]. split; [done|].
    intros ->. destruct Hc as [|Hc]; [done|]. destruct Hg as (k & Ek & Hk). exists k. split; [done|lia]. }
  destruct r1 as [report|e]; [|apply ret_run in H as [_ <-]; by left].
  destruct (report_ok report); [by apply Hex in H|].
  destruct (bool_decide _); [apply ret_run in H as [_ <-]; by left|].
  apply bind_run in H as (r2 & w2 & (a2 & o2 & E2 & ->)%os_errors_run & H). simpl in *.
  apply dry_run_quiet in E2 as [Hqo2 E2]; [|done|done].
  destruct r2 as [report2|e]; [|apply ret_run in H as [_ <-]; left; split; simpl; congruence].
  apply Hex in H; [done|congruence].
Qed.
End BatchLemmas.

(** ** Properties *)

Section ActorProperties.
Context (blake3 : string → string) (namei : nodes_t → string → option Z).
Context (refuses : AuditRecord → bool) (clock : nat → datetime).


(** C16: with no other process interfering (calls may still be refused), an item reported
    "quarantined" keeps its inode and content under the quarantine name, its old name is gone unless
    both names were already links to that inode, nothing else moved, and no content is lost but that
    of a file whose last name was this very quarantine name. *)
Theorem quarantine_is_reversible x plan item w res recs w' :
  quiet (w_os w) → _act blake3 namei refuses clock x plan item w = (Ok (res, recs), w') →
  action item = QUARANTINE → x_status res = "quarantined" →
  let '(parent, name) := target_of item in
  let ns := nodes (w_os w) in let ns' := nodes (w_os w') in
  ∃ d q, namei ns parent = Some d ∧ namei ns (quarantine_dir x) = Some q ∧
    lookup_name ns' q (dest_name plan item name) = Some (prior_inode item) ∧
    (lookup_name ns q (dest_name plan item name) ≠ Some (prior_inode item) →
       (d, name) ≠ (q, dest_name plan item name) → lookup_name ns' d name = None) ∧
    (∀ d' n, (d', n) ≠ (d, name) → (d', n) ≠ (q, dest_name plan item name) →
       lookup_name ns' d' n = lookup_name ns d' n) ∧
    (∀ b, ns !! prior_inode item = Some (NFile b) → ns' !! prior_inode item = Some (NFile b)) ∧
    (∀ i b, ns !! i = Some (NFile b) →
       lookup_name ns q (dest_name plan item name) ≠ Some i ∨ (∃ d' n, lookup_name ns' d' n = Some i) →
       ns' !! i = Some (NFile b)).
Proof.
  intros Hq H Ha Hs. apply act_quiet in H as [_ Hc]; [|done]. destruct (target_of item) as [parent name] eqn:Et.
  destruct Hc as [_ _ Hr|d rec o Hd (n & Hl & _) _ _ _ Ho Hr].
  - destruct (Hr _ _ eq_refl) as [E _]. congruence.
  - destruct (Hr _ _ eq_refl) as [Hp _]. unfold mutate_post in Hp. rewrite Ha, Ho, Et in *. simpl in *.
    destruct (Hp Hs) as (q & Hnq & E1 & E2 & E3 & E4). exists d, q. rewrite Hl in *. split_and!; eauto.
Qed.

(** a move never overwrites or loses a name: every other name and every content stays, whatever
    calls the kernel refuses; if it reports "moved", the inode is at the destination, which was free
    and is reached from the approved root through directories only, and the old name is gone;
    otherwise the old name is still there. *)
Theorem move_contained_no_clobber x plan item w res recs w' :
  quiet (w_os w) → _act blake3 namei refuses clock x plan item w = (Ok (res, recs), w') →
  action item = MOVE →
  let '(parent, name) := target_of item in
  (x_status res = "aborted_drift" ∧ nodes (w_os w') = nodes (w_os w)) ∨
  ∃ d o, namei (nodes (w_os w)) parent = Some d ∧ nodes o = nodes (w_os w) ∧
         lookup_name (nodes (w_os w)) d name = Some (prior_inode item) ∧
         move_post namei d name plan item o (x_status res) (nodes (w_os w')).
Proof.
  intros Hq H Ha. apply act_quiet in H as [_ Hc]; [|done]. destruct (target_of item) as [parent name] eqn:Et.
  destruct Hc as [Hn _ Hr|d rec o Hd (n & Hl & _) _ _ _ Ho Hr].
  - left. by destruct (Hr _ _ eq_refl) as [E _].
  - right. destruct (Hr _ _ eq_refl) as [Hp _]. unfold mutate_post in Hp. rewrite Ha, Et in *. by exists d, o.
Qed.

(** the listener touches the file system or the audit chain only for an EXECUTE remediation job
    whose signature, window, host and fresh nonce it has verified, with writing enabled; without the
    operator's confirmation the chain grows by at most two records per item of the blast cap. *)
Theorem listener_gates {St} `{NonceStoreLaws St} l signed confirm now w (st : St) r w' st' :
  quiet (w_os w) →
  (∀ disp hash, l_dispatcher l = Some disp → hasher disp = Some hash → reads_only hash) →
  handle blake3 namei refuses clock l signed confirm now (w, st) = (r, (w', st')) →
  nodes (w_os w') ≠ nodes (w_os w) ∨ w_chain w' ≠ w_chain w →
  ∃ j disp, job signed = DAction j ∧ a_mode j = EXECUTE ∧ l_dispatcher l = Some disp ∧
    write_enabled (executor disp) = true ∧ verify_signature (l_verifier l) signed = true ∧
    (instant (as_utc (a_issued_at j)) <= instant now < instant (as_utc (a_expires_at j)))%Z ∧
    a_host_id j = l_host_id l ∧ a_nonce j ∉ seen st ∧ a_nonce j ∈ seen st' ∧
    (confirm = false → grew (2 * blast_cap (executor disp)) w w').
Proof.
  intros Hq Hh Hrun Hch. unfold handle in Hrun.
  assert (∀ o, nodes o = nodes (w_os w) → w' ≠ mk_world o (w_chain w)) as Hno.
  { intros o E ->. simpl in Hch. by destruct Hch. }
  assert (w' ≠ w) as Hno' by (destruct w as [o ch]; by apply (Hno o)).
  destruct (verify_job _ _ _ _ st) as [vr st1] eqn:Ev. apply verify_job_cases in Ev.
  destruct vr as [[j|j]|e]; [|by repeat case_match; simplify_eq|by simplify_eq].
  destruct Ev as (Ej & Hs & Ht & Hhost & Hf & Hseen). simpl in *.
  destruct (l_dispatcher l) as [disp|] eqn:Ed; [|by simplify_eq].
  destruct (a_mode j) eqn:Em.
  - exfalso. destruct (dispatch_dry_run namei disp j w) as [r0 w1] eqn:E0.
    injection Hrun as _ <- _. apply os_errors_run in E0 as (a & o & E0 & ->).
    apply dry_run_quiet in E0 as [_ E0]; [|done|eauto]. by apply (Hno o).
  - destruct (dispatch_execute _ _ _ _ disp j confirm w) as [r0 w1] eqn:E0. injection Hrun as _ <- <-.
    apply dispatch_execute_gates in E0 as [[E1 E2]|[Hw Hg]]; [by destruct Hch|..|done|eauto].
    exists j, disp. rewrite Hseen. split_and!; try done; (by destruct Ht) || set_solver.
Qed.
End ActorProperties.

(** ** Witnesses and counterexamples *)

(** A small file system: / is 1, /q is 2, /srv is 3 with the files a and b. *)
Definition demo_nodes : nodes_t :=
  <[1%Z := NDir (<["q" := 2%Z]> (<["srv" := 3%Z]> ∅))]>
  (<[2%Z := NDir ∅]> (<[3%Z := NDir (<["a" := 42%Z]> (<["b" := 43%Z]> ∅))]>
  (<[42%Z := NFile "0123456789"]> (<[43%Z := NFile "9876543210"]> ∅)))).

(** Paths of at most one component below the root. *)
Definition demo_namei (ns : nodes_t) (p : string) : option Z :=
  match p_parts (parse_path p) with
  | [] => Some 1%Z
  | [name] => lookup_name ns 1 name
  | _ => None
  end.

Definition demo_chain : AuditChain := mk_chain (W := list AuditRecord) GENESIS_HASH [].
Definition demo_world (s : list sysstep) : world := mk_world (mk_os demo_nodes s) demo_chain.
Definition demo_executor : Executor := mk_executor "/q" true 100 true "strata-actor" (mret (Ok tt)).
Definition demo_clock (n : nat) : datetime := utc (seconds (Z.of_nat n)).

Definition plan_item (act : PlanAction) (p : string) (inode : Z) (bytes : string) (dest : option string) : PlanItem :=
  mk_item (EInt 7) p inode (Z.of_nat (String.length bytes)) (Some (demo_hash bytes)) act dest.

Definition demo_plan (its : list PlanItem) : RemediationPlan := mk_plan "p1" "alice" "/srv/k" its (Some "/srv").

Definition demo_act (item : PlanItem) (w : world) :=
  _act demo_hash demo_namei (λ _, false) demo_clock demo_executor (demo_plan [item]) item w.

Definition q_item : PlanItem := plan_item QUARANTINE "/srv/a" 42 "0123456789" None.
Definition m_item : PlanItem := plan_item MOVE "/srv/a" 42 "0123456789" (Some "new/a2").

Lemma quiet_demo : quiet (w_os (demo_world [])).
Proof. constructor. Qed.

Lemma demo_changed : nodes (w_os (demo_act q_item (demo_world [])).2) ≠ nodes (w_os (demo_world [])).
Proof. apply (bool_decide_unpack _). vm_compute. exact I. Qed.


Lemma quarantine_is_reversible_witness :
  let ns' := nodes (w_os (demo_act q_item (demo_world [])).2) in
  lookup_name ns' 2 "p1__42__a" = Some 42%Z ∧ lookup_name ns' 3 "a" = None.
Proof.
  pose proof (quarantine_is_reversible demo_hash demo_namei (λ _, false) demo_clock demo_executor
    (demo_plan [q_item]) q_item (demo_world [])
    (mk_result "7" "quarantine" "quarantined" "/q/p1__42__a")
    (sunk (w_chain (demo_act q_item (demo_world [])).2)) (demo_act q_item (demo_world [])).2 quiet_demo) as H.
  destruct H as (d & q & Hd & Hq & H1 & H2 & _); [vm_compute; reflexivity|reflexivity|reflexivity|].
  assert (d = 3%Z) as -> by (vm_compute in Hd; congruence).
  assert (q = 2%Z) as -> by (vm_compute in Hq; congruence).
  refine (conj H1 (H2 _ _)); [vm_compute; discriminate|discriminate].
Defined.

(** The kernel refuses the unlink of the source: the destination name is rolled back. *)
Definition refuse_unlink : list sysstep := replicate 8 (mk_step id None) ++ [mk_step id (Some 13%Z)].

Lemma refuse_unlink_quiet : quiet (w_os (demo_world refuse_unlink)).
Proof. by repeat constructor. Qed.

Lemma move_contained_no_clobber_witness :
  let w' := (demo_act m_item (demo_world refuse_unlink)).2 in
  lookup_name (nodes (w_os w')) 3 "a" = Some 42%Z ∧ lookup_name (nodes (w_os w')) 3 "b" = Some 43%Z.
Proof.
  pose proof (move_contained_no_clobber demo_hash demo_namei (λ _, false) demo_clock demo_executor
    (demo_plan [m_item]) m_item (demo_world refuse_unlink)
    (mk_result "7" "move" "aborted_drift" "move source-unlink failed (errno 13)")
    (sunk (w_chain (demo_act m_item (demo_world refuse_unlink)).2))
    (demo_act m_item (demo_world refuse_unlink)).2 refuse_unlink_quiet) as H.
  destruct H as [[_ E]|(d & o & Hd & Ho & Hl & H1 & _ & H2 & _)]; [vm_compute; reflexivity|reflexivity|..].
  - exfalso. revert E. apply (bool_decide_unpack _). vm_compute. exact I.
  - assert (d = 3%Z) as -> by (vm_compute in Hd; congruence). rewrite Ho in H1, H2. split.
    + apply H2; [discriminate|exact Hl].
    + apply H1; [discriminate|]. vm_compute. reflexivity.
Defined.

Definition demo_dispatcher : ActorDispatcher := mk_dispatcher demo_executor None.
Definition demo_exec_job : ActionJob :=
  mk_action_job "p1" EXECUTE "0123456789abcdef" (utc 0) (utc (seconds 300)) "host-1" "/srv/k" [q_item] None.
Definition demo_exec_signed : SignedJob := ed25519_sign toy_sign "k1" (DAction demo_exec_job).
Definition demo_listener : SignedJobListener := mk_listener (Some demo_dispatcher) demo_verifier "host-1" None.
Definition demo_handle :=
  handle demo_hash demo_namei (λ _, false) demo_clock demo_listener demo_exec_signed false (at_second 1)
    (demo_world [], mk_mem ∅).

Lemma demo_handle_changed : nodes (w_os demo_handle.2.1) ≠ nodes (w_os (demo_world [])).
Proof. apply (bool_decide_unpack _). vm_compute. exact I. Qed.

Lemma demo_handle_run :
  handle demo_hash demo_namei (λ _, false) demo_clock demo_listener demo_exec_signed false (at_second 1)
    (demo_world [], mk_mem ∅) = (demo_handle.1, (demo_handle.2.1, demo_handle.2.2)).
Proof. unfold demo_handle. by destruct (handle _ _ _ _ _ _ _ _ _) as [? [? ?]]. Qed.

Lemma demo_hasher_reads disp hash :
  l_dispatcher demo_listener = Some disp → hasher disp = Some hash → reads_only hash.
Proof. intros [= <-] H. discriminate H. Qed.

Lemma listener_gates_witness :
  ∃ j disp, job demo_exec_signed = DAction j ∧ a_mode j = EXECUTE ∧ write_enabled (executor disp) = true ∧
    grew (2 * blast_cap (executor disp)) (demo_world []) demo_handle.2.1.
Proof.
  destruct (listener_gates demo_hash demo_namei (λ _, false) demo_clock demo_listener demo_exec_signed false
    (at_second 1) (demo_world []) (mk_mem ∅) demo_handle.1 demo_handle.2.1 demo_handle.2.2 quiet_demo
    demo_hasher_reads demo_handle_run (or_introl demo_handle_changed))
    as (j & disp & H1 & H2 & _ & H3 & _ & _ & _ & _ & _ & H4).
  exact (ex_intro _ j (ex_intro _ disp (conj H1 (conj H2 (conj H3 (H4 eq_refl)))))).
Defined.

(** Between the last check and the unlink another process may rename another file onto the checked
    name: the executor then deletes a file it never checked, whose content is lost, and reports
    "deleted". *)
Definition swap : nodes_t → nodes_t := λ ns, set_entries ns 3 (λ es, <["a" := 43%Z]> (delete "b" es)).

Definition swap_run :=
  demo_act (plan_item HARD_DELETE "/srv/a" 42 "0123456789" None)
    (demo_world [mk_step id None; mk_step id None; mk_step id None; mk_step swap None]).

Theorem swap_after_recheck_is_deleted :
  (λ p, x_status p.1) <$> swap_run.1 = Ok "deleted" ∧
  lookup_name (nodes (w_os swap_run.2)) 3 "a" = None ∧
  lookup_name (nodes (w_os swap_run.2)) 3 "b" = None ∧
  nodes (w_os swap_run.2) !! 43%Z = None.
Proof. refine (conj _ (conj _ (conj _ _))); vm_compute; reflexivity. Qed.

(** A parent directory that vanished raises out of the batch: the first item is already in
    quarantine, and neither its result nor its audit records are returned. *)
Definition lost_run :=
  execute_with_audit demo_hash demo_namei (λ _, false) demo_clock demo_executor
    (demo_plan [q_item; plan_item QUARANTINE "/gone/b" 43 "9876543210" None]) ∅ false (demo_world []).

Theorem vanished_parent_loses_results :
  lost_run.1 = Err (OSError ENOENT) ∧ lookup_name (nodes (w_os lost_run.2)) 3 "a" = None ∧
  length (sunk (w_chain lost_run.2)) = 2.
Proof. refine (conj _ (conj _ _)); vm_compute; reflexivity. Qed.
