(* ===== verification/Orchestrator.v ===== *)
(** The remediation orchestrator ([src/fathom/core/remediation/orchestrator.py]): building plans,
    and issuing signed jobs, each step audited before the job leaves.

    The orchestrator's world is its audit chain and the jobs it has handed to a dispatcher, in
    order.  The clock reading and the random nonce of a call are arguments; the dispatcher is the
    other end of the channel: a parameter that returns what the agent reported, or raises. *)

From stdpp Require Import gmap.
From S2P Require Import Prelude PyStr Json PyTime AuditLog PosixPath Jobs Signing.

Record orch := mk_orch { o_chain : AuditChain (W := list AuditRecord); o_sent : list SignedJob }.

Inductive OrchError :=
| BlastCapExceededError
| PlanValueError
| AuditError              (** what the chain's sink raised *)
| DispatchError (msg : string).

Record GroupMember := mk_group_member {
  gm_entry_id : Z; gm_host_id : Z; gm_volume_id : Z; gm_path : string; gm_inode : Z; gm_size : Z;
}.

(** [ExecuteOutcome]: rows of (entry id, action, status), and the actor's own audit. *)
Record ExecuteOutcome := mk_exec_outcome { eo_results : list (string * string * string); eo_audit : list AuditRecord }.

Abbreviation drift_report := (gmap string string).

Section Orchestrator.
Context (blake3 : string → string) (refuses : AuditRecord → bool).
Context (sign : DispatchJob → SignedJob) (_blast_cap : nat) (_job_ttl : Z).

Definition audit_ (now : datetime) (actor action target : string) (before : pydict) (res : string)
    : stM orch (result OrchError unit) := λ w,
  match append blake3 (list_sink refuses) now actor action target before res (o_chain w) with
  | Ok (_, ch) => (Ok tt, mk_orch ch (o_sent w))
  | Err _ => (Err AuditError, w)
  end.

Definition splice_ (r : AuditRecord) : stM orch (result OrchError unit) := λ w,
  match splice blake3 (list_sink refuses) r (o_chain w) with
  | Ok (_, ch) => (Ok tt, mk_orch ch (o_sent w))
  | Err _ => (Err AuditError, w)
  end.

(** Hand a signed job to the channel and wait for its answer. *)
Definition send {A} (dispatch : SignedJob → result string A) (s : SignedJob) : stM orch (result OrchError A) := λ w,
  (match dispatch s with Ok a => Ok a | Err m => Err (DispatchError m) end,
   mk_orch (o_chain w) (o_sent w ++ [s])).

(** Sequencing of calls that may raise. *)
Definition then_ {A B} (m : stM orch (result OrchError A)) (k : A → stM orch (result OrchError B))
    : stM orch (result OrchError B) :=
  r ← m; match r with Ok a => k a | Err e => mret (Err e) end.

Definition build (now : datetime) (pid : string) (members : list GroupMember) (keep_id : Z)
    (full_hash by_ : string) (act : PlanAction) : stM orch (result OrchError RemediationPlan) :=
  if negb (forallb (λ m, match config_path (gm_path m) with Some _ => true | None => false end) members)
  then mret (Err PlanValueError)
  else
    match build_plan pid by_ ((λ m, mk_member (EInt (gm_entry_id m)) (gm_path m) (gm_inode m) (gm_size m)) <$> members)
            (EInt keep_id) full_hash act with
    | Err _ => mret (Err PlanValueError)
    | Ok plan =>
        then_ (audit_ now by_ "remediation.plan.build" (plan_id plan)
                 [("keeper", JStr (keeper_path plan)); ("blast", JInt (Z.of_nat (length (items plan))))] "built")
          (λ _, mret (Ok plan))
    end.

Definition _make_job (now : datetime) (nonce : string) (plan : RemediationPlan) (mode : JobMode) (host : string) : ActionJob :=
  mk_action_job (plan_id plan) mode nonce now (dt_add now (seconds _job_ttl)) host (keeper_path plan)
    (items plan) (move_root plan).

Definition _make_scan_job (now : datetime) (nonce host root : string) (mode : ScanMode) : ScanJob :=
  mk_scan_job nonce now (dt_add now (seconds _job_ttl)) host root mode.

Definition dispatch_scan (now : datetime) (nonce by_ host root : string) (mode : ScanMode)
    (enqueue : SignedJob → result string unit) : stM orch (result OrchError string) :=
  let j := DScan (_make_scan_job now nonce host root mode) in
  let signed := sign j in
  then_ (audit_ now by_ "scan.dispatch" (ledger_ref j)
           [("nonce", JStr nonce); ("root", JStr root); ("mode", JStr (scan_mode_value mode)); ("host", JStr host)]
           "enqueued")
    (λ _, then_ (send enqueue signed) (λ _, mret (Ok nonce))).

Definition sorted_keys (m : drift_report) : list json := JStr <$> stable_sort String.le (map_to_list m).*1.

Definition dry_run (now : datetime) (nonce : string) (plan : RemediationPlan) (host : string)
    (dispatch : SignedJob → result string drift_report) : stM orch (result OrchError drift_report) :=
  let signed := sign (DAction (_make_job now nonce plan DRY_RUN host)) in
  then_ (audit_ now (created_by plan) "remediation.dry_run.dispatch" (plan_id plan)
           [("nonce", JStr nonce); ("items", JInt (Z.of_nat (length (items plan))))] "dispatched")
    (λ _, then_ (send dispatch signed) (λ report,
      then_ (audit_ now (created_by plan) "remediation.dry_run.result" (plan_id plan)
               [("drifted", JList (sorted_keys report))]
               (if bool_decide (report = ∅) then "ok" else "drift"))
        (λ _, mret (Ok report)))).

Fixpoint splice_all (rs : list AuditRecord) : stM orch (result OrchError unit) :=
  match rs with
  | [] => mret (Ok tt)
  | r :: rest => then_ (splice_ r) (λ _, splice_all rest)
  end.

Definition result_json (r : string * string * string) : json :=
  let '(e, a, s) := r in JList [JStr e; JStr a; JStr s].

(** The items that did not drift in the dry run. *)
Definition live_items (plan : RemediationPlan) (verify : drift_report) : list PlanItem :=
  filter (λ i, verify !! entry_str (entry_id i) = None) (items plan).

Definition execute (now : datetime) (nonce : string) (plan : RemediationPlan) (verify : drift_report)
    (host : string) (confirm_blast : bool) (dispatch : SignedJob → result string ExecuteOutcome)
    : stM orch (result OrchError (list (string * string * string))) :=
  let live := live_items plan verify in
  if bool_decide (live = []) then
    then_ (audit_ now (created_by plan) "remediation.execute.skip" (plan_id plan)
             [("reason", JStr "all items drifted")] "noop") (λ _, mret (Ok []))
  else if bool_decide (_blast_cap < length live) && negb confirm_blast then mret (Err BlastCapExceededError)
  else
    let subset := mk_plan (plan_id plan) (created_by plan) (keeper_path plan) live (move_root plan) in
    let signed := sign (DAction (_make_job now nonce subset EXECUTE host)) in
    then_ (audit_ now (created_by plan) "remediation.execute.dispatch" (plan_id plan)
             [("nonce", JStr nonce); ("items", JInt (Z.of_nat (length live)));
              ("dropped_drifted", JList (sorted_keys verify))] "dispatched")
      (λ _, then_ (send dispatch signed) (λ outcome,
        then_ (splice_all (eo_audit outcome)) (λ _,
          then_ (audit_ now (created_by plan) "remediation.execute.result" (plan_id plan)
                   [("results", JList (result_json <$> eo_results outcome))] "completed")
            (λ _, mret (Ok (eo_results outcome)))))).

(** ** Lemmas *)

Lemma then_run {A B} (m : stM orch (result OrchError A)) (k : A → stM orch (result OrchError B)) w r w' :
  then_ m k w = (r, w') ↔
  (∃ a w1, m w = (Ok a, w1) ∧ k a w1 = (r, w')) ∨ (∃ e, m w = (Err e, w') ∧ r = Err e).
Proof.
  unfold then_. rewrite bind_run. split.
  - intros ([a|e] & w1 & H1 & H2); [left; eauto|right]. apply ret_run in H2 as [<- <-]. eauto.
  - intros [(a & w1 & H1 & H2)|(e & H1 & ->)]; [by exists (Ok a), w1|by exists (Err e), w'].
Qed.

Lemma audit_run now a b c d e w r w' : audit_ now a b c d e w = (r, w') →
  o_sent w' = o_sent w ∧
  ((r = Err AuditError ∧ w' = w) ∨
   (r = Ok tt ∧ ∃ rec, sunk (o_chain w') = sunk (o_chain w) ++ [rec] ∧ actor rec = a ∧
      AuditLog.action rec = b ∧ target rec = c ∧ before_state rec = d ∧ result_ rec = e)).
Proof.
  unfold audit_, append, list_sink. destruct (refuses _); intros H; simplify_eq/=; split; [done|by left|done|].
  right. split; [done|]. eexists. by split_and!.
Qed.

Lemma splice_run r0 w r w' : splice_ r0 w = (r, w') →
  o_sent w' = o_sent w ∧
  ((r = Err AuditError ∧ w' = w) ∨
   (r = Ok tt ∧ ∃ rec, sunk (o_chain w') = sunk (o_chain w) ++ [rec] ∧ content_of rec = content_of r0)).
Proof.
  unfold splice_, splice, list_sink. destruct (refuses _); intros H; simplify_eq/=; split; [done|by left|done|].
  right. split; [done|]. eexists. by split_and!.
Qed.

Lemma splice_all_run rs w r w' : splice_all rs w = (r, w') →
  o_sent w' = o_sent w ∧
  ∃ k, sunk (o_chain w') = sunk (o_chain w) ++ k ∧ (content_of <$> k) `prefix_of` (content_of <$> rs) ∧
       (r = Ok tt → content_of <$> k = content_of <$> rs).
Proof.
  revert w. induction rs as [|r0 rs IH]; intros w H; simpl in H.
  - apply ret_run in H as [<- <-]. split; [done|]. exists []. by rewrite app_nil_r.
  - apply then_run in H as [(? & w1 & H1 & H)|(e & H1 & ->)]; apply splice_run in H1 as [E1 H1].
    + destruct H1 as [[? _]|(_ & rec & Es & Ec)]; [done|]. apply IH in H as (E & k & Ek & Hk & Hr).
      split; [congruence|]. exists (rec :: k). rewrite Ek, Es, <- app_assoc. split_and!; [done| |].
      * rewrite !fmap_cons, Ec. by apply prefix_cons.
      * intros E'. by rewrite !fmap_cons, Ec, Hr.
    + destruct H1 as [[_ ->]|[? _]]; [|done]. split; [done|]. exists []. rewrite app_nil_r.
      split_and!; [done|apply prefix_nil|done].
Qed.
(** *** The records continue the chain from where it was *)

Definition linked (h : string) (w : orch) : Prop :=
  verify_chain blake3 h (sunk (o_chain w)) = true ∧ AuditLog.head (o_chain w) = head_after h (sunk (o_chain w)).

Definition keeps_chain {A} (m : stM orch A) : Prop := ∀ h w r w', m w = (r, w') → linked h w → linked h w'.

Lemma keeps_ret {A} (a : A) : keeps_chain (mret a).
Proof. by intros h w r w' [<- <-]%ret_run. Qed.

Lemma keeps_then {A B} (m : stM orch (result OrchError A)) (k : A → stM orch (result OrchError B)) :
  keeps_chain m → (∀ a, keeps_chain (k a)) → keeps_chain (then_ m k).
Proof.
  intros Hm Hk h w r w' [(a & w1 & H1 & H2)|(e & H1 & _)]%then_run Hl; [|by eapply Hm].
  eapply Hk; [done|]. by eapply Hm.
Qed.

(** A sink either takes the record chained onto the head, or the state stays. *)
Lemma linked_snoc h w c s :
  linked h w → linked h (mk_orch (mk_chain (row_hash (chained blake3 c (AuditLog.head (o_chain w))))
                               (sunk (o_chain w) ++ [chained blake3 c (AuditLog.head (o_chain w))])) s).
Proof.
  intros [Hv Hh]. split; cbn [o_chain sunk AuditLog.head].
  - rewrite Hh. by apply verify_chain_chained.
  - by rewrite head_after_snoc.
Qed.

Lemma keeps_audit now a b c d e : keeps_chain (audit_ now a b c d e).
Proof.
  intros h w r w'. unfold audit_, append, list_sink. destruct (refuses _); cbn [mbind result_bind];
    intros [_ <-]%pair_equal_spec Hl; [done|]. exact (linked_snoc h w _ _ Hl).
Qed.

Lemma keeps_splice_all rs : keeps_chain (splice_all rs).
Proof.
  induction rs as [|x rs IH]; [apply keeps_ret|]. apply keeps_then; [|by intros []].
  intros h w r w'. unfold splice_, splice, list_sink. destruct (refuses _); cbn [mbind result_bind];
    intros [_ <-]%pair_equal_spec Hl; [done|]. rewrite rechain_chained. exact (linked_snoc h w _ _ Hl).
Qed.

Lemma keeps_send {A} (dispatch : SignedJob → result string A) s : keeps_chain (send dispatch s).
Proof. by intros h w r w' [= _ <-]. Qed.

Lemma keeps_build now pid members keep fh by_ act : keeps_chain (build now pid members keep fh by_ act).
Proof.
  unfold build. destruct (negb _); [apply keeps_ret|]. destruct (build_plan _ _ _ _ _ _); [|apply keeps_ret].
  apply keeps_then; [apply keeps_audit|]. intros _. apply keeps_ret.
Qed.

Lemma keeps_dry_run now nonce plan host dispatch : keeps_chain (dry_run now nonce plan host dispatch).
Proof.
  unfold dry_run. apply keeps_then; [apply keeps_audit|]. intros _. apply keeps_then; [apply keeps_send|]. intros report.
  apply keeps_then; [apply keeps_audit|]. intros _. apply keeps_ret.
Qed.

Lemma keeps_execute now nonce plan verify host confirm dispatch : keeps_chain (execute now nonce plan verify host confirm dispatch).
Proof.
  unfold execute. case_bool_decide; [apply keeps_then; [apply keeps_audit|intros _; apply keeps_ret]|].
  destruct (_ && negb confirm); [apply keeps_ret|].
  apply keeps_then; [apply keeps_audit|]. intros _. apply keeps_then; [apply keeps_send|]. intros o.
  apply keeps_then; [apply keeps_splice_all|]. intros _. apply keeps_then; [apply keeps_audit|]. intros _. apply keeps_ret.
Qed.

(** *** What a dry run sends and logs *)

Lemma dry_run_run now nonce plan host dispatch w r w' :
  dry_run now nonce plan host dispatch w = (r, w') →
  let s := sign (DAction (_make_job now nonce plan DRY_RUN host)) in
  (w' = w ∧ r = Err AuditError ∧ ∃ a b c x d, (audit_ now a b c x d w).1 = Err AuditError) ∨
  ∃ rec, o_sent w' = o_sent w ++ [s] ∧ AuditLog.action rec = "remediation.dry_run.dispatch" ∧ target rec = plan_id plan ∧
    ((∃ e, r = Err e ∧ sunk (o_chain w') = sunk (o_chain w) ++ [rec]) ∨
     ∃ report rec', r = Ok report ∧ dispatch s = Ok report ∧ sunk (o_chain w') = sunk (o_chain w) ++ [rec; rec'] ∧
       AuditLog.action rec' = "remediation.dry_run.result" ∧ target rec' = plan_id plan).
Proof.
  unfold dry_run. set (s := sign _). intros [(u & w1 & H1 & H)|(e & H1 & ->)]%then_run; pose proof H1 as Hw; apply audit_run in H1 as [Es1 H1].
  2: { destruct H1 as [[[= ->] ->]|[? _]]; [left|done]. split_and!; [done..|]. do 5 eexists. by rewrite Hw. }
  clear Hw.
  right. destruct H1 as [[? _]|(_ & rec & Ek1 & _ & Ea & Et & _)]; [done|]. exists rec.
  apply then_run in H as [(report & w2 & H2 & H)|(e & H2 & ->)]; unfold send in H2; injection H2 as Er <-.
  2: { split_and!; [by rewrite <- Es1|done..|]. left. by exists e. }
  destruct (dispatch s) as [x|m] eqn:Ed; [|done]. injection Er as ->.
  apply then_run in H as [(v & w3 & H3 & H)|(e & H3 & ->)]; apply audit_run in H3 as [Es3 H3]; cbn in Es3.
  - destruct H3 as [[? _]|(_ & rec' & Ek3 & _ & Ea' & Et' & _)]; [done|]. apply ret_run in H as [<- <-].
    split_and!; [by rewrite Es3, Es1|done..|]. right. exists report, rec'. split_and!; try done. cbn in Ek3. by rewrite Ek3, Ek1, <- app_assoc.
  - destruct H3 as [[_ ->]|[? _]]; [|done]. split_and!; [by rewrite Es1|done..|]. left. by exists e.
Qed.
End Orchestrator.

(** ** Properties *)

Section OrchestratorProperties.
Context (blake3 : string → string) (refuses : AuditRecord → bool).
Context (sign : DispatchJob → SignedJob) (cap : nat) (ttl : Z).
Abbreviation execute := (execute blake3 refuses sign cap ttl).

(** [execute] hands out at most one job, and only after its dispatch record is on the chain:
    a signed EXECUTE job for the given host and window with exactly the items of the plan that did
    not drift, within the blast cap unless confirmed.  If the chain refuses the record, nothing is
    sent. *)
Theorem execute_sends_live_items_audited now nonce plan verify host confirm dispatch w r w' :
  execute now nonce plan verify host confirm dispatch w = (r, w') →
  o_sent w' = o_sent w ∨
  let live := live_items plan verify in
  ∃ j rec, o_sent w' = o_sent w ++ [sign (DAction j)] ∧
    a_mode j = EXECUTE ∧ a_host_id j = host ∧ a_nonce j = nonce ∧ a_issued_at j = now ∧
    instant (a_expires_at j) = (instant now + seconds ttl)%Z ∧ a_plan_id j = plan_id plan ∧
    a_items j = live ∧ live ≠ [] ∧ Forall (λ i, verify !! entry_str (entry_id i) = None) (a_items j) ∧
    (confirm = true ∨ length live ≤ cap) ∧
    sunk (o_chain w) ++ [rec] `prefix_of` sunk (o_chain w') ∧
    AuditLog.action rec = "remediation.execute.dispatch" ∧ target rec = plan_id plan.
Proof.
  unfold Orchestrator.execute. set (live := live_items plan verify). intros H.
  destruct (bool_decide_reflect (live = [])) as [El|El].
  { left. apply then_run in H as [(a & w1 & H1 & H)|(e & H1 & _)]; apply audit_run in H1 as [<- _].
    - by apply ret_run in H as [_ <-].
    - done. }
  destruct (bool_decide (cap < length live) && negb confirm) eqn:Ec; [left; by apply ret_run in H as [_ <-]|].
  apply then_run in H as [(a & w1 & H1 & H)|(e & H1 & _)]; apply audit_run in H1 as [Es1 H1]; [|by left].
  right. destruct H1 as [[[=] _]|(_ & rec & Ek & _ & Ea & Et & _)].
  exists (_make_job ttl now nonce (mk_plan (plan_id plan) (created_by plan) (keeper_path plan) live (move_root plan)) EXECUTE host), rec.
  set (j := _make_job _ _ _ _ _ _) in *.
  assert (o_sent w' = o_sent w1 ++ [sign (DAction j)] ∧ sunk (o_chain w1) `prefix_of` sunk (o_chain w')) as [Hsent Hpre].
  { apply then_run in H as [(o & w2 & H2 & H)|(e & H2 & _)]; unfold send in H2; injection H2 as Er <-; [|by simpl].
    apply then_run in H as [(b & w3 & H3 & H)|(e & H3 & _)]; apply splice_all_run in H3 as (E3 & k & Ek3 & _);
      simpl in *; [|split; [congruence|rewrite Ek3; by eexists]].
    apply then_run in H as [(c & w4 & H4 & H)|(e & H4 & _)]; apply audit_run in H4 as [E4 H4].
    - apply ret_run in H as [_ <-]. destruct H4 as [[? _]|(_ & rec' & Ek4 & _)]; [done|].
      split; [congruence|]. rewrite Ek4, Ek3, <- app_assoc. by eexists.
    - destruct H4 as [[_ ->]|[? _]]; [|done]. split; [congruence|rewrite Ek3; by eexists]. }
  rewrite Hsent, Es1. split_and!; try done.
  - unfold j. simpl. apply instant_add.
  - apply Forall_forall. intros i Hi. by apply list_elem_of_filter in Hi as [? _].
  - to_prop. destruct Ec; to_prop; [right; lia|by left].
  - by rewrite <- Ek.
Qed.

(** when [execute] returns, the chain reads dispatch, then the actor's records with their
    content, then the result; or every item had drifted, nothing was sent and a skip was logged. *)
Theorem execute_chain_reads_dispatch_acts_result now nonce plan verify host confirm dispatch w results w' :
  execute now nonce plan verify host confirm dispatch w = (Ok results, w') →
  (live_items plan verify = [] ∧ results = [] ∧ o_sent w' = o_sent w ∧
   ∃ rec, sunk (o_chain w') = sunk (o_chain w) ++ [rec] ∧ AuditLog.action rec = "remediation.execute.skip") ∨
  ∃ signed outcome rec1 acts rec2,
    o_sent w' = o_sent w ++ [signed] ∧ dispatch signed = Ok outcome ∧ results = eo_results outcome ∧
    sunk (o_chain w') = sunk (o_chain w) ++ [rec1] ++ acts ++ [rec2] ∧
    AuditLog.action rec1 = "remediation.execute.dispatch" ∧
    content_of <$> acts = content_of <$> eo_audit outcome ∧
    AuditLog.action rec2 = "remediation.execute.result" ∧
    before_state rec2 = [("results", JList (result_json <$> results))].
Proof.
  unfold Orchestrator.execute. set (live := live_items plan verify). intros H.
  destruct (bool_decide_reflect (live = [])) as [El|El].
  { left. apply then_run in H as [(a & w1 & H1 & H)|(e & _ & [=])]. apply audit_run in H1 as [Es1 H1].
    apply ret_run in H as [[= <-] <-]. destruct H1 as [[? _]|(_ & rec & Ek & _ & Ea & _)]; [done|]. split_and!; [done..|].
    by exists rec. }
  destruct (_ && negb confirm); [by apply ret_run in H as [? _]|]. right.
  apply then_run in H as [(a & w1 & H1 & H)|(e & _ & [=])]. apply audit_run in H1 as [Es1 H1].
  destruct H1 as [[[=] _]|(_ & rec1 & Ek1 & _ & Ea1 & _)].
  apply then_run in H as [(o & w2 & H2 & H)|(e & _ & [=])]. unfold send in H2. injection H2 as Er <-.
  match type of Er with context [dispatch ?x] => set (signed := x) in * end.
  destruct (dispatch signed) as [o'|m] eqn:Ed; [|done]. injection Er as ->.
  apply then_run in H as [(b & w3 & H3 & H)|(e & _ & [=])]. apply splice_all_run in H3 as (E3 & acts & Ek3 & _ & Hc).
  destruct b. specialize (Hc eq_refl).
  apply then_run in H as [(c & w4 & H4 & H)|(e & _ & [=])]. apply audit_run in H4 as [E4 H4].
  apply ret_run in H as [[= <-] <-]. destruct H4 as [[[=] _]|(_ & rec2 & Ek4 & _ & Ea2 & _ & Eb2 & _)].
  exists signed, o, rec1, acts, rec2. simpl in *. split_and!; try done; [congruence|].
  rewrite Ek4, Ek3, Ek1, <- !app_assoc. done.
Qed.
End OrchestratorProperties.

(** ** Witnesses *)

Definition demo_orch : orch := mk_orch (mk_chain (W := list AuditRecord) GENESIS_HASH []) [].

Definition two_items : RemediationPlan :=
  mk_plan "p1" "alice" "/srv/k" [demo_item (EInt 7); demo_item (EInt 8)] None.

Definition demo_outcome : ExecuteOutcome :=
  mk_exec_outcome [("7", "quarantine", "quarantined")] [demo_record demo_before].

Definition demo_execute :=
  execute demo_hash (λ _, false) (ed25519_sign toy_sign "k1") 1 300 (at_second 1) "0123456789abcdef" two_items
    (<["8" := "missing"]> ∅) "host-1" false (λ _, Ok demo_outcome) demo_orch.

Lemma execute_chain_reads_dispatch_acts_result_witness :
  ∃ rec1 acts rec2, sunk (o_chain demo_execute.2) = [rec1] ++ acts ++ [rec2] ∧
    content_of <$> acts = [content_of (demo_record demo_before)].
Proof.
  assert (demo_execute.1 = Ok [("7", "quarantine", "quarantined")]) as E by (vm_compute; reflexivity).
  destruct (execute_chain_reads_dispatch_acts_result demo_hash (λ _, false) (ed25519_sign toy_sign "k1") 1 300
    (at_second 1) "0123456789abcdef" two_items (<["8" := "missing"]> ∅) "host-1" false (λ _, Ok demo_outcome)
    demo_orch [("7", "quarantine", "quarantined")] demo_execute.2) as [(_ & [=] & _ & _)|(s & o & r1 & acts & r2 & _ & Eo & _ & H1 & _ & H2 & _)].
  - rewrite <- E. exact (surjective_pairing _).
  - injection Eo as <-. exact (ex_intro _ r1 (ex_intro _ acts (ex_intro _ r2 (conj H1 H2)))).
Defined.
