(* ===== verification/Coordinator.v ===== *)
(** Agent runs and scan leases ([src/fathom/core/agent_runs.py], [core/scan_coordinator.py], the two
    routes of [api/routers/ingest.py] and [api/routers/scan_coordinator.py] that call them).

    The three tables are lists of rows in id order.  An operation here is a whole transaction, as on SQLite, which has one
    writer; [Leases] has the request as the statements it is made of and interleaves them.  A timestamp is its instant in microseconds. *)

From stdpp Require Import gmap.
From S2P Require Import Prelude PyStr PyTime Sql Catalogue Rbac.

(** ** The tables *)

Record AgentRun := mk_run {
  run_id : Z; r_host_id : Z; started_at : Z; finished_at : Z; outcome : string; entries_seen : Z;
  rows_changed : Z; pushed : Z; scopes_total : Z; scopes_failed : Z; finalized : option Z;
  error_summary : option string; agent_version : option string; reported_config : option string;
  created_at : Z;
}.

Inductive LeaseStatus := LEASE_ACTIVE | LEASE_RELEASED | LEASE_EXPIRED | LEASE_DEFERRED.

#[export] Instance LeaseStatus_eq_dec : EqDecision LeaseStatus.
Proof. solve_decision. Defined.

Record ScanLease := mk_lease {
  l_id : Z; l_host_id : Z; is_heavy : bool; status : LeaseStatus; reason : option string;
  blocking_host_id : option Z; retry_after_seconds : option Z; granted_at : Z;
  expires_at : option Z; released_at : option Z;
}.

Record coord_db := mk_cdb { hosts : list Host; runs : list AgentRun; leases : list ScanLease }.

Record Settings := mk_settings {
  scan_coordinator_enabled : bool; max_concurrent_heavy : Z; heavy_entries : Z;
  lease_ttl_seconds : Z; settings_retry_after_seconds : Z;
}.

(** The bounds pydantic enforces on the settings. *)
Definition settings_ok (s : Settings) : Prop :=
  (1 ≤ max_concurrent_heavy s ∧ 1 ≤ heavy_entries s ∧ 60 ≤ lease_ttl_seconds s ∧
   60 ≤ settings_retry_after_seconds s)%Z.

Definition set_leases (l : list ScanLease) (d : coord_db) : coord_db := mk_cdb (hosts d) (runs d) l.

(** [session.get(Host, id)], and the lookup by the UNIQUE fingerprint. *)
Definition get_host (d : coord_db) (id : Z) : option Host :=
  head (filter (λ h, h_id h = id) (hosts d)).
Definition host_by_fingerprint (d : coord_db) (fp : string) : option Host :=
  head (filter (λ h, cert_fingerprint h = fp) (hosts d)).

(** ** [core/agent_runs.py] *)

Definition OUTCOME_OK : string := "ok".
Definition OUTCOME_PARTIAL : string := "partial".
Definition OUTCOME_FAILED : string := "failed".

Definition _derive_outcome (total failed : Z) : string :=
  if ((total =? 0) || (total <=? failed))%Z then OUTCOME_FAILED
  else if (0 <? failed)%Z then OUTCOME_PARTIAL
  else OUTCOME_OK.

Record AgentRunScopeFrame := mk_frame {
  root : string; f_entries_seen : Z; f_rows_changed : Z; error : option string;
}.

Record AgentRunReport := mk_report {
  rp_started_at : Z; rp_finished_at : Z; rp_pushed : Z; rp_finalized : option Z;
  rp_agent_version : option string; scopes : list AgentRunScopeFrame;
  rp_reported_config : option string;
}.

Definition failed (r : AgentRunReport) : list AgentRunScopeFrame :=
  filter (λ s, error s ≠ None) (scopes r).

(** [failed[0].error[:1024] if failed and failed[0].error else None]. *)
Definition summary (r : AgentRunReport) : option string :=
  match failed r with
  | s :: _ => match error s with
              | Some e => if bool_decide (e = "") then None else Some (String.substring 0 1024 e)
              | None => None
              end
  | [] => None
  end.

Definition mirror_config (id : Z) (c : option string) (h : Host) : Host :=
  match c with
  | Some _ => if bool_decide (h_id h = id) then mk_host (h_id h) (h_name h) (h_os h) (h_agent_version h) (cert_fingerprint h) (last_seen h) c
                   (desired_config h) (facts h)
              else h
  | None => h
  end.

(** [created] is the server default of [created_at]. *)
Definition record_agent_run (fp : string) (report : AgentRunReport) (created : Z) (d : coord_db)
    : option AgentRun * coord_db :=
  match host_by_fingerprint d fp with
  | None => (None, d)
  | Some host =>
      let total := Z.of_nat (length (scopes report)) in
      let nfailed := Z.of_nat (length (failed report)) in
      let run := mk_run (next_id run_id (runs d)) (h_id host) (rp_started_at report)
        (rp_finished_at report) (_derive_outcome total nfailed)
        (sumZ (f_entries_seen <$> scopes report)) (sumZ (f_rows_changed <$> scopes report))
        (rp_pushed report) total nfailed (rp_finalized report) (summary report)
        (rp_agent_version report) (rp_reported_config report) created in
      (Some run,
       mk_cdb (mirror_config (h_id host) (rp_reported_config report) <$> hosts d) (runs d ++ [run])
         (leases d))
  end.

(** The rows of [latest_run_by_host]: a run joins when its [created_at] is the maximum of its
    host's; they come by host, then by descending id. *)
Definition is_latest (all : list AgentRun) (r : AgentRun) : bool :=
  forallb (λ r', negb (bool_decide (r_host_id r' = r_host_id r)) || (created_at r' <=? created_at r)%Z) all.

Definition run_order (a b : AgentRun) : Prop :=
  (r_host_id a < r_host_id b ∨ r_host_id a = r_host_id b ∧ run_id b ≤ run_id a)%Z.

#[export] Instance run_order_dec : RelDecision run_order.
Proof. intros a b. apply _. Defined.

Definition setdefault (out : gmap Z AgentRun) (r : AgentRun) : gmap Z AgentRun :=
  match out !! r_host_id r with Some _ => out | None => <[r_host_id r := r]> out end.

Definition latest_run_by_host (d : coord_db) (ids : list Z) : gmap Z AgentRun :=
  let rows := filter (λ r, r_host_id r ∈ ids) (filter (λ r, is_latest (runs d) r) (runs d)) in
  foldl setdefault ∅ (stable_sort run_order rows).

#[export] Instance run_order_total : Total run_order.
Proof. intros a b. unfold run_order. lia. Qed.
#[export] Instance run_order_trans : Transitive run_order.
Proof. intros a b c. unfold run_order. lia. Qed.

(** ** [core/scan_coordinator.py] *)

Record LeaseDecision := mk_decision {
  granted : bool; d_status : LeaseStatus; d_reason : option string; d_retry_after : option Z;
  blocking_host : option string;
}.

Definition grant_decision : LeaseDecision := mk_decision true LEASE_ACTIVE None None None.

Definition host_is_heavy (s : Settings) (d : coord_db) (host_id : Z) : bool :=
  match latest_run_by_host d [host_id] !! host_id with
  | None => true
  | Some run => (heavy_entries s <=? entries_seen run)%Z
  end.

Definition active (l : ScanLease) : bool := bool_decide (status l = LEASE_ACTIVE).

Definition set_status (st : LeaseStatus) (released : option Z) (l : ScanLease) : ScanLease :=
  mk_lease (l_id l) (l_host_id l) (is_heavy l) st (reason l) (blocking_host_id l)
    (retry_after_seconds l) (granted_at l) (expires_at l) released.

(** [status = active AND expires_at <= now]; a NULL does not compare. *)
Definition stale (now : Z) (l : ScanLease) : bool :=
  active l && match expires_at l with Some e => (e <=? now)%Z | None => false end.

Definition _expire_stale (now : Z) (d : coord_db) : coord_db :=
  set_leases (update_where (stale now) (λ l, set_status LEASE_EXPIRED (released_at l) l) (leases d)) d.

Definition release_lease (host_id now : Z) (d : coord_db) : Z * coord_db :=
  let p l := bool_decide (l_host_id l = host_id) && active l in
  (Z.of_nat (length (filter p (leases d))),
   set_leases (update_where p (set_status LEASE_RELEASED (Some now)) (leases d)) d).

(** [granted] is the server default of [granted_at]. *)
Definition _grant (s : Settings) (host_id : Z) (heavy : bool) (now granted : Z) (d : coord_db) : coord_db :=
  set_leases (leases d ++ [mk_lease (next_id l_id (leases d)) host_id heavy LEASE_ACTIVE None None None
                             granted (Some (now + seconds (lease_ttl_seconds s))%Z) None]) d.

Definition active_heavy (d : coord_db) : list ScanLease :=
  filter (λ l, active l && is_heavy l) (leases d).

Section Names.
(** [str(host_id)], in the fallback of a blocking host without a row. *)
Variable str_of_int : Z → string.

Definition blocking_name (d : coord_db) (id : Z) : string :=
  match get_host d id with Some h => h_name h | None => "host " +:+ str_of_int id end.

Definition defer_reason (blocking : string) : string :=
  "a heavy scan on " +:+ blocking +:+ " is in progress; deferring to avoid overloading the core".

(** An exception ([active_heavy[0]] of an empty list, only without a bound on the settings) rolls
    the transaction back. *)
Definition request_lease (s : Settings) (host_id now granted : Z) (d : coord_db)
    : result string (LeaseDecision * coord_db) :=
  let d := (release_lease host_id now (_expire_stale now d)).2 in
  if negb (host_is_heavy s d host_id) then Ok (grant_decision, _grant s host_id false now granted d)
  else if (Z.of_nat (length (active_heavy d)) <? max_concurrent_heavy s)%Z
  then Ok (grant_decision, _grant s host_id true now granted d)
  else match active_heavy d with
  | [] => Err "IndexError"
  | b :: _ =>
      let blocking := blocking_name d (l_host_id b) in
      let why := defer_reason blocking in
      Ok (mk_decision false LEASE_DEFERRED (Some why) (Some (settings_retry_after_seconds s)) (Some blocking),
          set_leases (leases d ++ [mk_lease (next_id l_id (leases d)) host_id true LEASE_DEFERRED (Some why)
                                     (Some (l_host_id b)) (Some (settings_retry_after_seconds s)) granted
                                     None None]) d)
  end.

Record AdvisoryRow := mk_advisory {
  host_name : string; a_status : LeaseStatus; a_is_heavy : bool; a_reason : option string;
  a_blocking_host : option string; a_retry_after : option Z; a_granted_at : Z;
}.

(** [ORDER BY granted_at DESC, id DESC]. *)
Definition newest_first (a b : ScanLease) : Prop :=
  (granted_at b < granted_at a ∨ granted_at a = granted_at b ∧ l_id b ≤ l_id a)%Z.

#[export] Instance newest_first_dec : RelDecision newest_first.
Proof. intros a b. apply _. Defined.

(** The inner join drops a lease without its host; the outer join leaves a missing blocker NULL. *)
Definition advisory (d : coord_db) (l : ScanLease) : option AdvisoryRow :=
  h ← get_host d (l_host_id l);
  Some (mk_advisory (h_name h) (status l) (is_heavy l) (reason l)
          (b ← blocking_host_id l; h_name <$> get_host d b) (retry_after_seconds l) (granted_at l)).

Definition in_read_scope (scope : option ScopeFilter) (l : ScanLease) : bool :=
  match scope with Some f => apply f (Some l_host_id) None None l | None => true end.

Definition recent_advisories (scope : option ScopeFilter) (limit : Z) (d : coord_db) : list AdvisoryRow :=
  takeZ limit (omap (advisory d) (stable_sort newest_first (filter (λ l, in_read_scope scope l) (leases d)))).

(** ** The routes *)

Definition request_scan_lease (s : Settings) (fp : string) (now granted : Z) (d : coord_db)
    : result string (LeaseDecision * coord_db) :=
  if negb (scan_coordinator_enabled s) then Ok (grant_decision, d)
  else match host_by_fingerprint d fp with
  | None => Ok (grant_decision, d)
  | Some host => request_lease s (h_id host) now granted d
  end.

Definition report_run (s : Settings) (fp : string) (report : AgentRunReport) (now created : Z) (d : coord_db)
    : (Z * Z * string) * coord_db :=
  match record_agent_run fp report created d with
  | (None, d) => ((0, 0, "unknown_host")%Z, d)
  | (Some run, d) =>
      ((run_id run, r_host_id run, outcome run),
       if scan_coordinator_enabled s then (release_lease (r_host_id run) now d).2 else d)
  end.

(** ** The newest run *)

(** [out.setdefault] keeps the first row of each host. *)
Lemma foldl_setdefault l (out : gmap Z AgentRun) h :
  foldl setdefault out l !! h =
  match out !! h with Some r => Some r | None => hd_error (filter (λ r, r_host_id r = h) l) end.
Proof.
  revert out. induction l as [|r l IH]; intros out; simpl; [by destruct (out !! h)|].
  rewrite IH, filter_cons. unfold setdefault. destruct (decide (r_host_id r = h)) as [<-|Hne].
  - destruct (out !! r_host_id r) as [r'|] eqn:E; [by rewrite E|]. by rewrite lookup_insert_eq.
  - destruct (out !! r_host_id r); [done|]. by rewrite lookup_insert_ne.
Qed.

Lemma first_is_least {A} (R : relation A) (P : A → Prop) `{!∀ x, Decision (P x)} l r :
  StronglySorted R l → hd_error (filter P l) = Some r →
  r ∈ l ∧ P r ∧ ∀ r', r' ∈ l → P r' → r' = r ∨ R r r'.
Proof.
  induction 1 as [|x l Hl IH Hx]; [done|]. rewrite filter_cons. case_decide as Hp; simpl.
  - intros [= ->]. split_and!; [left|done|]. intros r' [->|Hr']%elem_of_cons _; [by left|].
    right. rewrite Forall_forall in Hx. by apply Hx.
  - intros (Hin & Hr & Hall)%IH. split_and!; [by right|done|].
    intros r' [->|Hr']%elem_of_cons Hp'; [done|]. by apply Hall.
Qed.

Definition newer_or_same (r' r : AgentRun) : Prop :=
  (created_at r' < created_at r ∨ created_at r' = created_at r ∧ run_id r' ≤ run_id r)%Z.

Definition latest_rows (d : coord_db) (ids : list Z) : list AgentRun :=
  filter (λ r, r_host_id r ∈ ids) (filter (λ r, is_latest (runs d) r) (runs d)).

Lemma elem_of_latest_rows d ids r :
  r ∈ latest_rows d ids ↔ r ∈ runs d ∧ r_host_id r ∈ ids ∧
    ∀ r', r' ∈ runs d → r_host_id r' = r_host_id r → (created_at r' ≤ created_at r)%Z.
Proof.
  unfold latest_rows. rewrite !list_elem_of_filter, Is_true_true. unfold is_latest.
  rewrite forallb_forall. setoid_rewrite <- list_elem_of_In. split.
  - intros (Hh & Hl & Hr). split_and!; [done..|]. intros r' Hr' Heq. specialize (Hl r' Hr').
    apply orb_true_iff in Hl as [Hl|Hl]; to_prop; [done|lia].
  - intros (Hr & Hh & Hl). split_and!; [done| |done]. intros r' Hr'. apply orb_true_iff.
    destruct (decide (r_host_id r' = r_host_id r)) as [Heq|Hne].
    + right. apply Z.leb_le. by apply Hl.
    + left. by rewrite bool_decide_false.
Qed.

Lemma latest_lookup d ids h :
  latest_run_by_host d ids !! h =
  hd_error (filter (λ r, r_host_id r = h) (stable_sort run_order (latest_rows d ids))).
Proof. unfold latest_run_by_host. by rewrite foldl_setdefault, lookup_empty. Qed.

Lemma latest_run_some d ids h r :
  latest_run_by_host d ids !! h = Some r →
  h ∈ ids ∧ r ∈ runs d ∧ r_host_id r = h ∧
  ∀ r', r' ∈ runs d → r_host_id r' = h → newer_or_same r' r.
Proof.
  rewrite latest_lookup. intros H. apply (first_is_least run_order) in H as (Hin & <- & Hall).
  2:{ apply StronglySorted_stable_sort; apply _. }
  rewrite stable_sort_Permutation in Hin. pose proof Hin as (Hr & Hids & Hmax)%elem_of_latest_rows.
  split_and!; [done..|]. intros r' Hr' Heq. unfold newer_or_same.
  destruct (decide (created_at r' = created_at r)) as [Hc|Hc]; [|specialize (Hmax r' Hr' Heq); lia].
  right. split; [done|]. destruct (Hall r') as [->|Ho]; [|done|done|unfold run_order in Ho; lia].
  rewrite stable_sort_Permutation. apply elem_of_latest_rows. rewrite Heq, Hc. done.
Qed.

Lemma latest_run_none d ids h :
  h ∈ ids → latest_run_by_host d ids !! h = None → ∀ r, r ∈ runs d → r_host_id r ≠ h.
Proof.
  rewrite latest_lookup. intros Hh H r Hr Heq.
  assert (∃ m, m ∈ filter (λ r, r_host_id r = h) (runs d) ∧
    ∀ r', r' ∈ filter (λ r, r_host_id r = h) (runs d) → (created_at r' ≤ created_at m)%Z) as (m & Hm & Hmax).
  { assert (r ∈ filter (λ r, r_host_id r = h) (runs d)) as Hf by (by apply list_elem_of_filter).
    revert Hf. generalize (filter (λ r, r_host_id r = h) (runs d)). clear. intros l. revert r.
    induction l as [|x l IH]; intros r Hf; [by apply elem_of_nil in Hf|].
    destruct l as [|y l']; [exists x; split; [left|]; intros r' ->%list_elem_of_singleton; lia|].
    destruct (IH y ltac:(left)) as (m & Hm & Hmax).
    destruct (Z.le_gt_cases (created_at x) (created_at m)).
    - exists m. split; [by right|]. intros r' [->|Hr']%elem_of_cons; [done|by apply Hmax].
    - exists x. split; [left|]. intros r' [->|Hr']%elem_of_cons; [lia|]. specialize (Hmax r' Hr'). lia. }
  apply list_elem_of_filter in Hm as [Hmh Hm].
  assert (m ∈ filter (λ r, r_host_id r = h) (stable_sort run_order (latest_rows d ids))) as Hin.
  { apply list_elem_of_filter. split; [done|]. rewrite stable_sort_Permutation. apply elem_of_latest_rows.
    rewrite Hmh. split_and!; [done..|]. intros r' Hr' Hr'h. apply Hmax. by apply list_elem_of_filter. }
  destruct (filter _ _); [by apply elem_of_nil in Hin|done].
Qed.

(** ** Histories *)

(** Requests at their times, in the order in which their transactions commit; [ONewHost] is the
    first ingest of a host. *)
Inductive cop :=
| ORequest (fp : string) (now granted : Z)
| OReport (fp : string) (report : AgentRunReport) (now created : Z)
| ONewHost (h : Host).

Definition op_time (o : cop) : Z :=
  match o with ORequest _ now _ | OReport _ _ now _ => now | ONewHost _ => 0 end.

(** A request that raises rolls back. *)
Definition cstep (s : Settings) (d : coord_db) (o : cop) : coord_db :=
  match o with
  | ORequest fp now granted =>
      match request_scan_lease s fp now granted d with Ok (_, d') => d' | Err _ => d end
  | OReport fp report now created => (report_run s fp report now created d).2
  | ONewHost h => mk_cdb (hosts d ++ [h]) (runs d) (leases d)
  end.

Definition history (s : Settings) (ops : list cop) : coord_db := foldl (cstep s) (mk_cdb [] [] []) ops.

(** ** Leases under updates *)

Definition actives (d : coord_db) : list ScanLease := filter (λ l, active l) (leases d).

(** What an update that deactivates the rows of [p] leaves active. *)
Lemma filter_update (p q : ScanLease → bool) f l :
  (∀ x, p x = true → q (f x) = false) →
  filter (λ x, q x) (update_where p f l) = filter (λ x, q x && negb (p x)) l.
Proof.
  intros Hf. induction l as [|x l IH]; [done|]. simpl. rewrite !filter_cons, IH.
  destruct (p x) eqn:Hp; simpl.
  - rewrite Hf by done. rewrite andb_false_r. done.
  - by rewrite andb_true_r.
Qed.

(** The leases that a request of [host_id] at [now] finds held by others. *)
Definition other_leases (host_id now : Z) (d : coord_db) : list ScanLease :=
  filter (λ l, negb (stale now l) && negb (bool_decide (l_host_id l = host_id))) (actives d).

Definition cleared (host_id now : Z) (d : coord_db) : coord_db :=
  (release_lease host_id now (_expire_stale now d)).2.

Lemma actives_cleared host_id now d : actives (cleared host_id now d) = other_leases host_id now d.
Proof.
  unfold actives, cleared, release_lease, _expire_stale, other_leases, actives. simpl.
  rewrite filter_update by done.
  rewrite (filter_ext_b _ (λ x, active x && negb (bool_decide (l_host_id x = host_id)))).
  2:{ intros x. destruct (active x); simpl; [by rewrite andb_true_r|done]. }
  rewrite filter_update by done. rewrite filter_and. apply filter_ext_b. intros x.
  destruct (active x); simpl; [|done]. apply andb_comm.
Qed.

Lemma active_heavy_actives d : active_heavy d = filter (λ l, is_heavy l) (actives d).
Proof. unfold active_heavy, actives. symmetry. apply filter_and. Qed.

Lemma host_is_heavy_cleared s host_id now d h :
  host_is_heavy s (cleared host_id now d) h = host_is_heavy s d h.
Proof. done. Qed.

Lemma actives_snoc d l :
  actives (set_leases (leases d ++ [l]) d) = actives d ++ (if active l then [l] else []).
Proof.
  unfold actives. simpl. rewrite filter_app. f_equal. rewrite filter_cons. by destruct (active l).
Qed.

(** The lease that a grant adds. *)
Definition is_grant_of (s : Settings) (host_id : Z) (heavy : bool) (now : Z) (l : ScanLease) : Prop :=
  l_host_id l = host_id ∧ is_heavy l = heavy ∧ status l = LEASE_ACTIVE ∧
  expires_at l = Some (now + seconds (lease_ttl_seconds s))%Z.

(** The three outcomes of a request. *)
Definition request_spec (s : Settings) (host_id now : Z) (d : coord_db) (dec : LeaseDecision)
    (d' : coord_db) : Prop :=
  let others := other_leases host_id now d in
  let heavy := host_is_heavy s d host_id in
  let held := filter (λ l, is_heavy l) others in
  if negb heavy || (Z.of_nat (length held) <? max_concurrent_heavy s)%Z
  then dec = grant_decision ∧ ∃ l, is_grant_of s host_id heavy now l ∧ actives d' = others ++ [l]
  else granted dec = false ∧ d_retry_after dec = Some (settings_retry_after_seconds s) ∧
       actives d' = others ∧
       ∃ b, b ∈ held ∧ blocking_host dec = Some (blocking_name d (l_host_id b)).

Lemma request_lease_total s host_id now gr d :
  settings_ok s → ∃ dec d',
  request_lease s host_id now gr d = Ok (dec, d') ∧ request_spec s host_id now d dec d'.
Proof.
  intros Hs. unfold request_lease, request_spec, _grant. fold (cleared host_id now d).
  rewrite host_is_heavy_cleared, active_heavy_actives, actives_cleared.
  set (held := filter _ (other_leases host_id now d)).
  destruct (host_is_heavy s d host_id); cbn [negb orb].
  - destruct (Z.ltb_spec (Z.of_nat (length held)) (max_concurrent_heavy s)) as [Hlt|Hge].
    + do 2 eexists. split; [done|]. split; [done|]. eexists.
      split; [|by rewrite actives_snoc, actives_cleared]. done.
    + destruct held as [|b k] eqn:E; [unfold settings_ok in Hs; simpl in Hge; lia|].
      do 2 eexists. split; [done|]. split_and!; [done|done| |].
      * by rewrite actives_snoc, actives_cleared, app_nil_r.
      * exists b. split; [left|done].
  - do 2 eexists. split; [done|]. split; [done|]. eexists.
    split; [|by rewrite actives_snoc, actives_cleared]. done.
Qed.

(** ** The invariant of a history *)

Definition lease_inv (s : Settings) (t : Z) (d : coord_db) : Prop :=
  (Z.of_nat (length (active_heavy d)) ≤ max_concurrent_heavy s)%Z ∧
  NoDup (l_host_id <$> actives d) ∧
  Forall (λ l, ∃ e, expires_at l = Some e ∧ (e ≤ t + seconds (lease_ttl_seconds s))%Z) (actives d).

(** Deactivating leases keeps it. *)
Lemma lease_inv_sublist s t d d' :
  lease_inv s t d → actives d' `sublist_of` actives d → lease_inv s t d'.
Proof.
  unfold lease_inv. rewrite !active_heavy_actives. intros (Hn & Hd & He) Hsub. split_and!.
  - etrans; [|exact Hn]. apply inj_le, sublist_length. by apply filter_sublist_mono.
  - eapply sublist_NoDup; [exact Hd|by apply fmap_sublist].
  - by eapply Forall_sublist_of.
Qed.

Lemma other_leases_sublist host_id now d : other_leases host_id now d `sublist_of` actives d.
Proof. apply sublist_filter. Qed.

Lemma release_lease_actives host_id now d :
  actives (release_lease host_id now d).2 = filter (λ l, negb (bool_decide (l_host_id l = host_id))) (actives d).
Proof.
  unfold release_lease, actives. simpl. rewrite filter_update by done. rewrite filter_and.
  apply filter_ext_b. intros x. destruct (active x); simpl; [by rewrite andb_true_r|done].
Qed.

Lemma request_lease_inv s t host_id now gr d dec d' :
  settings_ok s → lease_inv s t d → (now ≤ t)%Z →
  request_lease s host_id now gr d = Ok (dec, d') → lease_inv s t d'.
Proof.
  intros Hs Hinv Ht Hr. destruct (request_lease_total s host_id now gr d Hs) as (dec0 & d0 & Hr0 & Hspec).
  rewrite Hr in Hr0. injection Hr0 as <- <-. unfold request_spec in Hspec.
  pose proof (lease_inv_sublist s t d (cleared host_id now d) Hinv) as Hc.
  rewrite actives_cleared in Hc. specialize (Hc (other_leases_sublist host_id now d)).
  unfold lease_inv in Hc |- *. rewrite active_heavy_actives, actives_cleared in Hc.
  rewrite active_heavy_actives. destruct Hc as (Hn & Hd & He).
  destruct (negb _ || _) eqn:E.
  - destruct Hspec as (-> & l & (Hl & Hh & Hst & Hex) & ->). split_and!.
    + rewrite filter_app, length_app, filter_cons, Hh. apply orb_true_iff in E as [E|E]; to_prop.
      * rewrite E. simpl. lia.
      * case_decide; simpl; lia.
    + rewrite fmap_app. apply NoDup_snoc; [done|]. rewrite Hl. intros (x & Hx & Hin)%list_elem_of_fmap.
      apply list_elem_of_filter in Hin as [Hin _]. to_prop. congruence.
    + apply Forall_app. split; [done|]. constructor; [|done]. eexists. split; [done|]. lia.
  - destruct Hspec as (_ & _ & -> & _). done.
Qed.

Lemma cstep_inv s t d o :
  settings_ok s → lease_inv s t d → (op_time o ≤ t)%Z → lease_inv s t (cstep s d o).
Proof.
  intros Hs Hinv Ht. destruct o as [fp now gr|fp report now created|h]; simpl in *.
  - destruct (request_scan_lease s fp now gr d) as [[dec d']|e] eqn:E; [|done].
    unfold request_scan_lease in E. destruct (scan_coordinator_enabled s); simpl in E; [|congruence].
    destruct (host_by_fingerprint d fp) as [h|]; [|congruence]. by eapply request_lease_inv.
  - unfold report_run, record_agent_run. destruct (host_by_fingerprint d fp) as [h|]; [|done].
    cbv beta iota zeta. destruct (scan_coordinator_enabled s); [|done]. cbn [snd].
    eapply lease_inv_sublist; [exact Hinv|]. rewrite release_lease_actives. apply sublist_filter.
  - done.
Qed.

Lemma history_inv s t ops :
  settings_ok s → Forall (λ o, (op_time o ≤ t)%Z) ops → lease_inv s t (history s ops).
Proof.
  intros Hs Hops. unfold history. assert (lease_inv s t (mk_cdb [] [] [])) as H0.
  { split_and!; [simpl; unfold settings_ok in Hs; lia|constructor..]. }
  revert H0. generalize (mk_cdb [] [] []). induction Hops as [|o ops Ho _ IH]; intros d Hd; [done|].
  simpl. by apply IH, cstep_inv.
Qed.

(** A host is light when its newest run saw few entries. *)
Definition newest_run (d : coord_db) (h : Z) (r : AgentRun) : Prop :=
  r ∈ runs d ∧ r_host_id r = h ∧ ∀ r', r' ∈ runs d → r_host_id r' = h → newer_or_same r' r.

Lemma newest_run_unique d h r r' :
  NoDup (run_id <$> runs d) → newest_run d h r → newest_run d h r' → r = r'.
Proof.
  intros Hnd (Hr & Hh & Hmax) (Hr' & Hh' & Hmax').
  specialize (Hmax r' Hr' Hh'). specialize (Hmax' r Hr Hh). unfold newer_or_same in *.
  assert (run_id r = run_id r') as Hid by lia.
  apply list_elem_of_lookup in Hr as [i Hi]. apply list_elem_of_lookup in Hr' as [j Hj].
  assert (i = j) as <-; [|congruence].
  eapply (NoDup_lookup (run_id <$> runs d) i j (run_id r)); [done|..]; rewrite list_lookup_fmap.
  - by rewrite Hi.
  - by rewrite Hj, Hid.
Qed.

Lemma host_is_heavy_spec s d h :
  NoDup (run_id <$> runs d) →
  host_is_heavy s d h = false ↔ ∃ r, newest_run d h r ∧ (entries_seen r < heavy_entries s)%Z.
Proof.
  intros Hnd. unfold host_is_heavy. destruct (latest_run_by_host d [h] !! h) as [r|] eqn:E.
  - apply latest_run_some in E as (_ & Hr & Hh & Hmax). split.
    + intros Hlt. to_prop. exists r. done.
    + intros (r' & Hn & Hlt). apply Z.leb_gt. by rewrite (newest_run_unique d h r r').
  - pose proof (latest_run_none d [h] h ltac:(left) E) as Hno. split; [done|].
    intros (r & (Hr & Hh & _) & _). by destruct (Hno r).
Qed.

(** ** Properties *)

(** a request is granted exactly when the host's newest run saw fewer entries than the
    threshold, or fewer unexpired heavy leases are held by other hosts than the limit allows; a
    deferral takes no lease, advises the configured delay and names a host that holds such a lease. *)
Theorem request_decision s host_id now gr d :
  settings_ok s → NoDup (run_id <$> runs d) →
  let held := filter (λ l, is_heavy l) (other_leases host_id now d) in
  ∃ dec d', request_lease s host_id now gr d = Ok (dec, d') ∧
  (granted dec = true ↔
     (∃ r, newest_run d host_id r ∧ (entries_seen r < heavy_entries s)%Z) ∨
     (Z.of_nat (length held) < max_concurrent_heavy s)%Z) ∧
  (granted dec = true → ∃ l, is_grant_of s host_id (host_is_heavy s d host_id) now l ∧
     actives d' = other_leases host_id now d ++ [l]) ∧
  (granted dec = false →
     actives d' = other_leases host_id now d ∧
     d_retry_after dec = Some (settings_retry_after_seconds s) ∧
     ∃ b, b ∈ held ∧ l_host_id b ≠ host_id ∧ blocking_host dec = Some (blocking_name d (l_host_id b))).
Proof.
  intros Hs Hnd held. destruct (request_lease_total s host_id now gr d Hs) as (dec & d' & Hr & Hspec).
  exists dec, d'. split; [done|]. rewrite <- host_is_heavy_spec by done. unfold request_spec in Hspec.
  fold held in Hspec. destruct (negb _ || _) eqn:E.
  - destruct Hspec as (-> & Hl). split_and!; [|done|done]. split; [intros _|done].
    apply orb_true_iff in E as [E|E]; to_prop; [by left|by right].
  - destruct Hspec as (Hg & Hra & Hact & b & Hb & Hname). rewrite Hg. apply orb_false_iff in E as [E1 E2].
    to_prop. split_and!; [|done|].
    + split; [done|]. intros [H'|H']; [congruence|lia].
    + intros _. split_and!; [done..|]. exists b. split_and!; [done| |done].
      apply list_elem_of_filter in Hb as [_ Hb]. apply list_elem_of_filter in Hb as [Hb _].
      rewrite Is_true_true in Hb. by to_prop.
Qed.

(** Serially, whatever requests, run reports and new hosts come in whatever order, at most the configured
    number of heavy scans hold a lease, and no host holds two. *)
Theorem serial_scans_bounded s ops :
  settings_ok s →
  (Z.of_nat (length (active_heavy (history s ops))) ≤ max_concurrent_heavy s)%Z ∧
  NoDup (l_host_id <$> actives (history s ops)).
Proof.
  intros Hs.
  assert (∃ t, Forall (λ o, (op_time o ≤ t)%Z) ops) as [t Ht].
  { exists (foldr (λ o m, Z.max (op_time o) m) 0%Z ops). induction ops as [|o ops IH]; constructor; simpl.
    - lia.
    - eapply Forall_impl; [exact IH|]. simpl. lia. }
  destruct (history_inv s t ops Hs Ht) as (? & ? & _). done.
Qed.

(** agents that die do not wedge the fleet: once the TTL has passed since the last request of a
    history, any host that asks is granted its scan. *)
Theorem dead_leases_expire s ops t host_id now gr :
  settings_ok s → Forall (λ o, (op_time o ≤ t)%Z) ops →
  (t + seconds (lease_ttl_seconds s) ≤ now)%Z →
  ∃ d', request_lease s host_id now gr (history s ops) = Ok (grant_decision, d').
Proof.
  intros Hs Hops Hnow. destruct (history_inv s t ops Hs Hops) as (_ & _ & Hexp).
  destruct (request_lease_total s host_id now gr (history s ops) Hs) as (dec & d' & Hr & Hspec).
  assert (other_leases host_id now (history s ops) = []) as Ho.
  { apply filter_none. eapply Forall_impl; [apply Forall_and; split; [exact Hexp|apply Forall_forall]|].
    - intros l Hl. exact (proj1 (proj1 (list_elem_of_filter _ _ _) Hl)).
    - intros l [(e & He & Hle) Ha]. unfold stale. rewrite He. apply Is_true_true in Ha. rewrite Ha.
      rewrite (proj2 (Z.leb_le _ _)) by lia. simpl. auto. }
  exists d'. rewrite Hr. unfold request_spec in Hspec. rewrite Ho in Hspec. simpl in Hspec.
  rewrite (proj2 (Z.ltb_lt 0 _)), orb_true_r in Hspec by (unfold settings_ok in Hs; lia).
  by destruct Hspec as [-> _].
Qed.

(** ** Witnesses *)

Definition demo_settings : Settings := mk_settings true 1 500000 21600 1800.
Definition demo_host (i : Z) (n fp : string) : Host := mk_host i n None None fp None None None None.
Definition demo_hosts : list cop :=
  [ONewHost (demo_host 1 "nas-1" "aa"); ONewHost (demo_host 2 "node-1" "bb");
   ONewHost (demo_host 3 "pi" "cc")].
Definition small_report : AgentRunReport :=
  mk_report 0 1 0 None None [mk_frame "/srv" 1000 3 None] None.
Definition demo_ops : list cop :=
  demo_hosts ++ [OReport "cc" small_report 5 5; ORequest "aa" 10 10; ORequest "bb" 20 20; ORequest "cc" 30 30].

End Names.

Lemma request_decision_witness :
  let d := history (λ _, "?") demo_settings demo_ops in
  ∃ dec d', request_lease (λ _, "?") demo_settings 2 40 40 d = Ok (dec, d') ∧ granted dec = false.
Proof.
  intros d.
  assert (settings_ok demo_settings) as Hs by (unfold settings_ok; simpl; lia).
  assert (NoDup (run_id <$> runs d)) as Hnd by (refine (bool_decide_unpack _ _); vm_compute; exact I).
  destruct (request_decision (λ _, "?") demo_settings 2 40 40 d Hs Hnd) as (dec & d' & Hr & _).
  exists dec, d'. split; [exact Hr|]. revert Hr. vm_compute. intros Hr. injection Hr as <- _. reflexivity.
Defined.

Lemma serial_scans_bounded_witness :
  length (actives (history (λ _, "?") demo_settings demo_ops)) = 2 ∧
  NoDup (l_host_id <$> actives (history (λ _, "?") demo_settings demo_ops)).
Proof.
  split; [vm_compute; reflexivity|].
  apply (serial_scans_bounded (λ _, "?") demo_settings demo_ops). unfold settings_ok. simpl. lia.
Defined.

Lemma dead_leases_expire_witness :
  ∃ d', request_lease (λ _, "?") demo_settings 2 (30 + seconds 21600) 0
          (history (λ _, "?") demo_settings demo_ops) = Ok (grant_decision, d').
Proof.
  refine (dead_leases_expire (λ _, "?") demo_settings demo_ops 30 2 _ 0 _ _ _).
  - unfold settings_ok. simpl. lia.
  - repeat (constructor; [simpl; lia|]). constructor.
  - simpl. lia.
Defined.
