(* ===== verification/Leases.v ===== *)
(** Lease requests as they interleave ([request_lease] of [src/fathom/core/scan_coordinator.py]).

    A request is a transaction of several statements, each awaited: under READ COMMITTED a statement sees what was committed when
    it began and the transaction's own updates, and an UPDATE waits for a row that another open transaction has updated.  What a
    request changed is committed with its insert.  [Coordinator] has the request as one step, which is what SQLite, with one writer at a
    time, makes of it; alone, the statements amount to that step. *)

From stdpp Require Import gmap.
From S2P Require Import Prelude PyStr PyTime Sql Catalogue Rbac Coordinator.

(** ** A request between two statements *)

(** The row that the last statement inserts. *)
Inductive lease_row := GrantLight | GrantHeavy | Deferred (blocking : Z).

(** The statement that comes next. *)
Inductive point := AtExpire | AtRelease | AtHeavy | AtCount | AtInsert (row : lease_row).

#[export] Instance lease_row_eq_dec : EqDecision lease_row.
Proof. solve_decision. Defined.
#[export] Instance point_eq_dec : EqDecision point.
Proof. solve_decision. Defined.

(** [f_expired] and [f_released] are the ids of the rows that the two UPDATEs matched. *)
Record flight := mk_flight {
  f_settings : Settings; f_host : Z; f_now : Z; f_granted : Z; f_point : point; f_expired : list Z; f_released : list Z;
}.

Definition begun (s : Settings) (host_id now granted : Z) : flight := mk_flight s host_id now granted AtExpire [] [].

Definition at_point (p : point) (f : flight) : flight :=
  mk_flight (f_settings f) (f_host f) (f_now f) (f_granted f) p (f_expired f) (f_released f).

Definition marks (f : flight) : list Z := f_expired f ++ f_released f.

(** A row with the transaction's own updates. *)
Definition own (f : flight) (l : ScanLease) : ScanLease :=
  let l1 := if bool_decide (l_id l ∈ f_expired f) then set_status LEASE_EXPIRED (released_at l) l else l in
  if bool_decide (l_id l ∈ f_released f) then set_status LEASE_RELEASED (Some (f_now f)) l1 else l1.

(** What a statement of the transaction sees of the committed tables. *)
Definition seen (f : flight) (d : coord_db) : coord_db := set_leases (own f <$> leases d) d.

Inductive progress := Goes (f : flight) | Answers (dec : LeaseDecision) (d : coord_db) | Crashes (e : string).

Section Names.
Context (str_of_int : Z → string).

(** The next statement of a request over the committed tables; the last one commits. *)
Definition advance (f : flight) (d : coord_db) : progress :=
  let s := f_settings f in
  match f_point f with
  | AtExpire =>
      let ids := l_id <$> filter (λ l, stale (f_now f) l) (leases (seen f d)) in
      Goes (mk_flight s (f_host f) (f_now f) (f_granted f) AtRelease ids (f_released f))
  | AtRelease =>
      let ids := l_id <$> filter (λ l, bool_decide (l_host_id l = f_host f) && active l) (leases (seen f d)) in
      Goes (mk_flight s (f_host f) (f_now f) (f_granted f) AtHeavy (f_expired f) (f_released f ++ ids))
  | AtHeavy => Goes (at_point (if host_is_heavy s (seen f d) (f_host f) then AtCount else AtInsert GrantLight) f)
  | AtCount =>
      if (Z.of_nat (length (active_heavy (seen f d))) <? max_concurrent_heavy s)%Z then Goes (at_point (AtInsert GrantHeavy) f)
      else match active_heavy (seen f d) with
           | [] => Crashes "IndexError"
           | b :: _ => Goes (at_point (AtInsert (Deferred (l_host_id b))) f)
           end
  | AtInsert GrantLight => Answers grant_decision (_grant s (f_host f) false (f_now f) (f_granted f) (seen f d))
  | AtInsert GrantHeavy => Answers grant_decision (_grant s (f_host f) true (f_now f) (f_granted f) (seen f d))
  | AtInsert (Deferred b) =>
      let d := seen f d in
      let blocking := blocking_name str_of_int d b in
      let why := defer_reason blocking in
      Answers (mk_decision false LEASE_DEFERRED (Some why) (Some (settings_retry_after_seconds s)) (Some blocking))
        (set_leases (leases d ++ [mk_lease (next_id l_id (leases d)) (f_host f) true LEASE_DEFERRED (Some why) (Some b)
                                    (Some (settings_retry_after_seconds s)) (f_granted f) None None]) d)
  end.

(** A request with no other in between. *)
Fixpoint alone (fuel : nat) (f : flight) (d : coord_db) : option (result string (LeaseDecision * coord_db)) :=
  match fuel with
  | 0 => None
  | S n => match advance f d with
           | Goes f => alone n f d
           | Answers dec d => Some (Ok (dec, d))
           | Crashes e => Some (Err e)
           end
  end.

(** ** Requests together *)

Record world := mk_world { db : coord_db; open : gmap nat flight }.

(** Whether one of the rows is updated by an open request other than [r]. *)
Definition locked (r : option nat) (ids : list Z) (w : world) : bool :=
  existsb (λ e, negb (bool_decide (Some e.1 = r)) && existsb (λ i, bool_decide (i ∈ marks e.2)) ids) (map_to_list (open w)).

Definition advance_one (r : nat) (w : world) : world :=
  match open w !! r with
  | None => w
  | Some f => match advance f (db w) with
              | Goes f' => if locked (Some r) (marks f') w then w else mk_world (db w) (<[r := f']> (open w))
              | Answers _ d => mk_world d (delete r (open w))
              | Crashes _ => mk_world (db w) (delete r (open w))
              end
  end.

(** The release of a run report: [ids] are the rows of the host that its UPDATE found active. *)
Definition release_of (host_id now : Z) (ids : list Z) (d : coord_db) : coord_db :=
  set_leases (update_where (λ l, bool_decide (l_host_id l = host_id) && active l && bool_decide (l_id l ∈ ids))
                (set_status LEASE_RELEASED (Some now)) (leases d)) d.

Definition report_one (s : Settings) (fp : string) (report : AgentRunReport) (now created : Z) (ids : list Z) (w : world) : world :=
  if locked None ids w then w else
  match record_agent_run fp report created (db w) with
  | (None, d) => mk_world d (open w)
  | (Some run, d) => mk_world (if scan_coordinator_enabled s then release_of (r_host_id run) now ids d else d) (open w)
  end.

(** What may happen next: a request arrives, makes its next statement (or waits), or is given up and rolled back; a run is reported; a
    host is new.  A request has the settings of its own time. *)
Inductive event :=
| EvBegin (r : nat) (s : Settings) (fp : string) (now granted : Z)
| EvAdvance (r : nat)
| EvAbandon (r : nat)
| EvReport (s : Settings) (fp : string) (report : AgentRunReport) (now created : Z) (ids : list Z)
| EvNewHost (h : Host).

(** At most [k] requests are open. *)
Definition step (k : nat) (w : world) (ev : event) : world :=
  match ev with
  | EvBegin r s fp now granted =>
      if scan_coordinator_enabled s && bool_decide (size (open w) < k) && bool_decide (open w !! r = None) then
        match host_by_fingerprint (db w) fp with
        | None => w
        | Some h => mk_world (db w) (<[r := begun s (h_id h) now granted]> (open w))
        end
      else w
  | EvAdvance r => advance_one r w
  | EvAbandon r => mk_world (db w) (delete r (open w))
  | EvReport s fp report now created ids => report_one s fp report now created ids w
  | EvNewHost h => mk_world (mk_cdb (hosts (db w) ++ [h]) (runs (db w)) (leases (db w))) (open w)
  end.

Definition interleaving (k : nat) (evs : list event) : world := foldl (step k) (mk_world (mk_cdb [] [] []) ∅) evs.

(** The limit of every request of a history. *)
Definition limited (M : Z) (ev : event) : Prop :=
  match ev with EvBegin _ s _ _ _ => (max_concurrent_heavy s ≤ M)%Z | _ => True end.

(** ** Alone, a request is the serial one *)

Lemma elem_of_ids (p : ScanLease → bool) (ls : list ScanLease) l :
  NoDup (l_id <$> ls) → l ∈ ls → bool_decide (l_id l ∈ l_id <$> filter (λ l, p l) ls) = p l.
Proof.
  intros Hnd Hl. apply eq_bool_prop_intro. rewrite Is_true_true, bool_decide_eq_true, list_elem_of_fmap. split.
  - intros (l' & Hid & Hl'). apply list_elem_of_filter in Hl' as [Hp Hl'].
    apply list_elem_of_lookup in Hl as [i Hi]. apply list_elem_of_lookup in Hl' as [j Hj].
    assert (i = j) as <-; [|congruence].
    eapply (NoDup_lookup (l_id <$> ls) i j (l_id l)); [done|..]; rewrite list_lookup_fmap; [by rewrite Hi|by rewrite Hj, Hid].
  - intros Hp. exists l. split; [done|]. by apply list_elem_of_filter.
Qed.

Lemma own_id f l : l_id (own f l) = l_id l.
Proof. unfold own. by repeat case_bool_decide. Qed.

Lemma own_host f l : l_host_id (own f l) = l_host_id l.
Proof. unfold own. by repeat case_bool_decide. Qed.

(** The transaction's updates leave active what they did not match. *)
Lemma own_active f l : active (own f l) = active l && negb (bool_decide (l_id l ∈ marks f)).
Proof.
  unfold own, marks. rewrite (bool_decide_ext (l_id l ∈ f_expired f ++ f_released f) (l_id l ∈ f_expired f ∨ l_id l ∈ f_released f)) by apply elem_of_app.
  destruct (decide (l_id l ∈ f_expired f)) as [H1|H1], (decide (l_id l ∈ f_released f)) as [H2|H2];
    repeat first [rewrite bool_decide_true by tauto|rewrite bool_decide_false by tauto]; by rewrite ?andb_true_r, ?andb_false_r.
Qed.

Lemma own_heavy f l : is_heavy (own f l) = is_heavy l.
Proof. unfold own. by repeat case_bool_decide. Qed.

(** The two UPDATEs leave what [_expire_stale] and [release_lease] make of the tables. *)
Lemma seen_cleared s host_id now gr p d :
  NoDup (l_id <$> leases d) →
  let ids1 := l_id <$> filter (λ l, stale now l) (leases d) in
  let d1 := _expire_stale now d in
  seen (mk_flight s host_id now gr p ids1 []) d = d1 ∧
  seen (mk_flight s host_id now gr p ids1 (l_id <$> filter (λ l, bool_decide (l_host_id l = host_id) && active l) (leases d1))) d = cleared host_id now d.
Proof.
  intros Hnd ids1 d1.
  assert (own (mk_flight s host_id now gr p ids1 []) <$> leases d = leases d1) as E1.
  { unfold d1, _expire_stale, update_where. cbn. apply list_fmap_ext. intros i l Hl%list_elem_of_lookup_2. unfold own. cbn.
    unfold ids1. rewrite elem_of_ids by done. rewrite bool_decide_false by apply not_elem_of_nil. by destruct (stale now l). }
  split; [unfold seen; by rewrite E1|].
  unfold seen, cleared, release_lease. cbn [snd]. unfold set_leases. f_equal; try done. unfold update_where.
  change (_expire_stale now d) with d1. rewrite <- E1 at 2. rewrite <- list_fmap_compose. apply list_fmap_ext.
  clearbody d1 ids1. intros i l Hl%list_elem_of_lookup_2. unfold compose.
  assert (NoDup (l_id <$> leases d1)) as Hnd1.
  { rewrite <- E1, <- list_fmap_compose. rewrite (list_fmap_ext _ l_id); [done|]. intros. apply own_id. }
  assert (own (mk_flight s host_id now gr p ids1 []) l ∈ leases d1) as Hin by (rewrite <- E1; by apply list_elem_of_fmap_2).
  pose proof (elem_of_ids (λ l, bool_decide (l_host_id l = host_id) && active l) _ _ Hnd1 Hin) as Hp. rewrite own_id in Hp.
  unfold own at 1. cbn. rewrite Hp. unfold own in Hin |- *. cbn in *. rewrite (bool_decide_false (l_id l ∈ [])) by apply not_elem_of_nil. done.
Qed.

(** A request that nothing interrupts is the request of [Coordinator], in five statements. *)
Theorem alone_is_serial s host_id now gr d :
  NoDup (l_id <$> leases d) → alone 5 (begun s host_id now gr) d = Some (request_lease str_of_int s host_id now gr d).
Proof.
  intros Hnd. assert (seen (begun s host_id now gr) d = d) as E0.
  { unfold seen. rewrite (list_fmap_ext _ id), list_fmap_id; [by destruct d|]. intros i l _. unfold own. cbn.
    by rewrite !bool_decide_false by apply not_elem_of_nil. }
  unfold begun in *. cbn [alone advance f_point f_settings f_host f_now f_granted f_expired f_released]. rewrite E0.
  pose proof (seen_cleared s host_id now gr) as Hsc.
  rewrite (proj1 (Hsc AtRelease d Hnd)).
  unfold request_lease. fold (cleared host_id now d). cbn [app].
  rewrite (proj2 (Hsc AtHeavy d Hnd)). unfold at_point. cbn [f_settings f_host f_now f_granted f_expired f_released].
  destruct (host_is_heavy s (cleared host_id now d) host_id); cbn [negb advance f_point f_settings f_host f_now f_granted];
    [|by rewrite (proj2 (Hsc (AtInsert GrantLight) d Hnd))].
  rewrite (proj2 (Hsc AtCount d Hnd)).
  destruct (_ <? _)%Z; unfold at_point; cbn [advance f_point f_settings f_host f_now f_granted f_expired f_released];
    [by rewrite (proj2 (Hsc (AtInsert GrantHeavy) d Hnd))|].
  destruct (active_heavy (cleared host_id now d)) as [|b l]; [done|].
  unfold at_point. cbn [advance f_point f_settings f_host f_now f_granted f_expired f_released]. by rewrite (proj2 (Hsc (AtInsert (Deferred (l_host_id b))) d Hnd)).
Qed.

(** ** What the open requests can still grant *)

Definition pending (o : gmap nat flight) (r : nat) : Prop := ∃ f, o !! r = Some f ∧ f_point f = AtInsert GrantHeavy.

Definition marked_by (P : list nat) (o : gmap nat flight) (i : Z) : bool :=
  existsb (λ r, match o !! r with Some f => bool_decide (i ∈ marks f) | None => false end) P.

(** The heavy leases that are left when the requests of [P] commit. *)
Definition outside (P : list nat) (o : gmap nat flight) (l : ScanLease) : bool :=
  active l && is_heavy l && negb (marked_by P o (l_id l)).

Record bounded (M : Z) (k : nat) (w : world) : Prop := {
  bd_size : size (open w) ≤ k;
  bd_limit : map_Forall (λ _ f, (max_concurrent_heavy (f_settings f) ≤ M)%Z) (open w);
  bd_count P : NoDup P → Forall (pending (open w)) P →
    (Z.of_nat (length (filter (λ l, outside P (open w) l) (leases (db w))) + length P) ≤ M + Z.of_nat k - 1)%Z;
}.

Lemma filter_length_mono {A} (p q : A → bool) (l : list A) :
  (∀ x, x ∈ l → p x = true → q x = true) → length (filter (λ x, p x) l) ≤ length (filter (λ x, q x) l).
Proof.
  induction l as [|x l IH]; intros H; [done|]. rewrite !filter_cons.
  assert (length (filter (λ x, p x) l) ≤ length (filter (λ x, q x) l)) by (apply IH; intros; apply H; [by right|done]).
  destruct (p x) eqn:E; [rewrite (H x (list_elem_of_here _ _) E); simpl; lia|]. destruct (q x); simpl; lia.
Qed.

Lemma filter_fmap_length {A} (p : A → bool) f (l : list A) : length (filter (λ x, p x) (f <$> l)) = length (filter (λ x, p (f x)) l).
Proof. induction l as [|x l IH]; [done|]. rewrite fmap_cons, !filter_cons. by destruct (p (f x)); simpl; rewrite IH. Qed.

Lemma marked_by_ext P o o' i : (∀ r, r ∈ P → marks <$> o !! r = marks <$> o' !! r) → marked_by P o i = marked_by P o' i.
Proof.
  unfold marked_by. induction P as [|r P IH]; intros H; [done|]. cbn [existsb]. rewrite IH by (intros; apply H; by right). f_equal.
  pose proof (H r (list_elem_of_here _ _)) as Hr. destruct (o !! r), (o' !! r); try done. cbn in Hr. injection Hr as Hr. by rewrite Hr.
Qed.

Lemma pending_le o P : NoDup P → Forall (pending o) P → length P ≤ size o.
Proof.
  intros Hnd HP. rewrite <- (size_dom (D := gset nat) o). rewrite <- (size_list_to_set (C := gset nat) P Hnd). apply subseteq_size.
  intros r Hr%elem_of_list_to_set. rewrite Forall_forall in HP. apply HP in Hr as (f & Hf & _). apply elem_of_dom. by eexists.
Qed.

(** Fewer open requests, fewer heavy leases: the bound stays. *)
Lemma bounded_less M k w w' :
  bounded M k w → size (open w') ≤ k → map_Forall (λ _ f, (max_concurrent_heavy (f_settings f) ≤ M)%Z) (open w') →
  (∀ P, NoDup P → Forall (pending (open w')) P → Forall (pending (open w)) P ∧
     length (filter (λ l, outside P (open w') l) (leases (db w'))) ≤ length (filter (λ l, outside P (open w) l) (leases (db w)))) →
  bounded M k w'.
Proof.
  intros Hb Hs Hm HP. split; [done|done|]. intros P Hnd Hp. destruct (HP P Hnd Hp) as [Hp' Hle].
  pose proof (bd_count _ _ _ Hb P Hnd Hp'). lia.
Qed.

(** A request that is not about to grant a heavy lease comes, goes, or makes a statement. *)
Lemma bounded_insert M k w r f :
  bounded M k w → f_point f ≠ AtInsert GrantHeavy → (max_concurrent_heavy (f_settings f) ≤ M)%Z → size (<[r := f]> (open w)) ≤ k →
  bounded M k (mk_world (db w) (<[r := f]> (open w))).
Proof.
  intros Hb Hf Hl Hs. apply (bounded_less M k w); [done|done|apply map_Forall_insert_2; [done|apply Hb]|]. intros P _ HP. cbn [open db].
  assert (∀ r', r' ∈ P → <[r := f]> (open w) !! r' = open w !! r') as Hsame.
  { intros r' Hr'. rewrite Forall_forall in HP. apply HP in Hr' as (f' & Hf' & Hp). destruct (decide (r = r')) as [->|]; [|by rewrite lookup_insert_ne].
    cbn [open] in Hf'. rewrite lookup_insert_eq in Hf'. congruence. }
  split.
  - rewrite Forall_forall in HP |- *. intros r' Hr'. destruct (HP r' Hr') as (f' & Hf' & Hp). exists f'. cbn [open] in Hf'. by rewrite <- Hsame.
  - apply filter_length_mono. intros l _. unfold outside. rewrite (marked_by_ext P _ (open w)); [done|]. intros r' Hr'. by rewrite Hsame.
Qed.

Lemma bounded_delete M k w r d :
  bounded M k w → (∀ P, length (filter (λ l, outside P (open w) l) (leases d)) ≤ length (filter (λ l, outside P (open w) l) (leases (db w)))) →
  bounded M k (mk_world d (delete r (open w))).
Proof.
  intros Hb Hd. apply (bounded_less M k w); [done| |apply map_Forall_delete; apply Hb|].
  - cbn. pose proof (bd_size _ _ _ Hb). rewrite map_size_delete. destruct (open w !! r); cbn; lia.
  - intros P _ HP. cbn [open db].
    assert (∀ r', r' ∈ P → delete r (open w) !! r' = open w !! r') as Hsame.
    { intros r' Hr'. rewrite Forall_forall in HP. apply HP in Hr' as (f' & Hf' & Hp). cbn [open] in Hf'. apply lookup_delete_Some in Hf' as [? _].
      by rewrite lookup_delete_ne. }
    split.
    + rewrite Forall_forall in HP |- *. intros r' Hr'. destruct (HP r' Hr') as (f' & Hf' & Hp). exists f'. cbn [open] in Hf'. by rewrite <- Hsame.
    + etrans; [|apply Hd]. apply filter_length_mono. intros l _. unfold outside. rewrite (marked_by_ext P _ (open w)); [done|]. intros r' Hr'. by rewrite Hsame.
Qed.

(** The count of a request that goes on to a grant is below its limit: whatever the other open requests are about to grant, there are
    fewer than [k] of them. *)
Lemma bounded_count M k w r f :
  bounded M k w → open w !! r = Some f → (Z.of_nat (length (active_heavy (seen f (db w)))) < max_concurrent_heavy (f_settings f))%Z →
  bounded M k (mk_world (db w) (<[r := at_point (AtInsert GrantHeavy) f]> (open w))).
Proof.
  intros Hb Hf Hc. pose proof (bd_limit _ _ _ Hb _ _ Hf) as Hlim. cbv beta in Hlim.
  assert (size (<[r := at_point (AtInsert GrantHeavy) f]> (open w)) = size (open w)) as Hsz by (rewrite map_size_insert, Hf; done).
  pose proof (bd_size _ _ _ Hb) as Hs0. split; cbn [open db].
  - lia.
  - apply map_Forall_insert_2; [done|apply Hb].
  - intros P Hnd HP. pose proof (pending_le _ P Hnd HP) as Hlen.
    assert (∀ r', marks <$> <[r := at_point (AtInsert GrantHeavy) f]> (open w) !! r' = marks <$> open w !! r') as Hsame.
    { intros r'. destruct (decide (r = r')) as [->|]; [by rewrite lookup_insert_eq, Hf|by rewrite lookup_insert_ne]. }
    destruct (decide (r ∈ P)) as [Hin|Hin].
    + assert (length (filter (λ l, outside P (<[r := at_point (AtInsert GrantHeavy) f]> (open w)) l) (leases (db w))) ≤
        length (active_heavy (seen f (db w)))) as Hle; [|lia].
      unfold active_heavy, seen. cbn [leases set_leases]. rewrite (filter_fmap_length (λ l, active l && is_heavy l)). apply filter_length_mono.
      intros l _. unfold outside. rewrite own_active, own_heavy. intros [[Ha Hh]%andb_true_iff Hm]%andb_true_iff. rewrite Ha, Hh. cbn.
      rewrite andb_true_r. apply negb_true_iff, bool_decide_eq_false. intros Hi. apply negb_true_iff in Hm.
      assert (marked_by P (<[r := at_point (AtInsert GrantHeavy) f]> (open w)) (l_id l) = true); [|congruence].
      unfold marked_by. apply existsb_exists. exists r. split; [by apply list_elem_of_In|]. rewrite lookup_insert_eq. by apply bool_decide_eq_true.
    + assert (Forall (pending (open w)) P) as HP'.
      { rewrite Forall_forall in HP |- *. intros r' Hr'. destruct (HP r' Hr') as (f' & Hf' & Hp). exists f'.
        rewrite lookup_insert_ne in Hf'; [done|]. by intros ->. }
      pose proof (bd_count _ _ _ Hb P Hnd HP') as H. etrans; [|exact H]. apply inj_le, Nat.add_le_mono_r, filter_length_mono.
      intros l _. unfold outside. rewrite (marked_by_ext P _ (open w)); [done|]. intros r' _. by rewrite Hsame.
Qed.

Lemma seen_outside P o f d : length (filter (λ l, outside P o l) (leases (seen f d))) ≤ length (filter (λ l, outside P o l) (leases d)).
Proof.
  unfold seen. cbn [leases set_leases]. rewrite filter_fmap_length. apply filter_length_mono. intros l _. unfold outside.
  rewrite own_active, own_heavy, own_id. by destruct (active l), (bool_decide (l_id l ∈ marks f)).
Qed.

Lemma outside_snoc P o ls l :
  outside P o l = false → length (filter (λ l, outside P o l) (ls ++ [l])) = length (filter (λ l, outside P o l) ls).
Proof. intros H. rewrite filter_app, length_app, filter_cons. case_decide as E; [by rewrite H in E|]. cbn. lia. Qed.

(** A commit. *)
Lemma bounded_commit M k w r f dec d :
  bounded M k w → open w !! r = Some f → advance f (db w) = Answers dec d → bounded M k (mk_world d (delete r (open w))).
Proof.
  intros Hb Hf Ha. unfold advance in Ha. destruct (f_point f) as [| | | |[| |b]] eqn:Ep; try (by repeat case_match); injection Ha as _ <-.
  - apply bounded_delete; [done|]. intros P. unfold _grant. cbn [leases set_leases]. rewrite outside_snoc by done. apply (seen_outside P).
  - split; cbn [open db].
    + pose proof (bd_size _ _ _ Hb). rewrite map_size_delete, Hf. cbn. lia.
    + apply map_Forall_delete, Hb.
    + intros P Hnd HP.
      assert (r ∉ P ∧ Forall (pending (open w)) P) as [Hr HP'].
      { rewrite !Forall_forall in HP |- *. split.
        - intros Hin. destruct (HP r Hin) as (f' & Hf' & _). by rewrite lookup_delete_eq in Hf'.
        - intros r' Hr'. destruct (HP r' Hr') as (f' & Hf' & Hp). apply lookup_delete_Some in Hf' as [_ Hf']. by exists f'. }
      assert (Forall (pending (open w)) (r :: P)) as HrP by (constructor; [by exists f|done]).
      pose proof (bd_count _ _ _ Hb (r :: P) (NoDup_cons_2 _ _ Hr Hnd) HrP) as H. cbn [length] in H.
      assert (length (filter (λ l, outside P (delete r (open w)) l) (leases (_grant (f_settings f) (f_host f) true (f_now f) (f_granted f) (seen f (db w))))) ≤
        S (length (filter (λ l, outside (r :: P) (open w) l) (leases (db w))))) as Hle; [|lia].
      unfold _grant. cbn [leases set_leases seen]. rewrite filter_app, length_app.
      assert (∀ l : ScanLease, length (filter (λ l, outside P (delete r (open w)) l) [l]) ≤ 1) as H1.
      { intros l. rewrite filter_cons. case_decide; cbn; lia. }
      set (new := mk_lease _ _ _ _ _ _ _ _ _ _). specialize (H1 new).
      assert (length (filter (λ l, outside P (delete r (open w)) l) (own f <$> leases (db w))) ≤
        length (filter (λ l, outside (r :: P) (open w) l) (leases (db w)))) as H2; [|lia].
      rewrite filter_fmap_length. apply filter_length_mono. intros l _. unfold outside. rewrite own_active, own_heavy, own_id.
      rewrite (marked_by_ext P _ (open w)) by (intros r' Hr'; rewrite lookup_delete_ne; [done|by intros ->]).
      unfold marked_by. cbn [existsb]. rewrite Hf. destruct (active l), (is_heavy l), (bool_decide _); done.
  - apply bounded_delete; [done|]. intros P. cbn [leases set_leases]. rewrite outside_snoc by done. apply (seen_outside P).
Qed.

(** Other rows of the database, and updates that deactivate leases. *)
Lemma bounded_db M k w d :
  bounded M k w → (∀ P o, length (filter (λ l, outside P o l) (leases d)) ≤ length (filter (λ l, outside P o l) (leases (db w)))) →
  bounded M k (mk_world d (open w)).
Proof. intros Hb Hd. apply (bounded_less M k w); [done|apply Hb|apply Hb|]. intros P _ HP. split; [done|]. apply Hd. Qed.

Lemma record_leases fp report created d : leases (record_agent_run fp report created d).2 = leases d.
Proof. unfold record_agent_run. by destruct (host_by_fingerprint d fp). Qed.

(** Rows that an update leaves active were active before, unchanged. *)
Lemma release_of_active host_id now ids d l :
  l ∈ leases (release_of host_id now ids d) → active l = true → l ∈ leases d.
Proof.
  unfold release_of, update_where. cbn [leases set_leases]. intros (x & -> & Hx)%list_elem_of_fmap. destruct (_ && _); [|done]. by intros [=].
Qed.

Lemma release_of_outside P o host_id now ids d :
  length (filter (λ l, outside P o l) (leases (release_of host_id now ids d))) ≤ length (filter (λ l, outside P o l) (leases d)).
Proof.
  unfold release_of, update_where. cbn [leases set_leases]. rewrite filter_fmap_length. apply filter_length_mono. intros l _. by destruct (_ && _).
Qed.

Lemma advance_goes f d f' : advance f d = Goes f' → f_settings f' = f_settings f.
Proof. unfold advance. intros H. destruct (f_point f) as [| | | |[]]; repeat case_match; by simplify_eq. Qed.

Lemma advance_heavy f d f' : advance f d = Goes f' → f_point f' = AtInsert GrantHeavy →
  f' = at_point (AtInsert GrantHeavy) f ∧ (Z.of_nat (length (active_heavy (seen f d))) < max_concurrent_heavy (f_settings f))%Z.
Proof.
  unfold advance. intros H Hp. destruct (f_point f) as [| | | |[]]; try done; try (by injection H as <-).
  - injection H as <-. cbn in Hp. by destruct (host_is_heavy _ _ _).
  - destruct (Z.ltb_spec (Z.of_nat (length (active_heavy (seen f d)))) (max_concurrent_heavy (f_settings f))); [by injection H as <-|].
    destruct (active_heavy _); [done|]. by injection H as <-.
Qed.

Lemma advance_one_bounded M k r w : bounded M k w → bounded M k (advance_one r w).
Proof.
  intros Hb. unfold advance_one. destruct (open w !! r) as [f|] eqn:Hf; [|done]. destruct (advance f (db w)) as [f'|dec d|e] eqn:Ha.
  - destruct (locked _ _ _); [done|]. destruct (decide (f_point f' = AtInsert GrantHeavy)) as [Hp|Hp].
    + apply advance_heavy in Ha as [-> Hc]; [|done]. by apply bounded_count.
    + apply bounded_insert; [done|done| |].
      * rewrite (advance_goes _ _ _ Ha). apply (bd_limit _ _ _ Hb _ _ Hf).
      * rewrite map_size_insert, Hf. apply Hb.
  - by eapply bounded_commit.
  - by apply bounded_delete.
Qed.

Lemma step_bounded M k w ev : limited M ev → bounded M k w → bounded M k (step k w ev).
Proof.
  intros Hl Hb. destruct ev as [r s fp now gr|r|r|s fp report now created ids|h]; cbn [step].
  - destruct (_ && _) eqn:E; [|done]. apply andb_true_iff in E as [[_ Hs%bool_decide_eq_true]%andb_true_iff Hn%bool_decide_eq_true].
    destruct (host_by_fingerprint _ _); [|done]. apply bounded_insert; [done|done|exact Hl|]. rewrite map_size_insert, Hn. lia.
  - by apply advance_one_bounded.
  - by apply bounded_delete.
  - unfold report_one. destruct (locked _ _ _); [done|]. pose proof (record_leases fp report created (db w)) as Hr.
    destruct (record_agent_run _ _ _ _) as [[run|] d]; cbn [snd] in Hr; apply bounded_db; try done; intros P o; [|by rewrite Hr].
    destruct (scan_coordinator_enabled s); [|by rewrite Hr]. rewrite <- Hr. apply release_of_outside.
  - by apply bounded_db.
Qed.

(** ** One request at a time *)

Definition past_release (f : flight) : bool := match f_point f with AtExpire | AtRelease => false | _ => true end.

Record single (w : world) : Prop := {
  sg_size : size (open w) ≤ 1;
  sg_hosts : NoDup (l_host_id <$> actives (db w));
  sg_marks r f l : open w !! r = Some f → past_release f = true → l ∈ leases (db w) → active l = true → l_host_id l = f_host f → l_id l ∈ marks f;
}.

Lemma only_one (o : gmap nat flight) r f : size o ≤ 1 → o !! r = Some f → delete r o = ∅.
Proof. intros Hs Hr. apply map_size_empty_inv. rewrite map_size_delete, Hr. cbn. lia. Qed.

(** Fewer active leases, and other requests' marks. *)
Lemma single_less w d :
  single w → actives d `sublist_of` actives (db w) → (∀ l, l ∈ leases d → active l = true → l ∈ leases (db w)) → single (mk_world d (open w)).
Proof.
  intros [Hs Hh Hm] Hsub Hl. split; cbn [open db]; [done| |].
  - eapply sublist_NoDup; [exact Hh|by apply fmap_sublist].
  - intros r f l Hf Hp Hin Ha. by apply (Hm r); auto.
Qed.

Lemma single_open w r f :
  single w → size (<[r := f]> (open w)) ≤ 1 →
  (∀ l, past_release f = true → l ∈ leases (db w) → active l = true → l_host_id l = f_host f → l_id l ∈ marks f) →
  single (mk_world (db w) (<[r := f]> (open w))).
Proof.
  intros [Hs Hh Hm] Hsz Hf. split; cbn [open db]; [done|done|]. intros r' f' l [[<- <-]|[_ H]]%lookup_insert_Some; [auto|by apply (Hm r')].
Qed.

Lemma single_closed w d r f : single w → open w !! r = Some f → NoDup (l_host_id <$> actives d) → single (mk_world d (delete r (open w))).
Proof.
  intros [Hs _ _] Hr Hd. rewrite (only_one _ _ _ Hs Hr). split; cbn [open db]; [rewrite map_size_empty; lia|done|]. intros r' f' l H. by rewrite lookup_empty in H.
Qed.

Lemma own_actives f d : l_host_id <$> actives (seen f d) = l_host_id <$> filter (λ l, negb (bool_decide (l_id l ∈ marks f))) (actives d).
Proof.
  unfold actives, seen. cbn [leases set_leases]. induction (leases d) as [|l ls IH]; [done|].
  rewrite fmap_cons, (filter_cons _ (own f l)), (filter_cons (λ l, active l) l), own_active. destruct (active l); cbn [andb].
  - rewrite (decide_True (P := Is_true true)) by done. rewrite filter_cons.
    destruct (bool_decide (l_id l ∈ marks f)); cbn [negb]; repeat case_decide; try done; try exact IH.
    rewrite !fmap_cons, own_host. by f_equal.
  - rewrite !(decide_False (P := Is_true false)) by (intros []). exact IH.
Qed.

Lemma grant_hosts s f heavy d :
  actives (_grant s (f_host f) heavy (f_now f) (f_granted f) (seen f d)) =
  actives (seen f d) ++ [mk_lease (next_id l_id (leases (seen f d))) (f_host f) heavy LEASE_ACTIVE None None None (f_granted f)
                           (Some (f_now f + seconds (lease_ttl_seconds s))%Z) None].
Proof. unfold _grant. by rewrite actives_snoc. Qed.

Lemma commit_hosts w r f dec d :
  single w → open w !! r = Some f → advance f (db w) = Answers dec d → NoDup (l_host_id <$> actives d).
Proof.
  intros Hw Hf Ha.
  assert (past_release f = true) as Hp by (unfold advance, past_release in *; destruct (f_point f) as [| | | |[]]; try done; by repeat case_match).
  assert (NoDup (l_host_id <$> actives (seen f (db w)))) as Hnd.
  { rewrite own_actives. eapply sublist_NoDup; [apply Hw|]. apply fmap_sublist, sublist_filter. }
  assert (f_host f ∉ l_host_id <$> actives (seen f (db w))) as Hno.
  { rewrite own_actives. intros (l & Hh & Hl)%list_elem_of_fmap. apply list_elem_of_filter in Hl as [Hm%Is_true_true Hl].
    apply negb_true_iff, bool_decide_eq_false in Hm. apply list_elem_of_filter in Hl as [Hact%Is_true_true Hl]. apply Hm. by eapply sg_marks. }
  unfold advance in Ha. destruct (f_point f) as [| | | |[| |b]]; try (by repeat case_match); injection Ha as _ <-.
  - rewrite grant_hosts, fmap_app. by apply NoDup_snoc.
  - rewrite grant_hosts, fmap_app. by apply NoDup_snoc.
  - rewrite (actives_snoc (seen f (db w))). rewrite app_nil_r. exact Hnd.
Qed.

(** The mark set of a request once it has superseded its host's leases. *)
Lemma advance_marks w r f f' l :
  single w → open w !! r = Some f → advance f (db w) = Goes f' → past_release f' = true →
  l ∈ leases (db w) → active l = true → l_host_id l = f_host f' → l_id l ∈ marks f'.
Proof.
  intros Hw Hf Ha Hp Hl Hact Hh. unfold advance in Ha. destruct (f_point f) eqn:Ep.
  - injection Ha as <-. done.
  - injection Ha as <-. unfold marks. cbn [f_expired f_released f_host] in *. rewrite app_assoc. apply elem_of_app.
    destruct (decide (l_id l ∈ marks f)) as [Hm|Hm]; [by left|]. right.
    apply list_elem_of_fmap. exists (own f l). rewrite own_id. split; [done|]. apply list_elem_of_filter. split.
    + by rewrite own_active, own_host, Hact, bool_decide_true, bool_decide_false.
    + by apply list_elem_of_fmap_2.
  - injection Ha as <-. by apply (sg_marks _ Hw r f l Hf); [by unfold past_release; rewrite Ep|..].
  - repeat case_match; simplify_eq; by apply (sg_marks _ Hw r f l Hf); [by unfold past_release; rewrite Ep|..].
  - by repeat case_match.
Qed.

Lemma release_of_actives host_id now ids d : actives (release_of host_id now ids d) `sublist_of` actives d.
Proof.
  unfold release_of, update_where, actives. cbn [leases set_leases]. induction (leases d) as [|l ls IH]; [done|].
  rewrite fmap_cons, (filter_cons (λ l, active l) l). set (new := if _ && _ && _ then _ else l).
  assert (active new = true → new = l) as Hnew by (unfold new; destruct (_ && _ && _); [by intros [=]|done]).
  rewrite (filter_cons (λ l, active l) new). destruct (decide (active new)) as [E%Is_true_true|E].
  - pose proof E as E'. rewrite Hnew in E' |- * by done. rewrite decide_True by (by rewrite E'). by constructor.
  - destruct (decide (active l)); [by constructor|done].
Qed.

Lemma advance_one_single r w : single w → single (advance_one r w).
Proof.
  intros Hw. unfold advance_one. destruct (open w !! r) as [f|] eqn:Hf; [|done]. destruct (advance f (db w)) as [f'|dec d|e] eqn:Ha.
  - destruct (locked _ _ _); [done|]. apply single_open; [done| |].
    + rewrite map_size_insert, Hf. apply Hw.
    + intros l Hp Hl Hact Hh. by eapply advance_marks.
  - eapply single_closed; [done..|]. by eapply commit_hosts.
  - eapply single_closed; [done..|]. apply Hw.
Qed.

Lemma step_single w ev : single w → single (step 1 w ev).
Proof.
  intros Hw. destruct ev as [r s fp now gr|r|r|s fp report now created ids|h]; cbn [step].
  - destruct (_ && _) eqn:E; [|done]. apply andb_true_iff in E as [[_ Hs%bool_decide_eq_true]%andb_true_iff Hn%bool_decide_eq_true].
    destruct (host_by_fingerprint _ _); [|done]. apply single_open; [done| |by intros].
    rewrite map_size_insert, Hn. lia.
  - by apply advance_one_single.
  - destruct (open w !! r) as [f|] eqn:Hf; [eapply single_closed; [done..|]; apply Hw|]. rewrite delete_id by done. by destruct w.
  - unfold report_one. destruct (locked _ _ _); [done|]. pose proof (record_leases fp report created (db w)) as Hr.
    destruct (record_agent_run _ _ _ _) as [[run|] d]; cbn [snd] in Hr.
    + destruct (scan_coordinator_enabled s); apply single_less; try done.
      * rewrite release_of_actives. unfold actives. by rewrite Hr.
      * intros l Hl Hact. rewrite <- Hr. by eapply release_of_active.
      * unfold actives. by rewrite Hr.
      * intros l. by rewrite Hr.
    + apply single_less; [done| |]; [unfold actives; by rewrite Hr|intros l; by rewrite Hr].
  - by apply single_less.
Qed.

(** ** Properties *)

(** C30: however requests for a lease, run reports and new hosts interleave, statement by statement, with at most [k] requests open at
    a time, at most [k - 1] more heavy scans hold a lease than the largest limit configured meanwhile; one at a time, which is how SQLite
    runs them, the limit itself holds and no host has two leases. *)
Theorem heavy_scans_bounded M k evs :
  (1 ≤ M)%Z → 1 ≤ k → Forall (limited M) evs →
  (Z.of_nat (length (active_heavy (db (interleaving k evs)))) ≤ M + Z.of_nat k - 1)%Z ∧
  (k = 1 → NoDup (l_host_id <$> actives (db (interleaving k evs)))).
Proof.
  intros HM Hk Hevs. split.
  - assert (bounded M k (interleaving k evs)) as Hb.
    { unfold interleaving. assert (bounded M k (mk_world (mk_cdb [] [] []) ∅)) as H0.
      { split; cbn [open db]; [rewrite map_size_empty; lia|apply map_Forall_empty|]. intros P Hnd HP.
        pose proof (pending_le _ P Hnd HP) as Hl. rewrite map_size_empty in Hl. cbn. lia. }
      revert H0. generalize (mk_world (mk_cdb [] [] []) ∅). induction Hevs as [|ev evs Hev _ IH]; intros w Hw; [done|].
      cbn [foldl]. by apply IH, step_bounded. }
    pose proof (bd_count _ _ _ Hb [] (NoDup_nil_2) (Forall_nil_2 _)) as H. cbn [length] in H.
    rewrite Nat.add_0_r in H. etrans; [|exact H]. apply inj_le. unfold active_heavy. apply filter_length_mono.
    intros l _ Hl. unfold outside. by rewrite Hl.
  - intros ->. unfold interleaving. assert (single (mk_world (mk_cdb [] [] []) ∅)) as H0.
    { split; cbn [open db]; [rewrite map_size_empty; lia|constructor|]. intros r f l H. by rewrite lookup_empty in H. }
    assert (single (foldl (step 1) (mk_world (mk_cdb [] [] []) ∅) evs)) as H; [|apply H].
    revert H0. generalize (mk_world (mk_cdb [] [] []) ∅). clear. induction evs as [|ev evs IH]; intros w Hw; [done|].
    cbn [foldl]. by apply IH, step_single.
Qed.
End Names.

(** ** Two requests at once *)

Definition demo_settings : Settings := mk_settings true 1 500000 21600 1800.
Definition demo_host (i : Z) (n fp : string) : Host := mk_host i n None None fp None None None None.
Definition both (a b : nat) : list event := EvAdvance a :: EvAdvance b :: [].

(** Two hosts with heavy scans ask at the same time, statement for statement. *)
Definition overlapping : list event :=
  [EvNewHost (demo_host 1 "nas-1" "aa"); EvNewHost (demo_host 2 "node-1" "bb");
   EvBegin 0 demo_settings "aa" 10 10; EvBegin 1 demo_settings "bb" 10 10] ++ both 0 1 ++ both 0 1 ++ both 0 1 ++ both 0 1 ++ both 0 1.

(** The coordinator counts the active leases and inserts its own without a lock or a constraint: with a limit of one, two requests that
    overlap are both granted. *)
Lemma overlapping_requests_both_granted :
  l_host_id <$> active_heavy (db (interleaving (λ _, "?") 2 overlapping)) = [1; 2]%Z ∧ max_concurrent_heavy demo_settings = 1%Z.
Proof. by vm_compute. Qed.

(** One host twice, too, when its request is sent again before the first is answered. *)
Lemma overlapping_retry_two_leases :
  l_host_id <$> actives (db (interleaving (λ _, "?") 2
    ([EvNewHost (demo_host 1 "nas-1" "aa"); EvBegin 0 demo_settings "aa" 10 10; EvBegin 1 demo_settings "aa" 10 10]
     ++ both 0 1 ++ both 0 1 ++ both 0 1 ++ both 0 1 ++ both 0 1))) = [1; 1]%Z.
Proof. by vm_compute. Qed.

(** ** Witness *)

Lemma heavy_scans_bounded_witness :
  length (active_heavy (db (interleaving (λ _, "?") 2 overlapping))) = 2 ∧
  (Z.of_nat (length (active_heavy (db (interleaving (λ _, "?") 2 overlapping)))) ≤ 1 + 2 - 1)%Z ∧
  NoDup (l_host_id <$> actives (db (interleaving (λ _, "?") 1 overlapping))).
Proof.
  assert (Forall (limited 1) overlapping) as Hl by (repeat (constructor; [first [exact I|vm_compute; discriminate]|]); constructor).
  split; [by vm_compute|]. split.
  - apply (heavy_scans_bounded (λ _, "?") 1 2 overlapping); [lia|lia|exact Hl].
  - apply (heavy_scans_bounded (λ _, "?") 1 1 overlapping); [lia|lia|exact Hl|reflexivity].
Defined.
