(* ===== verification/Dedup.v ===== *)
(** Content hashing and duplicate detection ([src/fathom/agent/reader/hasher.py], [core/dedup.py]).

    A backend opens a path to a reader over its bytes, or raises; BLAKE3 is a parameter.  The engine
    is written against the [Hasher] protocol; [BackendHasher] implements it. *)

From S2P Require Import Prelude PyStr PyDict.

(** ** Readers *)

(** [data[pos:pos+n]] and what is left, counting in binary. *)
Fixpoint takeN (n : N) (s : string) : string :=
  match s with "" => "" | String c s' => if (n =? 0)%N then "" else String c (takeN (N.pred n) s') end.
Fixpoint dropN (n : N) (s : string) : string :=
  match s with "" => "" | String c s' => if (n =? 0)%N then s else dropN (N.pred n) s' end.

Fixpoint lengthN (s : string) : N := match s with "" => 0%N | String _ s' => N.succ (lengthN s') end.

Record AsyncReader := mk_reader { data : string; pos : N }.

Definition read (n : N) (r : AsyncReader) : string * AsyncReader :=
  let block := takeN n (dropN (pos r) (data r)) in (block, mk_reader (data r) (pos r + lengthN block)).
Definition seek (offset : N) (r : AsyncReader) : AsyncReader := mk_reader (data r) offset.

(** ** [agent/reader/hasher.py] *)

Definition HEAD_TAIL_BYTES : N := 4096.
Definition FULL_CHUNK_BYTES : N := 1048576.

Section Hashing.
Context {E : Type} (blake3_hex : string → string) (open_for_hash : string → result E string).

(** The hash object is what it was fed so far. *)
Definition partial_digest (path : string) (size : N) : result E string :=
  contents ← open_for_hash path;
  let '(head, r) := read HEAD_TAIL_BYTES (mk_reader contents 0) in
  let fed := if (HEAD_TAIL_BYTES <? size)%N
             then head +:+ (read HEAD_TAIL_BYTES (seek (N.max HEAD_TAIL_BYTES (size - HEAD_TAIL_BYTES)) r)).1
             else head in
  Ok (blake3_hex fed).

(** The [while True] loop, at most [fuel] rounds of it; [None] when they do not suffice. *)
Fixpoint full_loop (fuel : nat) (r : AsyncReader) (fed : string) : option string :=
  match fuel with
  | 0 => None
  | S fuel' =>
      let '(block, r') := read FULL_CHUNK_BYTES r in
      if bool_decide (block = "") then Some fed else full_loop fuel' r' (fed +:+ block)
  end.

(** One round per byte and one more are enough ([full_digest_contents]). *)
Definition full_digest (path : string) : result E (option string) :=
  contents ← open_for_hash path;
  Ok (blake3_hex <$> full_loop (S (String.length contents)) (mk_reader contents 0) "").
End Hashing.

(** ** [core/dedup.py] *)

Record Candidate {Id : Type} := mk_cand { c_id : Id; c_path : string; c_size : Z; c_dev : Z }.
Arguments Candidate Id : clear implicits.
Arguments mk_cand {Id}.

Record DuplicateGroup {Id : Type} := mk_group {
  full_hash : string; g_size : Z; member_ids : list Id; reclaimable_bytes : Z; suggested_keeper_id : Id;
}.
Arguments DuplicateGroup Id : clear implicits.
Arguments mk_group {Id}.

(** The protocol: two stages, each of which may raise. *)
Record Hasher (E : Type) := mk_hasher {
  partial : string → Z → result E string;
  full : string → result E string;
}.
Arguments partial {E}.
Arguments full {E}.

Section Engine.
Context {E Id : Type}.
Implicit Types c : Candidate Id.

(** The key of [keep_shortest_path]: depth, then path. *)
Definition path_key c : Z * string := (Z.of_nat (count_char "/" (c_path c)), c_path c).

(** [members] is not empty: its first element is given apart. *)
Definition keep_shortest_path c (members : list (Candidate Id)) : Candidate Id :=
  min_by (lex_le str_le) path_key c members.

Definition mk_dup_group (keeper : Candidate Id → list (Candidate Id) → Candidate Id) (size : Z)
    (fh : string) (members : list (Candidate Id)) : list (DuplicateGroup Id) :=
  if length members <? 2 then []
  else match members with
  | [] => []
  | m :: ms => [mk_group fh size (c_id <$> members) (size * (Z.of_nat (length members) - 1))
                  (c_id (keeper m ms))]
  end.

(** [for c in l: d[await key(c)].append(c)]. *)
Definition group_await {K} `{!EqDecision K} (key : Candidate Id → result E K) (l : list (Candidate Id))
    : result E (list (K * list (Candidate Id))) :=
  keyed ← mapM (λ c, k ← key c; Ok (k, c)) l;
  Ok (group_by keyed).

Definition kept (skip_empty : bool) (candidates : list (Candidate Id)) : list (Candidate Id) :=
  filter (λ c, negb (skip_empty && (c_size c =? 0)%Z)) candidates.

Definition find_duplicates (h : Hasher E) (keeper : Candidate Id → list (Candidate Id) → Candidate Id)
    (skip_empty : bool) (candidates : list (Candidate Id)) : result E (list (DuplicateGroup Id)) :=
  let by_size := group_by ((λ c, (c_size c, c)) <$> kept skip_empty candidates) in
  mjoin <$> mapM (λ '(size, sized),
    if length sized <? 2 then Ok [] else
    by_partial ← group_await (λ c, partial h (c_path c) size) sized;
    mjoin <$> mapM (λ '(_, partial_members),
      if length partial_members <? 2 then Ok [] else
      by_full ← group_await (λ c, full h (c_path c)) partial_members;
      Ok (by_full ≫= λ '(fh, full_members), mk_dup_group keeper size fh full_members)) by_partial) by_size.
End Engine.

(** A digest that ran out of fuel would be a raise of its own; it does not happen. *)
Definition BackendHasher {E} (blake3_hex : string → string) (open_for_hash : string → result E string)
    (no_fuel : E) : Hasher E :=
  mk_hasher E (λ path size, partial_digest blake3_hex open_for_hash path (Z.to_N size))
    (λ path, o ← full_digest blake3_hex open_for_hash path;
             match o with Some d => Ok d | None => Err no_fuel end).

(** ** The digests *)

Lemma takeN_dropN n s : takeN n s +:+ dropN n s = s.
Proof.
  revert n. induction s as [|c s IH]; intros n; [done|]. simpl. destruct (n =? 0)%N; [done|].
  by rewrite app_cons_s, IH.
Qed.

Lemma lengthN_app s t : lengthN (s +:+ t) = (lengthN s + lengthN t)%N.
Proof. induction s as [|c s IH]; [done|]. rewrite app_cons_s. simpl. rewrite IH. lia. Qed.

Lemma dropN_lengthN s t : dropN (lengthN s) (s +:+ t) = t.
Proof.
  induction s as [|c s IH]; [by destruct t|]. rewrite app_cons_s. simpl.
  destruct (N.eqb_spec (N.succ (lengthN s)) 0); [lia|]. by rewrite N.pred_succ.
Qed.

Lemma takeN_empty n s : takeN n s = "" → n ≠ 0%N → s = "".
Proof. destruct s; [done|]. simpl. by destruct (N.eqb_spec n 0). Qed.

Lemma full_loop_spec fuel before rest fed :
  String.length rest < fuel →
  full_loop fuel (mk_reader (before +:+ rest) (lengthN before)) fed = Some (fed +:+ rest).
Proof.
  revert before rest fed. induction fuel as [|fuel IH]; intros before rest fed Hf; [lia|].
  cbn [full_loop read data pos]. rewrite dropN_lengthN. case_bool_decide as Hb.
  - apply takeN_empty in Hb as ->; [|done]. by rewrite app_empty_r.
  - pose proof (takeN_dropN FULL_CHUNK_BYTES rest) as Hr.
    set (blk := takeN FULL_CHUNK_BYTES rest) in *. set (rest' := dropN FULL_CHUNK_BYTES rest) in *.
    clearbody blk rest'. subst rest. rewrite <- app_assoc_s, <- lengthN_app, IH.
    + by rewrite app_assoc_s.
    + rewrite length_app_s in Hf. destruct blk; [done|simpl in *; lia].
Qed.

Lemma full_digest_contents {E} blake3_hex (open_for_hash : string → result E string) path w :
  open_for_hash path = Ok w → full_digest blake3_hex open_for_hash path = Ok (Some (blake3_hex w)).
Proof.
  intros H. unfold full_digest. rewrite H. cbn [mbind result_bind].
  change (mk_reader w 0) with (mk_reader ("" +:+ w) (lengthN "")).
  rewrite full_loop_spec by lia. done.
Qed.

(** The bytes that the partial digest covers, as a function of the contents. *)
Definition head_tail (w : string) (size : N) : string :=
  if (HEAD_TAIL_BYTES <? size)%N
  then takeN HEAD_TAIL_BYTES w +:+
       takeN HEAD_TAIL_BYTES (dropN (N.max HEAD_TAIL_BYTES (size - HEAD_TAIL_BYTES)) w)
  else takeN HEAD_TAIL_BYTES w.

Lemma dropN_0 s : dropN 0 s = s.
Proof. by destruct s. Qed.

Lemma partial_digest_contents {E} blake3_hex (open_for_hash : string → result E string) path size w :
  open_for_hash path = Ok w →
  partial_digest blake3_hex open_for_hash path size = Ok (blake3_hex (head_tail w size)).
Proof.
  intros H. unfold partial_digest, head_tail. rewrite H. cbn [mbind result_bind read pos data].
  rewrite dropN_0. by destruct (_ <? _)%N.
Qed.

(** ** The groups, when no file raises *)

Lemma mapM_ok {E A B} (f : A → result E B) (g : A → B) (l : list A) :
  (∀ x, x ∈ l → f x = Ok (g x)) → mapM f l = Ok (g <$> l).
Proof.
  induction l as [|x l IH]; intros H; [done|]. simpl. rewrite H by left. simpl.
  rewrite IH; [done|]. intros y Hy. apply H. by right.
Qed.

Lemma join_fmap {E A B} (f : A → list B) (l : list A) :
  fmap (M := result E) mjoin (Ok (f <$> l)) = Ok (l ≫= f).
Proof. unfold fmap, result_fmap. f_equal. induction l as [|x l IH]; [done|]. csimpl. by rewrite <- IH. Qed.

Section Spec.
Context {E Id : Type} (h : Hasher E) (keeper : Candidate Id → list (Candidate Id) → Candidate Id).
Context (pf : Candidate Id → string) (ff : Candidate Id → string).

Definition full_groups (size : Z) (pm : list (Candidate Id)) : list (DuplicateGroup Id) :=
  group_by ((λ c, (ff c, c)) <$> pm) ≫= λ '(fh, ms), mk_dup_group keeper size fh ms.

Definition partial_groups (size : Z) (sized : list (Candidate Id)) : list (DuplicateGroup Id) :=
  group_by ((λ c, (pf c, c)) <$> sized) ≫= λ x, if length x.2 <? 2 then [] else full_groups size x.2.

Definition pure_groups (l : list (Candidate Id)) : list (DuplicateGroup Id) :=
  group_by ((λ c, (c_size c, c)) <$> l) ≫= λ x, if length x.2 <? 2 then [] else partial_groups x.1 x.2.

Lemma group_await_ok {K} `{!EqDecision K} (key : Candidate Id → result E K) (g : Candidate Id → K) l :
  (∀ c, c ∈ l → key c = Ok (g c)) → group_await key l = Ok (group_by ((λ c, (g c, c)) <$> l)).
Proof.
  intros H. unfold group_await. rewrite (mapM_ok _ (λ c, (g c, c))); [done|].
  intros c Hc. by rewrite (H c Hc).
Qed.

(** The elements of a group are elements of the list, with the group's key. *)
Lemma group_member {K} `{!EqDecision K} (g : Candidate Id → K) l k xs c :
  (k, xs) ∈ group_by ((λ c, (g c, c)) <$> l) → c ∈ xs → c ∈ l ∧ g c = k.
Proof. intros [-> _]%elem_of_group_by Hc. rewrite class_fmap in Hc. by apply list_elem_of_filter in Hc as [? ?]. Qed.

Lemma find_duplicates_pure skip candidates :
  (∀ c, c ∈ kept skip candidates → partial h (c_path c) (c_size c) = Ok (pf c) ∧ full h (c_path c) = Ok (ff c)) →
  find_duplicates h keeper skip candidates = Ok (pure_groups (kept skip candidates)).
Proof.
  set (l := kept skip candidates). intros Hok. unfold find_duplicates. fold l.
  rewrite (mapM_ok _ (λ x, if length x.2 <? 2 then [] else partial_groups x.1 x.2)); [apply join_fmap|].
  intros [size sized] Hs. simpl. destruct (_ <? 2); [done|].
  assert (∀ c, c ∈ sized → c ∈ l ∧ c_size c = size) as Hin by (intros c; by apply group_member).
  rewrite (group_await_ok _ pf).
  2:{ intros c Hc. apply Hin in Hc as [Hc <-]. by apply Hok. }
  simpl. rewrite (mapM_ok _ (λ x, if length x.2 <? 2 then [] else full_groups size x.2)); [apply join_fmap|].
  intros [p pm] Hp. simpl. destruct (_ <? 2); [done|].
  rewrite (group_await_ok _ ff).
  2:{ intros c Hc. apply (group_member pf _ p pm c Hp) in Hc as [Hc _]. by apply Hok, Hin. }
  done.
Qed.

(** With the partial digest determined by size and full digest, the groups are the classes of size
    and full digest. *)
Definition same_bytes (l : list (Candidate Id)) (s : Z) (fh : string) : list (Candidate Id) :=
  filter (λ c, c_size c = s ∧ ff c = fh) l.

Lemma elem_of_mk_dup_group g size fh ms :
  g ∈ mk_dup_group keeper size fh ms ↔
  ∃ m r, ms = m :: r ∧ 2 ≤ length ms ∧
    g = mk_group fh size (c_id <$> ms) (size * (Z.of_nat (length ms) - 1)) (c_id (keeper m r)).
Proof.
  unfold mk_dup_group. destruct (Nat.ltb_spec (length ms) 2) as [Hl|Hl].
  - split; [by intros ?%elem_of_nil|]. intros (m & r & -> & ? & _). lia.
  - destruct ms as [|m r]; [simpl in Hl; lia|]. rewrite list_elem_of_singleton. split; [eauto|].
    by intros (? & ? & [= <- <-] & _ & ->).
Qed.

Lemma elem_of_full_groups g size pm :
  g ∈ full_groups size pm ↔ ∃ fh, g ∈ mk_dup_group keeper size fh (filter (λ c, ff c = fh) pm).
Proof.
  unfold full_groups. rewrite list_elem_of_bind. split.
  - intros ([fh ms] & Hg & [-> Hne]%elem_of_group_by). rewrite class_fmap in Hg. by exists fh.
  - intros (fh & Hg). exists (fh, filter (λ c, ff c = fh) pm). split; [done|].
    apply elem_of_group_by. rewrite class_fmap. split; [done|]. intros H. rewrite H in Hg.
    by apply elem_of_nil in Hg.
Qed.

Lemma mk_dup_group_keys g size fh ms : g ∈ mk_dup_group keeper size fh ms → g_size g = size ∧ full_hash g = fh.
Proof. intros (m & r & _ & _ & ->)%elem_of_mk_dup_group. done. Qed.

Context (l : list (Candidate Id)).
Hypothesis coherent : ∀ c c', c ∈ l → c' ∈ l → c_size c = c_size c' → ff c = ff c' → pf c = pf c'.

Lemma elem_of_partial_groups g size sized :
  (∀ c, c ∈ sized → c ∈ l ∧ c_size c = size) →
  g ∈ partial_groups size sized ↔ ∃ fh, g ∈ mk_dup_group keeper size fh (filter (λ c, ff c = fh) sized).
Proof.
  intros Hsz. unfold partial_groups. rewrite list_elem_of_bind. split.
  - intros ([p pm] & Hg & [-> Hne]%elem_of_group_by). rewrite class_fmap in *. simpl in Hg.
    destruct (_ <? 2); [by apply elem_of_nil in Hg|]. apply elem_of_full_groups in Hg as [fh Hg].
    exists fh. pose proof Hg as (m & r & Hm & Hlen & _)%elem_of_mk_dup_group.
    assert (m ∈ filter (λ c, ff c = fh) (filter (λ c, pf c = p) sized)) as Hin by (rewrite Hm; left).
    apply list_elem_of_filter in Hin as [Hf Hin]. apply list_elem_of_filter in Hin as [Hp Hin].
    rewrite (filter_filter_iff _ _ (λ c, ff c = fh)) in Hg; [done|].
    intros c Hc. split; [|tauto]. intros Hcf. split; [done|]. rewrite <- Hp. 
    apply Hsz in Hc as [? ?]. apply Hsz in Hin as [? ?]. apply coherent; congruence.
  - intros (fh & Hg). pose proof Hg as (m & r & Hm & Hlen & _)%elem_of_mk_dup_group.
    assert (m ∈ filter (λ c, ff c = fh) sized) as Hin by (rewrite Hm; left).
    apply list_elem_of_filter in Hin as [Hf Hin].
    exists (pf m, filter (λ c, pf c = pf m) sized). simpl. split.
    + destruct (Nat.ltb_spec (length (filter (λ c, pf c = pf m) sized)) 2) as [Hl|Hl].
      * exfalso. assert (length (filter (λ c, ff c = fh) sized) ≤ length (filter (λ c, pf c = pf m) sized)); [|lia].
        apply length_filter_impl. intros c Hc Hcf. apply Hsz in Hc as [? ?]. apply Hsz in Hin as [? ?].
        apply coherent; congruence.
      * apply elem_of_full_groups. exists fh.
        rewrite (filter_filter_iff _ _ (λ c, ff c = fh)); [done|].
        intros c Hc. split; [|tauto]. intros Hcf. split; [done|].
        apply Hsz in Hc as [? ?]. apply Hsz in Hin as [? ?]. apply coherent; congruence.
    + apply elem_of_group_by. rewrite class_fmap. split; [done|]. intros Hnil.
      assert (m ∈ filter (λ c, pf c = pf m) sized) as Hm' by (by apply list_elem_of_filter).
      rewrite Hnil in Hm'. by apply elem_of_nil in Hm'.
Qed.

Lemma elem_of_pure_groups g :
  g ∈ pure_groups l ↔ ∃ s fh, g ∈ mk_dup_group keeper s fh (same_bytes l s fh).
Proof.
  unfold pure_groups. rewrite list_elem_of_bind.
  assert (∀ s fh, filter (λ c, ff c = fh) (filter (λ c, c_size c = s) l) = same_bytes l s fh) as Hff.
  { intros s fh. apply filter_filter_iff. intros. tauto. }
  assert (∀ s c, c ∈ filter (λ c, c_size c = s) l → c ∈ l ∧ c_size c = s) as Hsz.
  { intros s c Hc. by apply list_elem_of_filter in Hc as [? ?]. }
  split.
  - intros ([s sized] & Hg & [-> Hne]%elem_of_group_by). rewrite class_fmap in *. simpl in Hg.
    destruct (_ <? 2); [by apply elem_of_nil in Hg|].
    apply elem_of_partial_groups in Hg as [fh Hg]; [|apply Hsz]. rewrite Hff in Hg. eauto.
  - intros (s & fh & Hg). rewrite <- Hff in Hg. pose proof Hg as (m & r & Hm & Hlen & _)%elem_of_mk_dup_group.
    exists (s, filter (λ c, c_size c = s) l). simpl. split.
    + pose proof (length_filter_le (λ c, ff c = fh) (filter (λ c, c_size c = s) l)).
      destruct (Nat.ltb_spec (length (filter (λ c, c_size c = s) l)) 2); [lia|].
      apply elem_of_partial_groups; [apply Hsz|]. eauto.
    + apply elem_of_group_by. rewrite class_fmap. split; [done|]. intros Hnil. rewrite Hnil in Hm. done.
Qed.

Lemma NoDup_groups {K} `{!EqDecision K} (ks : list (K * Candidate Id)) : NoDup (group_by ks).
Proof. eapply NoDup_fmap_1, NoDup_group_by. Qed.

Lemma group_by_key {K} `{!EqDecision K} (ks : list (K * Candidate Id)) x y :
  x ∈ group_by ks → y ∈ group_by ks → x.1 = y.1 → x = y.
Proof.
  destruct x, y. simpl. intros [-> _]%elem_of_group_by [-> _]%elem_of_group_by ->. done.
Qed.

Lemma NoDup_full_groups size pm : NoDup (full_groups size pm).
Proof.
  apply NoDup_bind; [| |apply NoDup_groups].
  - intros [k xs] [k' ys] g Hx Hy Hg Hg'. apply (group_by_key _ _ _ Hx Hy).
    apply mk_dup_group_keys in Hg as [_ <-]. by apply mk_dup_group_keys in Hg' as [_ <-].
  - intros [k xs] _. unfold mk_dup_group. destruct (_ <? 2); [constructor|].
    destruct xs; [constructor|apply NoDup_singleton].
Qed.

Lemma elem_of_full_groups_member g size pm :
  g ∈ full_groups size pm → g_size g = size ∧ ∃ c, c ∈ pm ∧ ff c = full_hash g.
Proof.
  intros (fh & Hg)%elem_of_full_groups. pose proof (mk_dup_group_keys _ _ _ _ Hg) as [? Hf]. split; [done|].
  apply elem_of_mk_dup_group in Hg as (m & r & Hm & _). exists m.
  assert (m ∈ filter (λ c, ff c = fh) pm) as [? ?]%list_elem_of_filter by (rewrite Hm; left). by rewrite Hf.
Qed.

Lemma NoDup_partial_groups size sized :
  (∀ c, c ∈ sized → c ∈ l ∧ c_size c = size) → NoDup (partial_groups size sized).
Proof.
  intros Hsz. apply NoDup_bind; [| |apply NoDup_groups].
  - intros [p xs] [p' ys] g Hx Hy Hg Hg'. apply (group_by_key _ _ _ Hx Hy). simpl in *.
    destruct (length xs <? 2); [by apply elem_of_nil in Hg|].
    destruct (length ys <? 2); [by apply elem_of_nil in Hg'|].
    apply elem_of_full_groups_member in Hg as (_ & c & Hc & Hf).
    apply elem_of_full_groups_member in Hg' as (_ & c' & Hc' & Hf').
    apply (group_member pf _ p xs c Hx) in Hc as [Hc <-]. apply (group_member pf _ p' ys c' Hy) in Hc' as [Hc' <-].
    apply Hsz in Hc as [? ?]. apply Hsz in Hc' as [? ?]. apply coherent; congruence.
  - intros [p xs] _. simpl. destruct (_ <? 2); [constructor|apply NoDup_full_groups].
Qed.

Lemma NoDup_pure_groups : NoDup (pure_groups l).
Proof.
  apply NoDup_bind; [| |apply NoDup_groups].
  - intros [s xs] [s' ys] g Hx Hy Hg Hg'. apply (group_by_key _ _ _ Hx Hy). simpl in *.
    assert (∀ t zs, g ∈ (if length zs <? 2 then [] else partial_groups t zs) → g_size g = t) as Hkey.
    { intros t zs Hz. destruct (length zs <? 2); [by apply elem_of_nil in Hz|].
      apply list_elem_of_bind in Hz as ([p pm] & Hz & _). simpl in Hz.
      destruct (length pm <? 2); [by apply elem_of_nil in Hz|]. by apply elem_of_full_groups_member in Hz as [? _]. }
    apply Hkey in Hg as <-. by apply Hkey in Hg' as <-.
  - intros [s xs] Hx. simpl. destruct (_ <? 2); [constructor|]. apply NoDup_partial_groups.
    intros c Hc. by apply (group_member c_size l s xs c).
Qed.
End Spec.

(** ** Properties *)

Lemma lengthN_0 w : lengthN w = 0%N → w = "".
Proof. destruct w; [done|]. simpl. lia. Qed.

(** over files whose sizes are the catalogued ones, and unless two of them exhibit a BLAKE3
    collision, the engine terminates and reports, each exactly once, the sets of two or more non-empty
    candidates with the same bytes, with the bytes that all but one of them occupy and the keeper that
    the rule picks among them. *)
Theorem find_duplicates_exact {E Id} (blake3_hex : string → string)
    (open_for_hash : string → result E string) (no_fuel : E)
    (keeper : Candidate Id → list (Candidate Id) → Candidate Id) (content : string → string) candidates :
  (∀ c, c ∈ candidates → open_for_hash (c_path c) = Ok (content (c_path c)) ∧
                         c_size c = Z.of_N (lengthN (content (c_path c)))) →
  (∀ c c', c ∈ candidates → c' ∈ candidates →
     blake3_hex (content (c_path c)) = blake3_hex (content (c_path c')) →
     content (c_path c) = content (c_path c')) →
  ∃ gs, find_duplicates (BackendHasher blake3_hex open_for_hash no_fuel) keeper true candidates = Ok gs ∧
  NoDup gs ∧
  ∀ g, g ∈ gs ↔ ∃ w m r, w ≠ "" ∧ r ≠ [] ∧
    filter (λ c, content (c_path c) = w) candidates = m :: r ∧
    g = mk_group (blake3_hex w) (Z.of_N (lengthN w)) (c_id <$> m :: r)
          (Z.of_N (lengthN w) * Z.of_nat (length r)) (c_id (keeper m r)).
Proof.
  intros Hopen Hcoll.
  set (pf := λ c : Candidate Id, blake3_hex (head_tail (content (c_path c)) (Z.to_N (c_size c)))).
  set (ff := λ c : Candidate Id, blake3_hex (content (c_path c))).
  set (l := kept true candidates).
  assert (∀ c, c ∈ l ↔ c ∈ candidates ∧ content (c_path c) ≠ "") as Hl.
  { intros c. unfold l, kept. rewrite list_elem_of_filter, Is_true_true, negb_true_iff. simpl. split.
    - intros [Hz Hc]. split; [done|]. intros Hw. destruct (Hopen c Hc) as [_ Hs]. rewrite Hw in Hs.
      rewrite Hs in Hz. done.
    - intros [Hc Hw]. split; [|done]. destruct (Hopen c Hc) as [_ Hs]. apply Z.eqb_neq. rewrite Hs.
      intros H0. apply Hw, lengthN_0. lia. }
  assert (∀ c c', c ∈ l → c' ∈ l → c_size c = c_size c' → ff c = ff c' → pf c = pf c') as Hcoh.
  { intros c c' [Hc _]%Hl [Hc' _]%Hl Hs Hf. unfold pf. by rewrite (Hcoll c c' Hc Hc' Hf), Hs. }
  exists (pure_groups keeper pf ff l). split; [|split].
  - apply find_duplicates_pure. intros c [Hc _]%Hl. destruct (Hopen c Hc) as [Ho _]. split.
    + by apply partial_digest_contents.
    + simpl. by rewrite (full_digest_contents _ _ _ _ Ho).
  - by apply NoDup_pure_groups.
  - intros g. rewrite (elem_of_pure_groups keeper pf ff l Hcoh).
    assert (∀ m, m ∈ l → same_bytes ff l (c_size m) (ff m) =
            filter (λ c, content (c_path c) = content (c_path m)) candidates) as Hsame.
    { intros m [Hm Hw]%Hl. unfold same_bytes, l, kept. apply filter_filter_iff. intros c Hc.
      destruct (Hopen c Hc) as [_ Hs], (Hopen m Hm) as [_ Hs']. rewrite Is_true_true, negb_true_iff. simpl. split.
      - intros Heq. unfold ff. rewrite Hs, Hs', Heq. split; [done|]. apply Z.eqb_neq. intros H0.
        apply Hw, lengthN_0. lia.
      - intros [[_ Hf] _]. by apply Hcoll. }
    split.
    + intros (s & fh & Hg). pose proof Hg as (m & r & Hm & Hlen & ->)%elem_of_mk_dup_group.
      assert (m ∈ same_bytes ff l s fh) as Hin by (rewrite Hm; left).
      apply list_elem_of_filter in Hin as [[<- <-] Hin]. rewrite Hsame in * by done.
      pose proof Hin as [Hc Hw]%Hl. destruct (Hopen m Hc) as [_ Hs].
      exists (content (c_path m)), m, r. split_and!; [done|by destruct r; simpl in *; [rewrite Hm in Hlen; simpl in Hlen; lia|]|done|].
      rewrite Hm, Hs. unfold ff. f_equal. simpl. lia.
    + intros (w & m & r & Hw & Hr & Hm & ->).
      assert (m ∈ filter (λ c, content (c_path c) = w) candidates) as Hin by (rewrite Hm; left).
      apply list_elem_of_filter in Hin as [<- Hc]. destruct (Hopen m Hc) as [_ Hs].
      exists (c_size m), (ff m). rewrite Hsame, Hm by (by apply Hl). apply elem_of_mk_dup_group.
      exists m, r. split; [done|]. split; [destruct r; [done|simpl; lia]|]. unfold ff. rewrite Hs. f_equal. simpl. lia.
Qed.

(** ** Witness *)

Definition demo_files : list (Candidate Z) :=
  [mk_cand 1 "/a/x" 2 0; mk_cand 2 "/y" 2 0; mk_cand 3 "/z" 2 0; mk_cand 4 "/e" 0 0; mk_cand 5 "/f" 0 0]%Z.
Definition demo_content (p : string) : string :=
  if bool_decide (p = "/z") then "no" else if bool_decide (p = "/e" ∨ p = "/f") then "" else "hi".
Definition demo_open (p : string) : result string string := Ok (demo_content p).

Lemma find_duplicates_exact_witness :
  ∃ gs, find_duplicates (BackendHasher (λ w, "b3:" +:+ w) demo_open "fuel") keep_shortest_path true demo_files
        = Ok gs ∧ gs = [mk_group "b3:hi" 2 [1%Z; 2%Z] 2 2%Z].
Proof.
  destruct (find_duplicates_exact (λ w, "b3:" +:+ w) demo_open "fuel" keep_shortest_path demo_content demo_files)
    as (gs & Hgs & _).
  - apply Forall_forall. repeat (constructor; [split; reflexivity|]). constructor.
  - intros c c' _ _ H. exact (app_inv_head_s "b3:" _ _ H).
  - exists gs. split; [exact Hgs|]. revert Hgs. vm_compute. intros Hgs. injection Hgs as <-. reflexivity.
Defined.
