(* ===== verification/Scan.v ===== *)
(** The scanners that fill the staging store: the full metadata walk ([reader/walker.py]) and the
    incremental cycle ([reader/incremental.py]).

    A walk or a feed is the list it yields; waiting for the supervisor between batches has no effect on
    the store.  The time stamps and the JSON text of the acknowledgement are arguments. *)

From stdpp Require Import gmap.
From S2P Require Import Prelude PyStr PyDict Sql Staging Feed Dedup Supervisor.

Record WarningAck := mk_ack { operator : string; acknowledged_at : Z; target : string; ack_mode : string }.

(** What a backend, a feed or the store may raise; the runner catches all but the last class. *)
Inductive exn := OSError (msg : string) | RuntimeError (msg : string) | SqliteError (msg : string) | OtherError (msg : string).

Inductive ScanError := AcknowledgementRequired | FullBitBlocked | ValueError | Raised (e : exn).

Record ScanResult := mk_scan_result { sr_run_id : Z; sr_entries_seen : Z; sr_rows_changed : Z }.

Section Scanners.
Context (dump : WarningAck → string) (host : string).

(** ** [MetadataScanner] *)

Section Metadata.
Context (batch_size : Z).

(** The loop over the walk: the counters, the entries not yet flushed and the store. *)
Fixpoint scan_loop (run : Z) (vol : string) (walk batch : list FsEntry) (seen changed : Z) (s : StagingStore)
    : Z * Z * list FsEntry * StagingStore :=
  match walk with
  | [] => (seen, changed, batch, s)
  | entry :: walk =>
      let batch := batch ++ [entry] in
      let seen := (seen + 1)%Z in
      if (batch_size <=? Z.of_nat (length batch))%Z then
        let '(n, s) := stage_batch run host vol batch s in scan_loop run vol walk [] seen (changed + n) s
      else scan_loop run vol walk batch seen changed s
  end.

(** [walk] and [raised]: what the walk yields, and how it ends. *)
Definition scan (root : string) (ack : option WarningAck) (volume : VolumeInfo) (walk : list FsEntry)
    (raised : option exn) (started finished : Z) (s : StagingStore) : result ScanError ScanResult * StagingStore :=
  if (batch_size <? 1)%Z then (Err ValueError, s) else
  match ack with
  | None => (Err AcknowledgementRequired, s)
  | Some a =>
      let vol := vi_mountpoint volume in
      let '(run, s) := start_run host vol METADATA root started (Some (dump a)) (Some volume) s in
      let '(seen, changed, batch, s) := scan_loop run vol walk [] 0 0 s in
      match raised with
      | Some e => (Err (Raised e), s)
      | None =>
          let '(n, s) := match batch with [] => (0%Z, s) | _ => stage_batch run host vol batch s end in
          (Ok (mk_scan_result run seen (changed + n)), finish_run run finished seen s)
      end
  end.
End Metadata.

(** ** [IncrementalScanner] *)

Record IncrementalResult := mk_inc_result { ir_run_id : Z; upserts_staged : Z; removals_staged : Z }.

Definition stage_delta (run : Z) (vol : string) (events : list ChangeEvent) (finished : Z) (s : StagingStore)
    : IncrementalResult * StagingStore :=
  let delta := collect_delta events in
  let '(ups, s) := match upserts delta with [] => (0%Z, s) | l => stage_batch run host vol l s end in
  let '(rms, s) := match delta_removals delta with [] => (0%Z, s) | l => stage_removals run host vol l s end in
  (mk_inc_result run ups rms, finish_run run finished (Z.of_nat (length (upserts delta))) s).

(** [feed]: the events, or the exception that the feed raises at some point. *)
Definition incremental_scan (root : string) (feed : result exn (list ChangeEvent)) (ack : WarningAck)
    (volume : VolumeInfo) (started finished : Z) (s : StagingStore)
    : result ScanError IncrementalResult * StagingStore :=
  let vol := vi_mountpoint volume in
  let '(run, s) := start_run host vol METADATA root started (Some (dump ack)) (Some volume) s in
  match feed with
  | Err e => (Err (Raised e), s)
  | Ok events => let '(r, s) := stage_delta run vol events finished s in (Ok r, s)
  end.

(** The cycle of the agent: the feed's baseline is what the store holds of the volume, and its walk is
    complete. *)
Definition restat_cycle (root : string) (walk : list FsEntry) (ack : WarningAck) (volume : VolumeInfo)
    (started finished : Z) (s : StagingStore) : IncrementalResult * StagingStore :=
  let vol := vi_mountpoint volume in
  let baseline := load_baseline host vol s in
  let '(run, s) := start_run host vol METADATA root started (Some (dump ack)) (Some volume) s in
  stage_delta run vol (restat_changes baseline walk) finished s.
End Scanners.

(** ** Batches of a walk *)

Lemma stage_batch_app run host vol a b s :
  stage_batch run host vol (a ++ b) s =
  let '(n, s1) := stage_batch run host vol a s in
  let '(m, s2) := stage_batch run host vol b s1 in ((n + m)%Z, s2).
Proof.
  unfold stage_batch, _UPSERT. rewrite fmap_app, upsert_all_app.
  destruct (upsert_all _ _ _ _ (to_row run host vol <$> a) (entries s)) as [n l1]. cbn [set_entries entries].
  by destruct (upsert_all _ _ _ _ (to_row run host vol <$> b) l1) as [m l2].
Qed.

Lemma stage_batch_nil run host vol s : stage_batch run host vol [] s = (0%Z, s).
Proof. by destruct s. Qed.

(** How many of the entries of a walk full batches hold. *)
Definition in_full_batches (size : Z) (n : nat) : nat := Z.to_nat (Z.of_nat n / size * size).

Lemma in_full_batches_small size n : (Z.of_nat n < size)%Z → in_full_batches size n = 0.
Proof. intros H. unfold in_full_batches. rewrite Z.div_small by lia. done. Qed.

Lemma in_full_batches_step size n m :
  (1 ≤ size)%Z → Z.of_nat n = size → in_full_batches size (n + m) = n + in_full_batches size m.
Proof.
  intros Hs <-. unfold in_full_batches. replace (Z.of_nat (n + m)) with (1 * Z.of_nat n + Z.of_nat m)%Z by lia.
  rewrite Z.div_add_l by lia.
  pose proof (Z.div_pos (Z.of_nat m) (Z.of_nat n) ltac:(lia) ltac:(lia)). lia.
Qed.

Lemma scan_loop_spec host size run vol walk batch seen changed s :
  (1 ≤ size)%Z → (Z.of_nat (length batch) < size)%Z →
  let k := in_full_batches size (length (batch ++ walk)) in
  scan_loop host size run vol walk batch seen changed s =
  let '(n, s') := stage_batch run host vol (take k (batch ++ walk)) s in
  ((seen + Z.of_nat (length walk))%Z, (changed + n)%Z, drop k (batch ++ walk), s').
Proof.
  intros Hs. cbn zeta. revert batch seen changed s. induction walk as [|e walk IH]; intros batch seen changed s Hb; cbn [scan_loop].
  - rewrite app_nil_r, in_full_batches_small by done. cbn [take drop]. by rewrite stage_batch_nil, !Z.add_0_r.
  - assert (batch ++ e :: walk = (batch ++ [e]) ++ walk) as -> by (by rewrite <- app_assoc).
    assert (length (batch ++ [e]) = S (length batch)) as Hl by (rewrite length_app; cbn; lia).
    destruct (Z.leb_spec size (Z.of_nat (length (batch ++ [e])))) as [Hle|Hlt].
    + rewrite (length_app (batch ++ [e])), in_full_batches_step by lia.
      rewrite take_app_add, drop_app_add, (stage_batch_app run host vol (batch ++ [e])).
      destruct (stage_batch run host vol (batch ++ [e]) s) as [n s1]. rewrite IH by (cbn; lia). cbn [app].
      destruct (stage_batch run host vol (take _ walk) s1) as [m s2]. cbn [length]. f_equal. f_equal. f_equal; lia.
    + rewrite IH by done. destruct (stage_batch run host vol (take _ _) s) as [n s1]. cbn [length]. f_equal. f_equal. f_equal; lia.
Qed.

(** A metadata scan runs only with an acknowledgement, and whatever the batch size it stages the walk as
    one batch would: the same rows, the same number of changed rows, and the run recorded as finished with
    the number of entries seen.  If the walk raises, the full batches before stay staged and the run stays
    open, so that it is no baseline. *)
Theorem scan_is_one_batch dump host size root ack volume walk raised started finished s :
  (1 ≤ size)%Z →
  scan dump host size root ack volume walk raised started finished s =
  match ack with
  | None => (Err AcknowledgementRequired, s)
  | Some a =>
      let '(run, s1) := start_run host (vi_mountpoint volume) METADATA root started (Some (dump a)) (Some volume) s in
      match raised with
      | Some e => (Err (Raised e), (stage_batch run host (vi_mountpoint volume) (take (in_full_batches size (length walk)) walk) s1).2)
      | None =>
          let '(changed, s2) := stage_batch run host (vi_mountpoint volume) walk s1 in
          (Ok (mk_scan_result run (Z.of_nat (length walk)) changed), finish_run run finished (Z.of_nat (length walk)) s2)
      end
  end.
Proof.
  intros Hs. unfold scan. destruct (Z.ltb_spec size 1); [lia|]. destruct ack as [a|]; [|done].
  destruct (start_run _ _ _ _ _ _ _ s) as [run s1]. rewrite scan_loop_spec by (cbn; lia). cbn [app].
  destruct raised as [e|]; [by destruct (stage_batch _ _ _ _ s1)|].
  set (k := in_full_batches size (length walk)).
  assert (stage_batch run host (vi_mountpoint volume) walk s1 =
          stage_batch run host (vi_mountpoint volume) (take k walk ++ drop k walk) s1) as -> by (by rewrite take_drop).
  rewrite stage_batch_app.
  destruct (stage_batch run host (vi_mountpoint volume) (take k walk) s1) as [n s2].
  assert (∀ b, match b with [] => (0%Z, s2) | _ => stage_batch run host (vi_mountpoint volume) b s2 end
               = stage_batch run host (vi_mountpoint volume) b s2) as ->.
  { intros [|x b]; [by rewrite stage_batch_nil|done]. }
  by destruct (stage_batch run host (vi_mountpoint volume) (drop k walk) s2) as [m s3].
Qed.

(** ** The incremental cycle *)

Definition full_key (host vol : string) (k : Z * Z) : Staging.key := (host, vol, k.1, k.2).

Lemma full_key_inj host vol k k' : full_key host vol k = full_key host vol k' → k = k'.
Proof. destruct k, k'. by intros [= -> ->]. Qed.

Lemma baseline_keys host vol s :
  full_key host vol <$> (load_baseline host vol s).*1 =
  entry_key <$> filter (λ e, bool_decide (s_host e = host) && bool_decide (s_volume e = vol)) (entries s).
Proof.
  unfold load_baseline. rewrite <- !list_fmap_compose. apply list_fmap_ext. intros i e He%list_elem_of_lookup_2.
  apply list_elem_of_filter in He as [[Hh%bool_decide_unpack Hv%bool_decide_unpack]%andb_prop_elim _].
  cbn. unfold full_key, entry_key. cbn. by rewrite <- Hh, <- Hv.
Qed.

Lemma baseline_NoDup host vol s : unique entry_key (entries s) → NoDup (load_baseline host vol s).*1.
Proof.
  intros Hu. eapply NoDup_fmap_1. rewrite (baseline_keys host vol). eapply sublist_NoDup; [exact Hu|].
  apply fmap_sublist, sublist_filter.
Qed.

Lemma baseline_get host vol s k :
  unique entry_key (entries s) →
  dict_get k (load_baseline host vol s) =
  (λ o, (s_mtime o, s_path o)) <$> at_key entry_key (full_key host vol k) (entries s).
Proof.
  intros Hu. destruct (at_key entry_key (full_key host vol k) (entries s)) as [o|] eqn:E.
  - apply at_key_some in E as [Hin Hk]. apply dict_get_elem; [by apply baseline_NoDup|].
    apply list_elem_of_fmap. exists o. destruct k as [d i]. injection Hk as Hh Hv Hd Hi. split; [by rewrite Hd, Hi|].
    apply list_elem_of_filter. by rewrite !bool_decide_true.
  - apply dict_get_none. rewrite at_key_none in E. intros Hin. apply E.
    apply (list_elem_of_fmap_2 (full_key host vol)) in Hin. rewrite baseline_keys in Hin.
    apply list_elem_of_fmap in Hin as (x & -> & [_ Hx]%list_elem_of_filter). by apply list_elem_of_fmap_2.
Qed.

(** The row of a file after the cycle: staged anew, rewritten when the feed reports it and its time or
    size differ, or as it was. *)
Definition cycle_row (run : Z) (host vol : string) (e : FsEntry) (old : option staged_entry) : staged_entry :=
  match old with
  | None => to_row run host vol e
  | Some o => if (negb (f_mtime e =? s_mtime o)%Z || negb (bool_decide (f_path e = s_path o)))
                 && row_changed (to_row run host vol e) o
              then update_row (to_row run host vol e) o else o
  end.

Section Cycle.
Context (dump : WarningAck → string) (host root : string) (ack : WarningAck) (volume : VolumeInfo).
Context (walk : list FsEntry) (started finished : Z) (s : StagingStore).
Context (Hu : unique entry_key (entries s)) (Hr : unique removal_key (removals s)) (Hw : NoDup (fs_key <$> walk)).

Let vol := vi_mountpoint volume.
Let run := next_run s.
Let res := restat_cycle dump host root walk ack volume started finished s.
Let baseline := load_baseline host vol s.
Let staged := filter (λ e, changed baseline e) walk.
Let removed := stable_sort removal_le (gone baseline walk).

Lemma cycle_tables :
  entries res.2 = (_UPSERT (to_row run host vol <$> staged) (entries s)).2 ∧
  removals res.2 = (upsert_removals (removal_row run host vol <$> removed) (removals s)).2 ∧
  upserts_staged res.1 = (_UPSERT (to_row run host vol <$> staged) (entries s)).1.
Proof.
  unfold res, restat_cycle, stage_delta, start_run. fold vol. fold baseline.
  rewrite restat_delta by (by apply baseline_NoDup || done). fold staged. cbn [upserts delta_removals]. fold removed.
  unfold stage_batch, stage_removals. fold run. cbn [entries removals].
  destruct staged as [|e l].
  - destruct removed as [|r rs]; [done|]. cbn [removals].
    by destruct (upsert_removals (removal_row run host vol <$> r :: rs) (removals s)).
  - destruct (_UPSERT (to_row run host vol <$> e :: l) (entries s)) as [n l1]. unfold set_entries. cbn [removals].
    destruct removed as [|r rs]; [done|].
    by destruct (upsert_removals (removal_row run host vol <$> r :: rs) (removals s)).
Qed.

Lemma staged_keys : entry_key <$> (to_row run host vol <$> staged) = full_key host vol <$> (fs_key <$> staged).
Proof. by rewrite <- !list_fmap_compose. Qed.

Lemma staged_NoDup : NoDup (entry_key <$> (to_row run host vol <$> staged)).
Proof.
  rewrite staged_keys. apply NoDup_fmap_2; [intros k k'; apply full_key_inj|].
  eapply sublist_NoDup; [exact Hw|]. apply fmap_sublist, sublist_filter.
Qed.

Lemma changed_row e :
  changed baseline e = match at_key entry_key (full_key host vol (fs_key e)) (entries s) with
                       | None => true
                       | Some o => negb (f_mtime e =? s_mtime o)%Z || negb (bool_decide (f_path e = s_path o))
                       end.
Proof.
  unfold changed, restat_event. unfold baseline. rewrite baseline_get by done.
  destruct (at_key _ _ _) as [o|]; cbn [fmap option_fmap option_map]; [|done].
  rewrite (bool_decide_ext (s_mtime o = f_mtime e) (f_mtime e = s_mtime o)),
    (bool_decide_ext (s_path o = f_path e) (f_path e = s_path o)) by done.
  rewrite Z.eqb_sym. assert ((s_mtime o =? f_mtime e)%Z = bool_decide (f_mtime e = s_mtime o)) as ->.
  { case_bool_decide; [apply Z.eqb_eq; lia|apply Z.eqb_neq; lia]. }
  destruct (negb (bool_decide _) || negb _); [done|]. apply bool_decide_eq_false. auto.
Qed.

Lemma cycle_unique : unique entry_key (entries res.2).
Proof. destruct cycle_tables as (-> & _). unfold _UPSERT. by eapply upsert_all_unique. Qed.

Lemma cycle_row_of e :
  e ∈ walk →
  at_key entry_key (full_key host vol (fs_key e)) (entries res.2) =
  Some (cycle_row run host vol e (at_key entry_key (full_key host vol (fs_key e)) (entries s))).
Proof.
  intros He. destruct cycle_tables as (-> & _). unfold _UPSERT. destruct (changed baseline e) eqn:Ec.
  - assert (to_row run host vol e ∈ to_row run host vol <$> staged) as Hin.
    { apply list_elem_of_fmap_2, list_elem_of_filter. by rewrite Ec. }
    pose proof (at_key_upsert_all entry_key entry_key row_changed update_row (λ new _, new)
                  ltac:(done) ltac:(done) _ _ (entries s) staged_NoDup Hin) as Hat.
    change (entry_key (to_row run host vol e)) with (full_key host vol (fs_key e)) in Hat.
    rewrite changed_row in Ec. unfold cycle_row. destruct (at_key _ _ (entries s)) as [o|].
    + by rewrite Ec.
    + by destruct Hat as [_ Hat].
  - rewrite (at_key_upsert_all_other entry_key entry_key); [|done|done|].
    + rewrite changed_row in Ec. unfold cycle_row. destruct (at_key _ _ (entries s)) as [o|]; [by rewrite Ec|done].
    + rewrite staged_keys. intros (k & Hk%full_key_inj & (e' & -> & [Hc He']%list_elem_of_filter)%list_elem_of_fmap)%list_elem_of_fmap.
      pose proof (at_key_elem fs_key walk e Hw He) as H1. rewrite Hk, (at_key_elem fs_key walk e' Hw He') in H1.
      injection H1 as ->. by rewrite Ec in Hc.
Qed.

Lemma cycle_row_other k :
  (∀ e, e ∈ walk → k ≠ full_key host vol (fs_key e)) → at_key entry_key k (entries res.2) = at_key entry_key k (entries s).
Proof.
  intros Hk. destruct cycle_tables as (-> & _). unfold _UPSERT.
  rewrite (at_key_upsert_all_other entry_key entry_key); [done|done|done|].
  rewrite staged_keys. intros (k' & -> & (e & -> & [_ He]%list_elem_of_filter)%list_elem_of_fmap)%list_elem_of_fmap.
  by apply (Hk e He).
Qed.

Lemma elem_of_gone k p :
  (k, p) ∈ gone baseline walk ↔
  k ∉ fs_key <$> walk ∧ ∃ o, at_key entry_key (full_key host vol k) (entries s) = Some o ∧ s_path o = p.
Proof.
  assert (∀ x, x ∈ baseline ↔ dict_get x.1 baseline = Some x.2) as Hget.
  { intros [k' tp]. apply dict_get_elem. by apply baseline_NoDup. }
  unfold gone, missing. rewrite list_elem_of_fmap. split.
  - intros (x & [= -> ->] & [Hx Hin]%list_elem_of_filter). split; [done|]. apply Hget in Hin. unfold baseline in Hin.
    rewrite baseline_get in Hin by done. destruct (at_key _ _ _) as [o|]; [|done]. cbn in Hin. exists o. by injection Hin as <-.
  - intros (Hk & o & Ho & <-). exists (k, (s_mtime o, s_path o)). split; [done|]. apply list_elem_of_filter. split; [done|].
    apply Hget. unfold baseline. rewrite baseline_get by done. cbn [fst snd]. by rewrite Ho.
Qed.

Lemma removed_keys_NoDup : NoDup (removal_key <$> (removal_row run host vol <$> removed)).
Proof.
  assert (removal_key <$> (removal_row run host vol <$> removed) = full_key host vol <$> removed.*1) as ->
    by (by rewrite <- !list_fmap_compose).
  apply NoDup_fmap_2; [intros k k'; apply full_key_inj|]. unfold removed. rewrite stable_sort_Permutation.
  unfold gone. rewrite <- list_fmap_compose. eapply sublist_NoDup; [apply (baseline_NoDup host vol s Hu)|].
  apply (fmap_sublist fst), sublist_filter.
Qed.

Lemma cycle_removal k :
  at_key removal_key (full_key host vol k) (removals res.2) =
  match at_key entry_key (full_key host vol k) (entries s) with
  | Some o => if bool_decide (k ∈ fs_key <$> walk) then at_key removal_key (full_key host vol k) (removals s)
              else Some (removal_row run host vol (k, s_path o))
  | None => at_key removal_key (full_key host vol k) (removals s)
  end.
Proof.
  destruct cycle_tables as (_ & -> & _). unfold upsert_removals.
  assert ((∀ p, (k, p) ∉ gone baseline walk) →
    at_key removal_key (full_key host vol k) (upsert_all removal_key (λ _ _, true) update_removal (λ new _, new)
      (removal_row run host vol <$> removed) (removals s)).2 = at_key removal_key (full_key host vol k) (removals s)) as Hother.
  { intros Hn. apply (at_key_upsert_all_other removal_key removal_key); [done|done|].
    intros (r & Hk & (x & -> & Hx)%list_elem_of_fmap)%list_elem_of_fmap.
    unfold removed in Hx. rewrite stable_sort_Permutation in Hx. destruct x as [k' p].
    apply (full_key_inj host vol k k') in Hk as <-. by apply (Hn p). }
  destruct (at_key entry_key (full_key host vol k) (entries s)) as [o|] eqn:Eo.
  - case_bool_decide as Hk; [apply Hother; intros p [? _]%elem_of_gone; done|].
    assert (removal_row run host vol (k, s_path o) ∈ removal_row run host vol <$> removed) as Hin.
    { apply list_elem_of_fmap_2. unfold removed. rewrite stable_sort_Permutation. apply elem_of_gone. eauto. }
    pose proof (at_key_upsert_all removal_key removal_key (λ _ _, true) update_removal (λ new _, new)
                  ltac:(done) ltac:(done) _ _ (removals s) removed_keys_NoDup Hin) as Hat.
    change (removal_key (removal_row run host vol (k, s_path o))) with (full_key host vol k) in Hat.
    destruct (at_key removal_key (full_key host vol k) (removals s)) as [x|] eqn:Ex; [|by destruct Hat as [_ Hat]].
    rewrite Hat. apply at_key_some in Ex as [_ Ex]. unfold update_removal, removal_row. cbn. injection Ex as <- <- <- <-. done.
  - apply Hother. intros p (_ & o & Ho & _)%elem_of_gone. congruence.
Qed.
End Cycle.

(** An incremental cycle over a walk that meets each file once: the row of each file of the walk is staged
    anew, rewritten (and queued) if the feed reports it and its time or size differ, or left; each file of
    the volume that the walk did not meet has a removal queued with its last path; all other rows stay. *)
Theorem restat_cycle_stages dump host root ack volume walk started finished s :
  unique entry_key (entries s) → unique removal_key (removals s) → NoDup (fs_key <$> walk) →
  let vol := vi_mountpoint volume in
  let run := next_run s in
  let s' := (restat_cycle dump host root walk ack volume started finished s).2 in
  let row k t := at_key entry_key (full_key host vol k) (entries t) in
  let removal k t := at_key removal_key (full_key host vol k) (removals t) in
  unique entry_key (entries s') ∧
  (∀ e, e ∈ walk → row (fs_key e) s' = Some (cycle_row run host vol e (row (fs_key e) s))) ∧
  (∀ k, (∀ e, e ∈ walk → k ≠ full_key host vol (fs_key e)) → at_key entry_key k (entries s') = at_key entry_key k (entries s)) ∧
  (∀ k o, k ∉ fs_key <$> walk → row k s = Some o → removal k s' = Some (removal_row run host vol (k, s_path o))) ∧
  (∀ k, k ∈ fs_key <$> walk ∨ row k s = None → removal k s' = removal k s).
Proof.
  intros Hu Hr Hw vol run s' row removal. split_and!.
  - by apply cycle_unique.
  - intros e He. by apply cycle_row_of.
  - intros k Hk. by apply cycle_row_other.
  - intros k o Hk Ho. etransitivity; [exact (cycle_removal dump host root ack volume walk started finished s Hu Hw k)|].
    fold vol. change (at_key _ _ (entries s)) with (row k s). rewrite Ho. by rewrite bool_decide_false.
  - intros k Hk. etransitivity; [exact (cycle_removal dump host root ack volume walk started finished s Hu Hw k)|].
    fold vol. change (at_key entry_key _ (entries s)) with (row k s).
    destruct (row k s); [|done]. destruct Hk as [Hk|]; [|done]. by rewrite bool_decide_true.
Qed.

(** A row the cycle has dealt with is not staged again. *)
Lemma cycle_row_settled run run' host vol e old :
  let o := cycle_row run host vol e old in
  (negb (f_mtime e =? s_mtime o)%Z || negb (bool_decide (f_path e = s_path o))) && row_changed (to_row run' host vol e) o = false.
Proof.
  intros o. unfold o, cycle_row. destruct old as [o'|].
  - destruct ((negb (f_mtime e =? s_mtime o')%Z || negb (bool_decide (f_path e = s_path o'))) && row_changed (to_row run host vol e) o') eqn:E.
    + cbn. rewrite Z.eqb_refl, bool_decide_true by done. done.
    + exact E.
  - cbn. rewrite Z.eqb_refl, bool_decide_true by done. done.
Qed.

(** Over an unchanged tree a second cycle stages no entry and leaves every staged row as it is. *)
Theorem restat_cycle_settles dump host root ack volume walk started finished started' finished' s :
  unique entry_key (entries s) → unique removal_key (removals s) → NoDup (fs_key <$> walk) →
  let s1 := (restat_cycle dump host root walk ack volume started finished s).2 in
  let '(res, s2) := restat_cycle dump host root walk ack volume started' finished' s1 in
  upserts_staged res = 0%Z ∧ entries s2 = entries s1.
Proof.
  intros Hu Hr Hw s1. assert (unique entry_key (entries s1)) as Hu1 by (by apply cycle_unique).
  destruct (restat_cycle dump host root walk ack volume started' finished' s1) as [res s2] eqn:E.
  destruct (cycle_tables dump host root ack volume walk started' finished' s1 Hu1 Hw) as (He & _ & Hn).
  rewrite E in He, Hn. cbn [fst snd] in He, Hn. rewrite He, Hn. unfold _UPSERT.
  rewrite (upsert_all_noop entry_key entry_key); [done|done|].
  intros b (e & -> & [Hc Hin]%list_elem_of_filter)%list_elem_of_fmap.
  pose proof (cycle_row_of dump host root ack volume walk started finished s Hu Hw e Hin) as Hrow. fold s1 in Hrow.
  eexists. split; [exact Hrow|]. rewrite changed_row in Hc by done. rewrite Hrow in Hc.
  apply Is_true_true in Hc. pose proof (cycle_row_settled (next_run s) (next_run s1) host (vi_mountpoint volume) e
    (at_key entry_key (full_key host (vi_mountpoint volume) (fs_key e)) (entries s))) as Hs. cbn zeta in Hs.
  rewrite Hc in Hs. exact Hs.
Qed.

(** ** Three cycles *)

Definition demo_ack : WarningAck := mk_ack "op" 1 "/v" "metadata".
Definition demo_volume : VolumeInfo := mk_vinfo "/v" None "ext4" "sda" "sata" None None 10 5 5.
Definition demo_dump (a : WarningAck) : string := operator a.
Definition demo_cycle (walk : list FsEntry) (s : StagingStore) : IncrementalResult * StagingStore :=
  restat_cycle demo_dump "h" "/v" walk demo_ack demo_volume 1 2 s.

(** Two files staged and pushed. *)
Definition demo_store : StagingStore :=
  let s := (scan demo_dump "h" 1 "/v" (Some demo_ack) demo_volume [demo_file "/v/a" 1 9; demo_file "/v/b" 2 9] None 1 2 empty_store).2 in
  mark_pushed (entry_key <$> entries s) s.

Lemma scan_is_one_batch_witness :
  (scan demo_dump "h" 1 "/v" (Some demo_ack) demo_volume [demo_file "/v/a" 1 9; demo_file "/v/b" 2 9] None 1 2 empty_store).1
  = Ok (mk_scan_result 1 2 2).
Proof.
  rewrite (scan_is_one_batch demo_dump "h" 1 "/v" (Some demo_ack) demo_volume [demo_file "/v/a" 1 9; demo_file "/v/b" 2 9] None 1 2
             empty_store ltac:(lia)).
  vm_compute. reflexivity.
Defined.

Lemma restat_cycle_stages_witness :
  let s' := (demo_cycle [demo_file "/v/a" 1 12] demo_store).2 in
  at_key removal_key ("h", "/v", 5%Z, 2%Z) (removals s') = Some (mk_removal "h" "/v" 5 2 "/v/b" 2 false) ∧
  s_mtime <$> at_key entry_key ("h", "/v", 5%Z, 1%Z) (entries s') = Some 12%Z.
Proof.
  destruct (restat_cycle_stages demo_dump "h" "/v" demo_ack demo_volume [demo_file "/v/a" 1 12] 1 2 demo_store
              ltac:(unfold unique; by_compute) ltac:(unfold unique; by_compute) ltac:(by_compute)) as (_ & H1 & _ & H2 & _).
  split.
  - exact (H2 (5, 2)%Z (mk_staged "h" "/v" 5 2 "/v/b" "/v/b" false false 10 10 9 9 0 0 "{}" None None 1 true)
             ltac:(by_compute) ltac:(by_compute)).
  - refine (eq_trans (f_equal (fmap s_mtime) (H1 (demo_file "/v/a" 1 12) (list_elem_of_here _ _))) _). by_compute.
Defined.

Lemma restat_cycle_settles_witness :
  let w := [demo_file "/v/a" 1 12; demo_file "/v/c" 3 12] in
  upserts_staged (demo_cycle w (demo_cycle w demo_store).2).1 = 0%Z.
Proof.
  intros w. pose proof (restat_cycle_settles demo_dump "h" "/v" demo_ack demo_volume w 1 2 1 2 demo_store
              ltac:(unfold unique; by_compute) ltac:(unfold unique; by_compute) ltac:(by_compute)) as H.
  unfold demo_cycle. cbn zeta in H. destruct (restat_cycle _ _ _ _ _ _ _ _ (restat_cycle _ _ _ _ _ _ _ _ _).2) as [res s2].
  exact (proj1 H).
Defined.

(** A rename that keeps time and size is seen by the feed and dropped by the store. *)
Lemma rename_not_staged :
  let events := restat_changes (load_baseline "h" "/v" demo_store) [demo_file "/v/z" 1 9; demo_file "/v/b" 2 9] in
  upserts (collect_delta events) = [demo_file "/v/z" 1 9] ∧
  let '(res, s') := demo_cycle [demo_file "/v/z" 1 9; demo_file "/v/b" 2 9] demo_store in
  upserts_staged res = 0%Z ∧ s_path <$> entries s' = ["/v/a"; "/v/b"].
Proof. split; [by_compute|]. vm_compute. split; reflexivity. Qed.

(** A file reported as removed is reported again by the next cycle; when it is back unchanged, nothing is
    staged for it. *)
Lemma removed_file_stays_in_baseline :
  let '(r1, s1) := demo_cycle [demo_file "/v/a" 1 9] demo_store in
  let s1 := mark_removals_pushed (removal_key <$> removals s1) s1 in
  let '(r2, s2) := demo_cycle [demo_file "/v/a" 1 9] s1 in
  let '(r3, s3) := demo_cycle [demo_file "/v/a" 1 9; demo_file "/v/b" 2 9] s1 in
  removals_staged r1 = 1%Z ∧ removals_staged r2 = 1%Z ∧ upserts_staged r3 = 0%Z ∧ pending_runs s3 = [].
Proof. vm_compute. split_and!; reflexivity. Qed.
