(* ===== verification/Fullbit.v ===== *)
(** The content-hashing pass of the agent ([src/fathom/agent/reader/fullbit.py]).

    The hasher is a parameter over a world [W]; a file that cannot be read is [None].  The calls of one
    batch run concurrently in the code and in order here: their results come back in order either way. *)

From S2P Require Import Prelude PyStr PyDict Sql Staging Dedup Supervisor Scan.

Definition FULLBIT_MODE : string := "fullbit".
Definition DEFAULT_HASH_BATCH : nat := 64.

Record FullBitResult := mk_fb_result {
  fb_run_id : Z; fb_scope_root : string; fb_candidates : Z; fb_partial_hashed : Z; fb_full_hashed : Z; fb_staged : Z;
  hashed_keys : list (string * string * Z);
}.

Fixpoint chunked_loop {A} (fuel size : nat) (seq : list A) : list (list A) :=
  match fuel, seq with
  | S fuel, _ :: _ => take size seq :: chunked_loop fuel size (drop size seq)
  | _, _ => []
  end.
Definition _chunked {A} (seq : list A) (size : nat) : list (list A) := chunked_loop (length seq) size seq.

Section Fullbit.
Context {W : Type} (partial : string → Z → W → option string * W) (full : string → W → option string * W).
Context (dump : WarningAck → string) (host : string).

Fixpoint _hash_batch (hash : Candidate Z → W → option string * W) (items : list (Candidate Z)) (w : W)
    : list (option string) * W :=
  match items with
  | [] => ([], w)
  | c :: items =>
      let '(d, w) := hash c w in
      let '(ds, w) := _hash_batch hash items w in (d :: ds, w)
  end.

(** ** One size group *)

Definition by_partial : Type := list (string * list (Candidate Z)).

Definition add_partial (acc : by_partial * Z) (x : Candidate Z * option string) : by_partial * Z :=
  match x.2 with
  | None => acc
  | Some digest => (dict_append digest x.1 acc.1, (acc.2 + 1)%Z)
  end.

Definition partial_batch (size : Z) (acc : by_partial * Z * W) (batch : list (Candidate Z)) : by_partial * Z * W :=
  let '(d, w) := acc in
  let '(digests, w) := _hash_batch (λ c, partial (c_path c) size) batch w in
  (foldl add_partial d (zip batch digests), w).

Definition _stage (vol : string) (run : Z) (c : Candidate Z) (partial_hash full_hash : string)
    (acc : FullBitResult * StagingStore) : FullBitResult * StagingStore :=
  let '(r, s) := acc in
  (mk_fb_result (fb_run_id r) (fb_scope_root r) (fb_candidates r) (fb_partial_hashed r) (fb_full_hashed r)
     (fb_staged r + 1) (hashed_keys r ++ [(host, vol, c_id c)]),
   stage_hash host vol (c_id c) partial_hash full_hash run (c_dev c) s).

Definition count_full (r : FullBitResult) : FullBitResult :=
  mk_fb_result (fb_run_id r) (fb_scope_root r) (fb_candidates r) (fb_partial_hashed r) (fb_full_hashed r + 1)
    (fb_staged r) (hashed_keys r).

Definition add_full (vol : string) (run : Z) (partial_digest : string) (acc : FullBitResult * StagingStore)
    (x : Candidate Z * option string) : FullBitResult * StagingStore :=
  match x.2 with
  | None => acc
  | Some digest => _stage vol run x.1 partial_digest digest (count_full acc.1, acc.2)
  end.

Definition full_batch (vol : string) (run : Z) (partial_digest : string) (acc : FullBitResult * StagingStore * W)
    (batch : list (Candidate Z)) : FullBitResult * StagingStore * W :=
  let '(rs, w) := acc in
  let '(digests, w) := _hash_batch (λ c, full (c_path c)) batch w in
  (foldl (add_full vol run partial_digest) rs (zip batch digests), w).

Definition full_members (vol : string) (run : Z) (acc : FullBitResult * StagingStore * W)
    (x : string * list (Candidate Z)) : FullBitResult * StagingStore * W :=
  if length x.2 <? 2 then acc
  else foldl (full_batch vol run x.1) acc (_chunked x.2 DEFAULT_HASH_BATCH).

Definition count_partial (n : Z) (r : FullBitResult) : FullBitResult :=
  mk_fb_result (fb_run_id r) (fb_scope_root r) (fb_candidates r) (fb_partial_hashed r + n) (fb_full_hashed r)
    (fb_staged r) (hashed_keys r).

Definition _funnel_group (vol : string) (run : Z) (acc : FullBitResult * StagingStore * W) (sized : list (Candidate Z))
    : FullBitResult * StagingStore * W :=
  match sized with
  | [] | [_] => acc
  | c :: _ =>
      let '(r, s, w) := acc in
      let '(d, n, w) := foldl (partial_batch (c_size c)) ([], 0%Z, w) (_chunked sized DEFAULT_HASH_BATCH) in
      foldl (full_members vol run) (count_partial n r, s, w) d
  end.

(** ** The scan *)

Definition count_candidates (n : nat) (r : FullBitResult) : FullBitResult :=
  mk_fb_result (fb_run_id r) (fb_scope_root r) (fb_candidates r + Z.of_nat n) (fb_partial_hashed r) (fb_full_hashed r)
    (fb_staged r) (hashed_keys r).

Definition scan_group (vol : string) (run : Z) (acc : FullBitResult * StagingStore * W) (group : list (Candidate Z))
    : FullBitResult * StagingStore * W :=
  let '(r, s, w) := acc in _funnel_group vol run (count_candidates (length group) r, s, w) group.

Definition scan_grouped (blocked : bool) (scope_root : string) (groups : list (list (Candidate Z))) (vol : string)
    (ack : option WarningAck) (volume : option VolumeInfo) (clock : W → Z * W) (s : StagingStore) (w : W)
    : result ScanError FullBitResult * StagingStore * W :=
  match ack with
  | None => (Err AcknowledgementRequired, s, w)
  | Some a =>
      if negb (bool_decide (ack_mode a = FULLBIT_MODE)) then (Err AcknowledgementRequired, s, w) else
      if blocked then (Err FullBitBlocked, s, w) else
      let '(started, w) := clock w in
      let '(run, s) := start_run host vol FULLBIT scope_root started (Some (dump a)) volume s in
      let '(r, s, w) := foldl (scan_group vol run) (mk_fb_result run scope_root 0 0 0 0 [], s, w) groups in
      let '(finished, w) := clock w in
      (Ok r, finish_run run finished (fb_staged r) s, w)
  end.

(** [scan]: the candidates that are not empty, by size. *)
Definition scan (blocked : bool) (scope_root : string) (candidates : list (Candidate Z)) (vol : string)
    (ack : option WarningAck) (volume : option VolumeInfo) (clock : W → Z * W) (s : StagingStore) (w : W)
    : result ScanError FullBitResult * StagingStore * W :=
  let by_size := group_by ((λ c, (c_size c, c)) <$> filter (λ c, (0 <? c_size c)%Z) candidates) in
  scan_grouped blocked scope_root by_size.*2 vol ack volume clock s w.
End Fullbit.

(** ** What a pass reads and stages

    Over files that do not change during the pass: the digest of a path is a function, and the world is
    the list of the reads. *)

Inductive file_read := RPartial (path : string) (size : Z) | RFull (path : string).

Lemma chunked_concat {A} size (seq : list A) : 0 < size → concat (_chunked seq size) = seq.
Proof.
  intros Hs. unfold _chunked. assert (∀ fuel (l : list A), length l ≤ fuel → concat (chunked_loop fuel size l) = l) as H; [|by apply H].
  induction fuel as [|fuel IH]; intros [|x l] Hl; cbn in *; try done; [lia|].
  destruct size as [|size]; [lia|]. cbn. f_equal. rewrite IH; [apply take_drop|]. rewrite length_drop. lia.
Qed.

Section Reads.
Context (P : string → Z → option string) (F : string → option string) (host vol : string).

Definition read_partial (path : string) (size : Z) (log : list file_read) : option string * list file_read :=
  (P path size, log ++ [RPartial path size]).
Definition read_full (path : string) (log : list file_read) : option string * list file_read := (F path, log ++ [RFull path]).

(** The candidates of a group whose partial digest another of the group shares, each with the digest, in
    the order of the digests. *)
Definition partials (size : Z) (g : list (Candidate Z)) : list (string * Candidate Z) :=
  omap (λ c, d ← P (c_path c) size; Some (d, c)) g.
Definition group_size (g : list (Candidate Z)) : Z := match g with c :: _ => c_size c | [] => 0 end.
Definition colliders (g : list (Candidate Z)) : list (string * Candidate Z) :=
  if length g <? 2 then [] else
  group_by (partials (group_size g) g) ≫= λ x, if length x.2 <? 2 then [] else (λ c, (x.1, c)) <$> x.2.

Definition group_reads (g : list (Candidate Z)) : list file_read :=
  if length g <? 2 then [] else
  ((λ c, RPartial (c_path c) (group_size g)) <$> g) ++ ((λ x, RFull (c_path x.2)) <$> colliders g).

(** What is staged: the candidate with both digests. *)
Definition group_staged (g : list (Candidate Z)) : list (Candidate Z * string * string) :=
  omap (λ x, f ← F (c_path x.2); Some (x.2, x.1, f)) (colliders g).

Lemma hash_batch_log (f : Candidate Z → option string) (g : Candidate Z → file_read) items (log : list file_read) :
  _hash_batch (λ c w, (f c, w ++ [g c])) items log = (f <$> items, log ++ (g <$> items)).
Proof.
  revert log. induction items as [|c items IH]; intros log; cbn; [by rewrite app_nil_r|].
  rewrite IH. by rewrite <- app_assoc.
Qed.

Lemma zip_fmap {A B} (f : A → B) (l : list A) : zip l (f <$> l) = (λ x, (x, f x)) <$> l.
Proof. induction l as [|x l IH]; [done|]. cbn. by rewrite IH. Qed.

Lemma partial_batches size batches d log :
  foldl (partial_batch read_partial size) (d, log) batches =
  (foldl add_partial d ((λ c, (c, P (c_path c) size)) <$> concat batches),
   log ++ ((λ c, RPartial (c_path c) size) <$> concat batches)).
Proof.
  revert d log. induction batches as [|b batches IH]; intros d log; cbn [foldl concat]; [by rewrite app_nil_r|].
  unfold partial_batch at 2, read_partial. rewrite hash_batch_log, zip_fmap.
  fold read_partial. rewrite IH, !fmap_app, foldl_app. by rewrite <- app_assoc.
Qed.

Lemma add_partials size g d n :
  foldl add_partial (d, n) ((λ c, (c, P (c_path c) size)) <$> g) =
  (foldl (λ d x, dict_append x.1 x.2 d) d (partials size g), (n + Z.of_nat (length (partials size g)))%Z).
Proof.
  revert d n. unfold partials. induction g as [|c g IH]; intros d n; cbn; [by rewrite Z.add_0_r|].
  unfold add_partial at 2. cbn. destruct (P (c_path c) size) as [h|]; cbn; [|apply IH]. rewrite IH. f_equal. lia.
Qed.

Definition add_one (run : Z) (rs : FullBitResult * StagingStore) (x : string * Candidate Z) : FullBitResult * StagingStore :=
  add_full host vol run x.1 rs (x.2, F (c_path x.2)).

Lemma full_batches run pd batches rs log :
  foldl (full_batch read_full host vol run pd) (rs, log) batches =
  (foldl (add_one run) rs ((λ c, (pd, c)) <$> concat batches), log ++ ((λ c, RFull (c_path c)) <$> concat batches)).
Proof.
  revert rs log. induction batches as [|b batches IH]; intros rs log; cbn [foldl concat]; [by rewrite app_nil_r|].
  unfold full_batch at 2, read_full. rewrite hash_batch_log, zip_fmap.
  fold read_full. rewrite IH, !fmap_app, foldl_app, <- app_assoc. f_equal. f_equal.
  revert rs. clear. induction b as [|c b IH]; intros rs; [done|]. cbn. by rewrite IH.
Qed.

Lemma full_all run (d : list (string * list (Candidate Z))) rs log :
  let plan := d ≫= λ x, if length x.2 <? 2 then [] else (λ c, (x.1, c)) <$> x.2 in
  foldl (full_members read_full host vol run) (rs, log) d =
  (foldl (add_one run) rs plan, log ++ ((λ x, RFull (c_path x.2)) <$> plan)).
Proof.
  cbn zeta. revert rs log. induction d as [|[pd ms] d IH]; intros rs log; [by cbn; rewrite app_nil_r|].
  cbn [foldl]. rewrite bind_cons. unfold full_members at 2. cbn [fst snd].
  destruct (length ms <? 2) eqn:E; [by rewrite IH|].
  rewrite full_batches, chunked_concat by (unfold DEFAULT_HASH_BATCH; lia).
  rewrite IH, !fmap_app, foldl_app, <- app_assoc. f_equal. f_equal. f_equal. by rewrite <- list_fmap_compose.
Qed.

Lemma funnel_group_log run r s log g :
  ∃ n, _funnel_group read_partial read_full host vol run (r, s, log) g =
       (foldl (add_one run) (count_partial n r, s) (colliders g), log ++ group_reads g).
Proof.
  assert (length g < 2 → ∃ n, (r, s, log) = (foldl (add_one run) (count_partial n r, s) (colliders g), log ++ group_reads g)) as Hs.
  { intros Hl%Nat.ltb_lt. exists 0%Z. unfold colliders, group_reads. rewrite Hl. cbn. rewrite app_nil_r.
    unfold count_partial. rewrite Z.add_0_r. by destruct r. }
  destruct g as [|c [|c' g]]; [apply Hs; cbn; lia|apply Hs; cbn; lia|]. clear Hs.
  cbn [_funnel_group]. rewrite partial_batches, chunked_concat by (unfold DEFAULT_HASH_BATCH; lia).
  rewrite add_partials. eexists. rewrite full_all. unfold group_reads, colliders. cbn [length Nat.ltb Nat.leb].
  by rewrite app_assoc.
Qed.

(** A candidate is hashed in full exactly if another of its group has the same partial digest. *)
Lemma elem_of_colliders g d c :
  (d, c) ∈ colliders g ↔
  c ∈ g ∧ P (c_path c) (group_size g) = Some d ∧
  2 ≤ length (filter (λ c', P (c_path c') (group_size g) = Some d) g).
Proof.
  assert (∀ l, class d (partials (group_size g) l) = filter (λ c', P (c_path c') (group_size g) = Some d) l) as Hc.
  { unfold class, partials. induction l as [|x l IH]; [done|]. cbn [omap list_omap]. rewrite (filter_cons _ x).
    destruct (P (c_path x) (group_size g)) as [h|]; cbn [mbind option_bind]; [|by rewrite decide_False].
    rewrite filter_cons. cbn [fst]. destruct (decide (h = d)) as [->|Hne].
    - rewrite fmap_cons, IH, decide_True by done. done.
    - rewrite IH, decide_False by congruence. done. }
  unfold colliders. destruct (Nat.ltb_spec (length g) 2) as [Hl|Hl].
  - split; [by intros ?%elem_of_nil|]. intros (_ & _ & H). pose proof (length_filter (λ c', P (c_path c') (group_size g) = Some d) g). lia.
  - rewrite list_elem_of_bind. split.
    + intros ([d' ms] & Hin & Hg). apply elem_of_group_by in Hg as [-> Hne]. cbn [fst snd] in Hin.
      destruct (Nat.ltb_spec (length (class d' (partials (group_size g) g))) 2); [by apply elem_of_nil in Hin|].
      apply list_elem_of_fmap in Hin as (c' & [= -> ->] & Hin). rewrite Hc in *.
      apply list_elem_of_filter in Hin as [? ?]. done.
    + intros (Hin & Hp & Hlen). exists (d, filter (λ c', P (c_path c') (group_size g) = Some d) g). split.
      * cbn [fst snd]. destruct (Nat.ltb_spec (length (filter (λ c', P (c_path c') (group_size g) = Some d) g)) 2); [lia|].
        apply list_elem_of_fmap_2. by apply list_elem_of_filter.
      * apply elem_of_group_by. rewrite Hc. split; [done|]. intros E. rewrite E in Hlen. cbn in Hlen. lia.
Qed.

(** The hashes staged, one statement each. *)
Definition stage_one (run : Z) (s : StagingStore) (x : Candidate Z * string * string) : StagingStore :=
  stage_hash host vol (c_id x.1.1) x.1.2 x.2 run (c_dev x.1.1) s.
Definition hashed_key (x : Candidate Z * string * string) : string * string * Z := (host, vol, c_id x.1.1).

Lemma add_plan run plan r s :
  let staged := omap (λ x, f ← F (c_path x.2); Some (x.2, x.1, f)) plan in
  ∃ r', foldl (add_one run) (r, s) plan = (r', foldl (stage_one run) s staged) ∧
    hashed_keys r' = hashed_keys r ++ (hashed_key <$> staged) ∧ fb_staged r' = (fb_staged r + Z.of_nat (length staged))%Z ∧
    fb_candidates r' = fb_candidates r ∧ fb_run_id r' = fb_run_id r.
Proof.
  cbn zeta. revert r s. induction plan as [|[d c] plan IH]; intros r s.
  - exists r. cbn. by rewrite app_nil_r, Z.add_0_r.
  - cbn [foldl omap list_omap]. unfold add_one at 2, add_full. cbn [fst snd].
    destruct (F (c_path c)) as [f|]; cbn [mbind option_bind]; [|apply IH].
    edestruct (IH (mk_fb_result (fb_run_id r) (fb_scope_root r) (fb_candidates r) (fb_partial_hashed r) (fb_full_hashed r + 1)
      (fb_staged r + 1) (hashed_keys r ++ [(host, vol, c_id c)]))) as (r' & Hr & Hk & Hn & Hc & Hi).
    exists r'. split; [exact Hr|]. rewrite Hk, Hn, Hc, Hi. cbn. rewrite <- app_assoc. split_and!; try done. lia.
Qed.

Lemma scan_groups_log run groups r s log :
  let staged := groups ≫= group_staged in
  ∃ r', foldl (scan_group read_partial read_full host vol run) (r, s, log) groups =
    (r', foldl (stage_one run) s staged, log ++ (groups ≫= group_reads)) ∧
    hashed_keys r' = hashed_keys r ++ (hashed_key <$> staged) ∧ fb_staged r' = (fb_staged r + Z.of_nat (length staged))%Z ∧
    fb_candidates r' = (fb_candidates r + Z.of_nat (length (concat groups)))%Z ∧ fb_run_id r' = fb_run_id r.
Proof.
  cbn zeta. revert r s log. induction groups as [|g groups IH]; intros r s log.
  - exists r. cbn. by rewrite !app_nil_r, !Z.add_0_r.
  - cbn [foldl]. rewrite !bind_cons. unfold scan_group at 2.
    destruct (funnel_group_log run (count_candidates (length g) r) s log g) as (n & ->).
    destruct (add_plan run (colliders g) (count_partial n (count_candidates (length g) r)) s) as (r1 & Hr1 & Hk1 & Hn1 & Hc1 & Hi1).
    rewrite Hr1. edestruct IH as (r' & Hr & Hk & Hn & Hc & Hi). exists r'. split; [rewrite Hr; f_equal; [f_equal|]|].
    + by rewrite foldl_app.
    + by rewrite <- app_assoc.
    + rewrite Hk, Hk1, Hn, Hn1, Hc, Hc1, Hi, Hi1. cbn. rewrite fmap_app, <- app_assoc, !length_app.
      split_and!; try done; unfold group_staged; lia.
Qed.
End Reads.

(** The hashes touch the entries only. *)
Lemma stage_all_entries host vol run l t t' :
  entries t = entries t' → entries (foldl (stage_one host vol run) t l) = entries (foldl (stage_one host vol run) t' l).
Proof.
  revert t t'. induction l as [|x l IH]; intros t t' E; [done|]. cbn [foldl]. apply IH.
  unfold stage_one, stage_hash, set_entries. cbn. by rewrite E.
Qed.

(** A pass that is let through. *)
Lemma scan_grouped_runs P F dump host scope_root groups vol a volume now s :
  ack_mode a = FULLBIT_MODE →
  let staged := groups ≫= group_staged P F in
  ∃ r s', scan_grouped (read_partial P) (read_full F) dump host false scope_root groups vol (Some a) volume
            (λ log, (now log, log)) s [] = (Ok r, s', groups ≫= group_reads P) ∧
    fb_candidates r = Z.of_nat (length (concat groups)) ∧ fb_staged r = Z.of_nat (length staged) ∧
    hashed_keys r = hashed_key host vol <$> staged ∧
    entries s' = entries (foldl (stage_one host vol (next_run s)) s staged).
Proof.
  intros Ha staged. unfold scan_grouped. rewrite bool_decide_true by done. cbn [negb]. unfold start_run.
  set (s1 := mk_store _ (entries s) _ _). set (r0 := mk_fb_result _ _ _ _ _ _ _).
  destruct (scan_groups_log P F host vol (next_run s) groups r0 s1 []) as (r' & -> & Hk & Hn & Hc & _).
  eexists r', _. split; [done|]. split_and!; [exact Hc|exact Hn|exact Hk|]. by apply stage_all_entries.
Qed.

(** The pass runs only with an acknowledgement of the full-bit mode and while no array resyncs; otherwise
    it reads and stages nothing.  Then, over files that keep their content, it reads every candidate of a
    group of two or more partially and exactly the candidates whose partial digest is shared in full; it
    stages both digests of each that could be read, in that order, and reports them. *)
Theorem fullbit_hashes_colliders P F dump host blocked scope_root groups vol ack volume now s :
  let '(out, s', log) := scan_grouped (read_partial P) (read_full F) dump host blocked scope_root groups vol ack volume
                           (λ log, (now log, log)) s [] in
  let allowed := match ack with Some a => bool_decide (ack_mode a = FULLBIT_MODE) | None => false end && negb blocked in
  (allowed = false → (out = Err AcknowledgementRequired ∨ out = Err FullBitBlocked) ∧ s' = s ∧ log = []) ∧
  (allowed = true →
    let staged := groups ≫= group_staged P F in
    (∃ r, out = Ok r ∧ fb_candidates r = Z.of_nat (length (concat groups)) ∧ fb_staged r = Z.of_nat (length staged) ∧
          hashed_keys r = hashed_key host vol <$> staged) ∧
    entries s' = entries (foldl (stage_one host vol (next_run s)) s staged) ∧
    (∀ p z, RPartial p z ∈ log ↔ ∃ g c, g ∈ groups ∧ c ∈ g ∧ 2 ≤ length g ∧ p = c_path c ∧ z = group_size g) ∧
    (∀ p, RFull p ∈ log ↔ ∃ g c d, g ∈ groups ∧ c ∈ g ∧ p = c_path c ∧ P p (group_size g) = Some d ∧
                            2 ≤ length (filter (λ c', P (c_path c') (group_size g) = Some d) g))).
Proof.
  destruct ack as [a|]; [|by split; [auto|done]].
  destruct (decide (ack_mode a = FULLBIT_MODE)) as [Ha|Ha];
    [|unfold scan_grouped; rewrite bool_decide_false by done; by split; [auto|done]].
  destruct blocked; [unfold scan_grouped; rewrite bool_decide_true by done; by split; [auto|done]|].
  destruct (scan_grouped_runs P F dump host scope_root groups vol a volume now s Ha) as (r & s' & -> & Hc & Hn & Hk & He).
  rewrite bool_decide_true by done. split; [done|]. intros _. split_and!.
  - by exists r.
  - exact He.
  - intros p z. cbn [app]. rewrite list_elem_of_bind. unfold group_reads. split.
    + intros (g & Hin & Hg). destruct (Nat.ltb_spec (length g) 2); [by apply elem_of_nil in Hin|].
      apply elem_of_app in Hin as [(c & [= -> ->] & Hc')%list_elem_of_fmap|(x & [=] & _)%list_elem_of_fmap].
      by exists g, c.
    + intros (g & c & Hg & Hin & Hl & -> & ->). exists g. split; [|done].
      destruct (Nat.ltb_spec (length g) 2); [lia|]. apply elem_of_app. left. apply list_elem_of_fmap. by exists c.
  - intros p. cbn [app]. rewrite list_elem_of_bind. unfold group_reads. split.
    + intros (g & Hin & Hg). destruct (Nat.ltb_spec (length g) 2); [by apply elem_of_nil in Hin|].
      apply elem_of_app in Hin as [(c & [=] & _)%list_elem_of_fmap|([d c] & [= ->] & Hx)%list_elem_of_fmap].
      apply elem_of_colliders in Hx as (Hin & Hp & Hlen). by exists g, c, d.
    + intros (g & c & d & Hg & Hin & -> & Hp & Hlen). exists g. split; [|done].
      pose proof (length_filter (λ c', P (c_path c') (group_size g) = Some d) g).
      destruct (Nat.ltb_spec (length g) 2); [lia|]. apply elem_of_app. right. apply list_elem_of_fmap.
      exists (d, c). split; [done|]. by apply elem_of_colliders.
Qed.
