(* ===== verification/Scanners.v ===== *)
(** The scanners over a store that may fail ([src/fathom/agent/reader/walker.py], [incremental.py], [fullbit.py]).

    [Scan] and [Fullbit] say what a scan stages; here the same scans are the calls they make: each call of the staging store is one
    SQLite transaction, which raises or takes effect, the backend may raise at each of its own calls, and an exception ends the scan
    where it is.  Where nothing fails they are the scans of [Scan] and [Fullbit].  A walk is read before its batches are staged. *)

From S2P Require Import Prelude PyStr PyDict Sql Staging Feed Dedup Supervisor Scan Fullbit.

Section Scanners.
Context {W : Type} (sqlite : W → option string * W).

(** ** Computations over the store and the world *)

Definition M (A : Type) : Type := StagingStore → W → result ScanError A * StagingStore * W.

#[export] Instance M_ret : MRet M := λ A a s w, (Ok a, s, w).
#[export] Instance M_bind : MBind M := λ A B f m s w,
  let '(r, s, w) := m s w in match r with Ok a => f a s w | Err e => (Err e, s, w) end.

Definition raise {A} (e : ScanError) : M A := λ s w, (Err e, s, w).
Definition look {A} (f : W → A * W) : M A := λ s w, let '(a, w) := f w in (Ok a, s, w).
Definition ask {A} (f : W → result exn A * W) : M A := λ s w,
  let '(r, w) := f w in (match r with Ok a => Ok a | Err e => Err (Raised e) end, s, w).

(** A call of the store. *)
Definition call {A} (f : StagingStore → A * StagingStore) : M A := λ s w,
  let '(e, w) := sqlite w in
  match e with
  | Some m => (Err (Raised (SqliteError m)), s, w)
  | None => let '(a, s) := f s in (Ok a, s, w)
  end.
Definition query {A} (f : StagingStore → A) : M A := call (λ s, (f s, s)).
Definition exec (f : StagingStore → StagingStore) : M unit := call (λ s, (tt, f s)).

Fixpoint foldM {A X} (f : A → X → M A) (a : A) (l : list X) : M A :=
  match l with [] => mret a | x :: l => a ← f a x; foldM f a l end.

(** ** [MetadataScanner.scan] *)

Context (clock : W → Z * W) (dump : WarningAck → string) (host : string).

Fixpoint flushes (batch_size run : Z) (vol : string) (walk batch : list FsEntry) (seen changed : Z) : M (Z * Z * list FsEntry) :=
  match walk with
  | [] => mret (seen, changed, batch)
  | entry :: walk =>
      let batch := batch ++ [entry] in
      let seen := (seen + 1)%Z in
      if (batch_size <=? Z.of_nat (length batch))%Z then
        n ← call (stage_batch run host vol batch);
        flushes batch_size run vol walk [] seen (changed + n)
      else flushes batch_size run vol walk batch seen changed
  end.

Definition metadata_scan (batch_size : Z) (root : string) (ack : option WarningAck) (volume_info : W → result exn VolumeInfo * W)
    (walk : W → list FsEntry * option exn * W) : M (ScanResult * VolumeInfo) :=
  if (batch_size <? 1)%Z then raise ValueError else
  match ack with
  | None => raise AcknowledgementRequired
  | Some a =>
      volume ← ask volume_info;
      let vol := vi_mountpoint volume in
      t ← look clock;
      run ← call (start_run host vol METADATA root t (Some (dump a)) (Some volume));
      walked ← look walk;
      st ← flushes batch_size run vol walked.1 [] 0 0;
      let '(seen, changed, batch) := st in
      match walked.2 with
      | Some e => raise (Raised e)
      | None =>
          n ← match batch with [] => mret 0%Z | _ => call (stage_batch run host vol batch) end;
          t' ← look clock;
          _ ← exec (finish_run run t' seen);
          mret (mk_scan_result run seen (changed + n), volume)
      end
  end.

(** ** [IncrementalScanner.scan] *)

Definition incremental (root : string) (feed : W → result exn (list ChangeEvent) * W) (ack : WarningAck)
    (volume_info : W → result exn VolumeInfo * W) : M IncrementalResult :=
  volume ← ask volume_info;
  let vol := vi_mountpoint volume in
  t ← look clock;
  run ← call (start_run host vol METADATA root t (Some (dump ack)) (Some volume));
  events ← ask feed;
  let delta := collect_delta events in
  ups ← match upserts delta with [] => mret 0%Z | l => call (stage_batch run host vol l) end;
  rms ← match delta_removals delta with [] => mret 0%Z | l => call (stage_removals run host vol l) end;
  t' ← look clock;
  _ ← exec (finish_run run t' (Z.of_nat (length (upserts delta))));
  mret (mk_inc_result run ups rms).

(** ** [FullBitScanner.scan_grouped] *)

Context (partial : string → Z → W → result exn string * W) (full : string → W → result exn string * W).

(** [_one]: an OSError means that the file is skipped. *)
Definition hash_one (hash : W → result exn string * W) : M (option string) := λ s w,
  let '(r, w) := hash w in
  (match r with Ok d => Ok (Some d) | Err (OSError _) => Ok None | Err e => Err (Raised e) end, s, w).

Fixpoint hash_batch (hash : Candidate Z → W → result exn string * W) (items : list (Candidate Z)) : M (list (option string)) :=
  match items with
  | [] => mret []
  | c :: items => d ← hash_one (hash c); ds ← hash_batch hash items; mret (d :: ds)
  end.

Definition partial_digests (size : Z) (acc : by_partial * Z) (batch : list (Candidate Z)) : M (by_partial * Z) :=
  digests ← hash_batch (λ c, partial (c_path c) size) batch;
  mret (foldl add_partial acc (zip batch digests)).

(** The result of [_stage], whose store call comes first. *)
Definition staged (vol : string) (c : Candidate Z) (r : FullBitResult) : FullBitResult :=
  mk_fb_result (fb_run_id r) (fb_scope_root r) (fb_candidates r) (fb_partial_hashed r) (fb_full_hashed r)
    (fb_staged r + 1) (hashed_keys r ++ [(host, vol, c_id c)]).

Definition stage_full (vol : string) (run : Z) (partial_digest : string) (r : FullBitResult) (x : Candidate Z * option string)
    : M FullBitResult :=
  match x.2 with
  | None => mret r
  | Some digest =>
      _ ← exec (stage_hash host vol (c_id x.1) partial_digest digest run (c_dev x.1));
      mret (staged vol x.1 (count_full r))
  end.

Definition full_digests (vol : string) (run : Z) (partial_digest : string) (r : FullBitResult) (batch : list (Candidate Z))
    : M FullBitResult :=
  digests ← hash_batch (λ c, full (c_path c)) batch;
  foldM (stage_full vol run partial_digest) r (zip batch digests).

Definition members (vol : string) (run : Z) (r : FullBitResult) (x : string * list (Candidate Z)) : M FullBitResult :=
  if length x.2 <? 2 then mret r else foldM (full_digests vol run x.1) r (_chunked x.2 DEFAULT_HASH_BATCH).

Definition funnel_group (vol : string) (run : Z) (r : FullBitResult) (sized : list (Candidate Z)) : M FullBitResult :=
  match sized with
  | [] | [_] => mret r
  | c :: _ =>
      d ← foldM (partial_digests (c_size c)) ([], 0%Z) (_chunked sized DEFAULT_HASH_BATCH);
      foldM (members vol run) (count_partial d.2 r) d.1
  end.

Definition one_group (vol : string) (run : Z) (r : FullBitResult) (group : M (list (Candidate Z))) : M FullBitResult :=
  g ← group; funnel_group vol run (count_candidates (length g) r) g.

(** [groups]: the stream of the groups. *)
Definition fullbit_scan (blocks : W → bool * W) (scope_root : string) (groups : list (M (list (Candidate Z)))) (vol : string)
    (ack : option WarningAck) (volume : option VolumeInfo) : M FullBitResult :=
  match ack with
  | None => raise AcknowledgementRequired
  | Some a =>
      if negb (bool_decide (ack_mode a = FULLBIT_MODE)) then raise AcknowledgementRequired else
      blocked ← look blocks;
      if blocked : bool then raise FullBitBlocked else
      t ← look clock;
      run ← call (start_run host vol FULLBIT scope_root t (Some (dump a)) volume);
      r ← foldM (one_group vol run) (mk_fb_result run scope_root 0 0 0 0 []) groups;
      t' ← look clock;
      _ ← exec (finish_run run t' (fb_staged r));
      mret r
  end.
End Scanners.
Arguments M : clear implicits.

(** ** What a computation leaves in the store *)

Section Triples.
Context {W : Type} (sqlite : W → option string * W) (E : StagingStore → Prop).

(** From [P] a return leaves [Q] and an exception [E]. *)
Definition holds {A} (P : StagingStore → Prop) (m : M W A) (Q : A → StagingStore → Prop) : Prop :=
  ∀ s w, P s → let '(r, s', _) := m s w in match r with Ok a => Q a s' | Err _ => E s' end.

Lemma holds_ret {A} (P : StagingStore → Prop) (a : A) Q : (∀ s, P s → Q a s) → holds P (mret a) Q.
Proof. intros H s w Hs. by apply H. Qed.

Lemma holds_raise {A} (P : StagingStore → Prop) e (Q : A → StagingStore → Prop) : (∀ s, P s → E s) → holds P (raise e) Q.
Proof. intros H s w Hs. by apply H. Qed.

Lemma holds_bind {A B} P (m : M W A) (f : A → M W B) R Q : holds P m R → (∀ a, holds (R a) (f a) Q) → holds P (m ≫= f) Q.
Proof.
  intros Hm Hf s w Hs. unfold mbind, M_bind. specialize (Hm s w Hs). destruct (m s w) as [[[a|e] s'] w']; [|done]. by apply Hf.
Qed.

Lemma holds_look {A} P (f : W → A * W) : holds P (look f) (λ _, P).
Proof. intros s w Hs. unfold look. by destruct (f w). Qed.

Lemma holds_ask {A} (P : StagingStore → Prop) (f : W → result exn A * W) : (∀ s, P s → E s) → holds P (ask f) (λ _, P).
Proof. intros H s w Hs. unfold ask. destruct (f w) as [[a|e] w']; [done|by apply H]. Qed.

Lemma holds_ask_val {A} (V : A → Prop) (P : StagingStore → Prop) (f : W → result exn A * W) :
  (∀ s, P s → E s) → (∀ w a, (f w).1 = Ok a → V a) → holds P (ask f) (λ a s, P s ∧ V a).
Proof.
  intros H HV s w Hs. unfold ask. pose proof (HV w) as Hw. destruct (f w) as [[a|e] w']; [|by apply H]. split; [done|by apply Hw].
Qed.

Lemma holds_and {A} (P : StagingStore → Prop) (V : Prop) (m : M W A) Q : (V → holds P m Q) → holds (λ s, P s ∧ V) m Q.
Proof. intros H s w [Hs HV]. by apply (H HV). Qed.

Lemma holds_call {A} (P : StagingStore → Prop) (f : StagingStore → A * StagingStore) (Q : A → StagingStore → Prop) :
  (∀ s, P s → E s) → (∀ s, P s → Q (f s).1 (f s).2) → holds P (call sqlite f) Q.
Proof. intros HE HQ s w Hs. unfold call. destruct (sqlite w) as [[m|] w']; [by apply HE|]. specialize (HQ s Hs). by destruct (f s). Qed.

Lemma holds_query {A} (P : StagingStore → Prop) (f : StagingStore → A) : (∀ s, P s → E s) → holds P (query sqlite f) (λ _, P).
Proof. intros HE. by apply holds_call. Qed.

Lemma holds_exec (P : StagingStore → Prop) f (Q : StagingStore → Prop) :
  (∀ s, P s → E s) → (∀ s, P s → Q (f s)) → holds P (exec sqlite f) (λ _, Q).
Proof. intros HE HQ. by apply holds_call. Qed.

Lemma holds_foldM {A X} P (f : A → X → M W A) a l : (∀ a x, holds P (f a x) (λ _, P)) → holds P (foldM f a l) (λ _, P).
Proof.
  intros Hf. revert a. induction l as [|x l IH]; intros a; [by apply holds_ret|]. cbn [foldM]. eapply holds_bind; [apply Hf|]. intros a'. apply IH.
Qed.

Lemma holds_post {A} P (m : M W A) (Q Q' : A → StagingStore → Prop) : holds P m Q → (∀ a s, Q a s → Q' a s) → holds P m Q'.
Proof. intros Hm H s w Hs. specialize (Hm s w Hs). destruct (m s w) as [[[a|e] s'] w']; [by apply H|done]. Qed.
End Triples.

(** What the scanners do to the store, from what its calls do: [I run vol] holds while the run [run] of the volume is open. *)
Section Keep.
Context {W : Type} (sqlite : W → option string * W) (clock : W → Z * W) (dump : WarningAck → string) (host : string).
Context (E : StagingStore → Prop) (I : Z → string → StagingStore → Prop).
Context (P : StagingStore → Prop) (HPE : ∀ s, P s → E s) (HIE : ∀ run vol s, I run vol s → E s).
Context (Hstage : ∀ run vol b s, I run vol s → I run vol (stage_batch run host vol b s).2).
Context (Hremove : ∀ run vol b s, I run vol s → I run vol (stage_removals run host vol b s).2).
Context (Hhash : ∀ run vol i p f dev s, I run vol s → I run vol (stage_hash host vol i p f run dev s)).

Lemma keep_flushes size run vol walk batch seen changed :
  holds E (I run vol) (flushes sqlite host size run vol walk batch seen changed) (λ _, I run vol).
Proof using HIE Hstage.
  revert batch seen changed. induction walk as [|e walk IH]; intros batch seen changed; cbn [flushes]; [by apply holds_ret|].
  destruct (_ <=? _)%Z; [|apply IH]. eapply (holds_bind _ _ _ _ (λ _, I run vol)); [apply holds_call; [apply HIE|intros s Hs; by apply Hstage]|].
  intros n. apply IH.
Qed.

Lemma keep_metadata size root a vi walk (V : VolumeInfo → Prop) (Q : VolumeInfo → StagingStore → Prop) :
  (∀ w v, (vi w).1 = Ok v → V v) →
  (∀ v s t, V v → P s → I (start_run host (vi_mountpoint v) METADATA root t (Some (dump a)) (Some v) s).1 (vi_mountpoint v)
                    (start_run host (vi_mountpoint v) METADATA root t (Some (dump a)) (Some v) s).2) →
  (∀ run v t n s, V v → I run (vi_mountpoint v) s → Q v (finish_run run t n s)) →
  holds E P (metadata_scan sqlite clock dump host size root (Some a) vi walk) (λ r, Q r.2).
Proof using HPE HIE Hstage.
  intros Hvi Hstart Hfin. unfold metadata_scan. destruct (size <? 1)%Z; [by apply holds_raise|].
  eapply holds_bind; [by apply (holds_ask_val _ V)|]. intros v. apply holds_and. intros Hv. eapply holds_bind; [apply holds_look|]. intros t.
  eapply (holds_bind _ _ _ _ (λ run, I run (vi_mountpoint v))); [apply holds_call; [done|intros s Hs; by apply Hstart]|]. intros run. cbv beta.
  eapply holds_bind; [apply holds_look|]. intros [es raised]. eapply holds_bind; [apply keep_flushes|]. intros [[seen changed] batch].
  cbn [snd]. destruct raised as [e|]; [apply holds_raise; apply HIE|].
  eapply (holds_bind _ _ _ _ (λ _, I run (vi_mountpoint v))).
  { destruct batch; [by apply holds_ret|]. apply holds_call; [apply HIE|]. intros s Hs. by apply Hstage. }
  intros n. eapply holds_bind; [apply holds_look|]. intros t'. eapply (holds_bind _ _ _ _ (λ _, Q v)); [|intros []; by apply holds_ret].
  apply holds_exec; [apply HIE|]. intros s Hs. by apply Hfin.
Qed.

Lemma keep_incremental root feed a vi (V : VolumeInfo → Prop) (Q : StagingStore → Prop) :
  (∀ w v, (vi w).1 = Ok v → V v) →
  (∀ v s t, V v → P s → I (start_run host (vi_mountpoint v) METADATA root t (Some (dump a)) (Some v) s).1 (vi_mountpoint v)
                    (start_run host (vi_mountpoint v) METADATA root t (Some (dump a)) (Some v) s).2) →
  (∀ run v t n s, V v → I run (vi_mountpoint v) s → Q (finish_run run t n s)) →
  holds E P (incremental sqlite clock dump host root feed a vi) (λ _, Q).
Proof using HPE HIE Hstage Hremove.
  intros Hvi Hstart Hfin. unfold incremental.
  eapply holds_bind; [by apply (holds_ask_val _ V)|]. intros v. apply holds_and. intros Hv. eapply holds_bind; [apply holds_look|]. intros t.
  eapply (holds_bind _ _ _ _ (λ run, I run (vi_mountpoint v))); [apply holds_call; [done|intros s Hs; by apply Hstart]|]. intros run. cbv beta.
  eapply holds_bind; [apply holds_ask, HIE|]. intros events.
  eapply (holds_bind _ _ _ _ (λ _, I run (vi_mountpoint v))).
  { destruct (upserts _); [by apply holds_ret|]. apply holds_call; [apply HIE|]. intros s Hs. by apply Hstage. }
  intros ups. eapply (holds_bind _ _ _ _ (λ _, I run (vi_mountpoint v))).
  { destruct (delta_removals _); [by apply holds_ret|]. apply holds_call; [apply HIE|]. intros s Hs. by apply Hremove. }
  intros rms. eapply holds_bind; [apply holds_look|]. intros t'. eapply (holds_bind _ _ _ _ (λ _, Q)); [|intros []; by apply holds_ret].
  apply holds_exec; [apply HIE|]. intros s Hs. by eapply Hfin.
Qed.

Section Pass.
Context (partial : string → Z → W → result exn string * W) (full : string → W → result exn string * W).

Lemma keep_hash_batch run vol (hash : Candidate Z → W → result exn string * W) items : holds E (I run vol) (hash_batch hash items) (λ _, I run vol).
Proof using HIE.
  induction items as [|c items IH]; cbn [hash_batch]; [by apply holds_ret|]. eapply (holds_bind _ _ _ _ (λ _, I run vol)).
  - intros s w Hs. unfold hash_one. destruct (hash c w) as [[d|[]] w']; try done; by eapply HIE.
  - intros d. eapply holds_bind; [apply IH|]. intros ds. by apply holds_ret.
Qed.

Lemma keep_group run vol r (g : M W (list (Candidate Z))) :
  holds E (I run vol) g (λ _, I run vol) → holds E (I run vol) (one_group sqlite host partial full vol run r g) (λ _, I run vol).
Proof using HIE Hhash.
  intros Hg. unfold one_group. eapply holds_bind; [exact Hg|]. intros sized. cbv beta. generalize (count_candidates (length sized) r). clear r. intros r.
  unfold funnel_group. destruct sized as [|c [|c' sized]]; [by apply holds_ret..|].
  eapply (holds_bind _ _ _ _ (λ _, I run vol)).
  { apply holds_foldM. intros d b. unfold partial_digests. eapply holds_bind; [apply keep_hash_batch|]. intros ds. by apply holds_ret. }
  intros d. apply holds_foldM. intros r' [pd ms]. unfold members. destruct (_ <? _); [by apply holds_ret|].
  apply holds_foldM. intros r'' b. unfold full_digests. eapply holds_bind; [apply keep_hash_batch|]. intros ds.
  apply holds_foldM. intros r3 [c3 [f|]]; unfold stage_full; cbn [fst snd]; [|by apply holds_ret].
  eapply (holds_bind _ _ _ _ (λ _, I run vol)); [apply holds_exec; [apply HIE|intros s Hs; by apply Hhash]|]. intros []. by apply holds_ret.
Qed.

Lemma keep_fullbit blocks root groups vol a volume (Q : StagingStore → Prop) :
  (∀ s t, P s → I (start_run host vol FULLBIT root t (Some (dump a)) volume s).1 vol (start_run host vol FULLBIT root t (Some (dump a)) volume s).2) →
  (∀ run t n s, I run vol s → Q (finish_run run t n s)) →
  (∀ run g, g ∈ groups → holds E (I run vol) g (λ _, I run vol)) →
  holds E P (fullbit_scan sqlite clock dump host partial full blocks root groups vol (Some a) volume) (λ _, Q).
Proof using HPE HIE Hhash.
  intros Hstart Hfin Hg. unfold fullbit_scan. destruct (negb _); [by apply holds_raise|].
  eapply holds_bind; [apply holds_look|]. intros []; [by apply holds_raise|]. eapply holds_bind; [apply holds_look|]. intros t.
  eapply (holds_bind _ _ _ _ (λ run, I run vol)); [apply holds_call; [done|intros s Hs; by apply Hstart]|]. intros run. cbv beta.
  eapply (holds_bind _ _ _ _ (λ _, I run vol)).
  - generalize (mk_fb_result run root 0 0 0 0 []). intros r0. revert r0. induction groups as [|g gs IH]; intros r0; cbn [foldM]; [by apply holds_ret|].
    eapply holds_bind; [apply keep_group, Hg; left|]. intros r. apply IH. intros run' g' Hg'. apply Hg. by right.
  - intros r. eapply holds_bind; [apply holds_look|]. intros t'. eapply (holds_bind _ _ _ _ (λ _, Q)); [|intros []; by apply holds_ret].
    apply holds_exec; [apply HIE|]. intros s Hs. by eapply Hfin.
Qed.
End Pass.
End Keep.

(** ** Where SQLite does not fail *)

Section Quiet.
Context {W : Type} (sqlite : W → option string * W) (Hq : ∀ w, sqlite w = (None, w)).
Context (clock : W → Z * W) (dump : WarningAck → string) (host : string).

Lemma sql_call_quiet {A} (f : StagingStore → A * StagingStore) s w : call sqlite f s w = let '(a, s) := f s in (Ok a, s, w).
Proof using Hq. unfold call. by rewrite Hq. Qed.

Lemma flushes_quiet size run vol es batch seen changed s w :
  flushes sqlite host size run vol es batch seen changed s w =
  let '(seen, changed, batch, s) := scan_loop host size run vol es batch seen changed s in (Ok (seen, changed, batch), s, w).
Proof using Hq.
  revert batch seen changed s. induction es as [|e es IH]; intros batch seen changed s; cbn [flushes scan_loop]; [done|].
  destruct (_ <=? _)%Z; [|apply IH]. unfold mbind, M_bind. rewrite sql_call_quiet.
  destruct (stage_batch _ _ _ _ s) as [n s']. apply IH.
Qed.

(** A metadata scan is the scan of [Scan]. *)
Lemma metadata_scan_quiet size root a vi walk s w :
  metadata_scan sqlite clock dump host size root (Some a) vi walk s w =
  if (size <? 1)%Z then (Err ValueError, s, w) else
  let '(v, w) := vi w in
  match v with
  | Err e => (Err (Raised e), s, w)
  | Ok volume =>
      let '(t, w) := clock w in
      let '(es, raised, w) := walk w in
      let '(t', w') := clock w in
      let '(r, s) := Scan.scan dump host size root (Some a) volume es raised t t' s in
      match r with Ok r => (Ok (r, volume), s, w') | Err e => (Err e, s, w) end
  end.
Proof using Hq.
  unfold metadata_scan, Scan.scan. destruct (size <? 1)%Z; [done|]. unfold mbind, M_bind, ask, look.
  destruct (vi w) as [[v|e] w1]; [|done]. destruct (clock w1) as [t w2]. rewrite sql_call_quiet.
  destruct (start_run _ _ _ _ _ _ _ s) as [run s1]. destruct (walk w2) as [[es raised] w3]. cbn [fst snd].
  rewrite flushes_quiet. destruct (scan_loop _ _ _ _ _ _ _ _ s1) as [[[seen changed] batch] s2]. destruct raised as [e|].
  - by destruct (clock w3).
  - unfold exec. destruct batch as [|x batch].
    + unfold mret, M_ret. destruct (clock w3) as [t' w4]. by rewrite sql_call_quiet.
    + rewrite sql_call_quiet. destruct (stage_batch _ _ _ _ s2) as [n s3]. destruct (clock w3) as [t' w4]. by rewrite sql_call_quiet.
Qed.

(** So is an incremental cycle. *)
Lemma incremental_quiet root feed a vi s w :
  incremental sqlite clock dump host root feed a vi s w =
  let '(v, w) := vi w in
  match v with
  | Err e => (Err (Raised e), s, w)
  | Ok volume =>
      let '(t, w) := clock w in
      let '(events, w) := feed w in
      let '(t', w') := clock w in
      let '(r, s) := incremental_scan dump host root events a volume t t' s in
      match r with Ok r => (Ok r, s, w') | Err e => (Err e, s, w) end
  end.
Proof using Hq.
  unfold incremental, incremental_scan, stage_delta. unfold mbind, M_bind, ask, look.
  destruct (vi w) as [[v|e] w1]; [|done]. destruct (clock w1) as [t w2]. rewrite sql_call_quiet.
  destruct (start_run _ _ _ _ _ _ _ s) as [run s1]. destruct (feed w2) as [[events|e] w3]; [|by destruct (clock w3)].
  unfold exec. destruct (upserts (collect_delta events)) as [|x u], (delta_removals (collect_delta events)) as [|y l];
    unfold mret, M_ret; rewrite ?sql_call_quiet.
  - destruct (clock w3) as [t' w4]. by rewrite sql_call_quiet.
  - destruct (stage_removals _ _ _ _ s1) as [m s2]. destruct (clock w3) as [t' w4]. by rewrite sql_call_quiet.
  - destruct (stage_batch _ _ _ _ s1) as [m s2]. destruct (clock w3) as [t' w4]. by rewrite sql_call_quiet.
  - destruct (stage_batch _ _ _ _ s1) as [m s2]. rewrite sql_call_quiet. destruct (stage_removals _ _ _ _ s2) as [m' s3].
    destruct (clock w3) as [t' w4]. by rewrite sql_call_quiet.
Qed.

(** A fold that never raises. *)
Lemma foldM_quiet {A X} (f : A → X → M W A) (g : A * StagingStore * W → X → A * StagingStore * W) a l s w :
  (∀ a x s w, f a x s w = let '(a, s, w) := g (a, s, w) x in (Ok a, s, w)) →
  foldM f a l s w = let '(a, s, w) := foldl g (a, s, w) l in (Ok a, s, w).
Proof.
  intros Hf. revert a s w. induction l as [|x l IH]; intros a s w; [done|]. cbn [foldM foldl]. unfold mbind, M_bind. rewrite Hf.
  destruct (g (a, s, w) x) as [[a' s'] w']. apply IH.
Qed.

(** The pass, over files that are read or skipped. *)
Section Pass.
Context (partial : string → Z → W → option string * W) (full : string → W → option string * W).

Definition lift (r : option string * W) : result exn string * W :=
  (match r.1 with Some d => Ok d | None => Err (OSError "") end, r.2).
Definition partial_ok (p : string) (z : Z) (w : W) : result exn string * W := lift (partial p z w).
Definition full_ok (p : string) (w : W) : result exn string * W := lift (full p w).

Lemma hash_batch_quiet (hash : Candidate Z → W → option string * W) items (s : StagingStore) w :
  hash_batch (λ c w, lift (hash c w)) items s w = let '(ds, w) := _hash_batch hash items w in (Ok ds, s, w).
Proof.
  revert w. induction items as [|c items IH]; intros w; [done|]. cbn [hash_batch _hash_batch]. unfold mbind, M_bind, hash_one, lift.
  destruct (hash c w) as [d w1]. cbn [fst snd]. destruct d; fold lift; rewrite IH; by destruct (_hash_batch hash items w1).
Qed.

Lemma one_group_quiet vol run r (group : M W (list (Candidate Z))) g s w :
  group s w = (Ok g, s, w) →
  one_group sqlite host partial_ok full_ok vol run r group s w =
  let '(r, s, w) := scan_group partial full host vol run (r, s, w) g in (Ok r, s, w).
Proof using Hq.
  intros Hg. unfold one_group, scan_group, mbind at 1, M_bind at 1. rewrite Hg. generalize (count_candidates (length g) r). clear r Hg. intros r.
  unfold funnel_group, _funnel_group. destruct g as [|c [|c' g]]; [done..|]. unfold mbind at 1, M_bind at 1.
  rewrite (foldM_quiet _ (λ a b, let '(d, s, w) := a in let '(d, w) := partial_batch partial (c_size c) (d, w) b in (d, s, w))).
  2:{ intros d b s1 w1. unfold partial_digests, partial_batch, mbind, M_bind. unfold partial_ok.
      rewrite (hash_batch_quiet (λ c0, partial (c_path c0) (c_size c))). by destruct (_hash_batch _ b w1). }
  assert (∀ l d s w, foldl (λ a b, let '(d, s, w) := a in let '(d, w) := partial_batch partial (c_size c) (d, w) b in (d, s, w)) (d, s, w) l
    = let '(d, w) := foldl (partial_batch partial (c_size c)) (d, w) l in (d, s, w)) as ->.
  { clear - Hq. induction l as [|b l IH]; intros d s w; [done|]. cbn [foldl]. destruct (partial_batch _ _ (d, w) b) as [d' w']. apply IH. }
  destruct (foldl (partial_batch partial (c_size c)) _ _) as [[d n] w1]. cbn [fst snd].
  rewrite (foldM_quiet _ (full_members full host vol run)); [done|]. clear - Hq. intros r [pd ms] s w. unfold members, full_members. cbn [fst snd].
  destruct (_ <? _); [done|]. apply (foldM_quiet _ (full_batch full host vol run pd)). clear r s w. intros r b s w.
  unfold full_digests, full_batch, mbind, M_bind, full_ok. rewrite (hash_batch_quiet (λ c0, full (c_path c0))).
  destruct (_hash_batch _ b w) as [ds w1].
  rewrite (foldM_quiet _ (λ a x, let '(r, s, w) := a in let '(r, s) := add_full host vol run pd (r, s) x in (r, s, w))).
  - generalize (zip b ds). clear - Hq. intros l. revert r s. induction l as [|x l IH]; intros r s; [done|]. cbn [foldl].
    destruct (add_full _ _ _ _ (r, s) x) as [r' s']. apply IH.
  - clear r s w b ds w1. intros r [c [f|]] s w; unfold stage_full, add_full, _stage; cbn [fst snd]; [|done].
    unfold mbind, M_bind, exec. by rewrite sql_call_quiet.
Qed.
End Pass.
End Quiet.
