(* ===== verification/Runner.v ===== *)
(** The agent's run ([src/fathom/agent/runner.py]): feed or full walk, the full-bit pass, the scopes one
    after the other, then the drain and the finalize.

    The world [W] is what the backends, the clock and the network read and change, and what SQLite answers: each call of the staging store
    asks [sqlite] first and may raise.  An exception is kept as itself, not as its text. *)

From stdpp Require Import gmap.
From S2P Require Import Prelude PyStr PyDict Sql PosixPath Staging Feed Dedup Supervisor Scan Fullbit Scanners.

(** The fields of [AgentConfig] that a run uses; a remote target is its [mount_key]. *)
Record AgentConfig := mk_config {
  host_id : string; scan_scope : list string; fullbit_scope : list string; exclude_scope : list string;
  cross_mounts : bool; scope_labels : list (string * string); remote_targets : list string;
}.

Inductive ScopeError := NotInScope | NoBackend | ScanFailed (e : ScanError).

Record ScopeOutcome := mk_outcome {
  o_root : string; o_entries_seen : Z; o_rows_changed : Z; o_error : option ScopeError;
  fullbit_hashed : Z; fullbit_error : option ScanError;
}.

(** [except (OSError, RuntimeError, sqlite3.Error)]; the errors of the scanners are RuntimeErrors. *)
Definition caught (e : ScanError) : bool :=
  match e with ValueError | Raised (OtherError _) => false | _ => true end.

Definition relabel (cfg : AgentConfig) (root : string) (v : VolumeInfo) : VolumeInfo :=
  match vi_display_name v, dict_get root (scope_labels cfg) with
  | None, Some label =>
      if bool_decide (label = "") then v else
      mk_vinfo (vi_mountpoint v) (Some label) (vi_fs_type v) (vi_device v) (vi_transport v) (vi_raid_role v)
        (vi_dataset v) (vi_total v) (vi_used v) (vi_free v)
  | _, _ => v
  end.

Definition _fullbit_ack (operator root : string) (now : Z) (v : VolumeInfo) : WarningAck :=
  let device_class := match vi_raid_role v with
                      | Some role => if bool_decide (role = "") then vi_transport v else vi_transport v +:+ " " +:+ role
                      | None => vi_transport v
                      end in
  mk_ack operator now (root +:+ " (backing device class: " +:+ device_class +:+ ")") FULLBIT_MODE.

Definition candidate_of (e : staged_entry) : Candidate Z := mk_cand (s_inode e) (s_path e) (s_size_logical e) (s_dev e).

Section Runner.
Context {W : Type}.

Record StorageBackend := mk_backend {
  volume_info : string → W → result exn VolumeInfo * W;
  walk : string → bool → list string → W → list FsEntry * option exn * W;
  partial_hash : string → Z → W → result exn string * W;
  full_hash : string → W → result exn string * W;
}.

Definition ChangeFeed : Type := string → W → result exn (list ChangeEvent) * W.
Definition FeedFactory : Type := StorageBackend → VolumeInfo → string → StagingStore → AgentConfig → W → result exn (option ChangeFeed) * W.

Definition RestatFeed (b : StorageBackend) (baseline : Baseline) (exclude : list string) : ChangeFeed := λ root w,
  let '(es, raised, w) := walk b root true exclude w in
  (match raised with Some e => Err e | None => Ok (restat_changes baseline es) end, w).

Context (sqlite : W → option string * W).

Definition _default_feed_for : FeedFactory := λ b volume root s cfg w,
  if bool_decide (vi_fs_type volume = "zfs") then (Ok None, w) else
  let '(e, w) := sqlite w in
  (match e with
   | Some m => Err (SqliteError m)
   | None => Ok (Some (RestatFeed b (load_baseline (host_id cfg) (vi_mountpoint volume) s) (exclude_scope cfg)))
   end, w).

Context (clock : W → Z * W) (resync_blocks : W → bool * W) (dump : WarningAck → string) (cfg : AgentConfig).
Context (operator : string) (batch_size : Z) (feed_factory : FeedFactory) (force_full_walk : bool).

(** How the scanner of a scope walks: on one file system or not, and without what. *)
Definition _scanner_for : bool * list string := (negb (cross_mounts cfg), exclude_scope cfg).

(** The scanner's and the incremental scanner's [scan] ask the backend for the volume once more. *)
Definition full_scan (b : StorageBackend) (root : string) (ack : WarningAck) : M W (ScopeOutcome * option VolumeInfo) :=
  r ← metadata_scan sqlite clock dump (host_id cfg) batch_size root (Some ack) (volume_info b root)
        (walk b root _scanner_for.1 _scanner_for.2);
  mret (mk_outcome root (sr_entries_seen r.1) (sr_rows_changed r.1) None 0 None, Some r.2).

Definition incremental_cycle (b : StorageBackend) (root : string) (feed : ChangeFeed) (ack : WarningAck)
    : M W (ScopeOutcome * option VolumeInfo) :=
  d ← incremental sqlite clock dump (host_id cfg) root (feed root) ack (volume_info b root);
  mret (mk_outcome root (upserts_staged d) (upserts_staged d + removals_staged d) None 0 None, None).

(** A feed that cannot be built is not trusted. *)
Definition built_feed (b : StorageBackend) (volume : VolumeInfo) (root : string) : M W (option ChangeFeed) := λ s w,
  let '(f, w) := feed_factory b volume root s cfg w in
  (match f with Ok f => Ok f | Err (OSError _ | RuntimeError _) => Ok None | Err e => Err (Raised e) end, s, w).

(** The feed of the cycle: none on the first scan, when forced, or when it cannot be built. *)
Definition select_feed (b : StorageBackend) (volume : VolumeInfo) (root : string) : M W (option ChangeFeed) :=
  if force_full_walk then mret None else
  base ← query sqlite (has_baseline_run (host_id cfg) (vi_mountpoint volume));
  if base : bool then built_feed b volume root else mret None.

Definition _scan_one_scope (b : StorageBackend) (root : string) : M W (ScopeOutcome * option VolumeInfo) :=
  volume ← ask (volume_info b root);
  let volume := relabel cfg root volume in
  t ← look clock;
  let ack := mk_ack operator t root "metadata" in
  feed ← select_feed b volume root;
  match feed with
  | Some feed => incremental_cycle b root feed ack
  | None => full_scan b root ack
  end.

(** [_size_groups]: a group is read when the pass comes to it. *)
Definition _size_groups (vol root : string) (sizes : list Z) : list (M W (list (Candidate Z))) :=
  (λ size, query sqlite (λ s, candidate_of <$> candidates_of_size (host_id cfg) vol root size s)) <$> sizes.

Definition set_fullbit (hashed : Z) (e : option ScanError) (o : ScopeOutcome) : ScopeOutcome :=
  mk_outcome (o_root o) (o_entries_seen o) (o_rows_changed o) (o_error o) hashed e.

(** The errors that the pass records itself; FullBitUnsupportedError is a RuntimeError, and any other RuntimeError is recorded
    alike by the caller. *)
Definition recorded (e : ScanError) : bool :=
  match e with FullBitBlocked | AcknowledgementRequired | Raised (OSError _ | RuntimeError _) => true | _ => false end.

Definition pass_outcome (o : ScopeOutcome) (m : M W FullBitResult) : M W ScopeOutcome := λ s w,
  let '(r, s, w) := m s w in
  (match r with
   | Ok r => Ok (set_fullbit (fb_full_hashed r) (fullbit_error o) o)
   | Err e => if recorded e then Ok (set_fullbit (fullbit_hashed o) (Some e) o) else Err e
   end, s, w).

Definition _run_fullbit (b : StorageBackend) (root : string) (volume : VolumeInfo) (o : ScopeOutcome) : M W ScopeOutcome :=
  let vol := vi_mountpoint volume in
  sizes ← query sqlite (collision_sizes (host_id cfg) vol root);
  t ← look clock;
  pass_outcome o
    (fullbit_scan sqlite clock dump (host_id cfg) (partial_hash b) (full_hash b) resync_blocks root
       (_size_groups vol root sizes) vol (Some (_fullbit_ack operator root t volume)) (Some volume)).

Definition failed (root : string) (e : ScopeError) : ScopeOutcome := mk_outcome root 0 0 (Some e) 0 None.

Context (resolve : string → option StorageBackend).

(** One turn of the loop over the roots; an exception leaves the loop. *)
Definition run_scope (root : string) (scope_gated : bool) : M W ScopeOutcome :=
  if scope_gated && negb (in_scope (scan_scope cfg) root) then mret (failed root NotInScope) else
  match resolve root with
  | None => mret (failed root NoBackend)
  | Some b => λ s w,
      let '(r, s, w) := _scan_one_scope b root s w in
      match r with
      | Err e => (if caught e then Ok (failed root (ScanFailed e)) else Err e, s, w)
      | Ok (o, Some volume) =>
          if scope_gated && in_fullbit_scope (fullbit_scope cfg) root then
            let '(r, s, w) := _run_fullbit b root volume o s w in
            (match r with
             | Ok o => Ok o
             | Err e => if caught e then Ok (set_fullbit (fullbit_hashed o) (Some e) o) else Err e
             end, s, w)
          else (Ok o, s, w)
      | Ok (o, None) => (Ok o, s, w)
      end
  end.

Fixpoint run_scopes (roots : list (string * bool)) (done : list ScopeOutcome) : M W (list ScopeOutcome) :=
  match roots with
  | [] => mret done
  | (root, scope_gated) :: roots => o ← run_scope root scope_gated; run_scopes roots (done ++ [o])
  end.

Definition roots_of : list (string * bool) :=
  ((λ root, (root, true)) <$> scan_scope cfg) ++ ((λ target, (target, false)) <$> remote_targets cfg).

Record AgentRunSummary := mk_summary {
  sum_host_id : string; scopes : list ScopeOutcome; pushed : Z; finalized : option Z;
  sum_started_at : Z; sum_finished_at : Z;
}.

Definition entries_seen (x : AgentRunSummary) : Z := sumZ (o_entries_seen <$> scopes x).
Definition failed_scopes (x : AgentRunSummary) : list string :=
  o_root <$> filter (λ o, o_error o ≠ None) (scopes x).

Inductive RunError {E : Type} := StoreRaised (msg : string) | ScopeRaised (e : ScanError) | DrainRaised (e : E).

(** The store is opened first.  [drain] may raise; [finalize] gives the number of volumes or raises, which is swallowed. *)
Definition run_agent {E} (drain : StagingStore → W → result E Z * StagingStore * W) (finalize : W → option Z * W)
    (s : StagingStore) (w : W) : result (RunError (E:=E)) AgentRunSummary * StagingStore * W :=
  let '(t, w) := clock w in
  let '(opened, w) := sqlite w in
  match opened with
  | Some m => (Err (StoreRaised m), s, w)
  | None =>
      let '(r, s, w) := run_scopes roots_of [] s w in
      match r with
      | Err e => (Err (ScopeRaised e), s, w)
      | Ok outcomes =>
          let '(p, s, w) := drain s w in
          match p with
          | Err e => (Err (DrainRaised e), s, w)
          | Ok pushed =>
              let '(f, w) := finalize w in
              let '(t', w) := clock w in
              (Ok (mk_summary (host_id cfg) outcomes pushed f t t'), s, w)
          end
      end
  end.
End Runner.
Arguments StorageBackend : clear implicits.
Arguments RunError : clear implicits.

Inductive ScanNowMode := metadata | fullbit.

(** The view of the configuration that [scan_one_root_now] runs with. *)
Definition scoped (cfg : AgentConfig) (root : string) (mode : ScanNowMode) : AgentConfig :=
  let fullbit_now := match mode with fullbit => in_fullbit_scope (fullbit_scope cfg) root | metadata => false end in
  mk_config (host_id cfg) [root] (if fullbit_now then [root] else []) (exclude_scope cfg) (cross_mounts cfg)
    (scope_labels cfg) [].

Definition scan_one_root_now {W E} (sqlite : W → option string * W) (clock : W → Z * W) (resync_blocks : W → bool * W) (dump : WarningAck → string)
    (cfg : AgentConfig) (root : string) (mode : ScanNowMode) (operator : string) (batch_size : Z)
    (feed_factory : FeedFactory) (resolve : string → option (StorageBackend W))
    (drain : StagingStore → W → result E Z * StagingStore * W) (finalize : W → option Z * W)
    (s : StagingStore) (w : W) : result (RunError E) AgentRunSummary * StagingStore * W :=
  run_agent sqlite clock resync_blocks dump (scoped cfg root mode) operator batch_size feed_factory true resolve
    drain finalize s w.

(** ** What a run may stage *)

(** What [finish_run] keeps of a run. *)
Definition run_core (x : scan_run) : Z * string * string * ScanMode * string * option string :=
  (run_id x, run_host x, run_volume x, run_mode x, run_root x, warning_ack x).

Section Confined.
Context (dump : WarningAck → string) (cfg : AgentConfig) (operator : string) (s0 : StagingStore).

(** A run that the configuration allows: of a local root in scope or of a remote target, acknowledged
    by the operator for its mode, and reading content only of a local root in the full-bit scope. *)
Definition allowed (x : scan_run) : Prop :=
  run_host x = host_id cfg ∧
  (run_root x ∈ scan_scope cfg ∧ in_scope (scan_scope cfg) (run_root x) = true ∨
   run_root x ∈ remote_targets cfg ∧ run_mode x = METADATA) ∧
  (run_mode x = FULLBIT → run_root x ∈ scan_scope cfg ∧ in_fullbit_scope (fullbit_scope cfg) (run_root x) = true) ∧
  ∃ a, warning_ack x = Some (dump a) ∧ Scan.operator a = operator ∧
       ack_mode a = match run_mode x with METADATA => "metadata" | FULLBIT => FULLBIT_MODE end.

Definition has_run (s : StagingStore) (id : Z) (host vol : string) : Prop :=
  ∃ x, x ∈ runs s ∧ allowed x ∧ run_id x = id ∧ run_host x = host ∧ run_volume x = vol.

(** Everything in the store is older or belongs to an allowed run. *)
Definition confined (s : StagingStore) : Prop :=
  (∀ x, x ∈ runs s → run_core x ∈ run_core <$> runs s0 ∨ allowed x) ∧
  (∀ e, e ∈ entries s → e ∈ entries s0 ∨ has_run s (s_run e) (s_host e) (s_volume e)) ∧
  (∀ r, r ∈ removals s → r ∈ removals s0 ∨ has_run s (r_run r) (r_host r) (r_volume r)).

Lemma confined_refl : confined s0.
Proof. split_and!; [|by auto..]. intros x Hx. left. by apply list_elem_of_fmap_2. Qed.

Lemma confined_start host vol mode root t ack v s :
  confined s → allowed (mk_run (next_run s) host vol mode root t None 0 ack v) →
  confined (start_run host vol mode root t ack v s).2 ∧ has_run (start_run host vol mode root t ack v s).2 (next_run s) host vol.
Proof.
  intros (H1 & H2 & H3) Ha. unfold start_run. cbn [snd].
  assert (∀ id h w, has_run s id h w → has_run (mk_store (runs s ++ [mk_run (next_run s) host vol mode root t None 0 ack v])
            (entries s) (removals s) (next_run s + 1)) id h w) as Hm.
  { intros id h w (x & Hx & ?). exists x. split; [|done]. apply elem_of_app. by left. }
  split; [split_and!|].
  - intros x [Hx| ->%list_elem_of_singleton]%elem_of_app; [by apply H1|by right].
  - intros e [?|?]%H2; auto.
  - intros r [?|?]%H3; auto.
  - eexists. split; [apply elem_of_app; right; left|]. done.
Qed.

Lemma allowed_core x y : run_core x = run_core y → allowed x → allowed y.
Proof.
  unfold run_core, allowed. intros [= H1 H2 H3 H4 H5 H6] (? & ? & ? & a & ?).
  rewrite <- H2, <- H4, <- H5, <- H6. split_and!; try done. by exists a.
Qed.

Lemma confined_finish id t n s :
  confined s → confined (finish_run id t n s) ∧ (∀ i h v, has_run s i h v → has_run (finish_run id t n s) i h v).
Proof.
  intros (H1 & H2 & H3). unfold finish_run.
  set (f := λ r : scan_run, if bool_decide (run_id r = id) then _ else r).
  assert (∀ x, run_core (f x) = run_core x) as Hc by (intros x; unfold f; by case_bool_decide).
  assert (∀ i h v, has_run s i h v → has_run (mk_store (f <$> runs s) (entries s) (removals s) (next_run s)) i h v) as Hm.
  { intros i h v (x & Hx & Ha & <- & <- & <-). exists (f x). split; [by apply list_elem_of_fmap_2|].
    pose proof (Hc x) as E. split; [by apply (allowed_core x)|]. injection E as ? ? ? ? ? ?. done. }
  split; [|exact Hm]. split_and!.
  - intros x (y & -> & Hy)%list_elem_of_fmap. rewrite Hc. destruct (H1 y Hy) as [?|Ha]; [by left|right].
    by apply (allowed_core y).
  - intros e [?|?]%H2; auto.
  - intros r [?|?]%H3; auto.
Qed.

Lemma confined_stage run host vol b s : has_run s run host vol → confined s → confined (stage_batch run host vol b s).2.
Proof.
  intros Hr (H1 & H2 & H3). unfold stage_batch, _UPSERT.
  destruct (upsert_all _ _ _ _ _ (entries s)) as [n l] eqn:E. cbn [snd]. split_and!; [done| |done].
  change l with ((n, l).2). rewrite <- E. cbn [entries set_entries].
  apply (elem_of_upsert_all entry_key entry_key); [done|exact H2| |].
  - intros x _ (y & -> & _)%list_elem_of_fmap. by right.
  - intros x y (z & -> & _)%list_elem_of_fmap _ Hk. right. unfold entry_key in Hk. cbn in Hk. cbn.
    by injection Hk as -> -> _ _.
Qed.

Lemma confined_remove run host vol b s : has_run s run host vol → confined s → confined (stage_removals run host vol b s).2.
Proof.
  intros Hr (H1 & H2 & H3). unfold stage_removals, upsert_removals.
  destruct (upsert_all _ _ _ _ _ (removals s)) as [n l] eqn:E. cbn [snd]. split_and!; [done|done|].
  change l with ((n, l).2). rewrite <- E. cbn [removals set_removals].
  apply (elem_of_upsert_all removal_key removal_key); [done|exact H3| |].
  - intros x _ (y & -> & _)%list_elem_of_fmap. by right.
  - intros x y (z & -> & _)%list_elem_of_fmap _ Hk. right. unfold removal_key in Hk. cbn in Hk. cbn.
    by injection Hk as -> -> _ _.
Qed.

Lemma confined_hash run host vol i p f dev s : has_run s run host vol → confined s → confined (stage_hash host vol i p f run dev s).
Proof.
  intros Hr (H1 & H2 & H3). unfold stage_hash. split_and!; [done| |done].
  intros e (x & -> & Hx)%list_elem_of_fmap. case_bool_decide as Hk; [|by apply H2].
  right. unfold entry_key in Hk. cbn. by injection Hk as -> -> _ _.
Qed.

(** A run that is open: its record is there. *)
Definition opened (run : Z) (vol : string) (s : StagingStore) : Prop := confined s ∧ has_run s run (host_id cfg) vol.

Lemma opened_confined run vol s : opened run vol s → confined s.
Proof. by intros []. Qed.

Lemma opened_stage run vol b s : opened run vol s → opened run vol (stage_batch run (host_id cfg) vol b s).2.
Proof. intros [Hc Hr]. split; [by apply confined_stage|]. unfold stage_batch. by destruct (_UPSERT _ _). Qed.

Lemma opened_remove run vol b s : opened run vol s → opened run vol (stage_removals run (host_id cfg) vol b s).2.
Proof. intros [Hc Hr]. split; [by apply confined_remove|]. unfold stage_removals. by destruct (upsert_removals _ _). Qed.

Lemma opened_hash run vol i p f dev s : opened run vol s → opened run vol (stage_hash (host_id cfg) vol i p f run dev s).
Proof. intros [Hc Hr]. split; [by apply confined_hash|done]. Qed.

Lemma opened_start vol mode root t ack v s :
  (∀ run, allowed (mk_run run (host_id cfg) vol mode root t None 0 ack v)) → confined s →
  opened (start_run (host_id cfg) vol mode root t ack v s).1 vol (start_run (host_id cfg) vol mode root t ack v s).2.
Proof. intros Ha Hc. destruct (confined_start (host_id cfg) vol mode root t ack v s Hc (Ha _)) as [H1 Hr]. by split. Qed.

Lemma opened_finish run vol t n s : opened run vol s → confined (finish_run run t n s).
Proof. intros [Hc _]. by apply confined_finish. Qed.
End Confined.

(** ** One scope *)

Section Outcomes.
Context {W : Type} (sqlite : W → option string * W) (clock : W → Z * W) (resync_blocks : W → bool * W) (dump : WarningAck → string).
Context (cfg : AgentConfig) (operator : string) (batch_size : Z) (feed_factory : FeedFactory (W:=W)) (force_full_walk : bool).
Context (resolve : string → option (StorageBackend W)).

Local Notation scan_one := (_scan_one_scope sqlite clock dump cfg operator batch_size feed_factory force_full_walk).
Local Notation run_pass := (_run_fullbit sqlite clock resync_blocks dump cfg operator).
Local Notation one_turn := (run_scope sqlite clock resync_blocks dump cfg operator batch_size feed_factory force_full_walk resolve).
Local Notation all_turns := (run_scopes sqlite clock resync_blocks dump cfg operator batch_size feed_factory force_full_walk resolve).

(** What the scan of a scope does to the store, from what its calls do. *)
Section Keep.
Context (E P : StagingStore → Prop) (I : Z → string → StagingStore → Prop).
Context (HPE : ∀ s, P s → E s) (HIE : ∀ run vol s, I run vol s → E s).
Context (Hstage : ∀ run vol b s, I run vol s → I run vol (stage_batch run (host_id cfg) vol b s).2).
Context (Hremove : ∀ run vol b s, I run vol s → I run vol (stage_removals run (host_id cfg) vol b s).2).

Lemma select_feed_holds b v root : holds E P (select_feed sqlite cfg feed_factory force_full_walk b v root) (λ _, P).
Proof using HPE.
  unfold select_feed. destruct force_full_walk; [by apply holds_ret|].
  eapply holds_bind; [by apply holds_query|]. intros []; [|by apply holds_ret].
  intros s w Hs. unfold built_feed. destruct (feed_factory b v root s cfg w) as [[f|[]] w']; try done; by apply HPE.
Qed.

Lemma scan_one_holds b root (V : VolumeInfo → Prop) (Q : StagingStore → Prop) :
  (∀ w v, (volume_info b root w).1 = Ok v → V v) →
  (∀ v s t t0, V v → P s →
     let run := start_run (host_id cfg) (vi_mountpoint v) METADATA root t (Some (dump (mk_ack operator t0 root "metadata"))) (Some v) s in
     I run.1 (vi_mountpoint v) run.2) →
  (∀ run v t n s, V v → I run (vi_mountpoint v) s → Q (finish_run run t n s)) →
  holds E P (scan_one b root) (λ r s, o_root r.1 = root ∧ o_error r.1 = None ∧ Q s).
Proof using HPE HIE Hstage Hremove.
  intros HV Hstart Hfin. unfold _scan_one_scope. eapply holds_bind; [by apply holds_ask|]. intros v0.
  eapply holds_bind; [apply holds_look|]. intros t0. eapply holds_bind; [apply select_feed_holds|]. intros [feed|].
  - unfold incremental_cycle. eapply holds_bind.
    + apply (keep_incremental _ _ _ _ E I P HPE HIE Hstage Hremove _ _ _ _ V Q); [done| |done]. intros v s t Hv Hs. by apply Hstart.
    + intros d. by apply holds_ret.
  - unfold full_scan. eapply holds_bind.
    + apply (keep_metadata _ _ _ _ E I P HPE HIE Hstage _ _ _ _ _ V (λ _, Q)); [done| |done]. intros v s t Hv Hs. by apply Hstart.
    + intros d. by apply holds_ret.
Qed.
End Keep.

(** The content-hashing pass of a scope. *)
Lemma run_pass_holds (E P : StagingStore → Prop) (I : Z → string → StagingStore → Prop) (Q : StagingStore → Prop) b root v o :
  (∀ s, P s → E s) → (∀ run vol s, I run vol s → E s) → (∀ s, Q s → E s) →
  (∀ run vol i p f dev s, I run vol s → I run vol (stage_hash (host_id cfg) vol i p f run dev s)) →
  (∀ s t t0, P s →
     let run := start_run (host_id cfg) (vi_mountpoint v) FULLBIT root t (Some (dump (_fullbit_ack operator root t0 v))) (Some v) s in
     I run.1 (vi_mountpoint v) run.2) →
  (∀ run t n s, I run (vi_mountpoint v) s → Q (finish_run run t n s)) →
  holds E P (run_pass b root v o) (λ o' s, (∃ n e, o' = set_fullbit n e o) ∧ E s).
Proof.
  intros HPE HIE HQE Hhash Hstart Hfin. unfold _run_fullbit. eapply holds_bind; [by apply holds_query|]. intros sizes.
  eapply holds_bind; [apply holds_look|]. intros t0 s w Hs. unfold pass_outcome.
  pose proof (keep_fullbit sqlite clock dump (host_id cfg) E I P HPE HIE Hhash (partial_hash b) (full_hash b) resync_blocks root
    (_size_groups sqlite cfg (vi_mountpoint v) root sizes) (vi_mountpoint v) (_fullbit_ack operator root t0 v) (Some v) Q) as H.
  specialize (H ltac:(auto) Hfin). assert (∀ run g, g ∈ _size_groups sqlite cfg (vi_mountpoint v) root sizes →
    holds E (I run (vi_mountpoint v)) g (λ _, I run (vi_mountpoint v))) as Hg.
  { intros run g (z & -> & _)%list_elem_of_fmap. apply holds_query, HIE. }
  specialize (H Hg s w Hs). destruct (fullbit_scan _ _ _ _ _ _ _ _ _ _ _ _ s w) as [[[r|e] s'] w'].
  - split; [by eexists _, _|]. by apply HQE.
  - destruct (recorded e); [|done]. split; [by eexists _, _|done].
Qed.

(** ** The runs of a configuration *)

Lemma scan_one_confined b root s0 :
  root ∈ scan_scope cfg ∧ in_scope (scan_scope cfg) root = true ∨ root ∈ remote_targets cfg →
  holds (confined dump cfg operator s0) (confined dump cfg operator s0) (scan_one b root)
    (λ r s, o_root r.1 = root ∧ o_error r.1 = None ∧ confined dump cfg operator s0 s).
Proof.
  intros Hroot. apply (scan_one_holds _ _ (opened dump cfg operator s0)) with (V := λ _, True).
  - done.
  - apply opened_confined.
  - apply opened_stage.
  - apply opened_remove.
  - done.
  - intros v s t t0 _ Hc. apply opened_start; [|done]. intros run. split; [done|]. split; [naive_solver|]. split; [done|]. by eexists.
  - intros run v t n s _. apply opened_finish.
Qed.

Lemma run_pass_confined b root v o s0 :
  root ∈ scan_scope cfg → in_scope (scan_scope cfg) root = true → in_fullbit_scope (fullbit_scope cfg) root = true →
  holds (confined dump cfg operator s0) (confined dump cfg operator s0) (run_pass b root v o)
    (λ o' s, (∃ n e, o' = set_fullbit n e o) ∧ confined dump cfg operator s0 s).
Proof.
  intros H1 H2 H3. apply (run_pass_holds _ _ (opened dump cfg operator s0) (confined dump cfg operator s0)).
  - done.
  - apply opened_confined.
  - done.
  - apply opened_hash.
  - intros s t t0 Hc. apply opened_start; [|done]. intros run. split; [done|]. split; [by left|]. split; [done|]. by eexists.
  - intros run t n s. apply opened_finish.
Qed.

Lemma run_scope_confined root g s0 :
  (root, g) ∈ roots_of cfg →
  holds (confined dump cfg operator s0) (confined dump cfg operator s0) (one_turn root g)
    (λ o s, o_root o = root ∧ confined dump cfg operator s0 s).
Proof.
  intros Hin. unfold run_scope. unfold roots_of in Hin. rewrite elem_of_app, !list_elem_of_fmap in Hin.
  destruct (g && negb (in_scope (scan_scope cfg) root)) eqn:Eg; [by apply holds_ret|].
  destruct (resolve root) as [b|]; [|by apply holds_ret].
  assert (root ∈ scan_scope cfg ∧ in_scope (scan_scope cfg) root = true ∨ root ∈ remote_targets cfg) as Hroot.
  { destruct Hin as [(? & [= <- ->] & Hin)|(? & [= <- ->] & Hin)]; [left|by right].
    split; [done|]. by destruct (in_scope (scan_scope cfg) root). }
  intros s w Hc. pose proof (scan_one_confined b root s0 Hroot s w Hc) as H.
  destruct (_scan_one_scope _ _ _ _ _ _ _ _ b root s w) as [[[[o [v|]]|e] s1] w1]; [|by destruct H as (? & ? & ?)|by destruct (caught e)].
  destruct H as (Hr & _ & H1). cbn [fst] in Hr.
  destruct (g && in_fullbit_scope (fullbit_scope cfg) root) eqn:Ef; [|done]. apply andb_prop in Ef as [-> Ef].
  assert (root ∈ scan_scope cfg) as Hl by by destruct Hin as [(? & [= <-] & ?)|(? & [=] & _)].
  pose proof (run_pass_confined b root v o s0 Hl ltac:(by destruct (in_scope (scan_scope cfg) root)) Ef s1 w1 H1) as H.
  destruct (_run_fullbit _ _ _ _ _ _ b root v o s1 w1) as [[[o'|e] s2] w2]; [|by destruct (caught e)].
  destruct H as [(n & e & ->) H2]. done.
Qed.

Lemma run_scopes_confined roots done_ s0 :
  (∀ x, x ∈ roots → x ∈ roots_of cfg) →
  holds (confined dump cfg operator s0) (confined dump cfg operator s0) (all_turns roots done_)
    (λ l s, (o_root <$> l) = (o_root <$> done_) ++ roots.*1 ∧ confined dump cfg operator s0 s).
Proof.
  revert done_. induction roots as [|[root g] roots IH]; intros done_ Hin; cbn [run_scopes].
  - apply holds_ret. intros s Hs. by rewrite app_nil_r.
  - eapply holds_bind; [apply run_scope_confined, Hin; left|]. intros o s w [Ho Hs].
    specialize (IH (done_ ++ [o]) ltac:(intros x Hx; apply Hin; by right) s w Hs).
    destruct (run_scopes _ _ _ _ _ _ _ _ _ _ roots _ s w) as [[[l|e] s2] w2]; [|done]. destruct IH as [-> ?]. split; [|done].
    rewrite fmap_app, <- app_assoc. cbn. by rewrite Ho.
Qed.

Lemma roots_of_fst : (roots_of cfg).*1 = scan_scope cfg ++ remote_targets cfg.
Proof. unfold roots_of. by rewrite fmap_app, <- !list_fmap_compose, !list_fmap_id. Qed.

(** Whatever the backends, the feeds, SQLite and the clock do, a run stages nothing outside its configuration:
    each new run record is acknowledged and of an allowed root, content is read only for a local root in
    the full-bit scope, and each new or rewritten row belongs to such a run. *)
Theorem run_respects_scopes s w :
  let '(_, s', _) := all_turns (roots_of cfg) [] s w in confined dump cfg operator s s'.
Proof.
  pose proof (run_scopes_confined (roots_of cfg) [] s ltac:(done) s w (confined_refl _ _ _ _)) as H.
  destruct (run_scopes _ _ _ _ _ _ _ _ _ _ (roots_of cfg) [] s w) as [[[l|e] s1] w1]; [by destruct H|done].
Qed.

(** ** Baselines *)

Lemma baseline_start host vol mode root t a v s h m :
  has_baseline_run h m (start_run host vol mode root t a v s).2 = has_baseline_run h m s.
Proof.
  unfold has_baseline_run, start_run. cbn [snd runs]. rewrite existsb_app. cbn [existsb finished_at].
  rewrite (bool_decide_false (None ≠ None)) by auto. by rewrite andb_false_r, !orb_false_r.
Qed.

Lemma runs_stage run host vol b s : runs (stage_batch run host vol b s).2 = runs s.
Proof. unfold stage_batch. by destruct (_UPSERT _ _). Qed.

Lemma runs_remove run host vol b s : runs (stage_removals run host vol b s).2 = runs s.
Proof. unfold stage_removals. by destruct (upsert_removals _ _). Qed.

(** The finished metadata scans of [s0], and perhaps an open one. *)
Definition same_baselines (s0 s : StagingStore) : Prop := ∀ h m, has_baseline_run h m s = has_baseline_run h m s0.
Definition scanning (s0 : StagingStore) (run : Z) (vol : string) (s : StagingStore) : Prop :=
  same_baselines s0 s ∧ ∃ x, x ∈ runs s ∧ run_id x = run ∧ run_host x = host_id cfg ∧ run_volume x = vol ∧ run_mode x = METADATA.

Lemma scanning_runs s0 run vol s s' : runs s' = runs s → scanning s0 run vol s → scanning s0 run vol s'.
Proof. intros Hr [Hb Hx]. split; [|by rewrite Hr]. intros h m. rewrite <- Hb. unfold has_baseline_run. by rewrite Hr. Qed.

Lemma scanning_start s0 vol root t a v s :
  same_baselines s0 s →
  scanning s0 (start_run (host_id cfg) vol METADATA root t a v s).1 vol (start_run (host_id cfg) vol METADATA root t a v s).2.
Proof.
  intros Hs. split; [intros h m; by rewrite baseline_start|]. eexists. split; [apply elem_of_app; right; left|]. done.
Qed.

Lemma scanning_finish s0 run vol t n s :
  scanning s0 run vol s → has_baseline_run (host_id cfg) vol (finish_run run t n s) = true.
Proof.
  intros [_ (x & Hx & <- & Hh & Hv & Hm)]. unfold has_baseline_run, finish_run. cbn [runs]. apply existsb_exists.
  eexists. split; [apply list_elem_of_In, list_elem_of_fmap_2, Hx|]. cbv beta. rewrite (bool_decide_true (run_id x = run_id x)) by done.
  cbn. by rewrite Hh, Hv, Hm, !bool_decide_true.
Qed.

(** A scan that raises leaves no finished scan that was not there; one that returns leaves its own. *)
Lemma scan_one_baseline b root V s0 :
  (∀ w v, (volume_info b root w).1 = Ok v → V v) →
  holds (same_baselines s0) (same_baselines s0) (scan_one b root)
    (λ r s, o_root r.1 = root ∧ o_error r.1 = None ∧ ∃ v, V v ∧ has_baseline_run (host_id cfg) (vi_mountpoint v) s = true).
Proof.
  intros HV. apply (scan_one_holds _ _ (scanning s0)) with (V := V).
  - done.
  - by intros run vol s [].
  - intros run vol bt s. apply scanning_runs, runs_stage.
  - intros run vol bt s. apply scanning_runs, runs_remove.
  - done.
  - intros v s t t0 _ Hs. by apply scanning_start.
  - intros run v t n s Hv Hs. exists v. split; [done|]. by eapply scanning_finish.
Qed.

(** ** Isolation *)

(** The exceptions that no handler of the loop names. *)
Definition foreign (e : ScanError) : Prop := e = ValueError ∨ ∃ m, e = Raised (OtherError m).

(** The root may be scanned, with this backend. *)
Definition admitted (root : string) (gated : bool) (b : StorageBackend W) : Prop :=
  (gated = true → in_scope (scan_scope cfg) root = true) ∧ resolve root = Some b.

(** The turn of one root: the store and the world it starts with, the outcome it records, and the store and the world it leaves. *)
Inductive turn (root : string) (gated : bool) (s : StagingStore) (w : W) : ScopeOutcome → StagingStore → W → Prop :=
| TurnOutOfScope :
    gated = true → in_scope (scan_scope cfg) root = false → turn root gated s w (mk_outcome root 0 0 (Some NotInScope) 0 None) s w
| TurnNoBackend :
    (gated = true → in_scope (scan_scope cfg) root = true) → resolve root = None → turn root gated s w (mk_outcome root 0 0 (Some NoBackend) 0 None) s w
| TurnFailed b e s' w' :
    admitted root gated b → scan_one b root s w = (Err e, s', w') → ¬ foreign e → same_baselines s s' →
    turn root gated s w (mk_outcome root 0 0 (Some (ScanFailed e)) 0 None) s' w'
| TurnScanned b o v s' w' :
    admitted root gated b → scan_one b root s w = (Ok (o, v), s', w') → o_root o = root → o_error o = None →
    v = None ∨ gated = false ∨ in_fullbit_scope (fullbit_scope cfg) root = false →
    turn root gated s w o s' w'
| TurnHashed b o v s1 w1 n e s' w' :
    admitted root gated b → scan_one b root s w = (Ok (o, Some v), s1, w1) → o_root o = root → o_error o = None →
    gated = true → in_fullbit_scope (fullbit_scope cfg) root = true →
    (run_pass b root v o s1 w1 = (Ok (set_fullbit n e o), s', w') ∨
     ∃ e', run_pass b root v o s1 w1 = (Err e', s', w') ∧ ¬ foreign e' ∧ n = fullbit_hashed o ∧ e = Some e') →
    turn root gated s w (set_fullbit n e o) s' w'.

(** The turns of some roots, one after the other. *)
Inductive turns : list (string * bool) → StagingStore → W → list ScopeOutcome → StagingStore → W → Prop :=
| turns_nil s w : turns [] s w [] s w
| turns_cons root g roots s w o s1 w1 os s2 w2 :
    turn root g s w o s1 w1 → turns roots s1 w1 os s2 w2 → turns ((root, g) :: roots) s w (o :: os) s2 w2.

(** A turn that ends the run. *)
Definition escapes (root : string) (g : bool) (s : StagingStore) (w : W) (e : ScanError) (s' : StagingStore) : Prop :=
  foreign e ∧ ∃ b, admitted root g b ∧
    ((∃ w', scan_one b root s w = (Err e, s', w')) ∨
     ∃ o v s1 w1 w', scan_one b root s w = (Ok (o, Some v), s1, w1) ∧ run_pass b root v o s1 w1 = (Err e, s', w')).

Lemma caught_foreign e : caught e = false ↔ foreign e.
Proof. unfold foreign. destruct e as [| | |[]]; cbn; naive_solver. Qed.

Lemma caught_not_foreign e : caught e = true ↔ ¬ foreign e.
Proof. rewrite <- caught_foreign. by destruct (caught e). Qed.

Lemma turns_roots roots s w os s' w' : turns roots s w os s' w' → o_root <$> os = roots.*1.
Proof.
  induction 1 as [|root g roots s w o s1 w1 os s2 w2 Ht _ IH]; [done|]. rewrite !fmap_cons, IH. f_equal.
  by inversion Ht.
Qed.

Lemma run_scope_turn root g s w :
  let '(r, s', w') := one_turn root g s w in
  match r with Ok o => turn root g s w o s' w' | Err e => escapes root g s w e s' end.
Proof.
  unfold run_scope. destruct (g && negb (in_scope (scan_scope cfg) root)) eqn:Eg.
  { apply andb_prop in Eg as [-> Eg%negb_true_iff]. by apply TurnOutOfScope. }
  assert (g = true → in_scope (scan_scope cfg) root = true) as Hg by (intros ->; by apply negb_false_iff in Eg).
  destruct (resolve root) as [b|] eqn:Eb; [|by apply TurnNoBackend]. assert (admitted root g b) as Ha by done.
  pose proof (scan_one_baseline b root (λ _, True) s ltac:(done) s w (λ _ _, eq_refl)) as Hb.
  destruct (_scan_one_scope _ _ _ _ _ _ _ _ b root s w) as [[[[o v]|e] s1] w1] eqn:Es.
  2:{ destruct (caught e) eqn:Ec; [by apply (TurnFailed _ _ _ _ b _ _ _ Ha Es (proj1 (caught_not_foreign _) Ec))|].
      split; [by apply caught_foreign|]. exists b. split; [done|]. left. by exists w1. }
  destruct Hb as (Hr & He & _). cbn [fst] in Hr, He. destruct v as [v|]; [|by apply (TurnScanned _ _ _ _ b _ None); auto].
  destruct (g && in_fullbit_scope (fullbit_scope cfg) root) eqn:Ef.
  2:{ apply (TurnScanned _ _ _ _ b _ (Some v)); try done. right. by apply andb_false_iff in Ef. }
  apply andb_prop in Ef as [-> Ef].
  pose proof (run_pass_holds (λ _, True) (λ _, True) (λ _ _ _, True) (λ _, True) b root v o ltac:(done) ltac:(done) ltac:(done) ltac:(done)
    ltac:(done) ltac:(done) s1 w1 I) as Hp.
  destruct (_run_fullbit _ _ _ _ _ _ b root v o s1 w1) as [[[o'|e] s2] w2] eqn:Er.
  - destruct Hp as [(n & e & ->) _]. by apply (TurnHashed _ _ _ _ b o v s1 w1); auto.
  - destruct (caught e) eqn:Ec.
    + apply (TurnHashed _ _ _ _ b o v s1 w1); try done. right. exists e. split_and!; try done. by apply caught_not_foreign.
    + split; [by apply caught_foreign|]. exists b. split; [done|]. right. by exists o, v, s1, w1, w2.
Qed.

Lemma run_scopes_turns roots done_ s w :
  let '(r, s', w') := all_turns roots done_ s w in
  match r with
  | Ok l => ∃ os, l = done_ ++ os ∧ turns roots s w os s' w'
  | Err e => ∃ before root g after os s1 w1,
      roots = before ++ (root, g) :: after ∧ turns before s w os s1 w1 ∧ escapes root g s1 w1 e s'
  end.
Proof.
  revert done_ s w. induction roots as [|[root g] roots IH]; intros done_ s w; cbn [run_scopes].
  - exists []. rewrite app_nil_r. split; [done|constructor].
  - unfold mbind, M_bind. pose proof (run_scope_turn root g s w) as Ht.
    destruct (run_scope _ _ _ _ _ _ _ _ _ _ root g s w) as [[[o|e] s1] w1]; cycle 1.
    { exists [], root, g, roots, [], s, w. split_and!; [done|constructor|done]. }
    specialize (IH (done_ ++ [o]) s1 w1). destruct (run_scopes _ _ _ _ _ _ _ _ _ _ roots _ s1 w1) as [[[l|e] s2] w2].
    + destruct IH as (os & -> & Hos). exists (o :: os). rewrite <- app_assoc. split; [done|]. by econstructor.
    + destruct IH as (before & root' & g' & after & os & s3 & w3 & -> & Hos & He).
      exists ((root, g) :: before), root', g', after, (o :: os), s3, w3. split_and!; [done|by econstructor|done].
Qed.

End Outcomes.

(** ** The full-bit pass over the staged candidates *)

(** The candidates of each colliding size. *)
Definition groups_of (host vol prefix : string) (s : StagingStore) : list (list (Candidate Z)) :=
  (λ z, candidate_of <$> candidates_of_size host vol prefix z s) <$> collision_sizes host vol prefix s.

Section Pass.
Context (P : string → Z → option string) (F : string → option string) (host vol prefix : string) (s : StagingStore).

Let cands := iter_candidates host vol prefix s.

(** The candidates of a size with a partial digest. *)
Definition twins (size : Z) (d : string) : list staged_entry :=
  filter (λ e, s_size_logical e = size ∧ P (s_path e) size = Some d) (iter_candidates host vol prefix s).

(** What the pass of run [run] makes of a candidate. *)
Definition pass_row (run : Z) (e : staged_entry) : staged_entry :=
  match P (s_path e) (s_size_logical e), F (s_path e) with
  | Some d, Some f =>
      if (0 <? s_size_logical e)%Z && (2 <=? length (twins (s_size_logical e) d)) then hash_row d f run e else e
  | _, _ => e
  end.

Lemma elem_of_collision_sizes z :
  z ∈ collision_sizes host vol prefix s ↔ (0 < z)%Z ∧ 2 ≤ length (filter (λ e, s_size_logical e = z) cands).
Proof.
  unfold collision_sizes. fold cands. rewrite stable_sort_Permutation, list_elem_of_filter, elem_of_remove_dups.
  set (sizes := s_size_logical <$> _).
  assert ((0 < z)%Z → length (filter (λ y, y = z) sizes) = length (filter (λ e, s_size_logical e = z) cands)) as Hl.
  { intros Hz. unfold sizes. clear sizes. induction cands as [|e l IH]; [done|]. rewrite !filter_cons.
    destruct (decide (s_size_logical e = z)) as [E|E].
    - rewrite decide_True by (apply Is_true_true; lia). rewrite fmap_cons, filter_cons, decide_True by done. cbn. by rewrite IH.
    - case_decide; [|done]. by rewrite fmap_cons, filter_cons, decide_False. }
  split.
  - intros [H Hin]. assert (0 < z)%Z as Hz; [|by rewrite <- Hl].
    unfold sizes in Hin. apply list_elem_of_fmap in Hin as (e & -> & [He%Is_true_true _]%list_elem_of_filter). lia.
  - intros [Hz H]. rewrite <- Hl in H by done. split; [done|].
    destruct (filter (λ y, y = z) sizes) as [|y l] eqn:E; [by cbn in H; lia|].
    assert (y ∈ filter (λ y, y = z) sizes) as [-> Hy]%list_elem_of_filter by (rewrite E; left). done.
Qed.

Lemma length_filter_fmap {A B} (g : A → B) (Q : B → Prop) `{!∀ x, Decision (Q x)} (l : list A) :
  length (filter Q (g <$> l)) = length (filter (λ x, Q (g x)) l).
Proof.
  induction l as [|x l IH]; [done|]. rewrite fmap_cons, !filter_cons. by destruct (decide (Q (g x))); cbn; rewrite IH.
Qed.

(** The candidates that a group shares a partial digest of: those with a twin. *)
Lemma elem_of_shared c d :
  (∃ g, g ∈ groups_of host vol prefix s ∧ (d, c) ∈ colliders P g) ↔
  ∃ e, e ∈ cands ∧ c = candidate_of e ∧ P (s_path e) (s_size_logical e) = Some d ∧
       (0 < s_size_logical e)%Z ∧ 2 ≤ length (twins (s_size_logical e) d).
Proof.
  unfold groups_of. set (sized := λ z, filter (λ e, s_size_logical e = z) cands).
  assert (∀ z e, e ∈ cands → s_size_logical e = z → group_size (candidate_of <$> sized z) = z) as Hgs.
  { intros z e He Hz. assert (e ∈ sized z) as Hin by by apply list_elem_of_filter.
    destruct (sized z) as [|y l] eqn:E; [by apply elem_of_nil in Hin|].
    assert (y ∈ sized z) as [Hy _]%list_elem_of_filter by (rewrite E; left). exact Hy. }
  assert (∀ z, candidate_of <$> candidates_of_size host vol prefix z s = candidate_of <$> sized z) as Hcs.
  { intros z. unfold candidates_of_size. fold cands. f_equal. apply list_filter_iff. intros e. rewrite Is_true_true. lia. }
  assert (∀ z, length (filter (λ c', P (c_path c') z = Some d) (candidate_of <$> sized z)) = length (twins z d)) as Hlen.
  { intros z. rewrite length_filter_fmap. unfold sized, twins. fold cands. rewrite list_filter_filter.
    erewrite list_filter_iff; [done|]. intros y. cbn. naive_solver. }
  split.
  - intros (g & (z & -> & [Hz _]%elem_of_collision_sizes)%list_elem_of_fmap & Hx). rewrite Hcs in Hx.
    apply elem_of_colliders in Hx as ((e & -> & [Ez He]%list_elem_of_filter)%list_elem_of_fmap & Hp & Hl).
    rewrite (Hgs z e He Ez) in Hp, Hl. rewrite Hlen in Hl. exists e. by rewrite Ez.
  - intros (e & He & -> & Hp & Hz & Hl). set (z := s_size_logical e) in *. eexists. split.
    + apply list_elem_of_fmap. exists z. split; [done|]. apply elem_of_collision_sizes. split; [done|].
      etransitivity; [exact Hl|]. unfold twins. fold cands.
      rewrite (list_filter_iff _ (λ y, P (s_path y) z = Some d ∧ s_size_logical y = z)) by naive_solver.
      rewrite <- list_filter_filter. apply length_filter.
    + rewrite Hcs. apply elem_of_colliders. rewrite (Hgs z e He eq_refl), Hlen. split_and!; [|done..].
      apply list_elem_of_fmap_2. by apply list_elem_of_filter.
Qed.

Lemma elem_of_staged c d f :
  (c, d, f) ∈ groups_of host vol prefix s ≫= group_staged P F ↔
  ∃ e, e ∈ cands ∧ c = candidate_of e ∧ P (s_path e) (s_size_logical e) = Some d ∧ F (s_path e) = Some f ∧
       (0 < s_size_logical e)%Z ∧ 2 ≤ length (twins (s_size_logical e) d).
Proof.
  rewrite list_elem_of_bind. unfold group_staged. setoid_rewrite list_elem_of_omap. split.
  - intros (g & ([d' c'] & Hx & Hf) & Hg). cbn [fst snd] in Hf. destruct (F (c_path c')) as [f'|] eqn:EF; [|done].
    injection Hf as -> -> ->. destruct (proj1 (elem_of_shared c d)) as (e & He & -> & Hp & Hz & Hl); [by exists g|].
    exists e. by split_and!.
  - intros (e & He & -> & Hp & Hf & Hz & Hl).
    destruct (proj2 (elem_of_shared (candidate_of e) d)) as (g & Hg & Hx); [by exists e|].
    exists g. split; [|done]. exists (d, candidate_of e). split; [done|]. cbn. by rewrite Hf.
Qed.

Lemma elem_of_reads p :
  RFull p ∈ groups_of host vol prefix s ≫= group_reads P ↔
  ∃ e d, e ∈ cands ∧ p = s_path e ∧ P p (s_size_logical e) = Some d ∧
         (0 < s_size_logical e)%Z ∧ 2 ≤ length (twins (s_size_logical e) d).
Proof.
  rewrite list_elem_of_bind. unfold group_reads. split.
  - intros (g & Hin & Hg). destruct (length g <? 2); [by apply elem_of_nil in Hin|].
    apply elem_of_app in Hin as [(c & [=] & _)%list_elem_of_fmap|([d c] & [= ->] & Hx)%list_elem_of_fmap].
    destruct (proj1 (elem_of_shared c d)) as (e & He & -> & ?); [by exists g|]. by exists e, d.
  - intros (e & d & He & -> & Hp & Hz & Hl).
    destruct (proj2 (elem_of_shared (candidate_of e) d)) as (g & Hg & Hx); [by exists e|]. exists g. split; [|done].
    unfold colliders in Hx |- *. destruct (length g <? 2); [by apply elem_of_nil in Hx|].
    apply elem_of_app. right. apply list_elem_of_fmap. by exists (d, candidate_of e).
Qed.

(** The hashes staged for one key agree, so the row has them if there are any. *)
Lemma foldl_stage_at run l k d f t :
  (∀ x, x ∈ l → (host, vol, c_dev x.1.1, c_id x.1.1) = k → x.1.2 = d ∧ x.2 = f) →
  at_key entry_key k (entries (foldl (stage_one host vol run) t l)) =
  if existsb (λ x, bool_decide ((host, vol, c_dev x.1.1, c_id x.1.1) = k)) l
  then hash_row d f run <$> at_key entry_key k (entries t) else at_key entry_key k (entries t).
Proof.
  revert t. induction l as [|x l IH]; intros t Hl; [done|]. cbn [foldl existsb].
  rewrite IH by (intros y Hy; apply Hl; by right). unfold stage_one, stage_hash, set_entries. cbn [entries].
  rewrite at_key_update_where by done. destruct (at_key entry_key k (entries t)) as [e|] eqn:E;
    [|by destruct (existsb _ l), (bool_decide _)].
  apply at_key_some in E as [_ <-]. cbn [fmap option_fmap option_map].
  rewrite (bool_decide_ext (entry_key e = _) ((host, vol, c_dev x.1.1, c_id x.1.1) = entry_key e)) by done.
  destruct (bool_decide ((host, vol, c_dev x.1.1, c_id x.1.1) = entry_key e)) eqn:Ek; cbn [orb]; [|done].
  apply bool_decide_eq_true in Ek. destruct (Hl x (list_elem_of_here _ _) Ek) as [-> ->]. by destruct (existsb _ l).
Qed.

Lemma candidate_key e : e ∈ cands → (host, vol, c_dev (candidate_of e), c_id (candidate_of e)) = entry_key e ∧ e ∈ entries s.
Proof.
  intros [Hc He]%list_elem_of_filter. apply Is_true_true in Hc. rewrite !andb_true_iff, !bool_decide_eq_true in Hc.
  destruct Hc as [[[[<- <-] _] _] _]. done.
Qed.

Lemma staged_at run e :
  unique entry_key (entries s) → e ∈ entries s →
  let s' := foldl (stage_one host vol run) s (groups_of host vol prefix s ≫= group_staged P F) in
  (e ∈ cands → at_key entry_key (entry_key e) (entries s') = Some (pass_row run e)) ∧
  (e ∉ cands → at_key entry_key (entry_key e) (entries s') = Some e).
Proof.
  intros Hu He s'. set (l := groups_of host vol prefix s ≫= group_staged P F) in *.
  assert (∀ c d f, (c, d, f) ∈ l → (host, vol, c_dev c, c_id c) = entry_key e →
            e ∈ cands ∧ P (s_path e) (s_size_logical e) = Some d ∧ F (s_path e) = Some f ∧
            (0 <? s_size_logical e)%Z && (2 <=? length (twins (s_size_logical e) d)) = true) as Hst.
  { intros c d f (e' & He' & -> & Hp & Hf & Hz & Hl)%elem_of_staged Hk. destruct (candidate_key e' He') as [Hk' Hin].
    assert (e' = e) as <-.
    2: { split; [done|]. split; [done|]. split; [done|]. apply andb_true_intro. split; [by apply Z.ltb_lt|by apply Nat.leb_le]. }
    pose proof (at_key_elem entry_key _ _ Hu He) as H1. rewrite <- Hk, Hk', (at_key_elem entry_key _ _ Hu Hin) in H1. congruence. }
  set (hit := existsb (λ x, bool_decide ((host, vol, c_dev x.1.1, c_id x.1.1) = entry_key e)) l).
  assert (hit = true → ∃ c d f, (c, d, f) ∈ l ∧ (host, vol, c_dev c, c_id c) = entry_key e) as Hhit.
  { intros ([[c d] f] & Hx%list_elem_of_In & Hk%bool_decide_eq_true)%existsb_exists. by exists c, d, f. }
  assert (hit = false → at_key entry_key (entry_key e) (entries s') = Some e) as Hmiss.
  { intros Hh. unfold s'. rewrite (foldl_stage_at run l _ "" ""); [fold hit; by rewrite Hh, (at_key_elem entry_key)|].
    intros x Hx Hk. assert (hit = true) as Hc; [|congruence]. apply existsb_exists. exists x.
    split; [by apply list_elem_of_In|by apply bool_decide_eq_true]. }
  split; intros Hc.
  - destruct hit eqn:Hh; cycle 1.
    + rewrite Hmiss by done. f_equal. unfold pass_row.
      destruct (P (s_path e) (s_size_logical e)) as [d|] eqn:EP; [|done]. destruct (F (s_path e)) as [f|] eqn:EF; [|done].
      destruct (_ && _) eqn:Et; [|done]. exfalso. apply andb_prop in Et as [Et1%Z.ltb_lt Et2%Nat.leb_le]. apply not_true_iff_false in Hh. apply Hh, existsb_exists.
      exists (candidate_of e, d, f). destruct (candidate_key e Hc) as [Hk _]. split; [|by apply bool_decide_eq_true].
      apply list_elem_of_In, elem_of_staged. exists e. by split_and!.
    + destruct (Hhit eq_refl) as (c & d & f & Hx & Hk). destruct (Hst c d f Hx Hk) as (_ & HP & HF & Ht).
      unfold s'. rewrite (foldl_stage_at run l _ d f).
      * fold hit. rewrite Hh, (at_key_elem entry_key) by done. unfold pass_row. by rewrite HP, HF, Ht.
      * intros [[c' d'] f'] Hx' Hk'. destruct (Hst c' d' f' Hx' Hk') as (_ & HP' & HF' & _). cbn. split; congruence.
  - apply Hmiss. destruct hit eqn:Hh; [|done]. destruct (Hhit eq_refl) as (c & d & f & Hx & Hk).
    by destruct (Hst c d f Hx Hk).
Qed.

(** Hashes change no path and no size. *)
Lemma stage_candidates h v p z run (l : list (Candidate Z * string * string)) t :
  candidate_of <$> candidates_of_size h v p z (foldl (stage_one host vol run) t l) = candidate_of <$> candidates_of_size h v p z t.
Proof.
  revert t. induction l as [|x l IH]; intros t; [done|]. cbn [foldl]. rewrite IH. unfold stage_one, stage_hash, candidates_of_size, iter_candidates.
  cbn [entries set_entries]. unfold update_where. induction (entries t) as [|e es IHe]; [done|]. rewrite fmap_cons.
  set (e' := if bool_decide (entry_key e = _) then hash_row _ _ _ e else e).
  assert (candidate_of e' = candidate_of e ∧ s_host e' = s_host e ∧ s_volume e' = s_volume e ∧ s_is_dir e' = s_is_dir e ∧
    s_is_symlink e' = s_is_symlink e ∧ s_path e' = s_path e ∧ s_size_logical e' = s_size_logical e) as (Ec & E1 & E2 & E3 & E4 & E5 & E6)
    by (unfold e'; by case_bool_decide).
  rewrite (filter_cons _ e'), (filter_cons _ e), E1, E2, E3, E4, E5.
  destruct (bool_decide (s_host e = h) && bool_decide (s_volume e = v) && negb (s_is_dir e) && negb (s_is_symlink e) && under_scope p (s_path e)).
  - rewrite !(decide_True (P := Is_true true)) by done. rewrite (filter_cons _ e'), (filter_cons _ e), E6.
    destruct (s_size_logical e =? z)%Z.
    + rewrite !(decide_True (P := Is_true true)) by done. by rewrite !fmap_cons, IHe, Ec.
    + rewrite !(decide_False (P := Is_true false)) by (intros []). exact IHe.
  - rewrite !(decide_False (P := Is_true false)) by (intros []). exact IHe.
Qed.

(** With no failure the streamed groups are those of the start. *)
Lemma stream_quiet (cfg : AgentConfig) run sizes r t (log : list file_read) :
  host_id cfg = host → (∀ z, candidate_of <$> candidates_of_size host vol prefix z t = candidate_of <$> candidates_of_size host vol prefix z s) →
  foldM (one_group (λ w : list file_read, (None, w)) host (partial_ok (read_partial P)) (full_ok (read_full F)) vol run) r
    (_size_groups (λ w : list file_read, (None, w)) cfg vol prefix sizes) t log =
  let '(r, t, log) := foldl (scan_group (read_partial P) (read_full F) host vol run) (r, t, log)
                        ((λ z, candidate_of <$> candidates_of_size host vol prefix z s) <$> sizes) in (Ok r, t, log).
Proof.
  intros Hh. revert r t log. induction sizes as [|z sizes IH]; intros r t log Ht; [done|]. cbn [_size_groups fmap list_fmap foldM foldl].
  unfold mbind, M_bind. rewrite (one_group_quiet _ (λ _, eq_refl) host (read_partial P) (read_full F) vol run r _
    (candidate_of <$> candidates_of_size host vol prefix z s)) by (unfold query, call; cbn; by rewrite Hh, Ht).
  set (g := candidate_of <$> candidates_of_size host vol prefix z s). unfold scan_group at 1 3.
  destruct (funnel_group_log P F host vol run (count_candidates (length g) r) t log g) as (n & ->).
  destruct (add_plan F host vol run (colliders P g) (count_partial n (count_candidates (length g) r)) t) as (r1 & -> & _).
  apply IH. intros z'. by rewrite stage_candidates.
Qed.
End Pass.


(** The pass over a scope whose files keep their content, with a store that does not fail: a candidate gets both digests exactly if
    another candidate has its size and its partial digest (and it could be read), every other row stays as it is, and the content is
    read in full of such candidates only. *)
Theorem fullbit_pass_hashes_twins P F now dump cfg operator vi wk root volume o s :
  unique entry_key (entries s) →
  let host := host_id cfg in
  let vol := vi_mountpoint volume in
  let cands := iter_candidates host vol root s in
  let '(r, s', log) := _run_fullbit (λ log, (None, log)) (λ log, (now log, log)) (λ log, (false, log)) dump cfg operator
                          (mk_backend vi wk (partial_ok (read_partial P)) (full_ok (read_full F))) root volume o s [] in
  (∃ n, r = Ok (set_fullbit n (fullbit_error o) o)) ∧
  (∀ e, e ∈ cands → at_key entry_key (entry_key e) (entries s') = Some (pass_row P F host vol root s (next_run s) e)) ∧
  (∀ e, e ∈ entries s → e ∉ cands → at_key entry_key (entry_key e) (entries s') = Some e) ∧
  (∀ p, RFull p ∈ log ↔ ∃ e d, e ∈ cands ∧ p = s_path e ∧ P p (s_size_logical e) = Some d ∧
          (0 < s_size_logical e)%Z ∧ 2 ≤ length (twins P host vol root s (s_size_logical e) d)).
Proof.
  intros Hu host vol cands. unfold _run_fullbit, mbind, M_bind, query, call, look, pass_outcome. cbn [partial_hash full_hash].
  set (ack := _fullbit_ack operator root _ volume). fold host vol.
  destruct (scan_grouped_runs P F dump host root (groups_of host vol root s) vol ack (Some volume) now s eq_refl)
    as (r & s' & Hr & _ & _ & _ & He).
  assert (fullbit_scan (λ log, (None, log)) (λ log, (now log, log)) dump host (partial_ok (read_partial P)) (full_ok (read_full F))
    (λ log, (false, log)) root (_size_groups (λ log, (None, log)) cfg vol root (collision_sizes host vol root s)) vol (Some ack)
    (Some volume) s [] = (Ok r, s', groups_of host vol root s ≫= group_reads P)) as ->.
  { unfold fullbit_scan. unfold scan_grouped in Hr. destruct (negb _); [done|]. unfold mbind, M_bind, look, exec, call. cbv beta iota zeta in Hr |- *.
    destruct (start_run host vol FULLBIT root _ _ _ s) as [run s1] eqn:Es1. rewrite (stream_quiet P F host vol root s cfg run).
    - change ((λ z, candidate_of <$> candidates_of_size host vol root z s) <$> collision_sizes host vol root s) with (groups_of host vol root s).
      destruct (foldl _ _ _) as [[r1 t1] log1]. cbn. exact Hr.
    - done.
    - unfold start_run in Es1. injection Es1 as <- <-. done. }
  assert (∀ k, at_key entry_key k (entries s') = at_key entry_key k (entries
    (foldl (stage_one host vol (next_run s)) s (groups_of host vol root s ≫= group_staged P F)))) as Hat by (by rewrite He).
  split_and!.
  - by eexists.
  - intros e Hc. rewrite Hat. destruct (candidate_key host vol root s e Hc) as [_ Hin].
    by apply (staged_at P F host vol root s (next_run s) e Hu Hin).
  - intros e Hin Hc. rewrite Hat. by apply (staged_at P F host vol root s (next_run s) e Hu Hin).
  - intros p. apply (elem_of_reads P F).
Qed.

(** The protocol of one scope under the default feed, for a volume whose description is stable: the cycle
    is incremental exactly if it is not forced, the volume is not ZFS, and a metadata scan of it has finished;
    a cycle that returns leaves a finished metadata scan, one that raises leaves none that was not there. *)
Theorem first_scan_is_full {W} (sqlite : W → option string * W) (clock : W → Z * W) dump cfg operator batch_size force
    (b : StorageBackend W) root v s w :
  (∀ w, (volume_info b root w).1 = Ok v) →
  let baselined := has_baseline_run (host_id cfg) (vi_mountpoint v) in
  let '(r, s', _) := _scan_one_scope sqlite clock dump cfg operator batch_size (_default_feed_for sqlite) force b root s w in
  match r with
  | Ok (_, full) =>
      (full = None ↔ force = false ∧ baselined s = true ∧ vi_fs_type v ≠ "zfs") ∧ baselined s' = true
  | Err _ => ∀ h m, has_baseline_run h m s' = has_baseline_run h m s
  end.
Proof.
  intros Hv baselined.
  pose proof (scan_one_baseline sqlite clock dump cfg operator batch_size (_default_feed_for sqlite) force b root (λ v', v' = v) s
    ltac:(intros w' v' H; rewrite Hv in H; congruence) s w (λ _ _, eq_refl)) as Hb.
  destruct (_scan_one_scope _ _ _ _ _ _ _ _ b root s w) as [[[[o full]|e] s'] w'] eqn:Es; [|exact Hb].
  destruct Hb as (_ & _ & v' & -> & Hb). split; [|exact Hb]. clear Hb. revert Es. unfold _scan_one_scope, mbind, M_bind, ask.
  pose proof (Hv w) as Hw. destruct (volume_info b root w) as [v1 w1]. cbn [fst] in Hw. subst v1. unfold look. destruct (clock w1) as [t w2].
  assert (vi_mountpoint (relabel cfg root v) = vi_mountpoint v ∧ vi_fs_type (relabel cfg root v) = vi_fs_type v) as [Hm Hf].
  { unfold relabel. destruct (vi_display_name v); [done|]. destruct (dict_get _ _); [|done]. by case_bool_decide. }
  unfold select_feed, query, call, built_feed, _default_feed_for, mbind, M_bind. rewrite Hm, Hf. subst baselined. cbv beta zeta.
  assert (∀ ack s w, full_scan sqlite clock dump cfg batch_size b root ack s w = (Ok (o, full), s', w') → full ≠ None) as Hfull.
  { intros ack s2 w4. unfold full_scan, mbind, M_bind. destruct (metadata_scan _ _ _ _ _ _ _ _ _ _ _) as [[[r|e] s3] w5]; [|done]. by intros [= _ <- _ _]. }
  assert (∀ feed ack s w, incremental_cycle sqlite clock dump cfg b root feed ack s w = (Ok (o, full), s', w') → full = None) as Hinc.
  { intros feed ack s2 w4. unfold incremental_cycle, mbind, M_bind. destruct (incremental _ _ _ _ _ _ _ _ _ _) as [[[r|e] s3] w5]; [|done]. by intros [= _ <- _ _]. }
  unfold mret, M_ret. destruct force; [intros H%Hfull; naive_solver|]. destruct (sqlite w2) as [[m|] w3]; [done|].
  destruct (has_baseline_run (host_id cfg) (vi_mountpoint v) s) eqn:Ebase; [|cbv beta iota zeta; intros H%Hfull; naive_solver].
  cbv beta iota zeta. case_bool_decide as Ez; [intros H%Hfull; naive_solver|]. destruct (sqlite w3) as [[m|] w4]; [done|]. intros H%Hinc. naive_solver.
Qed.

(** A scan-now run visits its one root only, walks it in full, and reads content only if that was asked for
    and the root is in the host's own full-bit scope, whatever the rest of the configuration. *)
Theorem scan_now_narrows {W E} (sqlite : W → option string * W) (clock : W → Z * W) resync_blocks dump cfg root mode operator batch_size
    (feed_factory : FeedFactory) resolve (drain : StagingStore → W → result E Z * StagingStore * W) finalize s w :
  let '(r, s', _) := scan_one_root_now sqlite clock resync_blocks dump cfg root mode operator batch_size feed_factory
                       resolve drain finalize s w in
  match r with
  | Ok x =>
      o_root <$> scopes x = [root] ∧
      ∃ s1 w1 w2, drain s1 w1 = (Ok (pushed x), s', w2) ∧
        ∀ y, y ∈ runs s1 → run_core y ∈ run_core <$> runs s ∨
          run_root y = root ∧ run_host y = host_id cfg ∧
          (run_mode y = FULLBIT → mode = fullbit ∧ in_fullbit_scope (fullbit_scope cfg) root = true)
  | Err _ => True
  end.
Proof.
  unfold scan_one_root_now, run_agent. destruct (clock w) as [t w0]. destruct (sqlite w0) as [[m|] w0']; [done|]. set (cfg' := scoped cfg root mode).
  pose proof (run_scopes_confined sqlite clock resync_blocks dump cfg' operator batch_size feed_factory true resolve (roots_of cfg') [] s
    ltac:(done) s w0' (confined_refl _ _ _ _)) as H.
  destruct (run_scopes _ _ _ _ _ _ _ _ _ _ _ [] s w0') as [[[l|e] s1] w1]; [|done].
  destruct H as [Hl (Hruns & _)]. destruct (drain s1 w1) as [[[n|e] s2] w2] eqn:Ed; [|done].
  destruct (finalize w2) as [f w3]. destruct (clock w3) as [t' w4]. cbn [scopes pushed]. split.
  - exact Hl.
  - exists s1, w1, w2. split; [exact Ed|]. intros y Hy. destruct (Hruns y Hy) as [?|(Hh & Hr & Hf & _)]; [by left|right].
    assert (run_root y = root) as Hroot.
    { destruct Hr as [[Hr%list_elem_of_singleton _]|[Hr%elem_of_nil _]]; [exact Hr|done]. }
    split; [exact Hroot|]. split; [exact Hh|]. intros Hm. destruct (Hf Hm) as [_ Hin]. unfold cfg', scoped in Hin.
    cbn [fullbit_scope] in Hin. destruct mode; [done|]. split; [done|]. by destruct (in_fullbit_scope (fullbit_scope cfg) root).
Qed.

(** ** A small host *)

Definition demo_cfg : AgentConfig := mk_config "h" ["/v"] ["/v"] [] false [("/v", "the label")] [].
Definition demo_fs : list FsEntry := [demo_file "/v/a" 1 9; demo_file "/v/b" 2 9; demo_file "/v/c" 3 9].
Definition demo_backend : StorageBackend (list file_read) :=
  mk_backend (λ _ w, (Ok demo_volume, w)) (λ _ _ _ w, (demo_fs, None, w))
    (partial_ok (read_partial (λ p _, Some (if bool_decide (p = "/v/c") then "q" else "p")))) (full_ok (read_full (λ p, Some "f"))).
Definition demo_sqlite (w : list file_read) : option string * list file_read := (None, w).
Definition demo_clock (w : list file_read) : Z * list file_read := (1%Z, w).
Definition demo_scan (s : StagingStore) :=
  _scan_one_scope demo_sqlite demo_clock demo_dump demo_cfg "op" 2 (_default_feed_for demo_sqlite) false demo_backend "/v" s [].
Definition demo_staged : StagingStore := (demo_scan empty_store).1.2.
Definition demo_outcome : ScopeOutcome := mk_outcome "/v" 3 3 None 0 None.

(** The first scan is full, the second is not. *)
Lemma first_scan_is_full_witness :
  has_baseline_run "h" "/v" demo_staged = true ∧
  match (demo_scan demo_staged).1.1 with Ok (_, full) => full = None | Err _ => False end.
Proof.
  pose proof (first_scan_is_full demo_sqlite demo_clock demo_dump demo_cfg "op" 2 false demo_backend "/v" demo_volume demo_staged []
                (λ _, eq_refl)) as H.
  split; [by_compute|]. cbn zeta in H. unfold demo_scan.
  assert (is_ok (_scan_one_scope demo_sqlite demo_clock demo_dump demo_cfg "op" 2 (_default_feed_for demo_sqlite) false demo_backend "/v" demo_staged []).1.1 = true)
    as Hok by by_compute.
  destruct (_scan_one_scope _ _ _ _ _ _ _ _ _ _ demo_staged []) as [[[[o full]|e] s'] w']; [|done].
  apply (proj2 (proj1 H)). split_and!; [done|by_compute|done].
Defined.

Lemma fullbit_pass_hashes_twins_witness :
  let P := λ p (_ : Z), Some (if bool_decide (p = "/v/c") then "q" else "p") in
  let e := mk_staged "h" "/v" 5 1 "/v/a" "/v/a" false false 10 10 9 9 0 0 "{}" None None 1 false in
  pass_row P (λ _, Some "f") "h" "/v" "/v" demo_staged 2 e = hash_row "p" "f" 2 e ∧
  at_key entry_key (entry_key e)
    (entries (_run_fullbit demo_sqlite demo_clock (λ w, (false, w)) demo_dump demo_cfg "op" demo_backend "/v" demo_volume demo_outcome demo_staged []).1.2)
  = Some (hash_row "p" "f" 2 e).
Proof.
  intros P e. split; [by_compute|].
  pose proof (fullbit_pass_hashes_twins P (λ _, Some "f") (λ _, 1%Z) demo_dump demo_cfg "op" (λ _ w, (Ok demo_volume, w))
    (λ _ _ _ w, (demo_fs, None, w)) "/v" demo_volume demo_outcome demo_staged ltac:(unfold unique; by_compute)) as H.
  cbn zeta in H. unfold demo_backend, demo_clock, demo_sqlite. fold P.
  destruct (_run_fullbit _ _ _ _ _ _ _ _ _ _ demo_staged []) as [[o' s'] log]. destruct H as (_ & H & _).
  refine (eq_trans (H e _) _).
  - vm_compute. left.
  - by_compute.
Defined.

(** A scan root that is a symbolic link: the walk stages the paths of its target, the pass looks below the
    link, so it finds no candidate. *)
Lemma linked_root_not_hashed :
  let s := (stage_batch 1 "h" "/mnt/x" [demo_file "/mnt/x/a" 1 9; demo_file "/mnt/x/b" 2 9] empty_store).2 in
  groups_of "h" "/mnt/x" "/mnt/x" s ≠ [] ∧ groups_of "h" "/mnt/x" "/data" s = [].
Proof. vm_compute. split; [discriminate|reflexivity]. Qed.

(** The configured label is put on a description that is then dropped. *)
Lemma label_not_staged :
  vi_display_name (relabel demo_cfg "/v" demo_volume) = Some "the label" ∧
  (λ r, vi_display_name <$> volume_json r) <$> runs demo_staged = [Some None].
Proof. vm_compute. split; reflexivity. Qed.

(** Three scopes, a world that counts the calls of the store, and an SQLite that fails at the second call of the second scan. *)
Definition three_cfg : AgentConfig := mk_config "h" ["/v"; "/w"; "/x"] [] [] false [] [].
Definition three_backend : StorageBackend nat :=
  mk_backend (λ root w, (Ok (mk_vinfo root None "ext4" "sda" "sata" None None 10 5 5), w)) (λ root _ _ w, ([demo_file (root +:+ "/a") 1 9], None, w))
    (λ _ _ w, (Ok "p", w)) (λ _ w, (Ok "f", w)).
Definition failing_at (n : nat) (w : nat) : option string * nat := (if w =? n then Some "disk I/O error" else None, S w).
Definition three_run (n : nat) :=
  run_agent (failing_at n) (λ w, (1%Z, w)) (λ w, (false, w)) demo_dump three_cfg "op" 2 (_default_feed_for (failing_at n)) true
    (λ _, Some three_backend) (λ s w, (Ok (Z.of_nat (length (entries s))) : result string Z, s, w)) (λ w, (Some 0%Z, w)) empty_store 0.


(** A run whose store does not open scans nothing. *)
Lemma store_that_does_not_open : (three_run 0).1.1 = Err (StoreRaised "disk I/O error").
Proof. reflexivity. Qed.
