(* ===== verification/DedupStore.v ===== *)
(** The duplicate reports of the core ([src/fathom/core/dedup_service.py], [core/provider_dedup.py]).

    A run reads the catalogue and replaces the report rows of its scope; it is one transaction.  A
    query without ORDER BY returns its rows in id order. *)

From S2P Require Import Prelude PyStr Json PyDict Catalogue Rbac.

(** ** [core/dedup_service.py] *)

Definition _NETWORK_FS : list string :=
  ["nfs"; "nfs4"; "nfsd"; "cifs"; "smbfs"; "smb"; "smb2"; "smb3"; "sshfs"; "fuse.sshfs";
   "fuse.rclone"; "9p"; "afs"; "glusterfs"; "ceph"; "fuse.cephfs"].

Definition is_network_fs (fs_type : string) : bool := bool_decide (lower (strip fs_type) ∈ _NETWORK_FS).

Record EntryRef := mk_ref {
  entry_id : Z; r_host_id : Z; r_volume_id : Z; r_path : string; size : Z; r_mtime : Z; r_ctime : Z;
  r_full_hash : string; fs_type : string;
}.

(** The two id sets are given by their elements in ascending order ([sorted] is the identity). *)
Record DedupScope := mk_dscope {
  volume_ids : list Z; path_prefix : option string; path_prefix_volume_id : option Z;
  preferred_volume_ids : list Z; preferred_path_prefixes : list string;
}.

Definition json_opt {A} (f : A → json) (o : option A) : json := match o with Some x => f x | None => JNull end.

Definition as_json (s : DedupScope) : json :=
  JObj [("volume_ids", JList (JInt <$> volume_ids s)); ("path_prefix", json_opt JStr (path_prefix s));
        ("path_prefix_volume_id", json_opt JInt (path_prefix_volume_id s));
        ("preferred_volume_ids", JList (JInt <$> preferred_volume_ids s));
        ("preferred_path_prefixes", JList (JStr <$> preferred_path_prefixes s))].

Record KeeperChoice := mk_choice { choice_entry_id : Z; choice_reason : string }.

Definition _is_preferred (m : EntryRef) (s : DedupScope) : bool :=
  bool_decide (r_volume_id m ∈ preferred_volume_ids s)
  || existsb (λ prefix, startswith prefix (r_path m)) (preferred_path_prefixes s).

Definition _oldest_ts (m : EntryRef) : Z := Z.min (r_mtime m) (r_ctime m).
Definition native (m : EntryRef) : bool := negb (is_network_fs (fs_type m)).

(** [(path.count("/"), len(path), path)]. *)
Definition shortest_key (m : EntryRef) : Z * (Z * string) :=
  (Z.of_nat (count_char "/" (r_path m)), (Z.of_nat (String.length (r_path m)), r_path m)).

(** [min] of an empty sequence raises; the callers pass at least two members. *)
Definition rank_oldest_then_preferred_then_shortest (members : list EntryRef) (s : DedupScope)
    : result string KeeperChoice :=
  let natives := filter (λ m, native m) members in
  let candidates := if bool_decide (natives = []) then members else natives in
  match candidates with
  | [] => Err "ValueError"
  | c :: cs =>
      let oldest_ts := foldl Z.min (_oldest_ts c) (_oldest_ts <$> cs) in
      let oldest := filter (λ m, _oldest_ts m = oldest_ts) candidates in
      match oldest with
      | [m] => Ok (mk_choice (entry_id m) "oldest copy")
      | _ =>
          let preferred := filter (λ m, _is_preferred m s) oldest in
          let pool := if bool_decide (preferred = []) then oldest else preferred in
          let reason := if bool_decide (preferred = []) then "oldest copy"
                        else "oldest copy on preferred volume/path" in
          match pool with
          | [] => Err "ValueError"
          | p :: ps =>
              let chosen := min_by (lex_le (lex_le str_le)) shortest_key p ps in
              let reason := if 1 <? length pool
                            then if bool_decide (preferred = []) then "shortest path"
                                 else reason +:+ ", shortest path"
                            else reason in
              Ok (mk_choice (entry_id chosen) reason)
          end
      end
  end.

(** ** The report tables *)

Record DupGroup := mk_dup_group {
  full_hash : string; g_size : Z; member_count : Z; reclaimable_bytes : Z; g_scope : json;
  job_id : option string; suggested_keeper_entry_id : Z; suggested_keeper_reason : string;
}.

Record DupMember := mk_member {
  m_entry_id : Z; m_host_id : Z; m_volume_id : Z; m_path : string; is_mount_alias : bool;
}.

(** Groups by id, members by the id of their group. *)
Record dedup_db := mk_ddb {
  volumes : list Volume; entries : list FsEntryRow;
  dup_groups : list (Z * DupGroup); dup_members : list (Z * DupMember); next_group : Z;
}.

Definition _clear_scope (s : DedupScope) (d : dedup_db) : dedup_db :=
  let prior := (filter (λ g, g_scope g.2 = as_json s) (dup_groups d)).*1 in
  mk_ddb (volumes d) (entries d) (filter (λ g, g_scope g.2 ≠ as_json s) (dup_groups d))
    (filter (λ m, m.1 ∉ prior) (dup_members d)) (next_group d).

(** The outer join with [volume]. *)
Definition volume_fs_type (d : dedup_db) (vid : Z) : string :=
  match filter (λ v, v_id v = vid) (volumes d) with v :: _ => v_fs_type v | [] => "" end.

Definition in_dedup_scope (s : DedupScope) (e : FsEntryRow) : bool :=
  (bool_decide (volume_ids s = []) || bool_decide (volume_id e ∈ volume_ids s))
  && match path_prefix s, path_prefix_volume_id s with
     | Some p, Some v =>
         bool_decide (volume_id e = v) && (bool_decide (path e = p) || like (subtree_like p) (path e))
     | _, _ => true
     end.

Definition _load_hashed_entries (s : DedupScope) (d : dedup_db) : list EntryRef :=
  omap (λ e, h ← Catalogue.full_hash e;
             if present e && negb (is_dir e) && in_dedup_scope s e
             then Some (mk_ref (e_id e) (host_id e) (volume_id e) (path e) (size_logical e) (mtime e)
                          (ctime e) h (volume_fs_type d (volume_id e)))
             else None) (entries d).

Definition KeeperRule : Type := list EntryRef → DedupScope → result string KeeperChoice.

Section Service.
Context (s : DedupScope) (keeper : KeeperRule) (job : option string).

(** One round of the loop over [by_hash]: the group and its members, if there are two. *)
Definition new_group (x : (Z * string) * list EntryRef) : result string (option (DupGroup * list DupMember)) :=
  let '((sz, fh), members) := x in
  if length members <? 2 then Ok None else
  let natives := filter (λ m, native m) members in
  choice ← keeper members s;
  Ok (Some (mk_dup_group fh sz (Z.of_nat (length members))
              (sz * Z.max 0 (Z.of_nat (length natives) - 1)) (as_json s) job
              (choice_entry_id choice) (choice_reason choice),
            (λ m, mk_member (entry_id m) (r_host_id m) (r_volume_id m) (r_path m)
                    (is_network_fs (fs_type m))) <$> members)).

(** [session.flush()] of one pending group: the row gets its id, then its members. *)
Definition insert_group (d : dedup_db) (g : DupGroup * list DupMember) : dedup_db :=
  mk_ddb (volumes d) (entries d) (dup_groups d ++ [(next_group d, g.1)])
    (dup_members d ++ ((λ m, (next_group d, m)) <$> g.2)) (next_group d + 1).

(** Flush a batch; the rows that are then yielded. *)
Definition _flush_and_detach (pending : list (DupGroup * list DupMember)) (d : dedup_db)
    : list (Z * DupGroup) * dedup_db :=
  let d' := foldl insert_group d pending in
  (drop (length (dup_groups d)) (dup_groups d'), d').

(** The generator, as the list of what it yields and the tables it leaves. *)
Fixpoint build_loop (batch : nat) (by_hash : list ((Z * string) * list EntryRef))
    (pending : list (DupGroup * list DupMember)) (d : dedup_db)
    : result string (list (Z * DupGroup) * dedup_db) :=
  match by_hash with
  | [] => Ok (match pending with [] => ([], d) | _ => _flush_and_detach pending d end)
  | x :: rest =>
      o ← new_group x;
      match o with
      | None => build_loop batch rest pending d
      | Some g =>
          let pending := pending ++ [g] in
          if batch <=? length pending then
            let '(ys, d) := _flush_and_detach pending d in
            '(zs, d) ← build_loop batch rest [] d; Ok (ys ++ zs, d)
          else build_loop batch rest pending d
      end
  end.

Definition _build_iter (batch : nat) (replace : bool) (d : dedup_db)
    : result string (list (Z * DupGroup) * dedup_db) :=
  let d := if replace then _clear_scope s d else d in
  build_loop batch (group_by ((λ r, ((size r, r_full_hash r), r)) <$> _load_hashed_entries s d)) [] d.

Definition _DEDUP_FLUSH_BATCH : nat := 1000.

Definition build (replace : bool) (d : dedup_db) : result string (list (Z * DupGroup) * dedup_db) :=
  _build_iter _DEDUP_FLUSH_BATCH replace d.

Definition rebuild (replace : bool) (d : dedup_db) : result string (Z * dedup_db) :=
  '(gs, d) ← _build_iter _DEDUP_FLUSH_BATCH replace d; Ok (Z.of_nat (length gs), d).
End Service.

(** ** Flushing in batches *)

Lemma inserted p d :
  ∃ k, dup_groups (foldl insert_group d p) = dup_groups d ++ k ∧ k.*2 = p.*1 ∧
  k.*1 = seqZ (next_group d) (Z.of_nat (length p)) ∧
  next_group (foldl insert_group d p) = (next_group d + Z.of_nat (length p))%Z ∧
  dup_members (foldl insert_group d p) =
    dup_members d ++ (zip k.*1 p.*2 ≫= λ x, (λ m, (x.1, m)) <$> x.2).
Proof.
  revert d. induction p as [|g p IH]; intros d.
  - exists []. simpl. rewrite !app_nil_r, Z.add_0_r. done.
  - destruct (IH (insert_group d g)) as (k & Hg & Hk2 & Hk1 & Hn & Hm).
    exists ((next_group d, g.1) :: k). cbn [foldl]. rewrite Hg, Hn, Hm. unfold insert_group. csimpl.
    rewrite Hk2, Hk1, <- !app_assoc. split_and!; [done|done| |simpl; lia|done].
    simpl length. rewrite (seqZ_cons (next_group d)) by lia. f_equal. simpl. f_equal; lia.
Qed.

Lemma foldl_insert_tables p d :
  volumes (foldl insert_group d p) = volumes d ∧ entries (foldl insert_group d p) = entries d.
Proof. revert d. induction p as [|g p IH]; intros d; [done|]. simpl. by destruct (IH (insert_group d g)) as [-> ->]. Qed.

Lemma flush_app p q d :
  _flush_and_detach (p ++ q) d =
  let '(ys, d1) := _flush_and_detach p d in
  let '(zs, d2) := _flush_and_detach q d1 in (ys ++ zs, d2).
Proof.
  unfold _flush_and_detach. simpl. rewrite foldl_app. f_equal.
  destruct (inserted p d) as (k & Hk & _). destruct (inserted q (foldl insert_group d p)) as (k' & Hk' & _).
  rewrite Hk', Hk, <- app_assoc, !drop_app_length. rewrite length_app, <- drop_drop, !drop_app_length. done.
Qed.

Lemma flush_nil d : _flush_and_detach [] d = ([], d).
Proof. unfold _flush_and_detach. simpl. by rewrite drop_all. Qed.

Section Report.
Context (s : DedupScope) (keeper : KeeperRule) (job : option string).

(** The loop flushes, in whatever batches, the groups of all its rounds. *)
Lemma build_loop_flushes batch by_hash pending d :
  0 < batch → length pending < batch →
  build_loop s keeper job batch by_hash pending d =
  (os ← mapM (new_group s keeper job) by_hash; Ok (_flush_and_detach (pending ++ omap Datatypes.id os) d)).
Proof.
  intros Hb. revert pending d. induction by_hash as [|x rest IH]; intros pending d Hp.
  - simpl. rewrite app_nil_r. destruct pending; [by rewrite flush_nil|done].
  - cbn [build_loop]. simpl mapM. destruct (new_group s keeper job x) as [[g|]|e]; [| |done].
    + cbn [mbind result_bind]. destruct (Nat.leb_spec batch (length (pending ++ [g]))) as [Hl|Hl].
      * destruct (_flush_and_detach (pending ++ [g]) d) as [ys d1] eqn:E. rewrite IH by (simpl; lia).
        destruct (mapM _ rest) as [os|e]; [|done]. cbn [mbind result_bind mret result_ret].
        change (omap Datatypes.id (Some g :: os)) with ([g] ++ omap Datatypes.id os).
        rewrite app_assoc, (flush_app (pending ++ [g])), E. simpl app. by destruct (_flush_and_detach (omap Datatypes.id os) d1).
      * rewrite IH by done. destruct (mapM _ rest) as [os|e]; [|done]. simpl. by rewrite <- app_assoc.
    + cbn [mbind result_bind]. rewrite IH by done. by destruct (mapM _ rest).
Qed.

(** The members that share size and digest, and the rows that report them. *)
Definition same_digest (l : list EntryRef) (sz : Z) (fh : string) : list EntryRef :=
  filter (λ r, size r = sz ∧ r_full_hash r = fh) l.

Definition report_group (sz : Z) (fh : string) (ms : list EntryRef) (c : KeeperChoice) : DupGroup :=
  mk_dup_group fh sz (Z.of_nat (length ms))
    (sz * Z.max 0 (Z.of_nat (length (filter (λ m, native m) ms)) - 1)) (as_json s) job
    (choice_entry_id c) (choice_reason c).

Definition report_members (ms : list EntryRef) : list DupMember :=
  (λ m, mk_member (entry_id m) (r_host_id m) (r_volume_id m) (r_path m) (is_network_fs (fs_type m))) <$> ms.

Definition keeper_total : Prop := ∀ ms, 2 ≤ length ms → ∃ c, keeper ms s = Ok c.

Lemma new_group_spec x :
  keeper_total →
  ∃ o, new_group s keeper job x = Ok o ∧
  (length x.2 < 2 ∧ o = None ∨
   2 ≤ length x.2 ∧ ∃ c, keeper x.2 s = Ok c ∧ o = Some (report_group x.1.1 x.1.2 x.2 c, report_members x.2)).
Proof.
  intros Hk. destruct x as [[sz fh] ms]. unfold new_group. simpl.
  destruct (Nat.ltb_spec (length ms) 2) as [Hl|Hl]; [eauto|].
  destruct (Hk ms Hl) as [c Hc]. rewrite Hc. simpl. eauto 8.
Qed.

(** What the rounds produce. *)
Lemma rounds_spec by_hash :
  keeper_total →
  ∃ os, mapM (new_group s keeper job) by_hash = Ok os ∧
  (∀ g ms, (g, ms) ∈ omap Datatypes.id os ↔
     ∃ sz fh xs c, ((sz, fh), xs) ∈ by_hash ∧ 2 ≤ length xs ∧ keeper xs s = Ok c ∧
       g = report_group sz fh xs c ∧ ms = report_members xs) ∧
  (NoDup by_hash.*1 → NoDup ((λ g, (g_size g.1, full_hash g.1)) <$> omap Datatypes.id os)).
Proof.
  intros Hk. induction by_hash as [|x rest IH].
  - exists []. split_and!; [done| |intros _; constructor]. intros g ms. split; [by intros ?%elem_of_nil|].
    by intros (? & ? & ? & ? & ?%elem_of_nil & _).
  - destruct IH as (os & Hos & Hin & Hnd). destruct (new_group_spec x Hk) as (o & Ho & Hcase).
    exists (o :: os). simpl. rewrite Ho. simpl. rewrite Hos. split; [done|]. split.
    + intros g ms. destruct Hcase as [[Hl ->]|(Hl & c & Hc & ->)]; simpl.
      * rewrite Hin. split; intros (sz & fh & xs & c & Hx & Hxl & ?).
        -- exists sz, fh, xs, c. split; [by right|done].
        -- apply elem_of_cons in Hx as [<-|Hx]; [simpl in Hl; lia|]. by exists sz, fh, xs, c.
      * rewrite elem_of_cons, Hin. split.
        -- intros [[= -> ->]|(sz & fh & xs & c' & Hx & ?)].
           ++ exists x.1.1, x.1.2, x.2, c. split; [|done]. destruct x as [[? ?] ?]. left.
           ++ exists sz, fh, xs, c'. split; [by right|done].
        -- intros (sz & fh & xs & c' & [<-|Hx]%elem_of_cons & Hxl & Hxc & -> & ->).
           ++ left. simpl in *. rewrite Hc in Hxc. by injection Hxc as ->.
           ++ right. by exists sz, fh, xs, c'.
    + csimpl. intros [Hx Hr]%NoDup_cons. specialize (Hnd Hr). destruct Hcase as [[_ ->]|(Hl & c & Hc & ->)]; [done|].
      csimpl. apply NoDup_cons. split; [|done]. intros ([g ms] & Hk' & (sz & fh & xs & c' & Hxs & _ & _ & -> & ->)%Hin)%list_elem_of_fmap.
      simpl in Hk'. apply Hx. apply list_elem_of_fmap. exists ((sz, fh), xs). split; [|done]. simpl.
      rewrite <- Hk'. by destruct x as [[? ?] ?].
Qed.
End Report.

(** ** The keeper rule *)

Lemma foldl_min x l :
  (foldl Z.min x l ∈ x :: l) ∧ ∀ y, y ∈ x :: l → (foldl Z.min x l ≤ y)%Z.
Proof.
  revert x. induction l as [|z l IH]; intros x; simpl.
  - split; [left|]. intros y ->%list_elem_of_singleton. lia.
  - destruct (IH (Z.min x z)) as [Hin Hle]. split.
    + apply elem_of_cons in Hin as [->|Hin]; [|by do 2 right].
      destruct (Z.min_spec x z) as [[_ ->]|[_ ->]]; [left|right; left].
    + intros y [->|[->|Hy]%elem_of_cons]%elem_of_cons.
      * specialize (Hle (Z.min x z) ltac:(left)). lia.
      * specialize (Hle (Z.min x z) ltac:(left)). lia.
      * apply Hle. by right.
Qed.

(** The members among which the rule ranks: the native ones, if any. *)
Definition rivals (ms : list EntryRef) : list EntryRef :=
  let natives := filter (λ m, native m) ms in if bool_decide (natives = []) then ms else natives.

(** [m] is no worse than [m']: older, else preferred, else with the shorter path. *)
Definition ranks_before (s : DedupScope) (m m' : EntryRef) : Prop :=
  (_oldest_ts m ≤ _oldest_ts m')%Z ∧
  (_oldest_ts m = _oldest_ts m' →
     (_is_preferred m' s = true → _is_preferred m s = true) ∧
     (_is_preferred m s = _is_preferred m' s →
        lex_le (lex_le str_le) (shortest_key m) (shortest_key m') = true)).

Lemma rivals_in ms m : m ∈ rivals ms → m ∈ ms.
Proof.
  unfold rivals. case_bool_decide; [done|]. intros H'. by apply list_elem_of_filter in H' as [_ ?].
Qed.

Lemma keeper_best ms s :
  ms ≠ [] → ∃ c m, rank_oldest_then_preferred_then_shortest ms s = Ok c ∧ choice_entry_id c = entry_id m ∧
  m ∈ rivals ms ∧ ∀ m', m' ∈ rivals ms → ranks_before s m m'.
Proof.
  intros Hne. unfold rank_oldest_then_preferred_then_shortest. fold (rivals ms).
  assert (rivals ms ≠ []) as Hr by (unfold rivals; by case_bool_decide).
  destruct (rivals ms) as [|c cs] eqn:E; [done|]. clear Hr. rewrite <- E in *.
  set (ts := foldl Z.min (_oldest_ts c) (_oldest_ts <$> cs)).
  destruct (foldl_min (_oldest_ts c) (_oldest_ts <$> cs)) as [Hin Hle]. fold ts in Hin, Hle.
  change (_oldest_ts c :: (_oldest_ts <$> cs)) with (_oldest_ts <$> c :: cs) in Hin, Hle. rewrite <- E in Hin, Hle.
  assert (∀ m', m' ∈ rivals ms → (ts ≤ _oldest_ts m')%Z) as Hmin.
  { intros m' Hm'. by apply Hle, list_elem_of_fmap_2. }
  set (oldest := filter (λ m, _oldest_ts m = ts) (rivals ms)).
  assert (∀ m, m ∈ oldest ↔ m ∈ rivals ms ∧ _oldest_ts m = ts) as Hold.
  { intros m. unfold oldest. rewrite list_elem_of_filter. tauto. }
  assert (∃ m, m ∈ oldest) as [m0 Hm0].
  { apply list_elem_of_fmap in Hin as (m & Hm & Hin). exists m. apply Hold. done. }
  clearbody oldest ts. clear E c cs Hin Hle. destruct oldest as [|o [|o' os]] eqn:E.
  - by apply elem_of_nil in Hm0.
  - eexists _, o. split; [done|]. split; [done|].
    assert (o ∈ [o]) as [Ho Hts]%Hold by left. split; [done|]. intros m' Hm'. split; [rewrite Hts; by apply Hmin|].
    intros Heq. assert (m' ∈ [o]) as ->%list_elem_of_singleton by (apply Hold; split; [done|lia]).
    split; [done|]. intros _. destruct (key_total (shortest_key o) (shortest_key o)); done.
  - rewrite <- E in *. clear o o' os E.
    set (pool := if bool_decide (filter _ oldest = []) then oldest else filter _ oldest).
    assert (pool ≠ []) as Hpne. { unfold pool. case_bool_decide; [|done]. intros ->. by apply elem_of_nil in Hm0. }
    assert (∀ m, m ∈ pool → m ∈ oldest) as Hpo.
    { intros m. unfold pool. case_bool_decide; [done|]. intros H'. by apply list_elem_of_filter in H' as [_ ?]. }
    assert (∀ m m', m ∈ pool → m' ∈ oldest → (_is_preferred m' s = true → _is_preferred m s = true) ∧
              (_is_preferred m s = _is_preferred m' s → m' ∈ pool)) as Hpref.
    { intros m m' Hm Hm'. unfold pool in *. case_bool_decide as Hnil.
      - split; [|done]. intros Hp. assert (m' ∈ filter (λ m, _is_preferred m s) oldest) as Hf.
        { apply list_elem_of_filter. by rewrite Hp. }
        rewrite Hnil in Hf. by apply elem_of_nil in Hf.
      - apply list_elem_of_filter in Hm as [Hp%Is_true_true Hm]. split; [done|]. intros Heq.
        apply list_elem_of_filter. by rewrite <- Heq, Hp. }
    clearbody pool. destruct pool as [|p ps]; [done|].
    pose proof (min_by_elem (lex_le (lex_le str_le)) shortest_key p ps) as Hc.
    pose proof (min_by_least (lex_le (lex_le str_le)) shortest_key p ps) as Hleast.
    set (ch := min_by _ _ p ps) in *. eexists _, ch. split; [done|]. split; [done|].
    pose proof (Hpo ch Hc) as [Hcr Hts]%Hold. split; [done|].
    intros m' Hm'. split; [rewrite Hts; by apply Hmin|]. intros Heq.
    destruct (Hpref ch m' Hc) as [Hp1 Hp2]; [apply Hold; split; [done|lia]|].
    split; [done|]. intros Hpeq. by apply Hleast, Hp2.
Qed.

(** ** The member rows of a run *)

Lemma filter_fmap_pair {A B} `{!EqDecision A} (i j : A) (l : list B) :
  filter (λ m : A * B, m.1 = i) ((λ y, (j, y)) <$> l) = if decide (j = i) then (λ y, (j, y)) <$> l else [].
Proof.
  destruct (decide (j = i)) as [->|Hne].
  - apply filter_all, Forall_fmap, Forall_true. done.
  - apply filter_none, Forall_fmap, Forall_true. done.
Qed.

Lemma members_of_group {A B} `{!EqDecision A} (x : list (A * list B)) i l :
  NoDup x.*1 → (i, l) ∈ x →
  (filter (λ m : A * B, m.1 = i) (x ≫= λ y, (λ m, (y.1, m)) <$> y.2)).*2 = l.
Proof.
  induction x as [|[j k] x IH]; intros Hnd Hin; [by apply elem_of_nil in Hin|]. csimpl in *.
  apply NoDup_cons in Hnd as [Hj Hnd]. rewrite filter_app, filter_fmap_pair, fmap_app.
  apply elem_of_cons in Hin as [[= <- <-]|Hin].
  - rewrite decide_True by done. rewrite <- list_fmap_compose. simpl.
    rewrite (filter_none (λ m : A * B, m.1 = i)); [by rewrite app_nil_r, list_fmap_id|].
    apply Forall_forall. intros [i' b] Hb Heq. simpl in Heq. subst i'.
    apply list_elem_of_bind in Hb as ([j' k'] & Hb & Hx). apply list_elem_of_fmap in Hb as (m & [= -> ->] & _).
    apply Hj. by apply (list_elem_of_fmap_2 fst x (j', k')).
  - rewrite decide_False; [by apply IH|]. intros ->. apply Hj. by apply (list_elem_of_fmap_2 fst x (i, l)).
Qed.

Lemma cleared_tables s d :
  volumes (_clear_scope s d) = volumes d ∧ entries (_clear_scope s d) = entries d ∧
  next_group (_clear_scope s d) = next_group d.
Proof. done. Qed.

(** ** Properties *)

(** the suggested keeper is a member of the group, a native copy if there is one, and no other
    member of its kind is older, or as old and preferred where it is not, or tied on both with a
    shorter path. *)
Theorem keeper_is_oldest_native ms s :
  ms ≠ [] → ∃ c m, rank_oldest_then_preferred_then_shortest ms s = Ok c ∧ choice_entry_id c = entry_id m ∧
  m ∈ ms ∧ ((∃ m', m' ∈ ms ∧ native m' = true) → native m = true) ∧
  ∀ m', m' ∈ ms → native m' = native m → ranks_before s m m'.
Proof.
  intros Hne. destruct (keeper_best ms s Hne) as (c & m & Hr & Hid & Hm & Hbest).
  exists c, m. split_and!; [done|done|by apply rivals_in| |]; unfold rivals in *; case_bool_decide as Hnil.
  - intros (m' & Hin & Hn). assert (m' ∈ filter (λ m, native m) ms) as Hf by (apply list_elem_of_filter; by rewrite Hn).
    rewrite Hnil in Hf. by apply elem_of_nil in Hf.
  - intros _. apply list_elem_of_filter in Hm as [Hm _]. by apply Is_true_true in Hm.
  - intros m' Hin _. by apply Hbest.
  - intros m' Hin Heq. apply Hbest, list_elem_of_filter. split; [|done].
    apply list_elem_of_filter in Hm as [Hm _]. by rewrite Heq.
Qed.

(** C20: whatever the flush batch, a run keeps the other scopes' groups and reports, once each, exactly
    the classes of two or more hashed live files in scope with one size and digest, with the native
    copies but one as reclaimable; the member rows of a group are the members of its class. *)
Theorem dedup_report_exact s keeper job batch replace d :
  0 < batch → keeper_total s keeper → Forall (λ m, m.1 < next_group d)%Z (dup_members d) →
  let class := same_digest (_load_hashed_entries s d) in
  ∃ gs d', _build_iter s keeper job batch replace d = Ok (gs, d') ∧
  dup_groups d' = (if replace then filter (λ g, g_scope g.2 ≠ as_json s) (dup_groups d) else dup_groups d) ++ gs ∧
  NoDup ((λ g, (g_size g, full_hash g)) <$> gs.*2) ∧
  (∀ g, g ∈ gs.*2 ↔ ∃ sz fh c, 2 ≤ length (class sz fh) ∧ keeper (class sz fh) s = Ok c ∧
                     g = report_group s job sz fh (class sz fh) c) ∧
  ∀ i g, (i, g) ∈ gs →
    (filter (λ m, m.1 = i) (dup_members d')).*2 = report_members (class (g_size g) (full_hash g)).
Proof.
  intros Hb Hk Hwf class. unfold _build_iter. set (d0 := if replace then _clear_scope s d else d).
  assert (_load_hashed_entries s d0 = _load_hashed_entries s d) as -> by (by destruct replace).
  assert (dup_groups d0 = if replace then filter (λ g, g_scope g.2 ≠ as_json s) (dup_groups d) else dup_groups d)
    as <- by (by destruct replace).
  assert (Forall (λ m, m.1 < next_group d0)%Z (dup_members d0)) as Hwf0.
  { unfold d0. destruct replace; [|done]. simpl. apply Forall_forall. intros m Hm.
    apply list_elem_of_filter in Hm as [_ Hm]. rewrite Forall_forall in Hwf. by apply Hwf. }
  clearbody d0. set (by_hash := group_by _).
  destruct (rounds_spec s keeper job by_hash Hk) as (os & Hos & Hin & Hnd).
  rewrite build_loop_flushes, Hos by done. cbn [mbind result_bind]. simpl app.
  set (p := omap Datatypes.id os) in *. destruct (inserted p d0) as (k & Hg & Hk2 & Hk1 & _ & Hm).
  unfold _flush_and_detach. do 2 eexists. split; [done|]. rewrite Hg, drop_app_length. split; [done|].
  assert (∀ sz fh xs, ((sz, fh), xs) ∈ by_hash ↔ xs = class sz fh ∧ xs ≠ []) as Hby.
  { intros sz fh xs. unfold by_hash. rewrite elem_of_group_by, class_fmap.
    replace (filter _ _) with (class sz fh); [done|].
    unfold class, same_digest. apply list_filter_iff. intros x. split; [by intros [-> ->]|by intros [= -> ->]]. }
  assert (∀ g ms, (g, ms) ∈ p ↔ ∃ sz fh c, 2 ≤ length (class sz fh) ∧ keeper (class sz fh) s = Ok c ∧
            g = report_group s job sz fh (class sz fh) c ∧ ms = report_members (class sz fh)) as Hp.
  { intros g ms. rewrite Hin. split.
    - intros (sz & fh & xs & c & [-> _]%Hby & ?). eauto.
    - intros (sz & fh & c & Hl & ?). exists sz, fh, (class sz fh), c. split; [|done]. apply Hby. split; [done|].
      intros Hnil. rewrite Hnil in Hl. simpl in Hl. lia. }
  split_and!.
  - rewrite Hk2, <- list_fmap_compose. apply Hnd, NoDup_group_by.
  - intros g. rewrite Hk2. rewrite list_elem_of_fmap. split.
    + intros ([g' ms] & -> & (sz & fh & c & ? & ? & ? & _)%Hp). by exists sz, fh, c.
    + intros (sz & fh & c & ? & ? & ->).
      exists (report_group s job sz fh (class sz fh) c, report_members (class sz fh)).
      split; [done|]. apply Hp. by exists sz, fh, c.
  - intros i g Hig. simpl. rewrite Hm, filter_app.
    assert (i ∈ k.*1) as Hi by (by apply (list_elem_of_fmap_2 fst k (i, g))).
    rewrite (filter_none (λ m : Z * DupMember, m.1 = i)); simpl.
    2:{ eapply Forall_impl; [exact Hwf0|]. intros m Hlt Heq. rewrite Hk1 in Hi. apply elem_of_seqZ in Hi. simpl in Hlt. lia. }
    apply list_elem_of_lookup in Hig as [n Hn].
    assert (p.*1 !! n = Some g) as Hpn by (rewrite <- Hk2, list_lookup_fmap, Hn; done).
    rewrite list_lookup_fmap in Hpn. apply fmap_Some in Hpn as ([g' ms] & Hpn & ->).
    rewrite (members_of_group _ i ms).
    + apply list_elem_of_lookup_2, Hp in Hpn as (sz & fh & c & _ & _ & -> & ->). done.
    + rewrite fst_zip; [rewrite Hk1; apply NoDup_seqZ|]. rewrite Hk1, length_seqZ, length_fmap. lia.
    + apply list_elem_of_lookup. exists n. rewrite lookup_zip_with, !list_lookup_fmap, Hn, Hpn. done.
Qed.

(** ** [core/provider_dedup.py] *)

Record ProviderDupMember := mk_pmember { p_entry_id : Z; p_host_id : Z; p_volume_id : Z; p_path : string }.

Definition provider_key : Type := string * string * Z.

Record ProviderDupGroup := mk_pgroup {
  algo : string; provider_hash : string; p_size : Z; members : list ProviderDupMember;
}.

Definition p_reclaimable_bytes (g : ProviderDupGroup) : Z := p_size g * (Z.of_nat (length (members g)) - 1).

Definition _make_group (key : option provider_key) (ms : list ProviderDupMember) (min_members : Z)
    : option ProviderDupGroup :=
  match key with
  | None => None
  | Some (a, phash, sz) =>
      if (Z.of_nat (length ms) <? min_members)%Z then None else Some (mk_pgroup a phash sz ms)
  end.

(** The rows of the scan: the key and the member. *)
Definition provider_row (e : FsEntryRow) : option (provider_key * ProviderDupMember) :=
  h ← Catalogue.provider_hash e;
  a ← provider_hash_algo e;
  if present e && negb (is_dir e)
  then Some ((a, h, size_logical e), mk_pmember (e_id e) (host_id e) (volume_id e) (path e)) else None.

Definition key_le (x y : provider_key) : bool :=
  let '(a, h, sz) := x in
  let '(a', h', sz') := y in
  if bool_decide (a = a') then if bool_decide (h = h') then (sz <=? sz')%Z else str_le h h'
  else str_le a a'.

Definition row_le (x y : provider_key * ProviderDupMember) : Prop := Is_true (key_le x.1 y.1).

#[export] Instance row_le_dec : RelDecision row_le.
Proof. intros x y. unfold row_le. apply _. Defined.

Definition provider_scan (scope : option ScopeFilter) (vids : option (list Z)) (es : list FsEntryRow)
    : list (provider_key * ProviderDupMember) :=
  stable_sort row_le
    (omap provider_row
       (filter (λ e, match vids with Some vs => bool_decide (volume_id e ∈ vs) | None => true end
                     && match scope with Some f => apply f (Some host_id) (Some volume_id) None e | None => true end)
          es)).

(** The loop over the rows: each completed run of a key is yielded. *)
Fixpoint provider_runs (min_members : Z) (rows : list (provider_key * ProviderDupMember))
    (cur_key : option provider_key) (cur : list ProviderDupMember) : list ProviderDupGroup :=
  match rows with
  | [] => option_list (_make_group cur_key cur min_members)
  | (key, m) :: rest =>
      if bool_decide (Some key = cur_key) then provider_runs min_members rest cur_key (cur ++ [m])
      else option_list (_make_group cur_key cur min_members)
           ++ provider_runs min_members rest (Some key) [m]
  end.

Definition iter_provider_hash_duplicates (scope : option ScopeFilter) (vids : option (list Z))
    (min_members : Z) (es : list FsEntryRow) : list ProviderDupGroup :=
  match vids with
  | Some [] => []
  | _ => provider_runs min_members (provider_scan scope vids es) None []
  end.

(** [out.append(group)], then [break] once the limit is reached. *)
Fixpoint collect (limit : option Z) (gs out : list ProviderDupGroup) : list ProviderDupGroup :=
  match gs with
  | [] => out
  | g :: gs' =>
      let out := out ++ [g] in
      if match limit with Some l => (l <=? Z.of_nat (length out))%Z | None => false end then out
      else collect limit gs' out
  end.

Definition find_provider_hash_duplicates (scope : option ScopeFilter) (vids : option (list Z))
    (min_members : Z) (limit : option Z) (es : list FsEntryRow) : list ProviderDupGroup :=
  collect limit (iter_provider_hash_duplicates scope vids min_members es) [].

(** ** Runs of a sorted scan *)

Lemma str_le_refl s : str_le s s = true.
Proof. by destruct (key_total s s). Qed.

#[export] Instance key_le_order : KeyOrder key_le.
Proof.
  split.
  - intros [[a h] sz] [[a' h'] sz']. unfold key_le.
    destruct (decide (a = a')) as [->|Ha]; [|rewrite !bool_decide_false by congruence; apply key_total].
    rewrite !(bool_decide_true (a' = a')) by done.
    destruct (decide (h = h')) as [->|Hh]; [|rewrite !bool_decide_false by congruence; apply key_total].
    rewrite !bool_decide_true by done. rewrite !Z.leb_le. lia.
  - intros [[a h] sz] [[a' h'] sz'] [[a2 h2] sz2]. unfold key_le.
    repeat case_bool_decide; subst; try done; try (rewrite !Z.leb_le; lia); eauto using key_trans.
    all: intros Hx Hy; first [by eapply (key_trans _ _ _ Hx Hy) | pose proof (str_le_antisym _ _ Hx Hy); congruence].
Qed.

Lemma key_le_antisym x y : key_le x y = true → key_le y x = true → x = y.
Proof.
  destruct x as [[a h] sz], y as [[a' h'] sz']. unfold key_le.
  repeat case_bool_decide; subst; try done; rewrite ?Z.leb_le; intros; [f_equal; lia|..];
    match goal with H1 : str_le ?u ?v = true, H2 : str_le ?v ?u = true |- _ =>
      pose proof (str_le_antisym _ _ H1 H2); congruence end.
Qed.

Lemma make_group_spec g k ms mn :
  g ∈ option_list (_make_group (Some k) ms mn) ↔
  (mn ≤ Z.of_nat (length ms))%Z ∧ g = mk_pgroup k.1.1 k.1.2 k.2 ms.
Proof.
  destruct k as [[a h] sz]. simpl. destruct (Z.ltb_spec (Z.of_nat (length ms)) mn); simpl.
  - split; [by intros ?%elem_of_nil|lia].
  - rewrite list_elem_of_singleton. naive_solver.
Qed.

(** The members with a key. *)
Definition with_key (k : provider_key) (rows : list (provider_key * ProviderDupMember))
    : list ProviderDupMember := class k rows.

Lemma with_key_cons k k' m rows :
  with_key k ((k', m) :: rows) = (if decide (k' = k) then [m] else []) ++ with_key k rows.
Proof. unfold with_key, class. rewrite filter_cons. simpl. by case_decide. Qed.

Lemma with_key_none k rows : Forall (λ r, r.1 ≠ k) rows → with_key k rows = [].
Proof. intros H. unfold with_key, class. by rewrite (filter_none _ _ H). Qed.

Definition run_group (mn : Z) (k : provider_key) (ms : list ProviderDupMember) (g : ProviderDupGroup) : Prop :=
  (mn ≤ Z.of_nat (length ms))%Z ∧ g = mk_pgroup k.1.1 k.1.2 k.2 ms.

Lemma provider_runs_spec mn rows k cur g :
  StronglySorted row_le rows → Forall (λ r, key_le k r.1 = true) rows →
  g ∈ provider_runs mn rows (Some k) cur ↔
  run_group mn k (cur ++ with_key k rows) g ∨
  ∃ k', k' ≠ k ∧ with_key k' rows ≠ [] ∧ run_group mn k' (with_key k' rows) g.
Proof.
  revert k cur. induction rows as [|[k2 m] rows IH]; intros k cur Hs Hk; cbn [provider_runs].
  - rewrite make_group_spec. unfold with_key. simpl. rewrite app_nil_r. split; [by left|].
    by intros [?|(k' & _ & [] & _)].
  - apply StronglySorted_inv in Hs as [Hs Hk2]. inversion_clear Hk as [|? ? Hle Hk']. simpl in Hle.
    assert (Forall (λ r, key_le k2 r.1 = true) rows) as Hk2'.
    { eapply Forall_impl; [exact Hk2|]. intros r Hr. by apply Is_true_true in Hr. }
    setoid_rewrite with_key_cons. case_bool_decide as Heq.
    + injection Heq as ->. rewrite IH by done. rewrite (decide_True (P := k = k)) by done.
      rewrite <- app_assoc. split; (intros [?|(k' & Hne & Hx)]; [by left|right; exists k']).
      * rewrite decide_False by congruence. done.
      * rewrite decide_False in Hx by congruence. done.
    + assert (k2 ≠ k) as Hne by congruence. rewrite elem_of_app, make_group_spec, IH by done.
      assert (with_key k rows = []) as Hnil.
      { apply with_key_none. eapply Forall_impl; [exact Hk2'|]. intros r Hr Hr'. cbv beta in Hr. rewrite Hr' in Hr.
        apply Hne. by apply key_le_antisym. }
      rewrite (decide_False (P := k2 = k)) by done. rewrite Hnil, !app_nil_r. split.
      * intros [?|[?|(k' & Hne' & Hk0 & Hx)]]; [by left|right; exists k2|right].
        -- rewrite decide_True by done. done.
        -- exists k'. rewrite decide_False by congruence. split; [|done].
           intros ->. by rewrite Hnil in Hk0.
      * intros [?|(k' & Hne' & Hk0 & Hx)]; [by left|right].
        destruct (decide (k2 = k')) as [<-|Hd]; [by left|right]. by exists k'.
Qed.

Lemma collect_all limit gs out :
  collect limit gs out =
  out ++ match limit with
         | Some l => take (Z.to_nat (Z.max 1 (l - Z.of_nat (length out)))) gs
         | None => gs
         end.
Proof.
  revert out. induction gs as [|g gs IH]; intros out; simpl.
  - destruct limit; by rewrite ?take_nil, app_nil_r.
  - destruct limit as [l|].
    + rewrite length_app. simpl. destruct (Z.leb_spec l (Z.of_nat (length out + 1))) as [Hl|Hl].
      * replace (Z.to_nat (Z.max 1 (l - Z.of_nat (length out)))) with 1 by lia. simpl. by rewrite take_0.
      * rewrite IH, length_app. simpl.
        replace (Z.to_nat (Z.max 1 (l - Z.of_nat (length out))))
          with (S (Z.to_nat (Z.max 1 (l - Z.of_nat (length out + 1))))) by lia. simpl. by rewrite <- app_assoc.
    + rewrite IH. by rewrite <- app_assoc.
Qed.

Definition group_key (g : ProviderDupGroup) : provider_key := (algo g, provider_hash g, p_size g).

Lemma run_group_key mn k ms g : run_group mn k ms g → group_key g = k.
Proof. intros [_ ->]. by destruct k as [[? ?] ?]. Qed.

Lemma provider_runs_NoDup mn rows k cur :
  StronglySorted row_le rows → Forall (λ r, key_le k r.1 = true) rows →
  NoDup (group_key <$> provider_runs mn rows (Some k) cur).
Proof.
  revert k cur. induction rows as [|[k2 m] rows IH]; intros k cur Hs Hk; cbn [provider_runs].
  - destruct (_make_group _ _ _); [apply NoDup_singleton|constructor].
  - apply StronglySorted_inv in Hs as [Hs Hk2]. inversion_clear Hk as [|? ? Hle Hk']. simpl in Hle.
    assert (Forall (λ r, key_le k2 r.1 = true) rows) as Hk2'.
    { eapply Forall_impl; [exact Hk2|]. intros r Hr. by apply Is_true_true in Hr. }
    case_bool_decide as Heq; [by apply IH|]. rewrite fmap_app. apply NoDup_app.
    split; [destruct (_make_group _ _ _); [apply NoDup_singleton|constructor]|]. split; [|by apply IH].
    intros key (g & -> & Hg%make_group_spec)%list_elem_of_fmap (g' & Hkey & Hg')%list_elem_of_fmap.
    apply (run_group_key _ k) in Hg. rewrite Hg in Hkey.
    apply provider_runs_spec in Hg' as [Hg'|(k' & _ & Hne & Hg')]; [| |done..].
    + apply run_group_key in Hg'. congruence.
    + apply run_group_key in Hg'. assert (k' = k) as -> by congruence.
      destruct Hne. apply with_key_none. eapply Forall_impl; [exact Hk2'|]. intros r Hr Hr'. cbv beta in Hr.
      rewrite Hr' in Hr. apply Heq. f_equal. by apply key_le_antisym.
Qed.

(** The members that the scan may show with a key. *)
Definition visible (scope : option ScopeFilter) (vids : option (list Z)) (e : FsEntryRow) : bool :=
  match vids with Some vs => bool_decide (volume_id e ∈ vs) | None => true end
  && match scope with Some f => apply f (Some host_id) (Some volume_id) None e | None => true end.

Definition visible_with (scope : option ScopeFilter) (vids : option (list Z)) (es : list FsEntryRow)
    (k : provider_key) : list ProviderDupMember :=
  class k (omap provider_row (filter (λ e, visible scope vids e) es)).

Lemma with_key_scan scope vids es k :
  with_key k (provider_scan scope vids es) ≡ₚ visible_with scope vids es k.
Proof.
  unfold with_key, visible_with, class, provider_scan. apply Permutation_map.
  rewrite stable_sort_Permutation. done.
Qed.

#[export] Instance row_le_total : Total row_le.
Proof. intros x y. unfold row_le. rewrite !Is_true_true. apply key_total. Qed.
#[export] Instance row_le_trans : Transitive row_le.
Proof. intros x y z. unfold row_le. rewrite !Is_true_true. apply key_trans. Qed.

Lemma iter_runs scope vids mn es :
  iter_provider_hash_duplicates scope vids mn es = [] ∧ provider_scan scope vids es = [] ∨
  ∃ k m rest, provider_scan scope vids es = (k, m) :: rest ∧
    iter_provider_hash_duplicates scope vids mn es = provider_runs mn rest (Some k) [m].
Proof.
  assert (vids = Some [] → provider_scan scope vids es = []) as Hnil.
  { intros ->. unfold provider_scan.
    rewrite (filter_none (λ e : FsEntryRow, bool_decide (volume_id e ∈ []) && _)); [done|].
    apply Forall_forall. intros e _ He. apply Is_true_true in He. apply andb_true_iff in He as [He _]. to_prop.
    by apply elem_of_nil in He. }
  unfold iter_provider_hash_duplicates. destruct (provider_scan scope vids es) as [|[k m] rest] eqn:E.
  - left. split; [|done]. by destruct vids as [[|]|].
  - right. exists k, m, rest. split; [done|]. destruct vids as [[|v vs]|]; [|done..]. specialize (Hnil eq_refl). congruence.
Qed.

(** the provider report holds, once each, exactly the keys (algorithm, hash, size) with enough
    live hashed files among those the principal may see, each with those files. *)
Theorem provider_groups_exact scope vids min_members es :
  let gs := iter_provider_hash_duplicates scope vids min_members es in
  NoDup (group_key <$> gs) ∧
  (∀ g, g ∈ gs → members g ≡ₚ visible_with scope vids es (group_key g) ∧
                 (min_members ≤ Z.of_nat (length (members g)))%Z) ∧
  (∀ k, visible_with scope vids es k ≠ [] →
        (min_members ≤ Z.of_nat (length (visible_with scope vids es k)))%Z → k ∈ group_key <$> gs).
Proof.
  simpl. pose proof (with_key_scan scope vids es) as Hperm.
  assert (StronglySorted row_le (provider_scan scope vids es)) as Hs by (apply StronglySorted_stable_sort; apply _).
  destruct (iter_runs scope vids min_members es) as [[-> Hnil]|(k & m & rest & Hscan & ->)].
  { rewrite Hnil in Hperm. split_and!; [constructor|by intros g ?%elem_of_nil|].
    intros k Hk. specialize (Hperm k). change (with_key k []) with (@nil ProviderDupMember) in Hperm.
    by apply Permutation_nil_l in Hperm. }
  rewrite Hscan in *. apply StronglySorted_inv in Hs as [Hs Hk].
  assert (Forall (λ r, key_le k r.1 = true) rest) as Hk'.
  { eapply Forall_impl; [exact Hk|]. intros r Hr. by apply Is_true_true in Hr. }
  assert (∀ g, g ∈ provider_runs min_members rest (Some k) [m] ↔
    ∃ k', with_key k' ((k, m) :: rest) ≠ [] ∧ run_group min_members k' (with_key k' ((k, m) :: rest)) g) as Hruns.
  { intros g. rewrite provider_runs_spec by done. setoid_rewrite with_key_cons. split.
    - intros [Hg|(k' & Hne & Hx)]; [exists k; by rewrite decide_True|exists k'; rewrite decide_False by congruence; done].
    - intros (k' & Hx). destruct (decide (k = k')) as [<-|Hne]; [left; apply Hx|right; exists k'; split; [congruence|done]]. }
  split_and!; [by apply provider_runs_NoDup| |].
  - intros g (k' & _ & Hg)%Hruns. rewrite (run_group_key _ _ _ _ Hg). destruct Hg as [Hlen ->].
    split; [apply Hperm|done].
  - intros k' Hne Hlen. apply list_elem_of_fmap.
    exists (mk_pgroup k'.1.1 k'.1.2 k'.2 (with_key k' ((k, m) :: rest))).
    assert (run_group min_members k' (with_key k' ((k, m) :: rest))
      (mk_pgroup k'.1.1 k'.1.2 k'.2 (with_key k' ((k, m) :: rest)))) as Hg.
    { split; [|done]. by rewrite (Permutation_length (Hperm k')). }
    split; [by rewrite (run_group_key _ _ _ _ Hg)|]. apply Hruns. exists k'. split; [|done].
    intros Hnil. specialize (Hperm k'). rewrite Hnil in Hperm. by apply Permutation_nil_l in Hperm.
Qed.

(** ** Witnesses *)

Definition demo_volumes : list Volume :=
  [mk_volume 1 1 "/srv" None "data" "zfs" "" "" None None None 0 0 0 true 0;
   mk_volume 2 2 "/mnt" None "data" "NFS4 " "" "" None None None 0 0 0 true 0]%Z.

Definition demo_entry (i vol : Z) (p : string) (t : Z) (h : option string) : FsEntryRow :=
  mk_entry i vol vol None "" p 1 false false 10 10 t t 0 0 i 0 "{}" None true None None h None h (Some "md5").

Definition demo_db : dedup_db :=
  mk_ddb demo_volumes
    [demo_entry 1 1 "/srv/a" 5 (Some "h"); demo_entry 2 2 "/mnt/a" 3 (Some "h");
     demo_entry 3 1 "/srv/b/a" 5 (Some "h"); demo_entry 4 1 "/srv/c" 1 (Some "k");
     demo_entry 5 1 "/srv/d" 1 None] [] [] 1.

Definition estate : DedupScope := mk_dscope [] None None [] [].

Lemma rank_total s : keeper_total s rank_oldest_then_preferred_then_shortest.
Proof.
  intros ms Hl. destruct (keeper_best ms s) as (c & _ & Hc & _); [|by exists c].
  intros ->. simpl in Hl. lia.
Qed.

Lemma keeper_is_oldest_native_witness :
  let ms := _load_hashed_entries estate demo_db in
  ∃ c m, rank_oldest_then_preferred_then_shortest ms estate = Ok c ∧ choice_entry_id c = entry_id m ∧
         native m = true.
Proof.
  intros ms. destruct (keeper_is_oldest_native ms estate) as (c & m & Hc & Hid & _ & Hn & _).
  - vm_compute. congruence.
  - exists c, m. split; [exact Hc|]. split; [exact Hid|]. apply Hn.
    exists (mk_ref 1 1 1 "/srv/a" 10 5 5 "h" "zfs"). split; [vm_compute; left|vm_compute; reflexivity].
Defined.

Lemma dedup_report_exact_witness :
  ∃ gs d', _build_iter estate rank_oldest_then_preferred_then_shortest None 1 true demo_db = Ok (gs, d') ∧
  gs = [(1%Z, mk_dup_group "h" 10 3 10 (as_json estate) None 1 "shortest path")].
Proof.
  destruct (dedup_report_exact estate rank_oldest_then_preferred_then_shortest None 1 true demo_db)
    as (gs & d' & Hb & _).
  - lia.
  - exact (rank_total estate).
  - constructor.
  - exists gs, d'. split; [exact Hb|]. revert Hb. vm_compute. intros Hb. injection Hb as <- _. reflexivity.
Defined.

(** A limit of zero still returns a group: the test comes after the append. *)
Lemma provider_limit_zero :
  length (find_provider_hash_duplicates None None 2 (Some 0%Z) (entries demo_db)) = 1.
Proof. vm_compute. reflexivity. Qed.
