(* ===== verification/Rollup.v ===== *)
(** Subtree totals ([src/fathom/core/rollup.py]) and the finalize that rebuilds them
    ([src/fathom/core/finalize.py]).

    A full recompute reads the live entries of a volume, adds each to every directory above it, and
    replaces the volume's rollup rows.  [RollupService.recompute_full] returns a result, the clock it
    reads is an argument. *)

From S2P Require Import Prelude PyStr PyDict Sql Catalogue.

(** ** Accumulators *)

Record _Acc := mk_acc { a_size_logical : Z; a_size_on_disk : Z; a_file_count : Z; a_dir_count : Z }.

Definition _Acc0 : _Acc := mk_acc 0 0 0 0.

(** The body of the loop over the ancestors of one entry. *)
Definition acc_add (e : FsEntryRow) (a : _Acc) : _Acc :=
  mk_acc (a_size_logical a + size_logical e) (a_size_on_disk a + size_on_disk e)
    (if is_dir e then a_file_count a else a_file_count a + 1)
    (if is_dir e then a_dir_count a + 1 else a_dir_count a).

(** [tally.by_path[k]], a [defaultdict(_Acc)] in insertion order, updated in place. *)
Definition _Tally : Type := list (string * _Acc).

Fixpoint tally_add (k : string) (e : FsEntryRow) (t : _Tally) : _Tally :=
  match t with
  | [] => [(k, acc_add e _Acc0)]
  | (k', a) :: t' => if decide (k = k') then (k', acc_add e a) :: t' else (k', a) :: tally_add k e t'
  end.

Definition tally_get (k : string) (t : _Tally) : _Acc :=
  match filter (λ x, x.1 = k) t with (_, a) :: _ => a | [] => _Acc0 end.

(** ** Paths *)

Definition strip_slash (s : string) : string := strip_by (Ascii.eqb "/") s.

Fixpoint descend (cur : string) (parts : list string) : list string :=
  match parts with
  | [] => []
  | part :: parts => let cur := cur +:+ "/" +:+ part in cur :: descend cur parts
  end.

Definition _ancestor_dirs (path mount : string) : list string :=
  if bool_decide (path = mount) || negb (startswith (rstrip_slash mount +:+ "/") path)
  then if bool_decide (path = mount) then [] else [mount]
  else
    let rel := strip_slash (drop_s (String.length mount) path) in
    mount :: descend (rstrip_slash mount) (removelast (split_char "/" rel)).

Definition _depth_within (mount path : string) : Z :=
  let rel := strip_slash (drop_s (String.length mount) path) in
  if bool_decide (rel = "") then 0 else Z.of_nat (count_char "/" rel) + 1.

(** The generator, as the list of the batches it yields. *)
Fixpoint batched_loop {A} (size : nat) (rows batch : list A) : list (list A) :=
  match rows with
  | [] => match batch with [] => [] | _ => [batch] end
  | row :: rows =>
      let batch := batch ++ [row] in
      if size <=? length batch then batch :: batched_loop size rows [] else batched_loop size rows batch
  end.
Definition _batched {A} (rows : list A) (size : nat) : list (list A) := batched_loop size rows [].

(** ** The recompute *)

Definition _ROLLUP_INSERT_CHUNK : nat := 5000.

Definition _rollup_rows (volume_id : Z) (mount : string) (t : _Tally) (now : Z) : list SubtreeRollup :=
  (λ '(p, a), mk_rollup volume_id p (_depth_within mount p) (a_size_logical a) (a_size_on_disk a)
                (a_file_count a) (a_dir_count a) now) <$> t.

(** The rows of the streamed query. *)
Definition live (vid : Z) (tbl : list FsEntryRow) : list FsEntryRow :=
  filter (λ e, bool_decide (volume_id e = vid) && present e) tbl.

Definition tally_of (mount : string) (rows : list FsEntryRow) : _Tally :=
  foldl (λ t e, foldl (λ t ancestor, tally_add ancestor e t) t (_ancestor_dirs (path e) mount)) [] rows.

Definition get_volume (vid : Z) (vs : list Volume) : option Volume := head (filter (λ v, v_id v = vid) vs).

Definition set_rollups (rs : list SubtreeRollup) (hs : list SizeHistory) (db : catalogue) : catalogue :=
  mk_catalogue (hosts db) (volumes db) (snapshots db) (fs_entry db) (change_log db) rs hs.

Definition recompute_full (vid now : Z) (db : catalogue) : result string (Z * catalogue) :=
  match get_volume vid (volumes db) with
  | None => Err "unknown volume_id"
  | Some volume =>
      let mount := mountpoint volume in
      let t := tally_of mount (live vid (fs_entry db)) in
      let kept := filter (λ r, ro_volume_id r ≠ vid) (rollups db) in
      let batches := _batched (_rollup_rows vid mount t now) _ROLLUP_INSERT_CHUNK in
      let '(inserted, rs) := foldl (λ '(n, rs) batch, (n + Z.of_nat (length batch), rs ++ batch)%Z)
                               (0%Z, kept) batches in
      let root := tally_get mount t in
      Ok (inserted, set_rollups rs
            (size_history db ++ [mk_history vid mount now (a_size_logical root) (a_size_on_disk root)
                                   (a_file_count root)]) db)
  end.

(** ** Batches *)

Lemma batched_loop_concat {A} size (rows batch : list A) : concat (batched_loop size rows batch) = batch ++ rows.
Proof.
  revert batch. induction rows as [|r rows IH]; intros batch; cbn [batched_loop].
  - destruct batch; cbn; by rewrite ?app_nil_r.
  - case_match; cbn; rewrite IH; by rewrite <- app_assoc.
Qed.

Lemma inserted_batches {A} (bs : list (list A)) n kept :
  foldl (λ '(n, rs) batch, (n + Z.of_nat (length batch), rs ++ batch)%Z) (n, kept) bs
  = (n + Z.of_nat (length (concat bs)), kept ++ concat bs)%Z.
Proof.
  revert n kept. induction bs as [|b bs IH]; intros n kept; cbn; [by rewrite app_nil_r, Z.add_0_r|].
  rewrite IH, length_app, app_assoc. f_equal. lia.
Qed.

(** ** The tally is the grouping of the entries by the directories above them *)

Definition acc_of (es : list FsEntryRow) : _Acc :=
  mk_acc (sumZ (size_logical <$> es)) (sumZ (size_on_disk <$> es))
    (Z.of_nat (length (filter (λ e, negb (is_dir e)) es))) (Z.of_nat (length (filter (λ e, is_dir e) es))).

Lemma acc_of_snoc es e : acc_add e (acc_of es) = acc_of (es ++ [e]).
Proof.
  unfold acc_of, acc_add. cbn. rewrite !fmap_app, !sumZ_app, !filter_app, !length_app, !filter_cons.
  destruct (is_dir e); f_equal; cbn; rewrite ?decide_True, ?decide_False by auto; cbn; lia.
Qed.

Definition pairs (mount : string) (rows : list FsEntryRow) : list (string * FsEntryRow) :=
  rows ≫= λ e, (λ d, (d, e)) <$> _ancestor_dirs (path e) mount.

Definition summed (x : string * list FsEntryRow) : string * _Acc := (x.1, acc_of x.2).

Lemma tally_add_append k e d : tally_add k e (summed <$> d) = summed <$> dict_append k e d.
Proof.
  induction d as [|[k' es] d IH]; [exact (f_equal (λ a, [(k, a)]) (acc_of_snoc [] e))|].
  cbn. destruct (decide (k = k')); cbn; [|by rewrite <- IH].
  unfold summed at 1. cbn. by rewrite acc_of_snoc.
Qed.

Lemma tally_of_group mount rows : tally_of mount rows = summed <$> group_by (pairs mount rows).
Proof.
  unfold tally_of, group_by. change [] with (summed <$> []) at 1. generalize (@nil (string * list FsEntryRow)).
  induction rows as [|e rows IH]; intros d; [done|]. unfold pairs in *. cbn. rewrite foldl_app, <- IH. f_equal.
  generalize (_ancestor_dirs (path e) mount). intros l. revert d.
  induction l as [|a l IHl]; intros d; [done|]. cbn. by rewrite tally_add_append, IHl.
Qed.

Lemma class_pairs d mount rows :
  (∀ e, e ∈ rows → NoDup (_ancestor_dirs (path e) mount)) →
  class d (pairs mount rows) = filter (λ e, d ∈ _ancestor_dirs (path e) mount) rows.
Proof.
  intros Hn. unfold class, pairs. induction rows as [|e rows IH]; [done|].
  rewrite bind_cons, filter_app, fmap_app, filter_cons. rewrite IH by (intros; apply Hn; by right).
  specialize (Hn e (list_elem_of_here _ _)). clear IH.
  assert ((filter (λ kx : string * FsEntryRow, kx.1 = d) ((λ d, (d, e)) <$> _ancestor_dirs (path e) mount)).*2
          = if decide (d ∈ _ancestor_dirs (path e) mount) then [e] else []) as ->; [|by case_decide].
  induction (_ancestor_dirs (path e) mount) as [|a l IH]; [done|]. apply NoDup_cons in Hn as [Ha Hn].
  rewrite fmap_cons, filter_cons. cbn [fst]. specialize (IH Hn).
  destruct (decide (a = d)) as [->|Hne].
  - rewrite fmap_cons, IH, decide_False, decide_True by (done || left). done.
  - rewrite IH. destruct (decide (d ∈ l)); [rewrite decide_True by (by right)|rewrite decide_False]; [done|done|].
    intros [?|?]%elem_of_cons; congruence.
Qed.

(** ** Directories above a path

    A stored path is the mountpoint without its trailing slash and the names below it. *)

Definition file_name (w : string) : bool := negb (bool_decide (w = "")) && negb (has_char "/" w).

Definition path_at (base : string) (parts : list string) : string := base +:+ "/" +:+ join "/" parts.

(** The root of a volume is "/" or has no trailing slash. *)
Definition clean_mount (mount : string) : bool := bool_decide (mount = "/") || bool_decide (rstrip_slash mount = mount).

Definition names_below (mount p : string) : list string :=
  split_char "/" (drop_s (String.length (rstrip_slash mount +:+ "/")) p).

Definition clean_path (mount p : string) : bool :=
  startswith (rstrip_slash mount +:+ "/") p && forallb file_name (names_below mount p).

Lemma file_name_iff w : file_name w = true ↔ w ≠ "" ∧ has_char "/" w = false.
Proof.
  unfold file_name. rewrite andb_true_iff, !negb_true_iff, bool_decide_eq_false. done.
Qed.

Lemma split_names parts : parts ≠ [] → forallb file_name parts = true → split_char "/" (join "/" parts) = parts.
Proof.
  intros Hne Hf. apply split_join; [done|]. apply Forall_forall. intros w Hw.
  rewrite forallb_forall in Hf. apply file_name_iff, Hf. by apply list_elem_of_In.
Qed.

Lemma clean_path_iff mount p :
  clean_path mount p = true ↔
  ∃ parts, parts ≠ [] ∧ forallb file_name parts = true ∧ p = path_at (rstrip_slash mount) parts.
Proof.
  unfold clean_path, names_below. rewrite andb_true_iff. split.
  - intros [(t & ->)%startswith_spec Hf]. eexists. split_and!; [apply split_char_nonempty|exact Hf|].
    unfold path_at. by rewrite drop_s_app, <- app_assoc_s, (join_split "/").
  - intros (parts & Hne & Hf & ->). unfold path_at. rewrite <- app_assoc_s, startswith_app.
    split; [done|]. by rewrite drop_s_app, split_names.
Qed.

(** Stripping slashes. *)
Lemma rstrip_name s w : file_name w = true → rstrip_slash (s +:+ w) = s +:+ w.
Proof.
  intros [Hne Hw]%file_name_iff. assert (rstrip_slash w = w ∧ w ≠ "") as [Hr _].
  { split; [|done]. unfold rstrip_slash. clear s. induction w as [|c w IH]; [done|].
    rewrite has_char_cons in Hw. apply orb_false_iff in Hw as [Hc Hw]. cbn [rstrip_by].
    destruct w as [|d w]; [by rewrite Hc|]. by rewrite IH. }
  induction s as [|c s IH]; [by rewrite app_nil_s|]. rewrite app_cons_s. unfold rstrip_slash in *. cbn [rstrip_by].
  rewrite IH. destruct (s +:+ w) eqn:E; [|done]. by apply app_eq_empty_s in E as [_ ?].
Qed.

Lemma join_ends parts :
  parts ≠ [] → forallb file_name parts = true →
  (∃ c t, join "/" parts = String c t ∧ Ascii.eqb "/" c = false) ∧
  ∃ t w, join "/" parts = t +:+ w ∧ file_name w = true.
Proof.
  induction parts as [|w parts IH]; [done|]. intros _ [Hw Hf]%andb_true_iff. split.
  - apply file_name_iff in Hw as [Hne Hh]. destruct w as [|c w]; [done|]. rewrite has_char_cons in Hh.
    apply orb_false_iff in Hh as [Hc _]. destruct parts; cbn; eauto.
  - destruct parts as [|w' parts]; [exists "", w; by rewrite app_nil_s|].
    destruct IH as [_ (t & x & Ht & Hx)]; [done|done|]. rewrite join_cons, Ht.
    exists (w +:+ "/" +:+ t), x. by rewrite !app_assoc_s.
Qed.

Lemma strip_names mount parts :
  clean_mount mount = true → parts ≠ [] → forallb file_name parts = true →
  strip_slash (drop_s (String.length mount) (path_at (rstrip_slash mount) parts)) = join "/" parts.
Proof.
  intros Hm Hne Hf. destruct (join_ends parts Hne Hf) as [(c & t & Hc & Hs) (u & w & Hw & Hn)].
  assert (strip_slash (join "/" parts) = join "/" parts ∧ strip_slash ("/" +:+ join "/" parts) = join "/" parts) as [H1 H2].
  { assert (∀ s, rstrip_slash (s +:+ join "/" parts) = s +:+ join "/" parts) as Hr.
    { intros s. rewrite Hw, <- app_assoc_s. by apply rstrip_name. }
    pose proof (Hr "") as H0. pose proof (Hr "/") as H1. rewrite app_nil_s in H0.
    unfold strip_slash, strip_by. unfold rstrip_slash in H0, H1. rewrite H0, H1, Hc. rewrite app_cons_s, app_nil_s. cbn [lstrip_by]. by rewrite Ascii.eqb_refl, Hs. }
  unfold clean_mount in Hm. apply orb_true_iff in Hm as [->%bool_decide_eq_true|Hb%bool_decide_eq_true]; [exact H1|].
  rewrite Hb. unfold path_at. by rewrite drop_s_app.
Qed.

Lemma descend_iff d base parts :
  d ∈ descend base parts ↔ ∃ a, a ≠ [] ∧ a `prefix_of` parts ∧ d = path_at base a.
Proof.
  revert base. induction parts as [|w parts IH]; intros base; cbn.
  - split; [by intros ?%elem_of_nil|]. intros (a & Hne & Ha%prefix_nil_inv & _). done.
  - rewrite elem_of_cons, IH. split.
    + intros [->|(a & Hne & Ha & ->)].
      * exists [w]. split_and!; [done|by apply prefix_cons, prefix_nil|]. done.
      * exists (w :: a). split_and!; [done|by apply prefix_cons|]. unfold path_at.
        destruct a; [done|]. by rewrite join_cons, !app_assoc_s.
    + intros (a & Hne & Ha & ->). destruct a as [|x a]; [done|].
      apply prefix_cons_inv_1 in Ha as Hx. apply prefix_cons_inv_2 in Ha. subst x.
      destruct a as [|y a]; [by left|]. right. exists (y :: a). split_and!; [done|done|].
      unfold path_at. by rewrite join_cons, !app_assoc_s.
Qed.

Lemma descend_longer d base parts : d ∈ descend base parts → String.length base < String.length d.
Proof.
  intros (a & _ & _ & ->)%descend_iff. unfold path_at. rewrite !length_app_s. cbn. lia.
Qed.

Lemma descend_NoDup base parts : NoDup (descend base parts).
Proof.
  revert base. induction parts as [|w parts IH]; intros base; cbn; constructor; [|apply IH].
  intros H%descend_longer. lia.
Qed.

Definition below (d p : string) : bool := negb (bool_decide (p = d)) && startswith (rstrip_slash d +:+ "/") p.

Lemma path_at_nonempty parts : parts ≠ [] → forallb file_name parts = true → ∃ c t, join "/" parts = String c t.
Proof. intros Hne Hf. destruct (join_ends parts Hne Hf) as [(c & t & H & _) _]. eauto. Qed.

Lemma mount_short mount : clean_mount mount = true → String.length mount ≤ S (String.length (rstrip_slash mount)) ∧
  (mount = "/" ∨ rstrip_slash mount = mount).
Proof.
  unfold clean_mount. intros [->%bool_decide_eq_true|H%bool_decide_eq_true]%orb_true_iff; [auto|]. rewrite H. auto.
Qed.

Lemma path_at_long mount parts :
  clean_mount mount = true → parts ≠ [] → forallb file_name parts = true →
  String.length mount < String.length (path_at (rstrip_slash mount) parts).
Proof.
  intros Hm Hne Hf. destruct (path_at_nonempty parts Hne Hf) as (c & t & H).
  destruct (mount_short mount Hm) as [Hl _]. unfold path_at. rewrite H, !length_app_s. cbn. lia.
Qed.

Lemma path_at_clean base parts :
  parts ≠ [] → forallb file_name parts = true → rstrip_slash (path_at base parts) = path_at base parts.
Proof.
  intros Hne Hf. destruct (join_ends parts Hne Hf) as [_ (u & w & Hw & Hn)].
  unfold path_at. rewrite Hw, <- !app_assoc_s. by apply rstrip_name.
Qed.

Lemma ancestors_clean mount parts :
  clean_mount mount = true → parts ≠ [] → forallb file_name parts = true →
  _ancestor_dirs (path_at (rstrip_slash mount) parts) mount = mount :: descend (rstrip_slash mount) (removelast parts).
Proof.
  intros Hm Hne Hf. unfold _ancestor_dirs. rewrite strip_names by done.
  rewrite (bool_decide_false (path_at _ _ = mount)).
  2:{ intros E. pose proof (path_at_long mount parts Hm Hne Hf). rewrite E in H. lia. }
  unfold path_at. rewrite <- app_assoc_s, startswith_app. cbn. by rewrite split_names.
Qed.

Lemma prefix_removelast (a parts : list string) :
  parts ≠ [] → a `prefix_of` removelast parts ↔ ∃ l, l ≠ [] ∧ parts = a ++ l.
Proof.
  intros Hne. pose proof (app_removelast_last "" Hne) as E. split.
  - intros [l Hl]. exists (l ++ [List.last parts ""]). split; [by intros []%app_eq_nil|].
    rewrite app_assoc, <- Hl. exact E.
  - intros (l & Hl & ->). rewrite removelast_app by done. by exists (removelast l).
Qed.

Lemma below_path_at mount a parts :
  a ≠ [] → forallb file_name a = true → parts ≠ [] → forallb file_name parts = true →
  let base := rstrip_slash mount in
  below (path_at base a) (path_at base parts) = true ↔ a `prefix_of` removelast parts.
Proof.
  intros Ha Hfa Hp Hfp base. rewrite prefix_removelast by done. unfold below. rewrite path_at_clean by done.
  rewrite andb_true_iff. split.
  - intros [_ (t & Ht)%startswith_spec]. exists (split_char "/" t). split; [apply split_char_nonempty|].
    unfold path_at in Ht. rewrite !app_assoc_s in Ht. apply app_inv_head_s, app_inv_head_s in Ht.
    change ("/" +:+ t) with (String "/" t) in Ht.
    apply (f_equal (split_char "/")) in Ht. by rewrite split_char_concat, !split_names in Ht.
  - intros (l & Hl & ->). destruct l as [|w l]; [done|].
    assert (path_at base (a ++ w :: l) = path_at base a +:+ "/" +:+ join "/" (w :: l)) as ->.
    { unfold path_at. rewrite !app_assoc_s. by rewrite join_app. }
    rewrite <- app_assoc_s, startswith_app. split; [|done]. apply negb_true_iff, bool_decide_eq_false.
    intros E%(f_equal String.length). rewrite !length_app_s in E. cbn in E. lia.
Qed.

(** The paths of a volume: its root and the clean paths under it. *)
Definition in_volume (mount p : string) : bool := bool_decide (p = mount) || clean_path mount p.

Lemma in_volume_iff mount p :
  in_volume mount p = true ↔
  p = mount ∨ ∃ parts, parts ≠ [] ∧ forallb file_name parts = true ∧ p = path_at (rstrip_slash mount) parts.
Proof. unfold in_volume. by rewrite orb_true_iff, bool_decide_eq_true, clean_path_iff. Qed.

Lemma forallb_prefix {A} (f : A → bool) (a l : list A) : a `prefix_of` l → forallb f l = true → forallb f a = true.
Proof. intros [k ->]. rewrite forallb_app, andb_true_iff. by intros [? _]. Qed.

Lemma removelast_prefix {A} (l : list A) : removelast l `prefix_of` l.
Proof.
  destruct (decide (l = [])) as [->|H]; [done|]. destruct l as [|x l]; [done|].
  rewrite (app_removelast_last x H) at 2. by apply prefix_app_r.
Qed.

Lemma ancestors_spec mount p d :
  clean_mount mount = true → in_volume mount p = true →
  NoDup (_ancestor_dirs p mount) ∧
  (d ∈ _ancestor_dirs p mount → in_volume mount d = true) ∧
  (in_volume mount d = true → d ∈ _ancestor_dirs p mount ↔ below d p = true).
Proof.
  intros Hm [->|(parts & Hne & Hf & ->)]%in_volume_iff.
  - unfold _ancestor_dirs. rewrite bool_decide_true by done. cbn. split; [constructor|].
    split; [by intros ?%elem_of_nil|]. intros Hd. split; [by intros ?%elem_of_nil|].
    unfold below. intros [Hn%negb_true_iff%bool_decide_eq_false (t & Ht)%startswith_spec]%andb_true_iff.
    apply in_volume_iff in Hd as [->|(a & Ha & Hfa & ->)]; [done|]. exfalso.
    pose proof (path_at_long mount a Hm Ha Hfa) as Hl. rewrite path_at_clean in Ht by done.
    apply (f_equal String.length) in Ht. rewrite !length_app_s in Ht. cbn in Ht. lia.
  - rewrite ancestors_clean by done. split; [|split].
    + constructor; [|apply descend_NoDup]. intros (a & Ha & Hp & E)%descend_iff.
      pose proof (path_at_long mount a Hm Ha) as Hl. rewrite <- E in Hl. specialize (Hl ltac:(
        eapply forallb_prefix; [etransitivity; [exact Hp|apply removelast_prefix]|done])). lia.
    + intros [->|(a & Ha & Hp & ->)%descend_iff]%elem_of_cons; apply in_volume_iff; [by left|right].
      exists a. split_and!; [done| |done]. eapply forallb_prefix; [|exact Hf].
      etransitivity; [exact Hp|apply removelast_prefix].
    + intros [->|(a & Ha & Hfa & ->)]%in_volume_iff.
      * split; [|by left]. intros _. unfold below, path_at. rewrite <- app_assoc_s, startswith_app, andb_true_r.
        apply negb_true_iff, bool_decide_eq_false. intros E.
        pose proof (path_at_long mount parts Hm Hne Hf) as Hl. unfold path_at in Hl. rewrite <- app_assoc_s, E in Hl. lia.
      * rewrite below_path_at, elem_of_cons, descend_iff by done. split.
        -- intros [E|(b & Hb & Hp & E)].
           ++ pose proof (path_at_long mount a Hm Ha Hfa) as Hl. rewrite E in Hl. lia.
           ++ assert (a = b) as ->; [|done]. unfold path_at in E. apply app_inv_head_s, app_inv_head_s in E.
              apply (f_equal (split_char "/")) in E. rewrite !split_names in E; try done.
              eapply forallb_prefix; [|exact Hf]. etransitivity; [exact Hp|apply removelast_prefix].
        -- intros Hp. right. by exists a.
Qed.

Lemma depth_spec mount parts :
  clean_mount mount = true → parts ≠ [] → forallb file_name parts = true →
  _depth_within mount (path_at (rstrip_slash mount) parts) = Z.of_nat (length parts).
Proof.
  intros Hm Hne Hf. unfold _depth_within. rewrite strip_names by done.
  destruct (path_at_nonempty parts Hne Hf) as (c & t & E). rewrite bool_decide_false by (by rewrite E).
  enough (S (count_char "/" (join "/" parts)) = length parts) by lia. clear c t E.
  induction parts as [|w parts IH]; [done|]. apply andb_true_iff in Hf as [Hw Hf].
  assert (count_char "/" w = 0) as Hw0.
  { apply file_name_iff in Hw as [_ Hw]. clear -Hw. induction w as [|c w IH]; [done|].
    rewrite has_char_cons in Hw. apply orb_false_iff in Hw as [Hc Hw]. cbn [count_char]. by rewrite Hc, IH. }
  assert (∀ s t, count_char "/" (s +:+ t) = count_char "/" s + count_char "/" t) as Happ.
  { clear. intros s t. induction s as [|c s IH]; [done|]. rewrite app_cons_s. cbn [count_char]. rewrite IH. lia. }
  destruct parts as [|w' parts]; [by rewrite join_one, Hw0|].
  rewrite join_cons, !Happ, Hw0. specialize (IH ltac:(done) Hf). cbn in *. lia.
Qed.

(** ** The rows of a recompute *)

(** The number of names of a path below the root of its volume. *)
Definition levels (mount d : string) : Z := if bool_decide (d = mount) then 0 else Z.of_nat (length (names_below mount d)).

Definition totals_row (vid now : Z) (mount d : string) (es : list FsEntryRow) : SubtreeRollup :=
  mk_rollup vid d (levels mount d) (sumZ (size_logical <$> es)) (sumZ (size_on_disk <$> es))
    (Z.of_nat (length (filter (λ e, negb (is_dir e)) es))) (Z.of_nat (length (filter (λ e, is_dir e) es))) now.

Definition beneath (d : string) (es : list FsEntryRow) : list FsEntryRow := filter (λ e, below d (path e)) es.

Lemma drop_s_all s : drop_s (String.length s) s = "".
Proof. induction s; [done|]. done. Qed.

Lemma depth_levels mount d : clean_mount mount = true → in_volume mount d = true → _depth_within mount d = levels mount d.
Proof.
  intros Hm [->|(parts & Hne & Hf & ->)]%in_volume_iff; unfold levels.
  - rewrite bool_decide_true by done. unfold _depth_within. by rewrite drop_s_all.
  - pose proof (path_at_long mount parts Hm Hne Hf) as Hl.
    rewrite bool_decide_false by (intros E; rewrite E in Hl; lia). rewrite depth_spec by done.
    unfold names_below, path_at. by rewrite <- app_assoc_s, drop_s_app, split_names.
Qed.

Section Tally.
Context (mount : string) (es : list FsEntryRow) (Hm : clean_mount mount = true).
Context (Hes : Forall (λ e, in_volume mount (path e) = true) es).

Lemma class_beneath d : in_volume mount d = true → class d (pairs mount es) = beneath d es.
Proof.
  intros Hd. pose proof Hes as H. rewrite Forall_forall in H. rewrite class_pairs.
  - apply filter_ext_elem. intros e He. destruct (ancestors_spec mount (path e) d Hm (H e He)) as (_ & _ & Hi).
    rewrite (Hi Hd). by destruct (below d (path e)).
  - intros e He. apply (ancestors_spec mount (path e) "" Hm (H e He)).
Qed.

Lemma class_outside d : in_volume mount d = false → class d (pairs mount es) = [].
Proof.
  intros Hd. pose proof Hes as H. rewrite Forall_forall in H. rewrite class_pairs.
  - apply filter_none, Forall_forall. intros e He Hin.
    destruct (ancestors_spec mount (path e) d Hm (H e He)) as (_ & Hv & _). specialize (Hv Hin). congruence.
  - intros e He. apply (ancestors_spec mount (path e) "" Hm (H e He)).
Qed.

Lemma elem_of_tally d a :
  (d, a) ∈ tally_of mount es ↔ in_volume mount d = true ∧ beneath d es ≠ [] ∧ a = acc_of (beneath d es).
Proof.
  rewrite tally_of_group, list_elem_of_fmap. split.
  - intros ([d' xs] & [= -> ->] & [-> Hne]%elem_of_group_by). destruct (in_volume mount d') eqn:Hd.
    + by rewrite class_beneath in *.
    + by rewrite class_outside in Hne.
  - intros (Hd & Hne & ->). exists (d, beneath d es). split; [done|]. apply elem_of_group_by.
    by rewrite class_beneath.
Qed.

Lemma tally_NoDup : NoDup (tally_of mount es).*1.
Proof. rewrite tally_of_group, <- list_fmap_compose. apply NoDup_group_by. Qed.

Lemma tally_get_root : tally_get mount (tally_of mount es) = acc_of (beneath mount es).
Proof.
  assert (in_volume mount mount = true) as Hr by (apply in_volume_iff; by left).
  unfold tally_get. destruct (filter _ _) as [|[d a] l] eqn:E.
  - destruct (beneath mount es) as [|e l'] eqn:Eb; [done|].
    assert ((mount, acc_of (beneath mount es)) ∈ filter (λ x : string * _Acc, x.1 = mount) (tally_of mount es)) as Hin.
    { apply list_elem_of_filter. split; [done|]. apply elem_of_tally. by rewrite Eb. }
    rewrite E in Hin. by apply elem_of_nil in Hin.
  - assert ((d, a) ∈ filter (λ x : string * _Acc, x.1 = mount) (tally_of mount es)) as Hin by (rewrite E; left).
    apply list_elem_of_filter in Hin as [Hd Hin]. cbn in Hd. subst d. by apply elem_of_tally in Hin as (_ & _ & ->).
Qed.
End Tally.

Lemma recompute_inv vid now db n db' v :
  recompute_full vid now db = Ok (n, db') → get_volume vid (volumes db) = Some v →
  let t := tally_of (mountpoint v) (live vid (fs_entry db)) in
  let rows := _rollup_rows vid (mountpoint v) t now in
  let root := tally_get (mountpoint v) t in
  n = Z.of_nat (length rows) ∧
  db' = set_rollups (filter (λ r, ro_volume_id r ≠ vid) (rollups db) ++ rows)
          (size_history db ++ [mk_history vid (mountpoint v) now (a_size_logical root) (a_size_on_disk root)
                                 (a_file_count root)]) db.
Proof.
  intros H Hv t rows root. unfold recompute_full in H. rewrite Hv in H. cbv zeta in H. fold t rows root in H.
  rewrite inserted_batches in H. unfold _batched in H. rewrite batched_loop_concat in H.
  injection H as <- <-. done.
Qed.

(** The rows that a recompute leaves for its volume. *)
Lemma recompute_rows vid now db n db' v :
  recompute_full vid now db = Ok (n, db') → get_volume vid (volumes db) = Some v →
  let mount := mountpoint v in
  let es := live vid (fs_entry db) in
  clean_mount mount = true → Forall (λ e, in_volume mount (path e) = true) es →
  let rows := filter (λ r, ro_volume_id r = vid) (rollups db') in
  rows = _rollup_rows vid mount (tally_of mount es) now ∧ NoDup (ro_path <$> rows) ∧
  ∀ r, r ∈ rows ↔ ∃ d, in_volume mount d = true ∧ beneath d es ≠ [] ∧ r = totals_row vid now mount d (beneath d es).
Proof.
  intros H Hv mount es Hm Hes rows. apply (recompute_inv vid now db n db' v) in H as [_ ->]; [|done].
  fold mount es in rows |- *. unfold set_rollups in *. cbn [rollups] in *.
  assert (rows = _rollup_rows vid mount (tally_of mount es) now) as ->.
  { unfold rows. rewrite filter_app, filter_none, filter_all; [done| |].
    - apply Forall_forall. by intros r ([p a] & -> & _)%list_elem_of_fmap.
    - apply Forall_forall. intros r [Hr _]%list_elem_of_filter. done. }
  unfold _rollup_rows. split; [done|split].
  - rewrite <- list_fmap_compose. erewrite list_fmap_ext; [apply (tally_NoDup mount es)|]. by intros i [p a] _.
  - intros r. rewrite list_elem_of_fmap. split.
    + intros ([d a] & -> & (Hd & Hne & ->)%elem_of_tally); [|done..]. exists d. split_and!; [done..|].
      unfold totals_row. by rewrite depth_levels.
    + intros (d & Hd & Hne & ->). exists (d, acc_of (beneath d es)). split; [|by apply elem_of_tally].
      unfold totals_row. by rewrite depth_levels.
Qed.

(** C28: On a volume with a POSIX mount point without a trailing slash, whose live paths are POSIX paths
    in it, a full recompute leaves one row for each directory with live entries beneath it and none else,
    and the row holds the totals of exactly the live entries beneath; rows of other volumes stay, and a
    point with the root's totals joins the history.  On a Windows volume only the mount point itself gets
    a row ([windows_has_no_subtrees]). *)
Theorem rollup_totals vid now db n db' v :
  recompute_full vid now db = Ok (n, db') → get_volume vid (volumes db) = Some v →
  let mount := mountpoint v in
  let es := live vid (fs_entry db) in
  clean_mount mount = true → Forall (λ e, in_volume mount (path e) = true) es →
  let rows := filter (λ r, ro_volume_id r = vid) (rollups db') in
  n = Z.of_nat (length rows) ∧ NoDup (ro_path <$> rows) ∧
  (∀ r, r ∈ rows ↔ ∃ d, in_volume mount d = true ∧ beneath d es ≠ [] ∧ r = totals_row vid now mount d (beneath d es)) ∧
  filter (λ r, ro_volume_id r ≠ vid) (rollups db') = filter (λ r, ro_volume_id r ≠ vid) (rollups db) ∧
  ∃ root, root = totals_row vid now mount mount (beneath mount es) ∧
    size_history db' = size_history db ++ [mk_history vid mount now (ro_size_logical root) (ro_size_on_disk root) (ro_file_count root)].
Proof.
  intros H Hv mount es Hm Hes rows. destruct (recompute_rows vid now db n db' v H Hv Hm Hes) as (Hrows & Hnd & Hiff).
  fold mount es rows in Hrows, Hnd, Hiff. apply (recompute_inv vid now db n db' v) in H as [-> ->]; [|done].
  fold mount es in Hrows |- *. split; [by rewrite <- Hrows|]. split; [done|]. split; [done|].
  unfold set_rollups. cbn [rollups size_history]. rewrite tally_get_root by done. split.
  - rewrite filter_app, (filter_none _ (_rollup_rows _ _ _ _)), app_nil_r.
    + apply filter_all, Forall_forall. intros r [Hr _]%list_elem_of_filter. done.
    + apply Forall_forall. intros r ([p a] & -> & _)%list_elem_of_fmap. cbn. auto.
  - eexists. split; [done|]. done.
Qed.

(** ** On a small volume *)

Definition demo_row (id vid : Z) (p : string) (dir : bool) (size : Z) (pres : bool) : FsEntryRow :=
  mk_entry id 1 vid None p p 1 dir false size size 0 0 0 0 id 0 "{}" None pres None None None None None None.

Definition demo_volume (id host : Z) (mount : string) : Volume :=
  mk_volume id host mount None "data" "zfs" "tank" "nvme" None None None 100 50 50 true 0.

Definition demo_catalogue : catalogue :=
  mk_catalogue [mk_host 1 "nas" None None "fp" None None None None]
    [demo_volume 1 1 "/srv"; demo_volume 2 1 "/empty"; demo_volume 3 1 "D:\data"]
    [mk_snapshot 1 1 1 "metadata" 5 None 0 0; mk_snapshot 2 1 2 "metadata" 5 None 0 0]
    [demo_row 1 1 "/srv" true 1 true; demo_row 2 1 "/srv/a" true 1 true; demo_row 3 1 "/srv/a/x" false 10 true;
     demo_row 4 1 "/srv/ab" false 20 true; demo_row 5 1 "/srv/a/gone" false 40 false;
     demo_row 6 3 "D:\data\a\x" false 10 true]
    [] [] [].

Lemma rollup_totals_witness : ∃ n db',
  recompute_full 1 9 demo_catalogue = Ok (n, db') ∧ n = 2%Z ∧ NoDup (ro_path <$> rollups db').
Proof.
  eexists _, _. split; [vm_compute; reflexivity|].
  edestruct (rollup_totals 1 9 demo_catalogue) as (_ & Hn & _);
    [vm_compute; reflexivity|vm_compute; reflexivity|reflexivity|by_compute|].
  split; [reflexivity|exact Hn].
Defined.

(** A Windows path contributes to the root of its volume only: no directory of it gets a row. *)
Lemma windows_has_no_subtrees : ∃ n db',
  recompute_full 3 9 demo_catalogue = Ok (n, db') ∧ ro_path <$> rollups db' = ["D:\data"].
Proof. eexists _, _. split; vm_compute; reflexivity. Qed.
