(* ===== verification/Query.v ===== *)
(** The read queries of the catalogue ([src/fathom/core/query.py]) and the routes over them ([api/routers/read.py],
    [api/routers/duplicates.py]).

    A query is a function of the tables.  [ORDER BY] leaves ties in the order of the table, and text is ordered by code points.
    Case folding of the database ([ILIKE]) is a parameter.  Timestamps and sizes are integers. *)

From stdpp Require Import gmap pretty.
From S2P Require Import Prelude PyStr PyDict Sql Json DedupStore Catalogue Rbac Rollup.

Local Open Scope Z_scope.

Inductive QueryError := ValueError (message : string) | Forbidden (exc : HTTPException).
Notation query := (result QueryError).

(** [if scope is not None: stmt = scope.apply(stmt, ...)], on a row. *)
Definition scoped {Row} (scope : option ScopeFilter) (host_col volume_col : Row → Z) (kind_col : Row → string) (row : Row) : bool :=
  match scope with Some f => apply f (Some host_col) (Some volume_col) (Some kind_col) row | None => true end.

(** ** Volumes *)

Definition list_volumes (vs : list Volume) (scope : option ScopeFilter) : list Volume :=
  order_by Z.leb v_id (filter (λ v, scoped scope v_host_id v_id v_kind v) vs).

Definition _check_volume_in_scope (volume : Volume) (scope : option ScopeFilter) : query unit :=
  match scope with
  | None => Ok tt
  | Some f =>
      match check_target f (v_host_id volume) (Some (v_id volume)) (Some (v_kind volume)) with
      | Ok _ => Ok tt
      | Err exc => Err (Forbidden exc)
      end
  end.

Definition get_volume_in_scope (vs : list Volume) (volume_id : Z) (scope : option ScopeFilter) : query (option Volume) :=
  match get_volume volume_id vs with
  | None => Ok None
  | Some volume => _ ← _check_volume_in_scope volume scope; Ok (Some volume)
  end.

Definition unknown_volume {A} (volume_id : Z) : query A := Err (ValueError ("unknown volume_id " +:+ pretty volume_id)).

(** [session.get(Volume, id)] and its scope check. *)
Definition _scoped_volume (vs : list Volume) (volume_id : Z) (scope : option ScopeFilter) : query Volume :=
  match get_volume volume_id vs with
  | None => unknown_volume volume_id
  | Some volume => _ ← _check_volume_in_scope volume scope; Ok volume
  end.

(** ** Drill-down *)

Record TreeChild := mk_child {
  t_entry_id : Z; t_path : string; t_name : string; t_is_dir : bool; t_is_symlink : bool; t_size_logical : Z; t_size_on_disk : Z;
  subtree_size_logical : Z; subtree_size_on_disk : Z; file_count : Z; t_mtime : Z; t_uid : Z; t_gid : Z; t_inode : Z;
  t_flags : string; t_content_hash : option string;
}.

(** [WHERE] of the children: live, one level down, below [path/]. *)
Definition is_child (volume_id child_depth : Z) (path : string) (e : FsEntryRow) : bool :=
  bool_decide (Catalogue.volume_id e = volume_id) && bool_decide (depth e = child_depth) &&
  like (subtree_like path) (Catalogue.path e) && present e.

(** The outer join of an entry with its rollup. *)
Definition with_rollup (rs : list SubtreeRollup) (e : FsEntryRow) : list (FsEntryRow * option SubtreeRollup) :=
  match filter (λ r, bool_decide (ro_volume_id r = Catalogue.volume_id e) && bool_decide (ro_path r = Catalogue.path e)) rs with
  | [] => [(e, None)]
  | matches => (λ r, (e, Some r)) <$> matches
  end.

Definition children_rows (cat : catalogue) (volume_id : Z) (mount path : string) : list (FsEntryRow * option SubtreeRollup) :=
  filter (λ e, is_child volume_id (_depth_within mount path + 1) path e) (fs_entry cat) ≫= with_rollup (rollups cat).

(** The rollup's totals, or the entry's own: logical size, size on disk, files. *)
Definition effective (row : FsEntryRow * option SubtreeRollup) : Z * Z * Z :=
  match row.2 with
  | Some r => (ro_size_logical r, ro_size_on_disk r, ro_file_count r)
  | None => (size_logical row.1, size_on_disk row.1, if is_dir row.1 then 0 else 1)
  end.

Definition tree_child (row : FsEntryRow * option SubtreeRollup) : TreeChild :=
  let e := row.1 in
  let '(subtree_logical, subtree_on_disk, files) := effective row in
  mk_child (e_id e) (path e) (name e) (is_dir e) (is_symlink e) (size_logical e) (size_on_disk e) subtree_logical subtree_on_disk
    files (mtime e) (uid e) (gid e) (inode e) (flags e) (Catalogue.full_hash e).

Definition list_children (cat : catalogue) (volume_id : Z) (path : string) (scope : option ScopeFilter) : query (list TreeChild) :=
  volume ← _scoped_volume (volumes cat) volume_id scope;
  Ok (tree_child <$> order_by str_le (λ row, name row.1) (children_rows cat volume_id (mountpoint volume) path)).

(** ** Search *)

Record SearchResult := mk_hit {
  s_path : string; s_name : string; s_is_dir : bool; s_size_logical : Z; s_size_on_disk : Z; s_host_id : Z; s_volume_id : Z;
}.

Fixpoint fold_case (fold : ascii → ascii) (s : string) : string :=
  match s with "" => "" | String c s' => String (fold c) (fold_case fold s') end.

(** [name ILIKE pat ESCAPE '\'], by the case folding of the database. *)
Definition ilike (fold : ascii → ascii) (pat s : string) : bool := like (fold_case fold pat) (fold_case fold s).

(** [JOIN volume ... WHERE] of the search. *)
Definition matches (fold : ascii → ascii) (vs : list Volume) (q : string) (scope : option ScopeFilter) (volume_id : option Z)
    (e : FsEntryRow) : bool :=
  match get_volume (Catalogue.volume_id e) vs with
  | None => false
  | Some volume =>
      present e && ilike fold ("%" +:+ escape_like q +:+ "%") (name e) &&
      match volume_id with Some v => bool_decide (Catalogue.volume_id e = v) | None => true end &&
      scoped scope host_id Catalogue.volume_id (λ _, v_kind volume) e
  end.

Definition search_result (e : FsEntryRow) : SearchResult :=
  mk_hit (path e) (name e) (is_dir e) (size_logical e) (size_on_disk e) (host_id e) (volume_id e).

Definition search_entries (fold : ascii → ascii) (cat : catalogue) (q : string) (scope : option ScopeFilter) (volume_id : option Z)
    (limit : Z) : list SearchResult :=
  search_result <$> sql_limit limit
    (order_by (desc Z.leb) size_on_disk (filter (λ e, matches fold (volumes cat) q scope volume_id e) (fs_entry cat))).

(** ** History and churn *)

Definition since_ok (since : option Z) (ts : Z) : bool := match since with Some s => s <=? ts | None => true end.
Definition until_ok (until : option Z) (ts : Z) : bool := match until with Some u => ts <=? u | None => true end.

(** [if scope is not None]: the volume must exist and be in scope. *)
Definition check_scoped (vs : list Volume) (volume_id : Z) (scope : option ScopeFilter) : query unit :=
  match scope with None => Ok tt | Some _ => _ ← _scoped_volume vs volume_id scope; Ok tt end.

Definition history_rows (cat : catalogue) (volume_id : Z) (path : string) (since until : option Z) : list SizeHistory :=
  order_by Z.leb hi_ts
    (filter (λ h, bool_decide (hi_volume_id h = volume_id) && bool_decide (hi_path h = path) &&
                  since_ok since (hi_ts h) && until_ok until (hi_ts h)) (size_history cat)).

Definition get_history (cat : catalogue) (volume_id : Z) (path : string) (since until : option Z) (scope : option ScopeFilter)
    : query (list SizeHistory) :=
  _ ← check_scoped (volumes cat) volume_id scope;
  Ok (history_rows cat volume_id path since until).

(** The rows of the feed: [path] itself and what is below it. *)
Definition in_subtree (path : option string) (p : string) : bool :=
  match path with None => true | Some d => bool_decide (p = d) || like (subtree_like d) p end.

(** [ORDER BY ts DESC, id DESC]; the id of a row is its place in the table. *)
Definition change_le (x y : Z * Z) : bool := desc (lex_le Z.leb) x y.

Definition get_changes (cat : catalogue) (volume_id : Z) (path : option string) (since until : option Z) (limit : Z)
    (scope : option ScopeFilter) : query (list ChangeLog) :=
  _ ← check_scoped (volumes cat) volume_id scope;
  Ok (snd <$> sql_limit limit (order_by change_le (λ row, (c_ts row.2, row.1))
    (filter (λ row, bool_decide (c_volume_id row.2 = volume_id) && in_subtree path (c_path row.2) &&
                    since_ok since (c_ts row.2) && until_ok until (c_ts row.2))
       (imap (λ i c, (Z.of_nat i, c)) (change_log cat))))).

(** ** Duplicates *)

(** [exists(SELECT ... FROM dup_member WHERE group_id = id AND p)]. *)
Definition has_member (d : dedup_db) (p : DupMember → bool) (id : Z) : bool :=
  existsb (λ m, bool_decide (m.1 = id) && p m.2) (dup_members d).

(** The predicate on members: hosts and volumes, no kind. *)
Definition member_in_scope (scope : ScopeFilter) (m : DupMember) : bool := apply scope (Some m_host_id) (Some m_volume_id) None m.

Definition _member_scope_predicate (d : dedup_db) (scope : ScopeFilter) (id : Z) : bool := has_member d (member_in_scope scope) id.

(** [scope is not None and not scope.is_global]: the scope that filters. *)
Definition narrowing (scope : option ScopeFilter) : option ScopeFilter :=
  match scope with Some f => if is_global f then None else Some f | None => None end.

(** The filters that the page and the summary share. *)
Definition listed (d : dedup_db) (scope : option ScopeFilter) (volume_id : option Z) (id : Z) : bool :=
  match volume_id with Some v => has_member d (λ m, bool_decide (m_volume_id m = v)) id | None => true end &&
  match narrowing scope with Some f => _member_scope_predicate d f id | None => true end.

Definition after (cursor : option Z) (id : Z) : bool := match cursor with Some c => c <? id | None => true end.

Definition list_duplicate_groups (d : dedup_db) (scope : option ScopeFilter) (volume_id cursor : option Z) (limit : nat)
    : list (Z * DupGroup) * option Z :=
  let rows := take (limit + 1) (order_by Z.leb fst
                (filter (λ g, after cursor g.1 && listed d scope volume_id g.1) (dup_groups d))) in
  let groups := take limit rows in
  (groups, if decide (limit < length rows)%nat then fst <$> last groups else None).

Definition duplicate_summary (d : dedup_db) (scope : option ScopeFilter) (volume_id : option Z) : Z * Z :=
  let gs := filter (λ g, listed d scope volume_id g.1) (dup_groups d) in
  (Z.of_nat (length gs), sumZ ((λ g, reclaimable_bytes g.2) <$> gs)).

Definition get_duplicate_group (d : dedup_db) (group_id : Z) (scope : option ScopeFilter) : option (DupGroup * list DupMember) :=
  match head (filter (λ g, g.1 = group_id) (dup_groups d)) with
  | None => None
  | Some group =>
      let members := snd <$> filter (λ m, bool_decide (m.1 = group_id) &&
        match narrowing scope with Some f => member_in_scope f m.2 | None => true end) (dup_members d) in
      match members with [] => None | _ => Some (group.2, members) end
  end.

(** ** Search is containment *)

(** What the theorems need of a case folding: the characters that LIKE treats specially fold to themselves, and only they do. *)
Definition keeps_metacharacters (fold : ascii → ascii) : Prop :=
  ∀ m, m ∈ [_LIKE_ESCAPE; "%"%char; "_"%char] → ∀ c, fold c = m ↔ c = m.

Lemma fold_case_app fold a b : fold_case fold (a +:+ b) = fold_case fold a +:+ fold_case fold b.
Proof. induction a as [|c a IH]; [done|]. rewrite app_cons_s. simpl. by rewrite IH. Qed.

Lemma eqb_fold fold m c : keeps_metacharacters fold → m ∈ [_LIKE_ESCAPE; "%"%char; "_"%char] → Ascii.eqb (fold c) m = Ascii.eqb c m.
Proof.
  intros H Hm. specialize (H m Hm c). destruct (Ascii.eqb_spec (fold c) m), (Ascii.eqb_spec c m); try done; exfalso; naive_solver.
Qed.

Lemma fold_escape fold s : keeps_metacharacters fold → fold_case fold (escape_like s) = escape_like (fold_case fold s).
Proof.
  intros H. induction s as [|c s IH]; [done|]. cbn [fold_case]. rewrite !escape_like_cons, fold_case_app, IH. f_equal.
  unfold esc1. rewrite !(eqb_fold fold) by (done || set_solver). destruct (_ || _); [|done]. cbn.
  by rewrite (proj2 (H _LIKE_ESCAPE ltac:(set_solver) _LIKE_ESCAPE)).
Qed.

Lemma like_percent p s : like (String "%" p) s = true ↔ ∃ a b, s = a +:+ b ∧ like p b = true.
Proof.
  induction s as [|c s IH].
  - cbn. rewrite orb_false_r. split; [intros Hp; by exists "", ""|]. by intros (a & b & [-> ->]%symmetry%app_eq_empty_s & Hp).
  - change (like (String "%" p) (String c s)) with (like p (String c s) || like (String "%" p) s).
    rewrite orb_true_iff, IH. split.
    + intros [Hp|(a & b & -> & Hp)]; [by exists "", (String c s)|]. exists (String c a), b. by rewrite app_cons_s.
    + intros (a & b & E & Hp). destruct a as [|c' a]; [rewrite app_nil_s in E; subst; by left|].
      rewrite app_cons_s in E. apply String_inj in E as [-> ->]. right. eauto.
Qed.

Lemma ilike_contains fold q s :
  keeps_metacharacters fold →
  ilike fold ("%" +:+ escape_like q +:+ "%") s = true ↔ ∃ a b, fold_case fold s = a +:+ fold_case fold q +:+ b.
Proof.
  intros H. unfold ilike. rewrite !fold_case_app, fold_escape by done. cbn [fold_case].
  rewrite (proj2 (H "%"%char ltac:(set_solver) "%"%char) eq_refl). rewrite app_cons_s, app_nil_s, like_percent.
  setoid_rewrite like_escaped. split.
  - intros (a & b & -> & t & -> & _). eauto.
  - intros (a & b & ->). exists a, (fold_case fold q +:+ b). split; [done|]. exists b. split; [done|]. apply like_any.
Qed.

Lemma scoped_check scope (h v : FsEntryRow → Z) k row :
  scoped scope h v (λ _, k) row = true ↔
  match scope with Some f => check_target f (h row) (Some (v row)) (Some k) = Ok tt | None => True end.
Proof.
  destruct scope as [f|]; [|done]. exact (apply_agrees_with_check f h v (λ _, k) row).
Qed.

(** A search shows the largest live entries, at most [limit] of them, among exactly those whose name contains the text literally
    (whatever wildcards it holds, up to case) on an existing volume that the scope's target check accepts. *)
Theorem search_spec fold cat q scope vid limit :
  keeps_metacharacters fold → 0 ≤ limit →
  ∃ hits rest,
    search_entries fold cat q scope vid limit = search_result <$> hits ∧
    length hits = (Z.to_nat limit `min` length (hits ++ rest))%nat ∧
    (∀ x y, x ∈ hits → y ∈ rest → size_on_disk y ≤ size_on_disk x) ∧
    StronglySorted (λ x y, size_on_disk y ≤ size_on_disk x) hits ∧
    (∀ e, e ∈ hits ++ rest ↔
      e ∈ fs_entry cat ∧ present e = true ∧ (∃ a b, fold_case fold (name e) = a +:+ fold_case fold q +:+ b) ∧
      (∀ v, vid = Some v → volume_id e = v) ∧
      ∃ volume, get_volume (volume_id e) (volumes cat) = Some volume ∧
        match scope with Some f => check_target f (host_id e) (Some (volume_id e)) (Some (v_kind volume)) = Ok tt | None => True end).
Proof.
  intros Hf Hl. unfold search_entries, sql_limit. destruct (Z.ltb_spec limit 0); [lia|]. set (all := filter _ _).
  destruct (top_spec (desc Z.leb) size_on_disk (Z.to_nat limit) all) as (Hlen & Hs & rest & Hp & Hle).
  exists (take (Z.to_nat limit) (order_by (desc Z.leb) size_on_disk all)), rest. split; [done|].
  split; [by rewrite <- Hp|]. split; [|split].
  - intros x y Hx Hy. by apply Z.leb_le, Hle.
  - eapply StronglySorted_mono; [|exact Hs]. intros x y Hxy. by apply Z.leb_le, Is_true_true.
  - intros e. rewrite <- Hp. unfold all. rewrite list_elem_of_filter, Is_true_true.
    unfold matches. destruct (get_volume _ _) as [volume|]; [|naive_solver].
    rewrite !andb_true_iff, ilike_contains, scoped_check by done. destruct vid; rewrite ?bool_decide_eq_true; naive_solver.
Qed.

(** ** The pages of the duplicate list *)

(** All groups, page after page. *)
Fixpoint duplicate_pages (fuel : nat) (d : dedup_db) (scope : option ScopeFilter) (volume_id cursor : option Z) (limit : nat)
    : option (list (Z * DupGroup)) :=
  match fuel with
  | 0%nat => None
  | S n =>
      match list_duplicate_groups d scope volume_id cursor limit with
      | (page, None) => Some page
      | (page, Some c) => app page <$> duplicate_pages n d scope volume_id (Some c) limit
      end
  end.

Definition groups_listed (d : dedup_db) (scope : option ScopeFilter) (volume_id : option Z) : list (Z * DupGroup) :=
  filter (λ g, listed d scope volume_id g.1) (dup_groups d).

(** The ids of the groups ascend, as an autoincrement key gives them. *)
Definition ids_ascend (d : dedup_db) : Prop := StronglySorted Z.lt (fst <$> dup_groups d).

Lemma StronglySorted_filter_key {A} (key : A → Z) (p : A → bool) l :
  StronglySorted Z.lt (key <$> l) → StronglySorted Z.lt (key <$> filter (λ x, p x) l).
Proof.
  induction l as [|x l IH]; [done|]. rewrite filter_cons_b, fmap_cons. intros [Hl Hx]%StronglySorted_inv.
  destruct (p x); [|by apply IH]. rewrite fmap_cons. constructor; [by apply IH|]. rewrite Forall_fmap in *.
  eapply Forall_sublist_of; [exact Hx|]. clear. induction l as [|y l IH]; [done|]. rewrite filter_cons_b.
  destruct (p y); by constructor.
Qed.

(** Ascending keys are descending negated keys. *)
Lemma after_below cursor id : after cursor id = Prelude.below (Z.opp <$> cursor) (- id).
Proof. destruct cursor as [c|]; [|done]. simpl. destruct (Z.ltb_spec c id), (Z.ltb_spec (- id) (- c)); lia. Qed.

Lemma negated_sorted {A} (key : A → Z) l : StronglySorted Z.lt (key <$> l) → StronglySorted Z.gt ((λ x, - key x) <$> l).
Proof.
  induction l as [|x l IH]; [constructor|]. rewrite !fmap_cons. intros [Hl Hx]%StronglySorted_inv. constructor; [by apply IH|].
  rewrite Forall_fmap in *. eapply Forall_impl; [exact Hx|]. intros y Hy. simpl in *. lia.
Qed.

Section Pages.
Context (d : dedup_db) (scope : option ScopeFilter) (vid : option Z) (Hd : ids_ascend d).

Definition at_cursor (cursor : option Z) (k : list (Z * DupGroup)) : Prop :=
  cursor_at (λ g : Z * DupGroup, - g.1) (groups_listed d scope vid) (Z.opp <$> cursor) k.

Lemma page_at cursor k limit :
  at_cursor cursor k →
  list_duplicate_groups d scope vid cursor limit =
    (take limit k, if decide (limit < length k)%nat then fst <$> last (take limit k) else None).
Proof.
  intros Hk. unfold list_duplicate_groups.
  assert (filter (λ g, after cursor g.1 && listed d scope vid g.1) (dup_groups d) = k) as ->.
  { rewrite <- (filter_cursor (λ g : Z * DupGroup, - g.1) _ _ k (negated_sorted fst _ (StronglySorted_filter_key fst _ _ Hd)) Hk).
    unfold groups_listed. rewrite filter_and. apply filter_ext_b. intros g. by rewrite after_below, andb_comm. }
  rewrite order_by_id.
  2:{ assert (StronglySorted Z.lt (fst <$> groups_listed d scope vid)) as Hs by (by apply StronglySorted_filter_key).
      revert Hk. unfold at_cursor. destruct cursor as [c|]; simpl; [|by intros ->]. intros (l & x & E & _). rewrite E in Hs.
      rewrite fmap_app in Hs. by apply StronglySorted_app_1_r, StronglySorted_inv in Hs as [Hs _]. }
  rewrite take_take, (Nat.min_l limit (limit + 1)), length_take by lia. f_equal.
  destruct (decide (limit < length k)%nat); [rewrite decide_True by lia|rewrite decide_False by lia]; done.
Qed.

Lemma duplicate_pages_from limit fuel cursor k :
  (0 < limit)%nat → (length k < fuel)%nat → at_cursor cursor k → duplicate_pages fuel d scope vid cursor limit = Some k.
Proof.
  intros Hl. revert cursor k. induction fuel as [|n IH]; intros cursor k Hk Hc; [lia|]. cbn [duplicate_pages]. rewrite (page_at cursor k) by done.
  destruct (decide _) as [Hlt|Hge]; [|by rewrite take_ge by lia].
  destruct (cursor_next _ _ _ _ limit Hc) as (x & Hx & Hc'); [lia|]. rewrite Hx. simpl.
  rewrite (IH _ (drop limit k)); [|rewrite length_drop; lia|]; [simpl; by rewrite take_drop|]. exact Hc'.
Qed.
End Pages.

(** Every group of the report has a member: the rebuild writes no other. *)
Definition members_exist (d : dedup_db) : Prop := Forall (λ g, has_member d (λ _, true) g.1 = true) (dup_groups d).

Lemma shown_iff d scope id :
  is_Some (get_duplicate_group d id scope) ↔
  (∃ g, (id, g) ∈ dup_groups d) ∧
  has_member d (λ m, match narrowing scope with Some f => member_in_scope f m | None => true end) id = true.
Proof.
  unfold get_duplicate_group. destruct (head _) as [g|] eqn:Eg.
  - assert (∃ g, (id, g) ∈ dup_groups d) as Hg.
    { apply head_Some_elem_of, list_elem_of_filter in Eg as [Hid Hin]. destruct g as [i g]. simpl in Hid. subst. eauto. }
    unfold has_member. rewrite existsb_exists. destruct (snd <$> filter _ _) as [|m ms] eqn:Em.
    + split; [by intros [? ?]|]. intros [_ (x & Hx%list_elem_of_In & Hp)].
      apply fmap_nil_inv in Em. destruct (filter_nil_not_elem_of _ _ x Em); [by apply Is_true_true|done].
    + split; [intros _; split; [done|]|by eauto].
      assert (m ∈ m :: ms) as Hm by left. rewrite <- Em in Hm.
      apply list_elem_of_fmap in Hm as (x & _ & [Hx%Is_true_true Hin]%list_elem_of_filter). exists x. split; [by apply list_elem_of_In|done].
  - split; [by intros [? ?]|]. intros [(g & Hg) _]. apply head_None in Eg.
    by destruct (filter_nil_not_elem_of _ _ (id, g) Eg).
Qed.

Lemma listed_iff_shown d scope id g :
  members_exist d → (id, g) ∈ dup_groups d →
  listed d scope None id = true ↔ is_Some (get_duplicate_group d id scope).
Proof.
  intros Hm Hg. rewrite shown_iff. unfold listed, _member_scope_predicate. destruct (narrowing scope) as [f|]; simpl.
  - split; [intros H; split; [eauto|exact H]|by intros [_ ?]].
  - split; [intros _|done]. split; [eauto|]. unfold members_exist in Hm. rewrite Forall_forall in Hm. exact (Hm (id, g) Hg).
Qed.

(** C32: Paging through the duplicate list shows, once each and in id order, exactly the groups whose detail the same principal gets, and
    the summary counts those groups and adds their reclaimable bytes. *)
Theorem duplicates_listing_exact d scope limit :
  ids_ascend d → members_exist d → (0 < limit)%nat →
  ∃ gs, duplicate_pages (S (length (dup_groups d))) d scope None None limit = Some gs ∧
    gs `sublist_of` dup_groups d ∧
    duplicate_summary d scope None = (Z.of_nat (length gs), sumZ ((λ g, reclaimable_bytes g.2) <$> gs)) ∧
    ∀ id g, (id, g) ∈ gs ↔ (id, g) ∈ dup_groups d ∧ is_Some (get_duplicate_group d id scope).
Proof.
  intros Hd Hm Hl. exists (groups_listed d scope None). split_and!.
  - apply duplicate_pages_from; [done|done| |done]. pose proof (length_filter_le (λ g, listed d scope None g.1) (dup_groups d)).
    unfold groups_listed. lia.
  - apply filter_sublist_b.
  - done.
  - intros id g. unfold groups_listed. rewrite list_elem_of_filter, Is_true_true. simpl. split.
    + intros [H1 H2]. split; [done|]. by eapply listed_iff_shown in H1.
    + intros [H1 H2]. split; [by eapply listed_iff_shown|done].
Qed.

(** ** Drill-down adds up *)

(** The names below the root of a volume that lead to a path. *)
Definition at_names (mount p : string) (parts : list string) : Prop :=
  forallb file_name parts = true ∧ p = match parts with [] => mount | _ => path_at (rstrip_slash mount) parts end.

Lemma in_volume_names mount p : in_volume mount p = true ↔ ∃ parts, at_names mount p parts.
Proof.
  rewrite in_volume_iff. split.
  - intros [->|(parts & Hne & Hf & ->)]; [by exists []|]. exists parts. split; [done|]. by destruct parts.
  - intros ([|w parts] & Hf & ->); [by left|right]. by exists (w :: parts).
Qed.

Section Names.
Context (mount : string) (Hm : clean_mount mount = true).

Lemma names_inj p a b : at_names mount p a → at_names mount p b → a = b.
Proof.
  intros [Ha ->] [Hb E]. destruct a as [|x a], b as [|y b]; [done|..].
  - pose proof (path_at_long mount (y :: b) Hm ltac:(done) Hb) as Hl. rewrite <- E in Hl. lia.
  - pose proof (path_at_long mount (x :: a) Hm ltac:(done) Ha) as Hl. rewrite E in Hl. lia.
  - unfold path_at in E. apply app_inv_head_s, app_inv_head_s, (f_equal (split_char "/")) in E. by rewrite !split_names in E.
Qed.

Lemma names_depth p a : at_names mount p a → _depth_within mount p = Z.of_nat (length a).
Proof.
  intros [Ha ->]. destruct a as [|x a]; [|by apply depth_spec]. unfold _depth_within. by rewrite drop_s_all.
Qed.

Lemma names_below_iff d p a b :
  at_names mount d a → at_names mount p b → Rollup.below d p = true ↔ ∃ l, l ≠ [] ∧ b = a ++ l.
Proof.
  intros Ha Hb. assert (in_volume mount p = true) as Hp by (apply in_volume_names; eauto).
  assert (in_volume mount d = true) as Hd by (apply in_volume_names; eauto).
  destruct (ancestors_spec mount p d Hm Hp) as (_ & _ & Hi). rewrite <- (Hi Hd). destruct Ha as [Hfa ->], Hb as [Hfb ->].
  destruct b as [|y b].
  - unfold _ancestor_dirs. rewrite bool_decide_true by done. split; [by intros ?%elem_of_nil|].
    intros (l & Hl & E). by destruct a, l.
  - rewrite ancestors_clean, elem_of_cons by done. destruct a as [|x a].
    + split; [intros _; by exists (y :: b)|by left].
    + rewrite descend_iff. rewrite <- (prefix_removelast (x :: a) (y :: b)) by done. split.
      * intros [E|(c & Hc & Hpre & E)].
        -- pose proof (path_at_long mount (x :: a) Hm ltac:(done) Hfa) as Hl. rewrite E in Hl. lia.
        -- assert (x :: a = c) as ->; [|done]. apply (names_inj (path_at (rstrip_slash mount) (x :: a))); [done|].
           split; [eapply forallb_prefix; [etransitivity; [exact Hpre|apply removelast_prefix]|done]|]. by destruct c.
      * intros Hpre. right. by exists (x :: a).
Qed.
End Names.

(** A catalogued tree: clean paths, each live once and with its depth, and every directory above an entry is an entry. *)
Record tree_ok (mount : string) (es : list FsEntryRow) : Prop := {
  tree_mount : clean_mount mount = true;
  tree_paths : Forall (λ e, in_volume mount (path e) = true) es;
  tree_once : NoDup (path <$> es);
  tree_depth : Forall (λ e, depth e = _depth_within mount (path e)) es;
  tree_closed : ∀ e a, e ∈ es → a ∈ _ancestor_dirs (path e) mount → a ≠ mount → ∃ p, p ∈ es ∧ path p = a ∧ is_dir p = true;
}.

Definition kids (vid : Z) (mount d : string) (tbl : list FsEntryRow) : list FsEntryRow :=
  filter (λ e, is_child vid (_depth_within mount d + 1) d e) tbl.

Section Tree.
Context (vid : Z) (mount : string) (tbl : list FsEntryRow).
Let es := live vid tbl.
Context (Ht : tree_ok mount es).

Lemma path_names e : e ∈ es → ∃ b, at_names mount (path e) b ∧ depth e = Z.of_nat (length b).
Proof.
  intros He. destruct Ht as [Hm Hp _ Hdep _]. rewrite Forall_forall in Hp, Hdep.
  destruct (proj1 (in_volume_names mount (path e)) (Hp e He)) as [b Hb]. exists b. split; [done|].
  rewrite (Hdep e He). by apply names_depth.
Qed.

Lemma same_path e e' : e ∈ es → e' ∈ es → path e = path e' → e = e'.
Proof.
  intros He He' E. destruct Ht as [_ _ Hnd _ _]. apply list_elem_of_lookup in He as [i Hi], He' as [j Hj].
  assert (i = j) as ->; [|congruence].
  eapply (NoDup_lookup (path <$> es)); [exact Hnd|rewrite list_lookup_fmap, Hi; done|rewrite list_lookup_fmap, Hj; simpl; by rewrite E].
Qed.

Lemma kids_live d : kids vid mount d tbl = filter (λ e, is_child vid (_depth_within mount d + 1) d e) es.
Proof.
  unfold kids, es, live. rewrite filter_and. apply filter_ext_b. intros e. unfold is_child.
  destruct (bool_decide (volume_id e = vid)), (present e); simpl; by rewrite ?andb_false_r, ?andb_true_r.
Qed.

(** A child is a live entry with one name more. *)
Lemma elem_of_kids d a e :
  at_names mount d a → e ∈ kids vid mount d tbl ↔ e ∈ es ∧ ∃ w, at_names mount (path e) (a ++ [w]).
Proof.
  intros Ha. pose proof Ht as [Hm _ _ _ _]. unfold kids. rewrite list_elem_of_filter, Is_true_true.
  assert (e ∈ es ↔ e ∈ tbl ∧ volume_id e = vid ∧ present e = true) as Hes.
  { unfold es, live. rewrite list_elem_of_filter, Is_true_true, andb_true_iff, bool_decide_eq_true. tauto. }
  unfold is_child. rewrite !andb_true_iff, !bool_decide_eq_true, subtree_like_spec, (names_depth mount Hm d a Ha). split.
  - intros ((((Hv & Hdep) & t & Hl) & Hp) & Hin). assert (e ∈ es) as He by (by apply Hes). split; [done|].
    destruct (path_names e He) as (b & Hb & Hb').
    assert (Rollup.below d (path e) = true) as Hbe.
    { unfold Rollup.below. rewrite andb_true_iff, negb_true_iff, bool_decide_eq_false. split.
      - intros E. rewrite E in Hb. rewrite (names_inj mount Hm d a b Ha Hb) in Hdep. lia.
      - apply startswith_spec. exists t. by rewrite app_assoc_s. }
    apply (names_below_iff mount Hm d (path e) a b Ha Hb) in Hbe as (l & Hl' & ->). rewrite length_app in Hb'.
    destruct l as [|w [|w' l]]; [done|eauto|simpl in Hb'; lia].
  - intros (He & w & Hw). apply Hes in He as Hes'. destruct Hes' as (Hin & Hv & Hp). destruct (path_names e He) as (b & Hb & Hb').
    assert (b = a ++ [w]) as -> by (by eapply names_inj). rewrite length_app in Hb'. simpl in Hb'.
    assert (Rollup.below d (path e) = true) as Hbe by (apply (names_below_iff mount Hm _ _ _ _ Ha Hw); by exists [w]).
    unfold Rollup.below in Hbe. apply andb_true_iff in Hbe as [_ (t & Hs)%startswith_spec]. rewrite app_assoc_s in Hs.
    split_and!; [done|lia|by exists t|done|done].
Qed.

(** What is below a directory is its children and what is below them, once each. *)
Lemma kids_partition d :
  in_volume mount d = true → beneath d es ≡ₚ kids vid mount d tbl ≫= λ c, c :: beneath (path c) es.
Proof.
  intros [a Ha]%in_volume_names. pose proof Ht as [Hm _ Hnd _ Hclosed]. assert (NoDup es) as Hes by (by apply NoDup_fmap_1 in Hnd).
  apply NoDup_Permutation.
  - by apply NoDup_filter.
  - apply NoDup_bind.
    + intros c c' e Hc Hc' He He'. apply (elem_of_kids d a c Ha) in Hc as (Hc & w & Hw). apply (elem_of_kids d a c' Ha) in Hc' as (Hc' & w' & Hw').
      assert (∀ c w, at_names mount (path c) (a ++ [w]) → e ∈ c :: beneath (path c) es →
                ∃ l, at_names mount (path e) (a ++ w :: l)) as Hpre.
      { intros c0 w0 Hw0 [->|[Hb%Is_true_true He0]%list_elem_of_filter]%elem_of_cons; [by exists []|].
        destruct (path_names e He0) as (b & Hb0 & _). apply (names_below_iff mount Hm _ _ _ _ Hw0 Hb0) in Hb as (l & _ & ->).
        exists l. by rewrite <- app_assoc in Hb0. }
      destruct (Hpre c w Hw He) as [l Hl], (Hpre c' w' Hw' He') as [l' Hl'].
      pose proof (names_inj mount Hm _ _ _ Hl Hl') as E. apply app_inv_head in E. injection E as -> _.
      apply same_path; [done|done|]. destruct Hw as [_ ->], Hw' as [_ ->]. done.
    + intros c Hc. apply (elem_of_kids d a c Ha) in Hc as (Hc & w & Hw). constructor; [|by apply NoDup_filter].
      intros [Hb%Is_true_true _]%list_elem_of_filter. unfold Rollup.below in Hb. by rewrite bool_decide_true in Hb.
    + rewrite kids_live. by apply NoDup_filter.
  - intros e. rewrite list_elem_of_bind. split.
    + intros [Hb%Is_true_true He]%list_elem_of_filter. destruct (path_names e He) as (b & Hb0 & _).
      apply (names_below_iff mount Hm _ _ _ _ Ha Hb0) in Hb as ([|w l] & Hl & ->); [done|].
      assert (at_names mount (path_at (rstrip_slash mount) (a ++ [w])) (a ++ [w])) as Hc.
      { split; [|by destruct a]. eapply forallb_prefix; [|apply Hb0]. exists l. by rewrite <- app_assoc. }
      destruct l as [|w' l].
      * exists e. split; [left|]. apply (elem_of_kids d a e Ha). eauto.
      * destruct (Hclosed e (path_at (rstrip_slash mount) (a ++ [w])) He) as (p & Hp & Ep & _).
        -- apply ancestors_spec; [done|apply in_volume_names; eauto|apply in_volume_names; eauto|].
           eapply (names_below_iff mount Hm); [exact Hc|exact Hb0|]. exists (w' :: l). by rewrite <- app_assoc.
        -- intros E. rewrite E in Hc. assert (at_names mount mount []) as H0 by done.
           pose proof (names_inj mount Hm _ _ _ Hc H0) as E'. by destruct a.
        -- exists p. rewrite Ep. split; [|apply (elem_of_kids d a p Ha); split; [done|]; exists w; by rewrite Ep].
           right. apply list_elem_of_filter. split; [|done]. apply Is_true_true.
           eapply (names_below_iff mount Hm); [exact Hc|exact Hb0|]. exists (w' :: l). by rewrite <- app_assoc.
    + intros (c & Hc & Hk). apply (elem_of_kids d a c Ha) in Hk as (Hce & w & Hw).
      apply list_elem_of_filter. rewrite Is_true_true. apply elem_of_cons in Hc as [->|[Hb%Is_true_true He]%list_elem_of_filter].
      * split; [|done]. eapply (names_below_iff mount Hm); [exact Ha|exact Hw|]. by exists [w].
      * split; [|done]. destruct (path_names e He) as (b & Hb0 & _).
        apply (names_below_iff mount Hm _ _ _ _ Hw Hb0) in Hb as (l & Hl & ->).
        eapply (names_below_iff mount Hm); [exact Ha|exact Hb0|]. exists (w :: l). by rewrite <- app_assoc.
Qed.
End Tree.

Lemma sumZ_perm l k : l ≡ₚ k → sumZ l = sumZ k.
Proof. induction 1; simpl; rewrite ?sumZ_cons in *; lia. Qed.

Lemma sumZ_bind {A B} (w : B → Z) (f : A → list B) l : sumZ (w <$> (l ≫= f)) = sumZ ((λ x, sumZ (w <$> f x)) <$> l).
Proof. induction l as [|x l IH]; [done|]. rewrite bind_cons, fmap_app, sumZ_app, fmap_cons, sumZ_cons. lia. Qed.

Lemma sumZ_add {A} (f g : A → Z) l : sumZ ((λ x, f x + g x) <$> l) = sumZ (f <$> l) + sumZ (g <$> l).
Proof. induction l as [|x l IH]; [done|]. rewrite !fmap_cons, !sumZ_cons. lia. Qed.

Lemma count_sum {A} (p : A → bool) l : Z.of_nat (length (filter (λ x, p x) l)) = sumZ ((λ x, if p x then 1 else 0) <$> l).
Proof. induction l as [|x l IH]; [done|]. rewrite filter_cons_b, fmap_cons, sumZ_cons. destruct (p x); simpl length; lia. Qed.

Lemma filter_unique {A K} `{!EqDecision K} (key : A → K) l x :
  NoDup (key <$> l) → x ∈ l → filter (λ y, key y = key x) l = [x].
Proof.
  induction l as [|y l IH]; [by intros _ ?%elem_of_nil|]. rewrite fmap_cons. intros [Hy Hl]%NoDup_cons.
  assert (∀ z, z ∈ l → key z ≠ key y) as Hz. { intros z Hz E. apply Hy. rewrite <- E. by apply list_elem_of_fmap_2. }
  intros [->|Hx]%elem_of_cons.
  - rewrite filter_cons_True, filter_none by (done || by apply Forall_forall). done.
  - rewrite filter_cons_False by (intros E; by apply (Hz x Hx)). by apply IH.
Qed.

Section DrillDown.
Context (vid now : Z) (db db' : catalogue) (n : Z) (v : Volume).
Context (Hr : recompute_full vid now db = Ok (n, db')) (Hv : get_volume vid (volumes db) = Some v).
Let mount := mountpoint v.
Let es := live vid (fs_entry db).
Context (Ht : tree_ok mount es).

(** The rollup that a path shows. *)
Definition shown_rollup (p : string) : option SubtreeRollup :=
  match beneath p es with [] => None | below => Some (totals_row vid now mount p below) end.

Lemma with_rollup_shown e : e ∈ es → with_rollup (rollups db') e = [(e, shown_rollup (path e))].
Proof.
  intros He. pose proof Ht as [Hm Hp _ _ _].
  destruct (recompute_rows vid now db n db' v Hr Hv Hm Hp) as (_ & Hnd & Hiff). fold mount es in Hnd, Hiff.
  assert (volume_id e = vid) as Ev. { apply list_elem_of_filter in He as [He%Is_true_true _]. by to_prop. }
  unfold with_rollup. rewrite Ev.
  assert (filter (λ r, bool_decide (ro_volume_id r = vid) && bool_decide (ro_path r = path e)) (rollups db') =
          option_list (shown_rollup (path e))) as ->.
  2:{ unfold shown_rollup. by destruct (beneath _ _). }
  transitivity (filter (λ r, ro_path r = path e) (filter (λ r, ro_volume_id r = vid) (rollups db'))).
  { symmetry. apply filter_filter_iff. intros r _. rewrite Is_true_true, andb_true_iff, !bool_decide_eq_true. tauto. }
  unfold shown_rollup. destruct (beneath (path e) es) as [|x l] eqn:Eb.
  - apply filter_none, Forall_forall. intros r (d & _ & Hne & ->)%Hiff E. simpl in E. rewrite E in Hne. by rewrite Eb in Hne.
  - change (path e) with (ro_path (totals_row vid now mount (path e) (x :: l))). apply filter_unique; [done|].
    apply Hiff. exists (path e). rewrite Eb. rewrite Forall_forall in Hp. split_and!; [by apply Hp|done|done].
Qed.

(** What a directory's child weighs in the list: its subtree's total, or its own. *)
Definition own (c : TreeChild) (w : Z) : Z := match beneath (t_path c) es with [] => 0 | _ => w end.

Definition child_of (e : FsEntryRow) : TreeChild := tree_child (e, shown_rollup (path e)).

Lemma list_children_shown d :
  ∃ cs, list_children db' vid d None = Ok cs ∧ cs ≡ₚ child_of <$> kids vid mount d (fs_entry db).
Proof.
  pose proof (recompute_inv vid now db n db' v Hr Hv) as [_ E]. unfold list_children, _scoped_volume.
  assert (volumes db' = volumes db ∧ fs_entry db' = fs_entry db) as [-> Ef] by (by rewrite E). rewrite Hv. simpl.
  eexists. split; [done|]. rewrite order_by_perm. unfold children_rows. rewrite Ef. fold mount. fold (kids vid mount d (fs_entry db)).
  assert (∀ l, (∀ e, e ∈ l → e ∈ es) → l ≫= with_rollup (rollups db') = (λ e, (e, shown_rollup (path e))) <$> l) as Hl.
  { induction l as [|e l IH]; intros Hin; [done|]. rewrite bind_cons, fmap_cons, with_rollup_shown by (apply Hin; left).
    simpl. f_equal. apply IH. intros x Hx. apply Hin. by right. }
  rewrite Hl; [by rewrite <- list_fmap_compose|]. intros e He. rewrite kids_live in He. by apply list_elem_of_filter in He as [_ ?].
Qed.

(** A weight of the entries, summed over the children and what is below them. *)
Lemma kids_weight (w : FsEntryRow → Z) d :
  in_volume mount d = true →
  sumZ (w <$> beneath d es) = sumZ ((λ c, w c + sumZ (w <$> beneath (path c) es)) <$> kids vid mount d (fs_entry db)).
Proof.
  intros Hd. transitivity (sumZ (w <$> (kids vid mount d (fs_entry db) ≫= λ c, c :: beneath (path c) es))).
  - apply sumZ_perm, fmap_Permutation. exact (kids_partition vid mount (fs_entry db) Ht d Hd).
  - rewrite sumZ_bind. apply sumZ_ext. intros c _. by rewrite fmap_cons, sumZ_cons.
Qed.

(** The children of a listing, weighed by a column [f] of their rollup's totals or [w] of their own entry. *)
Lemma children_weight (w : FsEntryRow → Z) (f : TreeChild → Z) (rest : TreeChild → Z) d cs :
  in_volume mount d = true → cs ≡ₚ child_of <$> kids vid mount d (fs_entry db) →
  (∀ c, c ∈ kids vid mount d (fs_entry db) → f (child_of c) + rest (child_of c) = w c + sumZ (w <$> beneath (path c) es)) →
  sumZ (f <$> cs) + sumZ (rest <$> cs) = sumZ (w <$> beneath d es).
Proof.
  intros Hd Hcs Hf. rewrite (kids_weight w d Hd), <- sumZ_add, (sumZ_perm _ _ (fmap_Permutation _ _ _ Hcs)).
  rewrite <- list_fmap_compose. by apply sumZ_ext.
Qed.

Lemma child_path c : t_path (child_of c) = path c.
Proof. unfold child_of, tree_child. by destruct (effective _) as [[? ?] ?]. Qed.

(** A column of a child against the entry and what is below it. *)
Lemma child_shows (c : FsEntryRow) :
  let below := beneath (path c) es in let t := child_of c in
  t_size_logical t = size_logical c ∧ t_size_on_disk t = size_on_disk c ∧
  match below with
  | [] => subtree_size_logical t = size_logical c ∧ subtree_size_on_disk t = size_on_disk c ∧
          file_count t = if is_dir c then 0 else 1
  | _ => subtree_size_logical t = sumZ (size_logical <$> below) ∧ subtree_size_on_disk t = sumZ (size_on_disk <$> below) ∧
         file_count t = sumZ ((λ e, if negb (is_dir e) then 1 else 0) <$> below)
  end.
Proof.
  cbv zeta. unfold child_of, shown_rollup. destruct (beneath (path c) es) as [|x l] eqn:E; [done|].
  unfold tree_child, effective, totals_row. cbn [fst snd]. cbn [t_size_logical t_size_on_disk subtree_size_logical
    subtree_size_on_disk file_count ro_size_logical ro_size_on_disk ro_file_count]. split_and!; try done. apply count_sum.
Qed.

(** An entry with something below it is a directory. *)
Lemma above_is_dir c : c ∈ es → path c ≠ mount → beneath (path c) es ≠ [] → is_dir c = true.
Proof.
  intros Hc Hne Hb. pose proof Ht as [Hm Hp _ _ Hclosed]. destruct (beneath (path c) es) as [|e l] eqn:E; [done|].
  assert (e ∈ beneath (path c) es) as He by (rewrite E; left). apply list_elem_of_filter in He as [Hbe%Is_true_true He].
  rewrite Forall_forall in Hp. destruct (Hclosed e (path c) He) as (p & Hpe & Ep & Hdir); [|done|].
  - by apply ancestors_spec; [|apply Hp|apply Hp|].
  - by rewrite <- (same_path vid mount (fs_entry db) Ht p c Hpe Hc Ep).
Qed.
End DrillDown.

(** C31: On a volume with a POSIX mount point, whose live paths are unique, carry the depth of their path and have every ancestor in the
    volume as a live directory, after a recompute the listing of a directory adds up: the subtree sizes of its children, and the own size
    of each child that has something below it (which its rollup leaves out), make the directory's rollup; the file counts make it
    exactly. *)
Theorem drill_down_adds_up vid now db n db' v d :
  recompute_full vid now db = Ok (n, db') → get_volume vid (volumes db) = Some v →
  let mount := mountpoint v in
  let es := live vid (fs_entry db) in
  tree_ok mount es → in_volume mount d = true →
  let total := totals_row vid now mount d (beneath d es) in
  (beneath d es ≠ [] → total ∈ rollups db') ∧
  ∃ cs, list_children db' vid d None = Ok cs ∧
    sumZ (subtree_size_logical <$> cs) + sumZ ((λ c, own vid db c (t_size_logical c)) <$> cs) = ro_size_logical total ∧
    sumZ (subtree_size_on_disk <$> cs) + sumZ ((λ c, own vid db c (t_size_on_disk c)) <$> cs) = ro_size_on_disk total ∧
    sumZ (file_count <$> cs) = ro_file_count total.
Proof.
  intros Hr Hv mount es Ht Hd total. split.
  { intros Hne. pose proof Ht as [Hm Hp _ _ _]. destruct (recompute_rows vid now db n db' v Hr Hv Hm Hp) as (_ & _ & Hiff).
    assert (total ∈ filter (λ r, ro_volume_id r = vid) (rollups db')) as Hin by (apply Hiff; by exists d).
    by apply list_elem_of_filter in Hin as [_ ?]. }
  destruct (list_children_shown vid now db db' n v Hr Hv Ht d) as (cs & Hcs & Hp). exists cs. split; [done|].
  pose proof (children_weight vid now db v Ht) as Hw.
  split; [|split].
  - eapply Hw; [done|done|]. intros c _. unfold own. rewrite (child_path vid now db v c).
    destruct (child_shows vid now db v c) as (E1 & _ & E). rewrite E1. fold es. fold es in E. clear E1.
    destruct (beneath (path c) es); destruct E as (-> & _ & _); simpl; lia.
  - eapply Hw; [done|done|]. intros c _. unfold own. rewrite (child_path vid now db v c).
    destruct (child_shows vid now db v c) as (_ & E1 & E). rewrite E1. fold es. fold es in E. clear E1.
    destruct (beneath (path c) es); destruct E as (_ & -> & _); simpl; lia.
  - transitivity (sumZ ((λ e, if negb (is_dir e) then 1 else 0) <$> beneath d es)); [|symmetry; apply count_sum].
    transitivity (sumZ (file_count <$> cs) + sumZ ((λ _ : TreeChild, 0) <$> cs)).
    { clear. induction cs as [|c cs IH]; [done|]. rewrite !fmap_cons, !sumZ_cons. lia. }
    eapply Hw; [done|done|].
    intros c Hc. destruct (child_shows vid now db v c) as (_ & _ & E). fold es in E |- *.
    destruct (beneath (path c) es) eqn:Eb; destruct E as (_ & _ & ->); [destruct (is_dir c); done|].
    apply (proj1 (in_volume_names mount d)) in Hd as [a Ha].
    apply (elem_of_kids vid mount (fs_entry db) Ht d a c Ha) in Hc as (Hc & w & Hcw).
    rewrite (above_is_dir vid db v Ht c Hc); [simpl; lia| |fold es; by rewrite Eb].
    intros Ec. rewrite Ec in Hcw. pose proof (names_inj mount (tree_mount _ _ Ht) mount [] (a ++ [w]) ltac:(done) Hcw) as En. by destruct a.
Qed.

(** A non-global scope lists exactly the volumes that its target check accepts. *)
Theorem volumes_listed vs f v :
  v ∈ list_volumes vs (Some f) ↔ v ∈ vs ∧ check_target f (v_host_id v) (Some (v_id v)) (Some (v_kind v)) = Ok tt.
Proof.
  unfold list_volumes. rewrite elem_of_order_by, list_elem_of_filter, Is_true_true.
  unfold scoped. rewrite (apply_agrees_with_check f v_host_id v_id v_kind v). tauto.
Qed.

(** The churn feed of a subtree: the newest rows first, only of that volume and subtree and in the window. *)
Theorem changes_spec cat vid p since until limit rows :
  0 ≤ limit → get_changes cat vid p since until limit None = Ok rows →
  (length rows ≤ Z.to_nat limit)%nat ∧ StronglySorted (λ x y, c_ts y ≤ c_ts x) rows ∧
  ∀ c, c ∈ rows → c ∈ change_log cat ∧ c_volume_id c = vid ∧ since_ok since (c_ts c) = true ∧ until_ok until (c_ts c) = true ∧
    ∀ d, p = Some d → c_path c = d ∨ ∃ t, c_path c = rstrip_slash d +:+ String "/" t.
Proof.
  intros Hl. unfold get_changes, sql_limit. simpl. destruct (Z.ltb_spec limit 0); [lia|]. set (all := filter _ _).
  set (key := λ row : Z * ChangeLog, (c_ts row.2, row.1)). intros [= <-].
  assert (KeyOrder change_le) by (apply desc_order, lex_le_order, leb_order).
  destruct (top_spec change_le key (Z.to_nat limit) all) as (Hlen & Hs & rest & Hp & _). split; [|split].
  - rewrite length_fmap, Hlen. lia.
  - remember (take _ _) as k eqn:Ek. clear -Hs. induction Hs as [|x k Hk IH Hx]; [constructor|]. rewrite fmap_cons.
    constructor; [done|]. rewrite Forall_fmap. eapply Forall_impl; [exact Hx|]. intros y Hy.
    unfold order_le, change_le, desc, lex_le, key in Hy. rewrite Is_true_true, orb_true_iff, andb_true_iff in Hy. simpl in *.
    destruct Hy as [Hy|[Hy _]]; to_prop; lia.
  - intros c (x & -> & Hx)%list_elem_of_fmap. assert (x ∈ all) as Hall by (rewrite Hp; apply elem_of_app; by left).
    apply list_elem_of_filter in Hall as [Hall Hin]. to_prop. destruct x as [i c].
    apply elem_of_lookup_imap in Hin as (j & c' & [= -> ->] & Hj). simpl in *.
    split_and!; [by eapply list_elem_of_lookup_2|done|done|done|]. intros d ->. simpl in *.
    match goal with H : orb _ _ = true |- _ => apply orb_true_iff in H as [H|H]; to_prop; [by left|right; by apply subtree_like_spec] end.
Qed.

(** ** Witnesses *)

Lemma lower_keeps_metacharacters : keeps_metacharacters lower_char.
Proof.
  intros m Hm c. repeat (apply elem_of_cons in Hm as [->|Hm]; [destruct c as [[] [] [] [] [] [] [] []]; vm_compute; split; congruence|]).
  by apply elem_of_nil in Hm.
Qed.

Definition read_entry (id vid : Z) (p n : string) (dep : Z) (dir : bool) (size : Z) : FsEntryRow :=
  mk_entry id vid vid None n p dep dir false size size 0 0 0 0 id 0 "{}" None true None None None None None None.

Definition read_volumes : list Volume :=
  [mk_volume 1 1 "/srv" None "data" "zfs" "" "" None None None 0 0 0 true 0;
   mk_volume 5 1 "/" None "system" "ext4" "" "" None None None 0 0 0 true 0].

Definition read_cat : catalogue :=
  mk_catalogue [] read_volumes []
    [read_entry 1 1 "/srv/a" "a" 1 true 4; read_entry 2 1 "/srv/a/X%1.txt" "X%1.txt" 2 false 10;
     read_entry 3 1 "/srv/b" "b" 1 true 4; read_entry 4 1 "/srv/x1.txt" "x1.txt" 1 false 20] [] [] [].

Lemma search_spec_witness : ∃ hits rest : list FsEntryRow,
  search_entries lower_char read_cat "x%" None None 5 = search_result <$> hits ∧
  s_name <$> search_entries lower_char read_cat "x%" None None 5 = ["X%1.txt"] ∧
  (∀ x y, x ∈ hits → y ∈ rest → size_on_disk y ≤ size_on_disk x).
Proof.
  destruct (search_spec lower_char read_cat "x%" None None 5 lower_keeps_metacharacters ltac:(lia)) as (hits & rest & H & _ & Hle & _).
  exists hits, rest. split; [exact H|]. split; [vm_compute; reflexivity|exact Hle].
Defined.

Definition read_recomputed : Z * catalogue := match recompute_full 1 9 read_cat with Ok r => r | Err _ => (0, read_cat) end.

Lemma read_tree : tree_ok "/srv" (live 1 (fs_entry read_cat)).
Proof.
  split; [by_compute..|]. intros e a He Ha Hne.
  repeat (apply elem_of_cons in He as [->|He];
    [vm_compute in Ha; repeat (apply elem_of_cons in Ha as [->|Ha]; [try (by destruct Hne)|]); try (by apply elem_of_nil in Ha)|]).
  - eexists. split; [left|done].
  - by apply elem_of_nil in He.
Qed.

(** The listing of "/srv": the directory "a" shows the 10 bytes below it, the empty "b" its own 4, and the own 4 of "a" are missing. *)
Lemma drill_down_adds_up_witness : ∃ cs,
  list_children read_recomputed.2 1 "/srv" None = Ok cs ∧
  (λ c, (t_name c, subtree_size_on_disk c)) <$> cs = [("a", 10); ("b", 4); ("x1.txt", 20)] ∧
  sumZ (subtree_size_on_disk <$> cs) + sumZ ((λ c, own 1 read_cat c (t_size_on_disk c)) <$> cs) = 38.
Proof.
  assert (recompute_full 1 9 read_cat = Ok (read_recomputed.1, read_recomputed.2)) as Hr by (vm_compute; reflexivity).
  destruct (drill_down_adds_up 1 9 read_cat _ _ (hd (demo_volume 0 0 "") read_volumes) "/srv" Hr eq_refl read_tree ltac:(by_compute))
    as (_ & cs & Hcs & _ & Hsum & _).
  exists cs. split; [exact Hcs|]. split; [|exact Hsum].
  assert (list_children read_recomputed.2 1 "/srv" None = Ok cs →
          (λ c, (t_name c, subtree_size_on_disk c)) <$> cs = [("a", 10); ("b", 4); ("x1.txt", 20)]) as H; [|exact (H Hcs)].
  vm_compute. by intros [= <-].
Defined.

Definition read_group (id : Z) (n r : Z) : Z * DupGroup := (id, mk_dup_group "h" 10 n r JNull None 1 "oldest").
Definition read_member (gid entry host vol : Z) : Z * DupMember := (gid, mk_member entry host vol "/p" false).

(** Group 1 has two copies on host 1 and one on host 2; group 2 is on the system volume 5 of host 1. *)
Definition read_ddb : dedup_db :=
  mk_ddb read_volumes [] [read_group 1 3 20; read_group 2 2 10; read_group 7 2 10]
    [read_member 1 1 1 1; read_member 1 2 1 1; read_member 1 3 2 9; read_member 2 4 1 5; read_member 2 5 1 5;
     read_member 7 6 2 9; read_member 7 7 2 9] 8.

Definition host_scope : ScopeFilter := mk_scope false {[1]} ∅.

Lemma duplicates_listing_exact_witness :
  ∃ gs, duplicate_pages 4 read_ddb (Some host_scope) None None 1 = Some gs ∧ fst <$> gs = [1; 2] ∧
        duplicate_summary read_ddb (Some host_scope) None = (2, 30).
Proof.
  destruct (duplicates_listing_exact read_ddb (Some host_scope) 1) as (gs & Hg & _ & Hs & _);
    [repeat constructor|repeat (constructor; [vm_compute; reflexivity|]); constructor|lia|].
  exists gs. split; [exact Hg|]. split; [|vm_compute; reflexivity].
  assert (fst <$> default [] (duplicate_pages 4 read_ddb (Some host_scope) None None 1) = [1; 2]) as E by (vm_compute; reflexivity).
  change 4%nat with (S (length (dup_groups read_ddb))) in E. by rewrite Hg in E.
Defined.

(** The member predicate names no kind: a host grant, which every check refuses on a system volume, lists the group of that volume and
    gets its paths. *)
Lemma system_volume_group_listed :
  check_target host_scope 1 (Some 5) (Some SYSTEM_VOLUME_KIND) = Err (mk_http 403 "system volume out of scope") ∧
  listed read_ddb (Some host_scope) None 2 = true ∧
  (λ x : DupGroup * list DupMember, m_path <$> x.2) <$> get_duplicate_group read_ddb 2 (Some host_scope) = Some ["/p"; "/p"].
Proof. split_and!; vm_compute; reflexivity. Qed.
