(* ===== verification/Charts.v ===== *)
(** The chart queries ([src/fathom/core/query_charts.py]): the treemap and the top-N list of a directory's children, and the growth
    series with its downsampling.

    A caller's cap bounds every result.  The slice of a sample is a floating-point quotient in the code and the exact one here. *)

From S2P Require Import Prelude PyStr PyDict Sql Catalogue Rbac Rollup Query.

Local Open Scope Z_scope.

Inductive SizeBasis := OnDisk | Logical.
Inductive TopNKind := KDir | KFile | KAny.

#[export] Instance SizeBasis_eq_dec : EqDecision SizeBasis.
Proof. solve_decision. Defined.

Record TreemapNode := mk_node {
  n_path : string; n_name : string; n_is_dir : bool; n_size_logical : Z; n_size_on_disk : Z; n_file_count : Z;
}.

Record TopNItem := mk_item {
  i_path : string; i_name : string; i_is_dir : bool; i_size_logical : Z; i_size_on_disk : Z; i_file_count : Z;
}.

Record GrowthPoint := mk_point { p_ts : Z; p_size_logical : Z; p_size_on_disk : Z; p_file_count : Z }.
Record GrowthSeries := mk_series { gs_volume_id : Z; gs_path : string; points : list GrowthPoint }.

(** ** Treemap and top-N *)

Definition treemap_node (row : FsEntryRow * option SubtreeRollup) : TreemapNode :=
  let '(logical, on_disk, files) := effective row in
  mk_node (path row.1) (name row.1) (is_dir row.1) logical on_disk files.

(** [depth] is part of the contract of the route and not read. *)
Definition treemap_children (cat : catalogue) (volume_id : Z) (path : string) (depth limit : Z) (scope : option ScopeFilter)
    : query (list TreemapNode) :=
  volume ← _scoped_volume (volumes cat) volume_id scope;
  Ok (takeZ limit (order_by (desc Z.leb) n_size_on_disk (treemap_node <$> children_rows cat volume_id (mountpoint volume) path))).

Definition top_n_item (row : FsEntryRow * option SubtreeRollup) : TopNItem :=
  let '(logical, on_disk, files) := effective row in
  mk_item (path row.1) (name row.1) (is_dir row.1) logical on_disk files.

(** [coalesce(rollup, entry)] of the basis. *)
Definition size_col (by_ : SizeBasis) (row : FsEntryRow * option SubtreeRollup) : Z :=
  let '(logical, on_disk, _) := effective row in match by_ with OnDisk => on_disk | Logical => logical end.

Definition of_kind (kind : TopNKind) (row : FsEntryRow * option SubtreeRollup) : bool :=
  match kind with KDir => is_dir row.1 | KFile => negb (is_dir row.1) | KAny => true end.

(** [ORDER BY size DESC, path ASC]. *)
Definition top_key (by_ : SizeBasis) (row : FsEntryRow * option SubtreeRollup) : Z * string := (- size_col by_ row, path row.1).

Definition top_n_subtrees (cat : catalogue) (volume_id : Z) (path : string) (n : Z) (by_ : SizeBasis) (kind : TopNKind)
    (scope : option ScopeFilter) : query (list TopNItem) :=
  volume ← _scoped_volume (volumes cat) volume_id scope;
  Ok (top_n_item <$> sql_limit n (order_by (lex_le str_le) (top_key by_)
        (filter (λ row, of_kind kind row) (children_rows cat volume_id (mountpoint volume) path)))).

(** ** Growth *)

(** The slice of a sample. *)
Definition slice (first span buckets ts : Z) : Z :=
  let idx := Z.quot ((ts - first) * buckets) span in
  if buckets <=? idx then buckets - 1 else idx.

Definition _downsample (pts : list GrowthPoint) (buckets : Z) : list GrowthPoint :=
  if (buckets <=? 0) || (Z.of_nat (length pts) <=? buckets) then pts else
  match pts, last pts with
  | p0 :: _, Some pn =>
      let span := p_ts pn - p_ts p0 in
      if span <=? 0 then [pn] else
      let chosen := foldl (λ d p, dict_set (slice (p_ts p0) span buckets (p_ts p)) p d) [] pts in
      snd <$> order_by Z.leb fst chosen
  | _, _ => []
  end.

Definition growth_point (h : SizeHistory) : GrowthPoint := mk_point (hi_ts h) (hi_size_logical h) (hi_size_on_disk h) (hi_file_count h).

Definition growth_series (cat : catalogue) (volume_id : Z) (path : string) (since until : option Z) (buckets : Z)
    (scope : option ScopeFilter) : query GrowthSeries :=
  _ ← _scoped_volume (volumes cat) volume_id scope;
  Ok (mk_series volume_id path (_downsample (growth_point <$> history_rows cat volume_id path since until) buckets)).

(** ** The largest children *)

(** A treemap shows the largest children by size on disk, at most [limit], in descending order; each child left out is no larger. *)
Theorem treemap_spec cat vid d dep limit scope nodes :
  0 ≤ limit → treemap_children cat vid d dep limit scope = Ok nodes →
  ∃ volume rest, get_volume vid (volumes cat) = Some volume ∧
    treemap_node <$> children_rows cat vid (mountpoint volume) d ≡ₚ nodes ++ rest ∧
    length nodes = (Z.to_nat limit `min` length (nodes ++ rest))%nat ∧
    StronglySorted (λ x y, n_size_on_disk y ≤ n_size_on_disk x) nodes ∧
    ∀ x y, x ∈ nodes → y ∈ rest → n_size_on_disk y ≤ n_size_on_disk x.
Proof.
  intros Hl (volume & Hv & [= <-])%bind_ok. rewrite takeZ_nonneg by done. set (all := treemap_node <$> _).
  destruct (top_spec (desc Z.leb) n_size_on_disk (Z.to_nat limit) all) as (Hlen & Hs & rest & Hp & Hle).
  exists volume, rest. split; [|split; [exact Hp|split; [by rewrite <- Hp|split]]].
  - unfold _scoped_volume in Hv. destruct (get_volume _ _); [|done]. apply bind_ok in Hv as (_ & _ & [= ->]). done.
  - eapply StronglySorted_mono; [|exact Hs]. intros x y Hxy. by apply Z.leb_le, Is_true_true.
  - intros x y Hx Hy. by apply Z.leb_le, Hle.
Qed.

(** The column of a list ordered by it, or by it and then something else, is the ordered column. *)
Lemma ordered_column {A} (size : A → Z) (l k : list A) :
  l ≡ₚ k → StronglySorted (λ x y, size y ≤ size x) l → size <$> l = order_by (desc Z.leb) id (size <$> k).
Proof.
  intros Hp Hs. apply (StronglySorted_unique_strong (order_le (desc Z.leb) id)).
  - intros x y _ _. unfold order_le, desc. rewrite !Is_true_true, !Z.leb_le. simpl. lia.
  - clear -Hs. induction Hs as [|x l Hl IH Hx]; [constructor|]. rewrite fmap_cons. constructor; [done|].
    rewrite Forall_fmap. eapply Forall_impl; [exact Hx|]. intros y Hy. by apply Is_true_true, Z.leb_le.
  - apply order_by_sorted; apply _.
  - rewrite order_by_perm. by rewrite Hp.
Qed.

(** A column of a reply. *)
Definition column {A} (f : A → Z) (r : query (list A)) : query (list Z) :=
  match r with Ok l => Ok (f <$> l) | Err e => Err e end.

(** The two views of the largest children agree: the treemap and the top-N list on disk, for the same cap, show the same sizes in the
    same order, and are refused alike. *)
Theorem treemap_agrees_with_top_n cat vid d dep n scope :
  0 ≤ n →
  column n_size_on_disk (treemap_children cat vid d dep n scope) = column i_size_on_disk (top_n_subtrees cat vid d n OnDisk KAny scope).
Proof.
  intros Hn. unfold treemap_children, top_n_subtrees. destruct (_scoped_volume _ _ _) as [volume|e]; [|done].
  simpl. f_equal. unfold sql_limit. destruct (Z.ltb_spec n 0); [lia|]. rewrite takeZ_nonneg by done.
  rewrite !fmap_take. f_equal. set (rows := children_rows _ _ _ _). unfold of_kind. rewrite filter_all by (by apply Forall_forall).
  rewrite (ordered_column n_size_on_disk _ (treemap_node <$> rows)); [|apply order_by_perm|].
  2:{ eapply StronglySorted_mono; [|apply order_by_sorted; apply _]. intros x y Hxy. by apply Z.leb_le, Is_true_true. }
  assert (∀ l : list (FsEntryRow * option SubtreeRollup), i_size_on_disk <$> (top_n_item <$> l) = size_col OnDisk <$> l) as Hi.
  { intros l. rewrite <- list_fmap_compose. apply list_fmap_ext. intros _ row _. simpl. unfold top_n_item, size_col.
    by destruct (effective row) as [[? ?] ?]. }
  rewrite Hi, (ordered_column (size_col OnDisk) _ rows); [|apply order_by_perm|].
  2:{ eapply StronglySorted_mono; [|apply order_by_sorted; apply _]. intros x y Hxy.
      unfold order_le, lex_le, top_key in Hxy. rewrite Is_true_true, orb_true_iff, andb_true_iff in Hxy. simpl in Hxy.
      destruct Hxy as [Hxy|[Hxy _]]; to_prop; lia. }
  f_equal. rewrite <- list_fmap_compose. apply list_fmap_ext. intros _ row _. simpl. unfold treemap_node, size_col.
  by destruct (effective row) as [[? ?] ?].
Qed.

(** ** Downsampling *)

Definition in_order (pts : list GrowthPoint) : Prop := StronglySorted Z.le (p_ts <$> pts).

(** Writing the last key again replaces its value; a larger key is appended. *)
Lemma dict_set_last (d : list (Z * GrowthPoint)) k0 p0 k p :
  StronglySorted Z.lt (d ++ [(k0, p0)]).*1 → k0 ≤ k →
  dict_set k p (d ++ [(k0, p0)]) = d ++ (if decide (k = k0) then [(k, p)] else [(k0, p0); (k, p)]).
Proof.
  induction d as [|[j q] d IH]; intros Hs Hk.
  - simpl. destruct (decide (k = k0)) as [->|Hne]; [by rewrite decide_True|by rewrite decide_False].
  - rewrite <- app_comm_cons in *. rewrite fmap_cons in Hs. apply StronglySorted_inv in Hs as [Hs Hj]. simpl.
    rewrite Forall_fmap, Forall_forall in Hj. specialize (Hj (k0, p0) ltac:(set_solver)). simpl in Hj.
    rewrite decide_False by lia. by rewrite IH.
Qed.

Lemma ascending_bounded (l : list Z) lo hi :
  lo ≤ hi → StronglySorted Z.lt l → Forall (λ k, lo ≤ k < hi) l → Z.of_nat (length l) ≤ hi - lo.
Proof.
  intros Hlh Hs. revert lo Hlh. induction Hs as [|x l Hl IH Hx]; intros lo Hlh Hf; [simpl; lia|].
  inversion_clear Hf as [|? ? Hb Hf']. simpl length. specialize (IH (x + 1) ltac:(lia)).
  assert (Forall (λ k, x + 1 ≤ k < hi) l) as Hf.
  { apply Forall_forall. intros k Hk. rewrite Forall_forall in Hx, Hf'. specialize (Hx k Hk). specialize (Hf' k Hk). lia. }
  specialize (IH Hf). lia.
Qed.

Section Downsample.
Context (first span buckets : Z) (Hspan : 0 < span) (Hb : 0 < buckets).
Let idx (p : GrowthPoint) : Z := slice first span buckets (p_ts p).
Let chosen (pts : list GrowthPoint) : list (Z * GrowthPoint) := foldl (λ d p, dict_set (idx p) p d) [] pts.

Lemma slice_mono s t : first ≤ s → s ≤ t → slice first span buckets s ≤ slice first span buckets t.
Proof.
  intros Hs Ht. unfold slice.
  assert (Z.quot ((s - first) * buckets) span ≤ Z.quot ((t - first) * buckets) span) by (apply Z.quot_le_mono; nia).
  destruct (Z.leb_spec buckets (Z.quot ((s - first) * buckets) span)), (Z.leb_spec buckets (Z.quot ((t - first) * buckets) span)); lia.
Qed.

Lemma slice_range s : first ≤ s → 0 ≤ slice first span buckets s < buckets.
Proof.
  intros Hs. unfold slice. pose proof (Z.quot_pos ((s - first) * buckets) span ltac:(nia) ltac:(lia)).
  destruct (Z.leb_spec buckets (Z.quot ((s - first) * buckets) span)); lia.
Qed.

(** After a prefix: one sample per slice, in order, the last sample among them. *)
Lemma chosen_inv pts p :
  in_order (pts ++ [p]) → Forall (λ q, first ≤ p_ts q) (pts ++ [p]) →
  ∃ d, chosen (pts ++ [p]) = d ++ [(idx p, p)] ∧ StronglySorted Z.lt (d ++ [(idx p, p)]).*1 ∧
       Forall (λ k, 0 ≤ k < buckets) (d ++ [(idx p, p)]).*1 ∧ (d ++ [(idx p, p)]).*2 `sublist_of` pts ++ [p].
Proof.
  revert p. induction pts as [|p0 pts IH] using rev_ind; intros p Ho Hf.
  - exists []. split_and!; [done|repeat constructor| |done]. simpl. constructor; [|constructor]. apply slice_range. by inversion_clear Hf.
  - assert (in_order (pts ++ [p0]) ∧ p_ts p0 ≤ p_ts p) as [Ho' Hle].
    { unfold in_order in *. rewrite fmap_app in Ho. split; [by eapply StronglySorted_app_1_l|].
      eapply (StronglySorted_app_1_elem_of Z.le); [exact Ho|rewrite fmap_app; set_solver|set_solver]. }
    rewrite Forall_app in Hf. destruct Hf as [Hf Hp]. destruct (IH p0 Ho' Hf) as (d & Hd & Hs & Hr & Hsub).
    assert (first ≤ p_ts p0) as H0 by (rewrite Forall_forall in Hf; apply Hf; set_solver). inversion_clear Hp as [|? ? Hfp _].
    assert (idx p0 ≤ idx p) as Hi by (by apply slice_mono). pose proof (slice_range (p_ts p) Hfp) as Hrp. fold (idx p) in Hrp.
    unfold chosen in *. rewrite foldl_app. simpl foldl at 1. rewrite Hd, dict_set_last by done.
    rewrite fmap_app in Hs. rewrite fmap_app in Hr. rewrite fmap_app in Hsub. simpl in Hs, Hr, Hsub. rewrite Forall_app in Hr. destruct Hr as [Hr Hr0].
    destruct (decide (idx p = idx p0)) as [E|Hne].
    + exists d. rewrite !fmap_app. simpl. split; [done|]. split; [by rewrite E|]. split; [apply Forall_app; split; [done|constructor; [exact Hrp|constructor]]|].
      apply sublist_app; [|done]. etransitivity; [|exact Hsub]. by apply sublist_inserts_r.
    + exists (d ++ [(idx p0, p0)]). rewrite <- !app_assoc, !fmap_app. simpl. split; [done|]. split.
      * apply StronglySorted_app_2; [|by eapply StronglySorted_app_1_l|repeat constructor; lia].
        intros k j Hk Hj. assert (k < idx p0) by (eapply (StronglySorted_app_1_elem_of Z.lt); [exact Hs|exact Hk|left]).
        apply elem_of_cons in Hj as [Hj|Hj%list_elem_of_singleton]; subst j; lia.
      * split; [rewrite Forall_app; split; [done|]; constructor; [by inversion_clear Hr0|constructor; [exact Hrp|constructor]]|].
        change [p0; p] with ([p0] ++ [p]). rewrite !app_assoc. by apply sublist_app.
Qed.
End Downsample.

(** At most [buckets] points, a subsequence of the samples, the latest one last. *)
Lemma downsample_spec pts buckets :
  0 < buckets → in_order pts →
  Z.of_nat (length (_downsample pts buckets)) ≤ buckets ∧ _downsample pts buckets `sublist_of` pts ∧ last (_downsample pts buckets) = last pts.
Proof.
  intros Hb Ho. unfold _downsample. destruct (Z.leb_spec buckets 0); [lia|].
  destruct (Z.leb_spec (Z.of_nat (length pts)) buckets); [simpl; split_and!; done|]. simpl.
  destruct (last pts) as [pn|] eqn:Hlast.
  2:{ apply last_None in Hlast as ->. simpl in *. lia. }
  apply last_Some in Hlast as [pre ->]. destruct (pre ++ [pn]) as [|p0 rest] eqn:E; [by destruct pre|]. rewrite <- E in *.
  rewrite last_snoc. destruct (Z.leb_spec (p_ts pn - p_ts p0) 0) as [Hz|Hspan].
  - split; [simpl; lia|]. split; [|done]. by apply sublist_inserts_l.
  - assert (Forall (λ q, p_ts p0 ≤ p_ts q) (pre ++ [pn])) as Hf.
    { rewrite E in *. unfold in_order in Ho. rewrite fmap_cons in Ho. apply StronglySorted_inv in Ho as [_ Ho].
      rewrite Forall_fmap in Ho. constructor; [lia|exact Ho]. }
    destruct (chosen_inv (p_ts p0) (p_ts pn - p_ts p0) buckets Hspan Hb pre pn Ho Hf) as (dd & -> & Hs & Hr & Hsub).
    rewrite order_by_id by done. split; [|split; [done|rewrite fmap_app; simpl; by rewrite !last_snoc]].
    pose proof (ascending_bounded _ 0 buckets ltac:(lia) Hs Hr) as Hlen. rewrite !length_fmap in Hlen. rewrite length_fmap. lia.
Qed.

Lemma history_in_order cat vid d since until : in_order (growth_point <$> history_rows cat vid d since until).
Proof.
  pose proof (order_by_sorted Z.leb hi_ts (filter (λ h, bool_decide (hi_volume_id h = vid) && bool_decide (hi_path h = d) &&
    since_ok since (hi_ts h) && until_ok until (hi_ts h)) (size_history cat))) as Hs.
  unfold in_order, history_rows. rewrite <- list_fmap_compose. induction Hs as [|x l Hl IH Hx]; [constructor|].
  rewrite fmap_cons. constructor; [done|]. rewrite Forall_fmap. eapply Forall_impl; [exact Hx|].
  intros y Hy. by apply Z.leb_le, Is_true_true.
Qed.

(** A growth series has at most [buckets] points, is a subsequence of the history in its order, and ends with the latest sample. *)
Theorem growth_series_downsampled cat vid d since until buckets scope s :
  0 < buckets → growth_series cat vid d since until buckets scope = Ok s →
  let history := growth_point <$> history_rows cat vid d since until in
  Z.of_nat (length (points s)) ≤ buckets ∧ points s `sublist_of` history ∧ last (points s) = last history.
Proof. intros Hb (volume & _ & [= <-])%bind_ok history. apply downsample_spec; [done|apply history_in_order]. Qed.

(** ** Witnesses *)

Definition chart_history (t : Z) : SizeHistory := mk_history 1 "/srv" t t t 1.

Definition chart_cat : catalogue :=
  mk_catalogue [] read_volumes [] (fs_entry read_cat) [] [] (chart_history <$> [50; 0; 1; 9; 60; 100; 99]).

Lemma growth_series_downsampled_witness : ∃ s,
  growth_series chart_cat 1 "/srv" None None 3 None = Ok s ∧ p_ts <$> points s = [9; 60; 100] ∧
  Z.of_nat (length (points s)) ≤ 3.
Proof.
  eexists. split; [vm_compute; reflexivity|]. split; [vm_compute; reflexivity|].
  eapply (growth_series_downsampled chart_cat 1 "/srv" None None 3 None); [lia|vm_compute; reflexivity].
Defined.

Lemma treemap_agrees_with_top_n_witness :
  column n_size_on_disk (treemap_children chart_cat 1 "/srv" 1 2 None) = column i_size_on_disk (top_n_subtrees chart_cat 1 "/srv" 2 OnDisk KAny None) ∧
  column n_size_on_disk (treemap_children chart_cat 1 "/srv" 1 2 None) = Ok [20; 4].
Proof. split; [apply (treemap_agrees_with_top_n chart_cat 1 "/srv" 1 2 None); lia|vm_compute; reflexivity]. Defined.
