(* ===== verification/Visible.v ===== *)
(** What a scope can see of a catalogue, and that the read queries ([src/fathom/core/query.py], [query_charts.py]) see nothing else:
    under a scope, a query answers the same on the catalogue and on what is left of it when every row of every other volume is removed. *)

From stdpp Require Import gmap.
From S2P Require Import Prelude PyStr PyDict Sql Catalogue Rbac Rollup Query Charts.

Local Open Scope Z_scope.

(** ** The part of a catalogue that a scope sees *)

Section Restrict.
Context (f : ScopeFilter).

Definition visible (v : Volume) : bool := scoped (Some f) v_host_id v_id v_kind v.
Definition sees (vs : list Volume) (vid : Z) : bool := match get_volume vid vs with Some v => visible v | None => false end.

Definition restrict (cat : catalogue) : catalogue :=
  let on {A} (vid : A → Z) (l : list A) := filter (λ x, sees (volumes cat) (vid x)) l in
  mk_catalogue (filter (λ h, existsb (λ v, bool_decide (v_host_id v = h_id h) && visible v) (volumes cat)) (hosts cat))
    (filter (λ v, visible v) (volumes cat)) (on sn_volume_id (snapshots cat)) (on volume_id (fs_entry cat))
    (on c_volume_id (change_log cat)) (on ro_volume_id (rollups cat)) (on hi_volume_id (size_history cat)).
End Restrict.

(** Ids of volumes are a key, an entry has the host of its volume, and the snapshot that last saw it is one of its volume. *)
Record rows_agree (cat : catalogue) : Prop := {
  volume_key : NoDup (v_id <$> volumes cat);
  entry_host : ∀ e v, e ∈ fs_entry cat → get_volume (volume_id e) (volumes cat) = Some v → host_id e = v_host_id v;
  entry_snapshot : ∀ e sn, e ∈ fs_entry cat → sn ∈ snapshots cat → last_seen_snapshot_id e = Some (sn_id sn) → sn_volume_id sn = volume_id e;
}.

(** ** Lemmas on scopes and volumes *)

Lemma scoped_ext {Row Row'} scope (h v : Row → Z) k (h' v' : Row' → Z) k' r r' :
  h r = h' r' → v r = v' r' → k r = k' r' → scoped scope h v k r = scoped scope h' v' k' r'.
Proof. intros E1 E2 E3. destruct scope as [f|]; [|done]. unfold scoped, apply. by rewrite E1, E2, E3. Qed.

Lemma get_volume_key vid vs v : get_volume vid vs = Some v → v ∈ vs ∧ v_id v = vid.
Proof. intros H%head_Some_elem_of. apply list_elem_of_filter in H as [H1 H2]. done. Qed.

Lemma get_volume_elem vs v : NoDup (v_id <$> vs) → v ∈ vs → get_volume (v_id v) vs = Some v.
Proof. intros Hk Hv. unfold get_volume. by rewrite (filter_unique v_id vs v). Qed.

Lemma bind_ext_elem {A B} (g h : A → list B) l : (∀ x, x ∈ l → g x = h x) → l ≫= g = l ≫= h.
Proof. induction l as [|x l IH]; intros H; [done|]. rewrite !bind_cons, (H x), IH; [done| |]; set_solver. Qed.

(** *** Joins with the volume *)

(** [JOIN volume ON volume.id = ...]: the rows with their volume that satisfy the rest of the query. *)
Definition joined {A} (vs : list Volume) (vid : A → Z) (keep : A → Volume → bool) (l : list A) : list (A * Volume) :=
  omap (λ x, match get_volume (vid x) vs with Some v => if keep x v then Some (x, v) else None | None => None end) l.

Lemma joined_cons {A} vs (vid : A → Z) keep x l :
  joined vs vid keep (x :: l) =
  match get_volume (vid x) vs with Some v => if keep x v then [(x, v)] else [] | None => [] end ++ joined vs vid keep l.
Proof. unfold joined. simpl. destruct (get_volume (vid x) vs); [|done]. by destruct (keep _ _). Qed.

Lemma joined_ext {A} vs (vid : A → Z) keep keep' l :
  (∀ x v, x ∈ l → get_volume (vid x) vs = Some v → keep x v = keep' x v) → joined vs vid keep l = joined vs vid keep' l.
Proof.
  intros H. induction l as [|x l IH]; [done|]. rewrite !joined_cons, IH by set_solver.
  destruct (get_volume (vid x) vs) as [v|] eqn:E; [|done]. rewrite (H x v); [done|left|done].
Qed.

Lemma joined_sublist {A} vs (vid : A → Z) keep l : (joined vs vid keep l).*1 `sublist_of` l.
Proof.
  induction l as [|x l IH]; [done|]. rewrite joined_cons. destruct (get_volume (vid x) vs) as [v|]; [destruct (keep x v)|]; simpl;
    by constructor.
Qed.

Lemma elem_of_joined {A} vs (vid : A → Z) keep l x v :
  (x, v) ∈ joined vs vid keep l ↔ x ∈ l ∧ get_volume (vid x) vs = Some v ∧ keep x v = true.
Proof.
  unfold joined. rewrite list_elem_of_omap. split.
  - intros (y & Hy & H). destruct (get_volume (vid y) vs) as [w|] eqn:E; [|done]. destruct (keep y w) eqn:Ek; [|done]. by injection H as -> ->.
  - intros (Hx & Hv & Hk). exists x. split; [done|]. by rewrite Hv, Hk.
Qed.

(** *** Rows that are numbered by their place

    [get_changes] orders by the place of a row in its table, which changes when rows are removed; the order does not. *)

Lemma strictly_increasing_iff (l : list Z) i j x y :
  StronglySorted Z.lt l → l !! i = Some x → l !! j = Some y → x ≤ y ↔ (i ≤ j)%nat.
Proof.
  intros Hs. assert (∀ i j x y, l !! i = Some x → l !! j = Some y → (i < j)%nat → x < y) as Hlt.
  { clear i j x y. induction Hs as [|z l _ IH Hz]; intros i j x y Hi Hj Hij; [done|]. destruct j as [|j]; [lia|]. destruct i as [|i].
    - injection Hi as <-. rewrite Forall_forall in Hz. apply Hz. by apply (list_elem_of_lookup_2 l j).
    - apply (IH i j); [done..|lia]. }
  intros Hi Hj. split; intros H.
  - destruct (Nat.le_gt_cases i j); [done|]. assert (y < x) by (by eapply Hlt). lia.
  - apply Nat.lt_eq_cases in H as [H| ->]; [|rewrite Hi in Hj; injection Hj as ->; lia]. assert (x < y) by (by eapply Hlt). lia.
Qed.

Definition numbered {A} (l : list A) : list (Z * A) := imap (λ i c, (Z.of_nat i, c)) l.

Lemma numbered_snd {A} (l : list A) : snd <$> numbered l = l.
Proof. unfold numbered. rewrite fmap_imap. etrans; [apply (imap_const (λ x : A, x))|apply list_fmap_id]. Qed.

Lemma numbered_ascend {A} (l : list A) : StronglySorted Z.lt (fst <$> numbered l).
Proof.
  unfold numbered. rewrite fmap_imap. change (λ n, fst ∘ _) with (λ (n : nat) (_ : A), Z.of_nat n). rewrite imap_seq_0.
  generalize 0%nat. induction (length l) as [|n IH]; intros k; [constructor|]. simpl. constructor; [apply IH|].
  rewrite Forall_fmap. apply Forall_forall. intros j Hj%elem_of_seq. simpl. lia.
Qed.

Lemma filter_snd {A B} (p : B → bool) (l : list (A * B)) : snd <$> filter (λ r, p r.2) l = filter (λ x, p x) (snd <$> l).
Proof. induction l as [|[a b] l IH]; [done|]. rewrite fmap_cons, !filter_cons_b. simpl. destruct (p b); [|done]. rewrite fmap_cons. by rewrite IH. Qed.

(** Equal rows with different numbers come in the same order. *)
Lemma newest_first_renumbered (l k : list (Z * ChangeLog)) :
  snd <$> l = snd <$> k → StronglySorted Z.lt (fst <$> l) → StronglySorted Z.lt (fst <$> k) →
  let key row := (c_ts row.2, row.1) in
  snd <$> order_by change_le key l = snd <$> order_by change_le key k.
Proof.
  intros E Hl Hk key. set (ps := zip l k).
  assert (length l = length k) as En by (by rewrite <- (length_fmap snd l), E, length_fmap).
  assert (fst <$> ps = l) as E1 by (by apply fst_zip; rewrite En). assert (snd <$> ps = k) as E2 by (by apply snd_zip; rewrite En).
  assert (∀ i p, ps !! i = Some p → l !! i = Some p.1 ∧ k !! i = Some p.2) as Hps.
  { intros i p Hp. rewrite <- E1, <- E2, !list_lookup_fmap, Hp. done. }
  assert (∀ p, p ∈ ps → p.1.2 = p.2.2) as Hs.
  { intros p [i [H1 H2]%Hps]%list_elem_of_lookup. pose proof (f_equal (λ x, x !! i) E) as Ei. simpl in Ei.
    rewrite !list_lookup_fmap, H1, H2 in Ei. by injection Ei. }
  unfold order_by. rewrite <- E1 at 1. rewrite <- E2.
  rewrite (stable_sort_fmap _ (λ p q, order_le change_le key p.1 q.1) fst) by done.
  rewrite (stable_sort_fmap _ (λ p q, order_le change_le key p.1 q.1) snd).
  - rewrite <- !list_fmap_compose. apply list_fmap_ext. intros i p Hp%list_elem_of_lookup_2. rewrite stable_sort_Permutation in Hp. by apply Hs.
  - intros p q Hp Hq. unfold order_le, change_le, desc, lex_le, key. simpl. rewrite !Is_true_true. rewrite <- (Hs p Hp), <- (Hs q Hq).
    rewrite !orb_true_iff, !andb_true_iff, !Z.leb_le.
    apply list_elem_of_lookup in Hp as [i [Hp1 Hp2]%Hps]. apply list_elem_of_lookup in Hq as [j [Hq1 Hq2]%Hps].
    rewrite (strictly_increasing_iff _ j i q.2.1 p.2.1 Hk), (strictly_increasing_iff _ j i q.1.1 p.1.1 Hl); [done|..];
      rewrite list_lookup_fmap; by rewrite ?Hp1, ?Hp2, ?Hq1, ?Hq2.
Qed.

Section Restricted.
Context (f : ScopeFilter) (cat : catalogue) (Hok : rows_agree cat).
Notation vs := (volumes cat).
Notation cat' := (restrict f cat).

Lemma get_volume_restrict vid : get_volume vid (volumes cat') = if sees f vs vid then get_volume vid vs else None.
Proof.
  pose proof (volume_key cat Hok) as Hkey. unfold sees. simpl.
  assert (NoDup (v_id <$> filter (λ v, visible f v) vs)) as Hkey' by (eapply sublist_NoDup; [exact Hkey|]; apply sublist_map, filter_sublist_b).
  destruct (get_volume vid vs) as [v|] eqn:E.
  - apply get_volume_key in E as [Hv <-]. destruct (visible f v) eqn:Ef.
    + apply get_volume_elem; [done|]. apply list_elem_of_filter. by rewrite Ef.
    + apply eq_None_not_Some. intros (w & [Hw Hi]%get_volume_key). apply list_elem_of_filter in Hw as [Hf Hw].
      apply (get_volume_elem _ _ Hkey) in Hw. apply (get_volume_elem _ _ Hkey) in Hv. rewrite Hi, Hv in Hw. injection Hw as ->.
      by rewrite Ef in Hf.
  - apply eq_None_not_Some. intros (w & [Hw Hi]%get_volume_key). apply list_elem_of_filter in Hw as [_ Hw].
    apply (get_volume_elem _ _ Hkey) in Hw. congruence.
Qed.

Lemma get_volume_seen vid : sees f vs vid = true → get_volume vid (volumes cat') = get_volume vid vs.
Proof. intros H. rewrite get_volume_restrict. by rewrite H. Qed.

(** Rows of one visible volume are all kept. *)
Lemma on_seen {A} (vid : A → Z) (p : A → bool) (l : list A) :
  (∀ x, x ∈ l → p x = true → sees f vs (vid x) = true) → filter (λ x, p x) (filter (λ x, sees f vs (vid x)) l) = filter (λ x, p x) l.
Proof. intros H. apply filter_filter_iff. intros x Hx. specialize (H x Hx). rewrite !Is_true_true. tauto. Qed.

Lemma entry_scoped e v : e ∈ fs_entry cat → get_volume (volume_id e) vs = Some v →
  scoped (Some f) host_id volume_id (λ _, v_kind v) e = visible f v.
Proof. intros He Hv. apply scoped_ext; [by eapply (entry_host cat Hok)|by apply get_volume_key in Hv as [_ ->]|done]. Qed.

Lemma seen_visible vid v : get_volume vid vs = Some v → sees f vs vid = visible f v.
Proof. intros H. unfold sees. by rewrite H. Qed.

(** A scope check sees the volumes that the filter sees. *)
Lemma check_visible v : _check_volume_in_scope v (Some f) = Ok tt ↔ visible f v = true.
Proof.
  unfold visible, scoped, _check_volume_in_scope. pose proof (apply_agrees_with_check f v_host_id v_id v_kind v) as Ha.
  destruct (check_target f (v_host_id v) (Some (v_id v)) (Some (v_kind v))) as [[]|e] eqn:E.
  - split; [|done]. intros _. by apply Ha.
  - split; [done|]. intros H%Ha. congruence.
Qed.

(** ** The read queries *)

Lemma list_volumes_restrict : list_volumes (volumes cat') (Some f) = list_volumes vs (Some f).
Proof. unfold list_volumes. simpl. rewrite filter_and. f_equal. apply filter_ext_b. intros v. unfold visible. apply andb_diag. Qed.

Lemma scoped_volume_restrict vid : sees f vs vid = true → _scoped_volume (volumes cat') vid (Some f) = _scoped_volume vs vid (Some f).
Proof. intros H. unfold _scoped_volume. by rewrite get_volume_seen. Qed.

Lemma on_volume {A} (vid : A → Z) (p : A → bool) v (l : list A) :
  sees f vs v = true → (∀ x, p x = true → vid x = v) → filter (λ x, p x) (filter (λ x, sees f vs (vid x)) l) = filter (λ x, p x) l.
Proof. intros Hv Hp. apply on_seen. intros x _ Hx. by rewrite (Hp x Hx). Qed.

Lemma with_rollup_restrict e : sees f vs (volume_id e) = true → with_rollup (rollups cat') e = with_rollup (rollups cat) e.
Proof.
  intros He. unfold with_rollup. simpl. rewrite (on_volume ro_volume_id _ (volume_id e)); [done..|].
  intros r Hr. by apply andb_true_iff in Hr as [Hr%bool_decide_eq_true _].
Qed.

Lemma children_rows_restrict vid mount path :
  sees f vs vid = true → children_rows cat' vid mount path = children_rows cat vid mount path.
Proof.
  intros Hv. unfold children_rows. simpl fs_entry.
  assert (∀ e, is_child vid (_depth_within mount path + 1) path e = true → volume_id e = vid) as Hc.
  { intros e. unfold is_child. rewrite !andb_true_iff, bool_decide_eq_true. tauto. }
  rewrite (on_volume volume_id _ vid); [|done|done]. apply bind_ext_elem.
  intros e [He _]%list_elem_of_filter. apply with_rollup_restrict. rewrite Is_true_true in He. by rewrite (Hc e He).
Qed.

Lemma list_children_restrict vid path : sees f vs vid = true → list_children cat' vid path (Some f) = list_children cat vid path (Some f).
Proof.
  intros Hv. unfold list_children. rewrite scoped_volume_restrict by done. destruct (_scoped_volume vs vid (Some f)); [|done]. simpl.
  by rewrite children_rows_restrict.
Qed.

Lemma treemap_restrict vid path d n : sees f vs vid = true → treemap_children cat' vid path d n (Some f) = treemap_children cat vid path d n (Some f).
Proof.
  intros Hv. unfold treemap_children. rewrite scoped_volume_restrict by done. destruct (_scoped_volume vs vid (Some f)); [|done]. simpl.
  by rewrite children_rows_restrict.
Qed.

Lemma top_n_restrict vid path n b k : sees f vs vid = true → top_n_subtrees cat' vid path n b k (Some f) = top_n_subtrees cat vid path n b k (Some f).
Proof.
  intros Hv. unfold top_n_subtrees. rewrite scoped_volume_restrict by done. destruct (_scoped_volume vs vid (Some f)); [|done]. simpl.
  by rewrite children_rows_restrict.
Qed.

Lemma history_rows_restrict vid path since until : sees f vs vid = true → history_rows cat' vid path since until = history_rows cat vid path since until.
Proof.
  intros Hv. unfold history_rows. simpl. f_equal. apply (on_volume hi_volume_id _ vid); [done|].
  intros h. rewrite !andb_true_iff, bool_decide_eq_true. tauto.
Qed.

Lemma check_scoped_restrict vid : sees f vs vid = true → check_scoped (volumes cat') vid (Some f) = check_scoped vs vid (Some f).
Proof. intros Hv. unfold check_scoped. by rewrite scoped_volume_restrict. Qed.

Lemma get_history_restrict vid path since until :
  sees f vs vid = true → get_history cat' vid path since until (Some f) = get_history cat vid path since until (Some f).
Proof. intros Hv. unfold get_history. by rewrite check_scoped_restrict, history_rows_restrict. Qed.

Lemma get_changes_restrict vid path since until n :
  sees f vs vid = true → get_changes cat' vid path since until n (Some f) = get_changes cat vid path since until n (Some f).
Proof.
  intros Hv. unfold get_changes. rewrite check_scoped_restrict by done. destruct (check_scoped vs vid (Some f)); [|done]. simpl. f_equal.
  set (p := λ c, bool_decide (c_volume_id c = vid) && in_subtree path (c_path c) && since_ok since (c_ts c) && until_ok until (c_ts c)).
  fold (numbered (change_log cat)) (numbered (filter (λ c, sees f vs (c_volume_id c)) (change_log cat))).
  set (k1 := filter (λ row, p row.2) (numbered (change_log cat))).
  set (k2 := filter (λ row, p row.2) (numbered (filter (λ c, sees f vs (c_volume_id c)) (change_log cat)))).
  assert (∀ l : list (Z * ChangeLog), snd <$> sql_limit n l = sql_limit n (snd <$> l)) as Hn
    by (intros l; unfold sql_limit; destruct (n <? 0); [done|apply fmap_take]).
  rewrite !Hn. f_equal. apply (newest_first_renumbered k2 k1); [|apply StronglySorted_filter_key, numbered_ascend..].
  unfold k1, k2. rewrite !(filter_snd p), !numbered_snd. apply (on_volume c_volume_id _ vid); [done|].
  intros c. unfold p. rewrite !andb_true_iff, bool_decide_eq_true. tauto.
Qed.

Lemma growth_series_restrict vid path since until n :
  sees f vs vid = true → growth_series cat' vid path since until n (Some f) = growth_series cat vid path since until n (Some f).
Proof. intros Hv. unfold growth_series. by rewrite scoped_volume_restrict, history_rows_restrict. Qed.

Lemma search_restrict fold q vid limit : search_entries fold cat' q (Some f) vid limit = search_entries fold cat q (Some f) vid limit.
Proof.
  unfold search_entries. simpl fs_entry. do 3 f_equal.
  rewrite <- (on_seen volume_id (λ e, matches fold vs q (Some f) vid e)).
  - apply filter_ext_elem. intros e [Hs _]%list_elem_of_filter. rewrite Is_true_true in Hs. unfold matches. by rewrite get_volume_seen.
  - intros e He Hm. unfold matches in Hm. destruct (get_volume (volume_id e) vs) as [v|] eqn:Ev; [|done].
    rewrite !andb_true_iff in Hm. destruct Hm as [_ Hm]. rewrite (entry_scoped e v He Ev) in Hm. by rewrite (seen_visible _ v).
Qed.

(** A volume that the filter does not see is refused. *)
Lemma scoped_volume_sees vid v : _scoped_volume vs vid (Some f) = Ok v → sees f vs vid = true.
Proof.
  unfold sees, _scoped_volume. destruct (get_volume vid vs) as [w|]; [|done]. intros ([] & H & _)%bind_ok. by apply check_visible.
Qed.

Lemma get_in_scope_sees vid v : get_volume_in_scope vs vid (Some f) = Ok (Some v) → sees f vs vid = true.
Proof.
  unfold sees, get_volume_in_scope. destruct (get_volume vid vs) as [w|]; [|done]. intros ([] & H & _)%bind_ok. by apply check_visible.
Qed.

Lemma get_in_scope_restrict vid : sees f vs vid = true → get_volume_in_scope (volumes cat') vid (Some f) = get_volume_in_scope vs vid (Some f).
Proof. intros H. unfold get_volume_in_scope. by rewrite get_volume_seen. Qed.

(** A join that only keeps rows of visible volumes. *)
Lemma joined_restrict {A} (vid : A → Z) keep l :
  (∀ x v, x ∈ l → get_volume (vid x) vs = Some v → keep x v = true → visible f v = true) →
  joined (volumes cat') vid keep (filter (λ x, sees f vs (vid x)) l) = joined vs vid keep l.
Proof.
  intros H. induction l as [|x l IH]; [done|]. rewrite filter_cons_b, joined_cons.
  assert (∀ y v, y ∈ l → get_volume (vid y) vs = Some v → keep y v = true → visible f v = true) as Hl by (intros y v Hy; apply H; by right).
  specialize (H x). destruct (sees f vs (vid x)) eqn:Es; [rewrite joined_cons|]; rewrite (IH Hl); clear IH.
  - by rewrite get_volume_seen.
  - unfold sees in Es. destruct (get_volume (vid x) vs) as [v|] eqn:E; [|done]. destruct (keep x v) eqn:Ek; [|done].
    rewrite (H v) in Es; [done|left|done|done].
Qed.
End Restricted.

(** ** A catalogue with a host out of scope *)

Definition seen_cat : catalogue :=
  mk_catalogue [mk_host 1 "nas" None None "" None None None None; mk_host 9 "other" None None "" None None None None]
    [mk_volume 1 1 "/srv" None "data" "zfs" "" "" None None None 100 30 70 true 0;
     mk_volume 9 9 "/srv" None "data" "ext4" "" "" None None None 100 90 10 true 0]
    [mk_snapshot 3 1 1 "metadata" 5 (Some 6) 0 0]
    [read_entry 1 1 "/srv/a" "a" 1 true 4; read_entry 2 1 "/srv/a/x.txt" "x.txt" 2 false 10; read_entry 3 9 "/srv/x.key" "x.key" 1 false 900]
    [mk_change 1 "/srv/a/x.txt" Create 10 7; mk_change 9 "/srv/x.key" Create 900 8] [] [].

Lemma seen_cat_agrees : rows_agree seen_cat.
Proof.
  split.
  - by_compute.
  - intros e v He Hv. repeat (apply elem_of_cons in He as [->|He]; [vm_compute in Hv; by injection Hv as <-|]). by apply elem_of_nil in He.
  - intros e sn He _ Hs. repeat (apply elem_of_cons in He as [->|He]; [done|]). by apply elem_of_nil in He.
Qed.
