(* ===== verification/Finalize.v ===== *)
(** The finalize after a drain ([src/fathom/core/finalize.py]): the rollups of the host's stale volumes,
    the totals of their open snapshots, and the duplicate report.

    The state is the catalogue and the report tables; the report reads the catalogue's volumes and
    entries.  The clock is a parameter: the time of the recompute and of the stamp for each volume. *)

From S2P Require Import Prelude PyStr PyDict Sql Catalogue DedupStore Rollup.

Record FinalizeResult := mk_finalized { fr_host_id : Z; fr_volume_ids : list Z; fr_rollup_rows : Z; fr_dup_groups : Z }.

(** [func.max]. *)
Definition max_of (l : list Z) : option Z :=
  match l with [] => None | x :: l => Some (foldl Z.max x l) end.

Definition volume_rollups (vid : Z) (db : catalogue) : list SubtreeRollup := filter (λ r, ro_volume_id r = vid) (rollups db).
Definition volume_snapshots (vid : Z) (db : catalogue) : list Snapshot := filter (λ s, sn_volume_id s = vid) (snapshots db).

(** The WHERE clause for one volume: it has a snapshot, and no rollup that is newer. *)
Definition stale (vid : Z) (db : catalogue) : bool :=
  match max_of (sn_started <$> volume_snapshots vid db) with
  | None => false
  | Some last_started =>
      match max_of (ro_computed_at <$> volume_rollups vid db) with
      | None => true
      | Some last_computed => (last_computed <=? last_started)%Z
      end
  end.

Definition _stale_volume_ids (host : Z) (db : catalogue) : list Z :=
  v_id <$> filter (λ v, bool_decide (v_host_id v = host) && stale (v_id v) db) (Catalogue.volumes db).

Definition set_snapshots (ss : list Snapshot) (db : catalogue) : catalogue :=
  mk_catalogue (hosts db) (Catalogue.volumes db) ss (fs_entry db) (change_log db) (rollups db) (size_history db).

Definition root_of (vid : Z) (mount : string) (db : catalogue) : option SubtreeRollup :=
  head (filter (λ r, ro_volume_id r = vid ∧ ro_path r = mount) (rollups db)).

Definition stamp (now : Z) (root : SubtreeRollup) (s : Snapshot) : Snapshot :=
  mk_snapshot (sn_id s) (sn_host_id s) (sn_volume_id s) (sn_mode s) (sn_started s) (Some now)
    (ro_size_on_disk root) (ro_file_count root).

Definition is_open (vid : Z) (s : Snapshot) : bool :=
  bool_decide (sn_volume_id s = vid) && bool_decide (sn_finished s = None).

Definition _finalize_snapshot_stats (vid now : Z) (db : catalogue) : catalogue :=
  match get_volume vid (Catalogue.volumes db) with
  | None => db
  | Some volume =>
      match root_of vid (mountpoint volume) db with
      | None => db
      | Some root => set_snapshots (update_where (is_open vid) (stamp now root) (snapshots db)) db
      end
  end.

Definition estate_scope : DedupScope := mk_dscope [] None None [] [].

Definition has_hashes (host : Z) (db : catalogue) : bool :=
  existsb (λ e, existsb (λ v, bool_decide (v_id v = volume_id e) && bool_decide (v_host_id v = host)) (Catalogue.volumes db)
                && bool_decide (Catalogue.full_hash e ≠ None)) (fs_entry db).

(** The report service sees the catalogue's tables. *)
Definition report_view (db : catalogue) (rep : dedup_db) : dedup_db :=
  mk_ddb (Catalogue.volumes db) (fs_entry db) (dup_groups rep) (dup_members rep) (next_group rep).

Definition _rebuild_dedup (build_dedup : bool) (host : Z) (db : catalogue) (rep : dedup_db)
    : result string (Z * dedup_db) :=
  if negb build_dedup then Ok (0%Z, rep)
  else if negb (has_hashes host db) then Ok (0%Z, rep)
  else rebuild estate_scope rank_oldest_then_preferred_then_shortest (Some "finalize") true (report_view db rep).

Section Finalize.
Context (t_rollup t_stamp : Z → Z).

Fixpoint finalize_volumes (vids : list Z) (total : Z) (db : catalogue) : result string (Z * catalogue) :=
  match vids with
  | [] => Ok (total, db)
  | vid :: vids =>
      '(n, db) ← recompute_full vid (t_rollup vid) db;
      finalize_volumes vids (total + n) (_finalize_snapshot_stats vid (t_stamp vid) db)
  end.

Definition finalize_host (build_dedup : bool) (fp : string) (db : catalogue) (rep : dedup_db)
    : result string (FinalizeResult * catalogue * dedup_db) :=
  match head (filter (λ h, cert_fingerprint h = fp) (hosts db)) with
  | None => Ok (mk_finalized 0 [] 0 0, db, rep)
  | Some host =>
      let volume_ids := _stale_volume_ids (h_id host) db in
      '(total_rows, db) ← finalize_volumes volume_ids 0 db;
      '(dup_groups, rep) ← _rebuild_dedup build_dedup (h_id host) db rep;
      Ok (mk_finalized (h_id host) volume_ids total_rows dup_groups, db, rep)
  end.
End Finalize.

(** ** What one volume's turn changes *)

Lemma recompute_effect vid now db n db' :
  recompute_full vid now db = Ok (n, db') →
  hosts db' = hosts db ∧ Catalogue.volumes db' = Catalogue.volumes db ∧ snapshots db' = snapshots db ∧
  fs_entry db' = fs_entry db ∧ n = Z.of_nat (length (volume_rollups vid db')) ∧
  Forall (λ r, ro_computed_at r = now) (volume_rollups vid db') ∧
  ∀ vid', vid' ≠ vid → volume_rollups vid' db' = volume_rollups vid' db.
Proof.
  intros H. destruct (get_volume vid (Catalogue.volumes db)) as [v|] eqn:Ev;
    [|unfold recompute_full in H; by rewrite Ev in H].
  destruct (recompute_inv vid now db n db' v H Ev) as [-> ->]. clear H. unfold volume_rollups. cbn.
  set (rows := _rollup_rows _ _ _ _).
  assert (Forall (λ r, ro_volume_id r = vid ∧ ro_computed_at r = now) rows) as Hrows.
  { apply Forall_forall. by intros r ([p a] & -> & _)%list_elem_of_fmap. }
  assert (filter (λ r, ro_volume_id r = vid) (filter (λ r, ro_volume_id r ≠ vid) (rollups db)) = []) as E0.
  { apply filter_none, Forall_forall. intros r [Hr _]%list_elem_of_filter. done. }
  rewrite filter_app, E0, filter_all by (eapply Forall_impl; [exact Hrows|naive_solver]).
  split_and!; try done.
  - eapply Forall_impl; [exact Hrows|naive_solver].
  - intros vid' Hne. rewrite filter_app, (filter_none _ rows), app_nil_r, list_filter_filter.
    + apply list_filter_iff. naive_solver.
    + eapply Forall_impl; [exact Hrows|naive_solver].
Qed.

(** The stamp on the open snapshots of one volume. *)
Definition stamped (now : Z) (root : option SubtreeRollup) (s : Snapshot) : Snapshot :=
  match root with
  | Some root => if bool_decide (sn_finished s = None) then stamp now root s else s
  | None => s
  end.

Lemma filter_fmap_stable {A} (P : A → Prop) `{!∀ x, Decision (P x)} (f : A → A) (l : list A) :
  (∀ x, P (f x) ↔ P x) → filter P (f <$> l) = f <$> filter P l.
Proof.
  intros Hf. induction l as [|x l IH]; [done|]. rewrite fmap_cons, !filter_cons, IH.
  case_decide; case_decide; naive_solver.
Qed.

Lemma stats_effect vid now db v :
  get_volume vid (Catalogue.volumes db) = Some v →
  let db' := _finalize_snapshot_stats vid now db in
  hosts db' = hosts db ∧ Catalogue.volumes db' = Catalogue.volumes db ∧ rollups db' = rollups db ∧
  fs_entry db' = fs_entry db ∧
  volume_snapshots vid db' = stamped now (root_of vid (mountpoint v) db) <$> volume_snapshots vid db ∧
  ∀ vid', vid' ≠ vid → volume_snapshots vid' db' = volume_snapshots vid' db.
Proof.
  intros Hv. unfold _finalize_snapshot_stats. rewrite Hv. destruct (root_of vid (mountpoint v) db) as [root|];
    [|split_and!; try done; symmetry; apply list_fmap_id].
  unfold volume_snapshots. cbn. split_and!; try done.
  - unfold update_where. rewrite filter_fmap_stable; [|intros s; by destruct (is_open vid s)].
    apply list_fmap_ext. intros i s Hs%list_elem_of_lookup_2. apply list_elem_of_filter in Hs as [Hs _].
    unfold is_open. by rewrite bool_decide_true.
  - intros vid' Hne. unfold update_where. rewrite filter_fmap_stable; [|intros s; by destruct (is_open vid s)].
    rewrite <- (list_fmap_id (filter _ _)) at 2. apply list_fmap_ext. intros i s Hs%list_elem_of_lookup_2.
    apply list_elem_of_filter in Hs as [Hs _]. unfold is_open. by rewrite bool_decide_false by congruence.
Qed.

Lemma stamped_started now root s : sn_started (stamped now root s) = sn_started s.
Proof. unfold stamped. destruct root; [|done]. by case_bool_decide. Qed.

Lemma root_of_rollups vid mount db : root_of vid mount db = head (filter (λ r, ro_path r = mount) (volume_rollups vid db)).
Proof.
  unfold root_of, volume_rollups. rewrite list_filter_filter. f_equal. apply list_filter_iff. naive_solver.
Qed.

(** ** The loop over the stale volumes *)

Section Loop.
Context (t_rollup t_stamp : Z → Z).

(** A volume that had its turn: fresh rows, and its open snapshots stamped with the root's totals. *)
Definition finalized (db db' : catalogue) (vid : Z) : Prop :=
  Forall (λ r, ro_computed_at r = t_rollup vid) (volume_rollups vid db') ∧
  ∃ v, get_volume vid (Catalogue.volumes db) = Some v ∧
       volume_snapshots vid db' = stamped (t_stamp vid) (root_of vid (mountpoint v) db') <$> volume_snapshots vid db.

Definition untouched (db db' : catalogue) (vid : Z) : Prop :=
  volume_rollups vid db' = volume_rollups vid db ∧ volume_snapshots vid db' = volume_snapshots vid db.

Lemma finalize_volumes_spec vids total db :
  NoDup vids → (∀ vid, vid ∈ vids → is_Some (get_volume vid (Catalogue.volumes db))) →
  ∃ n db', finalize_volumes t_rollup t_stamp vids total db = Ok (n, db') ∧
    hosts db' = hosts db ∧ Catalogue.volumes db' = Catalogue.volumes db ∧ fs_entry db' = fs_entry db ∧
    n = (total + sumZ ((λ vid, Z.of_nat (length (volume_rollups vid db'))) <$> vids))%Z ∧
    (∀ vid, vid ∈ vids → finalized db db' vid) ∧ (∀ vid, vid ∉ vids → untouched db db' vid).
Proof.
  revert total db. induction vids as [|vid vids IH]; intros total db Hn Hv.
  { exists total, db. cbn. split_and!; try done; [lia|by intros ? ?%elem_of_nil]. }
  apply NoDup_cons in Hn as [Hni Hn]. destruct (Hv vid (list_elem_of_here _ _)) as [v Ev].
  cbn [finalize_volumes]. destruct (recompute_full vid (t_rollup vid) db) as [[n db1]|] eqn:Er;
    [|unfold recompute_full in Er; rewrite Ev in Er; case_match; done].
  apply recompute_effect in Er as (Hh1 & Hv1 & Hs1 & Hf1 & -> & Hc1 & Ho1).
  destruct (stats_effect vid (t_stamp vid) db1 v) as (Hh2 & Hv2 & Hr2 & Hf2 & Hs2 & Ho2); [by rewrite Hv1|].
  set (db2 := _finalize_snapshot_stats vid (t_stamp vid) db1) in *.
  assert (∀ x, volume_rollups x db2 = volume_rollups x db1) as Hr by (intros x; unfold volume_rollups; by rewrite Hr2).
  assert (∀ x, volume_snapshots x db1 = volume_snapshots x db) as Hs by (intros x; unfold volume_snapshots; by rewrite Hs1).
  destruct (IH (total + Z.of_nat (length (volume_rollups vid db1)))%Z db2 Hn) as
    (n & db' & Hrun & Hh & Hvs & Hf & -> & Hin & Hout).
  { intros x Hx. rewrite Hv2, Hv1. apply Hv. by right. }
  cbn [mbind result_bind]. destruct (Hout vid Hni) as [Hr' Hs'].
  do 2 eexists. split; [exact Hrun|]. rewrite Hh, Hh2, Hvs, Hv2, Hf, Hf2. split_and!; try done.
  - rewrite fmap_cons, sumZ_cons, Hr', Hr. lia.
  - intros x [->|Hx]%elem_of_cons.
    + split; [by rewrite Hr', Hr|]. exists v. split; [done|].
      by rewrite Hs', Hs2, Hs, !root_of_rollups, Hr', Hr.
    + destruct (Hin x Hx) as [H1 (w & Hw & H2)]. split; [done|]. exists w. split; [by rewrite <- Hv1, <- Hv2|].
      rewrite H2, Ho2, Hs by (intros ->; done). done.
  - intros x [Hne Hx]%not_elem_of_cons. destruct (Hout x Hx) as [H1 H2]. split.
    + by rewrite H1, Hr, Ho1.
    + by rewrite H2, Ho2, Hs.
Qed.
End Loop.

(** ** The call *)

Lemma rebuild_ok job replace s d :
  ∃ n d', rebuild s rank_oldest_then_preferred_then_shortest job replace d = Ok (n, d').
Proof.
  unfold rebuild, _build_iter. rewrite build_loop_flushes; [|unfold _DEDUP_FLUSH_BATCH; cbn [length]; lia..].
  destruct (rounds_spec s _ job (group_by ((λ r, ((size r, r_full_hash r), r)) <$>
    _load_hashed_entries s (if replace then _clear_scope s d else d))) (rank_total s)) as (os & -> & _).
  cbn [mbind result_bind].
  destruct (_flush_and_detach _ _) as [gs d']. eauto.
Qed.

Lemma get_volume_unique v vs : NoDup (v_id <$> vs) → v ∈ vs → get_volume (v_id v) vs = Some v.
Proof. apply (at_key_elem v_id). Qed.

Lemma stale_host_volume host db vid :
  vid ∈ _stale_volume_ids host db → ∃ v, v ∈ Catalogue.volumes db ∧ v_id v = vid ∧ v_host_id v = host ∧ stale vid db = true.
Proof.
  intros (v & -> & [[Hh%bool_decide_unpack Hs]%andb_prop_elim Hin]%list_elem_of_filter)%list_elem_of_fmap.
  exists v. split_and!; try done. by apply Is_true_true.
Qed.

(** A finalize of a known host always succeeds: every stale volume of the host has fresh rows only and
    its open snapshots stamped with the totals of its root, closed ones left; every other volume and all
    entries stay; a host without content hashes leaves the duplicate report alone. *)
Theorem finalize_touches_stale t_rollup t_stamp build_dedup fp db rep host :
  head (filter (λ h, cert_fingerprint h = fp) (hosts db)) = Some host → NoDup (v_id <$> Catalogue.volumes db) →
  ∃ res db' rep', finalize_host t_rollup t_stamp build_dedup fp db rep = Ok (res, db', rep') ∧
    fr_volume_ids res = _stale_volume_ids (h_id host) db ∧
    fr_rollup_rows res = sumZ ((λ vid, Z.of_nat (length (volume_rollups vid db'))) <$> fr_volume_ids res) ∧
    Catalogue.volumes db' = Catalogue.volumes db ∧ fs_entry db' = fs_entry db ∧
    (∀ vid, vid ∈ fr_volume_ids res → finalized t_rollup t_stamp db db' vid) ∧
    (∀ vid, vid ∉ fr_volume_ids res → untouched db db' vid) ∧
    (build_dedup = false ∨ has_hashes (h_id host) db = false → rep' = rep ∧ fr_dup_groups res = 0%Z).
Proof.
  intros Hh Hn. unfold finalize_host. rewrite Hh.
  destruct (finalize_volumes_spec t_rollup t_stamp (_stale_volume_ids (h_id host) db) 0 db) as
    (n & db' & -> & Hhosts & Hv & Hf & Hnum & Hin & Hout).
  { unfold _stale_volume_ids. eapply sublist_NoDup; [exact Hn|]. apply fmap_sublist, sublist_filter. }
  { intros vid (v & Hv & <- & _)%stale_host_volume. exists v. by apply get_volume_unique. }
  cbn [mbind result_bind]. assert (∃ k rep', _rebuild_dedup build_dedup (h_id host) db' rep = Ok (k, rep') ∧
    (build_dedup = false ∨ has_hashes (h_id host) db = false → rep' = rep ∧ k = 0%Z)) as (k & rep' & -> & Hrep).
  { unfold _rebuild_dedup. assert (has_hashes (h_id host) db' = has_hashes (h_id host) db) as ->.
    { unfold has_hashes. by rewrite Hf, Hv. }
    destruct build_dedup; cbn [negb]; [|by exists 0%Z, rep].
    destruct (has_hashes (h_id host) db); cbn [negb]; [|by exists 0%Z, rep].
    destruct (rebuild_ok (Some "finalize") true estate_scope (report_view db' rep)) as (k & rep' & ->).
    exists k, rep'. naive_solver. }
  do 3 eexists. split; [done|]. cbn. split_and!; try done.
Qed.

(** ** A second finalize *)

Lemma max_of_none l : max_of l = None ↔ l = [].
Proof. by destruct l. Qed.

Lemma foldl_max_bounds l x c : (x < c)%Z → Forall (λ y, y < c)%Z l → (foldl Z.max x l < c)%Z.
Proof. intros Hx Hl. revert x Hx. induction Hl as [|y l Hy Hl IH]; intros x Hx; [done|]. apply IH. lia. Qed.

Lemma max_of_below l c m : Forall (λ x, x < c)%Z l → max_of l = Some m → (m < c)%Z.
Proof. destruct l as [|x l]; [done|]. intros [Hx Hl]%Forall_cons. intros [= <-]. by apply foldl_max_bounds. Qed.

Lemma max_of_const l c : Forall (λ x, x = c)%Z l → l ≠ [] → max_of l = Some c.
Proof.
  destruct l as [|x l]; [done|]. intros [-> Hl]%Forall_cons _. cbn. f_equal.
  induction Hl as [|y l -> Hl IH]; [done|]. cbn. by rewrite Z.max_id.
Qed.

Lemma finalized_stale t_rollup t_stamp db db' vid :
  finalized t_rollup t_stamp db db' vid → stale vid db = true →
  Forall (λ s, sn_started s < t_rollup vid)%Z (snapshots db) →
  stale vid db' = true ↔ volume_rollups vid db' = [].
Proof.
  intros [Hc (v & _ & Hs)] Hst Hlt. unfold stale in *. rewrite Hs, <- list_fmap_compose.
  rewrite (list_fmap_ext _ sn_started) by (intros; apply stamped_started).
  destruct (max_of (sn_started <$> volume_snapshots vid db)) as [m|] eqn:Em; [|done].
  apply (max_of_below _ (t_rollup vid)) in Em.
  2:{ apply Forall_fmap, Forall_forall. intros s [_ Hin]%list_elem_of_filter. rewrite Forall_forall in Hlt. by apply Hlt. }
  destruct (decide (volume_rollups vid db' = [])) as [E|E]; [by rewrite E|].
  rewrite (max_of_const _ (t_rollup vid)).
  - destruct (Z.leb_spec (t_rollup vid) m); [lia|]. naive_solver.
  - by apply Forall_fmap.
  - by intros ?%fmap_nil_inv.
Qed.

Lemma untouched_stale db db' vid : untouched db db' vid → stale vid db' = stale vid db.
Proof. intros [Hr Hs]. unfold stale. by rewrite Hr, Hs. Qed.

(** After a finalize later than every snapshot, a second one recomputes only the volumes of the host
    that were stale and got no row, those with no live entry; with one row or more a volume is current. *)
Theorem finalize_rerun t_rollup t_stamp build_dedup fp db rep host res db' rep' :
  finalize_host t_rollup t_stamp build_dedup fp db rep = Ok (res, db', rep') →
  head (filter (λ h, cert_fingerprint h = fp) (hosts db)) = Some host → NoDup (v_id <$> Catalogue.volumes db) →
  (∀ vid, Forall (λ s, sn_started s < t_rollup vid)%Z (snapshots db)) →
  ∀ vid, vid ∈ _stale_volume_ids (h_id host) db' ↔
         vid ∈ _stale_volume_ids (h_id host) db ∧ volume_rollups vid db' = [].
Proof.
  intros H Hh Hn Hlt vid.
  destruct (finalize_volumes_spec t_rollup t_stamp (_stale_volume_ids (h_id host) db) 0 db) as
    (n & db1 & Hrun & Hhosts & Hv & Hf & Hnum & Hin & Hout).
  { unfold _stale_volume_ids. eapply sublist_NoDup; [exact Hn|]. apply fmap_sublist, sublist_filter. }
  { intros x (v & Hv & <- & _)%stale_host_volume. exists v. by apply get_volume_unique. }
  unfold finalize_host in H. rewrite Hh, Hrun in H. cbn [mbind result_bind] in H.
  destruct (_rebuild_dedup _ _ _ _) as [[k r]|]; [|done]. injection H as _ <- _.
  assert (∀ x, x ∈ _stale_volume_ids (h_id host) db1 ↔
    (∃ v, v ∈ Catalogue.volumes db ∧ v_id v = x ∧ v_host_id v = h_id host) ∧ stale x db1 = true) as Hst.
  { intros x. split; [intros (v & Hin' & ? & ? & ?)%stale_host_volume; rewrite Hv in Hin'; eauto|].
    intros ((v & Hin' & <- & Hho) & Hs). apply list_elem_of_fmap. exists v. split; [done|].
    apply list_elem_of_filter. rewrite Hv. split; [|done]. rewrite bool_decide_true by done. by rewrite Hs. }
  rewrite Hst. destruct (decide (vid ∈ _stale_volume_ids (h_id host) db)) as [Hd|Hd].
  - pose proof (Hin vid Hd) as Hfin. apply stale_host_volume in Hd as Hd'. destruct Hd' as (v & Hvin & Hvid & Hvh & Hs).
    rewrite (finalized_stale _ _ _ _ _ Hfin Hs (Hlt vid)). naive_solver.
  - rewrite (untouched_stale _ _ _ (Hout vid Hd)). split; [|naive_solver].
    intros [(v & Hvin & <- & Hvh) Hs]. destruct Hd. apply list_elem_of_fmap. exists v. split; [done|].
    apply list_elem_of_filter. split; [|done]. rewrite bool_decide_true by done. by rewrite Hs.
Qed.

(** ** On a small catalogue *)

Definition demo_clock (t : Z) (_ : Z) : Z := t.
Definition demo_report : dedup_db := mk_ddb [] [] [] [] 1.

Lemma finalize_touches_stale_witness : ∃ res db' rep',
  finalize_host (demo_clock 9) (demo_clock 10) true "fp" demo_catalogue demo_report = Ok (res, db', rep') ∧
  fr_volume_ids res = [1%Z; 2%Z].
Proof.
  destruct (finalize_touches_stale (demo_clock 9) (demo_clock 10) true "fp" demo_catalogue demo_report
              (mk_host 1 "nas" None None "fp" None None None None) ltac:(reflexivity) ltac:(by_compute))
    as (res & db' & rep' & H & Hv & _).
  exists res, db', rep'. split; [exact H|]. rewrite Hv. vm_compute. reflexivity.
Defined.

Lemma finalize_rerun_witness : ∃ res db' rep',
  finalize_host (demo_clock 9) (demo_clock 10) false "fp" demo_catalogue demo_report = Ok (res, db', rep') ∧
  2%Z ∈ _stale_volume_ids 1 db'.
Proof.
  do 3 eexists. split; [vm_compute; reflexivity|].
  eapply (finalize_rerun (demo_clock 9) (demo_clock 10) false "fp" demo_catalogue demo_report
            (mk_host 1 "nas" None None "fp" None None None None));
    [vm_compute; reflexivity|reflexivity|by_compute|intros vid; unfold demo_clock; by_compute|].
  split; by_compute.
Defined.

(** A volume without live entries never becomes current: each finalize adds a point to its history. *)
Lemma empty_volume_never_current : ∃ res db1 rep1 res2 db2 rep2,
  finalize_host (demo_clock 9) (demo_clock 10) false "fp" demo_catalogue demo_report = Ok (res, db1, rep1) ∧
  finalize_host (demo_clock 11) (demo_clock 12) false "fp" db1 rep1 = Ok (res2, db2, rep2) ∧
  fr_volume_ids res2 = [2%Z] ∧ length (size_history db2) = 3.
Proof. do 6 eexists. split; [vm_compute; reflexivity|]. split; [vm_compute; reflexivity|]. split; reflexivity. Qed.
