(* ===== verification/Organize.v ===== *)
(** The organiser ([src/fathom/core/organize/service.py]): a model proposes where files go, the server
    decides.

    The inference provider is a parameter: whatever it answers, and whatever targets a client
    approves, the accepted moves stay under the root.  The prompt text is not modelled. *)

From stdpp Require Import pretty.
From S2P Require Import Prelude PyStr PyDict PosixPath Catalogue Rbac Jobs.

(** ** The firewall *)

Definition MAX_FILES_HARD_CAP : Z := 200.

Definition clamp_to_root (root rel : string) : option string :=
  if bool_decide (rel = "") || has_char NULCH rel || startswith "/" rel then None
  else
    let base := rstrip_slash root in
    let candidate := normpath (posix_join base rel) in
    if bool_decide (candidate = base) || startswith (base +:+ "/") candidate then Some candidate else None.

Definition _safe_leaf (name : string) : option string :=
  let n := strip name in
  if bool_decide (n = "") || bool_decide (n = "." ∨ n = "..") || has_char SLASH n || has_char NULCH n
  then None else Some n.

Definition _clamp_move_target (root dest_rel : string) : option string :=
  match clamp_to_root root dest_rel with
  | None => None
  | Some absolute =>
      if bool_decide (absolute = rstrip_slash root) then None
      else match _safe_leaf (basename absolute) with None => None | Some _ => Some absolute end
  end.

(** ** Suggestions *)

Record _Assignment := mk_assign { a_index : Z; target_dir : string; new_name : string }.

Definition _LlmProposal : Type := list _Assignment.

Inductive ItemStatus := Move | Keep | Rejected.

#[export] Instance ItemStatus_eq_dec : EqDecision ItemStatus.
Proof. solve_decision. Defined.

Record ProposedItem := mk_proposed {
  i_entry_id : Z; current_path : string; current_name : string; proposed_relpath : string;
  proposed_name : string; reason : string; i_status : ItemStatus;
}.

Record OrganizeProposal := mk_proposal {
  o_root : string; o_volume_id : Z; o_model : string; o_items : list ProposedItem; rejected : Z;
  considered : Z;
}.

Record _Entry := mk_oentry {
  o_entry_id : Z; o_path : string; o_name : string; o_size_on_disk : Z; o_mtime : Z; o_rel : string;
}.

(** The rows of [volume] joined to an entry. *)
Definition volume_of (vs : list Volume) (e : FsEntryRow) : option Volume :=
  head (filter (λ v, v_id v = volume_id e) vs).

(** [JOIN volume ... WHERE volume_id = v AND is_dir IS false AND present IS true AND path LIKE base/%],
    and the scope's predicate; [kind] is the column of the joined volume. *)
Definition live_under (vs : list Volume) (v : Z) (root : string) (scope : option ScopeFilter)
    (e : FsEntryRow) : bool :=
  match volume_of vs e with
  | None => false
  | Some vol =>
      bool_decide (volume_id e = v) && negb (Catalogue.is_dir e) && present e
      && like (subtree_like root) (Catalogue.path e)
      && match scope with
         | Some f => apply f (Some Catalogue.host_id) (Some Catalogue.volume_id) (Some (λ _, v_kind vol)) e
         | None => true
         end
  end.

Definition larger_first (a b : FsEntryRow) : Prop := (size_on_disk b ≤ size_on_disk a)%Z.

#[export] Instance larger_first_dec : RelDecision larger_first.
Proof. intros a b. unfold larger_first. apply _. Defined.

Definition _files_under (vs : list Volume) (es : list FsEntryRow) (v : Z) (root : string) (limit : Z)
    (scope : option ScopeFilter) : list _Entry :=
  let base := rstrip_slash root in
  (λ r, mk_oentry (e_id r) (Catalogue.path r) (name r) (size_on_disk r) (mtime r)
          (if startswith (base +:+ "/") (Catalogue.path r)
           then drop_s (String.length base + 1) (Catalogue.path r) else name r)) <$>
  takeZ limit (stable_sort larger_first (filter (λ e, live_under vs v root scope e) es)).

(** [{a.index: a for a in assignments}.get(i)]: the last assignment of an index wins. *)
Definition by_index (proposal : _LlmProposal) (i : Z) : option _Assignment :=
  last (filter (λ a, a_index a = i) proposal).

(** One round of [_resolve]'s loop: the item, and the targets taken so far. *)
Definition resolve_one (root : string) (proposal : _LlmProposal) (i : Z) (e : _Entry)
    (taken : list string) : ProposedItem * list string :=
  let a := by_index proposal i in
  let base := rstrip_slash root in
  let leaf := match a with
              | Some a => if bool_decide (new_name a = "") then Some (o_name e) else _safe_leaf (new_name a)
              | None => Some (o_name e)
              end in
  let refuse leaf why := (mk_proposed (o_entry_id e) (o_path e) (o_name e) (o_rel e) leaf why Rejected, taken) in
  match leaf with
  | None => refuse (o_name e) "invalid name"
  | Some leaf =>
      let dir := strip (match a with Some a => target_dir a | None => "" end) in
      let rel := if bool_decide (dir = "") then leaf else normpath (posix_join dir leaf) in
      match clamp_to_root root rel with
      | None => refuse leaf "out-of-root target rejected"
      | Some absolute =>
          if bool_decide (absolute ∈ taken) then refuse leaf "collides with another proposal"
          else (mk_proposed (o_entry_id e) (o_path e) (o_name e)
                  (if bool_decide (absolute = base) then "" else drop_s (String.length base + 1) absolute)
                  leaf "" (if bool_decide (absolute = o_path e) then Keep else Move), absolute :: taken)
      end
  end.

Fixpoint resolve_from (root : string) (proposal : _LlmProposal) (i : Z) (entries : list _Entry)
    (taken : list string) : list ProposedItem :=
  match entries with
  | [] => []
  | e :: rest =>
      let '(item, taken) := resolve_one root proposal i e taken in
      item :: resolve_from root proposal (i + 1) rest taken
  end.

Definition _resolve (root : string) (entries : list _Entry) (proposal : _LlmProposal) : list ProposedItem :=
  resolve_from root proposal 0 entries [].

(** [complete] is the provider's answer to the prompt for the root and the entries, if there is a
    provider; it may raise. *)
Definition suggest (vs : list Volume) (es : list FsEntryRow) (model : string)
    (complete : option (string → list _Entry → result string _LlmProposal))
    (v : Z) (root : string) (scope : option ScopeFilter) (max_files : Z) : result string OrganizeProposal :=
  let limit := Z.max 1 (Z.min max_files MAX_FILES_HARD_CAP) in
  let entries := _files_under vs es v root limit scope in
  match entries with
  | [] => Ok (mk_proposal root v model [] 0 0)
  | _ :: _ =>
      match complete with
      | None => Err "OrganizeService.suggest requires an inference provider"
      | Some complete =>
          proposal ← complete root entries;
          let items := _resolve root entries proposal in
          Ok (mk_proposal root v model items
                (Z.of_nat (length (filter (λ it, i_status it = Rejected) items))) (Z.of_nat (length entries)))
      end
  end.

(** ** Move plans *)

Record ApprovedMove := mk_approved { am_entry_id : Z; am_dest_rel : string }.

Record MovePlanBuild := mk_build { b_plan : RemediationPlan; b_host_id : string; b_total_bytes : Z }.

Inductive OrganizePlanError :=
| NoMoves
| TooManyMoves
| ListedTwice (id : Z)
| NotUnderRoot (id : Z)
| OutOfRoot (id : Z)
| AlreadyThere (id : Z)
| SameTarget (absolute : string)
| UnsafeSource (e : PathSafetyError)
| NoContentHash (id : Z)
| AssertionFailed
| InvalidModel.

Definition _entries_by_id (vs : list Volume) (es : list FsEntryRow) (v : Z) (ids : list Z) (root : string)
    (scope : option ScopeFilter) (id : Z) : option FsEntryRow :=
  last (filter (λ e, e_id e = id)
          (filter (λ e, bool_decide (e_id e ∈ ids) && live_under vs v root scope e) es)).

(** The variables of the loop.  [PlanItem] and [RemediationPlan] are validated on construction. *)
Record build_state := mk_bs {
  bs_items : list PlanItem; taken : list string; bs_host : option string; total_bytes : Z; seen_ids : list Z;
}.

Definition build_step (root : string) (by_id : Z → option FsEntryRow) (st : build_state)
    (move : ApprovedMove) : result OrganizePlanError build_state :=
  let base := rstrip_slash root in
  let id := am_entry_id move in
  _ ← raise_if (bool_decide (id ∈ seen_ids st)) (ListedTwice id);
  match by_id id with
  | None => Err (NotUnderRoot id)
  | Some entry =>
      match _clamp_move_target root (am_dest_rel move) with
      | None => Err (OutOfRoot id)
      | Some absolute =>
          _ ← raise_if (bool_decide (absolute = Catalogue.path entry)) (AlreadyThere id);
          _ ← raise_if (bool_decide (absolute ∈ taken st)) (SameTarget absolute);
          match validate_config_path no_fs false false false (Catalogue.path entry) with
          | Err e => Err (UnsafeSource e)
          | Ok _ =>
              match full_hash entry with
              | None => Err (NoContentHash id)
              | Some h =>
                  _ ← raise_if (size_logical entry <? 0)%Z InvalidModel;
                  Ok (mk_bs (bs_items st ++
                               [mk_item (EInt (e_id entry)) (Catalogue.path entry) (inode entry)
                                  (size_logical entry) (Some h) MOVE
                                  (Some (drop_s (String.length base + 1) absolute))])
                        (absolute :: taken st) (Some (pretty (Catalogue.host_id entry)))
                        (total_bytes st + size_logical entry) (id :: seen_ids st))
              end
          end
      end
  end.

Fixpoint build_steps (root : string) (by_id : Z → option FsEntryRow) (st : build_state)
    (moves : list ApprovedMove) : result OrganizePlanError build_state :=
  match moves with
  | [] => Ok st
  | m :: rest => st' ← build_step root by_id st m; build_steps root by_id st' rest
  end.

Definition build_move_plan (vs : list Volume) (es : list FsEntryRow) (plan_id created_by : string) (v : Z)
    (root : string) (moves : list ApprovedMove) (scope : option ScopeFilter)
    : result OrganizePlanError MovePlanBuild :=
  _ ← raise_if (bool_decide (moves = [])) NoMoves;
  _ ← raise_if (MAX_FILES_HARD_CAP <? Z.of_nat (length moves))%Z TooManyMoves;
  let base := rstrip_slash root in
  let by_id := _entries_by_id vs es v (am_entry_id <$> moves) root scope in
  st ← build_steps root by_id (mk_bs [] [] None 0 []) moves;
  match bs_host st with
  | None => Err AssertionFailed
  | Some host =>
      let plan := mk_plan plan_id created_by base (bs_items st) (Some base) in
      if plan_valid plan then Ok (mk_build plan host (total_bytes st)) else Err InvalidModel
  end.

(** ** A clamped path is under the root *)

Lemma rstrip_slash_last root : rstrip_slash (rstrip_slash root) = rstrip_slash root.
Proof. apply rstrip_idem. Qed.

(** Text after a name does not change the leading slashes. *)
Lemma initial_slashes_base base t :
  rstrip_slash base = base → base ≠ "" → initial_slashes (base +:+ String "/" t) = initial_slashes base.
Proof.
  intros Hb Hne. destruct base as [|a base]; [done|]. destruct (ascii_dec a "/") as [->|Ha].
  2:{ unfold initial_slashes. by rewrite !app_cons_s, !startswith_ne by congruence. }
  destruct base as [|b base]; [done|]. destruct (ascii_dec b "/") as [->|Hb'].
  2:{ unfold initial_slashes. rewrite !app_cons_s, !startswith_cons, !startswith_ne, !startswith_nil by congruence. done. }
  destruct base as [|c base]; [done|].
  unfold initial_slashes. rewrite !app_cons_s, !startswith_cons, !startswith_nil.
  destruct (ascii_dec c "/") as [->|Hc]; [by rewrite !startswith_cons, !startswith_nil|].
  by rewrite !startswith_ne by congruence.
Qed.

Lemma initial_slashes_none s : initial_slashes s = 0 ↔ startswith "/" s = false.
Proof.
  destruct s as [|a s]; [done|]. unfold initial_slashes. destruct (ascii_dec a "/") as [->|Ha].
  - rewrite !startswith_cons, !startswith_nil. by repeat case_match.
  - by rewrite !startswith_ne by congruence.
Qed.

Lemma within_base base t :
  rstrip_slash base = base → base ≠ "" → within (parse_path base) (parse_path (base +:+ String "/" t)).
Proof.
  intros Hb Hne. unfold parse_path, within. simpl. split; [by apply initial_slashes_base|].
  change (String "/" t) with (String SLASH t). rewrite split_char_concat, filter_app. by eexists.
Qed.

(** The path that a relative location denotes. *)
Definition under (base rel : string) : string := if bool_decide (rel = "") then base else base +:+ "/" +:+ rel.

(** A normalised path ends in a slash only if it is the root. *)
Lemma normpath_no_trailing s base :
  rstrip_slash base = base → base ≠ "" → normpath s ≠ base +:+ "/".
Proof.
  intros Hb Hne H. assert (last (split_char SLASH (normpath s)) = Some "") as Hl.
  { rewrite H. change "/" with (String SLASH ""). rewrite split_char_concat. apply last_snoc. }
  revert H Hl. unfold normpath, or_dot. case_bool_decide as E; [done|].
  pose proof (resolve_component (is_abs s) (split_char SLASH s) (split_components s)) as Hc.
  destruct (resolve _ _) as [|c l].
  - intros H _. simpl in H. rewrite app_empty_r in H.
    assert (base = "/") as ->; [|done].
    destruct (initial_slashes s) as [|[|n]]; [done|..]; destruct base as [|a [|b base]]; try done.
    + simpl in H. by apply String_inj in H as [<- _].
    + simpl in H. apply String_inj in H as [_ H]. apply String_inj in H as [_ H]. by destruct base.
  - intros _. assert (last (split_char SLASH (join "/" (c :: l))) ≠ Some "") as Hlast.
    { change "/" with (String SLASH ""). rewrite split_join; [|done|].
      - intros Hx%last_Some_elem_of. rewrite Forall_forall in Hc. by destruct (Hc _ Hx) as [[? _] _].
      - eapply Forall_impl; [exact Hc|]. by intros w [_ ?]. }
    set (w := join "/" (c :: l)) in *. clearbody w.
    destruct (initial_slashes s) as [|[|n]]; simpl; rewrite ?last_cons; intros Hs; [done|..];
      destruct (last (split_char SLASH w)) eqn:El; simplify_eq/=;
      apply last_None in El; by apply split_char_nonempty in El.
Qed.

Lemma clamp_spec root rel p :
  clamp_to_root root rel = Some p →
  let base := rstrip_slash root in
  base ≠ "" ∧ (p = base ∨ p = base +:+ "/" +:+ drop_s (String.length base + 1) p ∧
                           drop_s (String.length base + 1) p ≠ "") ∧
  within (parse_path base) (parse_path p) ∧ (is_abs base = true → ".." ∉ p_parts (parse_path p)).
Proof.
  intros H base. unfold clamp_to_root in H. destruct (_ || _) eqn:Eg; [done|].
  apply orb_false_iff in Eg as [Eg Hrel]. apply orb_false_iff in Eg as [Hr0 _]. to_prop. fold base in H.
  set (cand := normpath (posix_join base rel)) in *.
  destruct (_ || _) eqn:E in H; [|done]. injection H as <-.
  assert (base ≠ "") as Hne.
  { intros Hb. unfold cand, posix_join in E. rewrite Hb, Hrel in E. simpl in E.
    pose proof (initial_slashes_normpath rel) as Hi. apply orb_true_iff in E as [E|E]; to_prop.
    - unfold normpath, or_dot in E. case_bool_decide; [done|contradiction].
    - apply initial_slashes_none in Hrel. apply not_true_iff_false in E; [done|].
      apply initial_slashes_none. by rewrite Hi. }
  split; [done|].
  assert (cand = base ∨ cand = base +:+ "/" +:+ drop_s (String.length base + 1) cand ∧
                         drop_s (String.length base + 1) cand ≠ "") as Hcand.
  { apply orb_true_iff in E as [E|E]; to_prop; [by left|right]. apply startswith_drop in E.
    rewrite length_app_s, app_assoc_s in E. change (String.length "/") with 1 in E. split; [exact E|]. intros Hd. rewrite Hd in E.
    by apply (normpath_no_trailing (posix_join base rel) base (rstrip_slash_last root) Hne). }
  split; [done|].
  assert (within (parse_path base) (parse_path cand)) as Hw.
  { destruct Hcand as [Hc|[Hc _]]; rewrite Hc; [done|]. apply within_base; [apply rstrip_slash_last|done]. }
  split; [done|]. intros Habs. destruct Hw as [Hroot _]. unfold cand in *. rewrite parse_normpath in *. simpl in *.
  assert (is_abs (posix_join base rel) = true) as ->.
  { unfold is_abs in *. rewrite Hroot. exact Habs. }
  intros Hin. pose proof (resolve_no_dotdot (split_char SLASH (posix_join base rel)) (split_components _)) as Hno.
  rewrite Forall_forall in Hno. by apply (Hno _ Hin).
Qed.

Lemma under_drop base p :
  p = base +:+ "/" +:+ drop_s (String.length base + 1) p → drop_s (String.length base + 1) p ≠ "" →
  under base (drop_s (String.length base + 1) p) = p.
Proof. intros Hp Hd. unfold under. rewrite bool_decide_false by done. by rewrite <- Hp. Qed.

(** Inside: at the root or below it, without climbing. *)
Definition inside (base p : string) : Prop :=
  within (parse_path base) (parse_path p) ∧ (is_abs base = true → ".." ∉ p_parts (parse_path p)).

(** A move target is a place below the root, and [dest_rel] names it from there. *)
Lemma clamp_move_spec root rel p :
  _clamp_move_target root rel = Some p →
  let base := rstrip_slash root in
  let d := drop_s (String.length base + 1) p in
  p = base +:+ "/" +:+ d ∧ d ≠ "" ∧ inside base p ∧ _safe_leaf (basename p) ≠ None.
Proof.
  unfold _clamp_move_target. intros H. destruct (clamp_to_root root rel) as [q|] eqn:E; [|done].
  apply clamp_spec in E as (_ & Hq & Hw & Hd). case_bool_decide as Hb; [done|].
  destruct (_safe_leaf (basename q)) eqn:El; [|done]. injection H as <-.
  destruct Hq as [Hq|[Hq Hd0]]; [done|]. split; [exact Hq|]. split; [done|]. split; [by split|]. by rewrite El.
Qed.

(** ** Move plans *)

Section Plan.
Context (root : string) (by_id : Z → option FsEntryRow).
Let base := rstrip_slash root.

(** An admissible move: its entry, target and anchor. *)
Definition admissible (m : ApprovedMove) (e : FsEntryRow) (p h : string) : Prop :=
  by_id (am_entry_id m) = Some e ∧ _clamp_move_target root (am_dest_rel m) = Some p ∧
  p ≠ Catalogue.path e ∧ is_ok (validate_config_path no_fs false false false (Catalogue.path e)) = true ∧
  full_hash e = Some h ∧ (0 ≤ size_logical e)%Z.

Definition move_item (e : FsEntryRow) (p h : string) : PlanItem :=
  mk_item (EInt (e_id e)) (Catalogue.path e) (inode e) (size_logical e) (Some h) MOVE
    (Some (drop_s (String.length base + 1) p)).

(** One step succeeds exactly on an admissible move whose entry and target are new. *)
Lemma build_step_iff st m st' :
  build_step root by_id st m = Ok st' ↔
  ∃ e p h, admissible m e p h ∧ am_entry_id m ∉ seen_ids st ∧ p ∉ taken st ∧
    st' = mk_bs (bs_items st ++ [move_item e p h]) (p :: taken st) (Some (pretty (Catalogue.host_id e)))
            (total_bytes st + size_logical e) (am_entry_id m :: seen_ids st).
Proof.
  unfold build_step, admissible. fold base. split.
  - intros (u & Hs%raise_if_ok & H)%bind_ok. to_prop. destruct (by_id _) as [e|]; [|done].
    destruct (_clamp_move_target _ _) as [p|]; [|done].
    apply bind_ok in H as (u1 & Hp%raise_if_ok & H). apply bind_ok in H as (u2 & Ht%raise_if_ok & H). to_prop.
    destruct (validate_config_path _ _ _ _ _) eqn:Ev; [|done]. destruct (full_hash e) as [h|] eqn:Eh; [|done].
    apply bind_ok in H as (u3 & Hz%raise_if_ok & [= <-]). to_prop. exists e, p, h. split_and!; rewrite ?Ev; done.
  - intros (e & p & h & (-> & -> & Hp & Hv & -> & Hz) & Hs & Ht & ->).
    rewrite !bool_decide_false by done. simpl. destruct (validate_config_path _ _ _ _ _); [|done].
    rewrite (proj2 (Z.ltb_ge _ _)) by done. done.
Qed.

(** The run over all moves: each is admissible, and the state lists their items. *)
Definition item_of (x : FsEntryRow * string * string) : PlanItem := move_item x.1.1 x.1.2 x.2.

Lemma build_steps_iff moves st st' :
  build_steps root by_id st moves = Ok st' ↔
  ∃ xs, Forall2 (λ m x, admissible m x.1.1 x.1.2 x.2) moves xs ∧
    NoDup (am_entry_id <$> moves) ∧ (∀ m, m ∈ moves → am_entry_id m ∉ seen_ids st) ∧
    NoDup ((λ x, x.1.2) <$> xs) ∧ (∀ x, x ∈ xs → x.1.2 ∉ taken st) ∧
    st' = mk_bs (bs_items st ++ (item_of <$> xs)) (reverse ((λ x, x.1.2) <$> xs) ++ taken st)
            (match last xs with Some x => Some (pretty (Catalogue.host_id x.1.1)) | None => bs_host st end)
            (total_bytes st + sumZ (size_logical ∘ fst ∘ fst <$> xs)) (reverse (am_entry_id <$> moves) ++ seen_ids st).
Proof.
  revert st. induction moves as [|m moves IH]; intros st; cbn [build_steps].
  - split.
    + intros [= <-]. exists []. split_and!; [constructor|constructor|by intros m ?%elem_of_nil|constructor|
        by intros x ?%elem_of_nil|]. simpl. rewrite app_nil_r, Z.add_0_r. by destruct st.
    + intros (xs & Hf & _ & _ & _ & _ & ->). apply Forall2_nil_inv_l in Hf as ->. simpl.
      rewrite app_nil_r, Z.add_0_r. by destruct st.
  - rewrite bind_ok. setoid_rewrite build_step_iff. setoid_rewrite IH. clear IH. split.
    + intros (st1 & (e & p & h & Ha & Hs & Ht & ->) & xs & Hf & Hn1 & Hn2 & Hn3 & Hn4 & ->). simpl in *.
      exists ((e, p, h) :: xs). csimpl. split_and!.
      * by constructor.
      * apply NoDup_cons. split; [|done]. intros (m' & Heq & Hm')%list_elem_of_fmap.
        apply (Hn2 m' Hm'). rewrite <- Heq. left.
      * intros m' [->|Hm']%elem_of_cons; [done|]. intros Hin. apply (Hn2 m' Hm'). by right.
      * apply NoDup_cons. split; [|done]. intros (x & Heq & Hx)%list_elem_of_fmap.
        apply (Hn4 x Hx). rewrite <- Heq. left.
      * intros x [->|Hx]%elem_of_cons; [done|]. intros Hin. apply (Hn4 x Hx). by right.
      * rewrite last_cons, <- app_assoc, !reverse_cons, <- !app_assoc. f_equal; [by destruct (last xs)|].
        unfold sumZ. simpl. lia.
    + intros (xs & Hf & Hn1 & Hn2 & Hn3 & Hn4 & ->). apply Forall2_cons_inv_l in Hf as ([[e p] h] & xs' & Ha & Hf & ->).
      csimpl in *. apply NoDup_cons in Hn1 as [Hm Hn1]. apply NoDup_cons in Hn3 as [Hp Hn3].
      eexists. split; [exists e, p, h; split; [exact Ha|]; split; [apply Hn2; left|]; split; [apply (Hn4 (e, p, h)); left|done]|].
      exists xs'. simpl. split_and!; [done|done| |done| |].
      * intros m' Hm'. intros [Heq|Hin]%elem_of_cons; [|by apply (Hn2 m'); [right|]].
        apply Hm. rewrite <- Heq. by apply list_elem_of_fmap_2.
      * intros x Hx. intros [Heq|Hin]%elem_of_cons; [|by apply (Hn4 x); [right|]].
        apply Hp. rewrite <- Heq. by apply (list_elem_of_fmap_2 (λ x : FsEntryRow * string * string, x.1.2)).
      * rewrite last_cons, <- app_assoc, !reverse_cons, <- !app_assoc. f_equal; [by destruct (last xs')|].
        unfold sumZ. simpl. lia.
Qed.
End Plan.

(** What a plan is built from: exactly the selections whose moves are all admissible, with distinct
    entries and targets. *)
Lemma build_move_plan_iff vs es pid by_ v root moves scope b :
  let by_id := _entries_by_id vs es v (am_entry_id <$> moves) root scope in
  build_move_plan vs es pid by_ v root moves scope = Ok b ↔
  pid ≠ "" ∧ by_ ≠ "" ∧ moves ≠ [] ∧ (Z.of_nat (length moves) ≤ MAX_FILES_HARD_CAP)%Z ∧
  ∃ xs x, Forall2 (λ m x, admissible root by_id m x.1.1 x.1.2 x.2) moves xs ∧
    NoDup (am_entry_id <$> moves) ∧ NoDup ((λ x, x.1.2) <$> xs) ∧ last xs = Some x ∧
    b = mk_build (mk_plan pid by_ (rstrip_slash root) (item_of root <$> xs) (Some (rstrip_slash root)))
          (pretty (Catalogue.host_id x.1.1)) (sumZ (size_logical ∘ fst ∘ fst <$> xs)).
Proof.
  intros by_id. unfold build_move_plan. fold by_id. split.
  - intros (u & Hne%raise_if_ok & H)%bind_ok. apply bind_ok in H as (u1 & Hlen%raise_if_ok & H).
    apply bind_ok in H as (st & Hst & H). to_prop.
    apply build_steps_iff in Hst as (xs & Hf & Hn1 & _ & Hn2 & _ & ->). simpl in H.
    destruct (last xs) as [x|] eqn:El; [|done]. destruct (plan_valid _) eqn:Ev; [|done]. injection H as <-.
    unfold plan_valid in Ev. simpl in Ev. to_prop. split_and!; [done..|].
    exists xs, x. split_and!; done.
  - intros (Hp & Hb & Hne & Hlen & xs & x & Hf & Hn1 & Hn2 & Hx & ->).
    rewrite bool_decide_false by done. rewrite (proj2 (Z.ltb_ge _ _)) by done. simpl.
    assert (build_steps root by_id (mk_bs [] [] None 0 []) moves =
      Ok (mk_bs (item_of root <$> xs) (reverse ((λ x, x.1.2) <$> xs) ++ []) (Some (pretty (Catalogue.host_id x.1.1)))
            (sumZ (size_logical ∘ fst ∘ fst <$> xs)) (reverse (am_entry_id <$> moves) ++ []))) as ->.
    { apply build_steps_iff. exists xs.
      split_and!; [exact Hf|done|by intros ? _ ?%elem_of_nil|done|by intros ? _ ?%elem_of_nil|]. by rewrite Hx. }
    simpl. replace (plan_valid _) with true; [done|]. symmetry.
    unfold plan_valid. simpl. rewrite !bool_decide_false by done. simpl. apply andb_true_iff. split.
    + apply negb_true_iff, bool_decide_eq_false. intros Hnil%fmap_nil_inv. by rewrite Hnil in Hx.
    + apply forallb_forall. intros i Hi%list_elem_of_In. apply list_elem_of_fmap in Hi as (y & -> & Hy).
      apply list_elem_of_lookup in Hy as [k Hk]. eapply Forall2_lookup_r in Hf as (m & _ & Ha); [|exact Hk].
      apply Z.leb_le. by destruct Ha as (_ & _ & _ & _ & _ & ?).
Qed.

Lemma entries_by_id_spec vs es v ids root scope i e :
  _entries_by_id vs es v ids root scope i = Some e →
  e ∈ es ∧ e_id e = i ∧ live_under vs v root scope e = true.
Proof.
  unfold _entries_by_id. intros H%last_Some_elem_of. apply list_elem_of_filter in H as [Hi H].
  apply list_elem_of_filter in H as [H He]. rewrite Is_true_true in H. by to_prop.
Qed.

(** ** Suggestions *)

Definition accepted (it : ProposedItem) : bool := negb (bool_decide (i_status it = Rejected)).
Definition target_of (root : string) (it : ProposedItem) : string := under (rstrip_slash root) (proposed_relpath it).

Lemma resolve_one_spec root proposal i e tk it tk' :
  resolve_one root proposal i e tk = (it, tk') →
  i_entry_id it = o_entry_id e ∧ current_path it = o_path e ∧
  (accepted it = false ∧ tk' = tk ∧ proposed_relpath it = o_rel e ∨
   accepted it = true ∧ inside (rstrip_slash root) (target_of root it) ∧ target_of root it ∉ tk ∧
   tk' = target_of root it :: tk).
Proof.
  unfold resolve_one. set (leaf := match by_index proposal i with Some _ => _ | None => _ end).
  destruct leaf as [l|]; [|intros [= <- <-]; split_and!; [done|done|by left]].
  set (rel := if bool_decide _ then l else _). destruct (clamp_to_root root rel) as [p|] eqn:E;
    [|intros [= <- <-]; split_and!; [done|done|by left]].
  case_bool_decide as Ht; [intros [= <- <-]; split_and!; [done|done|by left]|].
  intros [= <- <-]. simpl. split_and!; [done|done|right].
  apply clamp_spec in E as (Hne & Hp & Hw & Hd).
  assert (∀ st, target_of root (mk_proposed (o_entry_id e) (o_path e) (o_name e)
    (if bool_decide (p = rstrip_slash root) then "" else drop_s (String.length (rstrip_slash root) + 1) p) l "" st) = p) as Htgt.
  { intros st. unfold target_of. simpl. case_bool_decide as Hb; [by rewrite Hb|]. destruct Hp as [Hp|[Hp Hd0]]; [done|].
    by apply under_drop. }
  rewrite Htgt. split; [|split; [by split|done]]. unfold accepted. simpl. by destruct (bool_decide (p = o_path e)).
Qed.

(** ** Properties *)

(** C21: an accepted move plan moves only live files of the volume under the root that the scope
    shows, anchored at their catalogued inode, size and hash; its destinations are distinct, stay under
    the root without climbing, and differ from the sources; it lists each selected entry once. *)
Theorem organize_plan_contained vs es pid by_ v root moves scope b :
  build_move_plan vs es pid by_ v root moves scope = Ok b →
  let base := rstrip_slash root in
  let dests := (λ i, under base (default "" (dest_rel i))) <$> items (b_plan b) in
  move_root (b_plan b) = Some base ∧
  (Z.of_nat (length (items (b_plan b))) ≤ MAX_FILES_HARD_CAP)%Z ∧
  (entry_id <$> items (b_plan b)) = (EInt ∘ am_entry_id <$> moves) ∧ NoDup (am_entry_id <$> moves) ∧
  NoDup dests ∧ b_total_bytes b = sumZ (prior_size <$> items (b_plan b)) ∧
  ∀ i, i ∈ items (b_plan b) → action i = MOVE ∧ inside base (under base (default "" (dest_rel i))) ∧
    ∃ e, e ∈ es ∧ live_under vs v root scope e = true ∧ entry_id i = EInt (e_id e) ∧
      path i = Catalogue.path e ∧ prior_inode i = inode e ∧ prior_size i = size_logical e ∧
      is_Some (full_hash e) ∧ prior_hash i = full_hash e ∧
      under base (default "" (dest_rel i)) ≠ Catalogue.path e.
Proof.
  intros (_ & _ & _ & Hlen & xs & x & Hf & Hn1 & Hn2 & _ & ->)%build_move_plan_iff base dests. simpl in *.
  assert (∀ y, y ∈ xs → ∃ m, m ∈ moves ∧
    admissible root (_entries_by_id vs es v (am_entry_id <$> moves) root scope) m y.1.1 y.1.2 y.2) as Hadm.
  { intros y [k Hk]%list_elem_of_lookup. eapply Forall2_lookup_r in Hf as (m & Hm & Ha); [|exact Hk].
    exists m. split; [by eapply list_elem_of_lookup_2|done]. }
  assert (∀ y, y ∈ xs → under base (drop_s (String.length base + 1) y.1.2) = y.1.2 ∧ inside base y.1.2) as Hdest.
  { intros y (m & _ & (_ & Hc & _))%Hadm. apply clamp_move_spec in Hc as (Hp & Hd & Hi & _).
    split; [by apply under_drop|done]. }
  split; [done|]. rewrite length_fmap, <- (Forall2_length _ _ _ Hf). split; [done|]. split_and!.
  - clear -Hf. rewrite <- list_fmap_compose. induction Hf as [|m y ms ys Ha _ IH]; [done|]. csimpl. f_equal; [|done].
    unfold item_of, move_item. simpl. destruct Ha as [Ha _]. by apply entries_by_id_spec in Ha as (_ & -> & _).
  - done.
  - unfold dests. rewrite <- list_fmap_compose.
    rewrite (list_fmap_ext _ (λ x : FsEntryRow * string * string, x.1.2)); [done|].
    intros k y Hy%list_elem_of_lookup_2. by apply Hdest.
  - rewrite <- list_fmap_compose. done.
  - intros i (y & -> & Hy)%list_elem_of_fmap. destruct (Hdest y Hy) as [Hu Hin].
    destruct (Hadm y Hy) as (m & _ & (Hby & _ & Hne & _ & Hh & _)). simpl. fold base. rewrite Hu.
    split; [done|]. split; [done|]. apply entries_by_id_spec in Hby as (He & _ & Hl).
    exists y.1.1. split_and!; done.
Qed.

(** whatever the model proposes, there is one item per file, in order; the accepted items name
    distinct places under the root, and a rejected item keeps the file where it is. *)
Theorem proposals_stay_in_root root entries proposal :
  let its := _resolve root entries proposal in
  (λ it, (i_entry_id it, current_path it)) <$> its = (λ e, (o_entry_id e, o_path e)) <$> entries ∧
  NoDup (target_of root <$> filter (λ it, accepted it) its) ∧
  (∀ it, it ∈ its → accepted it = true → inside (rstrip_slash root) (target_of root it)) ∧
  ∀ n it e, its !! n = Some it → entries !! n = Some e → accepted it = false → proposed_relpath it = o_rel e.
Proof.
  simpl. unfold _resolve. generalize 0%Z as i.
  cut (∀ tk i, let its := resolve_from root proposal i entries tk in
    (λ it, (i_entry_id it, current_path it)) <$> its = (λ e, (o_entry_id e, o_path e)) <$> entries ∧
    (NoDup (target_of root <$> filter (λ it, accepted it) its) ∧
     ∀ p, p ∈ tk → p ∉ target_of root <$> filter (λ it, accepted it) its) ∧
    (∀ it, it ∈ its → accepted it = true → inside (rstrip_slash root) (target_of root it)) ∧
    ∀ n it e, its !! n = Some it → entries !! n = Some e → accepted it = false → proposed_relpath it = o_rel e).
  { intros H i. specialize (H [] i) as (? & (? & _) & ?). done. }
  induction entries as [|e es IH]; intros tk i; cbn [resolve_from].
  { split_and!; [done|constructor|by intros p _ ?%elem_of_nil|by intros it ?%elem_of_nil|done]. }
  destruct (resolve_one root proposal i e tk) as [it tk'] eqn:E.
  apply resolve_one_spec in E as (Hid & Hpath & Hcase).
  destruct (IH tk' (i + 1)%Z) as (Hids & (Hnd & Hfresh) & Hins & Hrej). csimpl. rewrite Hid, Hpath, Hids, filter_cons.
  split; [done|]. destruct Hcase as [(Hacc & -> & Hrel)|(Hacc & Hin & Hni & ->)]; rewrite Hacc; simpl.
  - split_and!; [done|done| |].
    + intros it' [->|Hit']%elem_of_cons; [congruence|by apply Hins].
    + intros [|n] it' e'; simpl; [intros [= <-] [= <-] _; done|apply Hrej].
  - split_and!.
    + csimpl. apply NoDup_cons. split; [|done]. apply Hfresh. left.
    + intros p Hp. csimpl. intros [->|Hp']%elem_of_cons; [done|]. apply (Hfresh p); [by right|done].
    + intros it' [->|Hit']%elem_of_cons; [done|by apply Hins].
    + intros [|n] it' e'; simpl; [intros [= <-] [= <-]; congruence|apply Hrej].
Qed.

(** ** Witness *)

Definition demo_vol : Volume := mk_volume 1 7 "/srv" None "data" "zfs" "" "" None None None 0 0 0 true 0.
Definition demo_row (i : Z) (p : string) : FsEntryRow :=
  mk_entry i 7 1 None "a.txt" p 2 false false 10 10 0 0 0 0 (100 + i) 0 "{}" None true None None (Some "h") None None None.
Definition demo_rows : list FsEntryRow := [demo_row 1 "/srv/docs/a.txt"; demo_row 2 "/srv/docs/b.txt"].

Lemma organize_plan_contained_witness :
  ∃ b, build_move_plan [demo_vol] demo_rows "p1" "ann" 1 "/srv/docs/"
         [mk_approved 1 "x/../text/a.txt"; mk_approved 2 "text/b.txt"] None = Ok b ∧
  dest_rel <$> items (b_plan b) = [Some "text/a.txt"; Some "text/b.txt"] ∧
  move_root (b_plan b) = Some "/srv/docs".
Proof.
  eexists. split; [vm_compute; reflexivity|]. split; [vm_compute; reflexivity|].
  apply (organize_plan_contained [demo_vol] demo_rows "p1" "ann" 1 "/srv/docs/"
    [mk_approved 1 "x/../text/a.txt"; mk_approved 2 "text/b.txt"] None). vm_compute. reflexivity.
Defined.

(** Targets outside are refused. *)
Example clamp_refuses :
  clamp_to_root "/srv/docs" "../etc/passwd" = None ∧ clamp_to_root "/srv/docs" "/etc/passwd" = None ∧
  clamp_to_root "/srv/docs" "../docs2/x" = None.
Proof. vm_compute. done. Qed.

(** With the root "/" every target is refused: the stripped base is empty, so the candidate is
    normalised as a relative path. *)
Lemma clamp_root_slash rel : clamp_to_root "/" rel = None.
Proof.
  destruct (clamp_to_root "/" rel) as [p|] eqn:E; [|done]. apply clamp_spec in E as [Hne _]. by destruct Hne.
Qed.
