(* ===== verification/Reconcile.v ===== *)
(** Cross-host reconciliation ([src/fathom/core/reconcile/service.py]): the files under two roots, matched by their path relative to each
    and classified.

    The joins are on lists of rows.  Whether the database cancels the comparison is an argument. *)

From stdpp Require Import gmap.
From S2P Require Import Prelude PyStr PyDict Sql Catalogue Rbac Rollup Query.
From S2P Require Organize.

Local Open Scope Z_scope.

Definition MAX_SIDE_ENTRIES : nat := Z.to_nat 2000000.
Definition MAX_ITEMS : nat := 500.

Inductive Classification :=
| IDENTICAL | CONTENT_SAME_META_DIFF | DIVERGED | SIZE_MATCH_UNHASHED | MISSING_ON_COMPARISON | MISSING_ON_DEFINITIVE.

#[export] Instance Classification_eq_dec : EqDecision Classification.
Proof. solve_decision. Defined.

Definition ALL_CLASSES : list Classification :=
  [IDENTICAL; CONTENT_SAME_META_DIFF; DIVERGED; SIZE_MATCH_UNHASHED; MISSING_ON_COMPARISON; MISSING_ON_DEFINITIVE].

Record side_row := mk_side { relpath : string; sd_size : Z; sd_mtime : Z; sd_hash : option string }.

Record ReconcileItem := mk_ritem {
  ri_relpath : string; classification : Classification; definitive_size : option Z; comparison_size : option Z;
  definitive_hash : option string; comparison_hash : option string;
}.

Record ReconcileResult := mk_result {
  definitive_volume_id : Z; definitive_root : string; comparison_volume_id : Z; comparison_root : string;
  counts : list (Classification * Z); considered : Z; items : list ReconcileItem; truncated : bool;
}.

Inductive ReconcileError :=
| ReconcileTooLargeError (definitive_count comparison_count cap : nat)
| ReconcileTimeoutError
| OperationalError.

(** ** The two sides *)

(** The live files of a volume under a root, as both the side and its count select them. *)
Definition side_files (vs : list Volume) (es : list FsEntryRow) (volume_id : Z) (root : string) (scope : option ScopeFilter)
    : list FsEntryRow := filter (λ e, Organize.live_under vs volume_id root scope e) es.

Definition _side (vs : list Volume) (es : list FsEntryRow) (volume_id : Z) (root : string) (scope : option ScopeFilter) : list side_row :=
  let base := rstrip_slash root in
  (λ e, mk_side (drop_s (String.length base + 1) (path e)) (size_logical e) (mtime e) (full_hash e)) <$> side_files vs es volume_id root scope.

Definition _count_side_capped (vs : list Volume) (es : list FsEntryRow) (volume_id : Z) (root : string) (scope : option ScopeFilter)
    (cap : nat) : nat := length (take (cap + 1) (side_files vs es volume_id root scope)).

(** ** Classification *)

(** The [CASE] of a matched pair. *)
Definition classify (l r : side_row) : Classification :=
  match sd_hash l, sd_hash r with
  | Some a, Some b =>
      if bool_decide (a = b) then if sd_mtime l =? sd_mtime r then IDENTICAL else CONTENT_SAME_META_DIFF else DIVERGED
  | _, _ => if sd_size l =? sd_size r then SIZE_MATCH_UNHASHED else DIVERGED
  end.

Definition same_path (l r : side_row) : bool := bool_decide (relpath l = relpath r).

(** [left JOIN right ON relpath]. *)
Definition matched (left right : list side_row) : list (side_row * side_row) :=
  left ≫= λ l, (λ r, (l, r)) <$> filter (λ r, same_path l r) right.

(** [left LEFT JOIN right WHERE right.relpath IS NULL]. *)
Definition unmatched (left right : list side_row) : list side_row :=
  filter (λ l, negb (existsb (same_path l) right)) left.

Definition count_of (left right : list side_row) (c : Classification) : Z :=
  match c with
  | MISSING_ON_COMPARISON => Z.of_nat (length (unmatched left right))
  | MISSING_ON_DEFINITIVE => Z.of_nat (length (unmatched right left))
  | _ => Z.of_nat (length (filter (λ x, bool_decide (classify x.1 x.2 = c)) (matched left right)))
  end.

(** ** The sample *)

Definition is_flagged (x : side_row * side_row) : bool := bool_decide (classify x.1 x.2 ∈ [DIVERGED; SIZE_MATCH_UNHASHED]).

Definition flagged_item (x : side_row * side_row) : ReconcileItem :=
  mk_ritem (relpath x.1) (classify x.1 x.2) (Some (sd_size x.1)) (Some (sd_size x.2)) (sd_hash x.1) (sd_hash x.2).
Definition missing_comparison_item (l : side_row) : ReconcileItem :=
  mk_ritem (relpath l) MISSING_ON_COMPARISON (Some (sd_size l)) None (sd_hash l) None.
Definition missing_definitive_item (r : side_row) : ReconcileItem :=
  mk_ritem (relpath r) MISSING_ON_DEFINITIVE None (Some (sd_size r)) None (sd_hash r).

(** One further query, for what room is left. *)
Definition fill (items more : list ReconcileItem) : list ReconcileItem :=
  if decide (length items < MAX_ITEMS)%nat then items ++ take (MAX_ITEMS - length items) more else items.

Definition _sample_items (left right : list side_row) : list ReconcileItem :=
  let items := take MAX_ITEMS (flagged_item <$> order_by str_le (λ x, relpath x.1) (filter (λ x, is_flagged x) (matched left right))) in
  let items := fill items (missing_comparison_item <$> order_by str_le relpath (unmatched left right)) in
  fill items (missing_definitive_item <$> order_by str_le relpath (unmatched right left)).

(** ** The comparison *)

Section Compare.
Context (vs : list Volume) (es : list FsEntryRow) (scope : option ScopeFilter).

Definition _compare_inner (dv : Z) (dr : string) (cv : Z) (cr : string) : ReconcileResult :=
  let left := _side vs es dv dr scope in
  let right := _side vs es cv cr scope in
  let counts := (λ c, (c, count_of left right c)) <$> ALL_CLASSES in
  let items := _sample_items left right in
  mk_result dv (rstrip_slash dr) cv (rstrip_slash cr) counts (sumZ counts.*2) items (bool_decide (MAX_ITEMS ≤ length items)%nat).

(** What the database does with the comparison: it runs, or fails, by the statement timeout or otherwise. *)
Inductive execution := Ran | Failed (sqlstate : option string) (message : string).

Definition _is_statement_timeout (sqlstate : option string) (message : string) : bool :=
  bool_decide (sqlstate = Some "57014") || contains "statement timeout" (lower message).

Definition compare (dv : Z) (dr : string) (cv : Z) (cr : string) (max_side_entries : nat) (ex : execution)
    : result ReconcileError ReconcileResult :=
  let def_count := _count_side_capped vs es dv dr scope max_side_entries in
  let cmp_count := _count_side_capped vs es cv cr scope max_side_entries in
  if bool_decide (max_side_entries < def_count)%nat || bool_decide (max_side_entries < cmp_count)%nat
  then Err (ReconcileTooLargeError def_count cmp_count max_side_entries)
  else
    match ex with
    | Ran => Ok (_compare_inner dv dr cv cr)
    | Failed sqlstate message => Err (if _is_statement_timeout sqlstate message then ReconcileTimeoutError else OperationalError)
    end.
End Compare.

(** ** The verdict on a path *)

Definition find_path (p : string) (side : list side_row) : option side_row := head (filter (λ x, relpath x = p) side).

(** What the comparison means to say of one relative path. *)
Definition verdict (left right : list side_row) (p : string) : option Classification :=
  match find_path p left, find_path p right with
  | Some l, Some r => Some (classify l r)
  | Some _, None => Some MISSING_ON_COMPARISON
  | None, Some _ => Some MISSING_ON_DEFINITIVE
  | None, None => None
  end.

(** The relative paths of either side, once each. *)
Definition all_paths (left right : list side_row) : list string :=
  (relpath <$> left) ++ (relpath <$> unmatched right left).

Lemma find_path_some p side x : NoDup (relpath <$> side) → find_path p side = Some x ↔ x ∈ side ∧ relpath x = p.
Proof.
  intros Hnd. unfold find_path. split.
  - by intros [? ?]%head_Some_elem_of%list_elem_of_filter.
  - intros [Hx <-]. by rewrite (filter_unique relpath side x).
Qed.

Lemma find_path_none p side : find_path p side = None ↔ p ∉ relpath <$> side.
Proof.
  unfold find_path. rewrite head_None. split.
  - intros E (x & -> & Hx)%list_elem_of_fmap. by destruct (filter_nil_not_elem_of _ _ x E).
  - intros H. apply filter_none, Forall_forall. intros x Hx <-. apply H. by apply list_elem_of_fmap_2.
Qed.

Lemma find_path_elem p side : p ∈ relpath <$> side ↔ find_path p side ≠ None.
Proof. rewrite find_path_none. destruct (decide (p ∈ relpath <$> side)); tauto. Qed.

Lemma unmatched_find l right : existsb (same_path l) right = negb (bool_decide (find_path (relpath l) right = None)).
Proof.
  apply eq_true_iff_eq. rewrite existsb_exists, negb_true_iff, bool_decide_eq_false, find_path_none. split.
  - intros (x & Hx%list_elem_of_In & Hs) H. unfold same_path in Hs. to_prop. apply H. rewrite Hs. by apply list_elem_of_fmap_2.
  - intros H. destruct (decide (relpath l ∈ relpath <$> right)) as [(x & Ex & Hx)%list_elem_of_fmap|]; [|done].
    exists x. split; [by apply list_elem_of_In|]. by apply bool_decide_eq_true.
Qed.

Section Verdicts.
Context (left right : list side_row) (Hl : NoDup (relpath <$> left)) (Hr : NoDup (relpath <$> right)).

(** A row has at most one partner. *)
Lemma partners l : filter (λ r, same_path l r) right = option_list (find_path (relpath l) right).
Proof.
  destruct (find_path (relpath l) right) as [r|] eqn:E; simpl.
  - apply find_path_some in E as [Hin E]; [|done]. rewrite <- (filter_unique relpath right r Hr Hin).
    apply filter_ext_elem. intros x _. unfold same_path. rewrite bool_decide_spec, E. naive_solver.
  - apply find_path_none in E. apply filter_none, Forall_forall. intros x Hx Hs. unfold same_path in Hs.
    apply E. apply bool_decide_unpack in Hs. rewrite Hs. by apply list_elem_of_fmap_2.
Qed.

Lemma left_verdict l : l ∈ left →
  verdict left right (relpath l) = Some (match find_path (relpath l) right with Some r => classify l r | None => MISSING_ON_COMPARISON end).
Proof.
  intros Hin. unfold verdict. rewrite (proj2 (find_path_some (relpath l) left l Hl) (conj Hin eq_refl)). by destruct (find_path _ right).
Qed.

Lemma matched_count c l0 :
  (∀ l, l ∈ l0 → l ∈ left) → c ≠ MISSING_ON_COMPARISON →
  length (filter (λ x, bool_decide (classify x.1 x.2 = c)) (matched l0 right)) =
  length (filter (λ p, verdict left right p = Some c) (relpath <$> l0)).
Proof.
  intros Hin Hc. induction l0 as [|l l0 IH]; [done|]. unfold matched. rewrite bind_cons, fmap_cons. fold (matched l0 right).
  rewrite filter_app, length_app, IH by (intros; apply Hin; by right). rewrite partners, filter_cons.
  rewrite left_verdict by (apply Hin; left). destruct (find_path (relpath l) right) as [r|]; simpl.
  - rewrite filter_cons. simpl. destruct (decide (classify l r = c)) as [E|E].
    + rewrite decide_True by (by apply bool_decide_pack). rewrite decide_True by congruence. done.
    + rewrite decide_False by (by rewrite bool_decide_spec). rewrite decide_False by congruence. done.
  - rewrite decide_False by congruence. done.
Qed.

Lemma unmatched_count l0 :
  (∀ l, l ∈ l0 → l ∈ left) →
  length (unmatched l0 right) = length (filter (λ p, verdict left right p = Some MISSING_ON_COMPARISON) (relpath <$> l0)).
Proof.
  intros Hin. induction l0 as [|l l0 IH]; [done|]. unfold unmatched in *. rewrite filter_cons_b, fmap_cons, filter_cons.
  rewrite left_verdict, unmatched_find by (apply Hin; left). specialize (IH ltac:(intros; apply Hin; by right)).
  destruct (find_path (relpath l) right) as [r|] eqn:E; simpl.
  - rewrite decide_False; [done|]. intros [= Hc]. unfold classify in Hc. by repeat case_match.
  - by rewrite IH.
Qed.

(** The paths of the right side alone. *)
Lemma right_only_verdict p : p ∈ relpath <$> unmatched right left → verdict left right p = Some MISSING_ON_DEFINITIVE.
Proof.
  intros (r & -> & [Hu%Is_true_true Hin]%list_elem_of_filter)%list_elem_of_fmap. rewrite unmatched_find in Hu. to_prop.
  unfold verdict. rewrite Hu. by rewrite (proj2 (find_path_some (relpath r) right r Hr) (conj Hin eq_refl)).
Qed.

Lemma count_verdict c :
  count_of left right c = Z.of_nat (length (filter (λ p, verdict left right p = Some c) (all_paths left right))).
Proof.
  unfold all_paths. rewrite filter_app, length_app.
  destruct (decide (c = MISSING_ON_DEFINITIVE)) as [->|Hc].
  - rewrite (filter_all _ (relpath <$> unmatched right left)) by (apply Forall_forall; apply right_only_verdict).
    rewrite filter_none; [by rewrite length_fmap|]. apply Forall_forall. intros p (l & -> & Hin)%list_elem_of_fmap.
    rewrite left_verdict by done. destruct (find_path _ _); [|done]. intros [= Hc]. unfold classify in Hc. by repeat case_match.
  - rewrite (filter_none _ (relpath <$> unmatched right left)), Nat.add_0_r.
    2:{ apply Forall_forall. intros p Hp. rewrite (right_only_verdict p Hp). congruence. }
    destruct (decide (c = MISSING_ON_COMPARISON)) as [->|Hc'].
    + simpl. by rewrite (unmatched_count left).
    + rewrite <- (matched_count c left) by done. by destruct c.
Qed.

Lemma all_paths_spec : NoDup (all_paths left right) ∧ ∀ p, p ∈ all_paths left right ↔ verdict left right p ≠ None.
Proof.
  unfold all_paths. split.
  - apply NoDup_app. split; [done|]. split.
    + intros p Hp Hp'%right_only_verdict. apply list_elem_of_fmap in Hp as (l & -> & Hin). rewrite left_verdict in Hp' by done.
      destruct (find_path _ _); [|done]. injection Hp' as Hc. unfold classify in Hc. by repeat case_match.
    + eapply sublist_NoDup; [exact Hr|]. by apply sublist_map, filter_sublist_b.
  - intros p. rewrite elem_of_app. split.
    + intros [(l & -> & Hin)%list_elem_of_fmap|H%right_only_verdict]; [by rewrite left_verdict|by rewrite H].
    + unfold verdict. destruct (find_path p left) as [l|] eqn:El.
      * intros _. apply find_path_some in El as [Hin <-]; [|done]. left. by apply list_elem_of_fmap_2.
      * destruct (find_path p right) as [r|] eqn:Er; [|done]. intros _. right. apply find_path_some in Er as [Hin <-]; [|done].
        apply list_elem_of_fmap_2, list_elem_of_filter. rewrite unmatched_find. split; [|done]. by rewrite El.
Qed.

Lemma classes_partition (ps : list string) :
  (∀ p, p ∈ ps → verdict left right p ≠ None) →
  sumZ ((λ c, Z.of_nat (length (filter (λ p, verdict left right p = Some c) ps))) <$> ALL_CLASSES) = Z.of_nat (length ps).
Proof.
  induction ps as [|p ps IH]; intros Hp; [done|]. specialize (IH ltac:(intros; apply Hp; by right)). specialize (Hp p ltac:(left)).
  destruct (verdict left right p) as [c|] eqn:E; [|done]. unfold ALL_CLASSES in *. rewrite !fmap_cons, fmap_nil, !sumZ_cons in *.
  rewrite !filter_cons, E. destruct c; repeat (rewrite decide_True by done || rewrite decide_False by done); simpl length; lia.
Qed.
End Verdicts.

(** ** The sample is a prefix of the actionable files *)

Definition actionable (left right : list side_row) : list ReconcileItem :=
  (flagged_item <$> order_by str_le (λ x, relpath x.1) (filter (λ x, is_flagged x) (matched left right))) ++
  (missing_comparison_item <$> order_by str_le relpath (unmatched left right)) ++
  (missing_definitive_item <$> order_by str_le relpath (unmatched right left)).

Lemma fill_take a b : fill (take MAX_ITEMS a) b = take MAX_ITEMS (a ++ b).
Proof.
  unfold fill. rewrite length_take. destruct (decide _) as [H|H].
  - rewrite (take_ge a) by lia. rewrite take_app. rewrite (take_ge a) by lia. f_equal. f_equal. lia.
  - rewrite take_app_le by lia. done.
Qed.

Lemma sample_take left right : _sample_items left right = take MAX_ITEMS (actionable left right).
Proof. unfold _sample_items, actionable. cbv zeta. by rewrite !fill_take, <- app_assoc. Qed.

Lemma elem_of_matched left right l r : (l, r) ∈ matched left right ↔ l ∈ left ∧ r ∈ right ∧ relpath l = relpath r.
Proof.
  unfold matched. rewrite list_elem_of_bind. split.
  - intros (x & (y & [= -> ->] & [Hs%Is_true_true Hy]%list_elem_of_filter)%list_elem_of_fmap & Hx). unfold same_path in Hs. by to_prop.
  - intros (Hl & Hr & E). exists l. split; [|done]. apply list_elem_of_fmap. exists r. split; [done|].
    apply list_elem_of_filter. split; [by apply bool_decide_pack|done].
Qed.

Section Actionable.
Context (left right : list side_row) (Hl : NoDup (relpath <$> left)) (Hr : NoDup (relpath <$> right)).

Lemma find_left l : l ∈ left → find_path (relpath l) left = Some l.
Proof. intros H. by apply find_path_some. Qed.
Lemma find_right r : r ∈ right → find_path (relpath r) right = Some r.
Proof. intros H. by apply find_path_some. Qed.

Lemma elem_of_unmatched (a b : list side_row) l : l ∈ unmatched a b ↔ l ∈ a ∧ find_path (relpath l) b = None.
Proof.
  unfold unmatched. rewrite list_elem_of_filter, unmatched_find, negb_involutive, bool_decide_spec. tauto.
Qed.

(** An item of the sample tells the verdict on its path. *)
Lemma actionable_sound it : it ∈ actionable left right → verdict left right (ri_relpath it) = Some (classification it).
Proof.
  unfold actionable. rewrite !elem_of_app, !list_elem_of_fmap.
  intros [([l r] & -> & [_ Hm]%elem_of_order_by%list_elem_of_filter)|[(l & -> & Hm%elem_of_order_by)|(r & -> & Hm%elem_of_order_by)]]; simpl.
  - apply elem_of_matched in Hm as (Hin & Hin' & E). rewrite left_verdict by done. by rewrite E, find_right.
  - apply elem_of_unmatched in Hm as [Hin E]. rewrite left_verdict by done. by rewrite E.
  - apply elem_of_unmatched in Hm as [Hin E]. unfold verdict. by rewrite E, find_right.
Qed.

(** Every path that needs attention has an item. *)
Lemma actionable_complete p c :
  verdict left right p = Some c → c ≠ IDENTICAL → c ≠ CONTENT_SAME_META_DIFF →
  ∃ it, it ∈ actionable left right ∧ ri_relpath it = p ∧ classification it = c.
Proof.
  intros Hv H1 H2. unfold actionable. setoid_rewrite elem_of_app. setoid_rewrite elem_of_app. unfold verdict in Hv.
  destruct (find_path p left) as [l|] eqn:El.
  - pose proof El as El'. apply find_path_some in El as [Hin <-]; [|done]. destruct (find_path _ right) as [r|] eqn:Er.
    + apply find_path_some in Er as [Hin' E]; [|done]. injection Hv as <-. exists (flagged_item (l, r)). split; [|done]. left.
      apply list_elem_of_fmap_2. rewrite elem_of_order_by. apply list_elem_of_filter. split; [|by apply elem_of_matched].
      unfold is_flagged. simpl. apply bool_decide_pack. destruct (classify l r) eqn:Ec; [done|done|set_solver..| |];
        unfold classify in Ec; by repeat case_match.
    + injection Hv as <-. exists (missing_comparison_item l). split; [|done]. right; left.
      apply list_elem_of_fmap_2. rewrite elem_of_order_by. by apply elem_of_unmatched.
  - destruct (find_path p right) as [r|] eqn:Er; [|done]. injection Hv as <-. apply find_path_some in Er as [Hin <-]; [|done].
    exists (missing_definitive_item r). split; [|done]. right; right.
    apply list_elem_of_fmap_2. rewrite elem_of_order_by. by apply elem_of_unmatched.
Qed.
End Actionable.

Lemma side_NoDup vs es v root scope :
  NoDup (path <$> side_files vs es v root scope) → NoDup (relpath <$> _side vs es v root scope).
Proof.
  intros H. apply (NoDup_fmap_1 (λ t, rstrip_slash root +:+ String "/" t)). unfold _side. rewrite <- !list_fmap_compose.
  erewrite list_fmap_ext; [exact H|]. intros i e He%list_elem_of_lookup_2. unfold side_files in He.
  apply list_elem_of_filter in He as [He%Is_true_true _]. unfold Organize.live_under in He.
  destruct (Organize.volume_of vs e); [|done]. apply andb_true_iff in He as [He _]. apply andb_true_iff in He as [_ He].
  apply subtree_like_spec in He as [t Ht]. simpl. rewrite Ht. f_equal.
  replace (String.length (rstrip_slash root) + 1)%nat with (String.length (rstrip_slash root +:+ "/")) by (rewrite length_app_s; simpl; lia).
  change (String "/" t) with ("/" +:+ t). by rewrite <- app_assoc_s, drop_s_app.
Qed.

(** Where no two live rows of a side share a path, a comparison gives each relative path of either side exactly one class, and counts
    exactly them; every item of the sample tells the class of its path, and a sample that is not cut names every path that differs or
    is missing. *)
Theorem compare_unique vs es scope dv dr cv cr cap res :
  compare vs es scope dv dr cv cr cap Ran = Ok res →
  NoDup (path <$> side_files vs es dv dr scope) → NoDup (path <$> side_files vs es cv cr scope) →
  let L := _side vs es dv dr scope in
  let R := _side vs es cv cr scope in
  let paths := all_paths L R in
  NoDup paths ∧ (∀ p, p ∈ paths ↔ p ∈ relpath <$> L ∨ p ∈ relpath <$> R) ∧
  counts res = (λ c, (c, Z.of_nat (length (filter (λ p, verdict L R p = Some c) paths)))) <$> ALL_CLASSES ∧
  considered res = Z.of_nat (length paths) ∧
  (∀ it, it ∈ items res → verdict L R (ri_relpath it) = Some (classification it)) ∧
  (truncated res = false → ∀ p c, verdict L R p = Some c → c ≠ IDENTICAL → c ≠ CONTENT_SAME_META_DIFF →
    ∃ it, it ∈ items res ∧ ri_relpath it = p ∧ classification it = c).
Proof.
  intros H Hl%side_NoDup Hr%side_NoDup L R paths. unfold compare in H. destruct (_ || _); [done|]. injection H as <-.
  unfold _compare_inner. cbn [counts considered items truncated]. fold L R in Hl, Hr |- *.
  destruct (all_paths_spec L R Hl Hr) as [Hnd Hp]. split; [done|]. split; [|split; [|split; [|split]]].
  - intros p. unfold paths. rewrite Hp. unfold verdict. rewrite !find_path_elem. destruct (find_path p L), (find_path p R); naive_solver.
  - apply list_fmap_ext. intros i c _. f_equal. by apply count_verdict.
  - rewrite <- (classes_partition L R paths) by (intros p; apply Hp). rewrite <- list_fmap_compose. f_equal.
    apply list_fmap_ext. intros i c _. simpl. by apply count_verdict.
  - intros it Hit. rewrite sample_take in Hit. apply (actionable_sound L R Hl Hr). by eapply elem_of_take in Hit as (? & ?%list_elem_of_lookup_2 & _).
  - intros Ht p c Hv H1 H2. to_prop. rewrite sample_take in Ht |- *. rewrite length_take in Ht. rewrite take_ge by lia.
    by apply actionable_complete.
Qed.

(** ** Any two sides *)

(** The rows of a side with a relative path; after a change of inode the catalogue can have more than one. *)
Definition rows_at (p : string) (side : list side_row) : list side_row := filter (λ x, relpath x = p) side.

(** What is to be said of one relative path: the class of each pair of its rows, or that each row has no partner. *)
Definition verdicts (left right : list side_row) (p : string) : list Classification :=
  match rows_at p left, rows_at p right with
  | [], rs => (λ _, MISSING_ON_DEFINITIVE) <$> rs
  | ls, [] => (λ _, MISSING_ON_COMPARISON) <$> ls
  | ls, rs => ls ≫= λ l, classify l <$> rs
  end.

Definition pair_class (x : side_row * side_row) : Classification := classify x.1 x.2.

(** The classes in the order in which the comparison finds them. *)
Definition found (left right : list side_row) : list Classification :=
  (pair_class <$> matched left right) ++ ((λ _, MISSING_ON_COMPARISON) <$> unmatched left right) ++
  ((λ _, MISSING_ON_DEFINITIVE) <$> unmatched right left).

Lemma grouped_by_path ps side :
  NoDup ps → (∀ x, x ∈ side → relpath x ∈ ps) → side ≡ₚ ps ≫= λ p, rows_at p side.
Proof.
  unfold rows_at. revert side. induction ps as [|p ps IH]; intros side Hnd Hs.
  - destruct side as [|x side]; [done|]. by destruct (not_elem_of_nil (relpath x)); apply Hs; left.
  - apply NoDup_cons in Hnd as [Hp Hnd]. rewrite bind_cons.
    rewrite <- (filter_app_complement (λ x, relpath x = p) side) at 1. apply Permutation_app_head.
    rewrite (IH (filter (λ x, ¬ relpath x = p) side) Hnd) at 1.
    + apply reflexive_eq, Forall_bind_ext, Forall_forall. intros q Hq. rewrite list_filter_filter. apply list_filter_iff.
      intros x. split; [naive_solver|]. intros <-. split; [done|]. intros E. by rewrite E in Hq.
    + intros x [Hne Hx]%list_elem_of_filter. apply Hs in Hx. by apply elem_of_cons in Hx as [?|?].
Qed.

Lemma bind_assoc_list {A B C} (g : A → list B) (h : B → list C) l : (l ≫= g) ≫= h = l ≫= λ x, g x ≫= h.
Proof. induction l as [|x l IH]; [done|]. by rewrite !bind_cons, bind_app, IH. Qed.

Lemma fmap_bind_list {A B C} (g : A → list B) (h : B → C) l : h <$> (l ≫= g) = l ≫= λ x, h <$> g x.
Proof. induction l as [|x l IH]; [done|]. by rewrite !bind_cons, fmap_app, IH. Qed.

Lemma bind_app_perm {A B} (g h : A → list B) l : (l ≫= g) ++ (l ≫= h) ≡ₚ l ≫= λ x, g x ++ h x.
Proof.
  induction l as [|x l IH]; [done|]. rewrite !bind_cons, <- IH, <- !app_assoc. apply Permutation_app_head.
  rewrite !app_assoc. apply Permutation_app_tail, Permutation_app_comm.
Qed.

(** The classes of one path, by the three queries. *)
Lemma verdicts_found left right p :
  verdicts left right p = (pair_class <$> matched (rows_at p left) right) ++ ((λ _, MISSING_ON_COMPARISON) <$> unmatched (rows_at p left) right) ++
    ((λ _, MISSING_ON_DEFINITIVE) <$> unmatched (rows_at p right) left).
Proof.
  assert (∀ l a b, l ∈ rows_at p a → filter (λ r, same_path l r) b = rows_at p b) as Hp.
  { intros l a b [<- _]%list_elem_of_filter. apply list_filter_iff. intros r. unfold same_path. rewrite bool_decide_spec. split; congruence. }
  assert (∀ a b, matched (rows_at p a) b = rows_at p a ≫= λ l, (λ r, (l, r)) <$> rows_at p b) as Hm.
  { intros a b. unfold matched. apply Forall_bind_ext, Forall_forall. intros l Hl. by rewrite (Hp l a b Hl). }
  assert (∀ l a b, l ∈ rows_at p a → existsb (same_path l) b = negb (bool_decide (rows_at p b = []))) as He.
  { intros l a b Hl. rewrite <- (Hp l a b Hl). apply eq_true_iff_eq. rewrite existsb_exists, negb_true_iff, bool_decide_eq_false. split.
    - intros (r & Hr%list_elem_of_In & Hs) E. apply (filter_nil_not_elem_of (λ r, same_path l r) b r E); [|done]. by apply Is_true_true.
    - intros Hne. destruct (filter _ b) as [|r rs] eqn:E; [done|]. assert (r ∈ filter (λ r, same_path l r) b) as [Hs%Is_true_true Hr]%list_elem_of_filter by (rewrite E; left).
      exists r. split; [by apply list_elem_of_In|done]. }
  assert (∀ a b, unmatched (rows_at p a) b = if bool_decide (rows_at p b = []) then rows_at p a else []) as Hu.
  { intros a b. unfold unmatched. case_bool_decide as E; [apply filter_all|apply filter_none]; apply Forall_forall; intros l Hl;
      rewrite (He l a b Hl), Is_true_true, negb_involutive; [by rewrite bool_decide_true|by rewrite bool_decide_false]. }
  rewrite Hm, !Hu, fmap_bind_list. unfold verdicts. destruct (rows_at p left) as [|l ls], (rows_at p right) as [|r rs];
    rewrite ?bool_decide_true, ?bool_decide_false by done; rewrite ?app_nil_r; try done.
  - assert (∀ ls : list side_row, (ls ≫= λ x, pair_class <$> ((λ r, (x, r)) <$> [])) = []) as -> by (by induction ls0). done.
  - apply list_bind_ext; [|done]. intros x. by rewrite <- list_fmap_compose.
Qed.

Lemma unmatched_grouped a b ps (P : string → list side_row) : a ≡ₚ ps ≫= P → unmatched a b ≡ₚ ps ≫= λ p, unmatched (P p) b.
Proof.
  intros Ha. unfold unmatched at 1. rewrite Ha. apply reflexive_eq. clear Ha. induction ps as [|q ps IH]; [done|].
  by rewrite !bind_cons, filter_app, IH.
Qed.

Section Any.
Context (left right : list side_row).

(** The relative paths of either side, once each. *)
Definition paths_of : list string := remove_dups (relpath <$> left ++ right).

Lemma elem_of_paths p : p ∈ paths_of ↔ p ∈ relpath <$> left ∨ p ∈ relpath <$> right.
Proof. unfold paths_of. by rewrite elem_of_remove_dups, fmap_app, elem_of_app. Qed.

(** What the comparison finds is what is to be said of each path. *)
Lemma found_verdicts : found left right ≡ₚ paths_of ≫= verdicts left right.
Proof.
  assert (NoDup paths_of) as Hnd by apply NoDup_remove_dups.
  assert (left ≡ₚ paths_of ≫= λ p, rows_at p left) as Hl.
  { apply grouped_by_path; [done|]. intros x Hx. apply elem_of_paths. left. by apply list_elem_of_fmap_2. }
  assert (right ≡ₚ paths_of ≫= λ p, rows_at p right) as Hr.
  { apply grouped_by_path; [done|]. intros x Hx. apply elem_of_paths. right. by apply list_elem_of_fmap_2. }
  rewrite (list_bind_ext (verdicts left right) _ paths_of paths_of (verdicts_found left right) eq_refl), <- !bind_app_perm. unfold found.
  apply Permutation_app; [|apply Permutation_app].
  - rewrite <- fmap_bind_list. apply fmap_Permutation. unfold matched at 1. rewrite Hl at 1. by rewrite bind_assoc_list.
  - rewrite <- fmap_bind_list. by apply fmap_Permutation, unmatched_grouped.
  - rewrite <- fmap_bind_list. by apply fmap_Permutation, unmatched_grouped.
Qed.

Lemma filter_const {A} (c c' : Classification) (l : list A) :
  length (filter (λ x, x = c) ((λ _, c') <$> l)) = if decide (c' = c) then length l else 0%nat.
Proof. induction l as [|x l IH]; [by case_decide|]. rewrite fmap_cons, filter_cons. case_decide; simpl; by rewrite IH. Qed.

Lemma count_found c : count_of left right c = Z.of_nat (length (filter (λ x, x = c) (paths_of ≫= verdicts left right))).
Proof.
  rewrite <- found_verdicts. unfold found. rewrite !filter_app, !length_app, !filter_const.
  assert (length (filter (λ x, x = c) (pair_class <$> matched left right)) = length (filter (λ x, bool_decide (classify x.1 x.2 = c)) (matched left right))) as ->.
  { induction (matched left right) as [|x l IH]; [done|]. rewrite fmap_cons, !filter_cons. unfold pair_class at 1.
    destruct (decide (classify x.1 x.2 = c)) as [E|E].
    - rewrite decide_True by (by apply bool_decide_pack). simpl. by rewrite IH.
    - rewrite decide_False by (by rewrite bool_decide_spec). done. }
  assert (c = MISSING_ON_COMPARISON ∨ c = MISSING_ON_DEFINITIVE → filter (λ x, bool_decide (classify x.1 x.2 = c)) (matched left right) = []) as Hn.
  { intros Hc. apply filter_none, Forall_forall. intros x _. rewrite bool_decide_spec. unfold classify. destruct Hc; subst; by repeat case_match. }
  destruct c; cbn [count_of]; rewrite ?Hn by tauto; repeat case_decide; try congruence; simpl length; lia.
Qed.

Lemma all_classes_partition (l : list Classification) : sumZ ((λ c, Z.of_nat (length (filter (λ x, x = c) l))) <$> ALL_CLASSES) = Z.of_nat (length l).
Proof.
  induction l as [|x l IH]; [done|]. unfold ALL_CLASSES in *. rewrite !fmap_cons, fmap_nil, !sumZ_cons in *. rewrite !filter_cons.
  destruct x; repeat case_decide; try congruence; simpl length; lia.
Qed.

Lemma elem_of_verdicts p c :
  c ∈ verdicts left right p ↔
  (∃ l r, l ∈ left ∧ r ∈ right ∧ relpath l = p ∧ relpath r = p ∧ c = classify l r) ∨
  (c = MISSING_ON_COMPARISON ∧ ∃ l, l ∈ unmatched left right ∧ relpath l = p) ∨
  (c = MISSING_ON_DEFINITIVE ∧ ∃ r, r ∈ unmatched right left ∧ relpath r = p).
Proof.
  rewrite verdicts_found, !elem_of_app, !list_elem_of_fmap.
  assert (∀ a b x, x ∈ unmatched (rows_at p a) b ↔ x ∈ unmatched a b ∧ relpath x = p) as Hu.
  { intros a b x. unfold unmatched, rows_at. rewrite !list_elem_of_filter. tauto. }
  setoid_rewrite Hu. split.
  - intros [([l r] & -> & Hm)|[(x & -> & ?)|(x & -> & ?)]]; [left|by right; left; eauto|by right; right; eauto].
    apply elem_of_matched in Hm as ([Hp Hl]%list_elem_of_filter & Hr & E). exists l, r. split_and!; try done. congruence.
  - intros [(l & r & Hl & Hr & <- & E & ->)|[(-> & x & ? & ?)|(-> & x & ? & ?)]]; [left|by right; left; eauto|by right; right; eauto].
    exists (l, r). split; [done|]. apply elem_of_matched. split; [by apply list_elem_of_filter|done].
Qed.

(** An item of the sample tells a class of its path, and each class that needs attention has one. *)
Lemma actionable_verdicts it : it ∈ actionable left right → classification it ∈ verdicts left right (ri_relpath it).
Proof.
  unfold actionable. rewrite !elem_of_app, !list_elem_of_fmap, elem_of_verdicts.
  intros [([l r] & -> & [_ Hm]%elem_of_order_by%list_elem_of_filter)|[(l & -> & Hm%elem_of_order_by)|(r & -> & Hm%elem_of_order_by)]]; simpl.
  - apply elem_of_matched in Hm as (Hl & Hr & E). left. by exists l, r.
  - right; left. split; [done|]. by exists l.
  - right; right. split; [done|]. by exists r.
Qed.

Lemma verdicts_actionable p c :
  c ∈ verdicts left right p → c ≠ IDENTICAL → c ≠ CONTENT_SAME_META_DIFF →
  ∃ it, it ∈ actionable left right ∧ ri_relpath it = p ∧ classification it = c.
Proof.
  intros Hv H1 H2. unfold actionable. setoid_rewrite elem_of_app. setoid_rewrite elem_of_app.
  apply elem_of_verdicts in Hv as [(l & r & Hl & Hr & <- & E & ->)|[(-> & x & Hx & <-)|(-> & x & Hx & <-)]].
  - exists (flagged_item (l, r)). split; [|done]. left. apply list_elem_of_fmap_2. rewrite elem_of_order_by.
    apply list_elem_of_filter. split; [|by apply elem_of_matched]. unfold is_flagged. simpl. apply bool_decide_pack.
    destruct (classify l r) eqn:Ec; [done|done|set_solver..| |]; unfold classify in Ec; by repeat case_match.
  - exists (missing_comparison_item x). split; [|done]. right; left. apply list_elem_of_fmap_2. by rewrite elem_of_order_by.
  - exists (missing_definitive_item x). split; [|done]. right; right. apply list_elem_of_fmap_2. by rewrite elem_of_order_by.
Qed.

(** A path that is live at most once on each side has one class. *)
Lemma verdicts_one p :
  p ∈ paths_of → (length (rows_at p left) ≤ 1)%nat → (length (rows_at p right) ≤ 1)%nat → ∃ c, verdicts left right p = [c].
Proof.
  intros Hp Hl Hr. unfold verdicts. destruct (rows_at p left) as [|l [|]] eqn:El; [|clear Hp|simpl in Hl; lia];
    (destruct (rows_at p right) as [|r [|]] eqn:Er; [|by eexists|simpl in Hr; lia]); [|by eexists].
  apply elem_of_paths in Hp as [(x & -> & Hx)%list_elem_of_fmap|(x & -> & Hx)%list_elem_of_fmap].
  - by destruct (filter_nil_not_elem_of _ _ x El eq_refl).
  - by destruct (filter_nil_not_elem_of _ _ x Er eq_refl).
Qed.
End Any.

(** C33: A comparison that runs gives each relative path of either side the classes of the pairs of its live rows, or says of each row
    that it has no partner, and counts exactly these; a path that is live at most once on each side, as a path should be, has exactly
    one class, and one that is not is counted more than once ([stale_row_counted]).  Every item of the sample tells a class of its path,
    and a sample that is not cut has an item for every class of a path that differs or is missing. *)
Theorem compare_exact vs es scope dv dr cv cr cap res :
  compare vs es scope dv dr cv cr cap Ran = Ok res →
  let L := _side vs es dv dr scope in
  let R := _side vs es cv cr scope in
  let paths := paths_of L R in
  let classes := paths ≫= verdicts L R in
  NoDup paths ∧ (∀ p, p ∈ paths ↔ p ∈ relpath <$> L ∨ p ∈ relpath <$> R) ∧
  (∀ p, p ∈ paths → (length (rows_at p L) ≤ 1)%nat → (length (rows_at p R) ≤ 1)%nat → ∃ c, verdicts L R p = [c]) ∧
  counts res = (λ c, (c, Z.of_nat (length (filter (λ x, x = c) classes)))) <$> ALL_CLASSES ∧
  considered res = Z.of_nat (length classes) ∧
  (∀ it, it ∈ items res → classification it ∈ verdicts L R (ri_relpath it)) ∧
  (truncated res = false → ∀ p c, c ∈ verdicts L R p → c ≠ IDENTICAL → c ≠ CONTENT_SAME_META_DIFF →
    ∃ it, it ∈ items res ∧ ri_relpath it = p ∧ classification it = c).
Proof.
  intros H L R paths classes. unfold compare in H. destruct (_ || _); [done|]. injection H as <-.
  unfold _compare_inner. cbn [counts considered items truncated]. fold L R.
  assert ((λ c, (c, count_of L R c)) <$> ALL_CLASSES = (λ c, (c, Z.of_nat (length (filter (λ x, x = c) classes)))) <$> ALL_CLASSES) as Hc.
  { apply list_fmap_ext. intros i c _. f_equal. apply count_found. }
  split_and!.
  - apply NoDup_remove_dups.
  - apply elem_of_paths.
  - intros p. apply verdicts_one.
  - exact Hc.
  - rewrite Hc, <- list_fmap_compose, <- (all_classes_partition classes). done.
  - intros it Hit. rewrite sample_take in Hit. apply actionable_verdicts. by eapply elem_of_take in Hit as (? & ?%list_elem_of_lookup_2 & _).
  - intros Ht p c Hv H1 H2. to_prop. rewrite sample_take in Ht |- *. rewrite length_take in Ht. rewrite take_ge by lia.
    by apply verdicts_actionable.
Qed.

(** Comparing the other way round. *)
Definition mirror (c : Classification) : Classification :=
  match c with MISSING_ON_COMPARISON => MISSING_ON_DEFINITIVE | MISSING_ON_DEFINITIVE => MISSING_ON_COMPARISON | c => c end.

Lemma classify_sym l r : classify l r = classify r l.
Proof.
  unfold classify. destruct (sd_hash l) as [a|], (sd_hash r) as [b|]; rewrite ?(Z.eqb_sym (sd_size l)); try done.
  rewrite (Z.eqb_sym (sd_mtime l)). destruct (decide (a = b)) as [->|H]; [done|]. by rewrite !bool_decide_false by congruence.
Qed.

(** Which side is the definitive one changes no verdict but the direction of what is missing. *)
Theorem compare_mirrored left right c :
  NoDup (relpath <$> left) → NoDup (relpath <$> right) → count_of right left (mirror c) = count_of left right c.
Proof.
  intros Hl Hr. rewrite !count_verdict by done. f_equal. destruct (all_paths_spec left right Hl Hr) as [Hn Hp].
  destruct (all_paths_spec right left Hr Hl) as [Hn' Hp'].
  assert (∀ p, verdict right left p = mirror <$> verdict left right p) as Hv.
  { intros p. unfold verdict. destruct (find_path p left) as [l|], (find_path p right) as [r|]; simpl; try done.
    rewrite classify_sym. f_equal. unfold classify. by repeat case_match. }
  assert (all_paths right left ≡ₚ all_paths left right) as ->.
  { apply NoDup_Permutation; [done..|]. intros p. rewrite Hp, Hp', Hv. by destruct (verdict left right p). }
  f_equal. apply filter_ext_elem. intros p _. rewrite Hv. destruct (verdict left right p) as [c'|]; simpl; [|split; congruence].
  destruct c, c'; simpl; split; congruence.
Qed.

(** ** Witness *)

Definition rec_entry (id vol : Z) (p : string) (size t : Z) (h : option string) : FsEntryRow :=
  mk_entry id 1 vol None p p 1 false false size size t 0 0 0 id 0 "{}" None true None None h None None None.

Definition rec_volumes : list Volume :=
  [mk_volume 1 1 "/a" None "data" "zfs" "" "" None None None 0 0 0 true 0; mk_volume 2 1 "/b" None "data" "zfs" "" "" None None None 0 0 0 true 0].

Definition rec_entries : list FsEntryRow :=
  [rec_entry 1 1 "/a/same" 5 1 (Some "h"); rec_entry 2 2 "/b/same" 5 1 (Some "h"); rec_entry 3 1 "/a/moved" 5 1 (Some "h");
   rec_entry 4 2 "/b/moved" 5 2 (Some "h"); rec_entry 5 1 "/a/d/x" 5 1 None; rec_entry 6 2 "/b/d/x" 5 1 (Some "k");
   rec_entry 7 1 "/a/gone" 3 1 None; rec_entry 8 2 "/b/new" 3 1 None].

Lemma compare_exact_witness : ∃ res,
  compare rec_volumes rec_entries None 1 "/a/" 2 "/b" 100 Ran = Ok res ∧
  (counts res).*2 = [1; 1; 0; 1; 1; 1] ∧ considered res = 5 ∧ (∀ it, it ∈ items res → classification it ≠ IDENTICAL).
Proof.
  destruct (compare rec_volumes rec_entries None 1 "/a/" 2 "/b" 100 Ran) as [res|] eqn:E; [|by vm_compute in E].
  destruct (compare_exact rec_volumes rec_entries None 1 "/a/" 2 "/b" 100 res E) as (_ & _ & _ & Hc & Hn & Hi & _).
  exists res. split; [done|]. split; [rewrite Hc; vm_compute; reflexivity|]. split; [rewrite Hn; vm_compute; reflexivity|].
  intros it Hit Heq. vm_compute in E. injection E as <-. cbn in Hit.
  repeat (apply elem_of_cons in Hit as [->|Hit]; [discriminate Heq|]). by apply elem_of_nil in Hit.
Defined.

(** A replaced file whose first row is still live: the path [moved] has the same content and differs, and [considered], which is
    documented as the number of distinct relative paths, counts it twice. *)
Lemma stale_row_counted :
  let es := rec_entries ++ [rec_entry 9 2 "/b/moved" 5 1 (Some "k")] in
  let L := _side rec_volumes es 1 "/a/" None in
  let R := _side rec_volumes es 2 "/b" None in
  length (paths_of L R) = 5%nat ∧ verdicts L R "moved" = [CONTENT_SAME_META_DIFF; DIVERGED] ∧
  ∃ res, compare rec_volumes es None 1 "/a/" 2 "/b" 100 Ran = Ok res ∧ considered res = 6.
Proof. split; [vm_compute; reflexivity|]. split; [vm_compute; reflexivity|]. eexists. split; vm_compute; reflexivity. Qed.

(** A sample of exactly [MAX_ITEMS] items is reported as cut although nothing is missing from it. *)
Lemma full_sample_reported_cut (left right : list side_row) :
  length (actionable left right) = MAX_ITEMS →
  _sample_items left right = actionable left right ∧ (MAX_ITEMS ≤ length (_sample_items left right))%nat.
Proof. intros H. rewrite sample_take, take_ge by lia. split; [done|lia]. Qed.
