(* ===== verification/Settings.v ===== *)
(** The settings model ([src/fathom/core/settings.py]): the fields with their types, bounds and defaults,
    and the validation of a dictionary of raw values.

    What a raw value of another type becomes is pydantic's business ([coerce], a parameter): "5" may be
    accepted for an int.  The bounds and the merge with the defaults are the program's. *)

From Stdlib Require Import QArith.
From S2P Require Import Prelude PyStr PyDict.


(** ** Values and types *)

Inductive value := VNull | VBool (b : bool) | VInt (z : Z) | VFloat (q : Q) | VStr (s : string) | VList (l : list value).

#[export] Instance Q_eq_dec : EqDecision Q.
Proof. solve_decision. Defined.

#[export] Instance value_eq_dec : EqDecision value.
Proof.
  unfold EqDecision, Decision. fix go 1. intros x y. decide equality.
  - apply Bool.bool_dec.
  - apply Z.eq_dec.
  - apply Q_eq_dec.
  - apply String.string_dec.
  - apply (List.list_eq_dec go).
Defined.

Inductive ftype := TStr | TOptStr | TBool | TInt | TFloat | TTuple.

#[export] Instance ftype_eq_dec : EqDecision ftype.
Proof. solve_decision. Defined.

(** Every number of the model and its bounds is whole; a value need not be. *)
Inductive bound := Ge (n : Z) | Gt (n : Z) | Le (n : Z).

Record field := mk_field { f_name : string; f_type : ftype; f_bounds : list bound; f_default : value }.

#[local] Coercion inject_Z : Z >-> Q.

Definition as_number (v : value) : option Q :=
  match v with VInt z => Some (inject_Z z) | VFloat q => Some q | _ => None end.

Definition holds (v : value) (b : bound) : bool :=
  match as_number v with
  | None => false
  | Some q => match b with
              | Ge n => Qle_bool (inject_Z n) q
              | Gt n => negb (Qle_bool q (inject_Z n))
              | Le n => Qle_bool q (inject_Z n)
              end
  end.

Definition has_type (t : ftype) (v : value) : bool :=
  match t, v with
  | TStr, VStr _ | TOptStr, VStr _ | TOptStr, VNull | TBool, VBool _ | TInt, VInt _ | TFloat, VFloat _ => true
  | TTuple, VList l => forallb (λ x, match x with VStr _ => true | _ => false end) l
  | _, _ => false
  end.

(** ** The fields, section by section *)

Definition database_fields : list field := [
  mk_field "database_url" TStr [] (VStr "sqlite+aiosqlite:///:memory:");
  mk_field "ingest_max_batch" TInt [Ge 1] (VInt 5000);
  mk_field "ingest_proxy_secret" TOptStr [] VNull;
  mk_field "db_echo" TBool [] (VBool false);
  mk_field "auto_create_schema" TBool [] (VBool false)].

Definition store_fields : list field := [
  mk_field "settings_store_key_ref" TOptStr [] VNull;
  mk_field "settings_store_refresh_seconds" TFloat [Gt 0] (VFloat 15)].

Definition auth_fields : list field := [
  mk_field "auth_providers" TTuple [] (VList [VStr "local"; VStr "forward"; VStr "oidc"]);
  mk_field "session_ttl_seconds" TInt [Ge 60] (VInt 43200);
  mk_field "mfa_freshness_seconds" TInt [Ge 30] (VInt 300);
  mk_field "trusted_forward_proxy_cidrs" TTuple [] (VList []);
  mk_field "oidc_issuer" TOptStr [] VNull;
  mk_field "oidc_client_id" TOptStr [] VNull;
  mk_field "session_cookie_secure" TBool [] (VBool true)].

Definition viewer_fields : list field := [
  mk_field "web_dist" TOptStr [] VNull;
  mk_field "treemap_max_nodes" TInt [Ge 1; Le 2000] (VInt 200);
  mk_field "top_n_max" TInt [Ge 1; Le 1000] (VInt 100);
  mk_field "growth_max_buckets" TInt [Ge 2; Le 5000] (VInt 500);
  mk_field "onboarding_completed" TBool [] (VBool false)].

Definition remediation_fields : list field := [
  mk_field "remediation_enabled" TBool [] (VBool false);
  mk_field "remediation_blast_cap" TInt [Ge 1] (VInt 100);
  mk_field "remediation_job_ttl_seconds" TInt [Ge 30] (VInt 300);
  mk_field "remediation_signing_algorithm" TStr [] (VStr "ed25519");
  mk_field "remediation_signing_key_ref" TOptStr [] VNull;
  mk_field "remediation_signing_key_id" TStr [] (VStr "orchestrator-v1");
  mk_field "quarantine_retention_days" TInt [Ge 1] (VInt 7)].

Definition preview_fields : list field := [
  mk_field "preview_enabled" TBool [] (VBool false);
  mk_field "preview_local_fetch" TBool [] (VBool false);
  mk_field "preview_sandbox_runtime" TStr [] (VStr "runsc");
  mk_field "preview_sandbox_image" TStr [] (VStr "fathom-preview:local");
  mk_field "preview_cpu_limit" TFloat [Gt 0] (VFloat 1);
  mk_field "preview_mem_bytes" TInt [Ge 67108864] (VInt 536870912);
  mk_field "preview_timeout_seconds" TFloat [Gt 0; Le 120] (VFloat 10);
  mk_field "preview_max_pages" TInt [Ge 1; Le 500] (VInt 50);
  mk_field "preview_max_decompressed_bytes" TInt [Ge 1048576] (VInt 104857600);
  mk_field "preview_max_input_bytes" TInt [Ge 1024] (VInt 268435456);
  mk_field "preview_cache_ttl_seconds" TInt [Ge 60] (VInt 1800);
  mk_field "preview_cache_max_entries" TInt [Ge 1] (VInt 256);
  mk_field "preview_cache_key_ref" TOptStr [] VNull;
  mk_field "preview_grant_ttl_seconds" TInt [Ge 5; Le 600] (VInt 60)].

Definition distributed_fields : list field := [
  mk_field "preview_grant_signing_key_ref" TOptStr [] VNull;
  mk_field "preview_grant_key_id" TStr [] (VStr "preview-v1");
  mk_field "preview_worker_url" TOptStr [] VNull;
  mk_field "preview_worker_enabled" TBool [] (VBool false)].

Definition browse_fields : list field := [
  mk_field "browse_signing_key_ref" TOptStr [] VNull;
  mk_field "browse_grant_key_id" TStr [] (VStr "browse-v1");
  mk_field "browse_request_ttl_seconds" TInt [Ge 5; Le 300] (VInt 30)].

Definition deployment_fields : list field := [
  mk_field "agent_deployment_enabled" TBool [] (VBool false);
  mk_field "agent_deployment_ca_cert_ref" TOptStr [] VNull;
  mk_field "agent_deployment_ca_key_ref" TOptStr [] VNull;
  mk_field "agent_deployment_cert_days" TInt [Ge 1; Le 3650] (VInt 825);
  mk_field "agent_deployment_ingest_url" TStr [] (VStr "https://proxy:9443/api/v1/agents/ingest");
  mk_field "agent_deployment_proxy_host_ip" TOptStr [] VNull;
  mk_field "agent_deployment_core_base_url" TOptStr [] VNull;
  mk_field "agent_deployment_image" TStr [] (VStr "fathom:local");
  mk_field "agent_deployment_image_archive_path" TOptStr [] VNull;
  mk_field "agent_deployment_max_concurrent" TInt [Ge 1; Le 16] (VInt 3);
  mk_field "agent_deployment_enroll_ttl_seconds" TInt [Ge 60; Le 3600] (VInt 900)].

Definition inference_fields : list field := [
  mk_field "organize_enabled" TBool [] (VBool false);
  mk_field "inference_provider" TStr [] (VStr "ollama");
  mk_field "inference_model" TStr [] (VStr "llama3.2:3b");
  mk_field "organize_model" TOptStr [] VNull;
  mk_field "inference_ollama_url" TStr [] (VStr "http://127.0.0.1:11434");
  mk_field "inference_timeout_seconds" TFloat [Gt 0; Le 600] (VFloat 120);
  mk_field "inference_allow_egress" TBool [] (VBool false);
  mk_field "inference_openai_url" TStr [] (VStr "https://api.openai.com/v1");
  mk_field "inference_openai_key_ref" TOptStr [] VNull;
  mk_field "inference_openai_api_key" TOptStr [] VNull;
  mk_field "inference_anthropic_url" TStr [] (VStr "https://api.anthropic.com");
  mk_field "inference_anthropic_key_ref" TOptStr [] VNull;
  mk_field "inference_anthropic_api_key" TOptStr [] VNull;
  mk_field "inference_anthropic_version" TStr [] (VStr "2023-06-01")].

Definition concierge_fields : list field := [
  mk_field "concierge_enabled" TBool [] (VBool false);
  mk_field "concierge_model" TOptStr [] VNull;
  mk_field "concierge_context_max_rows" TInt [Ge 1; Le 500] (VInt 50)].

Definition semantic_fields : list field := [
  mk_field "concierge_embeddings_enabled" TBool [] (VBool false);
  mk_field "concierge_embedding_provider" TStr [] (VStr "ollama");
  mk_field "concierge_embedding_url" TOptStr [] VNull;
  mk_field "concierge_embedding_key_ref" TOptStr [] VNull;
  mk_field "concierge_embedding_api_key" TOptStr [] VNull;
  mk_field "concierge_embedding_model" TStr [] (VStr "nomic-embed-text");
  mk_field "concierge_embedding_dim" TInt [Ge 1; Le 4096] (VInt 768);
  mk_field "concierge_embedding_interval_seconds" TFloat [Gt 0] (VFloat 300);
  mk_field "concierge_embedding_batch" TInt [Ge 1; Le 10000] (VInt 512)].

Definition retention_fields : list field := [
  mk_field "change_log_retention_enabled" TBool [] (VBool false);
  mk_field "change_log_retention_days" TInt [Ge 1] (VInt 90);
  mk_field "change_log_prune_interval_seconds" TFloat [Gt 0] (VFloat 86400)].

Definition coordinator_fields : list field := [
  mk_field "scan_coordinator_enabled" TBool [] (VBool false);
  mk_field "scan_coordinator_max_concurrent_heavy" TInt [Ge 1] (VInt 1);
  mk_field "scan_coordinator_heavy_entries" TInt [Ge 1] (VInt 500000);
  mk_field "scan_coordinator_lease_ttl_seconds" TInt [Ge 60] (VInt 21600);
  mk_field "scan_coordinator_retry_after_seconds" TInt [Ge 60] (VInt 1800)].

Definition notification_fields : list field := [
  mk_field "notifications_enabled" TBool [] (VBool false);
  mk_field "notification_retention_days" TInt [Ge 1] (VInt 30)].

Definition channel_fields : list field := [
  mk_field "notify_outbound_categories" TTuple [] (VList [VStr "problem"; VStr "security"]);
  mk_field "notify_min_severity" TStr [] (VStr "warning");
  mk_field "notify_send_timeout_seconds" TFloat [Gt 0; Le 120] (VFloat 10);
  mk_field "notify_email_enabled" TBool [] (VBool false);
  mk_field "notify_email_smtp_host" TOptStr [] VNull;
  mk_field "notify_email_smtp_port" TInt [Ge 1; Le 65535] (VInt 587);
  mk_field "notify_email_use_tls" TBool [] (VBool true);
  mk_field "notify_email_username" TOptStr [] VNull;
  mk_field "notify_email_password_ref" TOptStr [] VNull;
  mk_field "notify_email_from" TOptStr [] VNull;
  mk_field "notify_email_to" TTuple [] (VList []);
  mk_field "notify_chat_enabled" TBool [] (VBool false);
  mk_field "notify_chat_kind" TStr [] (VStr "discord");
  mk_field "notify_chat_webhook_ref" TOptStr [] VNull;
  mk_field "notify_chat_telegram_chat_id" TOptStr [] VNull].

Definition watch_fields : list field := [
  mk_field "watch_enabled" TBool [] (VBool false);
  mk_field "watch_interval_seconds" TFloat [Gt 0] (VFloat 3600);
  mk_field "watch_capacity_warn_percent" TInt [Ge 1; Le 100] (VInt 90);
  mk_field "watch_capacity_critical_percent" TInt [Ge 1; Le 100] (VInt 97);
  mk_field "watch_days_to_full_warn" TInt [Ge 1; Le 3650] (VInt 14);
  mk_field "watch_scan_stale_hours" TInt [Ge 0; Le 8760] (VInt 36)].

Definition model_fields : list field :=
  database_fields ++ store_fields ++ auth_fields ++ viewer_fields ++ remediation_fields ++ preview_fields ++ distributed_fields ++ browse_fields ++ deployment_fields ++ inference_fields ++ concierge_fields ++ semantic_fields ++ retention_fields ++ coordinator_fields ++ notification_fields ++ channel_fields ++ watch_fields.

(** ** Validation *)

(** A dictionary of values by field name. *)
Notation settings := (list (string * value)).

Section Validate.
Context (coerce : ftype → value → option value).

Definition validate_field (f : field) (raw : value) : option value :=
  v ← coerce (f_type f) raw; if forallb (holds v) (f_bounds f) then Some v else None.

Definition model_validate (raw : settings) : option settings :=
  mapM (λ f, v ← validate_field f (default (f_default f) (dict_get (f_name f) raw)); Some (f_name f, v)) model_fields.
End Validate.

(** [merged.update(overrides)]. *)
Definition dict_update (d overrides : settings) : settings := foldl (λ d x, dict_set x.1 x.2 d) d overrides.

Definition field_of (key : string) : option field := head (filter (λ f, f_name f = key) model_fields).
Definition is_field (key : string) : bool := bool_decide (field_of key ≠ None).

(** A value in a validated instance. *)
Definition get (s : settings) (key : string) : value := default VNull (dict_get key s).
