(* ===== verification/SettingsStore.v ===== *)
(** The runtime settings store ([src/fathom/core/settings_store.py], the tables of
    [core/catalogue/settings_override_meta.py]): the policy of each setting, the overrides in the database
    and in memory, the effective settings, the named secrets.

    A stored value is the value it encodes (JSON) or the ciphertext of a secret; Fernet is a parameter,
    with the randomness of an encryption as an argument.  Help texts are left out, labels are in UTF-8. *)

From Stdlib Require Import QArith.
From S2P Require Import Prelude PyStr PyDict Sql Settings.


(** ** Policies *)

Definition CATEGORY_GENERAL : string := "general".
Definition CATEGORY_INFERENCE : string := "inference".
Definition CATEGORY_CONCIERGE : string := "concierge".
Definition CATEGORY_ORGANIZE : string := "organize".
Definition CATEGORY_REMEDIATION : string := "remediation".
Definition CATEGORY_PREVIEW : string := "preview".
Definition CATEGORY_SCAN : string := "scan_coordinator".
Definition CATEGORY_NOTIFICATIONS : string := "notifications".
Definition CATEGORY_RETENTION : string := "retention".
Definition CATEGORY_INGEST : string := "ingest".
Definition CATEGORY_AUTH : string := "auth".

Record SettingPolicy := mk_policy {
  p_key : string; p_category : string; p_editable : bool; p_is_secret : bool; p_restart_required : bool;
  p_label : option string; p_options : option (list string); p_relevant_when : list (string * list value);
  p_advanced : bool;
}.

Definition general_policies : list SettingPolicy := [
  mk_policy "treemap_max_nodes" CATEGORY_GENERAL true false false None None [] false;
  mk_policy "top_n_max" CATEGORY_GENERAL true false false None None [] false;
  mk_policy "growth_max_buckets" CATEGORY_GENERAL true false false None None [] false;
  mk_policy "onboarding_completed" CATEGORY_GENERAL true false false (Some "Onboarding completed") None [] false].

Definition auth_policies : list SettingPolicy := [
  mk_policy "mfa_freshness_seconds" CATEGORY_AUTH true false false None None [] false;
  mk_policy "session_ttl_seconds" CATEGORY_AUTH true false false None None [] false].

Definition ingest_policies : list SettingPolicy := [
  mk_policy "ingest_max_batch" CATEGORY_INGEST true false false None None [] false;
  mk_policy "ingest_proxy_secret" CATEGORY_INGEST true true false None None [] false].

Definition inference_policies : list SettingPolicy := [
  mk_policy "inference_provider" CATEGORY_INFERENCE true false false (Some "Inference provider") (Some ["ollama"; "openai"; "anthropic"]) [] false;
  mk_policy "inference_model" CATEGORY_INFERENCE true false false (Some "Inference model") None [] false;
  mk_policy "inference_allow_egress" CATEGORY_INFERENCE true false false (Some "Allow cloud egress") None [("inference_provider", [VStr "openai"; VStr "anthropic"])] false;
  mk_policy "inference_timeout_seconds" CATEGORY_INFERENCE true false false None None [] false;
  mk_policy "inference_ollama_url" CATEGORY_INFERENCE true false false (Some "Ollama URL") None [("inference_provider", [VStr "ollama"])] false;
  mk_policy "inference_openai_url" CATEGORY_INFERENCE true false false (Some "OpenAI endpoint URL") None [("inference_provider", [VStr "openai"])] false;
  mk_policy "inference_openai_api_key" CATEGORY_INFERENCE true true false (Some "OpenAI API key") None [("inference_provider", [VStr "openai"])] false;
  mk_policy "inference_openai_key_ref" CATEGORY_INFERENCE true false false (Some "OpenAI key — secret reference (advanced)") None [("inference_provider", [VStr "openai"])] true;
  mk_policy "inference_anthropic_url" CATEGORY_INFERENCE true false false (Some "Anthropic endpoint URL") None [("inference_provider", [VStr "anthropic"])] false;
  mk_policy "inference_anthropic_api_key" CATEGORY_INFERENCE true true false (Some "Anthropic API key") None [("inference_provider", [VStr "anthropic"])] false;
  mk_policy "inference_anthropic_key_ref" CATEGORY_INFERENCE true false false (Some "Anthropic key — secret reference (advanced)") None [("inference_provider", [VStr "anthropic"])] true;
  mk_policy "inference_anthropic_version" CATEGORY_INFERENCE true false false (Some "Anthropic API version") None [("inference_provider", [VStr "anthropic"])] false].

Definition organize_policies : list SettingPolicy := [
  mk_policy "organize_enabled" CATEGORY_ORGANIZE true false false None None [] false;
  mk_policy "organize_model" CATEGORY_ORGANIZE true false false (Some "Organize model (override)") None [] true].

Definition concierge_policies : list SettingPolicy := [
  mk_policy "concierge_enabled" CATEGORY_CONCIERGE true false false None None [] false;
  mk_policy "concierge_model" CATEGORY_CONCIERGE true false false (Some "Concierge model (override)") None [] true;
  mk_policy "concierge_context_max_rows" CATEGORY_CONCIERGE true false false None None [] false;
  mk_policy "concierge_embeddings_enabled" CATEGORY_CONCIERGE true false true None None [] false;
  mk_policy "concierge_embedding_provider" CATEGORY_CONCIERGE true false true (Some "Embedding provider") None [("concierge_embeddings_enabled", [VBool true])] false;
  mk_policy "concierge_embedding_model" CATEGORY_CONCIERGE true false true None None [("concierge_embeddings_enabled", [VBool true])] false;
  mk_policy "concierge_embedding_url" CATEGORY_CONCIERGE true false true (Some "Embedding endpoint URL") None [("concierge_embeddings_enabled", [VBool true])] false;
  mk_policy "concierge_embedding_api_key" CATEGORY_CONCIERGE true true true (Some "Embedding API key") None [("concierge_embeddings_enabled", [VBool true]); ("concierge_embedding_provider", [VStr "voyage"; VStr "openai"])] false;
  mk_policy "concierge_embedding_key_ref" CATEGORY_CONCIERGE true false true (Some "Embedding key — secret reference (advanced)") None [("concierge_embeddings_enabled", [VBool true]); ("concierge_embedding_provider", [VStr "voyage"; VStr "openai"])] true].

Definition remediation_policies : list SettingPolicy := [
  mk_policy "remediation_enabled" CATEGORY_REMEDIATION true false true None None [] false;
  mk_policy "remediation_blast_cap" CATEGORY_REMEDIATION true false false None None [] false].

Definition preview_policies : list SettingPolicy := [
  mk_policy "preview_enabled" CATEGORY_PREVIEW true false true None None [] false;
  mk_policy "preview_timeout_seconds" CATEGORY_PREVIEW true false false None None [] false;
  mk_policy "preview_max_pages" CATEGORY_PREVIEW true false false None None [] false;
  mk_policy "preview_max_input_bytes" CATEGORY_PREVIEW true false false None None [] false].

Definition scan_policies : list SettingPolicy := [
  mk_policy "scan_coordinator_enabled" CATEGORY_SCAN true false false None None [] false;
  mk_policy "scan_coordinator_max_concurrent_heavy" CATEGORY_SCAN true false false None None [] false;
  mk_policy "scan_coordinator_heavy_entries" CATEGORY_SCAN true false false None None [] false;
  mk_policy "scan_coordinator_lease_ttl_seconds" CATEGORY_SCAN true false false None None [] false;
  mk_policy "scan_coordinator_retry_after_seconds" CATEGORY_SCAN true false false None None [] false].

Definition notifications_policies : list SettingPolicy := [
  mk_policy "notifications_enabled" CATEGORY_NOTIFICATIONS true false false None None [] false;
  mk_policy "notification_retention_days" CATEGORY_NOTIFICATIONS true false false None None [] false;
  mk_policy "notify_outbound_categories" CATEGORY_NOTIFICATIONS true false false None None [] false;
  mk_policy "notify_min_severity" CATEGORY_NOTIFICATIONS true false false None (Some ["info"; "warning"; "critical"]) [] false;
  mk_policy "notify_send_timeout_seconds" CATEGORY_NOTIFICATIONS true false false None None [] false;
  mk_policy "notify_email_enabled" CATEGORY_NOTIFICATIONS true false false (Some "Email channel") None [] false;
  mk_policy "notify_email_smtp_host" CATEGORY_NOTIFICATIONS true false false (Some "SMTP host") None [("notify_email_enabled", [VBool true])] false;
  mk_policy "notify_email_smtp_port" CATEGORY_NOTIFICATIONS true false false (Some "SMTP port") None [("notify_email_enabled", [VBool true])] false;
  mk_policy "notify_email_use_tls" CATEGORY_NOTIFICATIONS true false false (Some "SMTP STARTTLS") None [("notify_email_enabled", [VBool true])] false;
  mk_policy "notify_email_username" CATEGORY_NOTIFICATIONS true false false (Some "SMTP username") None [("notify_email_enabled", [VBool true])] false;
  mk_policy "notify_email_password_ref" CATEGORY_NOTIFICATIONS true false false (Some "SMTP password (secret reference)") None [("notify_email_enabled", [VBool true])] false;
  mk_policy "notify_email_from" CATEGORY_NOTIFICATIONS true false false (Some "Email from address") None [("notify_email_enabled", [VBool true])] false;
  mk_policy "notify_email_to" CATEGORY_NOTIFICATIONS true false false (Some "Email recipients") None [("notify_email_enabled", [VBool true])] false;
  mk_policy "notify_chat_enabled" CATEGORY_NOTIFICATIONS true false false (Some "Chat channel") None [] false;
  mk_policy "notify_chat_kind" CATEGORY_NOTIFICATIONS true false false (Some "Chat kind") (Some ["discord"; "slack"; "telegram"]) [("notify_chat_enabled", [VBool true])] false;
  mk_policy "notify_chat_webhook_ref" CATEGORY_NOTIFICATIONS true false false (Some "Chat webhook / token (secret reference)") None [("notify_chat_enabled", [VBool true])] false;
  mk_policy "notify_chat_telegram_chat_id" CATEGORY_NOTIFICATIONS true false false (Some "Telegram chat id") None [("notify_chat_enabled", [VBool true]); ("notify_chat_kind", [VStr "telegram"])] false;
  mk_policy "watch_enabled" CATEGORY_NOTIFICATIONS true false false None None [] false;
  mk_policy "watch_interval_seconds" CATEGORY_NOTIFICATIONS true false false None None [] false;
  mk_policy "watch_capacity_warn_percent" CATEGORY_NOTIFICATIONS true false false None None [] false;
  mk_policy "watch_capacity_critical_percent" CATEGORY_NOTIFICATIONS true false false None None [] false;
  mk_policy "watch_days_to_full_warn" CATEGORY_NOTIFICATIONS true false false None None [] false].

Definition retention_policies : list SettingPolicy := [
  mk_policy "change_log_retention_enabled" CATEGORY_RETENTION true false true None None [] false;
  mk_policy "change_log_retention_days" CATEGORY_RETENTION true false false None None [] false].

Definition _POLICY_LIST : list SettingPolicy :=
  general_policies ++ auth_policies ++ ingest_policies ++ inference_policies ++ organize_policies ++ concierge_policies ++ remediation_policies ++ preview_policies ++ scan_policies ++ notifications_policies ++ retention_policies.

Definition policy_of (key : string) : option SettingPolicy := head (filter (λ p, p_key p = key) _POLICY_LIST).

(** ** Labels, choices and relevance *)

Definition _ACRONYMS : list string :=
  ["ai"; "api"; "cpu"; "csv"; "db"; "gpu"; "id"; "ip"; "json"; "llm"; "mfa"; "ram"; "smtp"; "ssh"; "tls"; "ttl";
   "ui"; "url"; "uid"; "gid"].

Definition upper_char (c : ascii) : ascii :=
  if (97 <=? code c)%Z && (code c <=? 122)%Z then ascii_of_N (Z.to_N (code c - 32)) else c.
Fixpoint upper (s : string) : string := match s with "" => "" | String c s => String (upper_char c) (upper s) end.
Definition capitalize (s : string) : string := match s with "" => "" | String c s => String (upper_char c) (lower s) end.

(** Over ASCII words, as the keys are. *)
Definition humanize (key : string) : string :=
  join " " ((λ w, if bool_decide (w ∈ _ACRONYMS) then upper w else capitalize w) <$> split_char "_" key).

Definition _CHAT_MODELS : list (string * list string) :=
  [("anthropic", ["claude-haiku-4-5"; "claude-sonnet-4-6"; "claude-opus-4-8"; "claude-fable-5"]);
   ("openai", ["gpt-4o-mini"; "gpt-4o"; "gpt-4.1-mini"; "gpt-4.1"])].
Definition _OLLAMA_CHAT_SUGGESTIONS : list string := ["llama3.2:3b"; "llama3.1:8b"].

Definition _default_model_for (provider : string) : option string :=
  let p := lower provider in
  match dict_get p _CHAT_MODELS with
  | Some models => head models
  | None => if bool_decide (p = "ollama") then head _OLLAMA_CHAT_SUGGESTIONS else None
  end.

Definition _EMBED_PROVIDERS : list (string * list string) :=
  [("anthropic", ["voyage"; "ollama"]); ("openai", ["openai"; "ollama"]); ("ollama", ["ollama"])].
Definition _EMBED_MODELS : list (string * list string) :=
  [("ollama", ["nomic-embed-text"; "mxbai-embed-large"]); ("voyage", ["voyage-3.5"; "voyage-3.5-lite"; "voyage-3-large"]);
   ("openai", ["text-embedding-3-small"; "text-embedding-3-large"])].

(** A setting that the model types as text. *)
Definition text_of (s : settings) (key : string) : string := match get s key with VStr t => t | _ => "" end.

(** The closed options and the suggestions. *)
Definition _choices (p : SettingPolicy) (effective : settings) : option (list string) * option (list string) :=
  let provider := text_of effective "inference_provider" in
  if bool_decide (p_key p = "inference_model") then
    match dict_get provider _CHAT_MODELS with
    | Some models => (Some models, None)
    | None => (None, Some _OLLAMA_CHAT_SUGGESTIONS)
    end
  else if bool_decide (p_key p ∈ ["organize_model"; "concierge_model"]) then
    (None, Some (default _OLLAMA_CHAT_SUGGESTIONS (dict_get provider _CHAT_MODELS)))
  else if bool_decide (p_key p = "concierge_embedding_provider") then
    (Some (default ["ollama"] (dict_get provider _EMBED_PROVIDERS)), None)
  else if bool_decide (p_key p = "concierge_embedding_model") then
    (None, Some (default [] (dict_get (text_of effective "concierge_embedding_provider") _EMBED_MODELS)))
  else (p_options p, None).

Definition shown (v : value) : string :=
  match v with VBool true => "True" | VBool false => "False" | VStr s => s | _ => "" end.

Definition _relevance (p : SettingPolicy) (effective : settings) : bool * option string :=
  match p_relevant_when p with
  | [] => (true, None)
  | deps =>
      (forallb (λ x, bool_decide (get effective x.1 ∈ x.2)) deps,
       Some ("Applies when " +:+
             join " and " ((λ x, humanize x.1 +:+ " is " +:+ join " or " (shown <$> x.2)) <$> deps) +:+ "."))
  end.

Definition _field_type_name (key : string) : string :=
  match field_of key with
  | None => "unknown"
  | Some f => match f_type f with
              | TBool => "bool" | TInt => "int" | TFloat => "float" | TTuple => "list" | TStr | TOptStr => "str"
              end
  end.

Definition _looks_like_raw_secret (v : string) : bool :=
  let v := strip v in
  if startswith "sk-" v || startswith "sk_" v then true
  else (64 <=? String.length v) && negb (has_char " " v).

(** ** The tables and the store *)

Inductive stored := Plain (v : value) | Cipher (text : string).

Record SettingsOverride := mk_override { o_key : string; o_value : stored; o_is_secret : bool; o_updated_by : option string }.

Record database := mk_db { overrides_table : list SettingsOverride; settings_version : option Z }.

Record _Override := mk_loaded { l_value : value; l_is_secret : bool }.

(** [_cache]: the identity of the base, the version and the settings computed for them. *)
Record RuntimeSettingsStore := mk_store {
  _overrides : list (string * _Override); _version : Z; _cache : option (Z * Z * settings);
}.

Inductive SettingsStoreError := NotEditable | RawSecret (label : string) | InvalidValue | BadReference | IsSetting | NotASecret.

(** A new store, before the first refresh. *)
Definition fresh_store : RuntimeSettingsStore := mk_store [] (-1) None.

Section Store.
Context (coerce : ftype → value → option value).
Context (encrypt : string → string → string) (decrypt : string → option string) (json_dumps : value → string).

(** A base is known by its identity; [bases] is what each is. *)
Context (bases : Z → settings).

Definition field_overrides (st : RuntimeSettingsStore) : settings :=
  omap (λ '(k, o), if is_field k then Some (k, l_value o) else None) (_overrides st).

Definition overlay (base : Z) (st : RuntimeSettingsStore) : settings :=
  match field_overrides st with
  | [] => bases base
  | os => default (bases base) (model_validate coerce (dict_update (bases base) os))
  end.

Definition effective (base : Z) (st : RuntimeSettingsStore) : settings * RuntimeSettingsStore :=
  let compute :=
    let s := overlay base st in
    (s, mk_store (_overrides st) (_version st) (Some (base, _version st, s))) in
  match _cache st with
  | Some (b, v, s) => if (b =? base)%Z && (v =? _version st)%Z then (s, st) else compute
  | None => compute
  end.

Definition resolve_secret (ref : string) (st : RuntimeSettingsStore) : option string :=
  match dict_get ref (_overrides st) with
  | Some (mk_loaded (VStr s) true) => Some s
  | _ => None
  end.

(** One row, [None] when it cannot be decoded. *)
Definition decode (r : SettingsOverride) : option (string * _Override) :=
  match o_is_secret r, o_value r with
  | true, Cipher c => plain ← decrypt c; Some (o_key r, mk_loaded (VStr plain) true)
  | false, Plain v => Some (o_key r, mk_loaded v false)
  | _, _ => None
  end.

(** [None]: the tables cannot be read. *)
Definition refresh (d : option database) (st : RuntimeSettingsStore) : RuntimeSettingsStore :=
  match d with
  | None => mk_store [] 0 None
  | Some d =>
      mk_store (foldl (λ m r, match decode r with Some (k, o) => dict_set k o m | None => m end) [] (overrides_table d))
        (default 0%Z (settings_version d)) None
  end.

Definition _upsert (key : string) (v : stored) (is_secret : bool) (by_ : option string) (d : database) : database :=
  mk_db (upsert o_key (λ _, true) (λ old, mk_override (o_key old) v is_secret by_) (mk_override key v is_secret by_)
           (overrides_table d)).2 (settings_version d).

Definition _bump_version (d : database) : database :=
  mk_db (overrides_table d) (match settings_version d with None => Some 1%Z | Some v => Some (v + 1)%Z end).

Definition _validate_field (base : Z) (key : string) (v : value) : bool :=
  match model_validate coerce (dict_set key v (bases base)) with Some _ => true | None => false end.

Definition session : Type := database * RuntimeSettingsStore.

Definition raw_reference (p : SettingPolicy) (key : string) (v : value) : option string :=
  match v with
  | VStr s => if endswith "_key_ref" key && _looks_like_raw_secret s
              then Some (default (humanize key) (p_label p)) else None
  | _ => None
  end.

(** The reset of the shared model when the provider is switched. *)
Definition switch_model (key : string) (v : value) (old_provider : string) (by_ : option string) (d : database) : database :=
  match v with
  | VStr provider =>
      if bool_decide (key = "inference_provider") && negb (bool_decide (lower provider = lower old_provider)) then
        match _default_model_for provider with
        | Some model => _upsert "inference_model" (Plain (VStr model)) false by_ d
        | None => d
        end
      else d
  | _ => d
  end.

Definition set_override (iv : string) (base : Z) (key : string) (v : value) (updated_by : option string)
    (x : session) : result SettingsStoreError () * session :=
  match policy_of key with
  | None => (Err NotEditable, x)
  | Some p =>
      if negb (p_editable p) then (Err NotEditable, x) else
      match raw_reference p key v with
      | Some label => (Err (RawSecret label), x)
      | None =>
          if is_field key && negb (_validate_field base key v) then (Err InvalidValue, x) else
          let '(d, st) := x in
          let '(old_provider, st) :=
            if bool_decide (key = "inference_provider")
            then let '(s, st) := effective base st in (text_of s "inference_provider", st) else ("", st) in
          let stored_value :=
            if p_is_secret p then Cipher (encrypt iv (match v with VStr s => s | _ => json_dumps v end)) else Plain v in
          let d := _upsert key stored_value (p_is_secret p) updated_by d in
          let d := switch_model key v old_provider updated_by d in
          let d := _bump_version d in
          (Ok (), (d, refresh (Some d) st))
      end
  end.

Definition set_secret (iv ref v : string) (updated_by : option string) (x : session)
    : result SettingsStoreError () * session :=
  if bool_decide (ref = "") || (128 <? String.length ref) then (Err BadReference, x) else
  if is_field ref then (Err IsSetting, x) else
  let '(d, st) := x in
  let d := _bump_version (_upsert ref (Cipher (encrypt iv v)) true updated_by d) in
  (Ok (), (d, refresh (Some d) st)).

Definition clear_override (key : string) (x : session) : bool * session :=
  let '(d, st) := x in
  let hit := existsb (λ r, bool_decide (o_key r = key)) (overrides_table d) in
  let d := _bump_version (mk_db (filter (λ r, o_key r ≠ key) (overrides_table d)) (settings_version d)) in
  (hit, (d, refresh (Some d) st)).

Definition reveal (key : string) (st : RuntimeSettingsStore) : result SettingsStoreError string :=
  match dict_get key (_overrides st) with
  | Some (mk_loaded (VStr s) true) => Ok s
  | _ => Err NotASecret
  end.

(** ** The read surface *)

Record SettingView := mk_view {
  v_key : string; v_category : string; v_type : string; v_editable : bool; v_is_secret : bool;
  v_restart_required : bool; v_overridden : bool; v_value : value; v_is_set : bool; v_label : string;
  v_options : option (list string); v_suggestions : option (list string); v_relevant : bool;
  v_relevant_hint : option string; v_advanced : bool;
}.

(** [bool(v)]. *)
Definition truthy (v : value) : bool :=
  match v with
  | VNull => false | VBool b => b | VInt z => negb (z =? 0)%Z | VFloat q => negb (Qeq_bool q 0)
  | VStr s => negb (bool_decide (s = "")) | VList l => negb (bool_decide (l = []))
  end.

Definition view_of (st : RuntimeSettingsStore) (eff : settings) (p : SettingPolicy) : SettingView :=
  let overridden := bool_decide (dict_get (p_key p) (_overrides st) ≠ None) in
  let '(relevant, hint) := _relevance p eff in
  let '(options, suggestions) := _choices p eff in
  mk_view (p_key p) (p_category p) (_field_type_name (p_key p)) (p_editable p) (p_is_secret p) (p_restart_required p)
    overridden (if p_is_secret p then VNull else get eff (p_key p))
    (if p_is_secret p then overridden || truthy (get eff (p_key p)) else true)
    (default (humanize (p_key p)) (p_label p)) options suggestions relevant hint (p_advanced p).

Definition list_settings (base : Z) (st : RuntimeSettingsStore) : list SettingView * RuntimeSettingsStore :=
  let '(eff, st) := effective base st in (view_of st eff <$> _POLICY_LIST, st).

Definition list_named_secrets (st : RuntimeSettingsStore) : list string :=
  stable_sort (λ a b, Is_true (str_le a b)) (omap (λ '(k, o), if l_is_secret o && negb (is_field k) then Some k else None) (_overrides st)).

(** [build_secret_provider]; the fallback may raise. *)
Definition build_secret_provider {E} (store : option RuntimeSettingsStore) (fallback : string → result E string)
    (ref : string) : result E string :=
  match store with
  | None => fallback ref
  | Some st => match resolve_secret ref st with Some v => Ok v | None => fallback ref end
  end.
End Store.

(** ** The tables fit together *)

Definition policy_ok (p : SettingPolicy) : bool :=
  match field_of (p_key p) with
  | None => false
  | Some f =>
      (negb (p_is_secret p) || bool_decide (f_type f = TOptStr ∧ f_bounds f = [])) &&
      forallb (λ x, match field_of x.1 with Some g => forallb (has_type (f_type g)) x.2 | None => false end) (p_relevant_when p) &&
      match p_options p with
      | Some os => bool_decide (f_type f = TStr) && existsb (λ o, bool_decide (f_default f = VStr o)) os
      | None => true
      end
  end.

Definition field_ok (f : field) : bool := has_type (f_type f) (f_default f) && forallb (holds (f_default f)) (f_bounds f).

Lemma field_names : NoDup (f_name <$> model_fields).
Proof. refine (bool_decide_unpack _ _); vm_compute; exact I. Qed.

Lemma policy_fields : forallb policy_ok _POLICY_LIST = true.
Proof. by vm_compute. Qed.

(** The policies describe the model: each names one field; a secret is an optional text; what a setting is
    relevant for are values of the type of another setting; the default is among the options; and every
    default has the type of its field and respects its bounds. *)
Theorem policies_well_typed :
  NoDup (p_key <$> _POLICY_LIST) ∧ Forall (λ p, policy_ok p = true) _POLICY_LIST ∧
  NoDup (f_name <$> model_fields) ∧ Forall (λ f, field_ok f = true) model_fields.
Proof.
  split_and!; [refine (bool_decide_unpack _ _); vm_compute; exact I|apply Forall_forall|apply field_names|by_compute].
  intros p Hp%list_elem_of_In. revert p Hp. apply forallb_forall, policy_fields.
Qed.

(** ** Overlaying and loading *)

Lemma field_of_name f : f ∈ model_fields → field_of (f_name f) = Some f.
Proof.
  intros Hf. unfold field_of. pose proof field_names as Hn. revert Hf Hn.
  generalize model_fields. intros l. induction l as [|g l IH]; [by intros ?%elem_of_nil|].
  intros Hf%elem_of_cons [Hg Hn]%NoDup_cons. rewrite filter_cons. case_decide as E; [|destruct Hf as [->|Hf]; [done|by apply IH]].
  destruct Hf as [->|Hf]; [done|]. destruct Hg. rewrite E. by apply list_elem_of_fmap_2.
Qed.

Lemma field_of_some k f : field_of k = Some f → f ∈ model_fields ∧ f_name f = k.
Proof. unfold field_of. intros H%head_Some_elem_of. by apply list_elem_of_filter in H as [? ?]. Qed.

Lemma is_field_name f : f ∈ model_fields → is_field (f_name f) = true.
Proof. intros H. unfold is_field. by rewrite field_of_name, bool_decide_true. Qed.

Lemma dict_get_names (g : field → option value) (l : list field) (r : settings) f :
  NoDup (f_name <$> l) → f ∈ l →
  mapM (λ f, v ← g f; Some (f_name f, v)) l = Some r → dict_get (f_name f) r = g f ∧ ∃ v, g f = Some v.
Proof.
  revert r. induction l as [|h l IH]; intros r; [by intros _ ?%elem_of_nil|].
  intros [Hh Hn]%NoDup_cons Hf%elem_of_cons. cbn [mapM]. destruct (g h) as [v|] eqn:Eg; [|done]. cbn [mbind option_bind].
  destruct (mapM _ l) as [r'|]; [|done]. intros [= <-]. cbn [dict_get]. destruct Hf as [->|Hf].
  - rewrite decide_True by done. split; [done|by exists v].
  - rewrite decide_False; [by apply IH|]. intros E. apply Hh. rewrite E. by apply list_elem_of_fmap_2.
Qed.

Lemma mapM_names (g : field → option value) (l : list field) :
  (∀ f, f ∈ l → ∃ v, g f = Some v) → ∃ r, mapM (λ f, v ← g f; Some (f_name f, v)) l = Some r.
Proof.
  induction l as [|h l IH]; intros H; [by exists []|]. cbn [mapM].
  destruct (H h ltac:(left)) as [v ->]. destruct IH as [r ->]; [intros f Hf; apply H; by right|]. by eexists.
Qed.

Lemma mapM_names_inv (g : field → option value) (l : list field) r :
  mapM (λ f, v ← g f; Some (f_name f, v)) l = Some r → ∀ f, f ∈ l → ∃ v, g f = Some v.
Proof.
  revert r. induction l as [|h l IH]; intros r; [by intros _ f ?%elem_of_nil|]. cbn [mapM].
  destruct (g h) as [v|] eqn:Eg; [|done]. cbn [mbind option_bind]. destruct (mapM _ l) as [r'|]; [|done].
  intros _ f [->|Hf]%elem_of_cons; [by exists v|by eapply IH].
Qed.

Lemma dict_get_update k (os d : settings) :
  NoDup os.*1 → dict_get k (dict_update d os) = match dict_get k os with Some v => Some v | None => dict_get k d end.
Proof.
  revert d. unfold dict_update. induction os as [|[k0 v] os IH]; intros d; [done|]. cbn [foldl fmap list_fmap fst snd dict_get].
  intros [Hk Hn]%NoDup_cons. rewrite IH by done. rewrite dict_get_set. case_decide as E; [|done]. subst.
  by rewrite (proj2 (dict_get_none _ _) Hk).
Qed.

Lemma dict_get_overrides k st :
  is_field k = true → dict_get k (field_overrides st) = l_value <$> dict_get k (_overrides st).
Proof.
  intros Hk. unfold field_overrides. induction (_overrides st) as [|[k0 o] l IH]; [done|].
  cbn [omap list_omap dict_get]. destruct (decide (k0 = k)) as [->|Hn].
  - rewrite Hk. cbn [dict_get]. by rewrite decide_True.
  - destruct (is_field k0); [|exact IH]. cbn [dict_get]. by rewrite decide_False.
Qed.

Lemma field_overrides_NoDup st : NoDup (_overrides st).*1 → NoDup (field_overrides st).*1.
Proof.
  unfold field_overrides. induction (_overrides st) as [|[k o] l IH]; [done|].
  cbn [fmap list_fmap fst omap list_omap]. intros [Hk Hn]%NoDup_cons. destruct (is_field k); [|by apply IH].
  cbn [fmap list_fmap fst]. apply NoDup_cons. split; [|by apply IH].
  intros ([k' v] & -> & Hin)%list_elem_of_fmap. apply list_elem_of_omap in Hin as ([k1 o1] & Hin & E).
  destruct (is_field k1); [|done]. injection E as -> _. destruct Hk. by apply (list_elem_of_fmap_2 fst l (k', o1)).
Qed.

#[local] Opaque model_fields.

(** ** The laws of the store *)

Section Laws.
Context (coerce : ftype → value → option value).
Context (encrypt : string → string → string) (decrypt : string → option string) (json_dumps : value → string).
Context (bases : Z → settings).
Context (base_valid : ∀ b, model_validate coerce (bases b) = Some (bases b)).
Context (coerce_text : ∀ t s, t = TStr ∨ t = TOptStr → coerce t (VStr s) = Some (VStr s)).

Lemma validate_holds f raw w : validate_field coerce f raw = Some w → forallb (holds w) (f_bounds f) = true.
Proof. unfold validate_field. destruct (coerce _ _) as [v|]; [|done]. cbn. destruct (forallb _ _) eqn:E; [|done]. by intros [= <-]. Qed.

Lemma base_get b f :
  f ∈ model_fields → ∃ u, dict_get (f_name f) (bases b) = Some u ∧ validate_field coerce f u = Some u.
Proof.
  intros Hf. 
  destruct (dict_get_names (λ f, validate_field coerce f (default (f_default f) (dict_get (f_name f) (bases b)))) model_fields
    (bases b) f field_names Hf (base_valid b)) as [Hg [u Hu]]. rewrite Hu in Hg. exists u. split; [done|]. by rewrite Hg in Hu.
Qed.

Definition valid_entry (k : string) (o : _Override) : Prop :=
  ∀ f, field_of k = Some f → ∃ w, validate_field coerce f (l_value o) = Some w.

Definition valid_row (r : SettingsOverride) : Prop := ∀ k o, decode decrypt r = Some (k, o) → valid_entry k o.

(** The overlay never falls back to the base as a whole: it is the base with each override, validated. *)
Lemma overlay_get b st f :
  NoDup (_overrides st).*1 → (∀ k o, (k, o) ∈ _overrides st → valid_entry k o) → f ∈ model_fields →
  ∃ w, dict_get (f_name f) (overlay coerce bases b st) = Some w ∧ forallb (holds w) (f_bounds f) = true ∧
    match dict_get (f_name f) (_overrides st) with
    | Some o => validate_field coerce f (l_value o) = Some w
    | None => dict_get (f_name f) (bases b) = Some w
    end.
Proof.
  intros Hn Hv Hf. set (g f := validate_field coerce f (default (f_default f) (dict_get (f_name f) (dict_update (bases b) (field_overrides st))))).
  assert (Hg : ∀ f, f ∈ model_fields → ∃ w, g f = Some w ∧
    match dict_get (f_name f) (_overrides st) with
    | Some o => validate_field coerce f (l_value o) = Some w
    | None => dict_get (f_name f) (bases b) = Some w
    end).
  { clear f Hf. intros f Hf. unfold g. rewrite dict_get_update by by apply field_overrides_NoDup.
    rewrite dict_get_overrides by by apply is_field_name.
    destruct (dict_get (f_name f) (_overrides st)) as [o|] eqn:E; cbn [fmap option_fmap option_map default].
    - destruct (Hv (f_name f) o) with (f := f) as [w Hw]; [by apply dict_get_elem|by apply field_of_name|]. by exists w.
    - destruct (base_get b f Hf) as (u & -> & Hu). cbn. by exists u. }
  destruct (Hg f Hf) as (w & Hw & Hm). exists w. split; [|split; [by eapply validate_holds|done]].
  unfold overlay. destruct (field_overrides st) as [|x os] eqn:E.
  - assert (dict_get (f_name f) (_overrides st) = None) as Ho.
    { pose proof (dict_get_overrides (f_name f) st (is_field_name f Hf)) as H. rewrite E in H. by destruct (dict_get _ (_overrides st)). }
    by rewrite Ho in Hm.
  - rewrite <- E. destruct (mapM_names g model_fields) as [r Hr]; [intros h Hh; destruct (Hg h Hh) as (v & ? & _); by exists v|].
    unfold model_validate. rewrite E. unfold g in Hr. rewrite Hr. change (dict_get (f_name f) r = Some w).
    destruct (dict_get_names g model_fields r f field_names Hf) as [-> _]; [by unfold g|done].
Qed.


(** ** Histories of a process *)

Inductive op :=
  | OSet (iv : string) (base : Z) (key : string) (v : value) (by_ : option string)
  | OSecret (iv ref v : string) (by_ : option string)
  | OClear (key : string)
  | OEffective (base : Z)
  | ORefresh (readable : bool).

Definition run (x : session) (o : op) : session :=
  match o with
  | OSet iv base key v by_ => (set_override coerce encrypt decrypt json_dumps bases iv base key v by_ x).2
  | OSecret iv ref v by_ => (set_secret encrypt decrypt iv ref v by_ x).2
  | OClear key => (clear_override decrypt key x).2
  | OEffective base => (x.1, (effective coerce bases base x.2).2)
  | ORefresh readable => (x.1, refresh decrypt (if readable then Some x.1 else None) x.2)
  end.

(** A new process on empty tables. *)
Definition start : session := (mk_db [] None, fresh_store).

Record db_ok (d : database) : Prop := mk_db_ok {
  db_unique : unique o_key (overrides_table d);
  db_valid : ∀ r, r ∈ overrides_table d → valid_row r;
}.

Record st_ok (st : RuntimeSettingsStore) : Prop := mk_st_ok {
  st_unique : NoDup (_overrides st).*1;
  st_valid : ∀ k o, (k, o) ∈ _overrides st → valid_entry k o;
  st_cache : ∀ b v s, _cache st = Some (b, v, s) → v = _version st → s = overlay coerce bases b st;
}.

Lemma effective_ok b st : st_ok st →
  (effective coerce bases b st).1 = overlay coerce bases b st ∧ st_ok (effective coerce bases b st).2 ∧
  _overrides (effective coerce bases b st).2 = _overrides st.
Proof.
  intros Hok. pose proof Hok as [Hu Hv Hc]. unfold effective. destruct (_cache st) as [[[b0 v0] s0]|] eqn:E;
    [destruct ((b0 =? b)%Z && (v0 =? _version st)%Z) eqn:Eb|].
  - to_prop. subst. cbn [fst snd]. split; [by eapply Hc|]. done.
  - split; [done|]. split; [|done]. constructor; [done|done|]. cbn. intros b1 v1 s1 [= <- <- <-] _. done.
  - split; [done|]. split; [|done]. constructor; [done|done|]. cbn. intros b1 v1 s1 [= <- <- <-] _. done.
Qed.

Lemma decode_key r k o : decode decrypt r = Some (k, o) → k = o_key r.
Proof.
  unfold decode. destruct (o_is_secret r), (o_value r); try done; [destruct (decrypt text); [|done]|]; cbn; by intros [= <- _].
Qed.

Lemma load_get k rows m :
  unique o_key rows →
  dict_get k (foldl (λ m r, match decode decrypt r with Some (k, o) => dict_set k o m | None => m end) m rows) =
  match r ← at_key o_key k rows; decode decrypt r with Some (_, o) => Some o | None => dict_get k m end.
Proof.
  unfold unique. revert m. induction rows as [|r rows IH]; intros m; [done|]. cbn [fmap list_fmap foldl].
  intros [Hr Hu]%NoDup_cons. rewrite IH by done. rewrite at_key_cons. case_bool_decide as E.
  - assert (at_key o_key k rows = None) as ->; [by apply at_key_none; rewrite <- E|]. cbn.
    destruct (decode decrypt r) as [[k' o]|] eqn:Ed; [|done].
    rewrite dict_get_set, decide_True; [done|]. rewrite <- E. by rewrite (decode_key _ _ _ Ed).
  - destruct (r0 ← at_key o_key k rows; decode decrypt r0) as [[k' o]|]; [done|].
    destruct (decode decrypt r) as [[k' o]|] eqn:Ed; [|done]. rewrite dict_get_set, decide_False; [done|]. intros ->. apply E.
    by rewrite (decode_key _ _ _ Ed).
Qed.

(** The override of a key, from its row. *)
Definition override_in (k : string) (d : database) : option _Override :=
  r ← at_key o_key k (overrides_table d); x ← decode decrypt r; Some x.2.

Lemma refresh_get k d st :
  unique o_key (overrides_table d) → dict_get k (_overrides (refresh decrypt (Some d) st)) = override_in k d.
Proof.
  intros Hu. unfold refresh, override_in. cbn [_overrides]. rewrite load_get by done.
  destruct (at_key _ _ _) as [r|]; [|done]. cbn. by destruct (decode decrypt r) as [[??]|].
Qed.

Lemma refresh_NoDup d st : NoDup (_overrides (refresh decrypt d st)).*1.
Proof.
  destruct d as [d|]; cbn [refresh _overrides]; [|constructor].
  assert (∀ m, NoDup m.*1 → NoDup (foldl (λ m r, match decode decrypt r with Some (k, o) => dict_set k o m | None => m end)
    m (overrides_table d)).*1) as H; [|apply H; constructor].
  induction (overrides_table d) as [|r l IH]; intros m Hm; [done|]. cbn [foldl]. apply IH.
  destruct (decode decrypt r) as [[k o]|]; [by apply dict_set_NoDup|done].
Qed.

Lemma refresh_ok d st : db_ok d → st_ok (refresh decrypt (Some d) st).
Proof.
  intros [Hu Hv]. constructor.
  - apply refresh_NoDup.
  - intros k o Ho. apply dict_get_elem in Ho; [|apply refresh_NoDup]. rewrite refresh_get in Ho by done.
    unfold override_in in Ho. destruct (at_key _ _ _) as [r|] eqn:E; [|done]. apply at_key_some in E as [Hr Hk].
    cbn in Ho. destruct (decode decrypt r) as [[k' o']|] eqn:Ed; [|done]. injection Ho as <-.
    pose proof (decode_key _ _ _ Ed). subst. by eapply Hv.
  - done.
Qed.

Lemma at_key_upsert_row k key v sec by_ d :
  at_key o_key k (overrides_table (_upsert key v sec by_ d)) =
  if bool_decide (k = key) then Some (mk_override key v sec by_) else at_key o_key k (overrides_table d).
Proof.
  unfold _upsert. cbn [overrides_table]. rewrite at_key_upsert by done. cbn. case_bool_decide as Ek; [|done]. f_equal. subst.
  destruct (at_key o_key key (overrides_table d)) as [r|] eqn:E; [|done]. apply at_key_some in E as [_ ->]. done.
Qed.

Lemma upsert_ok key v sec by_ d :
  db_ok d → valid_row (mk_override key v sec by_) → db_ok (_upsert key v sec by_ d).
Proof.
  intros [Hu Hv] Hr. assert (unique o_key (overrides_table (_upsert key v sec by_ d))) as Hu' by by apply upsert_unique.
  constructor; [done|]. intros r Hin. apply (at_key_elem o_key _ _ Hu') in Hin. rewrite at_key_upsert_row in Hin.
  case_bool_decide; [by injection Hin as <-|]. by apply at_key_some in Hin as [? _]; apply Hv.
Qed.

Lemma bump_ok d : db_ok d → db_ok (_bump_version d).
Proof. intros []. by constructor. Qed.

Lemma clear_ok key d : db_ok d → db_ok (mk_db (filter (λ r, o_key r ≠ key) (overrides_table d)) (settings_version d)).
Proof.
  intros [Hu Hv]. constructor; cbn.
  - eapply sublist_NoDup; [exact Hu|]. apply fmap_sublist, sublist_filter.
  - intros r [_ Hr]%list_elem_of_filter. by apply Hv.
Qed.

Lemma valid_plain key v by_ :
  (∀ f, field_of key = Some f → ∃ w, validate_field coerce f v = Some w) → valid_row (mk_override key (Plain v) false by_).
Proof. intros H k o [= <- <-]. exact H. Qed.

Lemma valid_cipher key c by_ :
  (∀ f, field_of key = Some f → f_type f = TOptStr ∧ f_bounds f = []) → valid_row (mk_override key (Cipher c) true by_).
Proof.
  intros H k o. unfold decode. cbn. destruct (decrypt c) as [plain|]; [|done]. intros [= <- <-] f Hf.
  destruct (H f Hf) as [Ht Hb]. exists (VStr plain). unfold validate_field. cbn [l_value]. rewrite Ht, Hb, coerce_text by (by right). done.
Qed.

(** The whole dictionary validates with one value changed when that value does. *)
Lemma validate_one b f v :
  f ∈ model_fields → _validate_field coerce bases b (f_name f) v = true ↔ ∃ w, validate_field coerce f v = Some w.
Proof.
  intros Hf. unfold _validate_field, model_validate.
  set (g h := validate_field coerce h (default (f_default h) (dict_get (f_name h) (dict_set (f_name f) v (bases b))))).
  assert (Hg : g f = validate_field coerce f v) by (unfold g; by rewrite dict_get_set, decide_True). split.
  - destruct (mapM _ model_fields) as [r|] eqn:E; [|done]. intros _. rewrite <- Hg. by apply (mapM_names_inv g model_fields r).
  - intros Hw. destruct (mapM_names g model_fields) as [r Hr]; [|unfold g in Hr; by rewrite Hr]. intros h Hh.
    destruct (decide (f_name f = f_name h)) as [En|Hn].
    + assert (h = f) as ->; [|by rewrite Hg]. apply field_of_name in Hf, Hh. rewrite En in Hf. congruence.
    + unfold g. rewrite dict_get_set, decide_False by done. destruct (base_get b h Hh) as (u & -> & Hu). by exists u.
Qed.

Lemma policy_field key p :
  policy_of key = Some p →
  ∃ f, f ∈ model_fields ∧ f_name f = key ∧ (p_is_secret p = true → f_type f = TOptStr ∧ f_bounds f = []).
Proof.
  unfold policy_of. intros H%head_Some_elem_of. apply list_elem_of_filter in H as [Hk Hp].
  pose proof (proj1 (forallb_forall _ _) policy_fields p (proj1 (list_elem_of_In _ _) Hp)) as Hok.
  unfold policy_ok in Hok. destruct (field_of (p_key p)) as [f|] eqn:E; [|done]. apply field_of_some in E as [Hf Hn].
  exists f. split; [done|]. split; [congruence|]. intros Hs. rewrite Hs in Hok.
  apply andb_prop in Hok as [Hok _]. apply andb_prop in Hok as [Hok _]. by apply bool_decide_eq_true in Hok.
Qed.

Lemma default_model_valid provider model by_ :
  _default_model_for provider = Some model → valid_row (mk_override "inference_model" (Plain (VStr model)) false by_).
Proof.
  intros _. apply valid_plain. intros f Hf. exists (VStr model). unfold validate_field.
  assert (f = mk_field "inference_model" TStr [] (VStr "llama3.2:3b")) as ->.
  { enough (field_of "inference_model" = Some (mk_field "inference_model" TStr [] (VStr "llama3.2:3b"))) by congruence. by vm_compute. }
  cbn [f_type f_bounds]. rewrite coerce_text by (by left). done.
Qed.

Lemma switch_ok key v old by_ d : db_ok d → db_ok (switch_model key v old by_ d).
Proof.
  intros Hd. unfold switch_model. destruct v; try done. destruct (_ && _); [|done].
  destruct (_default_model_for s) as [m|] eqn:E; [|done]. apply upsert_ok; [done|]. by eapply default_model_valid.
Qed.

Lemma switch_at k key v old by_ d : key ≠ "inference_provider" ∨ k ≠ "inference_model" →
  at_key o_key k (overrides_table (switch_model key v old by_ d)) = at_key o_key k (overrides_table d).
Proof.
  intros Hk. unfold switch_model. destruct v as [| | | |s|]; try done. destruct (_ && _) eqn:E; [|done].
  destruct (_default_model_for s) as [m|]; [|done]. rewrite at_key_upsert_row.
  apply andb_prop in E as [E%bool_decide_eq_true _]. rewrite bool_decide_false; [done|]. by destruct Hk.
Qed.

(** What a set that is accepted stores. *)
Definition stored_as (iv : string) (p : SettingPolicy) (v : value) : stored :=
  if p_is_secret p then Cipher (encrypt iv (match v with VStr s => s | _ => json_dumps v end)) else Plain v.

Lemma set_override_cases iv base key v by_ d st :
  st_ok st →
  match set_override coerce encrypt decrypt json_dumps bases iv base key v by_ (d, st) with
  | (Err e, x) => x = (d, st) ∧ e = match policy_of key with
      | Some p => if negb (p_editable p) then NotEditable else
                  match raw_reference p key v with Some label => RawSecret label | None => InvalidValue end
      | None => NotEditable
      end
  | (Ok _, (d', st')) => ∃ p f, policy_of key = Some p ∧ p_editable p = true ∧ raw_reference p key v = None ∧
      f ∈ model_fields ∧ f_name f = key ∧ (∃ w, validate_field coerce f v = Some w) ∧
      d' = _bump_version (switch_model key v
        (if bool_decide (key = "inference_provider") then text_of (overlay coerce bases base st) key else "") by_
        (_upsert key (stored_as iv p v) (p_is_secret p) by_ d)) ∧
      _overrides st' = _overrides (refresh decrypt (Some d') st) ∧ st' = refresh decrypt (Some d') st
  end.
Proof.
  intros Hst. unfold set_override. destruct (policy_of key) as [p|] eqn:Ep; [|done].
  destruct (p_editable p) eqn:Ee; [|done]. cbn [negb]. destruct (raw_reference p key v) eqn:Er; [done|].
  destruct (policy_field key p Ep) as (f & Hf & Hn & _). pose proof (is_field_name f Hf) as Hif. rewrite Hn in Hif. rewrite Hif.
  destruct (_validate_field coerce bases base key v) eqn:Ev; [|done]. cbn [negb andb].
  rewrite <- Hn in Ev. apply validate_one in Ev; [|done].
  assert (∀ d' st', refresh decrypt (Some d') st' = refresh decrypt (Some d') st) as Hr by done.
  case_bool_decide as Ek.
  - destruct (effective coerce bases base st) as [s st1] eqn:Es. pose proof (effective_ok base st Hst) as (H1 & _ & _).
    rewrite Es in H1. cbn [fst] in H1. subst s. clear Hif. exists p, f. rewrite Ek in *. done.
  - exists p, f. done.
Qed.

Definition ok (x : session) : Prop := db_ok x.1 ∧ st_ok x.2.

Lemma stored_valid iv p f key v by_ :
  policy_of key = Some p → f ∈ model_fields → f_name f = key → (∃ w, validate_field coerce f v = Some w) →
  valid_row (mk_override key (stored_as iv p v) (p_is_secret p) by_).
Proof.
  intros Hp Hf Hn Hw. destruct (policy_field key p Hp) as (g & Hg & Hgn & Hs).
  apply field_of_name in Hf. rewrite Hn in Hf. unfold stored_as. destruct (p_is_secret p).
  - apply valid_cipher. intros h Hh. apply field_of_name in Hg. rewrite Hgn, Hh in Hg. injection Hg as ->. by apply Hs.
  - apply valid_plain. intros h Hh. rewrite Hf in Hh. by injection Hh as <-.
Qed.

Lemma refreshed_ok d st : db_ok d → ok (d, refresh decrypt (Some d) st).
Proof. intros Hd. split; [done|by apply refresh_ok]. Qed.

Lemma run_ok x o : ok x → ok (run x o).
Proof.
  destruct x as [d st]. intros [Hd Hst]. cbn [fst snd] in *. destruct o as [iv base key v by_|iv ref v by_|key|base|readable]; cbn [run].
  - pose proof (set_override_cases iv base key v by_ d st Hst) as H. destruct (set_override _ _ _ _ _ _ _ _ _ _ _) as [[u|e] [d' st']].
    + destruct H as (p & f & Hp & _ & _ & Hf & Hn & Hw & Hd' & _ & ->).
      apply refreshed_ok. subst d'. apply bump_ok, switch_ok, upsert_ok; [done|].
      by eapply stored_valid.
    + destruct H as [[= -> ->] _]. done.
  - unfold set_secret. destruct (_ || _); [done|]. destruct (is_field ref) eqn:Er; [done|].
    apply refreshed_ok, bump_ok, upsert_ok; [done|]. apply valid_cipher. intros f Hf. apply field_of_some in Hf as [Hf <-].
    by rewrite is_field_name in Er.
  - by apply refreshed_ok, bump_ok, clear_ok.
  - split; [done|]. by apply effective_ok.
  - split; [done|]. destruct readable; [by apply refresh_ok|]. constructor; [constructor|by intros k o ?%elem_of_nil|done].
Qed.

Lemma start_ok : ok start.
Proof.
  split; constructor; cbn; try constructor; try done.
  - by intros r ?%elem_of_nil.
  - by intros k o ?%elem_of_nil.
Qed.

Lemma reachable_ok ops : ok (foldl run start ops).
Proof. induction ops as [|o ops IH] using rev_ind; [apply start_ok|]. rewrite foldl_app. by apply run_ok. Qed.

(** After any history of sets, secrets, clears, reads and refreshes of a process, whatever instance of the
    base is asked for: each effective setting is the override of its key as the model validates it, or the
    value of the base when there is none, and it respects the bounds of its field.  The overlay as a whole is never
    refused, and the cache never shows. *)
Theorem effective_overlays ops b f :
  f ∈ model_fields →
  let st := (foldl run start ops).2 in
  ∃ w, dict_get (f_name f) (effective coerce bases b st).1 = Some w ∧ forallb (holds w) (f_bounds f) = true ∧
    match dict_get (f_name f) (_overrides st) with
    | Some o => validate_field coerce f (l_value o) = Some w
    | None => dict_get (f_name f) (bases b) = Some w
    end.
Proof.
  intros Hf st. destruct (reachable_ok ops) as [_ Hst]. fold st in Hst. rewrite (proj1 (effective_ok b st Hst)).
  destruct Hst as [Hu Hv _]. by apply overlay_get.
Qed.

(** ** Secrets *)

Context (decrypt_encrypt : ∀ iv s, decrypt (encrypt iv s) = Some s).

(** An operation that writes the row of a key, or that leaves the store without its rows. *)
Definition touches (k : string) (o : op) : bool :=
  match o with
  | OSet _ _ key _ _ => bool_decide (key = k) || (bool_decide (key = "inference_provider") && bool_decide (k = "inference_model"))
  | OSecret _ ref _ _ => bool_decide (ref = k)
  | OClear key => bool_decide (key = k)
  | OEffective _ => false
  | ORefresh readable => negb readable
  end.

Definition holds_override (k : string) (o : _Override) (x : session) : Prop :=
  override_in k x.1 = Some o ∧ dict_get k (_overrides x.2) = Some o.

Lemma refreshed_holds k o d st : db_ok d → override_in k d = Some o → holds_override k o (d, refresh decrypt (Some d) st).
Proof. intros [Hu _] Ho. split; [done|]. cbn [snd]. by rewrite refresh_get. Qed.

Lemma override_in_set iv base key v by_ d st k :
  st_ok st → touches k (OSet iv base key v by_) = false →
  override_in k (set_override coerce encrypt decrypt json_dumps bases iv base key v by_ (d, st)).2.1 = override_in k d.
Proof.
  intros Hst Ht. apply orb_false_iff in Ht as [Hk%bool_decide_eq_false Hm].
  pose proof (set_override_cases iv base key v by_ d st Hst) as H. destruct (set_override _ _ _ _ _ _ _ _ _ _ _) as [[u|e] [d' st']];
    [|by destruct H as [[= -> ->] _]]. destruct H as (p & f & _ & _ & _ & _ & _ & _ & -> & _). cbn [fst snd].
  unfold override_in, _bump_version. cbn [overrides_table]. rewrite switch_at, at_key_upsert_row, bool_decide_false; [done|congruence|].
  apply andb_false_iff in Hm as [Hm%bool_decide_eq_false|Hm%bool_decide_eq_false]; [by left|by right].
Qed.

Lemma override_in_upsert k key v sec by_ d :
  override_in k (_bump_version (_upsert key v sec by_ d)) =
  if bool_decide (k = key) then snd <$> decode decrypt (mk_override key v sec by_) else override_in k d.
Proof.
  unfold override_in, _bump_version. cbn [overrides_table]. rewrite at_key_upsert_row. case_bool_decide; [|done]. cbn.
  by destruct (decode decrypt _) as [[??]|].
Qed.

Lemma override_in_clear k key d :
  k ≠ key → override_in k (_bump_version (mk_db (filter (λ r, o_key r ≠ key) (overrides_table d)) (settings_version d))) = override_in k d.
Proof.
  intros Hk. unfold override_in, _bump_version. cbn [overrides_table]. f_equal. unfold at_key. rewrite list_filter_filter.
  f_equal. apply list_filter_iff. intros r. split; [by intros [? _]|]. intros <-. done.
Qed.

Lemma run_holds k o x a : ok x → touches k a = false → holds_override k o x → holds_override k o (run x a).
Proof.
  destruct x as [d st]. intros Hx Ht [Hd Hs]. pose proof (run_ok _ a Hx) as Hok. destruct Hx as [Hdb Hst]. cbn [fst snd] in *.
  destruct a as [iv base key v by_|iv ref v by_|key|base|readable]; cbn [run] in *.
  - pose proof (override_in_set iv base key v by_ d st k Hst Ht) as Ho.
    pose proof (set_override_cases iv base key v by_ d st Hst) as H. destruct (set_override _ _ _ _ _ _ _ _ _ _ _) as [[u|e] [d' st']].
    + destruct H as (p & f & _ & _ & _ & _ & _ & _ & _ & _ & ->). cbn [fst snd] in *. apply refreshed_holds; [apply Hok|congruence].
    + by destruct H as [[= -> ->] _].
  - unfold set_secret in *. destruct (_ || _); [done|]. destruct (is_field ref); [done|]. apply refreshed_holds; [apply Hok|].
    rewrite override_in_upsert. cbn [touches] in Ht. rewrite bool_decide_false; [done|]. intros ->. by rewrite bool_decide_true in Ht.
  - cbn [touches] in Ht. apply bool_decide_eq_false in Ht. apply refreshed_holds; [apply Hok|]. by rewrite override_in_clear.
  - split; [done|]. cbn [snd]. by rewrite (proj2 (proj2 (effective_ok base st Hst))).
  - destruct readable; [|done]. apply refreshed_holds; [apply Hok|done].
Qed.

Lemma effective_override x k o f b w :
  ok x → holds_override k o x → f ∈ model_fields → f_name f = k → validate_field coerce f (l_value o) = Some w →
  dict_get k (effective coerce bases b x.2).1 = Some w.
Proof.
  intros [_ Hst] [_ Ho] Hf <- Hw. rewrite (proj1 (effective_ok b _ Hst)). destruct Hst as [Hu Hv _].
  destruct (overlay_get b x.2 f Hu Hv Hf) as (w' & Hg & _ & Hm). rewrite Ho in Hm. congruence.
Qed.

Lemma override_in_stored iv p v key by_ d old :
  override_in key (_bump_version (switch_model key v old by_ (_upsert key (stored_as iv p v) (p_is_secret p) by_ d))) =
  Some (mk_loaded (if p_is_secret p then VStr (match v with VStr s => s | _ => json_dumps v end) else v) (p_is_secret p)).
Proof.
  unfold override_in, _bump_version. cbn [overrides_table]. rewrite switch_at.
  - rewrite at_key_upsert_row, bool_decide_true by done. unfold stored_as, decode. cbn [mbind option_bind o_is_secret o_value o_key].
    destruct (p_is_secret p); [|done]. by rewrite decrypt_encrypt.
  - destruct (decide (key = "inference_provider")) as [->|]; [by right|by left].
Qed.

(** Setting an override, after any history of the process.  A refusal (an unknown or read-only key, a key
    pasted where the name of a secret belongs, a value outside its bounds) changes nothing.  What is accepted
    is in force at once, for every instance of the base: a setting has the validated value, a secret resolves to the text that was
    given; a switch of the provider puts its default model in force with it; and no other override changes. *)
Theorem set_override_spec ops iv base key v by_ :
  let x := foldl run start ops in
  match set_override coerce encrypt decrypt json_dumps bases iv base key v by_ x with
  | (Err e, x') => x' = x
  | (Ok _, x') => ∃ p f w, policy_of key = Some p ∧ p_editable p = true ∧ raw_reference p key v = None ∧
      f ∈ model_fields ∧ f_name f = key ∧ validate_field coerce f v = Some w ∧
      (if p_is_secret p then resolve_secret key x'.2 = Some (match v with VStr s => s | _ => json_dumps v end)
       else ∀ b, dict_get key (effective coerce bases b x'.2).1 = Some w) ∧
      (∀ k, touches k (OSet iv base key v by_) = false → override_in k x'.1 = override_in k x.1) ∧
      (∀ provider model, key = "inference_provider" → v = VStr provider → _default_model_for provider = Some model →
         lower provider ≠ lower (text_of (effective coerce bases base x.2).1 key) →
         ∀ b, dict_get "inference_model" (effective coerce bases b x'.2).1 = Some (VStr model))
  end.
Proof.
  intros x. pose proof (reachable_ok ops) as Hx. fold x in Hx. destruct x as [d st] eqn:Ex. pose proof Hx as [Hdb Hst]. cbn [fst snd] in *.
  pose proof (set_override_cases iv base key v by_ d st Hst) as H. pose proof (run_ok _ (OSet iv base key v by_) Hx) as Hok.
  pose proof (override_in_set iv base key v by_ d st) as Hother. cbn [run] in Hok.
  destruct (set_override _ _ _ _ _ _ _ _ _ _ _) as [[u|e] [d' st']]; [|by destruct H as [[= -> ->] _]]. cbn [snd fst] in *.
  destruct H as (p & f & Hp & He & Hr & Hf & Hn & [w Hw] & Hd' & _ & ->). exists p, f, w. do 6 (split; [done|]). split; [|split; [by auto|]].
  - assert (holds_override key (mk_loaded (if p_is_secret p then VStr (match v with VStr s => s | _ => json_dumps v end) else v) (p_is_secret p))
      (d', refresh decrypt (Some d') st)) as Ho.
    { apply refreshed_holds; [apply Hok|]. subst d'. apply (override_in_stored iv). }
    destruct (p_is_secret p).
    + destruct Ho as [_ Ho]. unfold resolve_secret. cbn [snd] in *. by rewrite Ho.
    + intros b. exact (effective_override _ key _ f b w Hok Ho Hf Hn Hw).
  - intros provider model -> -> Hm Hl b. rewrite (proj1 (effective_ok base st Hst)) in Hl.
    destruct (field_of "inference_model") as [g|] eqn:Eg; [|by vm_compute in Eg]. pose proof Eg as Eg'. vm_compute in Eg'. injection Eg' as <-.
    apply field_of_some in Eg as [Hg Hgn]. 
    refine (effective_override (d', refresh decrypt (Some d') st) "inference_model" (mk_loaded (VStr model) false) _ b _ Hok _ Hg Hgn _).
    + apply refreshed_holds; [apply Hok|]. subst d'. unfold override_in, _bump_version, switch_model. cbn [overrides_table].
      rewrite !bool_decide_true, (bool_decide_false (lower _ = _)), Hm by done. cbn [negb andb]. by rewrite at_key_upsert_row, bool_decide_true.
    + unfold validate_field. cbn [f_type l_value f_bounds]. rewrite coerce_text by (by left). done.
Qed.

(** A named secret resolves to its value, in front of the fallback provider, from the moment it is set and
    through every later operation that does not set or clear it (a failed read of the tables apart). *)
Theorem secret_roundtrip {E} ops ops' iv ref v by_ (fallback : string → result E string) :
  let x := set_secret encrypt decrypt iv ref v by_ (foldl run start ops) in
  is_ok x.1 = true → forallb (λ o, negb (touches ref o)) ops' = true →
  let st := (foldl run x.2 ops').2 in
  build_secret_provider (Some st) fallback ref = Ok v ∧ reveal ref st = Ok v.
Proof.
  intros x Hx Ht st. pose proof (reachable_ok ops) as H0. pose proof (run_ok _ (OSecret iv ref v by_) H0) as Hok.
  cbn [run] in Hok. fold x in Hok. enough (ok (foldl run x.2 ops') ∧ holds_override ref (mk_loaded (VStr v) true) (foldl run x.2 ops')) as [_ [_ H]].
  { unfold build_secret_provider, resolve_secret, reveal. fold st in H. by rewrite H. }
  assert (holds_override ref (mk_loaded (VStr v) true) x.2) as Hh.
  { subst x. unfold set_secret in *. destruct (_ || _); [done|]. destruct (is_field ref); [done|].
    destruct (foldl run start ops) as [d st0]. apply refreshed_holds; [apply Hok|]. rewrite override_in_upsert, bool_decide_true by done.
    cbn. by rewrite decrypt_encrypt. }
  clear st. revert Hok Hh Ht. generalize x.2. induction ops' as [|o ops' IH]; intros y Hy Hh Ht; [done|].
  cbn [foldl forallb] in *. apply andb_prop in Ht as [Ho%negb_true_iff Ht]. apply IH; [by apply run_ok|by apply run_holds|done].
Qed.
End Laws.

(** ** A concrete instance, and what it shows *)

(** Values of the type of the field, and whole numbers for floats. *)
Definition strict (t : ftype) (v : value) : option value :=
  match t, v with TFloat, VInt z => Some (VFloat (inject_Z z)) | _, _ => if has_type t v then Some v else None end.

Definition defaults (_ : Z) : settings := (λ f, (f_name f, f_default f)) <$> model_fields.

Definition seal (_ s : string) : string := "#" +:+ s.
Definition unseal (s : string) : option string := match s with String _ s' => Some s' | "" => None end.
Definition dumps (v : value) : string := match v with VNull => "null" | _ => "" end.

Lemma defaults_valid b : model_validate strict (defaults b) = Some (defaults b).
Proof. by vm_compute. Qed.

Lemma strict_text t s : t = TStr ∨ t = TOptStr → strict t (VStr s) = Some (VStr s).
Proof. by intros [-> | ->]. Qed.

Notation run_strict := (run strict seal unseal dumps defaults).

Definition switched : list op :=
  [ORefresh true; OSet "iv" 0 "inference_provider" (VStr "anthropic") (Some "ada"); OEffective 0].

Lemma effective_overlays_witness :
  get (effective strict defaults 0 (foldl run_strict start switched).2).1 "inference_model" = VStr "claude-haiku-4-5" ∧
  ∃ w, dict_get "inference_model" (effective strict defaults 0 (foldl run_strict start switched).2).1 = Some w.
Proof.
  split; [by vm_compute|]. destruct (field_of "inference_model") as [f|] eqn:E; [|by vm_compute in E].
  destruct (field_of_some _ _ E) as [Hf Hn].
  destruct (effective_overlays strict seal unseal dumps defaults defaults_valid strict_text switched 0 f Hf) as (w & Hw & _).
  rewrite Hn in Hw. by exists w.
Defined.

Lemma set_override_spec_witness :
  resolve_secret "inference_openai_api_key"
    (set_override strict seal unseal dumps defaults "iv" 0 "inference_openai_api_key" (VStr "sk-1") None (foldl run_strict start switched)).2.2 =
  Some "sk-1".
Proof.
  pose proof (set_override_spec strict seal unseal dumps defaults defaults_valid strict_text (λ _ _, eq_refl)
    switched "iv" 0 "inference_openai_api_key" (VStr "sk-1") None) as H. cbn zeta in H. revert H.
  assert (is_ok (set_override strict seal unseal dumps defaults "iv" 0 "inference_openai_api_key" (VStr "sk-1") None
    (foldl run_strict start switched)).1 = true) as Hok by (by vm_compute). revert Hok.
  destruct (set_override _ _ _ _ _ _ _ _ _ _ _) as [[u|e] x']; [|done]. intros _ (p & f & w & Hp & _ & _ & _ & _ & _ & Hres & _).
  destruct (p_is_secret p) eqn:Es; [exact Hres|]. vm_compute in Hp. injection Hp as <-. done.
Defined.

Lemma secret_roundtrip_witness :
  build_secret_provider (E:=()) (Some (foldl run_strict (set_secret seal unseal "iv" "ANTHROPIC_KEY" "sk-ant" None start).2
    [OSet "iv" 0 "top_n_max" (VInt 5) None; OClear "top_n_max"]).2) (λ _, Err ()) "ANTHROPIC_KEY" = Ok "sk-ant".
Proof.
  apply (secret_roundtrip strict seal unseal dumps defaults defaults_valid strict_text (λ _ _, eq_refl) []
    [OSet "iv" 0 "top_n_max" (VInt 5) None; OClear "top_n_max"] "iv" "ANTHROPIC_KEY" "sk-ant" None (λ _, Err ())); by vm_compute.
Defined.

(** Clearing the override of the provider brings the provider of the base back and leaves the model of the other. *)
Lemma clear_provider_keeps_model :
  let st := (foldl run_strict start (switched ++ [OClear "inference_provider"])).2 in
  let s := (effective strict defaults 0 st).1 in
  get s "inference_provider" = VStr "ollama" ∧ get s "inference_model" = VStr "claude-haiku-4-5".
Proof. by vm_compute. Qed.

(** Setting a secret to null stores the text "null" as the secret. *)
Lemma null_secret_is_text :
  let x := set_override strict seal unseal dumps defaults "iv" 0 "inference_openai_api_key" VNull None start in
  is_ok x.1 = true ∧ resolve_secret "inference_openai_api_key" x.2.2 = Some "null" ∧
  get (effective strict defaults 0 x.2.2).1 "inference_openai_api_key" = VStr "null".
Proof. by vm_compute. Qed.
