(* ===== verification/PreviewPull.v ===== *)
(** The signed pull of one file ([src/fathom/preview/grant.py], [preview/pull.py], [preview/local_fetch.py],
    [agent/preview_serve.py], [api/routers/preview_pull.py]): the grant, its fetcher at the core, the routes of the agent and
    the agent that verifies a grant and reads the file.

    Ed25519 and BLAKE3 are parameters, and so is the file system: what opening a path without following a
    link gives: the inode, and the bytes of the file unless reading them fails (a directory).  A read returns as many
    bytes as it is asked for while there are any. *)

From stdpp Require Import gmap.
From S2P Require Import Prelude PyStr Json PyTime PosixPath Signing Rbac Catalogue Walk Envelope.

Local Open Scope Z_scope.


(** ** Grants *)

Record FileGrant := mk_grant {
  grant_id : string; fg_entry_id : Z; fg_host_id : string; fg_volume_id : Z; fg_inode : Z; fg_path : string;
  fg_content_hash : option string; fg_nonce : string; fg_issued_at : datetime; fg_expires_at : datetime;
}.

#[export] Instance FileGrant_eq_dec : EqDecision FileGrant.
Proof. solve_decision. Defined.

Definition opt_json (o : option string) : json := match o with Some s => JStr s | None => JNull end.

Definition grant_payload (g : FileGrant) : json :=
  JObj [("grant_id", JStr (grant_id g)); ("entry_id", JInt (fg_entry_id g)); ("host_id", JStr (fg_host_id g));
        ("volume_id", JInt (fg_volume_id g)); ("inode", JInt (fg_inode g)); ("path", JStr (fg_path g));
        ("content_hash", opt_json (fg_content_hash g)); ("nonce", JStr (fg_nonce g));
        ("issued_at", JStr (isoformat (fg_issued_at g))); ("expires_at", JStr (isoformat (fg_expires_at g)))].

Definition canonical_bytes (g : FileGrant) : string := utf8 (dumps (grant_payload g)).

#[export] Instance grant_envelope : Envelope FileGrant := {|
  en_ref := grant_id; en_host := fg_host_id; en_nonce := fg_nonce; en_issued := fg_issued_at;
  en_expires := fg_expires_at; en_bytes := canonical_bytes |}.

Notation SignedFileGrant := (Sealed FileGrant).

Definition within (lo hi : nat) (s : string) : bool := (lo <=? String.length s)%nat && (String.length s <=? hi)%nat.

(** The constraints of the fields: [ValidationError] when they do not hold. *)
Definition grant_ok (g : FileGrant) : bool :=
  within 1 64 (grant_id g) && (1 <=? fg_entry_id g) && within 1 255 (fg_host_id g) && (1 <=? fg_volume_id g) &&
  within 1 4096 (fg_path g) && match fg_content_hash g with Some h => within 0 64 h | None => true end && within 16 128 (fg_nonce g).

(** ** The core side *)

Record ResolvedEntry := mk_resolved {
  re_entry_id : Z; re_host_id : Z; re_volume_id : Z; re_path : string; re_inode : Z;
  re_content_hash : option string; re_host_name : string;
}.

(** [PreviewError(reason, status_code=...)]. *)
Record PreviewError := mk_preview_error { reason : string; pe_status : Z }.

(** What waits in the queue: the grant and the cap of the read. *)
Notation PolledGrant := (SignedFileGrant * Z)%type.

#[export] Instance grant_queued : Queued PolledGrant := {|
  qi_id := λ p, grant_id (body p.1); qi_expires := λ p, fg_expires_at (body p.1) |}.

Notation PreviewPullQueue := (PullQueue PolledGrant string).

Section Core.
Context (ed_sign : string → string).

(** [GrantPullFetcher.fetch] up to the await: the grant it mints and the queue it waits in. *)
Definition fetch_start (kid gid nonce : string) (ttl max_bytes : Z) (now : datetime) (entry : ResolvedEntry) (q : PreviewPullQueue)
    : result CorrelationError (SignedFileGrant * PreviewPullQueue) :=
  let host := if bool_decide (re_host_name entry = "") then pretty (re_host_id entry) else re_host_name entry in
  let g := mk_grant gid (re_entry_id entry) host (re_volume_id entry) (re_inode entry) (re_path entry) (re_content_hash entry)
             nonce now (dt_add now (seconds ttl)) in
  let signed := sign ed_sign kid g in
  q ← enqueue host (signed, max_bytes) q; Ok (signed, q).

(** The rest of it. *)
Definition fetch_end (gid : string) (q : PreviewPullQueue) : option (result PreviewError string) * PreviewPullQueue :=
  match finish gid q with
  | (Some (Ok raw), q) => (Some (Ok raw), q)
  | (Some (Err _), q) => (Some (Err (mk_preview_error "preview file pull did not complete" 504)), q)
  | (None, q) => (None, q)
  end.
End Core.

(** ** The routes of the agent *)

Definition _resolve_host_name (hosts : list Host) (fingerprint : string) : result HTTPException string :=
  match head (filter (λ h, cert_fingerprint h = fingerprint) hosts) with
  | Some h => Ok (h_name h)
  | None => Err (mk_http 403 "no registered host for this client certificate")
  end.

(** [None]: 204. *)
Definition poll_preview_grant (hosts : list Host) (gets : nat) (fingerprint : string) (now : datetime) (q : option PreviewPullQueue)
    : result HTTPException (option PolledGrant) * option PreviewPullQueue :=
  match q with
  | None => (Ok None, None)
  | Some q =>
      match _resolve_host_name hosts fingerprint with
      | Err e => (Err e, Some q)
      | Ok host => let '(p, q) := poll gets host "grant expired before an agent claimed it" now q in (Ok p, Some q)
      end
  end.

(** The reply of the agent: the data or why there is none. *)
Record ServeRequest := mk_serve { sr_grant_id : string; data_b64 : option string; sr_error : option string }.

Definition MAX_SERVE_DATA_B64_CHARS : Z := 512 * 1024 * 1024.

(** The constraints of the fields and the validator. *)
Definition serve_ok (r : ServeRequest) : bool :=
  within 1 64 (sr_grant_id r) &&
  match data_b64 r with Some d => Z.of_nat (String.length d) <=? MAX_SERVE_DATA_B64_CHARS | None => true end &&
  match sr_error r with Some e => within 0 256 e | None => true end &&
  negb (eqb (bool_decide (data_b64 r = None)) (bool_decide (sr_error r = None))).

Definition b64_alphabet (c : ascii) : bool := bool_decide (b64_value c ≠ None).

(** [base64.b64decode(s, validate=True)], as of CPython 3.12: only the alphabet, then the padding it needs (any after a
    full quad). *)
Definition b64_strict (s : string) : option string :=
  let core := rstrip_by (Ascii.eqb "=") s in
  let n := String.length core in
  let pads := (String.length s - n)%nat in
  if s_all b64_alphabet core &&
     (if (n mod 4 =? 0)%nat then negb (n =? 0)%nat || (pads =? 0)%nat
      else negb (n mod 4 =? 1)%nat && (pads =? 4 - n mod 4)%nat)
  then b64decode s else None.

(** [PullCorrelationError] as a 409. *)
Definition correlated {A} (r : result CorrelationError A) : result HTTPException A :=
  match r with
  | Ok a => Ok a
  | Err DuplicateId => Err (mk_http 409 "duplicate grant_id already in flight")
  | Err UnknownId => Err (mk_http 409 "unknown or already-resolved grant")
  | Err OtherHost => Err (mk_http 409 "result host does not match the grant's scope")
  | Err AlreadyAnswered => Err (mk_http 409 "grant already resolved")
  end.

Definition serve_preview_grant (hosts : list Host) (preview_max_input_bytes : Z) (fingerprint : string) (r : ServeRequest)
    (q : option PreviewPullQueue) : result HTTPException (option PreviewPullQueue) :=
  match q with
  | None => Err (mk_http 409 "no awaiting preview pull")
  | Some q =>
      host ← _resolve_host_name hosts fingerprint;
      match sr_error r with
      | Some e => q ← correlated (resolve (sr_grant_id r) host (inr e) q); Ok (Some q)
      | None =>
          match data_b64 r with
          | None => Err (mk_http 400 "missing serve payload")
          | Some d =>
              let cap := (preview_max_input_bytes + 2) / 3 * 4 + 4 in
              if cap <? Z.of_nat (String.length d) then Err (mk_http 413 "served file exceeds the preview input cap") else
              match b64_strict d with
              | None => Err (mk_http 400 "malformed base64 payload")
              | Some data =>
                  if preview_max_input_bytes <? Z.of_nat (String.length data)
                  then Err (mk_http 413 "served file exceeds the preview input cap")
                  else q ← correlated (resolve (sr_grant_id r) host (inl data) q); Ok (Some q)
              end
          end
      end
  end.

(** ** The agent *)

(** [s[:n]]. *)
Definition take_s (n : Z) (s : string) : string := String.substring 0 (Z.to_nat n) s.

Section Agent.
Context (blake3_hex : string → string).

(** [os.open(path, O_RDONLY | O_NOFOLLOW)] and what the descriptor then shows; [None] is an OSError. *)
Context (os_open : string → option (Z * option string)).

(** The loop of reads: what is left of the file and of the budget. *)
Fixpoint read_loop (fuel : nat) (rest : string) (remaining : Z) : string :=
  match fuel with
  | O => ""
  | S fuel =>
      if remaining <=? 0 then "" else
      let block := take_s (Z.min (2 ^ 20) remaining) rest in
      if bool_decide (block = "") then "" else
      block +:+ read_loop fuel (drop_s (String.length block) rest) (remaining - Z.of_nat (String.length block))
  end.

Definition read_fuel (content : string) : nat := S (String.length content).

Inductive ServeError := Unverified (e : SealError) | Unreadable (e : PreviewError) | ReadFailed.

Definition unreadable {A} (reason : string) (status : Z) : result ServeError A := Err (Unreadable (mk_preview_error reason status)).

Definition _read (entry : ResolvedEntry) (max_bytes : Z) : result ServeError string :=
  if re_inode entry =? 0 then unreadable "preview file has no inode anchor" 409 else
  match os_open (re_path entry) with
  | None => unreadable "preview file unavailable" 404
  | Some (st_ino, content) =>
      if negb (_to_signed64 st_ino =? re_inode entry)
      then unreadable "preview file changed since catalogue (inode mismatch)" 409 else
      match content with None => if max_bytes + 1 <=? 0 then Ok "" else Err ReadFailed | Some content =>
      let data := read_loop (read_fuel content) content (max_bytes + 1) in
      match re_content_hash entry with
      | Some h =>
          if negb (bool_decide (h = "")) && (Z.of_nat (String.length data) <=? max_bytes) && negb (bool_decide (blake3_hex data = h))
          then unreadable "preview file content changed since catalogue (hash mismatch)" 409
          else Ok data
      | None => Ok data
      end
      end
  end.

Context (ed_verify : string → string → bool).

Record PreviewGrantServer := mk_server { gs_key_id : string; gs_nonce_db : string; gs_host_id : string }.

Definition serve {St} `{NonceStore St} (server : PreviewGrantServer) (signed : SignedFileGrant) (max_bytes : Z) (now : datetime) (store : St)
    : result ServeError string * St :=
  match verify ed_verify (gs_key_id server) (gs_host_id server) now signed store with
  | (Err e, store) => (Err (Unverified e), store)
  | (Ok g, store) =>
      let entry := mk_resolved (fg_entry_id g) 0 (fg_volume_id g) (fg_path g) (fg_inode g) (fg_content_hash g) "" in
      (_read entry max_bytes, store)
  end.

(** A claimed grant and what the agent posts for it; the errors of a locked ledger and of a failed
    read are not caught ([None]). *)
Definition handle_one {St} `{NonceStore St} (server : PreviewGrantServer) (claimed : PolledGrant) (now : datetime) (store : St)
    : option ServeRequest * St :=
  let gid := grant_id (body claimed.1) in
  match serve server claimed.1 claimed.2 now store with
  | (Ok data, store) => (Some (mk_serve gid (Some (b64encode data)) None), store)
  | (Err (Unverified (LedgerFailed _)), store) | (Err ReadFailed, store) => (None, store)
  | (Err _, store) => (Some (mk_serve gid None (Some "grant could not be served")), store)
  end.

(** The settings of the agent that the loop needs. *)
Record ServeConfig := mk_serve_config {
  pubkey_ref : option string; preview_nonce_dir : option string; quarantine_dir : option string;
  grant_key_id : string; cfg_host_id : string;
}.

Inductive StartupError := NoKeyRef | NoNonceDir | Unresolved | BadKey.

Definition truthy (s : option string) : option string := match s with Some "" | None => None | Some s => Some s end.

(** [secret] resolves a reference, [is_ed25519_pem] parses the key it finds. *)
Definition build_server_from_config (secret : string → option string) (is_ed25519_pem : string → bool) (c : ServeConfig)
    : result StartupError PreviewGrantServer :=
  match truthy (pubkey_ref c) with
  | None => Err NoKeyRef
  | Some ref =>
      match (match truthy (preview_nonce_dir c) with Some d => Some d | None => truthy (quarantine_dir c) end) with
      | None => Err NoNonceDir
      | Some dir =>
          match truthy (secret ref) with
          | None => Err Unresolved
          | Some material =>
              if is_ed25519_pem material then Ok (mk_server (grant_key_id c) (path_str (path_join (parse_path dir) (parse_path ".preview-nonce-ledger.sqlite"))) (cfg_host_id c))
              else Err BadKey
          end
      end
  end.
End Agent.

(** ** The bytes determine the grant *)

Lemma grant_sorted g :
  sort_json (grant_payload g) =
  JObj [("content_hash", sort_json (opt_json (fg_content_hash g))); ("entry_id", JInt (fg_entry_id g));
        ("expires_at", JStr (isoformat (fg_expires_at g))); ("grant_id", JStr (grant_id g));
        ("host_id", JStr (fg_host_id g)); ("inode", JInt (fg_inode g)); ("issued_at", JStr (isoformat (fg_issued_at g)));
        ("nonce", JStr (fg_nonce g)); ("path", JStr (fg_path g)); ("volume_id", JInt (fg_volume_id g))].
Proof. reflexivity. Qed.

Lemma opt_json_inj o p : sort_json (opt_json o) = sort_json (opt_json p) → o = p.
Proof. destruct o, p; simpl; congruence. Qed.

#[export] Instance grant_laws : EnvelopeLaws FileGrant.
Proof.
  refine (Build_EnvelopeLaws FileGrant _ (λ g, dt_valid (fg_issued_at g) ∧ dt_valid (fg_expires_at g)) _).
  intros g h [Hg1 Hg2] [Hh1 Hh2] H. apply utf8_inj, dumps_inj in H. rewrite !grant_sorted in H. json_inv.
  repeat match goal with
  | H : isoformat _ = isoformat _ |- _ => apply isoformat_inj in H; [|done..]
  | H : sort_json (opt_json _) = _ |- _ => apply opt_json_inj in H
  end. destruct g, h. simpl in *. congruence.
Qed.

(** ** Reading *)

Lemma take_s_nil n : take_s n "" = "".
Proof. unfold take_s. by destruct (Z.to_nat n). Qed.

Lemma substring_length n s : String.length (String.substring 0 n s) = Nat.min n (String.length s).
Proof. revert s. induction n as [|n IH]; intros [|c s]; cbn; [done..|]. by rewrite IH. Qed.

Lemma drop_s_length n s : String.length (drop_s n s) = (String.length s - n)%nat.
Proof. revert s. induction n as [|n IH]; intros [|c s]; cbn; [done..|]. apply IH. Qed.

(** A block, then what the rest of the budget gives of the rest of the file. *)
Lemma substring_block n m s :
  (n <= m)%nat →
  let k := String.length (String.substring 0 n s) in
  String.substring 0 n s +:+ String.substring 0 (m - k) (drop_s k s) = String.substring 0 m s.
Proof.
  cbn zeta. revert m s. induction n as [|n IH]; intros m s Hnm; [by destruct s; cbn; rewrite Nat.sub_0_r|].
  destruct m as [|m]; [lia|]. destruct s as [|c s]; cbn; [done|]. f_equal. apply IH. lia.
Qed.

(** However the reads are cut into blocks, they give the first bytes of the file. *)
Lemma read_loop_spec fuel rest remaining :
  (String.length rest < fuel)%nat → read_loop fuel rest remaining = take_s remaining rest.
Proof.
  revert rest remaining. induction fuel as [|fuel IH]; intros rest remaining Hf; [lia|]. cbn [read_loop].
  destruct (Z.leb_spec remaining 0) as [Hr|Hr].
  { unfold take_s. replace (Z.to_nat remaining) with O by lia. by destruct rest. }
  unfold take_s. assert (0 < Z.to_nat (Z.min (2 ^ 20) remaining) <= Z.to_nat remaining)%nat as Hn by lia.
  revert Hn. generalize (Z.to_nat (Z.min (2 ^ 20) remaining)). intros n Hn.
  pose proof (substring_length n rest) as Hlen. case_bool_decide as Eb.
  - destruct rest as [|c rest]; [by destruct (Z.to_nat remaining)|]. rewrite Eb in Hlen. cbn in Hlen. lia.
  - rewrite <- (substring_block n (Z.to_nat remaining) rest) by lia.
    assert (String.length (String.substring 0 n rest) ≠ 0)%nat by (by destruct (String.substring 0 n rest)).
    rewrite IH by (rewrite drop_s_length; lia). unfold take_s. do 2 f_equal. lia.
Qed.

(** ** Strict base64 *)

Lemma rstrip_b64 n r : (n < 64)%N → rstrip_by (Ascii.eqb "=") (String (b64_char n) r) = String (b64_char n) (rstrip_by (Ascii.eqb "=") r).
Proof.
  intros [_ H]%b64_value_char. cbn [rstrip_by]. rewrite Ascii.eqb_sym in H. rewrite H. by destruct (rstrip_by _ r).
Qed.

Lemma b64_alphabet_char n : (n < 64)%N → b64_alphabet (b64_char n) = true.
Proof. intros [H _]%b64_value_char. unfold b64_alphabet. by rewrite H. Qed.

(** What the encoder writes: characters of the alphabet, and the padding that completes the last quad. *)
Lemma b64encode_shape k s :
  (String.length s <= k)%nat →
  let core := rstrip_by (Ascii.eqb "=") (b64encode s) in
  let n := String.length core in
  let len := String.length (b64encode s) in
  s_all b64_alphabet core = true ∧ len = ((String.length s + 2) / 3 * 4)%nat ∧
  ((n mod 4 = 0 ∧ len = n) ∨ (n mod 4 = 2 ∧ len = n + 2) ∨ (n mod 4 = 3 ∧ len = n + 1))%nat.
Proof.
  cbn zeta. revert s. induction k as [|k IH]; intros s Hs; [by destruct s; [vm_compute; auto|cbn in Hs; lia]|].
  destruct s as [|a [|b [|c r]]]; [by vm_compute; auto|..]; cbn [b64encode].
  - pose proof (N_of_ascii_bound a). rewrite !rstrip_b64 by div_lia. cbn [s_all]. rewrite !b64_alphabet_char by div_lia.
    cbn. auto 10.
  - pose proof (N_of_ascii_bound a). pose proof (N_of_ascii_bound b).
    rewrite !rstrip_b64 by div_lia. cbn [s_all]. rewrite !b64_alphabet_char by div_lia. cbn. auto 10.
  - pose proof (N_of_ascii_bound a). pose proof (N_of_ascii_bound b). pose proof (N_of_ascii_bound c).
    rewrite !rstrip_b64 by div_lia. cbn [s_all String.length]. rewrite !b64_alphabet_char by div_lia.
    destruct (IH r) as (-> & Hlen & Hn); [cbn in Hs; lia|]. split; [done|].
    replace (S (S (S (String.length r))) + 2)%nat with (1 * 3 + (String.length r + 2))%nat by lia.
    rewrite Nat.div_add_l by lia. split; [lia|].
    revert Hn. generalize (String.length (rstrip_by (Ascii.eqb "=") (b64encode r))). intros n Hn.
    replace (S (S (S (S n)))) with (n + 1 * 4)%nat by lia. rewrite Nat.Div0.mod_add. lia.
Qed.

Lemma b64_strict_encode s : b64_strict (b64encode s) = Some s.
Proof.
  unfold b64_strict. destruct (b64encode_shape (String.length s) s) as (Ha & _ & Hn); [done|]. cbn zeta in *.
  rewrite Ha. cbn [andb].
  set (n := String.length (rstrip_by _ _)) in *. set (len := String.length (b64encode s)) in *.
  destruct Hn as [[-> ->]|[[-> ->]|[-> ->]]]; cbn; rewrite ?Nat.sub_diag, ?(Nat.add_comm n), ?Nat.add_sub, ?orb_true_r; apply b64_roundtrip.
Qed.

Lemma b64_length s : Z.of_nat (String.length (b64encode s)) = (Z.of_nat (String.length s) + 2) / 3 * 4.
Proof. destruct (b64encode_shape (String.length s) s) as (_ & -> & _); [done|]. rewrite Nat2Z.inj_mul, Nat2Z.inj_div. lia. Qed.

(** ** What the agent serves *)

Section AgentLaws.
Context {St : Type} `{NonceStoreLaws St}.
Context (blake3_hex : string → string) (os_open : string → option (Z * option string)) (ed_verify : string → string → bool).

Lemma read_cases entry max_bytes r :
  0 < max_bytes → _read blake3_hex os_open entry max_bytes = r →
  match r with
  | Ok data => re_inode entry ≠ 0 ∧ ∃ ino content, os_open (re_path entry) = Some (ino, Some content) ∧
      _to_signed64 ino = re_inode entry ∧ data = take_s (max_bytes + 1) content ∧
      (∀ h, re_content_hash entry = Some h → h ≠ "" → Z.of_nat (String.length data) <= max_bytes → blake3_hex data = h)
  | Err ReadFailed => ∃ ino, os_open (re_path entry) = Some (ino, None)
  | Err (Unreadable e) => pe_status e = 404 ∨ pe_status e = 409
  | Err (Unverified _) => False
  end.
Proof.
  intros Hm <-. unfold _read, unreadable. destruct (Z.eqb_spec (re_inode entry) 0) as [?|Hi]; [by right|].
  destruct (os_open _) as [[ino content]|] eqn:Eo; [|by left].
  destruct (Z.eqb_spec (_to_signed64 ino) (re_inode entry)) as [Eino|]; cbn [negb]; [|by right].
  destruct content as [content|]; [|rewrite (proj2 (Z.leb_gt _ _)) by lia; by exists ino].
  rewrite read_loop_spec by (unfold read_fuel; lia). cbv zeta.
  destruct (re_content_hash entry) as [h|]; [|split; [done|]; by exists ino, content].
  destruct (bool_decide_reflect (h = "")) as [->|Hh]; cbn [negb andb].
  { split; [done|]. exists ino, content. split_and!; [done..|]. by intros ? [= <-]. }
  destruct (Z.leb_spec (Z.of_nat (String.length (take_s (max_bytes + 1) content))) max_bytes); cbn [negb andb].
  2: { split; [done|]. exists ino, content. split_and!; [done..|]. intros. lia. }
  case_bool_decide as Eh; cbn [negb]; [|by right]. split; [done|]. exists ino, content. split_and!; [done..|].
  by intros ? [= <-].
Qed.

(** The agent serves a file only under a verified grant of its own host, within its window and not used before; and what it serves
    are the first bytes of the very file the catalogue saw, with its content hash when the whole file fits.  The nonce is spent
    in every case in which a file was opened. *)
Theorem serve_spec server (signed : SignedFileGrant) max_bytes now (st st' : St) r :
  0 < max_bytes → serve blake3_hex os_open ed_verify server signed max_bytes now st = (r, st') →
  let g := body signed in
  let verified := verify_signature ed_verify (gs_key_id server) signed = true ∧
      instant (as_utc (fg_issued_at g)) <= instant now < instant (as_utc (fg_expires_at g)) ∧
      fg_host_id g = gs_host_id server ∧ fg_nonce g ∉ seen st ∧ seen st' = {[fg_nonce g]} ∪ seen st in
  match r with
  | Ok data => verified ∧ fg_inode g ≠ 0 ∧ ∃ ino content, os_open (fg_path g) = Some (ino, Some content) ∧
      _to_signed64 ino = fg_inode g ∧ data = take_s (max_bytes + 1) content ∧
      (∀ h, fg_content_hash g = Some h → h ≠ "" → Z.of_nat (String.length data) <= max_bytes → blake3_hex data = h)
  | Err (Unreadable e) => verified ∧ (pe_status e = 404 ∨ pe_status e = 409)
  | Err ReadFailed => verified ∧ ∃ ino, os_open (fg_path g) = Some (ino, None)
  | Err (Unverified Replay) => fg_nonce g ∈ seen st ∧ seen st' = seen st
  | Err (Unverified _) => seen st' = seen st
  end.
Proof.
  intros Hm. unfold serve. destruct (verify _ _ _ _ _ _) as [[g|e] st1] eqn:Ev; intros [= Hr <-]; apply verify_cases in Ev; cbn zeta.
  - destruct Ev as (-> & Hv). apply read_cases in Hr; [|done]. destruct r as [data|[?|?|]]; [| |by split..]; [split; [exact Hv|exact Hr]|done].
  - subst r. destruct e; try done; by subst.
Qed.
End AgentLaws.

(** ** The core: runs of its requests *)

Section CoreRuns.
Context (ed_sign : string → string).

Inductive request :=
  | RFetch (kid gid nonce : string) (ttl max_bytes : Z) (now : datetime) (entry : ResolvedEntry)
  | RPoll (hosts : list Host) (gets : nat) (fingerprint : string) (now : datetime)
  | RServe (hosts : list Host) (cap : Z) (fingerprint : string) (r : ServeRequest)
  | REnd (gid : string).

Inductive response :=
  | RsFetch (r : result CorrelationError SignedFileGrant)
  | RsPoll (r : result HTTPException (option PolledGrant))
  | RsServe (r : result HTTPException ())
  | RsEnd (r : option (result PreviewError string)).

(** One request to the core, through its handlers; a refused one leaves the queue as it was. *)
Definition core_step (req : request) (q : PreviewPullQueue) : response * PreviewPullQueue :=
  match req with
  | RFetch kid gid nonce ttl max_bytes now entry =>
      match fetch_start ed_sign kid gid nonce ttl max_bytes now entry q with
      | Ok (signed, q) => (RsFetch (Ok signed), q)
      | Err e => (RsFetch (Err e), q)
      end
  | RPoll hosts gets fingerprint now =>
      match poll_preview_grant hosts gets fingerprint now (Some q) with
      | (r, Some q) => (RsPoll r, q)
      | (r, None) => (RsPoll r, q)
      end
  | RServe hosts cap fingerprint r =>
      match serve_preview_grant hosts cap fingerprint r (Some q) with
      | Ok (Some q) => (RsServe (Ok ()), q)
      | Ok None => (RsServe (Ok ()), q)
      | Err e => (RsServe (Err e), q)
      end
  | REnd gid => let '(r, q) := fetch_end gid q in (RsEnd r, q)
  end.

Fixpoint core_run (reqs : list request) (trace : list (request * response)) (q : PreviewPullQueue)
    : list (request * response) * PreviewPullQueue :=
  match reqs with
  | [] => (trace, q)
  | req :: reqs => let '(resp, q) := core_step req q in core_run reqs (trace ++ [(req, resp)]) q
  end.

(** Some fetch in the trace asked [host] for [item]. *)
Definition asked (trace : list (request * response)) (host : string) (item : PolledGrant) : Prop :=
  fg_host_id (body item.1) = host ∧
  ∃ kid nonce ttl now entry,
    (RFetch kid (grant_id (body item.1)) nonce ttl item.2 now entry, RsFetch (Ok item.1)) ∈ trace.

(** Some reply in the trace, by the client certificate of [host], carried these bytes. *)
Definition answered (trace : list (request * response)) (gid host : string) (data : string) : Prop :=
  ∃ hosts cap fingerprint r d, (RServe hosts cap fingerprint r, RsServe (Ok ())) ∈ trace ∧
    sr_grant_id r = gid ∧ data_b64 r = Some d ∧ b64_strict d = Some data ∧ Z.of_nat (String.length data) <= cap ∧
    _resolve_host_name hosts fingerprint = Ok host.

(** Why the core gave this response, after this trace. *)
Definition explained (trace : list (request * response)) (x : request * response) : Prop :=
  match x with
  | (RPoll hosts _ fingerprint now, RsPoll (Ok (Some item))) =>
      ∃ host, _resolve_host_name hosts fingerprint = Ok host ∧ asked trace host item ∧
        instant now < instant (as_utc (fg_expires_at (body item.1)))
  | (REnd gid, RsEnd (Some (Ok data))) =>
      ∃ host item, answered trace gid host data ∧ grant_id (body item.1) = gid ∧ asked trace host item
  | _ => True
  end.

Definition core_inv (trace : list (request * response)) (q : PreviewPullQueue) : Prop :=
  ∃ evs, pull_inv evs q ∧ (∀ host item, EAsked host item ∈ evs → asked trace host item) ∧
    (∀ gid host data, EAnswered gid host data ∈ evs → answered trace gid host data).

Lemma asked_grow trace x host item : asked trace host item → asked (trace ++ [x]) host item.
Proof. intros (? & kid & nonce & ttl & now & entry & ?). split; [done|]. exists kid, nonce, ttl, now, entry. apply elem_of_app. by left. Qed.

Lemma answered_grow trace x gid host data : answered trace gid host data → answered (trace ++ [x]) gid host data.
Proof.
  intros (hosts & cap & fp & r & d & ? & ?). exists hosts, cap, fp, r, d. split; [apply elem_of_app; by left|done].
Qed.

(** Events that a longer trace accounts for. *)
Lemma core_inv_events trace x evs es q :
  pull_inv (evs ++ es) q →
  (∀ host item, EAsked host item ∈ evs → asked trace host item) →
  (∀ gid host data, EAnswered gid host data ∈ evs → answered trace gid host data) →
  (∀ host item, EAsked host item ∈ es → asked (trace ++ [x]) host item) →
  (∀ gid host data, EAnswered gid host data ∈ es → answered (trace ++ [x]) gid host data) →
  core_inv (trace ++ [x]) q.
Proof.
  intros Hinv Ha Hs Ha' Hs'. exists (evs ++ es). split_and!; [done|..].
  - intros host item [Hin|Hin]%elem_of_app; [by apply asked_grow, Ha|by apply Ha'].
  - intros gid host data [Hin|Hin]%elem_of_app; [by apply answered_grow, Hs|by apply Hs'].
Qed.

Lemma core_inv_same trace x q : core_inv trace q → core_inv (trace ++ [x]) q.
Proof.
  intros (evs & Hinv & Ha & Hs). apply core_inv_events with (evs := evs) (es := []); [by rewrite app_nil_r|done|done|..];
    by intros * ?%elem_of_nil.
Qed.

Lemma fetch_explained trace q kid gid nonce ttl max_bytes now entry resp q' :
  core_inv trace q → core_step (RFetch kid gid nonce ttl max_bytes now entry) q = (resp, q') →
  core_inv (trace ++ [(RFetch kid gid nonce ttl max_bytes now entry, resp)]) q'.
Proof.
  intros Hinv. cbn [core_step]. unfold fetch_start. cbv zeta. 
  match goal with |- context [enqueue ?host ?item q] => destruct (enqueue host item q) as [q1|e] eqn:Eq end;
    cbn; intros [= <- <-]; [|by apply core_inv_same].
  destruct Hinv as (evs & Hinv & Ha & Hs). eapply core_inv_events; [by eapply pq_enqueue_inv|done|done|..].
  - intros h item [= -> ->]%list_elem_of_singleton. split; [done|]. exists kid, nonce, ttl, now, entry. apply elem_of_app. right. left.
  - by intros ? ? ? ?%list_elem_of_singleton.
Qed.

Lemma poll_explained trace q hosts gets fingerprint now resp q' :
  core_inv trace q → core_step (RPoll hosts gets fingerprint now) q = (resp, q') →
  explained trace (RPoll hosts gets fingerprint now, resp) ∧ core_inv (trace ++ [(RPoll hosts gets fingerprint now, resp)]) q'.
Proof.
  intros Hinv. cbn [core_step poll_preview_grant]. destruct (_resolve_host_name hosts fingerprint) as [host|e] eqn:Eh.
  2: { intros [= <- <-]. split; [done|by apply core_inv_same]. }
  destruct (poll gets host _ now q) as [item q1] eqn:Ep. intros [= <- <-]. destruct Hinv as (evs & Hinv & Ha & Hs).
  eapply pq_poll_inv in Ep as [Hq1 Hitem]; [|exact Hinv]. split.
  - destruct item as [item|]; [|done]. destruct Hitem as [Hin Hnow]. exists host. split; [done|]. split; [by apply Ha|exact Hnow].
  - apply core_inv_same. by exists evs.
Qed.

Lemma serve_explained trace q hosts cap fingerprint r resp q' :
  core_inv trace q → core_step (RServe hosts cap fingerprint r) q = (resp, q') →
  core_inv (trace ++ [(RServe hosts cap fingerprint r, resp)]) q'.
Proof.
  intros Hinv. cbn [core_step serve_preview_grant mbind result_bind].
  assert (core_inv (trace ++ [(RServe hosts cap fingerprint r, resp)]) q) as Hsame by by apply core_inv_same.
  destruct (_resolve_host_name hosts fingerprint) as [host|] eqn:Eh; cbn [mbind result_bind]; [|by intros [= <- <-]].
  assert (∀ out q1, resolve (sr_grant_id r) host out q = Ok q1 → resp = RsServe (Ok ()) →
    (∀ data, out = inl data → ∃ d, data_b64 r = Some d ∧ b64_strict d = Some data ∧ Z.of_nat (String.length data) <= cap) →
    core_inv (trace ++ [(RServe hosts cap fingerprint r, resp)]) q1) as Hres.
  { intros out q1 Hr -> Hd. destruct Hinv as (evs & Hinv & Ha & Hs). eapply pq_resolve_inv in Hr as [_ Hq1]; [|exact Hinv].
    eapply core_inv_events; [exact Hq1|done|done|..].
    - intros ? ?. destruct out; [by intros ?%list_elem_of_singleton|by intros ?%elem_of_nil].
    - intros gid h data. destruct out as [data'|]; [|by intros ?%elem_of_nil]. intros [= -> -> ->]%list_elem_of_singleton.
      destruct (Hd _ eq_refl) as (d & ? & ? & ?). exists hosts, cap, fingerprint, r, d.
      split_and!; [apply elem_of_app; right; left|done..]. }
  destruct (sr_error r) as [e|].
  { destruct (resolve _ host (inr e) q) as [q1|[]] eqn:Er; cbn; intros [= <- <-]; try done. by eapply Hres. }
  destruct (data_b64 r) as [d|] eqn:Ed; [|by intros [= <- <-]]. destruct (_ <? _); [by intros [= <- <-]|].
  destruct (b64_strict d) as [data|] eqn:Eb; [|by intros [= <- <-]].
  destruct (Z.ltb_spec cap (Z.of_nat (String.length data))); [by intros [= <- <-]|].
  destruct (resolve _ host (inl data) q) as [q1|[]] eqn:Er; cbn; intros [= <- <-]; try done.
  eapply Hres; [exact Er|done|]. intros ? [= <-]. by exists d.
Qed.

Lemma end_explained trace q gid resp q' :
  core_inv trace q → core_step (REnd gid) q = (resp, q') →
  explained trace (REnd gid, resp) ∧ core_inv (trace ++ [(REnd gid, resp)]) q'.
Proof.
  intros (evs & Hinv & Ha & Hs). cbn [core_step]. unfold fetch_end. destruct (finish gid q) as [o q1] eqn:Ef.
  eapply pq_finish_inv in Ef as [Hq1 Hev]; [|exact Hinv].
  assert (core_inv (trace ++ [(REnd gid, resp)]) q1) as Hc by (apply core_inv_same; by exists evs).
  destruct o as [[data|reason]|]; intros [= <- <-]; split; try done.
  destruct Hev as (host & item & ? & ? & ?). exists host, item. split; [by apply Hs|]. split; [done|by apply Ha].
Qed.

(** C9: Whatever the requests and their order: the core hands a grant only to the host it was minted for, and before it expires; and a
    pull returns only bytes that the host of its grant sent for it, within the cap of that reply. *)
Theorem pull_trace_explained reqs trace q tr x tr' :
  core_run reqs [] empty_pull = (trace, q) → trace = tr ++ x :: tr' → explained tr x.
Proof.
  enough (∀ tr0 q0, core_inv tr0 q0 → (∀ tr x tr', tr0 = tr ++ x :: tr' → explained tr x) →
    core_run reqs tr0 q0 = (trace, q) → ∀ tr x tr', trace = tr ++ x :: tr' → explained tr x) as Hgen.
  { intros Hrun Heq. refine (Hgen [] empty_pull _ _ Hrun _ _ _ Heq); [|by intros [] ? ?].
    exists []. split_and!; [|by intros * ?%elem_of_nil..].
    split; cbn; [intros ? ?; unfold _queue_for; cbn; rewrite lookup_empty; by intros ?%elem_of_nil|intros ? ?; by rewrite lookup_empty..]. }
  clear. induction reqs as [|req reqs IH]; intros tr0 q0 Hinv Hold Hrun; cbn [core_run] in Hrun; [by injection Hrun as <- <-|].
  destruct (core_step req q0) as [resp q1] eqn:Es.
  assert (explained tr0 (req, resp) ∧ core_inv (tr0 ++ [(req, resp)]) q1) as [Hx Hinv1].
  { destruct req; [split; [done|by eapply fetch_explained]|by eapply poll_explained|split; [done|by eapply serve_explained]|by eapply end_explained]. }
  eapply IH; [exact Hinv1| |exact Hrun]. intros tr x tr' Heq.
  destruct tr' as [|y tr' _] using rev_ind.
  - apply app_inj_tail in Heq as [-> <-]. exact Hx.
  - rewrite app_comm_cons, app_assoc in Heq. apply app_inj_tail in Heq as [-> _]. by eapply Hold.
Qed.
End CoreRuns.

(** ** A pull from end to end *)

Lemma take_s_all n s : Z.of_nat (String.length s) <= n → take_s n s = s.
Proof.
  unfold take_s. intros H. assert (String.length s <= Z.to_nat n)%nat as Hn by lia. revert Hn. generalize (Z.to_nat n). clear.
  intros n. revert s. induction n as [|n IH]; intros [|c s] Hn; cbn in *; [done|lia|done|]. by rewrite IH by lia.
Qed.

(** A reply within the cap is accepted. *)
Lemma serve_accepts hosts cap fingerprint host gid data (q : PreviewPullQueue) :
  _resolve_host_name hosts fingerprint = Ok host → 0 <= cap → Z.of_nat (String.length data) <= cap →
  _results q !! gid = Some Waiting → _issued_to q !! gid = Some host →
  ∃ q1 q2, serve_preview_grant hosts cap fingerprint (mk_serve gid (Some (b64encode data)) None) (Some q) = Ok (Some q1) ∧
    fetch_end gid q1 = (Some (Ok data), q2).
Proof.
  intros Hh Hc Hl Hr Hi. unfold serve_preview_grant. rewrite Hh. cbn [mbind result_bind sr_error data_b64 sr_grant_id].
  rewrite b64_length. rewrite (proj2 (Z.ltb_ge _ _)) by (assert ((Z.of_nat (String.length data) + 2) / 3 <= (cap + 2) / 3) by (apply Z.div_le_mono; lia); lia).
  rewrite b64_strict_encode, (proj2 (Z.ltb_ge _ _)) by done.
  destruct (resolve_finish gid host data q Hr Hi) as (q1 & q2 & -> & Hf). cbn. exists q1, q2. split; [done|]. unfold fetch_end. by rewrite Hf.
Qed.

(** What the agent posts for a grant of its own that it can honour. *)
Lemma handle_reads {St} `{NonceStoreLaws St} blake3_hex os_open ed_sign ed_verify server g max_bytes now (st st' : St) ino content :
  (∀ m, ed_verify (ed_sign m) m = true) → fg_host_id g = gs_host_id server →
  instant (as_utc (fg_issued_at g)) <= instant now < instant (as_utc (fg_expires_at g)) →
  consume (fg_nonce g) (grant_id g) st = (Ok true, st') → fg_inode g ≠ 0 → os_open (fg_path g) = Some (ino, Some content) →
  _to_signed64 ino = fg_inode g → 0 < max_bytes → Z.of_nat (String.length content) <= max_bytes →
  (∀ h, fg_content_hash g = Some h → blake3_hex content = h) →
  handle_one blake3_hex os_open ed_verify server (sign ed_sign (gs_key_id server) g, max_bytes) now st =
  (Some (mk_serve (grant_id g) (Some (b64encode content)) None), st').
Proof.
  intros Hs Hh Ht Hc Hi Ho Hino Hm Hl Hb. unfold handle_one, serve. cbn [fst snd]. rewrite <- Hh.
  change (fg_host_id g) with (en_host g). rewrite (verify_signed ed_verify ed_sign (gs_key_id server) now g st) by done.
  cbn [en_nonce en_ref grant_envelope]. rewrite Hc. unfold _read. cbn [re_inode re_path re_content_hash].
  rewrite (proj2 (Z.eqb_neq _ _)), Ho, (proj2 (Z.eqb_eq _ _)) by done. cbn [negb].
  rewrite read_loop_spec by (unfold read_fuel; lia). rewrite take_s_all by lia. cbv zeta.
  destruct (fg_content_hash g) as [h|]; [|done]. rewrite (Hb h), (bool_decide_true (h = h)) by done. by rewrite andb_false_r.
Qed.

(** C10: A pull completes: the file of a fetch comes back whole when the host it belongs to polls before the grant expires, whatever
    expired grants of others it has to pass over, and reads it in time. *)
Theorem pull_completes {St} `{NonceStoreLaws St} blake3_hex os_open ed_sign ed_verify server hosts fingerprint
    gid nonce ttl max_bytes now t1 t2 entry (q q1 : PreviewPullQueue) signed gets (st st' : St) ino content :
  (∀ m, ed_verify (ed_sign m) m = true) →
  gs_host_id server = re_host_name entry → re_host_name entry ≠ "" → _resolve_host_name hosts fingerprint = Ok (re_host_name entry) →
  fetch_start ed_sign (gs_key_id server) gid nonce ttl max_bytes now entry q = Ok (signed, q1) →
  Forall (λ i, _expired i t1 = true ∧ qi_id i ≠ gid) (_queue_for (re_host_name entry) q) →
  (length (_queue_for (re_host_name entry) q) < gets)%nat →
  instant t1 < instant (as_utc (dt_add now (seconds ttl))) →
  instant (as_utc now) <= instant t2 < instant (as_utc (dt_add now (seconds ttl))) →
  consume nonce gid st = (Ok true, st') →
  re_inode entry ≠ 0 → os_open (re_path entry) = Some (ino, Some content) → _to_signed64 ino = re_inode entry →
  0 < max_bytes → Z.of_nat (String.length content) <= max_bytes → (∀ h, re_content_hash entry = Some h → blake3_hex content = h) →
  ∃ q2 reply q3 q4,
    poll_preview_grant hosts gets fingerprint t1 (Some q1) = (Ok (Some (signed, max_bytes)), Some q2) ∧
    handle_one blake3_hex os_open ed_verify server (signed, max_bytes) t2 st = (Some reply, st') ∧
    serve_preview_grant hosts max_bytes fingerprint reply (Some q2) = Ok (Some q3) ∧
    fetch_end gid q3 = (Some (Ok content), q4).
Proof.
  intros Hs Hsrv Hne Hhost Hf Hstale Hgets Ht1 Ht2 Hc Hi Ho Hino Hm Hl Hb.
  unfold fetch_start in Hf. rewrite (bool_decide_false (re_host_name entry = "")) in Hf by done. cbv zeta in Hf.
  set (g := mk_grant _ _ _ _ _ _ _ _ _ _) in Hf. unfold enqueue in Hf. cbn [qi_id grant_queued fst body sign grant_id g] in Hf.
  destruct (_results q !! gid) eqn:Er; cbn [mbind result_bind] in Hf; [done|]. injection Hf as <- <-.
  set (q1 := mk_pull _ _ _).
  destruct (poll_reaches (_queue_for (re_host_name entry) q) gets (re_host_name entry) "grant expired before an agent claimed it" t1 q1
    (sign ed_sign (gs_key_id server) g, max_bytes) []) as (q2 & Hp & Hr2 & Hi2).
  { unfold _queue_for at 1. cbn. by rewrite lookup_insert_eq. }
  { exact Hstale. }
  { unfold _expired. cbn [qi_expires grant_queued fst body sign fg_expires_at g]. by apply Z.leb_gt. }
  { done. }
  destruct (serve_accepts hosts max_bytes fingerprint (re_host_name entry) gid content q2) as (q3 & q4 & H3 & H4); [done|lia|done|..].
  { etransitivity; [exact Hr2|]. apply lookup_insert_eq. }
  { rewrite Hi2. apply lookup_insert_eq. }
  exists q2, (mk_serve gid (Some (b64encode content)) None), q3, q4. split_and!; [|by eapply (handle_reads _ _ _ _ _ g)|exact H3|exact H4].
  unfold poll_preview_grant. rewrite Hhost. by rewrite Hp.
Qed.

(** ** Witnesses *)

Definition wit_time (s : Z) : datetime := mk_datetime (s * 1000000) (Some 0).
Definition wit_entry : ResolvedEntry := mk_resolved 7 1 2 "/data/a.txt" (-3) (Some "h5") "nas".
Definition wit_open (p : string) : option (Z * option string) :=
  if bool_decide (p = "/data/a.txt") then Some (2 ^ 64 - 3, Some "hello") else None.
Definition wit_hash (s : string) : string := "h" +:+ pretty (String.length s).
Definition wit_sign (m : string) : string := m.
Definition wit_verify (sig m : string) : bool := bool_decide (sig = m).
Definition wit_server : PreviewGrantServer := mk_server "core-1" "/var/lib/agent/.preview-nonce-ledger.sqlite" "nas".
Definition wit_hosts : list Host := [mk_host 1 "nas" None None "fp" None None None None].

Definition wit_started : option (SignedFileGrant * PreviewPullQueue) :=
  match fetch_start wit_sign "core-1" "g1" "0123456789abcdef" 30 100 (wit_time 1000) wit_entry empty_pull with Ok x => Some x | Err _ => None end.
Definition wit_signed : SignedFileGrant :=
  sign wit_sign "core-1" (mk_grant "g1" 7 "nas" 2 (-3) "/data/a.txt" (Some "h5") "0123456789abcdef" (wit_time 1000) (wit_time 1030)).

Lemma serve_spec_witness :
  ∃ st', serve wit_hash wit_open wit_verify wit_server wit_signed 100 (wit_time 1010) (mk_mem ∅) = (Ok "hello", st') ∧
    fg_inode (body wit_signed) ≠ 0.
Proof.
  destruct (serve wit_hash wit_open wit_verify wit_server wit_signed 100 (wit_time 1010) (mk_mem ∅)) as [r st'] eqn:E.
  assert (r = Ok "hello") as -> by (change r with (r, st').1; rewrite <- E; vm_compute; reflexivity).
  exists st'. split; [done|].
  apply (serve_spec wit_hash wit_open wit_verify wit_server wit_signed 100 (wit_time 1010) (mk_mem ∅) st' (Ok "hello") ltac:(lia) E).
Defined.

Definition wit_requests : list request :=
  [RFetch "core-1" "g1" "0123456789abcdef" 30 100 (wit_time 1000) wit_entry; RPoll wit_hosts 3 "fp" (wit_time 1005);
   RServe wit_hosts 100 "fp" (mk_serve "g1" (Some (b64encode "hello")) None); REnd "g1"].

Lemma pull_trace_explained_witness :
  ∃ tr, core_run wit_sign wit_requests [] empty_pull = (tr ++ [(REnd "g1", RsEnd (Some (Ok "hello")))], (core_run wit_sign wit_requests [] empty_pull).2) ∧
    explained tr (REnd "g1", RsEnd (Some (Ok "hello"))).
Proof.
  destruct (core_run wit_sign wit_requests [] empty_pull) as [trace q] eqn:E.
  exists (take 3 trace). assert (trace = take 3 trace ++ [(REnd "g1", RsEnd (Some (Ok "hello")))]) as Ht.
  { change trace with (trace, q).1. rewrite <- E. vm_compute. reflexivity. }
  split; [by rewrite <- Ht|]. exact (pull_trace_explained wit_sign wit_requests trace q _ _ [] E Ht).
Defined.

Lemma pull_completes_witness :
  match wit_started with
  | Some (signed, q1) => ∃ q2 reply q3 q4,
      poll_preview_grant wit_hosts 3 "fp" (wit_time 1005) (Some q1) = (Ok (Some (signed, 100)), Some q2) ∧
      handle_one wit_hash wit_open wit_verify wit_server (signed, 100) (wit_time 1010) (mk_mem ∅) =
        (Some reply, mk_mem {["0123456789abcdef"]}) ∧
      serve_preview_grant wit_hosts 100 "fp" reply (Some q2) = Ok (Some q3) ∧ fetch_end "g1" q3 = (Some (Ok "hello"), q4)
  | None => False
  end.
Proof.
  destruct (fetch_start wit_sign "core-1" "g1" "0123456789abcdef" 30 100 (wit_time 1000) wit_entry empty_pull) as [[signed q1]|] eqn:E;
    unfold wit_started; rewrite E; [|vm_compute in E; discriminate E].
  apply (pull_completes wit_hash wit_open wit_sign wit_verify wit_server wit_hosts "fp" "g1" "0123456789abcdef" 30 100
    (wit_time 1000) (wit_time 1005) (wit_time 1010) wit_entry empty_pull q1 signed 3 (mk_mem ∅) (mk_mem {["0123456789abcdef"]})
    (2 ^ 64 - 3) "hello"); try done.
  - intros m. unfold wit_verify, wit_sign. by rewrite bool_decide_true.
  - unfold _queue_for. change (_queues empty_pull) with (∅ : gmap string (list PolledGrant)). rewrite lookup_empty. cbn. lia.
  - by intros h [= <-].
Defined.
