(* ===== verification/Preview.v ===== *)
(** Previews ([src/fathom/preview/types.py], [preview/cache.py], [preview/service.py], [preview/remote_driver.py]): the type of a
    file by its magic bytes, the encrypted cache, the render pipeline and its transport to a worker.

    Fernet and the JSON of pydantic are parameters; so are the fetcher of a file and the sandbox that decodes it, which
    [PreviewService] is built with.  Bytes are strings of 8-bit characters. *)

From stdpp Require Import gmap.
From S2P Require Import Prelude PyStr PyDict Json Signing Walk Envelope PreviewPull.

Local Open Scope Z_scope.


(** ** [preview/types.py] *)

Inductive SupportedType := IMAGE | PDF | OFFICE | TEXT | CODE | MARKDOWN.

#[export] Instance SupportedType_eq_dec : EqDecision SupportedType.
Proof. solve_decision. Defined.

Definition type_value (t : SupportedType) : string :=
  match t with IMAGE => "image" | PDF => "pdf" | OFFICE => "office" | TEXT => "text" | CODE => "code" | MARKDOWN => "markdown" end.

(** A literal of bytes. *)
Definition bytes (l : list N) : string := foldr (λ n, String (ascii_of_N n)) "" l.

Definition _IMAGE_MAGIC : list string :=
  [bytes [255; 216; 255]%N; bytes [137]%N +:+ "PNG" +:+ bytes [13; 10; 26; 10]%N; "GIF87a"; "GIF89a"; "BM";
   "II*" +:+ bytes [0]%N; "MM" +:+ bytes [0]%N +:+ "*"].
Definition _PDF_MAGIC : string := "%PDF-".
Definition _ZIP_MAGIC : string := "PK" +:+ bytes [3; 4]%N.
Definition _OLE2_MAGIC : string := bytes [208; 207; 17; 224; 161; 177; 26; 225]%N.

Definition printable_byte (c : ascii) : bool :=
  let b := code c in bool_decide (b ∈ [9; 10; 13]) || ((32 <=? b) && (b <=? 126)) || (128 <=? b).

Fixpoint count_s (P : ascii → bool) (s : string) : nat :=
  match s with "" => O | String c s => (if P c then S (count_s P s) else count_s P s) end.

(** The quotient is compared with 0.85 as a float; at the lengths that are sniffed that is the comparison of the fractions. *)
Definition _looks_like_text (prefix : string) : bool :=
  if bool_decide (prefix = "") then false
  else if has_char (ascii_of_N 0) prefix then false
  else 17 * Z.of_nat (String.length prefix) <? 20 * Z.of_nat (count_s printable_byte prefix).

Definition detect_type (prefix : string) : option SupportedType :=
  if existsb (λ m, startswith m prefix) _IMAGE_MAGIC then Some IMAGE
  else if startswith _PDF_MAGIC prefix then Some PDF
  else if startswith _OLE2_MAGIC prefix || startswith _ZIP_MAGIC prefix then Some OFFICE
  else if _looks_like_text prefix then Some TEXT
  else None.

Record PreviewArtifact := mk_artifact { pa_kind : string; media_type : string; pa_data : string; pa_meta : list (string * json) }.

Record PreviewResult := mk_result {
  pr_entry_id : Z; pr_type : SupportedType; artifacts : list PreviewArtifact; cache_hit : bool; sandbox_job_id : string;
}.

#[export] Instance json_eq : EqDecision json := json_eq_dec.

#[export] Instance PreviewArtifact_eq_dec : EqDecision PreviewArtifact.
Proof. solve_decision. Defined.

#[export] Instance PreviewResult_eq_dec : EqDecision PreviewResult.
Proof. solve_decision. Defined.

Definition with_hit (hit : bool) (r : PreviewResult) : PreviewResult :=
  mk_result (pr_entry_id r) (pr_type r) (artifacts r) hit (sandbox_job_id r).
Definition with_entry (id : Z) (r : PreviewResult) : PreviewResult :=
  mk_result id (pr_type r) (artifacts r) (cache_hit r) (sandbox_job_id r).

Record ResourceCaps := mk_caps { max_pages : Z; max_decompressed_bytes : Z }.

(** ** [preview/cache.py] *)

Definition derive_cache_key (content_hash render_params : string) : string := content_hash +:+ ":" +:+ render_params.

Record _Entry := mk_centry { ciphertext : string; ce_expires_at : Z; ce_size : Z }.

(** The least recently used entry is first. *)
Record EncryptedLruCache := mk_cache { _store : list (string * _Entry); _hits : Z; _misses : Z }.

Definition empty_cache : EncryptedLruCache := mk_cache [] 0 0.

Inductive CacheError := SerializationError | ValidationError.

Definition move_to_end (key : string) (e : _Entry) (d : list (string * _Entry)) : list (string * _Entry) := dict_pop key d ++ [(key, e)].

Section Cache.
(** [Fernet(key)], with the time and the IV of a token as its first argument. *)
Context (encrypt : string → string → string) (decrypt : string → option string).

(** [model_dump_json] and [model_validate_json]. *)
Context (dump_json : PreviewResult → option string) (load_json : string → option PreviewResult).
Context (max_entries default_ttl : Z).

Definition get (now : Z) (key : string) (c : EncryptedLruCache) : result CacheError (option PreviewResult) * EncryptedLruCache :=
  match dict_get key (_store c) with
  | None => (Ok None, mk_cache (_store c) (_hits c) (_misses c + 1))
  | Some e =>
      if ce_expires_at e <=? now then (Ok None, mk_cache (dict_pop key (_store c)) (_hits c) (_misses c + 1)) else
      let c := mk_cache (move_to_end key e (_store c)) (_hits c + 1) (_misses c) in
      match decrypt (ciphertext e) with
      | None => (Ok None, mk_cache (dict_pop key (_store c)) (_hits c) (_misses c + 1))
      | Some plaintext =>
          match load_json plaintext with
          | Some r => (Ok (Some (with_hit true r)), c)
          | None => (Err ValidationError, c)
          end
      end
  end.

(** [while len(self._store) > self._max_entries: popitem(last=False)]. *)
Fixpoint evict (d : list (string * _Entry)) : list (string * _Entry) :=
  match d with
  | [] => []
  | x :: rest => if max_entries <? Z.of_nat (length d) then evict rest else d
  end.

Definition put (now : Z) (iv key : string) (r : PreviewResult) (ttl_seconds : option Z) (c : EncryptedLruCache)
    : result CacheError Z * EncryptedLruCache :=
  match dump_json r with
  | None => (Err SerializationError, c)
  | Some plaintext =>
      let ciphertext := encrypt iv plaintext in
      let size := Z.of_nat (String.length ciphertext) in
      let e := mk_centry ciphertext (now + default default_ttl ttl_seconds) size in
      (Ok size, mk_cache (evict (move_to_end key e (dict_set key e (_store c)))) (_hits c) (_misses c))
  end.

Definition stats (c : EncryptedLruCache) : Z * Z := (_hits c, _misses c).

Definition clear (c : EncryptedLruCache) : EncryptedLruCache := mk_cache [] (_hits c) (_misses c).

(** ** [preview/service.py] *)

Definition _SNIFF_BYTES : Z := 4096.

Inductive RenderError := Preview (e : PreviewError) | Cache (e : CacheError).

Definition preview_error {A} (reason : string) (status : Z) : result RenderError A := Err (Preview (mk_preview_error reason status)).

Context (fetch : ResolvedEntry → Z → result PreviewError string).
Context (driver_run : string → SupportedType → ResourceCaps → string → result PreviewError (list PreviewArtifact)).
Context (caps : ResourceCaps) (max_input_bytes cache_ttl : Z).

Definition _render_params : string := "v1:pages=" +:+ pretty (max_pages caps).

(** A fresh render: what [render] does after a miss, with the key to store it under. *)
Definition render_miss (cache_key : option string) (now : Z) (iv : string) (entry : ResolvedEntry) (job_id : string) (c : EncryptedLruCache)
    : result RenderError (PreviewResult * Z) * EncryptedLruCache :=
  match fetch entry max_input_bytes with
  | Err e => (Err (Preview e), c)
  | Ok raw =>
      if max_input_bytes <? Z.of_nat (String.length raw) then (preview_error "file exceeds preview input cap" 413, c) else
      match detect_type (take_s _SNIFF_BYTES raw) with
      | None => (preview_error "unsupported preview type" 415, c)
      | Some detected =>
          match driver_run raw detected caps job_id with
          | Err e => (Err (Preview e), c)
          | Ok arts =>
              let result := mk_result (re_entry_id entry) detected arts false job_id in
              match cache_key with
              | None => (Ok (result, 0), c)
              | Some key =>
                  match put now iv key result (Some cache_ttl) c with
                  | (Ok size, c) => (Ok (result, size), c)
                  | (Err e, c) => (Err (Cache e), c)
                  end
              end
          end
      end
  end.

(** The clock of the lookup and of the store are two readings. *)
Definition render (now now' : Z) (iv : string) (entry : ResolvedEntry) (job_id : string) (c : EncryptedLruCache)
    : result RenderError (PreviewResult * Z) * EncryptedLruCache :=
  match truthy (re_content_hash entry) with
  | None => render_miss None now' iv entry job_id c
  | Some h =>
      let key := derive_cache_key h _render_params in
      match get now key c with
      | (Ok (Some hit), c) => (Ok (with_entry (re_entry_id entry) hit, 0), c)
      | (Ok None, c) => render_miss (Some key) now' iv entry job_id c
      | (Err e, c) => (Err (Cache e), c)
      end
  end.
End Cache.

(** ** [preview/remote_driver.py] *)

Record WireArtifact := mk_wire { w_kind : string; w_media_type : string; w_data_b64 : string; w_meta : list (string * json) }.

(** [WireArtifact.of] and [to_artifact]; [None] is the error of a string that is no base64. *)
Definition wire_of (a : PreviewArtifact) : WireArtifact := mk_wire (pa_kind a) (media_type a) (b64encode (pa_data a)) (pa_meta a).
Definition to_artifact (w : WireArtifact) : option PreviewArtifact :=
  (λ d, mk_artifact (w_kind w) (w_media_type w) d (w_meta w)) <$> b64decode (w_data_b64 w).

Record RenderRequest := mk_render { rq_job_id : string; rq_type : SupportedType; rq_caps : ResourceCaps; rq_data_b64 : string }.

(** The worker. *)
Definition render_request (driver : string → SupportedType → ResourceCaps → string → result PreviewError (list PreviewArtifact))
    (rq : RenderRequest) : result PreviewError (list WireArtifact) :=
  match b64_strict (rq_data_b64 rq) with
  | None => Err (mk_preview_error "malformed render payload" 400)
  | Some raw =>
      match driver raw (rq_type rq) (rq_caps rq) (rq_job_id rq) with
      | Ok arts => Ok (wire_of <$> arts)
      | Err e => Err e
      end
  end.

(** What the transport raised: an error of the render, or anything else. *)
Inductive TransportError := Rendered (e : PreviewError) | Unreachable.

(** [HttpRenderTransport.post_render]: the reply of the worker, by its status; [None] is no reply or not a [RenderResponse]. *)
Definition post_render (reply : option (Z * option (list WireArtifact))) : result TransportError (list WireArtifact) :=
  match reply with
  | None => Err Unreachable
  | Some (status, body) =>
      if status =? 504 then Err (Rendered (mk_preview_error "preview render timed out on the worker" 504))
      else if 500 <=? status then Err (Rendered (mk_preview_error ("preview worker returned HTTP " +:+ pretty status) 502))
      else if negb ((200 <=? status) && (status <? 300)) then Err Unreachable
      else match body with Some ws => Ok ws | None => Err Unreachable end
  end.

(** [None]: a payload the request refuses, or an artifact that does not decode. *)
Definition remote_run (transport : RenderRequest → result TransportError (list WireArtifact))
    (raw : string) (detected : SupportedType) (caps : ResourceCaps) (job_id : string) : option (result PreviewError (list PreviewArtifact)) :=
  let rq := mk_render job_id detected caps (b64encode raw) in
  if negb (within 1 256 job_id) || bool_decide (rq_data_b64 rq = "") then None else
  match transport rq with
  | Err (Rendered e) => Some (Err e)
  | Err Unreachable => Some (Err (mk_preview_error "preview render worker unreachable" 502))
  | Ok ws => Ok <$> mapM to_artifact ws
  end.

(** ** Laws of the cache *)

Section CacheLaws.
Context (encrypt : string → string → string) (decrypt : string → option string).
Context (dump_json : PreviewResult → option string) (load_json : string → option PreviewResult).
Context (max_entries default_ttl : Z).
Context (Hfernet : ∀ iv s, decrypt (encrypt iv s) = Some s).
Context (Hjson : ∀ r s, dump_json r = Some s → load_json s = Some r).

Inductive cache_op := CGet (now : Z) (key : string) | CPut (now : Z) (iv key : string) (r : PreviewResult) (ttl : option Z).

Definition cache_step (op : cache_op) (c : EncryptedLruCache) : EncryptedLruCache :=
  match op with
  | CGet now key => (get decrypt load_json now key c).2
  | CPut now iv key r ttl => (put encrypt dump_json max_entries default_ttl now iv key r ttl c).2
  end.

Definition cache_run (ops : list cache_op) (c : EncryptedLruCache) : EncryptedLruCache := foldl (λ c op, cache_step op c) c ops.

(** The last store under a key, and when it lapses. *)
Definition stored_by (key : string) (op : cache_op) : option (PreviewResult * Z) :=
  match op with
  | CPut now _ k r ttl => if bool_decide (k = key) && bool_decide (dump_json r ≠ None) then Some (r, now + default default_ttl ttl) else None
  | CGet _ _ => None
  end.

Definition last_put (key : string) (ops : list cache_op) : option (PreviewResult * Z) :=
  foldl (λ acc op, match stored_by key op with Some x => Some x | None => acc end) None ops.

Lemma last_put_snoc key ops op :
  last_put key (ops ++ [op]) = match stored_by key op with Some x => Some x | None => last_put key ops end.
Proof. unfold last_put. by rewrite foldl_snoc. Qed.

(** What an entry holds. *)
Definition holds (e : _Entry) (r : PreviewResult) (lapse : Z) : Prop :=
  ce_expires_at e = lapse ∧ ∃ s, decrypt (ciphertext e) = Some s ∧ load_json s = Some r.

Record cache_inv (ops : list cache_op) (c : EncryptedLruCache) : Prop := {
  ci_nodup : NoDup (_store c).*1;
  ci_held key e : (key, e) ∈ _store c → ∃ r lapse, last_put key ops = Some (r, lapse) ∧ holds e r lapse;
  ci_bound : Z.of_nat (length (_store c)) <= Z.max 0 max_entries;
}.

Lemma evict_suffix d : ∃ d', d = d' ++ evict max_entries d ∧ Z.of_nat (length (evict max_entries d)) <= Z.max 0 max_entries.
Proof.
  induction d as [|x d (d' & IH & Hb)]; [exists []; split; [done|cbn; lia]|]. cbn [evict].
  destruct (Z.ltb_spec max_entries (Z.of_nat (length (x :: d)))); [|exists []; split; [done|lia]].
  exists (x :: d'). split; [by rewrite IH at 1|done].
Qed.

Lemma elem_of_evict x d : x ∈ evict max_entries d → x ∈ d.
Proof. destruct (evict_suffix d) as (d' & Hd & _). rewrite Hd at 2. intros. apply elem_of_app. by right. Qed.

Lemma NoDup_evict d : NoDup d.*1 → NoDup (evict max_entries d).*1.
Proof. destruct (evict_suffix d) as (d' & Hd & _). rewrite Hd at 1. rewrite fmap_app. by intros (_ & _ & ?)%NoDup_app. Qed.

Lemma move_keys key e d : NoDup d.*1 → NoDup (move_to_end key e d).*1.
Proof.
  intros Hd. unfold move_to_end. rewrite fmap_app. change [(key, e)].*1 with [key]. apply NoDup_app. split_and!; [by apply dict_pop_NoDup| |apply NoDup_singleton].
  intros k Hk ->%list_elem_of_singleton. apply list_elem_of_fmap in Hk as ((k' & e') & -> & Hk%list_elem_of_filter). by destruct Hk.
Qed.

Lemma move_elem key e d k e' : (k, e') ∈ move_to_end key e d ↔ (k = key ∧ e' = e) ∨ (k ≠ key ∧ (k, e') ∈ d).
Proof.
  unfold move_to_end, dict_pop. rewrite elem_of_app, list_elem_of_filter, list_elem_of_singleton. cbn. split.
  - intros [[? ?]|[= -> ->]]; auto.
  - intros [[-> ->]|[? ?]]; auto.
Qed.

Lemma move_length key e d : NoDup d.*1 → dict_get key d = Some e → length (move_to_end key e d) = length d.
Proof.
  intros Hd Hg. assert (Permutation (move_to_end key e d) d) as ->; [|done]. apply NoDup_Permutation.
  - eapply NoDup_fmap_1, (move_keys key e d Hd).
  - by eapply NoDup_fmap_1.
  - intros [k e']. rewrite move_elem. destruct (decide (k = key)) as [->|]; [|naive_solver].
    rewrite (dict_get_elem key e' d Hd), Hg. naive_solver.
Qed.

Lemma get_inv ops now key c : cache_inv ops c → cache_inv (ops ++ [CGet now key]) (get decrypt load_json now key c).2.
Proof.
  intros [Hn Hh Hb].
  assert (∀ d h m, NoDup d.*1 → (∀ k e, (k, e) ∈ d → (k, e) ∈ _store c) → Z.of_nat (length d) <= Z.max 0 max_entries →
    cache_inv (ops ++ [CGet now key]) (mk_cache d h m)) as Hsub.
  { intros d h m Hd Hin Hl. split; [done| |done]. intros k e Hk. destruct (Hh k e (Hin k e Hk)) as (r & lapse & ? & ?).
    exists r, lapse. by rewrite last_put_snoc. }
  unfold get. destruct (dict_get key (_store c)) as [e|] eqn:Eg; [|by apply Hsub].
  assert (∀ d h m, NoDup d.*1 → (∀ k e, (k, e) ∈ d → (k, e) ∈ _store c) → (length d <= length (_store c))%nat →
    cache_inv (ops ++ [CGet now key]) (mk_cache (dict_pop key d) h m)) as Hpop.
  { intros d h m Hd Hin Hl. apply Hsub; [by apply dict_pop_NoDup|..].
    - intros k e' [_ Hk]%list_elem_of_filter. by apply Hin.
    - pose proof (length_filter (λ x : string * _Entry, x.1 ≠ key) d). unfold dict_pop. lia. }
  destruct (_ <=? _); [by apply Hpop|]. pose proof (move_length key e _ Hn Eg) as Hml.
  assert (∀ k e', (k, e') ∈ move_to_end key e (_store c) → (k, e') ∈ _store c) as Hin.
  { intros k e' [[-> ->]|[_ ?]]%move_elem; [by apply dict_get_elem|done]. }
  destruct (decrypt _) as [s|]; [destruct (load_json s)|]; cbn [snd];
    [apply Hsub; [by apply move_keys|done|by rewrite Hml]..|cbn [_store]; apply Hpop; [by apply move_keys|done|by rewrite Hml]].
Qed.

Lemma put_inv ops now iv key r ttl c :
  cache_inv ops c → cache_inv (ops ++ [CPut now iv key r ttl]) (put encrypt dump_json max_entries default_ttl now iv key r ttl c).2.
Proof.
  intros [Hn Hh Hb]. unfold put. destruct (dump_json r) as [s|] eqn:Ed; cbn [snd].
  2: { split; [done| |done]. intros k e Hk. destruct (Hh k e Hk) as (r' & lapse & ? & ?). exists r', lapse. rewrite last_put_snoc. cbn.
       rewrite (bool_decide_false (dump_json r ≠ None)) by (rewrite Ed; tauto). by rewrite andb_false_r. }
  set (e := mk_centry _ _ _). split; cbn [_store].
  - apply NoDup_evict, move_keys, dict_set_NoDup, Hn.
  - intros k e' [[-> ->]|[Hk Hin]]%elem_of_evict%move_elem; rewrite last_put_snoc; cbn.
    + rewrite !bool_decide_true by (done || by rewrite Ed). cbn. eexists _, _. split; [done|]. split; [done|]. exists s. split; [apply Hfernet|by apply Hjson].
    + rewrite (bool_decide_false (key = k)) by done. cbn. apply Hh. rewrite dict_get_elem in Hin |- * by (done || by apply dict_set_NoDup).
      rewrite dict_get_set in Hin. by destruct (decide (key = k)).
  - by destruct (evict_suffix (move_to_end key e (dict_set key e (_store c)))) as (_ & _ & ?).
Qed.

Lemma cache_run_inv ops : cache_inv ops (cache_run ops empty_cache).
Proof.
  induction ops as [|op ops IH] using rev_ind.
  - split; cbn; [constructor|by intros ? ? ?%elem_of_nil|lia].
  - unfold cache_run. rewrite foldl_snoc. destruct op as [now key|now iv key r ttl]; [by apply get_inv|by apply put_inv].
Qed.

(** What a lookup returns, under the invariant. *)
Lemma get_held ops c now key r c' :
  cache_inv ops c → get decrypt load_json now key c = (r, c') →
  match r with
  | Ok (Some hit) => ∃ stored lapse, last_put key ops = Some (stored, lapse) ∧ hit = with_hit true stored ∧ now < lapse
  | Ok None => True
  | Err _ => False
  end.
Proof.
  intros [Hn Hh _] Hg. unfold get in Hg.
  destruct (dict_get key _) as [e|] eqn:Eg; [|by injection Hg as <- <-]. apply dict_get_elem in Eg; [|done].
  destruct (Hh key e Eg) as (stored & lapse & Hl & He & s & Hd & Hj).
  destruct (Z.leb_spec (ce_expires_at e) now); [by injection Hg as <- <-|].
  rewrite Hd, Hj in Hg. injection Hg as <- <-. exists stored, lapse. split_and!; [done..|lia].
Qed.

(** *** Retention *)

Definition op_key (op : cache_op) : string := match op with CGet _ k | CPut _ _ k _ _ => k end.

(** [key] is in the store under [e], and every key used more recently is in [T]. *)
Definition recent (key : string) (e : _Entry) (T : gset string) (d : list (string * _Entry)) : Prop :=
  NoDup d.*1 ∧ ∃ pre post, d = pre ++ (key, e) :: post ∧ ∀ k, k ∈ post.*1 → k ∈ T.

Section Retention.
Context (key : string) (e : _Entry) (T : gset string).
Context (Hkey : key ∉ T) (Hsize : Z.of_nat (size T) < max_entries).

Lemma recent_get d : recent key e T d → dict_get key d = Some e.
Proof. intros (Hn & pre & post & -> & _). apply dict_get_elem; [done|]. apply elem_of_app. right. left. Qed.

Lemma recent_pop k d : k ∈ T → recent key e T d → recent key e T (dict_pop k d).
Proof.
  intros Hk (Hn & pre & post & -> & Hp). split; [by apply dict_pop_NoDup|]. exists (dict_pop k pre), (dict_pop k post). split.
  - unfold dict_pop. rewrite filter_app, filter_cons_True; [done|]. cbn. set_solver.
  - intros k' (x & -> & [_ Hx]%list_elem_of_filter)%list_elem_of_fmap. apply Hp. by apply list_elem_of_fmap_2.
Qed.

Lemma recent_move k e' d : k ∈ T → recent key e T d → recent key e T (move_to_end k e' d).
Proof.
  intros Hk H. pose proof (proj1 H) as Hn. apply (recent_pop k _ Hk) in H as (_ & pre & post & Hd & Hp).
  split; [by apply move_keys|]. exists pre, (post ++ [(k, e')]). unfold move_to_end. rewrite Hd. split; [by rewrite <- app_assoc|].
  intros k' Hk'. rewrite fmap_app in Hk'. apply elem_of_app in Hk' as [?| ->%list_elem_of_singleton]; [by apply Hp|done].
Qed.

Lemma recent_evict d : recent key e T d → recent key e T (evict max_entries d).
Proof.
  intros (Hn & pre & post & -> & Hp). revert Hn. induction pre as [|x pre IH]; intros Hn; cbn [app evict].
  - assert (length post <= size T)%nat as Hl.
    { apply NoDup_cons in Hn as [_ Hn]. rewrite <- (length_fmap fst post), <- (size_list_to_set (C := gset string) post.*1) by done.
      apply subseteq_size. intros k. rewrite elem_of_list_to_set. apply Hp. }
    cbn [length]. rewrite (proj2 (Z.ltb_ge _ _)) by lia. split; [done|]. by exists [], post.
  - destruct (_ <? _); [apply IH; by apply NoDup_cons in Hn as [_ ?]|]. split; [done|]. by exists (x :: pre), post.
Qed.

Lemma pop_set (k : string) (e' : _Entry) d : dict_pop k (dict_set k e' d) = dict_pop k d.
Proof.
  unfold dict_pop. induction d as [|[k' v] d IH]; cbn [dict_set]; [by rewrite filter_cons_False by naive_solver|].
  destruct (decide (k' = k)) as [->|]; [by rewrite !filter_cons_False by naive_solver|]. by rewrite !filter_cons_True, IH by done.
Qed.

Lemma recent_step lapse op c :
  (∃ r, holds e r lapse) → (op_key op ∈ T ∨ ∃ t, op = CGet t key ∧ t < lapse) →
  recent key e T (_store c) → recent key e T (_store (cache_step op c)).
Proof.
  intros (r & <- & s & Hd & Hj) Hop Hr. destruct op as [now k|now iv k r' ttl]; cbn [cache_step op_key] in *.
  - unfold get. destruct Hop as [Hk|(t & [= -> ->] & Ht)].
    + destruct (dict_get k _) as [e'|]; [|done]. destruct (_ <=? _); [by apply recent_pop|].
      repeat case_match; cbn [snd _store]; [by apply recent_move..|by apply recent_pop, recent_move].
    + rewrite (recent_get _ Hr), (proj2 (Z.leb_gt _ _)), Hd, Hj by done. cbn. pose proof (proj1 Hr) as Hn.
      split; [by apply move_keys|]. eexists _, []. split; [done|]. by intros ? ?%elem_of_nil.
  - destruct Hop as [Hk|(t & ? & _)]; [|done]. unfold put. destruct (dump_json r'); cbn [snd _store]; [|done].
    apply recent_evict. unfold move_to_end. rewrite pop_set. by apply recent_move.
Qed.
End Retention.

(** A stored result is still returned after any use of the cache that touches fewer than [max_entries] other keys, until it
    lapses. *)
Lemma cache_retains c1 now iv key r ttl sz c later (T : gset string) now' :
  let lapse := now + default default_ttl ttl in
  NoDup (_store c).*1 → put encrypt dump_json max_entries default_ttl now iv key r ttl c = (Ok sz, c1) →
  key ∉ T → Z.of_nat (size T) < max_entries →
  Forall (λ op, op_key op ∈ T ∨ ∃ t, op = CGet t key ∧ t < lapse) later → now' < lapse →
  (get decrypt load_json now' key (cache_run later c1)).1 = Ok (Some (with_hit true r)).
Proof.
  cbn zeta. intros Hn Hput Hkey Hsize Hlater Hnow. unfold put in Hput. destruct (dump_json r) as [s|] eqn:Ed; [|done].
  injection Hput as _ <-. set (e := mk_centry _ _ _).
  assert (holds e r (now + default default_ttl ttl)) as He by (split; [done|]; exists s; split; [apply Hfernet|by apply Hjson]).
  assert (recent key e T (_store (cache_run later (mk_cache (evict max_entries (move_to_end key e (dict_set key e (_store c)))) (_hits c) (_misses c))))) as Hr.
  { assert (recent key e T (evict max_entries (move_to_end key e (dict_set key e (_store c))))) as H0.
    { apply (recent_evict key e T Hsize). split; [by apply move_keys, dict_set_NoDup|].
      eexists _, []. split; [done|]. by intros ? ?%elem_of_nil. }
    revert H0. generalize (evict max_entries (move_to_end key e (dict_set key e (_store c)))). intros d.
    generalize (_hits c) (_misses c). intros h m Hd. change d with (_store (mk_cache d h m)) in Hd. revert Hd. generalize (mk_cache d h m).
    clear - Hlater He Hkey Hsize Hjson Hfernet. induction Hlater as [|op later Hop _ IH]; intros c Hd; [done|].
    cbn. apply IH. eapply (recent_step key e T Hkey Hsize); [by exists r|exact Hop|exact Hd]. }
  apply recent_get in Hr. destruct He as (Hx & s' & Hd & Hj). unfold get. rewrite Hr, (proj2 (Z.leb_gt _ _)), Hd, Hj by (rewrite Hx; done). done.
Qed.
End CacheLaws.

(** ** Rendering *)

(** Strict UTF-8, as [bytes.decode] takes it. *)
Fixpoint utf8_valid (s : string) : bool :=
  let cont c := (128 <=? code c) && (code c <=? 191) in
  match s with
  | "" => true
  | String a s1 =>
      if code a <? 128 then utf8_valid s1 else
      match s1 with
      | "" => false
      | String b s2 =>
          if (194 <=? code a) && (code a <=? 223) then cont b && utf8_valid s2 else
          match s2 with
          | "" => false
          | String c s3 =>
              if (224 <=? code a) && (code a <=? 239)
              then cont b && cont c && (negb (code a =? 224) || (160 <=? code b)) && (negb (code a =? 237) || (code b <=? 159)) && utf8_valid s3
              else match s3 with
                   | "" => false
                   | String d s4 =>
                       (240 <=? code a) && (code a <=? 244) && cont b && cont c && cont d &&
                       (negb (code a =? 240) || (144 <=? code b)) && (negb (code a =? 244) || (code b <=? 143)) && utf8_valid s4
                   end
          end
      end
  end.

Section RenderLaws.
Context (encrypt : string → string → string) (decrypt : string → option string).
Context (dump_json : PreviewResult → option string) (load_json : string → option PreviewResult).
Context (max_entries default_ttl : Z).
Context (Hfernet : ∀ iv s, decrypt (encrypt iv s) = Some s).
Context (Hjson : ∀ r s, dump_json r = Some s → load_json s = Some r).
Context (fetch : ResolvedEntry → Z → result PreviewError string).
Context (driver_run : string → SupportedType → ResourceCaps → string → result PreviewError (list PreviewArtifact)).
Context (caps : ResourceCaps) (max_input_bytes cache_ttl : Z).

Notation render := (render encrypt decrypt dump_json load_json max_entries default_ttl fetch driver_run caps max_input_bytes cache_ttl).
Notation render_miss := (render_miss encrypt dump_json max_entries default_ttl fetch driver_run caps max_input_bytes cache_ttl).
Notation cache_run := (cache_run encrypt decrypt dump_json load_json max_entries default_ttl).

Definition entry_key (entry : ResolvedEntry) : option string :=
  (λ h, derive_cache_key h (_render_params caps)) <$> truthy (re_content_hash entry).

(** What a fresh render answers. *)
Definition fresh_render (entry : ResolvedEntry) (job_id : string) (r : result RenderError (PreviewResult * Z)) : Prop :=
  match r with
  | Ok (r, size) => ∃ raw, fetch entry max_input_bytes = Ok raw ∧ Z.of_nat (String.length raw) <= max_input_bytes ∧
      detect_type (take_s _SNIFF_BYTES raw) = Some (pr_type r) ∧ driver_run raw (pr_type r) caps job_id = Ok (artifacts r) ∧
      pr_entry_id r = re_entry_id entry ∧ cache_hit r = false ∧ sandbox_job_id r = job_id ∧
      (entry_key entry = None → size = 0)
  | Err (Preview e) => fetch entry max_input_bytes = Err e ∨
      ∃ raw, fetch entry max_input_bytes = Ok raw ∧
        ((pe_status e = 413 ∧ max_input_bytes < Z.of_nat (String.length raw)) ∨
         (pe_status e = 415 ∧ detect_type (take_s _SNIFF_BYTES raw) = None) ∨
         ∃ t, detect_type (take_s _SNIFF_BYTES raw) = Some t ∧ driver_run raw t caps job_id = Err e)
  | Err (Cache SerializationError) => is_Some (entry_key entry) ∧ ∃ r, cache_hit r = false ∧ dump_json r = None
  | Err (Cache ValidationError) => False
  end.

Lemma render_miss_fresh now iv entry job_id c :
  fresh_render entry job_id (render_miss (entry_key entry) now iv entry job_id c).1.
Proof.
  unfold Preview.render_miss, preview_error. destruct (fetch entry max_input_bytes) as [raw|e] eqn:Ef; [|by left].
  destruct (Z.ltb_spec max_input_bytes (Z.of_nat (String.length raw))); [right; exists raw; auto|].
  destruct (detect_type _) as [t|] eqn:Et; [|right; exists raw; auto].
  destruct (driver_run raw t caps job_id) as [arts|e] eqn:Ed; [|right; exists raw; split; [done|]; right; right; by exists t].
  destruct (entry_key entry) as [key|] eqn:Ek; [|exists raw; by split_and!].
  unfold put. destruct (dump_json _) eqn:Ej; cbn [fst fresh_render]; [exists raw; split_and!; try done; by rewrite Ek|].
  split; [by rewrite Ek|]. eexists. split; [|exact Ej]. done.
Qed.

(** Every branch of a render: an unexpired earlier result of the same content, under this entry's id; or a fresh one, which
    was fetched within the cap, had its type detected from its bytes and went through the sandbox; or the error of the step that
    failed. *)
Theorem render_spec ops now now' iv entry job_id r c' :
  render now now' iv entry job_id (cache_run ops empty_cache) = (r, c') →
  (∃ key stored lapse, entry_key entry = Some key ∧ last_put dump_json default_ttl key ops = Some (stored, lapse) ∧ now < lapse ∧
     r = Ok (with_entry (re_entry_id entry) (with_hit true stored), 0)) ∨
  fresh_render entry job_id r.
Proof.
  unfold Preview.render. pose proof (λ now iv c, render_miss_fresh now iv entry job_id c) as Hm. unfold entry_key in *.
  destruct (truthy (re_content_hash entry)) as [h|]; cbn [fmap option_fmap option_map] in *; cycle 1.
  { intros Hr. right. by rewrite <- (f_equal fst Hr : _ = r). }
  destruct (get decrypt load_json now _ _) as [g c] eqn:Eg.
  eapply get_held in Eg as Hg; [|exact (cache_run_inv encrypt decrypt dump_json load_json max_entries default_ttl Hfernet Hjson ops)]. destruct g as [[hit|]|]; [|intros Hr; right; by rewrite <- (f_equal fst Hr : _ = r)|done].
  intros [= <- <-]. left. destruct Hg as (stored & lapse & ? & -> & ?). by exists (derive_cache_key h (_render_params caps)), stored, lapse.
Qed.

(** A fresh render of content with a known hash ends in a store under its key. *)
Lemma render_stores ops now now' iv entry job_id key r size c1 :
  entry_key entry = Some key → render now now' iv entry job_id (cache_run ops empty_cache) = (Ok (r, size), c1) → cache_hit r = false →
  ∃ c, NoDup (_store c).*1 ∧ put encrypt dump_json max_entries default_ttl now' iv key r (Some cache_ttl) c = (Ok size, c1).
Proof.
  unfold entry_key, Preview.render. destruct (truthy (re_content_hash entry)) as [h|]; [|done]. intros [= ->] Hr Hhit.
  destruct (get decrypt load_json now key _) as [g c] eqn:Eg.
  assert (NoDup (_store c).*1) as Hn.
  { change c with (g, c).2. rewrite <- Eg. eapply ci_nodup, (get_inv decrypt dump_json load_json max_entries default_ttl).
    by apply (cache_run_inv encrypt decrypt dump_json load_json max_entries default_ttl). }
  eapply get_held in Eg; [|exact (cache_run_inv encrypt decrypt dump_json load_json max_entries default_ttl Hfernet Hjson ops)].
  destruct g as [[hit|]|]; [|exists c; split; [done|]|done].
  { destruct Eg as (stored & lapse & _ & -> & _). injection Hr as <- <- <-. done. }
  unfold Preview.render_miss, preview_error in Hr. destruct (fetch entry max_input_bytes) as [raw|]; [|done]. destruct (_ <? _); [done|].
  destruct (detect_type _) as [t|]; [|done]. destruct (driver_run raw t caps job_id) as [arts|]; [|done].
  destruct (put _ _ _ _ _ _ _ _ _ _) as [[sz|] c2] eqn:Ep; [|done]. by injection Hr as <- <- <-.
Qed.
End RenderLaws.

(** The cache is what previews are served from: after a fresh render, any entry with the same content is served the same artifacts
    under its own id, from the cache, until they lapse, provided fewer than [max_entries] other keys are used in between, and
    whatever its file, the sandbox and the catalogue say by then. *)
Theorem render_shared encrypt decrypt dump_json load_json max_entries default_ttl fetch driver_run fetch' driver_run' caps
    max_input_bytes cache_ttl ops now1 now1' iv entry job_id key r size c1 later (T : gset string) now2 now2' iv' entry' job_id' :
  (∀ iv s, decrypt (encrypt iv s) = Some s) → (∀ r s, dump_json r = Some s → load_json s = Some r) →
  entry_key caps entry = Some key → entry_key caps entry' = Some key →
  render encrypt decrypt dump_json load_json max_entries default_ttl fetch driver_run caps max_input_bytes cache_ttl now1 now1' iv entry job_id
    (cache_run encrypt decrypt dump_json load_json max_entries default_ttl ops empty_cache) = (Ok (r, size), c1) →
  cache_hit r = false → key ∉ T → Z.of_nat (base.size T) < max_entries →
  Forall (λ op, op_key op ∈ T ∨ ∃ t, op = CGet t key ∧ t < now1' + cache_ttl) later → now2 < now1' + cache_ttl →
  (render encrypt decrypt dump_json load_json max_entries default_ttl fetch' driver_run' caps max_input_bytes cache_ttl now2 now2' iv' entry' job_id'
     (cache_run encrypt decrypt dump_json load_json max_entries default_ttl later c1)).1 =
  Ok (with_entry (re_entry_id entry') (with_hit true r), 0).
Proof.
  intros Hf Hj Hk Hk' Hr Hhit HT Hsize Hlater Hnow. eapply render_stores in Hr as (c & Hn & Hp); [|done..].
  eapply (cache_retains encrypt decrypt dump_json load_json max_entries default_ttl Hf Hj c1 now1' iv key r (Some cache_ttl)) in Hp as Hg; [|done..].
  revert Hk'. unfold entry_key, render. destruct (truthy (re_content_hash entry')) as [h|]; [|done]. intros [= ->].
  destruct (get decrypt load_json now2 key _) as [g c'] eqn:Eg. cbn [fst] in Hg. subst g. done.
Qed.

(** An artifact that is not UTF-8, such as a WebP thumbnail, cannot be cached: when the JSON of a result takes only UTF-8 (pydantic's
    default for bytes), the render of a hashed file fails. *)
Lemma binary_artifact_fails encrypt dump_json max_entries default_ttl fetch driver_run caps max_input_bytes cache_ttl now iv entry job_id key c
    raw t arts :
  (∀ r, dump_json r ≠ None → Forall (λ a, utf8_valid (pa_data a) = true) (artifacts r)) →
  fetch entry max_input_bytes = Ok raw → Z.of_nat (String.length raw) <= max_input_bytes → detect_type (take_s _SNIFF_BYTES raw) = Some t →
  driver_run raw t caps job_id = Ok arts → Exists (λ a, utf8_valid (pa_data a) = false) arts →
  render_miss encrypt dump_json max_entries default_ttl fetch driver_run caps max_input_bytes cache_ttl (Some key) now iv entry job_id c =
  (Err (Cache SerializationError), c).
Proof.
  intros Hu Hf Hl Ht Hd Hx. unfold render_miss. rewrite Hf, (proj2 (Z.ltb_ge _ _)), Ht, Hd by done. unfold put.
  destruct (dump_json _) as [s|] eqn:Ed; [|done]. exfalso.
  match type of Ed with dump_json ?r = _ => pose proof (Hu r) as H; rewrite Ed in H end.
  specialize (H ltac:(done)). cbn [artifacts] in H. rewrite Exists_exists in Hx. destruct Hx as (a & Ha & Hb).
  rewrite Forall_forall in H. specialize (H a Ha). congruence.
Qed.

Example webp_is_not_utf8 : utf8_valid ("RIFF" +:+ bytes [36; 0; 0; 0]%N +:+ "WEBPVP8 " +:+ bytes [24; 0; 0; 0; 48; 1; 0; 157; 1; 42]%N) = false.
Proof. reflexivity. Qed.

(** ** The transport *)

Lemma wire_roundtrip a : to_artifact (wire_of a) = Some a.
Proof. unfold to_artifact. cbn. rewrite b64_roundtrip. by destruct a. Qed.

(** Rendering on the worker is rendering: over a transport that carries the request to [render_request] and its artifacts back, the
    remote driver gives the artifacts of the worker's sandbox, byte for byte, or its error. *)
Theorem remote_run_is_local driver raw detected caps job_id :
  raw ≠ "" → within 1 256 job_id = true →
  remote_run (λ rq, match render_request driver rq with Ok ws => Ok ws | Err e => Err (Rendered e) end) raw detected caps job_id =
  Some (driver raw detected caps job_id).
Proof.
  intros Hraw Hj. unfold remote_run, render_request. rewrite Hj. cbn [rq_data_b64 rq_type rq_caps rq_job_id].
  rewrite bool_decide_false, b64_strict_encode.
  2: { intros He. apply Hraw. pose proof (b64_roundtrip raw) as H. rewrite He in H. by injection H as <-. }
  cbn [negb orb]. destruct (driver raw detected caps job_id) as [arts|e]; [|done].
  assert (mapM to_artifact (wire_of <$> arts) = Some arts) as ->; [|done].
  induction arts as [|a arts IH]; [done|]. cbn [fmap list_fmap mapM]. by rewrite wire_roundtrip; cbn; rewrite IH.
Qed.

(** ** Witnesses *)

Definition wit_result : PreviewResult := mk_result 7 TEXT [mk_artifact "text_snippet" "text/plain" "hello" []] false "job-1".
Definition wit_dump (r : PreviewResult) : option string := if decide (r = wit_result) then Some "r" else None.
Definition wit_load (s : string) : option PreviewResult := if decide (s = "r") then Some wit_result else None.
Definition wit_encrypt (iv s : string) : string := "#" +:+ s.
Definition wit_decrypt (s : string) : option string := match s with String _ s => Some s | "" => None end.
Definition wit_driver (raw : string) (t : SupportedType) (caps : ResourceCaps) (job_id : string) : result PreviewError (list PreviewArtifact) :=
  Ok [mk_artifact "text_snippet" "text/plain" raw []].
Definition wit_caps : ResourceCaps := mk_caps 50 104857600.
Definition wit_render := render wit_encrypt wit_decrypt wit_dump wit_load 2 1800 (λ _ _, Ok "hello") wit_driver wit_caps 100 1800.
Definition wit_entry2 : ResolvedEntry := mk_resolved 8 3 4 "/mirror/a.txt" 5 (Some "h5") "other".

Lemma wit_dump_load r s : wit_dump r = Some s → wit_load s = Some r.
Proof. unfold wit_dump. destruct (decide (r = wit_result)) as [->|]; [|done]. by intros [= <-]. Qed.

Lemma render_spec_witness :
  ∃ c', wit_render 10 11 "iv" wit_entry "job-1" empty_cache = (Ok (wit_result, 2), c') ∧
    fresh_render wit_dump (λ _ _, Ok "hello") wit_driver wit_caps 100 wit_entry "job-1" (Ok (wit_result, 2)).
Proof.
  destruct (wit_render 10 11 "iv" wit_entry "job-1" empty_cache) as [r c'] eqn:E.
  assert (r = Ok (wit_result, 2)) as -> by (change r with (r, c').1; rewrite <- E; vm_compute; reflexivity).
  exists c'. split; [done|].
  destruct (render_spec wit_encrypt wit_decrypt wit_dump wit_load 2 1800 (λ _ _, eq_refl) wit_dump_load (λ _ _, Ok "hello") wit_driver wit_caps
    100 1800 [] 10 11 "iv" wit_entry "job-1" _ c' E) as [(key & stored & lapse & _ & Hl & _)|H]; [done|exact H].
Defined.

Lemma render_shared_witness :
  (wit_render 500 501 "iv2" wit_entry2 "job-2" (wit_render 10 11 "iv" wit_entry "job-1" empty_cache).2).1 =
  Ok (with_entry 8 (with_hit true wit_result), 0).
Proof.
  destruct (wit_render 10 11 "iv" wit_entry "job-1" empty_cache) as [r c1] eqn:E.
  assert (r = Ok (wit_result, 2)) as -> by (change r with (r, c1).1; rewrite <- E; vm_compute; reflexivity). cbn [snd].
  apply (render_shared wit_encrypt wit_decrypt wit_dump wit_load 2 1800 (λ _ _, Ok "hello") wit_driver (λ _ _, Ok "hello") wit_driver wit_caps
    100 1800 [] 10 11 "iv" wit_entry "job-1" "h5:v1:pages=50" wit_result 2 c1 [] ∅ 500 501 "iv2" wit_entry2 "job-2"
    (λ _ _, eq_refl) wit_dump_load ltac:(reflexivity) ltac:(reflexivity) E eq_refl);
    [set_solver|rewrite size_empty; lia|constructor|lia].
Defined.

Lemma remote_run_is_local_witness :
  remote_run (λ rq, match render_request wit_driver rq with Ok ws => Ok ws | Err e => Err (Rendered e) end) "hello" TEXT wit_caps "job-1" =
  Some (wit_driver "hello" TEXT wit_caps "job-1").
Proof. apply (remote_run_is_local wit_driver "hello" TEXT wit_caps "job-1"); done. Defined.
