(* ===== verification/PreviewRoute.v ===== *)
(** The preview route ([src/fathom/api/routers/preview.py], [api/preview_runtime.py], [workers/preview.py]): the gate, the entry
    it resolves, the audit row before the artifact and the accounting row of the cache.

    The render is a function of the cache, as [Preview.render] is once its collaborators are fixed.  A request is one transaction:
    after an error its tables are as they were. *)

From stdpp Require Import gmap.
From S2P Require Import Prelude PyStr Json PyTime AuditLog AuditStore Rbac Catalogue Signing PreviewPull Preview.

Local Open Scope Z_scope.


Record PreviewCacheMeta := mk_meta {
  m_entry_id : Z; m_content_hash : string; m_cache_key : string; artifact_ref : string; m_type : string;
  artifact_size : Z; hit_count : Z; m_expires_at : datetime;
}.

Definition role_value (r : Role) : string :=
  match r with VIEWER => "viewer" | OPERATOR => "operator" | REMEDIATOR => "remediator" | AUDITOR => "auditor" | ADMIN => "admin" end.

(** [None] is an exception that no handler maps: a 500. *)
Notation reply := (result (option HTTPException)).

Definition http {A} (status : Z) (detail : string) : reply A := Err (Some (mk_http status detail)).

(** ** [api/routers/preview.py] *)

Definition _require_enabled (preview_enabled : bool) : reply () :=
  if preview_enabled then Ok () else http 403 "preview is disabled (preview_enabled=False)".

Definition find_entry (cat : catalogue) (id : Z) : option FsEntryRow := hd_error (filter (λ e, e_id e = id) (fs_entry cat)).
Definition find_volume (cat : catalogue) (id : Z) : option Volume := hd_error (filter (λ v, v_id v = id) (volumes cat)).
Definition find_host (cat : catalogue) (id : Z) : option Host := hd_error (filter (λ h, h_id h = id) (hosts cat)).

Definition _resolve_entry (cat : catalogue) (entry_id : Z) (scope : ScopeFilter) : reply ResolvedEntry :=
  match find_entry cat entry_id with
  | None => http 404 "entry not found"
  | Some e =>
      if negb (present e) || is_dir e then http 404 "entry not found" else
      let volume := find_volume cat (volume_id e) in
      match check_target scope (host_id e) (Some (volume_id e)) (v_kind <$> volume) with
      | Err exc => Err (Some exc)
      | Ok _ =>
          if bool_decide (v_transport <$> volume = Some "network")
          then http 415 "preview is not available for remote (SMB/SFTP/rclone) files" else
          Ok (mk_resolved (e_id e) (host_id e) (volume_id e) (path e) (inode e) (full_hash e)
                (match find_host cat (host_id e) with Some h => h_name h | None => pretty (host_id e) end))
      end
  end.

Definition bump (key : string) (m : PreviewCacheMeta) : PreviewCacheMeta :=
  if bool_decide (m_cache_key m = key)
  then mk_meta (m_entry_id m) (m_content_hash m) (m_cache_key m) (artifact_ref m) (m_type m) (artifact_size m) (hit_count m + 1) (m_expires_at m)
  else m.

Definition _record_cache_meta (entry : ResolvedEntry) (r : PreviewResult) (size ttl_seconds : Z) (now : datetime)
    (metas : list PreviewCacheMeta) : list PreviewCacheMeta :=
  match truthy (re_content_hash entry) with
  | None => metas
  | Some h =>
      let key := derive_cache_key h ("v1:" +:+ type_value (pr_type r)) in
      if bool_decide (Exists (λ m, m_cache_key m = key) metas) then bump key <$> metas
      else metas ++ [mk_meta (re_entry_id entry) h key key (type_value (pr_type r)) size 0 (dt_add now (seconds ttl_seconds))]
  end.

Record PreviewResultOut := mk_out { po_entry_id : Z; po_type : string; po_cache_hit : bool; po_job_id : string; po_artifacts : list WireArtifact }.

Definition result_out (r : PreviewResult) : PreviewResultOut :=
  mk_out (pr_entry_id r) (type_value (pr_type r)) (cache_hit r) (sandbox_job_id r) (wire_of <$> artifacts r).

(** The tables a preview writes. *)
Record preview_db := mk_pdb { audit : audit_db; metas : list PreviewCacheMeta }.

(** [PreviewQueue.submit]: whether a slot came free in time. *)
Definition submit {C} (slot : bool) (work : C → result RenderError (PreviewResult * Z) * C) (c : C) : result RenderError (PreviewResult * Z) * C :=
  if slot then work c else (Err (Preview (mk_preview_error "preview service busy" 503)), c).

Section Route.
Context {B : Backend} (blake3_hex : string → string).

(** [runtime]: the configured pipeline, if any; [others]: what other writers append to the audit between the reading of its head and
    the flush. *)
Definition get_preview {C} (preview_enabled : bool) (ttl_seconds : Z) (cat : catalogue) (scope : ScopeFilter) (principal : Principal)
    (runtime : option (ResolvedEntry → string → C → result RenderError (PreviewResult * Z) * C)) (slot : bool)
    (entry_id : Z) (job_id : string) (now : datetime) (others : audit_db → audit_db) (d : preview_db) (c : C)
    : reply (PreviewResultOut * preview_db) * C :=
  match _require_enabled preview_enabled with
  | Err e => (Err e, c)
  | Ok _ =>
      match runtime with
      | None => (http 503 "preview runtime not provisioned (no sandbox driver / cache)", c)
      | Some render =>
          match _resolve_entry cat entry_id scope with
          | Err e => (Err e, c)
          | Ok entry =>
              match submit slot (render entry job_id) c with
              | (Err (Preview e), c) => (http (pe_status e) (reason e), c)
              | (Err (Cache _), c) => (Err None, c)
              | (Ok (r, size), c) =>
                  let role := match grants principal with g :: _ => role_value (g_role g) | [] => "unknown" end in
                  let chain := mk_chain (load_head (audit d)) (others (audit d)) in
                  match append_preview_access blake3_hex session_sink now (subject principal) role (re_entry_id entry)
                          (type_value (pr_type r)) (sandbox_job_id r) (cache_hit r) chain with
                  | Err _ => (Err None, c)
                  | Ok (_, chain) =>
                      (Ok (result_out r, mk_pdb (sunk chain) (_record_cache_meta entry r size ttl_seconds now (metas d))), c)
                  end
              end
          end
      end
  end.

(** ** Laws *)

Lemma find_entry_spec cat id e : find_entry cat id = Some e → e ∈ fs_entry cat ∧ e_id e = id.
Proof. unfold find_entry. intros H%head_Some_elem_of. apply list_elem_of_filter in H. tauto. Qed.

(** A preview is served only for a present file in the caller's scope on a local volume, only while the feature is on and
    provisioned, and only with its access row in the audit: one new row, at the end of a chain no other writer has moved, naming the
    principal, the entry and the render that is served. *)
Theorem get_preview_audited {C} enabled ttl cat scope principal (runtime : option (ResolvedEntry → string → C → _ * C)) slot id job now others d c
    out d' c' :
  get_preview enabled ttl cat scope principal runtime slot id job now others d c = (Ok (out, d'), c') →
  enabled = true ∧ slot = true ∧
  ∃ e render entry r size seq, e ∈ fs_entry cat ∧ e_id e = id ∧ present e = true ∧ is_dir e = false ∧
    scope_allows scope (host_id e) (Some (volume_id e)) (v_kind <$> find_volume cat (volume_id e)) ∧
    v_transport <$> find_volume cat (volume_id e) ≠ Some "network" ∧
    runtime = Some render ∧ _resolve_entry cat id scope = Ok entry ∧ re_path entry = path e ∧
    render entry job c = (Ok (r, size), c') ∧ out = result_out r ∧
    rows (audit d') = rows (others (audit d)) ++
      [(seq, chained blake3_hex (mk_content (isoformat now) (subject principal) "preview.access" (pretty id)
         [("role", JStr (match grants principal with g :: _ => role_value (g_role g) | [] => "unknown" end));
          ("type", JStr (po_type out)); ("sandbox_job_id", JStr (po_job_id out)); ("cache_hit", JBool (po_cache_hit out))] "served")
         (load_head (audit d)))].
Proof.
  unfold get_preview, _require_enabled. destruct enabled; [|done]. destruct runtime as [render|]; [|done].
  destruct (_resolve_entry cat id scope) as [entry|] eqn:Er; [|done]. unfold submit. destruct slot; [|done].
  destruct (render entry job c) as [[[r size]|[|]] c1] eqn:Ec; [|done..].
  unfold append_preview_access, append, session_sink, insert_row. cbn [sunk AuditLog.head].
  destruct (unique_ok _ _); [|done]. cbn [mbind result_bind sunk]. intros [= <- <- <-]. split; [done|]. split; [done|].
  pose proof Er as Er'. unfold _resolve_entry in Er'. destruct (find_entry cat id) as [e|] eqn:Ee; [|done].
  apply find_entry_spec in Ee as [Hin Hid]. destruct (present e) eqn:Ep; [|done]. destruct (is_dir e) eqn:Ed; [done|]. cbn [negb orb] in Er'.
  destruct (check_target _ _ _ _) as [[]|] eqn:Et; [|done]. case_bool_decide as En; [done|]. injection Er' as <-.
  apply check_target_allows in Et. exists e, render. do 3 eexists. exists (next_seq (others (audit d))).
  split; [exact Hin|]. split; [exact Hid|]. split; [exact Ep|]. split; [exact Ed|]. split; [exact Et|]. split; [exact En|].
  split; [reflexivity|]. split; [reflexivity|]. split; [reflexivity|]. split; [exact Ec|]. split; [reflexivity|].
  rewrite <- Hid. reflexivity.
Qed.

(** The accounting row never names the key of the cache: one is keyed by the type, the other by the page cap. *)
Lemma artifact_ref_is_not_the_cache_key caps entry r size ttl now ms m key :
  _record_cache_meta entry r size ttl now ms = ms ++ [m] → entry_key caps entry = Some key → artifact_ref m ≠ key.
Proof.
  unfold _record_cache_meta, entry_key, _render_params, derive_cache_key. destruct (truthy (re_content_hash entry)) as [h|]; [|done].
  cbn [fmap option_fmap option_map]. intros Hm [= <-]. case_bool_decide as He.
  - exfalso. apply (f_equal length) in Hm. rewrite length_fmap, length_app in Hm. cbn in Hm. lia.
  - apply app_inj_tail in Hm as [_ <-]. cbn [artifact_ref]. intros H%app_inv_head_s. destruct (pr_type r); cbn in H; discriminate H.
Qed.

(** A render after the row lapsed keeps the old expiry and counts as a hit. *)
Lemma meta_never_refreshed entry r size ttl now ms m h :
  m ∈ ms → truthy (re_content_hash entry) = Some h → m_cache_key m = derive_cache_key h ("v1:" +:+ type_value (pr_type r)) →
  _record_cache_meta entry r size ttl now ms = bump (m_cache_key m) <$> ms ∧ m_expires_at (bump (m_cache_key m) m) = m_expires_at m ∧
  hit_count (bump (m_cache_key m) m) = hit_count m + 1.
Proof.
  intros Hm Hh Hk. unfold _record_cache_meta. rewrite Hh, <- Hk. cbv zeta.
  rewrite (bool_decide_true (Exists _ _)) by (apply Exists_exists; by exists m).
  split; [done|]. unfold bump. by rewrite !(bool_decide_true (m_cache_key m = m_cache_key m)) by done.
Qed.
End Route.

(** ** Witness *)

Definition wit_cat : catalogue :=
  mk_catalogue wit_hosts [mk_volume 2 1 "/data" None "data" "ext4" "/dev/sda1" "sata" None None None 0 0 0 false 0] []
    [mk_entry 7 1 2 None "a.txt" "/data/a.txt" 1 false false 5 5 0 0 0 0 (-3) 1 "" None true None None (Some "h5") None None None] [] [] [].
Definition wit_principal : Principal := mk_principal "ann" SrcLocal 1 [] [Rbac.mk_grant ADMIN KGlobal None None] None None.
Definition wit_get := get_preview (B := false) wit_hash true 1800 wit_cat (from_grants (grants wit_principal) PREVIEW) wit_principal
  (Some (λ entry job_id c, wit_render 10 11 "iv" entry job_id c)) true 7 "job-1" (wit_time 1000) (λ a, a) (mk_pdb empty_db []) empty_cache.

Lemma get_preview_audited_witness :
  ∃ out d' c', wit_get = (Ok (out, d'), c') ∧ po_artifacts out = [mk_wire "text_snippet" "text/plain" (b64encode "hello") []] ∧
    length (rows (audit d')) = 1%nat.
Proof.
  destruct wit_get as [[[out d']|] c'] eqn:E; [|vm_compute in E; discriminate E]. exists out, d', c'. split; [done|]. split.
  { assert (match wit_get.1 with Ok (out, _) => po_artifacts out | Err _ => [] end =
      [mk_wire "text_snippet" "text/plain" (b64encode "hello") []]) as H by (vm_compute; reflexivity). by rewrite E in H. }
  destruct (get_preview_audited (B := false) wit_hash true 1800 wit_cat _ wit_principal _ true 7 "job-1" (wit_time 1000) (λ a, a)
    (mk_pdb empty_db []) empty_cache out d' c' E) as (_ & _ & e & rend & en & r & size & seq & _ & _ & _ & _ & _ & _ & _ & _ & _ & _ & _ & ->).
  reflexivity.
Defined.
