(* ===== verification/Browse.v ===== *)
(** Live directory browse ([src/fathom/core/browse.py], [agent/browse_lister.py], [agent/browse_serve.py],
    [api/routers/agent_browse.py]): the signed request to list one directory, the agent that lists it within its bounds, and the
    routes on either side of the rendezvous of [Envelope].

    The file system is a parameter: what [os.scandir] gives for a path and what each entry answers; so is the clock of the
    sizing walk, as the answers to its successive deadline checks.  The order of the names is that of their bytes. *)

From stdpp Require Import gmap sorting.
From S2P Require Import Prelude PyStr PyDict Json PyTime PosixPath AuditLog AuditStore Rbac Catalogue Signing Envelope PreviewPull PreviewRoute.

Local Open Scope Z_scope.


(** ** [core/browse.py] *)

Record BrowseRequest := mk_browse {
  request_id : string; br_host_id : string; br_path : string; br_max_entries : Z; with_sizes : bool;
  size_max_entries : Z; size_budget_ms : Z; br_nonce : string; br_issued_at : datetime; br_expires_at : datetime;
}.

Definition browse_payload (r : BrowseRequest) : json :=
  JObj [("request_id", JStr (request_id r)); ("host_id", JStr (br_host_id r)); ("path", JStr (br_path r));
        ("max_entries", JInt (br_max_entries r)); ("with_sizes", JBool (with_sizes r));
        ("size_max_entries", JInt (size_max_entries r)); ("size_budget_ms", JInt (size_budget_ms r));
        ("nonce", JStr (br_nonce r)); ("issued_at", JStr (isoformat (br_issued_at r))); ("expires_at", JStr (isoformat (br_expires_at r)))].

Definition browse_bytes (r : BrowseRequest) : string := utf8 (dumps (browse_payload r)).

#[export] Instance browse_envelope : Envelope BrowseRequest := {|
  en_ref := request_id; en_host := br_host_id; en_nonce := br_nonce; en_issued := br_issued_at;
  en_expires := br_expires_at; en_bytes := browse_bytes |}.

Notation SignedBrowseRequest := (Sealed BrowseRequest).

Definition DEFAULT_MAX_ENTRIES : Z := 2000.
Definition DEFAULT_SIZE_MAX_ENTRIES : Z := 200000.
Definition DEFAULT_SIZE_BUDGET_MS : Z := 1500.

Record BrowseEntry := mk_bentry {
  be_name : string; be_path : string; be_is_dir : bool; be_is_symlink : bool; be_size : Z; be_mtime : Z;
  subtree_size : option Z; subtree_file_count : option Z; subtree_truncated : bool;
}.

Record BrowseResult := mk_bresult {
  rs_request_id : string; rs_path : string; entries : list BrowseEntry; truncated : bool; rs_error : option string;
}.

#[export] Instance browse_queued : Queued SignedBrowseRequest := {|
  qi_id := λ s, request_id (body s); qi_expires := λ s, br_expires_at (body s) |}.

Notation BrowsePullQueue := (PullQueue SignedBrowseRequest BrowseResult).

(** ** [agent/browse_lister.py] *)

(** An entry of a scan; [None] is an OSError of the call. *)
Record DirEntry := mk_de { de_name : string; de_path : string; de_symlink : option bool; de_dir : option bool; de_stat : option (Z * Z) }.

Section Lister.
(** [os.scandir]: the error of opening the directory, or its entries and the error that ended the iteration, if any. *)
Context (scandir : string → result string (list DirEntry * option string)).
Context (is_symlink : string → bool).

(** The totals of the walk. *)
Record totals := mk_totals { t_size : Z; t_files : Z; t_seen : Z }.

(** The body of the inner loop for one entry: the new totals and the directory to push. *)
Definition visit (de : DirEntry) (t : totals) : totals * option string :=
  match de_symlink de with
  | None | Some true => (t, None)
  | Some false =>
      match de_dir de with
      | None => (t, None)
      | Some true => (t, Some (de_path de))
      | Some false =>
          match de_stat de with
          | None => (t, None)
          | Some (size, _) => (mk_totals (t_size t + size) (t_files t + 1) (t_seen t), None)
          end
      end
  end.

(** The inner loop; [None] in the last component: the cap was hit. *)
Fixpoint scan_entries (max_entries : Z) (es : list DirEntry) (stack : list string) (t : totals) : totals * option (list string) :=
  match es with
  | [] => (t, Some stack)
  | de :: es =>
      let t := mk_totals (t_size t) (t_files t) (t_seen t + 1) in
      if max_entries <=? t_seen t then (t, None) else
      let '(t, pushed) := visit de t in
      scan_entries max_entries es (match pushed with Some p => p :: stack | None => stack end) t
  end.

(** The outer loop; [late i] is the answer of its [i]-th deadline check, the head of [stack] is its top.  [None]: out of fuel. *)
Fixpoint walk_subtree (fuel : nat) (max_entries : Z) (late : nat → bool) (i : nat) (stack : list string) (t : totals)
    : option (Z * Z * bool) :=
  match stack with
  | [] => Some (t_size t, t_files t, false)
  | current :: rest =>
      match fuel with
      | O => None
      | S fuel =>
          if (max_entries <=? t_seen t) || late i then Some (t_size t, t_files t, true) else
          match scandir current with
          | Err _ => walk_subtree fuel max_entries late (S i) rest t
          | Ok (es, _) =>
              match scan_entries max_entries es rest t with
              | (t, None) => Some (t_size t, t_files t, true)
              | (t, Some stack) => walk_subtree fuel max_entries late (S i) stack t
              end
          end
      end
  end.

Definition walk_fuel (max_entries : Z) : nat := S (S (Z.to_nat max_entries)).

Definition _bounded_subtree (path : string) (max_entries : Z) (late : nat → bool) : Z * Z * bool :=
  default (0, 0, true) (walk_subtree (walk_fuel max_entries) max_entries late 0 [path] (mk_totals 0 0 0)).

(** The entry of a listing; [None] when a call on it fails. *)
Definition list_entry (r : BrowseRequest) (late : nat → bool) (de : DirEntry) : option BrowseEntry :=
  symlink ← de_symlink de; dir ← de_dir de; st ← de_stat de;
  let '(size, files, cut) :=
    if with_sizes r && dir && negb symlink
    then let '(s, n, cut) := _bounded_subtree (de_path de) (size_max_entries r) late in (Some s, Some n, cut)
    else (None, None, false) in
  Some (mk_bentry (de_name de) (de_path de) dir symlink st.1 st.2 size files cut).

(** The loop of [list_directory]: the entries so far and whether it stopped at the cap; [late] for each sizing walk. *)
Fixpoint list_loop (r : BrowseRequest) (late : nat → nat → bool) (es : list DirEntry) (acc : list BrowseEntry) : list BrowseEntry * bool :=
  match es with
  | [] => (acc, false)
  | de :: es =>
      if br_max_entries r <=? Z.of_nat (length acc) then (acc, true)
      else list_loop r late es (match list_entry r (late (length acc)) de with Some e => acc ++ [e] | None => acc end)
  end.

(** The key of the sort: directories first, then by name. *)
Definition picker_le (a b : BrowseEntry) : Prop :=
  (if eqb (be_is_dir a) (be_is_dir b) then str_le (lower (be_name a)) (lower (be_name b)) else be_is_dir a) = true.

#[export] Instance picker_le_dec : RelDecision picker_le.
Proof. unfold RelDecision, picker_le. intros a b. apply _. Defined.

Definition failed (r : BrowseRequest) (error : string) : BrowseResult := mk_bresult (request_id r) (br_path r) [] false (Some error).

Definition list_directory (late : nat → nat → bool) (r : BrowseRequest) : BrowseResult :=
  if is_symlink (br_path r) then failed r "path is a symlink" else
  match scandir (br_path r) with
  | Err e => failed r e
  | Ok (es, broken) =>
      let '(listed, cut) := list_loop r late es [] in
      match (if cut then None else broken) with
      | Some e => failed r e
      | None => mk_bresult (request_id r) (br_path r) (stable_sort picker_le listed) cut None
      end
  end.

(** ** [agent/browse_serve.py] *)

Context (ed_verify : string → string → bool).

Record BrowseServer := mk_bserver { bs_key_id : string; bs_nonce_db : string; bs_host_id : string }.

Definition serve {St} `{NonceStore St} (server : BrowseServer) (signed : SignedBrowseRequest) (now : datetime) (late : nat → nat → bool) (store : St)
    : result SealError BrowseResult * St :=
  match verify ed_verify (bs_key_id server) (bs_host_id server) now signed store with
  | (Err e, store) => (Err e, store)
  | (Ok r, store) => (Ok (list_directory late r), store)
  end.

(** What the agent posts; [None]: the error of a locked ledger, which is not caught here. *)
Definition handle_one {St} `{NonceStore St} (server : BrowseServer) (claimed : SignedBrowseRequest) (now : datetime) (late : nat → nat → bool)
    (store : St) : option BrowseResult * St :=
  match serve server claimed now late store with
  | (Ok r, store) => (Some r, store)
  | (Err (LedgerFailed _), store) => (None, store)
  | (Err _, store) => (Some (failed (body claimed) "request could not be served"), store)
  end.
End Lister.

(** The settings of the agent that the loop needs, with [browse_nonce_dir]. *)
Definition build_server_from_config (secret : string → option string) (is_ed25519_pem : string → bool)
    (browse_grant_pubkey_ref browse_nonce_dir preview_nonce_dir quarantine_dir : option string) (key_id host_id : string)
    : result StartupError BrowseServer :=
  match truthy browse_grant_pubkey_ref with
  | None => Err NoKeyRef
  | Some ref =>
      match hd_error (omap truthy [browse_nonce_dir; preview_nonce_dir; quarantine_dir]) with
      | None => Err NoNonceDir
      | Some dir =>
          match truthy (secret ref) with
          | None => Err Unresolved
          | Some material =>
              if is_ed25519_pem material
              then Ok (mk_bserver key_id (path_str (path_join (parse_path dir) (parse_path ".browse-nonce-ledger.sqlite"))) host_id)
              else Err BadKey
          end
      end
  end.

(** ** [api/routers/agent_browse.py] *)

Definition _host_scope_predicate (cat : catalogue) (scope : ScopeFilter) (h : Host) : bool :=
  bool_decide (h_id h ∈ host_ids scope) ||
  existsb (λ v, bool_decide (v_host_id v = h_id h) && bool_decide (v_id v ∈ volume_ids scope)) (volumes cat).

Definition poll_browse (hosts : list Host) (gets : nat) (fingerprint : string) (now : datetime) (q : option BrowsePullQueue)
    : result HTTPException (option SignedBrowseRequest) * option BrowsePullQueue :=
  match q with
  | None => (Ok None, None)
  | Some q =>
      match _resolve_host_name hosts fingerprint with
      | Err e => (Err e, Some q)
      | Ok host => let '(p, q) := poll gets host "request expired before being claimed" now q in (Ok p, Some q)
      end
  end.

(** [BrowseCorrelationError] as a 409. *)
Definition browse_correlated {A} (r : result CorrelationError A) : result HTTPException A :=
  match r with
  | Ok a => Ok a
  | Err DuplicateId => Err (mk_http 409 "duplicate request_id already in flight")
  | Err UnknownId => Err (mk_http 409 "unknown or already-resolved browse request")
  | Err OtherHost => Err (mk_http 409 "result host does not match the request's scope")
  | Err AlreadyAnswered => Err (mk_http 409 "browse request already resolved")
  end.

Definition serve_browse_result (hosts : list Host) (fingerprint : string) (payload : BrowseResult) (q : option BrowsePullQueue)
    : result HTTPException (option BrowsePullQueue) :=
  match q with
  | None => Err (mk_http 409 "no awaiting browse request")
  | Some q => host ← _resolve_host_name hosts fingerprint;
              q ← browse_correlated (resolve (rs_request_id payload) host (inl payload) q); Ok (Some q)
  end.

Section Operator.
Context {B : Backend} (blake3_hex : string → string) (ed_sign : string → string).

Definition find_host_in_scope (cat : catalogue) (scope : ScopeFilter) (id : Z) : option Host :=
  hd_error (filter (λ h, h_id h = id ∧ (is_global scope || _host_scope_predicate cat scope h) = true) (hosts cat)).

(** [browse_host_directory] up to its await: the request it signed, the audit with its row and the queue it waits in.  [kid] is
    the id of the browse key, if the core has one; [mfa] is what the step-up dependency said. *)
Definition browse_start (cat : catalogue) (scope : ScopeFilter) (mfa : result HTTPException ()) (principal : Principal) (kid : option string)
    (host_id : Z) (path rid nonce : string) (ttl : Z) (now : datetime) (others : audit_db → audit_db) (audit : audit_db) (q : option BrowsePullQueue)
    : reply (SignedBrowseRequest * audit_db * BrowsePullQueue) :=
  match mfa, q, kid with
  | Err e, _, _ => Err (Some e)
  | _, None, _ | _, _, None => http 503 "live browse is not enabled on this core"
  | Ok _, Some q, Some kid =>
      match find_host_in_scope cat scope host_id with
      | None => http 404 "host not found or out of scope"
      | Some h =>
          if negb (within 1 4096 path) then Err None else
          let r := mk_browse rid (h_name h) path DEFAULT_MAX_ENTRIES true DEFAULT_SIZE_MAX_ENTRIES DEFAULT_SIZE_BUDGET_MS nonce
                     now (dt_add now (seconds ttl)) in
          let signed := sign ed_sign kid r in
          let chain := mk_chain (load_head audit) (others audit) in
          match append blake3_hex session_sink now (subject principal) "browse_host_directory" (h_name h +:+ ":" +:+ path) [] "requested" chain with
          | Err _ => Err None
          | Ok (_, chain) =>
              match enqueue (h_name h) signed q with
              | Ok q => Ok (signed, sunk chain, q)
              | Err e => match browse_correlated (A := ()) (Err e) with Err e => Err (Some e) | Ok _ => Err None end
              end
          end
      end
  end.

(** The rest of it: the reply and the audit, which is back to what it was ([before]) when the reply is an error. *)
Definition browse_end (rid : string) (before after : audit_db) (q : BrowsePullQueue)
    : option (result HTTPException BrowseResult) * audit_db * BrowsePullQueue :=
  match finish rid q with
  | (Some (Ok r), q) => (Some (Ok r), after, q)
  | (Some (Err _), q) => (Some (Err (mk_http 504 "the agent did not return the listing in time (offline or slow)")), before, q)
  | (None, q) => (None, before, q)
  end.
End Operator.

(** ** The bytes determine the request *)

Lemma browse_sorted r :
  sort_json (browse_payload r) =
  JObj [("expires_at", JStr (isoformat (br_expires_at r))); ("host_id", JStr (br_host_id r));
        ("issued_at", JStr (isoformat (br_issued_at r))); ("max_entries", JInt (br_max_entries r)); ("nonce", JStr (br_nonce r));
        ("path", JStr (br_path r)); ("request_id", JStr (request_id r)); ("size_budget_ms", JInt (size_budget_ms r));
        ("size_max_entries", JInt (size_max_entries r)); ("with_sizes", JBool (with_sizes r))].
Proof. reflexivity. Qed.

#[export] Instance browse_laws : EnvelopeLaws BrowseRequest.
Proof.
  refine (Build_EnvelopeLaws BrowseRequest _ (λ r, dt_valid (br_issued_at r) ∧ dt_valid (br_expires_at r)) _).
  intros g h [Hg1 Hg2] [Hh1 Hh2] H. apply utf8_inj, dumps_inj in H. rewrite !browse_sorted in H. json_inv.
  repeat match goal with H : isoformat _ = isoformat _ |- _ => apply isoformat_inj in H; [|done..] end.
  destruct g, h. simpl in *. congruence.
Qed.

(** ** The sizing walk *)

Section Walk.
Context (scandir : string → result string (list DirEntry * option string)).

(** What one entry adds: nothing, a file of a size, or a directory to visit. *)
Definition adds (de : DirEntry) : Z * Z * list string :=
  match de_symlink de, de_dir de, de_stat de with
  | Some false, Some true, _ => (0, 0, [de_path de])
  | Some false, Some false, Some (size, _) => (size, 1, [])
  | _, _, _ => (0, 0, [])
  end.

Fixpoint adds_all (es : list DirEntry) : Z * Z * list string :=
  match es with
  | [] => (0, 0, [])
  | de :: es => ((adds de).1.1 + (adds_all es).1.1, (adds de).1.2 + (adds_all es).1.2, (adds_all es).2 ++ (adds de).2)
  end.

(** The reference: the totals of the complete subtree of a stack of directories. *)
Inductive subtree : list string → Z → Z → Prop :=
  | sub_done : subtree [] 0 0
  | sub_unreadable p st e s n : scandir p = Err e → subtree st s n → subtree (p :: st) s n
  | sub_dir p st es b s n : scandir p = Ok (es, b) → subtree ((adds_all es).2 ++ st) s n →
      subtree (p :: st) ((adds_all es).1.1 + s) ((adds_all es).1.2 + n).

(** Sizes are not negative. *)
Definition sized : Prop := ∀ p es b de size m, scandir p = Ok (es, b) → de ∈ es → de_stat de = Some (size, m) → 0 <= size.

Lemma visit_adds de t :
  visit de t = (mk_totals (t_size t + (adds de).1.1) (t_files t + (adds de).1.2) (t_seen t),
                match (adds de).2 with p :: _ => Some p | [] => None end).
Proof.
  unfold visit, adds. destruct t as [s f k], (de_symlink de) as [[]|], (de_dir de) as [[]|], (de_stat de) as [[]|]; cbn; rewrite ?Z.add_0_r; done.
Qed.

Lemma adds_one de : (adds de).2 = [] ∨ ∃ p, (adds de).2 = [p].
Proof. unfold adds. destruct (de_symlink de) as [[]|], (de_dir de) as [[]|], (de_stat de) as [[]|]; cbn; eauto. Qed.

Lemma scan_entries_spec max es stack t t' o :
  scan_entries max es stack t = (t', o) →
  ∃ es1 es2, es = es1 ++ es2 ∧ t_size t' = t_size t + (adds_all es1).1.1 ∧ t_files t' = t_files t + (adds_all es1).1.2 ∧
    match o with
    | Some stack' => es2 = [] ∧ stack' = (adds_all es).2 ++ stack ∧ t_seen t' = t_seen t + Z.of_nat (length es) ∧ (es = [] ∨ t_seen t' < max)
    | None => True
    end.
Proof.
  revert stack t. induction es as [|de es IH]; intros stack t; cbn [scan_entries].
  { intros [= <- <-]. exists [], []. cbn. split_and!; try lia; auto. }
  cbn [t_seen]. destruct (Z.leb_spec max (t_seen t + 1)) as [Hc|Hc].
  { intros [= <- <-]. exists [], (de :: es). cbn. split_and!; try lia; auto. }
  rewrite visit_adds. cbn [t_size t_files t_seen]. intros Hs.
  apply IH in Hs as (es1 & es2 & -> & Hsz & Hf & Ho). exists (de :: es1), es2. cbn [t_size t_files] in *. cbn [adds_all fst snd app].
  split_and!; [done|lia..|]. destruct o as [stack'|]; [|done]. destruct Ho as (-> & -> & Hn & Hl). split; [done|]. split; [|split].
  - rewrite <- app_assoc. f_equal. by destruct (adds_one de) as [->|[p ->]].
  - cbn [length t_seen] in *. lia.
  - right. destruct Hl as [Hl|]; [|done]. rewrite Hl in Hn. cbn [length t_seen] in *. lia.
Qed.

Lemma adds_all_app es1 es2 : (adds_all (es1 ++ es2)).1.1 = (adds_all es1).1.1 + (adds_all es2).1.1 ∧
  (adds_all (es1 ++ es2)).1.2 = (adds_all es1).1.2 + (adds_all es2).1.2.
Proof. induction es1 as [|de es1 [IH1 IH2]]; cbn [app adds_all fst snd]; split; lia. Qed.

Lemma adds_all_length es : (length (adds_all es).2 <= length es)%nat.
Proof.
  induction es as [|de es IH]; cbn [adds_all fst snd length]; [lia|]. rewrite length_app.
  destruct (adds_one de) as [->|[p ->]]; cbn; lia.
Qed.

Section Sized.
Context (Hsized : sized).

Lemma adds_all_nonneg p es b es' : scandir p = Ok (es, b) → (∀ de, de ∈ es' → de ∈ es) → 0 <= (adds_all es').1.1 ∧ 0 <= (adds_all es').1.2.
Proof.
  intros Hs. induction es' as [|de es' IH]; intros Hin; cbn [adds_all fst snd]; [lia|].
  destruct IH as [H1 H2]; [intros d Hd; apply Hin; by right|].
  assert (0 <= (adds de).1.1 ∧ 0 <= (adds de).1.2); [|lia]. unfold adds.
  destruct (de_symlink de) as [[]|], (de_dir de) as [[]|], (de_stat de) as [[size m]|] eqn:Ed; cbn; try lia.
  split; [|lia]. eapply Hsized; [exact Hs|apply Hin; left|exact Ed].
Qed.

Lemma subtree_nonneg st s n : subtree st s n → 0 <= s ∧ 0 <= n.
Proof.
  induction 1 as [|p st e s n Hs _ IH|p st es b s n Hs _ IH]; [lia|done|].
  destruct (adds_all_nonneg p es b es Hs (λ _ H, H)). lia.
Qed.

(** With enough fuel the walk ends; complete, it has the totals of the subtree, and cut short, no more than them. *)
Lemma walk_subtree_spec fuel max late i stack t :
  (Z.to_nat (max - t_seen t) + length stack < fuel)%nat →
  ∃ s f cut, walk_subtree scandir fuel max late i stack t = Some (s, f, cut) ∧
    (cut = false → ∃ S N, subtree stack S N ∧ s = t_size t + S ∧ f = t_files t + N) ∧
    ∀ S N, subtree stack S N → s <= t_size t + S ∧ f <= t_files t + N.
Proof.
  revert i stack t. induction fuel as [|fuel IH]; intros i stack t Hf; [lia|].
  destruct stack as [|p st]; cbn [walk_subtree].
  { exists (t_size t), (t_files t), false. split; [done|]. split; [intros _; exists 0, 0; split; [constructor|lia]|]. inversion 1. lia. }
  destruct ((max <=? t_seen t) || late i) eqn:Ec.
  { exists (t_size t), (t_files t), true. split; [done|]. split; [done|]. intros S N [H1 H2]%subtree_nonneg. lia. }
  apply orb_false_iff in Ec as [Ec _]. apply Z.leb_gt in Ec.
  destruct (scandir p) as [[es b]|e] eqn:Es.
  - destruct (scan_entries max es st t) as [t' o] eqn:Ee.
    apply scan_entries_spec in Ee as (es1 & es2 & Hes & Hsz & Hfl & Ho). destruct o as [st'|].
    + destruct Ho as (-> & -> & Hn & Hl). rewrite app_nil_r in Hes. subst es1.
      pose proof (adds_all_length es) as Hlen.
      destruct (IH (Datatypes.S i) ((adds_all es).2 ++ st) t') as (s & f & cut & -> & Hc & Hb).
      { rewrite length_app. cbn [length] in Hf. destruct Hl as [->|Hl]; cbn [length adds_all snd] in *; lia. }
      exists s, f, cut. split; [done|]. split.
      * intros Hcut. destruct (Hc Hcut) as (S & N & Hst & -> & ->). do 2 eexists. split; [by eapply sub_dir|]. lia.
      * intros S N Hst. inversion Hst as [|? ? ? ? ? Hs'|? ? ? ? S' N' Hs' Hst']; subst; rewrite Es in Hs'; [done|]. injection Hs' as <- <-.
        destruct (Hb S' N' Hst'). lia.
    + exists (t_size t'), (t_files t'), true. split; [done|]. split; [done|]. intros S N Hst.
      inversion Hst as [|? ? ? ? ? Hs'|? ? ? ? S' N' Hs' Hst']; subst; rewrite Es in Hs'; [done|]. injection Hs' as <- <-.
      destruct (adds_all_app es1 es2) as [-> ->]. apply subtree_nonneg in Hst' as [? ?].
      destruct (adds_all_nonneg p (es1 ++ es2) b es2 Es) as [? ?]; [intros de Hde; apply elem_of_app; by right|]. lia.
  - destruct (IH (Datatypes.S i) st t) as (s & f & cut & -> & Hc & Hb); [cbn [length] in Hf; lia|].
    exists s, f, cut. split; [done|]. split.
    + intros Hcut. destruct (Hc Hcut) as (S & N & Hst & -> & ->). exists S, N. split; [by eapply sub_unreadable|done].
    + intros S N Hst. inversion Hst as [|? ? ? ? ? Hs' Hst'|? ? ? ? S' N' Hs' Hst']; subst; rewrite Es in Hs'; [|done]. by apply Hb.
Qed.
End Sized.

(** C27: The sizing of a directory always ends, whatever the tree (a cycle of mounts included); unless it says it was cut short its totals
    are those of the whole subtree, links not followed and unreadable parts left out, and they never exceed them. *)
Theorem bounded_subtree_refines path max late :
  sized → 0 <= max →
  ∃ s f cut, walk_subtree scandir (walk_fuel max) max late 0 [path] (mk_totals 0 0 0) = Some (s, f, cut) ∧
    _bounded_subtree scandir path max late = (s, f, cut) ∧
    (cut = false → subtree [path] s f) ∧ ∀ S N, subtree [path] S N → s <= S ∧ f <= N.
Proof.
  intros Hs Hm. destruct (walk_subtree_spec Hs (walk_fuel max) max late 0 [path] (mk_totals 0 0 0)) as (s & f & cut & Hw & Hc & Hb).
  { unfold walk_fuel. cbn. lia. }
  exists s, f, cut. split; [done|]. split; [unfold _bounded_subtree; by rewrite Hw|]. split; [|exact Hb].
  intros Hcut. destruct (Hc Hcut) as (S & N & Hst & -> & ->). exact Hst.
Qed.
End Walk.

(** ** The listing *)

#[export] Instance picker_total : Total picker_le.
Proof.
  intros a b. unfold picker_le. destruct (be_is_dir a), (be_is_dir b); cbn; [apply key_total|by left|by right|apply key_total].
Qed.

#[export] Instance picker_trans : Transitive picker_le.
Proof.
  intros a b c. unfold picker_le. destruct (be_is_dir a), (be_is_dir b), (be_is_dir c); cbn; try done; apply key_trans.
Qed.

Section Listing.
Context (scandir : string → result string (list DirEntry * option string)) (is_symlink : string → bool).

(** The entries every call on which succeeds. *)
Definition readable (de : DirEntry) : bool :=
  bool_decide (is_Some (de_symlink de)) && bool_decide (is_Some (de_dir de)) && bool_decide (is_Some (de_stat de)).

Lemma list_entry_some r late de :
  match list_entry scandir r late de with Some e => readable de = true ∧ be_name e = de_name de | None => readable de = false end.
Proof.
  unfold list_entry, readable. destruct (de_symlink de) as [sl|], (de_dir de) as [d|], (de_stat de) as [st|]; cbn [mbind option_bind]; try done.
  destruct (_ && _); [destruct (_bounded_subtree _ _ _ _) as [[size files] cut]|]; done.
Qed.

Lemma list_loop_spec r late es acc l cut :
  list_loop scandir r late es acc = (l, cut) → Z.of_nat (length acc) <= br_max_entries r →
  ∃ es1 es2, es = es1 ++ es2 ∧ be_name <$> l = (be_name <$> acc) ++ (de_name <$> filter readable es1) ∧
    Z.of_nat (length l) <= br_max_entries r ∧
    if cut then es2 ≠ [] ∧ Z.of_nat (length l) = br_max_entries r else es2 = [].
Proof.
  revert acc. induction es as [|de es IH]; intros acc; cbn [list_loop].
  { intros [= <- <-] Hl. exists [], []. cbn. by rewrite app_nil_r. }
  destruct (Z.leb_spec (br_max_entries r) (Z.of_nat (length acc))).
  { intros [= <- <-] Hl. exists [], (de :: es). cbn. rewrite app_nil_r. split_and!; [done..|lia]. }
  intros Hs Hl. pose proof (list_entry_some r (late (length acc)) de) as Hde. destruct (list_entry _ _ _ de) as [e|].
  - apply IH in Hs as (es1 & es2 & -> & Hn & Hb & Hc); [|rewrite length_app; cbn; lia]. exists (de :: es1), es2. split; [done|].
    destruct Hde as [Hr Hname]. rewrite filter_cons_True by (by rewrite Hr). split; [|done].
    rewrite Hn, fmap_app. cbn. by rewrite Hname, <- app_assoc.
  - apply IH in Hs as (es1 & es2 & -> & Hn & Hb & Hc); [|lia]. exists (de :: es1), es2. split; [done|].
    rewrite filter_cons_False by (rewrite Hde; by intros []). done.
Qed.

(** A listing without an error is of a directory that is no link: each readable entry of a prefix of it once, directories first and
    then by name, at most [max_entries]; the prefix is the whole directory unless the listing says it is cut, and then it is full. *)
Theorem list_directory_spec late r :
  0 <= br_max_entries r → let res := list_directory scandir is_symlink late r in
  rs_request_id res = request_id r ∧ rs_path res = br_path r ∧
  match rs_error res with
  | Some _ => entries res = [] ∧ truncated res = false
  | None => is_symlink (br_path r) = false ∧ ∃ es1 es2 broken, scandir (br_path r) = Ok (es1 ++ es2, broken) ∧
      Permutation (be_name <$> entries res) (de_name <$> filter readable es1) ∧ StronglySorted picker_le (entries res) ∧
      Z.of_nat (length (entries res)) <= br_max_entries r ∧
      if truncated res then es2 ≠ [] ∧ Z.of_nat (length (entries res)) = br_max_entries r else es2 = [] ∧ broken = None
  end.
Proof.
  intros Hm. cbn zeta. unfold list_directory. destruct (is_symlink (br_path r)) eqn:El; [done|].
  destruct (scandir (br_path r)) as [[es broken]|e] eqn:Es; [|done].
  destruct (list_loop scandir r late es []) as [l cut] eqn:Ell. apply list_loop_spec in Ell as (es1 & es2 & -> & Hn & Hb & Hc); [|done].
  assert (Permutation (be_name <$> stable_sort picker_le l) (de_name <$> filter readable es1)) as Hp.
  { rewrite <- (app_nil_l (de_name <$> _)). change [] with (be_name <$> @nil BrowseEntry). rewrite <- Hn. by rewrite stable_sort_Permutation. }
  assert (length (stable_sort picker_le l) = length l) as Hlen by by rewrite stable_sort_Permutation.
  destruct cut; [|destruct broken as [e|]; [done|]]; cbn; (split; [done|]; split; [done|]; split; [done|]).
  - exists es1, es2, broken. rewrite Hlen. split_and!; [done..|apply StronglySorted_stable_sort; apply _|lia|by destruct Hc|by destruct Hc].
  - exists es1, es2, None. rewrite Hlen. split_and!; [done..|apply StronglySorted_stable_sort; apply _|lia|done|done].
Qed.
End Listing.

(** ** The operator's request *)

Section Requests.
Context {B : Backend} (blake3_hex : string → string) (ed_sign : string → string).

(** A request is signed and queued only for a caller with a fresh step-up and a host in its scope, for that host alone and with
    the default bounds, after one row of the audit that names the caller, the host and the directory. *)
Theorem browse_start_audited cat scope mfa principal kid host_id path rid nonce ttl now others audit q signed audit' q' :
  browse_start blake3_hex ed_sign cat scope mfa principal kid host_id path rid nonce ttl now others audit q = Ok (signed, audit', q') →
  mfa = Ok () ∧ ∃ h key q0 seq, h ∈ hosts cat ∧ h_id h = host_id ∧ (is_global scope || _host_scope_predicate cat scope h) = true ∧
    kid = Some key ∧ q = Some q0 ∧ enqueue (h_name h) signed q0 = Ok q' ∧
    signed = sign ed_sign key (mk_browse rid (h_name h) path DEFAULT_MAX_ENTRIES true DEFAULT_SIZE_MAX_ENTRIES DEFAULT_SIZE_BUDGET_MS nonce
      now (dt_add now (seconds ttl))) ∧
    rows audit' = rows (others audit) ++
      [(seq, chained blake3_hex (mk_content (isoformat now) (subject principal) "browse_host_directory" (h_name h +:+ ":" +:+ path) []
         "requested") (load_head audit))].
Proof.
  unfold browse_start. destruct mfa as [[]|]; [|done]. destruct q as [q0|]; [|done]. destruct kid as [key|]; [|done].
  destruct (find_host_in_scope cat scope host_id) as [h|] eqn:Eh; [|done]. destruct (within 1 4096 path); [|done]. cbn [negb].
  unfold append, session_sink, insert_row. cbn [sunk AuditLog.head]. destruct (unique_ok _ _); [|done]. cbn [mbind result_bind sunk].
  destruct (enqueue _ _ q0) as [q1|[]] eqn:Eq; [|done..]. intros [= <- <- <-]. split; [done|].
  apply head_Some_elem_of, list_elem_of_filter in Eh as [[Hid Hsc] Hin]. exists h, key, q0, (next_seq (others audit)).
  split; [exact Hin|]. split; [exact Hid|]. split; [exact Hsc|]. split; [done|]. split; [done|]. split; [exact Eq|]. split; reflexivity.
Qed.

(** The row does not survive a request that times out, although the agent may have served it. *)
Lemma timed_out_browse_leaves_no_row rid before after (q : BrowsePullQueue) :
  _results q !! rid = Some Waiting →
  ∃ q', browse_end rid before after q =
    (Some (Err (mk_http 504 "the agent did not return the listing in time (offline or slow)")), before, q').
Proof. intros H. unfold browse_end, finish. rewrite H. by eexists. Qed.
End Requests.

(** ** Witnesses *)

Definition wit_scandir (p : string) : result string (list DirEntry * option string) :=
  if bool_decide (p = "/data") then Ok ([mk_de "b" "/data/b" (Some false) (Some false) (Some (5, 0)); mk_de "A" "/data/A" (Some false) (Some true) (Some (4096, 0));
    mk_de "l" "/data/l" (Some true) (Some false) (Some (1, 0)); mk_de "z" "/data/z" None None None], None)
  else if bool_decide (p = "/data/A") then Ok ([mk_de "x" "/data/A/x" (Some false) (Some false) (Some (7, 0))], None) else Err "ENOENT".
Definition wit_request : BrowseRequest := mk_browse "r1" "nas" "/data" 2000 true 100 1500 "0123456789abcdef" (wit_time 1000) (wit_time 1030).

Lemma wit_sized : sized wit_scandir.
Proof.
  intros p es b de size m. unfold wit_scandir. repeat case_bool_decide; intros [= <- <-]; rewrite ?elem_of_cons, ?elem_of_nil;
    intros [->|?]; cbn; try (intros [= <- <-]; lia); naive_solver lia.
Qed.

Lemma bounded_subtree_refines_witness :
  _bounded_subtree wit_scandir "/data" 100 (λ _, false) = (12, 2, false) ∧ subtree wit_scandir ["/data"] 12 2.
Proof.
  split; [reflexivity|].
  destruct (bounded_subtree_refines wit_scandir "/data" 100 (λ _, false) wit_sized ltac:(lia)) as (s & f & cut & _ & Hb & Hc & _).
  vm_compute in Hb. injection Hb as <- <- <-. by apply Hc.
Defined.

Lemma list_directory_spec_witness :
  be_name <$> entries (list_directory wit_scandir (λ _, false) (λ _ _, false) wit_request) = ["A"; "b"; "l"] ∧
  rs_path (list_directory wit_scandir (λ _, false) (λ _ _, false) wit_request) = "/data".
Proof.
  split; [by vm_compute|].
  exact (proj1 (proj2 (list_directory_spec wit_scandir (λ _, false) (λ _ _, false) wit_request ltac:(done)))).
Defined.

Lemma browse_start_audited_witness :
  ∃ signed audit' q', browse_start (B := false) wit_hash wit_sign wit_cat (from_grants (grants wit_principal) MANAGE_AGENTS) (Ok ())
      wit_principal (Some "core-1") 1 "/data" "r1" "0123456789abcdef" 30 (wit_time 1000) (λ a, a) empty_db (Some empty_pull) = Ok (signed, audit', q') ∧
    length (rows audit') = 1%nat.
Proof.
  destruct (browse_start (B := false) wit_hash wit_sign wit_cat (from_grants (grants wit_principal) MANAGE_AGENTS) (Ok ())
      wit_principal (Some "core-1") 1 "/data" "r1" "0123456789abcdef" 30 (wit_time 1000) (λ a, a) empty_db (Some empty_pull))
    as [[[signed audit'] q']|] eqn:E; [|vm_compute in E; discriminate E].
  exists signed, audit', q'. split; [done|].
  destruct (browse_start_audited (B := false) wit_hash wit_sign wit_cat _ _ wit_principal _ 1 "/data" "r1" "0123456789abcdef" 30 (wit_time 1000)
    (λ a, a) empty_db _ signed audit' q' E) as (_ & h & key & q0 & seq & _ & _ & _ & _ & _ & _ & _ & ->). reflexivity.
Defined.
