(* ===== verification/Notify.v ===== *)
(** The notification centre ([src/fathom/core/notifications.py], [core/notify/channels.py], [core/notify/service.py],
    [core/catalogue/notification_meta.py], [api/routers/notifications.py]): the bell and the channels it fans out to.

    Times are the instants of the table.  The transport and the secret backend are parameters: what they return or raise.
    The text of an outbound message is UTF-8. *)

From stdpp Require Import gmap sorting.
From S2P Require Import Prelude PyStr Json Sql Rbac.

Local Open Scope Z_scope.


(** ** The table *)

Definition CATEGORIES : list string := ["recommendation"; "problem"; "activity"; "security"].
Definition SEVERITIES : list string := ["info"; "warning"; "critical"].

Record Notification := mk_note {
  n_id : Z; category : string; severity : string; title : string; n_body : string; n_source : string;
  n_host_id : option Z; n_volume_id : option Z; dedup_key : option string; n_created_at : Z; read_at : option Z;
}.

#[export] Instance Notification_eq_dec : EqDecision Notification.
Proof. solve_decision. Defined.

(** The rows by ascending id, and the next id. *)
Record bell := mk_bell { notes : list Notification; next_note : Z }.

Definition empty_bell : bell := mk_bell [] 1.

Definition unread (n : Notification) : bool := bool_decide (read_at n = None).

(** What [emit] raises; [DataError]: PostgreSQL refuses a value that is longer than its column (SQLite would store it). *)
Inductive EmitError := UnknownCategory | UnknownSeverity | MultipleResultsFound | DataError.

(** The widths of the columns, in characters. *)
Definition TITLE_WIDTH : nat := 255.
Definition SOURCE_WIDTH : nat := 64.
Definition DEDUP_WIDTH : nat := 128.

Definition key_fits (key : option string) : bool := match key with Some k => (String.length k <=? DEDUP_WIDTH)%nat | None => true end.

(** ** [core/notifications.py] *)

Definition _visible (scope : option ScopeFilter) (n : Notification) : bool :=
  match scope with
  | None => true
  | Some s => is_global s || match n_host_id n with None => true | Some h => bool_decide (h ∈ host_ids s) end
  end.

Record note_args := mk_args {
  a_category : string; a_title : string; a_source : string; a_body : string; a_severity : string;
  a_host_id : option Z; a_volume_id : option Z; a_dedup_key : option string;
}.

Definition same_event (key : string) (n : Notification) : bool := bool_decide (dedup_key n = Some key) && unread n.

(** The refresh of a repeated event. *)
Definition refreshed (a : note_args) (now : Z) (n : Notification) : Notification :=
  mk_note (n_id n) (category n) (a_severity a) (a_title a) (a_body a) (n_source n) (n_host_id n) (n_volume_id n) (dedup_key n) now (read_at n).

Definition fresh_note (a : note_args) (now : Z) (id : Z) : Notification :=
  mk_note id (a_category a) (a_severity a) (a_title a) (a_body a) (a_source a) (a_host_id a) (a_volume_id a) (a_dedup_key a) now None.

Definition add_note (a : note_args) (now : Z) (b : bell) : Notification * bell :=
  let n := fresh_note a now (next_note b) in (n, mk_bell (notes b ++ [n]) (next_note b + 1)).

(** The flush of the inserted and of the refreshed row; a category or a severity that passed its check fits. *)
Definition flush_insert (a : note_args) (now : Z) (b : bell) : result EmitError (Notification * bell) :=
  if (String.length (a_title a) <=? TITLE_WIDTH)%nat && (String.length (a_source a) <=? SOURCE_WIDTH)%nat && key_fits (a_dedup_key a)
  then Ok (add_note a now b) else Err DataError.

Definition flush_refresh (a : note_args) (now : Z) (key : string) (n : Notification) (b : bell) : result EmitError (Notification * bell) :=
  if (String.length (a_title a) <=? TITLE_WIDTH)%nat
  then Ok (refreshed a now n, mk_bell (update_where (same_event key) (refreshed a now) (notes b)) (next_note b)) else Err DataError.

Definition emit (a : note_args) (now : Z) (b : bell) : result EmitError (Notification * bell) :=
  if negb (bool_decide (a_category a ∈ CATEGORIES)) then Err UnknownCategory
  else if negb (bool_decide (a_severity a ∈ SEVERITIES)) then Err UnknownSeverity
  else match a_dedup_key a with
       | None => flush_insert a now b
       | Some key =>
           match filter (λ n, same_event key n) (notes b) with
           | [] => flush_insert a now b
           | [n] => flush_refresh a now key n b
           | _ => Err MultipleResultsFound
           end
       end.

(** [ORDER BY created_at DESC, id DESC]. *)
Definition newest_note (m n : Notification) : Prop :=
  n_created_at n < n_created_at m ∨ (n_created_at m = n_created_at n ∧ n_id n <= n_id m).

#[export] Instance newest_note_dec : RelDecision newest_note.
Proof. unfold RelDecision, newest_note. intros m n. apply _. Defined.

Definition list_notifications (scope : option ScopeFilter) (unread_only : bool) (cat : option string) (limit : Z) (b : bell) : list Notification :=
  sql_limit limit (stable_sort newest_note (filter (λ n,
    _visible scope n && (negb unread_only || unread n) && match cat with Some c => bool_decide (category n = c) | None => true end) (notes b))).

Definition unread_count (scope : option ScopeFilter) (b : bell) : Z :=
  Z.of_nat (length (filter (λ n, unread n && _visible scope n) (notes b))).

Definition mark (now : Z) (n : Notification) : Notification :=
  mk_note (n_id n) (category n) (severity n) (title n) (n_body n) (n_source n) (n_host_id n) (n_volume_id n) (dedup_key n) (n_created_at n) (Some now).

(** An UPDATE of the unread rows that satisfy [p], with its row count. *)
Definition mark_where (p : Notification → bool) (now : Z) (b : bell) : Z * bell :=
  let q n := unread n && p n in
  (Z.of_nat (length (filter (λ n, q n) (notes b))), mk_bell (update_where q (mark now) (notes b)) (next_note b)).

Definition mark_read (ids : list Z) (scope : option ScopeFilter) (now : Z) (b : bell) : Z * bell :=
  match ids with [] => (0, b) | _ => mark_where (λ n, bool_decide (n_id n ∈ ids) && _visible scope n) now b end.

Definition mark_all_read (scope : option ScopeFilter) (now : Z) (b : bell) : Z * bell := mark_where (_visible scope) now b.

(** ** [core/notify/channels.py] *)

Record notify_settings := mk_notify {
  notifications_enabled : bool; notify_outbound_categories : list string; notify_min_severity : string;
  notify_email_enabled : bool; smtp_host : option string; smtp_port : Z; smtp_tls : bool; smtp_username : option string;
  smtp_password_ref : option string; email_from : option string; email_to : list string;
  notify_chat_enabled : bool; chat_webhook_ref : option string; chat_kind : string; telegram_chat_id : option string;
}.

Record OutboundNote := mk_outbound { o_category : string; o_severity : string; o_title : string; o_body : string; o_source : string }.

Record ChannelResult := mk_channel { channel : string; ok : bool; cr_detail : string }.

(** A message on its way. *)
Inductive message :=
  | Email (host : string) (port : Z) (tls : bool) (username password : option string) (sender : string) (recipients : list string)
      (subject body : string)
  | Post (url : string) (payload : list (string * string)).

Definition rank (severity : string) : option Z :=
  if bool_decide (severity = "info") then Some 0 else if bool_decide (severity = "warning") then Some 1
  else if bool_decide (severity = "critical") then Some 2 else None.

Definition should_dispatch (s : notify_settings) (category severity : string) : bool :=
  match rank severity with
  | None => false
  | Some r => bool_decide (category ∈ notify_outbound_categories s) && (default 1 (rank (notify_min_severity s)) <=? r)
  end.

Definition filled (o : option string) : option string := match o with Some "" | None => None | Some s => Some s end.

Definition _email_configured (s : notify_settings) : bool :=
  match filled (smtp_host s), filled (email_from s), email_to s with Some _, Some _, _ :: _ => true | _, _, _ => false end.

Definition upper_char (c : ascii) : ascii :=
  if (97 <=? code c) && (code c <=? 122) then ascii_of_N (Z.to_N (code c - 32)) else c.
Fixpoint upper (s : string) : string := match s with "" => "" | String c s => String (upper_char c) (upper s) end.

Definition NL : string := String (ascii_of_N 10) "".

Definition _subject (n : OutboundNote) : string := "[Fathomline · " +:+ o_severity n +:+ "] " +:+ o_title n.

Definition _chat_text (n : OutboundNote) : string :=
  PyStr.join NL (["[" +:+ upper (o_severity n) +:+ "] " +:+ o_title n] ++ (if bool_decide (o_body n = "") then [] else [o_body n]) ++ ["— " +:+ o_source n]).

Section Channels.
Context (secret_provider : string → result string string) (transport : message → result string ()).

(** The message of the e-mail channel. *)
Definition _send_email (s : notify_settings) (n : OutboundNote) : result string () :=
  password ← match filled (smtp_password_ref s) with Some ref => p ← secret_provider ref; Ok (Some p) | None => Ok None end;
  match smtp_host s, email_from s with
  | Some host, Some sender =>
      transport (Email host (smtp_port s) (smtp_tls s) (smtp_username s) password sender (email_to s) (_subject n)
        ((if bool_decide (o_body n = "") then o_title n else o_body n) +:+ NL +:+ NL +:+ "— " +:+ o_source n))
  | _, _ => Err "AssertionError"
  end.

Definition _send_chat (s : notify_settings) (n : OutboundNote) : result string () :=
  match chat_webhook_ref s with
  | None => Err "AssertionError"
  | Some ref =>
      secret ← secret_provider ref;
      if bool_decide (secret = "") then Err "chat webhook reference did not resolve" else
      let kind := lower (chat_kind s) in
      let text := _chat_text n in
      if bool_decide (kind = "discord") then transport (Post secret [("content", text)])
      else if bool_decide (kind = "slack") then transport (Post secret [("text", text)])
      else if bool_decide (kind = "telegram") then
        match filled (telegram_chat_id s) with
        | None => Err "telegram chat requires notify_chat_telegram_chat_id"
        | Some id => transport (Post ("https://api.telegram.org/bot" +:+ secret +:+ "/sendMessage") [("chat_id", id); ("text", text)])
        end
      else Err ("unknown chat kind '" +:+ chat_kind s +:+ "'")
  end.

Definition _chat_label (s : notify_settings) : string := "chat:" +:+ lower (chat_kind s).

(** The channels delivered to; an error of one is logged and skipped. *)
Definition dispatch_outbound (s : notify_settings) (n : OutboundNote) : list string :=
  if negb (notifications_enabled s) || negb (should_dispatch s (o_category n) (o_severity n)) then [] else
  (if notify_email_enabled s && _email_configured s then match _send_email s n with Ok _ => ["email"] | Err _ => [] end else []) ++
  (match filled (chat_webhook_ref s) with
   | Some _ => if notify_chat_enabled s then match _send_chat s n with Ok _ => [_chat_label s] | Err _ => [] end else []
   | None => []
   end).

Definition outcome (label : string) (r : result string ()) : ChannelResult :=
  match r with Ok _ => mk_channel label true "sent" | Err e => mk_channel label false e end.

Definition TEST_NOTE : OutboundNote :=
  mk_outbound "activity" "info" "Fathomline test notification" "If you can read this, the channel is configured correctly." "settings".

Definition send_test (s : notify_settings) : list ChannelResult :=
  (if notify_email_enabled s
   then [if _email_configured s then outcome "email" (_send_email s TEST_NOTE) else mk_channel "email" false "missing smtp host / from / recipients"]
   else []) ++
  (if notify_chat_enabled s
   then [match filled (chat_webhook_ref s) with
         | Some _ => outcome (_chat_label s) (_send_chat s TEST_NOTE)
         | None => mk_channel (_chat_label s) false "no webhook reference"
         end]
   else []).

(** ** [core/notify/service.py] *)

Definition outbound_of (a : note_args) : OutboundNote := mk_outbound (a_category a) (a_severity a) (a_title a) (a_body a) (a_source a).

Definition emit_and_dispatch (s : notify_settings) (a : note_args) (now : Z) (b : bell) : result EmitError (Notification * list string * bell) :=
  '(n, b) ← emit a now b; Ok (n, dispatch_outbound s (outbound_of a), b).
End Channels.

(** ** [api/routers/notifications.py] *)

Definition _gate (s : notify_settings) : result HTTPException () :=
  if notifications_enabled s then Ok () else Err (mk_http 403 "notifications are disabled (notifications_enabled=False)").

Record NotificationListOut := mk_listing { items : list Notification; badge : Z }.

Definition get_notifications (s : notify_settings) (scope : ScopeFilter) (unread_only : bool) (cat : option string) (limit : Z) (b : bell)
    : result HTTPException NotificationListOut :=
  _ ← _gate s;
  if match cat with Some c => negb (bool_decide (c ∈ CATEGORIES)) | None => false end then Err (mk_http 422 "unknown category") else
  Ok (mk_listing (list_notifications (Some scope) unread_only cat limit b) (unread_count (Some scope) b)).

Definition get_unread_count (s : notify_settings) (scope : ScopeFilter) (b : bell) : result HTTPException Z :=
  _ ← _gate s; Ok (unread_count (Some scope) b).

Definition post_mark_read (s : notify_settings) (ids : list Z) (scope : ScopeFilter) (now : Z) (b : bell) : result HTTPException (Z * bell) :=
  _ ← _gate s; Ok (mark_read ids (Some scope) now b).

Definition post_mark_all_read (s : notify_settings) (scope : ScopeFilter) (now : Z) (b : bell) : result HTTPException (Z * bell) :=
  _ ← _gate s; Ok (mark_all_read (Some scope) now b).

(** ** Laws of the bell *)

(** Ids are fresh and unique; an event has at most one unread row; keys fit their column. *)
Record bell_ok (b : bell) : Prop := {
  bo_ids : NoDup (n_id <$> notes b);
  bo_next : Forall (λ n, n_id n < next_note b) (notes b);
  bo_keys : NoDup (omap (λ n, if unread n then dedup_key n else None) (notes b));
  bo_width : Forall (λ n, key_fits (dedup_key n) = true) (notes b);
}.

Definition live_keys (l : list Notification) : list string := omap (λ n, if unread n then dedup_key n else None) l.

Lemma same_event_spec key n : same_event key n = true ↔ (if unread n then dedup_key n else None) = Some key.
Proof. unfold same_event. rewrite andb_true_iff, bool_decide_eq_true. destruct (unread n); naive_solver. Qed.

Lemma live_keys_filter key l : filter (λ n, same_event key n) l = [] ↔ key ∉ live_keys l.
Proof.
  unfold live_keys. rewrite list_elem_of_omap. split.
  - intros He (n & Hn & Hk). apply same_event_spec in Hk. assert (n ∈ filter (λ n, same_event key n) l) as Hin by (apply list_elem_of_filter; by rewrite Hk).
    rewrite He in Hin. by apply elem_of_nil in Hin.
  - intros Hk. apply filter_none_b. intros n Hn. destruct (same_event key n) eqn:E; [|done]. apply same_event_spec in E. exfalso. eauto.
Qed.

(** One live row per key: the selection of [emit] has at most one row. *)
Lemma live_unique key l : NoDup (live_keys l) → (length (filter (λ n, same_event key n) l) <= 1)%nat.
Proof.
  induction l as [|n l IH]; [cbn; lia|]. unfold live_keys. cbn [omap list_omap]. fold (live_keys l).
  destruct (if unread n then dedup_key n else None) as [k|] eqn:Ek.
  - intros [Hk Hn]%NoDup_cons. specialize (IH Hn). rewrite filter_cons. case_decide as Hs; [|done].
    apply Is_true_true, same_event_spec in Hs. rewrite Ek in Hs. injection Hs as <-.
    apply live_keys_filter in Hk. rewrite Hk. cbn. lia.
  - intros Hn. rewrite filter_cons_False; [by apply IH|]. intros Hs%Is_true_true%same_event_spec. by rewrite Ek in Hs.
Qed.

Lemma live_keys_update q f l :
  (∀ n, q n = true → unread (f n) = unread n ∧ dedup_key (f n) = dedup_key n) → live_keys (update_where q f l) = live_keys l.
Proof.
  intros Hf. unfold live_keys, update_where. induction l as [|n l IH]; [done|]. cbn. rewrite IH.
  destruct (q n) eqn:E; [|done]. by destruct (Hf n E) as [-> ->].
Qed.

Lemma live_keys_mark q now l : live_keys (update_where q (mark now) l) = live_keys (filter (λ n, negb (q n)) l).
Proof.
  unfold live_keys, update_where. induction l as [|n l IH]; [done|]. rewrite filter_cons. cbn [fmap list_fmap omap list_omap]. destruct (q n); cbn; [|by rewrite IH].
  exact IH.
Qed.

Lemma live_keys_sublist l l' : sublist l l' → sublist (live_keys l) (live_keys l').
Proof. unfold live_keys. induction 1 as [|n l l' _ IH|n l l' _ IH]; cbn; [constructor|case_match; by repeat constructor|case_match; by repeat constructor]. Qed.

Lemma update_keeps_ids q f b : (∀ n, n_id (f n) = n_id n) → (∀ n, dedup_key (f n) = dedup_key n) → bell_ok b →
  NoDup (n_id <$> update_where q f (notes b)) ∧ Forall (λ n, n_id n < next_note b) (update_where q f (notes b)) ∧
  Forall (λ n, key_fits (dedup_key n) = true) (update_where q f (notes b)).
Proof.
  intros Hf Hd [Hi Hn _ Hw]. split; [by rewrite update_where_keys|]. rewrite Forall_forall in Hn, Hw. unfold update_where.
  split; apply Forall_forall; intros n (m & -> & Hm)%list_elem_of_fmap; specialize (Hn m Hm); specialize (Hw m Hm); destruct (q m); by rewrite ?Hf, ?Hd.
Qed.

Lemma mark_where_ok p now b : bell_ok b → bell_ok (mark_where p now b).2.
Proof.
  intros Hb. destruct (update_keeps_ids (λ n, unread n && p n) (mark now) b) as (H1 & H2 & H3); [done..|]. split; [done|done| |done].
  cbn. fold (live_keys (update_where (λ n, unread n && p n) (mark now) (notes b))). rewrite live_keys_mark.
  eapply sublist_NoDup; [apply (bo_keys b Hb)|]. apply live_keys_sublist, sublist_filter.
Qed.

Lemma add_note_ok a now b : key_fits (a_dedup_key a) = true → bell_ok b → (∀ key, a_dedup_key a = Some key → key ∉ live_keys (notes b)) → bell_ok (add_note a now b).2.
Proof.
  intros Hf [Hi Hn Hk Hw] Hnew. split; cbn [add_note snd notes next_note]; [| | |apply Forall_app; split; [done|by repeat constructor]].
  - rewrite fmap_app. apply NoDup_app. split_and!; [done| |apply NoDup_singleton]. intros i (n & -> & Hin)%list_elem_of_fmap Hl.
    change (n_id <$> [fresh_note a now (next_note b)]) with [next_note b] in Hl. apply list_elem_of_singleton in Hl.
    rewrite Forall_forall in Hn. specialize (Hn n Hin). lia.
  - apply Forall_app. split; [|constructor; [cbn; lia|constructor]]. eapply Forall_impl; [exact Hn|]. cbn. lia.
  - rewrite omap_app. fold (live_keys (notes b)). cbn. destruct (a_dedup_key a) as [key|]; [|by rewrite app_nil_r].
    apply NoDup_app. split_and!; [done| |apply NoDup_singleton]. intros k Hin ->%list_elem_of_singleton. by apply (Hnew key).
Qed.

(** The row an event ends in. *)
Definition shows (a : note_args) (now : Z) (n : Notification) : Prop :=
  unread n = true ∧ title n = a_title a ∧ n_body n = a_body a ∧ severity n = a_severity a ∧ dedup_key n = a_dedup_key a ∧ n_created_at n = now.

(** What a successful [emit] leaves. *)
Record emitted (a : note_args) (now : Z) (b : bell) (n : Notification) (b' : bell) : Prop := {
  em_title : (String.length (a_title a) <= TITLE_WIDTH)%nat;
  em_key : key_fits (a_dedup_key a) = true;
  em_ok : bell_ok b';
  em_in : n ∈ notes b';
  em_shows : shows a now n;
  em_keeps m : m ∈ notes b → m ∈ notes b' ∨ (n_id m = n_id n ∧ ∃ key, a_dedup_key a = Some key ∧ dedup_key m = Some key ∧ unread m = true);
}.

Definition note_fits (a : note_args) : bool :=
  (String.length (a_title a) <=? TITLE_WIDTH)%nat && (String.length (a_source a) <=? SOURCE_WIDTH)%nat && key_fits (a_dedup_key a).

Lemma flush_insert_cases a now b :
  bell_ok b → (∀ key, a_dedup_key a = Some key → key ∉ live_keys (notes b)) →
  (flush_insert a now b = Err DataError ∧ note_fits a = false) ∨ ∃ n b', flush_insert a now b = Ok (n, b') ∧ emitted a now b n b'.
Proof.
  intros Hb Hnew. unfold flush_insert. fold (note_fits a). destruct (note_fits a) eqn:Ef; [right|by left]. do 2 eexists. split; [done|].
  unfold note_fits in Ef. apply andb_true_iff in Ef as [[Ht%Nat.leb_le _]%andb_true_iff Hk]. split; try done.
  - by apply (add_note_ok a now).
  - apply elem_of_app. right. left.
  - intros m Hm. left. apply elem_of_app. by left.
Qed.

Lemma flush_refresh_cases a now key n b :
  bell_ok b → a_dedup_key a = Some key → filter (λ n, same_event key n) (notes b) = [n] →
  (flush_refresh a now key n b = Err DataError ∧ note_fits a = false) ∨ ∃ b', flush_refresh a now key n b = Ok (refreshed a now n, b') ∧ emitted a now b (refreshed a now n) b'.
Proof.
  intros Hb Ek Ef. unfold flush_refresh. destruct (Nat.leb_spec (String.length (a_title a)) TITLE_WIDTH) as [Ht|Ht].
  2:{ left. split; [done|]. unfold note_fits. by rewrite (proj2 (Nat.leb_gt _ _) Ht). }
  right. eexists. split; [done|].
  assert (n ∈ filter (λ n, same_event key n) (notes b)) as Hn by (rewrite Ef; left). apply list_elem_of_filter in Hn as [Hse%Is_true_true Hin].
  destruct (update_keeps_ids (same_event key) (refreshed a now) b) as (H1 & H2 & H3); [done..|].
  pose proof Hse as Hse'. unfold same_event in Hse'. apply andb_true_iff in Hse' as [Hk Hu]. apply bool_decide_eq_true in Hk. split; cbn [notes].
  - done.
  - rewrite Ek, <- Hk. pose proof (bo_width b Hb) as Hw. rewrite Forall_forall in Hw. by apply Hw.
  - split; [done|done| |done]. cbn [notes]. fold (live_keys (update_where (same_event key) (refreshed a now) (notes b))).
    rewrite live_keys_update; [apply Hb|done].
  - unfold update_where. apply list_elem_of_fmap. exists n. by rewrite Hse.
  - split_and!; try done. by rewrite Ek.
  - intros m Hm. destruct (same_event key m) eqn:Em.
    + right. assert (m ∈ filter (λ n, same_event key n) (notes b)) as Hm' by (apply list_elem_of_filter; by rewrite Em).
      rewrite Ef in Hm'. apply list_elem_of_singleton in Hm' as ->. split; [done|]. by exists key.
    + left. unfold update_where. apply list_elem_of_fmap. exists m. by rewrite Em.
Qed.

Lemma emit_cases a now b r :
  bell_ok b → emit a now b = r →
  match r with
  | Err MultipleResultsFound => False
  | Err UnknownCategory => a_category a ∉ CATEGORIES
  | Err UnknownSeverity => a_severity a ∉ SEVERITIES
  | Err DataError => note_fits a = false
  | Ok (n, b') => emitted a now b n b'
  end.
Proof.
  intros Hb <-. unfold emit. case_bool_decide as Hc; cbn [negb]; [|done]. case_bool_decide as Hs; cbn [negb]; [|done].
  destruct (a_dedup_key a) as [key|] eqn:Ek.
  2:{ destruct (flush_insert_cases a now b Hb) as [[-> ?]|(n & b' & -> & ?)]; [by rewrite Ek|done|done]. }
  pose proof (live_unique key (notes b) (bo_keys b Hb)) as Hlen. destruct (filter _ (notes b)) as [|n [|? ?]] eqn:Ef; [..|cbn in Hlen; lia].
  - destruct (flush_insert_cases a now b Hb) as [[-> ?]|(n & b' & -> & ?)]; [|done|done]. rewrite Ek. intros k [= <-]. by apply live_keys_filter.
  - destruct (flush_refresh_cases a now key n b Hb Ek Ef) as [[-> ?]|(b' & -> & ?)]; done.
Qed.

(** ** Histories *)

Inductive bell_op := BEmit (a : note_args) (now : Z) | BRead (ids : list Z) (scope : option ScopeFilter) (now : Z) | BReadAll (scope : option ScopeFilter) (now : Z).

Definition bell_step (op : bell_op) (b : bell) : bell :=
  match op with
  | BEmit a now => match emit a now b with Ok (_, b) => b | Err _ => b end
  | BRead ids scope now => (mark_read ids scope now b).2
  | BReadAll scope now => (mark_all_read scope now b).2
  end.

Definition bell_run (ops : list bell_op) (b : bell) : bell := foldl (λ b op, bell_step op b) b ops.

Lemma bell_step_ok op b : bell_ok b → bell_ok (bell_step op b).
Proof.
  intros Hb. destruct op as [a now|ids scope now|scope now]; cbn [bell_step].
  - pose proof (emit_cases a now b _ Hb eq_refl) as H. destruct (emit a now b) as [[n b']|]; [by apply H|done].
  - destruct ids; [done|]. by apply mark_where_ok.
  - by apply mark_where_ok.
Qed.

Lemma bell_run_ok ops b : bell_ok b → bell_ok (bell_run ops b).
Proof. unfold bell_run. revert b. induction ops as [|op ops IH]; intros b Hb; [done|]. cbn. by apply IH, bell_step_ok. Qed.

Lemma empty_bell_ok : bell_ok empty_bell.
Proof. split; cbn; constructor. Qed.

(** However events are raised and read, and by whom: an event has at most one unread row, raising it never fails for that reason, and
    the row then shows its last title, body and severity; every other row is left as it was. *)
Theorem bell_coalesces ops a now :
  let b := bell_run ops empty_bell in
  NoDup (live_keys (notes b)) ∧
  match emit a now b with
  | Ok (n, b') => n ∈ notes b' ∧ shows a now n ∧ NoDup (n_id <$> notes b') ∧ NoDup (live_keys (notes b')) ∧
      ∀ m, m ∈ notes b → m ∈ notes b' ∨ (n_id m = n_id n ∧ ∃ key, a_dedup_key a = Some key ∧ dedup_key m = Some key ∧ unread m = true)
  | Err e => (a_category a ∉ CATEGORIES ∨ a_severity a ∉ SEVERITIES ∨ note_fits a = false) ∧ e ≠ MultipleResultsFound
  end.
Proof.
  cbn zeta. pose proof (bell_run_ok ops empty_bell empty_bell_ok) as Hb. split; [apply Hb|].
  pose proof (emit_cases a now _ _ Hb eq_refl) as H. destruct (emit a now _) as [[n b']|[]]; [|by auto..|done|by auto].
  destruct H as [? ? Hb' ? ? ?]. split_and!; [done|done|apply Hb'|apply Hb'|done].
Qed.

(** ** Scope *)

Definition may_see (scope : ScopeFilter) (n : Notification) : Prop :=
  is_global scope = true ∨ n_host_id n = None ∨ ∃ h, n_host_id n = Some h ∧ h ∈ host_ids scope.

Lemma visible_spec scope n : _visible (Some scope) n = true ↔ may_see scope n.
Proof.
  unfold _visible, may_see. rewrite orb_true_iff. destruct (n_host_id n) as [h|]; [rewrite bool_decide_eq_true|]; naive_solver.
Qed.

#[export] Instance newest_total : Total newest_note.
Proof. intros m n. unfold newest_note. lia. Qed.

#[export] Instance newest_trans : Transitive newest_note.
Proof. intros l m n. unfold newest_note. lia. Qed.

(** The bell shows a caller only notifications of the whole estate or of a host in scope, newest first, with the count of the unread
    ones; and what the caller marks read changes only such rows, each at most once, by the count it returns. *)
Lemma bell_respects_scope s scope unread_only cat limit b out :
  get_notifications s scope unread_only cat limit b = Ok out →
  (∀ n, n ∈ items out → n ∈ notes b ∧ may_see scope n ∧ (unread_only = true → unread n = true) ∧ (∀ c, cat = Some c → category n = c)) ∧
  StronglySorted newest_note (items out) ∧
  badge out = Z.of_nat (length (filter (λ n, unread n && _visible (Some scope) n) (notes b))) ∧
  ∀ now ids count b', post_mark_read s ids scope now b = Ok (count, b') →
    length (notes b') = length (notes b) ∧
    ∀ i n, notes b !! i = Some n → notes b' !! i = Some n ∨ (notes b' !! i = Some (mark now n) ∧ n_id n ∈ ids ∧ may_see scope n ∧ unread n = true).
Proof.
  unfold get_notifications, post_mark_read, _gate. destruct (notifications_enabled s); [|done]. cbn [mbind result_bind].
  destruct (match cat with Some c => _ | None => false end); [done|]. intros [= <-]. cbn [items badge].
  assert (StronglySorted newest_note (list_notifications (Some scope) unread_only cat limit b) ∧
    ∀ n, n ∈ list_notifications (Some scope) unread_only cat limit b → n ∈ filter (λ n,
      _visible (Some scope) n && (negb unread_only || unread n) && match cat with Some c => bool_decide (category n = c) | None => true end) (notes b))
    as [Hsort Hin].
  { unfold list_notifications. set (l := filter _ (notes b)). set (f := stable_sort newest_note l).
    assert (StronglySorted newest_note f) as Hf by (apply StronglySorted_stable_sort; apply _).
    assert (∀ n, n ∈ f → n ∈ l) as Hl by (intros n; unfold f; by rewrite stable_sort_Permutation).
    unfold sql_limit. destruct (limit <? 0); [done|]. rewrite <- (take_drop (Z.to_nat limit) f) in Hf. split.
    - by eapply StronglySorted_app_1_l.
    - intros n Hn. apply Hl. rewrite <- (take_drop (Z.to_nat limit) f). apply elem_of_app. by left. }
  split; [|split; [done|split; [done|]]].
  - intros n [Hp Hn]%Hin%list_elem_of_filter. apply Is_true_true in Hp. rewrite !andb_true_iff, visible_spec in Hp. destruct Hp as [[Hv Hu] Hc].
    split_and!; [done..| |].
    + intros ->. by destruct (unread n).
    + intros c ->. by apply bool_decide_eq_true in Hc.
  - intros now ids count b'. unfold mark_read, mark_where. destruct ids as [|i0 ids]; [intros [= <- <-]; by auto|]. intros [= <- <-]. cbn [notes].
    split; [unfold update_where; by rewrite length_fmap|]. intros i n Hi. unfold update_where. rewrite list_lookup_fmap, Hi. cbn [fmap option_fmap option_map].
    destruct (unread n && _) eqn:E; [|by left]. cbv beta in E. apply andb_true_iff in E as [Hu E]. apply andb_true_iff in E as [Hid Hv]. apply bool_decide_eq_true in Hid. apply visible_spec in Hv. by right.
Qed.
