(* ===== verification/Watch.v ===== *)
(** The proactive watcher ([src/fathom/core/watch.py], [workers/watch.py], and [growth_forecast] of
    [core/concierge/queries.py]): capacity, days-to-full and stale-scan rules over the catalogue, and the tick that raises their
    alerts into the bell.

    Floats are the rationals they approximate, given as a numerator over a positive denominator; times are microseconds.  A number is
    printed with the rounding of its format, half to even. *)

From stdpp Require Import gmap sorting pretty.
From S2P Require Import Prelude PyStr Json Sql PosixPath Rbac Coordinator Catalogue Notify.

Local Open Scope Z_scope.


(** ** Numbers *)

(** [round(num / den)], half to even, for [den > 0]. *)
Definition round_half_even (num den : Z) : Z :=
  let q := num / den in
  let r := num mod den in
  if 2 * r <? den then q else if den <? 2 * r then q + 1 else if Z.even q then q else q + 1.

(** [f"{num/den:.0f}"] and [f"{num/den:.1f}"]. *)
Definition fmt0 (num den : Z) : string := pretty (round_half_even num den).
Definition fmt1 (num den : Z) : string :=
  let t := round_half_even (num * 10) den in
  (if t <? 0 then "-" else "") +:+ pretty (Z.abs t / 10) +:+ "." +:+ pretty (Z.abs t mod 10).

(** ** The rules *)

Record WatchAlert := mk_alert {
  w_category : string; w_severity : string; w_title : string; w_body : string; w_host_id : option Z; w_volume_id : option Z; w_dedup_key : string;
}.

Definition _SOURCE : string := "watch".

Definition _label (v : Volume) : string := match filled (v_display_name v) with Some d => d | None => mountpoint v end.

Definition capacity_alert (v : Volume) (warn_percent critical_percent : Z) : option WatchAlert :=
  if v_total v <=? 0 then None else
  match (if critical_percent * v_total v <=? v_used v * 100 then Some "critical"
         else if warn_percent * v_total v <=? v_used v * 100 then Some "warning" else None) with
  | None => None
  | Some severity =>
      Some (mk_alert "problem" severity (_label v +:+ " is " +:+ fmt0 (v_used v * 100) (v_total v) +:+ "% full")
        (fmt1 (v_free v) (1024 ^ 3) +:+ " GB free on " +:+ _label v +:+ ".") (Some (v_host_id v)) (Some (v_id v))
        ("capacity:vol=" +:+ pretty (v_id v)))
  end.

(** [days_to_full]: a quotient. *)
Definition forecast_alert (v : Volume) (days_to_full : option (Z * Z)) (warn_days : Z) : option WatchAlert :=
  match days_to_full with
  | None => None
  | Some (num, den) =>
      if warn_days * den <? num then None else
      Some (mk_alert "problem" "warning" (_label v +:+ " will be full in ~" +:+ fmt0 num den +:+ " days")
        ("At the current growth rate " +:+ _label v +:+ " runs out of space in about " +:+ fmt0 num den +:+ " days. Plan cleanup or expansion.")
        (Some (v_host_id v)) (Some (v_id v)) ("forecast:vol=" +:+ pretty (v_id v)))
  end.

Definition HOUR : Z := 3600 * 1000000.

(** The age is in microseconds. *)
Definition _age_phrase (age : Z) : string :=
  if age <? 48 * HOUR then fmt0 age HOUR +:+ " hours" else fmt0 age (24 * HOUR) +:+ " days".

Definition stale_scan_alert (host_id : Z) (host_name : string) (last_run_finished : option Z) (now stale_hours : Z) : option WatchAlert :=
  if stale_hours <=? 0 then None else
  match last_run_finished with
  | None => None
  | Some finished =>
      let age := now - finished in
      if age <=? stale_hours * HOUR then None else
      let phrase := _age_phrase age in
      Some (mk_alert "problem" (if stale_hours * 4 * HOUR <? age then "critical" else "warning")
        (host_name +:+ " hasn't completed a scan in " +:+ phrase)
        ("The last successful scan on " +:+ host_name +:+ " finished " +:+ phrase +:+ " ago (alert threshold " +:+ pretty stale_hours +:+
         "h). Its scheduled scan may be failing silently — check the agent and the core's ingest health.")
        (Some host_id) None ("stale-scan:host=" +:+ pretty host_id))
  end.

(** ** [growth_forecast] *)

Definition DAY : Z := 86400 * 1000000.

(** The daily growth and the days to full, as quotients. *)
Record GrowthForecast := mk_forecast { current_size : Z; daily_growth_bytes : Z * Z; days_to_full : option (Z * Z) }.

(** The slope of the least squares line: covariance over variance, both times the square of the number of points.  The origin of the
    times cancels. *)
Definition slope (xs ys : list Z) : Z * Z :=
  let n := Z.of_nat (length xs) in
  let sxy := sumZ (zip_with Z.mul xs ys) in
  let cov := n * sxy - sumZ xs * sumZ ys in
  let denom := n * sumZ (zip_with Z.mul xs xs) - sumZ xs * sumZ xs in
  if denom =? 0 then (0, 1) else (cov, denom).

Definition oldest_first (a b : SizeHistory) : Prop := hi_ts a <= hi_ts b.

#[export] Instance oldest_first_dec : RelDecision oldest_first.
Proof. unfold RelDecision, oldest_first. intros a b. apply _. Defined.

Definition growth_forecast (cat : catalogue) (volume_id : Z) (path : string) (lookback_days : Z) (now : option Z) : option GrowthForecast :=
  match hd_error (filter (λ v, v_id v = volume_id) (volumes cat)) with
  | None => None
  | Some v =>
      let since := match now with Some t => if 0 <? lookback_days then Some (t - lookback_days * DAY) else None | None => None end in
      let points := stable_sort oldest_first (filter (λ h, bool_decide (hi_volume_id h = volume_id) && bool_decide (hi_path h = path) &&
        match since with Some s => s <=? hi_ts h | None => true end) (size_history cat)) in
      match last points with
      | None => None
      | Some newest =>
          if (length points <? 2)%nat then None else
          let t0 := match points with p :: _ => hi_ts p | [] => 0 end in
          let '(num, den) := slope ((λ p, hi_ts p - t0) <$> points) (hi_size_on_disk <$> points) in
          let daily := (num * DAY, den) in
          Some (mk_forecast (hi_size_on_disk newest) daily
            (if (0 <? daily.1) && (0 <? v_free v) then Some (v_free v * daily.2, daily.1) else None))
      end
  end.

(** ** [evaluate] *)

Record watch_settings := mk_watch {
  watch_enabled : bool; watch_capacity_warn_percent : Z; watch_capacity_critical_percent : Z; watch_days_to_full_warn : Z;
  watch_scan_stale_hours : Z;
}.

Definition option_list {A} (o : option A) : list A := match o with Some a => [a] | None => [] end.

Definition volume_alerts (cat : catalogue) (s : watch_settings) (now : option Z) (v : Volume) : list WatchAlert :=
  option_list (capacity_alert v (watch_capacity_warn_percent s) (watch_capacity_critical_percent s)) ++
  match growth_forecast cat (v_id v) (mountpoint v) 30 now with
  | Some f => option_list (forecast_alert v (days_to_full f) (watch_days_to_full_warn s))
  | None => []
  end.

(** [SELECT host_id, max(finished_at) ... GROUP BY host_id]. *)
Definition last_finished (runs : list AgentRun) (host : Z) : option Z :=
  match finished_at <$> filter (λ r, r_host_id r = host) runs with
  | [] => None
  | t :: ts => Some (foldl Z.max t ts)
  end.

Definition evaluate (cat : catalogue) (runs : list AgentRun) (s : watch_settings) (now : option Z) (clock : Z) : list WatchAlert :=
  (volumes cat ≫= volume_alerts cat s now) ++
  (hosts cat ≫= λ h, match last_finished runs (h_id h) with
                     | None => []
                     | Some t => option_list (stale_scan_alert (h_id h) (h_name h) (Some t) (default clock now) (watch_scan_stale_hours s))
                     end).

(** ** [WatchWorker.tick] *)

Definition alert_args (a : WatchAlert) : note_args :=
  mk_args (w_category a) (w_title a) _SOURCE (w_body a) (w_severity a) (w_host_id a) (w_volume_id a) (Some (w_dedup_key a)).

Section Tick.
Context (secret_provider : string → result string string) (transport : message → result string ()).

(** The loop over the alerts, with the clock of each; the channels each one reached. *)
Fixpoint raise_alerts (ns : notify_settings) (alerts : list (WatchAlert * Z)) (b : bell) : result EmitError (list (list string) * bell) :=
  match alerts with
  | [] => Ok ([], b)
  | (a, now) :: rest =>
      '(_, sent, b) ← emit_and_dispatch secret_provider transport ns (alert_args a) now b;
      '(sents, b) ← raise_alerts ns rest b;
      Ok (sent :: sents, b)
  end.

(** One tick: a transaction, so an exception leaves the bell as it was.  [clocks] are the times of the alerts. *)
Definition tick (cat : catalogue) (runs : list AgentRun) (s : watch_settings) (ns : notify_settings) (clock : Z) (clocks : nat → Z) (b : bell)
    : result EmitError (Z * list (list string) * bell) :=
  if negb (watch_enabled s && notifications_enabled ns) then Ok (0, [], b) else
  let alerts := evaluate cat runs s None clock in
  '(sents, b) ← raise_alerts ns (imap (λ i a, (a, clocks i)) alerts) b;
  Ok (Z.of_nat (length alerts), sents, b).
End Tick.

(** ** The forecast *)

Lemma sum_sq_dev x l : sumZ ((λ y, (y - x) * (y - x)) <$> l) = sumZ (zip_with Z.mul l l) - 2 * x * sumZ l + Z.of_nat (length l) * (x * x).
Proof. induction l as [|y l IH]; [cbn; lia|]. rewrite fmap_cons. cbn [zip_with length]. rewrite !sumZ_cons, IH. lia. Qed.

(** The variance is not negative. *)
Lemma variance_nonneg l : 0 <= Z.of_nat (length l) * sumZ (zip_with Z.mul l l) - sumZ l * sumZ l.
Proof.
  induction l as [|x l IH]; [cbn; lia|]. cbn [zip_with length]. rewrite !sumZ_cons.
  assert (0 <= sumZ ((λ y, (y - x) * (y - x)) <$> l)) as Hd.
  { apply sumZ_nonneg, Forall_forall. intros ? (y & -> & _)%list_elem_of_fmap. apply Z.square_nonneg. }
  rewrite sum_sq_dev in Hd. lia.
Qed.

Lemma variance_zero l : Z.of_nat (length l) * sumZ (zip_with Z.mul l l) - sumZ l * sumZ l = 0 → ∀ x y, x ∈ l → y ∈ l → x = y.
Proof.
  induction l as [|z l IH]; [intros _ x y Hx; by apply elem_of_nil in Hx|]. cbn [zip_with length]. rewrite !sumZ_cons. intros H0.
  pose proof (variance_nonneg l) as Hv. pose proof (sum_sq_dev z l) as Hs.
  assert (Forall (λ u, 0 <= u) ((λ y, (y - z) * (y - z)) <$> l)) as Hn by (apply Forall_forall; intros ? (y & -> & _)%list_elem_of_fmap; apply Z.square_nonneg).
  assert (sumZ ((λ y, (y - z) * (y - z)) <$> l) = 0) as Hz by (pose proof (sumZ_nonneg _ Hn); lia).
  assert (∀ y, y ∈ l → y = z) as Hl.
  { clear -Hz Hn. induction l as [|u l IH]; [by intros ? ?%elem_of_nil|]. rewrite fmap_cons in *. rewrite sumZ_cons in Hz.
    apply Forall_cons in Hn as [Hu Hn]. pose proof (sumZ_nonneg _ Hn). cbv beta in Hu, Hz. intros y [->|Hy]%elem_of_cons.
    - assert ((u - z) * (u - z) = 0) as [?|?]%Z.mul_eq_0 by lia; lia.
    - apply IH; try done; lia. }
  intros x y [->|Hx]%elem_of_cons [->|Hy]%elem_of_cons; rewrite ?(Hl x), ?(Hl y); done.
Qed.

(** On a line the least squares slope is the slope of the line. *)
Lemma slope_line q p c xs ys :
  length ys = length xs → (∀ i x y, xs !! i = Some x → ys !! i = Some y → q * y = c + p * x) →
  q * (Z.of_nat (length xs) * sumZ (zip_with Z.mul xs ys) - sumZ xs * sumZ ys) =
  p * (Z.of_nat (length xs) * sumZ (zip_with Z.mul xs xs) - sumZ xs * sumZ xs).
Proof.
  intros Hl Hp.
  assert (q * sumZ ys = Z.of_nat (length xs) * c + p * sumZ xs ∧ q * sumZ (zip_with Z.mul xs ys) = c * sumZ xs + p * sumZ (zip_with Z.mul xs xs)) as [H1 H2].
  { revert ys Hl Hp. induction xs as [|x xs IH]; intros [|y ys] Hl Hp; try done; [cbn; lia|].
    destruct (IH ys) as [H1 H2]; [by injection Hl|intros i; apply (Hp (S i))|]. pose proof (Hp O x y eq_refl eq_refl) as H0.
    cbn [zip_with length]. rewrite !sumZ_cons. split; [lia|]. nia. }
  transitivity (Z.of_nat (length xs) * (q * sumZ (zip_with Z.mul xs ys)) - sumZ xs * (q * sumZ ys)); [ring|]. rewrite H1, H2. ring.
Qed.

(** On a volume that grows at a steady rate of [p] bytes in [q] microseconds, the forecast is the free space over that rate; any history of
    points with two different times will do. *)
Theorem forecast_of_steady_growth cat v path p q c :
  hd_error (filter (λ w, v_id w = v_id v) (volumes cat)) = Some v → 0 < p → 0 < q → 0 < v_free v →
  (∀ h, h ∈ size_history cat → hi_volume_id h = v_id v → hi_path h = path → q * hi_size_on_disk h = c + p * hi_ts h) →
  (∃ g h, g ∈ size_history cat ∧ h ∈ size_history cat ∧ hi_volume_id g = v_id v ∧ hi_path g = path ∧ hi_volume_id h = v_id v ∧
     hi_path h = path ∧ hi_ts g ≠ hi_ts h) →
  ∃ f num den, growth_forecast cat (v_id v) path 30 None = Some f ∧ days_to_full f = Some (num, den) ∧ 0 < den ∧
    num * (p * DAY) = v_free v * q * den.
Proof.
  intros Hv Hp Hq Hfree Hline (g & h & Hg & Hh & Hg1 & Hg2 & Hh1 & Hh2 & Hts). unfold growth_forecast. rewrite Hv.
  set (points := stable_sort oldest_first _).
  assert (∀ x, x ∈ points ↔ x ∈ size_history cat ∧ hi_volume_id x = v_id v ∧ hi_path x = path) as Hin.
  { intros x. unfold points. rewrite stable_sort_Permutation, list_elem_of_filter. rewrite andb_true_r, Is_true_true, andb_true_iff, !bool_decide_eq_true. tauto. }
  assert (g ∈ points ∧ h ∈ points) as [Hgp Hhp] by (rewrite !Hin; auto).
  destruct (last points) as [newest|] eqn:El; [|apply last_None in El; rewrite El in Hgp; by apply elem_of_nil in Hgp].
  destruct (Nat.ltb_spec (length points) 2) as [Hl|Hl].
  { exfalso. destruct points as [|x [|y l]]; [by apply elem_of_nil in Hgp| |cbn in Hl; lia].
    apply list_elem_of_singleton in Hgp as ->, Hhp as ->. done. }
  set (t0 := match points with x :: _ => hi_ts x | [] => 0 end). clearbody t0.
  set (xs := (λ x, hi_ts x - t0) <$> points). set (ys := hi_size_on_disk <$> points).
  assert (length ys = length xs) as Hlen by (unfold xs, ys; by rewrite !length_fmap).
  assert (∀ i x y, xs !! i = Some x → ys !! i = Some y → q * y = (c + p * t0) + p * x) as Hxy.
  { intros i x y. unfold xs, ys. rewrite !list_lookup_fmap. destruct (points !! i) as [e|] eqn:Ei; [|done]. cbn. intros [= <-] [= <-].
    apply list_elem_of_lookup_2, Hin in Ei as (He & H1 & H2). rewrite (Hline e He H1 H2). lia. }
  pose proof (slope_line q p _ xs ys Hlen Hxy) as Hs. pose proof (variance_nonneg xs) as Hvn. unfold slope.
  destruct (Z.eqb_spec (Z.of_nat (length xs) * sumZ (zip_with Z.mul xs xs) - sumZ xs * sumZ xs) 0) as [Hz|Hz].
  { exfalso. apply Hts. assert (hi_ts g - t0 = hi_ts h - t0); [|lia]. apply (variance_zero xs Hz); unfold xs; by apply (list_elem_of_fmap_2 (λ x, hi_ts x - t0)). }
  set (cov := _ - sumZ xs * sumZ ys) in *. set (den := _ - sumZ xs * sumZ xs) in *.
  assert (0 < den) as Hden by lia. assert (0 < cov) as Hcov by nia.
  cbn [fst snd]. rewrite (proj2 (Z.ltb_lt 0 (cov * DAY))) by (unfold DAY; lia). rewrite (proj2 (Z.ltb_lt 0 (v_free v))) by done. cbn [andb].
  do 3 eexists. split; [done|]. split; [done|]. split; [unfold DAY; lia|]. clearbody cov den. unfold DAY. nia.
Qed.

(** ** The alerts of a sweep *)

Lemma capacity_alert_some v w c a : capacity_alert v w c = Some a →
  w_dedup_key a = "capacity:vol=" +:+ pretty (v_id v) ∧ w_category a ∈ CATEGORIES ∧ w_severity a ∈ SEVERITIES.
Proof.
  unfold capacity_alert. destruct (_ <=? 0); [done|]. destruct (_ <=? _); [|destruct (_ <=? _)]; intros [= <-]; cbn [w_dedup_key w_category w_severity];
    (split; [done|split; by apply (bool_decide_unpack _)]).
Qed.

Lemma forecast_alert_some v d w a : forecast_alert v d w = Some a →
  w_dedup_key a = "forecast:vol=" +:+ pretty (v_id v) ∧ w_category a ∈ CATEGORIES ∧ w_severity a ∈ SEVERITIES.
Proof.
  unfold forecast_alert. destruct d as [[num den]|]; [|done]. destruct (_ <? _); intros [= <-]; cbn [w_dedup_key w_category w_severity].
  split; [done|split; by apply (bool_decide_unpack _)].
Qed.

Lemma stale_alert_some h name t now hours a : stale_scan_alert h name t now hours = Some a →
  w_dedup_key a = "stale-scan:host=" +:+ pretty h ∧ w_category a ∈ CATEGORIES ∧ w_severity a ∈ SEVERITIES.
Proof.
  unfold stale_scan_alert. destruct (_ <=? 0); [done|]. destruct t as [t|]; [|done]. cbv zeta. destruct (_ <=? _); intros [= <-].
  cbn [w_dedup_key w_category w_severity]. split; [done|]. split; [by apply (bool_decide_unpack _)|]. case_match; by apply (bool_decide_unpack _).
Qed.

Lemma elem_of_option_list {A} (a : A) o : a ∈ option_list o ↔ o = Some a.
Proof. destruct o; cbn; [rewrite list_elem_of_singleton; naive_solver|rewrite elem_of_nil; naive_solver]. Qed.

Lemma volume_alert_some cat s now v a : a ∈ volume_alerts cat s now v →
  (w_dedup_key a = "capacity:vol=" +:+ pretty (v_id v) ∨ w_dedup_key a = "forecast:vol=" +:+ pretty (v_id v)) ∧
  w_category a ∈ CATEGORIES ∧ w_severity a ∈ SEVERITIES.
Proof.
  unfold volume_alerts. rewrite elem_of_app, elem_of_option_list. intros [H%capacity_alert_some|H]; [destruct H; auto|].
  destruct (growth_forecast _ _ _ _ _) as [f|]; [|by apply elem_of_nil in H]. apply elem_of_option_list, forecast_alert_some in H as []. auto.
Qed.

Definition host_alerts (runs : list AgentRun) (s : watch_settings) (moment : Z) (h : Host) : list WatchAlert :=
  match last_finished runs (h_id h) with
  | None => []
  | Some t => option_list (stale_scan_alert (h_id h) (h_name h) (Some t) moment (watch_scan_stale_hours s))
  end.

Lemma host_alert_some runs s moment h a : a ∈ host_alerts runs s moment h →
  w_dedup_key a = "stale-scan:host=" +:+ pretty (h_id h) ∧ w_category a ∈ CATEGORIES ∧ w_severity a ∈ SEVERITIES.
Proof. unfold host_alerts. destruct (last_finished _ _); [|by intros ?%elem_of_nil]. by intros ?%elem_of_option_list%stale_alert_some. Qed.

Lemma keyed_bind_NoDup {A} (id : A → Z) (f : A → list WatchAlert) (keys : A → list string) l :
  NoDup (id <$> l) → (∀ x a, a ∈ f x → w_dedup_key a ∈ keys x) → (∀ x y k, k ∈ keys x → k ∈ keys y → id x = id y) →
  (∀ x, NoDup (w_dedup_key <$> f x)) → NoDup (w_dedup_key <$> (l ≫= f)).
Proof.
  intros Hl Hk Hinj Hf. induction l as [|x l IH]; [constructor|]. rewrite fmap_cons in Hl. apply NoDup_cons in Hl as [Hx Hl].
  cbn. rewrite fmap_app. apply NoDup_app. split_and!; [apply Hf| |by apply IH].
  intros k (a & -> & Ha)%list_elem_of_fmap (b & Hkb & Hb)%list_elem_of_fmap. apply list_elem_of_bind in Hb as (y & Hb & Hy).
  apply Hx, list_elem_of_fmap. exists y. split; [|done]. apply (Hinj x y (w_dedup_key a)); [by apply Hk|]. rewrite Hkb. by apply Hk.
Qed.

(** Two alerts of one sweep have different keys, so none coalesces with another. *)
Lemma evaluate_keys cat runs s now clock :
  NoDup (v_id <$> volumes cat) → NoDup (h_id <$> hosts cat) → NoDup (w_dedup_key <$> evaluate cat runs s now clock).
Proof.
  intros Hv Hh. unfold evaluate. fold (host_alerts runs s (default clock now)). rewrite fmap_app. apply NoDup_app. split_and!.
  - apply (keyed_bind_NoDup v_id _ (λ v, ["capacity:vol=" +:+ pretty (v_id v); "forecast:vol=" +:+ pretty (v_id v)])); [done|..].
    + intros v a [[-> | ->] _]%volume_alert_some; [left|right; left].
    + intros x y k. rewrite !elem_of_cons, elem_of_nil.
      intros [->|[->|[]]] [H|[H|[]]]; try discriminate H; by apply app_inv_head_s, (inj pretty) in H.
    + intros v. unfold volume_alerts. rewrite fmap_app. apply NoDup_app. split_and!.
      * destruct (capacity_alert _ _ _); cbn; [apply NoDup_singleton|constructor].
      * intros k (a & -> & Ha)%list_elem_of_fmap (b & Hk & Hb)%list_elem_of_fmap. apply elem_of_option_list, capacity_alert_some in Ha as [Ha _].
        destruct (growth_forecast _ _ _ _ _); [|by apply elem_of_nil in Hb]. apply elem_of_option_list, forecast_alert_some in Hb as [Hb _].
        rewrite Ha, Hb in Hk. discriminate Hk.
      * destruct (growth_forecast _ _ _ _ _); [|constructor]. destruct (forecast_alert _ _ _); cbn; [apply NoDup_singleton|constructor].
  - intros k (a & -> & Ha)%list_elem_of_fmap (b & Hk & Hb)%list_elem_of_fmap.
    apply list_elem_of_bind in Ha as (v & [[Ha|Ha] _]%volume_alert_some & _); apply list_elem_of_bind in Hb as (h & [Hb _]%host_alert_some & _);
      rewrite Ha, Hb in Hk; discriminate Hk.
  - apply (keyed_bind_NoDup h_id _ (λ h, ["stale-scan:host=" +:+ pretty (h_id h)])); [done|..].
    + intros h a [-> _]%host_alert_some. left.
    + intros x y k ->%list_elem_of_singleton H%list_elem_of_singleton. by apply app_inv_head_s, (inj pretty) in H.
    + intros h. unfold host_alerts. destruct (last_finished _ _); [|constructor]. destruct (stale_scan_alert _ _ _ _ _); cbn; [apply NoDup_singleton|constructor].
Qed.

Lemma evaluate_vocabulary cat runs s now clock a : a ∈ evaluate cat runs s now clock → w_category a ∈ CATEGORIES ∧ w_severity a ∈ SEVERITIES.
Proof.
  unfold evaluate. fold (host_alerts runs s (default clock now)). rewrite elem_of_app, !list_elem_of_bind.
  intros [(v & [_ ?]%volume_alert_some & _)|(h & [_ ?]%host_alert_some & _)]; done.
Qed.

(** ** The tick *)

Section TickLaws.
Context (secret_provider : string → result string string) (transport : message → result string ()).

(** An alert that fits the bell's columns. *)
Definition alert_fits (a : WatchAlert) : bool :=
  (String.length (w_title a) <=? TITLE_WIDTH)%nat && (String.length (w_dedup_key a) <=? DEDUP_WIDTH)%nat.

Lemma raise_alerts_spec ns alerts b :
  bell_ok b → NoDup (w_dedup_key <$> alerts.*1) → (∀ a, a ∈ alerts.*1 → w_category a ∈ CATEGORIES ∧ w_severity a ∈ SEVERITIES) →
  if forallb alert_fits alerts.*1 then
    ∃ sents b', raise_alerts secret_provider transport ns alerts b = Ok (sents, b') ∧ bell_ok b' ∧ length sents = length alerts ∧
      (∀ a now, (a, now) ∈ alerts → ∃ n, n ∈ notes b' ∧ shows (alert_args a) now n) ∧
      (∀ m, m ∈ notes b → (unread m = true → ∀ a, a ∈ alerts.*1 → dedup_key m ≠ Some (w_dedup_key a)) → m ∈ notes b')
  else raise_alerts secret_provider transport ns alerts b = Err DataError.
Proof.
  revert b. induction alerts as [|[a now] alerts IH]; intros b Hb Hk Hv; cbn [raise_alerts].
  { exists [], b. split_and!; try done. by intros ? ? ?%elem_of_nil. }
  rewrite !fmap_cons in Hk, Hv. cbn [fst] in *. apply NoDup_cons in Hk as [Hka Hk]. rewrite fmap_cons. cbn [fst forallb].
  destruct (Hv a) as [Hc Hs]; [left|]. unfold emit_and_dispatch. pose proof (emit_cases (alert_args a) now b _ Hb eq_refl) as He.
  destruct (emit (alert_args a) now b) as [[n b1]|[]]; cbn [mbind result_bind]; [|by destruct He..|].
  2:{ assert (alert_fits a = false) as ->; [|done]. unfold note_fits in He. cbn in He. by rewrite andb_true_r in He. }
  destruct He as [Ht Hkf Hb1 Hn Hshow Hkeep]. assert (alert_fits a = true) as ->.
  { unfold alert_fits. cbn in Hkf. rewrite Hkf, andb_true_r. by apply Nat.leb_le. }
  specialize (IH b1 Hb1 Hk (λ x Hx, Hv x (list_elem_of_further _ _ _ Hx))). cbn [andb]. destruct (forallb _ _); [|by rewrite IH].
  destruct IH as (sents & b' & -> & Hb' & Hlen & Hall & Hold). cbn [mbind result_bind].
  do 2 eexists. split; [done|]. split; [done|]. split; [cbn; by rewrite Hlen|]. split.
  - intros x t [[= -> ->]|Hx]%elem_of_cons; [|by apply Hall]. exists n. split; [|done]. apply Hold; [done|]. intros _ y Hy Heq.
    destruct Hshow as (_ & _ & _ & _ & Hdk & _). rewrite Hdk in Heq. injection Heq as Heq. apply Hka. rewrite Heq. by apply list_elem_of_fmap_2.
  - intros m Hm Hfree. apply Hold; [|intros Hu x Hx; apply (Hfree Hu); by right].
    destruct (Hkeep m Hm) as [?|(_ & key & [= <-] & Hkey & Hu)]; [done|]. exfalso. apply (Hfree Hu a); [left|done].
Qed.

(** C29: A tick of the enabled watcher raises all or nothing, whatever the bell went through before and whatever the channels do.  If
    every alert of the sweep fits the columns of the bell (titles of at most 255 characters), it succeeds: each ends as an unread row
    with its own text and time, one per alert, and no row of any other event changes.  If one does not fit, the tick fails where the
    database enforces the widths, and its transaction leaves the bell as it was. *)
Theorem tick_raises_every_alert cat runs s ns clock clocks ops :
  watch_enabled s = true → notifications_enabled ns = true → NoDup (v_id <$> volumes cat) → NoDup (h_id <$> hosts cat) →
  let b := bell_run ops empty_bell in
  let alerts := evaluate cat runs s None clock in
  let ticked := tick secret_provider transport cat runs s ns clock clocks b in
  if forallb alert_fits alerts then
    ∃ sents b', ticked = Ok (Z.of_nat (length alerts), sents, b') ∧
      NoDup (live_keys (notes b')) ∧ length sents = length alerts ∧
      (∀ i a, alerts !! i = Some a → ∃ n, n ∈ notes b' ∧ shows (alert_args a) (clocks i) n) ∧
      (∀ m, m ∈ notes b → (unread m = true → ∀ a, a ∈ alerts → dedup_key m ≠ Some (w_dedup_key a)) → m ∈ notes b')
  else ticked = Err DataError.
Proof.
  intros He Hn Hv Hh. cbn zeta. unfold tick. rewrite He, Hn. cbn [negb andb].
  set (alerts := evaluate cat runs s None clock). set (b := bell_run ops empty_bell).
  assert ((imap (λ i a, (a, clocks i)) alerts).*1 = alerts) as Hfst.
  { rewrite fmap_imap. transitivity (imap (λ _ (a : WatchAlert), a) alerts); [by apply imap_ext|]. apply list_eq. intros i. rewrite list_lookup_imap. by destruct (alerts !! i). }
  pose proof (raise_alerts_spec ns (imap (λ i a, (a, clocks i)) alerts) b) as H. rewrite Hfst in H.
  specialize (H (bell_run_ok _ _ empty_bell_ok) (evaluate_keys _ _ _ _ _ Hv Hh) (evaluate_vocabulary _ _ _ _ _)).
  destruct (forallb alert_fits alerts); [|by rewrite H]. destruct H as (sents & b' & -> & Hb' & Hlen & Hall & Hold).
  cbn [mbind result_bind]. exists sents, b'. split; [done|]. split; [apply Hb'|]. split; [by rewrite Hlen, length_imap|]. split; [|done].
  intros i a Hi. apply Hall. apply list_elem_of_lookup. exists i. by rewrite list_lookup_imap, Hi.
Qed.
End TickLaws.

(** A run that failed counts as a completed scan: the age is that of the last run of any outcome. *)
Lemma failed_run_silences_alert h name runs r now hours :
  r ∈ runs → r_host_id r = h → Coordinator.outcome r = "failed" → now - finished_at r <= hours * HOUR →
  stale_scan_alert h name (last_finished runs h) now hours = None.
Proof.
  intros Hr Hh Ho Hage. unfold stale_scan_alert, last_finished. destruct (hours <=? 0); [done|].
  assert (finished_at r ∈ finished_at <$> filter (λ r, r_host_id r = h) runs) as Hin by (by apply list_elem_of_fmap_2, list_elem_of_filter).
  destruct (finished_at <$> _) as [|t ts]; [done|]. cbv zeta.
  assert (∀ l acc x, x ∈ acc :: l → x <= foldl Z.max acc l) as Hmax.
  { clear. induction l as [|y l IH]; intros acc x; cbn; [by intros ->%list_elem_of_singleton|].
    intros [->|[->|Hx]%elem_of_cons]%elem_of_cons; [transitivity (acc `max` y); [lia|apply IH; left]|transitivity (acc `max` y); [lia|apply IH; left]|apply IH; by right]. }
  apply Hmax in Hin. rewrite (proj2 (Z.leb_le _ _)) by lia. done.
Qed.

(** The sweep of a tick passes no time, so the forecast looks at the whole history and not at the last thirty days. *)
Lemma tick_ignores_lookback cat id path d d' : growth_forecast cat id path d None = growth_forecast cat id path d' None.
Proof. reflexivity. Qed.

(** ** Witnesses *)

Definition wit_volume : Volume := mk_volume 2 1 "/data" None "data" "ext4" "/dev/sda1" "sata" None None None 1000 950 50 false 0.
Definition wit_cat : catalogue :=
  mk_catalogue [mk_host 1 "nas" None None "fp" None None None None] [wit_volume] [] [] [] []
    [mk_history 2 "/data" 0 900 900 1; mk_history 2 "/data" DAY 910 910 1; mk_history 2 "/data" (3 * DAY) 930 930 1].
Definition wit_watch : watch_settings := mk_watch true 90 97 14 36.
Definition wit_notify : notify_settings := mk_notify true ["problem"] "warning" false None 587 true None None None [] false None "discord" None.

Lemma forecast_of_steady_growth_witness :
  ∃ f num den, growth_forecast wit_cat 2 "/data" 30 None = Some f ∧ days_to_full f = Some (num, den) ∧ num = 5 * den.
Proof.
  destruct (forecast_of_steady_growth wit_cat wit_volume "/data" 10 DAY (900 * DAY)) as (f & num & den & Hf & Hd & Hpos & Heq).
  - reflexivity.
  - lia.
  - unfold DAY. lia.
  - cbn. lia.
  - intros h Hh _ _. cbn in Hh. rewrite !elem_of_cons, elem_of_nil in Hh. destruct Hh as [->|[->|[->|[]]]]; cbn [hi_size_on_disk hi_ts]; unfold DAY; lia.
  - exists (mk_history 2 "/data" 0 900 900 1), (mk_history 2 "/data" DAY 910 910 1). cbn. rewrite !elem_of_cons. split_and!; try done; auto.
  - exists f, num, den. split; [exact Hf|]. split; [exact Hd|]. cbn in Heq. unfold DAY in Heq. lia.
Defined.

Lemma tick_raises_every_alert_witness :
  ∃ sents b', tick (λ _, Err "none") (λ _, Ok ()) wit_cat [] wit_watch wit_notify 0 (λ i, Z.of_nat i) empty_bell = Ok (2, sents, b') ∧
    ∃ n, n ∈ notes b' ∧ title n = "/data is 95% full".
Proof.
  pose proof (tick_raises_every_alert (λ _, Err "none") (λ _, Ok ()) wit_cat [] wit_watch wit_notify 0 (λ i, Z.of_nat i) [] eq_refl eq_refl
    (NoDup_singleton 2) (NoDup_singleton 1)) as H.
  cbn zeta in H. assert (forallb alert_fits (evaluate wit_cat [] wit_watch None 0) = true) as Hf by (vm_compute; reflexivity).
  rewrite Hf in H. destruct H as (sents & b' & Ht & _ & _ & Hall & _).
  exists sents, b'. split; [exact Ht|].
  destruct (evaluate wit_cat [] wit_watch None 0 !! 0%nat) as [a|] eqn:Ea; [|vm_compute in Ea; discriminate Ea].
  destruct (Hall 0%nat a Ea) as (n & Hn & Hs). exists n. split; [exact Hn|]. destruct Hs as (_ & -> & _). vm_compute in Ea. injection Ea as <-. reflexivity.
Defined.

(** One volume whose mount path makes a title of more than 255 characters: no alert of any volume reaches the bell, at any tick, although
    the channels are told of those before it. *)
Definition long_mount : string := String "/" (foldr (λ _ s, String "a" s) "" (replicate 300 ())).
Definition long_cat : catalogue :=
  mk_catalogue (hosts wit_cat) [wit_volume; mk_volume 3 1 long_mount None "data" "ext4" "/dev/sdb1" "sata" None None None 1000 950 50 false 0] [] [] [] [] [].

Lemma long_mount_blocks_tick :
  tick (λ _, Err "none") (λ _, Ok ()) long_cat [] wit_watch wit_notify 0 (λ i, Z.of_nat i) empty_bell = Err DataError ∧
  w_title <$> take 1 (evaluate long_cat [] wit_watch None 0) = ["/data is 95% full"].
Proof. split; vm_compute; reflexivity. Qed.
