(* ===== verification/Auth.v ===== *)
(** Human authentication ([src/fathom/auth/], [api/auth_deps.py], the proxy check of [api/deps.py]): the
    tables, sessions, TOTP and step-up freshness, the grants, the provider chain and the guards of a route.

    SHA-256, Argon2, TOTP and IP networks are parameters; random values are arguments.  A request reads the
    clock once.  The rows of a query come in the order of the table where the code asks for no order. *)

From stdpp Require Import gmap pretty.
From S2P Require Import Prelude PyStr PyDict PyTime Sql Rbac.
From S2P Require SettingsStore.

Local Open Scope Z_scope.


#[export] Instance Grant_eq_dec : EqDecision Grant.
Proof. solve_decision. Defined.

(** ** The tables *)

Record User := mk_user {
  u_id : Z; u_subject : string; u_source : string; u_display_name : option string;
  u_password_hash : option string; u_is_active : bool;
}.

Record RoleAssignment := mk_assignment {
  a_id : Z; a_user_id : Z; a_role : string; a_scope_kind : string; a_host_id : option Z;
  a_volume_id : option Z; a_granted_by : option string;
}.

Record UserSession := mk_session {
  s_id : Z; s_user_id : Z; s_token_hash : string; s_expires_at : datetime;
  s_mfa_authenticated_at : option datetime; s_revoked_at : option datetime;
  s_ip : option string; s_user_agent : option string;
}.

Record MfaEnrollment := mk_enrollment {
  m_id : Z; m_user_id : Z; m_type : string; m_secret_ref : string; m_confirmed_at : option datetime;
}.

Record IdentityBinding := mk_binding { b_id : Z; b_group_claim : string; b_role : string }.

(** What is appended to the audit log, with the row an assignment had before it was revoked. *)
Record AuditEvent := mk_event {
  e_actor : string; e_action : string; e_target : string; e_before : option RoleAssignment; e_result : string;
}.

(** The committed tables, the audit log in order, one sequence of row ids, and the settings store of the
    process ([None] on a degraded boot). *)
Record state := mk_state {
  users : list User; assignments : list RoleAssignment; sessions : list UserSession;
  enrollments : list MfaEnrollment; bindings : list IdentityBinding; audit : list AuditEvent;
  next_id : Z; store : option SettingsStore.session;
}.

Definition with_users (l : list User) (st : state) : state :=
  mk_state l (assignments st) (sessions st) (enrollments st) (bindings st) (audit st) (next_id st) (store st).
Definition with_assignments (l : list RoleAssignment) (st : state) : state :=
  mk_state (users st) l (sessions st) (enrollments st) (bindings st) (audit st) (next_id st) (store st).
Definition with_sessions (l : list UserSession) (st : state) : state :=
  mk_state (users st) (assignments st) l (enrollments st) (bindings st) (audit st) (next_id st) (store st).
Definition with_enrollments (l : list MfaEnrollment) (st : state) : state :=
  mk_state (users st) (assignments st) (sessions st) l (bindings st) (audit st) (next_id st) (store st).
Definition with_store (s : option SettingsStore.session) (st : state) : state :=
  mk_state (users st) (assignments st) (sessions st) (enrollments st) (bindings st) (audit st) (next_id st) s.

(** A row id from the sequence. *)
Definition take_id (st : state) : Z * state :=
  (next_id st,
   mk_state (users st) (assignments st) (sessions st) (enrollments st) (bindings st) (audit st) (next_id st + 1) (store st)).

Definition _audit (e : AuditEvent) (st : state) : state :=
  mk_state (users st) (assignments st) (sessions st) (enrollments st) (bindings st) (audit st ++ [e]) (next_id st) (store st).

(** The parts of a request that authentication reads, its clock, and the settings in force. *)
Record request := mk_request {
  cookie : option string; authorization : option string; client_host : option string;
  user_agent : option string; remote_user : option string; remote_groups : option string;
  client_fingerprint : option string; proxy_secret : option string;
}.

Record auth_settings := mk_settings {
  auth_providers : list string; session_ttl_seconds : Z; mfa_freshness_seconds : Z;
  trusted_forward_proxy_cidrs : list string; oidc_issuer : option string; oidc_client_id : option string;
  ingest_proxy_secret : option string;
}.

(** [chain_moved]: another request's audit row was inserted between this request's read of the chain's head and its own flush. *)
Record env := mk_env { req : request; now : Z; cfg : auth_settings; chain_moved : bool }.

(** An exception the route does not handle. *)
Definition server_error : HTTPException := mk_http 500 "Internal Server Error".

(** [bool(value)] of an optional text. *)
Definition nonempty (s : option string) : bool := match s with Some s => negb (bool_decide (s = "")) | None => false end.

Section Auth.
Context (sha256_hex : string → string).

(** Argon2: a match, a mismatch or a text that is no hash. *)
Context (argon2_hash : string → string → string) (argon2_verify : string → string → option bool)
        (argon2_needs_rehash : string → option bool).

(** [pyotp.TOTP(secret).verify(code, valid_window=1)] at a time. *)
Context (totp_verify : string → string → Z → bool).

(** [ipaddress.ip_address(ip)] parses; [ip_address(ip) in ip_network(cidr, strict=False)], [None] when the
    network does not parse. *)
Context (ip_valid : string → bool) (ip_in_network : string → string → option bool).

(** ** [auth/sessions.py] *)

Definition hash_token (token : string) : string := sha256_hex token.

(** [IntegrityError] when the hash is there already. *)
Definition create_session (token : string) (user_id : Z) (ttl_seconds : Z) (ip ua : option string) (now : Z) (st : state)
    : option (UserSession * state) :=
  let '(id, st) := take_id st in
  let row := mk_session id user_id (hash_token token) (dt_add (utc now) (seconds ttl_seconds)) None None ip ua in
  if existsb (λ s, bool_decide (s_token_hash s = s_token_hash row)) (sessions st) then None
  else Some (row, with_sessions (sessions st ++ [row]) st).

Definition lookup_session (raw_token : string) (now : Z) (st : state) : option UserSession :=
  row ← at_key s_token_hash (hash_token raw_token) (sessions st);
  match s_revoked_at row with
  | Some _ => None
  | None => if (instant (as_utc (s_expires_at row)) <=? now)%Z then None else Some row
  end.

Definition revoke_session (id : Z) (now : Z) (st : state) : state :=
  with_sessions (update_where (λ s, bool_decide (s_id s = id))
    (λ s, mk_session (s_id s) (s_user_id s) (s_token_hash s) (s_expires_at s) (s_mfa_authenticated_at s)
            (Some (utc now)) (s_ip s) (s_user_agent s)) (sessions st)) st.

Definition mark_step_up (id : Z) (now : Z) (st : state) : state :=
  with_sessions (update_where (λ s, bool_decide (s_id s = id))
    (λ s, mk_session (s_id s) (s_user_id s) (s_token_hash s) (s_expires_at s) (Some (utc now))
            (s_revoked_at s) (s_ip s) (s_user_agent s)) (sessions st)) st.

(** ** [auth/passwords.py], [auth/mfa.py] *)

Definition hash_password (salt password : string) : string := argon2_hash salt password.

Definition verify_password (password password_hash : string) : bool := default false (argon2_verify password password_hash).

Definition needs_rehash (password_hash : string) : bool := default true (argon2_needs_rehash password_hash).

Definition secret_ref_for (enrollment_id : Z) : string := "mfa:" +:+ pretty enrollment_id.

Definition resolve_enrollment_secret (secret_ref : string) (resolver : string → option string) : string :=
  match resolver secret_ref with Some resolved => resolved | None => secret_ref end.

Definition verify_totp (secret code : string) (now : Z) : bool :=
  if bool_decide (code = "") || negb (s_all is_digit code) then false else totp_verify secret code now.

Definition is_step_up_fresh (mfa_authenticated_at : option datetime) (freshness_seconds : Z) (now : Z) : bool :=
  match mfa_authenticated_at with
  | None => false
  | Some stamped => (now - instant (as_utc stamped) <=? seconds freshness_seconds)%Z
  end.

(** ** [auth/store.py] *)

Definition role_names : list (string * Role) :=
  [("viewer", VIEWER); ("operator", OPERATOR); ("remediator", REMEDIATOR); ("auditor", AUDITOR); ("admin", ADMIN)].

Definition _coerce_role (value : string) : option Role := dict_get value role_names.

Definition _coerce_scope_kind (value : string) : option ScopeKind :=
  dict_get value [("global", KGlobal); ("host", KHost); ("volume", KVolume)].

(** Exact duplicates are collapsed; a row with an unknown role or kind is ignored. *)
Definition grants_for_user (user_id : Z) (st : state) : list Grant :=
  foldl (λ grants row,
    match _coerce_role (a_role row), _coerce_scope_kind (a_scope_kind row) with
    | Some role, Some kind =>
        let g := mk_grant role kind (a_host_id row) (a_volume_id row) in
        if bool_decide (g ∈ grants) then grants else grants ++ [g]
    | _, _ => grants
    end) [] (filter (λ row, a_user_id row = user_id) (assignments st)).

Definition roles_for_groups (groups : list string) (st : state) : list Role :=
  match groups with
  | [] => []
  | _ => omap (λ row, _coerce_role (b_role row)) (filter (λ row, b_group_claim row ∈ groups) (bindings st))
  end.

Definition find_user (src subject : string) (st : state) : option User :=
  head (filter (λ u, u_source u = src ∧ u_subject u = subject) (users st)).

Definition get_active_user (src subject : string) (st : state) : option User :=
  match find_user src subject st with
  | Some u => if u_is_active u then Some u else None
  | None => None
  end.

Definition upsert_federated_user (src subject : string) (display_name : option string) (st : state) : User * state :=
  match find_user src subject st with
  | Some u => (u, st)
  | None => let '(id, st) := take_id st in
            let u := mk_user id subject src display_name None true in
            (u, with_users (users st ++ [u]) st)
  end.

(** ** The providers ([auth/providers/]) *)

Definition BEARER_PREFIX : string := "Bearer ".

Definition extract_session_token (r : request) : option string :=
  if nonempty (cookie r) then cookie r
  else match authorization r with
       | Some header =>
           if negb (bool_decide (header = "")) && startswith BEARER_PREFIX header then
             let token := strip (drop_s (String.length BEARER_PREFIX) header) in
             if bool_decide (token = "") then None else Some token
           else None
       | None => None
       end.

Definition local_authenticate (e : env) (st : state) : option Principal :=
  token ← extract_session_token (req e);
  row ← lookup_session token (now e) st;
  user ← at_key u_id (s_user_id row) (users st);
  if u_is_active user then
    Some (mk_principal (u_subject user) (coerce_source (u_source user)) (u_id user) []
            (grants_for_user (u_id user) st) (s_mfa_authenticated_at row) (Some (s_id row)))
  else None.

(** The user is read with the token of the login, and no proxy stands in. *)
Definition login (salt token username password : string) (ttl_seconds : Z) (ip ua : option string) (now : Z) (st : state)
    : result HTTPException (option (Principal * string) * state) :=
  match get_active_user "local" username st with
  | None => Ok (None, st)
  | Some user =>
      match u_password_hash user with
      | None => Ok (None, st)
      | Some hash =>
          if negb (verify_password password hash) then Ok (None, st) else
          let st :=
            if needs_rehash hash
            then with_users (update_where (λ u, bool_decide (u_id u = u_id user))
                   (λ u, mk_user (u_id u) (u_subject u) (u_source u) (u_display_name u)
                           (Some (hash_password salt password)) (u_is_active u)) (users st)) st
            else st in
          match create_session token (u_id user) ttl_seconds ip ua now st with
          | None => Err server_error
          | Some (row, st) =>
              Ok (Some (mk_principal (u_subject user) SrcLocal (u_id user) [] (grants_for_user (u_id user) st)
                          (s_mfa_authenticated_at row) (Some (s_id row)), token), st)
          end
      end
  end.

Definition _is_trusted_source (ip : option string) (trusted_cidrs : list string) : bool :=
  match ip with
  | None => false
  | Some ip => ip_valid ip && existsb (λ cidr, default false (ip_in_network ip cidr)) trusted_cidrs
  end.

(** The names in a header of groups. *)
Definition split_groups (raw : string) : list string :=
  filter (λ g, g ≠ "") (strip <$> split_char "," raw).

Definition forward_authenticate (trusted : list string) (e : env) (st : state) : option Principal * state :=
  if negb (nonempty (remote_user (req e))) then (None, st) else
  let user_name := default "" (remote_user (req e)) in
  if negb (_is_trusted_source (client_host (req e)) trusted) then (None, st) else
  let gs := split_groups (default "" (remote_groups (req e))) in
  let '(user, st) := upsert_federated_user "forward" user_name (Some user_name) st in
  let roles := roles_for_groups gs st in
  (Some (mk_principal (u_subject user) SrcForward (u_id user) gs ((λ r, mk_grant r KGlobal None None) <$> roles) None None), st).

(** A provider by name and what it does. *)
Definition AuthProvider : Type := string * (env → state → option Principal * state).

Definition LocalSessionProvider : AuthProvider := ("local", λ e st, (local_authenticate e st, st)).
Definition ForwardAuthProvider (trusted : list string) : AuthProvider := ("forward", forward_authenticate trusted).

Fixpoint resolve_principal (providers : list AuthProvider) (e : env) (st : state) : option Principal * state :=
  match providers with
  | [] => (None, st)
  | p :: providers =>
      match p.2 e st with
      | (Some principal, st) => (Some principal, st)
      | (None, st) => resolve_principal providers e st
      end
  end.

(** ** [api/auth_deps.py], [api/deps.py] *)

Definition build_provider_chain (c : auth_settings) : list AuthProvider :=
  let available := LocalSessionProvider ::
    match trusted_forward_proxy_cidrs c with [] => [] | cidrs => [ForwardAuthProvider cidrs] end in
  let chain := omap (λ name, head (filter (λ p, p.1 = name) available)) (auth_providers c) in
  if existsb (λ p, bool_decide (p.1 = "local")) chain then chain else LocalSessionProvider :: chain.

Definition current_principal (e : env) (st : state) : result HTTPException Principal * state :=
  match resolve_principal (build_provider_chain (cfg e)) e st with
  | (Some p, st) => (Ok p, st)
  | (None, st) => (Err (mk_http 401 "authentication required"), st)
  end.

Definition require (capability : Capability) (p : Principal) : result HTTPException ScopeFilter :=
  if negb (has_capability p capability) then Err (mk_http 403 "insufficient capability") else
  let scope := from_grants (grants p) capability in
  if is_empty scope then Err (mk_http 403 "no scope for capability") else Ok scope.

Definition require_step_up_mfa (e : env) (p : Principal) : result HTTPException unit :=
  if is_step_up_fresh (mfa_authenticated_at p) (mfa_freshness_seconds (cfg e)) (now e) then Ok tt
  else Err (mk_http 401 "step-up MFA required").

Definition require_client_fingerprint (e : env) : result HTTPException string :=
  if nonempty (ingest_proxy_secret (cfg e)) &&
     (negb (nonempty (proxy_secret (req e))) || negb (bool_decide (proxy_secret (req e) = ingest_proxy_secret (cfg e))))
  then Err (mk_http 401 "ingest must transit the trusted proxy")
  else match client_fingerprint (req e) with
       | Some f => if bool_decide (f = "") then Err (mk_http 401 "client certificate required") else Ok f
       | None => Err (mk_http 401 "client certificate required")
       end.
End Auth.
