(* ===== verification/AuthRoutes.v ===== *)
(** The routes of authentication and of user administration ([src/fathom/api/routers/auth.py],
    [api/routers/admin_users.py]) and the bootstrap of the first administrator ([admin/bootstrap.py]), with
    the histories of requests they make up.

    A route runs in one transaction: what it returns comes with the state it commits, and when it raises that is
    the state before the request, or what it committed before it raised.  An entry of the audit log is one event; its
    UNIQUE link to the entry before it fails the flush, and the transaction, when another request's entry was inserted after the head was
    read ([chain_moved] of the request).  A response is what the code puts in it that other requests depend on. *)

From stdpp Require Import gmap pretty.
From S2P Require Import Prelude PyStr PyDict PyTime Sql Rbac Auth.
From S2P Require SettingsStore.

Local Open Scope Z_scope.


(** How the body of a route ends; [Denies] raises after it committed. *)
Inductive outcome (A : Type) := Returns (a : A) (st : state) | Raises (x : HTTPException) | Denies (x : HTTPException) (st : state).
Arguments Returns {A}. Arguments Raises {A}. Arguments Denies {A}.

(** What a request returns, and the state it leaves. *)
Notation reply A := (result HTTPException A * state)%type.

(** The rollback of a transaction; what the settings store of the process holds in memory stays as the request left it. *)
Definition rolled_back (st st' : state) : state :=
  with_store (match store st, store st' with Some s, Some s' => Some (s.1, s'.2) | s, _ => s end) st.

(** The flush of the events that a request appended. *)
Definition commits (e : env) (st st' : state) : bool :=
  negb (chain_moved e && (length (audit st) <? length (audit st'))%nat).

(** The transaction around a request. *)
Definition in_transaction {A} (e : env) (st : state) (o : outcome A) : reply A :=
  match o with
  | Returns a st' => if commits e st st' then (Ok a, st') else (Err server_error, rolled_back st st')
  | Raises x => (Err x, st)
  | Denies x st' => if commits e st st' then (Err x, st') else (Err server_error, rolled_back st st')
  end.

(** The bounds of a field of a request body. *)
Definition length_in (lo hi : nat) (s : string) : bool :=
  (lo <=? String.length s)%nat && (String.length s <=? hi)%nat.

(** [ORDER BY id]. *)
Definition by_id {A} (id : A → Z) (a b : A) : Prop := id a <= id b.

#[export] Instance by_id_dec {A} (id : A → Z) : RelDecision (by_id id).
Proof. intros a b. unfold by_id. apply _. Defined.

Definition unprocessable : HTTPException := mk_http 422 "request validation".

Record MeResponse := mk_me {
  me_subject : string; me_source : PrincipalSource; me_groups : list string; me_grants : list Grant;
  me_mfa_fresh : bool; me_mfa_enrolled : bool;
}.

Record CreateAssignmentRequest := mk_grant_request {
  r_role : string; r_scope_kind : string; r_host_id : option Z; r_volume_id : option Z;
}.

(** The roles and the kinds of scope that exist. *)
Definition _VALID_ROLES : list string := role_names.*1.
Definition _VALID_SCOPE_KINDS : list string := ["global"; "host"; "volume"].

Definition _validate_assignment (b : CreateAssignmentRequest) : result HTTPException unit :=
  if negb (bool_decide (r_role b ∈ _VALID_ROLES)) then Err (mk_http 422 "unknown role")
  else if negb (bool_decide (r_scope_kind b ∈ _VALID_SCOPE_KINDS)) then Err (mk_http 422 "unknown scope_kind")
  else if bool_decide (r_scope_kind b = "host") && bool_decide (r_host_id b = None) then Err (mk_http 422 "host scope needs host_id")
  else if bool_decide (r_scope_kind b = "volume") && bool_decide (r_volume_id b = None)
       then Err (mk_http 422 "volume scope needs volume_id")
  else Ok tt.

Section Routes.
Context (sha256_hex : string → string).
Context (argon2_hash : string → string → string) (argon2_verify : string → string → option bool)
        (argon2_needs_rehash : string → option bool).
Context (totp_verify : string → string → Z → bool).
Context (ip_valid : string → bool) (ip_in_network : string → string → option bool).
Context (encrypt : string → string → string) (decrypt : string → option string).

Local Notation current_principal := (current_principal sha256_hex ip_valid ip_in_network).

(** A route behind authentication. *)
Definition authenticated {A} (e : env) (body : Principal → state → outcome A) (st : state) : reply A :=
  in_transaction e st
    match current_principal e st with
    | (Err x, _) => Raises x
    | (Ok p, st1) => body p st1
    end.

(** ** [api/routers/auth.py] *)

Definition audit_auth (actor action target res : string) (st : state) : state :=
  _audit (mk_event actor action target None res) st.

Definition post_login (salt token username password : string) (e : env) (st : state) : reply string :=
  in_transaction e st (
  if negb (length_in 1 255 username && length_in 1 1024 password) then Raises unprocessable else
  match login sha256_hex argon2_hash argon2_verify argon2_needs_rehash salt token username password
          (session_ttl_seconds (cfg e)) (client_host (req e)) (user_agent (req e)) (now e) st with
  | Err x => Raises x
  | Ok (None, st1) => Denies (mk_http 401 "invalid credentials") (audit_auth username "auth.login" "local" "denied" st1)
  | Ok (Some (_, token), st1) => Returns token (audit_auth username "auth.login" "local" "granted" st1)
  end).

Definition post_logout (e : env) : state → reply unit :=
  authenticated e (λ p st,
    let st := match session_id p with Some id => revoke_session id (now e) st | None => st end in
    Returns tt (audit_auth (subject p) "auth.logout" "session" "granted" st)).

Definition get_me (e : env) : state → reply MeResponse :=
  authenticated e (λ p st,
    let enrolled := existsb (λ m, bool_decide (m_user_id m = user_id p) && bool_decide (m_confirmed_at m ≠ None)) (enrollments st) in
    Returns (mk_me (subject p) (source p) (groups p) (grants p)
               (is_step_up_fresh (mfa_authenticated_at p) (mfa_freshness_seconds (cfg e)) (now e)) enrolled) st).

(** The secret that the store of the process has under a name. *)
Definition resolve_in (s : option SettingsStore.session) (ref : string) : option string :=
  match s with Some s => SettingsStore.resolve_secret ref s.2 | None => None end.

(** The secrets of the enrollments that are replaced are dropped. *)
Definition clear_secrets (prior : list MfaEnrollment) (s : option SettingsStore.session) : option SettingsStore.session :=
  match s with
  | None => None
  | Some s =>
      Some (foldl (λ s row,
        match SettingsStore.resolve_secret (m_secret_ref row) s.2 with
        | Some _ => (SettingsStore.clear_override decrypt (m_secret_ref row) s).2
        | None => s
        end) s prior)
  end.

Definition post_mfa_enroll (secret iv : string) (e : env) : state → reply string :=
  authenticated e (λ p st,
    let s := clear_secrets (filter (λ m, m_user_id m = user_id p) (enrollments st)) (store st) in
    let st := with_enrollments (filter (λ m, m_user_id m ≠ user_id p) (enrollments st)) (with_store s st) in
    let '(id, st) := take_id st in
    let enroll secret_ref st := with_enrollments (enrollments st ++ [mk_enrollment id (user_id p) "totp" secret_ref None]) st in
    match store st with
    | None => Returns secret (audit_auth (subject p) "auth.mfa.enroll" "totp" "pending" (enroll secret st))
    | Some s =>
        match SettingsStore.set_secret encrypt decrypt iv (secret_ref_for id) secret (Some (subject p)) s with
        | (Ok _, s) => Returns secret (audit_auth (subject p) "auth.mfa.enroll" "totp" "pending"
                                         (enroll (secret_ref_for id) (with_store (Some s) st)))
        | (Err _, _) => Raises server_error
        end
    end).

(** The enrollment of a user and the secret it stands for. *)
Definition enrollment_of (user : Z) (st : state) : option MfaEnrollment :=
  head (filter (λ m, m_user_id m = user) (enrollments st)).

Definition enrolled_secret (m : MfaEnrollment) (st : state) : string :=
  resolve_enrollment_secret (m_secret_ref m) (resolve_in (store st)).

Definition post_mfa_verify (code : string) (e : env) : state → reply unit :=
  authenticated e (λ p st,
    if negb (length_in 6 8 code) then Raises unprocessable else
    let denied := Denies (mk_http 401 "invalid code") (audit_auth (subject p) "auth.mfa.verify" "totp" "denied" st) in
    match enrollment_of (user_id p) st with
    | Some m =>
        if verify_totp totp_verify (enrolled_secret m st) code (now e) then
          let st := match m_confirmed_at m with
                    | Some _ => st
                    | None => with_enrollments (update_where (λ m', bool_decide (m_id m' = m_id m))
                        (λ m', mk_enrollment (m_id m') (m_user_id m') (m_type m') (m_secret_ref m') (Some (utc (now e))))
                        (enrollments st)) st
                    end in
          let st := match session_id p with Some id => mark_step_up id (now e) st | None => st end in
          Returns tt (audit_auth (subject p) "auth.mfa.verify" "totp" "granted" st)
        else denied
    | None => denied
    end).

(** Both routes of the OIDC flow. *)
Definition get_oidc (c : auth_settings) : result HTTPException unit :=
  if negb (nonempty (oidc_issuer c)) || negb (nonempty (oidc_client_id c)) then Err (mk_http 503 "OIDC not configured")
  else Err (mk_http 503 "OIDC interactive flow not yet enabled").

(** ** [api/routers/admin_users.py] *)

(** The routes behind MANAGE_USERS. *)
Definition managing_users {A} (e : env) (body : Principal → state → outcome A) : state → reply A :=
  authenticated e (λ p st, match require MANAGE_USERS p with Err x => Raises x | Ok _ => body p st end).

Definition list_users (e : env) : state → reply (list User) :=
  managing_users e (λ _ st, Returns (stable_sort (by_id u_id) (users st)) st).

Definition create_user (salt username password : string) (display_name : option string) (e : env) : state → reply User :=
  managing_users e (λ p st,
    if negb (length_in 1 255 username && length_in 8 1024 password &&
             match display_name with Some d => length_in 0 255 d | None => true end) then Raises unprocessable else
    match find_user "local" username st with
    | Some _ => Raises (mk_http 409 "user exists")
    | None =>
        let '(id, st) := take_id st in
        let user := mk_user id username "local" display_name (Some (hash_password argon2_hash salt password)) true in
        Returns user (_audit (mk_event (subject p) "users.create" username None "granted") (with_users (users st ++ [user]) st))
    end).

Definition create_assignment (user : Z) (b : CreateAssignmentRequest) (e : env) : state → reply RoleAssignment :=
  managing_users e (λ p st,
    if negb (length_in 1 32 (r_role b) && length_in 1 16 (r_scope_kind b)) then Raises unprocessable else
    match _validate_assignment b with
    | Err x => Raises x
    | Ok _ =>
        match at_key u_id user (users st) with
        | None => Raises (mk_http 404 "unknown user")
        | Some _ =>
            let '(id, st) := take_id st in
            let a := mk_assignment id user (r_role b) (r_scope_kind b) (r_host_id b) (r_volume_id b) (Some (subject p)) in
            Returns a
              (_audit (mk_event (subject p) "users.grant"
                         ("user:" +:+ pretty user +:+ ":" +:+ r_role b +:+ ":" +:+ r_scope_kind b) None "granted")
                 (with_assignments (assignments st ++ [a]) st))
        end
    end).

Definition list_assignments (user : Z) (e : env) : state → reply (list RoleAssignment) :=
  managing_users e (λ _ st,
    match at_key u_id user (users st) with
    | None => Raises (mk_http 404 "unknown user")
    | Some _ => Returns (stable_sort (by_id a_id) (filter (λ a, a_user_id a = user) (assignments st))) st
    end).

Definition is_global_admin (a : RoleAssignment) : bool :=
  bool_decide (a_role a = "admin") && bool_decide (a_scope_kind a = "global").

Definition delete_assignment (user assignment : Z) (e : env) : state → reply unit :=
  managing_users e (λ p st,
    match at_key a_id assignment (assignments st) with
    | None => Raises (mk_http 404 "unknown assignment")
    | Some a =>
        if negb (bool_decide (a_user_id a = user)) then Raises (mk_http 404 "unknown assignment") else
        let others := filter (λ x, is_global_admin x ∧ a_id x ≠ assignment) (assignments st) in
        if is_global_admin a && bool_decide (length others = 0%nat) then Raises (mk_http 409 "cannot revoke the last global admin") else
        Returns tt
          (_audit (mk_event (subject p) "users.revoke" ("user:" +:+ pretty user +:+ ":assignment:" +:+ pretty assignment) (Some a) "granted")
             (with_assignments (filter (λ x, a_id x ≠ assignment) (assignments st)) st))
    end).

(** ** [admin/bootstrap.py] *)

(** Whether the user was created. *)
Definition bootstrap_admin (salt username password : string) (st : state) : bool * state :=
  match find_user "local" username st with
  | Some _ => (false, st)
  | None =>
      let '(id, st) := take_id st in
      let user := mk_user id username "local" (Some username) (Some (hash_password argon2_hash salt password)) true in
      let st := with_users (users st ++ [user]) st in
      let '(aid, st) := take_id st in
      (true, with_assignments (assignments st ++ [mk_assignment aid id "admin" "global" None None (Some "bootstrap")]) st)
  end.

(** The two variables of the environment; [None]: the process exits. *)
Definition read_bootstrap_credential (username password : option string) : option (string * string) :=
  if nonempty username && nonempty password then Some (default "" username, default "" password) else None.

(** ** Histories *)

Inductive call :=
  | Login (salt token username password : string)
  | Logout | Me
  | Enroll (secret iv : string)
  | Verify (code : string)
  | ListUsers
  | CreateUser (salt username password : string) (display_name : option string)
  | CreateAssignment (user : Z) (b : CreateAssignmentRequest)
  | ListAssignments (user : Z)
  | DeleteAssignment (user assignment : Z)
  | Bootstrap (salt username password : string)
  | StoreChange (s : option SettingsStore.session).

(** One request, or a change that others make to the settings store. *)
Definition serve (c : call) (e : env) (st : state) : state :=
  match c with
  | Login salt token username password => (post_login salt token username password e st).2
  | Logout => (post_logout e st).2
  | Me => (get_me e st).2
  | Enroll secret iv => (post_mfa_enroll secret iv e st).2
  | Verify code => (post_mfa_verify code e st).2
  | ListUsers => (list_users e st).2
  | CreateUser salt username password display_name => (create_user salt username password display_name e st).2
  | CreateAssignment user b => (create_assignment user b e st).2
  | ListAssignments user => (list_assignments user e st).2
  | DeleteAssignment user assignment => (delete_assignment user assignment e st).2
  | Bootstrap salt username password => (bootstrap_admin salt username password st).2
  | StoreChange s => with_store s st
  end.

Definition history : Type := list (call * env).

Definition serve_all (h : history) (st : state) : state := foldl (λ st x, serve x.1 x.2 st) st h.
End Routes.
