(* ===== verification/AuthHistory.v ===== *)
(** What histories of requests guarantee: who is authenticated and with which authority, that a session that was
    revoked stays dead, that a fresh step-up comes from a TOTP code, that assignments come from administrators
    and that one administrator remains. *)

From stdpp Require Import gmap pretty.
From S2P Require Import Prelude PyStr PyDict PyTime Sql Rbac Auth AuthRoutes.
From S2P Require SettingsStore.

Local Open Scope Z_scope.


Section Histories.
Context (sha256_hex : string → string).
Context (argon2_hash : string → string → string) (argon2_verify : string → string → option bool)
        (argon2_needs_rehash : string → option bool).
Context (totp_verify : string → string → Z → bool).
Context (ip_valid : string → bool) (ip_in_network : string → string → option bool).
Context (encrypt : string → string → string) (decrypt : string → option string).

Local Notation current_principal := (current_principal sha256_hex ip_valid ip_in_network).
Local Notation local_authenticate := (local_authenticate sha256_hex).
Local Notation serve := (serve sha256_hex argon2_hash argon2_verify argon2_needs_rehash totp_verify ip_valid ip_in_network encrypt decrypt).
Local Notation serve_all := (serve_all sha256_hex argon2_hash argon2_verify argon2_needs_rehash totp_verify ip_valid ip_in_network encrypt decrypt).

(** ** Who a request is *)

(** A principal of the forward provider: the proxy is trusted, names the user, and the grants are those of
    the groups it names. *)
Definition forwarded (e : env) (p : Principal) (st : state) : Prop :=
  trusted_forward_proxy_cidrs (cfg e) ≠ [] ∧
  _is_trusted_source ip_valid ip_in_network (client_host (req e)) (trusted_forward_proxy_cidrs (cfg e)) = true ∧
  remote_user (req e) = Some (subject p) ∧ source p = SrcForward ∧ session_id p = None ∧
  mfa_authenticated_at p = None ∧
  grants p = (λ r, mk_grant r KGlobal None None) <$> roles_for_groups (split_groups (default "" (remote_groups (req e)))) st.

(** The state after a request was authenticated: a federated user may be new. *)
Definition only_users (st st1 : state) : Prop :=
  assignments st1 = assignments st ∧ sessions st1 = sessions st ∧ enrollments st1 = enrollments st ∧
  bindings st1 = bindings st ∧ audit st1 = audit st ∧ store st1 = store st ∧ next_id st <= next_id st1 ∧
  ∃ l, users st1 = users st ++ l.

Lemma only_users_refl st : only_users st st.
Proof. split_and!; try done. exists []. by rewrite app_nil_r. Qed.

Lemma upsert_federated_user_spec src name dn st :
  u_subject (upsert_federated_user src name dn st).1 = name ∧ only_users st (upsert_federated_user src name dn st).2.
Proof.
  unfold upsert_federated_user. destruct (find_user src name st) as [u|] eqn:E; cbn.
  - split; [|apply only_users_refl]. unfold find_user in E. apply head_Some_elem_of, list_elem_of_filter in E. tauto.
  - split; [done|]. split_and!; try done; cbn; [lia|by eexists].
Qed.

Lemma forward_authenticate_spec trusted e st :
  match forward_authenticate ip_valid ip_in_network trusted e st with
  | (None, st1) => st1 = st
  | (Some p, st1) => only_users st st1 ∧ (trusted = trusted_forward_proxy_cidrs (cfg e) → trusted ≠ [] → forwarded e p st)
  end.
Proof.
  unfold forward_authenticate. destruct (remote_user (req e)) as [name|] eqn:En; [|done]. cbn [nonempty default from_option id].
  destruct (negb (negb _)); [done|]. destruct (_is_trusted_source _ _ _ trusted) eqn:Et; [|done]. cbn [negb].
  pose proof (upsert_federated_user_spec "forward" name (Some name) st) as [Hs Hu].
  destruct (upsert_federated_user "forward" name (Some name) st) as [u st1]. cbn [fst snd] in *. split; [done|].
  intros -> Hn. unfold forwarded. cbn. rewrite Hs. split_and!; try done. f_equal. unfold roles_for_groups.
  destruct Hu as (_ & _ & _ & -> & _). done.
Qed.

Lemma resolve_principal_spec c e st l :
  c = cfg e → (∀ pr, pr ∈ l → pr = LocalSessionProvider sha256_hex ∨
     trusted_forward_proxy_cidrs c ≠ [] ∧ pr = ForwardAuthProvider ip_valid ip_in_network (trusted_forward_proxy_cidrs c)) →
  match resolve_principal l e st with
  | (None, st1) => st1 = st
  | (Some p, st1) => local_authenticate e st = Some p ∧ st1 = st ∨ forwarded e p st ∧ only_users st st1
  end.
Proof.
  intros Hc. induction l as [|pr l IH]; intros Hl; [done|]. cbn [resolve_principal].
  destruct (Hl pr ltac:(left)) as [->|[Hn ->]]; cbn [snd LocalSessionProvider ForwardAuthProvider].
  - destruct (local_authenticate e st) as [p|] eqn:E; [by left|]. apply IH. intros q Hq. apply Hl. by right.
  - pose proof (forward_authenticate_spec (trusted_forward_proxy_cidrs c) e st) as H.
    destruct (forward_authenticate _ _ _ e st) as [[p|] st1]; [right; destruct H as [? H]; split; [apply H; by subst|done]|].
    subst st1. apply IH. intros q Hq. apply Hl. by right.
Qed.

Lemma chain_providers c pr :
  pr ∈ build_provider_chain sha256_hex ip_valid ip_in_network c →
  pr = LocalSessionProvider sha256_hex ∨
  trusted_forward_proxy_cidrs c ≠ [] ∧ pr = ForwardAuthProvider ip_valid ip_in_network (trusted_forward_proxy_cidrs c).
Proof.
  unfold build_provider_chain. set (av := _ :: _). assert (Hav : ∀ q, q ∈ av → q = LocalSessionProvider sha256_hex ∨
    trusted_forward_proxy_cidrs c ≠ [] ∧ q = ForwardAuthProvider ip_valid ip_in_network (trusted_forward_proxy_cidrs c)).
  { intros q [->|Hq]%elem_of_cons; [by left|]. destruct (trusted_forward_proxy_cidrs c); [by apply elem_of_nil in Hq|].
    apply list_elem_of_singleton in Hq as ->. by right. }
  assert (Hch : ∀ q, q ∈ omap (λ name, head (filter (λ p, p.1 = name) av)) (auth_providers c) → q ∈ av).
  { intros q (n & _ & Hq)%list_elem_of_omap. apply head_Some_elem_of in Hq. by apply list_elem_of_filter in Hq as [_ ?]. }
  destruct (existsb _ _); [intros H; by apply Hav, Hch|]. intros [->|H]%elem_of_cons; [by left|by apply Hav, Hch].
Qed.

(** A request is the user of its live session, or the user that a trusted proxy names. *)
Lemma current_principal_spec e st :
  match current_principal e st with
  | (Err x, st1) => x = mk_http 401 "authentication required" ∧ st1 = st
  | (Ok p, st1) => local_authenticate e st = Some p ∧ st1 = st ∨ forwarded e p st ∧ only_users st st1
  end.
Proof.
  unfold Auth.current_principal. pose proof (resolve_principal_spec (cfg e) e st _ eq_refl (chain_providers (cfg e))) as H.
  destruct (resolve_principal _ e st) as [[p|] st1]; [done|]. done.
Qed.

Lemma local_authenticate_spec e st p :
  local_authenticate e st = Some p ↔
  ∃ token row user, extract_session_token (req e) = Some token ∧
    at_key s_token_hash (sha256_hex token) (sessions st) = Some row ∧ s_revoked_at row = None ∧
    now e < instant (as_utc (s_expires_at row)) ∧
    at_key u_id (s_user_id row) (users st) = Some user ∧ u_is_active user = true ∧
    p = mk_principal (u_subject user) (coerce_source (u_source user)) (u_id user) []
          (grants_for_user (u_id user) st) (s_mfa_authenticated_at row) (Some (s_id row)).
Proof.
  unfold Auth.local_authenticate, lookup_session, hash_token. split.
  - destruct (extract_session_token (req e)) as [token|]; [|done]. cbn [mbind option_bind].
    destruct (at_key s_token_hash (sha256_hex token) (sessions st)) as [row|] eqn:Er; [|done]. cbn [mbind option_bind].
    destruct (s_revoked_at row) eqn:Ev; [done|]. destruct (instant (as_utc (s_expires_at row)) <=? now e) eqn:Ex; [done|].
    apply Z.leb_gt in Ex. cbn [mbind option_bind]. destruct (at_key u_id (s_user_id row) (users st)) as [user|] eqn:Eu; [|done].
    cbn [mbind option_bind]. destruct (u_is_active user) eqn:Ea; [|done]. intros [= <-].
    exists token, row, user. split_and!; done.
  - intros (token & row & user & -> & Hr & Hv & Hx & Hu & Ha & ->). cbn [mbind option_bind]. rewrite Hr. cbn [mbind option_bind].
    rewrite Hv, (proj2 (Z.leb_gt _ _) Hx). cbn [mbind option_bind]. rewrite Hu. cbn [mbind option_bind]. by rewrite Ha.
Qed.

Lemma principal_only_users e st p st1 : current_principal e st = (Ok p, st1) → only_users st st1.
Proof.
  intros E. pose proof (current_principal_spec e st) as H. rewrite E in H.
  destruct H as [[_ ->]|[_ ?]]; [apply only_users_refl|done].
Qed.

(** What holds of the state before a request, whatever the settings store became, and of the state its body commits, holds
    after its transaction. *)
Lemma transaction_ind {A} (Q : state → Prop) e st (o : outcome A) :
  (∀ s, Q (with_store s st)) → match o with Returns _ st2 | Denies _ st2 => Q st2 | Raises _ => True end →
  Q (in_transaction e st o).2.
Proof.
  intros H0 Ho. pose proof (H0 (store st)) as Hst. destruct o as [a st2|x|x st2]; cbn.
  - destruct (commits e st st2); [done|apply H0].
  - by destruct st.
  - destruct (commits e st st2); [done|apply H0].
Qed.

Lemma authenticated_ind {A} (Q : state → Prop) e (body : Principal → state → outcome A) st :
  (∀ s, Q (with_store s st)) →
  (∀ p st1, current_principal e st = (Ok p, st1) →
     match body p st1 with Returns _ st2 | Denies _ st2 => Q st2 | Raises _ => True end) →
  Q (authenticated sha256_hex ip_valid ip_in_network e body st).2.
Proof.
  intros H0 Hb. unfold authenticated. apply transaction_ind; [done|].
  destruct (current_principal e st) as [[p|x] st1]; [by apply Hb|done].
Qed.

Lemma managing_users_ind {A} (Q : state → Prop) e (body : Principal → state → outcome A) st :
  (∀ s, Q (with_store s st)) →
  (∀ p st1 scope, current_principal e st = (Ok p, st1) → require MANAGE_USERS p = Ok scope →
     match body p st1 with Returns _ st2 | Denies _ st2 => Q st2 | Raises _ => True end) →
  Q (managing_users sha256_hex ip_valid ip_in_network e body st).2.
Proof.
  intros H0 Hb. refine (authenticated_ind Q e _ st H0 _). intros p st1 Hp.
  destruct (require MANAGE_USERS p) as [scope|x] eqn:E; [by eapply Hb|done].
Qed.

(** ** Sessions *)

(** The request that verified a code: its session, its user, the enrollment the code was checked against. *)
Definition verifies (code : string) (e : env) (st : state) (id user : Z) : Prop :=
  ∃ p m, local_authenticate e st = Some p ∧ session_id p = Some id ∧ user_id p = user ∧
    enrollment_of user st = Some m ∧ verify_totp totp_verify (enrolled_secret m st) code (now e) = true.

(** How one call changes the sessions. *)
Inductive session_step (c : call) (e : env) (st st' : state) : Prop :=
| SS_same : sessions st' = sessions st → session_step c e st st'
| SS_login row : sessions st' = sessions st ++ [row] → s_mfa_authenticated_at row = None → s_revoked_at row = None →
    s_id row = next_id st → next_id st < next_id st' → session_step c e st st'
| SS_revoke id : sessions st' = sessions (revoke_session id (now e) st) → session_step c e st st'
| SS_verify code id user : c = Verify code → verifies code e st id user →
    sessions st' = sessions (mark_step_up id (now e) st) → session_step c e st st'.

Definition stepped (c : call) (e : env) (st st' : state) : Prop := session_step c e st st' ∧ next_id st <= next_id st'.

Lemma stepped_same c e st st' : sessions st' = sessions st → next_id st <= next_id st' → stepped c e st st'.
Proof. intros Hs Hn. split; [by apply SS_same|done]. Qed.

Lemma stepped_refl c e st : stepped c e st st.
Proof. by apply stepped_same. Qed.

Lemma stepped_store c e st s : stepped c e st (with_store s st).
Proof. by apply stepped_same. Qed.

Lemma login_stepped salt token username password e st :
  stepped (Login salt token username password) e st (serve (Login salt token username password) e st).
Proof.
  cbn [AuthRoutes.serve]. apply (transaction_ind (stepped _ e st)); [apply stepped_store|]. destruct (negb _); [done|].
  unfold login. destruct (get_active_user _ _ _) as [u|]; [|by apply stepped_same].
  destruct (u_password_hash u) as [hash|]; [|by apply stepped_same]. destruct (negb _); [by apply stepped_same|].
  set (st1 := if needs_rehash _ _ then _ else _). assert (sessions st1 = sessions st ∧ next_id st1 = next_id st) as [Hs Hn].
  { subst st1. by destruct (needs_rehash _ _). }
  unfold create_session. cbn [take_id]. set (st2 := mk_state _ _ _ _ _ _ _ _).
  destruct (existsb _ (sessions st2)); [done|]. split.
  - eapply SS_login with (row := mk_session _ _ _ _ None None _ _); cbn; try done; [by rewrite Hs|lia].
  - cbn. lia.
Qed.

Lemma enroll_stepped secret iv e st :
  stepped (Enroll secret iv) e st (serve (Enroll secret iv) e st).
Proof.
  cbn [AuthRoutes.serve]. apply (authenticated_ind (stepped _ e st)); [apply stepped_store|]. intros p st1 Hp.
  apply principal_only_users in Hp as (_ & Hs & _ & _ & _ & _ & Hn & _). cbn [take_id].
  set (s := clear_secrets _ _ _). cbn [store with_store with_enrollments]. destruct s as [s|].
  - destruct (SettingsStore.set_secret _ _ _ _ _ _ _) as [[[]|x] s2]; [|done]. apply stepped_same; cbn; [done|lia].
  - apply stepped_same; cbn; [done|lia].
Qed.

Lemma verify_stepped code e st : stepped (Verify code) e st (serve (Verify code) e st).
Proof.
  cbn [AuthRoutes.serve]. apply (authenticated_ind (stepped _ e st)); [apply stepped_store|]. intros p st1 Hp.
  pose proof (principal_only_users _ _ _ _ Hp) as (_ & Hs & _ & _ & _ & _ & Hn & _).
  destruct (negb _); [done|]. destruct (enrollment_of (user_id p) st1) as [m|] eqn:Em; [|by apply stepped_same].
  destruct (verify_totp _ _ _ _) eqn:Ev; [|by apply stepped_same]. set (st2 := match m_confirmed_at m with Some _ => _ | None => _ end).
  assert (sessions st2 = sessions st1 ∧ next_id st2 = next_id st1) as [Hs2 Hn2] by (subst st2; by destruct (m_confirmed_at m)).
  destruct (session_id p) as [id|] eqn:Eid; [|apply stepped_same; cbn; [congruence|lia]].
  pose proof (current_principal_spec e st) as H. rewrite Hp in H.
  destruct H as [[Hl ->]|[(_ & _ & _ & _ & Hno & _) _]]; [|congruence]. split; [|cbn; lia].
  eapply SS_verify with (id := id) (user := user_id p); [done| |cbn; by rewrite Hs2]. by exists p, m.
Qed.

Lemma bootstrap_frame salt username password st :
  let st' := (bootstrap_admin argon2_hash salt username password st).2 in
  sessions st' = sessions st ∧ next_id st <= next_id st'.
Proof. unfold bootstrap_admin. destruct (find_user _ _ _); cbn; [done|]. split; [done|lia]. Qed.

Lemma serve_stepped c e st : stepped c e st (serve c e st).
Proof.
  destruct c as [salt token username password| | |secret iv|code| |salt username password dn|user b|user|user aid|salt username password|s];
    [apply login_stepped| | |apply enroll_stepped|apply verify_stepped| | | | | | |]; cbn [AuthRoutes.serve];
    [| | | | | | |apply stepped_same; by apply bootstrap_frame|by apply stepped_same].
  - apply (authenticated_ind (stepped _ e st)); [apply stepped_store|]. intros p st1 Hp.
    apply principal_only_users in Hp as (_ & Hs & _ & _ & _ & _ & Hn & _).
    destruct (session_id p) as [id|]; [|by apply stepped_same]. split; [|done].
    apply SS_revoke with (id := id). cbn. by rewrite Hs.
  - apply (authenticated_ind (stepped _ e st)); [apply stepped_store|]. intros p st1 Hp.
    apply principal_only_users in Hp as (_ & Hs & _ & _ & _ & _ & Hn & _). by apply stepped_same.
  - apply (managing_users_ind (stepped _ e st)); [apply stepped_store|]. intros p st1 ? Hp _.
    apply principal_only_users in Hp as (_ & Hs & _ & _ & _ & _ & Hn & _). by apply stepped_same.
  - apply (managing_users_ind (stepped _ e st)); [apply stepped_store|]. intros p st1 ? Hp _.
    apply principal_only_users in Hp as (_ & Hs & _ & _ & _ & _ & Hn & _). destruct (negb _); [done|].
    destruct (find_user _ _ _); [done|]. apply stepped_same; cbn; [done|lia].
  - apply (managing_users_ind (stepped _ e st)); [apply stepped_store|]. intros p st1 ? Hp _.
    apply principal_only_users in Hp as (_ & Hs & _ & _ & _ & _ & Hn & _). destruct (negb _); [done|].
    destruct (_validate_assignment b); [|done]. destruct (at_key _ _ _); [|done]. apply stepped_same; cbn; [done|lia].
  - apply (managing_users_ind (stepped _ e st)); [apply stepped_store|]. intros p st1 ? Hp _.
    apply principal_only_users in Hp as (_ & Hs & _ & _ & _ & _ & Hn & _). destruct (at_key _ _ _); [by apply stepped_same|done].
  - apply (managing_users_ind (stepped _ e st)); [apply stepped_store|]. intros p st1 ? Hp _.
    apply principal_only_users in Hp as (_ & Hs & _ & _ & _ & _ & Hn & _). destruct (at_key _ _ _); [|done].
    destruct (negb _); [done|]. cbv zeta. destruct (is_global_admin _ && _); [done|by apply stepped_same].
Qed.

(** ** A revoked session stays dead *)

Definition dead (hash : string) (st : state) : Prop :=
  ∃ row, at_key s_token_hash hash (sessions st) = Some row ∧ s_revoked_at row ≠ None.

Lemma dead_step hash c e st : dead hash st → dead hash (serve c e st).
Proof.
  intros (row & Hr & Hv). destruct (serve_stepped c e st) as [[Hs|row' Hs _ _ _ _|id Hs|code id user _ _ Hs] _];
    unfold dead; rewrite Hs.
  - by exists row.
  - exists row. split; [|done]. by rewrite at_key_app, Hr.
  - unfold revoke_session. cbn. rewrite at_key_update_where, Hr by done. cbn. eexists. split; [done|]. by destruct (bool_decide _).
  - unfold mark_step_up. cbn. rewrite at_key_update_where, Hr by done. cbn. eexists. split; [done|]. by destruct (bool_decide _).
Qed.

Lemma dead_history hash h st : dead hash st → dead hash (serve_all h st).
Proof. revert st. induction h as [|[c e] h IH]; intros st Hd; [done|]. apply IH. by apply dead_step. Qed.

Lemma dead_token token e st : dead (sha256_hex token) st → extract_session_token (req e) = Some token → local_authenticate e st = None.
Proof.
  intros (row & Hr & Hv) Ht. destruct (local_authenticate e st) as [p|] eqn:E; [|done].
  apply local_authenticate_spec in E as (token' & row' & user & Ht' & Hr' & Hv' & _).
  rewrite Ht in Ht'. injection Ht' as <-. rewrite Hr in Hr'. by injection Hr' as <-.
Qed.

(** C12: A session whose logout was committed is locked out at once and for good: whatever requests follow, in any order
    and at any time, its token authenticates nobody. *)
Theorem logged_out_stays_out e st p st1 h e' :
  current_principal e st = (Ok p, st1) → session_id p ≠ None → (post_logout sha256_hex ip_valid ip_in_network e st).1 = Ok tt →
  extract_session_token (req e') = extract_session_token (req e) →
  local_authenticate e' (serve_all h (serve Logout e st)) = None.
Proof.
  intros Hp Hid Hok Ht. pose proof (current_principal_spec e st) as H. rewrite Hp in H.
  destruct H as [[Hl ->]|[(_ & _ & _ & _ & Hno & _) _]]; [|done].
  apply local_authenticate_spec in Hl as (token & row & user & Htok & Hr & Hv & Hx & Hu & Ha & Hpe).
  rewrite Htok in Ht. apply (dead_token token); [|done]. apply dead_history.
  cbn [AuthRoutes.serve]. unfold post_logout, authenticated in *. rewrite Hp in *. subst p.
  cbn [session_id in_transaction fst snd] in *. destruct (commits _ _ _); [|done]. cbn [snd].
  unfold dead, audit_auth, revoke_session. cbn. rewrite at_key_update_where, Hr by done. cbn.
  rewrite bool_decide_true by done. by eexists.
Qed.

(** ** Step-up *)

Definition wf_sessions (st : state) : Prop :=
  unique s_id (sessions st) ∧ ∀ s, s ∈ sessions st → s_id s < next_id st.

Lemma elem_of_update_where {A} (p : A → bool) f (l : list A) x :
  x ∈ update_where p f l ↔ ∃ y, y ∈ l ∧ x = if p y then f y else y.
Proof. unfold update_where. rewrite list_elem_of_fmap. naive_solver. Qed.

Lemma wf_update p f st st' :
  (∀ s, s_id (f s) = s_id s) → sessions st' = update_where p f (sessions st) → next_id st <= next_id st' →
  wf_sessions st → wf_sessions st'.
Proof.
  intros Hf Hs Hn [Hu Hb]. split; rewrite Hs.
  - unfold unique. by rewrite update_where_keys.
  - intros s (y & Hy & ->)%elem_of_update_where. specialize (Hb y Hy). destruct (p y); rewrite ?Hf; lia.
Qed.

Lemma wf_step c e st : wf_sessions st → wf_sessions (serve c e st).
Proof.
  intros Hwf. destruct (serve_stepped c e st) as [[Hs|row Hs _ _ Hid Hlt|id Hs|code id user _ _ Hs] Hn].
  - destruct Hwf as [Hu Hb]. split; rewrite Hs; [done|]. intros s Hin. specialize (Hb s Hin). lia.
  - destruct Hwf as [Hu Hb]. split; rewrite Hs.
    + unfold unique. rewrite fmap_app. apply NoDup_snoc; [done|]. rewrite Hid.
      intros (s & E & Hin)%list_elem_of_fmap. specialize (Hb s Hin). lia.
    + intros s [Hin| ->%list_elem_of_singleton]%elem_of_app; [specialize (Hb s Hin)|]; lia.
  - by eapply wf_update; [|exact Hs|..].
  - by eapply wf_update; [|exact Hs|..].
Qed.

Lemma serve_all_snoc h c e st : serve_all (h ++ [(c, e)]) st = serve c e (serve_all h st).
Proof. unfold AuthRoutes.serve_all. by rewrite foldl_app. Qed.

(** The stamp of a session is the time of a verified code. *)
Definition stamped (st0 : state) (h : history) (row : UserSession) : Prop :=
  ∀ d, s_mfa_authenticated_at row = Some d →
  ∃ h1 code e h2, h = h1 ++ (Verify code, e) :: h2 ∧ d = utc (now e) ∧
    verifies code e (serve_all h1 st0) (s_id row) (s_user_id row).

Lemma stamped_snoc st0 h x row : stamped st0 h row → stamped st0 (h ++ [x]) row.
Proof.
  intros H d Hd. destruct (H d Hd) as (h1 & code & e & h2 & -> & ? & ?). exists h1, code, e, (h2 ++ [x]).
  split_and!; try done. by rewrite <- app_assoc.
Qed.

Lemma session_user e st p id row :
  wf_sessions st → local_authenticate e st = Some p → session_id p = Some id → row ∈ sessions st → s_id row = id →
  user_id p = s_user_id row.
Proof.
  intros [Hu _] Hl Hid Hrow Hri. apply local_authenticate_spec in Hl as (token & row' & user & _ & Hr & _ & _ & Hus & _ & ->).
  cbn in *. injection Hid as <-. apply at_key_some in Hr as [Hin' _]. apply at_key_some in Hus as [_ ->].
  pose proof (at_key_elem s_id _ row Hu Hrow) as H1. pose proof (at_key_elem s_id _ row' Hu Hin') as H2. congruence.
Qed.

Lemma stamps_verified st0 h :
  sessions st0 = [] → wf_sessions (serve_all h st0) ∧ ∀ row, row ∈ sessions (serve_all h st0) → stamped st0 h row.
Proof.
  intros H0. induction h as [|[c e] h [Hwf IH]] using rev_ind.
  - cbn. rewrite H0. split; [|by intros row ?%elem_of_nil]. split; rewrite H0; [constructor|by intros s ?%elem_of_nil].
  - rewrite serve_all_snoc. split; [by apply wf_step|]. set (st := serve_all h st0) in *.
    destruct (serve_stepped c e st) as [[Hs|row0 Hs Hm _ _ _|id Hs|code id user -> Hv Hs] _]; rewrite Hs; intros row Hin.
    + by apply stamped_snoc, IH.
    + apply elem_of_app in Hin as [Hin| ->%list_elem_of_singleton]; [by apply stamped_snoc, IH|]. intros d. by rewrite Hm.
    + apply elem_of_update_where in Hin as (y & Hy & ->). apply stamped_snoc. by destruct (bool_decide _); apply IH in Hy.
    + apply elem_of_update_where in Hin as (y & Hy & ->). case_bool_decide as Ey; [|by apply stamped_snoc, IH].
      intros d [= <-]. exists h, code, e, []. split; [done|]. split; [done|]. cbn [s_id s_user_id]. fold st.
      destruct Hv as (p & m & Hl & Hid & <- & Hen & Hv). exists p, m. split; [done|]. split; [congruence|].
      split; [by eapply session_user|]. by rewrite <- (session_user e st p id y Hwf Hl Hid Hy Ey).
Qed.

(** C11: No step-up without the second factor: whenever a request passes the step-up check, its own session
    verified a TOTP code of its user's enrollment, within the freshness window before. *)
Theorem step_up_needs_totp st0 h e p st1 :
  sessions st0 = [] →
  current_principal e (serve_all h st0) = (Ok p, st1) → require_step_up_mfa e p = Ok tt →
  ∃ h1 code e0 h2 id, h = h1 ++ (Verify code, e0) :: h2 ∧ session_id p = Some id ∧
    verifies code e0 (serve_all h1 st0) id (user_id p) ∧ now e - now e0 <= seconds (mfa_freshness_seconds (cfg e)).
Proof.
  intros H0 Hp Hf. destruct (stamps_verified st0 h H0) as [Hwf Hst]. pose proof (current_principal_spec e (serve_all h st0)) as H.
  rewrite Hp in H. unfold require_step_up_mfa in Hf. destruct H as [[Hl ->]|[(_ & _ & _ & _ & _ & Hm & _) _]]; [|by rewrite Hm in Hf].
  apply local_authenticate_spec in Hl as (token & row & user & _ & Hr & _ & _ & Hu & _ & ->). cbn in *.
  destruct (s_mfa_authenticated_at row) as [d|] eqn:Ed; [|done]. apply at_key_some in Hr as [Hin _].
  destruct (Hst row Hin d Ed) as (h1 & code & e0 & h2 & -> & -> & Hv). exists h1, code, e0, h2, (s_id row).
  split_and!; try done; [by apply at_key_some in Hu as [_ ->]|]. cbn in Hf. destruct (_ <=? _) eqn:E; [|done].
  apply Z.leb_le in E. unfold instant in E. cbn in E. lia.
Qed.

(** ** Authority *)

Definition grant_of (a : RoleAssignment) : option Grant :=
  role ← _coerce_role (a_role a); kind ← _coerce_scope_kind (a_scope_kind a);
  Some (mk_grant role kind (a_host_id a) (a_volume_id a)).

Lemma elem_of_grants user st g :
  g ∈ grants_for_user user st ↔ ∃ a, a ∈ assignments st ∧ a_user_id a = user ∧ grant_of a = Some g.
Proof.
  unfold grants_for_user. transitivity (∃ a, a ∈ filter (λ a, a_user_id a = user) (assignments st) ∧ grant_of a = Some g).
  2: { split; intros (a & H); exists a; rewrite list_elem_of_filter in *; tauto. }
  generalize (filter (λ a, a_user_id a = user) (assignments st)). intros l.
  induction l as [|a l IH] using rev_ind; [split; [by intros ?%elem_of_nil|by intros (? & ?%elem_of_nil & _)]|].
  rewrite foldl_app. cbn [foldl]. set (gs := foldl _ [] l) in *.
  transitivity (g ∈ gs ∨ grant_of a = Some g).
  - unfold grant_of. destruct (_coerce_role (a_role a)) as [r|]; cbn [mbind option_bind]; [|split; [intros ?; by left|by intros [?|?]]].
    destruct (_coerce_scope_kind (a_scope_kind a)) as [k|]; cbn [mbind option_bind]; [|split; [intros ?; by left|by intros [?|?]]].
    case_bool_decide; [split; [intros ?; by left|by intros [?|[= <-]]]|]. rewrite elem_of_app, list_elem_of_singleton.
    split; (intros [?|E]; [by left|right; congruence]).
  - rewrite IH. split.
    + intros [(b & Hb & E)|E]; [exists b|exists a]; rewrite elem_of_app, list_elem_of_singleton; tauto.
    + intros (b & [Hb| ->%list_elem_of_singleton]%elem_of_app & E); [left; by exists b|by right].
Qed.

Lemma elem_of_group_roles gs st r :
  r ∈ roles_for_groups gs st ↔ ∃ b, b ∈ bindings st ∧ b_group_claim b ∈ gs ∧ _coerce_role (b_role b) = Some r.
Proof.
  unfold roles_for_groups. destruct gs as [|g gs].
  - split; [by intros ?%elem_of_nil|by intros (? & _ & ?%elem_of_nil & _)].
  - rewrite list_elem_of_omap. split; intros (b & H); exists b; rewrite list_elem_of_filter in *; tauto.
Qed.

Lemma require_held cap p scope : require cap p = Ok scope → ∃ g, g ∈ grants p ∧ role_has (g_role g) cap = true.
Proof.
  unfold require, has_capability. destruct (existsb _ (grants p)) eqn:E; [|done]. intros _.
  apply existsb_exists in E as (g & Hg & Hr). exists g. split; [by apply list_elem_of_In|done].
Qed.

(** C13: Deny by default: a request that passes the guard of a capability comes with a live session of an active
    user and an assignment of that user whose role has the capability, or through a trusted proxy with a group that is
    bound to such a role. *)
Theorem authorised_requests e st p st1 cap scope :
  current_principal e st = (Ok p, st1) → require cap p = Ok scope →
  (∃ token row user a role, extract_session_token (req e) = Some token ∧
     at_key s_token_hash (sha256_hex token) (sessions st) = Some row ∧ s_revoked_at row = None ∧
     now e < instant (as_utc (s_expires_at row)) ∧
     at_key u_id (s_user_id row) (users st) = Some user ∧ u_is_active user = true ∧
     a ∈ assignments st ∧ a_user_id a = u_id user ∧ _coerce_role (a_role a) = Some role ∧ role_has role cap = true) ∨
  (∃ b role, _is_trusted_source ip_valid ip_in_network (client_host (req e)) (trusted_forward_proxy_cidrs (cfg e)) = true ∧
     remote_user (req e) = Some (subject p) ∧ b ∈ bindings st ∧
     b_group_claim b ∈ split_groups (default "" (remote_groups (req e))) ∧
     _coerce_role (b_role b) = Some role ∧ role_has role cap = true).
Proof.
  intros Hp (g & Hg & Hr)%require_held. pose proof (current_principal_spec e st) as H. rewrite Hp in H.
  destruct H as [[Hl _]|[(_ & Ht & Hn & _ & _ & _ & Hgs) _]]; [left|right].
  - apply local_authenticate_spec in Hl as (token & row & user & ? & ? & ? & ? & ? & ? & ->). cbn in Hg.
    apply elem_of_grants in Hg as (a & Ha & Hau & Hga). unfold grant_of in Hga.
    destruct (_coerce_role (a_role a)) as [r|] eqn:Er; [|done]. cbn [mbind option_bind] in Hga. destruct (_coerce_scope_kind _); [|done].
    injection Hga as <-. exists token, row, user, a, r. split_and!; done.
  - rewrite Hgs in Hg. apply list_elem_of_fmap in Hg as (r & -> & Hrg). apply elem_of_group_roles in Hrg as (b & Hb & Hbg & Hbr).
    exists b, r. split_and!; done.
Qed.

(** ** Assignments *)

(** The event of a grant. *)
Definition grant_event (actor : string) (user : Z) (b : CreateAssignmentRequest) : AuditEvent :=
  mk_event actor "users.grant" ("user:" +:+ pretty user +:+ ":" +:+ r_role b +:+ ":" +:+ r_scope_kind b) None "granted".

Inductive assign_step (c : call) (e : env) (st st' : state) : Prop :=
| AS_same : assignments st' = assignments st → assign_step c e st st'
| AS_boot salt username password id user : c = Bootstrap salt username password →
    assignments st' = assignments st ++ [mk_assignment id user "admin" "global" None None (Some "bootstrap")] →
    next_id st <= id < next_id st' → assign_step c e st st'
| AS_grant user b p st1 scope id : c = CreateAssignment user b → current_principal e st = (Ok p, st1) →
    require MANAGE_USERS p = Ok scope →
    assignments st' = assignments st ++ [mk_assignment id user (r_role b) (r_scope_kind b) (r_host_id b) (r_volume_id b) (Some (subject p))] →
    next_id st <= id < next_id st' → grant_event (subject p) user b ∈ audit st' → assign_step c e st st'
| AS_revoke user aid p st1 scope a : c = DeleteAssignment user aid → current_principal e st = (Ok p, st1) →
    require MANAGE_USERS p = Ok scope → at_key a_id aid (assignments st) = Some a →
    (is_global_admin a = true → ∃ x, x ∈ assignments st ∧ is_global_admin x = true ∧ a_id x ≠ aid) →
    assignments st' = filter (λ x, a_id x ≠ aid) (assignments st) → assign_step c e st st'.

Definition assigned (c : call) (e : env) (st st' : state) : Prop :=
  assign_step c e st st' ∧ ∃ l, audit st' = audit st ++ l.

Lemma assigned_same c e st st' l : assignments st' = assignments st → audit st' = audit st ++ l → assigned c e st st'.
Proof. intros Hs Ha. split; [by apply AS_same|by exists l]. Qed.

Lemma assigned_refl c e st : assigned c e st st.
Proof. apply (assigned_same _ _ _ _ []); [done|by rewrite app_nil_r]. Qed.

Lemma assigned_store c e st s : assigned c e st (with_store s st).
Proof. apply (assigned_same _ _ _ _ []); [done|by rewrite app_nil_r]. Qed.

Lemma login_assigned salt token username password e st :
  assigned (Login salt token username password) e st (serve (Login salt token username password) e st).
Proof.
  cbn [AuthRoutes.serve]. apply (transaction_ind (assigned _ e st)); [apply assigned_store|]. destruct (negb _); [done|].
  unfold login. destruct (get_active_user _ _ _) as [u|]; [|by eapply assigned_same].
  destruct (u_password_hash u) as [hash|]; [|by eapply assigned_same]. destruct (negb _); [by eapply assigned_same|].
  set (st1 := if needs_rehash _ _ then _ else _). assert (assignments st1 = assignments st ∧ audit st1 = audit st) as [Hs Hn].
  { subst st1. by destruct (needs_rehash _ _). }
  unfold create_session. cbn [take_id]. set (st2 := mk_state _ _ _ _ _ _ _ _).
  destruct (existsb _ (sessions st2)); [done|]. eapply assigned_same; cbn; [done|by rewrite Hn].
Qed.

Lemma enroll_assigned secret iv e st : assigned (Enroll secret iv) e st (serve (Enroll secret iv) e st).
Proof.
  cbn [AuthRoutes.serve]. apply (authenticated_ind (assigned _ e st)); [apply assigned_store|]. intros p st1 Hp.
  apply principal_only_users in Hp as (Hs & _ & _ & _ & Ha & _). cbn [take_id].
  set (s := clear_secrets _ _ _). cbn [store with_store with_enrollments]. destruct s as [s|].
  - destruct (SettingsStore.set_secret _ _ _ _ _ _ _) as [[[]|x] s2]; [|done]. eapply assigned_same; cbn; [done|by rewrite Ha].
  - eapply assigned_same; cbn; [done|by rewrite Ha].
Qed.

Lemma verify_assigned code e st : assigned (Verify code) e st (serve (Verify code) e st).
Proof.
  cbn [AuthRoutes.serve]. apply (authenticated_ind (assigned _ e st)); [apply assigned_store|]. intros p st1 Hp.
  apply principal_only_users in Hp as (Hs & _ & _ & _ & Ha & _).
  destruct (negb _); [done|]. destruct (enrollment_of (user_id p) st1) as [m|] eqn:Em; [|eapply assigned_same; cbn; [done|by rewrite Ha]].
  destruct (verify_totp _ _ _ _) eqn:Ev; [|eapply assigned_same; cbn; [done|by rewrite Ha]].
  destruct (m_confirmed_at m), (session_id p); eapply assigned_same; cbn; try done; by rewrite Ha.
Qed.

Lemma create_assignment_assigned user b e st :
  assigned (CreateAssignment user b) e st (serve (CreateAssignment user b) e st).
Proof.
  cbn [AuthRoutes.serve]. apply (managing_users_ind (assigned _ e st)); [apply assigned_store|]. intros p st1 scope Hp Hm.
  pose proof (principal_only_users _ _ _ _ Hp) as (Hs & _ & _ & _ & Ha & _ & Hn & _). destruct (negb _); [done|].
  destruct (_validate_assignment b); [|done]. destruct (at_key u_id user (users st1)) as [u|]; [|done]. cbn [take_id]. split.
  - eapply AS_grant; [done|exact Hp|exact Hm|cbn; by rewrite Hs|cbn; lia|].
    cbn. apply elem_of_app. right. apply list_elem_of_singleton. done.
  - eexists. cbn. by rewrite Ha.
Qed.

Lemma delete_assignment_assigned user aid e st :
  assigned (DeleteAssignment user aid) e st (serve (DeleteAssignment user aid) e st).
Proof.
  cbn [AuthRoutes.serve]. apply (managing_users_ind (assigned _ e st)); [apply assigned_store|]. intros p st1 scope Hp Hm.
  pose proof (principal_only_users _ _ _ _ Hp) as (Hs & _ & _ & _ & Ha & _). destruct (at_key _ _ _) as [a|] eqn:Ea; [|done].
  destruct (negb _); [done|]. cbv zeta. destruct (is_global_admin a && _) eqn:Eg; [done|]. rewrite Hs in *. split.
  - eapply AS_revoke; [done|exact Hp|exact Hm|exact Ea| |done].
    intros Hadm. rewrite Hadm in Eg. cbn in Eg. apply bool_decide_eq_false in Eg.
    destruct (filter _ (assignments st)) as [|x l] eqn:El; [done|].
    assert (x ∈ filter (λ x, is_global_admin x ∧ a_id x ≠ aid) (assignments st)) as Hx by (rewrite El; left).
    apply list_elem_of_filter in Hx as [[Hx1%Is_true_true Hx2] Hx]. by exists x.
  - eexists. cbn. by rewrite Ha.
Qed.

Lemma serve_assigned c e st : assigned c e st (serve c e st).
Proof.
  destruct c as [salt token username password| | |secret iv|code| |salt username password dn|user b|user|user aid|salt username password|s];
    [apply login_assigned| | |apply enroll_assigned|apply verify_assigned| | |apply create_assignment_assigned| |
     apply delete_assignment_assigned| |]; cbn [AuthRoutes.serve]; [| | | | | |by eapply assigned_same; [|symmetry; apply app_nil_r]].
  - apply (authenticated_ind (assigned _ e st)); [apply assigned_store|]. intros p st1 Hp.
    apply principal_only_users in Hp as (Hs & _ & _ & _ & Ha & _). destruct (session_id p); eapply assigned_same; cbn; try done; by rewrite Ha.
  - apply (authenticated_ind (assigned _ e st)); [apply assigned_store|]. intros p st1 Hp.
    apply principal_only_users in Hp as (Hs & _ & _ & _ & Ha & _). eapply (assigned_same _ _ _ _ []); [done|]. by rewrite Ha, app_nil_r.
  - apply (managing_users_ind (assigned _ e st)); [apply assigned_store|]. intros p st1 ? Hp _.
    apply principal_only_users in Hp as (Hs & _ & _ & _ & Ha & _). eapply (assigned_same _ _ _ _ []); [done|]. by rewrite Ha, app_nil_r.
  - apply (managing_users_ind (assigned _ e st)); [apply assigned_store|]. intros p st1 ? Hp _.
    apply principal_only_users in Hp as (Hs & _ & _ & _ & Ha & _). destruct (negb _); [done|].
    destruct (find_user _ _ _); [done|]. eapply assigned_same; cbn; [done|by rewrite Ha].
  - apply (managing_users_ind (assigned _ e st)); [apply assigned_store|]. intros p st1 ? Hp _.
    apply principal_only_users in Hp as (Hs & _ & _ & _ & Ha & _). destruct (at_key _ _ _); [|done].
    eapply (assigned_same _ _ _ _ []); [done|]. by rewrite Ha, app_nil_r.
  - unfold bootstrap_admin. destruct (find_user _ _ _); [apply assigned_refl|]. split.
    + eapply AS_boot; [done|done|]. cbn. lia.
    + exists []. cbn. by rewrite app_nil_r.
Qed.

(** Where an assignment comes from. *)
Definition accounted (st0 : state) (h : history) (a : RoleAssignment) : Prop :=
  (∃ h1 salt username password e h2, h = h1 ++ (Bootstrap salt username password, e) :: h2 ∧ a_granted_by a = Some "bootstrap") ∨
  (∃ h1 user b e h2 p st1 scope, h = h1 ++ (CreateAssignment user b, e) :: h2 ∧
     current_principal e (serve_all h1 st0) = (Ok p, st1) ∧ require MANAGE_USERS p = Ok scope ∧
     a_granted_by a = Some (subject p) ∧ a_user_id a = user ∧ a_role a = r_role b ∧ a_scope_kind a = r_scope_kind b ∧
     grant_event (subject p) user b ∈ audit (serve_all h st0)).

Lemma accounted_snoc st0 h c e a : accounted st0 h a → accounted st0 (h ++ [(c, e)]) a.
Proof.
  intros [(h1 & salt & u & pw & e' & h2 & -> & H)|(h1 & user & b & e' & h2 & p & st1 & scope & -> & H1 & H2 & H3 & H4 & H5 & H6 & H7)].
  - left. exists h1, salt, u, pw, e', (h2 ++ [(c, e)]). split; [|done]. by rewrite <- app_assoc.
  - right. exists h1, user, b, e', (h2 ++ [(c, e)]), p, st1, scope. split_and!; try done; [by rewrite <- app_assoc|].
    rewrite serve_all_snoc. destruct (serve_assigned c e (serve_all (h1 ++ (CreateAssignment user b, e') :: h2) st0)) as [_ [l ->]].
    apply elem_of_app. by left.
Qed.

(** Every assignment of the catalogue was made by the bootstrap, or by a request of someone who could manage
    users at that moment, is recorded with that person's name, and its event is in the audit log. *)
Theorem assignments_accounted st0 h a :
  assignments st0 = [] → a ∈ assignments (serve_all h st0) → accounted st0 h a.
Proof.
  intros H0. revert a. induction h as [|[c e] h IH] using rev_ind; intros a; [cbn; rewrite H0; by intros ?%elem_of_nil|].
  rewrite serve_all_snoc. set (st := serve_all h st0) in *.
  destruct (serve_assigned c e st) as [[Hs|salt u pw id user -> Hs _|user b p st1 scope id -> Hp Hm Hs _ Hau|user aid p st1 scope x _ _ _ _ _ Hs] _];
    rewrite Hs.
  - intros Ha. by apply accounted_snoc, IH.
  - intros [Ha| ->%list_elem_of_singleton]%elem_of_app; [by apply accounted_snoc, IH|].
    left. by exists h, salt, u, pw, e, [].
  - intros [Ha| ->%list_elem_of_singleton]%elem_of_app; [by apply accounted_snoc, IH|].
    right. exists h, user, b, e, [], p, st1, scope. split_and!; try done. by rewrite serve_all_snoc.
  - intros [_ Ha]%list_elem_of_filter. by apply accounted_snoc, IH.
Qed.

(** ** The last administrator *)

Definition wf_assignments (st : state) : Prop :=
  unique a_id (assignments st) ∧ ∀ a, a ∈ assignments st → a_id a < next_id st.

Lemma wf_assignments_snoc st st' a :
  wf_assignments st → assignments st' = assignments st ++ [a] → next_id st <= a_id a < next_id st' → wf_assignments st'.
Proof.
  intros [Hu Hb] Hs Hid. split; rewrite Hs.
  - unfold unique. rewrite fmap_app. apply NoDup_snoc; [done|]. intros (y & E & Hy)%list_elem_of_fmap. specialize (Hb y Hy). cbn in *. lia.
  - intros y [Hy| ->%list_elem_of_singleton]%elem_of_app; [specialize (Hb y Hy)|]; lia.
Qed.

Lemma admin_step c e st :
  wf_assignments st → existsb is_global_admin (assignments st) = true →
  wf_assignments (serve c e st) ∧ existsb is_global_admin (assignments (serve c e st)) = true.
Proof.
  intros Hwf Ha. pose proof (proj2 (serve_stepped c e st)) as Hn. pose proof (serve_assigned c e st) as [H _].
  destruct H as [Hs|salt u pw id user -> Hs Hid|user b p st1 scope id -> Hp Hm Hs Hid _|user aid p st1 scope x -> _ _ Hx Hk Hs].
  - split; [|by rewrite Hs]. destruct Hwf as [Hu Hb]. split; rewrite Hs; [done|]. intros y Hy. specialize (Hb y Hy). lia.
  - split; [by eapply wf_assignments_snoc|]. by rewrite Hs, existsb_app, Ha.
  - split; [by eapply wf_assignments_snoc|]. by rewrite Hs, existsb_app, Ha.
  - destruct Hwf as [Hu Hb]. split.
    + split; rewrite Hs; [eapply sublist_NoDup; [exact Hu|apply fmap_sublist, sublist_filter]|].
      intros y [_ Hy]%list_elem_of_filter. specialize (Hb y Hy). lia.
    + rewrite Hs. apply existsb_exists. apply at_key_some in Hx as [Hx Hxid]. destruct (is_global_admin x) eqn:Ex.
      * destruct (Hk eq_refl) as (y & Hy & Hya & Hyi). exists y. split; [|done]. apply list_elem_of_In, list_elem_of_filter. done.
      * apply existsb_exists in Ha as (y & Hy%list_elem_of_In & Hya). exists y. split; [|done].
        apply list_elem_of_In, list_elem_of_filter. split; [|done]. intros Hyi.
        pose proof (at_key_elem a_id _ x Hu Hx) as H1. pose proof (at_key_elem a_id _ y Hu Hy) as H2. rewrite Hxid in H1.
        rewrite Hyi in H2. rewrite H1 in H2. injection H2 as ->. congruence.
Qed.

(** Once there is a global administrator, no sequence of requests removes the last assignment of one. *)
Theorem last_admin_kept st h :
  wf_assignments st → existsb is_global_admin (assignments st) = true →
  existsb is_global_admin (assignments (serve_all h st)) = true.
Proof.
  revert st. induction h as [|[c e] h IH]; intros st Hwf Ha; [done|]. destruct (admin_step c e st Hwf Ha) as [Hwf' Ha'].
  by apply IH.
Qed.

(** ** Login *)

Lemma at_key_fresh hash (l : list UserSession) :
  existsb (λ s, bool_decide (s_token_hash s = hash)) l = false → at_key s_token_hash hash l = None.
Proof.
  intros H. apply at_key_none. intros (s & -> & Hs)%list_elem_of_fmap. apply list_elem_of_In in Hs.
  assert (existsb (λ s0, bool_decide (s_token_hash s0 = s_token_hash s)) l = true); [|congruence].
  apply existsb_exists. exists s. by rewrite bool_decide_true.
Qed.

Lemma get_active_user_spec src name st u :
  get_active_user src name st = Some u → u ∈ users st ∧ u_source u = src ∧ u_subject u = name ∧ u_is_active u = true.
Proof.
  unfold get_active_user, find_user. destruct (head _) as [v|] eqn:E; [|done]. destruct (u_is_active v) eqn:Ea; [|done]. intros [= <-].
  apply head_Some_elem_of, list_elem_of_filter in E as [[? ?] ?]. done.
Qed.

(** The credentials of an active local user. *)
Definition credentials (username password : string) (st : state) (u : User) : Prop :=
  get_active_user "local" username st = Some u ∧
  ∃ hash, u_password_hash u = Some hash ∧ verify_password argon2_verify password hash = true.

(** A login: with the credentials of an active local user it opens a session whose token, until it expires,
    is that user with the grants of the assignments and no step-up; with any others (an unknown name, an inactive or
    federated user, a wrong password) the answer is the same 401, nothing changes but the event in the audit
    log; and no other failure leaves a trace, a commit that fails on the audit chain included. *)
Theorem login_spec salt token username password e st :
  unique u_id (users st) →
  match post_login sha256_hex argon2_hash argon2_verify argon2_needs_rehash salt token username password e st with
  | (Ok t, st') => t = token ∧ ∃ u, credentials username password st u ∧
      audit st' = audit st ++ [mk_event username "auth.login" "local" None "granted"] ∧
      ∀ e', extract_session_token (req e') = Some token → now e' < now e + seconds (session_ttl_seconds (cfg e)) →
        ∃ p, local_authenticate e' st' = Some p ∧ user_id p = u_id u ∧ subject p = username ∧
          grants p = grants_for_user (u_id u) st ∧ mfa_authenticated_at p = None
  | (Err x, st') =>
      if bool_decide (status_code x = 401)
      then x = mk_http 401 "invalid credentials" ∧ (∀ u, ¬ credentials username password st u) ∧
           st' = audit_auth username "auth.login" "local" "denied" st
      else st' = st
  end.
Proof.
  intros Hu. unfold post_login. destruct (negb _); [done|]. unfold login, credentials.
  assert (∀ st' : state, store st' = store st → rolled_back st st' = st) as Hrb.
  { intros st' E. unfold rolled_back. rewrite E. destruct st as [? ? ? ? ? ? ? [[]|]]; done. }
  destruct (get_active_user "local" username st) as [u|] eqn:Eu;
    [|cbn; destruct (commits _ _ _); [split_and!; [done|by intros u [? _]|done]|by apply Hrb]].
  destruct (u_password_hash u) as [hash|] eqn:Eh;
    [|cbn; destruct (commits _ _ _); [split_and!; [done|intros v [[= <-] (h & ? & _)]; congruence|done]|by apply Hrb]].
  destruct (verify_password argon2_verify password hash) eqn:Ev;
    [|cbn; destruct (commits _ _ _); [split_and!; [done|intros v [[= <-] (h & ? & ?)]; congruence|done]|by apply Hrb]].
  cbn [negb]. set (st1 := if needs_rehash _ _ then _ else _). unfold create_session. cbn [take_id].
  set (st2 := mk_state _ _ _ _ _ _ _ _). destruct (existsb _ (sessions st2)) eqn:Ex; [done|].
  assert (audit st1 = audit st ∧ assignments st1 = assignments st ∧ store st1 = store st) as (Ha & Has & Hstore)
    by (subst st1; by destruct (needs_rehash _ _)).
  cbn [in_transaction]. destruct (commits _ _ _); [|by apply Hrb].
  split; [done|]. exists u. split; [split; [done|by exists hash]|]. split; [cbn; by rewrite Ha|]. intros e' Ht Hx.
  assert (∃ u', at_key u_id (u_id u) (users st1) = Some u' ∧ u_id u' = u_id u ∧ u_subject u' = username ∧ u_is_active u' = true)
    as (u' & Hu' & Hid & Hsub & Hact).
  { apply get_active_user_spec in Eu as (Hin & _ & <- & Hact). pose proof (at_key_elem u_id _ u Hu Hin) as Hk.
    subst st1. destruct (needs_rehash _ _); [|by exists u]. cbn. rewrite at_key_update_where, Hk by done. cbn.
    rewrite bool_decide_true by done. by eexists. }
  eexists. split; [apply local_authenticate_spec|].
  - eexists token, _, u'. split; [done|]. split; [cbn; rewrite at_key_app, at_key_fresh by exact Ex; by apply at_key_snoc with (l := [])|].
    cbn. split; [done|]. split; [unfold instant; cbn; lia|]. split; [exact Hu'|]. by split.
  - cbn. rewrite Hid. split_and!; try done. unfold grants_for_user. cbn. by rewrite Has.
Qed.
End Histories.

(** ** A concrete instance, and what it shows *)

Definition plain_verify (password hash : string) : option bool := Some (bool_decide (password = hash)).
Definition code_is_secret (secret code : string) (_ : Z) : bool := bool_decide (secret = code).
Definition same_host (ip cidr : string) : option bool := Some (bool_decide (ip = cidr)).

Notation demo := (serve_all id (λ _ password, password) plain_verify (λ _, Some false) code_is_secret (λ _, true) same_host (λ _ s, s) Some).
Notation demo_principal := (current_principal id (λ _, true) same_host).

Definition demo_settings : auth_settings := mk_settings ["local"; "forward"] 3600 300 ["10.0.0.1"] None None None.

(** A request with a session token, and one through the proxy. *)
Definition with_token (token : string) (t : Z) : env :=
  mk_env (mk_request (Some token) None (Some "192.0.2.1") None None None None None) (seconds t) demo_settings false.
Definition through_proxy (name groups : string) (t : Z) : env :=
  mk_env (mk_request None None (Some "10.0.0.1") None (Some name) (Some groups) None None) (seconds t) demo_settings false.

Definition empty_state : state :=
  mk_state [] [] [] [] [mk_binding 1 "ops" "viewer"] [] 1 (Some SettingsStore.start).

Definition nobody (t : Z) : env := with_token "" t.

Definition opened : history :=
  [(Bootstrap "" "root" "rootroot", nobody 0); (Login "" "t0" "root" "rootroot", nobody 1)].

Definition stepped_up : history := opened ++ [(Enroll "111111" "", with_token "t0" 2); (Verify "111111", with_token "t0" 3)].

Lemma logged_out_stays_out_witness :
  local_authenticate id (with_token "t0" 9) (demo [(Me, with_token "t0" 8)] (demo [(Logout, with_token "t0" 5)] (demo opened empty_state))) = None.
Proof.
  destruct (demo_principal (with_token "t0" 5) (demo opened empty_state)) as [[p|x] st1] eqn:E; [|by vm_compute in E].
  assert (session_id p ≠ None) as Hid by (vm_compute in E; by injection E as <- _).
  exact (logged_out_stays_out id (λ _ password, password) plain_verify (λ _, Some false) code_is_secret (λ _, true) same_host
    (λ _ s, s) Some (with_token "t0" 5) _ p st1 [(Me, with_token "t0" 8)] (with_token "t0" 9) E Hid eq_refl eq_refl).
Defined.

(** Another request's event between the head that a logout read and its flush: the logout is rolled back, the session stays open. *)
Lemma logout_lost_to_the_chain :
  let e := mk_env (req (with_token "t0" 5)) (seconds 5) demo_settings true in
  let st := demo opened empty_state in
  (post_logout id (λ _, true) same_host e st).1 = Err server_error ∧
  is_Some (local_authenticate id (with_token "t0" 9) (demo [(Logout, e)] st)).
Proof. split; [by vm_compute|]. apply (bool_decide_unpack _). vm_compute. exact I. Qed.

Lemma step_up_needs_totp_witness :
  ∃ h1 code e0 h2, stepped_up = h1 ++ (Verify code, e0) :: h2 ∧ seconds 20 - now e0 <= seconds 300.
Proof.
  destruct (demo_principal (with_token "t0" 20) (demo stepped_up empty_state)) as [[p|x] st1] eqn:E; [|by vm_compute in E].
  assert (require_step_up_mfa (with_token "t0" 20) p = Ok tt) as Hf by (vm_compute in E; by injection E as <- _).
  destruct (step_up_needs_totp id (λ _ password, password) plain_verify (λ _, Some false) code_is_secret (λ _, true) same_host
    (λ _ s, s) Some empty_state stepped_up (with_token "t0" 20) p st1 eq_refl E Hf) as (h1 & code & e0 & h2 & i & H & _ & _ & Ht).
  exists h1, code, e0, h2. split; [exact H|exact Ht].
Defined.

Lemma authorised_requests_witness :
  ∃ a, a ∈ assignments (demo opened empty_state) ∧ _coerce_role (a_role a) = Some ADMIN.
Proof.
  destruct (demo_principal (with_token "t0" 5) (demo opened empty_state)) as [[p|x] st1] eqn:E; [|by vm_compute in E].
  assert (∃ scope, require MANAGE_USERS p = Ok scope) as [scope Hs] by (vm_compute in E; injection E as <- _; by eexists).
  destruct (authorised_requests id (λ _ password, password) plain_verify (λ _, Some false) code_is_secret (λ _, true) same_host
    (λ _ s, s) Some (with_token "t0" 5) _ p st1 MANAGE_USERS scope E Hs)
    as [(? & ? & ? & a & role & _ & _ & _ & _ & _ & _ & Ha & _ & Hr & Hc)|(? & ? & _ & Hn & _)]; [|by vm_compute in Hn].
  exists a. split; [done|]. rewrite Hr. destruct role; done.
Defined.

Lemma assignments_accounted_witness :
  ∃ a, assignments (demo opened empty_state) = [a] ∧ a_granted_by a = Some "bootstrap".
Proof.
  destruct (assignments (demo opened empty_state)) as [|a [|? ?]] eqn:E; [by vm_compute in E| |by vm_compute in E].
  exists a. split; [done|]. destruct (assignments_accounted id (λ _ password, password) plain_verify (λ _, Some false) code_is_secret (λ _, true) same_host
    (λ _ s, s) Some empty_state opened a eq_refl ltac:(rewrite E; left)) as [(? & ? & ? & ? & ? & ? & _ & Hg)|(h1 & u & b & e & h2 & p & st1 & sc & H & _)]; [done|].
  destruct h1 as [|? [|? [|? ?]]]; done.
Defined.

Lemma last_admin_kept_witness :
  existsb is_global_admin (assignments (demo [(DeleteAssignment 1 2, with_token "t0" 5)] (demo opened empty_state))) = true.
Proof.
  apply last_admin_kept; [split; [by_compute|]|by vm_compute].
  intros a Ha. assert (assignments (demo opened empty_state) = [mk_assignment 2 1 "admin" "global" None None (Some "bootstrap")]) as E by (by vm_compute).
  rewrite E in Ha. apply list_elem_of_singleton in Ha as ->. by vm_compute.
Defined.

Lemma login_spec_witness :
  ∃ u, credentials plain_verify "root" "rootroot" (demo opened empty_state) u.
Proof.
  pose proof (login_spec id (λ _ password, password) plain_verify (λ _, Some false) "" "t1" "root" "rootroot" (nobody 5)
    (demo opened empty_state) ltac:(unfold unique; by_compute)) as H.
  destruct (post_login _ _ _ _ _ _ _ _ _ _) as [[t|x] st'] eqn:E; [|by vm_compute in E]. destruct H as [_ (u & Hu & _)]. by exists u.
Defined.

(** Enrolling again needs no step-up and replaces a confirmed second factor: whoever holds a session of the
    user enrols a secret of his own and passes the step-up check with it. *)
Lemma enroll_bypasses_step_up :
  let st := demo (stepped_up ++ [(Login "" "t1" "root" "rootroot", nobody 1000)]) empty_state in
  let stolen t := with_token "t1" t in
  let passes st t := match demo_principal (stolen t) st with (Ok p, _) => require_step_up_mfa (stolen t) p | (Err x, _) => Err x end in
  m_confirmed_at <$> enrollments st = [Some (utc (seconds 3))] ∧ passes st 1001 = Err (mk_http 401 "step-up MFA required") ∧
  passes (demo [(Enroll "222222" "", stolen 1002); (Verify "222222", stolen 1003)] st) 1004 = Ok tt.
Proof. by vm_compute. Qed.

(** The guard of the last administrator counts assignments that give no authority: a federated user's
    grants come from the groups of the proxy, so an admin assignment of his lets the only administrator be revoked. *)
Lemma federated_admin_defeats_guard :
  let st := demo (opened ++ [(Me, through_proxy "eve" "ops" 4);
    (CreateAssignment 4 (mk_grant_request "admin" "global" None None), with_token "t0" 5);
    (DeleteAssignment 1 2, with_token "t0" 6)]) empty_state in
  let manages e := match demo_principal e st with (Ok p, _) => has_capability p MANAGE_USERS | (Err _, _) => false end in
  a_user_id <$> assignments st = [4] ∧ manages (with_token "t0" 7) = false ∧ manages (through_proxy "eve" "ops" 7) = false.
Proof. by vm_compute. Qed.

(** A user of the forward provider verifies a code, is told that it was accepted, and has no step-up. *)
Lemma forward_verify_has_no_effect :
  let e := through_proxy "eve" "ops" in
  let st := demo [(Enroll "111111" "", e 1)] empty_state in
  let verified := post_mfa_verify id code_is_secret (λ _, true) same_host "111111" (e 2) st in
  verified.1 = Ok tt ∧
  match demo_principal (e 3) verified.2 with (Ok p, _) => is_ok (require_step_up_mfa (e 3) p) | (Err _, _) => true end = false.
Proof. by vm_compute. Qed.

(** A deactivated user is refused by the local provider and admitted by the forward provider. *)
Lemma inactive_forward_user_admitted :
  let st := with_users [mk_user 1 "eve" "forward" None None false] empty_state in
  match demo_principal (through_proxy "eve" "ops" 1) st with (Ok p, _) => has_capability p VIEW_METADATA | (Err _, _) => false end = true.
Proof. by vm_compute. Qed.
