(* ===== verification/PyUrl.v ===== *)
(** [urllib.parse] as the [fathom] package uses it: [urlsplit], [hostname], [port] and [urlunsplit].

    The standard library asks [ipaddress] whether a bracketed host is an address and normalises a network location that is not
    ASCII: both checks are parameters.  Code points above 255 are outside the model, as in [PyStr]. *)

From stdpp Require Import pretty.
From S2P Require Import Prelude PyStr PyInt.

Local Open Scope Z_scope.


(** [s.partition(c)] and [s.rpartition(c)]: the parts around the first, the last [c]; without one all of [s] is the first part
    (the last, for [rpartition]). *)
Fixpoint partition (c : ascii) (s : string) : string * bool * string :=
  match s with
  | "" => ("", false, "")
  | String d s' =>
      if Ascii.eqb d c then ("", true, s')
      else let '(a, found, b) := partition c s' in (String d a, found, b)
  end.

Fixpoint after_last (c : ascii) (s : string) : string :=
  match s with
  | "" => ""
  | String d s' => if has_char c s' then after_last c s' else if Ascii.eqb d c then s' else s
  end.

(** The longest prefix without a character of [P], and the rest. *)
Fixpoint break_at (P : ascii → bool) (s : string) : string * string :=
  match s with
  | "" => ("", "")
  | String c s' => if P c then ("", s) else let '(a, b) := break_at P s' in (String c a, b)
  end.

Fixpoint remove_chars (P : ascii → bool) (s : string) : string :=
  match s with
  | "" => ""
  | String c s' => if P c then remove_chars P s' else String c (remove_chars P s')
  end.

Definition scheme_char (c : ascii) : bool := is_alnum c || Ascii.eqb c "+" || Ascii.eqb c "-" || Ascii.eqb c ".".

Record SplitResult := mk_split { u_scheme : string; u_netloc : string; u_path : string; u_query : string; u_fragment : string }.

Section Url.
Context (bracketed_host_ok nfkc_ok : string → bool).

Definition is_ascii (s : string) : bool := s_all (λ c, code c <? 128) s.

Definition take_scheme (url : string) : string * string :=
  match partition ":" url with
  | (String c s as before, true, rest) =>
      if is_alpha c && s_all scheme_char before then (lower before, rest) else ("", url)
  | _ => ("", url)
  end.

(** [urlsplit(url)]; [None] is a ValueError. *)
Definition urlsplit (url : string) : option SplitResult :=
  let url := lstrip_by (λ c, code c <=? 32) url in
  let url := remove_chars (λ c, (code c =? 9) || (code c =? 10) || (code c =? 13)) url in
  let '(scheme, url) := take_scheme url in
  let '(netloc, url) := if startswith "//" url
                        then break_at (λ c, Ascii.eqb c "/" || Ascii.eqb c "?" || Ascii.eqb c "#") (drop_s 2 url) else ("", url) in
  let opened := has_char "[" netloc in let closed := has_char "]" netloc in
  if negb (eqb opened closed) then None
  else if opened && negb (bracketed_host_ok (partition "]" (partition "[" netloc).2).1.1) then None
  else
    let '(url, _, fragment) := partition "#" url in
    let '(url, _, query) := partition "?" url in
    if negb (is_ascii netloc) && negb (nfkc_ok netloc) then None
    else Some (mk_split scheme netloc url query fragment).
End Url.

(** [_hostinfo]. *)
Definition hostinfo (netloc : string) : string * option string :=
  let info := after_last "@" netloc in
  let '(_, bracket, bracketed) := partition "[" info in
  let '(hostname, port) :=
    if bracket : bool then let '(h, _, rest) := partition "]" bracketed in (h, (partition ":" rest).2)
    else let '(h, _, p) := partition ":" info in (h, p) in
  (hostname, match port with "" => None | _ => Some port end).

(** [parts.hostname]. *)
Definition hostname (netloc : string) : option string :=
  match (hostinfo netloc).1 with
  | "" => None
  | h => let '(h, percent, zone) := partition "%" h in Some (lower h +:+ (if percent : bool then "%" else "") +:+ zone)
  end.

(** [parts.port]; the outer [None] is a ValueError. *)
Definition port (netloc : string) : option (option Z) :=
  match (hostinfo netloc).2 with
  | None => Some None
  | Some p => if s_all is_digit p && (int_of_digits p <=? 65535) then Some (Some (int_of_digits p)) else None
  end.

(** [urlunsplit], for a network location that is not empty. *)
Definition urlunsplit (p : SplitResult) : string :=
  let url := u_path p in
  let url := "//" +:+ u_netloc p +:+ (if negb (bool_decide (url = "")) && negb (startswith "/" url) then "/" +:+ url else url) in
  let url := if bool_decide (u_scheme p = "") then url else u_scheme p +:+ ":" +:+ url in
  let url := if bool_decide (u_query p = "") then url else url +:+ "?" +:+ u_query p in
  if bool_decide (u_fragment p = "") then url else url +:+ "#" +:+ u_fragment p.

Example split_ex1 : urlsplit (λ _, true) (λ _, true) " https://u@proxy:9443/api/v1?x=1#y" = Some (mk_split "https" "u@proxy:9443" "/api/v1" "x=1" "y").
Proof. reflexivity. Qed.
Example split_ex2 : hostname "u@[FE80::1]:80" = Some "fe80::1" ∧ port "u@[FE80::1]:80" = Some (Some 80) ∧ port "h:" = Some None ∧ port "h:x" = None.
Proof. repeat split. Qed.

(** ** Laws: what is not in a text is not in its parts *)

Lemma partition_has c d s : has_char c s = false → has_char c (partition d s).1.1 = false ∧ has_char c (partition d s).2 = false.
Proof.
  induction s as [|e s IH]; [done|]. rewrite has_char_cons. intros [He Hs]%orb_false_iff. cbn [partition].
  destruct (Ascii.eqb e d); [done|]. destruct (partition d s) as [[a f] b]. destruct (IH Hs). cbn in *. split; [|done].
  rewrite has_char_cons, He. done.
Qed.

Lemma partition_absent c s : has_char c s = false → partition c s = (s, false, "").
Proof.
  induction s as [|d s IH]; [done|]. rewrite has_char_cons. intros [Hd Hs]%orb_false_iff. cbn [partition].
  rewrite Ascii.eqb_sym, Hd, IH by done. done.
Qed.

Lemma partition_app c a b : has_char c a = false → partition c (a +:+ String c b) = (a, true, b).
Proof.
  induction a as [|d a IH]; [cbn; by rewrite Ascii.eqb_refl|]. rewrite has_char_cons. intros [Hd Ha]%orb_false_iff.
  rewrite app_cons_s. cbn [partition]. rewrite Ascii.eqb_sym, Hd, IH by done. done.
Qed.

Lemma partition_found c s : (partition c s).1.2 = false → (partition c s).2 = "" ∧ (partition c s).1.1 = s.
Proof.
  induction s as [|d s IH]; [done|]. cbn [partition]. destruct (Ascii.eqb d c); [done|]. destruct (partition c s) as [[a f] b]. cbn in *.
  intros H. destruct (IH H) as [-> ->]. done.
Qed.

Lemma after_last_has c d s : has_char c s = false → has_char c (after_last d s) = false.
Proof.
  induction s as [|e s IH]; [done|]. rewrite has_char_cons. intros [He Hs]%orb_false_iff. cbn [after_last].
  destruct (has_char d s); [by apply IH|]. destruct (Ascii.eqb e d); [done|]. by rewrite has_char_cons, He.
Qed.

Lemma after_last_absent c s : has_char c s = false → after_last c s = s.
Proof.
  destruct s as [|d s]; [done|]. rewrite has_char_cons. intros [Hd Hs]%orb_false_iff. cbn [after_last]. rewrite Hs.
  by rewrite Ascii.eqb_sym, Hd.
Qed.

Lemma break_at_has c P s : has_char c s = false → has_char c (break_at P s).1 = false.
Proof.
  induction s as [|e s IH]; [done|]. rewrite has_char_cons. intros [He Hs]%orb_false_iff. cbn [break_at].
  destruct (P e); [done|]. destruct (break_at P s) as [a b]. cbn in *. by rewrite has_char_cons, He, IH.
Qed.

Lemma break_at_all (P Q : ascii → bool) s : s_all Q s = true → (∀ c, Q c = true → P c = false) → break_at P s = (s, "").
Proof.
  intros Hs HQ. induction s as [|c s IH]; [done|]. apply andb_true_iff in Hs as [Hc Hs]. cbn [break_at]. rewrite HQ by done. by rewrite IH.
Qed.

Lemma remove_chars_has (P : ascii → bool) c s : P c = true → has_char c (remove_chars P s) = false.
Proof.
  intros Hc. induction s as [|d s IH]; [done|]. cbn [remove_chars]. destruct (P d) eqn:Ed; [done|]. rewrite has_char_cons, IH, orb_false_r.
  apply Ascii.eqb_neq. intros ->. congruence.
Qed.

Lemma remove_chars_none (P Q : ascii → bool) s : s_all Q s = true → (∀ c, Q c = true → P c = false) → remove_chars P s = s.
Proof.
  intros Hs HQ. induction s as [|c s IH]; [done|]. apply andb_true_iff in Hs as [Hc Hs]. cbn [remove_chars]. rewrite HQ by done. by rewrite IH.
Qed.

Lemma drop_s_has c n s : has_char c s = false → has_char c (drop_s n s) = false.
Proof.
  revert s. induction n as [|n IH]; intros [|d s]; [done..|]. rewrite has_char_cons. intros [_ Hs]%orb_false_iff. by apply IH.
Qed.

Lemma take_scheme_has c url : has_char c url = false → has_char c (take_scheme url).2 = false.
Proof.
  intros H. unfold take_scheme. pose proof (partition_has c ":" url H) as [_ Hb]. destruct (partition ":" url) as [[[|d s] []] b]; cbn in *; try done.
  by destruct (_ && _).
Qed.

Lemma lower_has_nl s : has_char "010" (lower s) = has_char "010" s.
Proof.
  induction s as [|c s IH]; [done|]. cbn [lower]. rewrite !has_char_cons, IH. f_equal. by destruct c as [[] [] [] [] [] [] [] []].
Qed.

Lemma lower_idem s : lower (lower s) = lower s.
Proof. induction s as [|c s IH]; [done|]. cbn [lower]. rewrite IH. f_equal. by destruct c as [[] [] [] [] [] [] [] []]. Qed.

(** A network location holds no newline. *)
Lemma urlsplit_no_newline b n url r : urlsplit b n url = Some r → has_char "010" (u_netloc r) = false.
Proof.
  unfold urlsplit. set (u := remove_chars _ _). assert (has_char "010" u = false) as Hu by by apply remove_chars_has.
  apply take_scheme_has in Hu. destruct (take_scheme u) as [scheme rest]. cbn in Hu.
  assert (∀ P, has_char "010" (break_at P (drop_s 2 rest)).1 = false) as Hn by (intros P; apply break_at_has, drop_s_has, Hu).
  set (np := if startswith "//" rest then _ else _). assert (has_char "010" np.1 = false) as Hnp.
  { unfold np. destruct (startswith "//" rest); [apply Hn|done]. }
  clearbody np. destruct np as [netloc path]. destruct (negb _); [done|]. destruct (has_char "[" netloc && _); [done|].
  destruct (partition "#" path) as [[p1 ?] ?]. destruct (partition "?" p1) as [[p2 ?] ?]. destruct (negb _ && _); [done|]. by intros [= <-].
Qed.

(** The host of such a location holds none either. *)
Lemma hostname_no_newline netloc h : has_char "010" netloc = false → hostname netloc = Some h → has_char "010" h = false.
Proof.
  intros H. unfold hostname. assert (has_char "010" (hostinfo netloc).1 = false) as Hi.
  { unfold hostinfo. pose proof (after_last_has "010" "@" netloc H) as Ha. pose proof (partition_has "010" "[" _ Ha) as [_ Hb].
    destruct (partition "[" (after_last "@" netloc)) as [[x br] bracketed]. cbn in Hb. destruct br.
    - pose proof (partition_has "010" "]" _ Hb) as [Hc _]. by destruct (partition "]" bracketed) as [[h' ?] rest].
    - pose proof (partition_has "010" ":" _ Ha) as [Hc _]. by destruct (partition ":" _) as [[h' ?] p]. }
  destruct (hostinfo netloc).1 as [|c s]; [done|]. pose proof (partition_has "010" "%" _ Hi) as [Ha Hb].
  destruct (partition "%" (String c s)) as [[a pc] z]. cbn in Ha, Hb. intros [= <-]. rewrite !has_char_app, lower_has_nl, Ha, Hb. by destruct pc.
Qed.

(** *** A plain URL *)

Definition netloc_char (c : ascii) : bool := is_alnum c || existsb (Ascii.eqb c) ["."; "_"; ":"; "-"]%char.

Lemma netloc_no_char c s : s_all netloc_char s = true → netloc_char c = false → has_char c s = false.
Proof.
  intros H Hc. unfold has_char, s_any. apply negb_false_iff. revert H. apply s_all_impl. intros d Hd. apply negb_true_iff.
  apply Ascii.eqb_neq. intros ->. congruence.
Qed.

Lemma netloc_char_ascii c : netloc_char c = true → code c <? 128 = true ∧ ((code c =? 9) || (code c =? 10) || (code c =? 13)) = false ∧
  (Ascii.eqb c "/" || Ascii.eqb c "?" || Ascii.eqb c "#") = false.
Proof. destruct c as [[] [] [] [] [] [] [] []]; vm_compute; intros H; try discriminate H; repeat split. Qed.

Lemma s_all_split (P : ascii → bool) s : s_all P s = true ↔ ∀ c t r, s = t +:+ String c r → P c = true.
Proof.
  split.
  - intros H c t r ->. rewrite s_all_app in H. apply andb_true_iff in H as [_ H]. cbn in H. by apply andb_true_iff in H as [? _].
  - induction s as [|c s IH]; [done|]. intros H. cbn. rewrite (H c "" s) by done. apply IH. intros d t r ->. by apply (H d (String c t) r).
Qed.

Lemma urlsplit_plain b n scheme netloc :
  scheme ∈ ["http"; "https"] → s_all netloc_char netloc = true →
  urlsplit b n (scheme +:+ "://" +:+ netloc) = Some (mk_split scheme netloc "" "" "").
Proof.
  intros Hs Hn. unfold urlsplit.
  assert (lstrip_by (λ c, code c <=? 32) (scheme +:+ "://" +:+ netloc) = scheme +:+ "://" +:+ netloc) as ->.
  { rewrite !elem_of_cons in Hs. by destruct Hs as [->|[->|?%not_elem_of_nil]]. }
  rewrite (remove_chars_none _ (λ c, negb ((code c =? 9) || (code c =? 10) || (code c =? 13)))); [| |intros c; apply negb_true_iff].
  2: { rewrite !s_all_app. assert (s_all (λ c, negb ((code c =? 9) || (code c =? 10) || (code c =? 13))) netloc = true) as ->.
       { revert Hn. apply s_all_impl. intros c Hc. apply negb_true_iff. by apply netloc_char_ascii in Hc as (_ & ? & _). }
       rewrite !elem_of_cons in Hs. by destruct Hs as [->|[->|?%not_elem_of_nil]]. }
  assert (take_scheme (scheme +:+ "://" +:+ netloc) = (scheme, "//" +:+ netloc)) as ->.
  { unfold take_scheme. change (scheme +:+ "://" +:+ netloc) with (scheme +:+ String ":" ("//" +:+ netloc)).
    rewrite !elem_of_cons in Hs. destruct Hs as [->|[->|[]%not_elem_of_nil]]; by rewrite partition_app by reflexivity. }
  rewrite startswith_app. change (drop_s 2 ("//" +:+ netloc)) with netloc.
  rewrite (break_at_all _ netloc_char) by (done || intros c Hc; by apply netloc_char_ascii in Hc as (_ & _ & ?)).
  rewrite !(netloc_no_char _ netloc) by done. cbn. assert (is_ascii netloc = true) as ->; [|done].
  unfold is_ascii. revert Hn. apply s_all_impl. intros c Hc. by apply netloc_char_ascii in Hc as (? & _).
Qed.


Lemma port_range netloc p : port netloc = Some (Some p) → 0 <= p <= 65535.
Proof.
  unfold port. destruct (hostinfo netloc).2 as [s|]; [|done]. destruct (s_all is_digit s) eqn:Ed; [|done]. cbn [andb].
  destruct (Z.leb_spec (int_of_digits s) 65535); [|done]. intros [= <-]. split; [by apply (digits_value_nonneg 0)|done].
Qed.

(** The host and the port of a plain location. *)
Definition with_port (host : string) (p : option Z) : string := match p with None => host | Some p => host +:+ ":" +:+ pretty p end.

Lemma plain_location host p :
  s_all netloc_char host = true → has_char ":" host = false → host ≠ "" → lower host = host →
  match p with None => True | Some p => 0 <= p <= 65535 end →
  s_all netloc_char (with_port host p) = true ∧ hostname (with_port host p) = Some host ∧ port (with_port host p) = Some p.
Proof.
  intros Hh Hc Hne Hl Hp.
  assert (s_all netloc_char (with_port host p) = true) as Ha.
  { destruct p as [p|]; [|done]. cbn. rewrite !s_all_app, Hh. destruct (int_of_pretty p) as (Hd & _); [lia|]. cbn.
    revert Hd. apply s_all_impl. intros c Hc'. unfold netloc_char, is_alnum. by rewrite Hc', orb_true_r. }
  assert (hostinfo (with_port host p) = (host, pretty <$> p)) as Hi.
  { unfold hostinfo. rewrite after_last_absent by by apply (netloc_no_char _ _ Ha). rewrite (partition_absent "[") by by apply (netloc_no_char _ _ Ha).
    destruct p as [p|]; cbn [with_port].
    - change (":" +:+ pretty p) with (String ":" (pretty p)). rewrite partition_app by done. destruct (int_of_pretty p) as (_ & _ & Hn); [lia|].
      cbn. by destruct (pretty p).
    - by rewrite partition_absent. }
  split; [done|]. unfold hostname, port. rewrite Hi. cbn [fst snd]. split.
  - destruct host as [|c s] eqn:E; [done|]. rewrite <- E in *. rewrite partition_absent by by apply (netloc_no_char _ _ Hh).
    rewrite Hl. cbn. by rewrite app_empty_r.
  - destruct p as [p|]; cbn; [|done]. destruct (int_of_pretty p) as (Hd & Hv & _); [lia|]. rewrite Hd, Hv. cbn.
    destruct (Z.leb_spec p 65535); [done|lia].
Qed.
