(* ===== verification/Bundle.v ===== *)
(** The agent bundle ([src/fathom/core/deploy/bundle.py]): what a deployment spec may contain and the files generated from it.

    A generated file is its UTF-8 bytes.  The messages of the errors leave out the value they quote; [cpus] is the text of the
    float. *)

From stdpp Require Import gmap pretty.
From S2P Require Import Prelude PyStr PyDict Json PreviewPull.

Local Open Scope Z_scope.


Notation DeploymentError := string.

Definition nl : ascii := "010"%char.
Definition lf : string := String nl "".
Definition dq (s : string) : string := String "034" s +:+ String "034" "".

(** ** Regular expressions

    A pattern [^...$] accepts what it describes and that text followed by one newline. *)

Fixpoint unline (s : string) : string :=
  match s with
  | "" => ""
  | String c "" => if Ascii.eqb c nl then "" else s
  | String c s' => String c (unline s')
  end.

Definition re_line (P : string → bool) (s : string) : bool := P s || P (unline s).

Definition any_of (l : list ascii) (c : ascii) : bool := existsb (Ascii.eqb c) l.
Definition length_within (lo hi : nat) (s : string) : bool := (lo <=? String.length s)%nat && (String.length s <=? hi)%nat.

Definition host_id_char (c : ascii) : bool := is_alnum c || any_of ["."; "_"; "-"]%char c.
Definition _HOST_ID_RE : string → bool :=
  re_line (λ s, match s with
                | String c s' => is_alnum c && s_all host_id_char s' && (String.length s' <=? 56)%nat
                | "" => false
                end).

Definition host_or_ip_char (c : ascii) : bool := is_alnum c || any_of ["."; "_"; ":"; "-"]%char c.
Definition _HOST_OR_IP_RE : string → bool := re_line (λ s, s_all host_or_ip_char s && length_within 1 255 s).

Definition _SECRET_REF_RE : string → bool := re_line (λ s, s_all host_id_char s && length_within 1 128 s).

Definition validate_host_id (host_id : string) : result DeploymentError string :=
  if _HOST_ID_RE host_id then Ok host_id else Err "invalid host_id".

Definition validate_host_or_ip (value : string) : result DeploymentError string :=
  if _HOST_OR_IP_RE value then Ok value else Err "invalid host/IP".

(** ** Specs *)

Record ScopeMount := mk_mount { container_path : string; host_path : string; fullbit : bool }.

Definition _REMOTE_PROTOCOLS : list string := ["rclone"; "smb"; "sftp"].

Definition unsafe_char (c : ascii) : bool := (code c <? 32) || (127 <=? code c) && (code c <=? 159).

Definition _reject_yaml_unsafe (value field : string) : result DeploymentError () :=
  raise_if (s_any unsafe_char value || has_char "'" value) ("unsafe character in remote target " +:+ field).

Record RemoteTargetSpec := mk_remote {
  protocol : string; rt_host : string; remote_path : string; share : option string; rt_port : option Z; rt_username : option string;
  password_ref : option string; private_key_ref : option string; rt_verify : bool; lab_insecure : bool;
}.

Definition when_some {A} (o : option A) (f : A → result DeploymentError ()) : result DeploymentError () :=
  match o with Some x => f x | None => Ok () end.

(** The segments of a path that name its parent. *)
Definition check_segments (label val : string) : result DeploymentError () :=
  if bool_decide (val = "") then Ok () else
  _ ← raise_if (has_char "\" val) ("remote target " +:+ label +:+ " must not contain a backslash");
  raise_if (bool_decide (".." ∈ split_char "/" val)) ("remote target " +:+ label +:+ " must not contain a '..' segment").

Definition check_ref (ref : string) : result DeploymentError () := raise_if (negb (_SECRET_REF_RE ref)) "invalid secret reference".

(** [RemoteTargetSpec.__post_init__]. *)
Definition remote_post_init (t : RemoteTargetSpec) : result DeploymentError () :=
  _ ← raise_if (negb (bool_decide (protocol t ∈ _REMOTE_PROTOCOLS))) "unknown remote protocol";
  _ ← raise_if (bool_decide (rt_host t = "") || contains "://" (rt_host t) || s_any (any_of ["/"; "\"]%char) (rt_host t))
        "invalid remote host";
  _ ← raise_if (bool_decide (remote_path t = "")) "remote target remote_path must not be empty (use '/')";
  _ ← _reject_yaml_unsafe (rt_host t) "host";
  _ ← _reject_yaml_unsafe (remote_path t) "remote_path";
  _ ← raise_if (bool_decide (protocol t = "smb") && bool_decide (truthy (share t) = None)) "smb remote target requires a share";
  _ ← when_some (share t) (λ v, _reject_yaml_unsafe v "share");
  _ ← check_segments "remote_path" (remote_path t);
  _ ← when_some (share t) (check_segments "share");
  _ ← when_some (rt_username t) (λ v, _reject_yaml_unsafe v "username");
  _ ← raise_if (bool_decide (protocol t = "rclone") &&
                negb (bool_decide (truthy (password_ref t) = None) && bool_decide (truthy (private_key_ref t) = None)))
        "rclone target takes no credential references (uses rclone.conf)";
  _ ← when_some (password_ref t) check_ref;
  _ ← when_some (private_key_ref t) check_ref;
  _ ← when_some (rt_port t) (λ p, raise_if (negb ((1 <=? p) && (p <=? 65535))) "invalid port");
  raise_if (negb (rt_verify t) && negb (lab_insecure t)) "verify=False requires lab_insecure=True (security_constraints)".

Record BundleSpec := mk_spec {
  host_id : string; ingest_url : string; image : string; mounts : list ScopeMount; proxy_host_ip : string;
  remote_targets : list RemoteTargetSpec; mem_limit : string; cpus : string;
}.

Definition meta_char : ascii → bool := any_of [nl; "013"; "034"; " "]%char.

Definition check_url (url : string) : result DeploymentError () :=
  raise_if (negb (startswith "https://" url) || s_any meta_char url) "invalid ingest_url (https, no metachars)".

Definition check_mount_path (p : string) : result DeploymentError () :=
  raise_if (s_any (any_of [nl; "013"; ":"]%char) p || has_char "034" p) "unsafe character in scope path".

Definition check_mount (m : ScopeMount) : result DeploymentError () :=
  _ ← raise_if (negb (startswith "/" (container_path m)) || negb (startswith "/" (host_path m))) "scope mount paths must be absolute";
  _ ← check_mount_path (container_path m);
  check_mount_path (host_path m).

Fixpoint check_each {A} (f : A → result DeploymentError ()) (l : list A) : result DeploymentError () :=
  match l with
  | [] => Ok ()
  | x :: l => _ ← f x; check_each f l
  end.

(** [BundleSpec.__post_init__]. *)
Definition bundle_post_init (s : BundleSpec) : result DeploymentError () :=
  _ ← validate_host_id (host_id s);
  _ ← raise_if (negb (_HOST_OR_IP_RE (proxy_host_ip s))) "invalid proxy_host_ip";
  _ ← check_url (ingest_url s);
  _ ← raise_if (bool_decide (image s = "") || s_any meta_char (image s)) "invalid image";
  _ ← raise_if (bool_decide (mounts s = []) && bool_decide (remote_targets s = []))
        "bundle requires at least one scan scope mount or remote target";
  check_each check_mount (mounts s).

(** ** Rendering *)

Record MintedCert := mk_minted { common_name : string; key_pem : string; cert_pem : string; ca_cert_pem : string; fingerprint_sha1 : string }.

Notation AgentBundle := (list (string * string)).

Definition lines (l : list string) : string := PyStr.join lf l.

Definition _yaml_list (items : list string) : string := lines ((λ it, "  - " +:+ utf8 it) <$> items).

(** [value.replace("'", "''")]. *)
Fixpoint double_quotes (s : string) : string :=
  match s with
  | "" => ""
  | String c s' => if Ascii.eqb c "'" then "''" +:+ double_quotes s' else String c (double_quotes s')
  end.

Definition _yaml_sq (value : string) : string := "'" +:+ utf8 (double_quotes value) +:+ "'".

Definition key_le (a b : string * string) : Prop := str_le a.1 b.1 = true.

#[export] Instance key_le_dec : RelDecision key_le.
Proof. intros a b. unfold key_le. apply _. Defined.

Definition _yaml_dict (items : list (string * string)) : string :=
  lines ((λ kv, "  " +:+ _yaml_sq kv.1 +:+ ": " +:+ _yaml_sq kv.2) <$> stable_sort key_le items).

Definition yaml_bool (b : bool) : string := if b then "true" else "false".

Definition opt_line (o : option string) (f : string → string) : list string := match o with Some v => [f v] | None => [] end.

Definition render_target (t : RemoteTargetSpec) : string :=
  lines (["  - protocol: " +:+ utf8 (protocol t);
          "    host: " +:+ _yaml_sq (rt_host t);
          "    remote_path: " +:+ _yaml_sq (remote_path t)] ++
         opt_line (share t) (λ v, "    share: " +:+ _yaml_sq v) ++
         opt_line (pretty <$> rt_port t) (λ v, "    port: " +:+ v) ++
         opt_line (rt_username t) (λ v, "    username: " +:+ _yaml_sq v) ++
         opt_line (password_ref t) (λ v, "    password_ref: " +:+ _yaml_sq v) ++
         opt_line (private_key_ref t) (λ v, "    private_key_ref: " +:+ _yaml_sq v) ++
         ["    verify: " +:+ yaml_bool (rt_verify t);
          "    lab_insecure: " +:+ yaml_bool (lab_insecure t)]).

Definition _render_remote_targets (targets : list RemoteTargetSpec) : string :=
  match targets with [] => "  []" | _ => lines (render_target <$> targets) end.

(** The dict of the mounts whose two paths differ. *)
Definition scope_labels (ms : list ScopeMount) : list (string * string) :=
  foldl (λ d m, if bool_decide (host_path m = container_path m) then d else dict_set (container_path m) (host_path m) d) [] ms.

Definition throttle_lines : list string :=
  ["throttle:"; "  io_class: idle"; "  io_max_mbps: 200"; "  cpu_max_percent: 40.0"; "  walk_concurrency: 4"; "  hash_concurrency: 2";
   "  pause_when:"; "    load1_above: 20.0"; "    iowait_above_percent: 25.0"; "  resume_when:"; "    load1_below: 12.0";
   "  hard_rules:"; "    block_fullbit_during_raid_resync: true"].

Definition _render_config (s : BundleSpec) : string :=
  let scan_scope := container_path <$> mounts s in
  let fullbit_scope := container_path <$> filter (λ m, fullbit m = true) (mounts s) in
  let scope_block := match scan_scope with [] => "  []" | _ => _yaml_list scan_scope end in
  let fullbit_block := match fullbit_scope with [] => "  []" | _ => _yaml_list fullbit_scope end in
  let labels := scope_labels (mounts s) in
  let labels_block := match labels with [] => "  {}" | _ => _yaml_dict labels end in
  lines (["# Fathom agent config for " +:+ utf8 (host_id s) +:+ " — generated by deploy (ADR-026).";
          "# Read-only, throttled; pushes full-bit + metadata to core over CA-pinned mTLS.";
          "host_id: " +:+ utf8 (host_id s);
          "ingest_url: " +:+ utf8 (ingest_url s);
          "client_cert_path: /certs/client.crt";
          "client_key_path:  /certs/client.key";
          "server_ca_path:   /certs/fathom-ca.crt";
          "scan_scope:"; scope_block;
          "fullbit_scope:"; fullbit_block;
          "scope_labels:"; labels_block;
          "remote_targets:"; _render_remote_targets (remote_targets s);
          "write_enabled: false";
          "cross_mounts: false"] ++ throttle_lines) +:+ lf.

Definition volume_lines (s : BundleSpec) : list string :=
  ["      - ./agent.config.yaml:/config/agent.config.yaml:ro";
   "      - ./certs:/certs:ro";
   "      - fathom-staging:/var/lib/fathom"] ++
  ((λ m, "      - " +:+ utf8 (host_path m) +:+ ":" +:+ utf8 (container_path m) +:+ ":ro") <$> mounts s).

Definition _render_compose (s : BundleSpec) : string :=
  lines ["# Fathom scan agent on " +:+ utf8 (host_id s) +:+ " — generated by the deploy subsystem (ADR-026).";
         "# Read-only, cap-dropped (uid 0 + DAC_READ_SEARCH only), mem-capped. Pushes to core via the";
         "# mTLS proxy. Start: docker compose up -d agent";
         "name: fathom-agent-" +:+ utf8 (host_id s);
         "services:";
         "  agent:";
         "    image: " +:+ utf8 (image s);
         "    container_name: fathom-agent-" +:+ utf8 (host_id s);
         "    user: " +:+ dq "0:0";
         "    cap_drop: [" +:+ dq "ALL" +:+ "]";
         "    cap_add: [" +:+ dq "DAC_READ_SEARCH" +:+ "]";
         "    security_opt: [" +:+ dq "no-new-privileges:true" +:+ "]";
         "    read_only: true";
         "    tmpfs: [" +:+ dq "/tmp" +:+ "]";
         "    command: [" +:+ dq "python" +:+ ", " +:+ dq "-m" +:+ ", " +:+ dq "fathom.agent" +:+ "]";
         "    environment:";
         "      FATHOM_AGENT_CONFIG: /config/agent.config.yaml";
         "      FATHOM_AGENT_STAGING: /var/lib/fathom/staging.sqlite";
         "      FATHOM_AGENT_OPERATOR: fathom-agent-" +:+ utf8 (host_id s);
         "    extra_hosts:";
         "      - " +:+ dq ("proxy:" +:+ utf8 (proxy_host_ip s));
         "    volumes:";
         lines (volume_lines s);
         "    restart: " +:+ dq "no";
         "    mem_limit: " +:+ utf8 (mem_limit s);
         "    memswap_limit: " +:+ utf8 (mem_limit s);
         "    cpus: " +:+ utf8 (cpus s);
         "volumes:";
         "  fathom-staging:"] +:+ lf.

Definition build_agent_bundle (s : BundleSpec) (minted : MintedCert) : AgentBundle :=
  [("agent.config.yaml", _render_config s);
   ("docker-compose.yml", _render_compose s);
   ("certs/client.crt", utf8 (cert_pem minted));
   ("certs/client.key", utf8 (key_pem minted));
   ("certs/fathom-ca.crt", utf8 (ca_cert_pem minted))].

(** ** Laws: lines of a rendered file *)

Lemma utf8_has c s : code c < 128 → has_char c (utf8 s) = has_char c s.
Proof.
  intros Hc. unfold code in Hc. induction s as [|d s IH]; [done|]. cbn [utf8]. pose proof (N_ascii_bounded d).
  destruct (N.ltb_spec (N_of_ascii d) 128); rewrite !has_char_cons, IH; [done|].
  assert (∀ n, (128 ≤ n < 256)%N → Ascii.eqb c (ascii_of_N n) = false) as Hn.
  { intros n ?. apply Ascii.eqb_neq. intros ->. rewrite N_ascii_embedding in Hc by lia. lia. }
  rewrite !Hn by div_lia. replace (Ascii.eqb c d) with false; [done|]. symmetry. apply Ascii.eqb_neq. intros ->. lia.
Qed.

Lemma double_quotes_has c s : has_char c (double_quotes s) = has_char c s.
Proof.
  induction s as [|d s IH]; [done|]. cbn [double_quotes]. destruct (Ascii.eqb_spec d "'") as [->|];
    rewrite ?has_char_app, !has_char_cons, IH; [|done]. destruct (Ascii.eqb c "'"); [done|]. by rewrite orb_false_l.
Qed.

(** What YAML takes for one line break: CR LF, CR, and in UTF-8 NEL (U+0085), LS and PS (U+2028, U+2029); each as a newline. *)
Fixpoint breaks (s : string) : string :=
  match s with
  | "" => ""
  | String c t =>
      match c, t with
      | "013"%char, String "010" u => String nl (breaks u)
      | "013"%char, _ => String nl (breaks t)
      | "194"%char, String "133" u => String nl (breaks u)
      | "226"%char, String "128" (String "168" u) => String nl (breaks u)
      | "226"%char, String "128" (String "169" u) => String nl (breaks u)
      | _, _ => String c (breaks t)
      end
  end.

(** The lines that can be keys of the document: they start in the first column, are no comment, and have a colon. *)
Definition top_level (l : string) : bool :=
  match l with String c _ => negb (Ascii.eqb c " ") && negb (Ascii.eqb c "#") && has_char ":" l | "" => false end.
Definition tops (s : string) : list string := filter top_level (split_char nl s).
Definition yaml_keys (s : string) : list string := tops (breaks s).

(** A byte that only continues a character. *)
Definition continues (c : ascii) : bool := (128 <=? code c) && (code c <? 192).

(** Whole UTF-8 characters of at most three bytes, with no line break but the newline. *)
Fixpoint clean (s : string) : bool :=
  match s with
  | "" => true
  | String c t =>
      if code c <? 128 then negb (Ascii.eqb c "013") && clean t
      else if Ascii.eqb c "226" then
        match t with
        | String d (String e u) =>
            continues d && continues e && negb (Ascii.eqb d "128" && (Ascii.eqb e "168" || Ascii.eqb e "169")) && clean u
        | _ => false
        end
      else match t with
           | String d u => continues d && negb (Ascii.eqb c "194" && Ascii.eqb d "133") && clean u
           | "" => false
           end
  end.

Lemma clean_app a b : clean a = true → clean (a +:+ b) = clean b.
Proof.
  remember (String.length a) as n eqn:En. revert a En. induction n as [n IH] using lt_wf_ind. intros [|c t] -> H; [done|].
  cbn [clean] in H. rewrite app_cons_s. cbn [clean]. destruct (code c <? 128); [|destruct (Ascii.eqb c "226")].
  - apply andb_true_iff in H as [-> H]. by rewrite (IH (String.length t)) by (done || (cbn; lia)).
  - destruct t as [|d [|e u]]; [done..|]. rewrite !app_cons_s. apply andb_true_iff in H as [-> H].
    by rewrite (IH (String.length u)) by (done || (cbn; lia)).
  - destruct t as [|d u]; [done|]. rewrite !app_cons_s. apply andb_true_iff in H as [-> H].
    by rewrite (IH (String.length u)) by (done || (cbn; lia)).
Qed.

(** A continuing byte begins no line break. *)
Lemma breaks_continues c t : continues c = true → breaks (String c t) = String c (breaks t).
Proof. unfold continues. destruct c as [[] [] [] [] [] [] [] []]; by intros [=]. Qed.

Lemma breaks_clean s : clean s = true → breaks s = s.
Proof.
  remember (String.length s) as n eqn:En. revert s En. induction n as [n IH] using lt_wf_ind. intros [|c t] -> H; [done|].
  cbn [clean] in H. destruct (code c <? 128) eqn:Ec; [|destruct (Ascii.eqb_spec c "226") as [->|Hc]].
  - apply andb_true_iff in H as [Hc H]. apply (IH (String.length t)) in H; [|cbn; lia|done].
    rewrite <- H at 2. destruct c as [[] [] [] [] [] [] [] []]; done.
  - destruct t as [|d [|e u]]; [done..|]. apply andb_true_iff in H as [H Hu]. apply andb_true_iff in H as [[Hd He]%andb_true_iff Hb].
    apply (IH (String.length u)) in Hu; [|cbn; lia|done].
    rewrite <- Hu at 2. rewrite <- (breaks_continues e u He), <- (breaks_continues d _ Hd).
    destruct (Ascii.eqb_spec d "128") as [->|Hn]; [destruct e as [[] [] [] [] [] [] [] []]; done|].
    destruct d as [[] [] [] [] [] [] [] []]; done.
  - destruct t as [|d u]; [done|]. apply andb_true_iff in H as [[Hd Hb]%andb_true_iff Hu].
    apply (IH (String.length u)) in Hu; [|cbn; lia|done].
    rewrite <- Hu at 2. rewrite <- (breaks_continues d u Hd).
    destruct (Ascii.eqb_spec c "194") as [->|Hn]; [destruct d as [[] [] [] [] [] [] [] []]; done|].
    clear Hb Hd. destruct c as [[] [] [] [] [] [] [] []]; done.
Qed.

Lemma utf8_app a b : utf8 (a +:+ b) = utf8 a +:+ utf8 b.
Proof.
  induction a as [|c a IH]; [done|]. rewrite app_cons_s. cbn [utf8]. rewrite IH. by destruct (N_of_ascii c <? 128)%N.
Qed.

Lemma clean_utf8 s : clean (utf8 s) = negb (has_char "013" s) && negb (has_char "133" s).
Proof.
  induction s as [|c s IH]; [done|]. rewrite !has_char_cons. destruct (Ascii.eqb_spec "013" c) as [<-|Hr]; [done|].
  destruct (Ascii.eqb_spec "133" c) as [<-|Hn]; [by rewrite andb_false_r|]. rewrite !orb_false_l, <- IH.
  change (String c s) with (String c "" +:+ s). rewrite utf8_app. apply clean_app.
  destruct c as [[] [] [] [] [] [] [] []]; done.
Qed.

Lemma clean_ascii P s : s_all P s = true → (∀ c, P c = true → (code c <? 128) && negb (Ascii.eqb c "013") = true) → clean s = true.
Proof.
  intros H HP. induction s as [|c s IH]; [done|]. cbn in H. apply andb_true_iff in H as [Hc Hs]. apply HP, andb_true_iff in Hc as [Hc Hr].
  cbn [clean]. by rewrite Hc, Hr, IH.
Qed.

Lemma tops_app a b : tops (a +:+ lf +:+ b) = tops a ++ tops b.
Proof. unfold tops. change (lf +:+ b) with (String nl b). by rewrite split_char_concat, filter_app. Qed.

Lemma tops_line s : has_char nl s = false → tops s = if top_level s then [s] else [].
Proof. intros H. unfold tops. rewrite split_char_none by done. rewrite filter_cons. by destruct (top_level s). Qed.

Lemma tops_lines l : tops (lines l) = l ≫= tops.
Proof.
  unfold lines. induction l as [|x [|y l] IH]; [done|by rewrite join_one, bind_cons, app_nil_r|].
  rewrite join_cons, tops_app, IH. done.
Qed.

Lemma tops_none l : Forall (λ x, tops x = []) l → l ≫= tops = [].
Proof. induction 1 as [|x l Hx _ IH]; [done|]. by rewrite bind_cons, Hx, IH. Qed.

Lemma lines_has c l : c ≠ nl → Forall (λ x, has_char c x = false) l → has_char c (lines l) = false.
Proof.
  intros Hc. unfold lines. induction l as [|x [|y l] IH]; intros Hl; [done|by inversion Hl|]. inversion Hl; subst.
  assert (has_char c lf = false) as Hlf by (unfold lf; rewrite has_char_cons; apply Ascii.eqb_neq in Hc; by rewrite Hc).
  rewrite join_cons, !has_char_app, IH by done. by rewrite Hlf, H1.
Qed.

(** A value a line pattern accepts: at most its last character is a newline. *)
Lemma unline_cases s : unline s = s ∨ s = unline s +:+ lf.
Proof.
  induction s as [|c [|d s] IH]; [by left| |].
  - cbn [unline]. destruct (Ascii.eqb_spec c nl) as [->|]; [by right|by left].
  - change (unline (String c (String d s))) with (String c (unline (String d s))). rewrite app_cons_s.
    destruct IH as [H|H]; [left|right]; by f_equal.
Qed.

Lemma s_all_no_char P c s : s_all P s = true → P c = false → has_char c s = false.
Proof.
  intros H Hc. unfold has_char, s_any. apply negb_false_iff. revert H. apply s_all_impl. intros d Hd. apply negb_true_iff.
  apply Ascii.eqb_neq. intros ->. congruence.
Qed.

(** What a pattern over characters other than [c] accepts. *)
Lemma re_line_spec P s : (∀ t, P t = true → has_char nl t = false) → re_line P s = true →
  P (unline s) = true ∧ (s = unline s ∨ s = unline s +:+ lf).
Proof.
  intros HP. unfold re_line. intros [H|H]%orb_true_iff.
  - destruct (unline_cases s) as [E|E]; [rewrite E; by auto|]. exfalso. apply HP in H. rewrite E, has_char_app in H.
    apply orb_false_iff in H as [_ H]. discriminate H.
  - split; [done|]. destruct (unline_cases s) as [E|E]; auto.
Qed.

Lemma host_id_spec s : _HOST_ID_RE s = true →
  s_all host_id_char (unline s) = true ∧ (s = unline s ∨ s = unline s +:+ lf).
Proof.
  intros H. apply re_line_spec in H as [H Hs].
  - split; [|done]. destruct (unline s) as [|c t]; [done|]. apply andb_true_iff in H as [[Hc Ht]%andb_true_iff _]. cbn.
    unfold host_id_char at 1. by rewrite Hc, Ht.
  - intros [|c t]; [done|]. intros [[Hc Ht]%andb_true_iff _]%andb_true_iff. apply (s_all_no_char host_id_char); [|done]. cbn.
    unfold host_id_char at 1. by rewrite Hc, Ht.
Qed.

Lemma ref_spec s : _SECRET_REF_RE s = true → s_all host_id_char (unline s) = true ∧ (s = unline s ∨ s = unline s +:+ lf).
Proof.
  intros H. apply re_line_spec in H as [[H _]%andb_true_iff Hs]; [done|].
  intros t [Ht _]%andb_true_iff. by apply (s_all_no_char host_id_char).
Qed.

Lemma when_some_ok {A} (o : option A) f u : when_some o f = Ok u ↔ ∀ x, o = Some x → f x = Ok ().
Proof. destruct o, u; cbn; split; [intros ? ? [= <-]; done|auto|done|done]. Qed.

Lemma check_each_ok {A} (f : A → result DeploymentError ()) l u : check_each f l = Ok u ↔ Forall (λ x, f x = Ok ()) l.
Proof.
  destruct u. induction l as [|x l IH]; cbn; [done|]. rewrite Forall_cons, bind_ok, <- IH. split; [intros ([] & ? & ?); done|].
  intros [? ?]. by exists ().
Qed.

(** A value without a line break of YAML: its characters are Latin-1, so only three can occur. *)
Definition plain (s : string) : Prop := has_char nl s = false ∧ has_char "013" s = false ∧ has_char "133" s = false.

(** A piece of the document without a line break. *)
Definition unbroken (s : string) : Prop := has_char nl s = false ∧ clean s = true.

Lemma yaml_safe v field u : _reject_yaml_unsafe v field = Ok u → plain v.
Proof.
  unfold _reject_yaml_unsafe. rewrite raise_if_ok. intros [H _]%orb_false_iff. unfold s_any in H. apply negb_false_iff in H.
  split_and!; by apply (s_all_no_char _ _ _ H).
Qed.

Lemma unbroken_app a b : unbroken a → unbroken b → unbroken (a +:+ b).
Proof. intros [Ha1 Ha2] [Hb1 Hb2]. split; [by rewrite has_char_app, Ha1|by rewrite clean_app]. Qed.

Lemma unbroken_utf8 s : plain s → unbroken (utf8 s).
Proof. intros (H1 & H2 & H3). split; [by rewrite utf8_has|by rewrite clean_utf8, H2, H3]. Qed.

Lemma plain_dq s : plain s → plain (double_quotes s).
Proof. unfold plain. by rewrite !double_quotes_has. Qed.

Lemma unbroken_sq s : plain s → unbroken (_yaml_sq s).
Proof. intros H. unfold _yaml_sq. apply unbroken_app; [done|]. apply unbroken_app; [|done]. by apply unbroken_utf8, plain_dq. Qed.

Lemma plain_class P s : s_all P s = true → P nl = false → P "013"%char = false → P "133"%char = false → plain s.
Proof. intros. split_and!; by apply (s_all_no_char P). Qed.

Lemma plain_not_any l s : s_any (any_of l) s = false → any_of l nl = true → any_of l "013"%char = true → has_char "133" s = false → plain s.
Proof.
  unfold s_any. intros H%negb_false_iff Hn Hc Hnel.
  split_and!; [apply (s_all_no_char _ _ _ H); cbv beta; by rewrite ?Hn, ?Hc..|done].
Qed.

(** ** What a spec can put into the configuration *)

(** A text none of whose lines is a key, and whose only line breaks are newlines. *)
Definition inert (s : string) : Prop := tops s = [] ∧ clean s = true.

Lemma lines_clean l : Forall (λ x, clean x = true) l → clean (lines l) = true.
Proof.
  unfold lines. induction l as [|x [|y l] IH]; intros Hl; [done|by inversion Hl|]. inversion Hl; subst.
  rewrite join_cons, clean_app by done. by apply IH.
Qed.

Lemma inert_line s : unbroken s → top_level s = false → inert s.
Proof. intros [Hn Hc] Ht. split; [|done]. by rewrite tops_line, Ht. Qed.

Lemma inert_lines l : Forall inert l → inert (lines l).
Proof.
  intros H. split.
  - rewrite tops_lines. apply tops_none. eapply Forall_impl; [exact H|]. by intros ? [? _].
  - apply lines_clean. eapply Forall_impl; [exact H|]. by intros ? [_ ?].
Qed.

Lemma double_quotes_app a b : double_quotes (a +:+ b) = double_quotes a +:+ double_quotes b.
Proof.
  induction a as [|c a IH]; [done|]. rewrite app_cons_s. cbn [double_quotes]. rewrite IH. by destruct (Ascii.eqb c "'").
Qed.

(** A literal that begins a line which is no key. *)
Definition indent (p : string) : bool :=
  match p with String c _ => Ascii.eqb c " " || Ascii.eqb c "#" | "" => false end && negb (has_char nl p) && clean p.

Lemma indent_spec p x : indent p = true → unbroken p ∧ top_level (p +:+ x) = false.
Proof.
  unfold indent, unbroken. intros [[Ht Hn]%andb_true_iff Hc]%andb_true_iff. rewrite negb_true_iff in Hn. split; [done|].
  destruct p as [|c p]; [done|]. unfold top_level. rewrite app_cons_s. by destruct (Ascii.eqb c " "), (Ascii.eqb c "#").
Qed.

Lemma inert_indent p v : indent p = true → unbroken v → inert (p +:+ v).
Proof. intros Hp Hv. destruct (indent_spec p v Hp) as [? ?]. apply inert_line; [|done]. by apply unbroken_app. Qed.

Lemma inert_ref p v : indent p = true → _SECRET_REF_RE v = true → inert (p +:+ _yaml_sq v).
Proof.
  intros Hp [Ha Hv]%ref_spec. assert (plain (unline v)) as Hu by by apply (plain_class host_id_char).
  destruct Hv as [Hv|Hv]; [apply inert_indent; [done|]; apply unbroken_sq; by rewrite Hv|].
  unfold _yaml_sq. rewrite Hv, double_quotes_app, utf8_app. change (utf8 (double_quotes lf)) with lf.
  set (q := "'" +:+ utf8 (double_quotes (unline v))). assert (unbroken q) as Hq by (apply unbroken_app; [done|]; by apply unbroken_utf8, plain_dq).
  replace (p +:+ "'" +:+ (utf8 (double_quotes (unline v)) +:+ lf) +:+ "'") with ((p +:+ q) +:+ lf +:+ "'")
    by (unfold q; autorewrite with str; done).
  destruct (inert_indent p q Hp Hq) as [H1 H2]. split; [by rewrite tops_app, H1|]. by rewrite clean_app.
Qed.

Lemma opt_inert o f : (∀ v, o = Some v → inert (f v)) → Forall inert (opt_line o f).
Proof. destruct o; cbn; [|done]. intros H. constructor; [by apply H|done]. Qed.

Lemma unbroken_pretty (z : Z) : unbroken (pretty z).
Proof.
  pose proof (pretty_Z_int z) as H. split; [by apply (s_all_no_char int_char)|]. apply (clean_ascii int_char); [done|].
  intros c. destruct c as [[] [] [] [] [] [] [] []]; by intros [=].
Qed.

(** An accepted remote target is rendered without a key. *)
Lemma target_inert t : remote_post_init t = Ok () → inert (render_target t).
Proof.
  unfold remote_post_init. intros H.
  repeat (apply bind_ok in H as ([] & ? & H)).
  rewrite !when_some_ok in *. repeat match goal with H : raise_if _ _ = _ |- _ => apply raise_if_ok in H end.
  assert (plain (protocol t)) as Hproto.
  { apply negb_false_iff, bool_decide_eq_true in H0. revert H0. unfold _REMOTE_PROTOCOLS. rewrite !elem_of_cons.
    by intros [->|[->|[->|?%not_elem_of_nil]]]. }
  unfold render_target. apply inert_lines. rewrite !Forall_app, !Forall_cons, !Forall_nil.
  assert (∀ b, unbroken (yaml_bool b)) as Hbool by by intros [].
  repeat split; try (apply opt_inert; intros v Hv);
    try by (apply inert_indent; [reflexivity|]; eauto using yaml_safe, unbroken_utf8, unbroken_sq).
  - apply inert_indent; [reflexivity|]. destruct (rt_port t); [|done]. injection Hv as <-. apply unbroken_pretty.
  - apply inert_ref; [reflexivity|]. eapply negb_false_iff, raise_if_ok. eauto.
  - apply inert_ref; [reflexivity|]. eapply negb_false_iff, raise_if_ok. eauto.
Qed.

Lemma targets_inert ts : Forall (λ t, remote_post_init t = Ok ()) ts → inert (_render_remote_targets ts).
Proof.
  intros H. unfold _render_remote_targets. destruct ts as [|t ts]; [done|]. apply inert_lines, Forall_fmap.
  eapply Forall_impl; [exact H|]. apply target_inert.
Qed.

(** The values that the validation leaves free of newlines and carriage returns only. *)
Definition no_nel (s : BundleSpec) : Prop :=
  has_char "133" (ingest_url s) = false ∧
  Forall (λ m, has_char "133" (container_path m) = false ∧ has_char "133" (host_path m) = false) (mounts s).

Lemma mount_plain m : check_mount m = Ok () → has_char "133" (container_path m) = false ∧ has_char "133" (host_path m) = false →
  plain (container_path m) ∧ plain (host_path m).
Proof.
  unfold check_mount, check_mount_path. rewrite bind_ok. intros ([] & _ & H) [Hn1 Hn2]. apply bind_ok in H as ([] & Hc & Hh).
  apply raise_if_ok in Hc, Hh. apply orb_false_iff in Hc as [Hc _], Hh as [Hh _].
  split; by apply (plain_not_any [nl; "013"; ":"]%char).
Qed.

Lemma mount_unbroken m : check_mount m = Ok () → has_char nl (container_path m) = false ∧ has_char nl (host_path m) = false.
Proof.
  unfold check_mount, check_mount_path. rewrite bind_ok. intros ([] & _ & H). apply bind_ok in H as ([] & Hc & Hh).
  apply raise_if_ok in Hc, Hh. apply orb_false_iff in Hc as [Hc _], Hh as [Hh _]. unfold s_any in Hc, Hh. apply negb_false_iff in Hc, Hh.
  split; by eapply s_all_no_char.
Qed.

Lemma scope_block_inert l : Forall plain l → inert (match l with [] => "  []" | _ => _yaml_list l end).
Proof.
  intros H. destruct l as [|x l]; [done|]. apply inert_lines, Forall_fmap. eapply Forall_impl; [exact H|].
  intros y Hy. apply inert_indent; [reflexivity|]. by apply unbroken_utf8.
Qed.

Lemma Forall_dict_set {A} (P : string * A → Prop) k v d : P (k, v) → Forall P d → Forall P (dict_set k v d).
Proof.
  intros Hk. induction 1 as [|[k' v'] d Hx Hd IH]; cbn; [by constructor|].
  destruct (decide _) as [->|]; by constructor.
Qed.

Lemma labels_plain ms : Forall (λ m, plain (container_path m) ∧ plain (host_path m)) ms → Forall (λ kv, plain kv.1 ∧ plain kv.2) (scope_labels ms).
Proof.
  unfold scope_labels. assert (Forall (λ kv : string * string, plain kv.1 ∧ plain kv.2) []) as H by done. revert H.
  generalize (@nil (string * string)). induction ms as [|m ms IH]; intros d Hd Hms; [done|]. inversion Hms; subst. cbn. apply IH; [|done].
  case_bool_decide; [done|]. by apply Forall_dict_set.
Qed.

Lemma labels_inert l : Forall (λ kv, plain kv.1 ∧ plain kv.2) l → inert (match l with [] => "  {}" | _ => _yaml_dict l end).
Proof.
  intros H. destruct l as [|x l]; [done|]. apply inert_lines, Forall_fmap, Forall_forall. intros kv Hin.
  rewrite (stable_sort_Permutation key_le (x :: l)) in Hin. rewrite Forall_forall in H. destruct (H _ Hin) as [? ?].
  apply inert_indent; [reflexivity|]. apply unbroken_app; [by apply unbroken_sq|]. apply unbroken_app; [done|by apply unbroken_sq].
Qed.

Lemma host_inert p q h : indent p = true → indent q = true → _HOST_ID_RE h = true → inert (p +:+ utf8 h +:+ q).
Proof.
  intros Hp Hq [Ha Hv]%host_id_spec. assert (plain (unline h)) as Hu by by apply (plain_class host_id_char).
  destruct (indent_spec q "" Hq) as [Hqu Hqt]. rewrite app_empty_r in Hqt.
  destruct Hv as [Hv|Hv].
  - rewrite <- Hv in Hu. apply inert_indent; [done|]. by apply unbroken_app; [apply unbroken_utf8|].
  - assert (utf8 h = utf8 (unline h) +:+ lf) as E by (etransitivity; [exact (f_equal utf8 Hv)|apply utf8_app]). rewrite E.
    replace (p +:+ (utf8 (unline h) +:+ lf) +:+ q) with ((p +:+ utf8 (unline h)) +:+ lf +:+ q) by (autorewrite with str; done).
    destruct (inert_indent p (utf8 (unline h))) as [H1 H2]; [done|by apply unbroken_utf8|].
    split; [by rewrite tops_app, H1, (tops_line q (proj1 Hqu)), Hqt|]. rewrite clean_app by done. by destruct Hqu.
Qed.

Lemma host_key h : _HOST_ID_RE h = true →
  tops ("host_id: " +:+ utf8 h) = ["host_id: " +:+ utf8 (unline h)] ∧ clean ("host_id: " +:+ utf8 h) = true.
Proof.
  intros [Ha Hv]%host_id_spec. assert (plain (unline h)) as Hu by by apply (plain_class host_id_char).
  assert (unbroken ("host_id: " +:+ utf8 (unline h))) as [Hn Hc] by (apply unbroken_app; [done|by apply unbroken_utf8]).
  assert (tops ("host_id: " +:+ utf8 (unline h)) = ["host_id: " +:+ utf8 (unline h)]) as Ht by by rewrite tops_line.
  destruct Hv as [Hv|Hv]; [by rewrite <- Hv in *|].
  assert (utf8 h = utf8 (unline h) +:+ lf) as E by (etransitivity; [exact (f_equal utf8 Hv)|apply utf8_app]). rewrite E, <- app_assoc_s. split.
  - rewrite <- (app_empty_r lf), tops_app, Ht. done.
  - by rewrite clean_app.
Qed.

(** The keys of the configuration of an agent. *)
Definition config_keys (s : BundleSpec) : list string :=
  ["host_id: " +:+ utf8 (unline (host_id s)); "ingest_url: " +:+ utf8 (ingest_url s);
   "client_cert_path: /certs/client.crt"; "client_key_path:  /certs/client.key"; "server_ca_path:   /certs/fathom-ca.crt";
   "scan_scope:"; "fullbit_scope:"; "scope_labels:"; "remote_targets:"; "write_enabled: false"; "cross_mounts: false"; "throttle:"].


Lemma split_lines l x y : x ∈ l → y ∈ split_char nl x → y ∈ split_char nl (lines l).
Proof.
  unfold lines. induction l as [|z [|w l] IH]; intros Hx Hy; [by apply not_elem_of_nil in Hx| |].
  - apply list_elem_of_singleton in Hx as ->. by rewrite join_one.
  - rewrite join_cons. change (lf +:+ ?t) with (String nl t). rewrite split_char_concat, elem_of_app.
    apply elem_of_cons in Hx as [->|Hx]; [by left|right; by apply IH].
Qed.

Lemma mount_colon m : check_mount m = Ok () → has_char ":" (container_path m) = false ∧ has_char ":" (host_path m) = false.
Proof.
  unfold check_mount, check_mount_path. rewrite bind_ok. intros ([] & _ & H). apply bind_ok in H as ([] & Hc & Hh).
  apply raise_if_ok in Hc, Hh. apply orb_false_iff in Hc as [Hc _], Hh as [Hh _]. unfold s_any in Hc, Hh. apply negb_false_iff in Hc, Hh.
  split; by eapply s_all_no_char.
Qed.

(** Every mount of an accepted spec is a volume line of the compose file that splits in its two paths and [ro]. *)
Lemma compose_mounts_read_only s m :
  bundle_post_init s = Ok () → m ∈ mounts s →
  ∃ l, l ∈ split_char nl (_render_compose s) ∧
    split_char ":" l = ["      - " +:+ utf8 (host_path m); utf8 (container_path m); "ro"].
Proof.
  intros H Hin. unfold bundle_post_init in H. repeat (apply bind_ok in H as (? & _ & H)). apply check_each_ok in H.
  rewrite Forall_forall in H. apply H in Hin as Hm. destruct (mount_unbroken m Hm) as [Hc Hh], (mount_colon m Hm) as [Hcc Hhc].
  set (l := "      - " +:+ utf8 (host_path m) +:+ ":" +:+ utf8 (container_path m) +:+ ":ro"). exists l. split.
  - unfold _render_compose. change lf with (String nl ""). rewrite split_char_concat, elem_of_app. left.
    apply (split_lines _ (lines (volume_lines s))); [do 22 right; left|]. apply (split_lines _ l).
    + unfold volume_lines. apply elem_of_app. right. apply list_elem_of_fmap. by exists m.
    + rewrite split_char_none; [by left|]. unfold l. by rewrite !has_char_app, !utf8_has, Hc, Hh.
  - unfold l. rewrite <- app_assoc_s. change (":" +:+ utf8 (container_path m) +:+ ":ro") with (String ":" (utf8 (container_path m) +:+ String ":" "ro")).
    rewrite split_char_app, split_char_app; [done|by rewrite utf8_has|by rewrite has_char_app, utf8_has].
Qed.

(** ** What the validation lets through *)

Definition wit_spec (host : string) (ms : list ScopeMount) (ts : list RemoteTargetSpec) : BundleSpec :=
  mk_spec host "https://proxy:9443/api/v1/agents/ingest" "fathom:local" ms "10.0.0.1" ts "3g" "4.0".

(** [$] also matches before a last newline: the name is accepted, and the comment of the header goes on in a line of its own. *)
Lemma trailing_newline_accepted :
  bundle_post_init (wit_spec ("nas" +:+ lf) [mk_mount "/scan/data" "/mnt/data" true] []) = Ok () ∧
  take 2 (split_char nl (_render_config (wit_spec ("nas" +:+ lf) [mk_mount "/scan/data" "/mnt/data" true] [])))
    = ["# Fathom agent config for nas"; " — generated by deploy (ADR-026)."].
Proof. split; reflexivity. Qed.

(** A mount path may hold what starts a comment in an unquoted YAML value, and the control characters that a remote target may not. *)
Lemma mount_comment_accepted :
  is_ok (bundle_post_init (wit_spec "nas" [mk_mount "/scan/data" "/mnt/disk #1" true; mk_mount (String "/" (String "133" "x")) "/y" true] [])) = true ∧
  is_ok (_reject_yaml_unsafe (String "/" (String "133" "x")) "remote_path") = false.
Proof. split; reflexivity. Qed.

(** PyYAML breaks the line at NEL: an accepted ingest URL puts a key of its own into the document. *)
Lemma nel_adds_key :
  let s := mk_spec "nas" ("https://proxy" +:+ String "133" "staging_path:") "fathom:local" [mk_mount "/scan/data" "/mnt/data" true] "10.0.0.1" [] "3g" "4.0" in
  bundle_post_init s = Ok () ∧ "staging_path:" ∈ yaml_keys (_render_config s) ∧ "staging_path:" ∉ config_keys s.
Proof.
  split_and!; [reflexivity|apply (bool_decide_unpack _); vm_compute; exact I|apply (bool_decide_unpack _); vm_compute; exact I].
Qed.

Definition wit_target : RemoteTargetSpec :=
  mk_remote "smb" "nas2" "/media" (Some "films") (Some 445) (Some "scan") (Some ("pw" +:+ lf)) None true false.

