(* ===== verification/WinBundle.v ===== *)
(** The Windows agent bundle ([src/fathom/core/deploy/winbundle.py]): the native agent's configuration, its launcher and the
    installer of its scheduled task.  As in [Bundle], a generated file is its UTF-8 bytes. *)

From stdpp Require Import pretty.
From S2P Require Import Prelude PyStr PosixPath WinPath PyUrl Bundle.

Local Open Scope Z_scope.


Record WindowsScanPath := mk_scan { ws_path : string; ws_fullbit : bool }.

Record WindowsBundleSpec := mk_wspec {
  w_host_id : string; w_ingest_url : string; w_proxy_host_ip : string; scan_paths : list WindowsScanPath;
  install_dir : string; start_time : string;
}.

Definition _DEFAULT_INSTALL_DIR : string := "C:\ProgramData\Fathomline".

Definition _reject_control_chars (value what : string) : result DeploymentError () :=
  raise_if (s_any (λ c, code c <? 32) value) ("control character in " +:+ what).

(** [_TIME_RE]. *)
Definition clock_time (s : string) : bool :=
  match String.list_ascii_of_string s with
  | [h1; h2; colon; m1; m2] =>
      (any_of ["0"; "1"]%char h1 && is_digit h2 || Ascii.eqb h1 "2" && any_of ["0"; "1"; "2"; "3"]%char h2) &&
      Ascii.eqb colon ":" && any_of ["0"; "1"; "2"; "3"; "4"; "5"]%char m1 && is_digit m2
  | _ => false
  end.
Definition _TIME_RE : string → bool := re_line clock_time.

Section Rewrite.
Context (bracketed_host_ok nfkc_ok : string → bool).

(** The outer [None] is a ValueError, which the caller does not map. *)
Definition windows_ingest_url (ingest_url proxy_host_ip : string) : option (result DeploymentError string) :=
  match urlsplit bracketed_host_ok nfkc_ok ingest_url with
  | None => None
  | Some parts =>
      if negb (bool_decide (u_scheme parts = "https")) then Some (Err "ingest_url must be https://") else
      match validate_host_or_ip proxy_host_ip with
      | Err e => Some (Err e)
      | Ok _ =>
          match port (u_netloc parts) with
          | None => None
          | Some p =>
              let netloc := match p with
                            | Some 0 | None => proxy_host_ip
                            | Some p => proxy_host_ip +:+ ":" +:+ pretty p
                            end in
              let rebuilt := urlunsplit (mk_split "https" netloc (u_path parts) (u_query parts) (u_fragment parts)) in
              if s_any meta_char rebuilt then Some (Err "invalid ingest_url after rewrite") else Some (Ok rebuilt)
          end
      end
  end.
End Rewrite.

Definition check_windows_path (what p : string) : result DeploymentError () :=
  match validate_windows_config_path p with
  | Ok _ => Ok ()
  | Err (PathSafety m) => Err ("invalid " +:+ what +:+ ": " +:+ m)
  end.

(** [WindowsBundleSpec.__post_init__]. *)
Definition windows_post_init (s : WindowsBundleSpec) : result DeploymentError () :=
  _ ← validate_host_id (w_host_id s);
  _ ← validate_host_or_ip (w_proxy_host_ip s);
  _ ← check_url (w_ingest_url s);
  _ ← raise_if (bool_decide (scan_paths s = [])) "Windows bundle requires at least one scan path";
  _ ← check_each (λ sp, check_windows_path "Windows scan path" (ws_path sp)) (scan_paths s);
  _ ← _reject_control_chars (w_ingest_url s) "ingest_url";
  _ ← raise_if (negb (_TIME_RE (start_time s))) "invalid start_time (expected HH:MM 24h)";
  _ ← check_windows_path "install_dir" (install_dir s);
  _reject_control_chars (w_host_id s) "host_id".

(** ** Rendering *)

(** The two quoting functions have the same text: a quote is doubled. *)
Definition _ps_sq (value : string) : string := "'" +:+ utf8 (double_quotes value) +:+ "'".

Definition _render_config (s : WindowsBundleSpec) : string :=
  let scan_block := lines ((λ sp, "  - " +:+ _yaml_sq (ws_path sp)) <$> scan_paths s) in
  let fullbit_paths := filter (λ sp, ws_fullbit sp = true) (scan_paths s) in
  let fullbit_block := match fullbit_paths with
                       | [] => "fullbit_scope: []"
                       | _ => "fullbit_scope:" +:+ lf +:+ lines ((λ sp, "  - " +:+ _yaml_sq (ws_path sp)) <$> fullbit_paths)
                       end in
  let certs := rstrip_by (Ascii.eqb "\") (install_dir s) +:+ "\certs" in
  lines (["# Fathomline Windows agent config for " +:+ utf8 (w_host_id s) +:+ " — generated (ADR-027).";
          "# Read-only: metadata always; full-bit (content) for fullbit_scope, local-only and never";
          "# hydrating cloud placeholders. Pushes to core over CA-pinned mTLS.";
          "host_id: " +:+ utf8 (w_host_id s);
          "ingest_url: " +:+ utf8 (w_ingest_url s);
          "client_cert_path: " +:+ _yaml_sq (certs +:+ "\client.crt");
          "client_key_path:  " +:+ _yaml_sq (certs +:+ "\client.key");
          "server_ca_path:   " +:+ _yaml_sq (certs +:+ "\fathom-ca.crt");
          "scan_scope:"; scan_block; fullbit_block;
          "write_enabled: false";
          "cross_mounts: false"] ++ throttle_lines) +:+ lf.

Definition _render_run_scan : string :=
  lines ["$ErrorActionPreference = 'Stop'";
         "$Root = $PSScriptRoot";
         "$env:FATHOM_AGENT_CONFIG = Join-Path $Root 'agent.config.yaml'";
         "$env:FATHOM_AGENT_STAGING = Join-Path $Root 'staging.sqlite'";
         "$env:FATHOM_AGENT_OPERATOR = 'fathomline-agent'";
         "$exe = Join-Path $Root 'fathomline-agent.exe'";
         "if (Test-Path $exe) { & $exe scan } else { & py -3 -m fathom.agent scan }";
         "exit $LASTEXITCODE"] +:+ lf.

Definition _render_install (s : WindowsBundleSpec) : string :=
  let task_name := "Fathomline Agent Scan (" +:+ w_host_id s +:+ ")" in
  lines ["#Requires -RunAsAdministrator";
         "$ErrorActionPreference = 'Stop'";
         "$Root = $PSScriptRoot";
         "$Runner = Join-Path $Root 'run-scan.ps1'";
         "$TaskName = " +:+ _ps_sq task_name;
         "$action = New-ScheduledTaskAction -Execute 'powershell.exe' `";
         "  -Argument ('-NoProfile -ExecutionPolicy Bypass -File " +:+ String "034" "' + $Runner + '" +:+ String "034" "')";
         "$trigger = New-ScheduledTaskTrigger -Daily -At '" +:+ utf8 (start_time s) +:+ "'";
         "$principal = New-ScheduledTaskPrincipal -UserId 'SYSTEM' -LogonType ServiceAccount `";
         "  -RunLevel Highest";
         "$settings = New-ScheduledTaskSettingsSet -StartWhenAvailable `";
         "  -ExecutionTimeLimit (New-TimeSpan -Hours 12)";
         "Register-ScheduledTask -TaskName $TaskName -Action $action -Trigger $trigger `";
         "  -Principal $principal -Settings $settings -Force | Out-Null";
         "Write-Host ('Fathomline agent scheduled task installed: ' + " +:+ _ps_sq (w_host_id s) +:+ ")";
         "Write-Host 'It runs read-only, daily at " +:+ utf8 (start_time s) +:+ ". Remove with: Unregister-ScheduledTask'"] +:+ lf.

Definition _render_readme (s : WindowsBundleSpec) : string :=
  lines ["Fathomline Windows agent — host " +:+ utf8 (w_host_id s) +:+ " (ADR-027 W1, read-only)."; "";
         "Installed by install-agent.ps1 as a daily Scheduled Task running run-scan.ps1 as SYSTEM.";
         "It scans the configured paths (metadata only) and pushes to core over CA-pinned mTLS."; "";
         "Config:     agent.config.yaml";
         "Certs:      certs\";
         "Run now:    powershell -ExecutionPolicy Bypass -File run-scan.ps1";
         "Uninstall:  Unregister-ScheduledTask -TaskName 'Fathomline Agent Scan (" +:+ utf8 (w_host_id s) +:+ ")'"] +:+ lf.

Definition build_windows_agent_bundle (s : WindowsBundleSpec) (minted : MintedCert) : AgentBundle :=
  [("agent.config.yaml", _render_config s);
   ("run-scan.ps1", _render_run_scan);
   ("install-agent.ps1", _render_install s);
   ("README.txt", _render_readme s);
   ("certs/client.crt", utf8 (cert_pem minted));
   ("certs/client.key", utf8 (key_pem minted));
   ("certs/fathom-ca.crt", utf8 (ca_cert_pem minted))].

(** The host of the rewritten address and nothing else changes. *)
Example rewrite_ex : windows_ingest_url (λ _, true) (λ _, true) "https://proxy:9443/api/v1/agents/ingest" "10.0.0.1"
  = Some (Ok "https://10.0.0.1:9443/api/v1/agents/ingest").
Proof. reflexivity. Qed.

(** ** Laws *)

Lemma double_quotes_id s : has_char "'" s = false → double_quotes s = s.
Proof.
  induction s as [|c s IH]; [done|]. rewrite has_char_cons. intros [Hc Hs]%orb_false_iff. cbn [double_quotes].
  rewrite Ascii.eqb_sym, Hc, IH by done. done.
Qed.

(** A path is checked in its normal form and written as it was given: a control character in a component that [..] removes passes. *)
Lemma control_character_rendered :
  is_ok (windows_post_init (mk_wspec "pc" "https://p/x" "10.0.0.1" [mk_scan ("C:\a" +:+ lf +:+ "b\..\c") false] _DEFAULT_INSTALL_DIR "02:30")) = true.
Proof. reflexivity. Qed.

Lemma clock_no_char t c : clock_time t = true → is_digit c || Ascii.eqb c ":" = false → has_char c t = false.
Proof.
  intros H Hc. assert (s_all (λ d, is_digit d || Ascii.eqb d ":") t = true) as Ha.
  { assert (∀ l d, any_of l d = true → Forall (λ x, is_digit x = true) l → is_digit d = true) as Hany.
    { intros l d (x & Hx & ->%Ascii.eqb_eq)%existsb_exists Hl. rewrite Forall_forall in Hl. apply Hl. by apply list_elem_of_In. }
    destruct t as [|h1 [|h2 [|colon [|m1 [|m2 [|]]]]]]; try discriminate H. unfold clock_time in H.
    cbn [String.list_ascii_of_string] in H. rewrite !andb_true_iff in H. destruct H as [[[H1 H2] H3] H4].
    assert (is_digit h1 = true ∧ is_digit h2 = true) as [Hh1 Hh2].
    { apply orb_true_iff in H1 as [[H1 H2']%andb_true_iff|[->%Ascii.eqb_eq H2']%andb_true_iff].
      - split; [|done]. by apply (Hany _ _ H1); repeat constructor.
      - split; [done|]. by apply (Hany _ _ H2'); repeat constructor. }
    assert (is_digit m1 = true) as Hm1 by by apply (Hany _ _ H3); repeat constructor.
    cbn [s_all]. by rewrite Hh1, Hh2, H2, Hm1, H4, orb_true_r. }
  by apply (s_all_no_char _ _ _ Ha).
Qed.

(** The installer runs nothing but the template: the name of the host and the time are all that varies, in the quotes, and neither
    holds a quote or a line break. *)
Lemma install_values s :
  windows_post_init s = Ok () →
  (has_char nl (w_host_id s) = false ∧ has_char "013" (w_host_id s) = false) ∧ has_char "'" (w_host_id s) = false ∧
  (start_time s = unline (start_time s) ∨ start_time s = unline (start_time s) +:+ lf) ∧ has_char "'" (unline (start_time s)) = false.
Proof.
  unfold windows_post_init. intros H. apply bind_ok in H as (h & Hh & H).
  do 5 apply bind_ok in H as (? & _ & H). apply bind_ok in H as ([] & Ht & H). apply bind_ok in H as ([] & _ & Hc).
  unfold validate_host_id in Hh. destruct (_HOST_ID_RE (w_host_id s)) eqn:E; [|done]. apply host_id_spec in E as [Ha Hs].
  apply raise_if_ok in Hc. unfold s_any in Hc. apply negb_false_iff in Hc.
  apply raise_if_ok, negb_false_iff, re_line_spec in Ht as [Ht Hst].
  - split; [|split; [|split; [done|]]].
    + split; by apply (s_all_no_char _ _ _ Hc).
    + destruct Hs as [->|Hs]; [by apply (s_all_no_char host_id_char)|]. exfalso.
      assert (has_char nl (w_host_id s) = false) as Hn by by apply (s_all_no_char _ _ _ Hc).
      rewrite Hs, has_char_app in Hn. apply orb_false_iff in Hn as [_ Hn]. discriminate Hn.
    + by apply clock_no_char.
  - intros t Ht'. by apply clock_no_char.
Qed.
