(* ===== verification/Enroll.v ===== *)
(** Pull enrollment ([src/fathom/core/deploy/enrollment.py]) and the credentials of a push ([core/deploy/credentials.py]): the
    registry of one-time tokens, its histories, and the commands that carry a token to the target.

    The hash of a token is a parameter, and so are the random tokens; each reading of the clock is an argument. *)

From S2P Require Import Prelude PyStr PyDict PyTime Bundle WinBundle.

Local Open Scope Z_scope.


(** ** [core/deploy/credentials.py] *)

Record SshCredential := mk_cred {
  c_username : string; private_key : option string; passphrase : option string; certificate : option string;
  c_password : option string; sudo_password : option string;
}.

Definition is_some {A} (o : option A) : bool := match o with Some _ => true | None => false end.

Definition auth_kind (c : SshCredential) : string :=
  if is_some (private_key c) then if is_some (certificate c) then "key+cert" else "key"
  else if is_some (c_password c) then "password" else "none".

Definition validate (c : SshCredential) : result DeploymentError () :=
  let has_key := is_some (private_key c) in
  let has_password := is_some (c_password c) in
  _ ← raise_if (bool_decide (c_username c = "")) "ssh credential requires a username";
  _ ← raise_if (has_key && has_password) "ssh credential has both a key and a password (pick one)";
  _ ← raise_if (negb has_key && negb has_password) "ssh credential needs a private key or a password";
  raise_if (negb has_key && (is_some (passphrase c) || is_some (certificate c))) "passphrase/certificate provided without a private key".

(** A valid credential has exactly one way to authenticate, and says which. *)
Lemma validate_spec c : validate c = Ok () →
  (is_some (private_key c) = true ∧ c_password c = None ∧ auth_kind c ∈ ["key"; "key+cert"]) ∨
  (private_key c = None ∧ is_some (c_password c) = true ∧ certificate c = None ∧ auth_kind c = "password").
Proof.
  destruct c as [u k p ce pw sp]. unfold validate, auth_kind. cbn. case_bool_decide; [done|].
  destruct k, pw, p, ce; cbn; intros [=]; [left|left|left|left|right]; split_and!; try done; set_solver.
Qed.

(** ** [core/deploy/enrollment.py] *)

Definition PLATFORM_LINUX : string := "linux".
Definition PLATFORM_WINDOWS : string := "windows".

Record EnrollmentGrant := mk_egrant {
  g_host_id : string; g_spec : BundleSpec + WindowsBundleSpec; g_expires_at : datetime; g_redeemed : bool; g_platform : string;
}.

Record EnrollmentRegistry := mk_registry { ttl_seconds : Z; max_pending : Z; grants : list (string * EnrollmentGrant) }.

Definition with_grants (r : EnrollmentRegistry) (l : list (string * EnrollmentGrant)) : EnrollmentRegistry :=
  mk_registry (ttl_seconds r) (max_pending r) l.

Section Enrollment.
Context (_hash_token : string → string).

Definition expired (now : datetime) (g : EnrollmentGrant) : bool := instant (g_expires_at g) <=? instant now.

Definition _gc (now : datetime) (r : EnrollmentRegistry) : EnrollmentRegistry :=
  with_grants r (filter (λ kg, g_redeemed kg.2 || expired now kg.2 = false) (grants r)).

(** [raw] is the token drawn; the clock is read twice. *)
Definition issue (host_id : string) (spec : BundleSpec + WindowsBundleSpec) (platform raw : string) (now now' : datetime)
    (r : EnrollmentRegistry) : result DeploymentError (string * datetime) * EnrollmentRegistry :=
  let r := _gc now r in
  if max_pending r <=? Z.of_nat (length (grants r)) then (Err "too many pending enrollment tokens; retry shortly", r) else
  let expires := dt_add now' (seconds (ttl_seconds r)) in
  (Ok (raw, expires), with_grants r (dict_set (_hash_token raw) (mk_egrant host_id spec expires false platform) (grants r))).

Definition verify (raw_token : string) (now : datetime) (r : EnrollmentRegistry) : result DeploymentError EnrollmentGrant * EnrollmentRegistry :=
  let key := _hash_token raw_token in
  match dict_get key (grants r) with
  | None => (Err "enrollment token is invalid", r)
  | Some g =>
      if g_redeemed g then (Err "enrollment token is invalid", r)
      else if expired now g then (Err "enrollment token expired", with_grants r (dict_pop key (grants r)))
      else (Ok g, r)
  end.

Definition redeem (raw_token : string) (now : datetime) (r : EnrollmentRegistry) : result DeploymentError EnrollmentGrant * EnrollmentRegistry :=
  let key := _hash_token raw_token in
  match dict_get key (grants r) with
  | None => (Err "enrollment token is invalid", r)
  | Some g =>
      if g_redeemed g then (Err "enrollment token already used", r)
      else if expired now g then (Err "enrollment token expired", with_grants r (dict_pop key (grants r)))
      else (Ok (mk_egrant (g_host_id g) (g_spec g) (g_expires_at g) true (g_platform g)), with_grants r (dict_pop key (grants r)))
  end.

Definition pending_count (now : datetime) (r : EnrollmentRegistry) : Z * EnrollmentRegistry :=
  let r := _gc now r in (Z.of_nat (length (grants r)), r).

(** ** Histories of the registry *)

Inductive eop :=
| EIssue (host_id : string) (spec : BundleSpec + WindowsBundleSpec) (platform raw : string) (now now' : datetime)
| EVerify (raw : string) (now : datetime)
| ERedeem (raw : string) (now : datetime)
| EPending (now : datetime).

Inductive eout := OIssued (raw : string) (expires : datetime) | OGrant (g : EnrollmentGrant) | OCount (n : Z) | OError (e : DeploymentError).

Definition estep (o : eop) (r : EnrollmentRegistry) : eout * EnrollmentRegistry :=
  match o with
  | EIssue host spec platform raw now now' =>
      match issue host spec platform raw now now' r with (Ok (t, e), r) => (OIssued t e, r) | (Err e, r) => (OError e, r) end
  | EVerify raw now => match verify raw now r with (Ok g, r) => (OGrant g, r) | (Err e, r) => (OError e, r) end
  | ERedeem raw now => match redeem raw now r with (Ok g, r) => (OGrant g, r) | (Err e, r) => (OError e, r) end
  | EPending now => let '(n, r) := pending_count now r in (OCount n, r)
  end.

(** The operations since the start of the process, with what they returned. *)
Inductive eruns (ttl max : Z) : list (eop * eout) → EnrollmentRegistry → Prop :=
| eruns_start : eruns ttl max [] (mk_registry ttl max [])
| eruns_step t r o out r' : eruns ttl max t r → estep o r = (out, r') → eruns ttl max (t ++ [(o, out)]) r'.

(** The operation spends the token of a hash, or issues it again. *)
Definition touches (k : string) (e : eop * eout) : Prop :=
  match e with
  | (ERedeem raw _, OGrant _) => _hash_token raw = k
  | (EIssue _ _ _ raw _ _, OIssued _ _) => _hash_token raw = k
  | _ => False
  end.

(** The trace issued a token of this hash with this grant, and it has not been spent since. *)
Definition live (ttl : Z) (t : list (eop * eout)) (k : string) (g : EnrollmentGrant) : Prop :=
  ∃ pre post raw now now', 
    t = pre ++ (EIssue (g_host_id g) (g_spec g) (g_platform g) raw now now', OIssued raw (g_expires_at g)) :: post ∧
    _hash_token raw = k ∧ g_expires_at g = dt_add now' (seconds ttl) ∧ Forall (λ e, ¬ touches k e) post.

Definition reg_inv (ttl max : Z) (t : list (eop * eout)) (r : EnrollmentRegistry) : Prop :=
  ttl_seconds r = ttl ∧ max_pending r = max ∧ NoDup (grants r).*1 ∧ (0 ≤ max → Z.of_nat (length (grants r)) ≤ max) ∧
  ∀ k g, (k, g) ∈ grants r → g_redeemed g = false ∧ live ttl t k g.

Lemma live_snoc ttl t k g e : live ttl t k g → ¬ touches k e → live ttl (t ++ [e]) k g.
Proof.
  intros (pre & post & raw & now & now' & -> & Hk & He & Hp) Hn. exists pre, (post ++ [e]), raw, now, now'.
  rewrite <- app_assoc. split; [done|]. split; [done|]. split; [done|]. apply Forall_app. by repeat constructor.
Qed.

(** Dropping grants keeps the invariant, for the tokens the operation does not touch. *)
Lemma inv_drop ttl max t r e l :
  reg_inv ttl max t r → l `sublist_of` grants r → (∀ k g, (k, g) ∈ l → ¬ touches k e) → reg_inv ttl max (t ++ [e]) (with_grants r l).
Proof.
  intros (Ht & Hm & Hnd & Hlen & Hl) Hsub Hno. split; [done|]. split; [done|]. split; [|split].
  - cbn. eapply sublist_NoDup; [exact Hnd|by apply fmap_sublist].
  - intros H0. cbn. apply sublist_length in Hsub. specialize (Hlen H0). lia.
  - intros k g Hin. cbn in Hin. destruct (Hl k g) as [Hr Hlive]; [by eapply elem_of_sublist|]. split; [done|]. apply live_snoc; [done|by eapply Hno].
Qed.

Lemma inv_issue ttl max t r host spec platform raw now now' out r' :
  reg_inv ttl max t r → estep (EIssue host spec platform raw now now') r = (out, r') →
  reg_inv ttl max (t ++ [(EIssue host spec platform raw now now', out)]) r'.
Proof.
  intros Hr Hs. unfold estep, issue in Hs.
  assert (∀ out, (∀ k, ¬ touches k (EIssue host spec platform raw now now', out)) →
    reg_inv ttl max (t ++ [(EIssue host spec platform raw now now', out)]) (_gc now r)) as Hgc.
  { intros o Ho. apply inv_drop; [done|apply sublist_filter|]. intros k g _. apply Ho. }
  set (r0 := _gc now r) in *. clearbody r0.
  destruct (Z.leb_spec (max_pending r0) (Z.of_nat (length (grants r0)))) as [?|Hlt].
  { injection Hs as <- <-. apply Hgc. intros k []. }
  injection Hs as <- <-. destruct (Hgc (OCount 0) (λ _ H, H)) as (Ht & Hm & Hnd & _ & Hl). clear Hgc.
  unfold reg_inv. cbn [grants with_grants ttl_seconds max_pending].
  split; [done|]. split; [done|]. split; [by apply dict_set_NoDup|]. split.
  - intros _. rewrite <- (length_fmap fst), dict_set_keys, length_app, length_fmap. destruct (decide _); cbn [length]; lia.
  - intros k g Hin. apply dict_get_elem in Hin; [|by apply dict_set_NoDup]. rewrite dict_get_set in Hin.
    destruct (decide _) as [<-|Hne].
    + injection Hin as <-. split; [done|]. exists t, [], raw, now, now'. cbn. rewrite Ht. by split_and!.
    + apply dict_get_elem in Hin; [|done]. destruct (Hl k g Hin) as [Hred Hlive]. split; [done|].
      destruct Hlive as (pre & post & raw0 & n1 & n2 & E & Hk & He & Hp). destruct post as [|e post _] using rev_ind.
      { apply app_inj_tail in E as [_ [= ]]. }
      rewrite app_comm_cons, app_assoc in E. apply app_inj_tail in E as [-> _].
      apply Forall_app in Hp as [Hp _]. apply live_snoc; [|cbn; congruence]. by exists pre, post, raw0, n1, n2.
Qed.

Lemma inv_step ttl max t r o out r' : reg_inv ttl max t r → estep o r = (out, r') → reg_inv ttl max (t ++ [(o, out)]) r'.
Proof.
  intros Hr Hs. destruct o as [host spec platform raw now now'|raw now|raw now|now]; [by eapply inv_issue| | |].
  - assert (∀ l o, l `sublist_of` grants r → reg_inv ttl max (t ++ [(EVerify raw now, o)]) (with_grants r l)) as Hd.
    { intros l o Hsub. apply inv_drop; [done..|]. intros k g _ []. }
    pose proof (λ o, Hd (grants r) o (reflexivity _)) as Hkeep. replace (with_grants r (grants r)) with r in Hkeep by by destruct r.
    cbn in Hs. unfold verify in Hs.
    destruct (dict_get _ _) as [g|]; [destruct (g_redeemed g); [|destruct (expired now g)]|]; injection Hs as <- <-; try apply Hkeep.
    apply Hd, sublist_filter.
  - assert (∀ l e, l `sublist_of` grants r → reg_inv ttl max (t ++ [(ERedeem raw now, OError e)]) (with_grants r l)) as Hd.
    { intros l e Hsub. apply inv_drop; [done..|]. intros k g _ []. }
    pose proof (λ o, Hd (grants r) o (reflexivity _)) as Hkeep. replace (with_grants r (grants r)) with r in Hkeep by by destruct r.
    cbn in Hs. unfold redeem in Hs.
    destruct (dict_get _ _) as [g|]; [destruct (g_redeemed g); [|destruct (expired now g)]|]; injection Hs as <- <-; try apply Hkeep;
      [apply Hd, sublist_filter|].
    apply inv_drop; [done|apply sublist_filter|]. intros k g' Hin. cbn. apply list_elem_of_filter in Hin as [Hne _]. cbn in Hne. congruence.
  - cbn in Hs. injection Hs as <- <-. apply inv_drop; [done|apply sublist_filter|]. intros k g _ [].
Qed.

Lemma eruns_inv ttl max t r : eruns ttl max t r → reg_inv ttl max t r.
Proof.
  induction 1 as [|t r o out r' _ IH Hs]; [|by eapply inv_step].
  split; [done|]. split; [done|]. split; [constructor|]. split; [done|]. intros k g []%not_elem_of_nil.
Qed.

(** Whatever operations the registry has served, a token is redeemed only before it expires and only for what its issue said: the
    grant that is returned is that of the last issue of a token with this hash, which set the expiry, and no redemption of that
    token has succeeded since; after it the token is gone.  The registry never holds more grants than its bound. *)
Theorem enrollment_single_use ttl max t r raw now g r' :
  eruns ttl max t r → redeem raw now r = (Ok g, r') →
  instant now < instant (g_expires_at g) ∧ live ttl t (_hash_token raw) g ∧ dict_get (_hash_token raw) (grants r') = None ∧
  (0 ≤ max → Z.of_nat (length (grants r)) ≤ max).
Proof.
  intros (Ht & Hm & Hnd & Hlen & Hl)%eruns_inv. unfold redeem. destruct (dict_get _ _) as [g0|] eqn:Eg; [|done].
  apply dict_get_elem in Eg; [|done]. destruct (Hl _ _ Eg) as [-> Hlive]. unfold expired. destruct (Z.leb_spec (instant (g_expires_at g0)) (instant now)); [done|].
  intros [= <- <-]. split; [done|]. split; [exact Hlive|]. split; [|done]. cbn. rewrite dict_get_pop. by rewrite decide_True.
Qed.

(** The clock an operation reads to drop what is expired. *)
Definition read_at (o : eop) : datetime :=
  match o with EIssue _ _ _ _ now _ | EVerify _ now | ERedeem _ now | EPending now => now end.

Lemma gc_keeps now k g r : NoDup (grants r).*1 → dict_get k (grants r) = Some g → g_redeemed g = false → instant now < instant (g_expires_at g) →
  dict_get k (grants (_gc now r)) = Some g.
Proof.
  intros Hnd Hk Hr Hlt. apply dict_get_elem; cbn.
  - eapply sublist_NoDup; [exact Hnd|]. apply fmap_sublist, sublist_filter.
  - apply list_elem_of_filter. split; [|by apply dict_get_elem]. cbn. unfold expired. rewrite Hr. by apply Z.leb_gt.
Qed.

Lemma keeps_step k g r o out r' :
  NoDup (grants r).*1 → dict_get k (grants r) = Some g → g_redeemed g = false →
  estep o r = (out, r') → ¬ touches k (o, out) → instant (read_at o) < instant (g_expires_at g) → dict_get k (grants r') = Some g.
Proof.
  intros Hnd Hk Hr Hs Hn Hlt.
  destruct o as [host spec platform raw now now'|raw now|raw now|now]; cbn in Hlt; unfold estep in Hs.
  - unfold issue in Hs. pose proof (gc_keeps now k g r Hnd Hk Hr Hlt) as Hg. set (r0 := _gc now r) in *. clearbody r0.
    destruct (max_pending r0 <=? _); injection Hs as <- <-; [done|]. cbn in Hn. cbn. rewrite dict_get_set. by rewrite decide_False.
  - unfold verify in Hs. destruct (dict_get (_hash_token raw) (grants r)) as [g'|] eqn:Eg; [|by injection Hs as <- <-].
    destruct (g_redeemed g'); [by injection Hs as <- <-|]. unfold expired in Hs.
    destruct (Z.leb_spec (instant (g_expires_at g')) (instant now)); injection Hs as <- <-; [|done].
    cbn. rewrite dict_get_pop. rewrite decide_False; [done|]. intros E. rewrite E, Hk in Eg. injection Eg as <-. lia.
  - unfold redeem in Hs. destruct (dict_get (_hash_token raw) (grants r)) as [g'|] eqn:Eg; [|by injection Hs as <- <-].
    destruct (g_redeemed g'); [by injection Hs as <- <-|]. unfold expired in Hs.
    destruct (Z.leb_spec (instant (g_expires_at g')) (instant now)); injection Hs as <- <-; cbn; rewrite dict_get_pop, decide_False; try done.
    intros E. rewrite E, Hk in Eg. injection Eg as <-. lia.
  - injection Hs as <- <-. by apply gc_keeps.
Qed.

(** Operations from a state on. *)
Inductive esteps : EnrollmentRegistry → list (eop * eout) → EnrollmentRegistry → Prop :=
| esteps_nil r : esteps r [] r
| esteps_cons r o out r' t r'' : estep o r = (out, r') → esteps r' t r'' → esteps r ((o, out) :: t) r''.

(** A token that was issued can be redeemed for its grant until it expires, whatever the registry serves in between: the
    operations that read the clock before the expiry and do not spend or reissue the token leave it, full registry or not. *)
Theorem enrollment_redeemable ttl max t0 r0 host spec platform raw now now' e r t r' late :
  eruns ttl max t0 r0 → issue host spec platform raw now now' r0 = (Ok (raw, e), r) → esteps r t r' →
  Forall (λ x, ¬ touches (_hash_token raw) x ∧ instant (read_at x.1) < instant e) t → instant late < instant e →
  ∃ r'', redeem raw late r' = (Ok (mk_egrant host spec e true platform), r'').
Proof.
  intros Hrun Hi Hsteps Ht Hlate.
  assert (eruns ttl max (t0 ++ [(EIssue host spec platform raw now now', OIssued raw e)]) r) as Hr
    by (eapply eruns_step; [exact Hrun|]; cbn; by rewrite Hi).
  set (g := mk_egrant host spec e false platform).
  assert (dict_get (_hash_token raw) (grants r) = Some g) as Hg.
  { unfold issue in Hi. destruct (_ <=? _); [done|]. injection Hi as He <-. cbn. rewrite dict_get_set, decide_True by done. unfold g. by rewrite <- He. }
  clear Hrun Hi. revert Hr. generalize (t0 ++ [(EIssue host spec platform raw now now', OIssued raw e)]). intros tr Hr. revert tr Hr Hg.
  induction Hsteps as [r|r o out r1 t r2 Hs _ IH]; intros tr Hr Hg.
  - unfold redeem. rewrite Hg. cbn. unfold expired. cbn. destruct (Z.leb_spec (instant e) (instant late)); [lia|]. by eexists.
  - inversion Ht as [|x l [Hn Hlt] Hrest]; subst. apply (IH Hrest (tr ++ [(o, out)])); [by eapply eruns_step|].
    eapply keeps_step; [by apply eruns_inv in Hr as (_ & _ & ? & _)|exact Hg|done|exact Hs|exact Hn|exact Hlt].
Qed.
End Enrollment.

(** ** The commands *)

Definition bootstrap_command (core_base_url raw_token image : string) (serve_image : bool) : string :=
  let base := rstrip_by (Ascii.eqb "/") core_base_url in
  let auth := "-H " +:+ dq "Authorization: Bearer $T" in
  let image_step :=
    if serve_image then
      "docker image inspect " +:+ dq image +:+ " >/dev/null 2>&1 || curl -fsSL " +:+ auth +:+ " " +:+
      dq (base +:+ "/api/v1/deployment/enroll/image") +:+ " | sudo docker load; "
    else "" in
  "set -eo pipefail; T=" +:+ dq raw_token +:+ "; DIR=${FATHOM_DIR:-/opt/fathom-agent}; TGZ=$(mktemp); sudo mkdir -p " +:+ dq "$DIR" +:+ "; " +:+
  image_step +:+
  "curl -fsSL " +:+ auth +:+ " " +:+ dq (base +:+ "/api/v1/deployment/enroll/bundle") +:+ " -o " +:+ dq "$TGZ" +:+ "; " +:+
  "sudo tar --no-same-owner --no-overwrite-dir -xzf " +:+ dq "$TGZ" +:+ " -C " +:+ dq "$DIR" +:+ "; rm -f " +:+ dq "$TGZ" +:+ "; " +:+
  "cd " +:+ dq "$DIR" +:+ " && sudo docker compose up -d agent && echo " +:+ dq "fathom agent enrolled".

Definition windows_powershell_bootstrap (core_base_url raw_token install_dir : string) : string :=
  let base := rstrip_by (Ascii.eqb "/") core_base_url in
  let dir_lit := "'" +:+ double_quotes install_dir +:+ "'" in
  let lock := "icacls $D /inheritance:r /grant:r '*S-1-5-18:(OI)(CI)F' '*S-1-5-32-544:(OI)(CI)F' /T /C /Q | Out-Null; " in
  "$ErrorActionPreference='Stop'; [Net.ServicePointManager]::SecurityProtocol=[Net.SecurityProtocolType]::Tls12; " +:+
  "$T=" +:+ dq raw_token +:+ "; $D=" +:+ dir_lit +:+ "; " +:+
  "if (Test-Path $D) { $o=(Get-Acl $D).GetOwner([System.Security.Principal.SecurityIdentifier]).Value; " +:+
  "if ($o -ne 'S-1-5-18' -and $o -ne 'S-1-5-32-544') { throw " +:+
  dq "refusing: $D exists with owner $o (not SYSTEM/Administrators)" +:+ " } }; " +:+
  "New-Item -ItemType Directory -Force -Path $D | Out-Null; icacls $D /setowner '*S-1-5-32-544' /T /C /Q | Out-Null; " +:+
  lock +:+
  "$Z=Join-Path $env:TEMP ('fathomline-'+[guid]::NewGuid().ToString()+'.zip'); " +:+
  "Invoke-WebRequest -UseBasicParsing -Headers @{Authorization=('Bearer '+$T)} -Uri '" +:+ base +:+ "/api/v1/deployment/enroll/bundle' -OutFile $Z; " +:+
  "Expand-Archive -Path $Z -DestinationPath $D -Force; Remove-Item $Z; " +:+
  lock +:+
  "& powershell -NoProfile -ExecutionPolicy Bypass -File (Join-Path $D 'install-agent.ps1'); Write-Host 'fathomline agent enrolled'".

(** The image may hold what the shell expands inside double quotes. *)
Lemma image_expands_in_bootstrap :
  bundle_post_init (mk_spec "nas" "https://proxy" "a$(id)" [mk_mount "/scan/data" "/mnt/data" true] "10.0.0.1" [] "3g" "4.0") = Ok () ∧
  contains ("inspect " +:+ dq "a$(id)") (bootstrap_command "https://core" "t" "a$(id)" true) = true.
Proof. split; reflexivity. Qed.

(** ** Witnesses *)

Definition wit_hash (s : string) : string := s.
Definition wit_win : BundleSpec + WindowsBundleSpec := inl (wit_spec "nas" [mk_mount "/scan/data" "/mnt/data" true] []).
Definition at_second (n : Z) : datetime := utc (seconds n).
Definition wit_ops : list eop :=
  [EIssue "nas" wit_win PLATFORM_LINUX "t1" (at_second 0) (at_second 0); EIssue "nas2" wit_win PLATFORM_LINUX "t2" (at_second 5) (at_second 5);
   EVerify "t1" (at_second 10); EIssue "nas3" wit_win PLATFORM_LINUX "t3" (at_second 20) (at_second 20); EPending (at_second 30)].

Fixpoint trace_of (ops : list eop) (r : EnrollmentRegistry) : list (eop * eout) * EnrollmentRegistry :=
  match ops with
  | [] => ([], r)
  | o :: ops => let '(out, r) := estep wit_hash o r in let '(t, r) := trace_of ops r in ((o, out) :: t, r)
  end.

Lemma trace_of_steps ops r : esteps wit_hash r (trace_of ops r).1 (trace_of ops r).2.
Proof.
  revert r. induction ops as [|o ops IH]; intros r; cbn; [constructor|]. destruct (estep wit_hash o r) as [out r'] eqn:E.
  specialize (IH r'). destruct (trace_of ops r') as [t r'']. econstructor; [exact E|exact IH].
Qed.

Lemma esteps_runs ttl max t0 r0 t r : eruns wit_hash ttl max t0 r0 → esteps wit_hash r0 t r → eruns wit_hash ttl max (t0 ++ t) r.
Proof.
  intros H Hs. revert t0 H. induction Hs as [r|r o out r' t r'' Hs _ IH]; intros t0 H; [by rewrite app_nil_r|].
  change ((o, out) :: t) with ([(o, out)] ++ t). rewrite app_assoc. apply IH. by eapply eruns_step.
Qed.

Definition wit_start : EnrollmentRegistry := mk_registry 900 2 [].

Lemma wit_runs ops : eruns wit_hash 900 2 (trace_of ops wit_start).1 (trace_of ops wit_start).2.
Proof. apply (esteps_runs _ _ [] wit_start); [constructor|apply trace_of_steps]. Qed.

Lemma enrollment_single_use_witness :
  live wit_hash 900 (trace_of wit_ops wit_start).1 "t1" (mk_egrant "nas" wit_win (at_second 900) true PLATFORM_LINUX).
Proof.
  exact (proj1 (proj2 (enrollment_single_use wit_hash 900 2 _ _ "t1" (at_second 60) _ _ (wit_runs wit_ops) (eq_refl _)))).
Defined.

Lemma enrollment_redeemable_witness :
  ∃ r, redeem wit_hash "t1" (at_second 899) (trace_of wit_ops wit_start).2 = (Ok (mk_egrant "nas" wit_win (at_second 900) true PLATFORM_LINUX), r).
Proof.
  apply (enrollment_redeemable wit_hash 900 2 [] wit_start "nas" wit_win PLATFORM_LINUX "t1" (at_second 0) (at_second 0) (at_second 900)
           (trace_of (take 1 wit_ops) wit_start).2 (trace_of (drop 1 wit_ops) (trace_of (take 1 wit_ops) wit_start).2).1).
  - constructor.
  - reflexivity.
  - exact (trace_of_steps (drop 1 wit_ops) (trace_of (take 1 wit_ops) wit_start).2).
  - repeat (apply Forall_cons_2; [split; [intros H; first [discriminate H|destruct H]|reflexivity]|]). apply Forall_nil_2.
  - reflexivity.
Defined.
