(* ===== verification/Deploy.v ===== *)
(** Push deploys ([src/fathom/core/deploy/engine.py], [core/deploy/ssh.py], [core/deploy/certs.py]): one host through its phases,
    the batch, the registry of runs, and the connector.

    The target is what its answers are: what a call returns is a function of the calls made so far in the session.  A log of the
    calls is part of the state, so that the theorems can speak of what was sent and when.  A message that quotes an exception
    quotes its text. *)

From stdpp Require Import pretty.
From S2P Require Import Prelude PyStr PyDict PyTime Bundle Enroll.

Local Open Scope Z_scope.


(** ** [core/deploy/ssh.py] *)

(** [shlex.quote]. *)
Definition shell_safe (c : ascii) : bool := is_alnum c || any_of ["_"; "@"; "%"; "+"; "="; ":"; ","; "."; "/"; "-"]%char c.

Fixpoint close_quotes (s : string) : string :=
  match s with
  | "" => ""
  | String c s' => if Ascii.eqb c "'" then "'" +:+ dq "'" +:+ "'" +:+ close_quotes s' else String c (close_quotes s')
  end.

Definition quote (s : string) : string :=
  if bool_decide (s = "") then "''" else if s_all shell_safe s then s else "'" +:+ close_quotes s +:+ "'".

Definition wrap_sudo (command : string) (password : option string) : string * option string :=
  let wrapped := "bash -c " +:+ quote command in
  match password with
  | None => ("sudo -n " +:+ wrapped, None)
  | Some p => ("sudo -S -p '' " +:+ wrapped, Some (p +:+ lf))
  end.

Record CommandResult := mk_command { exit_status : Z; stdout : string; stderr : string }.

Definition ok (r : CommandResult) : bool := exit_status r =? 0.

(** What a deploy can fail with: a DeploymentError, another exception, or the cancellation of its task. *)
Inductive failure := Deployment (m : string) | Crash (m : string) | Cancelled.

Section Connector.
(** asyncssh: the imports of key and certificate ([None]: the error the code maps), and the handshake, which authenticates:
    the fingerprint of the key of the server, or the failure. *)
Context {Key Cert : Type} (import_private_key : string → option string → option Key) (import_certificate : string → option Cert).
Context (asyncssh_connect : string → Z → string → list (Key * option Cert) → option string → result failure string).

(** What leaves for the target. *)
Inductive sent := Handshake (username : string) (keys : list (Key * option Cert)) (password : option string) | Closed.

Definition connect_keys (c : SshCredential) : result failure (list (Key * option Cert)) :=
  match private_key c with
  | None => Ok []
  | Some pem =>
      match import_private_key pem (passphrase c) with
      | None => Err (Deployment "could not load SSH private key")
      | Some key =>
          match certificate c with
          | None => Ok [(key, None)]
          | Some pem => match import_certificate pem with
                        | None => Err (Deployment "could not load SSH certificate")
                        | Some cert => Ok [(key, Some cert)]
                        end
          end
      end
  end.

Definition lift {A} (r : result DeploymentError A) : result failure A := match r with Ok a => Ok a | Err m => Err (Deployment m) end.

(** [AsyncSshConnector.connect]: the fingerprint of the session, and what was sent.  An OSError or an asyncssh error of the handshake
    is a [Deployment] failure here. *)
Definition connect (host : string) (port : Z) (c : SshCredential) (expected_host_key : option string) : result failure string * list sent :=
  match (_ ← lift (validate c); connect_keys c) with
  | Err e => (Err e, [])
  | Ok keys =>
      let hello := Handshake (c_username c) keys (c_password c) in
      match asyncssh_connect host port (c_username c) keys (c_password c) with
      | Err e => (Err e, [hello])
      | Ok fingerprint =>
          match expected_host_key with
          | Some k => if bool_decide (fingerprint = k) then (Ok fingerprint, [hello])
                      else (Err (Deployment "host key fingerprint changed — refusing to deploy"), [hello; Closed])
          | None => (Ok fingerprint, [hello])
          end
      end
  end.

(** A session is opened only under the pinned key, if one is given. *)
Lemma connect_pinned host port c k fp l : connect host port c (Some k) = (Ok fp, l) → fp = k.
Proof.
  unfold connect. destruct (lift (validate c) ≫= _) as [keys|]; [|done]. destruct (asyncssh_connect _ _ _ _ _); [|done].
  case_bool_decide; [|done]. by intros [= <- _].
Qed.

(** The pin is compared after the handshake: a server with another key has the password by then. *)
Lemma password_reaches_unpinned_host host port c k pw fp keys :
  connect_keys c = Ok keys → c_password c = Some pw → validate c = Ok () →
  asyncssh_connect host port (c_username c) keys (Some pw) = Ok fp → fp ≠ k →
  connect host port c (Some k) =
    (Err (Deployment "host key fingerprint changed — refusing to deploy"), [Handshake (c_username c) keys (Some pw); Closed]).
Proof. intros Hk Hp Hv Ha Hne. unfold connect. rewrite Hv. cbn. rewrite Hk, Hp, Ha. by rewrite bool_decide_false. Qed.
End Connector.

(** ** [core/deploy/engine.py] *)

Inductive DeployPhase :=
  PENDING | CONNECTING | PREFLIGHT | MINTING | UPLOADING | LOADING_IMAGE | STARTING | VERIFYING | SUCCEEDED | FAILED.

#[export] Instance DeployPhase_eq_dec : EqDecision DeployPhase.
Proof. solve_decision. Defined.

Definition phase_value (p : DeployPhase) : string :=
  match p with
  | PENDING => "pending" | CONNECTING => "connecting" | PREFLIGHT => "preflight" | MINTING => "minting" | UPLOADING => "uploading"
  | LOADING_IMAGE => "loading_image" | STARTING => "starting" | VERIFYING => "verifying" | SUCCEEDED => "succeeded" | FAILED => "failed"
  end.

Definition _TERMINAL : list DeployPhase := [SUCCEEDED; FAILED].

Record HostStatus := mk_status {
  hs_host_id : string; hs_target : string; phase : DeployPhase; detail : string; fingerprint : option string; host_key : option string;
}.

Definition done (s : HostStatus) : bool := bool_decide (phase s ∈ _TERMINAL).

Definition set_phase (p : DeployPhase) (s : HostStatus) : HostStatus :=
  mk_status (hs_host_id s) (hs_target s) p (detail s) (fingerprint s) (host_key s).
Definition set_detail (d : string) (s : HostStatus) : HostStatus :=
  mk_status (hs_host_id s) (hs_target s) (phase s) d (fingerprint s) (host_key s).
Definition set_fingerprint (f : string) (s : HostStatus) : HostStatus :=
  mk_status (hs_host_id s) (hs_target s) (phase s) (detail s) (Some f) (host_key s).
Definition set_host_key (k : string) (s : HostStatus) : HostStatus :=
  mk_status (hs_host_id s) (hs_target s) (phase s) (detail s) (fingerprint s) (Some k).

Record DeployRun := mk_run { run_id : string; created_by : string; created_at : datetime; hosts : list HostStatus }.

Definition complete (r : DeployRun) : bool := forallb done (hosts r).

Record HostDeployRequest := mk_request {
  target : string; rq_port : Z; credential : SshCredential; spec : BundleSpec; expected_host_key : option string; remote_dir : string;
}.

Record PreflightReport := mk_report {
  rp_target : string; reachable : bool; docker_present : bool; proxy_reachable : bool; host_key_fingerprint : string; notes : list string;
}.

Definition report_ok (r : PreflightReport) : bool := reachable r && docker_present r && proxy_reachable r.

(** *** The session *)

Inductive call :=
| Connect (host : string) (port : Z) (c : SshCredential) (expected : option string)
| Run (command : string) (sudo : bool)
| WriteFile (remote_path content : string) (mode : Z)
| UploadFile (local remote : string) (mode : Z)
| Mint (cn : string) (days : Z)
| Close.

Record dstate := mk_dstate { log : list call; status : HostStatus }.

Definition M (A : Type) : Type := dstate → result failure A * dstate.

#[export] Instance M_ret : MRet M := λ A a s, (Ok a, s).
#[export] Instance M_bind : MBind M := λ A B f m s,
  match m s with (Ok a, s) => f a s | (Err e, s) => (Err e, s) end.

Definition raise {A} (e : failure) : M A := λ s, (Err e, s).
Definition raise_when (b : bool) (m : string) : M () := λ s, if b then (Err (Deployment m), s) else (Ok (), s).
Definition update (f : HostStatus → HostStatus) : M () := λ s, (Ok (), mk_dstate (log s) (f (status s))).

(** [try: m finally: fin]. *)
Definition try_finally {A} (m : M A) (fin : M ()) : M A := λ s,
  let '(r, s) := m s in match fin s with (Ok _, s) => (r, s) | (Err e, s) => (Err e, s) end.

Definition or_else (a b : string) : string := if bool_decide (a = "") then b else a.

Definition said (r : CommandResult) : string := or_else (strip (stderr r)) (strip (stdout r)).

Section Engine.
(** What the target answers after these calls, the last of which is the one it answers; and what the CA makes. *)
Context (a_connect : list call → result failure string) (a_run : list call → result failure CommandResult)
        (a_unit : list call → result failure ()) (a_mint : list call → result failure MintedCert).
Context (cert_days : Z) (image_archive_path : option string).

Definition ask {A} (answer : list call → result failure A) (c : call) : M A := λ s,
  let l := log s ++ [c] in (answer l, mk_dstate l (status s)).

Definition run (command : string) (sudo : bool) : M CommandResult := ask a_run (Run command sudo).

(** [CertificateAuthority.mint_client_cert]: the certificate is the library's. *)
Definition mint_client_cert (cn : string) (days : Z) : M MintedCert :=
  if (64 <? String.length cn)%nat then raise (Deployment "certificate CN too long") else ask a_mint (Mint cn days).

Definition docker_version : call := Run "docker --version" false.
Definition proxy_test (host : string) (port : Z) : call :=
  Run ("timeout 5 bash -c '</dev/tcp/" +:+ host +:+ "/" +:+ pretty port +:+ "'") false.

(** [DeployEngine.preflight]. *)
Definition preflight (target : string) (port : Z) (c : SshCredential) (proxy_host_ip : string) (proxy_port : Z) (expected : option string) : M PreflightReport :=
  match (_ ← validate c; validate_host_or_ip proxy_host_ip) with
  | Err m => raise (Deployment m)
  | Ok _ => λ s,
      match ask a_connect (Connect target port c expected) s with
      | (Err (Deployment m), s) => (Ok (mk_report target false false false "" [m]), s)
      | (Err e, s) => (Err e, s)
      | (Ok fp, s) =>
          try_finally
            (docker ← ask a_run docker_version;
             proxy ← ask a_run (proxy_test proxy_host_ip proxy_port);
             mret (mk_report target true (ok docker) (ok proxy) fp
               ((if ok docker then [] else ["docker not found on target"]) ++
                (if ok proxy then [] else ["target cannot reach proxy " +:+ proxy_host_ip +:+ ":" +:+ pretty proxy_port]))))
            (ask a_unit Close) s
      end
  end.

Definition _preflight_or_fail (q : HostDeployRequest) : M () :=
  _ ← update (set_phase PREFLIGHT);
  docker ← ask a_run docker_version;
  _ ← raise_when (negb (ok docker)) "docker not found on target";
  proxy ← ask a_run (proxy_test (proxy_host_ip (spec q)) 9443);
  raise_when (negb (ok proxy)) ("target cannot reach proxy " +:+ proxy_host_ip (spec q) +:+ ":9443").

Definition prepare (q : HostDeployRequest) : call :=
  Run ("mkdir -p " +:+ quote (remote_dir q) +:+ "/certs && chown -R " +:+ dq "$SUDO_USER" +:+ " " +:+ quote (remote_dir q)) true.

Definition file_mode (rel_path : string) : Z := if endswith "client.key" rel_path then 384 else 420.

Definition write_call (q : HostDeployRequest) (f : string * string) : call :=
  WriteFile (remote_dir q +:+ "/" +:+ f.1) f.2 (file_mode f.1).

Fixpoint write_files (q : HostDeployRequest) (files : AgentBundle) : M () :=
  match files with
  | [] => mret ()
  | f :: files => _ ← ask a_unit (write_call q f); write_files q files
  end.

Definition _mint_and_upload (q : HostDeployRequest) : M () :=
  _ ← update (set_phase MINTING);
  minted ← mint_client_cert (host_id (spec q) +:+ "-agent") cert_days;
  _ ← update (set_fingerprint (fingerprint_sha1 minted));
  let bundle := build_agent_bundle (spec q) minted in
  _ ← update (set_phase UPLOADING);
  prep ← ask a_run (prepare q);
  _ ← raise_when (negb (ok prep)) ("could not prepare " +:+ remote_dir q +:+ ": " +:+ said prep);
  write_files q bundle.

Definition inspect_image (q : HostDeployRequest) : call := Run ("docker image inspect " +:+ quote (image (spec q))) false.
Definition remote_archive (q : HostDeployRequest) : string := remote_dir q +:+ "/agent-image.tgz".
Definition load_image (q : HostDeployRequest) : call := Run ("docker load -i " +:+ quote (remote_archive q)) true.
Definition reclaim (q : HostDeployRequest) : call := Run ("rm -f " +:+ quote (remote_archive q)) false.

Definition _ensure_image (q : HostDeployRequest) : M () :=
  match image_archive_path with
  | None => mret ()
  | Some archive =>
      present ← ask a_run (inspect_image q);
      if ok present then mret () else
      _ ← update (set_phase LOADING_IMAGE);
      _ ← ask a_unit (UploadFile archive (remote_archive q) 420);
      load ← ask a_run (load_image q);
      _ ← ask a_run (reclaim q);
      raise_when (negb (ok load)) ("docker load failed: " +:+ said load)
  end.

Definition compose_up (q : HostDeployRequest) : call := Run ("cd " +:+ quote (remote_dir q) +:+ " && docker compose up -d agent") true.

Definition _compose_up (q : HostDeployRequest) : M () :=
  _ ← update (set_phase STARTING);
  r ← ask a_run (compose_up q);
  raise_when (negb (ok r)) ("compose up failed: " +:+ said r).

Definition inspect_agent (q : HostDeployRequest) : call :=
  Run ("docker inspect -f '{{.State.Status}}' " +:+ quote ("fathom-agent-" +:+ host_id (spec q))) true.

Definition _verify (q : HostDeployRequest) : M () :=
  _ ← update (set_phase VERIFYING);
  check ← ask a_run (inspect_agent q);
  raise_when (negb (ok check)) ("agent container was not created: " +:+ said check).

Definition session_body (q : HostDeployRequest) (fp : string) : M () :=
  _ ← update (set_host_key fp);
  _ ← _preflight_or_fail q;
  _ ← _mint_and_upload q;
  _ ← _ensure_image q;
  _ ← _compose_up q;
  _ ← _verify q;
  _ ← update (set_phase SUCCEEDED);
  update (set_detail "agent deployed").

Definition connect_call (q : HostDeployRequest) : call := Connect (target q) (rq_port q) (credential q) (expected_host_key q).

Definition _deploy_one_inner (q : HostDeployRequest) : M () :=
  match validate (credential q) with
  | Err m => raise (Deployment m)
  | Ok _ =>
      _ ← update (set_phase CONNECTING);
      fp ← ask a_connect (connect_call q);
      try_finally (session_body q fp) (ask a_unit Close)
  end.

Definition fail_with (d : string) : M () := _ ← update (set_phase FAILED); update (set_detail d).

Definition deploy_one (q : HostDeployRequest) : M () := λ s,
  match _deploy_one_inner q s with
  | (Err (Deployment m), s) => fail_with m s
  | (Err (Crash m), s) => fail_with ("unexpected error: " +:+ m) s
  | r => r
  end.
(** *** Laws *)

(** From [s], [m] makes the calls of [l] in order and stops early only when it fails; it does not report success; what its end means
    is [Q]. *)
Definition reach {A} (m : M A) (s : dstate) (l : list call) (Q : list call → A → Prop) : Prop :=
  ∃ k, (k ≤ length l)%nat ∧ log (m s).2 = log s ++ take k l ∧ phase (status (m s).2) ≠ SUCCEEDED ∧
    ∀ a, (m s).1 = Ok a → k = length l ∧ Q (log s) a.

Definition follows {A} (m : M A) (l : list call) (Q : list call → A → Prop) : Prop := ∀ s, phase (status s) ≠ SUCCEEDED → reach m s l Q.

Lemma follows_update f : (∀ st, phase st ≠ SUCCEEDED → phase (f st) ≠ SUCCEEDED) → follows (update f) [] (λ _ _, True).
Proof. intros Hf s Hs. exists 0%nat. cbn. rewrite app_nil_r. auto. Qed.

Lemma follows_ret {A} (a : A) : follows (mret a) [] (λ _ b, b = a).
Proof. intros s Hs. exists 0%nat. cbn. rewrite app_nil_r. split_and!; try done. by intros b [= ->]. Qed.

Lemma follows_raise_when b m : follows (raise_when b m) [] (λ _ _, b = false).
Proof. intros s Hs. exists 0%nat. unfold raise_when. destruct b; cbn; rewrite app_nil_r; by split_and!. Qed.

Lemma follows_ask {A} (answer : list call → result failure A) c : follows (ask answer c) [c] (λ h a, answer (h ++ [c]) = Ok a).
Proof. intros s Hs. exists 1%nat. cbn. auto. Qed.

Lemma reach_weaken {A} (m : M A) s l (Q Q' : list call → A → Prop) : reach m s l Q → (∀ a, Q (log s) a → Q' (log s) a) → reach m s l Q'.
Proof. intros (k & ? & ? & ? & Hok) HQ. exists k. naive_solver. Qed.

Lemma follows_weaken {A} (m : M A) l (Q Q' : list call → A → Prop) : follows m l Q → (∀ h a, Q h a → Q' h a) → follows m l Q'.
Proof. intros Hm HQ s Hs. eapply reach_weaken; [by apply Hm|]. intros a. apply HQ. Qed.

Lemma reach_bind {A B} (m : M A) (f : A → M B) s l1 l2 Q1 Q :
  reach m s l1 Q1 →
  (∀ a s', m s = (Ok a, s') → log s' = log s ++ l1 → phase (status s') ≠ SUCCEEDED → Q1 (log s) a → reach (f a) s' l2 (λ _ b, Q (log s) b)) →
  reach (m ≫= f) s (l1 ++ l2) Q.
Proof.
  intros (k & Hk & Hl & Hp & Hok) Hf. unfold reach, mbind, M_bind.
  destruct (m s) as [[a|e] s1]; cbn in *.
  - destruct (Hok a eq_refl) as [-> HQ]. rewrite firstn_all in Hl. destruct (Hf a s1 eq_refl Hl Hp HQ) as (j & Hj & Hl2 & Hp2 & Hok2).
    exists (length l1 + j)%nat. rewrite length_app. split; [lia|]. split; [by rewrite Hl2, Hl, <- app_assoc, take_app_add|].
    split; [done|]. intros b Hb. by destruct (Hok2 b Hb) as [-> HQ2].
  - exists k. rewrite length_app. split; [lia|]. split; [|done]. by rewrite take_app_le.
Qed.

Lemma follows_bind {A B} (m : M A) (f : A → M B) l1 l2 Q1 Q :
  follows m l1 Q1 → (∀ a, follows (f a) l2 (λ h b, ∀ h0, h = h0 ++ l1 → Q1 h0 a → Q h0 b)) → follows (m ≫= f) (l1 ++ l2) Q.
Proof.
  intros Hm Hf s Hs. eapply reach_bind; [by apply Hm|]. intros a s' _ Hl Hp HQ1. destruct (Hf a s' Hp) as (k & ? & ? & ? & Hok).
  exists k. split; [done|]. split; [done|]. split; [done|]. intros b Hb. destruct (Hok b Hb) as [? HQ]. split; [done|]. by apply HQ.
Qed.

Lemma follows_upd {B} g (f : () → M B) l Q :
  (∀ st, phase st ≠ SUCCEEDED → phase (g st) ≠ SUCCEEDED) → follows (f ()) l Q → follows (update g ≫= f) l Q.
Proof.
  intros Hg Hf. apply (follows_bind _ _ [] l (λ _ _, True)); [by apply follows_update|]. intros [].
  eapply follows_weaken; [exact Hf|]. intros h b HQ h0 -> _. by rewrite app_nil_r in HQ.
Qed.

(** A command was answered with a status of zero. *)
Definition passed (h : list call) (c : call) : Prop := ∃ r, a_run (h ++ [c]) = Ok r ∧ ok r = true.

Lemma follows_command c m : follows (r ← ask a_run c; raise_when (negb (ok r)) (m r)) [c] (λ h _, passed h c).
Proof.
  apply (follows_bind _ _ [c] [] _ _ (follows_ask a_run c)). intros r. eapply follows_weaken; [apply follows_raise_when|].
  intros h _ Hr%negb_false_iff h0 _ Ha. by exists r.
Qed.

Lemma follows_command_then {B} c m (f : CommandResult → M B) l Q :
  (∀ r, follows (f r) l (λ h b, ∀ h0, h = h0 ++ [c] → passed h0 c → Q h0 b)) →
  follows (r ← ask a_run c; _ ← raise_when (negb (ok r)) (m r); f r) (c :: l) Q.
Proof.
  intros Hf. apply (follows_bind _ _ [c] l _ _ (follows_ask a_run c)). intros r.
  apply (follows_bind _ _ [] l _ _ (follows_raise_when _ _)). intros []. eapply follows_weaken; [apply Hf|].
  intros h b HQ h1 -> Hr%negb_false_iff h0 -> Ha. rewrite app_nil_r in HQ. apply HQ; [done|]. by exists r.
Qed.

(** The stages of a deploy and the calls they make. *)
Definition preflight_calls (q : HostDeployRequest) : list call := [docker_version; proxy_test (proxy_host_ip (spec q)) 9443].
Definition mint_call (q : HostDeployRequest) : call := Mint (host_id (spec q) +:+ "-agent") cert_days.
Definition upload_calls (q : HostDeployRequest) (minted : MintedCert) : list call :=
  prepare q :: (write_call q <$> build_agent_bundle (spec q) minted).

Definition image_calls (q : HostDeployRequest) : list (list call) :=
  match image_archive_path with
  | None => [[]]
  | Some archive => [[inspect_image q]; [inspect_image q; UploadFile archive (remote_archive q) 420; load_image q; reclaim q]]
  end.

Definition preflight_passed (h : list call) (q : HostDeployRequest) : Prop :=
  passed h docker_version ∧ passed (h ++ [docker_version]) (proxy_test (proxy_host_ip (spec q)) 9443).

Lemma follows_preflight q : follows (_preflight_or_fail q) (preflight_calls q) (λ h _, preflight_passed h q).
Proof.
  apply follows_upd; [done|]. apply follows_command_then. intros r. eapply follows_weaken; [apply (follows_command _ (λ _, _))|].
  intros h _ Hp h0 -> Hd. by split.
Qed.

Lemma follows_writes q files : follows (write_files q files) (write_call q <$> files) (λ _ _, True).
Proof.
  induction files as [|f files IH]; [eapply follows_weaken; [apply follows_ret|done]|].
  apply (follows_bind _ _ [write_call q f] _ _ _ (follows_ask a_unit _)). intros []. by eapply follows_weaken; [apply IH|].
Qed.

(** The second half of [_mint_and_upload], once there is a certificate. *)
Definition upload (q : HostDeployRequest) (minted : MintedCert) : M () :=
  _ ← update (set_fingerprint (fingerprint_sha1 minted));
  _ ← update (set_phase UPLOADING);
  prep ← ask a_run (prepare q);
  _ ← raise_when (negb (ok prep)) ("could not prepare " +:+ remote_dir q +:+ ": " +:+ said prep);
  write_files q (build_agent_bundle (spec q) minted).

Lemma follows_upload q minted : follows (upload q minted) (upload_calls q minted) (λ h _, passed h (prepare q)).
Proof.
  apply follows_upd; [done|]. apply follows_upd; [done|]. apply (follows_command_then _ (λ prep, _)). intros r.
  eapply follows_weaken; [apply follows_writes|]. by intros h _ _ h0 _.
Qed.

Lemma follows_compose q : follows (_compose_up q) [compose_up q] (λ h _, passed h (compose_up q)).
Proof. apply follows_upd; [done|]. apply follows_command. Qed.

Lemma follows_verify q : follows (_verify q) [inspect_agent q] (λ h _, passed h (inspect_agent q)).
Proof. apply follows_upd; [done|]. apply follows_command. Qed.
(** The image is on the target: it was there, or its archive was loaded. *)
Definition image_ready (h : list call) (q : HostDeployRequest) : Prop :=
  match image_archive_path with
  | None => True
  | Some archive => passed h (inspect_image q) ∨ passed (h ++ [inspect_image q; UploadFile archive (remote_archive q) 420]) (load_image q)
  end.

Lemma reach_image q s : phase (status s) ≠ SUCCEEDED → ∃ l, l ∈ image_calls q ∧ reach (_ensure_image q) s l (λ h _, image_ready h q).
Proof.
  intros Hs. unfold _ensure_image, image_calls, image_ready. destruct image_archive_path as [archive|].
  2: { exists []. split; [by left|]. eapply reach_weaken; [by apply follows_ret|done]. }
  destruct (a_run (log s ++ [inspect_image q])) as [r|e] eqn:Er.
  2: { exists [inspect_image q]. split; [by left|]. exists 1%nat. unfold ask, mbind, M_bind. cbn. rewrite Er. cbn. by split_and!. }
  destruct (ok r) eqn:Ek.
  - exists [inspect_image q]. split; [by left|]. apply (reach_bind _ _ _ [_] [] _ _ (follows_ask a_run _ s Hs)). intros r' s' _ Hl Hp Hr.
    rewrite Er in Hr. injection Hr as <-. rewrite Ek. eapply reach_weaken; [by apply follows_ret|]. intros _ _. left. by exists r.
  - eexists. split; [right; by left|]. apply (reach_bind _ _ _ [_] [_; _; _] _ _ (follows_ask a_run _ s Hs)). intros r' s' _ Hl Hp Hr.
    rewrite Er in Hr. injection Hr as <-. rewrite Ek. cbv beta.
    apply (reach_bind _ _ _ [] [_; _; _] (λ _ _, True)); [by apply follows_update|]. intros [] s1 _ Hl1 Hp1 _. rewrite app_nil_r in Hl1.
    apply (reach_bind _ _ _ [_] [_; _] _ _ (follows_ask a_unit _ s1 Hp1)). intros [] s2 _ Hl2 Hp2 _.
    apply (reach_bind _ _ _ [_] [_] _ _ (follows_ask a_run _ s2 Hp2)). intros load s3 _ Hl3 Hp3 Hload.
    apply (reach_bind _ _ _ [_] [] _ _ (follows_ask a_run _ s3 Hp3)). intros _r s4 _ Hl4 Hp4 _.
    eapply reach_weaken; [by apply follows_raise_when|]. intros _ Hok%negb_false_iff. right. exists load.
    rewrite Hl2, Hl1, Hl, <- !app_assoc in Hload. by rewrite <- app_assoc.
Qed.
(** Everything a deploy reports as done was answered so. *)
Definition installed (h : list call) (q : HostDeployRequest) (minted : MintedCert) (img : list call) : Prop :=
  let h1 := h ++ upload_calls q minted in
  passed h (prepare q) ∧ image_ready h1 q ∧ passed (h1 ++ img) (compose_up q) ∧ passed (h1 ++ img ++ [compose_up q]) (inspect_agent q).

Definition install (q : HostDeployRequest) (minted : MintedCert) : M () :=
  _ ← upload q minted; _ ← _ensure_image q; _ ← _compose_up q; _verify q.

Lemma image_calls_some q : ∃ l, l ∈ image_calls q.
Proof. unfold image_calls. destruct image_archive_path; eexists; by left. Qed.

Lemma reach_install q minted s : phase (status s) ≠ SUCCEEDED →
  ∃ img, img ∈ image_calls q ∧
    reach (install q minted) s (upload_calls q minted ++ img ++ [compose_up q; inspect_agent q]) (λ h _, installed h q minted img).
Proof.
  intros Hs. pose proof (follows_upload q minted s Hs) as Hu. unfold install.
  destruct (upload q minted s) as [[[]|e] s1] eqn:E.
  2: { destruct (image_calls_some q) as [img Himg]. exists img. split; [done|]. eapply reach_bind; [exact Hu|]. intros a s' H. congruence. }
  pose proof Hu as (k & _ & Hl & Hp & Hok). rewrite E in Hl, Hp, Hok. cbn [fst snd] in Hl, Hp, Hok.
  destruct (Hok () eq_refl) as [-> Hprep]. rewrite firstn_all in Hl. destruct (reach_image q s1 Hp) as (img & Himg & Hi).
  exists img. split; [done|]. eapply reach_bind; [exact Hu|]. intros [] s' H' _ _ _. assert (s' = s1) as -> by congruence.
  eapply reach_bind; [exact Hi|]. intros [] s2 _ Hl2 Hp2 Hready.
  apply (reach_bind _ _ _ [_] [_] _ _ (follows_compose q s2 Hp2)). intros [] s3 _ Hl3 Hp3 Hc.
  eapply reach_weaken; [by apply follows_verify|]. intros [] Hv. rewrite Hl in *. rewrite Hl2, <- app_assoc in Hc. 
  rewrite Hl3, Hl2, <- !app_assoc in Hv. unfold installed. rewrite <- !app_assoc. by split_and!.
Qed.

Lemma mint_and_upload_eq q :
  _mint_and_upload q = (_ ← update (set_phase MINTING); minted ← mint_client_cert (host_id (spec q) +:+ "-agent") cert_days; upload q minted).
Proof. reflexivity. Qed.

(** The calls of a session, for a certificate and what the image takes. *)
Definition script (q : HostDeployRequest) (minted : MintedCert) (img : list call) : list call :=
  preflight_calls q ++ mint_call q :: upload_calls q minted ++ img ++ [compose_up q; inspect_agent q].

(** How a session can end: after [k] calls of the script. *)
Definition session_spec (q : HostDeployRequest) (s : dstate) (r : result failure ()) (s' : dstate) : Prop :=
  ∃ minted img k, img ∈ image_calls q ∧ (k ≤ length (script q minted img))%nat ∧ log s' = log s ++ take k (script q minted img) ∧
    (2 < k → preflight_passed (log s) q)%nat ∧
    (3 < k → a_mint (log s ++ preflight_calls q ++ [mint_call q]) = Ok minted)%nat ∧
    (phase (status s') = SUCCEEDED ↔ r = Ok ()) ∧
    (r = Ok () → k = length (script q minted img) ∧ installed (log s ++ preflight_calls q ++ [mint_call q]) q minted img).

Lemma bind_assoc {A B C} (m : M A) (f : A → M B) (g : B → M C) s :
  ((m ≫= f : M B) ≫= g : M C) s = (m ≫= (λ a, f a ≫= g : M C) : M C) s.
Proof. unfold mbind, M_bind. by destruct (m s) as [[a|e] s1]. Qed.

Lemma bind_ext {A B} (m : M A) (f g : A → M B) s : (∀ a s', f a s' = g a s') → (m ≫= f : M B) s = (m ≫= g : M B) s.
Proof. intros H. unfold mbind, M_bind. destruct (m s) as [[a|e] s1]; [apply H|done]. Qed.

Definition finished : M () := _ ← update (set_phase SUCCEEDED); update (set_detail "agent deployed").

(** The body of a session, around what is done with the certificate. *)
Lemma session_body_eq q fp s :
  session_body q fp s =
    (_ ← update (set_host_key fp); _ ← _preflight_or_fail q; _ ← update (set_phase MINTING);
     minted ← mint_client_cert (host_id (spec q) +:+ "-agent") cert_days; _ ← install q minted; finished : M ()) s.
Proof.
  unfold session_body, install. apply bind_ext. intros _ s1. apply bind_ext. intros _ s2. rewrite mint_and_upload_eq.
  rewrite bind_assoc. apply bind_ext. intros _ s3. rewrite bind_assoc. apply bind_ext. intros minted s4.
  rewrite bind_assoc. apply bind_ext. intros _ s5. rewrite bind_assoc. apply bind_ext. intros _ s6. by rewrite bind_assoc.
Qed.

Lemma upd_run {B} g (f : () → M B) s : (update g ≫= f : M B) s = f () (mk_dstate (log s) (g (status s))).
Proof. reflexivity. Qed.

Lemma session_ok {A B} (m : M A) (f : A → M B) s a s1 : m s = (Ok a, s1) → (m ≫= f : M B) s = f a s1.
Proof. unfold mbind, M_bind. by intros ->. Qed.

Lemma session_err {A B} (m : M A) (f : A → M B) s e s1 : m s = (Err e, s1) → (m ≫= f : M B) s = (Err e, s1).
Proof. unfold mbind, M_bind. by intros ->. Qed.

Lemma session_body_spec q fp s : phase (status s) ≠ SUCCEEDED → session_spec q s (session_body q fp s).1 (session_body q fp s).2.
Proof.
  intros Hs. rewrite session_body_eq, upd_run. set (s0 := mk_dstate _ _).
  destruct (follows_preflight q s0 Hs) as (k & Hk & Hl & Hp & Hok). change (log s0) with (log s) in *.
  destruct (image_calls_some q) as [img0 Hi0].
  assert (∀ e s', phase (status s') ≠ SUCCEEDED → ∀ minted j, (j ≤ 3)%nat → log s' = log s ++ take j (script q minted img0) →
    (2 < j → preflight_passed (log s) q)%nat → session_spec q s (Err e) s') as Hearly.
  { intros e s' Hp' minted j Hj Hl' Hpre. exists minted, img0, j. split; [done|]. unfold script. rewrite length_app. cbn [length preflight_calls].
    split; [lia|]. split; [done|]. split; [done|]. split; [lia|]. split; [by split|done]. }
  destruct (_preflight_or_fail q s0) as [[[]|e] s1] eqn:E1; cbn [fst snd] in *.
  2: { rewrite (session_err _ _ _ _ _ E1). eapply (Hearly e s1 Hp (mk_minted "" "" "" "" "") k); [cbn in Hk; lia| |cbn in Hk; lia].
       unfold script. by rewrite take_app_le. }
  destruct (Hok () eq_refl) as [-> Hpre]. rewrite firstn_all in Hl. rewrite (session_ok _ _ _ _ _ E1), upd_run. set (s2 := mk_dstate _ _).
  assert (phase (status s2) ≠ SUCCEEDED) as Hp2 by done.
  unfold mint_client_cert. destruct (64 <? _)%nat.
  { rewrite (session_err (raise _) _ s2 (Deployment "certificate CN too long") s2 eq_refl).
    apply (Hearly _ s2 Hp2 (mk_minted "" "" "" "" "") 2%nat); [lia|exact Hl|lia]. }
  set (s3 := mk_dstate (log s2 ++ [mint_call q]) (status s2)).
  destruct (a_mint (log s2 ++ [mint_call q])) as [minted|e] eqn:Em.
  2: { erewrite session_err; [|unfold ask; fold (mint_call q); rewrite Em; reflexivity]. apply (Hearly _ s3 Hp2 (mk_minted "" "" "" "" "") 3%nat);
       [lia| |done]. cbn. by rewrite Hl, <- app_assoc. }
  erewrite session_ok; [|unfold ask; fold (mint_call q); rewrite Em; reflexivity]. fold s3.
  assert (log s3 = log s ++ preflight_calls q ++ [mint_call q]) as Hl3 by (cbn; by rewrite Hl, <- app_assoc).
  destruct (reach_install q minted s3 Hp2) as (img & Himg & k & Hk3 & Hlk & Hpk & Hokk). clear Hearly.
  assert (log (install q minted s3).2 = log s ++ take (3 + k) (script q minted img)) as Hfull by by rewrite Hlk, Hl3, <- !app_assoc.
  assert (a_mint (log s ++ preflight_calls q ++ [mint_call q]) = Ok minted) as Hm by by rewrite <- Hl3.
  assert (3 + k ≤ length (script q minted img))%nat as Hlen by (unfold script; rewrite length_app; cbn [length preflight_calls]; lia).
  destruct (install q minted s3) as [[[]|e] s4] eqn:E4; cbn [fst snd] in *.
  - rewrite (session_ok _ _ _ _ _ E4). destruct (Hokk () eq_refl) as [-> Hin]. rewrite Hl3 in Hin. exists minted, img, (3 + length (upload_calls q minted ++ img ++ [compose_up q; inspect_agent q]))%nat.
    split; [done|]. split; [done|]. split; [exact Hfull|]. split; [done|]. split; [done|]. split; [by split|]. intros _. split; [|done].
    unfold script. rewrite (length_app (preflight_calls q)). reflexivity.
  - rewrite (session_err _ _ _ _ _ E4). exists minted, img, (3 + k)%nat. split; [done|]. split; [done|]. split; [exact Hfull|]. by split_and!.
Qed.
(** What a deploy has sent when it is over: an initial part of the script, and the whole of it if it succeeded. *)
Definition sent_calls (q : HostDeployRequest) (l : list call) (success : Prop) : Prop :=
  l = [] ∧ ¬ success ∨
  l = [connect_call q] ∧ ¬ success ∧ (∀ fp, a_connect [connect_call q] ≠ Ok fp) ∨
  ∃ minted img k, img ∈ image_calls q ∧ (k ≤ length (script q minted img))%nat ∧
    l = connect_call q :: take k (script q minted img) ++ [Close] ∧
    (2 < k → preflight_passed [connect_call q] q)%nat ∧
    (3 < k → a_mint (connect_call q :: preflight_calls q ++ [mint_call q]) = Ok minted)%nat ∧
    (success → k = length (script q minted img) ∧ installed (connect_call q :: preflight_calls q ++ [mint_call q]) q minted img).

Lemma sent_calls_impl q l (P Q : Prop) : sent_calls q l P → (Q → P) → sent_calls q l Q.
Proof.
  intros [[-> H]|[(-> & H & Hc)|(minted & img & k & ? & ? & ? & ? & ? & H)]] HQ.
  - left. tauto.
  - right. left. tauto.
  - right. right. exists minted, img, k. tauto.
Qed.

Definition pending (host target : string) : dstate := mk_dstate [] (mk_status host target PENDING "" None None).

Lemma inner_spec q host target r s' :
  _deploy_one_inner q (pending host target) = (r, s') →
  sent_calls q (log s') (phase (status s') = SUCCEEDED) ∧ (r = Ok () → phase (status s') = SUCCEEDED).
Proof.
  unfold _deploy_one_inner. destruct (validate (credential q)) as [?|m].
  2: { cbn. intros [= <- <-]. split; [by left|done]. }
  rewrite upd_run. set (s0 := mk_dstate _ _). destruct (a_connect [connect_call q]) as [fp|e] eqn:Ec.
  2: { erewrite (session_err _ _ s0); [|unfold ask; cbn; rewrite Ec; reflexivity]. intros [= <- <-]. split; [|done].
       right. left. cbn. split_and!; [done..|]. intros fp. by rewrite Ec. }
  erewrite (session_ok _ _ s0); [|unfold ask; cbn; rewrite Ec; reflexivity]. set (s1 := mk_dstate _ _).
  unfold try_finally. pose proof (session_body_spec q fp s1) as Hb. destruct (session_body q fp s1) as [rb s2].
  destruct Hb as (minted & img & k & Himg & Hk & Hl & Hpre & Hm & Hph & Hok); [done|]. cbn [fst snd] in *.
  unfold ask. intros Hr. assert (log s' = log s2 ++ [Close] ∧ status s' = status s2 ∧ (r = Ok () → rb = Ok ())) as (Hlog & -> & Hrb).
  { destruct (a_unit _); injection Hr as <- <-; by split_and!. }
  split; [|by rewrite Hph]. right. right. exists minted, img, k. rewrite Hlog, Hl. rewrite Hph. by split_and!.
Qed.

(** The deploy of one host always ends in a terminal phase or with its task cancelled, and what it sent is an initial part of the
    script, then the close of the session, exactly once: nothing is changed on the target and no certificate is made before docker
    and the proxy were found there, the files written are the bundle's with the private key alone under mode 0600, and it reports
    success only after the whole script, with every command it depends on answered by a status of zero. *)
Theorem deploy_one_follows_script q host target r s' :
  deploy_one q (pending host target) = (r, s') →
  (r = Ok () ∧ done (status s') = true ∨ r = Err Cancelled) ∧ sent_calls q (log s') (phase (status s') = SUCCEEDED).
Proof.
  unfold deploy_one. destruct (_deploy_one_inner q _) as [ri si] eqn:E. apply inner_spec in E as [Hl Hs].
  destruct ri as [[]|[m|m|]].
  - intros [= <- <-]. split; [|done]. left. split; [done|]. unfold done. rewrite Hs by done. done.
  - intros [= <- <-]. split; [by left|]. by eapply sent_calls_impl; [exact Hl|].
  - intros [= <- <-]. split; [by left|]. by eapply sent_calls_impl; [exact Hl|].
  - intros [= <- <-]. split; [by right|done].
Qed.
End Engine.

(** The private key is the one file under mode 0600. *)
Lemma file_modes s m : (λ f, (f.1, file_mode f.1)) <$> build_agent_bundle s m =
  [("agent.config.yaml", 420); ("docker-compose.yml", 420); ("certs/client.crt", 420); ("certs/client.key", 384); ("certs/fathom-ca.crt", 420)].
Proof. reflexivity. Qed.

(** *** The batch *)

(** What one target and the CA answer. *)
Record Answers := mk_answers {
  an_connect : list call → result failure string; an_run : list call → result failure CommandResult;
  an_unit : list call → result failure (); an_mint : list call → result failure MintedCert;
}.

Definition deploy_host (cert_days : Z) (archive : option string) (a : Answers) (q : HostDeployRequest) (st : HostStatus)
    : result failure () * HostStatus :=
  let '(r, s) := deploy_one (an_connect a) (an_run a) (an_unit a) (an_mint a) cert_days archive q (mk_dstate [] st) in (r, status s).

Definition cancelled (r : result failure ()) : bool := match r with Err _ => true | Ok _ => false end.

(** [DeployEngine.deploy_batch]: the hosts share nothing but the CA, so the order in which the semaphore lets them through is not
    seen in their statuses; [zip] is strict. *)
Definition deploy_batch (cert_days : Z) (archive : option string) (env : list Answers) (requests : list HostDeployRequest) (r : DeployRun)
    : result failure () * DeployRun :=
  if negb (bool_decide (length requests = length (hosts r))) then (Err (Crash "zip() arguments differ in length"), r) else
  let out := zip_with (λ aq st, deploy_host cert_days archive aq.1 aq.2 st) (zip env requests) (hosts r) in
  ((if existsb (λ o, cancelled o.1) out then Err Cancelled else Ok ()),
   mk_run (run_id r) (created_by r) (created_at r) out.*2).

(** A batch that is not cancelled leaves a complete run, whatever the targets did. *)
Lemma batch_completes cert_days archive env requests r r' :
  length env = length requests → Forall (λ st, ∃ h t, st = mk_status h t PENDING "" None None) (hosts r) →
  deploy_batch cert_days archive env requests r = (Ok (), r') → complete r' = true ∧ run_id r' = run_id r ∧ length (hosts r') = length (hosts r).
Proof.
  intros Henv Hst. unfold deploy_batch. case_bool_decide as Hlen; [|done]. cbn [negb]. destruct (existsb _ _) eqn:Ex; [done|]. intros [= <-].
  split; [|split; [done|]].
  - unfold complete. cbn [hosts]. apply Is_true_true, forallb_True, Forall_fmap, Forall_lookup. intros i [o st'] Hi. cbn.
    assert (cancelled o = false) as Hc.
    { destruct (cancelled o) eqn:Hc; [|done]. exfalso. apply not_true_iff_false in Ex. apply Ex, existsb_exists. exists (o, st').
      split; [|done]. by apply list_elem_of_In, (list_elem_of_lookup_2 _ i). }
    apply lookup_zip_with_Some in Hi as ([a q] & st & E & _ & Hs). cbn in E. unfold deploy_host in E.
    rewrite Forall_lookup in Hst. destruct (Hst i st Hs) as (h & t & ->).
    destruct (deploy_one _ _ _ _ _ _ q _) as [r1 s1] eqn:Ed. injection E as -> ->.
    destruct (deploy_one_follows_script _ _ _ _ _ _ q h t r1 s1 Ed) as [[[_ Hd]| ->] _]; [by apply Is_true_true|done].
  - cbn [hosts]. rewrite length_fmap, length_zip_with, length_zip_with. lia.
Qed.

(** *** [DeployRunRegistry] *)

(** [while len(runs) > max: del] the first complete run, if any; a round per run is enough. *)
Fixpoint drop_first_complete (l : list (string * DeployRun)) : option (list (string * DeployRun)) :=
  match l with
  | [] => None
  | x :: l => if complete x.2 then Some l else (x ::.) <$> drop_first_complete l
  end.

Fixpoint evict_runs (fuel : nat) (max_runs : Z) (l : list (string * DeployRun)) : list (string * DeployRun) :=
  match fuel with
  | O => l
  | S fuel =>
      if max_runs <? Z.of_nat (length l) then
        match drop_first_complete l with Some l => evict_runs fuel max_runs l | None => l end
      else l
  end.

Definition create (max_runs : Z) (run : DeployRun) (runs : list (string * DeployRun)) : list (string * DeployRun) :=
  let runs := dict_set (run_id run) run runs in evict_runs (length runs) max_runs runs.

Definition get (run_id : string) (runs : list (string * DeployRun)) : option DeployRun := dict_get run_id runs.

Definition in_flight (x : string * DeployRun) : Prop := complete x.2 = false.

Lemma drop_first_spec l :
  match drop_first_complete l with
  | Some l' => ∃ pre x post, l = pre ++ x :: post ∧ Forall in_flight pre ∧ complete x.2 = true ∧ l' = pre ++ post
  | None => Forall in_flight l
  end.
Proof.
  induction l as [|x l IH]; cbn; [constructor|]. destruct (complete x.2) eqn:Ex.
  - exists [], x, l. by split_and!.
  - destruct (drop_first_complete l) as [l'|]; cbn.
    + destruct IH as (pre & y & post & -> & Hp & Hy & ->). exists (x :: pre), y, post. split_and!; [done|by constructor|done|done].
    + by constructor.
Qed.

Lemma evict_spec fuel max l : (length l ≤ fuel)%nat →
  ∃ pre post, l = pre ++ post ∧ evict_runs fuel max l = filter (λ x, complete x.2 = false) pre ++ post ∧
    (Z.of_nat (length (evict_runs fuel max l)) ≤ max ∨ Forall in_flight (evict_runs fuel max l)) ∧
    (Forall in_flight pre ∨ max ≤ Z.of_nat (length (evict_runs fuel max l))).
Proof.
  revert l. induction fuel as [|fuel IH]; intros l Hf; cbn.
  { destruct l; [|cbn in Hf; lia]. exists [], []. split_and!; try done; [right|left]; constructor. }
  destruct (Z.ltb_spec max (Z.of_nat (length l))) as [Hlt|Hle].
  2: { exists [], l. split_and!; try done; [by left|left; constructor]. }
  pose proof (drop_first_spec l) as Hd. destruct (drop_first_complete l) as [l'|].
  2: { exists [], l. split_and!; try done; [by right|left; constructor]. }
  destruct Hd as (pre & x & post & -> & Hp & Hx & ->). rewrite length_app in Hf, Hlt. cbn in Hf, Hlt.
  destruct (IH (pre ++ post)) as (a & b & Eab & Hev & Hlen & Hmin); [rewrite length_app; lia|]. rewrite Hev in *.
  assert (max ≤ Z.of_nat (length (filter (λ x, complete x.2 = false) a ++ b))) as Hm.
  { destruct Hmin as [Ha|Ha]; [|done]. rewrite filter_all by done. rewrite <- Eab, length_app. lia. }
  assert (∀ l, Forall in_flight l → filter (λ x, complete x.2 = false) l = l) as Hall by (intros l Hl; by apply filter_all).
  apply app_eq_inv in Eab as [(c & -> & ->)|(c & -> & ->)].
  - apply Forall_app in Hp as [Ha Hc]. rewrite (Hall a) in * by done. exists ((a ++ c) ++ [x]), post.
    split; [by rewrite <- !app_assoc|]. split; [|by auto]. rewrite filter_app, filter_cons, Hx, decide_False by done.
    rewrite Hall by by apply Forall_app. by rewrite filter_nil, app_nil_r, <- app_assoc.
  - exists (pre ++ x :: c), b. split; [by rewrite <- app_assoc|]. split; [|by auto].
    rewrite !filter_app, filter_cons, Hx, decide_False by done. done.
Qed.

(** What the eviction leaves of a registry: the runs in flight of a first part, and the rest. *)
Lemma create_spec max_runs run runs :
  NoDup runs.*1 →
  ∃ pre post, dict_set (run_id run) run runs = pre ++ post ∧
    create max_runs run runs = filter (λ x, complete x.2 = false) pre ++ post ∧
    (Z.of_nat (length (create max_runs run runs)) ≤ max_runs ∨ Forall in_flight (create max_runs run runs)) ∧
    (Forall in_flight pre ∨ max_runs ≤ Z.of_nat (length (create max_runs run runs))) ∧
    NoDup (create max_runs run runs).*1 ∧
    (∀ id r, complete r = false → dict_get id (dict_set (run_id run) run runs) = Some r → get id (create max_runs run runs) = Some r).
Proof.
  intros Hnd. unfold create. set (l := dict_set (run_id run) run runs).
  assert (NoDup l.*1) as Hl by by apply dict_set_NoDup.
  destruct (evict_spec (length l) max_runs l) as (pre & post & E & Hev & Hlen & Hmin); [done|]. exists pre, post. rewrite Hev in *.
  set (l' := filter (λ x, complete x.2 = false) pre ++ post) in *.
  assert (l' `sublist_of` l) as Hsub by (rewrite E; apply sublist_app; [apply sublist_filter|done]).
  assert (NoDup l'.*1) as Hl' by (eapply sublist_NoDup; [exact Hl|by apply fmap_sublist]).
  split_and!; try done. intros id r Hr Hg. apply dict_get_elem in Hg; [|done]. apply dict_get_elem; [done|]. rewrite E in Hg. unfold l'.
  apply elem_of_app in Hg as [Hg|Hg]; apply elem_of_app; [left|by right]. by apply list_elem_of_filter.
Qed.

Lemma create_keeps_new max_runs run runs : NoDup runs.*1 → complete run = false → get (run_id run) (create max_runs run runs) = Some run.
Proof.
  intros Hnd Hr. destruct (create_spec max_runs run runs Hnd) as (pre & post & _ & _ & _ & _ & _ & Hkeep). apply Hkeep; [done|].
  rewrite dict_get_set. by rewrite decide_True.
Qed.

(** Creating a run drops only complete runs, the oldest ones, and only as many as the bound asks for: a run in flight stays
    where the status poll finds it, and after the eviction the registry is within its bound or holds nothing but runs in flight. *)
Theorem registry_keeps_in_flight max_runs run runs :
  NoDup runs.*1 →
  ∃ pre post, dict_set (run_id run) run runs = pre ++ post ∧
    create max_runs run runs = filter (λ x, complete x.2 = false) pre ++ post ∧
    (Z.of_nat (length (create max_runs run runs)) ≤ max_runs ∨ Forall in_flight (create max_runs run runs)) ∧
    (Forall in_flight pre ∨ max_runs ≤ Z.of_nat (length (create max_runs run runs))) ∧
    NoDup (create max_runs run runs).*1 ∧
    (∀ id r, complete r = false → id ≠ run_id run → get id runs = Some r → get id (create max_runs run runs) = Some r) ∧
    (complete run = false → get (run_id run) (create max_runs run runs) = Some run).
Proof.
  intros Hnd. destruct (create_spec max_runs run runs Hnd) as (pre & post & H1 & H2 & H3 & H4 & H5 & Hkeep). exists pre, post.
  do 5 (split; [done|]). split; [|by apply create_keeps_new].
  intros id r Hr Hne Hg. apply Hkeep; [done|]. rewrite dict_get_set. by rewrite decide_False by congruence.
Qed.

(** ** Witnesses *)

Definition wit_minted : MintedCert := mk_minted "nas-agent" "KEY" "CRT" "CA" "ab12".
(** A target where the image is missing. *)
Definition wit_run (l : list call) : result failure CommandResult :=
  match last l with
  | Some (Run c false) => Ok (mk_command (if startswith "docker image inspect" c then 1 else 0) "" "")
  | _ => Ok (mk_command 0 "" "")
  end.
Definition wit_request : HostDeployRequest :=
  mk_request "10.0.0.7" 22 (mk_cred "ops" (Some "PEM") None None None None) (wit_spec "nas" [mk_mount "/scan/data" "/mnt/data" true] []) None
    "/opt/fathom-agent".
Definition wit_deploy : result failure () * dstate :=
  deploy_one (λ _, Ok "SHA256:k") wit_run (λ _, Ok ()) (λ _, Ok wit_minted) 825 (Some "/srv/agent.tgz") wit_request (pending "nas" "10.0.0.7").

Lemma deploy_one_follows_script_witness :
  phase (status wit_deploy.2) = SUCCEEDED ∧ length (log wit_deploy.2) = 17%nat ∧
  sent_calls (λ _, Ok "SHA256:k") wit_run (λ _, Ok wit_minted) 825 (Some "/srv/agent.tgz") wit_request (log wit_deploy.2)
    (phase (status wit_deploy.2) = SUCCEEDED).
Proof.
  split; [vm_compute; reflexivity|]. split; [vm_compute; reflexivity|].
  destruct (deploy_one_follows_script (λ _, Ok "SHA256:k") wit_run (λ _, Ok ()) (λ _, Ok wit_minted) 825 (Some "/srv/agent.tgz") wit_request
    "nas" "10.0.0.7" wit_deploy.1 wit_deploy.2 (surjective_pairing _)) as [_ H]. exact H.
Defined.

Definition wit_host (p : DeployPhase) : HostStatus := mk_status "nas" "10.0.0.7" p "" None None.
Definition wit_deploy_run (id : string) (p : DeployPhase) : string * DeployRun := (id, mk_run id "ann" (at_second 0) [wit_host p]).
Definition wit_registry : list (string * DeployRun) := [wit_deploy_run "r1" PENDING; wit_deploy_run "r2" SUCCEEDED; wit_deploy_run "r3" FAILED].

Lemma registry_keeps_in_flight_witness :
  (create 2 (wit_deploy_run "r4" PENDING).2 wit_registry).*1 = ["r1"; "r4"] ∧
  get "r4" (create 2 (wit_deploy_run "r4" PENDING).2 wit_registry) = Some (wit_deploy_run "r4" PENDING).2.
Proof.
  split; [vm_compute; reflexivity|].
  destruct (registry_keeps_in_flight 2 (wit_deploy_run "r4" PENDING).2 wit_registry) as (pre & post & _ & _ & _ & _ & _ & _ & H).
  - refine (bool_decide_unpack _ _); vm_compute; exact I.
  - apply H. reflexivity.
Defined.
