(* ===== verification/DeployRoutes.v ===== *)
(** The deployment routes ([src/fathom/api/routers/deployment.py]) and their runtime ([api/deploy_runtime.py]): the validation of a
    request, the push and its audit, and pull enrollment from the token to the bundle.

    A route gets what its dependencies resolved: the scope of the capability, the step-up check, the runtime if there is one.  The
    runtime is one process's, so it outlives a request; the tables are as they were after an error, except for what was
    committed before it.  An archive is the list of its members.  Messages leave out the value they quote. *)

From stdpp Require Import gmap pretty.
From S2P Require Import Prelude PyStr PyDict Json PyTime AuditLog AuditStore Rbac PreviewPull PreviewRoute PyInt PyUrl Bundle WinBundle Enroll Deploy.
From S2P Require Auth.

Local Open Scope Z_scope.


(** ** Validators *)

Section Urls.
Context (bracketed_host_ok nfkc_ok : string → bool).

(** The error of a validator is the text of its ValueError. *)
Definition _v_core_base_url (value : string) : result string string :=
  match urlsplit bracketed_host_ok nfkc_ok value with
  | None => Err "invalid core_base_url"
  | Some parsed =>
      match port (u_netloc parsed) with
      | None => Err "invalid core_base_url"
      | Some p =>
          _ ← raise_if (negb (bool_decide (u_scheme parsed ∈ ["http"; "https"]))) "core_base_url must be http:// or https://";
          match hostname (u_netloc parsed) with
          | None | Some "" => Err "core_base_url must include a host"
          | Some host =>
              _ ← validate_host_or_ip host;
              let host_part := if has_char ":" host then "[" +:+ host +:+ "]" else host in
              let netloc := match p with None => host_part | Some p => host_part +:+ ":" +:+ pretty p end in
              Ok (u_scheme parsed +:+ "://" +:+ netloc)
          end
      end
  end.
End Urls.

Definition _v_abs_dir (value : string) : result string string :=
  _ ← raise_if (negb (startswith "/" value) || s_any (any_of [nl; "013"; "000"]%char) value) "remote_dir must be an absolute path";
  _ ← raise_if (bool_decide (".." ∈ split_char "/" value)) "remote_dir must not contain '..'";
  Ok value.

(** A validator of an optional field: None falls back to the server's setting later. *)
Definition opt_field {A} (v : A → result string A) (value : option A) : result string (option A) :=
  match value with None => Ok None | Some x => Some <$> v x end.

(** ** Settings *)

Record DeploySettings := mk_dsettings {
  agent_deployment_ingest_url : string; agent_deployment_image : string; agent_deployment_proxy_host_ip : option string;
  agent_deployment_core_base_url : option string; agent_deployment_image_archive_path : option string; agent_deployment_cert_days : Z;
}.

(** [value or setting]. *)
Definition first_of (value setting : option string) : option string := match truthy value with Some v => Some v | None => truthy setting end.

Definition as_422 {A} (r : result DeploymentError A) : reply A := match r with Ok a => Ok a | Err e => http 422 e end.

Definition _resolve_proxy_host_ip (settings : DeploySettings) (value : option string) : reply string :=
  match first_of value (agent_deployment_proxy_host_ip settings) with
  | None => http 422 "proxy_host_ip is required — pass it in the request or set FATHOM_AGENT_DEPLOYMENT_PROXY_HOST_IP"
  | Some resolved => as_422 (validate_host_or_ip resolved)
  end.

Definition _require_global (scope : ScopeFilter) : reply () :=
  if is_global scope then Ok () else http 403 "deploy_agent requires a global-scope grant".

(** ** Requests *)

(** The bounds of the request models: a mount, a remote target. *)
Definition mount_in_ok (m : ScopeMount) : bool := (1 <=? String.length (container_path m))%nat && (1 <=? String.length (host_path m))%nat.

Definition opt_len (n : nat) (o : option string) : bool := match o with None => true | Some s => (String.length s <=? n)%nat end.
Definition port_ok (p : Z) : bool := (1 <=? p) && (p <=? 65535).

Definition remote_in_ok (t : RemoteTargetSpec) : bool :=
  bool_decide (protocol t ∈ _REMOTE_PROTOCOLS) && length_within 1 255 (rt_host t) && length_within 1 4096 (remote_path t) &&
  opt_len 255 (share t) && match rt_port t with None => true | Some p => port_ok p end && opt_len 255 (rt_username t) &&
  opt_len 128 (password_ref t) && opt_len 128 (private_key_ref t).

Record PreflightRequest := mk_preflight {
  pf_target : string; pf_port : Z; pf_credential : SshCredential; pf_proxy_host_ip : option string; pf_expected_host_key : option string;
}.

Definition preflight_in_ok (b : PreflightRequest) : bool :=
  port_ok (pf_port b) && (1 <=? String.length (c_username (pf_credential b)))%nat && (1 <=? String.length (pf_target b))%nat &&
  is_ok (validate_host_or_ip (pf_target b)) && is_ok (opt_field validate_host_or_ip (pf_proxy_host_ip b)).

Record DeployHostIn := mk_dhost {
  dh_target : string; dh_port : Z; dh_host_id : string; dh_credential : SshCredential; dh_mounts : list ScopeMount;
  dh_remote_targets : list RemoteTargetSpec; dh_proxy_host_ip : option string; dh_expected_host_key : option string; dh_remote_dir : string;
}.

(** [_password_requires_pinned_host_key]. *)
Definition password_pinned (h : DeployHostIn) : bool :=
  negb (is_some (c_password (dh_credential h))) || is_some (truthy (dh_expected_host_key h)).

Definition deploy_host_in_ok (h : DeployHostIn) : bool :=
  port_ok (dh_port h) && (1 <=? String.length (c_username (dh_credential h)))%nat && forallb mount_in_ok (dh_mounts h) &&
  forallb remote_in_ok (dh_remote_targets h) && (length (dh_remote_targets h) <=? 64)%nat &&
  (1 <=? String.length (dh_target h))%nat && is_ok (validate_host_or_ip (dh_target h)) &&
  (1 <=? String.length (dh_host_id h))%nat && is_ok (validate_host_id (dh_host_id h)) &&
  is_ok (opt_field validate_host_or_ip (dh_proxy_host_ip h)) && is_ok (_v_abs_dir (dh_remote_dir h)) && password_pinned h.

Record EnrollRequest := mk_enroll {
  en_host_id : string; en_platform : string; en_mounts : list ScopeMount; en_remote_targets : list RemoteTargetSpec;
  en_windows_scan_paths : list string; en_windows_fullbit_paths : list string; en_proxy_host_ip : option string; en_core_base_url : option string;
}.

(** ** Specs *)

Definition _DEFAULT_MOUNTS : list ScopeMount := [mk_mount "/scan/data" "/mnt/data" true].

Definition _spec (settings : DeploySettings) (host_id : string) (ms : list ScopeMount) (proxy_host_ip : string) (rts : list RemoteTargetSpec)
    : reply BundleSpec :=
  as_422 (_ ← check_each remote_post_init rts;
          let resolved := if bool_decide (ms = []) && bool_decide (rts = []) then _DEFAULT_MOUNTS else ms in
          let s := mk_spec host_id (agent_deployment_ingest_url settings) (agent_deployment_image settings) resolved proxy_host_ip rts "3g" "4.0" in
          _ ← bundle_post_init s;
          Ok s).

Section Routes.
Context {B : Backend} (blake3_hex : string → string) (_hash_token : string → string).
Context (bracketed_host_ok nfkc_ok : string → bool).

(** A ValueError of the rewritten address is not mapped: a 500. *)
Definition _windows_spec (settings : DeploySettings) (host_id : string) (scan_paths fullbit_paths : list string) (proxy_host_ip : string)
    : reply WindowsBundleSpec :=
  match windows_ingest_url bracketed_host_ok nfkc_ok (agent_deployment_ingest_url settings) proxy_host_ip with
  | None => Err None
  | Some r =>
      as_422 (url ← r;
              let s := mk_wspec host_id url proxy_host_ip ((λ p, mk_scan p (bool_decide (p ∈ fullbit_paths))) <$> scan_paths)
                         _DEFAULT_INSTALL_DIR "02:30" in
              _ ← windows_post_init s;
              Ok s)
  end.

Definition _resolve_core_base_url (settings : DeploySettings) (value : option string) : reply string :=
  match first_of value (agent_deployment_core_base_url settings) with
  | None => http 422 "core_base_url is required — pass it in the request or set FATHOM_AGENT_DEPLOYMENT_CORE_BASE_URL"
  | Some resolved => match _v_core_base_url bracketed_host_ok nfkc_ok resolved with Ok u => Ok u | Err e => http 422 e end
  end.

(** The request model: its validators check the fields and rebuild the URL. *)
Definition enroll_body (b : EnrollRequest) : option EnrollRequest :=
  match opt_field (_v_core_base_url bracketed_host_ok nfkc_ok) (en_core_base_url b) with
  | Err _ => None
  | Ok url =>
      if bool_decide (en_platform b ∈ [PLATFORM_LINUX; PLATFORM_WINDOWS]) && forallb mount_in_ok (en_mounts b) &&
         forallb remote_in_ok (en_remote_targets b) && (length (en_remote_targets b) <=? 64)%nat &&
         (1 <=? String.length (en_host_id b))%nat && is_ok (validate_host_id (en_host_id b)) &&
         is_ok (opt_field validate_host_or_ip (en_proxy_host_ip b)) &&
         negb (bool_decide (en_platform b = PLATFORM_WINDOWS) && bool_decide (en_windows_scan_paths b = [])) &&
         forallb (λ p, bool_decide (p ∈ en_windows_scan_paths b)) (en_windows_fullbit_paths b)
      then Some (mk_enroll (en_host_id b) (en_platform b) (en_mounts b) (en_remote_targets b) (en_windows_scan_paths b)
                   (en_windows_fullbit_paths b) (en_proxy_host_ip b) url)
      else None
  end.

(** ** Pull enrollment *)

Definition not_provisioned {A} : reply A := http 503 "agent deployment runtime not provisioned (disabled or no CA material)".
Definition unprocessable_body {A} : reply A := http 422 "request validation".

Record EnrollOut := mk_eout { eo_host_id : string; eo_token : string; eo_command : string; eo_expires_at : string }.

(** The spec of an enrollment, and the URL of the command. *)
Definition enroll_spec (settings : DeploySettings) (b : EnrollRequest) : reply (string * (BundleSpec + WindowsBundleSpec)) :=
  proxy ← _resolve_proxy_host_ip settings (en_proxy_host_ip b);
  url ← _resolve_core_base_url settings (en_core_base_url b);
  if bool_decide (en_platform b = PLATFORM_WINDOWS)
  then s ← _windows_spec settings (en_host_id b) (en_windows_scan_paths b) (en_windows_fullbit_paths b) proxy; Ok (url, inr s)
  else s ← _spec settings (en_host_id b) (en_mounts b) proxy (en_remote_targets b); Ok (url, inl s).

Definition enroll_command (settings : DeploySettings) (url token : string) (spec : BundleSpec + WindowsBundleSpec) : string :=
  match spec with
  | inr w => windows_powershell_bootstrap url token (install_dir w)
  | inl s => bootstrap_command url token (image s) (is_some (truthy (agent_deployment_image_archive_path settings)))
  end.

(** [enroll_route]: the reply, the registry and the audit.  The session's rows go when the append fails. *)
Definition enroll_route (scope : ScopeFilter) (mfa : result HTTPException ()) (principal : Principal) (settings : DeploySettings)
    (runtime : option EnrollmentRegistry) (b : EnrollRequest) (raw : string) (now now' : datetime) (clock : nat → datetime)
    (others : nat → audit_db → audit_db) (d : audit_db) : reply EnrollOut * option EnrollmentRegistry * audit_db :=
  match (_ ← match mfa with Ok _ => Ok () | Err e => Err (Some e) end;
         b ← match enroll_body b with Some b => Ok b | None => unprocessable_body end;
         _ ← _require_global scope;
         reg ← match runtime with Some reg => Ok reg | None => not_provisioned end;
         us ← enroll_spec settings b; Ok (b, reg, us)) with
  | Err e => (Err e, runtime, d)
  | Ok (b, reg, (url, spec)) =>
      match issue _hash_token (en_host_id b) spec (en_platform b) raw now now' reg with
      | (Err e, reg) => (http 429 e, Some reg, d)
      | (Ok (token, expires), reg) =>
          let command := enroll_command settings url token spec in
          match append_durable blake3_hex clock (subject principal) "deployment.enroll.issued" (en_host_id b)
                  [("expires_at", JStr (isoformat expires)); ("platform", JStr (en_platform b))] "issued" others d with
          | (Err _, d) => (Err None, Some reg, d)
          | (Ok _, d) => (Ok (mk_eout (en_host_id b) token command (isoformat expires)), Some reg, d)
          end
      end
  end.

Definition _bearer_token (authorization : option string) : reply string :=
  let '(scheme, _, token) := PyUrl.partition " " (default "" authorization) in
  if negb (bool_decide (lower scheme = "bearer")) || bool_decide (strip token = "") then http 403 "missing enrollment token"
  else Ok (strip token).

(** [is_file]: whether the archive of the settings is a file. *)
Definition enroll_image_route (settings : DeploySettings) (is_file : string → bool) (authorization : option string)
    (runtime : option EnrollmentRegistry) (now : datetime) : reply string * option EnrollmentRegistry :=
  match (token ← _bearer_token authorization; reg ← match runtime with Some reg => Ok reg | None => not_provisioned end; Ok (token, reg)) with
  | Err e => (Err e, runtime)
  | Ok (token, reg) =>
      match verify _hash_token token now reg with
      | (Err e, reg) => (http 403 e, Some reg)
      | (Ok _, reg) =>
          match truthy (agent_deployment_image_archive_path settings) with
          | Some archive => (if is_file archive then Ok archive else http 404 "no agent image archive configured", Some reg)
          | None => (http 404 "no agent image archive configured", Some reg)
          end
      end
  end.

(** The members of an archive, in the order of their names. *)
Definition _tar_gz (files : AgentBundle) : list (string * Z * string) :=
  (λ f, (f.1, file_mode f.1, f.2)) <$> stable_sort key_le files.
Definition _zip (files : AgentBundle) : list (string * string) := stable_sort key_le files.

Inductive Archive := TarGz (members : list (string * Z * string)) | Zip (members : list (string * string)).

Definition spec_host_id (s : BundleSpec + WindowsBundleSpec) : string := match s with inl s => host_id s | inr s => w_host_id s end.

Definition bundle_archive (spec : BundleSpec + WindowsBundleSpec) (minted : MintedCert) : Archive :=
  match spec with
  | inr s => Zip (_zip (build_windows_agent_bundle s minted))
  | inl s => TarGz (_tar_gz (build_agent_bundle s minted))
  end.

(** [mint]: the certificate of a name, which may fail; no failure after the redemption is mapped, and the token is spent. *)
Definition enroll_bundle_route (settings : DeploySettings) (mint : string → Z → option MintedCert) (authorization : option string)
    (runtime : option EnrollmentRegistry) (now : datetime) (clock : nat → datetime) (others : nat → audit_db → audit_db) (d : audit_db)
    : reply Archive * option EnrollmentRegistry * audit_db :=
  match (token ← _bearer_token authorization; reg ← match runtime with Some reg => Ok reg | None => not_provisioned end; Ok (token, reg)) with
  | Err e => (Err e, runtime, d)
  | Ok (token, reg) =>
      match redeem _hash_token token now reg with
      | (Err e, reg) => (http 403 e, Some reg, d)
      | (Ok grant, reg) =>
          match mint (spec_host_id (g_spec grant) +:+ "-agent") (agent_deployment_cert_days settings) with
          | None => (Err None, Some reg, d)
          | Some minted =>
              let body := bundle_archive (g_spec grant) minted in
              match append_durable blake3_hex clock ("enroll:" +:+ spec_host_id (g_spec grant)) "deployment.enroll.redeemed"
                      (spec_host_id (g_spec grant)) [("fingerprint", JStr (fingerprint_sha1 minted))] "bundle_served" others d with
              | (Err _, d) => (Err None, Some reg, d)
              | (Ok _, d) => (Ok body, Some reg, d)
              end
          end
      end
  end.

(** ** Push deploys *)

(** The request of one host; a credential that does not validate is a 422. *)
Definition host_request (settings : DeploySettings) (h : DeployHostIn) : reply HostDeployRequest :=
  proxy ← _resolve_proxy_host_ip settings (dh_proxy_host_ip h);
  s ← _spec settings (dh_host_id h) (dh_mounts h) proxy (dh_remote_targets h);
  _ ← as_422 (validate (dh_credential h));
  Ok (mk_request (dh_target h) (dh_port h) (dh_credential h) s (dh_expected_host_key h) (dh_remote_dir h)).

Fixpoint host_requests (settings : DeploySettings) (hs : list DeployHostIn) : reply (list HostDeployRequest) :=
  match hs with
  | [] => Ok []
  | h :: hs => q ← host_request settings h; qs ← host_requests settings hs; Ok (q :: qs)
  end.

Notation run_registry := (list (string * DeployRun)).

(** [deploy_route] up to its reply: the run, the requests that are scheduled, the registry and the audit. *)
Definition deploy_route (scope : ScopeFilter) (mfa : result HTTPException ()) (principal : Principal) (settings : DeploySettings)
    (runtime : option run_registry) (max_runs : Z) (body : list DeployHostIn) (id : string) (now : datetime) (clock : nat → datetime)
    (others : nat → audit_db → audit_db) (d : audit_db)
    : reply (DeployRun * list HostDeployRequest) * option run_registry * audit_db :=
  match (_ ← match mfa with Ok _ => Ok () | Err e => Err (Some e) end;
         _ ← (if (1 <=? length body)%nat && (length body <=? 64)%nat && forallb deploy_host_in_ok body then Ok () else unprocessable_body);
         _ ← _require_global scope;
         runs ← match runtime with Some runs => Ok runs | None => not_provisioned end;
         qs ← host_requests settings body; Ok (runs, qs)) with
  | Err e => (Err e, runtime, d)
  | Ok (runs, qs) =>
      let run := mk_run id (subject principal) now ((λ h, mk_status (dh_host_id h) (dh_target h) PENDING "" None None) <$> body) in
      let runs := create max_runs run runs in
      match append_durable blake3_hex clock (subject principal) "deployment.initiated" id
              [("hosts", JList ((λ h, JObj [("host_id", JStr (dh_host_id h)); ("target", JStr (dh_target h))]) <$> body))] "queued" others d with
      | (Err _, d) => (Err None, Some runs, d)
      | (Ok _, d) => (Ok (run, qs), Some runs, d)
      end
  end.

Definition result_before (h : HostStatus) : pydict :=
  [("target", JStr (hs_target h)); ("fingerprint", match fingerprint h with Some f => JStr f | None => JNull end); ("detail", JStr (detail h))].

(** The rows of the hosts of a run: the first append that fails ends it. *)
Fixpoint record_results (created_by : string) (clock : nat → nat → datetime) (others : nat → nat → audit_db → audit_db) (hs : list HostStatus)
    (d : audit_db) : result string () * audit_db :=
  match hs with
  | [] => (Ok (), d)
  | h :: hs =>
      let n := length hs in
      match append_durable blake3_hex (clock n) created_by "deployment.host.result" (hs_host_id h) (result_before h) (phase_value (phase h))
              (others n) d with
      | (Err e, d) => (Err e, d)
      | (Ok _, d) => record_results created_by clock others hs d
      end
  end.

(** [_deploy_and_audit]: the rows are written whether the batch returned or raised; they are one transaction, so after an append that
    fails the audit is back to what it was, the rows of others aside. *)
Definition _deploy_and_audit (cert_days : Z) (archive : option string) (env : list Answers) (r : DeployRun) (requests : list HostDeployRequest)
    (created_by : string) (clock : nat → nat → datetime) (others : nat → nat → audit_db → audit_db) (d : audit_db)
    : result failure () * DeployRun * audit_db :=
  let '(res, r) := deploy_batch cert_days archive env requests r in
  match record_results created_by clock others (hosts r) d with
  | (Ok _, d') => (res, r, d')
  | (Err e, _) => (Err (Crash e), r, d)
  end.

Definition run_status_route (scope : ScopeFilter) (runtime : option run_registry) (id : string) : reply DeployRun :=
  _ ← _require_global scope;
  runs ← match runtime with Some runs => Ok runs | None => not_provisioned end;
  match Deploy.get id runs with None => http 404 "deploy run not found" | Some r => Ok r end.

(** [preflight_route]; a failure of the session that is not a DeploymentError of the connect is not mapped. *)
Definition preflight_route (a : Answers) (scope : ScopeFilter) (settings : DeploySettings) (provisioned : bool) (b : PreflightRequest)
    : reply PreflightReport :=
  _ ← (if preflight_in_ok b then Ok () else unprocessable_body);
  _ ← _require_global scope;
  _ ← (if provisioned then Ok () else not_provisioned);
  _ ← as_422 (validate (pf_credential b));
  proxy ← _resolve_proxy_host_ip settings (pf_proxy_host_ip b);
  match (preflight (an_connect a) (an_run a) (an_unit a) (pf_target b) (pf_port b) (pf_credential b) proxy 9443 (pf_expected_host_key b)
           (mk_dstate [] (mk_status "" "" PENDING "" None None))).1 with
  | Ok report => Ok report
  | Err _ => Err None
  end.

(** ** Histories of pull enrollment *)

(** A request to the pull routes, with what its process reads and draws while it serves it. *)
Inductive request :=
| REnroll (e : Auth.env) (principal : Principal) (b : EnrollRequest) (raw : string) (now now' : datetime) (clock : nat → datetime)
    (others : nat → audit_db → audit_db)
| RImage (authorization : option string) (now : datetime) (is_file : string → bool)
| RBundle (authorization : option string) (now : datetime) (mint : string → Z → option MintedCert) (clock : nat → datetime)
    (others : nat → audit_db → audit_db).

Inductive response := PEnroll (r : reply EnrollOut) | PImage (r : reply string) | PBundle (r : reply Archive).

Definition respond (settings : DeploySettings) (q : request) (s : EnrollmentRegistry * audit_db) : response * (EnrollmentRegistry * audit_db) :=
  let '(reg, d) := s in
  match q with
  | REnroll e p b raw now now' clock others =>
      match Auth.require DEPLOY_AGENT p with
      | Err x => (PEnroll (Err (Some x)), (reg, d))
      | Ok scope =>
          let '(r, reg', d) := enroll_route scope (Auth.require_step_up_mfa e p) p settings (Some reg) b raw now now' clock others d in
          (PEnroll r, (default reg reg', d))
      end
  | RImage auth now is_file =>
      let '(r, reg') := enroll_image_route settings is_file auth (Some reg) now in (PImage r, (default reg reg', d))
  | RBundle auth now mint clock others =>
      let '(r, reg', d) := enroll_bundle_route settings mint auth (Some reg) now clock others d in (PBundle r, (default reg reg', d))
  end.

(** An operation of the registry, when the request makes one: why it was made, and what the response owes to it. *)
Definition explains (settings : DeploySettings) (q : request) (out : response) (op : eop * eout) : Prop :=
  match op with
  | (EIssue host spec platform raw now now', _) =>
      ∃ e p b b' clock others url, q = REnroll e p b raw now now' clock others ∧ enroll_body b = Some b' ∧
        Auth.require_step_up_mfa e p = Ok tt ∧ is_global (from_grants (Rbac.grants p) DEPLOY_AGENT) = true ∧
        enroll_spec settings b' = Ok (url, spec) ∧ host = en_host_id b' ∧ platform = en_platform b'
  | (ERedeem raw now, res) =>
      ∃ auth mint clock others, q = RBundle auth now mint clock others ∧ _bearer_token auth = Ok raw ∧
        ∀ a, out = PBundle (Ok a) → ∃ g minted, res = OGrant g ∧
          mint (spec_host_id (g_spec g) +:+ "-agent") (agent_deployment_cert_days settings) = Some minted ∧ a = bundle_archive (g_spec g) minted
  | (EVerify raw now, _) => ∃ auth is_file, q = RImage auth now is_file ∧ _bearer_token auth = Ok raw
  | (EPending _, _) => False
  end.

(** The requests since the start, with their responses. *)
Inductive served (settings : DeploySettings) (ttl max : Z) (d0 : audit_db) : list (request * response) → EnrollmentRegistry * audit_db → Prop :=
| served_start : served settings ttl max d0 [] (mk_registry ttl max [], d0)
| served_step t s q out s' : served settings ttl max d0 t s → respond settings q s = (out, s') → served settings ttl max d0 (t ++ [(q, out)]) s'.

#[local] Arguments append_durable : simpl never.
#[local] Arguments enroll_spec : simpl never.

(** Every request is one of the two. *)
Lemma respond_explained settings q s out s' : respond settings q s = (out, s') →
  (∃ op res, estep _hash_token op s.1 = (res, s'.1) ∧ explains settings q out (op, res)) ∨
  (s'.1 = s.1 ∧ ∀ a, out ≠ PBundle (Ok a)).
Proof.
  destruct s as [reg d]. destruct q as [e p b raw now now' clock others|auth now is_file|auth now mint clock others]; cbn.
  - unfold Auth.require. destruct (has_capability p DEPLOY_AGENT); cbn; [|intros [= <- <-]; by right].
    destruct (is_empty _); [intros [= <- <-]; by right|]. unfold enroll_route.
    destruct (Auth.require_step_up_mfa e p) as [[]|x] eqn:Em; cbn; [|intros [= <- <-]; by right].
    destruct (enroll_body b) as [b'|] eqn:Eb; cbn; [|intros [= <- <-]; by right].
    unfold _require_global. destruct (is_global _) eqn:Eg; cbn; [|intros [= <- <-]; by right].
    destruct (enroll_spec settings b') as [[url spec]|] eqn:Es; cbn; [|intros [= <- <-]; by right].
    intros H. left. exists (EIssue (en_host_id b') spec (en_platform b') raw now now'). cbn.
    destruct (issue _ _ _ _ _ _ _ reg) as [[[t ex]|err] reg'].
    + eexists. split; [|by exists e, p, b, b', clock, others, url]. f_equal. by destruct (append_durable blake3_hex _ _ _ _ _ _ _ _) as [[?|?] ?]; injection H as _ <-.
    + injection H as _ <-. eexists. split; [done|]. by exists e, p, b, b', clock, others, url.
  - unfold enroll_image_route. destruct (_bearer_token auth) as [tok|] eqn:Et; cbn; [|intros [= <- <-]; by right].
    intros H. left. exists (EVerify tok now). cbn. destruct (verify _ tok now reg) as [[g|err] reg'].
    + eexists. split; [|by exists auth, is_file]. f_equal. by destruct (truthy _); injection H as _ <-.
    + injection H as _ <-. eexists. split; [done|]. by exists auth, is_file.
  - unfold enroll_bundle_route. destruct (_bearer_token auth) as [tok|] eqn:Et; cbn; [|intros [= <- <-]; by right].
    intros H. left. exists (ERedeem tok now). cbn. destruct (redeem _ tok now reg) as [[g|err] reg'].
    + exists (OGrant g). destruct (mint _ _) as [minted|] eqn:Emint.
      * destruct (append_durable blake3_hex _ _ _ _ _ _ _ _) as [[?|?] ?]; injection H as <- <-; (split; [done|]); exists auth, mint, clock, others;
          (split; [done|]); (split; [done|]); intros arch Ha; [injection Ha as <-; by exists g, minted|discriminate Ha].
      * injection H as <- <-. split; [done|]. exists auth, mint, clock, others. by split_and!.
    + injection H as <- <-. eexists. split; [done|]. exists auth, mint, clock, others. by split_and!.
Qed.

Definition accounted (settings : DeploySettings) (x : request * response * option (eop * eout)) : Prop :=
  match x.2 with
  | Some op => explains settings x.1.1 x.1.2 op
  | None => ∀ a, x.1.2 ≠ PBundle (Ok a)
  end.

(** The registry has served the operations the requests account for. *)
Lemma served_ops settings ttl max d0 t s : served settings ttl max d0 t s →
  ∃ l : list (request * response * option (eop * eout)), l.*1 = t ∧ eruns _hash_token ttl max (omap snd l) s.1 ∧ Forall (accounted settings) l.
Proof.
  induction 1 as [|t s q out s' _ (l & Hl & Hr & Ha) Hs]; [exists []; split_and!; constructor|].
  apply respond_explained in Hs as [(op & res & Hs & He)|[Hs Hn]].
  - exists (l ++ [(q, out, Some (op, res))]). rewrite fmap_app, Hl, omap_app. split; [done|]. split; [by eapply eruns_step|].
    apply Forall_app. by repeat constructor.
  - exists (l ++ [(q, out, None)]). rewrite fmap_app, Hl, omap_app, app_nil_r, Hs. split; [done|]. split; [done|].
    apply Forall_app. by repeat constructor.
Qed.

Lemma omap_split {A C} (f : A → option C) l pre x post : omap f l = pre ++ x :: post →
  ∃ l1 y l2, l = l1 ++ y :: l2 ∧ f y = Some x ∧ omap f l2 = post.
Proof.
  revert pre. induction l as [|y l IH]; intros pre H; [by destruct pre|]. cbn in H. destruct (f y) as [z|] eqn:E.
  - destruct pre as [|z' pre]; injection H as -> H; [by exists [], y, l|]. destruct (IH _ H) as (l1 & w & l2 & -> & ? & ?). by exists (y :: l1), w, l2.
  - destruct (IH _ H) as (l1 & w & l2 & -> & ? & ?). by exists (y :: l1), w, l2.
Qed.

Lemma enroll_spec_host settings b url spec : enroll_spec settings b = Ok (url, spec) → spec_host_id spec = en_host_id b.
Proof.
  unfold enroll_spec. intros H. apply bind_ok in H as (proxy & _ & H). apply bind_ok in H as (u & _ & H). case_bool_decide.
  - apply bind_ok in H as (s & Hs & [= _ <-]). unfold _windows_spec in Hs. destruct (windows_ingest_url _ _ _ _) as [r|]; [|done].
    destruct r as [r|]; [|done]. cbn [mbind result_bind] in Hs. destruct (windows_post_init _); [|done]. by injection Hs as <-.
  - apply bind_ok in H as (s & Hs & [= _ <-]). unfold _spec in Hs. destruct (check_each _ _); [|done]. cbn [mbind result_bind] in Hs.
    destruct (bundle_post_init _); [|done]. by injection Hs as <-.
Qed.

(** A bundle was served for a token of this hash. *)
Definition served_bundle (hash : string) (x : request * response) : Prop :=
  ∃ auth now mint clock others a tok, x = (RBundle auth now mint clock others, PBundle (Ok a)) ∧ _bearer_token auth = Ok tok ∧ _hash_token tok = hash.

(** C14: Nobody gets a bundle, with the private key in it, but on a token that an administrator was issued: before a bundle is served
    an enrollment was requested with a global grant of DEPLOY_AGENT and a fresh step-up, its token has the hash of the one
    presented and has not expired, the bundle is that enrollment's, for its host, and no bundle was served for the token before. *)
Theorem bundle_needs_admin settings ttl max d0 t s auth now mint clock others a s' :
  served settings ttl max d0 t s → respond settings (RBundle auth now mint clock others) s = (PBundle (Ok a), s') →
  ∃ tok t1 t2 out e p b b' raw n1 n2 clk oth url spec minted,
    _bearer_token auth = Ok tok ∧ t = t1 ++ (REnroll e p b raw n1 n2 clk oth, out) :: t2 ∧ _hash_token raw = _hash_token tok ∧
    is_global (from_grants (Rbac.grants p) DEPLOY_AGENT) = true ∧ Auth.require_step_up_mfa e p = Ok tt ∧
    enroll_body b = Some b' ∧ enroll_spec settings b' = Ok (url, spec) ∧
    mint (en_host_id b' +:+ "-agent") (agent_deployment_cert_days settings) = Some minted ∧ a = bundle_archive spec minted ∧
    instant now < instant (dt_add n2 (seconds ttl)) ∧ Forall (λ x, ¬ served_bundle (_hash_token tok) x) t2.
Proof.
  intros Ht Hb. apply served_ops in Ht as (l & <- & Hr & Ha). destruct s as [reg d]. cbn in Hr.
  unfold respond, enroll_bundle_route in Hb. destruct (_bearer_token auth) as [tok|] eqn:Etok; [|done]. cbn [mbind result_bind] in Hb.
  destruct (redeem _hash_token tok now reg) as [[g|] reg'] eqn:Eg; [|done].
  destruct (mint _ _) as [minted|] eqn:Em; [|done]. destruct (append_durable blake3_hex _ _ _ _ _ _ _ _) as [[?|] ?]; [|done].
  injection Hb as <- _. apply eruns_inv in Hr as Hinv. unfold redeem in Eg.
  destruct Hinv as (_ & _ & Hnd & _ & Hlive). destruct (dict_get _ _) as [g0|] eqn:Eg0; [|done]. apply dict_get_elem in Eg0; [|done].
  destruct (Hlive _ _ Eg0) as [Hred (pre & post & raw & n1 & n2 & Etr & Hk & Hexp & Hpost)]. rewrite Hred in Eg. unfold expired in Eg.
  destruct (Z.leb_spec (instant (g_expires_at g0)) (instant now)) as [?|Hlt]; [done|]. injection Eg as <- <-. cbn [g_spec] in Em.
  apply omap_split in Etr as (l1 & [[q out] op] & l2 & -> & Hop & Hl2). cbn in Hop. subst op. apply Forall_app in Ha as [_ Ha].
  inversion Ha as [|x y Hx Hrest]; subst. cbn in Hx. destruct Hx as (e & p & b & b' & clk & oth & url & -> & Hb' & Hmfa & Hglob & Hspec & Hh & _).
  rewrite (enroll_spec_host _ _ _ _ Hspec) in Em. rewrite fmap_app, fmap_cons.
  exists tok, l1.*1, l2.*1, out, e, p, b, b', raw, n1, n2, clk, oth, url, (g_spec g0), minted.
  split; [done|]. split; [done|]. split; [done|]. split; [done|]. split; [done|]. split; [done|]. split; [done|]. split; [done|].
  split; [done|]. split; [by rewrite <- Hexp|]. apply Forall_fmap, Forall_forall. intros [[q' out'] op'] Hin (auth' & now2 & mint' & c' & o' & a' & tok' & E & Et & Eh).
  cbn in E. injection E as -> ->. rewrite Forall_forall in Hrest. apply Hrest in Hin as Hacc. unfold accounted in Hacc. cbn in Hacc.
  destruct op' as [[op res]|]; [|by apply (Hacc a')]. rewrite Forall_forall in Hpost.
  assert ((op, res) ∈ omap snd l2) as Hop by (apply list_elem_of_omap; by eexists (_, _, _)).
  destruct op as [| |raw2 now3|]; cbn in Hacc; [by destruct Hacc as (?&?&?&?&?&?&?&?&_)|by destruct Hacc as (?&?&?&_)| |done].
  destruct Hacc as (? & ? & ? & ? & [= <- <- <- <- <-] & Et' & Hres). destruct (Hres _ eq_refl) as (g' & ? & -> & _).
  apply (Hpost _ Hop). cbn. rewrite Et in Et'. injection Et' as <-. done.
Qed.

(** ** The audit of a push *)

(** The row of a host that a run has ended with. *)
Definition recorded (created_by : string) (d : audit_db) (h : HostStatus) : Prop :=
  ∃ seq rec ts, (seq, rec) ∈ rows d ∧
    content_of rec = mk_content ts created_by "deployment.host.result" (hs_host_id h) (result_before h) (phase_value (phase h)).

Lemma recorded_prefix by_ d d' h : rows d `prefix_of` rows d' → recorded by_ d h → recorded by_ d' h.
Proof. intros [k Hk] (seq & rec & ts & Hin & Hc). exists seq, rec, ts. split; [|done]. rewrite Hk. apply elem_of_app. by left. Qed.

Lemma record_results_spec by_ clock others hs d r d' :
  (∀ n i, rely blake3_hex (others n i)) → audit_inv blake3_hex d → record_results by_ clock others hs d = (r, d') →
  audit_inv blake3_hex d' ∧ rows d `prefix_of` rows d' ∧ (r = Ok () → Forall (recorded by_ d') hs).
Proof.
  intros Ho. revert d. induction hs as [|h hs IH]; intros d Hd; cbn [record_results]; [intros [= <- <-]; by split_and!|].
  destruct (append_durable blake3_hex _ _ _ _ _ _ _ _) as [res d1] eqn:E. apply append_durable_spec in E as (Hd1 & Hp1 & Hres); [|by apply Ho|done].
  destruct res as [rec|e]; [|by intros [= <- <-]].
  intros H. destruct (IH d1 Hd1 H) as (Hd' & Hp' & Hall). split; [done|]. split; [by etrans|]. intros Hr. constructor; [|by apply Hall].
  destruct Hres as (i & k & sq & _ & Hrows & Hc). eapply recorded_prefix; [exact Hp'|]. exists sq, rec. eexists. split; [|exact Hc].
  rewrite Hrows, !elem_of_app. right. right. by left.
Qed.

(** When the background task of a deploy ends without an error, whatever the targets answered and whoever else wrote to the audit
    meanwhile, every host of the run is in a terminal phase and its outcome, with the fingerprint it was given, is a row of
    the audit, which has lost nothing. *)
Theorem push_results_recorded cert_days archive env r requests created_by clock others d res r' d' :
  (∀ n i, rely blake3_hex (others n i)) → audit_inv blake3_hex d → length env = length requests →
  Forall (λ st, ∃ h t, st = mk_status h t PENDING "" None None) (hosts r) →
  _deploy_and_audit cert_days archive env r requests created_by clock others d = (res, r', d') → res = Ok () →
  complete r' = true ∧ length (hosts r') = length (hosts r) ∧ Forall (recorded created_by d') (hosts r') ∧
  rows d `prefix_of` rows d' ∧ audit_inv blake3_hex d'.
Proof.
  intros Ho Hd Henv Hst. unfold _deploy_and_audit. destruct (deploy_batch _ _ _ _ _) as [rb r1] eqn:Eb.
  destruct (record_results _ _ _ _ d) as [rr d1] eqn:Er. apply record_results_spec in Er as (Hd1 & Hp & Hall); [|done..].
  destruct rr as [[]|]; intros [= <- <- <-]; [|done]. intros ->. apply batch_completes in Eb as (Hc & _ & Hl); [|done..].
  split; [done|]. split; [done|]. split; [by apply Hall|]. by split.
Qed.

Lemma host_requests_valid settings hs qs : host_requests settings hs = Ok qs →
  Forall (λ q, validate (credential q) = Ok () ∧ bundle_post_init (spec q) = Ok ()) qs.
Proof.
  revert qs. induction hs as [|h hs IH]; cbn [host_requests]; intros qs H; [injection H as <-; constructor|].
  apply bind_ok in H as (q & Hq & H). apply bind_ok in H as (qs' & Hqs & [= <-]). constructor; [|by apply IH].
  unfold host_request in Hq. apply bind_ok in Hq as (proxy & _ & Hq). apply bind_ok in Hq as (s & Hs & Hq). apply bind_ok in Hq as (u & Hu & [= <-]).
  cbn. destruct u. split; [by destruct (validate (dh_credential h)) as [[]|]|]. unfold _spec in Hs. destruct (check_each _ _); [|done].
  cbn [mbind result_bind] in Hs. destruct (bundle_post_init _) as [[]|] eqn:E; [|done]. injection Hs as <-. exact E.
Qed.

(** A push is scheduled only for a global caller with a fresh step-up, with a password only under a pinned key, for specs that were
    accepted, and after its row is in the audit. *)
Lemma deploy_scheduled_audited scope mfa principal settings runtime max_runs body id now clock others d run qs runs d' :
  (∀ i, rely blake3_hex (others i)) → audit_inv blake3_hex d →
  deploy_route scope mfa principal settings runtime max_runs body id now clock others d = (Ok (run, qs), runs, d') →
  is_global scope = true ∧ mfa = Ok () ∧ Forall (λ h, password_pinned h = true) body ∧
  Forall (λ q, validate (credential q) = Ok () ∧ bundle_post_init (spec q) = Ok ()) qs ∧
  ∃ i k s rec, rows d' = rows d ++ k ++ [(s, rec)] ∧
    content_of rec = mk_content (isoformat (clock i)) (subject principal) "deployment.initiated" id
      [("hosts", JList ((λ h, JObj [("host_id", JStr (dh_host_id h)); ("target", JStr (dh_target h))]) <$> body))] "queued".
Proof.
  intros Ho Hd. unfold deploy_route. destruct mfa as [[]|]; [|done]. cbn [mbind result_bind].
  destruct (_ && _ && forallb deploy_host_in_ok body) eqn:Eb; [|done]. cbn [mbind result_bind]. unfold _require_global.
  destruct (is_global scope); [|done]. destruct runtime as [rs|]; [|done]. cbn [mbind result_bind].
  destruct (host_requests settings body) as [qs'|] eqn:Eq; [|done]. cbn [mbind result_bind].
  destruct (append_durable blake3_hex _ _ _ _ _ _ _ _) as [res d1] eqn:E. apply append_durable_spec in E as (_ & _ & Hres); [|done..].
  destruct res as [rec|]; [|done]. intros [= <- <- <- <-]. apply andb_true_iff in Eb as [_ Eb].
  split; [done|]. split; [done|]. split.
  - apply Forall_forall. intros h Hin. apply list_elem_of_In in Hin. eapply forallb_forall in Eb; [|exact Hin].
    unfold deploy_host_in_ok in Eb. by apply andb_true_iff in Eb as [_ ?].
  - split; [by eapply host_requests_valid|]. destruct Hres as (i & k & sq & _ & Hrows & Hc). by exists i, k, sq, rec.
Qed.
End Routes.

(** ** [api/deploy_runtime.py] *)

Inductive Provisioning (A : Type) := Disabled | Provisioned (a : A) | ProvisioningError (m : string).
Arguments Disabled {A}. Arguments Provisioned {A}. Arguments ProvisioningError {A}.

(** [build_deploy_runtime]: [provider] resolves a reference (None: it raised), [from_pem] loads the authority. *)
Definition build_deploy_runtime {CA} (enabled : bool) (cert_ref key_ref : option string) (provider : string → option string)
    (from_pem : string → string → result DeploymentError CA) (ttl : Z) : Provisioning (CA * EnrollmentRegistry * list (string * DeployRun)) :=
  if negb enabled then Disabled else
  match truthy cert_ref, truthy key_ref with
  | Some c, Some k =>
      match provider c, provider k with
      | Some cert_pem, Some key_pem =>
          if bool_decide (cert_pem = "") || bool_decide (key_pem = "")
          then ProvisioningError "agent deployment CA reference resolved to an empty value" else
          match from_pem cert_pem key_pem with
          | Err m => ProvisioningError m
          | Ok ca => Provisioned (ca, mk_registry ttl 1000 [], [])
          end
      | _, _ => ProvisioningError "agent deployment CA reference did not resolve from the secret backend"
      end
  | _, _ => Disabled
  end.

(** An authority that cannot be loaded never leaves the surface up. *)
Lemma provisioned_spec {CA} enabled c k provider (from_pem : string → string → result DeploymentError CA) ttl ca reg runs :
  build_deploy_runtime enabled c k provider from_pem ttl = Provisioned (ca, reg, runs) →
  enabled = true ∧ ∃ cert key, from_pem cert key = Ok ca ∧ cert ≠ "" ∧ key ≠ "" ∧ reg = mk_registry ttl 1000 [] ∧ runs = [].
Proof.
  unfold build_deploy_runtime. destruct enabled; [|done]. cbn [negb]. destruct (truthy c) as [c0|]; [|done]. destruct (truthy k) as [k0|]; [|done].
  destruct (provider c0) as [cert|]; [|done]. destruct (provider k0) as [key|]; [|done].
  case_bool_decide; [done|]. case_bool_decide; [done|]. cbn [orb]. destruct (from_pem cert key) as [ca0|] eqn:E; [|done]. intros [= -> <- <-].
  split; [done|]. by exists cert, key.
Qed.

(** ** The URL of the command *)

Definition url_char (c : ascii) : bool := netloc_char c || any_of ["/"; "["; "]"]%char c.

Lemma host_or_ip_netloc c : host_or_ip_char c = netloc_char c.
Proof. by destruct c as [[] [] [] [] [] [] [] []]. Qed.

Lemma pretty_netloc p : 0 <= p → s_all netloc_char (pretty p) = true.
Proof.
  intros Hp. destruct (int_of_pretty p Hp) as (Hd & _). revert Hd. apply s_all_impl. intros c Hc. unfold netloc_char, is_alnum.
  by rewrite Hc, orb_true_r.
Qed.

Lemma url_chars s : s_all netloc_char s = true → s_all url_char s = true.
Proof. apply s_all_impl. intros c Hc. unfold url_char. by rewrite Hc. Qed.

(** A host the validation accepts after it was parsed: no newline, and already in lower case. *)
Lemma host_accepted netloc host :
  has_char nl netloc = false → hostname netloc = Some host → validate_host_or_ip host = Ok host →
  s_all netloc_char host = true ∧ host ≠ "" ∧ lower host = host.
Proof.
  intros Hn Hh Hv. unfold validate_host_or_ip in Hv. destruct (_HOST_OR_IP_RE host) eqn:E; [|done].
  assert (has_char nl host = false) as Hnl by by apply (hostname_no_newline netloc).
  apply re_line_spec in E as [[Ha Hlen]%andb_true_iff Hs]; [|by intros t [Ht _]%andb_true_iff; apply (s_all_no_char host_or_ip_char)].
  assert (host = unline host) as Hu.
  { destruct Hs as [|Hs]; [done|]. rewrite Hs, has_char_app in Hnl. apply orb_false_iff in Hnl as [_ Hnl]. discriminate Hnl. }
  rewrite <- Hu in Ha, Hlen. assert (s_all netloc_char host = true) as Hc.
  { revert Ha. apply s_all_impl. intros c. by rewrite host_or_ip_netloc. }
  split; [done|]. split; [by intros ->|]. unfold hostname in Hh. destruct (hostinfo netloc).1 as [|c s]; [done|].
  destruct (PyUrl.partition "%" (String c s)) as [[h pc] z] eqn:Ep. injection Hh as <-.
  assert (pc = false) as ->.
  { destruct pc; [|done]. exfalso. apply (netloc_no_char "%") in Hc; [|done]. rewrite !has_char_app in Hc.
    apply orb_false_iff in Hc as [_ Hc]. apply orb_false_iff in Hc as [Hc _]. discriminate Hc. }
  pose proof (partition_found "%" (String c s)) as Hf. rewrite Ep in Hf. destruct (Hf eq_refl) as [Hz _]. cbn in Hz. subst z.
  cbn. rewrite app_empty_r. apply lower_idem.
Qed.

(** C25: The URL that goes into the command an operator pastes as root is rebuilt from its parts: it holds letters, digits and the
    characters of an authority alone, so no quote, space or shell metacharacter gets in with a path, a query or user information,
    and for a host that is no IPv6 literal it is a normal form: validating it again gives it back. *)
Theorem core_base_url_canonical bracketed nfkc value u :
  _v_core_base_url bracketed nfkc value = Ok u →
  s_all url_char u = true ∧ (has_char "[" u = false → _v_core_base_url bracketed nfkc u = Ok u).
Proof.
  unfold _v_core_base_url at 1. destruct (urlsplit bracketed nfkc value) as [parsed|] eqn:Eu; [|done].
  destruct (port (u_netloc parsed)) as [p|] eqn:Ep; [|done]. case_bool_decide as Hs; [|done]. cbn [negb raise_if mbind result_bind].
  apply urlsplit_no_newline in Eu. destruct (hostname (u_netloc parsed)) as [host|] eqn:Eh; [|done].
  intros H. assert (∃ v, validate_host_or_ip host = Ok v ∧
    u = u_scheme parsed +:+ "://" +:+ with_port (if has_char ":" host then "[" +:+ host +:+ "]" else host) p) as (v & Hv & ->).
  { destruct host as [|c s]; [done|]. apply bind_ok in H as (v & Hv & [= <-]). exists v. by destruct p. }
  assert (v = host) as -> by (unfold validate_host_or_ip in Hv; destruct (_HOST_OR_IP_RE host); congruence).
  destruct (host_accepted _ _ Eu Eh Hv) as (Hc & Hne & Hl). clear H.
  assert (match p with None => True | Some p => 0 <= p <= 65535 end) as Hp by (destruct p; [by apply port_range in Ep|done]).
  assert (s_all url_char (u_scheme parsed) = true) as Hsch by (rewrite !elem_of_cons in Hs; by destruct Hs as [->|[->|[]%not_elem_of_nil]]).
  split.
  - rewrite !s_all_app, Hsch. cbn [andb]. replace (s_all url_char "://") with true by reflexivity. cbn [andb].
    assert (s_all url_char (if has_char ":" host then "[" +:+ host +:+ "]" else host) = true) as Hb.
    { destruct (has_char ":" host); [|by apply url_chars]. rewrite !s_all_app, (url_chars host Hc). done. }
    destruct p as [p|]; [|exact Hb]. unfold with_port. rewrite !s_all_app, Hb, (url_chars (pretty p)); [done|]. apply pretty_netloc. lia.
  - rewrite !has_char_app, !orb_false_iff. intros (_ & _ & Hbr).
    assert (has_char ":" host = false) as Hcol.
    { destruct (has_char ":" host); [|done]. unfold with_port in Hbr. destruct p; rewrite !has_char_app in Hbr; discriminate Hbr. }
    rewrite Hcol. destruct (plain_location host p Hc Hcol Hne Hl Hp) as (Ha & Hh & Hport).
    unfold _v_core_base_url. rewrite urlsplit_plain by done. cbn [u_netloc u_scheme]. rewrite Hport, Hh.
    rewrite bool_decide_true by done. cbn [negb raise_if mbind result_bind]. rewrite Hv, Hcol. destruct host; [done|]. by destruct p.
Qed.

(** A path, a query, user information and quotes are dropped. *)
Lemma core_base_url_canonical_witness :
  _v_core_base_url (λ _, true) (λ _, true) "HTTPS://me:pw@Core.Example:8443/x?$(id)" = Ok "https://core.example:8443" ∧
  _v_core_base_url (λ _, true) (λ _, true) "https://core.example:8443" = Ok "https://core.example:8443".
Proof.
  assert (_v_core_base_url (λ _, true) (λ _, true) "HTTPS://me:pw@Core.Example:8443/x?$(id)" = Ok "https://core.example:8443") as E by reflexivity.
  split; [exact E|]. apply (core_base_url_canonical (λ _, true) (λ _, true) _ _ E). reflexivity.
Defined.

(** ** What the routes leave behind *)

Section Leftovers.
Context {B : Backend} (blake3_hex : string → string).

(** When its audit row cannot be written, the request fails but the run it made stays in the registry, pending for good: nothing will
    schedule it, and no eviction takes a run in flight. *)
Lemma failed_append_leaves_run scope principal settings runs max_runs body id now clock others d e d' qs :
  is_global scope = true → (1 <=? length body)%nat && (length body <=? 64)%nat && forallb deploy_host_in_ok body = true →
  host_requests settings body = Ok qs → NoDup runs.*1 →
  append_durable blake3_hex clock (subject principal) "deployment.initiated" id
    [("hosts", JList ((λ h, JObj [("host_id", JStr (dh_host_id h)); ("target", JStr (dh_target h))]) <$> body))] "queued" others d = (Err e, d') →
  ∃ runs' r, deploy_route blake3_hex scope (Ok ()) principal settings (Some runs) max_runs body id now clock others d = (Err None, Some runs', d') ∧
    Deploy.get id runs' = Some r ∧ complete r = false.
Proof.
  intros Hg Hb Hq Hnd Ha. unfold deploy_route. cbn [mbind result_bind]. rewrite Hb. cbn [mbind result_bind]. unfold _require_global. rewrite Hg, Hq.
  cbn [mbind result_bind]. rewrite Ha. set (run := mk_run _ _ _ _). exists (create max_runs run runs), run. split; [done|].
  assert (complete run = false) as Hc.
  { unfold run, complete. cbn. destruct body as [|h body]; [done|]. done. }
  split; [exact (create_keeps_new max_runs run runs Hnd Hc)|done].
Qed.
End Leftovers.

(** ** Witnesses *)

Definition wit_settings : DeploySettings :=
  mk_dsettings "https://proxy:9443/api/v1/agents/ingest" "fathom:local" (Some "10.0.0.1") (Some "https://core.example") None 825.
Definition wit_env : Auth.env :=
  Auth.mk_env (Auth.mk_request None None None None None None None None) 1000 (Auth.mk_settings [] 3600 300 [] None None None) false.
Definition wit_admin : Principal := mk_principal "ann" SrcLocal 1 [] [Rbac.mk_grant ADMIN KGlobal None None] (Some (utc 0)) None.
#[local] Notation wit_enroll :=
  (REnroll wit_env wit_admin (mk_enroll "nas" "linux" [] [] [] [] None None) "tok" (at_second 0) (at_second 0) (λ _, at_second 0) (λ _ d, d)).
#[local] Notation wit_fetch := (RBundle (Some "Bearer tok") (at_second 60) (λ cn _, Some (mk_minted cn "KEY" "CRT" "CA" "ab")) (λ _, at_second 60) (λ _ d, d)).
#[local] Notation wit_respond := (respond (B := sqlite) short_hash (λ s, s) (λ _, true) (λ _, true) wit_settings).
Definition wit_enrolled : response * (EnrollmentRegistry * audit_db) := wit_respond wit_enroll (mk_registry 900 10 [], empty_db).
#[local] Notation wit_fetched := (wit_respond wit_fetch wit_enrolled.2).

(** The members of the archive that is served, and the certificate's name in the audit before it. *)
Definition served_names (r : response) : list string := match r with PBundle (Ok (TarGz l)) => (λ f, f.1.1) <$> l | _ => [] end.

Lemma bundle_needs_admin_witness :
  served_names wit_fetched.1 = ["agent.config.yaml"; "certs/client.crt"; "certs/client.key"; "certs/fathom-ca.crt"; "docker-compose.yml"] ∧
  ∃ t1 t2 e p b raw n1 n2 clk oth out, [(wit_enroll, wit_enrolled.1)] = t1 ++ (REnroll e p b raw n1 n2 clk oth, out) :: t2.
Proof.
  split; [vm_compute; reflexivity|].
  assert (match wit_fetched.1 with PBundle (Ok _) => true | _ => false end = true) as Hok by (vm_compute; reflexivity).
  destruct wit_fetched as [out s'] eqn:E. destruct out as [?|?|[a|?]]; try discriminate Hok.
  assert (served (B := sqlite) short_hash (λ s, s) (λ _, true) (λ _, true) wit_settings 900 10 empty_db [(wit_enroll, wit_enrolled.1)] wit_enrolled.2) as Hs.
  { apply (served_step _ _ _ _ _ _ _ _ [] (mk_registry 900 10 [], empty_db)); [constructor|apply surjective_pairing]. }
  destruct (bundle_needs_admin (B := sqlite) short_hash (λ s, s) (λ _, true) (λ _, true) wit_settings 900 10 empty_db _ _ _ _ _ _ _ a s' Hs E)
    as (tok & t1 & t2 & out & e & p & b & b' & raw & n1 & n2 & clk & oth & url & spec & minted & _ & Ht & _).
  by exists t1, t2, e, p, b, raw, n1, n2, clk, oth, out.
Defined.

Definition wit_answers : Answers := mk_answers (λ _, Ok "SHA256:k") wit_run (λ _, Ok ()) (λ _, Ok wit_minted).
Definition wit_down : Answers := mk_answers (λ _, Err (Deployment "SSH connect failed")) wit_run (λ _, Ok ()) (λ _, Ok wit_minted).
#[local] Notation wit_push :=
  (_deploy_and_audit (B := sqlite) short_hash 825 None [wit_answers; wit_down]
    (mk_run "r1" "ann" (at_second 0) [wit_host PENDING; wit_host PENDING]) [wit_request; wit_request] "ann" (λ _ _, at_second 0) (λ _ _ d, d) empty_db).

Lemma push_results_recorded_witness : phase <$> hosts wit_push.1.2 = [SUCCEEDED; FAILED] ∧ complete wit_push.1.2 = true.
Proof.
  split; [vm_compute; reflexivity|].
  assert (wit_push.1.1 = Ok ()) as Hr by (vm_compute; reflexivity). destruct wit_push as [[res r'] d'] eqn:E. cbn in Hr.
  refine (proj1 (push_results_recorded (B := sqlite) short_hash 825 None [wit_answers; wit_down]
    (mk_run "r1" "ann" (at_second 0) [wit_host PENDING; wit_host PENDING]) [wit_request; wit_request] "ann" (λ _ _, at_second 0) (λ _ _ d, d) empty_db
    res r' d' _ empty_db_inv eq_refl _ E Hr)).
  - intros n i d Hd. by split.
  - repeat constructor; by eexists _, _.
Defined.
