(* ===== verification/DeployBrowse.v ===== *)
(** What a deploy reads from a target that has no agent yet ([DeployEngine.browse_directory] and [probe_volumes] in
    [src/fathom/core/deploy/engine.py], with their routes in [api/routers/deployment.py]): a listing parsed from [find] and [du], the
    volumes parsed from [df].

    The session is that of [Deploy].  [float()] of a text is a parameter, as the time of an entry is in [Browse]. *)

From stdpp Require Import pretty sorting.
From S2P Require Import Prelude PyStr PyDict PyTime PosixPath Rbac PreviewRoute PyInt PyUrl Browse Bundle Enroll Deploy DeployRoutes.

Local Open Scope Z_scope.


(** ** Text *)

Definition tab : ascii := "009"%char.

(** [s[:200]]. *)
Definition clip (s : string) : string := String.substring 0 200 s.

(** ** [browse_directory] *)

Section Listing.
Context (float_of : string → option Z).

(** The sizes of the children, by name: the last line of a name holds. *)
Definition du_line (sizes : list (string * Z)) (line : string) : list (string * Z) :=
  match PyUrl.partition tab line with
  | (first, true, rest) =>
      match py_int first with
      | Some size => dict_set (after_last "/" (rstrip_by (Ascii.eqb "/") rest)) size sizes
      | None => sizes
      end
  | _ => sizes
  end.

Definition child_sizes (stdout : string) : list (string * Z) := foldl du_line [] (splitlines stdout).

(** A line that is no entry is skipped; [None] is a ValidationError, for a negative size. *)
Definition listed_entry (path : string) (sizes : list (string * Z)) (size_truncated with_sizes : bool) (line : string)
    : option (option BrowseEntry) :=
  match split_char tab line with
  | [ftype; size_s; mtime_s; name] =>
      match py_int size_s, float_of mtime_s with
      | Some size, Some mtime =>
          let is_dir := bool_decide (ftype = "d") in
          let is_symlink := bool_decide (ftype = "l") in
          let sub := if with_sizes && is_dir && negb is_symlink then dict_get name sizes else None in
          if (size <? 0) || match sub with Some n => n <? 0 | None => false end then None
          else Some (Some (mk_bentry name (posix_join path name) is_dir is_symlink size mtime sub None (is_some sub && size_truncated)))
      | _, _ => Some None
      end
  | _ => Some None
  end.

Fixpoint listed (path : string) (sizes : list (string * Z)) (size_truncated with_sizes : bool) (lines : list string) : option (list BrowseEntry) :=
  match lines with
  | [] => Some []
  | l :: lines =>
      match listed_entry path sizes size_truncated with_sizes l, listed path sizes size_truncated with_sizes lines with
      | Some (Some e), Some es => Some (e :: es)
      | Some None, Some es => Some es
      | _, _ => None
      end
  end.

(** What is made of the output of the two commands. *)
Definition listing_result (path : string) (max_entries : Z) (with_sizes : bool) (stdout : string) (sizes : list (string * Z)) (size_truncated : bool)
    : option BrowseResult :=
  let lines := splitlines stdout in
  es ← listed path sizes size_truncated with_sizes (takeZ max_entries lines);
  Some (mk_bresult "deploy-browse" path (stable_sort picker_le es) (max_entries <? Z.of_nat (length lines)) None).

Definition browse_error (path error : string) : BrowseResult := mk_bresult "deploy-browse" path [] false (Some error).

Section Session.
Context (a_connect : list call → result failure string) (a_run : list call → result failure CommandResult)
        (a_unit : list call → result failure ()).

Definition find_call (path : string) (max_entries : Z) : call :=
  Run ("find " +:+ quote path +:+ " -maxdepth 1 -mindepth 1 -printf '%y	%s	%T@	%f
' 2>/dev/null | head -n " +:+ pretty (max_entries + 1)) false.

Definition du_call (path : string) (budget : Z) : call :=
  Run ("timeout " +:+ pretty budget +:+ " du -b -d 1 -- " +:+ quote path +:+ " 2>/dev/null") false.

Definition listing (path : string) (with_sizes : bool) (max_entries size_budget_seconds : Z) : M BrowseResult :=
  l ← ask a_run (find_call path max_entries);
  if bool_decide (stdout l = "") && negb (ok l) then
    mret (browse_error path (or_else (clip (strip (stderr l))) "cannot list"))
  else
    sizes ← (if with_sizes then du ← ask a_run (du_call path size_budget_seconds); mret (child_sizes (stdout du), negb (ok du))
             else mret ([], false));
    match listing_result path max_entries with_sizes (stdout l) sizes.1 sizes.2 with
    | Some r => mret r
    | None => raise (Crash "ValidationError")
    end.

(** [DeployEngine.browse_directory]. *)
Definition browse_directory (target : string) (port : Z) (c : SshCredential) (path : string) (with_sizes : bool)
    (max_entries size_budget_seconds : Z) (expected : option string) : M BrowseResult :=
  match validate c with
  | Err m => raise (Deployment m)
  | Ok _ => λ s,
      match ask a_connect (Connect target port c expected) s with
      | (Err (Deployment m), s) => (Ok (browse_error path (clip m)), s)
      | (Err e, s) => (Err e, s)
      | (Ok _, s) => try_finally (listing path with_sizes max_entries size_budget_seconds) (ask a_unit Close) s
      end
  end.

(** *** [probe_volumes] *)

Record BrowseVolume := mk_bvolume { bv_mountpoint : string; bv_fs_type : string; bv_total : Z; bv_used : Z; bv_free : Z }.

Definition pseudo_fs : list string := ["tmpfs"; "devtmpfs"; "proc"; "sysfs"; "overlay"; "squashfs"].

(** A ValidationError of the model is a ValueError: a negative number skips the line too. *)
Definition df_line (line : string) : option BrowseVolume :=
  match words line with
  | _ :: fs_type :: total :: used :: free :: _ :: mount :: _ =>
      if bool_decide (fs_type ∈ pseudo_fs) then None else
      match py_int total, py_int used, py_int free with
      | Some t, Some u, Some f => if (0 <=? t) && (0 <=? u) && (0 <=? f) then Some (mk_bvolume mount fs_type t u f) else None
      | _, _, _ => None
      end
  | _ => None
  end.

Definition volume_le (a b : BrowseVolume) : Prop := str_le (bv_mountpoint a) (bv_mountpoint b) = true.

#[export] Instance volume_le_dec : RelDecision volume_le.
Proof. intros a b. unfold volume_le. apply _. Defined.

Definition df_volumes (stdout : string) : list BrowseVolume := stable_sort volume_le (omap df_line (drop 1 (splitlines stdout))).

Definition df_call : call := Run "df -PTB1 2>/dev/null" false.

Definition probe_volumes (target : string) (port : Z) (c : SshCredential) (expected : option string) : M (list BrowseVolume) :=
  match validate c with
  | Err m => raise (Deployment m)
  | Ok _ =>
      _ ← ask a_connect (Connect target port c expected);
      res ← try_finally (ask a_run df_call) (ask a_unit Close);
      mret (df_volumes (stdout res))
  end.
End Session.

(** ** Routes *)

Definition session_start : dstate := mk_dstate [] (mk_status "" "" PENDING "" None None).

(** A failure of the engine is not mapped: a 500. *)
Definition as_500 {A} (r : result failure A) : reply A := match r with Ok a => Ok a | Err _ => Err None end.

Definition probing (mfa : result HTTPException ()) (body_ok : bool) (scope : ScopeFilter) (provisioned : bool) (c : SshCredential) : reply () :=
  _ ← match mfa with Ok _ => Ok () | Err e => Err (Some e) end;
  _ ← (if body_ok then Ok () else unprocessable_body);
  _ ← _require_global scope;
  _ ← (if provisioned then Ok () else not_provisioned);
  as_422 (validate c).

Definition probe_volumes_route (a : Answers) (scope : ScopeFilter) (mfa : result HTTPException ()) (provisioned : bool) (b : PreflightRequest)
    : reply (list BrowseVolume) :=
  _ ← probing mfa (preflight_in_ok b) scope provisioned (pf_credential b);
  as_500 (probe_volumes (an_connect a) (an_run a) (an_unit a) (pf_target b) (pf_port b) (pf_credential b) (pf_expected_host_key b) session_start).1.

(** The body is a [PreflightRequest] with a path. *)
Definition deploy_browse_route (a : Answers) (scope : ScopeFilter) (mfa : result HTTPException ()) (provisioned : bool) (b : PreflightRequest)
    (path : string) (with_sizes : bool) : reply BrowseResult :=
  _ ← probing mfa (preflight_in_ok b && length_within 1 4096 path) scope provisioned (pf_credential b);
  as_500 (browse_directory (an_connect a) (an_run a) (an_unit a) (pf_target b) (pf_port b) (pf_credential b) path with_sizes 2000 5
            (pf_expected_host_key b) session_start).1.

(** A target that cannot be reached is a 500 here, where the listing and the preflight say why. *)
Lemma unreachable_probe_is_500 a scope b m :
  is_global scope = true → preflight_in_ok b = true → validate (pf_credential b) = Ok () →
  an_connect a [Connect (pf_target b) (pf_port b) (pf_credential b) (pf_expected_host_key b)] = Err (Deployment m) →
  probe_volumes_route a scope (Ok ()) true b = Err None.
Proof.
  intros Hg Hb Hv Hc. unfold probe_volumes_route, probing, _require_global. rewrite Hg, Hb, Hv. cbn [as_422 mbind result_bind].
  unfold probe_volumes. rewrite Hv. unfold ask, mbind, M_bind. cbn. by rewrite Hc.
Qed.
End Listing.

(** ** Laws *)

Definition no_break (s : string) : bool := s_all (λ c, negb (line_break c)) s.

Lemma splitlines_line l r : no_break l = true → splitlines (l +:+ String nl r) = l :: splitlines r.
Proof.
  induction l as [|c l IH]; intros H.
  - change ("" +:+ String nl r) with (String nl r). cbn [splitlines]. change (line_break nl) with true. change (carriage_return nl) with false.
    cbn. by destruct r.
  - apply andb_true_iff in H as [Hc H]. apply negb_true_iff in Hc. rewrite app_cons_s. cbn [splitlines]. rewrite Hc, IH by done. done.
Qed.

Lemma splitlines_lines ls : Forall (λ l, no_break l = true) ls → splitlines (foldr (λ l s, l +:+ String nl s) "" ls) = ls.
Proof. induction 1 as [|l ls Hl _ IH]; [done|]. cbn [foldr]. by rewrite splitlines_line, IH. Qed.

Lemma digit_not_space c : is_digit c = true → is_space c = false ∧ Ascii.eqb c "-" = false ∧ Ascii.eqb c "+" = false ∧ negb (line_break c) = true ∧ Ascii.eqb tab c = false.
Proof. destruct c as [[] [] [] [] [] [] [] []]; vm_compute; intros H; try discriminate H; repeat split. Qed.

(** An entry as [find] prints it. *)
Record FindEntry := mk_find { fe_type : string; fe_size : Z; fe_mtime : string; fe_name : string }.

Definition find_line (e : FindEntry) : string :=
  fe_type e +:+ String tab (pretty (fe_size e) +:+ String tab (fe_mtime e +:+ String tab (fe_name e))).

Definition clean (s : string) : bool := no_break s && negb (has_char tab s).

Section Roundtrip.
Context (float_of : string → option Z).

Definition printable_entry (sizes : list (string * Z)) (e : FindEntry) : Prop :=
  clean (fe_type e) = true ∧ 0 <= fe_size e ∧ clean (fe_mtime e) = true ∧ is_some (float_of (fe_mtime e)) = true ∧ clean (fe_name e) = true ∧
  ∀ n, dict_get (fe_name e) sizes = Some n → 0 <= n.

(** What the browser is meant to show of it. *)
Definition shown (path : string) (sizes : list (string * Z)) (size_truncated with_sizes : bool) (e : FindEntry) : BrowseEntry :=
  let is_dir := bool_decide (fe_type e = "d") in
  let sub := if with_sizes && is_dir then dict_get (fe_name e) sizes else None in
  mk_bentry (fe_name e) (posix_join path (fe_name e)) is_dir (bool_decide (fe_type e = "l")) (fe_size e) (default 0 (float_of (fe_mtime e)))
    sub None (is_some sub && size_truncated).

Lemma clean_spec s : clean s = true → no_break s = true ∧ has_char tab s = false.
Proof. unfold clean. intros [? ?%negb_true_iff]%andb_true_iff. done. Qed.

Lemma find_line_no_break sizes e : printable_entry sizes e → no_break (find_line e) = true.
Proof.
  intros (Ht & Hs & Hm & _ & Hn & _). apply clean_spec in Ht as [Ht _], Hm as [Hm _], Hn as [Hn _]. unfold find_line, no_break in *.
  assert (s_all (λ c, negb (line_break c)) (pretty (fe_size e)) = true) as Hp.
  { destruct (int_of_pretty _ Hs) as (Hd & _). revert Hd. apply s_all_impl. intros c Hc. by apply digit_not_space in Hc as (_ & _ & _ & ? & _). }
  rewrite s_all_app, Ht. cbn [s_all andb]. rewrite s_all_app, Hp. cbn [s_all andb]. rewrite s_all_app, Hm. cbn [s_all andb]. by rewrite Hn.
Qed.

Lemma find_line_listed path sizes tr ws e : printable_entry sizes e →
  listed_entry float_of path sizes tr ws (find_line e) = Some (Some (shown path sizes tr ws e)).
Proof.
  intros (Ht & Hs & Hm & Hf & Hn & Hsz). apply clean_spec in Ht as [_ Ht], Hm as [_ Hm], Hn as [_ Hn]. unfold listed_entry, find_line.
  assert (has_char tab (pretty (fe_size e)) = false) as Hp.
  { destruct (int_of_pretty _ Hs) as (Hd & _). unfold has_char, s_any. apply negb_false_iff. revert Hd. apply s_all_impl. intros c Hc.
    apply digit_not_space in Hc as (_ & _ & _ & _ & ->). done. }
  rewrite split_char_app, split_char_app, split_char_app, split_char_none by done. rewrite py_int_pretty.
  destruct (float_of (fe_mtime e)) as [m|] eqn:Em; [|done]. cbv zeta.
  assert (ws && bool_decide (fe_type e = "d") && negb (bool_decide (fe_type e = "l")) = ws && bool_decide (fe_type e = "d")) as ->.
  { destruct ws; [|done]. cbn. case_bool_decide as Hd; [|done]. by rewrite Hd. }
  destruct (Z.ltb_spec (fe_size e) 0); [lia|]. cbn [orb]. unfold shown. rewrite Em.
  assert (match (if ws && bool_decide (fe_type e = "d") then dict_get (fe_name e) sizes else None) with Some n => n <? 0 | None => false end = false) as ->; [|done].
  destruct (_ && _); [|done]. destruct (dict_get _ _) as [n|]; [|done]. specialize (Hsz n eq_refl). destruct (Z.ltb_spec n 0); [lia|done].
Qed.

Lemma listed_all path sizes tr ws es : Forall (printable_entry sizes) es →
  listed float_of path sizes tr ws (find_line <$> es) = Some (shown path sizes tr ws <$> es).
Proof.
  induction 1 as [|e es He _ IH]; [done|]. rewrite !fmap_cons. cbn [listed]. by rewrite (find_line_listed _ _ _ _ _ He), IH.
Qed.

(** The listing of a directory on a target without an agent is read back exactly: of what [find] prints for entries whose names
    hold no tab and no line separator, the result shows the first [max_entries], each once with its own type, size and time, in
    picker order, the subtree sizes on directories alone, and says when more were printed. *)
Theorem find_listing_roundtrip path max_entries with_sizes sizes size_truncated es :
  0 <= max_entries → Forall (printable_entry sizes) es →
  listing_result float_of path max_entries with_sizes (foldr (λ e s, find_line e +:+ String nl s) "" es) sizes size_truncated =
    Some (mk_bresult "deploy-browse" path
      (stable_sort picker_le (shown path sizes size_truncated with_sizes <$> take (Z.to_nat max_entries) es))
      (max_entries <? Z.of_nat (length es)) None).
Proof.
  intros Hmax Hes. unfold listing_result.
  assert (splitlines (foldr (λ e s, find_line e +:+ String nl s) "" es) = find_line <$> es) as ->.
  { rewrite <- (splitlines_lines (find_line <$> es)).
    - f_equal. induction es as [|e es IH]; [done|]. inversion Hes; subst. cbn. by rewrite <- IH.
    - apply Forall_fmap. eapply Forall_impl; [exact Hes|]. intros e. apply find_line_no_break. }
  rewrite takeZ_nonneg by done. rewrite <- fmap_take, listed_all by by apply Forall_take. cbn. by rewrite length_fmap.
Qed.
End Roundtrip.

(** A separator in a name breaks its line: the file is lost, and what follows can be read as an entry that is not there. *)
Lemma separator_in_name_misread :
  be_name <$> from_option entries [] (listing_result (λ _, Some 0) "/d" 10 false
    (find_line (mk_find "f" 1 "0" ("a" +:+ lf +:+ find_line (mk_find "d" 0 "0" "ghost"))) +:+ lf) [] false) = ["ghost"; "a"].
Proof. reflexivity. Qed.

(** [df] is split at every space: a mount point is cut at its first one, and a share with one in its name is lost. *)
Lemma df_spaces_misread :
  df_volumes ("Filesystem" +:+ lf +:+ "/dev/sda1 ext4 100 50 50 50% /mnt/my disk" +:+ lf +:+ "//nas/my share cifs 9 4 5 45% /mnt/s" +:+ lf) =
    [mk_bvolume "/mnt/my" "ext4" 100 50 50].
Proof. vm_compute. reflexivity. Qed.

Lemma find_listing_roundtrip_witness :
  listing_result (λ _, Some 5) "/srv" 1 true (foldr (λ e s, find_line e +:+ String nl s) "" [mk_find "d" 4096 "1.5" "B"; mk_find "f" 7 "2.0" "a"])
    [("B", 99)] true =
  Some (mk_bresult "deploy-browse" "/srv" [mk_bentry "B" "/srv/B" true false 4096 5 (Some 99) None true] true None).
Proof.
  rewrite (find_listing_roundtrip (λ _, Some 5) "/srv" 1 true [("B", 99)] true [mk_find "d" 4096 "1.5" "B"; mk_find "f" 7 "2.0" "a"]).
  - reflexivity.
  - done.
  - apply Forall_cons_2; [|apply Forall_cons_2; [|apply Forall_nil_2]]; unfold printable_entry; split_and!; try done; cbn; intros n [= <-]; lia.
Defined.
