(* ===== verification/RiskClass.v ===== *)
(** The risk class of a path ([src/fathom/core/riskclass.py]): what the audit of a destructive act records about the files it
    touches, and how little the spelling of a path can change it. *)

From S2P Require Import Prelude PyStr PyDict.

Inductive RiskClass := OS | SERVICES | CONFIG | USER.

#[export] Instance RiskClass_eq_dec : EqDecision RiskClass.
Proof. solve_decision. Defined.

Definition risk_value (c : RiskClass) : string :=
  match c with OS => "os" | SERVICES => "services" | CONFIG => "config" | USER => "user" end.

Definition _STRONG_OS : list string :=
  ["etc"; "boot"; "sys"; "proc"; "windows"; "system32"; "winsxs"; "programdata"; "program files"; "program files (x86)"].

Definition _ROOT_OS : list string := ["usr"; "bin"; "sbin"; "lib"; "lib64"; "dev"; "run"; "root"; "var"].

Definition _SERVICE_DIRS : list string :=
  ["overlay2"; "containers"; "containerd"; "volumes"; "pgdata"; "postgres"; "postgresql"; "mysql"; "mariadb"; "mongodb"; "mongo";
   "redis"; "valkey"; "etcd"; "appdata"; ".config"].

Definition HIGH_RISK : list RiskClass := [OS; SERVICES].

Definition _is_config_file (name : string) : bool :=
  let n := lower name in
  if bool_decide (n = ".env") || endswith ".env" n then true
  else if startswith "docker-compose" n || startswith "compose." n then true
  else if bool_decide (n = "dockerfile") || startswith "dockerfile." n then true
  else endswith ".conf" n || endswith ".cfg" n || endswith ".ini" n || endswith ".service" n || bool_decide (n = "nginx.conf").

(** [[c.strip().lower() for c in path.split("/") if c.strip()]]. *)
Definition comps (path : string) : list string :=
  (λ c, lower (strip c)) <$> filter (λ c, strip c ≠ "") (split_char "/" path).

Definition strip_alias (cs : list string) : list string :=
  match cs with c :: cs' => if bool_decide (c = "scan") then cs' else cs | [] => cs end.

Definition is_service (c : string) : bool := bool_decide (c ∈ _SERVICE_DIRS) || contains "docker" c.

Definition classify_path (path : string) (name : option string) : RiskClass :=
  let cs := comps path in
  let base := lower (match name with Some (String _ _ as n) => n | _ => default "" (last cs) end) in
  let real := strip_alias cs in
  if existsb (λ c, bool_decide (c ∈ _STRONG_OS)) real then OS
  else if _is_config_file base then CONFIG
  else if existsb is_service real then SERVICES
  else if match real with c :: _ => bool_decide (c ∈ _ROOT_OS) | [] => false end then OS
  else USER.

(** The counts, as the dict of the code in its order. *)
Definition count_path (counts : list (RiskClass * Z)) (p : string) : list (RiskClass * Z) :=
  let c := classify_path p None in dict_set c (default 0%Z (dict_get c counts) + 1)%Z counts.

Definition classify_paths (paths : list string) : list (RiskClass * Z) :=
  foldl count_path [(OS, 0%Z); (SERVICES, 0%Z); (CONFIG, 0%Z); (USER, 0%Z)] paths.

(** [risk_counts[c]]. *)
Definition count_of (c : RiskClass) (counts : list (RiskClass * Z)) : Z := default 0%Z (dict_get c counts).

(** ** Lemmas *)

Lemma comps_slash p q : comps (p +:+ String "/" q) = comps p ++ comps q.
Proof. unfold comps. by rewrite split_char_concat, filter_app, fmap_app. Qed.

Lemma comps_lead q : comps (String "/" q) = comps q.
Proof. change (String "/" q) with ("" +:+ String "/" q). by rewrite comps_slash. Qed.

(** Only the components and the basename matter: neither case, nor blanks around a component, nor repeated slashes do. *)
Lemma classify_by_comps p q : comps p = comps q → classify_path p None = classify_path q None.
Proof. intros H. unfold classify_path. by rewrite H. Qed.

(** A directory of the operating system makes everything below it OS, wherever it is, whatever surrounds it. *)
Lemma strong_os_anywhere p d q :
  lower (strip d) ∈ _STRONG_OS → has_char "/" d = false →
  classify_path (p +:+ String "/" (d +:+ String "/" q)) None = OS.
Proof.
  intros Hd Hs. unfold classify_path. rewrite !comps_slash.
  assert (comps d = [lower (strip d)]) as ->.
  { unfold comps. rewrite split_char_none by done. rewrite filter_cons_True; [by rewrite filter_nil|].
    intros E. rewrite E in Hd. vm_compute in Hd. repeat (apply elem_of_cons in Hd as [Hd|Hd]; [done|]). by apply not_elem_of_nil in Hd. }
  assert (lower (strip d) ∈ strip_alias (comps p ++ [lower (strip d)] ++ comps q)) as Hin.
  { assert (lower (strip d) ≠ "scan") as Hne.
    { intros E. rewrite E in Hd. repeat (apply elem_of_cons in Hd as [Hd|Hd]; [done|]). by apply not_elem_of_nil in Hd. }
    destruct (comps p) as [|c cs]; cbn [app strip_alias].
    - rewrite bool_decide_false by done. left.
    - case_bool_decide; rewrite ?elem_of_cons, elem_of_app, elem_of_cons; tauto. }
  set (real := strip_alias _) in *. clearbody real.
  assert (existsb (λ c, bool_decide (c ∈ _STRONG_OS)) real = true) as ->; [|done].
  apply existsb_exists. exists (lower (strip d)). split; [by apply list_elem_of_In|by apply bool_decide_eq_true].
Qed.

(** The mount alias of an agent's container changes nothing. *)
Lemma scan_alias_transparent p :
  head (comps p) ≠ Some "scan" → classify_path ("/scan/" +:+ p) None = classify_path p None.
Proof.
  intros H. unfold classify_path. change ("/scan/" +:+ p) with ("/scan" +:+ String "/" p). rewrite comps_slash.
  change (comps "/scan") with ["scan"]. cbn [app strip_alias]. rewrite bool_decide_true by done.
  assert (strip_alias (comps p) = comps p) as ->.
  { unfold strip_alias. destruct (comps p); [done|]. rewrite bool_decide_false; [done|]. by intros ->. }
  destruct (comps p) as [|c cs]; [done|]. by rewrite last_cons_cons.
Qed.

(** *** The counts *)

Definition class_count (c : RiskClass) (paths : list string) : Z :=
  Z.of_nat (length (filter (λ p, classify_path p None = c) paths)).

Lemma classify_paths_count c paths : count_of c (classify_paths paths) = class_count c paths.
Proof.
  unfold classify_paths. set (d0 := [_; _; _; _]).
  assert (∀ l d, count_of c (foldl count_path d l) = count_of c d + class_count c l)%Z as H.
  { induction l as [|p l IH]; intros d; cbn [foldl]; [unfold class_count; cbn; lia|].
    rewrite IH. unfold class_count. rewrite filter_cons. unfold count_path, count_of. rewrite dict_get_set.
    case_decide as E; [subst c|done]. cbn [from_option length]. unfold id. lia. }
  rewrite H. by destruct c.
Qed.

(** A plan is high-risk exactly when one of its paths is. *)
Lemma high_risk_iff paths :
  existsb (λ c, bool_decide (0 < count_of c (classify_paths paths))%Z) HIGH_RISK = true ↔
  ∃ p, p ∈ paths ∧ classify_path p None ∈ HIGH_RISK.
Proof.
  rewrite existsb_exists. split.
  - intros (c & Hc%list_elem_of_In & H). to_prop. rewrite classify_paths_count in H. unfold class_count in H.
    destruct (filter _ paths) as [|p l] eqn:E; [cbn in H; lia|].
    assert (p ∈ filter (λ p, classify_path p None = c) paths) as Hp by (rewrite E; left).
    apply list_elem_of_filter in Hp as [<- Hp]. by exists p.
  - intros (p & Hp & Hc). exists (classify_path p None). split; [by apply list_elem_of_In|]. apply bool_decide_eq_true.
    rewrite classify_paths_count. unfold class_count.
    assert (p ∈ filter (λ q, classify_path q None = classify_path p None) paths) as Hin by by apply list_elem_of_filter.
    destruct (filter _ paths); [by apply not_elem_of_nil in Hin|cbn; lia].
Qed.

(** ** What the classification misses *)

(** The paths of a Windows agent have backslashes: they are one component, and never OS. *)
Lemma windows_path_is_user : classify_path "C:\Windows\System32\drivers\etc\hosts" None = USER.
Proof. reflexivity. Qed.

(** The client's list of configuration suffixes has [.nginx]. *)
Lemma nginx_site_is_user : classify_path "/scan/data/sites/shop.nginx" None = USER.
Proof. reflexivity. Qed.
