(* ===== verification/PlanStore.v ===== *)
(** The tables of the remediation plans ([src/fathom/core/remediation/models.py]) and what the routes share in writing and reading
    them: the rows of a plan, the plan of its rows, and a flush together with the audit rows of the session. *)

From stdpp Require Import pretty.
From S2P Require Import Prelude PyStr PyInt Json PyTime Sql AuditLog AuditStore Jobs.

Local Open Scope Z_scope.


(** ** The rows *)

Record RemediationPlanItemRow := mk_item_row {
  ir_plan : Z; ir_entry_id : Z; ir_path : string; ir_prior_inode : Z; ir_prior_size : Z; ir_prior_hash : option string;
  ir_action : string; ir_dest_rel : option string;
}.

Record RemediationPlanRow := mk_plan_row {
  pr_id : Z; pr_plan_id : string; pr_created_by : string; pr_host_id : string; pr_volume_id : option Z; pr_keeper_path : string;
  pr_status : string; pr_blast_count : Z; pr_reclaimable_bytes : Z; pr_idempotency_key : option string; pr_move_root : option string;
}.

(** [remediation_plan] and [remediation_plan_item], in id order. *)
Record plan_db := mk_plan_db { plan_rows : list RemediationPlanRow; item_rows : list RemediationPlanItemRow }.

(** [select ... where plan_id = row.id]. *)
Definition items_of (row : RemediationPlanRow) (d : plan_db) : list RemediationPlanItemRow :=
  filter (λ i, ir_plan i = pr_id row) (item_rows d).

Definition find_plan (plan_id : string) (d : plan_db) : option RemediationPlanRow :=
  hd_error (filter (λ r, pr_plan_id r = plan_id) (plan_rows d)).

(** The replay lookup: bound to the requesting principal. *)
Definition find_idempotent (key created_by : string) (d : plan_db) : option RemediationPlanRow :=
  hd_error (filter (λ r, pr_idempotency_key r = Some key ∧ pr_created_by r = created_by) (plan_rows d)).

(** UNIQUE [plan_id] and UNIQUE [idempotency_key], where NULLs differ. *)
Definition plan_unique (plan_id : string) (key : option string) (d : plan_db) : bool :=
  forallb (λ r, negb (bool_decide (pr_plan_id r = plan_id)) &&
                negb (match key with Some k => bool_decide (pr_idempotency_key r = Some k) | None => false end)) (plan_rows d).

(** ** A plan as rows *)

Definition entry_int (e : EntryId) : option Z := match e with EInt z => Some z | EStr s => py_int s end.

(** What a build route knows beside the plan. *)
Record plan_meta := mk_pmeta {
  pm_host_id : string; pm_volume_id : option Z; pm_bytes : Z; pm_key : option string;
}.

Definition plan_row (id : Z) (p : RemediationPlan) (m : plan_meta) : RemediationPlanRow :=
  mk_plan_row id (plan_id p) (created_by p) (pm_host_id m) (pm_volume_id m) (keeper_path p) "built" (Z.of_nat (length (items p)))
    (pm_bytes m) (pm_key m) (move_root p).

Definition item_row (id : Z) (i : PlanItem) : option RemediationPlanItemRow :=
  e ← entry_int (entry_id i);
  Some (mk_item_row id e (path i) (prior_inode i) (prior_size i) (prior_hash i) (action_value (action i)) (dest_rel i)).

(** What a flush may raise: an IntegrityError, or before it the ValueError of [int(item.entry_id)]. *)
Inductive StoreError := IntegrityError | BadEntryId.

Definition insert_plan (p : RemediationPlan) (m : plan_meta) (d : plan_db) : result StoreError (RemediationPlanRow * plan_db) :=
  let id := next_id pr_id (plan_rows d) in
  match mapM (item_row id) (items p) with
  | None => Err BadEntryId
  | Some rows =>
      if plan_unique (plan_id p) (pm_key m) d
      then Ok (plan_row id p m, mk_plan_db (plan_rows d ++ [plan_row id p m]) (item_rows d ++ rows))
      else Err IntegrityError
  end.

Definition set_status (st : string) (r : RemediationPlanRow) : RemediationPlanRow :=
  mk_plan_row (pr_id r) (pr_plan_id r) (pr_created_by r) (pr_host_id r) (pr_volume_id r) (pr_keeper_path r) st (pr_blast_count r)
    (pr_reclaimable_bytes r) (pr_idempotency_key r) (pr_move_root r).

Definition update_status (row : RemediationPlanRow) (st : string) (d : plan_db) : plan_db :=
  mk_plan_db (update_where (λ r, bool_decide (pr_id r = pr_id row)) (set_status st) (plan_rows d)) (item_rows d).

(** ** Rows as a plan *)

Definition plan_action (v : string) : option PlanAction :=
  if bool_decide (v = "quarantine") then Some QUARANTINE else if bool_decide (v = "hardlink") then Some HARDLINK
  else if bool_decide (v = "hard_delete") then Some HARD_DELETE else if bool_decide (v = "move") then Some MOVE else None.

Definition domain_item (r : RemediationPlanItemRow) : option PlanItem :=
  a ← plan_action (ir_action r);
  Some (mk_item (EInt (ir_entry_id r)) (ir_path r) (ir_prior_inode r) (ir_prior_size r) (ir_prior_hash r) a (ir_dest_rel r)).

(** None is the ValueError of an unknown action or of a model that does not validate. *)
Definition _domain_plan (row : RemediationPlanRow) (rows : list RemediationPlanItemRow) : option RemediationPlan :=
  its ← mapM domain_item rows;
  let p := mk_plan (pr_plan_id row) (pr_created_by row) (pr_keeper_path row) its (pr_move_root row) in
  if plan_valid p then Some p else None.

(** ** The audit rows of a session

    [build_persistent_chain] reads the head when the chain is built and its sink only adds to the session: the rows are inserted,
    and meet the UNIQUE constraints, at the flush. *)

Section Flush.
Context {B : Backend}.

Fixpoint flush_rows (staged : list AuditRecord) (d : audit_db) : bool * audit_db :=
  match staged with
  | [] => (true, d)
  | r :: rest => let '(ok, d) := insert_row r d in if ok then flush_rows rest d else (false, d)
  end.

(** After a rollback only what a sequence consumed is left. *)
Definition rolled_back (d d' : audit_db) : audit_db :=
  mk_db (rows d) (if burns_seq then next_seq d' else next_seq d) (checkpoints d).

Definition flush_audit (staged : list AuditRecord) (d : audit_db) : bool * audit_db :=
  match flush_rows staged d with
  | (true, d') => (true, d')
  | (false, d') => (false, rolled_back d d')
  end.
End Flush.

(** ** Lemmas *)

Lemma filter_fmap {A C} (P : C → Prop) `{!∀ x, Decision (P x)} (f : A → C) (l : list A) :
  filter P (f <$> l) = f <$> filter (λ x, P (f x)) l.
Proof. induction l as [|x l IH]; [done|]. rewrite fmap_cons, !filter_cons, IH. by case_decide. Qed.

Lemma next_id_fresh {A} (id : A → Z) l x : x ∈ l → id x < next_id id l.
Proof.
  unfold next_id. induction l as [|y l IH]; [by intros ?%not_elem_of_nil|]. rewrite elem_of_cons. cbn [foldr].
  intros [->|H]; [lia|]. specialize (IH H). lia.
Qed.

Lemma plan_action_value a : plan_action (action_value a) = Some a.
Proof. by destruct a. Qed.

Lemma plan_action_some v a : plan_action v = Some a → v = action_value a.
Proof. unfold plan_action. repeat case_bool_decide; by intros [= <-]. Qed.

Lemma domain_item_row id i r : entry_id i = EInt (default 0 (entry_int (entry_id i))) → item_row id i = Some r → domain_item r = Some i.
Proof.
  destruct i as [[e|e] p ino sz h a dst]; cbn; [|done]. intros _ [= <-]. unfold domain_item. cbn. by rewrite plan_action_value.
Qed.

Lemma domain_items_rows id its rows :
  Forall (λ i, ∃ z, entry_id i = EInt z) its → mapM (item_row id) its = Some rows → mapM domain_item rows = Some its.
Proof.
  intros Hf H%mapM_Some_1. apply mapM_Some_2. revert rows H Hf. induction its as [|i its IH]; intros rows H Hf; inversion H; subst; [done|].
  apply Forall_cons in Hf as [(z & Hz) Hf]. constructor; [|by apply IH]. eapply domain_item_row; [|done]. by rewrite Hz.
Qed.

Lemma item_rows_plan id its rows : mapM (item_row id) its = Some rows → Forall (λ r, ir_plan r = id) rows.
Proof.
  intros H%mapM_Some_1. induction H as [|i r its rows Hi _ IH]; [done|]. constructor; [|done].
  unfold item_row in Hi. destruct (entry_int _); [|done]. by injection Hi as <-.
Qed.

(** *** The invariant of the tables *)

Record plans_inv (d : plan_db) : Prop := {
  pi_ids : NoDup (pr_id <$> plan_rows d);
  pi_plan_ids : NoDup (pr_plan_id <$> plan_rows d);
  pi_keys : NoDup (omap pr_idempotency_key (plan_rows d));
  pi_items : Forall (λ i, ir_plan i ∈ pr_id <$> plan_rows d) (item_rows d);
  pi_load : Forall (λ r, ∃ p, _domain_plan r (items_of r d) = Some p ∧ pr_blast_count r = Z.of_nat (length (items p))) (plan_rows d);
}.

Lemma plan_unique_spec pid key d :
  plan_unique pid key d = true ↔
  pid ∉ pr_plan_id <$> plan_rows d ∧ ∀ k, key = Some k → k ∉ omap pr_idempotency_key (plan_rows d).
Proof.
  unfold plan_unique. rewrite forallb_forall. split.
  - intros H. split.
    + intros (r & -> & Hr%list_elem_of_In)%list_elem_of_fmap. apply H in Hr. to_prop. congruence.
    + intros k -> (r & Hr%list_elem_of_In & E)%list_elem_of_omap. apply H in Hr. to_prop. congruence.
  - intros [H1 H2] r Hr%list_elem_of_In. apply andb_true_iff. split; apply negb_true_iff.
    + apply bool_decide_eq_false. intros E. apply H1. rewrite <- E. by apply list_elem_of_fmap_2.
    + destruct key as [k|]; [|done]. apply bool_decide_eq_false. intros E. apply (H2 k eq_refl). apply list_elem_of_omap. eauto.
Qed.

Lemma items_of_app r d rows ps :
  items_of r (mk_plan_db ps (item_rows d ++ rows)) = items_of r d ++ filter (λ i, ir_plan i = pr_id r) rows.
Proof. unfold items_of. cbn. by rewrite filter_app. Qed.

(** A stored plan reads back as it was built, and the plans stored before it as they were. *)
Lemma insert_plan_spec p m d row d' :
  plans_inv d → plan_valid p = true → Forall (λ i, ∃ z, entry_id i = EInt z) (items p) → insert_plan p m d = Ok (row, d') →
  row = plan_row (next_id pr_id (plan_rows d)) p m ∧ plan_rows d' = plan_rows d ++ [row] ∧
  _domain_plan row (items_of row d') = Some p ∧ (∀ r, r ∈ plan_rows d → items_of r d' = items_of r d) ∧
  plan_id p ∉ pr_plan_id <$> plan_rows d ∧ (∀ k, pm_key m = Some k → k ∉ omap pr_idempotency_key (plan_rows d)).
Proof.
  intros [Hid Hpid Hkey Hit Hld] Hv Hz. unfold insert_plan. set (id := next_id _ _).
  destruct (mapM (item_row id) (items p)) as [rows|] eqn:Em; [|done].
  destruct (plan_unique _ _ _) eqn:Eu; [|done]. intros [= <- <-]. apply plan_unique_spec in Eu as [Hu1 Hu2].
  pose proof (item_rows_plan _ _ _ Em) as Hr. assert (∀ r, r ∈ plan_rows d → pr_id r < id) as Hlt by (intros r Hin; by apply next_id_fresh).
  split_and!; try done.
  - rewrite items_of_app. unfold items_of. cbn. rewrite filter_none, filter_all; cbn.
    + unfold _domain_plan. rewrite (domain_items_rows id (items p)) by done. cbn. destruct p. cbn in *. by rewrite Hv.
    + eapply Forall_impl; [done|]. done.
    + eapply Forall_impl; [done|]. cbn. intros i (r & E & Hin)%list_elem_of_fmap Ei. apply Hlt in Hin. lia.
  - intros r Hin. rewrite items_of_app, (filter_none _ rows), app_nil_r; [done|].
    eapply Forall_impl; [done|]. cbn. intros i -> E. apply Hlt in Hin. lia.
Qed.

Lemma omap_snoc {A C} (f : A → option C) l x : omap f (l ++ [x]) = omap f l ++ match f x with Some y => [y] | None => [] end.
Proof. induction l as [|y l IH]; cbn; [by destruct (f x)|]. destruct (f y); cbn; by rewrite IH. Qed.

Lemma insert_plan_inv p m d row d' :
  plans_inv d → plan_valid p = true → Forall (λ i, ∃ z, entry_id i = EInt z) (items p) → insert_plan p m d = Ok (row, d') → plans_inv d'.
Proof.
  intros Hd Hv Hz Hi. pose proof (insert_plan_spec p m d row d' Hd Hv Hz Hi) as (Er & Ep & Hld' & Hsame & Hu1 & Hu2).
  destruct Hd as [Hid Hpid Hkey Hit Hld].
  assert (Forall (λ i, ir_plan i ∈ pr_id <$> plan_rows d') (item_rows d')) as Hit'.
  { unfold insert_plan in Hi. destruct (mapM _ _) as [rows|] eqn:Em; [|done]. destruct (plan_unique _ _ _); [|done].
    injection Hi as _ <-. cbn. apply item_rows_plan in Em. rewrite fmap_app. apply Forall_app. split.
    - eapply Forall_impl; [done|]. intros i H. cbn. apply elem_of_app. by left.
    - eapply Forall_impl; [done|]. intros i ->. apply elem_of_app. right. left. }
  split; rewrite ?Ep, ?fmap_app, ?omap_snoc.
  - apply NoDup_snoc; [done|]. rewrite Er. cbn. intros (r & E & Hin)%list_elem_of_fmap. apply (next_id_fresh pr_id) in Hin. lia.
  - apply NoDup_snoc; [done|]. by rewrite Er.
  - rewrite Er. cbn. destruct (pm_key m) as [k|]; [|by rewrite app_nil_r]. apply NoDup_snoc; auto.
  - rewrite <- fmap_app, <- Ep. exact Hit'.
  - apply Forall_app. split.
    + apply Forall_forall. intros r Hin. rewrite Hsame by done. rewrite Forall_forall in Hld. auto.
    + repeat constructor. exists p. split; [done|]. by rewrite Er.
Qed.

Lemma update_status_inv row st d : plans_inv d → plans_inv (update_status row st d).
Proof.
  intros [Hid Hpid Hkey Hit Hld].
  assert (∀ (K : Type) (f : RemediationPlanRow → K), (∀ r, f (set_status st r) = f r) →
    f <$> plan_rows (update_status row st d) = f <$> plan_rows d) as Hf.
  { intros K f Hf. cbn. unfold update_where. rewrite <- list_fmap_compose. apply list_fmap_ext. intros i r _. cbn. by case_bool_decide. }
  split.
  - by rewrite Hf.
  - by rewrite Hf.
  - assert (∀ l : list RemediationPlanRow, omap pr_idempotency_key l = omap id (pr_idempotency_key <$> l)) as Ho.
    { induction l as [|r l IH]; [done|]. cbn. rewrite IH. by destruct (pr_idempotency_key r). }
    rewrite Ho, Hf by done. by rewrite <- Ho.
  - by rewrite Hf.
  - apply Forall_forall. intros r (r0 & -> & H)%list_elem_of_fmap. rewrite Forall_forall in Hld.
    destruct (Hld _ H) as (p & Hp & Hc). exists p. by case_bool_decide.
Qed.

(** The lookups of the routes. *)
Lemma find_plan_some pid d row : find_plan pid d = Some row → row ∈ plan_rows d ∧ pr_plan_id row = pid.
Proof. unfold find_plan. intros H%head_Some_elem_of. apply list_elem_of_filter in H. tauto. Qed.

Lemma find_plan_stored d row : plans_inv d → row ∈ plan_rows d → find_plan (pr_plan_id row) d = Some row.
Proof. intros [_ Hn _ _ _] H. exact (at_key_elem pr_plan_id (plan_rows d) row Hn H). Qed.

Lemma find_idempotent_some k by_ d row :
  find_idempotent k by_ d = Some row → row ∈ plan_rows d ∧ pr_idempotency_key row = Some k ∧ pr_created_by row = by_.
Proof. unfold find_idempotent. intros H%head_Some_elem_of. apply list_elem_of_filter in H. tauto. Qed.

(** The key of a plan just inserted finds it. *)
Lemma find_idempotent_new k by_ d row ps :
  plan_rows ps = plan_rows d ++ [row] → k ∉ omap pr_idempotency_key (plan_rows d) →
  pr_idempotency_key row = Some k → pr_created_by row = by_ → find_idempotent k by_ ps = Some row.
Proof.
  intros Ep Hk Ek Eb. unfold find_idempotent. rewrite Ep, filter_app, filter_none; cbn.
  - case_decide; naive_solver.
  - apply Forall_forall. intros r Hr [E _]. apply Hk, list_elem_of_omap. eauto.
Qed.

(** *** A flush continues the chain, or fails *)

Section FlushLemmas.
Context {B : Backend} (blake3_hex : string → string).
Abbreviation audit_inv := (AuditStore.audit_inv blake3_hex).
Abbreviation verify_chain := (AuditLog.verify_chain blake3_hex).

Lemma verify_chain_cons g r l :
  verify_chain g (r :: l) = true ↔ prev_hash r = g ∧ built_on blake3_hex r ∧ verify_chain (row_hash r) l = true.
Proof.
  unfold built_on, record_payload. cbn [AuditLog.verify_chain]. rewrite !andb_true_iff, !bool_decide_eq_true.
  split; [intros [[<- <-] ?]|intros (<- & <- & ?)]; done.
Qed.

Lemma flush_at_head staged d d' :
  audit_inv d → verify_chain (load_head d) staged = true → flush_rows staged d = (true, d') →
  audit_inv d' ∧ checkpoints d' = checkpoints d ∧ ∃ k, rows d' = rows d ++ k ∧ k.*2 = staged.
Proof.
  revert d. induction staged as [|r staged IH]; intros d Hd Hv H; [injection H as <-; split_and!; try done; exists []; by rewrite app_nil_r|].
  apply verify_chain_cons in Hv as (Hp & Hb & Hv). cbn in H.
  assert (seen_head d (prev_hash r)) as Hs by (rewrite Hp; apply load_head_seen).
  pose proof (insert_row_inv blake3_hex r d Hd Hb Hs) as Hd1. destruct (insert_row r d) as [[] d1] eqn:Ei; [|done].
  apply (insert_row_accepts blake3_hex) in Ei as [_ ->]; [|done..]. cbn in Hd1.
  apply IH in H as (Hd' & Hc & k & Ek & Ek2); [|done|].
  - split_and!; [done|done|]. exists ((next_seq d, r) :: k). cbn in Ek. rewrite <- app_assoc in Ek. split; [done|]. cbn. by rewrite Ek2.
  - unfold load_head. cbn. by rewrite last_snoc.
Qed.

(** The rows of a session land only if no other writer has moved the head since the session read it. *)
Lemma flush_unmoved staged d0 d d' :
  audit_inv d → rows d0 `prefix_of` rows d → verify_chain (load_head d0) staged = true → staged ≠ [] →
  flush_audit staged d = (true, d') →
  rows d = rows d0 ∧ audit_inv d' ∧ ∃ k, rows d' = rows d0 ++ k ∧ k.*2 = staged.
Proof.
  intros Hd [k Ek] Hv Hne H. unfold flush_audit in H. destruct (flush_rows staged d) as [[] d1] eqn:Ef; [|done]. injection H as ->.
  assert (rows d = rows d0) as Erows.
  { destruct staged as [|r staged]; [done|]. apply verify_chain_cons in Hv as (Hp & _). cbn in Ef. destruct (insert_row r d) as [[] d2] eqn:Ei; [|done].
    assert (unique_ok r d = true) as [Hu _]%unique_ok_spec by (unfold insert_row in Ei; by case_match).
    destruct k as [|[s x] k]; [by rewrite Ek, app_nil_r|]. exfalso. apply Hu.
    destruct Hd as [Hc _ _ _ _ _]. unfold persisted_records in *. rewrite Ek, fmap_app in Hc |- *.
    rewrite verify_chain_app in Hc. apply andb_true_iff in Hc as [_ Hc]. apply verify_chain_cons in Hc as (Hx & _).
    rewrite fmap_app. apply elem_of_app. right. rewrite Hp, load_head_after. unfold persisted_records. rewrite <- Hx. left. }
  split; [done|]. assert (load_head d0 = load_head d) as Eh by (unfold load_head; by rewrite Erows).
  rewrite Eh in Hv. destruct (flush_at_head staged d d' Hd Hv Ef) as (? & _ & k' & Ek' & ?). split; [done|]. exists k'. by rewrite <- Erows.
Qed.

Lemma rolled_back_inv d d' : audit_inv d → next_seq d <= next_seq d' → audit_inv (rolled_back d d').
Proof.
  intros [Hc Hs Hr Hn Hp Hw] Hle. split; unfold rolled_back; cbn; try done.
  - eapply Forall_impl; [done|]. cbn. intros s ?. destruct burns_seq; lia.
  - destruct burns_seq; lia.
Qed.
End FlushLemmas.
