(* ===== verification/Remediation.v ===== *)
(** The remediation routes ([src/fathom/api/routers/remediation.py]): building a plan from a duplicate group, its dry run, its
    execution, the quarantine requests and the audit page.

    A request is one session: the audit records of the orchestrator are added to it as they are made and inserted at the flush, so an
    exception after a dispatch takes them back.  What the other writers commit while the request runs is a function on the tables,
    applied before the flush.  A route returns its reply, the committed tables and the signed jobs that left meanwhile. *)

From stdpp Require Import gmap pretty.
From S2P Require Import Prelude PyStr PyDict PyInt Json PyTime AuditLog AuditStore Rbac Catalogue Jobs Signing Orchestrator Preview PreviewRoute RiskClass PlanStore.
From S2P Require Auth DedupStore.

Local Open Scope Z_scope.


Record rem_db := mk_rdb { r_audit : audit_db; r_plans : plan_db }.

(** The catalogue and the duplicate report, which the routes only read. *)
Record estate := mk_estate {
  es_catalogue : catalogue; es_groups : list (Z * DedupStore.DupGroup); es_members : list (Z * DedupStore.DupMember);
}.

Record RemSettings := mk_rsettings {
  remediation_enabled : bool; remediation_blast_cap : nat; remediation_job_ttl_seconds : Z; quarantine_retention_days : Z;
}.

Record RemediationRuntime := mk_runtime {
  signer : DispatchJob → SignedJob;
  dry_run_dispatch : SignedJob → result string drift_report;
  execute_dispatch : SignedJob → result string ExecuteOutcome;
}.

Definition get_runtime (runtime : option RemediationRuntime) : reply RemediationRuntime :=
  match runtime with Some rt => Ok rt | None => http 503 "remediation runtime not provisioned (no signing key / dispatch channel)" end.

(** A dependency or check that raises an HTTPException. *)
Definition lift {A} (r : result HTTPException A) : reply A := match r with Ok a => Ok a | Err e => Err (Some e) end.

Definition guard (capability : Capability) (p : Principal) : reply ScopeFilter := lift (Auth.require capability p).

Definition _require_enabled (settings : RemSettings) : reply () :=
  if remediation_enabled settings then Ok () else http 403 "remediation is disabled (remediation_enabled=False)".

Definition unprocessable {A} : reply A := http 422 "request validation".

(** ** Rows and replies *)

Record PlanOut := mk_plan_out {
  po_plan_id : string; po_keeper_path : string; po_host_id : string; po_blast_count : Z; po_reclaimable_bytes : Z; po_status : string;
  po_items : list (Z * string * string);
}.

Definition _plan_out (row : RemediationPlanRow) (d : plan_db) : PlanOut :=
  mk_plan_out (pr_plan_id row) (pr_keeper_path row) (pr_host_id row) (pr_blast_count row) (pr_reclaimable_bytes row) (pr_status row)
    ((λ i, (ir_entry_id i, ir_path i, ir_action i)) <$> items_of row d).

Definition _load_plan (plan_id : string) (d : plan_db) : reply RemediationPlanRow :=
  match find_plan plan_id d with Some row => Ok row | None => http 404 "plan not found" end.

(** [scope.check_target(host_id=int(row.host_id), volume_id=row.volume_id)]. *)
Definition check_row (scope : ScopeFilter) (row : RemediationPlanRow) : reply () :=
  match py_int (pr_host_id row) with None => Err None | Some h => lift (check_target scope h (pr_volume_id row) None) end.

Definition plan_host (est : estate) (row : RemediationPlanRow) : reply Host :=
  match py_int (pr_host_id row) with
  | None => Err None
  | Some h => match find_host (es_catalogue est) h with Some host => Ok host | None => http 409 "target host missing" end
  end.

(** The plan of a row; an exception here is not mapped. *)
Definition plan_of (row : RemediationPlanRow) (d : plan_db) : reply RemediationPlan :=
  match _domain_plan row (items_of row d) with Some p => Ok p | None => Err None end.

(** ** Building a plan *)

Record BuildPlanRequest := mk_build_request {
  b_group_id : Z; b_keep_entry_id : Z; b_action : PlanAction; b_idempotency_key : option string;
}.

Definition build_in_ok (b : BuildPlanRequest) : bool :=
  (1 <=? b_group_id b) && (1 <=? b_keep_entry_id b) &&
  match b_idempotency_key b with Some k => (String.length k <=? 128)%nat | None => true end.

(** The loop over the members: each in scope, each with its catalogue entry. *)
Fixpoint load_members (est : estate) (scope : ScopeFilter) (ms : list DedupStore.DupMember) : reply (list GroupMember) :=
  match ms with
  | [] => Ok []
  | m :: ms =>
      _ ← lift (check_target scope (DedupStore.m_host_id m) (Some (DedupStore.m_volume_id m)) None);
      match find_entry (es_catalogue est) (DedupStore.m_entry_id m) with
      | None => http 409 "catalogue entry missing (rescan required)"
      | Some e =>
          rest ← load_members est scope ms;
          Ok (mk_group_member (DedupStore.m_entry_id m) (DedupStore.m_host_id m) (DedupStore.m_volume_id m) (Catalogue.path e)
                (inode e) (size_logical e) :: rest)
      end
  end.

Definition group_members (est : estate) (group_id : Z) : list DedupStore.DupMember :=
  (filter (λ m, m.1 = group_id) (es_members est)).*2.

Definition _load_group_members (est : estate) (group_id : Z) (scope : ScopeFilter) : reply (DedupStore.DupGroup * list GroupMember) :=
  match hd_error (filter (λ g, g.1 = group_id) (es_groups est)) with
  | None => http 404 "duplicate group not found"
  | Some g =>
      match group_members est group_id with
      | [] => http 404 "group has no members"
      | ms => out ← load_members est scope ms; Ok (g.2, out)
      end
  end.

(** The replay of a request with its key. *)
Definition replay (scope : ScopeFilter) (principal : Principal) (body : BuildPlanRequest) (d : plan_db) : reply (option PlanOut) :=
  match b_idempotency_key body with
  | None => Ok None
  | Some k =>
      match find_idempotent k (subject principal) d with
      | None => Ok None
      | Some row => _ ← check_row scope row; Ok (Some (_plan_out row d))
      end
  end.

(** Everything before the plan is built: the reply of a replay, or the group, its members and the runtime. *)
Definition build_inputs (principal : Principal) (settings : RemSettings) (runtime : option RemediationRuntime) (est : estate)
    (body : BuildPlanRequest) (d : plan_db) : reply (PlanOut + DedupStore.DupGroup * list GroupMember * RemediationRuntime) :=
  scope ← guard BUILD_REMEDIATION principal;
  _ ← (if build_in_ok body then Ok () else unprocessable);
  _ ← _require_enabled settings;
  cached ← replay scope principal body d;
  match cached with
  | Some out => Ok (inl out)
  | None =>
      '(g, members) ← _load_group_members est (b_group_id body) scope;
      _ ← (if existsb (λ m, bool_decide (gm_entry_id m = b_keep_entry_id body)) members then Ok ()
           else http 422 "keep_entry_id is not a member of the group");
      rt ← get_runtime runtime;
      Ok (inr (g, members, rt))
  end.

(** [str(members[0].host_id)]. *)
Definition target_host (members : list GroupMember) : string :=
  match members with m :: _ => pretty (gm_host_id m) | [] => "" end.

Section Routes.
Context {B : Backend} (blake3_hex : string → string).

(** [session.add] refuses nothing. *)
Definition never_refuses (r : AuditRecord) : bool := false.

(** [build_persistent_chain] at the start of a request, and no job sent. *)
Definition session_start (d : audit_db) : orch := mk_orch (mk_chain (load_head d) []) [].

Definition staged (w : orch) : list AuditRecord := sunk (o_chain w).

(** The flush of a new plan with the staged records: both are inserted, or an IntegrityError takes both back. *)
Definition flush_plan (p : RemediationPlan) (m : plan_meta) (w : orch) (d : rem_db)
    : result StoreError RemediationPlanRow * rem_db :=
  match insert_plan p m (r_plans d), flush_audit (staged w) (r_audit d) with
  | Ok (row, ps), (true, a) => (Ok row, mk_rdb a ps)
  | Ok _, (false, a) => (Err IntegrityError, mk_rdb a (r_plans d))
  | Err e, (_, a) => (Err e, mk_rdb (rolled_back (r_audit d) a) (r_plans d))
  end.

(** [build_plan_route]; [plan_id] is the fresh id. *)
Definition build_plan_route (principal : Principal) (settings : RemSettings) (runtime : option RemediationRuntime) (est : estate)
    (body : BuildPlanRequest) (plan_id : string) (now : datetime) (others : rem_db → rem_db) (d : rem_db) : reply PlanOut * rem_db :=
  match build_inputs principal settings runtime est body (r_plans d) with
  | Err e => (Err e, d)
  | Ok (inl out) => (Ok out, d)
  | Ok (inr (g, members, rt)) =>
      match build blake3_hex never_refuses now plan_id members (b_keep_entry_id body) (DedupStore.full_hash g) (subject principal)
              (b_action body) (session_start (r_audit d)) with
      | (Err PlanValueError, _) => (http 422 "invalid plan", d)
      | (Err _, _) => (Err None, d)
      | (Ok plan, w) =>
          let bytes := DedupStore.g_size g * Z.of_nat (length (items plan)) in
          match flush_plan plan (mk_pmeta (target_host members) None bytes (b_idempotency_key body)) w (others d) with
          | (Ok row, d) => (Ok (_plan_out row (r_plans d)), d)
          | (Err IntegrityError, d) => (http 409 "idempotency_key already in use", d)
          | (Err BadEntryId, d) => (Err None, d)
          end
      end
  end.

(** ** The dry run *)

Record DryRunOut := mk_dry_run_out { dr_plan_id : string; dr_ok : bool; dr_drifted : list (string * string) }.

(** [sorted(report.drifted.items())]: the keys are distinct. *)
Definition sorted_items (m : drift_report) : list (string * string) :=
  omap (λ k, (λ v, (k, v)) <$> m !! k) (stable_sort String.le (map_to_list m).*1).

(** The flush of a status change with the staged records; false for an IntegrityError. *)
Definition flush_status (row : RemediationPlanRow) (status : string) (w : orch) (d : rem_db) : bool * rem_db :=
  match flush_audit (staged w) (r_audit d) with
  | (true, a) => (true, mk_rdb a (update_status row status (r_plans d)))
  | (false, a) => (false, mk_rdb a (r_plans d))
  end.

Definition dry_run_inputs (principal : Principal) (settings : RemSettings) (runtime : option RemediationRuntime) (est : estate)
    (plan_id : string) (d : plan_db) : reply (RemediationPlanRow * RemediationPlan * Host * RemediationRuntime) :=
  scope ← guard BUILD_REMEDIATION principal;
  _ ← _require_enabled settings;
  row ← _load_plan plan_id d;
  _ ← check_row scope row;
  plan ← plan_of row d;
  host ← plan_host est row;
  rt ← get_runtime runtime;
  Ok (row, plan, host, rt).

Definition dry_run_route (principal : Principal) (settings : RemSettings) (runtime : option RemediationRuntime) (est : estate)
    (plan_id : string) (now : datetime) (nonce : string) (others : rem_db → rem_db) (d : rem_db)
    : reply DryRunOut * rem_db * list SignedJob :=
  match dry_run_inputs principal settings runtime est plan_id (r_plans d) with
  | Err e => (Err e, d, [])
  | Ok (row, plan, host, rt) =>
      match dry_run blake3_hex never_refuses (signer rt) (remediation_job_ttl_seconds settings) now nonce plan (h_name host)
              (dry_run_dispatch rt) (session_start (r_audit d)) with
      | (Err _, w) => (Err None, others d, o_sent w)
      | (Ok report, w) =>
          match flush_status row "dry_run" w (others d) with
          | (false, d) => (Err None, d, o_sent w)
          | (true, d) => (Ok (mk_dry_run_out plan_id (bool_decide (report = ∅)) (sorted_items report)), d, o_sent w)
          end
      end
  end.

(** ** The execution *)

Record ExecuteRequest := mk_execute_request { x_confirm_blast : bool; x_confirm_host : string }.

(** [str.casefold] on code points below 256: lower case, and a sharp s is two letters.  (U+00B5 folds to a letter above 255; no other
    of these does, so it may stand for itself.) *)
Definition casefold (s : string) : string := replace_char "223" "ss" (lower s).

Definition same_host_name (typed name : string) : bool := bool_decide (casefold (strip typed) = casefold (strip name)).

Definition execute_inputs (principal : Principal) (mfa : result HTTPException ()) (settings : RemSettings)
    (runtime : option RemediationRuntime) (est : estate) (plan_id : string) (body : ExecuteRequest) (d : plan_db)
    : reply (RemediationPlanRow * RemediationPlan * Host * RemediationRuntime) :=
  scope ← guard EXECUTE_REMEDIATION principal;
  _ ← lift mfa;
  _ ← (if (String.length (x_confirm_host body) <=? 255)%nat then Ok () else unprocessable);
  _ ← _require_enabled settings;
  row ← _load_plan plan_id d;
  _ ← check_row scope row;
  host ← plan_host est row;
  _ ← (if same_host_name (x_confirm_host body) (h_name host) then Ok () else http 422 "host confirmation does not match");
  plan ← plan_of row d;
  rt ← get_runtime runtime;
  Ok (row, plan, host, rt).

(** What the acknowledgement records. *)
Definition ack_state (host : Host) (row : RemediationPlanRow) (paths : list string) : pydict :=
  let risk_counts := classify_paths paths in
  [("confirm_host", JStr (h_name host)); ("host_id", JStr (pr_host_id row));
   ("risk_classes", JObj ((λ kv, (risk_value kv.1, JInt kv.2)) <$> filter (λ kv, 0 < kv.2) risk_counts));
   ("high_risk", JBool (existsb (λ c, bool_decide (0 < count_of c risk_counts)) HIGH_RISK));
   ("blast", JInt (Z.of_nat (length paths)))].

(** The acknowledgement, the mandatory dry run, the execution of what did not drift. *)
Definition execute_steps (principal : Principal) (settings : RemSettings) (rt : RemediationRuntime) (row : RemediationPlanRow)
    (plan : RemediationPlan) (host : Host) (confirm_blast : bool) (paths : list string) (now_ack now_dry now_exec : datetime)
    (nonce_dry nonce_exec : string) : stM orch (result OrchError (list (string * string * string))) :=
  let ttl := remediation_job_ttl_seconds settings in
  then_ (audit_ blake3_hex never_refuses now_ack (subject principal) "remediation.acknowledged" (pr_plan_id row) (ack_state host row paths)
           "acknowledged")
    (λ _, then_ (dry_run blake3_hex never_refuses (signer rt) ttl now_dry nonce_dry plan (h_name host) (dry_run_dispatch rt))
      (λ report, execute blake3_hex never_refuses (signer rt) (remediation_blast_cap settings) ttl now_exec nonce_exec plan report
                   (h_name host) confirm_blast (execute_dispatch rt))).

Definition execute_route (principal : Principal) (mfa : result HTTPException ()) (settings : RemSettings)
    (runtime : option RemediationRuntime) (est : estate) (plan_id : string) (body : ExecuteRequest) (now_ack now_dry now_exec : datetime)
    (nonce_dry nonce_exec : string) (others : rem_db → rem_db) (d : rem_db)
    : reply (list (string * string * string)) * rem_db * list SignedJob :=
  match execute_inputs principal mfa settings runtime est plan_id body (r_plans d) with
  | Err e => (Err e, d, [])
  | Ok (row, plan, host, rt) =>
      match execute_steps principal settings rt row plan host (x_confirm_blast body) (ir_path <$> items_of row (r_plans d)) now_ack now_dry
              now_exec nonce_dry nonce_exec (session_start (r_audit d)) with
      | (Err BlastCapExceededError, w) => (http 409 "execute touches more items than the server cap", others d, o_sent w)
      | (Err _, w) => (Err None, others d, o_sent w)
      | (Ok results, w) =>
          match flush_status row "executed" w (others d) with
          | (false, d) => (Err None, d, o_sent w)
          | (true, d) => (Ok results, d, o_sent w)
          end
      end
  end.

(** ** Quarantine requests *)

Definition _require_global_quarantine_scope (scope : ScopeFilter) : reply () :=
  if is_global scope then Ok () else http 403 "quarantine restore/purge requires a global-scope grant".

(** What the two routes share: the guards and the one record. *)
Definition quarantine_request (principal : Principal) (mfa : result HTTPException ()) (settings : RemSettings) (item action : string)
    (before : pydict) (now : datetime) (others : audit_db → audit_db) (d : audit_db) : reply () * audit_db :=
  match (scope ← guard QUARANTINE_MANAGE principal; _ ← lift mfa; _ ← _require_enabled settings; _require_global_quarantine_scope scope) with
  | Err e => (Err e, d)
  | Ok _ =>
      let '(_, w) := audit_ blake3_hex never_refuses now (subject principal) action item before "requested" (session_start d) in
      match flush_audit (staged w) (others d) with (true, d) => (Ok (), d) | (false, d) => (Err None, d) end
  end.

Definition quarantine_restore_route (principal : Principal) (mfa : result HTTPException ()) (settings : RemSettings) (item : string)
    (now : datetime) (others : audit_db → audit_db) (d : audit_db) : reply (string * string) * audit_db :=
  let '(r, d) := quarantine_request principal mfa settings item "quarantine.restore" [("item", JStr item)] now others d in
  ((λ _, (item, "restore_requested")) <$> r, d).

Definition quarantine_purge_route (principal : Principal) (mfa : result HTTPException ()) (settings : RemSettings) (item : string)
    (now : datetime) (others : audit_db → audit_db) (d : audit_db) : reply (string * string) * audit_db :=
  let '(r, d) := quarantine_request principal mfa settings item "quarantine.purge"
                   [("item", JStr item); ("retention_days", JInt (quarantine_retention_days settings))] now others d in
  ((λ _, (item, "purge_requested")) <$> r, d).

(** ** The audit page *)

Definition read_audit_route (principal : Principal) (cursor : option Z) (limit : Z) (d : audit_db)
    : reply (list (Z * AuditRecord) * option string) :=
  _ ← guard READ_AUDIT principal;
  if match cursor with Some c => 1 <=? c | None => true end && (1 <=? limit) && (limit <=? 200)
  then match persisted_records_page cursor (Z.to_nat limit) d with
       | Ok (page, next) => Ok (page, pretty <$> next)
       | Err _ => Err None
       end
  else unprocessable.
End Routes.

(** ** Laws *)

Lemma lift_ok {A} (r : result HTTPException A) a : lift r = Ok a ↔ r = Ok a.
Proof. destruct r; split; by intros [= ->]. Qed.

Lemma guard_ok cap p scope : guard cap p = Ok scope → scope = from_grants (grants p) cap.
Proof.
  unfold guard. intros H%lift_ok. unfold Auth.require in H. destruct (negb _); [done|]. destruct (is_empty _); [done|]. by injection H.
Qed.

Lemma require_ok (b : bool) st msg : (if b then Ok () else http st msg : reply ()) = Ok () ↔ b = true.
Proof. destruct b; split; done. Qed.

(** The grant by which a target is in reach. *)
Definition granted (p : Principal) (cap : Capability) (host : Z) (volume : option Z) : Prop :=
  ∃ g, g ∈ grants p ∧ role_has (g_role g) cap = true ∧ grant_covers g host volume None = true.

Lemma check_target_granted cap p scope host volume :
  guard cap p = Ok scope → check_target scope host volume None = Ok () → granted p cap host volume.
Proof. intros ->%guard_ok H%check_target_allows. by apply from_grants_allows. Qed.

Lemma check_row_granted cap p scope row :
  guard cap p = Ok scope → check_row scope row = Ok () → ∃ h, py_int (pr_host_id row) = Some h ∧ granted p cap h (pr_volume_id row).
Proof.
  intros Hg. unfold check_row. destruct (py_int _) as [h|]; [|done]. intros H%lift_ok. exists h. split; [done|]. by eapply check_target_granted.
Qed.

Lemma replay_ok scope principal body d out :
  replay scope principal body d = Ok (Some out) →
  ∃ key row, b_idempotency_key body = Some key ∧ row ∈ plan_rows d ∧ pr_idempotency_key row = Some key ∧
    pr_created_by row = subject principal ∧ find_idempotent key (subject principal) d = Some row ∧ out = _plan_out row d.
Proof.
  unfold replay. destruct (b_idempotency_key body) as [key|]; [|done]. destruct (find_idempotent _ _ _) as [row|] eqn:Ef; [|done].
  intros ([] & Hc & H)%bind_ok. injection H as <-. pose proof Ef as (? & ? & ?)%find_idempotent_some. exists key, row. by split_and!.
Qed.

Lemma load_plan_ok pid d row : _load_plan pid d = Ok row → row ∈ plan_rows d ∧ pr_plan_id row = pid.
Proof. unfold _load_plan. destruct (find_plan pid d) as [r|] eqn:E; [|done]. intros [= <-]. by apply find_plan_some. Qed.

Lemma plan_of_ok row d p : plan_of row d = Ok p ↔ _domain_plan row (items_of row d) = Some p.
Proof. unfold plan_of. destruct (_domain_plan _ _); split; by intros [= ->]. Qed.

Lemma plan_host_ok est row host :
  plan_host est row = Ok host → host ∈ hosts (es_catalogue est) ∧ py_int (pr_host_id row) = Some (h_id host).
Proof.
  unfold plan_host. destruct (py_int _) as [h|]; [|done]. destruct (find_host _ h) as [x|] eqn:E; [|done]. intros [= <-].
  unfold find_host in E. apply head_Some_elem_of, list_elem_of_filter in E as [<- ?]. done.
Qed.

(** Whether the gates of an execution are open, and for which plan. *)
Record exec_gate (principal : Principal) (mfa : result HTTPException ()) (settings : RemSettings) (runtime : option RemediationRuntime)
    (est : estate) (plan_id : string) (body : ExecuteRequest) (d : plan_db)
    (row : RemediationPlanRow) (plan : RemediationPlan) (host : Host) (rt : RemediationRuntime) : Prop := {
  eg_enabled : remediation_enabled settings = true;
  eg_mfa : mfa = Ok ();
  eg_row : row ∈ plan_rows d ∧ pr_plan_id row = plan_id;
  eg_plan : _domain_plan row (items_of row d) = Some plan;
  eg_host : host ∈ hosts (es_catalogue est) ∧ py_int (pr_host_id row) = Some (h_id host);
  eg_granted : granted principal EXECUTE_REMEDIATION (h_id host) (pr_volume_id row);
  eg_typed : casefold (strip (x_confirm_host body)) = casefold (strip (h_name host));
  eg_runtime : runtime = Some rt;
}.

Lemma execute_inputs_ok principal mfa settings runtime est pid body d row plan host rt :
  execute_inputs principal mfa settings runtime est pid body d = Ok (row, plan, host, rt) →
  exec_gate principal mfa settings runtime est pid body d row plan host rt.
Proof.
  unfold execute_inputs. intros (scope & Hg & H)%bind_ok. apply bind_ok in H as ([] & Hm%lift_ok & H).
  apply bind_ok in H as ([] & _ & H). apply bind_ok in H as ([] & He & H). apply bind_ok in H as (r & Hr%load_plan_ok & H).
  apply bind_ok in H as ([] & Hc & H). apply bind_ok in H as (ho & Hh%plan_host_ok & H). apply bind_ok in H as ([] & Hn%require_ok & H).
  apply bind_ok in H as (p & Hp%plan_of_ok & H). apply bind_ok in H as (q & Hq & H). injection H as -> -> -> ->.
  unfold _require_enabled in He. apply require_ok in He. unfold same_host_name in Hn. apply bool_decide_eq_true in Hn.
  destruct (check_row_granted _ _ _ _ Hg Hc) as (h & Eh & Hgr). destruct Hh as [Hin Eh']. rewrite Eh in Eh'. injection Eh' as ->.
  split; try done. unfold get_runtime in Hq. destruct runtime; [|done]. by injection Hq as ->.
Qed.

Section Steps.
Context {B : Backend} (blake3_hex : string → string).
Abbreviation audit_ := (audit_ blake3_hex never_refuses).

Lemma audit_never now a b c x e w : ∃ rec, audit_ now a b c x e w = (Ok (), mk_orch (mk_chain (row_hash rec) (staged w ++ [rec])) (o_sent w)) ∧
  actor rec = a ∧ AuditLog.action rec = b ∧ target rec = c ∧ before_state rec = x ∧ result_ rec = e.
Proof. eexists. by split_and!. Qed.

(** The job of the dry run, then at most one execution, of what the dry run left. *)
Definition steps_sent (settings : RemSettings) (rt : RemediationRuntime) (plan : RemediationPlan) (host : string) (confirm : bool)
    (now_dry : datetime) (nonce_dry nonce_exec : string) (sent : list SignedJob) : Prop :=
  let dry := signer rt (DAction (_make_job (remediation_job_ttl_seconds settings) now_dry nonce_dry plan DRY_RUN host)) in
  sent = [dry] ∨
  ∃ report j, dry_run_dispatch rt dry = Ok report ∧ sent = [dry; signer rt (DAction j)] ∧
    a_mode j = EXECUTE ∧ a_host_id j = host ∧ a_nonce j = nonce_exec ∧ a_plan_id j = plan_id plan ∧
    a_items j = live_items plan report ∧ a_items j ≠ [] ∧ (confirm = true ∨ (length (a_items j) ≤ remediation_blast_cap settings)%nat).

Lemma execute_steps_sent principal settings rt row plan host confirm paths t1 t2 t3 n1 n2 a r w :
  execute_steps blake3_hex principal settings rt row plan host confirm paths t1 t2 t3 n1 n2 (session_start a) = (r, w) →
  steps_sent settings rt plan (h_name host) confirm t2 n1 n2 (o_sent w).
Proof.
  unfold execute_steps. intros [(u & w1 & H1 & H)|(e & H1 & _)]%then_run;
    destruct (audit_never t1 (subject principal) "remediation.acknowledged" (pr_plan_id row) (ack_state host row paths) "acknowledged"
                (session_start a)) as (rec & Ea & _); rewrite Ea in H1; [|done].
  injection H1 as _ <-.
  apply then_run in H as [(report & w2 & H2 & H)|(e & H2 & _)]; apply dry_run_run in H2.
  - destruct H2 as [(_ & ? & _)|(rec1 & Es & _ & _ & [(e & ? & _)|(report' & rec2 & [= <-] & Ed & _)])]; [done..|]. cbn in Es.
    apply execute_sends_live_items_audited in H as [E|(j & rec' & Ew & Hm & Hh & Hn & _ & _ & Hp & Hi & Hne & _ & Hcap & _)];
      [left; by rewrite E|].
    right. exists report, j. rewrite Ew, Es, Hi. by split_and!.
  - left. destruct H2 as [(_ & _ & b1 & b2 & b3 & b4 & b5 & He)|(rec1 & Es & _)]; [|done].
    match type of He with (Orchestrator.audit_ _ _ _ _ _ _ _ _ ?w').1 = _ =>
      destruct (audit_never t2 b1 b2 b3 b4 b5 w') as (? & Ex & _) end. by rewrite Ex in He.
Qed.
(** What a returning execution logs after its acknowledgement. *)
Definition steps_logged (rt : RemediationRuntime) (sent : list SignedJob) (results : list (string * string * string))
    (log : list AuditRecord) : Prop :=
  ∃ dry dry_result rest, log = dry :: dry_result :: rest ∧
    AuditLog.action dry = "remediation.dry_run.dispatch" ∧ AuditLog.action dry_result = "remediation.dry_run.result" ∧
    ((results = [] ∧ length sent = 1%nat ∧ ∃ skip, rest = [skip] ∧ AuditLog.action skip = "remediation.execute.skip") ∨
     ∃ sent_dry signed outcome dispatched acts result, sent = [sent_dry; signed] ∧ execute_dispatch rt signed = Ok outcome ∧
       results = eo_results outcome ∧ rest = dispatched :: acts ++ [result] ∧
       AuditLog.action dispatched = "remediation.execute.dispatch" ∧ content_of <$> acts = content_of <$> eo_audit outcome ∧
       AuditLog.action result = "remediation.execute.result").

Lemma execute_steps_logged principal settings rt row plan host confirm paths t1 t2 t3 n1 n2 a results w :
  execute_steps blake3_hex principal settings rt row plan host confirm paths t1 t2 t3 n1 n2 (session_start a) = (Ok results, w) →
  ∃ ack log, staged w = ack :: log ∧ AuditLog.action ack = "remediation.acknowledged" ∧ actor ack = subject principal ∧
    target ack = pr_plan_id row ∧ before_state ack = ack_state host row paths ∧ steps_logged rt (o_sent w) results log.
Proof.
  unfold execute_steps. intros [(u & w1 & H1 & H)|(e & _ & [=])]%then_run.
  destruct (audit_never t1 (subject principal) "remediation.acknowledged" (pr_plan_id row) (ack_state host row paths) "acknowledged"
              (session_start a)) as (ack & Ea & Hact & Hac & Ht & Hb & _). rewrite Ea in H1. injection H1 as _ <-.
  apply then_run in H as [(report & w2 & H2 & H)|(e & _ & [=])]. apply dry_run_run in H2.
  destruct H2 as [(_ & ? & _)|(dry & Es & Hd & _ & [(e & ? & _)|(report' & dres & _ & _ & Ek & Hr & _)])]; [done..|]. cbn in Es, Ek.
  exists ack. unfold staged.
  apply execute_chain_reads_dispatch_acts_result in H as
    [(_ & -> & Es' & skip & Ek' & Hs)|(signed & o & disp & acts & res & Es' & Hdisp & -> & Ek' & H1 & H2 & H3 & _)]; rewrite Ek', Ek, Es', Es.
  - eexists. split_and!; [done..|]. exists dry, dres, [skip]. split_and!; [done..|]. left. split_and!; [done..|]. by exists skip.
  - eexists. split_and!; [done..|]. exists dry, dres, (disp :: acts ++ [res]). split_and!; [done..|]. right.
    eexists _, signed, o, disp, acts, res. by split_and!.
Qed.

Lemma execute_steps_linked principal settings rt row plan host confirm paths t1 t2 t3 n1 n2 a r w :
  execute_steps blake3_hex principal settings rt row plan host confirm paths t1 t2 t3 n1 n2 (session_start a) = (r, w) →
  verify_chain blake3_hex (load_head a) (staged w) = true.
Proof.
  intros H. assert (keeps_chain blake3_hex (execute_steps blake3_hex principal settings rt row plan host confirm paths t1 t2 t3 n1 n2)) as Hk.
  { apply keeps_then; [apply keeps_audit|]. intros _. apply keeps_then; [apply keeps_dry_run|]. intros report. apply keeps_execute. }
  by apply (Hk (load_head a) _ _ _ H).
Qed.
End Steps.

(** *** The members of a group *)

(** What a member becomes: its catalogue entry's path, inode and size. *)
Definition member_of (est : estate) (m : DedupStore.DupMember) (gm : GroupMember) : Prop :=
  ∃ e, e ∈ fs_entry (es_catalogue est) ∧ e_id e = DedupStore.m_entry_id m ∧
    gm = mk_group_member (DedupStore.m_entry_id m) (DedupStore.m_host_id m) (DedupStore.m_volume_id m) (Catalogue.path e) (inode e) (size_logical e).

Lemma load_members_ok est cap p scope ms out :
  guard cap p = Ok scope → load_members est scope ms = Ok out →
  Forall2 (λ m gm, granted p cap (DedupStore.m_host_id m) (Some (DedupStore.m_volume_id m)) ∧ member_of est m gm) ms out.
Proof.
  intros Hg. revert out. induction ms as [|m ms IH]; intros out H; cbn [load_members] in H; [injection H as <-; constructor|].
  apply bind_ok in H as ([] & Hc%lift_ok & H). destruct (find_entry _ _) as [e|] eqn:Ee; [|done].
  apply bind_ok in H as (rest & Hr & H). injection H as <-. apply find_entry_spec in Ee as [He1 He2]. constructor; [|by apply IH].
  split; [by eapply check_target_granted|]. by exists e.
Qed.

(** Once a key finds a plan, a request with it never writes, whatever else it asks for; if it is answered, then with that plan. *)
Lemma replay_writes_nothing {B : Backend} (blake3_hex : string → string) principal settings runtime est body pid now others d key row r d' :
  b_idempotency_key body = Some key → find_idempotent key (subject principal) (r_plans d) = Some row →
  build_plan_route blake3_hex principal settings runtime est body pid now others d = (r, d') →
  d' = d ∧ ∀ out, r = Ok out → out = _plan_out row (r_plans d).
Proof.
  intros Hk Hf. unfold build_plan_route. destruct (build_inputs _ _ _ _ _ _) as [[cached|[[g members] rt]]|e] eqn:Ei; [..|by intros [= <- <-]].
  all: unfold build_inputs in Ei; apply bind_ok in Ei as (scope & _ & Ei); apply bind_ok in Ei as ([] & _ & Ei);
    apply bind_ok in Ei as ([] & _ & Ei); apply bind_ok in Ei as (o & Hr & Ei); unfold replay in Hr; rewrite Hk, Hf in Hr;
    apply bind_ok in Hr as ([] & _ & [= <-]).
  - injection Ei as <-. intros [= <- <-]. split; [done|]. by intros out [= <-].
  - done.
Qed.

(** A successful build of the orchestrator: the plan of the group, with one record staged. *)
Lemma build_run (blake3_hex : string → string) now pid members keep fh by_ act a p w :
  build blake3_hex never_refuses now pid members keep fh by_ act (session_start a) = (Ok p, w) →
  plan_valid p = true ∧ plan_id p = pid ∧ created_by p = by_ ∧ move_root p = None ∧
  (∃ k, k ∈ members ∧ gm_entry_id k = keep ∧ keeper_path p = gm_path k) ∧
  items p = (λ m, mk_item (EInt (gm_entry_id m)) (gm_path m) (gm_inode m) (gm_size m) (Some fh) act None) <$>
              filter (λ m, gm_entry_id m ≠ keep) members ∧
  ∃ rec, staged w = [rec] ∧ AuditLog.action rec = "remediation.plan.build" ∧ actor rec = by_ ∧ target rec = pid.
Proof.
  unfold build. destruct (negb _); [done|]. unfold build_plan. set (f := λ m : GroupMember, mk_member _ _ _ _).
  destruct (list_find _ _) as [[n keeper]|] eqn:Ek; [|done].
  case_bool_decide as Hne; [done|]. destruct (plan_valid _) eqn:Ev; [|done]. intros [(u & w1 & H1 & H)|(e & _ & [=])]%then_run.
  apply ret_run in H as [[= <-] <-]. apply audit_run in H1 as [_ [[? _]|(_ & rec & Erec & Hac & Hact & Ht & _)]]; [done|].
  apply list_find_Some in Ek as (Hk & Hkeep & _). apply list_elem_of_lookup_2 in Hk. apply list_elem_of_fmap in Hk as (k & -> & Hk).
  cbn in Hkeep. injection Hkeep as Hkeep. split_and!; try done.
  - by exists k.
  - cbn. rewrite filter_fmap, <- list_fmap_compose. cbn. f_equal.
    apply list_filter_iff. intros m. cbn. split; intros Hm E; apply Hm; congruence.
  - by exists rec.
Qed.

(** ** Properties *)

Section Properties.
Context {B : Backend} (blake3_hex : string → string).
Abbreviation audit_inv := (AuditStore.audit_inv blake3_hex).
Abbreviation execute_route := (execute_route blake3_hex).
Abbreviation build_plan_route := (build_plan_route blake3_hex).

(** C3: Whatever the reply of the execute route, a signed job leaves core only while remediation is enabled, for a principal with a
    fresh step-up and an execute grant that covers the plan's host and volume, who typed the name of that host; the first job is the
    dry run of exactly the stored plan; a second one executes exactly the items that this dry run found unchanged, within the blast cap
    unless the excess was confirmed, and both name that host. *)
Theorem execute_route_gated principal mfa settings runtime est pid body t1 t2 t3 n1 n2 others d reply d' sent :
  execute_route principal mfa settings runtime est pid body t1 t2 t3 n1 n2 others d = (reply, d', sent) → sent ≠ [] →
  ∃ row plan host rt, exec_gate principal mfa settings runtime est pid body (r_plans d) row plan host rt ∧
    let dry := signer rt (DAction (_make_job (remediation_job_ttl_seconds settings) t2 n1 plan DRY_RUN (h_name host))) in
    sent = [dry] ∨
    ∃ report j, dry_run_dispatch rt dry = Ok report ∧ sent = [dry; signer rt (DAction j)] ∧
      a_mode j = EXECUTE ∧ a_host_id j = h_name host ∧ a_nonce j = n2 ∧ a_plan_id j = plan_id plan ∧
      a_items j = live_items plan report ∧ a_items j ≠ [] ∧
      (x_confirm_blast body = true ∨ (length (a_items j) ≤ remediation_blast_cap settings)%nat).
Proof.
  unfold Remediation.execute_route. destruct (execute_inputs _ _ _ _ _ _ _ _) as [[[[row plan] host] rt]|e] eqn:Ei; [|by intros [= _ _ <-]].
  apply execute_inputs_ok in Ei. destruct (execute_steps _ _ _ _ _ _ _ _ _ _ _ _ _ _ _) as [r w] eqn:Es.
  apply execute_steps_sent in Es. intros H _. exists row, plan, host, rt. split; [done|].
  assert (sent = o_sent w) as ->; [|exact Es].
  destruct r as [results|e]; [destruct (flush_status _ _ _ _) as [[] ?]|destruct e]; by injection H as _ _ <-.
Qed.

(** C4: An execution that is answered has committed its whole trail at the end of an unforked audit chain, with no row of another
    writer in between: the acknowledgement by the caller with the risk classes it touches, the dry run and its result, and then either
    the skip of a plan that drifted as a whole, or the dispatch, the records that the actor reported for its acts, and the results that
    are returned. *)
Theorem execute_route_trail principal mfa settings runtime est pid body t1 t2 t3 n1 n2 others d results d' sent :
  execute_route principal mfa settings runtime est pid body t1 t2 t3 n1 n2 others d = (Ok results, d', sent) →
  audit_inv (r_audit (others d)) → rows (r_audit d) `prefix_of` rows (r_audit (others d)) →
  ∃ row plan host rt k ack log, exec_gate principal mfa settings runtime est pid body (r_plans d) row plan host rt ∧
    audit_inv (r_audit d') ∧ rows (r_audit d') = rows (r_audit d) ++ k ∧ k.*2 = ack :: log ∧
    AuditLog.action ack = "remediation.acknowledged" ∧ actor ack = subject principal ∧ target ack = pid ∧
    before_state ack = ack_state host row (ir_path <$> items_of row (r_plans d)) ∧
    steps_logged rt sent results log ∧
    r_plans d' = update_status row "executed" (r_plans (others d)).
Proof.
  unfold Remediation.execute_route. intros H Hinv Hpre.
  destruct (execute_inputs _ _ _ _ _ _ _ _) as [[[[row plan] host] rt]|e] eqn:Ei; [|done].
  apply execute_inputs_ok in Ei. destruct (execute_steps _ _ _ _ _ _ _ _ _ _ _ _ _ _ _) as [r w] eqn:Es.
  destruct r as [rs|[]]; [|done..]. unfold flush_status in H. destruct (flush_audit _ _) as [[] a] eqn:Ef; [|done].
  injection H as -> <- <-. pose proof Es as Hl. apply execute_steps_linked in Hl. apply execute_steps_logged in Es as (ack & log & Ew & H1 & H2 & H3 & H4 & H5).
  apply (flush_unmoved blake3_hex (staged w) (r_audit d)) in Ef as (Er & Hinv' & k & Ek & Ek2); [|done..|by rewrite Ew].
  exists row, plan, host, rt, k, ack, log. destruct Ei as [? ? [? Hpid] ? ? ? ? ?]. rewrite <- Hpid.
  split_and!; try done. by rewrite Ek2.
Qed.
End Properties.

(** ** An exception takes the trail back *)

Section Rollback.
Context {B : Backend} (blake3_hex : string → string).

(** Whatever was sent before it, a request that ends in an error leaves no audit row and no plan of its own. *)
Theorem execute_error_leaves_no_trail principal mfa settings runtime est pid body t1 t2 t3 n1 n2 others d e d' sent :
  execute_route blake3_hex principal mfa settings runtime est pid body t1 t2 t3 n1 n2 others d = (Err e, d', sent) →
  (sent = [] ∧ d' = d) ∨ (rows (r_audit d') = rows (r_audit (others d)) ∧ r_plans d' = r_plans (others d)).
Proof.
  unfold execute_route. destruct (execute_inputs _ _ _ _ _ _ _ _) as [[[[row plan] host] rt]|e']; [|by intros [= _ <- <-]; left].
  destruct (execute_steps _ _ _ _ _ _ _ _ _ _ _ _ _ _ _) as [[results|[]] w]; try (by intros [= _ <- _]; right).
  unfold flush_status, flush_audit. destruct (flush_rows _ _) as [[] a]; [done|]. intros [= _ <- _]. by right.
Qed.
End Rollback.

(** ** Witnesses *)

Notation rem_entry id host vol path inode :=
  (mk_entry id host vol None "f" path 1 false false 5 5 0 0 0 0 inode 1 "" None true None None (Some "h5") None None None).

(** A data volume and a system volume of one host, and a share of another; the last member is an alias. *)
Definition rem_estate (ms : list (Z * DedupStore.DupMember)) : estate :=
  mk_estate
    (mk_catalogue [mk_host 1 "nas" None None "fp" None None None None; mk_host 2 "vm" None None "fp2" None None None None]
       [mk_volume 1 1 "/data" None "data" "ext4" "/dev/sda1" "sata" None None None 0 0 0 false 0;
        mk_volume 2 1 "/" None "system" "ext4" "/dev/sda2" "sata" None None None 0 0 0 false 0;
        mk_volume 3 2 "/mnt/nas" None "data" "nfs4" "nas:/data" "network" None None None 0 0 0 false 0] []
       [rem_entry 10 1 1 "/data/a.bin" 100; rem_entry 11 1 1 "/data/b.bin" 101; rem_entry 12 1 2 "/opt/b.bin" 102;
        rem_entry 13 2 3 "/mnt/nas/a.bin" 103] [] [] [])
    [(7, DedupStore.mk_dup_group "h5" 5 2 5 JNull None 10 "oldest copy")] ms.

Notation dup_of id host vol path alias := (7, DedupStore.mk_member id host vol path alias).

Definition rem_principal (g : Grant) : Principal := mk_principal "ann" SrcLocal 1 [] [g] None None.
Definition rem_settings : RemSettings := mk_rsettings true 100 300 30.
Definition rem_runtime (answer : result string ExecuteOutcome) : RemediationRuntime :=
  mk_runtime (ed25519_sign toy_sign "k1") (λ _, Ok ∅) (λ _, answer).
Definition empty_rdb : rem_db := mk_rdb empty_db (mk_plan_db [] []).

Definition rem_build (g : Grant) (ms : list (Z * DedupStore.DupMember)) (keep : Z) :=
  build_plan_route (B := false) demo_hash (rem_principal g) rem_settings (Some (rem_runtime (Ok demo_outcome))) (rem_estate ms)
    (mk_build_request 7 keep QUARANTINE (Some "key-1")) "plan-1" (at_second 1) (λ d, d) empty_rdb.

Notation rem_admin := (Rbac.mk_grant REMEDIATOR KGlobal None None).
Notation rem_pair := [dup_of 10 1 1 "/data/a.bin" false; dup_of 11 1 1 "/data/b.bin" false].

Definition rem_built : rem_db := (rem_build rem_admin rem_pair 10).2.

Definition rem_execute (answer : result string ExecuteOutcome) (others : rem_db → rem_db) :=
  execute_route (B := false) demo_hash (rem_principal rem_admin) (Ok ()) rem_settings (Some (rem_runtime answer)) (rem_estate rem_pair)
    "plan-1" (mk_execute_request false " NAS ") (at_second 2) (at_second 3) (at_second 4) "n1" "n2" others rem_built.

Lemma execute_route_gated_witness :
  ∃ row plan host rt, exec_gate (rem_principal rem_admin) (Ok ()) rem_settings (Some (rem_runtime (Ok demo_outcome))) (rem_estate rem_pair)
    "plan-1" (mk_execute_request false " NAS ") (r_plans rem_built) row plan host rt ∧ length (rem_execute (Ok demo_outcome) (λ d, d)).2 = 2%nat.
Proof.
  assert (length (rem_execute (Ok demo_outcome) (λ d, d)).2 = 2%nat) as Hl by (vm_compute; reflexivity).
  destruct (rem_execute (Ok demo_outcome) (λ d, d)) as [[reply d'] sent] eqn:E.
  destruct (execute_route_gated (B := false) demo_hash _ _ _ _ _ _ _ _ _ _ _ _ _ _ reply d' sent E) as (row & plan & host & rt & H & _).
  { destruct sent; [discriminate Hl|discriminate]. }
  exists row, plan, host, rt. split; [exact H|exact Hl].
Defined.

Lemma rem_db_inv : audit_inv demo_hash (r_audit rem_built).
Proof.
  assert (r_audit rem_built = (insert_row (B := false) (chained demo_hash
     (mk_content (isoformat (at_second 1)) "ann" "remediation.plan.build" "plan-1" [("keeper", JStr "/data/a.bin"); ("blast", JInt 1)] "built")
     GENESIS_HASH) empty_db).2) as -> by (vm_compute; reflexivity).
  apply insert_row_inv; [|apply chained_built|by left].
  split; cbn; try done; constructor.
Qed.

Lemma execute_route_trail_witness :
  ∃ k, rows (r_audit (rem_execute (Ok demo_outcome) (λ d, d)).1.2) = rows (r_audit rem_built) ++ k ∧ length k = 6%nat.
Proof.
  assert ((rem_execute (Ok demo_outcome) (λ d, d)).1.1 = Ok [("7", "quarantine", "quarantined")]) as Hr by (vm_compute; reflexivity).
  assert (length (rows (r_audit (rem_execute (Ok demo_outcome) (λ d, d)).1.2)) = 7%nat) as Hl by (vm_compute; reflexivity).
  destruct (rem_execute (Ok demo_outcome) (λ d, d)) as [[reply d'] sent] eqn:E. cbn in Hr. subst reply.
  destruct (execute_route_trail (B := false) demo_hash _ _ _ _ _ _ _ _ _ _ _ _ _ _ _ d' sent E rem_db_inv) as
    (row & plan & host & rt & k & ack & log & _ & _ & Ek & _); [exists []; by rewrite app_nil_r|].
  exists k. split; [exact Ek|]. cbn in Hl. rewrite Ek, length_app in Hl. injection Hl as Hl. exact Hl.
Defined.


(** ** What the routes do not promise *)

(** The job was dispatched and may have been executed; the wait for its answer ran out, and with the session went the acknowledgement,
    the dry run and the dispatch: the audit is as if nothing had been asked for. *)
Lemma timed_out_execution_is_unaudited :
  (rem_execute (Err "DispatchTimeoutError") (λ d, d)).1.1 = Err None ∧
  a_mode <$> omap (λ s, match job s with DAction j => Some j | _ => None end) (rem_execute (Err "DispatchTimeoutError") (λ d, d)).2 = [DRY_RUN; EXECUTE] ∧
  rows (r_audit (rem_execute (Err "DispatchTimeoutError") (λ d, d)).1.2) = rows (r_audit rem_built).
Proof. by split_and!; vm_compute. Qed.

(** One audit row of another request during the wait has the same effect on an execution that succeeded. *)
Definition other_row (d : rem_db) : rem_db :=
  mk_rdb (insert_row (B := false) (chained demo_hash (mk_content "t" "bob" "auth.login" "bob" [] "ok") (load_head (r_audit d))) (r_audit d)).2 (r_plans d).

Lemma concurrent_row_unaudits_execution :
  (rem_execute (Ok demo_outcome) other_row).1.1 = Err None ∧ length (rem_execute (Ok demo_outcome) other_row).2 = 2%nat ∧
  rows (r_audit (rem_execute (Ok demo_outcome) other_row).1.2) = rows (r_audit (other_row rem_built)).
Proof. by split_and!; vm_compute. Qed.

Definition built_on_host (r : reply PlanOut * rem_db) : option (string * list (Z * string * string)) :=
  match r.1 with Ok out => Some (po_host_id out, po_items out) | Err _ => None end.

(** A group spans hosts: the plan goes to the host of its first member, with the paths and inodes of the others. *)
Lemma plan_mixes_hosts :
  built_on_host (rem_build rem_admin [dup_of 13 2 3 "/mnt/nas/a.bin" false; dup_of 10 1 1 "/data/a.bin" false; dup_of 11 1 1 "/data/b.bin" false] 10) =
    Some ("2", [(13, "/mnt/nas/a.bin", "quarantine"); (11, "/data/b.bin", "quarantine")]).
Proof. by vm_compute. Qed.

(** A member on a network mount is the kept file itself, seen from another host; the plan acts on it. *)
Lemma plan_acts_on_alias :
  built_on_host (rem_build rem_admin [dup_of 13 2 3 "/mnt/nas/a.bin" true; dup_of 10 1 1 "/data/a.bin" false] 10) =
    Some ("2", [(13, "/mnt/nas/a.bin", "quarantine")]).
Proof. by vm_compute. Qed.

(** A grant on the host reaches a file of its system volume, which the check with the kind of the volume refuses. *)
Lemma plan_reaches_system_volume :
  let g := Rbac.mk_grant REMEDIATOR KHost (Some 1) None in
  built_on_host (rem_build g [dup_of 10 1 1 "/data/a.bin" false; dup_of 12 1 2 "/opt/b.bin" false] 10) =
    Some ("1", [(12, "/opt/b.bin", "quarantine")]) ∧
  check_target (from_grants [g] BUILD_REMEDIATION) 1 (Some 2) (Some "system") = Err (mk_http 403 "system volume out of scope").
Proof. by split; vm_compute. Qed.
