(* ===== verification/JobRoutes.v ===== *)
(** The agents' side of the dispatch channel ([src/fathom/api/routers/agent_jobs.py]) and the runtime that core arms for it
    ([api/remediation_runtime.py]): the poll, the result with its durable nonce, the dispatch callables over the queue, and the loading
    of the signing key.

    The queue is one process's and outlives a request; the table of used nonces is as it was after a request that fails.  The secret
    backend, PEM parsing and the signature primitives are parameters. *)

From stdpp Require Import gmap.
From S2P Require Import Prelude PyStr Json PyTime AuditLog AuditStore Rbac Catalogue Jobs Signing JobQueue Orchestrator Preview PreviewPull PreviewRoute.

(** ** [agent_jobs.py] *)

Record job_state := mk_jstate { js_queue : JobQueue; js_nonces : DbNonceStore }.

Definition no_dispatch {A} : reply A := http 409 "no awaiting dispatch for this job".

(** A fingerprint without a host row is refused; its name is what the queue is keyed by. *)
Definition host_of (hosts : list Host) (fingerprint : string) : reply string :=
  match _resolve_host_name hosts fingerprint with Ok name => Ok name | Err e => Err (Some e) end.

(** [poll_job]; None is a 204. *)
Definition poll_job (hosts : list Host) (gets : nat) (fingerprint : string) (now : datetime) (st : job_state)
    : reply (option (string * SignedJob)) * job_state :=
  match host_of hosts fingerprint with
  | Err e => (Err e, st)
  | Ok host => let '(claimed, q) := poll gets host now (js_queue st) in (Ok claimed, mk_jstate q (js_nonces st))
  end.

Definition correlation_detail (e : JobCorrelationError) : string :=
  match e with
  | NoDispatch => "no awaiting dispatch for job" | WrongHost => "result host does not match the job's issued host"
  | AlreadyResolved => "job already resolved"
  end.

(** The guards of [submit_job_result] before the ledger: the host and the nonce of its dispatch. *)
Definition submit_guards (hosts : list Host) (fingerprint path_job_id : string) (p : JobResultPayload) (q : JobQueue)
    : reply (string * string) :=
  host ← host_of hosts fingerprint;
  _ ← (if payload_ok p then Ok () else http 422 "request validation");
  _ ← (if bool_decide (job_id p = path_job_id) then Ok () else http 422 "path job_id does not match body job_id");
  _ ← (if bool_decide (owner_of path_job_id q = Some host) then Ok () else no_dispatch);
  match nonce_of path_job_id q with None => no_dispatch | Some n => Ok (host, n) end.

(** The guards run at the queue [q0]; while the ledger is awaited other requests are served, and the nonce is entered and the dispatch
    resolved at [st].  The ledger's row and the resolution are one step: the UNIQUE constraint orders two results of one job, and the
    transaction that holds the row is taken to commit. *)
Definition submit_job_result (hosts : list Host) (fingerprint path_job_id : string) (p : JobResultPayload) (q0 : JobQueue)
    (st : job_state) : reply () * job_state :=
  match submit_guards hosts fingerprint path_job_id p q0 with
  | Err e => (Err e, st)
  | Ok (host, n) =>
      match db_consume n path_job_id (js_nonces st) with
      | (Ok true, nonces) =>
          match resolve host p (js_queue st) with
          | Ok q => (Ok (), mk_jstate q nonces)
          | Err e => (http 409 (correlation_detail e), st)
          end
      | (Ok false, _) => (http 409 "job result already submitted (replay)", st)
      | (Err _, _) => (Err None, st)
      end
  end.

(** ** [remediation_runtime.py]: the dispatch callables *)

(** One dispatch: the job is queued for the host that the caller names, [meanwhile] runs, the wait ends with the result or a DispatchTimeoutError. *)
Definition enqueue_and_wait (jid host_id : string) (meanwhile : job_state → job_state) (signed : SignedJob) (st : job_state)
    : result string JobResultPayload * job_state :=
  let st := meanwhile (mk_jstate (enqueue jid signed host_id (js_queue st)) (js_nonces st)) in
  match finish jid (js_queue st) with
  | (Some r, q) => (r, mk_jstate q (js_nonces st))
  | (None, q) => (Err "KeyError", mk_jstate q (js_nonces st))
  end.

Definition dry_run_dispatch (jid : string) (meanwhile : job_state → job_state) (st : job_state) (signed : SignedJob)
    : result string drift_report :=
  match (enqueue_and_wait jid (Jobs.host_id (job signed)) meanwhile signed st).1 with Ok p => Ok (list_to_map (drift p)) | Err e => Err e end.

Definition execute_dispatch (jid : string) (meanwhile : job_state → job_state) (st : job_state) (signed : SignedJob)
    : result string ExecuteOutcome :=
  match (enqueue_and_wait jid (Jobs.host_id (job signed)) meanwhile signed st).1 with
  | Ok p => Ok (mk_exec_outcome ((λ r, (e_entry_id r, e_action r, e_status r)) <$> results p) (JobQueue.audit p))
  | Err e => Err e
  end.

(** ** The signing key *)

Definition _MIN_HMAC_SECRET_BYTES : nat := 32.

Record SigningSettings := mk_signing {
  sg_enabled : bool; sg_key_ref : option string; sg_algorithm : string; sg_key_id : string;
}.

Section Provisioning.
(** [secret]: the backend, None when it raises; [load_pem]: None for no PEM private key, [Some None] for a key of another kind. *)
Context (secret : string → option string) (load_pem : string → option (option (string → string))) (hmac_sha256 : string → string → string).

(** The error is the message of a RemediationProvisioningError. *)
Definition load_orchestrator_signer (s : SigningSettings) : result string (option (DispatchJob → SignedJob)) :=
  match truthy (sg_key_ref s) with
  | None => Ok None
  | Some ref =>
      match secret ref with
      | None => Err "signing key reference did not resolve from the secret backend"
      | Some "" => Err "signing key reference resolved to an empty value"
      | Some material =>
          let algorithm := lower (sg_algorithm s) in
          if bool_decide (algorithm = "ed25519") then
            match load_pem (utf8 material) with
            | None => Err "configured Ed25519 signing key is not a valid PEM private key"
            | Some None => Err "configured signing key is not an Ed25519 private key (algorithm mismatch)"
            | Some (Some sign) => Ok (Some (ed25519_sign sign (sg_key_id s)))
            end
          else if bool_decide (algorithm = "hmac" ∨ algorithm = "hmac-sha256") then
            if String.length (utf8 material) <? _MIN_HMAC_SECRET_BYTES then Err "HMAC signing secret is too short"
            else Ok (Some (hmac_sign hmac_sha256 (utf8 material) (sg_key_id s)))
          else Err "unknown signing algorithm"
      end
  end.

(** The signer of the runtime, if it is armed. *)
Definition build_remediation_runtime (s : SigningSettings) : result string (option (DispatchJob → SignedJob)) :=
  if sg_enabled s then load_orchestrator_signer s else Ok None.
End Provisioning.

(** ** Histories *)

(** A request, or one half of a dispatch; the hosts are those of the time of the request.  Before the ledger answered a submission,
    [served] requests were served after its guards. *)
Inductive jreq :=
| RDispatch (jid : string) (signed : SignedJob)
| RFinish (jid : string)
| RPoll (hosts : list Host) (fingerprint : string) (now : datetime) (gets : nat)
| RSubmit (hosts : list Host) (fingerprint path_job_id : string) (p : JobResultPayload) (served : nat).

Inductive jresp :=
| Dispatched
| Finished (r : option (result string JobResultPayload))
| Polled (r : reply (option (string * SignedJob)))
| Submitted (r : reply ()).

(** The queue as it stood when the last [served] requests had not been served; [past] has the earlier queues, the latest first. *)
Definition queue_before (served : nat) (past : list JobQueue) (st : job_state) : JobQueue :=
  default (js_queue st) ((js_queue st :: past) !! served).

Definition serve_job (req : jreq) (past : list JobQueue) (st : job_state) : jresp * job_state :=
  match req with
  | RDispatch jid signed => (Dispatched, mk_jstate (enqueue jid signed (Jobs.host_id (job signed)) (js_queue st)) (js_nonces st))
  | RFinish jid => let '(r, q) := finish jid (js_queue st) in (Finished r, mk_jstate q (js_nonces st))
  | RPoll hosts fp now gets => let '(r, st) := poll_job hosts gets fp now st in (Polled r, st)
  | RSubmit hosts fp path p served =>
      let '(r, st) := submit_job_result hosts fp path p (queue_before served past st) st in (Submitted r, st)
  end.

Fixpoint serve_all (reqs : list jreq) (trace : list (jreq * jresp)) (past : list JobQueue) (st : job_state)
    : list (jreq * jresp) * job_state :=
  match reqs with
  | [] => (trace, st)
  | r :: rest => let '(resp, st') := serve_job r past st in serve_all rest (trace ++ [(r, resp)]) (js_queue st :: past) st'
  end.

Definition dispatch_id (r : jreq) : option string := match r with RDispatch jid _ => Some jid | _ => None end.

Definition empty_jstate : job_state := mk_jstate empty_queue (mk_dbnonce []).

(** What links the trace, the events of the queue and the ledger. *)
Record jinv (trace : list (jreq * jresp)) (evs : list event) (st : job_state) : Prop := {
  ji_queue : qinv evs (js_queue st);
  ji_ids : omap ev_enqueue evs = omap dispatch_id trace.*1;
  ji_sent jid h s : EvEnqueue jid h s ∈ evs → h = Jobs.host_id (job s) ∧ (RDispatch jid s, Dispatched) ∈ trace;
  ji_nonce jid n : _job_nonce (js_queue st) !! jid = Some n → ∃ h s, EvEnqueue jid h s ∈ evs ∧ n = nonce (job s);
  ji_resolved jid h p : EvResolve jid h p ∈ evs →
    ∃ hosts fp served s, (RSubmit hosts fp jid p served, Submitted (Ok ())) ∈ trace ∧ host_of hosts fp = Ok h ∧ EvEnqueue jid h s ∈ evs ∧
      (nonce (job s), jid) ∈ used_nonce (js_nonces st);
  ji_claimed hosts fp now gets jid s : (RPoll hosts fp now gets, Polled (Ok (Some (jid, s)))) ∈ trace →
    ∃ h, host_of hosts fp = Ok h ∧ EvClaim jid h s now ∈ evs;
  ji_returned jid p : (RFinish jid, Finished (Some (Ok p))) ∈ trace → EvReturn jid (Ok p) ∈ evs;
}.

Lemma fail_nonce jid r q : _job_nonce (_fail jid r q) = _job_nonce q.
Proof. unfold _fail. by destruct (_results q !! jid) as [[]|]. Qed.

Lemma poll_nonce gets host now q : _job_nonce (poll gets host now q).2 = _job_nonce q.
Proof.
  revert q. induction gets as [|n IH]; intros q; [done|]. cbn [poll]. destruct (_queue_for host q) as [|[jid s] rest]; [done|].
  destruct (_expired s now); [|done]. by rewrite IH, fail_nonce.
Qed.

(** The nonces of an earlier queue are those of jobs that were queued. *)
Definition nonces_of (evs : list event) (q : JobQueue) : Prop :=
  ∀ jid n, _job_nonce q !! jid = Some n → ∃ h s, EvEnqueue jid h s ∈ evs ∧ n = nonce (job s).

Lemma nonces_of_app evs es q : nonces_of evs q → nonces_of (evs ++ es) q.
Proof. intros H jid n (h & s & ? & ->)%H. exists h, s. rewrite elem_of_app. auto. Qed.

Lemma queue_before_ok evs served past st :
  Forall (nonces_of evs) past → nonces_of evs (js_queue st) → nonces_of evs (queue_before served past st).
Proof.
  intros Hp Hc. unfold queue_before. destruct ((js_queue st :: past) !! served) as [q|] eqn:E; [|done].
  apply list_elem_of_lookup_2 in E. rewrite elem_of_cons in E. rewrite Forall_forall in Hp. destruct E as [->|]; auto.
Qed.

(** A step that leaves the ledger, the nonces of the queue and its events' enqueues and resolves as they were. *)
Lemma jinv_extend trace evs st x es q :
  jinv trace evs st → qinv (evs ++ es) q → omap ev_enqueue es = [] → omap ev_resolve es = [] →
  omap dispatch_id [x.1] = [] →
  (∀ jid n, _job_nonce q !! jid = Some n → _job_nonce (js_queue st) !! jid = Some n) →
  (∀ hosts fp now gets jid s, x = (RPoll hosts fp now gets, Polled (Ok (Some (jid, s)))) → ∃ h, host_of hosts fp = Ok h ∧ EvClaim jid h s now ∈ es) →
  (∀ jid p, x = (RFinish jid, Finished (Some (Ok p))) → EvReturn jid (Ok p) ∈ es) →
  jinv (trace ++ [x]) (evs ++ es) (mk_jstate q (js_nonces st)).
Proof.
  intros [] Hq He Hr Hd Hn Hc Hf.
  assert (∀ jid h s, EvEnqueue jid h s ∉ es) as He'.
  { intros jid h s Hin. assert (jid ∈ omap ev_enqueue es) as H by (apply elem_of_omap_enqueue; eauto). rewrite He in H. by apply not_elem_of_nil in H. }
  assert (∀ jid h p, EvResolve jid h p ∉ es) as Hr'.
  { intros jid h p Hin. assert (jid ∈ omap ev_resolve es) as H by (apply elem_of_omap_resolve; eauto). rewrite Hr in H. by apply not_elem_of_nil in H. }
  split; cbn; intros *; rewrite ?fmap_app, ?omap_app, ?elem_of_snoc, ?elem_of_app.
  - done.
  - rewrite He, ji_ids0, app_nil_r. cbn in Hd. cbn. by rewrite Hd, app_nil_r.
  - intros [H|H]; [|by apply He' in H]. apply ji_sent0 in H as [-> H]. split; [done|]. by left.
  - intros H%Hn%ji_nonce0. destruct H as (h & s & ? & ->). exists h, s. rewrite elem_of_app. auto.
  - intros [H|H]; [|by apply Hr' in H]. apply ji_resolved0 in H as (hosts & fp & k & s & ? & ? & ? & ?).
    exists hosts, fp, k, s. rewrite elem_of_snoc, elem_of_app. auto.
  - intros [H|<-]; [|].
    + apply ji_claimed0 in H as (h & ? & ?). exists h. rewrite elem_of_app. auto.
    + destruct (Hc _ _ _ _ _ _ eq_refl) as (h & ? & ?). exists h. rewrite elem_of_app. auto.
  - intros [H|<-]; [left; by apply ji_returned0|right; by apply Hf].
Qed.

Lemma jinv_same trace evs st x :
  jinv trace evs st → omap dispatch_id [x.1] = [] →
  (∀ hosts fp now gets jid s, x ≠ (RPoll hosts fp now gets, Polled (Ok (Some (jid, s))))) →
  (∀ jid p, x ≠ (RFinish jid, Finished (Some (Ok p)))) → jinv (trace ++ [x]) (evs ++ []) st.
Proof.
  intros Hi Hd H1 H2. destruct st as [q n]. apply (jinv_extend trace evs (mk_jstate q n)); try done.
  - rewrite app_nil_r. by destruct Hi.
  - intros *. by intros ?%H1.
  - intros *. by intros ?%H2.
Qed.

Lemma dispatch_jinv trace evs st jid signed :
  jinv trace evs st → jid ∉ omap ev_enqueue evs → ∃ es,
  jinv (trace ++ [(RDispatch jid signed, Dispatched)]) (evs ++ es)
    (mk_jstate (enqueue jid signed (Jobs.host_id (job signed)) (js_queue st)) (js_nonces st)).
Proof.
  intros [] Hf. exists [EvEnqueue jid (Jobs.host_id (job signed)) signed]. pose proof (enqueue_inv evs (js_queue st) jid signed (Jobs.host_id (job signed)) ji_queue0 Hf) as Hq.
  split; cbn; intros *; rewrite ?fmap_app, ?omap_app, ?elem_of_snoc.
  - done.
  - cbn. by rewrite ji_ids0.
  - intros [H|[= -> -> ->]]; [|split; [done|by right]]. apply ji_sent0 in H as [-> ?]. split; [done|by left].
  - destruct (decide (jid0 = jid)) as [->|Hne].
    + rewrite lookup_insert_eq. intros [= <-]. eexists _, signed. rewrite elem_of_snoc. split; [by right|done].
    + rewrite lookup_insert_ne by done. intros H%ji_nonce0. destruct H as (h & s & ? & ->). exists h, s. rewrite elem_of_snoc. auto.
  - intros [H|]; [|done]. apply ji_resolved0 in H as (hosts & fp & k & s & ? & ? & ? & ?). exists hosts, fp, k, s. rewrite !elem_of_snoc. auto.
  - intros [H|]; [|done]. apply ji_claimed0 in H as (h & ? & ?). exists h. rewrite elem_of_snoc. auto.
  - intros [H|]; [|done]. left. by apply ji_returned0.
Qed.

Lemma submit_guards_ok hosts fp path p q host n :
  submit_guards hosts fp path p q = Ok (host, n) →
  host_of hosts fp = Ok host ∧ job_id p = path ∧ payload_ok p = true ∧ owner_of path q = Some host ∧ nonce_of path q = Some n.
Proof.
  unfold submit_guards. intros (h & Hh & H)%bind_ok. apply bind_ok in H as ([] & Hv & H). apply bind_ok in H as ([] & Hj & H).
  apply bind_ok in H as ([] & Ho & H). destruct (payload_ok p); [|done].
  case_bool_decide; [|done]. case_bool_decide; [|done]. destruct (nonce_of path q); [|done]. by injection H as -> ->.
Qed.

Lemma submit_jinv trace evs st hosts fp path p served q0 r st' :
  jinv trace evs st → nonces_of evs q0 → submit_job_result hosts fp path p q0 st = (r, st') →
  ∃ es, jinv (trace ++ [(RSubmit hosts fp path p served, Submitted r)]) (evs ++ es) st'.
Proof.
  intros Hi Hq0 H. unfold submit_job_result in H.
  assert (∀ r0, (r0, st) = (r, st') → ∃ es, jinv (trace ++ [(RSubmit hosts fp path p served, Submitted r)]) (evs ++ es) st') as Hsame.
  { intros r0 [= _ <-]. exists []. by apply jinv_same. }
  destruct (submit_guards _ _ _ _ _) as [[host n]|e] eqn:Eg; [|by apply (Hsame _ H)].
  apply submit_guards_ok in Eg as (Hh & Hj & _ & _ & Hn). destruct (db_consume n path (js_nonces st)) as [[[]|] nonces] eqn:Ec; [|by apply (Hsame _ H)..].
  destruct (resolve host p (js_queue st)) as [q|e] eqn:Er; [|by apply (Hsame _ H)]. injection H as <- <-.
  exists [EvResolve (job_id p) host p]. pose proof Hi as []. pose proof (resolve_inv _ _ _ _ _ ji_queue0 Er) as Hq.
  assert (∃ s, EvEnqueue path host s ∈ evs ∧ n = nonce (job s)) as (s & Hs & Hns).
  { unfold nonce_of in Hn. apply Hq0 in Hn as (h & s & Hin & ->). exists s. split; [|done].
    unfold resolve in Er. rewrite Hj in Er. destruct (_job_host (js_queue st) !! path) as [eh|] eqn:Eh; [|done].
    case_bool_decide as E; [|done]. subst eh. destruct (q_host _ _ ji_queue0 _ _ Eh) as (s' & Hs').
    by destruct (q_enqueue_once _ _ ji_queue0 _ _ _ _ _ Hin Hs') as [-> _]. }
  assert (nonces = mk_dbnonce (used_nonce (js_nonces st) ++ [(n, path)])) as ->.
  { unfold db_consume in Ec. case_bool_decide; [done|]. by injection Ec as <-. }
  assert (_job_nonce q = _job_nonce (js_queue st)) as En.
  { unfold resolve in Er. destruct (_job_host _ !! _); [|done]. destruct (negb _); [done|]. destruct (_results _ !! _) as [f|]; [|done].
    destruct (done_ f); [done|]. by injection Er as <-. }
  split; cbn; intros *; rewrite ?fmap_app, ?omap_app, ?elem_of_snoc; rewrite ?En.
  - done.
  - cbn. rewrite !app_nil_r. done.
  - intros [H|]; [|done]. apply ji_sent0 in H as [-> ?]. split; [done|by left].
  - intros H%ji_nonce0. destruct H as (h & s' & ? & ->). exists h, s'. rewrite elem_of_snoc. auto.
  - intros [H|[= -> -> ->]].
    + apply ji_resolved0 in H as (hs & fp' & k' & s' & ? & ? & ? & ?). exists hs, fp', k', s'. rewrite !elem_of_snoc. auto.
    + exists hosts, fp, served, s. rewrite !elem_of_snoc, Hj, <- Hns. auto.
  - intros [H|]; [|done]. apply ji_claimed0 in H as (h & ? & ?). exists h. rewrite elem_of_snoc. auto.
  - intros [H|]; [|done]. left. by apply ji_returned0.
Qed.

Lemma serve_job_jinv trace evs past st req resp st' :
  jinv trace evs st → Forall (nonces_of evs) past →
  (∀ jid, dispatch_id req = Some jid → jid ∉ omap dispatch_id trace.*1) → serve_job req past st = (resp, st') →
  ∃ es, jinv (trace ++ [(req, resp)]) (evs ++ es) st'.
Proof.
  intros Hi Hpast Hf H. destruct req as [jid signed|jid|hosts fp now gets|hosts fp path p served]; cbn [serve_job] in H.
  - injection H as <- <-. apply dispatch_jinv; [done|]. destruct Hi. rewrite ji_ids0. by apply Hf.
  - destruct (finish jid (js_queue st)) as [r q] eqn:Ef. injection H as <- <-. destruct r as [r|].
    + exists [EvReturn jid r]. apply (jinv_extend _ _ st); try done.
      * apply (finish_inv _ _ _ _ _ (ji_queue _ _ _ Hi) Ef).
      * intros j n. unfold finish in Ef. destruct (_results _ !! jid); [|done]. injection Ef as _ <-. cbn. by intros [_ ?]%lookup_delete_Some.
      * intros j p [= <- ->]. left.
    + exists []. unfold finish in Ef. destruct (_results _ !! jid); [done|]. injection Ef as <-. destruct st. by apply jinv_same.
  - destruct (poll_job hosts gets fp now st) as [r st1] eqn:Ep. injection H as <- <-. unfold poll_job in Ep.
    destruct (host_of hosts fp) as [host|e] eqn:Eh; [|injection Ep as <- <-; exists []; by apply jinv_same].
    pose proof (poll_nonce gets host now (js_queue st)) as Hn. destruct (poll gets host now (js_queue st)) as [c q] eqn:Eq. injection Ep as <- <-.
    destruct c as [[jid s]|].
    + exists [EvClaim jid host s now]. apply (jinv_extend _ _ st); try done.
      * apply (poll_inv _ _ _ _ _ _ _ (ji_queue _ _ _ Hi)) in Eq. exact Eq.
      * intros j n. cbn in Hn. by rewrite Hn.
      * intros hs fp' now' gets' j s' [= <- <- <- <- <- <-]. exists host. split; [done|left].
    + exists []. apply (jinv_extend _ _ st); try done.
      * apply (poll_inv _ _ _ _ _ _ _ (ji_queue _ _ _ Hi)) in Eq. by rewrite app_nil_r.
      * intros j n. cbn in Hn. by rewrite Hn.
  - destruct (submit_job_result hosts fp path p _ st) as [r st1] eqn:Es. injection H as <- <-.
    eapply submit_jinv; [done| |exact Es]. apply queue_before_ok; [done|]. by destruct Hi.
Qed.

Lemma serve_all_jinv reqs trace evs past st :
  jinv trace evs st → Forall (nonces_of evs) past → NoDup (omap dispatch_id trace.*1 ++ omap dispatch_id reqs) →
  ∃ evs', jinv (serve_all reqs trace past st).1 evs' (serve_all reqs trace past st).2.
Proof.
  revert trace evs past st. induction reqs as [|req reqs IH]; intros trace evs past st Hi Hpast Hnd; [by exists evs|]. cbn [serve_all].
  destruct (serve_job req past st) as [resp st1] eqn:Es. destruct (serve_job_jinv trace evs past st req resp st1) as (es & Hi'); [done|done| |done|].
  - intros jid E Hin. apply NoDup_app in Hnd as (_ & Hnd & _). apply (Hnd jid Hin). cbn. rewrite E. left.
  - apply (IH _ _ _ _ Hi').
    { assert (nonces_of evs (js_queue st)) by by destruct Hi.
      constructor; [by apply nonces_of_app|]. eapply Forall_impl; [done|]. intros q. apply nonces_of_app. }
    rewrite fmap_app, omap_app, <- app_assoc. cbn in Hnd |- *. destruct (dispatch_id req); [|done]. cbn. done.
Qed.

(** C7: In every history of dispatches, polls and results of agents, where each dispatch has an id of its own: a job is handed out only
    to the certificate of the host that its signature names, before it expires; and what a dispatch returns was posted for that very
    job by a certificate of that host, and accepted, with the nonce of the job entered in the durable ledger.  Any requests may be served
    between the guards of a result and its entry in the ledger. *)
Theorem dispatch_answered_by_its_host reqs :
  NoDup (omap dispatch_id reqs) →
  let '(trace, st) := serve_all reqs [] [] empty_jstate in
  (∀ hosts fp now gets jid s, (RPoll hosts fp now gets, Polled (Ok (Some (jid, s)))) ∈ trace →
     (RDispatch jid s, Dispatched) ∈ trace ∧ host_of hosts fp = Ok (Jobs.host_id (job s)) ∧
     (instant now < instant (as_utc (expires_at (job s))))%Z) ∧
  (∀ jid p, (RFinish jid, Finished (Some (Ok p))) ∈ trace →
     ∃ s hosts fp served, (RDispatch jid s, Dispatched) ∈ trace ∧ (RSubmit hosts fp jid p served, Submitted (Ok ())) ∈ trace ∧
       host_of hosts fp = Ok (Jobs.host_id (job s)) ∧ job_id p = jid ∧ (nonce (job s), jid) ∈ used_nonce (js_nonces st)).
Proof.
  intros Hnd. destruct (serve_all_jinv reqs [] [] [] empty_jstate) as (evs & Hi); [|done..|].
  { split; cbn; intros *; rewrite ?elem_of_nil; try done. apply empty_inv. }
  destruct (serve_all reqs [] [] empty_jstate) as [trace st]. cbn in Hi. destruct Hi as [Hq _ Hsent _ Hres Hcl Hret]. split.
  - intros hosts fp now gets jid s H. apply Hcl in H as (h & Hh & H). destruct (q_claim_ok _ _ Hq _ _ _ _ H) as [He Hlt].
    apply Hsent in He as [-> ?]. by split_and!.
  - intros jid p H%Hret. destruct (q_return _ _ Hq _ _ H) as [h Hh]. destruct (q_resolve_ok _ _ Hq _ _ _ Hh) as (Hj & _).
    apply Hres in Hh as (hosts & fp & k & s & Hsub & Hho & He & Hu). apply Hsent in He as [-> He]. exists s, hosts, fp, k. by split_and!.
Qed.

(** ** The signing key *)

Section ProvisioningLaws.
Context (secret : string → option string) (load_pem : string → option (option (string → string))) (hmac_sha256 : string → string → string).
Abbreviation build_remediation_runtime := (build_remediation_runtime secret load_pem hmac_sha256).

(** Disabled, or without a key reference, the write path stays closed and nothing fails. *)
Lemma runtime_default_off s : sg_enabled s = false ∨ truthy (sg_key_ref s) = None → build_remediation_runtime s = Ok None.
Proof.
  unfold JobRoutes.build_remediation_runtime, load_orchestrator_signer. intros [->| ->]; [done|]. by destruct (sg_enabled s).
Qed.

(** Enabled with a key reference it is armed with a signer of the key that the reference names, or the start fails: there is no third
    outcome, and what is armed verifies at an agent that was given the matching key. *)
Lemma runtime_armed_or_refused s ref ed_verify :
  sg_enabled s = true → truthy (sg_key_ref s) = Some ref →
  (∀ pem sign m, load_pem pem = Some (Some sign) → ed_verify pem (sign m) m = true) →
  match build_remediation_runtime s with
  | Err _ => True
  | Ok None => False
  | Ok (Some sign) => ∃ material, secret ref = Some material ∧ material ≠ "" ∧
      ((lower (sg_algorithm s) = "ed25519" ∧ ∀ j, ed25519_verify (ed_verify (utf8 material)) (sg_key_id s) (sign j) = true) ∨
       (lower (sg_algorithm s) ∈ ["hmac"; "hmac-sha256"] ∧ 32 ≤ String.length (utf8 material) ∧
        ∀ j, hmac_verify hmac_sha256 (utf8 material) (sg_key_id s) (sign j) = true))
  end.
Proof.
  unfold JobRoutes.build_remediation_runtime, load_orchestrator_signer. intros -> -> Hp. destruct (secret ref) as [[|c m]|]; [done| |done].
  set (material := String c m). cbv zeta. case_bool_decide as E1.
  - destruct (load_pem (utf8 material)) as [[sign|]|] eqn:El; [|done..]. exists material. split_and!; [done..|]. left. split; [done|].
    intros j. unfold ed25519_verify, ed25519_sign. cbn [algorithm key_id job signature]. rewrite !bool_decide_true by done. cbn [negb orb].
    rewrite b64_roundtrip. by apply (Hp (utf8 material)).
  - case_bool_decide as E2; [|done]. destruct (Nat.ltb_spec (String.length (utf8 material)) _MIN_HMAC_SECRET_BYTES); [done|].
    exists material. split_and!; [done..|]. right. split_and!; [set_solver|done|].
    intros j. unfold hmac_verify, hmac_sign. cbn [algorithm key_id job signature]. rewrite !bool_decide_true by done. cbn [negb orb].
    rewrite b64_roundtrip. by rewrite bool_decide_true.
Qed.
End ProvisioningLaws.

(** ** Witnesses *)

Definition job_hosts : list Host :=
  [mk_host 1 "host-1" None None "fp-1" None None None None; mk_host 2 "host-2" None None "fp-2" None None None None].

(** A dispatch that is claimed and answered, with a spoofed answer and a poll of another host in between, and a replay whose guards
    passed before the first answer was entered. *)
Definition job_requests : list jreq :=
  [RDispatch "j1" demo_signed; RPoll job_hosts "fp-2" (at_second 1) 5; RPoll job_hosts "fp-1" (at_second 1) 5;
   RSubmit job_hosts "fp-2" "j1" (demo_payload "j1") 0; RSubmit job_hosts "fp-1" "j1" (demo_payload "j1") 1;
   RSubmit job_hosts "fp-1" "j1" (demo_payload "j1") 1; RFinish "j1"].

Example job_responses : (serve_all job_requests [] [] empty_jstate).1.*2 =
  [Dispatched; Polled (Ok None); Polled (Ok (Some ("j1", demo_signed))); Submitted no_dispatch; Submitted (Ok ());
   Submitted (http 409 "job result already submitted (replay)"); Finished (Some (Ok (demo_payload "j1")))].
Proof. vm_compute. reflexivity. Qed.

Lemma dispatch_answered_by_its_host_witness :
  ∃ hosts fp served, (RSubmit hosts fp "j1" (demo_payload "j1") served, Submitted (Ok ())) ∈ (serve_all job_requests [] [] empty_jstate).1 ∧
    host_of hosts fp = Ok "host-1".
Proof.
  assert (NoDup (omap dispatch_id job_requests)) as Hnd by (apply NoDup_singleton).
  pose proof (dispatch_answered_by_its_host job_requests Hnd) as H.
  assert ((RFinish "j1", Finished (Some (Ok (demo_payload "j1")))) ∈ (serve_all job_requests [] [] empty_jstate).1) as Hin.
  { apply list_elem_of_lookup. exists 6. vm_compute. reflexivity. }
  assert (∀ s, (RDispatch "j1" s, Dispatched) ∈ (serve_all job_requests [] [] empty_jstate).1 → s = demo_signed) as Hs.
  { intros s H'. assert (omap (λ x, match x.1 with RDispatch _ s => Some s | _ => None end) (serve_all job_requests [] [] empty_jstate).1 =
      [demo_signed]) as E by (vm_compute; reflexivity).
    apply (list_elem_of_singleton s demo_signed). rewrite <- E. apply list_elem_of_omap. exists (RDispatch "j1" s, Dispatched). split; [exact H'|done]. }
  destruct (serve_all job_requests [] [] empty_jstate) as [trace st]. destruct H as [_ H].
  destruct (H _ _ Hin) as (s & hosts & fp & k & Hd & Hsub & Hh & _). exists hosts, fp, k. split; [exact Hsub|]. by rewrite Hh, (Hs s Hd).
Defined.

(** ** What a late answer meets *)

(** The job is claimed one second before it expires; the agent acts and answers after the wait of the dispatch has ended.  The answer is
    refused, with the records of the acts in it. *)
Definition late_requests : list jreq :=
  [RDispatch "j1" demo_signed; RPoll job_hosts "fp-1" (at_second 299) 5; RFinish "j1"; RSubmit job_hosts "fp-1" "j1" (demo_payload "j1") 0].

Lemma act_after_give_up : (serve_all late_requests [] [] empty_jstate).1.*2 =
  [Dispatched; Polled (Ok (Some ("j1", demo_signed))); Finished (Some (Err "DispatchTimeoutError")); Submitted no_dispatch].
Proof. vm_compute. reflexivity. Qed.
