(* ===== verification/ReadRoutes.v ===== *)
(** The read routes ([src/fathom/api/routers/read.py], [duplicates.py], [charts.py]) and their response models ([api/schemas.py]).

    A route checks the capability of the principal first, then its parameters, then runs its query under the scope of that capability.
    The shape of a response is the record of its fields. *)

From stdpp Require Import gmap pretty.
From S2P Require Import Prelude PyStr Sql DedupStore Catalogue Rbac Rollup Query Charts Visible PreviewRoute Remediation.

Local Open Scope Z_scope.

(** A [ValueError] of a query is mapped to a 404. *)
Definition answer {A} (r : query A) : reply A :=
  match r with Ok a => Ok a | Err (ValueError m) => http 404 m | Err (Forbidden e) => Err (Some e) end.

(** [[Out.model_validate(row) for row in rows]]. *)
Definition each {A B} (f : A → B) (r : reply (list A)) : reply (list B) :=
  match r with Ok l => Ok (f <$> l) | Err e => Err e end.

Definition ge1 (o : option Z) : bool := match o with Some v => 1 <=? v | None => true end.
Definition between (lo hi v : Z) : bool := (lo <=? v) && (v <=? hi).

(** A route: its guard, the validation of its parameters, its body. *)
Definition route {A} (capability : Capability) (p : Principal) (valid : bool) (body : ScopeFilter → reply A) : reply A :=
  scope ← guard capability p; if valid then body scope else unprocessable.

(** ** [api/routers/read.py] *)

Record VolumeOut := mk_volume_out {
  vo_id : Z; vo_host_id : Z; vo_mountpoint : string; vo_fs_type : string; vo_device : string; vo_transport : string;
  vo_raid_role : option string; vo_total : Z; vo_used : Z; vo_free : Z; vo_display_name : option string;
}.

Definition volume_out (v : Volume) : VolumeOut :=
  mk_volume_out (v_id v) (v_host_id v) (mountpoint v) (v_fs_type v) (v_device v) (v_transport v) (v_raid_role v) (v_total v)
    (v_used v) (v_free v) (v_display_name v).

Definition get_volumes (p : Principal) (cat : catalogue) : reply (list VolumeOut) :=
  route VIEW_METADATA p true (λ scope, Ok (volume_out <$> list_volumes (volumes cat) (Some scope))).

Definition get_tree (p : Principal) (cat : catalogue) (volume_id : Z) (path : string) : reply (list TreeChild) :=
  route VIEW_METADATA p ((1 <=? volume_id) && negb (bool_decide (path = "")))
    (λ scope, answer (list_children cat volume_id path (Some scope))).

Record HistoryPointOut := mk_history_out { ho_ts : Z; ho_size_logical : Z; ho_size_on_disk : Z; ho_file_count : Z }.

Definition history_out (h : SizeHistory) : HistoryPointOut :=
  mk_history_out (hi_ts h) (hi_size_logical h) (hi_size_on_disk h) (hi_file_count h).

Definition get_history_route (p : Principal) (cat : catalogue) (volume_id : Z) (path : string) (since until : option Z)
    : reply (list HistoryPointOut) :=
  route VIEW_METADATA p ((1 <=? volume_id) && negb (bool_decide (path = "")))
    (λ scope, each history_out (answer (get_history cat volume_id path since until (Some scope)))).

Record ChangeOut := mk_change_out { co_path : string; co_change_type : ChangeType; co_size_delta : Z; co_ts : Z }.

Definition change_out (c : ChangeLog) : ChangeOut := mk_change_out (c_path c) (c_change_type c) (c_size_delta c) (c_ts c).

Definition get_changes_route (p : Principal) (cat : catalogue) (volume_id : Z) (path : option string) (since until : option Z)
    (limit : Z) : reply (list ChangeOut) :=
  route VIEW_METADATA p ((1 <=? volume_id) && negb (bool_decide (path = Some "")) && between 1 1000 limit)
    (λ scope, each change_out (answer (get_changes cat volume_id path since until limit (Some scope)))).

Definition search (fold : ascii → ascii) (p : Principal) (cat : catalogue) (q : string) (volume_id : option Z) (limit : Z)
    : reply (list SearchResult) :=
  route VIEW_METADATA p (negb (bool_decide (q = "")) && (String.length q <=? 255)%nat && ge1 volume_id && between 1 500 limit)
    (λ scope,
      _ ← match volume_id with
          | None => Ok tt
          | Some v =>
              volume ← answer (get_volume_in_scope (volumes cat) v (Some scope));
              match volume with None => http 404 "unknown volume" | Some _ => Ok tt end
          end;
      Ok (search_entries fold cat q (Some scope) volume_id limit)).

(** ** [api/routers/duplicates.py] *)

Record DuplicateGroupOut := mk_group_out {
  go_id : Z; go_full_hash : string; go_size : Z; go_member_count : Z; go_reclaimable_bytes : Z; go_keeper : option Z;
  go_keeper_reason : option string;
}.

Definition group_out (g : Z * DupGroup) : DuplicateGroupOut :=
  mk_group_out g.1 (DedupStore.full_hash g.2) (g_size g.2) (member_count g.2) (reclaimable_bytes g.2)
    (Some (suggested_keeper_entry_id g.2)) (Some (suggested_keeper_reason g.2)).

Definition list_duplicates (p : Principal) (d : dedup_db) (volume_id cursor : option Z) (limit : Z)
    : reply (list DuplicateGroupOut * option string) :=
  route VIEW_DEDUP p (ge1 volume_id && match cursor with Some c => 0 <=? c | None => true end && between 1 200 limit)
    (λ scope,
      let '(groups, next_cursor) := list_duplicate_groups d (Some scope) volume_id cursor (Z.to_nat limit) in
      Ok (group_out <$> groups, pretty <$> next_cursor)).

Definition duplicates_summary (p : Principal) (d : dedup_db) (volume_id : option Z) : reply (Z * Z) :=
  route VIEW_DEDUP p (ge1 volume_id) (λ scope, Ok (duplicate_summary d (Some scope) volume_id)).

(** The groups are reported as they are found; one more than the limit tells whether the list is cut. *)
Definition provider_duplicates (p : Principal) (es : list FsEntryRow) (volume_id : option Z) (limit : Z)
    : reply (list ProviderDupGroup * bool) :=
  route VIEW_DEDUP p (ge1 volume_id && between 1 1000 limit)
    (λ scope,
      let groups := find_provider_hash_duplicates (Some scope) ((λ v, [v]) <$> volume_id) 2 (Some (limit + 1)) es in
      Ok (takeZ limit groups, limit <? Z.of_nat (length groups))).

Definition get_duplicate (p : Principal) (d : dedup_db) (group_id : Z) : reply (DuplicateGroupOut * list DupMember) :=
  route VIEW_DEDUP p true
    (λ scope,
      match get_duplicate_group d group_id (Some scope) with
      | None => http 404 "duplicate group not found"
      | Some (group, members) =>
          let visible_native := Z.of_nat (length (filter (λ m, negb (is_mount_alias m)) members)) in
          let visible_reclaimable := g_size group * Z.max 0 (visible_native - 1) in
          let keeper_visible := bool_decide (suggested_keeper_entry_id group ∈ DedupStore.m_entry_id <$> members) in
          Ok (mk_group_out group_id (DedupStore.full_hash group) (g_size group) (Z.of_nat (length members)) visible_reclaimable
                (if keeper_visible then Some (suggested_keeper_entry_id group) else None)
                (if keeper_visible then Some (suggested_keeper_reason group) else None), members)
      end).

(** ** [api/routers/charts.py] *)

Record ChartSettings := mk_chart_settings { treemap_max_nodes : Z; top_n_max : Z; growth_max_buckets : Z }.

Definition get_treemap (p : Principal) (s : ChartSettings) (cat : catalogue) (volume_id : Z) (path : string) (depth limit : Z)
    : reply (list TreemapNode) :=
  route VIEW_METADATA p ((1 <=? volume_id) && negb (bool_decide (path = "")) && between 1 4 depth && (1 <=? limit))
    (λ scope, answer (treemap_children cat volume_id path depth (Z.min limit (treemap_max_nodes s)) (Some scope))).

Definition get_top_n (p : Principal) (s : ChartSettings) (cat : catalogue) (volume_id : Z) (path : string) (n : Z)
    (by_ : SizeBasis) (kind : TopNKind) : reply (list TopNItem) :=
  route VIEW_METADATA p ((1 <=? volume_id) && negb (bool_decide (path = "")) && (1 <=? n))
    (λ scope, answer (top_n_subtrees cat volume_id path (Z.min n (top_n_max s)) by_ kind (Some scope))).

Definition get_history_series (p : Principal) (s : ChartSettings) (cat : catalogue) (volume_id : Z) (path : string)
    (since until : option Z) (buckets : Z) : reply GrowthSeries :=
  route VIEW_METADATA p ((1 <=? volume_id) && negb (bool_decide (path = "")) && (2 <=? buckets))
    (λ scope, answer (growth_series cat volume_id path since until (Z.min buckets (growth_max_buckets s)) (Some scope))).

(** ** What a reader gets *)

(** Some grant of the principal has the capability and covers the volume. *)
Definition may_see (p : Principal) (capability : Capability) (cat : catalogue) (volume_id : Z) : Prop :=
  ∃ volume g, get_volume volume_id (volumes cat) = Some volume ∧ g ∈ grants p ∧ role_has (g_role g) capability = true ∧
    grant_covers g (v_host_id volume) (Some volume_id) (Some (v_kind volume)) = true.

Lemma route_ok {A} capability p valid (body : ScopeFilter → reply A) a :
  route capability p valid body = Ok a ↔
  has_capability p capability = true ∧ is_empty (from_grants (grants p) capability) = false ∧ valid = true ∧
  body (from_grants (grants p) capability) = Ok a.
Proof.
  unfold route, guard, lift, Auth.require. destruct (has_capability p capability); simpl; [|naive_solver].
  destruct (is_empty _); simpl; [naive_solver|]. destruct valid; [naive_solver|]. unfold unprocessable, http. naive_solver.
Qed.

Lemma answer_ok {A} (r : query A) a : answer r = Ok a ↔ r = Ok a.
Proof. destruct r as [x|[m|e]]; simpl; unfold http; naive_solver. Qed.

Lemma get_volume_id vs id v : get_volume id vs = Some v → v_id v = id.
Proof. unfold get_volume. by intros [? _]%head_Some_elem_of%list_elem_of_filter. Qed.

Lemma scoped_volume_seen p capability cat vid v :
  _scoped_volume (volumes cat) vid (Some (from_grants (grants p) capability)) = Ok v → may_see p capability cat vid.
Proof.
  unfold _scoped_volume. destruct (get_volume vid (volumes cat)) as [w|] eqn:E; [|done].
  intros (u & H & _)%bind_ok. unfold _check_volume_in_scope in H. rewrite (get_volume_id _ _ _ E) in H.
  destruct (check_target _ _ _ _) as [[]|] eqn:Hc; [|done].
  apply check_target_allows, from_grants_allows in Hc as (g & Hg & Hr & Hcov). exists w, g. done.
Qed.

Lemma checked_seen p capability cat vid u :
  check_scoped (volumes cat) vid (Some (from_grants (grants p) capability)) = Ok u → may_see p capability cat vid.
Proof. unfold check_scoped. intros (v & Hv & _)%bind_ok. by eapply scoped_volume_seen. Qed.

Lemma each_ok {A B} (f : A → B) r l : each f r = Ok l → ∃ k, r = Ok k ∧ l = f <$> k.
Proof. destruct r; [|done]. intros [= <-]. eauto. Qed.

(** A principal reads only what a grant with the metadata capability covers: every listed volume, the volume of every tree, history,
    churn or chart reply, and the volume and host of every search hit; a search on a named volume that it may not see is an error. *)
Theorem reads_confined p s cat :
  (∀ vid d x, get_tree p cat vid d = Ok x → may_see p VIEW_METADATA cat vid) ∧
  (∀ vid d since until x, get_history_route p cat vid d since until = Ok x → may_see p VIEW_METADATA cat vid) ∧
  (∀ vid d since until n x, get_changes_route p cat vid d since until n = Ok x → may_see p VIEW_METADATA cat vid) ∧
  (∀ vid d dep n x, get_treemap p s cat vid d dep n = Ok x → may_see p VIEW_METADATA cat vid) ∧
  (∀ vid d n b k x, get_top_n p s cat vid d n b k = Ok x → may_see p VIEW_METADATA cat vid) ∧
  (∀ vid d since until n x, get_history_series p s cat vid d since until n = Ok x → may_see p VIEW_METADATA cat vid) ∧
  (∀ out o, get_volumes p cat = Ok out → o ∈ out →
    ∃ v g, v ∈ volumes cat ∧ o = volume_out v ∧ g ∈ grants p ∧ role_has (g_role g) VIEW_METADATA = true ∧
      grant_covers g (v_host_id v) (Some (v_id v)) (Some (v_kind v)) = true) ∧
  (∀ fold q vid n hits h, search fold p cat q vid n = Ok hits → h ∈ hits →
    ∃ volume g, get_volume (s_volume_id h) (volumes cat) = Some volume ∧ g ∈ grants p ∧ role_has (g_role g) VIEW_METADATA = true ∧
      grant_covers g (s_host_id h) (Some (s_volume_id h)) (Some (v_kind volume)) = true) ∧
  (∀ fold q v n hits, search fold p cat q (Some v) n = Ok hits → may_see p VIEW_METADATA cat v).
Proof.
  split_and!.
  - intros vid d x (_ & _ & _ & (v & Hv & _)%answer_ok%bind_ok)%route_ok. by eapply scoped_volume_seen.
  - intros vid d since until x (_ & _ & _ & (k & (v & Hv & _)%answer_ok%bind_ok & _)%each_ok)%route_ok. by eapply checked_seen.
  - intros vid d since until n x (_ & _ & _ & (k & (v & Hv & _)%answer_ok%bind_ok & _)%each_ok)%route_ok. by eapply checked_seen.
  - intros vid d dep n x (_ & _ & _ & (v & Hv & _)%answer_ok%bind_ok)%route_ok. by eapply scoped_volume_seen.
  - intros vid d n b k x (_ & _ & _ & (v & Hv & _)%answer_ok%bind_ok)%route_ok. by eapply scoped_volume_seen.
  - intros vid d since until n x (_ & _ & _ & (v & Hv & _)%answer_ok%bind_ok)%route_ok. by eapply scoped_volume_seen.
  - intros out o (_ & _ & _ & [= <-])%route_ok (v & -> & Hv)%list_elem_of_fmap.
    apply volumes_listed in Hv as [Hv (g & Hg & Hr & Hc)%check_target_allows%from_grants_allows]. by exists v, g.
  - intros fold q vid n hits h (_ & _ & _ & (u & _ & [= <-])%bind_ok)%route_ok Hh.
    unfold search_entries in Hh. apply list_elem_of_fmap in Hh as (e & -> & He).
    assert (matches fold (volumes cat) q (Some (from_grants (grants p) VIEW_METADATA)) vid e = true) as Hm.
    { unfold sql_limit in He. apply Is_true_true. destruct (n <? 0); [|apply elem_of_take in He as (? & He & _); apply list_elem_of_lookup_2 in He];
        by apply elem_of_order_by, list_elem_of_filter in He as [? _]. }
    unfold matches in Hm. destruct (get_volume (Catalogue.volume_id e) (volumes cat)) as [volume|] eqn:Ev; [|done].
    apply andb_true_iff in Hm as [_ Hs%scoped_check]. apply check_target_allows, from_grants_allows in Hs as (g & Hg & Hr & Hc).
    by exists volume, g.
  - intros fold q v n hits (_ & _ & _ & (u & Hu & _)%bind_ok)%route_ok. apply bind_ok in Hu as (o & Ho%answer_ok & Hu).
    unfold get_volume_in_scope in Ho. destruct (get_volume v (volumes cat)) as [w|] eqn:E; [|by injection Ho as <-].
    apply (scoped_volume_seen p VIEW_METADATA cat v w). unfold _scoped_volume. rewrite E.
    destruct (_check_volume_in_scope _ _); [done|]. by simpl in Ho.
Qed.

(** ** Duplicates *)

(** *** Nothing else has an influence on a reply *)

(** A query of one volume that is checked against the scope. *)
Definition checked_query {A} (f : ScopeFilter) (cat : catalogue) (vid : Z) (q : catalogue → query A) : Prop :=
  (∀ a, q cat = Ok a → sees f (volumes cat) vid = true) ∧ (sees f (volumes cat) vid = true → q (restrict f cat) = q cat).

Lemma route_noninterfering {A B} p capability cat vid valid (q : ScopeFilter → catalogue → query A) (out : query A → reply B) b :
  (∀ e, out (Err e) ≠ Ok b) →
  let f := from_grants (grants p) capability in
  checked_query f cat vid (q f) →
  route capability p valid (λ scope, out (q scope cat)) = Ok b →
  route capability p valid (λ scope, out (q scope (restrict f cat))) = Ok b.
Proof.
  intros Ho f [Hs He] (H1 & H2 & H3 & H4)%route_ok. fold f in H2, H4. apply route_ok. split_and!; [done..|]. fold f.
  destruct (q f cat) as [a|e] eqn:Eq; [|by apply Ho in H4]. rewrite He; [by rewrite ?Eq|by eapply Hs].
Qed.

Lemma answer_err {A} (e : QueryError) (b : A) : answer (Err e) ≠ Ok b.
Proof. by destruct e. Qed.
Lemma each_answer_err {A B} (g : A → B) (e : QueryError) b : each g (answer (Err e)) ≠ Ok b.
Proof. by destruct e. Qed.

(** C34: Nothing out of a reader's scope has an influence on what it reads: a listing, tree, history, churn, search or chart reply is the
    same on the catalogue without all the rows of the volumes (and the hosts) that no grant with the metadata capability covers. *)
Theorem reads_noninterfering p s cat :
  rows_agree cat →
  let cat' := restrict (from_grants (grants p) VIEW_METADATA) cat in
  (∀ x, get_volumes p cat = Ok x → get_volumes p cat' = Ok x) ∧
  (∀ vid d x, get_tree p cat vid d = Ok x → get_tree p cat' vid d = Ok x) ∧
  (∀ vid d since until x, get_history_route p cat vid d since until = Ok x → get_history_route p cat' vid d since until = Ok x) ∧
  (∀ vid d since until n x, get_changes_route p cat vid d since until n = Ok x → get_changes_route p cat' vid d since until n = Ok x) ∧
  (∀ fold q vid n x, search fold p cat q vid n = Ok x → search fold p cat' q vid n = Ok x) ∧
  (∀ vid d dep n x, get_treemap p s cat vid d dep n = Ok x → get_treemap p s cat' vid d dep n = Ok x) ∧
  (∀ vid d n b k x, get_top_n p s cat vid d n b k = Ok x → get_top_n p s cat' vid d n b k = Ok x) ∧
  (∀ vid d since until n x, get_history_series p s cat vid d since until n = Ok x → get_history_series p s cat' vid d since until n = Ok x).
Proof.
  intros Hok cat'. subst cat'. split_and!.
  - intros x (H1 & H2 & H3 & H4)%route_ok. apply route_ok. split_and!; [done..|]. by rewrite list_volumes_restrict.
  - intros vid d x. apply (route_noninterfering p _ cat vid _ (λ f c, list_children c vid d (Some f)) answer); [intros e; apply answer_err|].
    split; [intros a (v & Hv & _)%bind_ok; by eapply scoped_volume_sees|by apply list_children_restrict].
  - intros vid d since until x.
    apply (route_noninterfering p _ cat vid _ (λ f c, get_history c vid d since until (Some f)) (λ r, each history_out (answer r)));
      [intros e; apply each_answer_err|].
    split; [intros a (u & (v & Hv & _)%bind_ok & _)%bind_ok; by eapply scoped_volume_sees|by apply get_history_restrict].
  - intros vid d since until n x.
    apply (route_noninterfering p _ cat vid _ (λ f c, get_changes c vid d since until n (Some f)) (λ r, each change_out (answer r)));
      [intros e; apply each_answer_err|].
    split; [intros a (u & (v & Hv & _)%bind_ok & _)%bind_ok; by eapply scoped_volume_sees|by apply get_changes_restrict].
  - intros fold q vid n x (H1 & H2 & H3 & (u & Hu & H4)%bind_ok)%route_ok. apply route_ok. split_and!; [done..|].
    apply bind_ok. exists u. split; [|by rewrite search_restrict]. destruct vid as [v|]; [|done].
    apply bind_ok in Hu as (vol & Hv & Hu). apply answer_ok in Hv. destruct vol as [w|]; [|done].
    by rewrite get_in_scope_restrict, Hv; [|done|eapply get_in_scope_sees].
  - intros vid d dep n x.
    apply (route_noninterfering p _ cat vid _ (λ f c, treemap_children c vid d dep (Z.min n (treemap_max_nodes s)) (Some f)) answer);
      [intros e; apply answer_err|].
    split; [intros a (v & Hv & _)%bind_ok; by eapply scoped_volume_sees|by apply treemap_restrict].
  - intros vid d n b k x.
    apply (route_noninterfering p _ cat vid _ (λ f c, top_n_subtrees c vid d (Z.min n (top_n_max s)) b k (Some f)) answer);
      [intros e; apply answer_err|].
    split; [intros a (v & Hv & _)%bind_ok; by eapply scoped_volume_sees|by apply top_n_restrict].
  - intros vid d since until n x.
    apply (route_noninterfering p _ cat vid _ (λ f c, growth_series c vid d since until (Z.min n (growth_max_buckets s)) (Some f)) answer);
      [intros e; apply answer_err|].
    split; [intros a (v & Hv & _)%bind_ok; by eapply scoped_volume_sees|by apply growth_series_restrict].
Qed.

Lemma member_in_scope_allows f m :
  member_in_scope f m = true ↔ is_global f = true ∨ m_volume_id m ∈ volume_ids f ∨ m_host_id m ∈ host_ids f.
Proof.
  unfold member_in_scope, apply. destruct (is_global f); [naive_solver|]. repeat case_bool_decide; simpl; set_solver.
Qed.

(** A detail names members of the group only, each covered by host or volume, and all of those; its counts are of what it names, and it
    points at the keeper only when that is named. *)
Theorem duplicate_detail_spec p d gid out ms :
  get_duplicate p d gid = Ok (out, ms) →
  ms ≠ [] ∧ go_member_count out = Z.of_nat (length ms) ∧
  (∀ m, m ∈ ms ↔ (gid, m) ∈ dup_members d ∧
        member_in_scope (from_grants (grants p) VIEW_DEDUP) m = true) ∧
  (∀ k, go_keeper out = Some k → k ∈ DedupStore.m_entry_id <$> ms) ∧
  go_reclaimable_bytes out = go_size out * Z.max 0 (Z.of_nat (length (filter (λ m, is_mount_alias m = false) ms)) - 1).
Proof.
  intros (_ & _ & _ & H)%route_ok. set (f := from_grants _ _) in *. destruct (get_duplicate_group d gid (Some f)) as [[g ms']|] eqn:E; [|done].
  injection H as <- <-. simpl. unfold get_duplicate_group in E. destruct (head _) as [g'|]; [|done].
  assert (ms' ≠ [] ∧ ms' = snd <$> filter (λ m, bool_decide (m.1 = gid) &&
    match narrowing (Some f) with Some f => member_in_scope f m.2 | None => true end) (dup_members d)) as [Hne ->].
  { destruct (snd <$> _) eqn:El; [done|]. injection E as _ <-. done. }
  split; [done|]. split; [done|]. split; [|split].
  - intros m. rewrite list_elem_of_fmap. unfold narrowing. split.
    + intros ([i m'] & -> & [Hm Hin]%list_elem_of_filter). simpl in *. to_prop. subst i. split; [done|].
      destruct (is_global f) eqn:Eg; [|done]. apply member_in_scope_allows. by left.
    + intros [Hin Hm]. exists (gid, m). split; [done|]. apply list_elem_of_filter. simpl. rewrite bool_decide_true by done.
      split; [|done]. destruct (is_global f); [done|]. by apply Is_true_true.
  - intros k. destruct (bool_decide _) eqn:Eb; [|done]. intros [= <-]. by to_prop.
  - f_equal. f_equal. f_equal. f_equal. f_equal. apply filter_ext_elem. intros m _. by destruct (is_mount_alias m).
Qed.

(** A principal that sees every copy gets the stored figures, when these are those of the members (as the rebuild writes them). *)
Theorem global_detail_is_stored p d gid g :
  is_global (from_grants (grants p) VIEW_DEDUP) = true → has_capability p VIEW_DEDUP = true →
  let ms := snd <$> filter (λ m, m.1 = gid) (dup_members d) in
  head (filter (λ g, g.1 = gid) (dup_groups d)) = Some (gid, g) → ms ≠ [] →
  member_count g = Z.of_nat (length ms) → suggested_keeper_entry_id g ∈ DedupStore.m_entry_id <$> ms →
  reclaimable_bytes g = g_size g * Z.max 0 (Z.of_nat (length (filter (λ m, negb (is_mount_alias m)) ms)) - 1) →
  get_duplicate p d gid = Ok (group_out (gid, g), ms).
Proof.
  intros Hg Hc ms Hhd Hne Hn Hk Hr. apply route_ok. split; [done|]. split; [unfold is_empty; by rewrite Hg|]. split; [done|].
  unfold get_duplicate_group, narrowing. rewrite Hg, Hhd.
  assert (snd <$> filter (λ m : Z * DupMember, bool_decide (m.1 = gid) && true) (dup_members d) = ms) as ->.
  { unfold ms. f_equal. apply filter_ext_elem. intros m _. rewrite andb_true_r, bool_decide_spec. done. }
  destruct ms as [|m l] eqn:E; [done|]. rewrite <- E in *. simpl. rewrite bool_decide_true by done. unfold group_out. simpl.
  by rewrite <- Hn, <- Hr.
Qed.

Lemma collect_take n gs out :
  Z.of_nat (length out) < n → collect (Some n) gs out = take (Z.to_nat n) (out ++ gs).
Proof.
  revert out. induction gs as [|g gs IH]; intros out Hn; cbn [collect].
  - rewrite app_nil_r, take_ge by lia. done.
  - rewrite length_app. simpl length. destruct (Z.leb_spec n (Z.of_nat (length out + 1))).
    + rewrite (cons_middle g out gs), app_assoc, take_app_length'; [done|]. rewrite length_app. simpl. lia.
    + rewrite IH by (rewrite length_app; simpl; lia). by rewrite <- app_assoc.
Qed.

(** The provider report is the first [limit] groups of the scan, and it says truthfully whether more exist. *)
Theorem provider_duplicates_spec p es vid limit gs cut :
  provider_duplicates p es vid limit = Ok (gs, cut) →
  let all := iter_provider_hash_duplicates (Some (from_grants (grants p) VIEW_DEDUP)) ((λ v, [v]) <$> vid) 2 es in
  gs = take (Z.to_nat limit) all ∧ (cut = true ↔ (Z.to_nat limit < length all)%nat).
Proof.
  intros (_ & _ & Hv & H)%route_ok all. apply andb_true_iff in Hv as [_ Hl]. unfold between in Hl. to_prop.
  unfold find_provider_hash_duplicates in H. fold all in H. rewrite collect_take in H by (simpl; lia). simpl in H.
  rewrite takeZ_nonneg, take_take, Nat.min_l in H by lia. injection H as <- <-. split; [done|].
  rewrite Z.ltb_lt, length_take. lia.
Qed.

(** The caps of the settings bound what a chart returns, whatever the client asks for. *)
Theorem charts_capped p s cat vid d :
  1 ≤ treemap_max_nodes s → 1 ≤ top_n_max s → 2 ≤ growth_max_buckets s →
  (∀ dep n x, get_treemap p s cat vid d dep n = Ok x → Z.of_nat (length x) ≤ Z.min n (treemap_max_nodes s)) ∧
  (∀ n b k x, get_top_n p s cat vid d n b k = Ok x → Z.of_nat (length x) ≤ Z.min n (top_n_max s)) ∧
  (∀ since until n x, get_history_series p s cat vid d since until n = Ok x →
     Z.of_nat (length (points x)) ≤ Z.min n (growth_max_buckets s)).
Proof.
  intros H1 H2 H3. split_and!.
  - intros dep n x (_ & _ & Hv & Hx%answer_ok)%route_ok. to_prop.
    assert (0 ≤ Z.min n (treemap_max_nodes s)) as Hn by lia.
    apply bind_ok in Hx as (v & _ & [= <-]). rewrite takeZ_nonneg, length_take by done. lia.
  - intros n b k x (_ & _ & Hv & Hx%answer_ok)%route_ok. to_prop.
    apply bind_ok in Hx as (v & _ & [= <-]). unfold sql_limit. destruct (Z.ltb_spec (Z.min n (top_n_max s)) 0); [lia|].
    rewrite length_fmap, length_take. lia.
  - intros since until n x (_ & _ & Hv & Hx%answer_ok)%route_ok. to_prop. apply bind_ok in Hx as (v & _ & [= <-]). simpl.
    apply downsample_spec; [lia|apply history_in_order].
Qed.

(** ** Witnesses *)

Definition reader (g : Grant) : Principal := mk_principal "ann" SrcLocal 1 [] [g] None None.
Definition host_reader : Principal := reader (mk_grant VIEWER KHost (Some 1) None).

Lemma global_detail_is_stored_witness :
  get_duplicate (reader (mk_grant VIEWER KGlobal None None)) read_ddb 1 = Ok (group_out (read_group 1 3 20), [mk_member 1 1 1 "/p" false;
    mk_member 2 1 1 "/p" false; mk_member 3 2 9 "/p" false]).
Proof.
  apply (global_detail_is_stored (reader (mk_grant VIEWER KGlobal None None)) read_ddb 1 (read_group 1 3 20).2);
    first [vm_compute; reflexivity|vm_compute; done|by_compute].
Defined.

(** The list shows the stored number of copies, hidden ones included; the detail counts the two that the principal may see. *)
Lemma listing_counts_hidden_copies :
  each go_member_count (x ← list_duplicates host_reader read_ddb None None 1; Ok x.1) = Ok [3] ∧
  (x ← get_duplicate host_reader read_ddb 1; Ok (go_member_count x.1)) = Ok 2.
Proof. split; vm_compute; reflexivity. Qed.

(** The search of a reader of host 1 does not see the larger file of host 9. *)
Lemma reads_noninterfering_witness :
  length (fs_entry (restrict (from_grants (grants host_reader) VIEW_METADATA) seen_cat)) = 2%nat ∧
  search lower_char host_reader (restrict (from_grants (grants host_reader) VIEW_METADATA) seen_cat) "x" None 5 =
    Ok [mk_hit "/srv/a/x.txt" "x.txt" false 10 10 1 1].
Proof.
  split; [vm_compute; reflexivity|].
  destruct (reads_noninterfering host_reader (mk_chart_settings 1 1 1) seen_cat seen_cat_agrees) as (_ & _ & _ & _ & H & _).
  apply H. vm_compute. reflexivity.
Defined.
