(* ===== verification/OrganizeRoutes.v ===== *)
(** The routes of the organizer and of reconciliation ([src/fathom/api/routers/organize.py], [api/routers/reconcile.py]): the check of a
    root, the suggestion, the activity hint, the persisted move plan, the comparison.

    An em dash of a message is a hyphen here.  A request is one session, as for the remediation routes: the audit record of a plan is inserted at the flush with its rows. *)

From stdpp Require Import gmap pretty.
From S2P Require Import Prelude PyStr PyInt Json PyTime PosixPath AuditLog AuditStore Rbac Catalogue Jobs Signing Orchestrator Organize Rollup Query Reconcile PreviewRoute PlanStore Remediation ReadRoutes.

Local Open Scope Z_scope.

Definition path_error (e : PathSafetyError) : string := match e with PathSafety m => m end.

Definition _require_root_in_volume (path : string) (volume : Volume) : reply string :=
  match validate_config_path no_fs false false false path with
  | Err e => http 422 ("folder path is not a safe absolute path: " +:+ path_error e)
  | Ok normalised =>
      let root := path_str normalised in
      let mount := normpath (mountpoint volume) in
      if negb (bool_decide (root = mount)) && negb (startswith (rstrip_slash mount +:+ "/") root)
      then http 422 "folder path is not within the selected volume" else Ok root
  end.

Record OrgSettings := mk_org_settings {
  organize_enabled : bool; org_remediation_enabled : bool; organize_model : option string; inference_model : string;
}.

Definition require_organize (s : OrgSettings) : reply unit :=
  if organize_enabled s then Ok tt else http 403 "organize is disabled (organize_enabled=False)".

(** The volume in scope, and the root inside it. *)
Definition scoped_root (vs : list Volume) (volume_id : Z) (path : string) (scope : ScopeFilter) : reply string :=
  volume ← answer (get_volume_in_scope vs volume_id (Some scope));
  match volume with None => http 404 "unknown volume" | Some v => _require_root_in_volume path v end.

Definition path_in_ok (path : string) : bool := negb (bool_decide (path = "")) && (String.length path <=? 4096)%nat.

(** [settings.organize_model or settings.inference_model]. *)
Definition chat_model (s : OrgSettings) : string :=
  match organize_model s with Some m => if bool_decide (m = "") then inference_model s else m | None => inference_model s end.

(** ** Suggestions *)

(** [complete]: the configured provider; [status_code] is that of the InferenceError it raises. *)
Definition organize_suggest (p : Principal) (s : OrgSettings) (cat : catalogue)
    (complete : string → list _Entry → result string _LlmProposal) (status_code : string → Z) (volume_id : Z) (path : string) (max_files : Z) : reply OrganizeProposal :=
  route VIEW_METADATA p ((1 <=? volume_id) && path_in_ok path && between 1 200 max_files)
    (λ scope,
      _ ← require_organize s;
      root ← scoped_root (volumes cat) volume_id path scope;
      match suggest (volumes cat) (fs_entry cat) (chat_model s) (Some complete) volume_id root (Some scope) max_files with
      | Ok proposal => Ok proposal
      | Err e => http (status_code e) "inference unavailable"
      end).

(** ** Activity *)

Definition _ACTIVITY_SCAN_LIMIT : Z := 500.

Record OrganizeActivityOut := mk_activity {
  ac_volume_id : Z; ac_path : string; ac_since_hours : Z; created : Z; modified : Z; deleted : Z; capped : bool; suggests_reorganise : bool;
}.

Definition count_type (t : ChangeType) (changes : list ChangeLog) : Z :=
  Z.of_nat (length (filter (λ c, bool_decide (c_change_type c = t)) changes)).

(** [now]: the instant of the request, in microseconds. *)
Definition organize_activity (p : Principal) (s : OrgSettings) (cat : catalogue) (volume_id : Z) (path : string) (since_hours now : Z)
    : reply OrganizeActivityOut :=
  route VIEW_METADATA p ((1 <=? volume_id) && path_in_ok path && between 1 720 since_hours)
    (λ scope,
      _ ← require_organize s;
      root ← scoped_root (volumes cat) volume_id path scope;
      let since := now - since_hours * 3600000000 in
      changes ← answer (get_changes cat volume_id (Some root) (Some since) None _ACTIVITY_SCAN_LIMIT (Some scope));
      let created := count_type Create changes in
      let modified := count_type Modify changes in
      Ok (mk_activity volume_id root since_hours created modified (count_type Delete changes)
            (_ACTIVITY_SCAN_LIMIT <=? Z.of_nat (length changes)) (0 <? created + modified))).

(** ** Move plans *)

Record OrganizePlanRequest := mk_plan_request {
  q_volume_id : Z; q_path : string; q_moves : list ApprovedMove; q_key : option string;
}.

Definition plan_request_ok (b : OrganizePlanRequest) : bool :=
  (1 <=? q_volume_id b) && path_in_ok (q_path b) && (1 <=? length (q_moves b))%nat && (length (q_moves b) <=? 200)%nat &&
  forallb (λ m, (1 <=? am_entry_id m) && path_in_ok (am_dest_rel m)) (q_moves b) &&
  match q_key b with Some k => (String.length k <=? 128)%nat | None => true end.

Record OrganizePlanOut := mk_plan_out {
  oo_plan_id : string; oo_move_root : string; oo_host_id : string; oo_blast_count : Z; oo_reclaimable_bytes : Z; oo_status : string;
  oo_items : list (Z * string * string);
}.

Definition _organize_plan_out (row : RemediationPlanRow) (d : plan_db) : OrganizePlanOut :=
  mk_plan_out (pr_plan_id row)
    (match pr_move_root row with Some r => if bool_decide (r = "") then pr_keeper_path row else r | None => pr_keeper_path row end)
    (pr_host_id row) (pr_blast_count row) (pr_reclaimable_bytes row) (pr_status row)
    ((λ i, (ir_entry_id i, ir_path i, default "" (ir_dest_rel i))) <$> items_of row d).

(** The gates, in their order: [inl] for the reply of a replay, [inr] for the root. *)
Definition organize_inputs (p : Principal) (s : OrgSettings) (runtime : option RemediationRuntime) (cat : catalogue)
    (b : OrganizePlanRequest) (d : plan_db) : reply (OrganizePlanOut + string * ScopeFilter) :=
  route BUILD_REMEDIATION p (plan_request_ok b)
    (λ scope,
      _ ← require_organize s;
      _ ← (if org_remediation_enabled s then Ok tt else http 403 "remediation is disabled (remediation_enabled=False)");
      _ ← get_runtime runtime;
      root ← scoped_root (volumes cat) (q_volume_id b) (q_path b) scope;
      match q_key b with
      | None => Ok (inr (root, scope))
      | Some k =>
          match find_idempotent k (subject p) d with
          | None => Ok (inr (root, scope))
          | Some row => _ ← check_row scope row; Ok (inl (_organize_plan_out row d))
          end
      end).

(** [str(exc)] of an OrganizePlanError; the last two are other exceptions.  [repr] is Python's. *)
Definition plan_error (repr : string → string) (e : OrganizePlanError) : option string :=
  match e with
  | NoMoves => Some "no moves selected"
  | TooManyMoves => Some "too many moves (> 200)"
  | ListedTwice id => Some ("entry " +:+ pretty id +:+ " listed twice")
  | NotUnderRoot id => Some ("entry " +:+ pretty id +:+ " not found under root (rescan?)")
  | OutOfRoot id => Some ("target for entry " +:+ pretty id +:+ " is out of root")
  | AlreadyThere id => Some ("entry " +:+ pretty id +:+ " target equals its current path")
  | SameTarget absolute => Some ("two entries target " +:+ repr absolute)
  | UnsafeSource e => Some ("source path failed safety: " +:+ path_error e)
  | NoContentHash id => Some ("entry " +:+ pretty id +:+ " has no content hash - run a full-bit scan before moving")
  | AssertionFailed | InvalidModel => None
  end.

Section Routes.
Context (repr : string → string).
Context {B : Backend} (blake3_hex : string → string).

(** [organize_plan]; [plan_id] is the fresh id, [others] what other writers commit until the flush. *)
Definition organize_plan (p : Principal) (s : OrgSettings) (runtime : option RemediationRuntime) (cat : catalogue)
    (b : OrganizePlanRequest) (plan_id : string) (now : datetime) (others : rem_db → rem_db) (d : rem_db)
    : reply OrganizePlanOut * rem_db :=
  match organize_inputs p s runtime cat b (r_plans d) with
  | Err e => (Err e, d)
  | Ok (inl out) => (Ok out, d)
  | Ok (inr (root, scope)) =>
      match build_move_plan (volumes cat) (fs_entry cat) plan_id (subject p) (q_volume_id b) root (q_moves b) (Some scope) with
      | Err e => (match plan_error repr e with Some m => http 422 m | None => Err None end, d)
      | Ok build =>
          let plan := b_plan build in
          match audit_ blake3_hex never_refuses now (subject p) "organize.plan.build" plan_id
                  [("root", match move_root plan with Some r => JStr r | None => JNull end);
                   ("blast", JInt (Z.of_nat (length (Jobs.items plan))))] "built" (session_start (r_audit d)) with
          | (Err _, _) => (Err None, d)
          | (Ok _, w) =>
              match flush_plan plan (mk_pmeta (b_host_id build) (Some (q_volume_id b)) (b_total_bytes build) (q_key b)) w (others d) with
              | (Ok row, d) => (Ok (_organize_plan_out row (r_plans d)), d)
              | (Err IntegrityError, d) => (http 409 "idempotency_key already in use", d)
              | (Err BadEntryId, d) => (Err None, d)
              end
          end
      end
  end.
End Routes.

(** ** [api/routers/reconcile.py] *)

Record ReconcileRequest := mk_reconcile_request { rq_dv : Z; rq_dp : string; rq_cv : Z; rq_cp : string }.

(** The message for the default cap, which the route uses. *)
Definition too_large (def_count cmp_count cap : nat) : string :=
  "Too large to compare in one pass - " +:+
  PyStr.join " and " ((if bool_decide (cap < def_count)%nat then ["the definitive folder"] else []) ++
                      (if bool_decide (cap < cmp_count)%nat then ["the comparison folder"] else [])) +:+
  " holds more than 2,000,000 files. Reconcile matches files by their path within each folder, so compare two copies of the SAME folder: narrow each side to the matching subfolder (e.g. /scan/tank/Media vs /scan/data/Media) and try again.".

Definition reconcile (p : Principal) (cat : catalogue) (b : ReconcileRequest) (ex : execution) : reply ReconcileResult :=
  route VIEW_METADATA p ((1 <=? rq_dv b) && path_in_ok (rq_dp b) && (1 <=? rq_cv b) && path_in_ok (rq_cp b))
    (λ scope,
      def_vol ← answer (get_volume_in_scope (volumes cat) (rq_dv b) (Some scope));
      cmp_vol ← answer (get_volume_in_scope (volumes cat) (rq_cv b) (Some scope));
      match def_vol, cmp_vol with
      | Some dv, Some cv =>
          def_root ← _require_root_in_volume (rq_dp b) dv;
          cmp_root ← _require_root_in_volume (rq_cp b) cv;
          match compare (volumes cat) (fs_entry cat) (Some scope) (rq_dv b) def_root (rq_cv b) cmp_root MAX_SIDE_ENTRIES ex with
          | Ok r => Ok r
          | Err (ReconcileTooLargeError m n cap) => http 413 (too_large m n cap)
          | Err ReconcileTimeoutError =>
              http 504 "That comparison took too long and was stopped. Narrow each side to a smaller matching subfolder and try again."
          | Err OperationalError => Err None
          end
      | _, _ => http 404 "unknown volume"
      end).

(** ** Laws *)

(** An accepted root is the volume's mount point or below it. *)
Lemma require_root_inside path volume root :
  _require_root_in_volume path volume = Ok root →
  let mount := normpath (mountpoint volume) in
  (root = mount ∨ ∃ t, root = rstrip_slash mount +:+ String "/" t) ∧
  ∃ n, validate_config_path no_fs false false false path = Ok n ∧ root = path_str n.
Proof.
  unfold _require_root_in_volume. destruct (validate_config_path _ _ _ _ _) as [n|e] eqn:En; [|done].
  destruct (_ && _) eqn:E; [done|]. intros [= <-]. cbv zeta. split; [|by exists n]. apply andb_false_iff in E as [E|E]; to_prop; [by left|].
  right. apply startswith_spec in E as [t ->]. exists t. by rewrite app_assoc_s.
Qed.

Lemma get_in_scope_seen p capability cat vid v :
  answer (get_volume_in_scope (volumes cat) vid (Some (from_grants (grants p) capability))) = Ok (Some v) →
  may_see p capability cat vid ∧ get_volume vid (volumes cat) = Some v.
Proof.
  intros H%answer_ok. unfold get_volume_in_scope in H. destruct (get_volume vid (volumes cat)) as [w|] eqn:E; [|done].
  apply bind_ok in H as (u & Hu & [= <-]). split; [|done]. apply (scoped_volume_seen p capability cat vid w).
  unfold _scoped_volume. rewrite E, Hu. done.
Qed.

Lemma scoped_root_seen p capability cat vid path root :
  scoped_root (volumes cat) vid path (from_grants (grants p) capability) = Ok root →
  may_see p capability cat vid ∧ ∃ v, get_volume vid (volumes cat) = Some v ∧ _require_root_in_volume path v = Ok root.
Proof.
  unfold scoped_root. intros ([v|] & Hv & H)%bind_ok; [|done]. apply get_in_scope_seen in Hv as [Hs Hv]. eauto.
Qed.

(** A comparison is answered only when grants cover both volumes, and it compares two folders inside them. *)
Theorem reconcile_confined p cat b ex r :
  reconcile p cat b ex = Ok r →
  may_see p VIEW_METADATA cat (rq_dv b) ∧ may_see p VIEW_METADATA cat (rq_cv b) ∧
  ∃ dv cv dr cr, get_volume (rq_dv b) (volumes cat) = Some dv ∧ get_volume (rq_cv b) (volumes cat) = Some cv ∧
    _require_root_in_volume (rq_dp b) dv = Ok dr ∧ _require_root_in_volume (rq_cp b) cv = Ok cr ∧
    compare (volumes cat) (fs_entry cat) (Some (from_grants (grants p) VIEW_METADATA)) (rq_dv b) dr (rq_cv b) cr MAX_SIDE_ENTRIES ex = Ok r.
Proof.
  intros (_ & _ & _ & H)%route_ok. apply bind_ok in H as ([dv|] & Hd & H); [|by apply bind_ok in H as (? & _ & ?)].
  apply bind_ok in H as ([cv|] & Hc & H); [|done]. apply bind_ok in H as (dr & Hdr & H). apply bind_ok in H as (cr & Hcr & H).
  apply get_in_scope_seen in Hd as [Hd1 Hd2]. apply get_in_scope_seen in Hc as [Hc1 Hc2]. split; [done|]. split; [done|].
  exists dv, cv, dr, cr. split_and!; try done. destruct (compare _ _ _ _ _ _ _ _ _) as [r'|[]]; [|done..]. by injection H as <-.
Qed.

Section Properties.
Context (repr : string → string) {B : Backend} (blake3_hex : string → string).

(** A stored move plan is the one that the organizer builds for exactly the approved moves, under a root inside a volume that a
    build grant of the caller covers, while both switches are on; it reads back as it was built, names that volume and host, and one audit
    record of the build is committed with it.  A repeated key of the same caller returns the stored plan and changes nothing. *)
Theorem organize_plan_route_spec p s runtime cat b pid now others d out d' :
  organize_plan repr blake3_hex p s runtime cat b pid now others d = (Ok out, d') →
  plans_inv (r_plans (others d)) → audit_inv blake3_hex (r_audit (others d)) → rows (r_audit d) `prefix_of` rows (r_audit (others d)) →
  organize_enabled s = true ∧ org_remediation_enabled s = true ∧ may_see p BUILD_REMEDIATION cat (q_volume_id b) ∧
  ((d' = d ∧ ∃ key row, q_key b = Some key ∧ row ∈ plan_rows (r_plans d) ∧ pr_idempotency_key row = Some key ∧
      pr_created_by row = subject p ∧ out = _organize_plan_out row (r_plans d)) ∨
   ∃ volume root build row seq rec,
     get_volume (q_volume_id b) (volumes cat) = Some volume ∧ _require_root_in_volume (q_path b) volume = Ok root ∧
     build_move_plan (volumes cat) (fs_entry cat) pid (subject p) (q_volume_id b) root (q_moves b)
       (Some (from_grants (grants p) BUILD_REMEDIATION)) = Ok build ∧
     out = _organize_plan_out row (r_plans d') ∧ plan_rows (r_plans d') = plan_rows (r_plans (others d)) ++ [row] ∧ plans_inv (r_plans d') ∧
     _domain_plan row (items_of row (r_plans d')) = Some (b_plan build) ∧ pr_volume_id row = Some (q_volume_id b) ∧
     pr_host_id row = b_host_id build ∧
     audit_inv blake3_hex (r_audit d') ∧ rows (r_audit d') = rows (r_audit d) ++ [(seq, rec)] ∧
     AuditLog.action rec = "organize.plan.build" ∧ actor rec = subject p ∧ target rec = pid).
Proof.
  unfold organize_plan. intros H Hp Ha Hpre. destruct (organize_inputs _ _ _ _ _ _) as [x|e] eqn:Ei; [|done].
  apply route_ok in Ei as (_ & _ & _ & Ei). apply bind_ok in Ei as ([] & He%require_ok & Ei).
  apply bind_ok in Ei as ([] & Hr%require_ok & Ei). apply bind_ok in Ei as (rt & _ & Ei).
  apply bind_ok in Ei as (root & [Hs (volume & Hv & Hroot)]%scoped_root_seen & Ei). split; [done|]. split; [done|]. split; [done|].
  assert (x = inr (root, from_grants (grants p) BUILD_REMEDIATION) ∨
    ∃ key row, q_key b = Some key ∧ find_idempotent key (subject p) (r_plans d) = Some row ∧ x = inl (_organize_plan_out row (r_plans d)))
    as [->|(key & row & Hk & Hf & ->)].
  { destruct (q_key b) as [key|]; [|left; by injection Ei]. destruct (find_idempotent _ _ _) as [row|] eqn:Ef; [|left; by injection Ei].
    right. apply bind_ok in Ei as (u & _ & Ei). injection Ei as <-. eauto. }
  2:{ left. injection H as <- <-. split; [done|]. apply find_idempotent_some in Hf as (? & ? & ?). exists key, row. by split_and!. }
  right. destruct (build_move_plan _ _ _ _ _ _ _ _) as [build|err] eqn:Eb; [|by destruct (plan_error repr err)].
  destruct (audit_ _ _ _ _ _ _ _ _ _) as [r w] eqn:Eau. pose proof (keeps_audit _ _ _ _ _ _ _ _ (load_head (r_audit d)) _ _ _ Eau) as Hlink.
  apply audit_run in Eau as [_ [[-> _]|(-> & rec & Erec & Hac & Hact & Ht & _)]]; [done|].
  pose proof Eb as Eb'. apply build_move_plan_iff in Eb' as (Hpid & Hby & _ & _ & xs & y & _ & _ & _ & Hy & Ebuild).
  assert (plan_valid (b_plan build) = true) as Hval.
  { unfold build_move_plan in Eb. apply bind_ok in Eb as (u1 & _ & Eb). apply bind_ok in Eb as (u2 & _ & Eb).
    apply bind_ok in Eb as (st & _ & Eb). destruct (bs_host st); [|done]. destruct (plan_valid _) eqn:Ev; [|done]. by injection Eb as <-. }
  assert (Forall (λ i, ∃ z, entry_id i = EInt z) (Jobs.items (b_plan build))) as Hz.
  { rewrite Ebuild. simpl. apply Forall_fmap, Forall_forall. intros z _. by eexists. }
  unfold flush_plan in H. destruct (insert_plan _ _ _) as [[row ps]|err] eqn:Ein; [|by destruct err, (flush_audit _ _)].
  destruct (flush_audit _ _) as [[] a] eqn:Ef; [|done]. injection H as <- <-.
  pose proof (insert_plan_inv _ _ _ _ _ Hp Hval Hz Ein) as Hpinv. apply insert_plan_spec in Ein as (Erow & Hrows & Hld & _); [|done..].
  assert (staged w = [rec]) as Est by (unfold staged; by rewrite Erec).
  apply (flush_unmoved blake3_hex (staged w) (r_audit d)) in Ef as (_ & Hinv' & k & Ek & Ek2); [|done|done| |by rewrite Est].
  2:{ destruct Hlink; [split; done|done]. }
  rewrite Est in Ek2. destruct k as [|[seq rec'] [|? ?]]; [done| |done]. cbn in Ek2. injection Ek2 as ->.
  exists volume, root, build, row, seq, rec. split_and!; try done; by rewrite Erow.
Qed.
End Properties.

(** ** Witness *)

Definition org_cat : catalogue := mk_catalogue [] [demo_vol] [] demo_rows [] [] [].
Definition org_request : OrganizePlanRequest := mk_plan_request 1 "/srv/x/../docs/" [mk_approved 1 "text/a.txt"] (Some "k").
Definition org_plan : reply OrganizePlanOut * rem_db :=
  organize_plan id (B := false) demo_hash (rem_principal rem_admin) (mk_org_settings true true None "m")
    (Some (rem_runtime (Ok demo_outcome))) org_cat org_request "org-1" (at_second 1) (λ d, d) empty_rdb.

Lemma empty_rdb_inv : plans_inv (r_plans empty_rdb) ∧ audit_inv demo_hash (r_audit empty_rdb).
Proof. split; split; cbn; try done; constructor. Qed.

Lemma organize_plan_route_spec_witness :
  ∃ out, org_plan.1 = Ok out ∧ oo_items out = [(1, "/srv/docs/a.txt", "text/a.txt")] ∧ plans_inv (r_plans org_plan.2).
Proof.
  destruct org_plan as [[out|e] d'] eqn:E; [|vm_compute in E; discriminate E].
  assert (match org_plan.1 with Ok out => oo_items out | Err _ => [] end = [(1, "/srv/docs/a.txt", "text/a.txt")]) as Hit by (vm_compute; reflexivity).
  rewrite E in Hit. exists out. split; [reflexivity|]. split; [exact Hit|].
  destruct (organize_plan_route_spec id (B := false) demo_hash _ _ _ _ _ _ _ _ _ _ d' E) as
    (_ & _ & _ & [(_ & key & row & _ & Hrow & _)|(volume & root & build & row & seq & rec & _ & _ & _ & _ & _ & Hinv & _)]).
  - apply empty_rdb_inv.
  - apply empty_rdb_inv.
  - reflexivity.
  - clear -Hrow. by apply not_elem_of_nil in Hrow.
  - exact Hinv.
Defined.
