(* ===== verification/Inference.v ===== *)
(** The language model and embedding providers ([src/fathom/inference/]): which provider a setting selects, behind the egress gate,
    the request that each one sends, and what it makes of the response.

    The HTTP transport is a parameter: the outcome of a POST, by its URL, payload and headers.  So is the validation of a response
    by its schema, and [float] of a string.  A vector keeps the integers that its floats encode. *)

From S2P Require Import Prelude PyStr PyDict Json.

Local Open Scope Z_scope.

(** ** Exceptions *)

(** An [InferenceError] with its HTTP-like status, or what escapes from a malformed response. *)
Inductive Exc := InferenceError (message : string) (status_code : Z) | AttributeError | TypeError | ValueError.

Definition Exc_eq_dec : EqDecision Exc.
Proof. intros x y. unfold Decision. decide equality; try apply String.string_dec; apply Z.eq_dec. Defined.
#[export] Existing Instance Exc_eq_dec.

(** ** Responses *)

(** A POST: it times out, fails, or brings a status, a body ([None]: not JSON) and its length in bytes. *)
Inductive outcome := TimedOut | HTTPError | Response (status : Z) (body : option json) (size : Z).

(** [v["k"]] and [v[0]], [None] for KeyError, IndexError and TypeError. *)
Definition getitem (k : string) (v : json) : option json := match v with JObj fs => dict_get k fs | _ => None end.
Definition item0 (v : json) : option json :=
  match v with JList (x :: _) => Some x | JStr (String c _) => Some (JStr (String c "")) | _ => None end.

(** [json.dumps] with its default separators. *)
Fixpoint dumps_default (v : json) : string :=
  match v with
  | JList l => "[" +:+ PyStr.join ", " (dumps_default <$> l) +:+ "]"
  | JObj kvs => "{" +:+ PyStr.join ", " (((λ kv : string * json, quote kv.1 +:+ ": " +:+ dumps_default kv.2) : string * json → string) <$> kvs) +:+ "}"
  | v => enc v
  end.

(** A Pydantic class: its JSON schema, [model_validate] and [model_validate_json]. *)
Record Schema (T : Type) := mk_schema {
  model_json_schema : json; model_validate : json → option T; model_validate_json : string → option T;
}.
Arguments model_json_schema {T}. Arguments model_validate {T}. Arguments model_validate_json {T}.

Definition malformed {A} : result Exc A := Err (InferenceError "inference response malformed" 502).

(** The three ways a request fails before its body is read. *)
Definition response (o : outcome) : result Exc (option json) :=
  match o with
  | TimedOut => Err (InferenceError "inference timed out" 504)
  | HTTPError => Err (InferenceError "inference provider unreachable" 503)
  | Response status body _ => if bool_decide (status = 200) then Ok body else Err (InferenceError "inference provider error" 503)
  end.

Definition _MAX_OUTPUT_BYTES : Z := 2 * 1024 * 1024.
Definition _TOOL_NAME : string := "emit_result".

(** [len(s.encode("utf-8", "ignore"))]. *)
Definition encoded_length (s : string) : Z := Z.of_nat (String.length (utf8 s)).

Definition validated {T} (o : option T) : result Exc T :=
  match o with Some x => Ok x | None => Err (InferenceError "inference output did not match schema" 502) end.

(** The text answer of a chat completion; one that is not text has no [encode]. *)
Definition text_answer {T} (schema : Schema T) (content : option json) : result Exc T :=
  match content with
  | None => malformed
  | Some (JStr s) =>
      if _MAX_OUTPUT_BYTES <? encoded_length s then Err (InferenceError "inference response too large" 502)
      else validated (model_validate_json schema s)
  | Some _ => Err AttributeError
  end.

Definition is_tool_use (b : list (string * json)) : bool :=
  match dict_get "type" b with Some (JStr t) => bool_decide (t = "tool_use") | _ => false end.

(** [next(b["input"] for b in blocks if b.get("type") == "tool_use")]. *)
Fixpoint next_tool_input (blocks : list json) : result Exc json :=
  match blocks with
  | [] => malformed
  | JObj fs :: rest =>
      if is_tool_use fs
      then match dict_get "input" fs with Some v => Ok v | None => malformed end
      else next_tool_input rest
  | _ :: _ => Err AttributeError
  end.

(** The items of a Python iterable: a dict gives its keys, a string its characters. *)
Definition iter_blocks (v : json) : result Exc (list json) :=
  match v with
  | JList l => Ok l
  | JObj fs => Ok ((λ kv, JStr kv.1) <$> fs)
  | JStr s => Ok ((λ c, JStr (String c "")) <$> String.list_ascii_of_string s)
  | _ => malformed
  end.

(** ** Providers *)

Inductive Provider :=
| OllamaProvider (base_url model : string)
| OpenAICompatibleProvider (base_url model api_key : string)
| AnthropicProvider (base_url model api_key api_version : string).

Definition rstrip_slashes (s : string) : string := rstrip_by (Ascii.eqb "/") s.

Definition message (role content : string) : json := JObj [("role", JStr role); ("content", JStr content)].

Definition ollama_payload (model system user : string) (schema : json) : json :=
  JObj [("model", JStr model); ("stream", JBool false); ("keep_alive", JStr "30m"); ("format", schema);
        ("messages", JList [message "system" system; message "user" user]);
        ("options", JObj [("temperature", JInt 0); ("num_predict", JInt 4096)])].

Definition nl : string := String "010" "".

Definition openai_payload (model system user : string) (schema : json) : json :=
  let sys_prompt := system +:+ nl +:+ nl +:+ "Respond with JSON matching this schema:" +:+ nl +:+ dumps_default schema in
  JObj [("model", JStr model); ("temperature", JInt 0); ("max_tokens", JInt 4096);
        ("response_format", JObj [("type", JStr "json_object")]);
        ("messages", JList [message "system" sys_prompt; message "user" user])].

Definition anthropic_payload (model system user : string) (schema : json) : json :=
  JObj [("model", JStr model); ("max_tokens", JInt 4096); ("temperature", JInt 0); ("system", JStr system);
        ("messages", JList [message "user" user]);
        ("tools", JList [JObj [("name", JStr _TOOL_NAME);
           ("description", JStr "Return the result as structured data matching the schema."); ("input_schema", schema)]]);
        ("tool_choice", JObj [("type", JStr "tool"); ("name", JStr _TOOL_NAME)])].

Section Transport.
Context (post : string → json → list (string * string) → outcome).

Definition ollama_complete {T} (base_url model system user : string) (schema : Schema T) : result Exc T :=
  body ← response (post (rstrip_slashes base_url +:+ "/api/chat") (ollama_payload model system user (model_json_schema schema)) []);
  text_answer schema (b ← body; m ← getitem "message" b; getitem "content" m).

Definition openai_complete {T} (base_url model api_key system user : string) (schema : Schema T) : result Exc T :=
  body ← response (post (rstrip_slashes base_url +:+ "/chat/completions")
                     (openai_payload model system user (model_json_schema schema)) [("Authorization", "Bearer " +:+ api_key)]);
  text_answer schema (b ← body; cs ← getitem "choices" b; c ← item0 cs; m ← getitem "message" c; getitem "content" m).

Definition anthropic_complete {T} (base_url model api_key api_version system user : string) (schema : Schema T) : result Exc T :=
  body ← response (post (rstrip_slashes base_url +:+ "/v1/messages")
                     (anthropic_payload model system user (model_json_schema schema))
                     [("x-api-key", api_key); ("anthropic-version", api_version); ("content-type", "application/json")]);
  blocks ← match (b ← body; getitem "content" b) with None => malformed | Some v => iter_blocks v end;
  tool_input ← next_tool_input blocks;
  if _MAX_OUTPUT_BYTES <? encoded_length (dumps_default tool_input) then Err (InferenceError "inference response too large" 502)
  else validated (model_validate schema tool_input).

Definition complete {T} (p : Provider) (system user : string) (schema : Schema T) : result Exc T :=
  match p with
  | OllamaProvider url model => ollama_complete url model system user schema
  | OpenAICompatibleProvider url model key => openai_complete url model key system user schema
  | AnthropicProvider url model key version => anthropic_complete url model key version system user schema
  end.
End Transport.

(** ** Embedders *)

Definition INPUT_DOCUMENT : string := "document".
Definition INPUT_QUERY : string := "query".
Definition _MAX_EMBED_BYTES : Z := 16 * 1024 * 1024.

Definition embed_malformed {A} : result Exc A := Err (InferenceError "embedding response malformed" 502).

Definition _check_response (o : outcome) : result Exc (option json) :=
  match o with
  | TimedOut => Err (InferenceError "embedding timed out" 504)
  | HTTPError => Err (InferenceError "embedding provider unreachable" 503)
  | Response status body size =>
      if negb (bool_decide (status = 200)) then Err (InferenceError "embedding provider error" 503)
      else if _MAX_EMBED_BYTES <? size then Err (InferenceError "embedding response too large" 502)
      else Ok body
  end.

Inductive Embedder :=
| OllamaEmbedder (base_url model : string)
| VoyageEmbedder (base_url model api_key : string)
| OpenAIEmbedder (base_url model api_key : string).

(** [[item["embedding"] for item in data]]. *)
Definition embeddings_of (data : json) : option json :=
  match data with
  | JList l => JList <$> mapM (getitem "embedding") l
  | JObj [] | JStr "" => Some (JList [])
  | _ => None
  end.

Section Embed.
Context (post : string → json → list (string * string) → outcome) (parse_float : string → option Z).

Definition float (v : json) : result Exc Z :=
  match v with
  | JInt z => Ok z
  | JBool b => Ok (if b then 1 else 0)
  | JStr s => match parse_float s with Some z => Ok z | None => Err ValueError end
  | _ => Err TypeError
  end.

Definition _floats (vectors : json) (expected : nat) : result Exc (list (list Z)) :=
  match vectors with
  | JList l =>
      if bool_decide (length l = expected)
      then mapM (λ v, match v with JList xs => mapM float xs | _ => embed_malformed end) l
      else Err (InferenceError "embedding count mismatch" 502)
  | _ => Err (InferenceError "embedding count mismatch" 502)
  end.

Definition embed_payload (e : Embedder) (texts : list string) (input_type : string) : json :=
  match e with
  | OllamaEmbedder _ model | OpenAIEmbedder _ model _ => JObj [("model", JStr model); ("input", JList (JStr <$> texts))]
  | VoyageEmbedder _ model _ =>
      JObj ([("model", JStr model); ("input", JList (JStr <$> texts))] ++
            if bool_decide (input_type = INPUT_DOCUMENT) || bool_decide (input_type = INPUT_QUERY)
            then [("input_type", JStr input_type)] else [])
  end.

Definition embed_url (e : Embedder) : string :=
  match e with
  | OllamaEmbedder url _ => rstrip_slashes url +:+ "/api/embed"
  | VoyageEmbedder url _ _ => rstrip_slashes url +:+ "/v1/embeddings"
  | OpenAIEmbedder url _ _ => rstrip_slashes url +:+ "/embeddings"
  end.

Definition embed_headers (e : Embedder) : list (string * string) :=
  match e with OllamaEmbedder _ _ => [] | VoyageEmbedder _ _ key | OpenAIEmbedder _ _ key => [("Authorization", "Bearer " +:+ key)] end.

Definition embed (e : Embedder) (texts : list string) (input_type : string) : result Exc (list (list Z)) :=
  match texts with
  | [] => Ok []
  | _ =>
      body ← _check_response (post (embed_url e) (embed_payload e texts input_type) (embed_headers e));
      match (b ← body;
             match e with
             | OllamaEmbedder _ _ => getitem "embeddings" b
             | VoyageEmbedder _ _ _ | OpenAIEmbedder _ _ _ => data ← getitem "data" b; embeddings_of data
             end) with
      | None => embed_malformed
      | Some vectors => _floats vectors (length texts)
      end
  end.
End Embed.

(** ** The factories *)

Record InferenceSettings := mk_inference {
  inference_provider : string; inference_model : string; inference_ollama_url : string; inference_allow_egress : bool;
  inference_openai_url : string; inference_openai_key_ref : option string; inference_openai_api_key : option string;
  inference_anthropic_url : string; inference_anthropic_key_ref : option string; inference_anthropic_api_key : option string;
  inference_anthropic_version : string;
  concierge_embedding_provider : string; concierge_embedding_url : option string; concierge_embedding_key_ref : option string;
  concierge_embedding_api_key : option string; concierge_embedding_model : string;
}.

Definition _CLOUD_DEFAULT_MODEL : list (string * string) := [("anthropic", "claude-haiku-4-5"); ("openai", "gpt-4o-mini")].

Definition _cloud_model (provider model : string) : string :=
  let stale_local_tag := bool_decide (provider = "anthropic") && has_char ":" model in
  if bool_decide (model = "") || stale_local_tag then default model (dict_get provider _CLOUD_DEFAULT_MODEL) else model.

(** A text that is set and not empty. *)
Definition truthy (o : option string) : option string :=
  match o with Some s => if bool_decide (s = "") then None else Some s | None => None end.

(** [resolve_secret] gives [None] when it raises. *)
Definition resolve_api_key (direct ref : option string) (resolve_secret : string → option string) : option string :=
  match truthy direct with
  | Some key => Some key
  | None => ref ← truthy ref; truthy (resolve_secret ref)
  end.

Definition unavailable {A} (message : string) : result Exc A := Err (InferenceError message 503).

Section Factories.
Context (repr : string → string) (s : InferenceSettings) (resolve_secret : string → option string).

Definition build_inference_provider (model : option string) : result Exc Provider :=
  let provider := lower (inference_provider s) in
  let chosen_model := default (inference_model s) (truthy model) in
  if bool_decide (provider = "ollama") then Ok (OllamaProvider (inference_ollama_url s) chosen_model)
  else if bool_decide (provider = "openai") then
    if negb (inference_allow_egress s) then
      unavailable "cloud inference is disabled: set inference_allow_egress to send digests off-host (ADR-022), or use the default local 'ollama' provider"
    else
      match resolve_api_key (inference_openai_api_key s) (inference_openai_key_ref s) resolve_secret with
      | None => unavailable "cloud inference selected but no API key set — enter the OpenAI API key in Settings (or configure a secret reference)"
      | Some key => Ok (OpenAICompatibleProvider (inference_openai_url s) (_cloud_model "openai" chosen_model) key)
      end
  else if bool_decide (provider = "anthropic") then
    if negb (inference_allow_egress s) then
      unavailable "cloud inference is disabled: set inference_allow_egress to send prompts off-host (ADR-022), or use the default local 'ollama' provider"
    else
      match resolve_api_key (inference_anthropic_api_key s) (inference_anthropic_key_ref s) resolve_secret with
      | None => unavailable "cloud inference selected but no API key set — enter the Anthropic API key in Settings (or configure a secret reference)"
      | Some key =>
          Ok (AnthropicProvider (inference_anthropic_url s) (_cloud_model "anthropic" chosen_model) key (inference_anthropic_version s))
      end
  else unavailable ("unknown inference provider " +:+ repr provider).

Definition build_embedding_provider : result Exc Embedder :=
  let provider := lower (concierge_embedding_provider s) in
  let model := concierge_embedding_model s in
  let base (d : string) := default d (truthy (concierge_embedding_url s)) in
  if bool_decide (provider = "ollama") then Ok (OllamaEmbedder (base (inference_ollama_url s)) model)
  else if bool_decide (provider = "voyage") || bool_decide (provider = "openai") then
    if negb (inference_allow_egress s) then
      unavailable "cloud embedding is disabled: set inference_allow_egress to send names off-host (ADR-035), or use the default local 'ollama' embedder"
    else
      match resolve_api_key (concierge_embedding_api_key s) (concierge_embedding_key_ref s) resolve_secret with
      | None => unavailable "cloud embedder selected but no API key set — enter the embedding API key in Settings (or configure a secret reference)"
      | Some key =>
          Ok (if bool_decide (provider = "voyage") then VoyageEmbedder (base "https://api.voyageai.com") model key
              else OpenAIEmbedder (base "https://api.openai.com/v1") model key)
      end
  else unavailable ("unknown embedding provider " +:+ repr provider).
End Factories.

(** ** What a completion gives *)

(** The schema accepts [x], from a text or a value within the bound. *)
Definition accepted {T} (schema : Schema T) (x : T) : Prop :=
  (∃ t, encoded_length t ≤ _MAX_OUTPUT_BYTES ∧ model_validate_json schema t = Some x) ∨
  (∃ v, encoded_length (dumps_default v) ≤ _MAX_OUTPUT_BYTES ∧ model_validate schema v = Some x).

Definition inference_failure (e : Exc) : Prop := match e with InferenceError _ c => c ∈ [502; 503; 504] | _ => False end.

Lemma response_ok o body : response o = Ok body → ∃ size, o = Response 200 body size.
Proof. destruct o as [| |st b size]; try done. simpl. case_bool_decide; [|done]. intros [= ->]. subst. eauto. Qed.

Lemma response_err o e : response o = Err e → inference_failure e.
Proof. destruct o as [| |st b size]; simpl; [intros [= <-]..|case_bool_decide; [done|intros [= <-]]]; simpl; set_solver. Qed.

Lemma text_answer_cases {T} (schema : Schema T) c :
  match text_answer schema c with
  | Ok x => accepted schema x
  | Err AttributeError => ∃ v, c = Some v ∧ ∀ t, v ≠ JStr t
  | Err e => inference_failure e
  end.
Proof.
  destruct c as [v|]; simpl; [|set_solver]. destruct v as [| | |t| |]; simpl; try (eexists; split; [done|]; done).
  destruct (Z.ltb_spec _MAX_OUTPUT_BYTES (encoded_length t)); [simpl; set_solver|].
  unfold validated. destruct (model_validate_json schema t) as [x|] eqn:Ev; [|simpl; set_solver]. left. by exists t.
Qed.

Lemma next_tool_input_err bs e : next_tool_input bs = Err e → inference_failure e ∨ e = AttributeError.
Proof.
  induction bs as [|b bs IH]; simpl; [intros [= <-]; left; simpl; set_solver|].
  destruct b; try (intros [= <-]; by right). destruct (is_tool_use fields); [|done].
  destruct (dict_get "input" _); [done|]. intros [= <-]. left. simpl. set_solver.
Qed.

Section Completion.
Context (post : string → json → list (string * string) → outcome).

(** A completion by text: one request, then [text_answer] of a part of its body. *)
Definition by_text {T} (schema : Schema T) (r : result Exc T) : Prop :=
  ∃ url payload headers (content : option json → option json),
    r = (body ← response (post url payload headers); text_answer schema (content body)).

Lemma by_text_cases {T} (schema : Schema T) r :
  by_text schema r →
  match r with
  | Ok x => (∃ url payload headers body size, post url payload headers = Response 200 body size) ∧ accepted schema x
  | Err e => inference_failure e ∨ e = AttributeError
  end.
Proof.
  intros (url & payload & headers & content & ->). destruct (response _) as [body|e] eqn:Er; simpl; [|by left; eapply response_err].
  apply response_ok in Er as [size Er]. pose proof (text_answer_cases schema (content body)) as H.
  destruct (text_answer _ _) as [x|[]]; [|auto..]. split; [|done]. eauto 10.
Qed.

(** A completion returns only an instance that the schema accepts, from a bounded answer of a response with status 200; otherwise it
    is an [InferenceError] with status 502, 503 or 504, or an [AttributeError] that an answer of the wrong type causes. *)
Theorem complete_outcome {T} p system user (schema : Schema T) :
  match complete post p system user schema with
  | Ok x => (∃ url payload headers body size, post url payload headers = Response 200 body size) ∧ accepted schema x
  | Err e => inference_failure e ∨ e = AttributeError
  end.
Proof.
  destruct p as [url model|url model key|url model key version]; simpl.
  1,2: by apply by_text_cases; repeat eexists.
  unfold anthropic_complete. destruct (response _) as [body|e] eqn:Er; simpl; [|by left; eapply response_err].
  apply response_ok in Er as [size Er].
  destruct (body ≫= λ b, getitem "content" b) as [v|]; simpl; [|left; simpl; set_solver].
  destruct (iter_blocks v) as [bs|e] eqn:Eb; simpl.
  2:{ left. destruct v; simpl in Eb; try done; injection Eb as <-; simpl; set_solver. }
  destruct (next_tool_input bs) as [x|e] eqn:En; simpl; [|by eapply next_tool_input_err].
  destruct (Z.ltb_spec _MAX_OUTPUT_BYTES (encoded_length (dumps_default x))); [left; simpl; set_solver|].
  unfold validated. destruct (model_validate schema x) as [t|] eqn:Ev; [|left; simpl; set_solver].
  split; [eauto 10|]. right. by exists x.
Qed.
End Completion.

(** ** The egress gate *)

(** Where the local services are. *)
Definition local_bases (s : InferenceSettings) : list string :=
  rstrip_slashes (inference_ollama_url s) :: match truthy (concierge_embedding_url s) with Some u => [rstrip_slashes u] | None => [] end.

Definition local_url (s : InferenceSettings) (url : string) : bool := existsb (λ b, startswith b url) (local_bases s).

Definition same_local (s : InferenceSettings) (post post' : string → json → list (string * string) → outcome) : Prop :=
  ∀ url payload headers, local_url s url = true → post url payload headers = post' url payload headers.

Lemma local_url_base s b rest : b ∈ local_bases s → local_url s (b +:+ rest) = true.
Proof. intros H. apply existsb_exists. exists b. split; [by apply list_elem_of_In|apply startswith_app]. Qed.

Lemma provider_local repr s secret model p :
  inference_allow_egress s = false → build_inference_provider repr s secret model = Ok p → ∃ m, p = OllamaProvider (inference_ollama_url s) m.
Proof.
  intros He. unfold build_inference_provider. rewrite He. simpl. repeat case_bool_decide; try done. intros [= <-]. eauto.
Qed.

Lemma embedder_local repr s secret e :
  inference_allow_egress s = false → build_embedding_provider repr s secret = Ok e →
  ∃ u m, e = OllamaEmbedder u m ∧ rstrip_slashes u ∈ local_bases s.
Proof.
  intros He. unfold build_embedding_provider. rewrite He. simpl.
  case_bool_decide; [intros [= <-]|destruct (_ || _); done]. do 2 eexists. split; [done|].
  unfold local_bases. destruct (truthy (concierge_embedding_url s)); simpl; set_solver.
Qed.

(** While the egress gate is closed, what any other host answers makes no difference. *)
Lemma complete_stays_local {T} repr s secret model post post' p system user (schema : Schema T) :
  inference_allow_egress s = false → same_local s post post' → build_inference_provider repr s secret model = Ok p →
  complete post p system user schema = complete post' p system user schema.
Proof.
  intros He Hp (m & ->)%provider_local; [|done]. simpl. unfold ollama_complete. rewrite Hp; [done|]. apply local_url_base. left.
Qed.

Lemma embed_stays_local repr s secret post post' parse_float e texts input_type :
  inference_allow_egress s = false → same_local s post post' → build_embedding_provider repr s secret = Ok e →
  embed post parse_float e texts input_type = embed post' parse_float e texts input_type.
Proof.
  intros He Hp (u & m & -> & Hu)%embedder_local; [|done]. unfold embed. destruct texts; [done|]. by rewrite Hp; [|apply local_url_base].
Qed.

(** A cloud provider has a key that is not empty, the configured URL of its kind, and a model of its own. *)
Lemma cloud_provider_keyed repr s secret model p :
  build_inference_provider repr s secret model = Ok p →
  match p with
  | OllamaProvider _ _ => True
  | OpenAICompatibleProvider url m key => inference_allow_egress s = true ∧ key ≠ "" ∧ m ≠ "" ∧ url = inference_openai_url s
  | AnthropicProvider url m key _ =>
      inference_allow_egress s = true ∧ key ≠ "" ∧ m ≠ "" ∧ has_char ":" m = false ∧ url = inference_anthropic_url s
  end.
Proof.
  assert (∀ o k, truthy o = Some k → k ≠ "") as Ht by (intros [x|] k; simpl; [case_bool_decide; congruence|done]).
  assert (∀ d r k, resolve_api_key d r secret = Some k → k ≠ "") as Hk.
  { intros d r k. unfold resolve_api_key. destruct (truthy d) as [x|] eqn:E; [intros [= <-]; eauto|].
    destruct (truthy r) as [y|]; simpl; [apply Ht|done]. }
  unfold build_inference_provider, unavailable. intros H.
  case_bool_decide; [by injection H as <-|]. destruct (inference_allow_egress s); simpl in H; [|repeat case_bool_decide; done].
  case_bool_decide; [|case_bool_decide; [|done]]; destruct (resolve_api_key _ _ secret) eqn:Er; try done; injection H as <-;
    (split; [done|]; split; [by eapply Hk|]); unfold _cloud_model; simpl.
  - split; [|done]. case_bool_decide; done.
  - case_bool_decide; simpl; [done|]. destruct (has_char ":" _) eqn:Eh; simpl; [done|]. done.
Qed.

(** ** Witnesses *)

(** A text schema, and a server that answers with a refusal. *)
Definition text_schema : Schema string := mk_schema string (JObj []) (λ v, match v with JStr t => Some t | _ => None end) Some.
Definition refusal (url : string) (payload : json) (headers : list (string * string)) : outcome :=
  Response 200 (Some (JObj [("choices", JList [JObj [("message", JObj [("role", JStr "assistant"); ("content", JNull)])]])])) 90.

(** An answer whose content is null escapes as an [AttributeError], not as the [InferenceError] that the protocol asks for. *)
Lemma refusal_escapes :
  complete refusal (OpenAICompatibleProvider "https://api.openai.com/v1" "gpt-4o-mini" "k") "s" "u" text_schema = Err AttributeError.
Proof. reflexivity. Qed.
