(* ===== verification/ConciergeQueries.v ===== *)
(** The scoped queries of the concierge ([src/fathom/core/concierge/queries.py]), and what each of them sees: removing everything out
    of the scope from the catalogue changes no answer.

    The distance of two vectors is the database's (pgvector) and a parameter. *)

From stdpp Require Import gmap.
From S2P Require Import Prelude PyStr PyDict Sql DedupStore Catalogue Rbac Rollup Query Charts Visible Watch.

Local Open Scope Z_scope.

(** ** Last seen *)

Record LastSeenHit := mk_seen {
  ls_entry_id : Z; ls_host_id : Z; ls_volume_id : Z; ls_path : string; ls_name : string; ls_present : bool; ls_removed_at : option Z;
  ls_snapshot_id : option Z; ls_seen_at : option Z; ls_size_logical : Z; ls_mtime : Z;
}.

(** [outerjoin(Snapshot, ...)]: when the run that last catalogued the entry finished. *)
Definition last_seen_at (sns : list Snapshot) (e : FsEntryRow) : option Z :=
  sid ← last_seen_snapshot_id e;
  sn ← head (filter (λ sn, sn_id sn = sid) sns);
  sn_finished sn.

Definition last_seen_hit (sns : list Snapshot) (e : FsEntryRow) : LastSeenHit :=
  mk_seen (e_id e) (host_id e) (volume_id e) (path e) (name e) (present e) (removed_at e) (last_seen_snapshot_id e) (last_seen_at sns e)
    (size_logical e) (mtime e).

(** [ORDER BY removed_at IS NULL, removed_at DESC, size_on_disk DESC]. *)
Definition seen_key (x : FsEntryRow * Volume) : Z * (Z * Z) :=
  match removed_at x.1 with Some t => (0, (- t, - size_on_disk x.1)) | None => (1, (0, - size_on_disk x.1)) end.

Definition seen_match (fold : ascii → ascii) (fragment : string) (scope : option ScopeFilter) (volume_id : option Z) (include_present : bool)
    (e : FsEntryRow) (v : Volume) : bool :=
  let pat := "%" +:+ escape_like fragment +:+ "%" in
  (ilike fold pat (name e) || ilike fold pat (path e)) && (include_present || negb (present e)) &&
  match volume_id with Some i => bool_decide (Catalogue.volume_id e = i) | None => true end &&
  scoped scope host_id Catalogue.volume_id (λ _, v_kind v) e.

Definition find_last_seen (fold : ascii → ascii) (cat : catalogue) (fragment : string) (scope : option ScopeFilter) (volume_id : option Z)
    (include_present : bool) (limit : Z) : list LastSeenHit :=
  (λ x, last_seen_hit (snapshots cat) x.1) <$> sql_limit limit (order_by (lex_le (lex_le Z.leb)) seen_key
    (joined (volumes cat) Catalogue.volume_id (seen_match fold fragment scope volume_id include_present) (fs_entry cat))).

(** ** Hot folders *)

Record HotFolder := mk_hot { hf_volume_id : Z; hf_host_id : Z; hf_path : string; change_count : Z; net_size_delta : Z; last_change : Z }.

Definition _HOT_SCAN_CAP : Z := 5000.

(** [posixpath.dirname]. *)
Definition dirname (p : string) : string :=
  let head := rstrip_by (λ c, negb (Ascii.eqb "/" c)) p in
  if s_all (Ascii.eqb "/") head then head else rstrip_slash head.

Definition _ancestor_folder (mountpoint path : string) (parent_depth : Z) : string :=
  let base := rstrip_slash mountpoint in
  if negb (startswith (base +:+ "/") path) then
    if bool_decide (dirname path = "") then base else dirname path
  else
    let rel_parts := split_char "/" (drop_s (String.length base + 1) path) in
    match takeZ parent_depth rel_parts with [] => base | keep => base +:+ "/" +:+ PyStr.join "/" keep end.

Definition hot_match (since : Z) (scope : option ScopeFilter) (volume_id : option Z) (c : ChangeLog) (v : Volume) : bool :=
  (since <=? c_ts c) && negb (bool_decide (v_kind v = "system")) &&
  match volume_id with Some i => bool_decide (c_volume_id c = i) | None => true end &&
  scoped scope (λ _, v_host_id v) c_volume_id (λ _, v_kind v) c.

(** One change counted for its folder. *)
Definition count_change (parent_depth : Z) (agg : list (Z * string * HotFolder)) (row : ChangeLog * Volume) : list (Z * string * HotFolder) :=
  let '(c, v) := row in
  let folder := _ancestor_folder (mountpoint v) (c_path c) parent_depth in
  let key := (c_volume_id c, folder) in
  dict_set key
    match dict_get key agg with
    | None => mk_hot (c_volume_id c) (v_host_id v) folder 1 (c_size_delta c) (c_ts c)
    | Some cur => mk_hot (hf_volume_id cur) (hf_host_id cur) (hf_path cur) (change_count cur + 1) (net_size_delta cur + c_size_delta c)
        (Z.max (last_change cur) (c_ts c))
    end agg.

Definition hot_folders (cat : catalogue) (since : Z) (scope : option ScopeFilter) (volume_id : option Z) (parent_depth limit : Z) : list HotFolder :=
  let rows := sql_limit _HOT_SCAN_CAP (order_by (desc Z.leb) (λ x, c_ts x.1)
                (joined (volumes cat) c_volume_id (hot_match since scope volume_id) (change_log cat))) in
  let agg := foldl (count_change parent_depth) [] rows in
  takeZ limit (order_by (desc (lex_le Z.leb)) (λ h, (change_count h, last_change h)) agg.*2).

(** ** Storage of the fleet *)

Record VolumeSummary := mk_summary {
  vs_volume_id : Z; vs_mountpoint : string; vs_display_name : option string; vs_fs_type : string; vs_transport : string;
  vs_raid_role : option string; vs_pool : option string; vs_dataset : option string; vs_kind : string; vs_total : Z; vs_used : Z; vs_free : Z;
}.

Record HostStorage := mk_storage {
  hs_host_id : Z; hs_host_name : string; hs_total : Z; hs_used : Z; hs_free : Z; hs_volumes : list VolumeSummary;
}.

Definition volume_summary (v : Volume) : VolumeSummary :=
  mk_summary (v_id v) (mountpoint v) (v_display_name v) (v_fs_type v) (v_transport v) (v_raid_role v) (v_pool v) (v_dataset v) (v_kind v)
    (v_total v) (v_used v) (v_free v).

(** The volumes in scope with the names of their hosts, by host and id. *)
Definition host_volumes (cat : catalogue) (scope : option ScopeFilter) (host_id : option Z) : list (Volume * string) :=
  order_by (lex_le Z.leb) (λ x, (v_host_id x.1, v_id x.1))
    (omap (λ v, h ← head (filter (λ h, h_id h = v_host_id v) (hosts cat));
                if match host_id with Some i => bool_decide (v_host_id v = i) | None => true end && scoped scope v_host_id v_id v_kind v
                then Some (v, h_name h) else None) (volumes cat)).

Definition add_volume (by_host : list (Z * HostStorage)) (row : Volume * string) : list (Z * HostStorage) :=
  let '(v, host_name) := row in
  let host := default (mk_storage (v_host_id v) host_name 0 0 0 []) (dict_get (v_host_id v) by_host) in
  dict_set (v_host_id v)
    (mk_storage (hs_host_id host) (hs_host_name host) (hs_total host + v_total v) (hs_used host + v_used v) (hs_free host + v_free v)
       (hs_volumes host ++ [volume_summary v])) by_host.

Definition fleet_storage (cat : catalogue) (scope : option ScopeFilter) (host_id : option Z) : list HostStorage :=
  order_by Z.leb hs_free (foldl add_volume [] (host_volumes cat scope host_id)).*2.

(** ** Coverage *)

Record VolumeCoverage := mk_vcov {
  vc_volume_id : Z; vc_mountpoint : string; vc_kind : string; vc_fs_type : string; entry_count : Z; last_scan : option Z;
}.
Record HostCoverage := mk_hcov { hc_host_id : Z; hc_host_name : string; hc_volumes : list VolumeCoverage }.

(** [count(id)] of the live entries and [max(finished)] of the snapshots of a volume; SQL's max skips NULL. *)
Definition live_count (cat : catalogue) (vid : Z) : Z :=
  Z.of_nat (length (filter (λ e, bool_decide (volume_id e = vid) && present e) (fs_entry cat))).
Definition latest_scan (cat : catalogue) (vid : Z) : option Z :=
  match omap sn_finished (filter (λ sn, sn_volume_id sn = vid) (snapshots cat)) with [] => None | t :: ts => Some (foldl Z.max t ts) end.

Definition add_coverage (cat : catalogue) (by_host : list (Z * HostCoverage)) (row : Volume * string) : list (Z * HostCoverage) :=
  let '(v, host_name) := row in
  let host := default (mk_hcov (v_host_id v) host_name []) (dict_get (v_host_id v) by_host) in
  dict_set (v_host_id v)
    (mk_hcov (hc_host_id host) (hc_host_name host)
       (hc_volumes host ++ [mk_vcov (v_id v) (mountpoint v) (v_kind v) (v_fs_type v) (live_count cat (v_id v)) (latest_scan cat (v_id v))]))
    by_host.

Definition scanned_paths (cat : catalogue) (scope : option ScopeFilter) (host_id : option Z) : list HostCoverage :=
  (foldl (add_coverage cat) [] (host_volumes cat scope host_id)).*2.

(** ** Forecast *)

(** [growth_forecast] with its scope check; the fit is that of the watch rules. *)
Definition scoped_forecast (cat : catalogue) (volume_id : Z) (path : string) (scope : option ScopeFilter) (now : option Z)
    : query (option GrowthForecast) :=
  match get_volume volume_id (volumes cat) with
  | None => Ok None
  | Some v => _ ← _check_volume_in_scope v scope; Ok (growth_forecast cat volume_id path 30 now)
  end.

(** ** Semantic search *)

Record FsEntryEmbedding := mk_embedding {
  em_id : Z; em_entry_id : Z; em_host_id : Z; em_volume_id : Z; em_text_hash : string; embedding : list Z;
}.

Record SemanticHit := mk_semantic { sh_entry_id : Z; sh_host_id : Z; sh_volume_id : Z; sh_path : string; sh_name : string; distance : Z }.

(** The join on the business key. *)
Definition of_entry (em : FsEntryEmbedding) (e : FsEntryRow) : bool :=
  bool_decide (e_id e = em_entry_id em) && bool_decide (host_id e = em_host_id em) && bool_decide (volume_id e = em_volume_id em).

Definition semantic_match (scope : option ScopeFilter) (volume_id : option Z) (x : FsEntryEmbedding * FsEntryRow) (v : Volume) : bool :=
  present x.2 && match volume_id with Some i => bool_decide (Catalogue.volume_id x.2 = i) | None => true end &&
  scoped scope host_id Catalogue.volume_id (λ _, v_kind v) x.2.

Section Semantic.
Context (cosine_distance : list Z → list Z → Z).

Definition semantic_search (cat : catalogue) (ems : list FsEntryEmbedding) (query_embedding : list Z) (scope : option ScopeFilter)
    (volume_id : option Z) (limit : Z) : list SemanticHit :=
  let dist x := cosine_distance (embedding x.1.1) query_embedding in
  let pairs := ems ≫= λ em, pair em <$> filter (λ e, of_entry em e) (fs_entry cat) in
  (λ x : FsEntryEmbedding * FsEntryRow * Volume,
     mk_semantic (e_id x.1.2) (host_id x.1.2) (Catalogue.volume_id x.1.2) (path x.1.2) (name x.1.2) (dist x)) <$>
  sql_limit limit (order_by Z.leb dist (joined (volumes cat) (λ x, Catalogue.volume_id x.2) (semantic_match scope volume_id) pairs)).
End Semantic.

(** ** The queries see nothing but their scope *)

Section Restricted.
Context (f : ScopeFilter) (cat : catalogue) (Hok : rows_agree cat).
Notation vs := (volumes cat).
Notation cat' := (restrict f cat).

Lemma entry_kept e v b :
  e ∈ fs_entry cat → get_volume (volume_id e) vs = Some v → b && scoped (Some f) host_id volume_id (λ _, v_kind v) e = true → visible f v = true.
Proof. intros He Hv [_ H]%andb_true_iff. by rewrite <- (entry_scoped f cat Hok e v He Hv). Qed.

Lemma last_seen_restrict e :
  e ∈ fs_entry cat → sees f vs (volume_id e) = true → last_seen_hit (snapshots cat') e = last_seen_hit (snapshots cat) e.
Proof.
  intros He Hs. unfold last_seen_hit. f_equal. unfold last_seen_at. destruct (last_seen_snapshot_id e) as [sid|] eqn:Ei; [|done]. simpl.
  f_equal. f_equal. apply filter_filter_iff. intros sn Hsn. rewrite Is_true_true.
  split; [|tauto]. intros Hid. split; [done|]. rewrite (entry_snapshot cat Hok e sn He Hsn); [done|]. by rewrite Ei, Hid.
Qed.

Lemma find_last_seen_restrict fold q vid inc n : find_last_seen fold cat' q (Some f) vid inc n = find_last_seen fold cat q (Some f) vid inc n.
Proof.
  unfold find_last_seen. simpl fs_entry. rewrite (joined_restrict f cat Hok).
  2:{ intros e v He Hv. unfold seen_match. by apply entry_kept. }
  apply list_fmap_ext. intros i [e v] Hx%list_elem_of_lookup_2. apply last_seen_restrict.
  all: assert ((e, v) ∈ joined vs Catalogue.volume_id (seen_match fold q (Some f) vid inc) (fs_entry cat)) as (He & Hv & Hm)%elem_of_joined
    by (unfold sql_limit in Hx; destruct (n <? 0); [|apply (subseteq_take _ _) in Hx]; by apply elem_of_order_by in Hx).
  - done.
  - simpl. rewrite (seen_visible f cat _ v Hv). unfold seen_match in Hm. eapply entry_kept; [exact He|exact Hv|exact Hm].
Qed.

Lemma hot_folders_restrict since vid d n : hot_folders cat' since (Some f) vid d n = hot_folders cat since (Some f) vid d n.
Proof.
  unfold hot_folders. simpl change_log. rewrite (joined_restrict f cat Hok); [done|].
  intros c v _ Hv. unfold hot_match. rewrite !andb_true_iff. intros [_ H]. rewrite <- H. apply scoped_ext; [done| |done].
  by apply get_volume_key in Hv as [_ ->].
Qed.

Lemma omap_cons {A B} (g : A → option B) x (l : list A) : omap g (x :: l) = match g x with Some y => y :: omap g l | None => omap g l end.
Proof. done. Qed.

Lemma omap_filter_some {A B} (p : A → bool) (g : A → option B) (l : list A) :
  (∀ x, x ∈ l → is_Some (g x) → p x = true) → omap g (filter (λ x, p x) l) = omap g l.
Proof.
  induction l as [|x l IH]; intros H; [done|]. rewrite filter_cons_b, (omap_cons g x l), <- IH by (intros y Hy; apply H; by right).
  destruct (p x) eqn:Ep; [done|]. destruct (g x) eqn:Eg; [|done]. rewrite (H x) in Ep; [done|left|by rewrite Eg].
Qed.

Lemma omap_ext_elem {A B} (g h : A → option B) (l : list A) : (∀ x, x ∈ l → g x = h x) → omap g l = omap h l.
Proof. induction l as [|x l IH]; intros H; [done|]. rewrite !omap_cons, (H x), IH; [done|set_solver|left]. Qed.

Lemma host_volumes_restrict h : host_volumes cat' (Some f) h = host_volumes cat (Some f) h.
Proof.
  unfold host_volumes. f_equal. simpl volumes.
  rewrite omap_filter_some.
  2:{ intros v _ [x Hx]. apply bind_Some in Hx as (w & _ & Hx). destruct (_ && scoped _ _ _ _ _) eqn:E; [|done]. by apply andb_true_iff in E as [_ E]. }
  apply omap_ext_elem. intros v Hv. destruct (_ && scoped _ _ _ _ _) eqn:E.
  - f_equal. f_equal. simpl hosts. apply andb_true_iff in E as [_ E]. apply filter_filter_iff. intros w Hw. rewrite Is_true_true.
    split; [|tauto]. intros Hid. split; [done|]. apply existsb_exists. exists v. split; [by apply list_elem_of_In|].
    rewrite Hid, bool_decide_true by done. exact E.
  - by destruct (head _), (head _).
Qed.

Lemma fleet_storage_restrict h : fleet_storage cat' (Some f) h = fleet_storage cat (Some f) h.
Proof. unfold fleet_storage. by rewrite host_volumes_restrict. Qed.

Lemma host_volumes_seen h v nm : (v, nm) ∈ host_volumes cat (Some f) h → v ∈ vs ∧ sees f vs (v_id v) = true.
Proof.
  intros Hx. unfold host_volumes in Hx. apply elem_of_order_by, list_elem_of_omap in Hx as (w & Hw & Hx).
  apply bind_Some in Hx as (z & _ & Hx). destruct (_ && scoped _ _ _ _ _) eqn:E; [|done]. injection Hx as -> <-. apply andb_true_iff in E as [_ E].
  split; [done|]. rewrite (seen_visible f cat _ v); [done|]. by apply get_volume_elem; [apply Hok|].
Qed.

Lemma live_count_restrict vid : sees f vs vid = true → live_count cat' vid = live_count cat vid.
Proof.
  intros H. unfold live_count. simpl. rewrite (on_volume f cat volume_id _ vid); [done..|].
  intros e [He%bool_decide_eq_true _]%andb_true_iff. done.
Qed.

Lemma latest_scan_restrict vid : sees f vs vid = true → latest_scan cat' vid = latest_scan cat vid.
Proof.
  intros H. unfold latest_scan. simpl snapshots. rewrite (filter_filter_iff _ _ (λ sn, sn_volume_id sn = vid)); [done|].
  intros sn _. rewrite Is_true_true. split; [|tauto]. intros ->. done.
Qed.

Lemma scanned_paths_restrict h : scanned_paths cat' (Some f) h = scanned_paths cat (Some f) h.
Proof.
  unfold scanned_paths. rewrite host_volumes_restrict. f_equal.
  pose proof (host_volumes_seen h) as Hs. generalize (@nil (Z * HostCoverage)).
  induction (host_volumes cat (Some f) h) as [|[v nm] l IH]; intros acc; [done|]. simpl.
  assert (sees f vs (v_id v) = true) as Hv by (by destruct (Hs v nm (list_elem_of_here _ _))).
  rewrite live_count_restrict, latest_scan_restrict by done. apply IH.
  intros w m Hw. by apply (Hs w m); right.
Qed.

Lemma forecast_restrict vid path now : sees f vs vid = true → scoped_forecast cat' vid path (Some f) now = scoped_forecast cat vid path (Some f) now.
Proof.
  intros H. unfold scoped_forecast. pose proof (get_volume_seen f cat Hok vid H) as Hv. rewrite Hv.
  destruct (get_volume vid vs) as [v|] eqn:Ev; [|done].
  destruct (_check_volume_in_scope v (Some f)); [|done]. simpl. f_equal. unfold growth_forecast.
  change (hd_error (filter (λ v, v_id v = vid) (volumes cat'))) with (get_volume vid (volumes cat')).
  change (hd_error (filter (λ v, v_id v = vid) (volumes cat))) with (get_volume vid (volumes cat)). rewrite Hv, Ev.
  simpl size_history. rewrite (on_volume f cat hi_volume_id _ vid); [done..|].
  intros h. rewrite !andb_true_iff, bool_decide_eq_true. tauto.
Qed.

Lemma bind_filter {A B} (p : A → bool) (q : B → bool) (g h : A → list B) l :
  (∀ x, x ∈ l → (if p x then g x else []) = filter (λ y, q y) (h x)) → filter (λ x, p x) l ≫= g = filter (λ y, q y) (l ≫= h).
Proof.
  induction l as [|x l IH]; intros H; [done|]. rewrite bind_cons, filter_app, <- (H x), filter_cons_b by left.
  rewrite <- IH by (intros y Hy; apply H; by right). by destruct (p x).
Qed.

(** The embeddings of the entries that the scope sees. *)
Definition restrict_embeddings (ems : list FsEntryEmbedding) : list FsEntryEmbedding := filter (λ em, sees f vs (em_volume_id em)) ems.

Lemma semantic_restrict dist ems q vid n :
  semantic_search dist cat' (restrict_embeddings ems) q (Some f) vid n = semantic_search dist cat ems q (Some f) vid n.
Proof.
  unfold semantic_search, restrict_embeddings. simpl fs_entry. do 3 f_equal.
  rewrite (bind_filter _ (λ x : FsEntryEmbedding * FsEntryRow, sees f vs (volume_id x.2)) _ (λ em, pair em <$> filter (λ e, of_entry em e) (fs_entry cat))).
  - apply (joined_restrict f cat Hok (λ x : FsEntryEmbedding * FsEntryRow, volume_id x.2)).
    intros [em e] v Hx Hv. apply list_elem_of_bind in Hx as (em' & Hx & _). apply list_elem_of_fmap in Hx as (e' & [= -> ->] & [_ He]%list_elem_of_filter).
    unfold semantic_match. by apply entry_kept.
  - intros em _. assert (∀ l : list FsEntryRow, filter (λ x : FsEntryEmbedding * FsEntryRow, sees f vs (volume_id x.2)) (pair em <$> l) =
      pair em <$> filter (λ e, sees f vs (volume_id e)) l) as Hf.
    { induction l as [|e l IH]; [done|]. rewrite fmap_cons, !filter_cons_b. simpl. destruct (sees f vs (volume_id e)); [|done].
      rewrite fmap_cons. by rewrite IH. }
    rewrite Hf. destruct (sees f vs (em_volume_id em)) eqn:Es.
    + f_equal. rewrite !filter_and. apply filter_ext_b. intros e. apply andb_comm.
    + rewrite filter_none_b; [done|]. intros e He. apply list_elem_of_filter in He as [He _]. rewrite Is_true_true in He. unfold of_entry in He.
      rewrite !andb_true_iff, !bool_decide_eq_true in He. by destruct He as [_ ->].
Qed.

End Restricted.

(** ** What the summary of the duplicates sees *)

Section Copies.
Context (gs : list Grant) (cap : Capability).
Notation f := (from_grants gs cap).

(** A grant with the capability names the host or the volume of the copy, or everything. *)
Definition named (m : DupMember) : bool :=
  existsb (λ g, role_has (g_role g) cap && grant_covers g (m_host_id m) (Some (m_volume_id m)) None) gs.
Definition all_named : bool := existsb (λ g, role_has (g_role g) cap && bool_decide (g_scope_kind g = KGlobal)) gs.

(** A group without all that is kept of it but the bytes that it stores as reclaimable. *)
Definition figure (g : DupGroup) : DupGroup := mk_dup_group "" 0 0 (reclaimable_bytes g) Json.JNull None 0 "".

(** The duplicate tables without the copies that no grant names, without the groups that have no other copy, and of the other groups
    only the stored figure; the figure counts all copies of the group. *)
Definition restrict_dups (d : dedup_db) : dedup_db :=
  let ms := filter (λ m, named m.2) (dup_members d) in
  mk_ddb [] [] ((λ g, (g.1, figure g.2)) <$> filter (λ g, all_named || bool_decide (g.1 ∈ ms.*1)) (dup_groups d)) ms 0.

(** The copies have the hosts of their volumes. *)
Definition copies_agree (cat : catalogue) (d : dedup_db) : Prop :=
  ∀ m v, m ∈ dup_members d → get_volume (m_volume_id m.2) (volumes cat) = Some v → m_host_id m.2 = v_host_id v.

Lemma named_allows m : named m = true ↔ scope_allows f (m_host_id m) (Some (m_volume_id m)) None.
Proof.
  rewrite from_grants_allows. unfold named. rewrite existsb_exists. setoid_rewrite <- list_elem_of_In. by setoid_rewrite andb_true_iff.
Qed.

Lemma all_named_global : all_named = is_global f.
Proof.
  apply eq_bool_prop_intro. rewrite !Is_true_true. unfold all_named. rewrite existsb_exists. unfold from_grants.
  set (rel := filter _ gs). assert (∀ g, g ∈ rel ↔ g ∈ gs ∧ role_has (g_role g) cap = true) as Hrel.
  { intros g. unfold rel. rewrite list_elem_of_filter, Is_true_true. tauto. }
  assert ((∃ x, In x gs ∧ role_has (g_role x) cap && bool_decide (g_scope_kind x = KGlobal) = true) ↔
    existsb (λ g, bool_decide (g_scope_kind g = KGlobal)) rel = true) as ->.
  { rewrite existsb_exists. setoid_rewrite <- list_elem_of_In. setoid_rewrite Hrel. setoid_rewrite andb_true_iff. naive_solver. }
  destruct rel as [|g rel']; [done|]. by destruct (existsb _ (g :: rel')).
Qed.

Lemma member_named m : is_global f = false → member_in_scope f m = named m.
Proof.
  intros Hg. apply eq_bool_prop_intro. rewrite !Is_true_true, named_allows. unfold member_in_scope, apply, scope_allows. rewrite Hg.
  repeat case_bool_decide; simpl; set_solver.
Qed.

Lemma existsb_ext_elem {A} (p q : A → bool) l : (∀ x, x ∈ l → p x = q x) → existsb p l = existsb q l.
Proof. induction l as [|x l IH]; intros H; [done|]. simpl. rewrite (H x), IH; [done|set_solver|left]. Qed.

Lemma existsb_filter_and {A} (p q : A → bool) l : existsb q (filter (λ x, p x) l) = existsb (λ x, p x && q x) l.
Proof. induction l as [|x l IH]; [done|]. rewrite filter_cons_b. simpl. rewrite <- IH. by destruct (p x). Qed.

Lemma has_member_restrict d p id :
  (∀ m, m ∈ dup_members d → p m.2 = true → named m.2 = true) → has_member (restrict_dups d) p id = has_member d p id.
Proof.
  intros H. unfold has_member, restrict_dups. simpl. rewrite existsb_filter_and. apply existsb_ext_elem. intros m Hm.
  destruct (p m.2) eqn:Ep; [by rewrite (H m Hm Ep)|]. by rewrite !andb_false_r.
Qed.

Lemma listed_restrict d vid id :
  (∀ v m, vid = Some v → m ∈ dup_members d → m_volume_id m.2 = v → named m.2 = true) →
  listed (restrict_dups d) (Some f) vid id = listed d (Some f) vid id.
Proof.
  intros H. unfold listed. f_equal.
  - destruct vid as [v|]; [|done]. apply has_member_restrict. intros m Hm Hv%bool_decide_eq_true. by apply (H v m).
  - unfold narrowing. destruct (is_global f) eqn:Eg; [done|]. apply has_member_restrict. intros m _. by rewrite member_named.
Qed.

(** A group that the summary counts is kept. *)
Lemma listed_kept d vid id :
  listed d (Some f) vid id = true → all_named || bool_decide (id ∈ (filter (λ m, named m.2) (dup_members d)).*1) = true.
Proof.
  unfold listed, narrowing. rewrite all_named_global. destruct (is_global f) eqn:Eg; [done|].
  intros [_ H]%andb_true_iff. simpl. apply bool_decide_eq_true. unfold _member_scope_predicate, has_member in H.
  apply existsb_exists in H as (m & Hm & [Hid%bool_decide_eq_true Hp]%andb_true_iff). rewrite member_named in Hp by done.
  rewrite <- Hid. apply list_elem_of_fmap_2, list_elem_of_filter. rewrite Hp. split; [done|]. by apply list_elem_of_In.
Qed.

Lemma duplicate_summary_restrict d vid :
  (∀ v m, vid = Some v → m ∈ dup_members d → m_volume_id m.2 = v → named m.2 = true) →
  duplicate_summary (restrict_dups d) (Some f) vid = duplicate_summary d (Some f) vid.
Proof.
  intros H. unfold duplicate_summary.
  set (blank := λ g : Z * DupGroup, (g.1, figure g.2)).
  assert (∀ l : list (Z * DupGroup), filter (λ g : Z * DupGroup, listed (restrict_dups d) (Some f) vid g.1) (blank <$>
      filter (λ g, all_named || bool_decide (g.1 ∈ (filter (λ m, named m.2) (dup_members d)).*1)) l) =
    blank <$> filter (λ g, listed d (Some f) vid g.1) l) as Hl.
  { induction l as [|g l IH]; [done|]. rewrite !filter_cons_b.
    destruct (listed d (Some f) vid g.1) eqn:El.
    - rewrite (listed_kept d vid g.1 El), !fmap_cons, filter_cons_b, <- IH. cbn [fst blank]. by rewrite listed_restrict, El.
    - destruct (_ || _); [|exact IH]. rewrite fmap_cons, filter_cons_b, <- IH. cbn [fst blank]. by rewrite listed_restrict, El. }
  change (dup_groups (restrict_dups d)) with (blank <$>
    filter (λ g : Z * DupGroup, all_named || bool_decide (g.1 ∈ (filter (λ m : Z * DupMember, named m.2) (dup_members d)).*1)) (dup_groups d)).
  rewrite Hl, length_fmap, <- list_fmap_compose. done.
Qed.

(** The copies on a volume that the scope sees are named. *)
Lemma seen_copies_named cat d v m :
  copies_agree cat d → m ∈ dup_members d → m_volume_id m.2 = v → sees f (volumes cat) v = true → named m.2 = true.
Proof.
  intros Hd Hm Hv Hs. unfold sees in Hs. destruct (get_volume v (volumes cat)) as [vol|] eqn:Ev; [|done].
  apply named_allows. subst v. rewrite (Hd m vol Hm Ev). apply get_volume_key in Ev as [_ <-].
  unfold visible, scoped in Hs. apply apply_agrees_with_check, check_target_allows in Hs. unfold scope_allows in *. naive_solver.
Qed.
End Copies.

(** A file directly below the mountpoint counts as a folder of its own, and not for its directory. *)
Lemma root_file_ranked_as_folder :
  _ancestor_folder "/mnt/data" "/mnt/data/media/films/x.mkv" 1 = "/mnt/data/media" ∧
  _ancestor_folder "/mnt/data" "/mnt/data/x.mkv" 1 = "/mnt/data/x.mkv".
Proof. split; reflexivity. Qed.
