(* ===== verification/Embedding.v ===== *)
(** The embedding pipeline ([src/fathom/core/concierge/embeddings.py], the tick of [workers/embedding.py]): vectors of file names and
    paths for the semantic search, a bounded batch at a time.

    A tick is one transaction.  A query without ORDER BY takes its rows in the order of the table; BLAKE2b is a parameter. *)

From stdpp Require Import gmap.
From S2P Require Import Prelude PyStr Sql Json Inference.
From S2P Require Import Catalogue Rbac Rollup Query Charts Visible Watch ConciergeQueries.

Local Open Scope Z_scope.

Record EmbedCandidate := mk_candidate { ec_entry_id : Z; ec_host_id : Z; ec_volume_id : Z; ec_name : string; ec_path : string }.

Definition nl : string := String "010" "".

Definition embed_text (name path : string) : string := name +:+ nl +:+ path.

(** The business key of an embedding and of an entry. *)
Definition em_key (em : FsEntryEmbedding) : Z * Z * Z := (em_entry_id em, em_host_id em, em_volume_id em).
Definition entry_key (e : FsEntryRow) : Z * Z * Z := (e_id e, host_id e, volume_id e).

Definition has_embedding (ems : list FsEntryEmbedding) (e : FsEntryRow) : bool := existsb (λ em, of_entry em e) ems.

(** [WHERE] of the backfill: live files of data volumes without an embedding. *)
Definition needs_embedding (ems : list FsEntryEmbedding) (scope : option ScopeFilter) (e : FsEntryRow) (v : Volume) : bool :=
  present e && negb (is_dir e) && bool_decide (v_kind v = "data") && negb (has_embedding ems e) &&
  scoped scope host_id volume_id (λ _, v_kind v) e.

Definition candidate (e : FsEntryRow) : EmbedCandidate := mk_candidate (e_id e) (host_id e) (volume_id e) (name e) (path e).

Definition rows_needing_embedding (cat : catalogue) (ems : list FsEntryEmbedding) (limit : Z) (scope : option ScopeFilter) : list EmbedCandidate :=
  (λ x, candidate x.1) <$> sql_limit limit (joined (volumes cat) volume_id (needs_embedding ems scope) (fs_entry cat)).

(** The vectors that stay, and how many went. *)
Definition prune_orphan_embeddings (cat : catalogue) (ems : list FsEntryEmbedding) : Z * list FsEntryEmbedding :=
  let kept := filter (λ em, existsb (λ e, of_entry em e && present e) (fs_entry cat)) ems in
  (Z.of_nat (length ems - length kept), kept).

(** What a batch may raise: the provider, [zip(strict=True)], or the unique key. *)
Inductive BatchError := Provider_ (e : Exc) | LengthMismatch | IntegrityError.

Section Batch.
Context (blake2b_hex : string → string) (embed : list string → string → result Exc (list (list Z))).

(** [blake2b(text.encode("utf-8", "ignore"), digest_size=16).hexdigest()]. *)
Definition text_hash (text : string) : string := blake2b_hex (utf8 text).

(** The rows of a batch, with the next ids. *)
Fixpoint new_embeddings (id : Z) (cs : list EmbedCandidate) (vectors : list (list Z)) : list FsEntryEmbedding :=
  match cs, vectors with
  | c :: cs, v :: vs =>
      mk_embedding id (ec_entry_id c) (ec_host_id c) (ec_volume_id c) (text_hash (embed_text (ec_name c) (ec_path c))) v
        :: new_embeddings (id + 1) cs vs
  | _, _ => []
  end.

Definition run_embedding_batch (cat : catalogue) (ems : list FsEntryEmbedding) (batch : Z) (scope : option ScopeFilter)
    : result BatchError (Z * list FsEntryEmbedding) :=
  match rows_needing_embedding cat ems batch scope with
  | [] => Ok (0, ems)
  | candidates =>
      match embed ((λ c, embed_text (ec_name c) (ec_path c)) <$> candidates) INPUT_DOCUMENT with
      | Err e => Err (Provider_ e)
      | Ok vectors =>
          if bool_decide (length candidates = length vectors) then
            let ems' := ems ++ new_embeddings (next_id em_id ems) candidates vectors in
            if bool_decide (NoDup (em_key <$> ems')) then Ok (Z.of_nat (length candidates), ems') else Err IntegrityError
          else Err LengthMismatch
      end
  end.

(** One transaction: prune, then embed a batch of the whole estate. *)
Definition tick (cat : catalogue) (ems : list FsEntryEmbedding) (batch : Z) : result BatchError (Z * list FsEntryEmbedding) :=
  run_embedding_batch cat (prune_orphan_embeddings cat ems).2 batch None.

(** The loop: a tick that fails is rolled back. *)
Definition loop_step (cat : catalogue) (batch : Z) (ems : list FsEntryEmbedding) : list FsEntryEmbedding :=
  match tick cat ems batch with Ok (_, ems') => ems' | Err _ => ems end.
End Batch.

(** ** The backfill *)

Lemma of_entry_key em e : of_entry em e = true ↔ em_key em = entry_key e.
Proof.
  unfold of_entry, em_key, entry_key. rewrite !andb_true_iff, !bool_decide_eq_true. split; [by intros [[-> ->] ->]|by intros [= -> -> ->]].
Qed.

Lemma has_embedding_keys ems e : has_embedding ems e = bool_decide (entry_key e ∈ em_key <$> ems).
Proof.
  apply Bool.eq_iff_eq_true. rewrite bool_decide_eq_true. unfold has_embedding. rewrite existsb_exists, list_elem_of_fmap. split.
  - intros (em & Hin%list_elem_of_In & He%of_entry_key). by exists em.
  - intros (em & He & Hin). exists em. split; [by apply list_elem_of_In|by apply of_entry_key].
Qed.

(** What the first rows leave. *)
Lemma filter_not_taken_key {A K} `{!EqDecision K} (key : A → K) n (l : list A) :
  NoDup (key <$> l) → filter (λ x, negb (bool_decide (key x ∈ key <$> take n l))) l = drop n l.
Proof.
  revert n. induction l as [|x l IH]; intros n Hnd; [by destruct n|]. rewrite fmap_cons in Hnd. apply NoDup_cons in Hnd as [Hx Hnd].
  destruct n as [|n]; simpl take; simpl drop.
  - apply filter_all, Forall_forall. intros y _. by rewrite bool_decide_false by (by intros ?%elem_of_nil).
  - rewrite filter_cons_b, bool_decide_true by left. simpl negb. cbv iota. rewrite <- (IH n Hnd). apply filter_ext_elem. intros y Hy.
    assert (key y ≠ key x) as Hne by (intros E; apply Hx; rewrite <- E; by apply list_elem_of_fmap_2).
    rewrite !Is_true_true, !negb_true_iff, !bool_decide_eq_false, elem_of_cons. tauto.
Qed.

Section Backfill.
Context (blake2b_hex : string → string) (embed : list string → string → result Exc (list (list Z))) (cat : catalogue) (batch : Z).
Context (Hkeys : NoDup (entry_key <$> fs_entry cat)) (Hbatch : 0 < batch).
Context (Hembed : ∀ texts ty, ∃ vectors, embed texts ty = Ok vectors ∧ length vectors = length texts).

Definition pending (ems : list FsEntryEmbedding) : list (FsEntryRow * Volume) :=
  joined (volumes cat) volume_id (needs_embedding ems None) (fs_entry cat).

Definition clean (ems : list FsEntryEmbedding) : Prop := ∀ em, em ∈ ems → ∃ e, e ∈ fs_entry cat ∧ present e = true ∧ em_key em = entry_key e.

Lemma pending_keys ems : NoDup ((λ x, entry_key x.1) <$> pending ems).
Proof.
  change (λ x : FsEntryRow * Volume, entry_key x.1) with (entry_key ∘ fst : FsEntryRow * Volume → Z * Z * Z).
  rewrite list_fmap_compose. eapply sublist_NoDup; [exact Hkeys|]. apply sublist_map, joined_sublist.
Qed.

Lemma prune_clean ems : clean (prune_orphan_embeddings cat ems).2 ∧ (clean ems → (prune_orphan_embeddings cat ems).2 = ems).
Proof.
  unfold prune_orphan_embeddings. simpl. split.
  - intros em [Hem _]%list_elem_of_filter. apply Is_true_true, existsb_exists in Hem as (e & He%list_elem_of_In & [H1 H2]%andb_true_iff).
    exists e. by apply of_entry_key in H1.
  - intros Hc. apply filter_all, Forall_forall. intros em (e & He & Hp & Hk)%Hc. apply Is_true_true, existsb_exists. exists e.
    split; [by apply list_elem_of_In|]. rewrite Hp, andb_true_r. by apply of_entry_key.
Qed.

Lemma prune_unique ems : NoDup (em_key <$> ems) → NoDup (em_key <$> (prune_orphan_embeddings cat ems).2).
Proof. intros H. eapply sublist_NoDup; [exact H|]. apply sublist_map, filter_sublist_b. Qed.

Lemma new_embeddings_keys id cs vectors :
  length cs = length vectors → em_key <$> new_embeddings blake2b_hex id cs vectors = (λ c, (ec_entry_id c, ec_host_id c, ec_volume_id c)) <$> cs.
Proof.
  revert id vectors. induction cs as [|c cs IH]; intros id [|v vs] E; try done. simpl. f_equal. apply IH. by injection E.
Qed.

Lemma pending_app ems new : pending (ems ++ new) = filter (λ x, negb (bool_decide (entry_key x.1 ∈ em_key <$> new))) (pending ems).
Proof.
  unfold pending. clear Hkeys. induction (fs_entry cat) as [|e es IH]; [done|]. rewrite !joined_cons, filter_app, IH. f_equal.
  destruct (get_volume (volume_id e) (volumes cat)) as [v|]; [|done]. unfold needs_embedding. simpl scoped. rewrite !andb_true_r.
  rewrite !has_embedding_keys, fmap_app. destruct (present e && negb (is_dir e) && bool_decide (v_kind v = "data")); [|done]. simpl.
  destruct (decide (entry_key e ∈ em_key <$> ems)) as [Hin|Hin].
  - rewrite !bool_decide_true; [done|done|]. apply elem_of_app. by left.
  - rewrite (bool_decide_false (entry_key e ∈ em_key <$> ems)) by done. simpl. rewrite filter_cons_b. simpl.
    destruct (decide (entry_key e ∈ em_key <$> new)) as [Hn|Hn].
    + rewrite !bool_decide_true; [done|done|]. apply elem_of_app. by right.
    + rewrite !bool_decide_false; [done|done|]. rewrite elem_of_app. tauto.
Qed.

Lemma elem_of_pending ems e v :
  (e, v) ∈ pending ems ↔ e ∈ fs_entry cat ∧ get_volume (volume_id e) (volumes cat) = Some v ∧ present e = true ∧ is_dir e = false ∧
    v_kind v = "data" ∧ entry_key e ∉ em_key <$> ems.
Proof.
  unfold pending. rewrite elem_of_joined. unfold needs_embedding. rewrite has_embedding_keys, !andb_true_iff, !negb_true_iff, bool_decide_eq_true,
    bool_decide_eq_false. simpl. tauto.
Qed.

(** One batch over a clean index. *)
Lemma batch_step ems :
  NoDup (em_key <$> ems) → clean ems →
  ∃ ems', run_embedding_batch blake2b_hex embed cat ems batch None = Ok (Z.of_nat (Z.to_nat batch `min` length (pending ems)), ems') ∧
    NoDup (em_key <$> ems') ∧ clean ems' ∧ pending ems' = drop (Z.to_nat batch) (pending ems).
Proof.
  intros Hnd Hc. unfold run_embedding_batch, rows_needing_embedding. fold (pending ems).
  assert (sql_limit batch (pending ems) = take (Z.to_nat batch) (pending ems)) as -> by (unfold sql_limit; destruct (Z.ltb_spec batch 0); [lia|done]).
  set (taken := take (Z.to_nat batch) (pending ems)). set (cs := (λ x, candidate x.1) <$> taken).
  destruct cs as [|c cs'] eqn:Ec.
  { exists ems. assert (taken = []) as E by (by destruct taken). assert (pending ems = []) as Ep
      by (unfold taken in E; destruct (pending ems); [done|]; destruct (Z.to_nat batch) eqn:?; [lia|done]).
    rewrite Ep. split; [by rewrite Nat.min_0_r|]. split_and!; [done|done|by rewrite drop_nil]. }
  rewrite <- Ec. destruct (Hembed ((λ c, embed_text (ec_name c) (ec_path c)) <$> cs) INPUT_DOCUMENT) as (vectors & -> & Hl). rewrite length_fmap in Hl.
  rewrite bool_decide_true by done.
  pose proof (new_embeddings_keys (next_id em_id ems) cs vectors (eq_sym Hl)) as Hk.
  assert (em_key <$> new_embeddings blake2b_hex (next_id em_id ems) cs vectors = (λ x, entry_key x.1) <$> taken) as Hk'
    by (rewrite Hk; unfold cs; by rewrite <- list_fmap_compose).
  set (new := new_embeddings blake2b_hex (next_id em_id ems) cs vectors) in *.
  assert (NoDup (em_key <$> ems ++ new)) as Hnd'.
  { rewrite fmap_app, Hk'. apply NoDup_app. split; [done|]. split.
    - intros k Hin (x & -> & Hx)%list_elem_of_fmap. destruct x as [e v]. apply subseteq_take, elem_of_pending in Hx. tauto.
    - eapply sublist_NoDup; [exact (pending_keys ems)|]. apply sublist_map, sublist_take. }
  rewrite bool_decide_true by done. exists (ems ++ new). split.
  { do 3 f_equal. unfold cs. rewrite length_fmap. apply length_take. }
  split_and!; [done| |].
  - intros em [Hin|Hin]%elem_of_app; [by apply Hc|].
    assert (em_key em ∈ em_key <$> new) as Hin' by (by apply list_elem_of_fmap_2). rewrite Hk' in Hin'.
    apply list_elem_of_fmap in Hin' as ([e v] & E & Hx). apply subseteq_take, elem_of_pending in Hx. exists e. tauto.
  - rewrite pending_app, Hk'. unfold taken. apply filter_not_taken_key, pending_keys.
Qed.

(** One tick: prune, then a batch. *)
Lemma loop_step_spec ems :
  NoDup (em_key <$> ems) →
  let ems' := loop_step blake2b_hex embed cat batch ems in
  NoDup (em_key <$> ems') ∧ clean ems' ∧ pending ems' = drop (Z.to_nat batch) (pending (prune_orphan_embeddings cat ems).2).
Proof.
  intros Hnd ems'. destruct (prune_clean ems) as [Hc _].
  destruct (batch_step _ (prune_unique ems Hnd) Hc) as (new & Hr & Hnew). unfold ems', loop_step, tick. by rewrite Hr.
Qed.

Lemma loop_steps_spec k ems :
  NoDup (em_key <$> ems) →
  let ems' := Nat.iter (S k) (loop_step blake2b_hex embed cat batch) ems in
  NoDup (em_key <$> ems') ∧ clean ems' ∧ pending ems' = drop (S k * Z.to_nat batch) (pending (prune_orphan_embeddings cat ems).2).
Proof.
  intros Hnd. induction k as [|k IH].
  - simpl Nat.iter. rewrite Nat.mul_1_l. by apply loop_step_spec.
  - destruct IH as (H1 & H2 & H3). set (ems1 := Nat.iter (S k) _ ems) in *.
    destruct (loop_step_spec ems1 H1) as (H4 & H5 & H6). destruct (prune_clean ems1) as [_ Hp]. rewrite (Hp H2), H3, drop_drop in H6.
    change (Nat.iter (S (S k)) _ ems) with (loop_step blake2b_hex embed cat batch ems1). split_and!; [done|done|]. rewrite H6. f_equal. lia.
Qed.

Lemma unique_embedding ems em e :
  NoDup (em_key <$> ems) → em ∈ ems → em_key em = entry_key e → filter (λ em, of_entry em e) ems = [em].
Proof.
  intros Hnd Hin Hk. rewrite (filter_ext_elem _ (λ em', em_key em' = em_key em)); [by apply (filter_unique em_key)|].
  intros em' _. rewrite Is_true_true, of_entry_key. by rewrite Hk.
Qed.

(** C37: The backfill completes and stays complete: with a provider that answers, after enough ticks (the files without a vector over the
    size of a batch) each live file of a data volume has exactly one vector, every vector is of a live entry, and a further tick changes
    nothing. *)
Theorem backfill_completes k ems :
  NoDup (em_key <$> ems) → (length (pending (prune_orphan_embeddings cat ems).2) ≤ S k * Z.to_nat batch)%nat →
  let ems' := Nat.iter (S k) (loop_step blake2b_hex embed cat batch) ems in
  (∀ e v, e ∈ fs_entry cat → get_volume (volume_id e) (volumes cat) = Some v → v_kind v = "data" → present e = true → is_dir e = false →
    ∃ em, filter (λ em, of_entry em e) ems' = [em]) ∧
  (∀ em, em ∈ ems' → ∃ e, e ∈ fs_entry cat ∧ present e = true ∧ of_entry em e = true) ∧
  tick blake2b_hex embed cat ems' batch = Ok (0, ems').
Proof.
  intros Hnd Hlen ems'. destruct (loop_steps_spec k ems Hnd) as (H1 & H2 & H3). fold ems' in H1, H2, H3. rewrite drop_ge in H3 by done.
  split_and!.
  - intros e v He Hv Hk Hp Hd. destruct (decide (entry_key e ∈ em_key <$> ems')) as [Hin|Hin].
    + apply list_elem_of_fmap in Hin as (em & Hke & Hin). exists em. by apply unique_embedding.
    + assert ((e, v) ∈ pending ems') as Hpend by (by apply elem_of_pending). rewrite H3 in Hpend. by apply elem_of_nil in Hpend.
  - intros em (e & He & Hp & Hk)%H2. exists e. by rewrite of_entry_key.
  - unfold tick. rewrite (proj2 (prune_clean ems') H2). unfold run_embedding_batch, rows_needing_embedding. fold (pending ems').
    rewrite H3. unfold sql_limit. by destruct (batch <? 0), (Z.to_nat batch).
Qed.
End Backfill.

(** ** Witness *)

Definition ones (texts : list string) (_ : string) : result Exc (list (list Z)) := Ok ((λ _, [1]) <$> texts).
Definition orphan : list FsEntryEmbedding := [mk_embedding 4 99 1 1 "h" [0]].

(** Two files, a batch of one, and a vector of a file that is gone. *)
Lemma backfill_completes_witness :
  em_entry_id <$> Nat.iter 2 (loop_step (λ _, "h") ones seen_cat 1) orphan = [2; 3] ∧
  tick (λ _, "h") ones seen_cat (Nat.iter 2 (loop_step (λ _, "h") ones seen_cat 1) orphan) 1 =
    Ok (0, Nat.iter 2 (loop_step (λ _, "h") ones seen_cat 1) orphan).
Proof.
  split; [vm_compute; reflexivity|].
  assert (NoDup (entry_key <$> fs_entry seen_cat)) as Hk by by_compute.
  assert (∀ texts ty, ∃ vectors, ones texts ty = Ok vectors ∧ length vectors = length texts) as He
    by (intros texts ty; eexists; split; [reflexivity|apply length_fmap]).
  assert (NoDup (em_key <$> orphan)) as Ho by by_compute.
  assert (length (pending seen_cat (prune_orphan_embeddings seen_cat orphan).2) ≤ 2 * Z.to_nat 1)%nat as Hl by (vm_compute; lia).
  exact (proj2 (proj2 (backfill_completes (λ _, "h") ones seen_cat 1 Hk ltac:(lia) He 1 orphan Ho Hl))).
Defined.
