(* ===== verification/ScanRoutes.v ===== *)
(** The scan routes ([src/fathom/api/routers/scans.py]): the history of scan runs, the record of a full-bit request, and the dispatch of
    a scan to the agent of a host.

    The column [warning_ack] of a snapshot is kept beside the catalogue, by the snapshot's id.  Dispatching signs a job, adds its audit
    row to the session, queues the job and only then flushes the session; what other requests do to the queue while the wait of zero
    seconds gives the loop a turn, and what other writers commit before the flush, are functions, as in the remediation routes.  The
    queue is the one that the start-up of the process creates. *)

From stdpp Require Import gmap.
From S2P Require Import PreviewPull.
From S2P Require Import Prelude PyStr PyInt Json PyTime AuditLog AuditStore Sql DedupStore Catalogue Rbac Jobs Signing JobQueue Rollup.
From S2P Require Import Finalize Orchestrator PlanStore Preview PreviewRoute Query Visible Remediation JobRoutes ReadRoutes.

Local Open Scope Z_scope.

Record scan_db := mk_sdb { sc_catalogue : catalogue; sc_acks : gmap Z pydict }.

(** ** [list_scans] *)

Record SnapshotOut := mk_snapshot_out {
  so_id : Z; so_host_id : Z; so_volume_id : Z; so_mode : string; so_started_at : Z; so_finished_at : option Z;
  so_entry_count : Z; so_total_size_on_disk : Z; so_warning_ack : option pydict;
}.

Definition snapshot_out (acks : gmap Z pydict) (s : Snapshot) : SnapshotOut :=
  mk_snapshot_out (sn_id s) (sn_host_id s) (sn_volume_id s) (sn_mode s) (sn_started s) (sn_finished s) (sn_file_count s)
    (sn_total_size s) (acks !! sn_id s).

(** [session.get(Volume, id)], with its 404 and the check of the scope. *)
Definition scoped_volume (cat : catalogue) (scope : ScopeFilter) (volume_id : Z) : reply Volume :=
  match find_volume cat volume_id with
  | None => http 404 "unknown volume"
  | Some v => _ ← lift (check_target scope (v_host_id v) (Some (v_id v)) (Some (v_kind v))); Ok v
  end.

Definition wanted (volume_id : option Z) (s : Snapshot) : bool :=
  match volume_id with Some v => bool_decide (sn_volume_id s = v) | None => true end.

Definition in_history (scope : ScopeFilter) (volume_id : option Z) (s : Snapshot) (v : Volume) : bool :=
  wanted volume_id s && apply scope (Some sn_host_id) (Some sn_volume_id) (Some (λ _, v_kind v)) s.

Definition scans_in (cat : catalogue) (scope : ScopeFilter) (volume_id : option Z) : list Snapshot :=
  order_by (desc Z.leb) sn_id (joined (Catalogue.volumes cat) sn_volume_id (in_history scope volume_id) (snapshots cat)).*1.

Definition list_scans (p : Principal) (d : scan_db) (volume_id : option Z) : reply (list SnapshotOut) :=
  route VIEW_METADATA p (ge1 volume_id)
    (λ scope,
      _ ← match volume_id with None => Ok () | Some v => _ ← scoped_volume (sc_catalogue d) scope v; Ok () end;
      Ok (snapshot_out (sc_acks d) <$> scans_in (sc_catalogue d) scope volume_id)).

(** ** [create_fullbit_scan] *)

Record FullBitScanRequest := mk_fullbit_request { fs_volume_id : Z; fs_impact_ack : string; fs_scope_path : option string }.

Definition fullbit_request_ok (b : FullBitScanRequest) : bool :=
  (1 <=? fs_volume_id b) && str_between 1 1024 (fs_impact_ack b) &&
  match fs_scope_path b with Some s => (String.length s <=? 4096)%nat | None => true end.

(** [body.scope_path or volume.mountpoint]. *)
Definition ack_target (b : FullBitScanRequest) (v : Volume) : string :=
  match fs_scope_path b with Some s => if bool_decide (s = "") then mountpoint v else s | None => mountpoint v end.

Definition warning_ack (p : Principal) (b : FullBitScanRequest) (v : Volume) (now : datetime) : pydict :=
  [("operator", JStr (subject p)); ("acknowledged_at", JStr (isoformat now)); ("target", JStr (ack_target b v));
   ("mode", JStr "fullbit"); ("impact_ack", JStr (fs_impact_ack b))].

Record ScanCreatedOut := mk_created { cr_snapshot_id : Z; cr_volume_id : Z; cr_mode : string }.

(** [started] is the server default of the column. *)
Definition create_fullbit_scan (p : Principal) (b : FullBitScanRequest) (now : datetime) (started : Z) (d : scan_db)
    : reply ScanCreatedOut * scan_db :=
  match (scope ← guard TRIGGER_FULLBIT_SCAN p; _ ← (if fullbit_request_ok b then Ok () else unprocessable);
         v ← scoped_volume (sc_catalogue d) scope (fs_volume_id b);
         if (String.length (strip (fs_impact_ack b)) <? 8)%nat
         then http 422 "impact_ack must name the backing device class (non-impact contract)" else Ok v) with
  | Err e => (Err e, d)
  | Ok v =>
      let id := next_id sn_id (snapshots (sc_catalogue d)) in
      let snapshot := mk_snapshot id (v_host_id v) (v_id v) "fullbit" started None 0 0 in
      (Ok (mk_created id (v_id v) "fullbit"),
       mk_sdb (set_snapshots (snapshots (sc_catalogue d) ++ [snapshot]) (sc_catalogue d))
         (<[id := warning_ack p b v now]> (sc_acks d)))
  end.

(** ** [scan_now] *)

Record ScanNowRequest := mk_scan_now { sr_root : string; sr_mode : ScanMode }.
Record ScanDispatchedOut := mk_dispatched { di_job_id : string; di_host : string; di_root : string; di_mode : string }.

Definition get_scan_runtime (runtime : option RemediationRuntime) : reply RemediationRuntime :=
  match runtime with Some rt => Ok rt | None => http 503 "scan dispatch is not enabled" end.

(** [scalar_one_or_none] of the volume mounted at the root: two rows are an exception. *)
Definition volume_at (cat : catalogue) (host_id : Z) (root : string) : reply Volume :=
  match filter (λ v, v_host_id v = host_id ∧ mountpoint v = root) (Catalogue.volumes cat) with
  | [] => http 422 "root is not a known scan root/volume for this host"
  | [v] => Ok v
  | _ => Err None
  end.

(** Everything before the chain is built. *)
Definition scan_now_inputs (p : Principal) (runtime : option RemediationRuntime) (cat : catalogue) (host_id : Z) (b : ScanNowRequest)
    : reply (Host * RemediationRuntime) :=
  scope ← guard TRIGGER_METADATA_SCAN p;
  _ ← (if str_between 1 4096 (sr_root b) then Ok () else unprocessable);
  _ ← (if bool_decide (sr_mode b = FULLBIT) && negb (has_capability p TRIGGER_FULLBIT_SCAN)
       then http 403 "insufficient capability for full-bit scan" else Ok ());
  match find_host cat host_id with
  | None => http 404 "unknown host"
  | Some host =>
      v ← volume_at cat host_id (sr_root b);
      _ ← lift (check_target scope (h_id host) (Some (v_id v)) (Some (v_kind v)));
      rt ← get_scan_runtime runtime;
      Ok (host, rt)
  end.

(** [_enqueue]: the job is queued under the fresh token [jid] and the wait of zero seconds is given up. *)
Definition _enqueue (jid : string) (meanwhile : job_state → job_state) (st : job_state) (signed : SignedJob) : result string () :=
  match (enqueue_and_wait jid (Jobs.host_id (job signed)) meanwhile signed st).1 with
  | Ok _ => Ok ()
  | Err e => if bool_decide (e = "DispatchTimeoutError") then Ok () else Err e
  end.

(** The queue after the jobs that were handed to [_enqueue]. *)
Definition after_enqueue (jid : string) (meanwhile : job_state → job_state) (sent : list SignedJob) (st : job_state) : job_state :=
  foldl (λ st s, (enqueue_and_wait jid (Jobs.host_id (job s)) meanwhile s st).2) st sent.

Section ScanNow.
Context {B : Backend} (blake3_hex : string → string).

Definition scan_now (p : Principal) (settings : RemSettings) (runtime : option RemediationRuntime) (cat : catalogue) (host_id : Z)
    (b : ScanNowRequest) (now : datetime) (nonce jid : string) (meanwhile : job_state → job_state) (others : audit_db → audit_db)
    (d : audit_db) (st : job_state) : reply ScanDispatchedOut * audit_db * job_state :=
  match scan_now_inputs p runtime cat host_id b with
  | Err e => (Err e, d, st)
  | Ok (host, rt) =>
      let '(r, w) := dispatch_scan blake3_hex never_refuses (signer rt) (remediation_job_ttl_seconds settings) now nonce (subject p)
                       (h_name host) (sr_root b) (sr_mode b) (_enqueue jid meanwhile st) (session_start d) in
      let st := after_enqueue jid meanwhile (o_sent w) st in
      match r with
      | Err _ => (Err None, others d, st)
      | Ok job_id =>
          match flush_audit (staged w) (others d) with
          | (false, d) => (Err None, d, st)
          | (true, d) => (Ok (mk_dispatched job_id (h_name host) (sr_root b) (scan_mode_value (sr_mode b))), d, st)
          end
      end
  end.
End ScanNow.

(** ** The history *)

Lemma scoped_volume_ok cat f vid v :
  scoped_volume cat f vid = Ok v ↔
  get_volume vid (Catalogue.volumes cat) = Some v ∧ scope_allows f (v_host_id v) (Some (v_id v)) (Some (v_kind v)).
Proof.
  unfold scoped_volume. change (find_volume cat vid) with (get_volume vid (Catalogue.volumes cat)).
  destruct (get_volume vid (Catalogue.volumes cat)) as [w|]; [|split; [done|by intros [? _]]]. rewrite bind_ok. split.
  - intros ([] & Hc%lift_ok & [= <-]). split; [done|]. by apply check_target_allows.
  - intros ([= ->] & Hc%check_target_allows). exists (). split; [by apply lift_ok|done].
Qed.

Lemma elem_of_scans cat f vid s :
  s ∈ scans_in cat f vid ↔
  s ∈ snapshots cat ∧ wanted vid s = true ∧
  ∃ v, get_volume (sn_volume_id s) (Catalogue.volumes cat) = Some v ∧
    scope_allows f (sn_host_id s) (Some (sn_volume_id s)) (Some (v_kind v)).
Proof.
  unfold scans_in. rewrite elem_of_order_by, list_elem_of_fmap. split.
  - intros ([s' v] & -> & (Hs & Hv & [Hw Ha]%andb_true_iff)%elem_of_joined). split_and!; [done..|]. exists v. split; [done|].
    by apply apply_agrees_with_check, check_target_allows in Ha.
  - intros (Hs & Hw & v & Hv & Ha). exists (s, v). split; [done|]. apply elem_of_joined. split_and!; [done..|].
    apply andb_true_iff. split; [done|]. by apply apply_agrees_with_check, check_target_allows.
Qed.

(** The history of scans is the snapshots that some grant with the metadata capability covers by the snapshot's host and volume (a
    system volume only if it is named), of the asked volume if there is one, each once and from the newest. *)
Theorem list_scans_spec p d vid out :
  NoDup (sn_id <$> snapshots (sc_catalogue d)) →
  list_scans p d vid = Ok out →
  ∃ ss, out = snapshot_out (sc_acks d) <$> ss ∧ StronglySorted (λ a b, sn_id b < sn_id a) ss ∧
    ∀ s, s ∈ ss ↔
      s ∈ snapshots (sc_catalogue d) ∧ wanted vid s = true ∧
      ∃ v g, get_volume (sn_volume_id s) (Catalogue.volumes (sc_catalogue d)) = Some v ∧ g ∈ grants p ∧
        role_has (g_role g) VIEW_METADATA = true ∧ grant_covers g (sn_host_id s) (Some (sn_volume_id s)) (Some (v_kind v)) = true.
Proof.
  intros Hnd (_ & _ & _ & H)%route_ok. apply bind_ok in H as ([] & _ & [= <-]).
  eexists. split; [done|]. split.
  - apply order_by_newest. eapply sublist_NoDup; [exact Hnd|]. apply sublist_map.
    apply joined_sublist.
  - intros s. rewrite elem_of_scans. setoid_rewrite from_grants_allows. naive_solver.
Qed.

(** A snapshot has the host of its volume. *)
Definition snapshots_agree (cat : catalogue) : Prop :=
  ∀ s v, s ∈ snapshots cat → get_volume (sn_volume_id s) (Catalogue.volumes cat) = Some v → sn_host_id s = v_host_id v.

(** Nor does the history of scans depend on rows of volumes out of scope. *)
Theorem list_scans_noninterfering p d vid out :
  rows_agree (sc_catalogue d) → snapshots_agree (sc_catalogue d) →
  let f := from_grants (grants p) VIEW_METADATA in
  list_scans p d vid = Ok out →
  list_scans p (mk_sdb (restrict f (sc_catalogue d)) (sc_acks d)) vid = Ok out.
Proof.
  intros Hok Ha f (H1 & H2 & H3 & H)%route_ok. fold f in H2, H. apply route_ok. split_and!; [done..|]. fold f. simpl.
  set (cat := sc_catalogue d) in *. apply bind_ok in H as ([] & Hv & [= <-]). apply bind_ok. exists (). split.
  - destruct vid as [vid|]; [|done]. apply bind_ok in Hv as (v & Hv & _). apply bind_ok. exists v. split; [|done].
    apply scoped_volume_ok in Hv as [Hv Hs]. apply scoped_volume_ok. split; [|done].
    rewrite get_volume_restrict by done. unfold sees. rewrite Hv. assert (visible f v = true) as ->; [|done].
    unfold visible, scoped. by apply apply_agrees_with_check, check_target_allows.
  - do 2 f_equal. unfold scans_in. f_equal. simpl snapshots. rewrite (joined_restrict f cat Hok); [done|].
    intros s v Hs Hg [_ Hk]%andb_true_iff. rewrite <- Hk. apply (scoped_ext (Some f)); [symmetry; by apply Ha| |done].
    by apply get_volume_key in Hg as [_ ->].
Qed.

(** ** The full-bit request *)

(** A full-bit request is recorded only for a volume in the scope of the capability, with an acknowledgement of at least eight characters
    besides blanks; it appends one open snapshot with a fresh id and the acknowledgement, and changes nothing else.  A refused request
    changes nothing. *)
Theorem create_fullbit_scan_spec p b now started d r d' :
  create_fullbit_scan p b now started d = (r, d') →
  match r with
  | Err _ => d' = d
  | Ok out =>
      ∃ v g, get_volume (fs_volume_id b) (Catalogue.volumes (sc_catalogue d)) = Some v ∧ g ∈ grants p ∧
        role_has (g_role g) TRIGGER_FULLBIT_SCAN = true ∧ grant_covers g (v_host_id v) (Some (v_id v)) (Some (v_kind v)) = true ∧
        (8 ≤ String.length (strip (fs_impact_ack b)))%nat ∧
        out = mk_created (cr_snapshot_id out) (fs_volume_id b) "fullbit" ∧
        (∀ s, s ∈ snapshots (sc_catalogue d) → sn_id s ≠ cr_snapshot_id out) ∧
        sc_catalogue d' = set_snapshots (snapshots (sc_catalogue d) ++
          [mk_snapshot (cr_snapshot_id out) (v_host_id v) (fs_volume_id b) "fullbit" started None 0 0]) (sc_catalogue d) ∧
        sc_acks d' = <[cr_snapshot_id out := warning_ack p b v now]> (sc_acks d)
  end.
Proof.
  unfold create_fullbit_scan. destruct (_ ≫= _) as [v|e] eqn:E; intros [= <- <-]; [|done].
  apply bind_ok in E as (f & Hg%guard_ok & E). apply bind_ok in E as ([] & _ & E). apply bind_ok in E as (w & Hw%scoped_volume_ok & E).
  destruct (_ <? 8)%nat eqn:El; [done|]. injection E as <-. apply Nat.ltb_ge in El. destruct Hw as [Hv Hs]. subst f.
  apply from_grants_allows in Hs as (g & Hg & Hr & Hc). exists w, g. pose proof (get_volume_key _ _ _ Hv) as [_ Hid]. rewrite <- Hid.
  split_and!; try done.
  - by rewrite Hid.
  - simpl. intros s Hs. pose proof (next_id_fresh sn_id _ s Hs). lia.
Qed.

(** The stamp of a finalize closes the request as it closes the scan that the agent did make, with the totals of that scan. *)
Lemma finalize_closes_request p b now started d out d' v root t s :
  create_fullbit_scan p b now started d = (Ok out, d') →
  get_volume (fs_volume_id b) (Catalogue.volumes (sc_catalogue d)) = Some v →
  root_of (fs_volume_id b) (mountpoint v) (sc_catalogue d) = Some root →
  s = mk_snapshot (cr_snapshot_id out) (v_host_id v) (fs_volume_id b) "fullbit" started (Some t) (ro_size_on_disk root) (ro_file_count root) →
  s ∈ snapshots (_finalize_snapshot_stats (fs_volume_id b) t (sc_catalogue d')).
Proof.
  intros H Hv Hroot ->. apply create_fullbit_scan_spec in H as (w & _ & Hw & _ & _ & _ & _ & _ & _ & Ec & _).
  rewrite Hv in Hw. injection Hw as <-. unfold _finalize_snapshot_stats. rewrite Ec. cbn. rewrite Hv.
  unfold root_of in *. cbn. rewrite Hroot. cbn. unfold update_where. rewrite fmap_app. apply elem_of_app. right. cbn.
  unfold is_open. cbn. rewrite !bool_decide_true by done. left.
Qed.

(** ** The dispatch of a scan *)

Definition scan_signed (rt : RemediationRuntime) (settings : RemSettings) (host : Host) (b : ScanNowRequest) (now : datetime)
    (nonce : string) : SignedJob :=
  signer rt (DScan (_make_scan_job (remediation_job_ttl_seconds settings) now nonce (h_name host) (sr_root b) (sr_mode b))).

(** What a dispatch needs: the host, its volume mounted at the root, a grant over that volume, and the runtime. *)
Record scan_gate (p : Principal) (runtime : option RemediationRuntime) (cat : catalogue) (host_id : Z) (b : ScanNowRequest)
    (host : Host) (rt : RemediationRuntime) : Prop := {
  sg_host : host ∈ hosts cat ∧ h_id host = host_id;
  sg_volume : ∃ v g, v ∈ Catalogue.volumes cat ∧ v_host_id v = host_id ∧ mountpoint v = sr_root b ∧ g ∈ grants p ∧
    role_has (g_role g) (match sr_mode b with METADATA => TRIGGER_METADATA_SCAN | FULLBIT => TRIGGER_FULLBIT_SCAN end) = true ∧
    grant_covers g host_id (Some (v_id v)) (Some (v_kind v)) = true;
  sg_runtime : runtime = Some rt;
}.

(** No role has one of the scan capabilities without the other, so the scope of the one is the scope of the other. *)
Lemma scan_capabilities_together r : role_has r TRIGGER_METADATA_SCAN = role_has r TRIGGER_FULLBIT_SCAN.
Proof. by destruct r. Qed.

Lemma volume_at_ok cat h root v :
  volume_at cat h root = Ok v → v ∈ Catalogue.volumes cat ∧ v_host_id v = h ∧ mountpoint v = root.
Proof.
  unfold volume_at. intros H. assert (v ∈ filter (λ v, v_host_id v = h ∧ mountpoint v = root) (Catalogue.volumes cat)) as Hv.
  { destruct (filter _ _) as [|w [|? ?]]; [done| |done]. injection H as ->. left. }
  apply list_elem_of_filter in Hv. tauto.
Qed.

Lemma scan_now_inputs_ok p runtime cat host_id b host rt :
  scan_now_inputs p runtime cat host_id b = Ok (host, rt) → scan_gate p runtime cat host_id b host rt.
Proof.
  unfold scan_now_inputs. intros (f & ->%guard_ok & H)%bind_ok. apply bind_ok in H as ([] & _ & H). apply bind_ok in H as ([] & _ & H).
  destruct (find_host cat host_id) as [h|] eqn:Eh; [|done]. apply bind_ok in H as (v & Hv%volume_at_ok & H).
  apply bind_ok in H as ([] & Hc%lift_ok & H). apply bind_ok in H as (r & Hr & [= <- <-]).
  unfold find_host in Eh. apply head_Some_elem_of, list_elem_of_filter in Eh as [Eh Hin].
  apply check_target_allows, from_grants_allows in Hc as (g & Hg & Hro & Hco). destruct Hv as (Hv & Hvh & Hm). split.
  - done.
  - exists v, g. rewrite <- Eh in *. split_and!; [done..| |done]. destruct (sr_mode b); [done|]. by rewrite <- scan_capabilities_together.
  - unfold get_scan_runtime in Hr. destruct runtime; [|done]. by injection Hr as ->.
Qed.

(** Queueing never fails: a token that is still awaited after the turn of the loop times out, and so is one that was answered too early. *)
Lemma enqueue_answer jid meanwhile st s :
  _enqueue jid meanwhile st s = Ok () ∨
  _results (js_queue (meanwhile (mk_jstate (enqueue jid s (Jobs.host_id (job s)) (js_queue st)) (js_nonces st)))) !! jid = None.
Proof.
  unfold _enqueue, enqueue_and_wait, finish. set (q := js_queue (meanwhile _)).
  destruct (_results q !! jid) as [[]|]; [left; done..|by right].
Qed.

Section DispatchLaws.
Context {B : Backend} (blake3_hex : string → string).
Abbreviation audit_inv := (AuditStore.audit_inv blake3_hex).
Abbreviation scan_now := (scan_now blake3_hex).

Definition scan_recorded (p : Principal) (host : Host) (b : ScanNowRequest) (nonce : string) (rec : AuditRecord) : Prop :=
  actor rec = subject p ∧ AuditLog.action rec = "scan.dispatch" ∧ result_ rec = "enqueued" ∧
  before_state rec = [("nonce", JStr nonce); ("root", JStr (sr_root b)); ("mode", JStr (scan_mode_value (sr_mode b))); ("host", JStr (h_name host))].

Lemma then_step {A C} (m : stM orch (result OrchError A)) (k : A → stM orch (result OrchError C)) w a w1 :
  m w = (Ok a, w1) → then_ m k w = k a w1.
Proof. intros H. destruct (k a w1) as [r w'] eqn:E. apply then_run. left. eauto. Qed.

Lemma dispatch_scan_steps sign ttl now nonce by_ host root mode enq a :
  ∃ rec, let w := mk_orch (mk_chain (row_hash rec) [rec]) [sign (DScan (_make_scan_job ttl now nonce host root mode))] in
    dispatch_scan blake3_hex never_refuses sign ttl now nonce by_ host root mode enq (session_start a) =
      (match enq (sign (DScan (_make_scan_job ttl now nonce host root mode))) with Ok _ => Ok nonce | Err m => Err (DispatchError m) end, w) ∧
    verify_chain blake3_hex (load_head a) [rec] = true ∧
    actor rec = by_ ∧ AuditLog.action rec = "scan.dispatch" ∧ result_ rec = "enqueued" ∧
    before_state rec = [("nonce", JStr nonce); ("root", JStr root); ("mode", JStr (scan_mode_value mode)); ("host", JStr host)].
Proof.
  pose proof (audit_never blake3_hex now by_ "scan.dispatch" (ledger_ref (DScan (_make_scan_job ttl now nonce host root mode)))
    [("nonce", JStr nonce); ("root", JStr root); ("mode", JStr (scan_mode_value mode)); ("host", JStr host)] "enqueued" (session_start a))
    as (rec & Ea & H1 & H2 & _ & H3 & H4).
  exists rec. cbv zeta. split; [|split; [|done]].
  - unfold dispatch_scan. cbv zeta. rewrite (then_step _ _ _ _ _ Ea). unfold then_, send. cbn. by destruct (enq _).
  - by apply (keeps_audit blake3_hex never_refuses _ _ _ _ _ _ (load_head a) _ _ _ Ea).
Qed.

(** One job entered the queue of a host, at its end; the queues of the others and the ledger are as they were. *)
Definition queued_for (host jid : string) (signed : SignedJob) (st st1 : job_state) : Prop :=
  _queue_for host (js_queue st1) = _queue_for host (js_queue st) ++ [(jid, signed)] ∧
  (∀ h, h ≠ host → _queue_for h (js_queue st1) = _queue_for h (js_queue st)) ∧ js_nonces st1 = js_nonces st.

(** A dispatch queues its job, gives the loop its turn and then only stops waiting. *)
Lemma enqueue_and_wait_queues jid host meanwhile signed st :
  ∃ st1, queued_for host jid signed st st1 ∧
    let st' := (enqueue_and_wait jid host meanwhile signed st).2 in
    _queues (js_queue st') = _queues (js_queue (meanwhile st1)) ∧ js_nonces st' = js_nonces (meanwhile st1).
Proof.
  exists (mk_jstate (enqueue jid signed host (js_queue st)) (js_nonces st)). split.
  - unfold queued_for, _queue_for. cbn. split_and!; [by rewrite lookup_insert_eq| |done].
    intros h Hh. by rewrite lookup_insert_ne.
  - unfold enqueue_and_wait, finish. by destruct (_results _ !! jid).
Qed.

(** C38: A scan is dispatched only for a mount point of the named host, by a principal with a grant of the scan's capability over that
    volume (a system volume only if the grant is global or names it), and when a signing runtime is armed; one job leaves, signed for that
    host, root, mode and nonce, to the end of that host's queue and no other.  The answer is 202 exactly when its audit row is added behind
    the rows that the request saw; in any other case the table has only what the others wrote.  A refused request changes nothing.  The
    signer signs the job it is given. *)
Theorem scan_now_contained p settings runtime cat host_id b now nonce jid meanwhile others d st r d' st' :
  scan_now p settings runtime cat host_id b now nonce jid meanwhile others d st = (r, d', st') →
  (∀ rt j, runtime = Some rt → job (signer rt j) = j) →
  audit_inv (others d) → rows d `prefix_of` rows (others d) →
  (d' = d ∧ st' = st ∧ ∃ e, scan_now_inputs p runtime cat host_id b = Err e ∧ r = Err e) ∨
  ∃ host rt signed job_ st1, scan_gate p runtime cat host_id b host rt ∧
    signed = signer rt (DScan job_) ∧ job signed = DScan job_ ∧ Jobs.s_host_id job_ = h_name host ∧ Jobs.s_root job_ = sr_root b ∧
    Jobs.s_mode job_ = sr_mode b ∧ Jobs.s_nonce job_ = nonce ∧
    queued_for (h_name host) jid signed st st1 ∧
    _queues (js_queue st') = _queues (js_queue (meanwhile st1)) ∧ js_nonces st' = js_nonces (meanwhile st1) ∧
    ((r = Err None ∧ rows d' = rows (others d)) ∨
     (r = Ok (mk_dispatched nonce (h_name host) (sr_root b) (scan_mode_value (sr_mode b))) ∧ audit_inv d' ∧ rows (others d) = rows d ∧
      ∃ seq rec, rows d' = rows d ++ [(seq, rec)] ∧ scan_recorded p host b nonce rec)).
Proof.
  unfold ScanRoutes.scan_now. destruct (scan_now_inputs _ _ _ _ _) as [[host rt]|e] eqn:Ei; intros H Hsign Hinv Hpre;
    [right|left; injection H as <- <- <-; eauto].
  apply scan_now_inputs_ok in Ei as Hgate. set (signed := scan_signed rt settings host b now nonce).
  assert (job signed = DScan (_make_scan_job (remediation_job_ttl_seconds settings) now nonce (h_name host) (sr_root b) (sr_mode b))) as Hj
    by apply Hsign, Hgate.
  destruct (enqueue_and_wait_queues jid (h_name host) meanwhile signed st) as (st1 & Hq & Hq1 & Hq2).
  exists host, rt, signed, (_make_scan_job (remediation_job_ttl_seconds settings) now nonce (h_name host) (sr_root b) (sr_mode b)), st1.
  destruct (dispatch_scan_steps (signer rt) (remediation_job_ttl_seconds settings) now nonce (subject p) (h_name host) (sr_root b)
              (sr_mode b) (_enqueue jid meanwhile st) d) as (rec & Ed & Hv & Hr1 & Hr2 & Hr3 & Hr4).
  rewrite Ed in H. cbn [o_sent after_enqueue foldl] in H. change (signer rt (DScan _)) with signed in H. rewrite Hj in H.
  change (Jobs.host_id (DScan _)) with (h_name host) in H.
  assert (∀ r0 a, (r0, a, (enqueue_and_wait jid (h_name host) meanwhile signed st).2) = (r, d', st') →
    _queues (js_queue st') = _queues (js_queue (meanwhile st1)) ∧ js_nonces st' = js_nonces (meanwhile st1) ∧ r0 = r ∧ a = d') as Hst.
  { intros r0 a [= <- <- <-]. done. }
  do 8 (split; [done|]).
  destruct (_enqueue _ _ _ _) as [[]|m]; [|apply Hst in H as (? & ? & <- & <-); split_and!; [done..|by left]].
  destruct (flush_audit _ _) as [[] a] eqn:Ef; apply Hst in H as (? & ? & <- & <-); (split; [done|split; [done|]]).
  - right. apply (flush_unmoved blake3_hex _ d) in Ef as (Er & Hinv' & k & Ek & Ek2); [|done..].
    split_and!; try done. destruct k as [|[seq rec'] [|? ?]]; [done| |done]. injection Ek2 as ->. by exists seq, rec.
  - left. split; [done|]. unfold flush_audit in Ef. destruct (flush_rows _ _) as [[] ?]; [done|]. by injection Ef as <-.
Qed.
End DispatchLaws.

(** The agent with the host's certificate gets the job by a poll before it expires, if nothing was queued before it; nobody waits for its
    result, so the result it posts is refused. *)
Theorem scan_now_delivered {B : Backend} blake3_hex p settings runtime cat host_id b now nonce jid others d st out d' st' t gets payload :
  NoDup (cert_fingerprint <$> hosts cat) →
  (∀ rt j, runtime = Some rt → job (signer rt j) = j) →
  scan_now blake3_hex p settings runtime cat host_id b now nonce jid (λ st, st) others d st = (Ok out, d', st') →
  _queue_for (di_host out) (js_queue st) = [] → (0 < gets)%nat →
  instant t < instant now + seconds (remediation_job_ttl_seconds settings) →
  ∃ host signed st'', host ∈ hosts cat ∧ h_name host = di_host out ∧
    job signed = DScan (_make_scan_job (remediation_job_ttl_seconds settings) now nonce (di_host out) (sr_root b) (sr_mode b)) ∧
    poll_job (hosts cat) gets (cert_fingerprint host) t st' = (Ok (Some (jid, signed)), st'') ∧
    (payload_ok payload = true → job_id payload = jid →
     submit_job_result (hosts cat) (cert_fingerprint host) jid payload (js_queue st'') st'' = (no_dispatch, st'')).
Proof.
  intros Hfp Hsign H Hq Hgets Ht. unfold ScanRoutes.scan_now in H.
  destruct (scan_now_inputs _ _ _ _ _) as [[host rt]|e] eqn:Ei; [|done]. apply scan_now_inputs_ok in Ei as [[Hh _] _ Hrt].
  destruct (dispatch_scan_steps blake3_hex (signer rt) (remediation_job_ttl_seconds settings) now nonce (subject p) (h_name host) (sr_root b)
              (sr_mode b) (_enqueue jid (λ st, st) st) d) as (rec & Ed & _).
  rewrite Ed in H. cbn [o_sent after_enqueue foldl] in H. set (signed := signer rt _) in *.
  assert (job signed = DScan (_make_scan_job (remediation_job_ttl_seconds settings) now nonce (h_name host) (sr_root b) (sr_mode b))) as Hj
    by (by apply Hsign).
  destruct (_enqueue _ _ _ _) as [u|]; [|done]. destruct (flush_audit _ _) as [[] a0]; [|done]. injection H as <- _ <-. cbn in Hq |- *.
  unfold enqueue_and_wait. rewrite Hj. cbn [Jobs.host_id _make_scan_job s_host_id js_queue js_nonces].
  unfold finish. cbn. rewrite lookup_insert_eq. cbn.
  assert (host_of (hosts cat) (cert_fingerprint host) = Ok (h_name host)) as Hof.
  { unfold host_of, PreviewPull._resolve_host_name. by rewrite (filter_unique cert_fingerprint (hosts cat) host Hfp Hh). }
  eexists host, signed, _. split_and!; [done..| |].
  - unfold poll_job. rewrite Hof. destruct gets as [|n]; [lia|]. cbn [poll js_queue]. unfold _queue_for at 1. cbn.
    rewrite lookup_insert_eq, Hq. cbn. unfold _expired. rewrite Hj, instant_as_utc. cbn. rewrite instant_add.
    destruct (Z.leb_spec (instant now + seconds (remediation_job_ttl_seconds settings)) (instant t)); [lia|]. done.
  - intros Hp Hid. unfold submit_job_result, submit_guards. rewrite Hof, Hp, Hid. cbn. rewrite (bool_decide_true (jid = jid)) by done. cbn.
    unfold owner_of. cbn. rewrite lookup_delete_eq, bool_decide_false by done. done.
Qed.

(** ** Witnesses *)

Definition scan_reader (cap_role : Role) : Principal := rem_principal (Rbac.mk_grant cap_role KHost (Some 1) None).

Definition scan_try (others : audit_db → audit_db) (root : string) :=
  scan_now (B := false) demo_hash (scan_reader OPERATOR) rem_settings (Some (rem_runtime (Ok demo_outcome))) (es_catalogue (rem_estate [])) 1
    (mk_scan_now root FULLBIT) (at_second 5) "n1" "j1" (λ st, st) others empty_db empty_jstate.

Example scan_out_of_scope : (scan_try (λ d, d) "/").1.1 = http 403 "system volume out of scope".
Proof. vm_compute. reflexivity. Qed.

Lemma scan_now_contained_witness :
  ∃ host rt, scan_gate (scan_reader OPERATOR) (Some (rem_runtime (Ok demo_outcome))) (es_catalogue (rem_estate [])) 1 (mk_scan_now "/data" FULLBIT)
    host rt ∧ (scan_try (λ d, d) "/data").1.1 = Ok (mk_dispatched "n1" "nas" "/data" "fullbit").
Proof.
  assert ((scan_try (λ d, d) "/data").1.1 = Ok (mk_dispatched "n1" "nas" "/data" "fullbit")) as Hr by (vm_compute; reflexivity).
  destruct (scan_try (λ d, d) "/data") as [[r d'] st'] eqn:E. cbn in Hr. subst r.
  destruct (scan_now_contained (B := false) demo_hash _ _ _ _ _ _ _ _ _ _ _ _ _ _ d' st' E) as [(_ & _ & e & _ & [=])|(host & rt & signed & j & st1 & Hg & _)].
  - intros rt j [= <-]. reflexivity.
  - split; cbn; try done; constructor.
  - exists []. reflexivity.
  - exists host, rt. split; [exact Hg|reflexivity].
Defined.

(** ** What the routes do not promise *)

(** Another audit row between the request's read of the head and its flush: the caller gets an error and the audit knows nothing of it, yet
    the signed job is in the queue of the host and its next poll claims it. *)
Lemma unaudited_scan_is_dispatched :
  let others (d : audit_db) := (insert_row (B := false)
    (chained demo_hash (mk_content "t" "bob" "auth.login" "bob" [] "ok") (load_head d)) d).2 in
  let '(r, d', st') := scan_try others "/data" in
  r = Err None ∧ AuditLog.action <$> (rows d').*2 = ["auth.login"] ∧
  (∃ signed, (poll 1 "nas" (at_second 6) (js_queue st')).1 = Some ("j1", signed)).
Proof. vm_compute. split_and!; [done..|]. eexists. reflexivity. Qed.
