(* ===== verification/Adapters.v ===== *)
(** Platform adapters ([src/fathom/adapters/]): the frames, the suggestion of a platform, the connection settings with their SSRF policy,
    the registry, the bridge into the resync guard of full-bit scans, and the generic Linux adapter, which reads [/proc/mdstat],
    [zpool status] and [lsblk].

    What a command printed is an argument, [None] when it could not be run; JSON that was printed is its parsed document ([Some None]: it
    does not parse).  The adapter over TrueNAS is in TrueNas. *)

From stdpp Require Import pretty.
From S2P Require Import Prelude PyStr PyInt PyDict Json PyUrl Supervisor.

Local Open Scope Z_scope.

(** ** [base.py] *)

(** The exceptions of an adapter call: the two [AdapterError]s, an [OSError], and those that malformed data provoke. *)
Inductive exc := AdapterUnavailableError | AdapterAuthError | OSError | AttributeError | TypeError | ValueError | KeyError.

Definition exc_eq_dec : EqDecision exc.
Proof. solve_decision. Defined.
#[export] Existing Instance exc_eq_dec.

Definition is_adapter_error (e : exc) : bool := match e with AdapterUnavailableError | AdapterAuthError => true | _ => false end.

Record DiskInfo := mk_disk {
  d_name : string; d_transport : string; d_size : Z; d_rotational : bool; d_smart_status : option string; d_pool_or_array : option string;
}.

Record PoolInfo := mk_pool {
  p_name : string; p_raid_level : option string; p_members : list string; p_resyncing : bool; p_total : Z; p_used : Z; p_free : Z;
}.

(** The bounds of the fields: a frame out of them is a ValidationError. *)
Definition disk_frame (d : DiskInfo) : result exc DiskInfo := if 0 <=? d_size d then Ok d else Err ValueError.
Definition pool_frame (p : PoolInfo) : result exc PoolInfo :=
  if (0 <=? p_total p) && (0 <=? p_used p) && (0 <=? p_free p) then Ok p else Err ValueError.

Record CapabilityManifest := mk_manifest { cm_platform : string; api_available : bool; provides : list string; cm_api_version : option string }.

(** ** [discovery.py] *)

Inductive PlatformClass := TRUENAS | SYNOLOGY | QNAP | UNRAID | GENERIC_LINUX | GENERIC_WINDOWS.

Definition PlatformClass_eq_dec : EqDecision PlatformClass.
Proof. solve_decision. Defined.
#[export] Existing Instance PlatformClass_eq_dec.

Definition platform_value (p : PlatformClass) : string :=
  match p with
  | TRUENAS => "truenas" | SYNOLOGY => "synology" | QNAP => "qnap" | UNRAID => "unraid" | GENERIC_LINUX => "generic-linux"
  | GENERIC_WINDOWS => "generic-windows"
  end.

Record ProbeSignals := mk_signals { version_banner : option string; api_endpoint_reachable : bool; os_family : option string }.

Definition suggest_platform (s : ProbeSignals) : option PlatformClass :=
  let banner := lower (default "" (version_banner s)) in
  if contains "truenas" banner then Some TRUENAS
  else if contains "synology" banner || contains "dsm" banner then Some SYNOLOGY
  else if contains "qnap" banner || contains "qts" banner then Some QNAP
  else if contains "unraid" banner then Some UNRAID
  else
    let os := lower (default "" (os_family s)) in
    if bool_decide (os = "windows") then Some GENERIC_WINDOWS
    else if bool_decide (os = "linux") then Some GENERIC_LINUX
    else None.

(** ** [ipaddress]: IPv6 *)

Fixpoint hextet_value (acc : Z) (s : string) : option Z :=
  match s with
  | "" => Some acc
  | String c s => match hex_value c with Some n => hextet_value (acc * 16 + Z.of_N n) s | None => None end
  end.

Definition _parse_hextet (s : string) : option Z := if (4 <? String.length s)%nat then None else hextet_value 0 s.

(** A dotted quad: decimal octets without a leading zero. *)
Definition _parse_octet (s : string) : option Z :=
  if bool_decide (s = "") || negb (s_all is_digit s) || (3 <? String.length s)%nat then None
  else if startswith "0" s && (1 <? String.length s)%nat then None
  else if 255 <? int_of_digits s then None else Some (int_of_digits s).

Definition ipv4_int (s : string) : option Z :=
  match mapM _parse_octet (split_char "." s) with
  | Some [a; b; c; d] => Some (((a * 256 + b) * 256 + c) * 256 + d)
  | _ => None
  end.

(** The positions of the empty parts but the first and the last. *)
Definition inner_empty (parts : list string) : list nat :=
  filter (λ i, parts !! i = Some "") (seq 1 (length parts - 2)).

Definition hextets (parts : list string) : option Z :=
  foldl (λ acc p, match acc, p with Some a, Some x => Some (a * 65536 + x) | _, _ => None end) (Some 0) (_parse_hextet <$> parts).

(** The parts of an address: an IPv4 tail counts for two. *)
Definition ip_parts (s : string) : option (list string) :=
  let parts := split_char ":" s in
  if (length parts <? 3)%nat then None
  else match last parts with
       | Some t =>
           if has_char "." t then
             match ipv4_int t with
             | Some v => let two n := String.concat "" [hex (String (ascii_of_N (Z.to_N (n / 256))) (String (ascii_of_N (Z.to_N (n mod 256))) ""))] in
                         Some (take (length parts - 1) parts ++ [two (v / 65536); two (v mod 65536)])
             | None => None
             end
           else Some parts
       | None => None
       end.

(** [_ip_int_from_string]. *)
Definition _ip_int_from_string (s : string) : option Z :=
  parts ← ip_parts s;
  if (9 <? length parts)%nat then None
  else match inner_empty parts with
       | [] =>
           if negb (bool_decide (length parts = 8%nat)) || bool_decide (head parts = Some "") || bool_decide (last parts = Some "") then None
           else hextets parts
       | [i] =>
           let n := length parts in
           let hi := if bool_decide (head parts = Some "") then (i - 1)%nat else i in
           let lo := if bool_decide (last parts = Some "") then (n - i - 1 - 1)%nat else (n - i - 1)%nat in
           if bool_decide (head parts = Some "") && negb (bool_decide (hi = 0%nat)) then None
           else if bool_decide (last parts = Some "") && negb (bool_decide (lo = 0%nat)) then None
           else if (8 - (Z.of_nat hi + Z.of_nat lo) <? 1) then None
           else
             a ← hextets (take hi parts);
             b ← hextets (drop (n - lo) parts);
             Some (a * 65536 ^ (8 - Z.of_nat hi) + b)
       | _ => None
       end.

Example ip_ex1 : _ip_int_from_string "fd00:ec2::254" = Some 0xfd000ec2000000000000000000000254. Proof. vm_compute. reflexivity. Qed.
Example ip_ex2 : _ip_int_from_string "::ffff:169.254.169.254" = Some 0xffffa9fea9fe. Proof. vm_compute. reflexivity. Qed.
Example ip_ex3 : _ip_int_from_string "FD00:0EC2:0:0:0:0:0:254" = Some 0xfd000ec2000000000000000000000254. Proof. vm_compute. reflexivity. Qed.
Example ip_ex4 : _ip_int_from_string "1::2::3" = None. Proof. vm_compute. reflexivity. Qed.
Example ip_ex5 : _ip_int_from_string "::" = Some 0. Proof. vm_compute. reflexivity. Qed.
Example ip_ex6 : _ip_int_from_string "1:2:3:4:5:6:7::" = Some 0x00010002000300040005000600070000. Proof. vm_compute. reflexivity. Qed.

(** ** [config.py] *)

Definition _BLOCKED_METADATA_IPS : list string := ["169.254.169.254"; "fd00:ec2::254"; "100.100.100.200"].
Definition _SECURE_SCHEMES : list string := ["wss"; "unix"].
Definition _ALL_SCHEMES : list string := ["wss"; "ws"; "unix"].

(** A literal address; [str] of an IPv4 address is what was parsed, of an IPv6 address its compressed form. *)
Definition _is_metadata_ip (host : string) : bool :=
  bool_decide (host ∈ _BLOCKED_METADATA_IPS) || bool_decide (_ip_int_from_string host = Some 0xfd000ec2000000000000000000000254).

Record AdapterConfig := mk_adapter {
  ac_platform : PlatformClass; endpoint : string; ac_api_version : string; verify_ssl : bool; api_key_ref : option string;
  lab_insecure : bool; endpoint_allowlist : list string;
}.

Section Endpoint.
Context (bracketed_host_ok nfkc_ok : string → bool).
Abbreviation urlsplit := (urlsplit bracketed_host_ok nfkc_ok).

(** [_endpoint_host] of a parsed endpoint. *)
Definition _endpoint_host (p : SplitResult) : option string :=
  if bool_decide (u_scheme p = "unix") then None else hostname (u_netloc p).

Definition assert_endpoint_allowed (p : SplitResult) (allowlist : list string) : bool :=
  match _endpoint_host p with
  | None => true
  | Some host => negb (_is_metadata_ip host) && bool_decide (host ∈ allowlist)
  end.

(** The validators of the model: whether a configuration is accepted. *)
Definition adapter_ok (c : AdapterConfig) : bool :=
  negb (bool_decide (endpoint c = "")) &&
  match urlsplit (endpoint c) with
  | None => false
  | Some p =>
      bool_decide (u_scheme p ∈ _ALL_SCHEMES) &&
      (lab_insecure c || (verify_ssl c && bool_decide (u_scheme p ∈ _SECURE_SCHEMES))) &&
      assert_endpoint_allowed p (endpoint_allowlist c)
  end.
End Endpoint.

(** ** [registry.py] *)

Notation registry A := (list (PlatformClass * A)).
Definition register {A} (platform : PlatformClass) (adapter : A) (r : registry A) : registry A := r ++ [(platform, adapter)].
Definition resolve {A} (platform : PlatformClass) (r : registry A) : option A :=
  snd <$> head (filter (λ x, x.1 = platform) r).

(** ** [resync.py] *)

(** What the provider answers, from what [is_array_healthy] returned or raised. *)
Definition adapter_resync_provider (healthy : result exc bool) : result exc bool :=
  match healthy with
  | Ok h => Ok (negb h)
  | Err e => if is_adapter_error e then Ok true else Err e
  end.

(** ** [generic_linux.py] *)

Definition _GENERIC_PROVIDES : list string := ["pools"; "disks"; "usage"; "topology"].
Definition _TRANSPORT_MAP : list (string * string) := [("nvme", "nvme"); ("sata", "sata"); ("ata", "sata"); ("sas", "sas"); ("usb", "usb")].

Definition coerce_transport (known : list (string * string)) (raw : json) : string :=
  match raw with JStr s => default "unknown" (dict_get (lower s) known) | _ => "unknown" end.

(** [str.isalpha] on one code point below 256. *)
Definition letter (c : ascii) : bool :=
  is_alpha c || existsb (Z.eqb (code c)) [170; 181; 186] ||
  ((192 <=? code c) && negb (code c =? 215) && negb (code c =? 247)).

Definition nonspace (c : ascii) : bool := negb (is_space c).

(** The longest run of characters in a class, and the rest. *)
Definition span (P : ascii → bool) (s : string) : string * string := break_at (λ c, negb (P c)) s.

Definition strip_prefix (p s : string) : option string := if startswith p s then Some (drop_s (String.length p) s) else None.

(** A run of at least one character. *)
Definition span1 (P : ascii → bool) (s : string) : option (string * string) :=
  match span P s with ("", _) => None | r => Some r end.

(** [re.match(r"^(md\d+)\s*:\s*active\s+(\S+)\s+(.*)$", line)]. *)
Definition md_line (line : string) : option (string * string * string) :=
  s ← strip_prefix "md" line;
  '(digits, s) ← span1 is_digit s;
  s ← strip_prefix ":" (lstrip_by is_space s);
  s ← strip_prefix "active" (lstrip_by is_space s);
  '(_, s) ← span1 is_space s;
  '(level, s) ← span1 nonspace s;
  '(_, rest) ← span1 is_space s;
  Some ("md" +:+ digits, level, rest).

Definition md_member (tok : string) : option string :=
  match tok with String c _ => if letter c then Some (PyUrl.partition "[" tok).1.1 else None | "" => None end.

Fixpoint _parse_mdstat_lines (lines : list string) : list PoolInfo :=
  match lines with
  | [] => []
  | line :: rest =>
      match md_line line with
      | None => _parse_mdstat_lines rest
      | Some (name, level, members) =>
          let window := lower (PyStr.join " " (take 3 (line :: rest))) in
          mk_pool name (Some level) (omap md_member (words members)) (existsb (λ m, contains m window) _RESYNC_MARKERS) 0 0 0
            :: _parse_mdstat_lines rest
      end
  end.

Definition _parse_mdstat (text : string) : list PoolInfo := _parse_mdstat_lines (splitlines text).

(** [re.match(r"^\s*pool:\s+(\S+)", line)]. *)
Definition pool_line (line : string) : option string :=
  s ← strip_prefix "pool:" (lstrip_by is_space line);
  '(_, s) ← span1 is_space s;
  fst <$> span1 nonspace s.

Definition zpool (name : string) (resyncing : bool) : PoolInfo := mk_pool name None [] resyncing 0 0 0.

(** The loop: the pool being read and whether it resilvers. *)
Fixpoint zpool_loop (current : option (string * bool)) (lines : list string) : list PoolInfo :=
  match lines with
  | [] => match current with Some (n, r) => [zpool n r] | None => [] end
  | line :: rest =>
      match pool_line line with
      | Some n => match current with Some (m, r) => [zpool m r] | None => [] end ++ zpool_loop (Some (n, false)) rest
      | None =>
          zpool_loop (match current with
                      | Some (n, r) => Some (n, r || contains "resilver in progress" (lower line))
                      | None => None end) rest
      end
  end.

Definition _parse_zpool_status (text : string) : list PoolInfo := zpool_loop None (splitlines text).

(** One reading of the host. *)
Record reading := mk_reading { mdstat : option string; zpool_status : option string }.

Definition list_pools (r : reading) : list PoolInfo :=
  _parse_mdstat (default "" (mdstat r)) ++
  match zpool_status r with Some out => if bool_decide (out = "") then [] else _parse_zpool_status out | None => [] end.

(** The two calls of [list_pools] read the host twice. *)
Definition is_array_healthy (pool : string) (r1 r2 : reading) : bool :=
  match head (filter (λ i, p_name i = pool) (list_pools r1)) with
  | Some i => negb (p_resyncing i)
  | None => match list_pools r2 with [] => true | _ => false end
  end.

Definition probe : CapabilityManifest := mk_manifest (platform_value GENERIC_LINUX) false _GENERIC_PROVIDES None.

(** *** Values of a parsed document *)

Definition truthy (v : json) : bool :=
  match v with
  | JNull => false | JBool b => b | JInt z => negb (z =? 0) | JStr s => negb (bool_decide (s = ""))
  | JList l => negb (bool_decide (l = [])) | JObj fs => match fs with [] => false | _ => true end
  end.

(** [v.get(k, d)], [v or w], [for x in v], [int(v)]. *)
Definition get (k : string) (d v : json) : result exc json :=
  match v with JObj fs => Ok (default d (dict_get k fs)) | _ => Err AttributeError end.
Definition or_else (v w : json) : json := if truthy v then v else w.
Definition iter (v : json) : result exc (list json) :=
  match v with
  | JList l => Ok l
  | JObj fs => Ok ((λ kv : string * json, JStr kv.1) <$> fs)
  | JStr s => Ok ((λ c, JStr (String c "")) <$> String.list_ascii_of_string s)
  | _ => Err TypeError
  end.
Definition int_of (v : json) : result exc Z :=
  match v with
  | JInt z => Ok z
  | JBool b => Ok (if b then 1 else 0)
  | JStr s => match py_int s with Some z => Ok z | None => Err ValueError end
  | _ => Err TypeError
  end.

Fixpoint collect {A} (f : json → result exc (option A)) (l : list json) : result exc (list A) :=
  match l with
  | [] => Ok []
  | x :: l => o ← f x; out ← collect f l; Ok (match o with Some y => y :: out | None => out end)
  end.

Section Disks.
(** [str()] of a list or a dict. *)
Context (repr : json → string).

Definition str_of (v : json) : string :=
  match v with
  | JNull => "None" | JBool b => if b then "True" else "False" | JInt z => pretty z | JStr s => s | _ => repr v
  end.

Definition lsblk_disk (dev : json) : result exc (option DiskInfo) :=
  type ← get "type" JNull dev;
  if negb (bool_decide (type = JStr "disk")) then Ok None
  else
    name ← get "name" (JStr "") dev;
    tran ← get "tran" JNull dev;
    size ← get "size" (JInt 0) dev;
    n ← int_of (or_else size (JInt 0));
    rota ← get "rota" JNull dev;
    d ← disk_frame (mk_disk (str_of name) (coerce_transport _TRANSPORT_MAP tran) n (truthy rota) None None);
    Ok (Some d).

Definition list_disks (lsblk : option (option json)) : result exc (list DiskInfo) :=
  match lsblk with
  | None | Some None => Ok []
  | Some (Some doc) =>
      devices ← get "blockdevices" (JList []) doc;
      devs ← iter (or_else devices (JList []));
      collect lsblk_disk devs
  end.
End Disks.

(** ** The guard of full-bit scans *)

(** With the rule on, a full-bit scan under an adapter is let through only after the adapter has said that the array is healthy; an
    adapter error blocks it. *)
Theorem adapter_guard_fails_closed throttle healthy b :
  block_fullbit_during_raid_resync (hard_rules throttle) = true →
  adapter_resync_provider healthy = Ok b →
  should_block_fullbit_async throttle (AsyncResync b) = false ↔ healthy = Ok true.
Proof.
  intros Hr Hp. unfold should_block_fullbit_async. rewrite Hr. simpl. destruct healthy as [h|e]; simpl in Hp.
  - injection Hp as <-. destruct h; simpl; split; by intros [=].
  - destruct (is_adapter_error e); [|done]. injection Hp as <-. split; by intros [=].
Qed.

Lemma adapter_guard_fails_closed_witness :
  ∃ t, block_fullbit_during_raid_resync (hard_rules t) = true ∧ should_block_fullbit_async t (AsyncResync true) = true.
Proof.
  exists (mk_throttle (mk_pause 4 30) (mk_resume 2) (mk_hard true)). split; [reflexivity|].
  destruct (should_block_fullbit_async _ _) eqn:E; [reflexivity|].
  apply (adapter_guard_fails_closed _ (Err AdapterUnavailableError)) in E; [discriminate E|reflexivity|reflexivity].
Defined.

(** *** [zpool status]

    The text is a preamble and one block per pool: a line that names it, and lines that name none. *)
Record zblock := mk_zblock { z_header : string; z_name : string; z_body : list string }.

Definition zblock_ok (b : zblock) : Prop := pool_line (z_header b) = Some (z_name b) ∧ Forall (λ l, pool_line l = None) (z_body b).
Definition resilvers (lines : list string) : bool := existsb (λ l, contains "resilver in progress" (lower l)) lines.

Lemma zpool_loop_body cur body rest :
  Forall (λ l, pool_line l = None) body →
  zpool_loop cur (body ++ rest) = zpool_loop (match cur with Some (n, r) => Some (n, r || resilvers body) | None => None end) rest.
Proof.
  intros Hb. revert cur. induction Hb as [|l body Hl _ IH]; intros cur; simpl.
  - by destruct cur as [[n r]|]; rewrite ?orb_false_r.
  - rewrite Hl, IH. destruct cur as [[n r]|]; [|done]. by rewrite orb_assoc.
Qed.

Lemma zpool_loop_blocks cur bs :
  Forall zblock_ok bs →
  zpool_loop cur (bs ≫= λ b, z_header b :: z_body b) =
  match cur with Some (n, r) => [zpool n r] | None => [] end ++ ((λ b, zpool (z_name b) (resilvers (z_body b))) <$> bs).
Proof.
  intros Hb. revert cur. induction Hb as [|b bs [Hh Hbody] _ IH]; intros cur.
  - simpl. by rewrite app_nil_r.
  - rewrite bind_cons. cbn [app zpool_loop]. rewrite Hh, zpool_loop_body, IH by done. by rewrite fmap_cons.
Qed.

(** The parser reports every pool in order, resyncing exactly when its own block says "resilver in progress". *)
Theorem zpool_status_spec preamble bs text :
  splitlines text = preamble ++ (bs ≫= λ b, z_header b :: z_body b) →
  Forall (λ l, pool_line l = None) preamble → Forall zblock_ok bs →
  _parse_zpool_status text = (λ b, zpool (z_name b) (resilvers (z_body b))) <$> bs.
Proof.
  intros Ht Hp Hb. unfold _parse_zpool_status. rewrite Ht, zpool_loop_body by done. by rewrite (zpool_loop_blocks None).
Qed.

Definition zpool_text : string :=
  PyStr.join (String "010" "") ["  pool: tank"; " state: ONLINE"; "  scan: resilver in progress since Sun Jul  7"; "config:"; "";
                                "  pool: boot-pool"; " state: DEGRADED"; "  scan: scrub repaired 0B"].

Lemma zpool_status_spec_witness : _parse_zpool_status zpool_text = [zpool "tank" true; zpool "boot-pool" false].
Proof.
  rewrite (zpool_status_spec [] [mk_zblock "  pool: tank" "tank" [" state: ONLINE"; "  scan: resilver in progress since Sun Jul  7"; "config:"; ""];
                           mk_zblock "  pool: boot-pool" "boot-pool" [" state: DEGRADED"; "  scan: scrub repaired 0B"]]).
  - vm_compute. reflexivity.
  - vm_compute. reflexivity.
  - constructor.
  - repeat constructor.
Defined.

(** *** [/proc/mdstat] *)

(** An array is resyncing when one of the markers stands in its line or the two after it: the array of a rebuild is found. *)
Theorem mdstat_spec before line rest name level members text :
  splitlines text = before ++ line :: rest → md_line line = Some (name, level, members) →
  ∃ p, p ∈ _parse_mdstat text ∧ p_name p = name ∧ p_members p = omap md_member (words members) ∧
    p_resyncing p = existsb (λ m, contains m (lower (PyStr.join " " (take 3 (line :: rest))))) _RESYNC_MARKERS.
Proof.
  intros Ht Hl. unfold _parse_mdstat. rewrite Ht. clear Ht. induction before as [|l before IH].
  - cbn [app _parse_mdstat_lines]. rewrite Hl. eexists. split; [left|done].
  - destruct IH as (p & Hp & Hrest). exists p. split; [|done]. cbn [app _parse_mdstat_lines]. destruct (md_line l) as [[[n lv] ms]|]; [by right|done].
Qed.

Definition md_text : string :=
  PyStr.join (String "010" "") ["Personalities : [raid1] [raid6] [raid5]"; "md127 : active raid5 sdc1[2] sdb1[1] sda1[0](F)";
    "      3906764800 blocks super 1.2 level 5"; "      [==>..................]  recovery = 12.6% (37043392/292945152)"; "";
    "md1 : active raid1 nvme0n1p2[0] nvme1n1p2[1]"; "      102400 blocks [2/2] [UU]"; ""; "unused devices: <none>"].

Example md_example : (λ p, (p_name p, p_members p, p_resyncing p)) <$> _parse_mdstat md_text =
  [("md127", ["sdc1"; "sdb1"; "sda1"], true); ("md1", ["nvme0n1p2"; "nvme1n1p2"], false)].
Proof. vm_compute. reflexivity. Qed.

Lemma mdstat_spec_witness : ∃ p, p ∈ _parse_mdstat md_text ∧ p_name p = "md127" ∧ p_resyncing p = true.
Proof.
  destruct (mdstat_spec ["Personalities : [raid1] [raid6] [raid5]"] "md127 : active raid5 sdc1[2] sdb1[1] sda1[0](F)"
    ["      3906764800 blocks super 1.2 level 5"; "      [==>..................]  recovery = 12.6% (37043392/292945152)"; "";
     "md1 : active raid1 nvme0n1p2[0] nvme1n1p2[1]"; "      102400 blocks [2/2] [UU]"; ""; "unused devices: <none>"]
    "md127" "raid5" "sdc1[2] sdb1[1] sda1[0](F)" md_text) as (p & Hp & Hn & _ & Hr).
  - vm_compute. reflexivity.
  - vm_compute. reflexivity.
  - exists p. split; [exact Hp|]. split; [exact Hn|]. rewrite Hr. vm_compute. reflexivity.
Defined.

(** *** What the generic adapter says of a pool *)

(** It calls a pool healthy when the pool is listed and not resyncing, or when there is nothing listed at all. *)
Theorem generic_health_spec pool r1 r2 :
  is_array_healthy pool r1 r2 = true ↔
  (∃ i, head (filter (λ i, p_name i = pool) (list_pools r1)) = Some i ∧ p_resyncing i = false) ∨
  ((∀ i, i ∈ list_pools r1 → p_name i ≠ pool) ∧ list_pools r2 = []).
Proof.
  unfold is_array_healthy. destruct (filter _ (list_pools r1)) as [|i k] eqn:Ef; simpl.
  - assert (∀ i, i ∈ list_pools r1 → p_name i ≠ pool) as Hno.
    { intros i Hi Hp. assert (i ∈ filter (λ i, p_name i = pool) (list_pools r1)) as Hin by (by apply list_elem_of_filter).
      rewrite Ef in Hin. by apply elem_of_nil in Hin. }
    destruct (list_pools r2); split; try done.
    + intros _. by right.
    + intros [(i & [=] & _)|[_ [=]]].
  - rewrite negb_true_iff. split; [intros H; left; by exists i|]. intros [(j & [= <-] & H)|[Hno _]]; [done|].
    assert (i ∈ filter (λ i, p_name i = pool) (list_pools r1)) as [Hp Hi]%list_elem_of_filter by (rewrite Ef; left). by apply Hno in Hi.
Qed.

(** Nothing listed is also what a host looks like whose tools and [/proc/mdstat] cannot be read: every pool is healthy there, where the
    default provider of the supervisor blocks. *)
Lemma unreadable_host_is_healthy pool :
  let unreadable := mk_reading None None in
  is_array_healthy pool unreadable unreadable = true ∧
  adapter_resync_provider (Ok (is_array_healthy pool unreadable unreadable)) = Ok false ∧ _default_resync (mdstat unreadable) = true.
Proof. done. Qed.

(** ** The endpoint of an adapter *)

(** An accepted configuration has a known scheme, verified transport unless it is a lab's, and a host that is on the allowlist, if it has
    one, and none of the metadata addresses. *)
Theorem adapter_ok_spec bracketed nfkc c :
  adapter_ok bracketed nfkc c = true ↔
  endpoint c ≠ "" ∧ ∃ p, urlsplit bracketed nfkc (endpoint c) = Some p ∧ u_scheme p ∈ _ALL_SCHEMES ∧
    (lab_insecure c = true ∨ (verify_ssl c = true ∧ u_scheme p ∈ _SECURE_SCHEMES)) ∧
    ∀ host, _endpoint_host p = Some host → host ∈ endpoint_allowlist c ∧ _is_metadata_ip host = false.
Proof.
  unfold adapter_ok. rewrite andb_true_iff, negb_true_iff, bool_decide_eq_false.
  destruct (urlsplit bracketed nfkc (endpoint c)) as [p|]; [|naive_solver].
  unfold assert_endpoint_allowed. rewrite !andb_true_iff, orb_true_iff, andb_true_iff, !bool_decide_eq_true. split.
  - intros (? & [? ?] & Ha). split; [done|]. exists p. split_and!; [done..|]. intros host Hh. rewrite Hh in Ha.
    by apply andb_true_iff in Ha as [Hm%negb_true_iff Hin%bool_decide_eq_true].
  - intros (? & p' & [= <-] & ? & ? & Ha). split_and!; [done..|]. destruct (_endpoint_host p) as [host|]; [|done].
    destruct (Ha host eq_refl) as [Hin Hm]. apply andb_true_iff. by rewrite negb_true_iff, bool_decide_eq_true.
Qed.

(** Every spelling of the IPv6 address is recognised; of the IPv4 ones only their own. *)
Theorem metadata_spellings host :
  _is_metadata_ip host = true ↔
  host ∈ _BLOCKED_METADATA_IPS ∨ _ip_int_from_string host = Some 0xfd000ec2000000000000000000000254.
Proof. unfold _is_metadata_ip. by rewrite orb_true_iff, !bool_decide_eq_true. Qed.

(** So the metadata service behind its IPv4-mapped address is let through once it is on the allowlist; and a host that the allowlist spells
    with a capital is refused, since the host of a URL is lower case. *)
Lemma endpoint_policy_edges :
  let ok endpoint host := adapter_ok (λ _, true) (λ _, true) (mk_adapter TRUENAS endpoint "v25.10" true (Some "ref") false [host]) in
  ok "wss://169.254.169.254/api" "169.254.169.254" = false ∧ ok "wss://[fd00:0ec2:0::0254]/api" "fd00:0ec2:0::0254" = false ∧
  ok "wss://[::ffff:169.254.169.254]/api" "::ffff:169.254.169.254" = true ∧
  ok "wss://169.254.169.254./api" "169.254.169.254." = true ∧
  ok "wss://NAS.local/api" "NAS.local" = false ∧ ok "wss://NAS.local/api" "nas.local" = true ∧ ok "ws://nas.local/api" "nas.local" = false.
Proof. vm_compute. done. Qed.

(** ** The registry *)

(** The adapter that was registered first for a class is the one in use, whatever is registered later. *)
Theorem resolve_first_registered {A} (r : registry A) platform adapter p a :
  resolve p (register platform adapter r) = Some a ↔
  resolve p r = Some a ∨ (resolve p r = None ∧ p = platform ∧ a = adapter).
Proof.
  unfold resolve, register. rewrite filter_app, filter_cons. destruct (filter _ r) as [|x k]; simpl; [|naive_solver].
  case_decide; simpl; naive_solver.
Qed.
