(* ===== verification/TrueNas.v ===== *)
(** The TrueNAS adapter ([src/fathom/adapters/truenas.py]) over its JSON-RPC client ([adapters/jsonrpc.py]): one session that is opened,
    authenticated and reconnected, the calls with their correlation of answers, and the mapping of the answers to frames.

    The transport is a parameter: what connecting, sending and receiving do to a world, and what they raise.  A received frame is its
    parsed document ([None]: not JSON).  The state keeps the traffic, requests handed over and frames heard, in its order.  A wait for a frame
    that never comes is cut off after [frames] frames and shows as [Waiting]. *)

From S2P Require Import Prelude PyStr PyDict Json PyUrl Supervisor Adapters.

Local Open Scope Z_scope.

Inductive stop := Raised (e : exc) | Waiting.

(** One request: its id, method and parameters. *)
Record request := mk_request { rq_id : Z; rq_method : string; rq_params : json }.

Inductive event := Sent (q : request) | Heard (frame : option json).

Record Transport (W : Type) := mk_transport {
  tr_connect : W → result exc () * W;
  tr_send : request → W → result exc () * W;
  tr_recv : W → result exc (option json) * W;
  tr_close : W → result exc () * W;
}.
Arguments tr_connect {W}. Arguments tr_send {W}. Arguments tr_recv {W}. Arguments tr_close {W}.

(** The client, the two flags of the adapter, and the traffic. *)
Record session (W : Type) := mk_session {
  world : W; next_request : Z; connected : bool; reauthenticating : bool;
  has_client : bool; authenticated : bool; negotiated : option string;
  traffic : list event;
}.
Arguments mk_session {W}. Arguments world {W}. Arguments next_request {W}. Arguments connected {W}. Arguments reauthenticating {W}.
Arguments has_client {W}. Arguments authenticated {W}. Arguments negotiated {W}. Arguments traffic {W}.

Definition _AUTH_ERROR_CODES : list Z := [-32000; -32001; 401; 403].
Definition _RECONNECT_ATTEMPTS : nat := 5.

Section Session.
Context {W : Type} (tr : Transport W) (frames : nat).
Notation St := (session W).
Notation M A := (St → result stop A * St).

Definition ret {A} (a : A) : M A := λ s, (Ok a, s).
Definition raise {A} (e : exc) : M A := λ s, (Err (Raised e), s).
Definition bind {A B} (m : M A) (k : A → M B) : M B := λ s,
  match m s with (Ok a, s) => k a s | (Err e, s) => (Err e, s) end.
Definition of_result {A} (r : result exc A) : M A := match r with Ok a => ret a | Err e => raise e end.

(** [except e: handler]. *)
Definition catch {A} (m : M A) (e : exc) (handler : M A) : M A := λ s,
  match m s with
  | (Err (Raised e'), s) => if bool_decide (e' = e) then handler s else (Err (Raised e'), s)
  | r => r
  end.

Definition set_connected (b : bool) : M () := λ s,
  (Ok (), mk_session (world s) (next_request s) b (reauthenticating s) (has_client s) (authenticated s) (negotiated s) (traffic s)).
Definition set_reauthenticating (b : bool) : M () := λ s,
  (Ok (), mk_session (world s) (next_request s) (connected s) b (has_client s) (authenticated s) (negotiated s) (traffic s)).
Definition set_authenticated (b : bool) : M () := λ s,
  (Ok (), mk_session (world s) (next_request s) (connected s) (reauthenticating s) (has_client s) b (negotiated s) (traffic s)).
Definition set_negotiated (v : string) : M () := λ s,
  (Ok (), mk_session (world s) (next_request s) (connected s) (reauthenticating s) (has_client s) (authenticated s) (Some v) (traffic s)).

(** [next(self._ids)]. *)
Definition next_id : M Z := λ s,
  (Ok (next_request s), mk_session (world s) (next_request s + 1) (connected s) (reauthenticating s) (has_client s) (authenticated s)
                          (negotiated s) (traffic s)).

(** ** [jsonrpc.py] *)

(** An [OSError] of the transport becomes an [AdapterUnavailableError]. *)
Definition unavailable (e : exc) : exc := match e with OSError => AdapterUnavailableError | e => e end.

Definition connect_transport : M () := λ s,
  let '(r, w) := tr_connect tr (world s) in
  (match r with Ok u => Ok u | Err e => Err (Raised (unavailable e)) end,
   mk_session w (next_request s) (connected s) (reauthenticating s) (has_client s) (authenticated s) (negotiated s) (traffic s)).

(** [attempts] tries; only an [AdapterUnavailableError] is tried again. *)
Fixpoint _connect_with_backoff (attempts : nat) : M () :=
  match attempts with
  | O => raise AdapterUnavailableError
  | S n => catch connect_transport AdapterUnavailableError
             (match n with O => raise AdapterUnavailableError | _ => _connect_with_backoff n end)
  end.

Definition connect : M () := λ s,
  if connected s then (Ok (), s) else bind (_connect_with_backoff _RECONNECT_ATTEMPTS) (λ _, set_connected true) s.

Definition transmit (q : request) : M () := λ s,
  let '(r, w) := tr_send tr q (world s) in
  (match r with Ok u => Ok u | Err e => Err (Raised (unavailable e)) end,
   mk_session w (next_request s) (connected s) (reauthenticating s) (has_client s) (authenticated s) (negotiated s) (traffic s ++ [Sent q])).

Definition receive : M json := λ s,
  let '(r, w) := tr_recv tr (world s) in
  match r with
  | Err e => (Err (Raised (unavailable e)), mk_session w (next_request s) (connected s) (reauthenticating s) (has_client s)
                                              (authenticated s) (negotiated s) (traffic s))
  | Ok f =>
      (match f with Some v => Ok v | None => Err (Raised AdapterUnavailableError) end,
       mk_session w (next_request s) (connected s) (reauthenticating s) (has_client s) (authenticated s) (negotiated s) (traffic s ++ [Heard f]))
  end.

(** [message.get("id") == request_id]; [True == 1]. *)
Definition same_id (v : json) (id : Z) : bool :=
  match v with JInt z => z =? id | JBool b => (if b then 1 else 0) =? id | _ => false end.

Definition _unwrap (message : json) : result exc json :=
  error ← get "error" JNull message;
  match error with
  | JNull => get "result" JNull message
  | _ =>
      code ← get "code" JNull error;
      match code with
      | JInt z => if bool_decide (z ∈ _AUTH_ERROR_CODES) then Err AdapterAuthError else Err AdapterUnavailableError
      | _ => Err AdapterUnavailableError
      end
  end.

Fixpoint read_answer (fuel : nat) (id : Z) : M json :=
  match fuel with
  | O => λ s, (Err Waiting, s)
  | S n =>
      bind receive (λ message, bind (of_result (get "id" JNull message)) (λ v,
        if same_id v id then of_result (_unwrap message) else read_answer n id))
  end.

Definition _send_and_read (q : request) : M json := bind (transmit q) (λ _, read_answer frames (rq_id q)).

(** [on_reconnect] under its guard; the flag is cleared however it ends. *)
Definition guarded (on_reconnect : M ()) : M () := λ s,
  if reauthenticating s then (Ok (), s)
  else
    let '(r, s) := bind (set_reauthenticating true) (λ _, on_reconnect) s in
    (r, (set_reauthenticating false s).2).

Definition call (on_reconnect : M ()) (method : string) (params : json) : M json :=
  bind connect (λ _, bind next_id (λ id,
    let q := mk_request id method (if truthy params then params else JList []) in
    catch (_send_and_read q) AdapterUnavailableError
      (bind (set_connected false) (λ _, bind connect (λ _, bind (guarded on_reconnect) (λ _, _send_and_read q)))))).

Definition close_client : M () := λ s,
  if negb (connected s) then (Ok (), s)
  else
    let '(r, w) := tr_close tr (world s) in
    (match r with Err OSError => Ok () | Err e => Err (Raised e) | Ok u => Ok u end,
     mk_session w (next_request s) false (reauthenticating s) (has_client s) (authenticated s) (negotiated s) (traffic s)).
End Session.

(** ** [truenas.py] *)

Definition _TRUENAS_PROVIDES : list string := ["pools"; "disks"; "datasets"; "smart"; "usage"; "topology"].
Definition _TRANSPORT_MAP : list (string * string) := [("nvme", "nvme"); ("sata", "sata"); ("sas", "sas"); ("usb", "usb")].
Definition _RESILVER_STATES : list string := ["RESILVERING"; "RESILVER"].

(** [str.upper] on code points below 256; the two letters whose capital is above 255 stay. *)
Definition upper_char (c : ascii) : string :=
  let n := code c in
  if n =? 223 then "SS"
  else if (97 <=? n) && (n <=? 122) || (224 <=? n) && (n <=? 254) && negb (n =? 247) then String (ascii_of_N (Z.to_N (n - 32))) ""
  else String c "".
Definition upper (s : string) : string := String.concat "" (upper_char <$> String.list_ascii_of_string s).

(** *** The frames *)

Definition empty_obj : json := JObj [].
Definition is_list (v : json) : list json := match v with JList l => l | _ => [] end.

Definition pool_members (topology : json) : result exc (list string) :=
  data ← get "data" (JList []) topology;
  vdevs ← iter (or_else data (JList []));
  members ← collect (λ vdev,
    children ← get "children" (JList []) vdev;
    cs ← iter (or_else children (JList []));
    names ← collect (λ child,
      disk ← get "disk" JNull child;
      name ← (if truthy disk then Ok disk else get "name" JNull child);
      Ok (match name with JStr s => Some s | _ => None end)) cs;
    Ok (Some names)) vdevs;
  Ok (concat members).

(** [data_vdevs[0]]. *)
Definition first_of (v : json) : result exc json :=
  match v with
  | JList (x :: _) => Ok x
  | JStr (String c _) => Ok (JStr (String c ""))
  | JObj _ => Err KeyError
  | _ => Err TypeError
  end.

Definition pool_raid_level (topology : json) : result exc (option string) :=
  data ← get "data" (JList []) topology;
  if negb (truthy data) then Ok None
  else
    v ← first_of data;
    raw ← get "type" JNull v;
    Ok (match raw with JStr s => Some (lower s) | _ => None end).

Section Frames.
Context (repr : json → string).
Abbreviation str_of := (str_of repr).

Definition pool_resyncing (row : json) : result exc bool :=
  scan ← get "scan" JNull row;
  let scan := or_else scan empty_obj in
  function ← get "function" (JStr "") scan;
  state ← get "state" (JStr "") scan;
  if contains "RESILVER" (upper (str_of function)) && bool_decide (upper (str_of state) ∈ ["SCANNING"; "ACTIVE"]) then Ok true
  else
    status ← get "status" JNull row;
    state ← (if truthy status then Ok status else get "state" JNull row);
    Ok (bool_decide (upper (str_of (or_else state (JStr ""))) ∈ _RESILVER_STATES)).

(** [int(usage.get(k, row.get(k', 0)) or 0)]. *)
Definition usage_of (usage row : json) (k k' : string) : result exc Z :=
  d ← get k' (JInt 0) row;
  v ← get k d usage;
  int_of (or_else v (JInt 0)).

Definition map_pool (row : json) : result exc PoolInfo :=
  topology ← get "topology" JNull row;
  let topology := or_else topology empty_obj in
  members ← pool_members topology;
  raid_level ← pool_raid_level topology;
  usage ← get "usage" JNull row;
  let usage := or_else usage empty_obj in
  name ← get "name" (JStr "") row;
  resyncing ← pool_resyncing row;
  total ← usage_of usage row "total" "size";
  used ← usage_of usage row "used" "allocated";
  free ← usage_of usage row "free" "free";
  pool_frame (mk_pool (str_of name) raid_level members resyncing total used free).

Definition map_disk (row : json) : result exc DiskInfo :=
  devname ← get "devname" (JStr "") row;
  name ← get "name" devname row;
  mode ← get "transfermode" JNull row;
  bus ← (if truthy mode then Ok mode else get "bus" JNull row);
  size ← get "size" (JInt 0) row;
  n ← int_of (or_else size (JInt 0));
  rate ← get "rotationrate" JNull row;
  type ← get "type" JNull row;
  smart ← get "smart_status" JNull row;
  pool ← get "pool" JNull row;
  disk_frame (mk_disk (str_of name) (coerce_transport _TRANSPORT_MAP bus) n (truthy rate && bool_decide (type = JStr "HDD"))
                (match smart with JNull => None | v => Some (str_of v) end) (match pool with JStr s => Some s | _ => None end)).

Definition _prop (row : json) (key : string) : result exc Z :=
  node ← get key JNull row;
  match node with
  | JObj _ =>
      raw ← get "rawvalue" (JInt 0) node;
      parsed ← get "parsed" raw node;
      int_of (or_else parsed (JInt 0))
  | _ => int_of (or_else node (JInt 0))
  end.
End Frames.

(** *** The session *)

Section Adapter.
Context {W : Type} (tr : Transport W) (frames : nat) (repr : json → string).
(** The connection settings: the scheme of the endpoint; whether the transport was injected; what the secret provider answers. *)
Context (config : AdapterConfig) (scheme : string) (injected : bool) (secret_provider : option (string → result exc string)).
Notation St := (session W).
Notation M A := (St → result stop A * St).

Definition _resolve_api_key : result exc (option string) :=
  match api_key_ref config with
  | None => Ok None
  | Some ref => match secret_provider with None => Err AdapterUnavailableError | Some p => Some <$> p ref end
  end.

(** A new client counts its requests from 1 and is not connected. *)
Definition new_client : M () := λ s,
  (Ok (), mk_session (world s) 1 false false true (authenticated s) (negotiated s) (traffic s)).

Definition _build_client : M () :=
  bind (of_result (if injected then Ok None else _resolve_api_key)) (λ _, new_client).

(** [_authenticate]: the login is a call of the client; [on_reconnect] is what that call does when the session drops. *)
Definition _authenticate (on_reconnect : M ()) : M () :=
  if bool_decide (scheme = "unix") && bool_decide (api_key_ref config = None) then ret ()
  else bind (of_result _resolve_api_key) (λ key,
    match key with
    | None => ret ()
    | Some k => bind (call tr frames on_reconnect "auth.login_with_api_key" (JList [JStr k])) (λ _, ret ())
    end).

(** [_reauthenticate]; under the guard the call inside it never comes back here. *)
Definition _reauthenticate : M () := λ s, if has_client s then _authenticate (ret ()) s else (Ok (), s).

Definition _session : M () := 
  bind (λ s, if has_client s then (Ok (), s) else _build_client s) (λ _,
  bind (connect tr) (λ _, λ s,
    if authenticated s then (Ok (), s) else bind (_authenticate _reauthenticate) (λ _, set_authenticated true) s)).

Definition query (method : string) (params : json) : M json := bind _session (λ _, call tr frames _reauthenticate method params).

Fixpoint map_rows {A} (f : json → result exc A) (l : list json) : result exc (list A) :=
  match l with [] => Ok [] | x :: l => y ← f x; ys ← map_rows f l; Ok (y :: ys) end.

Definition _negotiate_version : M string :=
  let pinned := ac_api_version config in
  catch (bind (call tr frames _reauthenticate "core.get_jsonrpc_version" JNull) (λ raw,
           ret (match raw with JStr v => if bool_decide (v = "") then pinned else v | _ => pinned end)))
    AdapterUnavailableError (ret pinned).

Definition probe : M CapabilityManifest :=
  catch (bind _session (λ _, bind _negotiate_version (λ v, bind (set_negotiated v) (λ _,
           ret (mk_manifest (platform_value TRUENAS) true _TRUENAS_PROVIDES (Some v))))))
    AdapterUnavailableError (ret (mk_manifest (platform_value TRUENAS) false [] None)).

Definition list_pools : M (list PoolInfo) :=
  bind (query "pool.query" JNull) (λ rows, of_result (map_rows (map_pool repr) (is_list rows))).

Definition list_disks : M (list DiskInfo) :=
  bind (query "disk.query" JNull) (λ rows, of_result (map_rows (map_disk repr) (is_list rows))).

Definition volume_usage (mountpoint : string) : M (Z * Z * Z) :=
  bind (query "pool.dataset.query" (JList [JList [JList [JStr "mountpoint"; JStr "="; JStr mountpoint]]])) (λ rows,
    match is_list rows with
    | [] => raise AdapterUnavailableError
    | row :: _ => of_result (used ← _prop row "used"; avail ← _prop row "available"; Ok (used + avail, used, avail))
    end).

(** The answer for a pool, from the list of them. *)
Definition healthy_in (pool : string) (pools : list PoolInfo) : bool :=
  match head (filter (λ i, p_name i = pool) pools) with Some i => negb (p_resyncing i) | None => false end.

Definition is_array_healthy (pool : string) : M bool := bind list_pools (λ pools, ret (healthy_in pool pools)).

Definition close : M () := λ s,
  if has_client s then
    match close_client tr s with
    | (Ok _, s) => (Ok (), mk_session (world s) (next_request s) (connected s) (reauthenticating s) false false (negotiated s) (traffic s))
    | r => r
    end
  else (Ok (), s).
End Adapter.

(** ** What is sent *)

Section Laws.
Context {W : Type} (tr : Transport W) (frames : nat) (repr : json → string).
Context (config : AdapterConfig) (scheme : string) (injected : bool) (secret_provider : option (string → result exc string)).
Notation St := (session W).
Notation M A := (St → result stop A * St).

Lemma bind_returns {A B} (m : M A) (k : A → M B) s b s' :
  bind m k s = (Ok b, s') ↔ ∃ a s1, m s = (Ok a, s1) ∧ k a s1 = (Ok b, s').
Proof. unfold bind. destruct (m s) as [[a|e] s1]; naive_solver. Qed.

(** A computation only adds to the traffic, and of requests only those of a kind. *)
Definition of_kind (P : request → Prop) (e : event) : Prop := match e with Sent q => P q | Heard _ => True end.
Definition sends (P : request → Prop) {A} (m : M A) : Prop := ∀ s, ∃ k, traffic (m s).2 = traffic s ++ k ∧ Forall (of_kind P) k.

Lemma sends_same P {A} (m : M A) : (∀ s, traffic (m s).2 = traffic s) → sends P m.
Proof. intros H s. exists []. by rewrite H, app_nil_r. Qed.

Lemma sends_then P (s1 s2 s3 : St) k1 :
  traffic s2 = traffic s1 ++ k1 → Forall (of_kind P) k1 → (∃ k, traffic s3 = traffic s2 ++ k ∧ Forall (of_kind P) k) →
  ∃ k, traffic s3 = traffic s1 ++ k ∧ Forall (of_kind P) k.
Proof. intros E1 H1 (k2 & E2 & H2). exists (k1 ++ k2). rewrite E2, E1, app_assoc. split; [done|by apply Forall_app]. Qed.

Lemma sends_bind P {A B} (m : M A) (k : A → M B) : sends P m → (∀ a, sends P (k a)) → sends P (bind m k).
Proof.
  intros Hm Hk s. unfold bind. destruct (Hm s) as (k1 & E1 & H1). destruct (m s) as [[a|e] s1]; [|by exists k1].
  apply (sends_then P s s1 _ k1); [done..|]. apply Hk.
Qed.

Lemma sends_catch P {A} (m : M A) e h : sends P m → sends P h → sends P (catch m e h).
Proof.
  intros Hm Hh s. unfold catch. destruct (Hm s) as (k1 & E1 & H1). destruct (m s) as [[a|[e'|]] s1]; [by exists k1| |by exists k1].
  case_bool_decide; [|by exists k1]. apply (sends_then P s s1 _ k1); [done..|]. apply Hh.
Qed.

Lemma sends_of_result P {A} (r : result exc A) : sends P (of_result r : M A).
Proof. apply sends_same. by destruct r. Qed.

Lemma sends_if P {A} (c : St → bool) (m n : M A) : sends P m → sends P n → sends P (λ s, if c s then m s else n s).
Proof. intros Hm Hn s. destruct (c s); [apply Hm|apply Hn]. Qed.

Lemma sends_connect_transport P : sends P (connect_transport tr).
Proof. apply sends_same. intros s. unfold connect_transport. by destruct (tr_connect tr (world s)). Qed.

Lemma sends_backoff P n : sends P (_connect_with_backoff tr n).
Proof.
  induction n as [|n IH]; [by apply sends_same|]. cbn [_connect_with_backoff].
  apply sends_catch; [apply sends_connect_transport|]. destruct n; [by apply sends_same|done].
Qed.

Lemma sends_connect P : sends P (connect tr).
Proof. apply (sends_if P connected); [by apply sends_same|]. apply sends_bind; [apply sends_backoff|]. intros _. by apply sends_same. Qed.

Lemma sends_transmit (P : request → Prop) q : P q → sends P (transmit tr q).
Proof. intros Hq s. unfold transmit. destruct (tr_send tr q (world s)) as [r w]. exists [Sent q]. split; [done|by repeat constructor]. Qed.

Lemma sends_receive P : sends P (receive tr).
Proof.
  intros s. unfold receive. destruct (tr_recv tr (world s)) as [[f|e] w]; [exists [Heard f]|exists []; by rewrite app_nil_r].
  split; [done|by repeat constructor].
Qed.

Lemma sends_read P n id : sends P (read_answer tr n id).
Proof.
  induction n as [|n IH]; [by apply sends_same|]. cbn [read_answer]. apply sends_bind; [apply sends_receive|]. intros message.
  apply sends_bind; [apply sends_of_result|]. intros v. destruct (same_id v id); [apply sends_of_result|done].
Qed.

Lemma sends_send_and_read (P : request → Prop) q : P q → sends P (_send_and_read tr frames q).
Proof. intros Hq. apply sends_bind; [by apply sends_transmit|]. intros _. apply sends_read. Qed.

Lemma sends_guarded P m : sends P m → sends P (guarded m).
Proof.
  intros Hm s. unfold guarded. destruct (reauthenticating s); [exists []; by rewrite app_nil_r|]. unfold bind. cbn.
  match goal with |- context [m ?x] => destruct (Hm x) as (k & E & H); destruct (m x) as [r s1] end. by exists k.
Qed.

Lemma sends_call (P : request → Prop) on_reconnect method params :
  sends P on_reconnect → (∀ id, P (mk_request id method (if truthy params then params else JList []))) →
  sends P (call tr frames on_reconnect method params).
Proof.
  intros Hr Hq. unfold call. apply sends_bind; [apply sends_connect|]. intros _. apply sends_bind; [by apply sends_same|]. intros id.
  apply sends_catch; [by apply sends_send_and_read|]. apply sends_bind; [by apply sends_same|]. intros _.
  apply sends_bind; [apply sends_connect|]. intros _. apply sends_bind; [by apply sends_guarded|]. intros _. by apply sends_send_and_read.
Qed.

Lemma sends_bind_ok P {A B} (a : A) (k : A → M B) : sends P (k a) → sends P (bind (of_result (Ok a)) k).
Proof. done. Qed.

(** The methods of the surface, and the login with the key that its reference names. *)
Definition READ_METHODS : list string := ["pool.query"; "disk.query"; "pool.dataset.query"; "core.get_jsonrpc_version"].
Definition read_request (q : request) : Prop :=
  rq_method q ∈ READ_METHODS ∨
  (rq_method q = "auth.login_with_api_key" ∧ ∃ ref p key, api_key_ref config = Some ref ∧ secret_provider = Some p ∧ p ref = Ok key ∧
     rq_params q = JList [JStr key]).

Lemma sends_authenticate m : sends read_request m → sends read_request (_authenticate tr frames config scheme secret_provider m).
Proof.
  intros Hm. unfold _authenticate. destruct (_ && _); [by apply sends_same|]. unfold _resolve_api_key.
  destruct (api_key_ref config) as [ref|] eqn:Er; [|by apply sends_same].
  destruct secret_provider as [p|] eqn:Ep; [|by apply sends_same]. destruct (p ref) as [key|e] eqn:Ek; [|by apply sends_same].
  apply sends_bind_ok. apply sends_bind; [|intros _; by apply sends_same]. apply sends_call; [done|].
  intros id. right. split; [done|]. by exists ref, p, key.
Qed.

Lemma sends_reauthenticate : sends read_request (_reauthenticate tr frames config scheme secret_provider).
Proof. apply (sends_if read_request has_client); [apply sends_authenticate|]; by apply sends_same. Qed.

Lemma sends_session : sends read_request (_session tr frames config scheme injected secret_provider).
Proof.
  unfold _session. apply sends_bind; [|intros _; apply sends_bind; [apply sends_connect|intros _]].
  - apply (sends_if read_request has_client); [by apply sends_same|]. unfold _build_client.
    apply sends_bind; [apply sends_of_result|]. intros _. by apply sends_same.
  - apply (sends_if read_request authenticated); [by apply sends_same|]. apply sends_bind; [|intros _; by apply sends_same].
    apply sends_authenticate, sends_reauthenticate.
Qed.

Lemma sends_query method params : method ∈ READ_METHODS → sends read_request (query tr frames config scheme injected secret_provider method params).
Proof.
  intros Hm. apply sends_bind; [apply sends_session|]. intros _. apply sends_call; [apply sends_reauthenticate|]. intros id. by left.
Qed.

Lemma sends_close : sends read_request (close tr).
Proof.
  apply sends_same. intros s. unfold close, close_client. destruct (has_client s); [|done]. destruct (connected s); [|done]. cbn.
  by destruct (tr_close tr (world s)) as [[u|[]] w].
Qed.

Lemma sends_list_pools : sends read_request (list_pools tr frames repr config scheme injected secret_provider).
Proof. apply sends_bind; [apply sends_query; set_solver|]. intros rows. apply sends_of_result. Qed.

(** ** What an answer is *)

Lemma read_answer_run n id s v s' :
  read_answer tr n id s = (Ok v, s') →
  ∃ k m idv, traffic s' = traffic s ++ (Heard <$> k) ++ [Heard (Some m)] ∧ get "id" JNull m = Ok idv ∧ same_id idv id = true ∧ _unwrap m = Ok v.
Proof.
  revert s. induction n as [|n IH]; intros s; [done|]. cbn [read_answer]. intros (m & s1 & Hr & H)%bind_returns.
  unfold receive in Hr. destruct (tr_recv tr (world s)) as [[f|e] w]; [|done]. destruct f as [m'|]; [|done]. injection Hr as -> <-.
  apply bind_returns in H as (idv & s2 & Hi & H). destruct (get "id" JNull m) as [x|] eqn:Eg; [|done]. injection Hi as -> <-.
  destruct (same_id idv id) eqn:Es.
  - destruct (_unwrap m) as [v'|] eqn:Eu; [|done]. injection H as -> <-. exists [], m, idv. by split_and!.
  - apply IH in H as (k & m' & idv' & Hh & ? & ? & ?). exists (Some m :: k), m', idv'. split_and!; [|done..].
    rewrite Hh. cbn. by rewrite <- app_assoc.
Qed.

Definition answered (method : string) (params : json) (v : json) (s' : St) : Prop :=
  ∃ before id k m idv,
    traffic s' = before ++ Sent (mk_request id method (if truthy params then params else JList [])) :: (Heard <$> k) ++ [Heard (Some m)] ∧
    get "id" JNull m = Ok idv ∧ same_id idv id = true ∧ _unwrap m = Ok v.

Lemma send_and_read_answered id method params s v s' :
  _send_and_read tr frames (mk_request id method (if truthy params then params else JList [])) s = (Ok v, s') → answered method params v s'.
Proof.
  intros (u & s1 & Ht & Hr)%bind_returns. unfold transmit in Ht. destruct (tr_send tr _ (world s)) as [[?|e] w]; [|done].
  injection Ht as _ <-. apply read_answer_run in Hr as (k & m & idv & Hh & ? & ? & ?). exists (traffic s), id, k, m, idv.
  split_and!; [|done..]. rewrite Hh. cbn. by rewrite <- app_assoc.
Qed.

(** A call returns only what answers its own request: the traffic ends with its request, frames that were skipped, and a frame that
    carries the id of the request and holds the result. *)
Theorem call_correlated on_reconnect method params s v s' :
  call tr frames on_reconnect method params s = (Ok v, s') → answered method params v s'.
Proof.
  unfold call. intros (u & s1 & _ & H)%bind_returns. apply bind_returns in H as (id & s2 & _ & H). unfold catch in H.
  destruct (_send_and_read _ _ _ s2) as [[v'|[e|]] s3] eqn:E; [|case_bool_decide|]; try done.
  - injection H as -> <-. by eapply send_and_read_answered.
  - apply bind_returns in H as (? & ? & _ & H). apply bind_returns in H as (? & ? & _ & H). apply bind_returns in H as (? & ? & _ & H).
    by eapply send_and_read_answered.
Qed.

(** ** What a pool is called *)

(** A pool is healthy only on the word of the middleware: the last frame answers this call's own [pool.query], and the first row in it
    with the name of the pool is not resilvering.  A pool that is not in the answer is not healthy. *)
Theorem healthy_from_answer pool s s' :
  is_array_healthy tr frames repr config scheme injected secret_provider pool s = (Ok true, s') →
  ∃ v pools i, answered "pool.query" JNull v s' ∧ map_rows (map_pool repr) (is_list v) = Ok pools ∧
    head (filter (λ i, p_name i = pool) pools) = Some i ∧ p_resyncing i = false.
Proof.
  intros (pools & s1 & H1 & H)%bind_returns. injection H as H <-. apply bind_returns in H1 as (v & s2 & Hq & Hm).
  apply bind_returns in Hq as (u & s3 & _ & Hc%call_correlated). unfold healthy_in in H.
  destruct (head _) as [i|] eqn:Eh; [|done]. destruct (map_rows _ _) as [ps|] eqn:Em; [|done]. injection Hm as -> <-.
  exists v, pools, i. split_and!; [done..|]. by apply negb_true_iff.
Qed.

(** The rows are mapped one by one, and a row is resilvering on an active scan or on its state; being degraded is not enough. *)
Lemma map_rows_ok {A} (f : json → result exc A) l out : map_rows f l = Ok out ↔ Forall2 (λ x y, f x = Ok y) l out.
Proof.
  revert out. induction l as [|x l IH]; intros out; simpl.
  - split; [by intros [= <-]|by inversion 1].
  - rewrite bind_ok. setoid_rewrite bind_ok. setoid_rewrite IH. split.
    + intros (y & Hy & ys & Hys & [= <-]). by constructor.
    + inversion 1; subst. eauto.
Qed.
(** ** The surface *)

Inductive operation := Probe | ListPools | ListDisks | VolumeUsage (mountpoint : string) | IsArrayHealthy (pool : string) | Close.

Definition perform (o : operation) : M () :=
  let done_ {A} (m : M A) : M () := bind m (λ _, ret ()) in
  match o with
  | Probe => done_ (probe tr frames config scheme injected secret_provider)
  | ListPools => done_ (list_pools tr frames repr config scheme injected secret_provider)
  | ListDisks => done_ (list_disks tr frames repr config scheme injected secret_provider)
  | VolumeUsage m => done_ (volume_usage tr frames config scheme injected secret_provider m)
  | IsArrayHealthy p => done_ (is_array_healthy tr frames repr config scheme injected secret_provider p)
  | Close => close tr
  end.

(** A life of the adapter: its operations, and what happens to the world between them. *)
Inductive happening := Op (o : operation) | World (f : W → W).

Definition happen (h : happening) (s : St) : St :=
  match h with
  | Op o => (perform o s).2
  | World f => mk_session (f (world s)) (next_request s) (connected s) (reauthenticating s) (has_client s) (authenticated s) (negotiated s) (traffic s)
  end.

Definition life (hs : list happening) (s : St) : St := foldl (λ s h, happen h s) s hs.

Lemma sends_perform o : sends read_request (perform o).
Proof.
  destruct o; simpl; try (apply sends_bind; [|intros ?; by apply sends_same]).
  - unfold probe. apply sends_catch; [|by apply sends_same]. apply sends_bind; [apply sends_session|intros _].
    apply sends_bind; [|intros v; by apply sends_same]. unfold _negotiate_version. apply sends_catch; [|by apply sends_same].
    apply sends_bind; [|intros v; by apply sends_same]. apply sends_call; [apply sends_reauthenticate|]. intros id. left. set_solver.
  - apply sends_list_pools.
  - apply sends_bind; [apply sends_query; set_solver|]. intros rows. apply sends_of_result.
  - apply sends_bind; [apply sends_query; set_solver|]. intros rows. destruct (is_list rows); [by apply sends_same|apply sends_of_result].
  - apply sends_bind; [apply sends_list_pools|]. intros pools. by apply sends_same.
  - apply sends_close.
Qed.

(** C39: Whatever is asked of the adapter and whatever the network does, all it ever sends are the four queries, and logins with the key that
    the configured reference names. *)
Theorem adapter_reads_only hs s :
  ∃ k, traffic (life hs s) = traffic s ++ k ∧ Forall (of_kind read_request) k.
Proof.
  revert s. induction hs as [|h hs IH]; intros s; [exists []; by rewrite app_nil_r|]. cbn [life foldl].
  assert (∃ k, traffic (happen h s) = traffic s ++ k ∧ Forall (of_kind read_request) k) as (k1 & E1 & H1).
  { destruct h as [o|f]; [apply sends_perform|exists []; by rewrite app_nil_r]. }
  apply (sends_then _ s (happen h s) _ k1); [done..|]. apply IH.
Qed.
End Laws.

(** ** A middleware *)

(** It is up or down; a connection is open until it drops and has to log in; queries of one that has are answered. *)
Record middleware := mk_middleware { up : bool; opened : bool; logged_in : bool; outbox : list (option json) }.

Definition answer (id : Z) (fields : list (string * json)) : option json := Some (JObj (("jsonrpc", JStr "2.0") :: ("id", JInt id) :: fields)).

Definition demo_transport : Transport middleware := {|
  tr_connect w := if up w then (Ok (), mk_middleware true true false []) else (Err OSError, w);
  tr_send q w :=
    if negb (up w && opened w) then (Err OSError, w)
    else if bool_decide (rq_method q = "auth.login_with_api_key")
    then (Ok (), mk_middleware true true true (outbox w ++ [answer (rq_id q) [("result", JBool true)]]))
    else if logged_in w
    then (Ok (), mk_middleware true true true (outbox w ++ [Some (JObj [("event", JStr "added")]);
           answer (rq_id q) [("result", JList [JObj [("name", JStr "tank"); ("status", JStr "DEGRADED")]])]]))
    else (Ok (), mk_middleware true true false (outbox w ++ [answer (rq_id q) [("error", JObj [("code", JInt 401)])]]));
  tr_recv w := match outbox w with [] => (Err OSError, w) | f :: k => (Ok f, mk_middleware (up w) (opened w) (logged_in w) k) end;
  tr_close w := (Ok (), mk_middleware (up w) false false []);
|}.

Definition demo_config : AdapterConfig := mk_adapter TRUENAS "wss://nas/api/current" "v25.10" true (Some "nas-key") false ["nas"].
Definition demo_healthy := is_array_healthy demo_transport 10 (λ _, "") demo_config "wss" false (Some (λ _, Ok "secret")) "tank".
Definition demo_life := life demo_transport 10 (λ _, "") demo_config "wss" false (Some (λ _, Ok "secret")).
Definition fresh : session middleware := mk_session (mk_middleware true false false []) 1 false false false false None [].

Definition down (_ : middleware) : middleware := mk_middleware false false false [].
Definition dropped (_ : middleware) : middleware := mk_middleware true false false [].

Lemma healthy_from_answer_witness : ∃ i, p_name i = "tank" ∧ p_resyncing i = false.
Proof.
  assert (∃ s', is_array_healthy demo_transport 10 (λ _, "") demo_config "wss" false (Some (λ _, Ok "secret")) "tank" fresh = (Ok true, s'))
    as [s' E] by (eexists; vm_compute; reflexivity).
  destruct (healthy_from_answer _ _ _ _ _ _ _ _ _ _ E) as (v & pools & i & _ & _ & Hi & Hn).
  exists i. split; [|exact Hn]. apply head_Some_elem_of, list_elem_of_filter in Hi as [Hi _]. exact Hi.
Defined.

(** A drop between two calls is repaired: the session is opened again and logged in again before the query is repeated under its id. *)
Lemma drop_is_repaired :
  (λ q, (rq_id q, rq_method q)) <$> omap (λ e, match e with Sent q => Some q | Heard _ => None end)
    (traffic (demo_life [Op (IsArrayHealthy "tank"); World dropped; Op (IsArrayHealthy "tank")] fresh)) =
  [(1, "auth.login_with_api_key"); (2, "pool.query"); (3, "pool.query"); (4, "auth.login_with_api_key"); (3, "pool.query")] ∧
  (demo_healthy (demo_life [Op (IsArrayHealthy "tank"); World dropped] fresh)).1 = Ok true.
Proof. vm_compute. done. Qed.

(** After an outage that outlasts the five attempts the flag of the login survives: the middleware is back and the key is valid, but the
    adapter opens the new session without logging in, so every read is refused, and with it every full-bit scan of the host. *)
Theorem outage_loses_login :
  let s := demo_life [Op (IsArrayHealthy "tank"); World down; Op (IsArrayHealthy "tank"); World dropped] fresh in
  authenticated s = true ∧ (demo_healthy s).1 = Err (Raised AdapterAuthError) ∧
  (demo_healthy (demo_healthy s).2).1 = Err (Raised AdapterAuthError) ∧
  adapter_resync_provider (Err AdapterAuthError) = Ok true ∧
  (demo_healthy (demo_life [Op Close] s)).1 = Ok true.
Proof. vm_compute. done. Qed.

(** A probe of a middleware that refuses the key is not reported as unavailable: the refusal escapes. *)
Lemma probe_refused_escapes :
  let refusing := mk_transport middleware (tr_connect demo_transport)
    (λ q w, (Ok (), mk_middleware true true false [answer (rq_id q) [("error", JObj [("code", JInt 401)])]])) (tr_recv demo_transport) (tr_close demo_transport) in
  (probe refusing 10 demo_config "wss" false (Some (λ _, Ok "revoked")) fresh).1 = Err (Raised AdapterAuthError).
Proof. vm_compute. done. Qed.
