(* ===== verification/AgentConf.v ===== *)
(** The agent's configuration ([src/fathom/agent/config.py]): the model with its validators, the remote targets with the mount points they
    are catalogued under, what is reported to core, and the operator's override, which an agent applies only if the whole result validates.

    Validation of a field maps its text to the text that is stored; [None] is a ValidationError, whichever validator raised it.  What a
    value of the override is, read as the type of its field, is an argument: pydantic's coercions are not modelled.  A double is the integer
    that it is a multiple of, [hundred] is 100.0. *)

From S2P Require Import Prelude PyStr PyDict PosixPath Supervisor Adapters.
From S2P Require Runner.

Local Open Scope Z_scope.

(** ** Remote targets *)

Inductive RemoteProtocol := SMB | SFTP | RCLONE.

Definition RemoteProtocol_eq_dec : EqDecision RemoteProtocol.
Proof. solve_decision. Defined.
#[export] Existing Instance RemoteProtocol_eq_dec.

Record RemoteBackendConfig := mk_remote {
  protocol : RemoteProtocol; host : string; share : option string; remote_path : string; port : option Z; username : option string;
  password_ref : option string; private_key_ref : option string; rt_verify : bool; rt_lab_insecure : bool;
}.

(** A string that is there and not empty. *)
Definition present (o : option string) : bool := match o with Some s => negb (bool_decide (s = "")) | None => false end.

Definition _host_no_scheme (value : string) : bool := negb (contains "://" value || has_char "/" value || has_char "\" value).

Definition control (c : ascii) : bool := (code c <? 32) || (127 <=? code c) && (code c <=? 159).

Definition path_value_ok (val : string) : bool :=
  negb (s_any control val) && negb (has_char "\" val) && negb (bool_decide (".." ∈ split_char "/" val)).

Definition _validate_protocol_shape_and_security (c : RemoteBackendConfig) : bool :=
  negb (bool_decide (protocol c = SMB) && negb (present (share c))) &&
  negb (bool_decide (protocol c = RCLONE) && (present (password_ref c) || present (private_key_ref c))) &&
  (rt_verify c || rt_lab_insecure c) &&
  path_value_ok (remote_path c) && match share c with Some s => bool_decide (s = "") || path_value_ok s | None => true end.

Definition remote_ok (c : RemoteBackendConfig) : bool :=
  negb (bool_decide (host c = "")) && _host_no_scheme (host c) && negb (bool_decide (remote_path c = "")) &&
  match port c with Some p => 1 <=? p | None => true end && _validate_protocol_shape_and_security c.

(** An f-string shows an absent share as "None"; validation leaves none for SMB. *)
Definition shown (o : option string) : string := default "None" o.

Definition mount_key (c : RemoteBackendConfig) : string :=
  match protocol c with
  | SMB => "smb://" +:+ host c +:+ "/" +:+ shown (share c) +:+ remote_path c
  | RCLONE => "rclone://" +:+ host c +:+ remote_path c
  | SFTP => "sftp://" +:+ host c +:+ remote_path c
  end.

Definition catalogue_mount (c : RemoteBackendConfig) : string :=
  normpath
    (match protocol c with
     | SMB => "/smb/" +:+ host c +:+ "/" +:+ shown (share c) +:+ remote_path c
     | RCLONE =>
         let sub := strip_by (Ascii.eqb "/") (remote_path c) in
         if bool_decide (sub = "") then "/rclone/" +:+ host c else "/rclone/" +:+ host c +:+ "/" +:+ sub
     | SFTP => "/sftp/" +:+ host c +:+ remote_path c
     end).

(** ** The throttle profile *)

Inductive IoClass := Idle | BestEffort | Realtime.

Record Throttle := mk_profile {
  io_class : IoClass; io_max_mbps : Z; cpu_max_percent : Z; walk_concurrency : Z; hash_concurrency : Z; profile : ThrottleProfile;
}.

Section Config.
Context (hundred : Z) (bracketed_host_ok nfkc_ok : string → bool).

Definition throttle_valid (t : Throttle) : bool :=
  (1 <=? io_max_mbps t) && (0 <=? cpu_max_percent t) && (cpu_max_percent t <=? hundred) && (1 <=? walk_concurrency t) &&
  (1 <=? hash_concurrency t) && throttle_ok hundred (profile t).

(** ** The model *)

Record AgentConfig := mk_config {
  host_id : string; ingest_url : string; client_cert_path : string; client_key_path : string; server_ca_path : string;
  scan_scope : list string; fullbit_scope : list string; exclude_scope : list string; scope_labels : list (string * string);
  write_enabled : bool; orchestrator_pubkey_ref : option string; orchestrator_key_id : string; orchestrator_signing_algorithm : string;
  quarantine_dir : option string; act_audit_path : option string; cross_mounts : bool; adapter : option AdapterConfig;
  adapter_pool : option string; remote_targets : list RemoteBackendConfig;
  preview_grant_pubkey_ref : option string; preview_grant_key_id : string; preview_nonce_dir : option string;
  browse_grant_pubkey_ref : option string; browse_grant_key_id : string; browse_nonce_dir : option string; throttle : Throttle;
}.

(** [str(validate_config_path(value))]. *)
Definition _abs_path (value : string) : option string := path_str <$> config_path value.
Definition _opt_abs_path (value : option string) : option (option string) :=
  match value with None => Some None | Some v => Some <$> _abs_path v end.
Definition _scope_paths_absolute (value : list string) : option (list string) := mapM _abs_path value.

Definition _https_only (value : string) : bool := startswith "https://" value.

Definition _adapter_pool_required_with_adapter (c : AgentConfig) : bool :=
  match adapter c with Some _ => present (adapter_pool c) | None => true end.
Definition _must_scan_something (c : AgentConfig) : bool :=
  negb (bool_decide (scan_scope c = []) && match remote_targets c with [] => true | _ => false end).

Definition checked (b : bool) : option () := if b then Some () else None.

(** [AgentConfig.model_validate]: the field validators, then the model's. *)
Definition model_validate (c : AgentConfig) : option AgentConfig :=
  _ ← checked (negb (bool_decide (host_id c = "")) && _https_only (ingest_url c));
  cert ← _abs_path (client_cert_path c);
  key ← _abs_path (client_key_path c);
  ca ← _abs_path (server_ca_path c);
  scan ← _scope_paths_absolute (scan_scope c);
  full ← _scope_paths_absolute (fullbit_scope c);
  excl ← _scope_paths_absolute (exclude_scope c);
  quarantine ← _opt_abs_path (quarantine_dir c);
  act_audit ← _opt_abs_path (act_audit_path c);
  preview ← _opt_abs_path (preview_nonce_dir c);
  browse ← _opt_abs_path (browse_nonce_dir c);
  _ ← checked (match adapter c with Some a => adapter_ok bracketed_host_ok nfkc_ok a | None => true end);
  _ ← checked (forallb remote_ok (remote_targets c));
  _ ← checked (throttle_valid (throttle c));
  let v := mk_config (host_id c) (ingest_url c) cert key ca scan full excl (scope_labels c) (write_enabled c) (orchestrator_pubkey_ref c)
             (orchestrator_key_id c) (orchestrator_signing_algorithm c) quarantine act_audit (cross_mounts c) (adapter c) (adapter_pool c)
             (remote_targets c) (preview_grant_pubkey_ref c) (preview_grant_key_id c) preview (browse_grant_pubkey_ref c)
             (browse_grant_key_id c) browse (throttle c) in
  _ ← checked (_adapter_pool_required_with_adapter v && _must_scan_something v && _fullbit_within_scan_scope scan full);
  Some v.

(** ** The override *)

(** A value of the override, read as the type of its field: [VBad] is one that cannot be. *)
Inductive field_value :=
| VPaths (l : list string) | VLabels (l : list (string * string)) | VBool (b : bool) | VThrottle (t : Throttle)
| VText (s : string) | VOpt (o : option string) | VAdapter (a : option AdapterConfig) | VRemotes (l : list RemoteBackendConfig) | VBad.

Definition _OVERRIDABLE_FIELDS : list string :=
  ["scan_scope"; "fullbit_scope"; "exclude_scope"; "scope_labels"; "cross_mounts"; "throttle"].

Definition with_scopes (scan full excl : list string) (labels : list (string * string)) (cross : bool) (t : Throttle) (c : AgentConfig) : AgentConfig :=
  mk_config (host_id c) (ingest_url c) (client_cert_path c) (client_key_path c) (server_ca_path c) scan full excl labels (write_enabled c)
    (orchestrator_pubkey_ref c) (orchestrator_key_id c) (orchestrator_signing_algorithm c) (quarantine_dir c) (act_audit_path c) cross
    (adapter c) (adapter_pool c) (remote_targets c) (preview_grant_pubkey_ref c) (preview_grant_key_id c) (preview_nonce_dir c)
    (browse_grant_pubkey_ref c) (browse_grant_key_id c) (browse_nonce_dir c) t.

(** One entry of [merged.update(safe)]; a value of the wrong type or a key of no field fails when the merged dict is validated. *)
Definition set_field (kv : string * field_value) (c : AgentConfig) : option AgentConfig :=
  let 'mk_config f0 f1 f2 f3 f4 f5 f6 f7 f8 f9 f10 f11 f12 f13 f14 f15 f16 f17 f18 f19
      f20 f21 f22 f23 f24 f25 := c in
  match kv with
  | ("host_id", VText v) => Some (mk_config v f1 f2 f3 f4 f5 f6 f7 f8 f9 f10 f11 f12 f13 f14 f15 f16 f17 f18 f19 f20 f21 f22 f23 f24 f25)
  | ("ingest_url", VText v) => Some (mk_config f0 v f2 f3 f4 f5 f6 f7 f8 f9 f10 f11 f12 f13 f14 f15 f16 f17 f18 f19 f20 f21 f22 f23 f24 f25)
  | ("client_cert_path", VText v) => Some (mk_config f0 f1 v f3 f4 f5 f6 f7 f8 f9 f10 f11 f12 f13 f14 f15 f16 f17 f18 f19 f20 f21 f22 f23 f24 f25)
  | ("client_key_path", VText v) => Some (mk_config f0 f1 f2 v f4 f5 f6 f7 f8 f9 f10 f11 f12 f13 f14 f15 f16 f17 f18 f19 f20 f21 f22 f23 f24 f25)
  | ("server_ca_path", VText v) => Some (mk_config f0 f1 f2 f3 v f5 f6 f7 f8 f9 f10 f11 f12 f13 f14 f15 f16 f17 f18 f19 f20 f21 f22 f23 f24 f25)
  | ("scan_scope", VPaths v) => Some (mk_config f0 f1 f2 f3 f4 v f6 f7 f8 f9 f10 f11 f12 f13 f14 f15 f16 f17 f18 f19 f20 f21 f22 f23 f24 f25)
  | ("fullbit_scope", VPaths v) => Some (mk_config f0 f1 f2 f3 f4 f5 v f7 f8 f9 f10 f11 f12 f13 f14 f15 f16 f17 f18 f19 f20 f21 f22 f23 f24 f25)
  | ("exclude_scope", VPaths v) => Some (mk_config f0 f1 f2 f3 f4 f5 f6 v f8 f9 f10 f11 f12 f13 f14 f15 f16 f17 f18 f19 f20 f21 f22 f23 f24 f25)
  | ("scope_labels", VLabels v) => Some (mk_config f0 f1 f2 f3 f4 f5 f6 f7 v f9 f10 f11 f12 f13 f14 f15 f16 f17 f18 f19 f20 f21 f22 f23 f24 f25)
  | ("write_enabled", VBool v) => Some (mk_config f0 f1 f2 f3 f4 f5 f6 f7 f8 v f10 f11 f12 f13 f14 f15 f16 f17 f18 f19 f20 f21 f22 f23 f24 f25)
  | ("orchestrator_pubkey_ref", VOpt v) => Some (mk_config f0 f1 f2 f3 f4 f5 f6 f7 f8 f9 v f11 f12 f13 f14 f15 f16 f17 f18 f19 f20 f21 f22 f23 f24 f25)
  | ("orchestrator_key_id", VText v) => Some (mk_config f0 f1 f2 f3 f4 f5 f6 f7 f8 f9 f10 v f12 f13 f14 f15 f16 f17 f18 f19 f20 f21 f22 f23 f24 f25)
  | ("orchestrator_signing_algorithm", VText v) => Some (mk_config f0 f1 f2 f3 f4 f5 f6 f7 f8 f9 f10 f11 v f13 f14 f15 f16 f17 f18 f19 f20 f21 f22 f23 f24 f25)
  | ("quarantine_dir", VOpt v) => Some (mk_config f0 f1 f2 f3 f4 f5 f6 f7 f8 f9 f10 f11 f12 v f14 f15 f16 f17 f18 f19 f20 f21 f22 f23 f24 f25)
  | ("act_audit_path", VOpt v) => Some (mk_config f0 f1 f2 f3 f4 f5 f6 f7 f8 f9 f10 f11 f12 f13 v f15 f16 f17 f18 f19 f20 f21 f22 f23 f24 f25)
  | ("cross_mounts", VBool v) => Some (mk_config f0 f1 f2 f3 f4 f5 f6 f7 f8 f9 f10 f11 f12 f13 f14 v f16 f17 f18 f19 f20 f21 f22 f23 f24 f25)
  | ("adapter", VAdapter v) => Some (mk_config f0 f1 f2 f3 f4 f5 f6 f7 f8 f9 f10 f11 f12 f13 f14 f15 v f17 f18 f19 f20 f21 f22 f23 f24 f25)
  | ("adapter_pool", VOpt v) => Some (mk_config f0 f1 f2 f3 f4 f5 f6 f7 f8 f9 f10 f11 f12 f13 f14 f15 f16 v f18 f19 f20 f21 f22 f23 f24 f25)
  | ("remote_targets", VRemotes v) => Some (mk_config f0 f1 f2 f3 f4 f5 f6 f7 f8 f9 f10 f11 f12 f13 f14 f15 f16 f17 v f19 f20 f21 f22 f23 f24 f25)
  | ("preview_grant_pubkey_ref", VOpt v) => Some (mk_config f0 f1 f2 f3 f4 f5 f6 f7 f8 f9 f10 f11 f12 f13 f14 f15 f16 f17 f18 v f20 f21 f22 f23 f24 f25)
  | ("preview_grant_key_id", VText v) => Some (mk_config f0 f1 f2 f3 f4 f5 f6 f7 f8 f9 f10 f11 f12 f13 f14 f15 f16 f17 f18 f19 v f21 f22 f23 f24 f25)
  | ("preview_nonce_dir", VOpt v) => Some (mk_config f0 f1 f2 f3 f4 f5 f6 f7 f8 f9 f10 f11 f12 f13 f14 f15 f16 f17 f18 f19 f20 v f22 f23 f24 f25)
  | ("browse_grant_pubkey_ref", VOpt v) => Some (mk_config f0 f1 f2 f3 f4 f5 f6 f7 f8 f9 f10 f11 f12 f13 f14 f15 f16 f17 f18 f19 f20 f21 v f23 f24 f25)
  | ("browse_grant_key_id", VText v) => Some (mk_config f0 f1 f2 f3 f4 f5 f6 f7 f8 f9 f10 f11 f12 f13 f14 f15 f16 f17 f18 f19 f20 f21 f22 v f24 f25)
  | ("browse_nonce_dir", VOpt v) => Some (mk_config f0 f1 f2 f3 f4 f5 f6 f7 f8 f9 f10 f11 f12 f13 f14 f15 f16 f17 f18 f19 f20 f21 f22 f23 v f25)
  | ("throttle", VThrottle v) => Some (mk_config f0 f1 f2 f3 f4 f5 f6 f7 f8 f9 f10 f11 f12 f13 f14 f15 f16 f17 f18 f19 f20 f21 f22 f23 f24 v)
  | _ => None
  end.

Fixpoint update (safe : list (string * field_value)) (c : AgentConfig) : option AgentConfig :=
  match safe with [] => Some c | kv :: safe => d ← set_field kv c; update safe d end.

Definition overridable (kv : string * field_value) : bool := bool_decide (kv.1 ∈ _OVERRIDABLE_FIELDS).

Definition with_override (override : list (string * field_value)) (c : AgentConfig) : option AgentConfig :=
  match filter (λ kv, overridable kv) override with
  | [] => Some c
  | safe => merged ← update safe c; model_validate merged
  end.

(** [_apply_config_override] of [agent/__main__.py]: what was fetched ([None]: the request failed or there is none), on a validated configuration. *)
Definition _apply_config_override (fetched : option (list (string * field_value))) (c : AgentConfig) : AgentConfig :=
  match fetched with
  | None | Some [] => c
  | Some override => default c (with_override override c)
  end.

(** The part that a run uses. *)
Definition run_config (c : AgentConfig) : Runner.AgentConfig :=
  Runner.mk_config (host_id c) (scan_scope c) (fullbit_scope c) (exclude_scope c) (cross_mounts c) (scope_labels c) (mount_key <$> remote_targets c).

(** What is reported to core. *)
Definition reportable (c : AgentConfig) : list (string * field_value) :=
  [("scan_scope", VPaths (scan_scope c)); ("fullbit_scope", VPaths (fullbit_scope c)); ("exclude_scope", VPaths (exclude_scope c));
   ("cross_mounts", VBool (cross_mounts c)); ("write_enabled", VBool (write_enabled c)); ("throttle", VThrottle (throttle c))].
End Config.

(** ** Validation *)

Lemma abs_path_idem s t : _abs_path s = Some t → _abs_path t = Some t.
Proof. intros (p & Hp & ->)%fmap_Some. apply fmap_Some. exists p. split; [|done]. by eapply config_path_str. Qed.

Lemma opt_abs_path_idem o r : _opt_abs_path o = Some r → _opt_abs_path r = Some r.
Proof.
  destruct o as [s|]; [|by intros [= <-]]. intros (t & Ht & ->)%fmap_Some. apply fmap_Some. exists t. split; [|done].
  by eapply abs_path_idem.
Qed.

Lemma scope_paths_idem l k : _scope_paths_absolute l = Some k → _scope_paths_absolute k = Some k.
Proof.
  intros H%mapM_Some_1. apply mapM_Some_2. induction H as [|s t l k Ht _ IH]; constructor; [by eapply abs_path_idem|done].
Qed.

Lemma checked_some b u : checked b = Some u ↔ b = true.
Proof. destruct b, u; done. Qed.

Section Validation.
Context (hundred : Z) (bracketed nfkc : string → bool).
Abbreviation model_validate := (model_validate hundred bracketed nfkc).
Abbreviation with_override := (with_override hundred bracketed nfkc).
Abbreviation throttle_valid := (throttle_valid hundred).

(** What validation maps a configuration to. *)
Record validates (c v : AgentConfig) : Prop := {
  va_identity : host_id c ≠ "" ∧ _https_only (ingest_url c) = true;
  va_cert : _abs_path (client_cert_path c) = Some (client_cert_path v) ∧ _abs_path (client_key_path c) = Some (client_key_path v) ∧
            _abs_path (server_ca_path c) = Some (server_ca_path v);
  va_scopes : _scope_paths_absolute (scan_scope c) = Some (scan_scope v) ∧ _scope_paths_absolute (fullbit_scope c) = Some (fullbit_scope v) ∧
              _scope_paths_absolute (exclude_scope c) = Some (exclude_scope v);
  va_dirs : _opt_abs_path (quarantine_dir c) = Some (quarantine_dir v) ∧ _opt_abs_path (act_audit_path c) = Some (act_audit_path v) ∧
            _opt_abs_path (preview_nonce_dir c) = Some (preview_nonce_dir v) ∧ _opt_abs_path (browse_nonce_dir c) = Some (browse_nonce_dir v);
  va_adapter : match adapter c with Some a => adapter_ok bracketed nfkc a | None => true end = true;
  va_remote : forallb remote_ok (remote_targets c) = true;
  va_throttle : throttle_valid (throttle c) = true;
  va_model : _adapter_pool_required_with_adapter v = true ∧ _must_scan_something v = true ∧
             _fullbit_within_scan_scope (scan_scope v) (fullbit_scope v) = true;
  va_rest : v = mk_config (host_id c) (ingest_url c) (client_cert_path v) (client_key_path v) (server_ca_path v) (scan_scope v) (fullbit_scope v)
              (exclude_scope v) (scope_labels c) (write_enabled c) (orchestrator_pubkey_ref c) (orchestrator_key_id c)
              (orchestrator_signing_algorithm c) (quarantine_dir v) (act_audit_path v) (cross_mounts c) (adapter c) (adapter_pool c)
              (remote_targets c) (preview_grant_pubkey_ref c) (preview_grant_key_id c) (preview_nonce_dir v) (browse_grant_pubkey_ref c)
              (browse_grant_key_id c) (browse_nonce_dir v) (throttle c);
}.

Lemma model_validate_spec c v : model_validate c = Some v ↔ validates c v.
Proof.
  unfold AgentConf.model_validate. split.
  - intros H. repeat (apply bind_Some in H as (? & ? & H)). injection H as <-.
    repeat match goal with H : checked _ = Some _ |- _ => apply checked_some in H end.
    repeat match goal with H : _ && _ = true |- _ => apply andb_true_iff in H as [? ?] end.
    match goal with H : negb _ = true |- _ => apply negb_true_iff, bool_decide_eq_false in H end.
    split; cbn; by split_and?.
  - intros [[H1 H2] (H3 & H4 & H5) (H6 & H7 & H8) (H9 & H10 & H11 & H12) H13 H14 H15 (H16 & H17 & H18) Hv].
    rewrite H2, H3, H4, H5, H6, H7, H8, H9, H10, H11, H12, H13, H14, H15, bool_decide_false by done. cbn.
    rewrite <- Hv, H16, H17, H18. done.
Qed.

(** A validated configuration validates to itself. *)
Theorem model_validate_idem c v : model_validate c = Some v → model_validate v = Some v.
Proof.
  rewrite !model_validate_spec. intros [? (? & ? & ?) (? & ? & ?) (? & ? & ? & ?) ? ? ? ? Hv].
  destruct v. cbn in *. injection Hv. clear Hv. intros. subst.
  destruct_and?. split; cbn; split_and?; eauto using abs_path_idem, opt_abs_path_idem, scope_paths_idem.
Qed.

(** ** The override *)

(** What an update leaves as it was: everything but the six fields. *)
Definition same_but_scopes (c d : AgentConfig) : Prop :=
  d = with_scopes (scan_scope d) (fullbit_scope d) (exclude_scope d) (scope_labels d) (cross_mounts d) (throttle d) c.

Lemma set_field_confined kv c d : overridable kv = true → set_field kv c = Some d → same_but_scopes c d.
Proof.
  destruct kv as [k v], c. intros Hk%bool_decide_eq_true. cbn [fst] in Hk. unfold set_field, same_but_scopes, with_scopes. intros H.
  repeat (apply elem_of_cons in Hk as [->|Hk]; [destruct v; try done; by injection H as <-|]). by apply elem_of_nil in Hk.
Qed.

Lemma update_confined safe c d : Forall (λ kv, overridable kv = true) safe → update safe c = Some d → same_but_scopes c d.
Proof.
  intros Hs. revert c. induction Hs as [|kv safe Hkv _ IH]; intros c; simpl.
  - intros [= <-]. unfold same_but_scopes, with_scopes. by destruct c.
  - intros (e & He%set_field_confined & Hd%IH)%bind_Some; [|done]. unfold same_but_scopes in *. rewrite Hd, He. done.
Qed.

Lemma filter_overridable (override : list (string * field_value)) :
  Forall (λ kv, overridable kv = true) (filter (λ kv, overridable kv) override).
Proof. apply Forall_forall. intros kv [H _]%list_elem_of_filter. by apply Is_true_true. Qed.

(** C40: An operator's override reaches the scopes, the labels, the mount crossing and the throttle and nothing else: the identity, the
    transport, the secrets and the permission to write stay those of the local file.  What results validates as a whole, and nothing may
    be read in full that may not be scanned. *)
Theorem with_override_confined override c0 c d :
  model_validate c0 = Some c → with_override override c = Some d →
  same_but_scopes c d ∧ model_validate d = Some d ∧
  ∀ target, in_fullbit_scope (fullbit_scope d) target = true → in_scope (scan_scope d) target = true.
Proof.
  intros Hc H. assert (model_validate d = Some d) as Hd.
  { unfold AgentConf.with_override in H. destruct (filter _ override).
    - injection H as <-. by eapply model_validate_idem.
    - apply bind_Some in H as (m & _ & Hm). by eapply model_validate_idem. }
  split_and!; [|done|].
  - unfold AgentConf.with_override in H. pose proof (filter_overridable override) as Hf.
    destruct (filter _ override); [injection H as <-; unfold same_but_scopes, with_scopes; by destruct c|].
    apply bind_Some in H as (m & Hm%update_confined & Hv); [|done]. apply model_validate_idem, model_validate_spec in Hc.
    apply model_validate_spec in Hv. unfold same_but_scopes in Hm. rewrite Hm in Hv. clear Hm Hd.
    destruct Hc as [_ (E1 & E2 & E3) _ (E4 & E5 & E6 & E7) _ _ _ _ _]. destruct Hv as [_ (F1 & F2 & F3) _ (F4 & F5 & F6 & F7) _ _ _ _ Hv].
    cbn in *. rewrite E1 in F1. rewrite E2 in F2. rewrite E3 in F3. rewrite E4 in F4. rewrite E5 in F5. rewrite E6 in F6. rewrite E7 in F7.
    injection F1 as F1. injection F2 as F2. injection F3 as F3. injection F4 as F4. injection F5 as F5. injection F6 as F6. injection F7 as F7.
    unfold same_but_scopes, with_scopes. rewrite Hv at 1. rewrite <- F1, <- F2, <- F3, <- F4, <- F5, <- F6, <- F7. f_equal; by rewrite Hv.
  - intros target. apply model_validate_spec in Hd as [_ _ _ _ _ _ _ (_ & _ & Hm) _]. by apply fullbit_narrows_scan.
Qed.

(** And whatever core answers, the agent has a configuration of that kind to run with: the local one when the override fails. *)
Theorem apply_config_override_failsafe fetched c0 c :
  model_validate c0 = Some c →
  let d := _apply_config_override hundred bracketed nfkc fetched c in
  model_validate d = Some d ∧ (d = c ∨ ∃ override, fetched = Some override ∧ with_override override c = Some d).
Proof.
  intros Hc. pose proof (model_validate_idem c0 c Hc) as Hi. unfold _apply_config_override.
  destruct fetched as [[|kv override]|]; [by split; [|left]| |by split; [|left]].
  change (AgentConf.with_override hundred bracketed nfkc) with with_override.
  destruct (with_override (kv :: override) c) as [d|] eqn:E; [|by split; [|left]]. split; [|right; by exists (kv :: override)].
  unfold AgentConf.with_override in E. destruct (filter _ _); [by injection E as <-|].
  apply bind_Some in E as (m & _ & Hm). by eapply model_validate_idem.
Qed.
End Validation.

(** ** The mount points of remote targets *)

(** The elements of a stripped path are elements of the path. *)
Lemma split_lstrip s w : w ∈ split_char "/" (lstrip_by (Ascii.eqb "/") s) → w ∈ split_char "/" s.
Proof.
  induction s as [|c s IH]; [done|]. cbn [lstrip_by]. destruct (Ascii.eqb "/" c) eqn:E; [|done]. intros H%IH. cbn [split_char].
  rewrite E. by right.
Qed.

Lemma split_rstrip s w : w ∈ split_char "/" (rstrip_by (Ascii.eqb "/") s) → w ∈ split_char "/" s.
Proof.
  destruct (rstrip_spec (Ascii.eqb "/") s) as (t & Hs & Ht). intros Hw. rewrite Hs.
  destruct t as [|c t]; [by rewrite app_empty_r|].
  cbn [s_all] in Ht. apply andb_true_iff in Ht as [<-%Ascii.eqb_eq _]. rewrite split_char_concat. apply elem_of_app. by left.
Qed.

(** A path below "/scheme/host" without "..": it is normalised to one below the same. *)
Lemma resolve_anchor base l :
  split_char SLASH base = "" :: l → Forall (λ c, c ≠ "..") l → initial_slashes base = 1%nat →
  parse_path (normpath base) = mk_path 1 (filter kept l).
Proof.
  intros Hs Hd Hi. rewrite parse_normpath. unfold is_abs. rewrite Hi, resolve_split. cbn [p_parts parse_path]. f_equal.
  assert (filter kept (split_char SLASH base) = filter kept l) as -> by (rewrite Hs, filter_cons_False; [done|by intros [? _]]).
  rewrite bool_decide_true by lia. rewrite <- (app_nil_l (filter kept l)). apply (resolve_app_names true []).
  - apply Forall_forall. intros c [Hk Hc]%list_elem_of_filter. split; [done|]. pose proof (split_components base) as Hall.
    rewrite Hs, Forall_forall in Hall. apply Hall. by right.
  - rewrite Forall_forall in Hd |- *. intros c [_ Hc]%list_elem_of_filter. by apply Hd.
Qed.

(** The scheme's name in a mount point. *)
Definition scheme_dir (p : RemoteProtocol) : string := match p with SMB => "smb" | SFTP => "sftp" | RCLONE => "rclone" end.

(** A host that is not a dot or two, and an absolute path where it is put behind the host or the share as it is. *)
Definition anchored (c : RemoteBackendConfig) : Prop :=
  host c ≠ "." ∧ host c ≠ ".." ∧ (protocol c ≠ RCLONE → startswith "/" (remote_path c) = true).

Lemma path_value_no_dotdot v : path_value_ok v = true → ".." ∉ split_char "/" v.
Proof. unfold path_value_ok. rewrite !andb_true_iff. by intros [_ H%negb_true_iff%bool_decide_eq_false]. Qed.

Lemma no_dotdot_join a b : ".." ∉ split_char "/" a → ".." ∉ split_char "/" b → ".." ∉ split_char "/" (a +:+ String "/" b).
Proof. rewrite split_char_concat, elem_of_app. tauto. Qed.

Lemma host_no_slash h : _host_no_scheme h = true → has_char "/" h = false.
Proof. unfold _host_no_scheme. rewrite negb_true_iff, !orb_false_iff. tauto. Qed.

Lemma absolute_tail s : startswith "/" s = true → ∃ t, s = String "/" t ∧ split_char "/" s = "" :: split_char "/" t.
Proof.
  unfold startswith. destruct s as [|c t]; [done|]. cbn. destruct (Ascii.eqb_spec "/" c) as [<-|]; [|by case_match].
  intros _. exists t. by split.
Qed.

(** A valid remote target of that kind is catalogued under a canonical absolute mount point below "/<scheme>/<host>": no share and no path
    leads out of it. *)
Theorem catalogue_mount_contained c :
  remote_ok c = true → anchored c →
  let m := catalogue_mount c in
  normpath m = m ∧ within (mk_path 1 [scheme_dir (protocol c); host c]) (parse_path m).
Proof.
  intros Hok (Hd1 & Hd2 & Habs) m. split; [apply normpath_idem|].
  unfold remote_ok in Hok. rewrite !andb_true_iff in Hok. destruct Hok as ((((Hh0 & Hh%host_no_slash) & _) & _) & Hv).
  apply negb_true_iff, bool_decide_eq_false in Hh0. unfold _validate_protocol_shape_and_security in Hv. rewrite !andb_true_iff in Hv.
  destruct Hv as ((((Hshare & _) & _) & Hrp%path_value_no_dotdot) & Hsh).
  assert (∃ base l, m = normpath base ∧ split_char SLASH base = "" :: scheme_dir (protocol c) :: host c :: l ∧ ".." ∉ l ∧
    initial_slashes base = 1%nat) as (base & l & -> & Hs & Hl & Hi).
  { unfold m, catalogue_mount. destruct (protocol c) eqn:Ep.
    - eexists _, (split_char "/" (shown (share c) +:+ remote_path c)). split; [reflexivity|]. split; [|split; [|done]].
      + cbn. by rewrite split_char_concat, (split_char_none _ (host c)).
      + destruct (absolute_tail _ (Habs ltac:(done))) as (t & Et & Est). rewrite Et. rewrite Est in Hrp. apply no_dotdot_join; [|set_solver].
        destruct (share c) as [s|]; [|done]. simpl. apply orb_true_iff in Hsh as [->%bool_decide_eq_true|Hsh%path_value_no_dotdot]; [|done].
        by apply (bool_decide_unpack _).
    - destruct (absolute_tail _ (Habs ltac:(done))) as (t & Et & Est). eexists _, (split_char "/" t). split; [reflexivity|].
      split; [|split; [|done]].
      + rewrite Et. cbn. by rewrite split_char_concat, (split_char_none _ (host c)).
      + rewrite Est in Hrp. set_solver.
    - set (sub := strip_by (Ascii.eqb "/") (remote_path c)). destruct (bool_decide_reflect (sub = "")) as [Esub|Esub].
      + eexists _, []. split; [reflexivity|]. split; [|split; [by apply not_elem_of_nil|done]]. cbn. by rewrite (split_char_none _ (host c)).
      + eexists _, (split_char "/" sub). split; [reflexivity|]. split; [|split; [|done]].
        * cbn. by rewrite split_char_concat, (split_char_none _ (host c)).
        * intros H%split_lstrip%split_rstrip. done. }
  rewrite (resolve_anchor base (scheme_dir (protocol c) :: host c :: l)); [|done| |done].
  - split; [done|]. cbn [p_parts]. rewrite !filter_cons_True; [by eexists|split; [|done]; done|by destruct (protocol c)].
  - constructor; [by destruct (protocol c)|]. constructor; [done|]. apply Forall_forall. intros w Hw ->. done.
Qed.

(** ** Witnesses *)

Definition sftp_target (host path : string) : RemoteBackendConfig := mk_remote SFTP host None path None None None None true false.

Lemma catalogue_mount_contained_witness :
  within (mk_path 1 ["sftp"; "nas"]) (parse_path (catalogue_mount (sftp_target "nas" "/data//sub/./x"))).
Proof.
  refine (proj2 (catalogue_mount_contained (sftp_target "nas" "/data//sub/./x") _ _)); [vm_compute; reflexivity|].
  split; [discriminate|]. split; [discriminate|]. intros _. reflexivity.
Defined.

Definition local_config : AgentConfig :=
  mk_config "nas" "https://core" "/etc/fathom/c.pem" "/etc/fathom/k.pem" "/etc/fathom/ca.pem" ["/srv"; "/tank//a/"] ["/tank/a"] [] [] false None
    "orchestrator-v1" "ed25519" None None false None None [] None "preview-v1" None None "browse-v1" None
    (mk_profile Idle 80 40 4 2 (mk_throttle (mk_pause 4 30) (mk_resume 2) (mk_hard true))).

(** The same file once checked: the scope's paths are canonical. *)
Definition checked_config : AgentConfig :=
  Eval vm_compute in default local_config (model_validate 100 (λ _, true) (λ _, true) local_config).

(** What it becomes under an override of the scope; the key that is no scope key does nothing. *)
Definition narrowed : AgentConfig :=
  Eval vm_compute in default local_config
    (with_override 100 (λ _, true) (λ _, true) [("fullbit_scope", VPaths ["/srv/x/"]); ("write_enabled", VBool true)] checked_config).

Lemma with_override_confined_witness : same_but_scopes checked_config narrowed ∧ fullbit_scope narrowed = ["/srv/x"] ∧ write_enabled narrowed = false.
Proof.
  assert (model_validate 100 (λ _, true) (λ _, true) local_config = Some checked_config) as Hc by (vm_compute; reflexivity).
  assert (with_override 100 (λ _, true) (λ _, true) [("fullbit_scope", VPaths ["/srv/x/"]); ("write_enabled", VBool true)] checked_config
    = Some narrowed) as Hd by (vm_compute; reflexivity).
  split; [|by split]. exact (proj1 (with_override_confined 100 (λ _, true) (λ _, true) _ _ _ _ Hc Hd)).
Defined.

(** An override that would read in full outside of the scan scope fails as a whole, and the agent stays with its file. *)
Example widening_refused :
  let c := default local_config (model_validate 100 (λ _, true) (λ _, true) local_config) in
  _apply_config_override 100 (λ _, true) (λ _, true) (Some [("cross_mounts", VBool true); ("fullbit_scope", VPaths ["/home"])]) c = c.
Proof. vm_compute. reflexivity. Qed.

(** ** What the validators do not catch *)

(** A host of two dots passes; the mount point is then a path of the agent's own host, which another volume may have. *)
Theorem host_escapes_namespace :
  remote_ok (sftp_target ".." "/etc") = true ∧ catalogue_mount (sftp_target ".." "/etc") = "/etc".
Proof. split; vm_compute; reflexivity. Qed.

(** The path of an sftp target need not begin with a slash: two targets on two hosts may share a mount point. *)
Theorem mounts_collide :
  remote_ok (sftp_target "nas" "2/data") = true ∧ remote_ok (sftp_target "nas2" "/data") = true ∧
  catalogue_mount (sftp_target "nas" "2/data") = catalogue_mount (sftp_target "nas2" "/data").
Proof. repeat split; vm_compute; reflexivity. Qed.
