(* ===== verification/Backends.v ===== *)
(** The local storage backends beside the walk ([src/fathom/backends/]): the mount table and the transport of posix.py, the capacity and the
    resync check of posix.py and zfs.py with a platform adapter, the entries of ntfs.py and windows.py, and the registry of backends.

    What the system answers is an argument: the text of [/proc/mounts] and [/proc/mdstat] ([None]: not readable), the result of statvfs, the
    resolved path of a disk in [/sys/block].  An adapter is the results of its calls.  On Windows the walk uses the path rules of ntpath for
    its exclusions; the theorems about it are of the scan of one directory without exclusions. *)

From S2P Require Import Prelude PyStr PosixPath Staging Walk Supervisor Adapters AgentConf.
From S2P Require WinPath.

Local Open Scope Z_scope.

(** ** [posix.py] *)

(** [s.replace("\040", " ")]: the octal escape of a space. *)
Fixpoint unescape_space (s : string) : string :=
  match s with
  | String "\" (String "0" (String "4" (String "0" t))) => String " " (unescape_space t)
  | String c t => String c (unescape_space t)
  | EmptyString => EmptyString
  end.

(** A line of the table: device, mount point and type. *)
Definition mount_line (line : string) : option (string * string * string) :=
  match words line with device :: mp :: fstype :: _ => Some (device, unescape_space mp, fstype) | _ => None end.

Definition under_mount (real_path mp : string) : bool :=
  bool_decide (real_path = mp) || startswith (rstrip_by (Ascii.eqb "/") mp +:+ "/") real_path.

(** One step of the loop over the lines: the best mount point so far with its device and type. *)
Definition better_mount (real_path : string) (best : string * string * string) (line : string) : string * string * string :=
  match mount_line line with
  | Some (device, mp, fstype) =>
      if under_mount real_path mp && (String.length best.1.1 <=? String.length mp)%nat then (mp, device, fstype) else best
  | None => best
  end.

Definition _resolve_mount (mounts : option string) (real_path : string) : string * string :=
  match mounts with
  | None => ("unknown", "unknown")
  | Some text => let '(_, device, fstype) := foldl (better_mount real_path) ("", "unknown", "unknown") (splitlines text) in (device, fstype)
  end.

Definition _bus_from_syspath (syspath : string) : string :=
  let parts := split_char "/" (lower syspath) in
  if existsb (startswith "usb") parts then "usb" else if existsb (startswith "ata") parts then "sata" else "unknown".

(** [block]: the real path of a name in [/sys/block]. *)
Definition _classify_transport (block : string → option string) (device : string) : string :=
  let base := path_name (parse_path device) in
  if startswith "nvme" base then "nvme"
  else
    let disk := rstrip_by is_digit base in
    if negb (existsb (λ p, startswith p disk) ["sd"; "hd"; "vd"]) then "unknown"
    else match block disk with None => "unknown" | Some syspath => _bus_from_syspath syspath end.

Record statvfs := mk_statvfs { f_blocks : Z; f_frsize : Z; f_bavail : Z; f_bfree : Z }.

(** The sizes of the frame are not negative. *)
Definition vinfo_frame (i : VolumeInfo) : result exc VolumeInfo :=
  if (0 <=? vi_total i) && (0 <=? vi_used i) && (0 <=? vi_free i) then Ok i else Err ValueError.

Section Volume.
Context (realpath : string → string) (mounts : option string) (block : string → option string).

Definition posix_volume_info (stat : option statvfs) (mountpoint : string) : result exc VolumeInfo :=
  let real := realpath mountpoint in
  match stat with
  | None => Err OSError
  | Some s =>
      let '(device, fs_type) := _resolve_mount mounts real in
      vinfo_frame (mk_vinfo real None fs_type device (_classify_transport block device) None None
        (f_blocks s * f_frsize s) ((f_blocks s - f_bfree s) * f_frsize s) (f_bavail s * f_frsize s))
  end.

Definition _mdstat_resyncing (mdstat : option string) : bool :=
  match mdstat with Some text => existsb (λ m, contains m (lower text)) _RESYNC_MARKERS | None => false end.

(** ** [zfs.py] *)

(** The answers of an adapter, and the pool it is asked about. *)
Record adapter_reads := mk_reads {
  rd_pool : string; rd_usage : result exc (Z * Z * Z); rd_pools : result exc (list PoolInfo); rd_healthy : result exc bool;
}.

Definition _raid_role (pool_name : string) (raid_level : option string) : string :=
  match raid_level with
  | Some level => if bool_decide (level = "") then "zpool " +:+ pool_name else "zpool " +:+ pool_name +:+ " " +:+ level
  | None => "zpool " +:+ pool_name
  end.

Definition role_of (pool : string) (pools : list PoolInfo) : option string :=
  (λ i, _raid_role (p_name i) (p_raid_level i)) <$> head (filter (λ i, p_name i = pool) pools).

(** [model_copy]: the copy is not validated. *)
Definition zfs_volume_info (adapter : option adapter_reads) (stat : option statvfs) (mountpoint : string) : result exc VolumeInfo :=
  info ← posix_volume_info stat mountpoint;
  let info := mk_vinfo (vi_mountpoint info) (vi_display_name info) "zfs" (vi_device info) (vi_transport info) (vi_raid_role info)
                (Some (vi_mountpoint info)) (vi_total info) (vi_used info) (vi_free info) in
  match adapter with
  | None => Ok info
  | Some a =>
      match (usage ← rd_usage a; pools ← rd_pools a; Ok (usage, pools)) with
      | Ok ((total, used, free), pools) =>
          Ok (mk_vinfo (vi_mountpoint info) (vi_display_name info) "zfs" (vi_device info) (vi_transport info) (role_of (rd_pool a) pools)
                (Some (vi_mountpoint info)) total used free)
      | Err e => if is_adapter_error e then Ok info else Err e
      end
  end.

Definition zfs_is_busy (adapter : option adapter_reads) (mdstat : option string) : result exc bool :=
  match adapter with
  | None => Ok (_mdstat_resyncing mdstat)
  | Some a => match rd_healthy a with Ok b => Ok (negb b) | Err e => if is_adapter_error e then Ok true else Err e end
  end.
End Volume.

(** ** [ntfs.py] *)

Definition SYNTHETIC_UID : Z := -1.
Definition SYNTHETIC_GID : Z := -1.
Definition _NO_OWNERSHIP_FS : list string := ["exfat"; "vfat"; "fat"; "msdos"].
Definition _SUPPORTED_FS : list string := ["ntfs"; "ntfs3"; "fuseblk"] ++ _NO_OWNERSHIP_FS.

Section Ntfs.
(** The type of the root's file system, in lower case, and the extended attributes of a path. *)
Context (fs_type : string) (listxattr : string → option (list string)).

Definition _has_ads (path : string) : bool :=
  match listxattr path with Some names => existsb (startswith "user.") names | None => false end.

Definition ntfs_annotate (flags : flags_dict) (path name : string) (st : stat_result) (is_dir is_symlink : bool) : flags_dict :=
  if negb (bool_decide (fs_type ∈ ["ntfs"; "ntfs3"; "fuseblk"])) then flags
  else if is_dir || is_symlink then flags
  else
    let size_on_disk := default 0 (st_blocks st) * 512 in
    (flags ++ if (0 <? size_on_disk) && (size_on_disk <? st_size st) then [("compressed", true)] else [])
      ++ if _has_ads path then [("ads", true)] else [].

Definition ntfs_owner (_ : bool) (st : stat_result) (flags : flags_dict) : flags_dict * Z * Z :=
  if bool_decide (fs_type ∈ _NO_OWNERSHIP_FS) then (flags ++ [("synthetic_owner", true)], SYNTHETIC_UID, SYNTHETIC_GID)
  else (flags, st_uid st, st_gid st).

Definition ntfs_hooks : hooks := mk_hooks (λ _ _, false) ntfs_annotate ntfs_owner (λ _, true).
End Ntfs.

(** ** [winattrs.py] *)

Definition ATTR_REPARSE_POINT : Z := 0x400.
Definition ATTR_OFFLINE : Z := 0x1000.
Definition ATTR_RECALL_ON_OPEN : Z := 0x40000.
Definition ATTR_RECALL_ON_DATA_ACCESS : Z := 0x400000.
Definition _PLACEHOLDER_MASK : Z := Z.lor (Z.lor ATTR_OFFLINE ATTR_RECALL_ON_OPEN) ATTR_RECALL_ON_DATA_ACCESS.

Record WindowsEntryClass := mk_class { is_reparse : bool; is_placeholder : bool }.

Definition descend_ok (c : WindowsEntryClass) : bool := negb (is_reparse c).
Definition hash_ok (c : WindowsEntryClass) : bool := negb (is_reparse c || is_placeholder c).

Definition classify_attributes (file_attributes : Z) : WindowsEntryClass :=
  mk_class (negb (Z.land file_attributes ATTR_REPARSE_POINT =? 0)) (negb (Z.land file_attributes _PLACEHOLDER_MASK =? 0)).

(** ** [windows.py] *)

Section Windows.
(** [entry_attributes]: the attributes of a stat, 0 where the platform has none. *)
Context (entry_attributes : stat_result → Z).

Definition windows_owner (from_dirent : bool) (st : stat_result) (flags : flags_dict) : flags_dict * Z * Z :=
  if from_dirent then
    let cls := classify_attributes (entry_attributes st) in
    (flags ++ (if is_reparse cls then [("reparse_point", true)] else []) ++ (if is_placeholder cls then [("placeholder", true)] else [])
       ++ [("synthetic_owner", true)], SYNTHETIC_UID, SYNTHETIC_GID)
  else (flags, st_uid st, st_gid st).

Definition windows_may_descend (de : DirEntry) : bool :=
  match de_stat de with Some st => negb (is_reparse (classify_attributes (entry_attributes st))) | None => false end.

Definition windows_hooks : hooks := mk_hooks (λ _ _, false) (λ flags _ _ _ _ _, flags) windows_owner windows_may_descend.

(** What happens to one file that is to be hashed: the calls made on it, and whether a reader comes back. *)
Inductive file_call := Lstat (path : string) | OpenRead (path : string).

Definition open_for_hash (lstat : string → option stat_result) (can_open : string → bool) (path : string) : result exc () * list file_call :=
  match lstat path with
  | None => (Err OSError, [Lstat path])
  | Some st =>
      if negb (hash_ok (classify_attributes (entry_attributes st))) then (Err OSError, [Lstat path])
      else (if can_open path then Ok () else Err OSError, [Lstat path; OpenRead path])
  end.
End Windows.

(** [shutil.disk_usage] and the device of the stat; [hex8] is the format [08x]. *)
Definition windows_volume_info (hex8 : Z → string) (usage : option (Z * Z)) (dev : option Z) (mountpoint : string) : result exc VolumeInfo :=
  match WinPath.validate_windows_config_path mountpoint with
  | Err _ => Err ValueError
  | Ok p =>
      match usage, dev with
      | Some (total, free), Some dev =>
          vinfo_frame (mk_vinfo (WinPath.win_str p) None "ntfs" ("volume-serial-" +:+ hex8 dev) "unknown" None None total (total - free) free)
      | _, _ => Err OSError
      end
  end.

(** ** [registry.py] *)

Inductive Backend := WindowsBackend | ZfsBackend | NtfsExfatBackend | SmbBackend (c : RemoteBackendConfig) | RcloneBackend (c : RemoteBackendConfig)
  | SftpBackend (c : RemoteBackendConfig) | PosixBackend.

(** What a backend's [supports] asks the host: the platform, which paths are directories, real paths and the mount table. *)
Record platform := mk_platform { nt : bool; dir_at : string → bool; real_of : string → string; mount_table : option string }.

Definition windows_supports (h : platform) (mountpoint : string) : bool :=
  nt h && match WinPath.validate_windows_config_path mountpoint with Ok p => dir_at h (WinPath.win_str p) | Err _ => false end.
Definition zfs_supports (h : platform) (mountpoint : string) : bool :=
  let real := real_of h mountpoint in dir_at h real && bool_decide ((_resolve_mount (mount_table h) real).2 = "zfs").
Definition ntfs_supports (h : platform) (mountpoint : string) : bool :=
  let real := real_of h mountpoint in dir_at h real && bool_decide (lower (_resolve_mount (mount_table h) real).2 ∈ _SUPPORTED_FS).

Definition supports (h : platform) (b : Backend) (mountpoint : string) : bool :=
  match b with
  | WindowsBackend => windows_supports h mountpoint
  | ZfsBackend => zfs_supports h mountpoint
  | NtfsExfatBackend => ntfs_supports h mountpoint
  | SmbBackend c | RcloneBackend c | SftpBackend c => bool_decide (mountpoint = mount_key c)
  | PosixBackend => dir_at h mountpoint
  end.

Definition register (b : Backend) (registry : list Backend) : list Backend := registry ++ [b].

(** [NoBackendError] is [None]. *)
Definition resolve (h : platform) (registry : list Backend) (mountpoint : string) : option Backend :=
  head (filter (λ b, supports h b mountpoint) registry).

(** The constructors check the protocol again, and that of SMB the share. *)
Definition remote_backend (c : RemoteBackendConfig) : result exc Backend :=
  match protocol c with
  | SMB => if present (share c) then Ok (SmbBackend c) else Err ValueError
  | RCLONE => Ok (RcloneBackend c)
  | SFTP => Ok (SftpBackend c)
  end.

Fixpoint register_remotes (targets : list RemoteBackendConfig) (registry : list Backend) : result exc (list Backend) :=
  match targets with [] => Ok registry | c :: targets => b ← remote_backend c; register_remotes targets (register b registry) end.

Definition build_default_registry (h : platform) (targets : list RemoteBackendConfig) : result exc (list Backend) :=
  let registry := if nt h then register WindowsBackend [] else [] in
  registry ← register_remotes targets (register NtfsExfatBackend (register ZfsBackend registry));
  Ok (register PosixBackend registry).

(** * Properties *)

(** ** The mount of a path *)

(** The mount points of the table that contain a path, in its order. *)
Definition candidates (mounts : string) (real_path : string) : list (string * string * string) :=
  filter (λ m, under_mount real_path m.1.2) (omap mount_line (splitlines mounts)).

Lemma better_mount_fold real lines best :
  foldl (better_mount real) best lines =
  foldl (λ b m, if (String.length b.1.1 <=? String.length m.1.2)%nat then (m.1.2, m.1.1, m.2) else b) best
    (filter (λ m, under_mount real m.1.2) (omap mount_line lines)).
Proof.
  revert best. induction lines as [|l lines IH]; intros best; [done|]. cbn [foldl omap list_omap]. rewrite IH. unfold better_mount.
  destruct (mount_line l) as [[[dev mp] fs]|]; [|done]. rewrite filter_cons. cbn [fst snd].
  destruct (under_mount real mp); cbn [andb Is_true]; by case_decide.
Qed.

(** A file system is named only by the last of the longest mount points that contain the path; [unknown] means that none does. *)
Theorem resolve_mount_spec text real device fstype :
  _resolve_mount (Some text) real = (device, fstype) →
  (candidates text real = [] ∧ device = "unknown" ∧ fstype = "unknown") ∨
  ∃ pre mp post, candidates text real = pre ++ (device, mp, fstype) :: post ∧
    Forall (λ m, (String.length m.1.2 ≤ String.length mp)%nat) pre ∧ Forall (λ m, (String.length m.1.2 < String.length mp)%nat) post.
Proof.
  unfold _resolve_mount. rewrite better_mount_fold. fold (candidates text real).
  set (step := λ (b m : string * string * string), if (String.length b.1.1 <=? String.length m.1.2)%nat then (m.1.2, m.1.1, m.2) else b).
  assert (∀ l, foldl step ("", "unknown", "unknown") l = ("", "unknown", "unknown") ∧ l = [] ∨
    ∃ pre m post, l = pre ++ m :: post ∧ foldl step ("", "unknown", "unknown") l = (m.1.2, m.1.1, m.2) ∧
      Forall (λ x, (String.length x.1.2 ≤ String.length m.1.2)%nat) pre ∧ Forall (λ x, (String.length x.1.2 < String.length m.1.2)%nat) post) as Hmax.
  { induction l as [|x l IH] using rev_ind; [by left|]. right. rewrite foldl_app. cbn [foldl].
    destruct IH as [[-> ->]|(pre & m & post & -> & -> & Hpre & Hpost)].
    - exists [], x, []. by split_and!.
    - unfold step. cbn [fst snd]. destruct (String.length m.1.2 <=? String.length x.1.2)%nat eqn:E.
      + apply Nat.leb_le in E. exists (pre ++ m :: post), x, []. split_and!; try done. apply Forall_app. split.
        * eapply Forall_impl; [exact Hpre|]. cbn. lia.
        * constructor; [lia|]. eapply Forall_impl; [exact Hpost|]. cbn. lia.
      + apply Nat.leb_gt in E. exists pre, m, (post ++ [x]). split_and!; try done; [by rewrite <- app_assoc|].
        apply Forall_app. split; [done|]. by constructor. }
  destruct (Hmax (candidates text real)) as [[-> ->]|(pre & [[dev mp] fs] & post & E & -> & Hpre & Hpost)]; intros [= <- <-]; [by left|].
  right. exists pre, mp, post. by rewrite E.
Qed.

(** ** The resync guard and the capacity of a ZFS host *)

(** With an adapter the pool is free for a full-bit scan only if the adapter said that it is healthy: an adapter that fails blocks it. *)
Theorem zfs_busy_fails_closed a mdstat : zfs_is_busy (Some a) mdstat = Ok false ↔ rd_healthy a = Ok true.
Proof. unfold zfs_is_busy. destruct (rd_healthy a) as [[]|e]; [done..|]. by destruct (is_adapter_error e). Qed.

(** With an adapter the capacity is the adapter's or, when it fails, that of statvfs; never a mixture. *)
Theorem zfs_capacity realpath mounts block a stat mp i :
  zfs_volume_info realpath mounts block (Some a) stat mp = Ok i →
  (∃ pools, rd_usage a = Ok (vi_total i, vi_used i, vi_free i) ∧ rd_pools a = Ok pools ∧ vi_raid_role i = role_of (rd_pool a) pools) ∨
  (zfs_volume_info realpath mounts block None stat mp = Ok i ∧
   ∃ e, is_adapter_error e = true ∧ (rd_usage a = Err e ∨ rd_pools a = Err e)).
Proof.
  unfold zfs_volume_info. intros (info & Hi & H)%bind_ok. rewrite Hi. cbn [mbind result_bind].
  destruct (rd_usage a) as [[[t u] f]|e] eqn:Eu; cbn [mbind result_bind] in H.
  - destruct (rd_pools a) as [pools|e] eqn:Ep; cbn [mbind result_bind] in H.
    + injection H as <-. left. by exists pools.
    + destruct (is_adapter_error e) eqn:Ee; [|done]. right. split; [by injection H as <-|]. exists e. auto.
  - destruct (is_adapter_error e) eqn:Ee; [|done]. right. split; [by injection H as <-|]. exists e. auto.
Qed.

(** What the backend never has from an adapter is the transport: that is what the name of the device gives, with an adapter or without. *)
Lemma zfs_transport_is_posix realpath mounts block adapter stat mp i :
  zfs_volume_info realpath mounts block adapter stat mp = Ok i →
  vi_transport i = _classify_transport block (vi_device i) ∧ vi_dataset i = Some (vi_mountpoint i).
Proof.
  unfold zfs_volume_info, posix_volume_info. intros (info & Hi & H)%bind_ok. destruct stat as [s|]; [|done].
  destruct (_resolve_mount mounts (realpath mp)) as [dev fs]. unfold vinfo_frame in Hi. destruct (_ && _); [|done]. injection Hi as <-.
  destruct adapter as [a|]; [|by injection H as <-]. cbn in H.
  destruct (rd_usage a ≫= _) as [[[[? ?] ?] ?]|e]; [by injection H as <-|]. destruct (is_adapter_error e); [|done]. by injection H as <-.
Qed.

(** ** Owners *)

(** What holds of every entry that the backend builds holds of every entry of a walk, whatever the schedule. *)
Lemma walks_entries h scandir lstat realpath wc root follow one_fs exclude out (E : FsEntry → Prop) :
  (∀ b path name st, E (_entry h b path name st)) →
  walks h scandir lstat realpath wc root follow one_fs exclude out → Forall E out.
Proof.
  intros HE. unfold walks, walk_start. destruct (is_excluded_path _ _); [by intros ->|].
  destruct (lstat (realpath root)) as [st|]; [|by intros ->]. cbn. intros (s & Hr & _ & ->).
  apply (walk_keeps (walk_scan h scandir st follow one_fs exclude) wc (λ _, True) E _ s) in Hr as (_ & _ & H); [done| |].
  - intros p. unfold walk_scan, _scan_dir. rewrite scan_dir_spec. cbn [fst snd app]. split; [|by apply Forall_forall].
    apply Forall_forall. intros e (de & _ & He)%list_elem_of_omap. unfold reported in He. destruct (is_excluded_path _ _); [done|].
    apply fmap_Some in He as (st' & _ & ->). apply HE.
  - split; [by repeat constructor|]. split; [constructor|]. by constructor.
Qed.

(** The owner of an entry is the sentinel, and flagged. *)
Definition synthetic (e : FsEntry) : Prop :=
  f_uid e = SYNTHETIC_UID ∧ f_gid e = SYNTHETIC_GID ∧ ∃ flags, f_flags e = flags_text (flags ++ [("synthetic_owner", true)]).

(** No entry of a file system without owners gets one, the root included. *)
Theorem ownerless_walk fs_type listxattr scandir lstat realpath wc root follow one_fs exclude out :
  fs_type ∈ _NO_OWNERSHIP_FS →
  walks (ntfs_hooks fs_type listxattr) scandir lstat realpath wc root follow one_fs exclude out → Forall synthetic out.
Proof.
  intros Hfs. apply walks_entries. intros b path name st. unfold _entry, ntfs_hooks, ntfs_owner. cbn [_owner].
  rewrite bool_decide_true by done. split_and!; [done..|]. by eexists.
Qed.

(** One directory on Windows: every entry is synthetic, and a junction or any other reparse point is never walked into, even if links are
    to be followed. *)
Theorem windows_listing attrs root_dev follow one_fs des entries subdirs :
  scan_loop (windows_hooks attrs) root_dev follow one_fs [] des [] [] = (entries, subdirs) →
  Forall synthetic entries ∧
  Forall (λ p, ∃ de st, de ∈ des ∧ p = de_path de ∧ de_stat de = Some st ∧ Z.testbit (attrs st) 10 = false) subdirs.
Proof.
  rewrite scan_dir_spec. intros [= <- <-]. split; apply Forall_forall.
  - intros e (de & _ & Hr)%list_elem_of_omap. unfold reported in Hr. apply fmap_Some in Hr as (st & _ & ->).
    unfold _entry, windows_hooks, windows_owner. cbn [_owner]. split_and!; [done..|]. eexists. cbn. by rewrite !app_assoc.
  - intros p (de & -> & [Hv Hde]%list_elem_of_filter)%list_elem_of_fmap. exists de. unfold visited in Hv. apply Is_true_true in Hv.
    rewrite !andb_true_iff in Hv. destruct Hv as [_ [Hm _]]. cbn [_may_descend windows_hooks] in Hm. unfold windows_may_descend in Hm.
    destruct (de_stat de) as [st|]; [|done]. exists st. split_and!; [done..|]. apply negb_true_iff in Hm. cbn [is_reparse classify_attributes] in Hm.
    apply negb_false_iff, Z.eqb_eq in Hm. replace (Z.testbit (attrs st) 10) with (Z.testbit (Z.land (attrs st) ATTR_REPARSE_POINT) 10).
    + by rewrite Hm.
    + rewrite Z.land_spec. change (Z.testbit ATTR_REPARSE_POINT 10) with true. by rewrite andb_true_r.
Qed.

(** The root of a walk has no directory entry: it keeps the uid and gid of its stat, which on Windows are 0, and is not flagged. *)
Lemma windows_root_is_owned attrs lstat realpath root st s :
  walk_start (windows_hooks attrs) lstat realpath root [] = Some (st, s) →
  ∃ e, results s = [e] ∧ f_path e = realpath root ∧ f_uid e = st_uid st ∧ f_gid e = st_gid st.
Proof.
  unfold walk_start. cbn [normalise_excludes filter list_filter fmap list_fmap is_excluded_path]. destruct (lstat (realpath root)) as [st'|]; [|done].
  cbn. intros [= -> <-]. by eexists.
Qed.

(** ** Content *)

Lemma land_bit a b n : Z.land a b = 0 → Z.testbit b n = true → Z.testbit a n = false.
Proof.
  intros H Hb. pose proof (Z.land_spec a b n) as Hs. rewrite H, Hb, andb_true_r, Z.bits_0 in Hs. done.
Qed.

(** A file is opened for hashing only if its own stat shows a plain local file: no reparse point, not offline, nothing that an open or a
    read would recall.  So a scan downloads nothing. *)
Theorem never_hydrates attrs lstat can_open path p :
  OpenRead p ∈ (open_for_hash attrs lstat can_open path).2 →
  p = path ∧ ∃ st, lstat path = Some st ∧ Forall (λ n, Z.testbit (attrs st) n = false) [10; 12; 18; 22].
Proof.
  unfold open_for_hash. destruct (lstat path) as [st|]; [|by intros H%list_elem_of_singleton].
  destruct (hash_ok _) eqn:Eh; cbn [negb snd]; [|by intros H%list_elem_of_singleton].
  intros [H|[= ->]%list_elem_of_singleton]%elem_of_cons; [done|]. split; [done|]. exists st. split; [done|].
  unfold hash_ok in Eh. apply negb_true_iff, orb_false_iff in Eh as [H1 H2]. cbn [is_reparse is_placeholder classify_attributes] in *.
  apply negb_false_iff, Z.eqb_eq in H1, H2.
  repeat constructor; [eapply land_bit; [exact H1|done]|eapply land_bit; [exact H2|done]..].
Qed.

(** And every such file is tried. *)
Lemma plain_file_is_opened attrs lstat can_open path st :
  lstat path = Some st → hash_ok (classify_attributes (attrs st)) = true →
  (open_for_hash attrs lstat can_open path).1 = if can_open path then Ok () else Err OSError.
Proof. intros H Hh. unfold open_for_hash. by rewrite H, Hh. Qed.

(** ** The registry *)

Definition remote_of (c : RemoteBackendConfig) : Backend :=
  match protocol c with SMB => SmbBackend c | RCLONE => RcloneBackend c | SFTP => SftpBackend c end.
Definition local_backends (h : platform) : list Backend := (if nt h then [WindowsBackend] else []) ++ [ZfsBackend; NtfsExfatBackend].

Lemma register_remotes_ok targets registry :
  forallb remote_ok targets = true → register_remotes targets registry = Ok (registry ++ (remote_of <$> targets)).
Proof.
  revert registry. induction targets as [|c targets IH]; intros registry; cbn [forallb register_remotes fmap list_fmap]; [by rewrite app_nil_r|].
  intros [Hc Ht]%andb_true_iff. assert (remote_backend c = Ok (remote_of c)) as ->.
  { unfold remote_backend, remote_of. destruct (protocol c) eqn:Ep; [|done..]. unfold remote_ok, _validate_protocol_shape_and_security in Hc.
    rewrite !andb_true_iff in Hc. destruct Hc as [_ ((((Hs & _) & _) & _) & _)]. rewrite Ep in Hs.
    rewrite bool_decide_true in Hs by done. cbn [andb] in Hs. apply negb_true_iff, negb_false_iff in Hs. by rewrite Hs. }
  cbn [mbind result_bind]. rewrite IH by done. unfold register. by rewrite <- app_assoc.
Qed.

(** Validated targets always give a registry: the file systems that know most first, the targets in their order, POSIX last. *)
Theorem default_registry h targets :
  forallb remote_ok targets = true →
  build_default_registry h targets = Ok (local_backends h ++ (remote_of <$> targets) ++ [PosixBackend]).
Proof.
  intros Ht. unfold build_default_registry. rewrite register_remotes_ok by done. cbn [mbind result_bind]. unfold register, local_backends.
  destruct (nt h); cbn [app]; by rewrite <- ?app_assoc.
Qed.

Lemma supports_remote h c mountpoint : supports h (remote_of c) mountpoint = bool_decide (mountpoint = mount_key c).
Proof. unfold remote_of. by destruct (protocol c). Qed.

(** Every directory of the host has a backend, a local one unless a target has that path for its key; and a key that is no directory
    resolves to the first target that has it. *)
Theorem resolve_spec h targets registry mountpoint :
  forallb remote_ok targets = true → build_default_registry h targets = Ok registry →
  (dir_at h mountpoint = true → mountpoint ∉ mount_key <$> targets →
    ∃ b, resolve h registry mountpoint = Some b ∧ b ∈ local_backends h ++ [PosixBackend]) ∧
  (Forall (λ b, supports h b mountpoint = false) (local_backends h) →
    ∀ c, head (filter (λ c, mount_key c = mountpoint) targets) = Some c → resolve h registry mountpoint = Some (remote_of c)).
Proof.
  intros Ht. rewrite default_registry by done. intros [= <-]. unfold resolve. rewrite !filter_app. split.
  - intros Hd Hk. assert (filter (λ b, supports h b mountpoint) (remote_of <$> targets) = []) as ->.
    { apply filter_none, Forall_forall. intros b (c & -> & Hc)%list_elem_of_fmap. rewrite supports_remote. intros ->%bool_decide_unpack.
      by apply Hk, list_elem_of_fmap_2. }
    cbn [app]. rewrite (filter_cons_True _ PosixBackend) by (cbn; by rewrite Hd). cbn [filter list_filter].
    destruct (filter _ (local_backends h)) as [|b l] eqn:El; cbn [app head].
    + exists PosixBackend. split; [done|]. apply elem_of_app. right. by apply list_elem_of_singleton.
    + exists b. split; [done|]. assert (b ∈ filter (λ b, supports h b mountpoint) (local_backends h)) as [_ Hb]%list_elem_of_filter
        by (rewrite El; left). apply elem_of_app. by left.
  - intros Hl c Hc. assert (filter (λ b, supports h b mountpoint) (local_backends h) = []) as ->.
    { apply filter_none. eapply Forall_impl; [exact Hl|]. intros b Hb. rewrite Hb. by intros []. }
    cbn [app]. clear Hl. induction targets as [|d targets IH]; [done|]. cbn [forallb] in Ht. apply andb_true_iff in Ht as [_ Ht].
    rewrite fmap_cons. rewrite filter_cons in Hc. case_decide as Hd.
    + injection Hc as ->. rewrite filter_cons_True by (rewrite supports_remote; by apply bool_decide_pack). done.
    + rewrite filter_cons_False by (rewrite supports_remote; intros H%bool_decide_unpack; by apply Hd). by apply IH.
Qed.

(** The key of a target has neither its port nor its user: of two servers behind one name the second is never scanned, and the first twice. *)
Lemma port_shadowed :
  let target port := mk_remote SFTP "nas" None "/data" (Some port) None None None true false in
  let h := mk_platform false (λ _, false) Datatypes.id None in
  remote_ok (target 22) = true ∧ remote_ok (target 2222) = true ∧
  ∃ registry, build_default_registry h [target 22; target 2222] = Ok registry ∧
    (resolve h registry <$> (mount_key <$> [target 22; target 2222])) = [Some (SftpBackend (target 22)); Some (SftpBackend (target 22))].
Proof. split; [vm_compute; reflexivity|]. split; [vm_compute; reflexivity|]. eexists. split; vm_compute; reflexivity. Qed.

(** *** Examples *)

Definition mounts_text : string :=
  PyStr.join (String "010" "") ["/dev/sda2 / ext4 rw 0 0"; "tank /tank zfs rw 0 0"; "/dev/sdb1 /mnt/My\040Disk fuseblk rw 0 0"; "tank/a /tank/a zfs rw 0 0";
                                "nas:/x /tank nfs rw 0 0"].

Example mount_examples :
  (_resolve_mount (Some mounts_text) <$> ["/tank/a/f"; "/tank/ab"; "/mnt/My Disk/x"; "/home"; "relative"]) =
  [("tank/a", "zfs"); ("nas:/x", "nfs"); ("/dev/sdb1", "fuseblk"); ("/dev/sda2", "ext4"); ("unknown", "unknown")].
Proof. vm_compute. reflexivity. Qed.

Example transport_examples :
  let block disk := if bool_decide (disk = "sda") then Some "/sys/devices/pci0000:00/ata1/host0/block/sda"
                    else Some "/sys/devices/pci0000:00/usb2/2-1/block/sdb" in
  (_classify_transport block <$> ["/dev/nvme0n1p2"; "/dev/sda2"; "/dev/sdb1"; "tank/a"; "tmpfs"]) = ["nvme"; "sata"; "usb"; "unknown"; "unknown"].
Proof. vm_compute. reflexivity. Qed.
