(* ===== verification/Remote.v ===== *)
(** The remote storage backends ([src/fathom/backends/]): remote.py with the resolution of secrets, the synthetic inodes and the walk that
    the SMB and SFTP backends share; the transports of sftp.py and smb.py over the calls of their client libraries; rclone.py over the
    output of the rclone program.

    What a client library answers is an argument, an exception a value of [remote_error]; a mode is the [st_mode] of a stat and times are
    floats, kept as the integers they encode.  BLAKE2b is a parameter.  The output of rclone is the chunks that its pipes give; the parsed
    document of an output is an argument ([None]: it does not parse). *)

From stdpp Require Import gmap.
From S2P Require Import Prelude PyStr PyDict PosixPath Json Staging Walk Adapters AgentConf Backends.
From S2P Require Wire Rollup.

Local Open Scope Z_scope.

(** ** Errors and credentials *)

(** [SFTPError] is the error class of asyncssh, which is no [OSError]; [ValidationError] is pydantic's. *)
Inductive remote_error := RemoteBackendError | MissingClientLibraryError | FullBitUnsupportedError | RemoteOSError | SFTPError | ValidationError
  | DataError.

Record RemoteCreds := mk_creds { cr_username : option string; cr_password : option string; cr_private_key : option string }.

Definition newline (c : ascii) : bool := bool_decide (code c = 10).

(** [secrets]: the files of the Docker-secrets mount. *)
Definition docker_secret_provider (secrets : string → option string) (ref : string) : result remote_error string :=
  if has_char "/" ref || bool_decide (ref ∈ [""; "."; ".."]) then Err RemoteBackendError
  else match secrets ref with Some raw => Ok (rstrip_by newline raw) | None => Err RemoteBackendError end.

Definition env_or_docker_secret_provider (env secrets : string → option string) (ref : string) : result remote_error string :=
  match env ref with Some value => Ok value | None => docker_secret_provider secrets ref end.

(** [secret_provider(ref) if ref and secret_provider else None]. *)
Definition resolved (provider : option (string → result remote_error string)) (ref : option string) : result remote_error (option string) :=
  match ref, provider with
  | Some r, Some p => if bool_decide (r = "") then Ok None else Some <$> p r
  | _, _ => Ok None
  end.

Definition resolve_creds (username password_ref private_key_ref : option string) (provider : option (string → result remote_error string))
    : result remote_error RemoteCreds :=
  match provider with
  | None => if bool_decide (password_ref = None) && bool_decide (private_key_ref = None) then Ok (mk_creds username None None)
            else Err RemoteBackendError
  | Some _ =>
      password ← resolved provider password_ref;
      private_key ← resolved provider private_key_ref;
      Ok (mk_creds username password private_key)
  end.

(** The set of paths that are new or have another time. *)
Definition restat_changed (previous : gmap string Z) (current : list (string * Z)) : gset string :=
  list_to_set (filter (λ pm, previous !! pm.1 ≠ Some pm.2) current).*1.

(** ** The walk *)

Record RemoteStat := mk_rstat {
  r_name : string; r_path : string; r_is_dir : bool; r_is_symlink : bool; r_size : Z; r_mtime : Z; r_uid : Z; r_gid : Z;
}.

Section Inode.
(** The eight bytes of the digest, as a number. *)
Context (blake2b : string → Z).

Definition synthetic_inode (path : string) : Z := Z.land (blake2b path) 0x7FFFFFFFFFFFFFFF.

(** The sizes of the frame are not negative. *)
Definition to_fs_entry (stat : RemoteStat) (path : option string) : result remote_error FsEntry :=
  let effective_path := default (r_path stat) path in
  if r_size stat <? 0 then Err ValidationError
  else Ok (mk_fs effective_path (r_name stat) (r_is_dir stat) (r_is_symlink stat) (r_size stat) (r_size stat) (r_mtime stat) (r_mtime stat)
             (r_uid stat) (r_gid stat) (synthetic_inode effective_path) 0 (flags_text []) None None).

Definition _to_catalogue_path (real_path remote_root mount : string) : string :=
  let rel := drop_s (String.length (rstrip_by (Ascii.eqb "/") remote_root)) real_path in
  if bool_decide (rel = "") then mount else mount +:+ rel.

(** How a walk ended: the stack is empty, a call raised, or the fuel is used up. *)
Inductive walk_end := Finished | Raised (e : remote_error) | Running.

Section RemoteWalk.
Context (listdir : string → result remote_error (list RemoteStat)) (follow_symlinks : bool) (mount remote_root : string).

Definition descends (child : RemoteStat) : bool := r_is_dir child && (follow_symlinks || negb (r_is_symlink child)).

(** The loop over the children: the entries that are yielded, the directories pushed, and the exception, if one is raised. *)
Fixpoint emit (children : list RemoteStat) : list FsEntry * list string * option remote_error :=
  match children with
  | [] => ([], [], None)
  | child :: children =>
      match to_fs_entry child (Some (_to_catalogue_path (r_path child) remote_root mount)) with
      | Err e => ([], [], Some e)
      | Ok entry =>
          let '(entries, pushed, raised) := emit children in
          (entry :: entries, if descends child then r_path child :: pushed else pushed, raised)
      end
  end.

(** The loop over the stack, its top first. *)
Fixpoint walk_loop (fuel : nat) (stack : list string) : list FsEntry * walk_end :=
  match stack, fuel with
  | [], _ => ([], Finished)
  | _, O => ([], Running)
  | current :: stack, S fuel =>
      match listdir current with
      | Err RemoteOSError => walk_loop fuel stack
      | Err e => ([], Raised e)
      | Ok children =>
          match emit children with
          | (entries, _, Some e) => (entries, Raised e)
          | (entries, pushed, None) =>
              let '(rest, out) := walk_loop fuel (reverse pushed ++ stack) in (entries ++ rest, out)
          end
      end
  end.

Definition remote_walk (fuel : nat) (root : string) : list FsEntry * walk_end := walk_loop fuel [root].
End RemoteWalk.
End Inode.

(** ** [sftp.py] *)

Definition S_ISDIR (mode : Z) : bool := Z.land mode 0xF000 =? 0x4000.
Definition S_ISLNK (mode : Z) : bool := Z.land mode 0xF000 =? 0xA000.

Record sftp_attrs := mk_attrs { at_permissions : option Z; at_size : option Z; at_mtime : option Z; at_uid : option Z; at_gid : option Z }.

Definition child_path (path name : string) : string := rstrip_by (Ascii.eqb "/") path +:+ "/" +:+ name.

Definition sftp_stat (path : string) (entry : string * sftp_attrs) : RemoteStat :=
  let '(filename, attrs) := entry in
  let mode := default 0 (at_permissions attrs) in
  mk_rstat filename (child_path path filename) (S_ISDIR mode) (S_ISLNK mode) (default 0 (at_size attrs)) (default 0 (at_mtime attrs))
    (default 0 (at_uid attrs)) (default 0 (at_gid attrs)).

(** [readdir] of the client: names with their attributes. *)
Definition sftp_listdir (readdir : string → result remote_error (list (string * sftp_attrs))) (path : string)
    : result remote_error (list RemoteStat) :=
  match readdir path with
  | Ok names => Ok (sftp_stat path <$> filter (λ e : string * sftp_attrs, e.1 ∉ ["."; ".."]) names)
  | Err e => Err e
  end.

Definition statvfs_sizes (v : statvfs) : Z * Z * Z := (f_blocks v * f_frsize v, (f_blocks v - f_bfree v) * f_frsize v, f_bavail v * f_frsize v).

(** ** [smb.py] *)

Record smb_info := mk_smb { si_mode : Z; si_size : Z; si_mtime : Z; si_uid : Z; si_gid : Z }.

Definition back_slash (c : ascii) : ascii := if Ascii.eqb "/" c then "\" else c.
Definition to_back (s : string) : string := String.string_of_list_ascii (back_slash <$> String.list_ascii_of_string s).

Definition _unc (c : RemoteBackendConfig) (path : string) : string :=
  let rel := to_back (lstrip_by (Ascii.eqb "/") path) in
  let root := "\\" +:+ host c +:+ "\" +:+ default "" (share c) in
  if bool_decide (rel = "") then root else root +:+ "\" +:+ rel.

Definition smb_stat_frame (path name : string) (info : smb_info) : RemoteStat :=
  mk_rstat name (child_path path name) (S_ISDIR (si_mode info)) (S_ISLNK (si_mode info)) (si_size info) (si_mtime info) (si_uid info) (si_gid info).

(** The loop over the names: the first stat that fails fails the listing. *)
Fixpoint smb_stats (stat : string → result remote_error smb_info) (path unc : string) (names : list string) : result remote_error (list RemoteStat) :=
  match names with
  | [] => Ok []
  | name :: names =>
      info ← stat (rstrip_by (Ascii.eqb "\") unc +:+ "\" +:+ name);
      out ← smb_stats stat path unc names;
      Ok (smb_stat_frame path name info :: out)
  end.

(** [listdir] and [stat] of the client; its [stat] follows links. *)
Definition smb_listdir (c : RemoteBackendConfig) (listdir : string → result remote_error (list string)) (stat : string → result remote_error smb_info)
    (path : string) : result remote_error (list RemoteStat) :=
  let unc := _unc c path in
  names ← listdir unc;
  smb_stats stat path unc names.

(** ** The backends over a transport *)

Definition sftp_creds (c : RemoteBackendConfig) (provider : option (string → result remote_error string)) : result remote_error RemoteCreds :=
  resolve_creds (username c) (password_ref c) (private_key_ref c) provider.
Definition smb_creds (c : RemoteBackendConfig) (provider : option (string → result remote_error string)) : result remote_error RemoteCreds :=
  resolve_creds (username c) (password_ref c) None provider.

(** Whether there is a transport, and whether it was injected. *)
Record backend_state := mk_bs { has_transport : bool; was_injected : bool }.

Definition new_backend (injected : bool) : backend_state := mk_bs injected injected.

Definition _ensure_transport (creds : result remote_error RemoteCreds) (connect : RemoteCreds → result remote_error ()) (s : backend_state)
    : result remote_error () * backend_state :=
  if has_transport s then (Ok (), s)
  else match (c ← creds; connect c) with Ok _ => (Ok (), mk_bs true (was_injected s)) | Err e => (Err e, s) end.

Definition backend_close (s : backend_state) : backend_state :=
  if has_transport s && negb (was_injected s) then mk_bs false (was_injected s) else s.

Definition device_name (c : RemoteBackendConfig) : string :=
  match protocol c with SMB => "//" +:+ host c +:+ "/" +:+ default "" (share c) | _ => host c +:+ ":" +:+ remote_path c end.

(** [volume_info] once there is a transport, with the sizes that it reports. *)
Definition remote_volume_info (c : RemoteBackendConfig) (sizes : result remote_error (Z * Z * Z)) : result remote_error VolumeInfo :=
  '(total, used, free) ← sizes;
  let fs := match protocol c with SMB => "smb" | SFTP => "sftp" | RCLONE => "rclone" end in
  match vinfo_frame (mk_vinfo (catalogue_mount c) (Some (mount_key c)) fs (device_name c) "network" None None total used free) with
  | Ok i => Ok i
  | Err _ => Err ValidationError
  end.

(** [walk] of the SMB and SFTP backends, once there is a transport: it starts at the remote path for the mount key, or at the root given. *)
Definition backend_walk (blake2b : string → Z) (c : RemoteBackendConfig) (listdir : string → result remote_error (list RemoteStat))
    (fuel : nat) (root : string) (follow_symlinks : bool) : list FsEntry * walk_end :=
  let start := if bool_decide (root = mount_key c) then remote_path c else root in
  remote_walk blake2b listdir follow_symlinks (catalogue_mount c) (remote_path c) fuel start.

(** Content is never read. *)
Definition remote_open_for_hash (path : string) : result remote_error () := Err FullBitUnsupportedError.
Definition remote_is_busy : bool := false.

(** ** [rclone.py] *)

Definition _MAX_SIZE : Z := 2 ^ 63 - 1.
Definition _MAX_OUTPUT_BYTES : Z := 256 * 1024 * 1024.
Definition _MAX_STDERR_BYTES : Z := 64 * 1024.

Definition _HASH_PREFERENCE : list string := ["sha256"; "sha1"; "md5"; "quickxorhash"; "crc32"; "dropbox"; "whirlpool"].

(** [re.match] with a pattern that ends in [$]: the end, or a newline at the end. *)
Definition drop_newline (s : string) : string :=
  match reverse (String.list_ascii_of_string s) with
  | c :: t => if newline c then String.string_of_list_ascii (reverse t) else s
  | [] => s
  end.
Definition match_dollar (full : string → bool) (s : string) : bool := full s || full (drop_newline s).

Definition _PROVIDER_HASH_RE : string → bool := match_dollar Wire._PROVIDER_HASH.
Definition _PROVIDER_ALGO_RE : string → bool := match_dollar Wire._PROVIDER_ALGO.

Definition usable (hashes : list (string * json)) (algo : string) : option (string * string) :=
  match dict_get algo hashes with
  | Some (JStr value) => if _PROVIDER_HASH_RE value && _PROVIDER_ALGO_RE algo then Some (algo, value) else None
  | _ => None
  end.

Definition _pick_provider_hash (hashes : list (string * json)) : option (string * string) := head (omap (usable hashes) _HASH_PREFERENCE).

Record RcloneEntry := mk_rclone {
  rc_path : string; rc_name : string; rc_is_dir : bool; rc_size : Z; rc_mtime : Z; rc_provider : option (string * string);
}.

(** [isdigit] of a Latin-1 character: also the superscripts. *)
Definition py_isdigit (c : ascii) : bool := is_digit c || bool_decide (code c ∈ [178; 179; 185]).

(** The text that is given to [fromisoformat]: a fraction has at most six digits. *)
Definition trim_fraction (text : string) : string :=
  let '(first, rest) := PyUrl.break_at (Ascii.eqb ".") text in
  match rest with
  | String _ tail =>
      let '(digits, suffix) := Adapters.span py_isdigit tail in
      let frac := String.substring 0 6 digits in
      if bool_decide (frac = "") then first +:+ suffix else first +:+ "." +:+ frac +:+ suffix
  | EmptyString => text
  end.

Section Rclone.
(** [datetime.fromisoformat(text).timestamp()] ([None]: a ValueError), and [str] of a list or a dict. *)
Context (timestamp_of : string → option Z) (repr : json → string) (blake2b : string → Z).

Definition _parse_modtime (value : json) : Z :=
  match value with
  | JStr text => if bool_decide (text = "") then 0 else default 0 (timestamp_of (trim_fraction text))
  | _ => 0
  end.

Definition field (k : string) (d : json) (obj : list (string * json)) : json := default d (dict_get k obj).

Definition from_json (obj : list (string * json)) : RcloneEntry :=
  let raw := match field "Size" (JInt 0) obj with JInt z => z | JBool b => if b then 1 else 0 | _ => 0 end in
  mk_rclone (str_of repr (field "Path" (JStr "") obj)) (str_of repr (field "Name" (JStr "") obj)) (truthy (field "IsDir" (JBool false) obj))
    (Z.min (Z.max 0 raw) _MAX_SIZE) (_parse_modtime (field "ModTime" JNull obj))
    (match field "Hashes" JNull obj with JObj hashes => _pick_provider_hash hashes | _ => None end).

Definition _remote (c : RemoteBackendConfig) : result remote_error string :=
  let target := host c +:+ ":" +:+ lstrip_by (Ascii.eqb "/") (remote_path c) in
  if startswith "-" target then Err RemoteBackendError else Ok target.

(** The entry of the catalogue for an entry of the listing. *)
Definition rclone_entry (base : string) (entry : RcloneEntry) : FsEntry :=
  let rel := lstrip_by (Ascii.eqb "/") (rc_path entry) in
  let full := if bool_decide (rel = "") then (if bool_decide (base = "") then "/" else base) else base +:+ "/" +:+ rel in
  let provider := if rc_is_dir entry then None else rc_provider entry in
  mk_fs full (rc_name entry) (rc_is_dir entry) false (rc_size entry) (rc_size entry) (rc_mtime entry) (rc_mtime entry) SYNTHETIC_UID SYNTHETIC_GID
    (synthetic_inode blake2b full) 0 (flags_text [("synthetic_owner", true)]) (snd <$> provider) (fst <$> provider).

(** *** The rclone process *)

(** What one run of the program does: it starts or not, ends in time or not, writes these chunks, and exits. *)
Record process := mk_process { started : bool; in_time : bool; stdout : list string; stderr : list string; exit_code : Z }.

(** The bytes kept, and whether they are over the limit: reading stops there. *)
Fixpoint drain (limit : Z) (out : string) (chunks : list string) : string * bool :=
  match chunks with
  | [] => (out, false)
  | chunk :: chunks =>
      let out := out +:+ chunk in
      if limit <? Z.of_nat (String.length out) then (out, true) else drain limit out chunks
  end.

Fixpoint read_stderr (buf : string) (chunks : list string) : string :=
  match chunks with
  | [] => buf
  | chunk :: chunks =>
      let room := _MAX_STDERR_BYTES - Z.of_nat (String.length buf) in
      read_stderr (if 0 <? room then buf +:+ String.substring 0 (Z.to_nat room) chunk else buf) chunks
  end.

Definition _run (max_output_bytes : Z) (p : process) : result remote_error string :=
  if negb (started p) then Err MissingClientLibraryError
  else if negb (in_time p) then Err RemoteBackendError
  else
    let '(out, over) := drain max_output_bytes "" (stdout p) in
    if over then Err RemoteBackendError
    else if negb (exit_code p =? 0) then Err RemoteBackendError else Ok out.

(** [parse] is [json.loads], of [[]] or [{}] for an empty output. *)
Definition lsjson (parse : string → option json) (p : process) : result remote_error (list RcloneEntry) :=
  out ← _run _MAX_OUTPUT_BYTES p;
  match parse (if bool_decide (out = "") then "[]" else out) with
  | None => Err RemoteBackendError
  | Some (JList data) => Ok (omap (λ obj, match obj with JObj fields => Some (from_json fields) | _ => None end) data)
  | Some _ => Err RemoteBackendError
  end.

Definition about (parse : string → option json) (p : process) : result remote_error (Z * Z * Z) :=
  out ← _run _MAX_OUTPUT_BYTES p;
  match parse (if bool_decide (out = "") then "{}" else out) with
  | Some (JObj data) =>
      let size k := int_of (or_else (field k (JInt 0) data) (JInt 0)) in
      match (total ← size "total"; used ← size "used"; free ← size "free"; Ok (total, used, free)) with
      | Ok sizes => Ok sizes
      | Err _ => Err DataError
      end
  | _ => Ok (0, 0, 0)
  end.

(** [about] is asked of the root of the remote, the listing of the target. *)
Definition about_root (remote : string) : string := (PyUrl.break_at (Ascii.eqb ":") remote).1 +:+ ":".

Definition rclone_volume_info (c : RemoteBackendConfig) (parse : string → option json) (run : list string → process) : result remote_error VolumeInfo :=
  target ← _remote c;
  match remote_volume_info c (about parse (run ["about"; "--json"; about_root target])) with
  | Ok i => Ok (mk_vinfo (vi_mountpoint i) (vi_display_name i) (vi_fs_type i) target (vi_transport i) (vi_raid_role i) (vi_dataset i)
                  (vi_total i) (vi_used i) (vi_free i))
  | Err e => Err e
  end.

Definition rclone_walk (c : RemoteBackendConfig) (parse : string → option json) (run : list string → process) : result remote_error (list FsEntry) :=
  target ← _remote c;
  match lsjson parse (run ["lsjson"; "--recursive"; "--hash"; target]) with
  | Ok entries => Ok (rclone_entry (catalogue_mount c) <$> entries)
  | Err e => Err e
  end.
End Rclone.

(** * Properties *)

(** ** The walk *)

Section WalkLaws.
Context (blake2b : string → Z) (listdir : string → result remote_error (list RemoteStat)) (follow_symlinks : bool) (mount remote_root : string).
Abbreviation emit := (emit blake2b follow_symlinks mount remote_root).
Abbreviation walk_loop := (walk_loop blake2b listdir follow_symlinks mount remote_root).
Abbreviation remote_walk := (remote_walk blake2b listdir follow_symlinks mount remote_root).

(** The entry of a child with a size that is not negative. *)
Definition entry_of (child : RemoteStat) : FsEntry :=
  let path := _to_catalogue_path (r_path child) remote_root mount in
  mk_fs path (r_name child) (r_is_dir child) (r_is_symlink child) (r_size child) (r_size child) (r_mtime child) (r_mtime child)
    (r_uid child) (r_gid child) (synthetic_inode blake2b path) 0 (flags_text []) None None.

(** What one directory contributes: nothing if it cannot be listed. *)
Definition remote_scan (p : string) : list FsEntry * list string :=
  match listdir p with
  | Ok children => (entry_of <$> children, reverse (r_path <$> filter (λ c, descends follow_symlinks c) children))
  | Err _ => ([], [])
  end.

(** A server that answers: a listing fails with an [OSError] only, and no size is negative. *)
Definition answers : Prop :=
  ∀ p, match listdir p with Ok children => Forall (λ c, 0 ≤ r_size c) children | Err e => e = RemoteOSError end.

Lemma emit_ok children :
  Forall (λ c, 0 ≤ r_size c) children →
  emit children = (entry_of <$> children, r_path <$> filter (λ c, descends follow_symlinks c) children, None).
Proof.
  induction 1 as [|c children Hc _ IH]; [done|]. cbn [Remote.emit]. unfold to_fs_entry. rewrite (proj2 (Z.ltb_ge _ _)) by done.
  rewrite IH, filter_cons_b. by destruct (descends follow_symlinks c).
Qed.

(** With as much fuel as the trees below the stack need, the loop ends and yields them, the last directory of a listing first. *)
Lemma walk_loop_tree N fuel stack :
  answers → Forall (λ p, fits remote_scan N p = true) stack → (sum_list (steps remote_scan N <$> stack) ≤ fuel)%nat →
  walk_loop fuel stack = (stack ≫= tree remote_scan N, Finished).
Proof.
  intros Ha. revert stack. induction fuel as [|fuel IH]; intros [|p stack]; cbn [Remote.walk_loop]; [done| |done|].
  - intros [Hp _]%Forall_cons. destruct (tree_unfold remote_scan N p Hp) as (_ & Hs & _). cbn. rewrite Hs. cbn. lia.
  - intros [Hp Hst]%Forall_cons Hf. destruct (tree_unfold remote_scan N p Hp) as (Ht & Hs & Hsub). cbn [fmap list_fmap sum_list] in Hf.
    rewrite bind_cons, Ht. cbn in Hf. rewrite Hs in Hf. specialize (Ha p). destruct (listdir p) as [children|e] eqn:El.
    + assert (remote_scan p = (entry_of <$> children, reverse (r_path <$> filter (λ c, descends follow_symlinks c) children))) as Er
        by (unfold remote_scan; by rewrite El).
      rewrite Er in Hf, Hsub |- *. cbn [fst snd] in *. rewrite emit_ok by done. rewrite IH.
      * by rewrite bind_app, <- app_assoc.
      * by apply Forall_app.
      * rewrite fmap_app, sum_list_app'. lia.
    + subst e. assert (remote_scan p = ([], [])) as Er by (unfold remote_scan; by rewrite El). rewrite Er in Hf |- *. cbn [fst snd] in *.
      rewrite IH; [done..|]. lia.
Qed.

(** On a server that answers, with a tree of finite depth, the walk ends and yields exactly the entries of the tree, those of a directory that
    cannot be listed left out. *)
Theorem remote_walk_delivers N root fuel :
  answers → fits remote_scan N root = true → (steps remote_scan N root ≤ fuel)%nat →
  remote_walk fuel root = (tree remote_scan N root, Finished).
Proof.
  intros Ha Hf Hs. unfold Remote.remote_walk. rewrite (walk_loop_tree N) by (done || (by constructor) || (cbn; lia)).
  by rewrite bind_cons, app_nil_r.
Qed.

(** Any other exception of a listing ends it. *)
Lemma walk_loop_raises p stack e fuel : listdir p = Err e → e ≠ RemoteOSError → walk_loop (S fuel) (p :: stack) = ([], Raised e).
Proof. intros H He. cbn. rewrite H. by destruct e. Qed.

(** *** Where the entries are catalogued *)

(** A name that a server may give: not empty or a dot or two, and no path. *)
Definition plain_name (n : string) : Prop := n ∉ [""; "."; ".."] ∧ has_char "/" n = false.

Lemma plain_name_component n : plain_name n → component n ∧ n ≠ "..".
Proof. intros [Hn Hc]. rewrite !not_elem_of_cons in Hn. destruct Hn as (? & ? & ? & _). split; [|done]. by split; [split|]. Qed.

(** Names, each behind a slash. *)
Fixpoint slashed (names : list string) : string := match names with [] => "" | n :: names => "/" +:+ n +:+ slashed names end.

(** The transport puts a child below the directory that was listed. *)
Definition lists_children : Prop :=
  ∀ p children, listdir p = Ok children → Forall (λ c, plain_name (r_name c) ∧ r_path c = child_path p (r_name c)) children.

Abbreviation bare_root := (rstrip_by (Ascii.eqb "/") remote_root).

(** The real path of a directory of the walk, and the catalogued path of an entry: both by the names that lead there. *)
Definition on_stack (p : string) : Prop :=
  p = remote_root ∨ ∃ names, names ≠ [] ∧ Forall plain_name names ∧ p = bare_root +:+ slashed names.
Definition catalogued (e : FsEntry) : Prop :=
  ∃ names, Forall plain_name (names ++ [f_name e]) ∧ f_path e = mount +:+ slashed (names ++ [f_name e]).

Lemma slashed_app a b : slashed (a ++ b) = slashed a +:+ slashed b.
Proof. induction a as [|n a IH]; [done|]. cbn [slashed app]. by rewrite IH, !app_assoc_s. Qed.

Lemma child_path_slashed p n :
  on_stack p → plain_name n → ∃ names, Forall plain_name (names ++ [n]) ∧ child_path p n = bare_root +:+ slashed (names ++ [n]).
Proof.
  intros [->|(names & Hne & Hns & ->)] Hn; unfold child_path.
  - exists []. split; [by constructor|]. cbn. by rewrite app_empty_r.
  - exists names. split; [by apply Forall_app; split; [|constructor]|]. rewrite slashed_app. cbn [slashed]. rewrite app_empty_r.
    destruct (exists_last Hne) as (l & m & ->). apply Forall_app in Hns as [_ [Hm _]%Forall_cons].
    rewrite slashed_app. cbn [slashed]. rewrite app_empty_r, <- !app_assoc_s.
    replace (rstrip_by (Ascii.eqb "/") (((bare_root +:+ slashed l) +:+ "/") +:+ m)) with (((bare_root +:+ slashed l) +:+ "/") +:+ m); [done|].
    symmetry. apply (Rollup.rstrip_name _ m). apply Rollup.file_name_iff. destruct Hm as [Hm ?]. split; [|done]. intros ->. apply Hm. left.
Qed.

Lemma catalogue_path_slashed names : names ≠ [] → _to_catalogue_path (bare_root +:+ slashed names) remote_root mount = mount +:+ slashed names.
Proof. intros Hn. unfold _to_catalogue_path. rewrite drop_s_app. by destruct names. Qed.

Lemma emit_paths p children :
  on_stack p → Forall (λ c, plain_name (r_name c) ∧ r_path c = child_path p (r_name c)) children →
  Forall catalogued (emit children).1.1 ∧ Forall on_stack (emit children).1.2.
Proof.
  intros Hp. induction 1 as [|c children [Hn Hc] _ IH]; [by split|]. cbn [Remote.emit]. unfold to_fs_entry.
  destruct (r_size c <? 0); [by split|]. destruct (emit children) as [[entries pushed] raised]. cbn [fst snd] in *.
  destruct IH as [He Hs]. destruct (child_path_slashed p (r_name c) Hp Hn) as (names & Hns & Ep). split.
  - constructor; [|done]. exists names. cbn [f_name f_path default]. split; [done|]. rewrite Hc, Ep. apply catalogue_path_slashed. by destruct names.
  - destruct (descends follow_symlinks c); [|done]. constructor; [|done]. right. exists (names ++ [r_name c]). rewrite Hc. split_and!; [by destruct names|done..].
Qed.

(** Every entry that a walk yields, however it ends, is catalogued below the mount point by the names that lead to it. *)
Theorem remote_walk_catalogued fuel : lists_children → Forall catalogued (remote_walk fuel remote_root).1.
Proof.
  intros Hl. unfold Remote.remote_walk. assert (Forall on_stack [remote_root]) as Hs by (constructor; [by left|done]).
  revert Hs. generalize [remote_root] as stack. induction fuel as [|fuel IH]; intros [|p stack]; cbn [Remote.walk_loop]; try done.
  intros [Hp Hst]%Forall_cons. destruct (listdir p) as [children|e] eqn:El; [|by destruct e; cbn [fst]; auto].
  destruct (emit_paths p children Hp (Hl _ _ El)) as [He Hpu]. destruct (emit children) as [[entries pushed] [e|]]; [done|].
  cbn [fst snd] in *. specialize (IH (reverse pushed ++ stack)). destruct (walk_loop fuel (reverse pushed ++ stack)) as [rest out]. cbn [fst] in *.
  apply Forall_app. split; [done|]. apply IH, Forall_app. split; [|done]. by apply Forall_reverse.
Qed.
End WalkLaws.

(** Below a canonical mount point those paths are canonical, and inside it: what the core checks of an agent's paths. *)
Lemma slashed_canonical m l names :
  normpath m = m → parse_path m = mk_path 1 l → l ≠ [] →
  Forall plain_name names →
  normpath (m +:+ slashed names) = m +:+ slashed names ∧ parse_path (m +:+ slashed names) = mk_path 1 (l ++ names).
Proof.
  intros Hm Hp Hl Hn.
  assert (Forall component names ∧ Forall (λ n, n ≠ "..") names) as [Hc Hdd].
  { split; (eapply Forall_impl; [exact Hn|]); intros n Hin; apply (plain_name_component n Hin). }
  pose proof (parse_path_components m) as Hcl. rewrite Hp in Hcl. cbn [p_parts] in Hcl.
  assert (PosixPath.resolve true l = l) as Hr.
  { rewrite <- Hm, parse_normpath in Hp. injection Hp as Hi Hres. unfold is_abs in Hres. rewrite Hi in Hres.
    change (bool_decide (0 < 1)%nat) with true in Hres. rewrite <- Hres at 1. rewrite resolve_idem; [done|apply split_components]. }
  assert (m = "/" +:+ PyStr.join "/" l) as Em.
  { rewrite <- Hm in Hp. rewrite parse_normpath in Hp. injection Hp as Hi Hres. unfold is_abs in Hres. rewrite Hi in Hres.
    rewrite <- Hm. unfold normpath, is_abs. by rewrite Hi, Hres. }
  assert (m +:+ slashed names = "/" +:+ PyStr.join "/" (l ++ names)) as Es.
  { rewrite Em, app_assoc_s. f_equal. clear -Hl. induction names as [|n names IH] in l, Hl |- *; [by rewrite app_empty_r, app_nil_r|].
    cbn [slashed]. change (n :: names) with ([n] ++ names). rewrite app_assoc, <- IH by (by destruct l).
    rewrite PyStr.join_app, join_one by done. by rewrite !app_assoc_s. }
  assert (parse_path (m +:+ slashed names) = mk_path 1 (l ++ names)) as Ep.
  { rewrite Es. apply (parse_path_str 1); [lia|]. by apply Forall_app. }
  split; [|done]. rewrite Es in Ep |- *. unfold normpath. rewrite resolve_split, Ep. cbn [p_parts].
  assert (initial_slashes ("/" +:+ PyStr.join "/" (l ++ names)) = 1%nat) as Hi by (exact (f_equal p_root Ep)).
  unfold is_abs. rewrite Hi. change (bool_decide (0 < 1)%nat) with true. rewrite resolve_app_names by done. by rewrite Hr.
Qed.

(** A scan of a valid remote target stays in its own part of the catalogue, whatever the server answers and however the walk ends, as long as
    the names are names: every path is canonical and lies inside the mount point, below "/<scheme>/<host>". *)
Theorem backend_walk_contained blake2b c listdir fuel follow :
  remote_ok c = true → anchored c → lists_children listdir →
  Forall (λ e, normpath (f_path e) = f_path e ∧ within (parse_path (catalogue_mount c)) (parse_path (f_path e)) ∧
               within (mk_path 1 [scheme_dir (protocol c); host c]) (parse_path (f_path e)))
    (backend_walk blake2b c listdir fuel (mount_key c) follow).1.
Proof.
  intros Hok Ha Hl. destruct (catalogue_mount_contained c Hok Ha) as [Hm [Hroot [l Hparts]]].
  unfold backend_walk. rewrite bool_decide_true by done.
  assert (parse_path (catalogue_mount c) = mk_path 1 ([scheme_dir (protocol c); host c] ++ l)) as Hp.
  { destruct (parse_path (catalogue_mount c)) as [r ps]. cbn [p_root p_parts] in *. by subst. }
  eapply Forall_impl; [exact (remote_walk_catalogued blake2b listdir follow (catalogue_mount c) (remote_path c) fuel Hl)|].
  intros e (names & Hn & ->). destruct (slashed_canonical (catalogue_mount c) _ _ Hm Hp ltac:(done) Hn) as [Hc ->].
  split; [done|]. rewrite Hp. split; split; cbn [p_root p_parts]; [done|by eexists|done|]. eexists. by rewrite <- app_assoc.
Qed.

(** ** The transports *)

(** Both put a child below the directory, if what the client lists are names; the SFTP transport itself leaves the dots out. *)
Lemma sftp_lists_children readdir :
  (∀ p names, readdir p = Ok names → Forall (λ e, e.1 ≠ "" ∧ has_char "/" e.1 = false) names) → lists_children (sftp_listdir readdir).
Proof.
  intros Hr p children. unfold sftp_listdir. destruct (readdir p) as [names|] eqn:E; [|done]. intros [= <-]. apply Hr in E.
  apply Forall_forall. intros s ([n a] & -> & [Hd Hin]%list_elem_of_filter)%list_elem_of_fmap. rewrite Forall_forall in E.
  destruct (E _ Hin) as [Hne Hc]. cbn [fst] in *. split; [|done]. split; [|done]. rewrite not_elem_of_cons. by split.
Qed.

Lemma smb_stats_spec stat path unc names out :
  smb_stats stat path unc names = Ok out ↔
  Forall2 (λ n s, ∃ info, stat (rstrip_by (Ascii.eqb "\") unc +:+ "\" +:+ n) = Ok info ∧ s = smb_stat_frame path n info) names out.
Proof.
  revert out. induction names as [|n names IH]; intros out; cbn [smb_stats].
  - split; [intros [= <-]; constructor|]. by intros ->%Forall2_nil_inv_l.
  - split.
    + intros (info & Hi & (l & Hl & [= <-])%bind_ok)%bind_ok. constructor; [by exists info|]. by apply IH.
    + intros (s & l & (info & -> & ->) & Hl & ->)%Forall2_cons_inv_l. cbn [mbind result_bind]. apply IH in Hl. by rewrite Hl.
Qed.

Lemma smb_lists_children c listdir stat :
  (∀ p names, listdir p = Ok names → Forall plain_name names) → lists_children (smb_listdir c listdir stat).
Proof.
  intros Hr p children. unfold smb_listdir. intros (names & Hn & Hs)%bind_ok. apply Hr in Hn. apply smb_stats_spec in Hs.
  apply Forall_forall. intros s Hin. apply list_elem_of_lookup in Hin as [i Hi].
  destruct (Forall2_lookup_r _ _ _ _ _ Hs Hi) as (n & Hni & info & _ & ->).
  rewrite Forall_forall in Hn. split; [by eapply Hn, list_elem_of_lookup_2|done].
Qed.

(** An SMB directory is listed only if every one of its names can be stat-ed: a link that leads nowhere, or a file that is gone, hides the
    whole directory from the scan. *)
Theorem smb_bad_child_hides_directory blake2b c listdir stat follow mount root fuel p names n stack :
  listdir (_unc c p) = Ok names → n ∈ names → stat (rstrip_by (Ascii.eqb "\") (_unc c p) +:+ "\" +:+ n) = Err RemoteOSError →
  (∀ u e, stat u = Err e → e = RemoteOSError) →
  walk_loop blake2b (smb_listdir c listdir stat) follow mount root (S fuel) (p :: stack) =
  walk_loop blake2b (smb_listdir c listdir stat) follow mount root fuel stack.
Proof.
  intros Hl Hn Hs Hos. assert (smb_listdir c listdir stat p = Err RemoteOSError) as E; [|cbn [walk_loop]; by rewrite E].
  unfold smb_listdir. rewrite Hl. cbn [mbind result_bind]. destruct (smb_stats stat p (_unc c p) names) as [out|e] eqn:E.
  - apply smb_stats_spec in E. apply list_elem_of_lookup in Hn as [i Hn]. destruct (Forall2_lookup_l _ _ _ _ _ E Hn) as (s & _ & info & Hi & _).
    by rewrite Hs in Hi.
  - f_equal. clear Hl Hn Hs. revert e E. induction names as [|m names IH]; intros e; cbn [smb_stats]; [done|].
    destruct (stat _) as [info|e'] eqn:Ei; cbn [mbind result_bind]; [|intros [= <-]; by eapply Hos].
    destruct (smb_stats stat p (_unc c p) names) as [out|e'] eqn:Es; cbn [mbind result_bind]; [done|]. intros [= <-]. by apply IH.
Qed.

(** A directory that the SFTP server refuses to list ends the walk with an exception: the client's errors are no [OSError]s, so the rest of
    the target is lost, and the scan's caller does not catch it either. *)
Theorem sftp_refusal_ends_walk blake2b readdir follow mount root fuel p stack :
  readdir p = Err SFTPError →
  walk_loop blake2b (sftp_listdir readdir) follow mount root (S fuel) (p :: stack) = ([], Raised SFTPError).
Proof. intros H. apply walk_loop_raises; [|done]. unfold sftp_listdir. by rewrite H. Qed.

(** ** Credentials and the change feed *)

(** What a connection gets are the user name of the configuration and secrets that the provider resolved from its references; without a
    provider there are none, and a reference is an error. *)
Theorem resolve_creds_spec username password_ref private_key_ref provider cr :
  resolve_creds username password_ref private_key_ref provider = Ok cr →
  cr_username cr = username ∧
  (∀ s, cr_password cr = Some s → ∃ f r, provider = Some f ∧ password_ref = Some r ∧ f r = Ok s) ∧
  (∀ s, cr_private_key cr = Some s → ∃ f r, provider = Some f ∧ private_key_ref = Some r ∧ f r = Ok s).
Proof.
  assert (∀ ref o s, resolved provider ref = Ok o → o = Some s → ∃ f r, provider = Some f ∧ ref = Some r ∧ f r = Ok s) as Hres.
  { unfold resolved. intros [r|] o s; [|by intros [= <-]]. destruct provider as [f|]; [|by intros [= <-]].
    case_bool_decide; [by intros [= <-]|]. destruct (f r) as [v|] eqn:Ef; [|done]. intros [= <-] [= ->]. by exists f, r. }
  unfold resolve_creds. destruct provider as [f|] eqn:Ep.
  - intros (pw & Hpw & (k & Hk & [= <-])%bind_ok)%bind_ok. split; [done|]. split; intros s E; eapply Hres; done.
  - destruct (_ && _); [|done]. by intros [= <-].
Qed.

Lemma no_provider_no_secret username p k : resolve_creds username (Some p) k None = Err RemoteBackendError.
Proof. done. Qed.

(** An SMB session never carries a private key. *)
Lemma smb_no_key c provider cr : smb_creds c provider = Ok cr → cr_private_key cr = None.
Proof.
  unfold smb_creds, resolve_creds. destruct provider as [f|].
  - intros (pw & _ & (k & Hk & [= <-])%bind_ok)%bind_ok. by injection Hk as <-.
  - destruct (_ && _); [|done]. by intros [= <-].
Qed.

(** A secret of the mount loses all the newlines at its end, not a single one. *)
Lemma secret_loses_newlines :
  let nl := String "010" "" in
  docker_secret_provider (λ _, Some ("pass" +:+ nl +:+ nl +:+ nl)) "smb" = Ok "pass" ∧
  docker_secret_provider (λ _, Some "pass") "../smb" = Err RemoteBackendError.
Proof. by vm_compute. Qed.

(** A path is reported as changed exactly if it was not there before, or had another time. *)
Theorem restat_changed_spec previous current path :
  path ∈ restat_changed previous current ↔ ∃ mtime, (path, mtime) ∈ current ∧ previous !! path ≠ Some mtime.
Proof.
  unfold restat_changed. rewrite elem_of_list_to_set, list_elem_of_fmap. split.
  - intros ([p m] & -> & [Hm Hin]%list_elem_of_filter). by exists m.
  - intros (m & Hin & Hm). exists (path, m). split; [done|]. by apply list_elem_of_filter.
Qed.

(** The inode of a remote entry fits a signed 64-bit column. *)
Lemma synthetic_inode_bounds blake2b path : 0 ≤ synthetic_inode blake2b path < 2 ^ 63.
Proof.
  unfold synthetic_inode. change 0x7FFFFFFFFFFFFFFF with (Z.ones 63). rewrite Z.land_ones by done. by apply Z.mod_pos_bound.
Qed.

(** ** The rclone program *)

Lemma drain_spec limit out chunks o over :
  drain limit out chunks = (o, over) →
  if over then limit < Z.of_nat (String.length o)
  else o = out +:+ String.concat "" chunks ∧ (Z.of_nat (String.length out) ≤ limit → Z.of_nat (String.length o) ≤ limit).
Proof.
  revert out. induction chunks as [|c chunks IH]; intros out; cbn [drain].
  - intros [= <- <-]. split; [by rewrite app_empty_r|done].
  - destruct (limit <? _) eqn:E; [intros [= <- <-]; by apply Z.ltb_lt|]. intros H%IH. apply Z.ltb_ge in E. destruct over; [done|].
    destruct H as [-> Hb]. split; [|by intros _; apply Hb]. rewrite app_assoc_s. f_equal. by destruct chunks; cbn; rewrite ?app_empty_r.
Qed.

(** It never holds more than the limit and one chunk. *)
Lemma drain_bounded limit out chunks n :
  Forall (λ c, Z.of_nat (String.length c) ≤ n) chunks → Z.of_nat (String.length out) ≤ limit → 0 ≤ n →
  Z.of_nat (String.length (drain limit out chunks).1) ≤ limit + n.
Proof.
  intros Hc. revert out. induction Hc as [|c chunks Hc _ IH]; intros out Ho Hn; cbn [drain fst]; [lia|].
  destruct (limit <? _) eqn:E; cbn [fst]; [rewrite length_app_s; lia|]. apply Z.ltb_ge in E. by apply IH.
Qed.

(** A run gives the whole output of a process that started, ended in time and well, and wrote no more than the limit; anything else raises. *)
Theorem run_spec limit p out :
  0 ≤ limit →
  _run limit p = Ok out ↔
  started p = true ∧ in_time p = true ∧ exit_code p = 0 ∧ out = String.concat "" (stdout p) ∧ Z.of_nat (String.length out) ≤ limit ∧
  (drain limit "" (stdout p)).2 = false.
Proof.
  intros Hl. unfold _run. destruct (started p); cbn [negb]; [|naive_solver]. destruct (in_time p); cbn [negb]; [|naive_solver].
  destruct (drain limit "" (stdout p)) as [o over] eqn:E. apply drain_spec in E. destruct over; cbn [snd]; [naive_solver|].
  destruct E as [-> Hb]. destruct (Z.eqb_spec (exit_code p) 0); cbn [negb]; [|naive_solver]. cbn in *. specialize (Hb ltac:(lia)). split.
  - intros [= <-]. by split_and!.
  - intros (_ & _ & _ & -> & _). done.
Qed.

(** The first element that gives a value. *)
Lemma head_omap_first {A B} (f : A → option B) l b :
  head (omap f l) = Some b → ∃ before a after, l = before ++ a :: after ∧ Forall (λ x, f x = None) before ∧ f a = Some b.
Proof.
  induction l as [|x l IH]; [done|]. cbn [omap list_omap]. destruct (f x) as [y|] eqn:E.
  - intros [= ->]. by exists [], x, l.
  - intros (before & a & after & -> & Hb & Ha)%IH. exists (x :: before), a, after. split; [done|]. split; [by constructor|done].
Qed.

(** What a listing gives is safe to store: sizes fit a signed 64-bit column, owners are the sentinel, a directory has no hash, and a hash comes
    with its algorithm, the first of the preference that has a usable value. *)
Theorem rclone_entry_spec timestamp_of repr blake2b base obj :
  let e := rclone_entry blake2b base (from_json timestamp_of repr obj) in
  0 ≤ f_size_logical e ≤ _MAX_SIZE ∧ f_size_on_disk e = f_size_logical e ∧ synthetic e ∧
  (f_path e = base ∨ f_path e = "/" ∨ startswith (base +:+ "/") (f_path e) = true) ∧
  match f_provider_hash e, f_provider_hash_algo e with
  | Some h, Some algo =>
      f_is_dir e = false ∧ ∃ hashes before after, field "Hashes" JNull obj = JObj hashes ∧ _HASH_PREFERENCE = before ++ algo :: after ∧
        dict_get algo hashes = Some (JStr h) ∧ _PROVIDER_HASH_RE h = true ∧ Forall (λ a, usable hashes a = None) before
  | None, None => True
  | _, _ => False
  end.
Proof.
  intros e. split; [unfold e, rclone_entry, from_json; cbn [f_size_logical rc_size]; unfold _MAX_SIZE; lia|].
  split; [done|]. split; [|split].
  - split_and!; [done..|]. by exists [].
  - unfold e, rclone_entry. cbn [f_path]. case_bool_decide; [case_bool_decide; auto|]. right. right.
    rewrite <- app_assoc_s. apply startswith_app.
  - unfold e, rclone_entry. cbn [f_provider_hash f_provider_hash_algo f_is_dir rc_is_dir rc_provider from_json].
    destruct (truthy _) eqn:Ed; [done|]. destruct (field "Hashes" JNull obj) as [| | | | |hashes]; [done..|].
    destruct (_pick_provider_hash hashes) as [[algo h]|] eqn:Ep; [|done]. cbn. split; [done|].
    unfold _pick_provider_hash in Ep. apply head_omap_first in Ep as (before & a & after & -> & Hb & Ha).
    unfold usable in Ha. destruct (dict_get a hashes) as [[| | |v| |]|] eqn:Eg; try done.
    destruct (_PROVIDER_HASH_RE v) eqn:Ev; [|done]. cbn [andb] in Ha. destruct (_PROVIDER_ALGO_RE a); [|done]. injection Ha as <- <-.
    by exists hashes, before, after.
Qed.

(** The guard on a hash uses [re.match] and [$], which lets a newline at the end through; the frame of the push does not, so one such value of
    a provider makes the batch invalid that it is in. *)
Lemma newline_hash_breaks_frame :
  let h := "d41d8cd98f00b204e9800998ecf8427e" +:+ String "010" "" in
  _pick_provider_hash [("md5", JStr h)] = Some ("md5", h) ∧ Wire._PROVIDER_HASH h = false.
Proof. vm_compute. by split. Qed.

(** A target can not be taken for a flag. *)
Lemma remote_no_flag c target : _remote c = Ok target → startswith "-" target = false ∧ target = host c +:+ ":" +:+ lstrip_by (Ascii.eqb "/") (remote_path c).
Proof. unfold _remote. destruct (startswith "-" _) eqn:E; [done|]. intros [= <-]. by split. Qed.

Example fraction_examples :
  (trim_fraction <$> ["2024-05-01T10:00:00.123456789Z"; "2024-05-01T10:00:00Z"; "2024-05-01T10:00:00.Z"; "2024-05-01T10:00:00.5+02:00"]) =
  ["2024-05-01T10:00:00.123456Z"; "2024-05-01T10:00:00Z"; "2024-05-01T10:00:00Z"; "2024-05-01T10:00:00.5+02:00"].
Proof. vm_compute. reflexivity. Qed.

(** *** A small server *)

Definition demo_readdir (p : string) : result remote_error (list (string * sftp_attrs)) :=
  let dir := mk_attrs (Some 0x41ED) None None None None in
  let file := mk_attrs (Some 0x81A4) (Some 7) None None None in
  let link := mk_attrs (Some 0xA1FF) None None None None in
  if bool_decide (p = "/data/") then Ok [(".", dir); ("..", dir); ("a", dir); ("f", file); ("b", dir); ("l", link)]
  else if bool_decide (p = "/data/a") then Ok [("g", file)]
  else if bool_decide (p = "/data/b") then Err RemoteOSError else Ok [].

Definition demo_target : RemoteBackendConfig := sftp_target "nas" "/data/".

Example demo_walk :
  let '(entries, out) := backend_walk (λ _, 5) demo_target (sftp_listdir demo_readdir) 10 (mount_key demo_target) false in
  (f_path <$> entries, out) =
  (["/sftp/nas/data/a"; "/sftp/nas/data/f"; "/sftp/nas/data/b"; "/sftp/nas/data/l"; "/sftp/nas/data/a/g"], Finished).
Proof. vm_compute. reflexivity. Qed.

(** The theorems apply to it. *)
Example demo_delivered :
  ∃ entries, backend_walk (λ _, 5) demo_target (sftp_listdir demo_readdir) 30 (mount_key demo_target) false = (entries, Finished).
Proof. eexists. vm_compute. reflexivity. Qed.
