(* ===== verification/SettingsRoutes.v ===== *)
(** The routes of the settings ([src/fathom/api/routers/settings_admin.py]): who may read, change and reveal them.

    The store and its tables are those of SettingsStore.  A request reads the effective settings for the window of a step-up; one that
    fails rolls its transaction back, but not what it did to the store in memory.  [base] is the identity of the application's own
    settings; the randomness of an encryption is an argument. *)

From S2P Require Import Prelude PyStr PyDict PyTime Settings SettingsStore Rbac Auth.
From S2P Require Import PreviewRoute Remediation ReadRoutes JobQueue.

Local Open Scope Z_scope.

(** The database and the store on [app.state], if it is there. *)
Record app := mk_app { ap_db : database; ap_store : option RuntimeSettingsStore }.

Record SettingsListOut := mk_settings_list { sl_settings : list SettingView; sl_named_secrets : list string; sl_version : Z }.
Record SettingMutationResult := mk_mutation { sm_key : string; sm_overridden : bool; sm_restart_required : bool; sm_version : Z }.

(** Where a stored credential is sent. *)
Definition _EGRESS_SENSITIVE_SETTINGS : list string :=
  ["inference_anthropic_url"; "inference_openai_url"; "inference_ollama_url"; "concierge_embedding_url"; "inference_allow_egress";
   "notify_email_smtp_host"; "notify_email_use_tls"].

Section Routes.
Context (coerce : ftype → value → option value).
Context (encrypt : string → string → string) (decrypt : string → option string) (json_dumps : value → string).
Context (bases : Z → settings) (base : Z).

(** [request_settings]. *)
Definition request_settings (x : app) : settings * app :=
  match ap_store x with
  | Some st => let '(s, st) := effective coerce bases base st in (s, mk_app (ap_db x) (Some st))
  | None => (bases base, x)
  end.

Definition freshness (s : settings) : Z := match get s "mfa_freshness_seconds" with VInt z => z | _ => 0 end.

Definition require_step_up_mfa (p : Principal) (now : Z) (x : app) : reply () * app :=
  let '(s, x) := request_settings x in
  (if is_step_up_fresh (mfa_authenticated_at p) (freshness s) now then Ok () else http 401 "step-up MFA required", x).

Definition _require_step_up_for_egress (key : string) (p : Principal) (now : Z) (x : app) : reply () * app :=
  let '(s, x) := request_settings x in
  (if bool_decide (key ∈ _EGRESS_SENSITIVE_SETTINGS) && negb (is_step_up_fresh (mfa_authenticated_at p) (freshness s) now)
   then http 401 "step-up MFA required to change an egress endpoint" else Ok (), x).

(** The dependencies of a route in their order, the validation of its body, then the store and the body. *)
Definition gated {A} (p : Principal) (check : app → reply () * app) (valid : bool)
    (body : RuntimeSettingsStore → app → reply A * app) (x : app) : reply A * app :=
  match guard MANAGE_SETTINGS p with
  | Err e => (Err e, x)
  | Ok _ =>
      match check x with
      | (Err e, x) => (Err e, x)
      | (Ok _, x) =>
          if negb valid then (unprocessable, x)
          else match ap_store x with None => (http 503 "runtime settings store is not available", x) | Some st => body st x end
      end
  end.

Definition no_check (x : app) : reply () * app := (Ok (), x).

Definition list_settings_route (p : Principal) : app → reply SettingsListOut * app :=
  gated p no_check true (λ st x,
    let '(views, st) := list_settings coerce bases base st in
    (Ok (mk_settings_list views (list_named_secrets st) (_version st)), mk_app (ap_db x) (Some st))).

Definition set_named_secret (p : Principal) (now : Z) (iv ref v : string) : app → reply SettingMutationResult * app :=
  gated p (require_step_up_mfa p now) (str_between 1 128 ref && str_between 1 8192 v) (λ st x,
    match set_secret encrypt decrypt iv ref v (Some (subject p)) (ap_db x, st) with
    | (Err _, _) => (http 422 "bad secret reference", x)
    | (Ok _, (d, st)) => (Ok (mk_mutation ref true false (_version st)), mk_app d (Some st))
    end).

(** An override that is not there: the version was raised and the store has it, the tables do not. *)
Definition cleared (key : string) (restart_required : bool) (missing : string) (st : RuntimeSettingsStore) (x : app)
    : reply SettingMutationResult * app :=
  match clear_override decrypt key (ap_db x, st) with
  | (true, (d, st)) => (Ok (mk_mutation key false restart_required (_version st)), mk_app d (Some st))
  | (false, (_, st)) => (http 404 missing, mk_app (ap_db x) (Some st))
  end.

Definition clear_named_secret (p : Principal) (now : Z) (ref : string) : app → reply SettingMutationResult * app :=
  gated p (require_step_up_mfa p now) true (λ st x,
    if is_field ref then (http 400 "not a named secret", x) else cleared ref false "no such secret" st x).

Definition set_setting (p : Principal) (now : Z) (iv key : string) (v : value) : app → reply SettingMutationResult * app :=
  gated p (_require_step_up_for_egress key p now) true (λ st x,
    match set_override coerce encrypt decrypt json_dumps bases iv base key v (Some (subject p)) (ap_db x, st) with
    | (Err _, (_, st)) => (http 422 "invalid setting", mk_app (ap_db x) (Some st))
    | (Ok _, (d, st)) =>
        match policy_of key with
        | Some policy => (Ok (mk_mutation key true (p_restart_required policy) (_version st)), mk_app d (Some st))
        | None => (Err None, mk_app (ap_db x) (Some st))
        end
    end).

Definition clear_setting (p : Principal) (key : string) : app → reply SettingMutationResult * app :=
  gated p no_check true (λ st x,
    match policy_of key with
    | None => (http 404 "unknown setting", x)
    | Some policy => cleared key (p_restart_required policy) "no override set" st x
    end).

Definition reveal_secret (p : Principal) (now : Z) (key : string) : app → reply (string * string) * app :=
  gated p (require_step_up_mfa p now) true (λ st x,
    match reveal key st with Ok v => (Ok (key, v), x) | Err _ => (http 404 "not a stored secret", x) end).

(** ** Who gets through *)

Definition fresh_at (p : Principal) (now : Z) (x : app) : bool :=
  is_step_up_fresh (mfa_authenticated_at p) (freshness (request_settings x).1) now.

(** An answer of a route: the caller holds the capability, the check passed, the body was valid and there is a store. *)
Lemma gated_ok {A} p check valid (body : RuntimeSettingsStore → app → reply A * app) x a x' :
  gated p check valid body x = (Ok a, x') →
  (∃ g, g ∈ grants p ∧ role_has (g_role g) MANAGE_SETTINGS = true) ∧ valid = true ∧
  ∃ y st, check x = (Ok (), y) ∧ ap_store y = Some st ∧ body st y = (Ok a, x').
Proof.
  unfold gated. destruct (guard MANAGE_SETTINGS p) as [f|e] eqn:Eg; [|done]. intros H. split.
  - unfold guard, lift, Auth.require in Eg. destruct (has_capability p MANAGE_SETTINGS) eqn:Eh; [|done].
    unfold has_capability in Eh. apply existsb_exists in Eh as (g & Hg & Hr). exists g. split; [by apply list_elem_of_In|done].
  - destruct (check x) as [[[]|e] y]; [|done]. destruct valid; [|done]. split; [done|]. cbn [negb] in H.
    destruct (ap_store y) as [st|] eqn:Es; [|done]. by exists y, st.
Qed.

Lemma step_up_ok p now x y : require_step_up_mfa p now x = (Ok (), y) → fresh_at p now x = true.
Proof.
  unfold require_step_up_mfa, fresh_at. destruct (request_settings x) as [s z]. cbn [fst].
  destruct (is_step_up_fresh _ _ _); [done|]. by intros [= ?].
Qed.

Lemma egress_ok key p now x y :
  _require_step_up_for_egress key p now x = (Ok (), y) → key ∈ _EGRESS_SENSITIVE_SETTINGS → fresh_at p now x = true.
Proof.
  unfold _require_step_up_for_egress, fresh_at. destruct (request_settings x) as [s z]. cbn [fst]. intros H Hk.
  rewrite bool_decide_true in H by done. destruct (is_step_up_fresh _ _ _); [done|]. by injection H.
Qed.

(** A secret is revealed, and a named secret stored or deleted, only for a holder of MANAGE_SETTINGS with a step-up that is fresh by the
    effective settings; what is revealed is the stored secret. *)
Theorem secrets_need_step_up p now key v x x' :
  reveal_secret p now key x = (Ok (key, v), x') →
  (∃ g, g ∈ grants p ∧ role_has (g_role g) MANAGE_SETTINGS = true) ∧ fresh_at p now x = true ∧
  ∃ st, ap_store x' = Some st ∧ dict_get key (_overrides st) = Some (mk_loaded (VStr v) true).
Proof.
  intros (Hg & _ & y & st & Hc & Hs & Hb)%gated_ok. split; [done|]. split; [by eapply step_up_ok|]. unfold reveal in Hb.
  destruct (dict_get key (_overrides st)) as [[w []]|] eqn:E; try done; [destruct w; try done|by destruct w].
  injection Hb as -> <-. by exists st.
Qed.

Theorem named_secrets_need_step_up p now x x' r :
  (∃ iv ref v, set_named_secret p now iv ref v x = (Ok r, x')) ∨ (∃ ref, clear_named_secret p now ref x = (Ok r, x')) →
  (∃ g, g ∈ grants p ∧ role_has (g_role g) MANAGE_SETTINGS = true) ∧ fresh_at p now x = true ∧ is_field (sm_key r) = false.
Proof.
  intros [(iv & ref & v & H)|(ref & H)]; apply gated_ok in H as (Hg & _ & y & st & Hc%step_up_ok & _ & Hb); split_and!; try done.
  - unfold set_secret in Hb. destruct (_ || _); [done|]. destruct (is_field ref) eqn:Ef; [done|]. by injection Hb as <- <-.
  - destruct (is_field ref) eqn:Ef; [done|]. unfold cleared in Hb. destruct (clear_override decrypt ref (ap_db y, st)) as [[] [d st']]; [|done].
    by injection Hb as <- <-.
Qed.

(** Where a credential is sent is set only with a fresh step-up. *)
Theorem egress_change_needs_step_up p now iv key v x r x' :
  set_setting p now iv key v x = (Ok r, x') → key ∈ _EGRESS_SENSITIVE_SETTINGS → fresh_at p now x = true.
Proof. intros (_ & _ & y & st & Hc & _)%gated_ok Hk. by eapply egress_ok. Qed.

(** ** What a request leaves *)

(** A request that is not answered leaves the tables as they were. *)
Theorem refused_keeps_tables p now iv key v x :
  (∀ e x', list_settings_route p x = (Err e, x') → ap_db x' = ap_db x) ∧
  (∀ e x', set_named_secret p now iv key v x = (Err e, x') → ap_db x' = ap_db x) ∧
  (∀ e x', clear_named_secret p now key x = (Err e, x') → ap_db x' = ap_db x) ∧
  (∀ w e x', set_setting p now iv key w x = (Err e, x') → ap_db x' = ap_db x) ∧
  (∀ e x', clear_setting p key x = (Err e, x') → ap_db x' = ap_db x) ∧
  (∀ e x', reveal_secret p now key x = (Err e, x') → ap_db x' = ap_db x).
Proof.
  assert (∀ x, ap_db (request_settings x).2 = ap_db x) as Hrs.
  { intros z. unfold request_settings. destruct (ap_store z) as [st|]; [|done]. by destruct (effective coerce bases base st). }
  assert (∀ x r y, require_step_up_mfa p now x = (r, y) → ap_db y = ap_db x) as Hmfa.
  { intros z r y. unfold require_step_up_mfa. specialize (Hrs z). destruct (request_settings z). by intros [= _ <-]. }
  assert (∀ k x r y, _require_step_up_for_egress k p now x = (r, y) → ap_db y = ap_db x) as Heg.
  { intros k z r y. unfold _require_step_up_for_egress. specialize (Hrs z). destruct (request_settings z). by intros [= _ <-]. }
  assert (∀ A check valid (body : RuntimeSettingsStore → app → reply A * app) e x',
    (∀ r y, check x = (r, y) → ap_db y = ap_db x) → (∀ st y e x', body st y = (Err e, x') → ap_db x' = ap_db y) →
    gated p check valid body x = (Err e, x') → ap_db x' = ap_db x) as Hg.
  { intros A check valid body e x' Hc Hb. unfold gated. destruct (guard MANAGE_SETTINGS p); [|by intros [= _ <-]].
    destruct (check x) as [[[]|e'] y] eqn:Ec; specialize (Hc _ _ eq_refl); [|by intros [= _ <-]].
    destruct valid; cbn [negb]; [|by intros [= _ <-]]. destruct (ap_store y) as [st|]; [|by intros [= _ <-]].
    intros H%Hb. by rewrite H. }
  assert (∀ k b m st y e x', cleared k b m st y = (Err e, x') → ap_db x' = ap_db y) as Hcl.
  { intros k b m st y e x'. unfold cleared. destruct (clear_override decrypt k (ap_db y, st)) as [[] [d st']]; [done|]. by intros [= _ <-]. }
  assert (∀ x r y, no_check x = (r, y) → ap_db y = ap_db x) as Hno by (by intros z r y [= _ <-]).
  split_and!; intros; (eapply Hg; [| |eassumption]); try eassumption; try (by eauto); intros st y e' y'; cbn beta.
  - by destruct (list_settings coerce bases base st).
  - destruct (set_secret _ _ _ _ _ _ _) as [[u|e0] [d st']]; [done|by intros [= _ <-]].
  - destruct (is_field key); [by intros [= _ <-]|apply Hcl].
  - destruct (set_override _ _ _ _ _ _ _ _ _ _ _) as [[u|e0] [d st']]; [|by intros [= _ <-]]. destruct (policy_of key); [done|by intros [= _ <-]].
  - destruct (policy_of key); [apply Hcl|by intros [= _ <-]].
  - destruct (reveal key st); [done|by intros [= _ <-]].
Qed.

(** A change that is answered is the operation of the store, on the tables and in memory. *)
Theorem set_setting_runs p now iv key v x r x' :
  set_setting p now iv key v x = (Ok r, x') →
  ∃ st st', ap_store (request_settings x).2 = Some st ∧
    set_override coerce encrypt decrypt json_dumps bases iv base key v (Some (subject p)) (ap_db x, st) = (Ok (), (ap_db x', st')) ∧
    ap_store x' = Some st' ∧ sm_key r = key ∧ sm_version r = _version st' ∧
    ∃ policy, policy_of key = Some policy ∧ sm_restart_required r = p_restart_required policy.
Proof.
  intros (_ & _ & y & st & Hc & Hs & Hb)%gated_ok. unfold _require_step_up_for_egress in Hc.
  assert (ap_db (request_settings x).2 = ap_db x) as Hrs.
  { unfold request_settings. destruct (ap_store x) as [st0|]; [|done]. by destruct (effective coerce bases base st0). }
  destruct (request_settings x) as [s z]. cbn [snd] in *. injection Hc as _ <-. rewrite Hrs in Hb. exists st.
  destruct (set_override _ _ _ _ _ _ _ _ _ _ _) as [[[]|e] [d st']]; [|done]. exists st'.
  destruct (policy_of key) as [policy|]; [|done]. injection Hb as <- <-. split_and!; try done. by exists policy.
Qed.

(** Clearing an override that is not there is a 404 and changes no row; the version of the store in memory is one ahead of the table's. *)
Lemma clear_missing key b msg st x :
  existsb (λ r, bool_decide (o_key r = key)) (overrides_table (ap_db x)) = false →
  ∃ st', cleared key b msg st x = (http 404 msg, mk_app (ap_db x) (Some st')) ∧
    _version st' = match settings_version (ap_db x) with None => 1 | Some v => v + 1 end.
Proof.
  intros H. unfold cleared, clear_override. rewrite H. eexists. split; [done|]. cbn. by destruct (settings_version (ap_db x)).
Qed.
End Routes.

(** ** What the step-up does not keep *)

Definition admin (mfa : option datetime) : Principal := mk_principal "ada" SrcLocal 1 [] [Rbac.mk_grant ADMIN KGlobal None None] mfa (Some 1).

(** The tables after an administrator stored a key, and switched the egress gate off that the environment has on. *)
Definition stored_app (bases : Z → settings) (key : string) (v : value) : app :=
  let '(d, st) := (set_override strict seal unseal dumps bases "iv" 0 key v (Some "ada") start).2 in mk_app d (Some st).

Definition egress_base (b : Z) : settings := dict_set "inference_allow_egress" (VBool true) (defaults b).

(** The window of the step-up is itself a setting that needs none.  An administrator's session whose second factor was checked a day ago may
    not reveal a secret; it may set the window to thirty years, and then it may. *)
Theorem freshness_self_service :
  let stale := admin (Some (utc 0)) in
  let now := seconds 86400 in
  let x := stored_app defaults "inference_openai_api_key" (VStr "sk-1") in
  (reveal_secret strict defaults 0 stale now "inference_openai_api_key" x).1 = http 401 "step-up MFA required" ∧
  match set_setting strict seal unseal dumps defaults 0 stale now "iv2" "mfa_freshness_seconds" (VInt 1000000000) x with
  | (Ok _, x') => (reveal_secret strict defaults 0 stale now "inference_openai_api_key" x').1 = Ok ("inference_openai_api_key", "sk-1")
  | _ => False
  end.
Proof. split; vm_compute; reflexivity. Qed.

(** Setting an egress endpoint needs a fresh step-up and resetting it does not: the same session opens the gate that an administrator closed. *)
Theorem clearing_opens_egress :
  let stale := admin (Some (utc 0)) in
  let now := seconds 86400 in
  let x := stored_app egress_base "inference_allow_egress" (VBool false) in
  get (request_settings strict egress_base 0 x).1 "inference_allow_egress" = VBool false ∧
  (set_setting strict seal unseal dumps egress_base 0 stale now "iv2" "inference_allow_egress" (VBool true) x).1 =
    http 401 "step-up MFA required to change an egress endpoint" ∧
  match clear_setting unseal stale "inference_allow_egress" x with
  | (Ok _, x') => get (request_settings strict egress_base 0 x').1 "inference_allow_egress" = VBool true
  | _ => False
  end.
Proof. split; [|split]; vm_compute; reflexivity. Qed.
