(* ===== verification/AgentRoutes.v ===== *)
(** The routes of the fleet ([src/fathom/api/routers/agents.py]): the listing of the hosts, the configuration that an operator sets for
    one, and its delivery to the agent.

    The text of a JSON column is written and read by the driver: [to_column] and [from_column].  A request is a transaction; [others] is
    what other requests commit while it runs. *)

From S2P Require Import Prelude PyStr PyDict PyTime Sql Json AuditLog AuditStore Coordinator Catalogue Rbac Rollup Browse Visible.
From S2P Require Import Orchestrator PlanStore PreviewRoute Remediation ReadRoutes.
From S2P Require AgentConf Query.

Local Open Scope Z_scope.

#[local] Instance json_EqDecision : EqDecision json := json_eq_dec.

(** The tables that the routes touch. *)
Record fleet := mk_fleet { fl_cat : catalogue; fl_runs : list AgentRun; fl_audit : audit_db }.

(** ** The listing *)

Record HostOut := mk_host_out {
  ho_id : Z; ho_name : string; ho_os : option string; ho_agent_version : option string; ho_last_seen : option Z; ho_volume_count : Z;
  ho_last_run_outcome : option string; ho_last_run_finished_at : option Z; ho_last_run_entries_seen : option Z;
  ho_last_run_scopes_failed : option Z; ho_reported_config : option string; ho_desired_config : option string;
}.

(** [if not scope.is_global: stmt.where(_host_scope_predicate(scope))], in the order of the ids. *)
Definition hosts_in (cat : catalogue) (scope : ScopeFilter) : list Host :=
  order_by Z.leb h_id (filter (λ h, is_global scope || _host_scope_predicate cat scope h) (hosts cat)).

(** [count(Volume.id)] over the outer join: the volumes of the host. *)
Definition volume_count (cat : catalogue) (h : Host) : Z :=
  Z.of_nat (length (filter (λ v, v_host_id v = h_id h) (volumes cat))).

Definition host_out (cat : catalogue) (run : option AgentRun) (h : Host) : HostOut :=
  mk_host_out (h_id h) (h_name h) (h_os h) (h_agent_version h) (last_seen h) (volume_count cat h) (outcome <$> run)
    (finished_at <$> run) (entries_seen <$> run) (scopes_failed <$> run) (h_reported_config h) (desired_config h).

Definition list_agents (p : Principal) (d : fleet) : reply (list HostOut) :=
  route VIEW_METADATA p true (λ scope,
    let found := hosts_in (fl_cat d) scope in
    let latest := latest_run_by_host (mk_cdb (hosts (fl_cat d)) (fl_runs d) []) (h_id <$> found) in
    Ok ((λ h, host_out (fl_cat d) (latest !! h_id h) h) <$> found)).

(** ** The configuration *)

Record AgentConfigOverrideIn := mk_override {
  ov_scan_scope : option (list string); ov_fullbit_scope : option (list string); ov_exclude_scope : option (list string);
  ov_cross_mounts : option bool; ov_throttle : option (list (string * json));
}.

Definition override_ok (b : AgentConfigOverrideIn) : bool :=
  forallb (λ o, match o with Some l => (length l <=? 256)%nat | None => true end) [ov_scan_scope b; ov_fullbit_scope b; ov_exclude_scope b].

Definition dumped {A} (key : string) (f : A → json) (o : option A) : list (string * json) :=
  match o with Some a => [(key, f a)] | None => [] end.

Definition paths (l : list string) : json := JList (JStr <$> l).

(** [override.model_dump(exclude_none=True)]. *)
Definition override_dump (b : AgentConfigOverrideIn) : list (string * json) :=
  dumped "scan_scope" paths (ov_scan_scope b) ++ dumped "fullbit_scope" paths (ov_fullbit_scope b) ++
  dumped "exclude_scope" paths (ov_exclude_scope b) ++ dumped "cross_mounts" JBool (ov_cross_mounts b) ++
  dumped "throttle" JObj (ov_throttle b).

Definition set_desired (v : option string) (h : Host) : Host :=
  Catalogue.mk_host (h_id h) (h_name h) (h_os h) (h_agent_version h) (cert_fingerprint h) (last_seen h) (h_reported_config h) v (facts h).

Definition set_hosts (l : list Host) (cat : catalogue) : catalogue :=
  mk_catalogue l (volumes cat) (snapshots cat) (fs_entry cat) (change_log cat) (rollups cat) (size_history cat).

Section Config.
Context {B : Backend} (blake3_hex : string → string).
Context (to_column : list (string * json) → string) (from_column : string → list (string * json)).

(** The dict of the column, an empty one as none: what [not host.desired_config] tells apart. *)
Definition column_value (o : option string) : option (list (string * json)) := from_column <$> o.
Definition nonempty (o : option (list (string * json))) : option (list (string * json)) :=
  match o with Some [] | None => None | Some l => Some l end.

(** None is a 204. *)
Definition get_agent_desired_config (hosts : list Host) (fingerprint : string) : option (list (string * json)) :=
  match hd_error (filter (λ h, cert_fingerprint h = fingerprint) hosts) with
  | None => None
  | Some host => nonempty (column_value (desired_config host))
  end.

Definition set_inputs (p : Principal) (cat : catalogue) (host_id : Z) (b : AgentConfigOverrideIn) : reply Host :=
  scope ← guard MANAGE_AGENTS p;
  _ ← (if override_ok b then Ok () else unprocessable);
  match find_host_in_scope cat scope host_id with Some h => Ok h | None => http 404 "host not found or out of scope" end.

(** The flush: an attribute that did not change is not written. *)
Definition write_desired (host : Host) (desired : list (string * json)) (hosts : list Host) : list Host :=
  if bool_decide (column_value (desired_config host) = nonempty (Some desired)) then hosts
  else update_where (λ h, bool_decide (h_id h = h_id host)) (set_desired (to_column <$> nonempty (Some desired))) hosts.

Definition set_agent_desired_config (p : Principal) (host_id : Z) (b : AgentConfigOverrideIn) (now : datetime) (others : fleet → fleet)
    (d : fleet) : reply () * fleet :=
  match set_inputs p (fl_cat d) host_id b with
  | Err e => (Err e, d)
  | Ok host =>
      let desired := override_dump b in
      let before := match column_value (desired_config host) with Some l => JObj l | None => JNull end in
      match audit_ blake3_hex never_refuses now (subject p) "set_agent_config_override" (h_name host) [("desired_config", before)]
              (match desired with [] => "cleared" | _ => "set" end) (session_start (fl_audit d)) with
      | (Err _, _) => (Err None, d)
      | (Ok _, w) =>
          let d := others d in
          match flush_audit (staged w) (fl_audit d) with
          | (false, a) => (Err None, mk_fleet (fl_cat d) (fl_runs d) a)
          | (true, a) => (Ok (), mk_fleet (set_hosts (write_desired host desired (hosts (fl_cat d))) (fl_cat d)) (fl_runs d) a)
          end
      end
  end.
End Config.

(** ** The listing *)

(** What of the tables a principal of a scope can learn of: its hosts with all that is on them, and their runs. *)
Definition in_view (cat : catalogue) (scope : ScopeFilter) (h : Host) : bool := is_global scope || _host_scope_predicate cat scope h.

Definition of_hosts (cat : catalogue) (scope : ScopeFilter) (id : Z) : bool :=
  existsb (λ h, bool_decide (h_id h = id) && in_view cat scope h) (hosts cat).

Definition fleet_view (scope : ScopeFilter) (d : fleet) : catalogue * list AgentRun :=
  let cat := fl_cat d in
  (mk_catalogue (filter (λ h, in_view cat scope h) (hosts cat)) (filter (λ v, of_hosts cat scope (v_host_id v)) (volumes cat)) [] [] [] [] [],
   filter (λ r, of_hosts cat scope (r_host_id r)) (fl_runs d)).

Lemma elem_of_hosts_in cat scope h : h ∈ hosts_in cat scope ↔ h ∈ hosts cat ∧ in_view cat scope h = true.
Proof. unfold hosts_in. rewrite elem_of_order_by, list_elem_of_filter, Is_true_true. unfold in_view. tauto. Qed.

Lemma of_hosts_in cat scope h : h ∈ hosts cat → in_view cat scope h = true → of_hosts cat scope (h_id h) = true.
Proof.
  intros Hh Hv. apply existsb_exists. exists h. split; [by apply list_elem_of_In|]. rewrite Hv. by rewrite bool_decide_true.
Qed.

Lemma in_view_covers cat scope h :
  in_view cat scope h = true ↔
  is_global scope = true ∨ h_id h ∈ host_ids scope ∨ ∃ v, v ∈ volumes cat ∧ v_host_id v = h_id h ∧ v_id v ∈ volume_ids scope.
Proof.
  unfold in_view, _host_scope_predicate. rewrite !orb_true_iff, bool_decide_eq_true, existsb_exists.
  setoid_rewrite <- list_elem_of_In. setoid_rewrite andb_true_iff. setoid_rewrite bool_decide_eq_true. naive_solver.
Qed.

Lemma in_view_of_view scope d h :
  h ∈ hosts (fl_cat d) → in_view (fleet_view scope d).1 scope h = in_view (fl_cat d) scope h.
Proof.
  intros Hh. apply eq_true_iff_eq. rewrite !in_view_covers. cbn [fleet_view fst volumes].
  split; (intros [?|[?|(v & Hv & Ev & Hi)]]; [by left|by right; left|right; right; exists v; split; [|done]]).
  - by apply list_elem_of_filter in Hv as [_ Hv].
  - apply list_elem_of_filter. split; [|done]. apply Is_true_true. rewrite Ev. apply of_hosts_in; [done|]. apply in_view_covers.
    right. right. by exists v.
Qed.

Lemma hosts_in_view scope d : hosts_in (fleet_view scope d).1 scope = hosts_in (fl_cat d) scope.
Proof.
  unfold hosts_in. f_equal. cbn [fleet_view fst hosts]. fold (in_view (fl_cat d) scope).
  change (filter (λ h, in_view (fleet_view scope d).1 scope h) (filter (λ h, in_view (fl_cat d) scope h) (hosts (fl_cat d))) =
          filter (λ h, in_view (fl_cat d) scope h) (hosts (fl_cat d))).
  apply filter_filter_iff. intros h Hh. rewrite (in_view_of_view scope d h) by done. tauto.
Qed.

Lemma volume_count_view scope d h :
  h ∈ hosts_in (fl_cat d) scope → volume_count (fleet_view scope d).1 h = volume_count (fl_cat d) h.
Proof.
  intros [Hh Hv]%elem_of_hosts_in. unfold volume_count. do 2 f_equal. apply filter_filter_iff. intros v _. rewrite Is_true_true.
  split; [|by intros [? _]]. intros E. split; [done|]. rewrite E. by apply of_hosts_in.
Qed.

(** The runs of other hosts do not matter. *)
Lemma latest_of_hosts hs hs' ls ls' rs ids (p : Z → bool) :
  (∀ i, i ∈ ids → p i = true) →
  latest_run_by_host (mk_cdb hs (filter (λ r, p (r_host_id r)) rs) ls) ids = latest_run_by_host (mk_cdb hs' rs ls') ids.
Proof.
  intros Hp. unfold latest_run_by_host. cbn [runs]. do 2 f_equal. rewrite !list_filter_filter.
  apply filter_ext_elem. intros r _. rewrite !Is_true_true.
  assert (r_host_id r ∈ ids → is_latest (filter (λ r, p (r_host_id r)) rs) r = is_latest rs r) as Hl.
  { intros Hr%Hp. apply eq_true_iff_eq. unfold is_latest. rewrite !forallb_forall. setoid_rewrite <- list_elem_of_In.
    setoid_rewrite list_elem_of_filter. split; intros H r' Hr'; [|apply H, Hr'].
    destruct (decide (r_host_id r' = r_host_id r)) as [E|E]; [|by rewrite bool_decide_false]. apply H. split; [by rewrite E, Hr|done]. }
  split; [intros [[Hr H] _]; by rewrite <- Hl|]. intros [Hr H]. split_and!; [done|by rewrite Hl|by apply Hp].
Qed.

(** The listing of a fleet depends on nothing but the hosts in scope, their volumes and their runs. *)
Theorem list_agents_noninterfering p d d' :
  let scope := from_grants (grants p) VIEW_METADATA in
  fleet_view scope d = fleet_view scope d' → list_agents p d = list_agents p d'.
Proof.
  intros scope Hd. assert (∀ d, list_agents p d = route VIEW_METADATA p true (λ scope,
    let found := hosts_in (fleet_view scope d).1 scope in
    let latest := latest_run_by_host (mk_cdb [] (fleet_view scope d).2 []) (h_id <$> found) in
    Ok ((λ h, host_out (fleet_view scope d).1 (latest !! h_id h) h) <$> found))) as H.
  { clear. intros d. unfold list_agents, route. destruct (guard VIEW_METADATA p) as [scope|e]; [|done].
    cbv beta iota zeta delta [mbind result_bind]. rewrite hosts_in_view. f_equal. apply list_fmap_ext. intros i h Hh%list_elem_of_lookup_2. unfold host_out.
    rewrite volume_count_view by done. cbn [fleet_view snd].
    rewrite (latest_of_hosts [] (hosts (fl_cat d)) [] [] (fl_runs d)); [done|].
    intros j (h' & -> & [Hh' Hv]%elem_of_hosts_in)%list_elem_of_fmap. by apply of_hosts_in. }
  rewrite !H. unfold route. destruct (guard VIEW_METADATA p) as [sc|e] eqn:E; [|done]. cbv beta iota delta [mbind result_bind].
  assert (sc = scope) as -> by (unfold guard, lift, Auth.require in E; repeat case_match; by simplify_eq). by rewrite Hd.
Qed.

Lemma order_by_ascends {A} (id : A → Z) l : NoDup (id <$> l) → StronglySorted Z.lt (id <$> order_by Z.leb id l).
Proof.
  intros Hn. assert (NoDup (id <$> order_by Z.leb id l)) as Hn' by (by rewrite order_by_perm). clear Hn.
  pose proof (order_by_sorted Z.leb id l) as Hs. induction Hs as [|x k _ IH Hx]; [constructor|].
  rewrite fmap_cons in *. apply NoDup_cons in Hn' as [Hni Hn]. constructor; [by apply IH|]. rewrite Forall_fmap. rewrite Forall_forall in Hx |- *.
  intros y Hy. specialize (Hx y Hy). apply Is_true_true, Z.leb_le in Hx. simpl. assert (id y ≠ id x); [|lia].
  intros E. apply Hni. rewrite <- E. by apply list_elem_of_fmap_2.
Qed.

(** An answer lists each host in scope once, by its id, with the number of its volumes and with its newest run if it has one. *)
Theorem list_agents_spec p d out :
  NoDup (h_id <$> hosts (fl_cat d)) →
  list_agents p d = Ok out →
  let scope := from_grants (grants p) VIEW_METADATA in
  has_capability p VIEW_METADATA = true ∧ StronglySorted Z.lt (ho_id <$> out) ∧
  (∀ i, i ∈ ho_id <$> out ↔ ∃ h, h ∈ hosts (fl_cat d) ∧ h_id h = i ∧ in_view (fl_cat d) scope h = true) ∧
  Forall (λ o, ∃ h run, h ∈ hosts (fl_cat d) ∧ o = host_out (fl_cat d) run h ∧
    match run with
    | Some r => r ∈ fl_runs d ∧ r_host_id r = h_id h ∧ ∀ r', r' ∈ fl_runs d → r_host_id r' = h_id h → newer_or_same r' r
    | None => ∀ r, r ∈ fl_runs d → r_host_id r ≠ h_id h
    end) out.
Proof.
  intros Hk (Hc & _ & _ & [= <-])%route_ok scope. fold scope. set (found := hosts_in (fl_cat d) scope).
  assert (∀ f, ho_id <$> ((λ h, host_out (fl_cat d) (f h) h) <$> found) = h_id <$> found) as Hids.
  { intros f. rewrite <- list_fmap_compose. by apply list_fmap_ext. }
  rewrite !Hids. split; [done|]. split_and!.
  - apply order_by_ascends. eapply sublist_NoDup; [exact Hk|]. apply sublist_map, filter_sublist_b.
  - intros i. unfold found. rewrite list_elem_of_fmap. setoid_rewrite elem_of_hosts_in. naive_solver.
  - apply Forall_fmap, Forall_forall. intros h Hh. exists h. eexists. split; [by apply elem_of_hosts_in in Hh as [? _]|]. split; [done|].
    destruct (latest_run_by_host _ _ !! _) as [r|] eqn:E.
    + by apply latest_run_some in E as (_ & ? & ? & ?).
    + intros r Hr. refine (latest_run_none _ _ _ _ E r Hr). by apply list_elem_of_fmap_2.
Qed.

(** ** The configuration *)

Section Override.
Context {B : Backend} (blake3_hex : string → string).
Context (to_column : list (string * json) → string) (from_column : string → list (string * json)).
Context (column_roundtrip : ∀ l, from_column (to_column l) = l).
Abbreviation get_agent_desired_config := (AgentRoutes.get_agent_desired_config from_column).
Abbreviation set_agent_desired_config := (AgentRoutes.set_agent_desired_config blake3_hex to_column from_column).
Abbreviation write_desired := (AgentRoutes.write_desired to_column from_column).
Abbreviation audit_inv := (AuditStore.audit_inv blake3_hex).

(** What the API accepts is what an agent lets an override set: its filter drops nothing. *)
Lemma override_keys b : Forall (λ kv, kv.1 ∈ AgentConf._OVERRIDABLE_FIELDS) (override_dump b).
Proof.
  unfold override_dump, dumped. rewrite !Forall_app. split_and!; destruct_or?; repeat case_match; repeat constructor; simpl; set_solver.
Qed.

Lemma override_dump_nil b : override_dump b = [] ↔ b = mk_override None None None None None.
Proof. destruct b as [[] [] [] [] []]; split; intros H; (done || discriminate H). Qed.

Lemma get_at_host l h :
  NoDup (cert_fingerprint <$> l) → h ∈ l → get_agent_desired_config l (cert_fingerprint h) = nonempty (column_value from_column (desired_config h)).
Proof. intros Hn Hh. unfold AgentRoutes.get_agent_desired_config. by rewrite (Query.filter_unique cert_fingerprint l h). Qed.

Lemma nonempty_idem o : nonempty (nonempty o) = nonempty o.
Proof. by destruct o as [[]|]. Qed.

(** The rows after the write: the host answers with what was set, the others are as they were. *)
Lemma write_desired_spec host desired l h :
  NoDup (h_id <$> l) → host ∈ l → h ∈ l →
  ∃ h', h' ∈ write_desired host desired l ∧ cert_fingerprint h' = cert_fingerprint h ∧
    nonempty (column_value from_column (desired_config h')) =
      (if bool_decide (h_id h = h_id host) then nonempty (Some desired) else nonempty (column_value from_column (desired_config h))).
Proof.
  intros Hn Hhost Hh.
  assert (h_id h = h_id host → h = host) as Hinj.
  { intros E. pose proof (Query.filter_unique h_id l host Hn Hhost) as Hu.
    assert (h ∈ filter (λ y, h_id y = h_id host) l) as Hin by (by apply list_elem_of_filter). rewrite Hu in Hin.
    by apply list_elem_of_singleton in Hin. }
  unfold AgentRoutes.write_desired. case_bool_decide as Hsame.
  - exists h. split; [done|]. split; [done|]. case_bool_decide as E; [|done]. by rewrite (Hinj E), Hsame, nonempty_idem.
  - unfold update_where. eexists. split; [by apply list_elem_of_fmap_2|]. case_bool_decide; [|done]. split; [done|].
    simpl. destruct desired; simpl; [done|]. by rewrite column_roundtrip.
Qed.

Lemma write_desired_fingerprints host desired l : cert_fingerprint <$> write_desired host desired l = cert_fingerprint <$> l.
Proof.
  unfold AgentRoutes.write_desired. case_bool_decide; [done|]. unfold update_where. rewrite <- list_fmap_compose.
  apply list_fmap_ext. intros i h _. simpl. by case_bool_decide.
Qed.

Lemma guard_some cap p scope : guard cap p = Ok scope → has_capability p cap = true ∧ scope = from_grants (grants p) cap.
Proof.
  unfold guard, lift, Auth.require. destruct (has_capability p cap); simpl; [|done]. destruct (is_empty _); [done|]. by intros [= <-].
Qed.

(** An override that is accepted is for one host in the scope of the caller's MANAGE_AGENTS grants.  From then on the agent of that
    host, by its certificate, gets exactly the fields that were set, or nothing if there are none, and all of them are fields an agent
    lets an override change; the agents of the other hosts get what they got.  The change left one audit row with who did it and what was
    there before. *)
Theorem override_delivered p host_id b now others d d' :
  set_agent_desired_config p host_id b now others d = (Ok (), d') →
  hosts (fl_cat (others d)) = hosts (fl_cat d) → NoDup (h_id <$> hosts (fl_cat d)) → NoDup (cert_fingerprint <$> hosts (fl_cat d)) →
  audit_inv (fl_audit (others d)) → rows (fl_audit d) `prefix_of` rows (fl_audit (others d)) →
  has_capability p MANAGE_AGENTS = true ∧ Forall (λ kv, kv.1 ∈ AgentConf._OVERRIDABLE_FIELDS) (override_dump b) ∧
  ∃ host seq rec, host ∈ hosts (fl_cat d) ∧ h_id host = host_id ∧ in_view (fl_cat d) (from_grants (grants p) MANAGE_AGENTS) host = true ∧
    (∀ h, h ∈ hosts (fl_cat d) →
      get_agent_desired_config (hosts (fl_cat d')) (cert_fingerprint h) =
      (if bool_decide (h_id h = host_id) then nonempty (Some (override_dump b))
       else get_agent_desired_config (hosts (fl_cat d)) (cert_fingerprint h))) ∧
    audit_inv (fl_audit d') ∧ rows (fl_audit d') = rows (fl_audit d) ++ [(seq, rec)] ∧
    actor rec = subject p ∧ AuditLog.action rec = "set_agent_config_override" ∧ target rec = h_name host ∧
    before_state rec = [("desired_config", match column_value from_column (desired_config host) with Some l => JObj l | None => JNull end)].
Proof.
  unfold AgentRoutes.set_agent_desired_config. intros H Hsame Hid Hfp Ha Hpre. destruct (set_inputs p (fl_cat d) host_id b) as [host|e] eqn:Ei; [|done].
  apply bind_ok in Ei as (scope & Hg%guard_some & Ei). apply bind_ok in Ei as ([] & _ & Ei). destruct Hg as [Hc ->].
  destruct (find_host_in_scope _ _ _) as [h0|] eqn:Ef; [|done]. injection Ei as ->.
  apply head_Some_elem_of, list_elem_of_filter in Ef as [[Hhid Hsc] Hin].
  destruct (audit_ _ _ _ _ _ _ _ _ _) as [r w] eqn:Eau. pose proof (keeps_audit _ _ _ _ _ _ _ _ (load_head (fl_audit d)) _ _ _ Eau) as Hlink.
  apply audit_run in Eau as [_ [[-> _]|(-> & rec & Erec & Hac & Hact & Ht & Hb & _)]]; [done|].
  destruct (flush_audit _ _) as [[] a] eqn:Efl; [|done]. injection H as <-.
  assert (staged w = [rec]) as Est by (unfold staged; by rewrite Erec).
  apply (flush_unmoved blake3_hex (staged w) (fl_audit d)) in Efl as (_ & Hinv & k & Ek & Ek2); [|done|done| |by rewrite Est].
  2:{ destruct Hlink; [split; done|done]. }
  rewrite Est in Ek2. destruct k as [|[seq rec'] [|? ?]]; [done| |done]. cbn in Ek2. injection Ek2 as ->.
  split; [done|]. split; [apply override_keys|]. exists host, seq, rec. split_and!; try done.
  intros h Hh. simpl. rewrite Hsame.
  rewrite (get_at_host (hosts (fl_cat d)) h) by done.
  destruct (write_desired_spec host (override_dump b) (hosts (fl_cat d)) h Hid Hin Hh) as (h' & Hh' & <- & Hd).
  rewrite get_at_host; [|by rewrite write_desired_fingerprints|done]. by rewrite Hd, Hhid.
Qed.
End Override.

(** A request that fails changes no configuration. *)
Theorem refused_override {B : Backend} blake3_hex to_column from_column p host_id b now others d e d' :
  set_agent_desired_config blake3_hex to_column from_column p host_id b now others d = (Err e, d') →
  fl_cat d' = fl_cat d ∨ fl_cat d' = fl_cat (others d).
Proof.
  unfold set_agent_desired_config. destruct (set_inputs p (fl_cat d) host_id b) as [host|e']; [|intros [= _ <-]; by left].
  destruct (audit_ _ _ _ _ _ _ _ _ _) as [[u|] w]; [|intros [= _ <-]; by left]. destruct (flush_audit _ _) as [[] au]; [done|].
  intros [= _ <-]. by right.
Qed.

(** ** A grant for one volume

    It makes the whole host visible, with the number of volumes that the grant does not cover, and the configuration that it may set
    is the host's: here someone with a grant for [/data] has the agent scan [/etc] in full. *)

Definition fleet_host : Host := Catalogue.mk_host 1 "nas" None None "f1" None None None None.
Definition fleet_volume (id : Z) (mp : string) : Volume := mk_volume id 1 mp None "data" "ext4" "sda" "local" None None None 0 0 0 false 0.
Definition fleet_demo : fleet :=
  mk_fleet (mk_catalogue [fleet_host] [fleet_volume 1 "/data"; fleet_volume 2 "/home"; fleet_volume 3 "/srv"] [] [] [] [] []) [] empty_db.
Definition one_volume_admin : Principal :=
  mk_principal "ada" SrcLocal 1 [] [Rbac.mk_grant ADMIN KVolume None (Some 1)] None (Some 1).
Definition etc_override : AgentConfigOverrideIn := mk_override (Some ["/etc"]) (Some ["/etc"]) None None None.

Theorem volume_grant_sees_host :
  match list_agents one_volume_admin fleet_demo with Ok [o] => ho_volume_count o = 3 | _ => False end ∧
  match get_volumes one_volume_admin (fl_cat fleet_demo) with Ok l => vo_mountpoint <$> l = ["/data"] | _ => False end.
Proof. vm_compute. by split. Qed.

Theorem volume_grant_configures_host :
  match set_agent_desired_config (B := false) demo_hash (λ _, "column") (λ _, override_dump etc_override) one_volume_admin 1 etc_override
          (utc 0) id fleet_demo with
  | (Ok _, d) =>
      get_agent_desired_config (λ _, override_dump etc_override) (hosts (fl_cat d)) "f1" =
        Some [("scan_scope", JList [JStr "/etc"]); ("fullbit_scope", JList [JStr "/etc"])]
  | _ => False
  end.
Proof. vm_compute. done. Qed.
