(* ===== verification/Suitability.v ===== *)
(** The suitability engine ([src/fathom/core/suitability.py]) and its route ([api/routers/suitability.py]): which options a host can run.

    The products [ram * 0.25] and [ram * 0.5] and the quotient of [_gb] are floats in the code and exact here: they are the same below
    2^53 bytes.  The text of the JSON column [host.facts] is read by a parameter, as the driver does. *)

From S2P Require Import Prelude PyStr PyDict Sql Json Settings Catalogue Rbac Rollup Watch Browse Visible.
From S2P Require Import PreviewRoute Remediation ReadRoutes AgentRoutes.

Local Open Scope Z_scope.

Definition RATING_GREEN : string := "green".
Definition RATING_AMBER : string := "amber".
Definition RATING_RED : string := "red".

Definition _GIB : Z := 1024 ^ 3.

Definition _LOCAL_SMALL : string := "llama3.2:3b".
Definition _LOCAL_LARGE : string := "llama3.1:8b".
Definition _CLOUD_CHAT : string := "claude-haiku-4-5".
Definition _LOCAL_EMBED_DIM : Z := 768.
Definition _VOYAGE_EMBED_DIM : Z := 1024.
Definition _BYTES_PER_VECTOR : Z := 1024.

Record HostFacts := mk_facts {
  cpu_cores : option Z; cpu_model : option string; ram_bytes : option Z; gpu_name : option string; gpu_vram_bytes : option Z;
  arch : option string;
}.

Definition known (f : HostFacts) : bool := match ram_bytes f with Some _ => true | None => false end.

Record OptionAssessment := mk_option { o_key : string; o_label : string; rating : string; o_reason : string }.

Record SuitabilityResult := mk_suitability {
  facts_known : bool; options : list OptionAssessment; recommendation : string; recommended_chat_provider : string;
  recommended_chat_model : option string; recommended_embedder : string; recommended_embedding_dim : option Z;
}.

(** Of an integer that is there. *)
Definition _gb (n : Z) : string := fmt0 n _GIB +:+ " GB".

Definition _assess_local_small (ram vram : Z) : OptionAssessment :=
  let '(r, reason) :=
    if (4 * _GIB <=? vram) || (8 * _GIB <=? ram) then (RATING_GREEN, "fits a small (3B) local model comfortably")
    else if 4 * _GIB <=? ram then (RATING_AMBER, "runs a small model on CPU — usable but slow")
    else (RATING_RED, "not enough RAM for a local model (needs ~4 GB free)") in
  mk_option "local_chat_small" "Local chat — small model (3B)" r reason.

Definition _assess_local_large (ram vram : Z) : OptionAssessment :=
  let '(r, reason) :=
    if 16 * _GIB <=? vram then (RATING_GREEN, "GPU VRAM fits an 8B+ model")
    else if (10 * _GIB <=? vram) || (32 * _GIB <=? ram) then (RATING_AMBER, "an 8B model will run but slowly (CPU or partial offload)")
    else (RATING_RED, "not enough VRAM/RAM for a large local model") in
  mk_option "local_chat_large" "Local chat — large model (8B+)" r reason.

Definition _assess_cloud_chat : OptionAssessment :=
  mk_option "cloud_chat" "Cloud chat (Anthropic/OpenAI)" RATING_GREEN
    "runs on any hardware — requires egress + an API key; prompts leave the host".

Definition _assess_embeddings (ram : Z) (estate_entry_count : option Z) : OptionAssessment :=
  let '(r, reason) :=
    match estate_entry_count with
    | Some count =>
        let index_bytes := count * _BYTES_PER_VECTOR in
        if index_bytes * 4 <=? ram then (RATING_GREEN, "~" +:+ _gb index_bytes +:+ " vector index fits well in " +:+ _gb ram +:+ " RAM")
        else if index_bytes * 2 <=? ram
        then (RATING_AMBER, "~" +:+ _gb index_bytes +:+ " index is large for " +:+ _gb ram +:+ " RAM — scope what you embed")
        else (RATING_RED, "~" +:+ _gb index_bytes +:+ " index won't fit " +:+ _gb ram +:+ " RAM — embed only key volumes")
    | None =>
        if 16 * _GIB <=? ram then (RATING_GREEN, "ample RAM for a scoped semantic index")
        else if 8 * _GIB <=? ram then (RATING_AMBER, "embed only data volumes; the vector index grows with the number of files")
        else (RATING_RED, "limited RAM — semantic search may not fit; use substring find")
    end in
  mk_option "semantic_embeddings" "Semantic search (embeddings)" r reason.

Definition rated (o : OptionAssessment) (r : string) : bool := bool_decide (rating o = r).

Definition _recommend (small large embeddings : OptionAssessment) (egress_allowed : bool) : string * string * string * string * Z :=
  let '(chat_provider, chat_model, chat_text) :=
    if rated large RATING_GREEN then ("ollama", _LOCAL_LARGE, "an 8B local model")
    else if rated small RATING_GREEN then ("ollama", _LOCAL_SMALL, "a small (3B) local model")
    else if egress_allowed then ("anthropic", _CLOUD_CHAT, "the cloud (Claude Haiku)")
    else if rated small RATING_AMBER then ("ollama", _LOCAL_SMALL, "a small local model (slow)")
    else ("anthropic", _CLOUD_CHAT, "the cloud (enable egress)") in
  let '(embedder, dim, embed_text) :=
    if rated embeddings RATING_GREEN then ("ollama", _LOCAL_EMBED_DIM, "local embeddings")
    else if egress_allowed then ("voyage", _VOYAGE_EMBED_DIM, "Voyage embeddings (cloud)")
    else ("ollama", _LOCAL_EMBED_DIM, "local embeddings (scoped)") in
  (chat_provider, chat_model, "Use " +:+ chat_text +:+ " for chat and " +:+ embed_text +:+ " for semantic search.", embedder, dim).

Definition unknown_reason : string := "hardware not reported yet — deploy/upgrade the agent to probe it".

Definition assess (facts : HostFacts) (estate_entry_count : option Z) (egress_allowed : bool) : SuitabilityResult :=
  if negb (known facts)
  then
    mk_suitability false
      [mk_option "local_chat_small" "Local chat — small model (3B)" RATING_AMBER unknown_reason;
       mk_option "local_chat_large" "Local chat — large model (8B+)" RATING_AMBER unknown_reason;
       _assess_cloud_chat;
       mk_option "semantic_embeddings" "Semantic search (embeddings)" RATING_AMBER unknown_reason]
      "Deploy or upgrade the agent so it can report this host's hardware."
      (if egress_allowed then "anthropic" else "ollama") (Some (if egress_allowed then _CLOUD_CHAT else _LOCAL_SMALL))
      (if egress_allowed then "voyage" else "ollama") (Some (if egress_allowed then _VOYAGE_EMBED_DIM else _LOCAL_EMBED_DIM))
  else
    let ram := default 0 (ram_bytes facts) in
    let vram := default 0 (gpu_vram_bytes facts) in
    let small := _assess_local_small ram vram in
    let large := _assess_local_large ram vram in
    let embeddings := _assess_embeddings ram estate_entry_count in
    let '(provider, model, text, embedder, dim) := _recommend small large embeddings egress_allowed in
    mk_suitability true [small; large; _assess_cloud_chat; embeddings] text provider (Some model) embedder (Some dim).

(** ** The route *)

(** A [bool] is an [int]. *)
Definition _as_int (v : option json) : option Z :=
  match v with Some (JInt z) => Some z | Some (JBool b) => Some (if b then 1 else 0) | _ => None end.
Definition _as_str (v : option json) : option string := match v with Some (JStr s) => Some s | _ => None end.

Definition _facts_from_json (raw : option (list (string * json))) : HostFacts :=
  match raw with
  | None | Some [] => mk_facts None None None None None None
  | Some d =>
      mk_facts (_as_int (dict_get "cpu_cores" d)) (_as_str (dict_get "cpu_model" d)) (_as_int (dict_get "ram_bytes" d))
        (_as_str (dict_get "gpu_name" d)) (_as_int (dict_get "gpu_vram_bytes" d)) (_as_str (dict_get "arch" d))
  end.

Record HostSuitabilityOut := mk_host_suitability { su_host_id : Z; su_name : string; su_facts : option HostFacts; su_result : SuitabilityResult }.
Record SuitabilityListOut := mk_suitability_list { su_hosts : list HostSuitabilityOut; su_egress_allowed : bool }.

(** The hosts are those of the fleet's listing, [AgentRoutes.hosts_in]. *)
Section Route.
Context (from_column : string → list (string * json)).

Definition host_suitability (egress : bool) (h : Host) : HostSuitabilityOut :=
  let f := _facts_from_json (from_column <$> Catalogue.facts h) in
  let r := assess f None egress in
  mk_host_suitability (h_id h) (h_name h) (if facts_known r then Some f else None) r.

Definition get_suitability (p : Principal) (s : settings) (cat : catalogue) : reply SuitabilityListOut :=
  route VIEW_METADATA p true (λ scope,
    let egress := bool_decide (Settings.get s "inference_allow_egress" = VBool true) in
    Ok (mk_suitability_list (host_suitability egress <$> hosts_in cat scope) egress)).
End Route.

(** ** The ratings *)

Definition tier (r : string) : Z := if bool_decide (r = RATING_GREEN) then 2 else if bool_decide (r = RATING_AMBER) then 1 else 0.

(** Opens every comparison of a rating. *)
Ltac rate := repeat case_match; to_prop; simplify_eq/=; unfold _GIB, _BYTES_PER_VECTOR in *; try lia; auto.

Lemma small_monotone ram vram ram' vram' :
  ram ≤ ram' → vram ≤ vram' → tier (rating (_assess_local_small ram vram)) ≤ tier (rating (_assess_local_small ram' vram')).
Proof. intros H1 H2. unfold _assess_local_small. rate; vm_compute; done. Qed.

Lemma large_monotone ram vram ram' vram' :
  ram ≤ ram' → vram ≤ vram' → tier (rating (_assess_local_large ram vram)) ≤ tier (rating (_assess_local_large ram' vram')).
Proof. intros H1 H2. unfold _assess_local_large. rate; vm_compute; done. Qed.

Lemma embeddings_monotone ram ram' count :
  ram ≤ ram' → tier (rating (_assess_embeddings ram count)) ≤ tier (rating (_assess_embeddings ram' count)).
Proof. intros H. unfold _assess_embeddings. destruct count; rate; vm_compute; done. Qed.

(** What the options of a host with known facts are. *)
Lemma assess_known f n e :
  known f = true →
  options (assess f n e) =
  [_assess_local_small (default 0 (ram_bytes f)) (default 0 (gpu_vram_bytes f));
   _assess_local_large (default 0 (ram_bytes f)) (default 0 (gpu_vram_bytes f)); _assess_cloud_chat;
   _assess_embeddings (default 0 (ram_bytes f)) n].
Proof. intros H. unfold assess. rewrite H. unfold _recommend. simpl. by repeat case_match. Qed.

(** More memory, of either kind, never worsens a rating. *)
Theorem assess_monotone f f' n e :
  known f = true → known f' = true →
  default 0 (ram_bytes f) ≤ default 0 (ram_bytes f') → default 0 (gpu_vram_bytes f) ≤ default 0 (gpu_vram_bytes f') →
  Forall2 (λ o o', o_key o = o_key o' ∧ tier (rating o) ≤ tier (rating o')) (options (assess f n e)) (options (assess f' n e)).
Proof.
  intros H H' Hr Hv. rewrite !assess_known by done. repeat constructor; simpl;
    first [by apply small_monotone|by apply large_monotone|by apply embeddings_monotone|idtac].
  all: unfold _assess_local_small, _assess_local_large, _assess_embeddings; by repeat case_match.
Qed.

(** And a larger estate never improves the one of the index. *)
Theorem larger_estate_needs_more f n n' e e' :
  known f = true → n ≤ n' →
  Forall2 (λ o o', tier (rating o') ≤ tier (rating o)) (options (assess f (Some n) e)) (options (assess f (Some n') e')).
Proof.
  intros H Hn. rewrite !assess_known by done. do 3 (apply Forall2_cons_2; [lia|]). apply Forall2_cons_2; [|constructor].
  unfold _assess_embeddings. rate; vm_compute; done.
Qed.

(** A host without room for the small model has none for the large one. *)
Lemma small_before_large ram vram :
  rating (_assess_local_small ram vram) ≠ RATING_GREEN → rating (_assess_local_large ram vram) = RATING_RED.
Proof. unfold _assess_local_small, _assess_local_large. rate; done. Qed.

Inductive chat_choice (small large : string) (egress : bool) : string → string → Prop :=
| choose_large : large = RATING_GREEN → chat_choice small large egress "ollama" _LOCAL_LARGE
| choose_small : large ≠ RATING_GREEN → small = RATING_GREEN → chat_choice small large egress "ollama" _LOCAL_SMALL
| choose_slow : small = RATING_AMBER → egress = false → chat_choice small large egress "ollama" _LOCAL_SMALL
| choose_cloud : small ≠ RATING_GREEN → large = RATING_RED → egress = true ∨ small = RATING_RED →
    chat_choice small large egress "anthropic" _CLOUD_CHAT.

(** What is recommended for a known host: the largest local model that fits, whatever the egress gate; a slow one rather than the cloud
    while the gate is closed; a local model never if it is rated red; and the cloud with a closed gate only where no local model fits. *)
Theorem recommendation_spec f n e :
  known f = true →
  let r := assess f n e in
  ∃ small large cloud emb m d, options r = [small; large; cloud; emb] ∧
    recommended_chat_model r = Some m ∧ chat_choice (rating small) (rating large) e (recommended_chat_provider r) m ∧
    recommended_embedding_dim r = Some d ∧
    (recommended_embedder r, d) =
      (if e && negb (bool_decide (rating emb = RATING_GREEN)) then ("voyage", _VOYAGE_EMBED_DIM) else ("ollama", _LOCAL_EMBED_DIM)).
Proof.
  intros H r. exists (_assess_local_small (default 0 (ram_bytes f)) (default 0 (gpu_vram_bytes f))),
    (_assess_local_large (default 0 (ram_bytes f)) (default 0 (gpu_vram_bytes f))), _assess_cloud_chat,
    (_assess_embeddings (default 0 (ram_bytes f)) n).
  unfold r. rewrite assess_known by done. unfold assess. rewrite H. cbn [negb].
  pose proof (small_before_large (default 0 (ram_bytes f)) (default 0 (gpu_vram_bytes f))) as Hsl.
  set (s := _assess_local_small _ _) in *. set (l := _assess_local_large _ _) in *. set (emb := _assess_embeddings _ _).
  assert (rating s = RATING_GREEN ∨ rating s = RATING_AMBER ∨ rating s = RATING_RED) as Hs.
  { unfold s, _assess_local_small. repeat case_match; simplify_eq/=; auto. }
  clearbody s l emb. unfold _recommend, rated.
  destruct e, (decide (rating emb = RATING_GREEN)) as [Ee|Ee], (decide (rating l = RATING_GREEN)) as [El|El],
    (decide (rating s = RATING_GREEN)) as [Es|Es], (decide (rating s = RATING_AMBER)) as [Ea|Ea];
    rewrite ?(bool_decide_true _ Ee), ?(bool_decide_false _ Ee), ?(bool_decide_true _ El), ?(bool_decide_false _ El),
      ?(bool_decide_true _ Es), ?(bool_decide_false _ Es), ?(bool_decide_true _ Ea), ?(bool_decide_false _ Ea);
    eexists _, _; (split; [done|]); (split; [done|]); (split; [|done]); first [by apply choose_large|by apply choose_small|by apply choose_slow|idtac];
    (apply choose_cloud; [done|by apply Hsl|]); first [by left|right; naive_solver].
Qed.

(** A host that reported nothing is rated amber throughout, and its recommendation follows the gate alone. *)
Theorem unknown_host n e :
  let r := assess (_facts_from_json None) n e in
  facts_known r = false ∧ Forall (λ o, rating o ≠ RATING_RED) (options r) ∧
  (recommended_chat_provider r, recommended_embedder r) = (if e then ("anthropic", "voyage") else ("ollama", "ollama")).
Proof. destruct e; (split_and!; [done| |done]); repeat constructor; done. Qed.

(** ** The route *)

(** The facts of an agent's frame, as the ingest stores them: every key is there, absent ones are null. *)
Definition facts_dump (f : HostFacts) : list (string * json) :=
  let int o := match o with Some z => JInt z | None => JNull end in
  let str o := match o with Some t => JStr t | None => JNull end in
  [("cpu_cores", int (cpu_cores f)); ("cpu_model", str (cpu_model f)); ("ram_bytes", int (ram_bytes f)); ("gpu_name", str (gpu_name f));
   ("gpu_vram_bytes", int (gpu_vram_bytes f)); ("arch", str (arch f))].

Lemma facts_roundtrip f : _facts_from_json (Some (facts_dump f)) = f.
Proof. by destruct f as [[] [] [] [] [] []]. Qed.

Lemma not_local_chat k : k ≠ "local_chat_small" → k ≠ "local_chat_large" → k ∉ ["local_chat_small"; "local_chat_large"].
Proof. intros H1 H2 [?|[?|?%elem_of_nil]%elem_of_cons]%elem_of_cons; done. Qed.

Lemma embeddings_key ram n : o_key (_assess_embeddings ram n) = "semantic_embeddings".
Proof. unfold _assess_embeddings. by repeat case_match. Qed.

Section RouteTheorems.
Context (from_column : string → list (string * json)).
Abbreviation get_suitability := (Suitability.get_suitability from_column).

Lemma sees_hosts_only p s d :
  get_suitability p s (fl_cat d) =
  (scope ← guard VIEW_METADATA p; get_suitability p s (fleet_view scope d).1).
Proof.
  unfold Suitability.get_suitability, route. destruct (guard VIEW_METADATA p) as [scope|e]; [|done].
  cbv beta iota delta [mbind result_bind]. by rewrite hosts_in_view.
Qed.

(** The assessment depends on nothing of the fleet but the hosts in scope. *)
Theorem suitability_noninterfering p s d d' :
  let scope := from_grants (grants p) VIEW_METADATA in
  fleet_view scope d = fleet_view scope d' → get_suitability p s (fl_cat d) = get_suitability p s (fl_cat d').
Proof.
  intros scope Hd. rewrite !sees_hosts_only. destruct (guard VIEW_METADATA p) as [sc|e] eqn:E; [|done].
  apply guard_some in E as [_ ->]. cbv beta iota delta [mbind result_bind]. fold scope. by rewrite Hd.
Qed.

(** Each host in scope is assessed once on the facts that its agent reported, under the egress setting of the moment; and where that
    gate is closed nothing that leaves the host is recommended for a host on which a local model fits. *)
Theorem suitability_spec p s cat out :
  get_suitability p s cat = Ok out →
  su_host_id <$> su_hosts out = h_id <$> hosts_in cat (from_grants (grants p) VIEW_METADATA) ∧
  Forall (λ o, ∃ h, h ∈ hosts cat ∧ su_host_id o = h_id h ∧ ∀ f, facts h = None ∨ from_column <$> facts h = Some (facts_dump f) →
    su_result o = assess (match facts h with None => _facts_from_json None | Some _ => f end) None (su_egress_allowed out)) (su_hosts out) ∧
  (su_egress_allowed out = false → Forall (λ o, recommended_embedder (su_result o) = "ollama" ∧
     (recommended_chat_provider (su_result o) = "ollama" ∨
      Forall (λ a, o_key a ∈ ["local_chat_small"; "local_chat_large"] → rating a = RATING_RED) (options (su_result o)))) (su_hosts out)).
Proof.
  intros (_ & _ & _ & [= <-])%route_ok. set (scope := from_grants _ _). split_and!.
  - simpl. rewrite <- list_fmap_compose. by apply list_fmap_ext.
  - apply Forall_fmap, Forall_forall. intros h [Hh _]%elem_of_hosts_in. exists h. split; [done|]. split; [done|]. intros f Hf.
    cbn [su_result host_suitability su_egress_allowed]. f_equal. destruct (facts h) as [t|]; [|done]. destruct Hf as [|[= Hf]]; [done|].
    change (_facts_from_json (Some (from_column t)) = f). by rewrite Hf, facts_roundtrip.
  - simpl. intros ->. apply Forall_fmap, Forall_forall. intros h _. simpl. set (f := _facts_from_json _).
    destruct (known f) eqn:Ek.
    + destruct (recommendation_spec f None false Ek) as (small & large & cloud & emb & m & dim & Ho & _ & Hc & _ & He).
      simpl in He. injection He as -> _. split; [done|]. inversion Hc as [| | |H1 H2 H3]; [by left..|]. right.
      rewrite Ho. rewrite assess_known in Ho by done. injection Ho as <- <- <- <-. destruct H3 as [|H3]; [done|].
      apply Forall_cons; split; [done|]. apply Forall_cons; split; [done|].
      repeat (apply Forall_cons; split; [intros Hk; exfalso; revert Hk; apply not_local_chat|]);
        rewrite ?embeddings_key; by try apply Forall_nil.
    + unfold assess. rewrite Ek. simpl. by split; [|left].
Qed.
End RouteTheorems.
