(* ===== verification/Workers.v ===== *)
(** The periodic workers ([src/fathom/workers/retention.py], [settings_refresh.py], whose shape those of [watch.py] and
    [embedding.py] share): one asyncio task that ticks, sleeps, and survives what a tick raises.

    A tick is one transaction on the state that the worker shares with the rest of the program: it commits as a whole, or raises and
    leaves the state as it was.  Between its start and its end the task may be cancelled.  Times are in microseconds. *)

From S2P Require Import Prelude PyStr PyDict Catalogue Settings SettingsStore.
From S2P Require Ingest.

Local Open Scope Z_scope.

(** ** The task *)

Inductive task :=
| Ticking
| Sleeping (until : Z).

(** [_task] with what it is doing, and the shared state. *)
Record worker (S : Type) := mk_worker { _task : option task; shared : S }.
Arguments mk_worker {S} _ _.
Arguments _task {S} _.
Arguments shared {S} _.

Section Worker.
(** [tick connected now]: what a tick does with a database that answers, or does not; None is an exception. *)
Context {S : Type} (tick : bool → Z → S → option S) (interval : S → Z).

(** [__init__]. *)
Definition create (interval_seconds : Z) (s : S) : result string (worker S) :=
  _ ← raise_if (interval_seconds <=? 0) "interval_seconds must be > 0"; Ok (mk_worker None s).

(** What can happen: the two methods of the worker, the end of a tick, the end of a sleep, and a transaction of anyone else. *)
Inductive event :=
| Start
| Stop
| TickEnd (now : Z) (connected : bool)
| Wake (now : Z)
| Other (f : S → S).

Definition start (w : worker S) : worker S :=
  match _task w with Some _ => w | None => mk_worker (Some Ticking) (shared w) end.

(** The cancelled task rolls its transaction back. *)
Definition stop (w : worker S) : worker S := mk_worker None (shared w).

(** One pass of the [try] in [_loop]. *)
Definition tick_end (now : Z) (connected : bool) (w : worker S) : worker S :=
  match _task w with
  | Some Ticking =>
      let s := default (shared w) (tick connected now (shared w)) in mk_worker (Some (Sleeping (now + interval s))) s
  | _ => w
  end.

Definition wake (now : Z) (w : worker S) : worker S :=
  match _task w with
  | Some (Sleeping until) => if until <=? now then mk_worker (Some Ticking) (shared w) else w
  | _ => w
  end.

Definition step (w : worker S) (e : event) : worker S :=
  match e with
  | Start => start w
  | Stop => stop w
  | TickEnd now connected => tick_end now connected w
  | Wake now => wake now w
  | Other f => mk_worker (_task w) (f (shared w))
  end.

Definition run (w : worker S) (es : list event) : worker S := foldl step w es.

(** ** Lemmas *)

Lemma run_app w es es' : run w (es ++ es') = run (run w es) es'.
Proof. apply foldl_app. Qed.

Definition is_stop (e : event) : bool := match e with Stop => true | _ => false end.

(** Once started, only [stop] ends the task: neither what a tick raises nor a second start does. *)
Theorem loop_survives w es :
  forallb (λ e, negb (is_stop e)) es = true → is_Some (_task w) → is_Some (_task (run w es)).
Proof.
  revert w. induction es as [|e es IH]; intros w; [done|]. cbn [forallb]. intros [He Hes]%andb_true_iff Hw. simpl. apply IH; [done|].
  destruct e; simpl; [| |unfold tick_end|unfold wake|]; try done; destruct Hw as [t Ht]; unfold start; rewrite ?Ht; eauto;
    destruct t; rewrite ?Ht; eauto. case_match; eauto.
Qed.

(** A task that is asleep ticks again once its interval is over, and so a tick that failed is retried. *)
Theorem tick_follows w now connected until :
  _task w = Some (Sleeping until) → until ≤ now →
  run w [Wake now; TickEnd now connected] =
    let s := default (shared w) (tick connected now (shared w)) in mk_worker (Some (Sleeping (now + interval s))) s.
Proof. intros H Hn. simpl. unfold wake. rewrite H, (proj2 (Z.leb_le _ _) Hn). done. Qed.

(** What the state can come from: the transactions of others and whole ticks. *)
Inductive reachable (s0 : S) : S → Prop :=
| at_first : reachable s0 s0
| after_other f s : reachable s0 s → reachable s0 (f s)
| after_tick c now s s' : reachable s0 s → tick c now s = Some s' → reachable s0 s'.

Theorem only_whole_ticks w es : reachable (shared w) (shared (run w es)).
Proof.
  induction es as [|e es IH] using rev_ind; [constructor|]. rewrite run_app. simpl. set (v := run w es) in *. clearbody v.
  destruct e as [| |now c|now|f]; simpl; [unfold start|done|unfold tick_end|unfold wake|by apply after_other].
  - by destruct (_task v).
  - destruct (_task v) as [[]|]; [|done..]. simpl. destruct (tick c now (shared v)) as [s'|] eqn:E; [|done].
    by apply (after_tick _ c now (shared v)).
  - destruct (_task v) as [[|u]|]; [done| |done]. by destruct (u <=? now).
Qed.

(** A stopped worker does nothing. *)
Theorem stopped_is_idle w es :
  forallb (λ e, match e with Start | Other _ => false | _ => true end) es = true → shared (run (stop w) es) = shared w.
Proof.
  assert (∀ v, _task v = None → forallb (λ e, match e with Start | Other _ => false | _ => true end) es = true → shared (run v es) = shared v) as H.
  { induction es as [|e es IH]; intros v Hv; [done|]. cbn [forallb]. intros [He Hes]%andb_true_iff. simpl.
    assert (step v e = v ∨ step v e = stop v) as [E|E].
    { destruct e; simpl; try done; [by right|left|left]; unfold tick_end, wake; by rewrite Hv. }
    - by rewrite E, IH.
    - rewrite E. by rewrite IH. }
  by apply (H (stop w)).
Qed.
End Worker.

(** ** The change log *)

Definition DEFAULT_INTERVAL_SECONDS : Z := 24 * 60 * 60.

Section Retention.
Context (retention_days : Z).

(** [run_retention] on the table. *)
Definition run_retention (connected : bool) (now : Z) (log : list ChangeLog) : option (list ChangeLog) :=
  if negb connected then None else
  match Ingest.prune_change_log retention_days now log with Ok (_, log) => Some log | Err _ => None end.

Definition second : Z := 1000000.

Definition retention_step : worker (list ChangeLog) → event → worker (list ChangeLog) :=
  step run_retention (λ _, DEFAULT_INTERVAL_SECONDS * second).

Definition no_older (cutoff : Z) (log : list ChangeLog) : Prop := Forall (λ c, cutoff ≤ c_ts c) log.

Lemma prune_spec now log :
  1 ≤ retention_days →
  ∃ log', run_retention true now log = Some log' ∧ no_older (now - retention_days * Ingest.day) log' ∧
    ∀ c, c ∈ log' ↔ c ∈ log ∧ now - retention_days * Ingest.day ≤ c_ts c.
Proof.
  intros Hr. unfold run_retention, Ingest.prune_change_log, raise_if. cbn [negb].
  replace (retention_days <? 1) with false by (symmetry; by apply Z.ltb_ge).
  assert (∀ c, c ∈ filter (λ c, negb (c_ts c <? now - retention_days * Ingest.day)) log ↔ c ∈ log ∧ now - retention_days * Ingest.day ≤ c_ts c) as H.
  { intros c. rewrite list_elem_of_filter, Is_true_true, negb_true_iff, Z.ltb_ge. tauto. }
  eexists. split; [done|]. split; [|done]. apply Forall_forall. by intros c [_ Hc]%H.
Qed.

(** From the end of a tick that found the database on, nothing in the feed is older than the window was then, as long as the other
    writers add nothing older; whether later ticks fail, the worker is stopped or started makes no difference. *)
Theorem feed_is_capped w now es :
  1 ≤ retention_days → _task w = Some Ticking →
  let cutoff := now - retention_days * Ingest.day in
  Forall (λ e, match e with Other f => ∀ log, no_older cutoff log → no_older cutoff (f log) | _ => True end) es →
  no_older cutoff (shared (foldl retention_step w (TickEnd now true :: es))).
Proof.
  intros Hr Hw cutoff Hes. cbn [foldl]. set (v := retention_step w (TickEnd now true)).
  assert (no_older cutoff (shared v)) as Hv.
  { unfold v, retention_step. simpl. unfold tick_end. rewrite Hw. destruct (prune_spec now (shared w) Hr) as (log' & E & H & _). rewrite E. exact H. }
  clearbody v. revert v Hv. induction Hes as [|e es He _ IH]; intros v Hv; [exact Hv|]. simpl. apply IH.
  destruct e as [| |t c|t|f]; simpl; [unfold start|done|unfold tick_end|unfold wake|by apply He].
  - by destruct (_task v).
  - destruct (_task v) as [[]|]; [|done..]. simpl. destruct c; [|done]. destruct (prune_spec t (shared v) Hr) as (log' & -> & _ & H).
    simpl. unfold no_older in *. rewrite Forall_forall in Hv |- *. intros x [Hx _]%H. by apply Hv.
  - destruct (_task v) as [[|u]|]; [done| |done]. by destruct (u <=? t).
Qed.

(** Nothing within the window is ever removed. *)
Theorem feed_keeps_window w now c :
  1 ≤ retention_days → c ∈ shared w → now - retention_days * Ingest.day ≤ c_ts c →
  c ∈ shared (retention_step w (TickEnd now true)).
Proof.
  intros Hr Hc Ht. unfold retention_step. simpl. unfold tick_end. destruct (_task w) as [[]|]; [|done..]. simpl.
  destruct (prune_spec now (shared w) Hr) as (log' & -> & _ & H). simpl. by apply H.
Qed.
End Retention.

(** ** The settings *)

Section Refresh.
Context (decrypt : string → option string).

(** The store in the memory of one process, over tables that all of them share. *)
Record process := mk_process { pr_tables : database; pr_store : RuntimeSettingsStore }.

(** An SQLAlchemyError is caught within [refresh], so this tick never raises. *)
Definition refresh_tick (connected : bool) (now : Z) (p : process) : option process :=
  Some (mk_process (pr_tables p) (refresh decrypt (if connected then Some (pr_tables p) else None) (pr_store p))).

Definition refresh_step : worker process → event → worker process := step refresh_tick (λ _, 15 * second).

(** After a tick a store is what a new one would load: whatever another process stored before is in force. *)
Theorem stores_converge w w' now now' :
  _task w = Some Ticking → _task w' = Some Ticking → pr_tables (shared w) = pr_tables (shared w') →
  _overrides (pr_store (shared (refresh_step w (TickEnd now true)))) = _overrides (pr_store (shared (refresh_step w' (TickEnd now' true)))).
Proof. intros H H' E. unfold refresh_step. simpl. unfold tick_end. rewrite H, H'. simpl. by rewrite E. Qed.

(** But a tick that finds the database away drops every override of this process until the next one: the settings are those of the
    environment, whatever the operator had stored over them. *)
Theorem blip_drops_overrides coerce bases base w now :
  _task w = Some Ticking →
  (effective coerce bases base (pr_store (shared (refresh_step w (TickEnd now false))))).1 = bases base.
Proof. intros H. unfold refresh_step. simpl. unfold tick_end. rewrite H. simpl. reflexivity. Qed.
End Refresh.
